(* ===== verification/_CoqProject ===== *)
-Q . S2P
Prelude.v
Abi.v
SysCall.v
Scheduler.v
Server.v
Memory.v
PageTable.v
MemMap.v
Process.v
ArchProcess.v
Display.v
Bytes.v
RamFs.v
TarFs.v
FsServer.v
Elf.v
Boot.v
Services.v
Spawn.v
Handler.v
KernelInv.v
Dispatch.v
Calls.v
Virtio.v
Gic.v
Blk.v
Net.v
NetDev.v
Input.v
Uart.v
Entry.v
Machine.v
TickTimer.v
Names.v
AsyncRt.v
FbConsole.v
ProcMan.v
Shell.v
LogServer.v
