(* ===== verification/Prelude.v ===== *)
(** * Verification of the BeetOS kernel and its core services

    BeetOS (under [src/]) is a microkernel for AArch64 derived from Xous, with a
    few services in user space.  This library models its core and proves what makes
    it correct.  The paths below are relative to [src/].

    ** The program and the files

    The kernel ([xous/kernel/src]) is entered by system calls, interrupts and
    faults.  A call decoded from registers ([xous-rs]) is checked and carried out by
    [syscall.rs] on the tables of [services.rs]: processes with their threads,
    servers with their message queues, the display, the interrupt table, the page
    allocator and the page tables.  A call that gives up the processor ends in
    [scheduler.rs], which polls kernel futures and picks the next thread.

    - [Prelude]: this header; results, the state-and-panic monad [M], lemmas on
      words, bits and lists shared by all files.
    - [Abi], [SysCall]: [xous-rs/src/definitions*], [messages/*] and [syscall.rs]: data
      types of the interface with their register encodings, the system calls.
    - [Scheduler]: [scheduler.rs], the intrusive priority queues, with abstract FIFO
      queues as specification.
    - [Server]: [server.rs], message queues, replies, permissions.
    - [Memory]: the page allocator of [mem.rs]; [PageTable]: [arch/aarch64/mem.rs];
      [MemMap]: mapping, unmapping and transfer of memory ([mem.rs], [services.rs]).
    - [Process]: [process.rs], against the class [ReadyQueues] of what a scheduler
      promises, which [Scheduler] implements; [ArchProcess]: the register contexts of
      [arch/aarch64/process.rs].
    - [Display]: the ring buffers of the display arbiter of [services.rs].
    - [Bytes], [RamFs], [TarFs], [FsServer]: the file system server [os/fs] with its
      interface [api/fs].
    - [Elf], [Boot]: [arch/aarch64/elf.rs] and the memory discovery of [boot.rs].
    - [Services], [Spawn], [Handler]: [services.rs], [kfuture.rs], [irq.rs] and
      [syscall.rs] over the whole kernel state [Kernel], composed as the code composes
      them.
    - [KernelInv], [Dispatch], [Calls]: theorems about that whole: the invariant from
      boot on, the end of the choice of the next thread, the guarantees of calls.
    - [Virtio], [Gic], [Blk], [Net], [NetDev], [Input], [Uart]: the drivers of
      [platform/qemu_virt]: [virtio.rs], [gic.rs] with [timer.rs], [blk.rs],
      [net_stack.rs], [net.rs], [input.rs] and [uart.rs].  What a device or a driver
      promises to its client is a class ([VirtioBlkDevice], [NetDriver]).
    - [Entry]: [arch/aarch64/irq.rs], the handlers of exceptions over the class
      [Board]; [Machine]: the board made of the drivers above.
    - [TickTimer]: [xous/ticktimer]; [Names]: [xous/names]; [ProcMan]: [os/procman]
      with [api/procman]: servers in user space.
    - [AsyncRt]: [xous/async-rt], the runtime for asynchronous servers.
    - [FbConsole]: [beetos/src/fb_console.rs] and [font.rs]; [Shell]: [apps/shell];
      [LogServer]: [os/log].

    ** Conventions

    A Rust panic is [None] of the monad [M]; an [Err] is a value and keeps the
    mutations made before it.  Machine words are [Z] with their width written out;
    arithmetic that the build checks for overflow (the tool builds with debug
    assertions) panics.  Slices and arrays are lists, with indexing that panics out
    of range.  Maps keyed by number are [gmap].  What the hardware or code outside
    the repository supplies (random numbers, words read from user memory, the
    embedded programs, linker symbols) is a parameter.

    The queue of a server lies, in the code, in a page of its owner's address space,
    which the kernel neither zeroes nor protects from being unmapped, and reads
    whichever address space is active.  Here the queue is part of the server; what the
    page holds when the server is created is an argument ([in_page] of [Handler]), and
    the invariants of [KernelInv] and [Entry] are about runs in which it holds zeros
    and stays mapped ([queue_pages_hold]).  [Server.stale_page_delivers] shows what
    happens otherwise.  The allocator records that it would broadcast low memory
    ([mm_events]); the messages of that broadcast are not sent in the model.

    ** What the theorems show

    Whole kernel: the invariant that ties processes, threads, queues and servers
    together holds along every run from boot; choosing a thread ends; blocking calls
    are answered once; an ended process leaves nothing behind; the checks of calls
    cannot be passed.  Memory: no frame is shared by map, unmap, heap and send (with
    the counterexample for lending), translations are exact, W^X, the allocator hands
    out unowned pages.  Queues: refinement of FIFO queues by the scheduler, the server
    and the display rings.  Codecs: system calls, messages and tokens round-trip.
    Loading: the segments of a program that lie on pages of their own, relocations,
    and the memory node of a device tree.  Files: the RAM disk refines a finite map,
    and an archive reads as the directory tree that was written to it.
    Exceptions: the kernel invariant holds across every entry; on the QEMU board a
    timer tick saves the interrupted thread, takes the head of the highest queue and
    goes on with its registers.  Devices: a virtqueue never hands out a descriptor that
    the device holds; a sector reads back as written when the device reports success;
    the network stack never panics on frames of Ethernet's length, answers echo requests
    and obtains its lease; all events of a keyboard interrupt reach the display.  User
    space: the name server gives only the rights that the manifests name, and keeps or
    answers every well-formed request; sleepers are woken on time; the runtime delivers
    every message, ends if it is notified when it waits, and its timers and combinators
    do what they say; the shell gives up the display around a program, if the kernel
    grants it what it asks for; paths resolve as a reference walk over components says;
    the console refines a terminal of text cells, and the log server appends each
    message of its protocol to what it shows; a command line round-trips through the
    process manager.
    Theorems of kind error state where the code stops or misbehaves; the manifest's
    findings name the lines.

    ** Bounds and fuel

    Loops over tables are structural.  [activate_loop] has fuel 64 * 32 + 1, one more
    than there are threads, and [activate_current_dispatches] shows that it is never
    used up; [hand_off] one more than the waiters; [wake_available] one round per bit
    of a 64-bit mask; the device-tree parser takes any fuel and [fdt_parsed] says how
    much is enough; the scans of [Server] and [TarFs] are shown total.
    Loops that wait for a device take the number of looks as fuel, and their theorems
    say at which look the device has answered; the rounds of [Net] are ticks of the
    timer, with the clock below 2^64 for the deadlines of DHCP.  The loops of
    [TickTimer] that wake sleepers and that look for a free key have one round per
    entry of the heap; the wake-up loop of [Names] one more than there are waiting
    connections.  In [AsyncRt] draining a server has one round per message held; the
    rounds of [run] are bounded by [executor_finishes], which also says when [run] stays
    blocked in [wait_event].
    The list of programs of [Shell] has one round per program.

    ** Not modelled, and why

    Assembly, cache and TLB maintenance, the system registers of the CPU interface
    and of the timer: they have no meaning in this model.  The hosted and test
    architectures, which simulate the kernel over sockets.  The kernel's debug console
    and its own shell, which print.  The loader, which is written against the
    registers of a 32-bit board whose crates are outside the repository.  The set-up
    of boards and of the ramfb device.  The wrappers of [xous-rs] and [api] that issue
    one system call each, the hosted log server and the random number server, the
    buffers of [ipc] (over an external serialisation crate), the manifest of
    applications, the example programs, [coreutils] (written against operations that
    the interface of the file system no longer has) and the build tool.  The contents of user memory, except where the ELF
    loader and the servers write it. *)

From Stdlib Require Import ZArith Lia Bool.
From stdpp Require Export base tactics numbers list_numbers option.
From stdpp Require Export sets list.

(** ** Scopes *)

Declare Scope kernel_scope.
Delimit Scope kernel_scope with kernel.

(** ** Outcomes of Rust code

    A Rust function may return normally, return [Err] through [?], or panic.
    [res] is [core::result::Result]; the monad [M] threads the mutated state
    and uses [None] for a panic, so an [Err] keeps the mutations made before
    it and a panic keeps nothing. *)

Inductive res (A E : Type) : Type :=
| Ok (a : A)
| Err (e : E).
Arguments Ok {A E} a.
Arguments Err {A E} e.
#[export] Instance res_eq_dec {A E} `{EqDecision A, EqDecision E} : EqDecision (res A E).
Proof. solve_decision. Defined.

Definition is_ok {A E} (r : res A E) : bool :=
  match r with Ok _ => true | Err _ => false end.

Definition ok_or {A E} (o : option A) (e : E) : res A E :=
  match o with Some a => Ok a | None => Err e end.

Definition res_map {A B E} (f : A -> B) (r : res A E) : res B E :=
  match r with Ok a => Ok (f a) | Err e => Err e end.

Definition res_bind {A B E} (r : res A E) (k : A -> res B E) : res B E :=
  match r with Ok a => k a | Err e => Err e end.

Definition M (S A : Type) : Type := S -> option (A * S).

Definition ret {S A} (a : A) : M S A := fun s => Some (a, s).
Definition bind {S A B} (m : M S A) (k : A -> M S B) : M S B :=
  fun s => match m s with Some (a, s') => k a s' | None => None end.
Definition panic {S A} : M S A := fun _ => None.
Definition gets {S A} (f : S -> A) : M S A := fun s => Some (f s, s).
Definition modify {S} (f : S -> S) : M S unit := fun s => Some (tt, f s).

(** [assert!(b)] *)
Definition assertb {S} (b : bool) : M S unit := if b then ret tt else panic.
(** [o.unwrap()] and [o.expect(..)] *)
Definition expect {S A} (o : option A) : M S A :=
  match o with Some a => ret a | None => panic end.
(** [m?] : early return of an [Err] *)
Definition bind_try {S A B E} (m : M S (res A E)) (k : A -> M S (res B E)) : M S (res B E) :=
  bind m (fun r => match r with Ok a => k a | Err e => ret (Err e) end).

Notation "x <- m ;; k" := (bind m (fun x => k))
  (at level 100, m at next level, right associativity) : kernel_scope.
Notation "x <-? m ;; k" := (bind_try m (fun x => k))
  (at level 100, m at next level, right associativity) : kernel_scope.
Notation "x <-! r ;; k" := (res_bind r (fun x => k))
  (at level 100, r at next level, right associativity) : kernel_scope.

Open Scope kernel_scope.
Open Scope Z_scope.

(** Inversion of monadic runs: a run that returned went through each step. *)
Lemma run_bind {S A B} (m : M S A) (k : A -> M S B) s b s' :
  (x <- m ;; k x) s = Some (b, s') <->
  exists a s1, m s = Some (a, s1) /\ k a s1 = Some (b, s').
Proof.
  unfold bind. split.
  - destruct (m s) as [[a s1]|]; [eauto | done].
  - intros (a & s1 & -> & ?). done.
Qed.

(** Running one step. *)
Lemma bind_run {S A B} (m : M S A) (k : A -> M S B) s a s1 : m s = Some (a, s1) -> (x <- m ;; k x) s = k a s1.
Proof. unfold bind. by intros ->. Qed.
Lemma try_run {S A B E} (m : M S (res A E)) (k : A -> M S (res B E)) s a s1 :
  m s = Some (Ok a, s1) -> (x <-? m ;; k x) s = k a s1.
Proof. unfold bind_try, bind. by intros ->. Qed.
Lemma try_err {S A B E} (m : M S (res A E)) (k : A -> M S (res B E)) s e s1 :
  m s = Some (Err e, s1) -> (x <-? m ;; k x) s = Some (Err e, s1).
Proof. unfold bind_try, bind. by intros ->. Qed.

Lemma bind_ret_l {S A B} (a : A) (k : A -> M S B) s : (x <- ret a ;; k x) s = k a s.
Proof. done. Qed.

Lemma bind_assoc {S A B C} (m : M S A) (f : A -> M S B) (g : B -> M S C) s :
  (y <- (x <- m ;; f x) ;; g y) s = (x <- m ;; y <- f x ;; g y) s.
Proof. unfold bind. destruct (m s) as [[? ?]|]; done. Qed.

Lemma assertb_Some {S} b (s : S) r : assertb b s = Some r <-> b = true /\ r = (tt, s).
Proof.
  destruct b; cbn; split.
  - intros [= <-]. done.
  - intros [_ ->]. done.
  - done.
  - intros [? _]. done.
Qed.

Lemma expect_Some {S A} (o : option A) (s : S) r :
  expect o s = Some r <-> exists a, o = Some a /\ r = (a, s).
Proof.
  destruct o as [a|]; cbn; split.
  - intros [= <-]. eauto.
  - intros (a' & [= ->] & ->). done.
  - done.
  - intros (a' & ? & _). done.
Qed.

(** ** Machine words *)

Definition wrap (w x : Z) : Z := x mod 2 ^ w.
Abbreviation u8 := (wrap 8).
Abbreviation u32 := (wrap 32).
Abbreviation usize := (wrap 64).
Definition USIZE_MAX : Z := 2 ^ 64 - 1.
Definition U32_MAX : Z := 2 ^ 32 - 1.
Definition U8_MAX : Z := 255.

(** [fits w x]: the value is representable in [w] unsigned bits. *)
Definition fits (w x : Z) : bool := (0 <=? x) && (x <? 2 ^ w).

Lemma fits_spec w x : fits w x = true <-> 0 <= x < 2 ^ w.
Proof. unfold fits. rewrite andb_true_iff, Z.leb_le, Z.ltb_lt. done. Qed.

Lemma wrap_fits w x : 0 <= w -> fits w (wrap w x) = true.
Proof. intros Hw. apply fits_spec, Z.mod_pos_bound. lia. Qed.

Lemma wrap_small w x : fits w x = true -> wrap w x = x.
Proof. intros H%fits_spec. apply Z.mod_small. lia. Qed.

(** [i32 as usize] then [usize as i32]: sign extension and truncation. *)
Definition to_i32 (x : Z) : Z := let y := x mod 2 ^ 32 in if y <? 2 ^ 31 then y else y - 2 ^ 32.

Lemma to_i32_usize x : - 2 ^ 31 <= x < 2 ^ 31 -> to_i32 (usize x) = x.
Proof.
  intros Hx. unfold to_i32, wrap.
  assert (Hm : (x mod 2 ^ 64) mod 2 ^ 32 = x mod 2 ^ 32)
    by (apply Z.mod_mod_divide; exists (2 ^ 32); lia).
  rewrite Hm. destruct (Z.leb_spec 0 x).
  - rewrite Z.mod_small by lia. destruct (Z.ltb_spec x (2 ^ 31)); lia.
  - replace (x mod 2 ^ 32) with (x + 2 ^ 32)
      by (apply Z.mod_unique with (-1); lia).
    destruct (Z.ltb_spec (x + 2 ^ 32) (2 ^ 31)); lia.
Qed.

(** *** Bit fields *)

Lemma land_ones_small x k : 0 <= k -> 0 <= x < 2 ^ k -> Z.land x (Z.ones k) = x.
Proof. intros. rewrite Z.land_ones by done. by apply Z.mod_small. Qed.

(** A field below a shifted one: the disjunction is the sum. *)
Lemma lor_shiftl_add a b k : 0 <= k -> 0 <= b < 2 ^ k -> Z.lor (Z.shiftl a k) b = a * 2 ^ k + b.
Proof.
  intros Hk Hb. rewrite <- Z.shiftl_mul_pow2 by done.
  rewrite <- (Z.add_lor_land (Z.shiftl a k) b).
  replace (Z.land (Z.shiftl a k) b) with 0; [lia|].
  rewrite <- (land_ones_small b k) by done. apply Z.bits_inj'. intros n Hn.
  rewrite Z.bits_0, !Z.land_spec, Z.shiftl_spec, Z.testbit_ones by lia.
  destruct (Z.leb_spec 0 n), (Z.ltb_spec n k); cbn; rewrite ?andb_false_r; try done.
  by rewrite (Z.testbit_neg_r a) by lia.
Qed.

(** [mask & (1 << n) != 0] reads bit [n]. *)
Lemma land_bit_testbit x n : 0 <= n -> negb (Z.land x (Z.shiftl 1 n) =? 0) = Z.testbit x n.
Proof.
  intros Hn. rewrite Z.shiftl_1_l. destruct (Z.testbit x n) eqn:E.
  - apply negb_true_iff, Z.eqb_neq. intros H.
    assert (Hb : Z.testbit (Z.land x (2 ^ n)) n = false) by (rewrite H; apply Z.bits_0).
    by rewrite Z.land_spec, E, Z.pow2_bits_true in Hb by done.
  - apply negb_false_iff, Z.eqb_eq, Z.bits_inj'. intros m Hm. rewrite Z.land_spec, Z.bits_0.
    destruct (Z.eq_dec n m) as [<-|]; [by rewrite E|]. rewrite Z.pow2_bits_false by done. apply andb_false_r.
Qed.

(** [NonZeroUsize::new] *)
Definition nonzero (x : Z) : option Z := if x =? 0 then None else Some x.
(** [o.map(|x| x.get()).unwrap_or(0)] *)
Definition get_or_0 (o : option Z) : Z := match o with Some x => x | None => 0 end.

Arguments nonzero : simpl never.
Arguments get_or_0 : simpl never.
Arguments wrap : simpl never.
Arguments fits : simpl never.

Definition nz_ok (o : option Z) : bool := match o with Some x => negb (x =? 0) | None => true end.

Lemma nonzero_get_or_0 o : nz_ok o = true -> nonzero (get_or_0 o) = o.
Proof. destruct o as [x|]; cbn; [|done]. unfold nonzero, get_or_0. by destruct (x =? 0). Qed.

Lemma nonzero_Some x : negb (x =? 0) = true -> nonzero x = Some x.
Proof. unfold nonzero. by destruct (x =? 0). Qed.

(** ** Little-endian byte sequences ([to_le_bytes] / [from_le_bytes]) *)

Definition byte_ok (b : Z) : bool := fits 8 b.

Fixpoint to_le_bytes (n : nat) (x : Z) : list Z :=
  match n with
  | O => []
  | S n => u8 x :: to_le_bytes n (x / 256)
  end.

Fixpoint from_le_bytes (bs : list Z) : Z :=
  match bs with
  | [] => 0
  | b :: bs => b + 256 * from_le_bytes bs
  end.

Lemma length_to_le_bytes n x : length (to_le_bytes n x) = n.
Proof. revert x. induction n; cbn; auto. Qed.

Lemma to_le_bytes_ok n x : forallb byte_ok (to_le_bytes n x) = true.
Proof.
  revert x. induction n as [|n IH]; intros x; [done|]. cbn [to_le_bytes forallb].
  by rewrite IH, andb_true_r; apply wrap_fits.
Qed.

Lemma from_to_le_bytes n x :
  from_le_bytes (to_le_bytes n x) = x mod 256 ^ Z.of_nat n.
Proof.
  revert x. induction n as [|n IH]; intros x; cbn [to_le_bytes from_le_bytes].
  - by rewrite Z.mod_1_r.
  - rewrite IH. unfold wrap. change (2 ^ 8) with 256.
    rewrite Nat2Z.inj_succ, Z.pow_succ_r by lia.
    rewrite Z.rem_mul_r by lia. done.
Qed.

Lemma from_le_bytes_bound bs :
  forallb byte_ok bs = true -> 0 <= from_le_bytes bs < 256 ^ Z.of_nat (length bs).
Proof.
  induction bs as [|b bs IH]; cbn [forallb from_le_bytes length]; [lia|].
  rewrite andb_true_iff. intros [Hb%fits_spec Hbs]. specialize (IH Hbs).
  rewrite Nat2Z.inj_succ, Z.pow_succ_r by lia. change (2 ^ 8) with 256 in Hb. lia.
Qed.

Lemma to_from_le_bytes bs :
  forallb byte_ok bs = true -> to_le_bytes (length bs) (from_le_bytes bs) = bs.
Proof.
  induction bs as [|b bs IH]; cbn [forallb from_le_bytes length to_le_bytes]; [done|].
  rewrite andb_true_iff. intros [Hb%fits_spec Hbs]. change (2 ^ 8) with 256 in Hb.
  assert (Hd : (b + 256 * from_le_bytes bs) / 256 = from_le_bytes bs)
    by (rewrite Z.mul_comm, Z.div_add, Z.div_small by lia; lia).
  assert (Hm : u8 (b + 256 * from_le_bytes bs) = b)
    by (unfold wrap; change (2 ^ 8) with 256;
        rewrite Z.mul_comm, Z.mod_add, Z.mod_small by lia; lia).
  by rewrite Hd, Hm, IH.
Qed.

(** ** Lists *)

Lemma last_cons_default {A} (a y : A) l : default a (last (y :: l)) = default y (last l).
Proof. rewrite last_cons. by destruct (last l). Qed.

Lemma last_default_elem {A} (y : A) l : default y (last l) ∈ y :: l.
Proof.
  destruct (last l) as [z|] eqn:Hz; cbn; [|apply list_elem_of_here].
  apply list_elem_of_further. by apply last_Some_elem_of in Hz.
Qed.

Lemma insert_middle {A} (l1 l2 : list A) x y :
  <[length l1 := y]> (l1 ++ x :: l2) = l1 ++ y :: l2.
Proof. rewrite insert_app_r_alt by lia. by rewrite Nat.sub_diag. Qed.

(** A list seen around its [i]-th element. *)
Lemma lookup_split {A} (l : list A) i x :
  l !! i = Some x -> exists l1 l2, l = l1 ++ x :: l2 /\ length l1 = i.
Proof. intros H%list_elem_of_split_length. destruct H as (l1 & l2 & -> & ->). eauto. Qed.

Lemma concat_middle {A} (l1 l2 : list (list A)) q :
  concat (l1 ++ q :: l2) = concat l1 ++ q ++ concat l2.
Proof. by rewrite concat_app, concat_cons. Qed.

Lemma elem_of_concat {A} (x : A) ls : x ∈ concat ls <-> exists l, l ∈ ls /\ x ∈ l.
Proof.
  induction ls as [|l ls IH]; cbn; [set_solver|]. rewrite elem_of_app, IH. set_solver.
Qed.

(** The last index of a list satisfying a predicate ([iter().rposition(f)]). *)
Fixpoint rposition {A} (f : A -> bool) (l : list A) : option nat :=
  match l with
  | [] => None
  | x :: l =>
      match rposition f l with
      | Some i => Some (S i)
      | None => if f x then Some 0%nat else None
      end
  end.

Lemma rposition_fmap {A B} (f : B -> bool) (g : A -> B) l :
  rposition f (g <$> l) = rposition (fun x => f (g x)) l.
Proof. induction l as [|x l IH]; cbn; [done|]. by rewrite IH. Qed.

Lemma rposition_ext {A} (f g : A -> bool) l : (forall x, f x = g x) -> rposition f l = rposition g l.
Proof. intros H. induction l as [|x l IH]; cbn; [done|]. by rewrite IH, H. Qed.

Lemma rposition_Some {A} (f : A -> bool) l i :
  rposition f l = Some i ->
  (exists x, l !! i = Some x /\ f x = true) /\
  (forall j y, (i < j)%nat -> l !! j = Some y -> f y = false).
Proof.
  revert i. induction l as [|x l IH]; intros i; cbn; [done|].
  destruct (rposition f l) as [k|] eqn:Hk.
  - intros [= <-]. destruct (IH k eq_refl) as [Hx Hj]. split; [done|].
    intros [|j] y; [lia|]. intros ? ?. apply (Hj j); [lia|done].
  - destruct (f x) eqn:Hx; [|done]. intros [= <-]. split; [eauto|]. clear IH.
    intros [|j] y; [lia|]. cbn. intros _. revert j y. induction l as [|z l IH]; [done|].
    cbn in Hk. destruct (rposition f l); [done|]. destruct (f z) eqn:Hz; [done|].
    intros [|j] y; cbn; [by intros [= <-]|]. by apply IH.
Qed.

Lemma rposition_None {A} (f : A -> bool) l j y :
  rposition f l = None -> l !! j = Some y -> f y = false.
Proof.
  revert j. induction l as [|z l IH]; intros j; cbn; [done|].
  destruct (rposition f l); [done|]. destruct (f z) eqn:Hz; [done|].
  destruct j; cbn; [by intros _ [= <-]|]. by apply IH.
Qed.

(** How [rposition] follows the update of one element. *)
Lemma rposition_insert_true {A} (f : A -> bool) l p x y :
  l !! p = Some x -> f y = true ->
  rposition f (<[p := y]> l) = Some (p `max` default 0%nat (rposition f l))%nat.
Proof.
  revert p. induction l as [|z l IH]; intros [|p]; simpl; [done|done| |].
  - intros _ ->. destruct (rposition f l); [done|]. by destruct (f z).
  - intros Hx Hy. rewrite (IH p Hx Hy). destruct (rposition f l); cbn; [done|].
    destruct (f z); cbn; do 2 f_equal; lia.
Qed.

Lemma rposition_insert_same {A} (f : A -> bool) l p x y :
  l !! p = Some x -> f y = f x -> rposition f (<[p := y]> l) = rposition f l.
Proof.
  revert p. induction l as [|z l IH]; intros [|p]; simpl; [done|done| |].
  - by intros [= ->] ->.
  - intros Hx Hy. by rewrite (IH p Hx Hy).
Qed.

Lemma rposition_insert_below {A} (f : A -> bool) l p y :
  (p < default 0 (rposition f l))%nat -> rposition f (<[p := y]> l) = rposition f l.
Proof.
  revert p. induction l as [|z l IH]; intros [|p]; simpl; try done.
  - destruct (rposition f l); cbn; [done|]. destruct (f z); cbn; lia.
  - destruct (rposition f l) as [i|] eqn:Hi; cbn.
    + intros. rewrite (IH p); [done|cbn; lia].
    + destruct (f z); cbn; lia.
Qed.

Lemma rposition_insert_top {A} (f : A -> bool) l p y :
  rposition f l = Some p -> f y = false ->
  rposition f (<[p := y]> l) = rposition f (take p l).
Proof.
  revert p. induction l as [|z l IH]; intros p; cbn; [done|].
  destruct (rposition f l) as [i|] eqn:Hi.
  - intros [= <-] Hy. simpl. by rewrite (IH i eq_refl Hy).
  - destruct (f z); [|done]. intros [= <-] Hy. cbn. by rewrite Hi, Hy.
Qed.

Lemma if_same_decide {A} (P Q : Prop) `{!Decision P, !Decision Q} (x y : A) :
  (P <-> Q) -> (if bool_decide P then x else y) = (if bool_decide Q then x else y).
Proof. intros H. by rewrite (bool_decide_ext P Q H). Qed.

(** The Rust range [a..a + n], computed in linear time. *)
Fixpoint zseq (a : Z) (n : nat) : list Z :=
  match n with O => [] | S n => a :: zseq (a + 1) n end.
Definition zrange (a n : Z) : list Z := zseq a (Z.to_nat n).

Lemma zrange_seqZ a n : zrange a n = seqZ a n.
Proof.
  unfold zrange. assert (Hk : exists k, Z.to_nat n = k) by eauto. destruct Hk as [k Hk]. rewrite Hk.
  revert a n Hk. induction k as [|k IH]; intros a n Hk; cbn [zseq]; [by rewrite seqZ_nil by lia|].
  rewrite seqZ_cons by lia. f_equal. apply IH. lia.
Qed.

(** First index of [k..k + n] with a property.  The recursion is on the binary
    representation of [n], so that an early hit in a huge range is found at once. *)
Fixpoint find_pos (f : Z -> bool) (p : positive) (k : Z) : option Z :=
  match p with
  | xH => if f k then Some k else None
  | xO p => match find_pos f p k with
            | Some i => Some i
            | None => find_pos f p (k + Zpos p)
            end
  | xI p => if f k then Some k
            else match find_pos f p (k + 1) with
                 | Some i => Some i
                 | None => find_pos f p (k + 1 + Zpos p)
                 end
  end.
Definition find_range (f : Z -> bool) (k n : Z) : option Z :=
  match n with Zpos p => find_pos f p k | _ => None end.

Lemma find_pos_spec f p k :
  match find_pos f p k with
  | Some i => k <= i < k + Zpos p /\ f i = true /\ (forall j, k <= j < i -> f j = false)
  | None => forall j, k <= j < k + Zpos p -> f j = false
  end.
Proof.
  revert k. induction p as [p IH|p IH|]; intros k; cbn [find_pos].
  - destruct (f k) eqn:Ek; [split_and!; [lia|lia|done|lia]|].
    pose proof (IH (k + 1)) as H1. destruct (find_pos f p (k + 1)) as [i|].
    + destruct H1 as (H & Hi & Hj). split_and!; [lia|lia|done|]. intros j ?.
      destruct (Z.eq_dec j k) as [->|]; [done|apply Hj; lia].
    + pose proof (IH (k + 1 + Zpos p)) as H2. assert (Hlow : forall j, k <= j < k + 1 + Zpos p -> f j = false).
      { intros j ?. destruct (Z.eq_dec j k) as [->|]; [done|apply H1; lia]. }
      destruct (find_pos f p (k + 1 + Zpos p)) as [i|].
      * destruct H2 as (H & Hi & Hj). split_and!; [lia|lia|done|]. intros j ?.
        destruct (Z_lt_le_dec j (k + 1 + Zpos p)); [apply Hlow|apply Hj]; lia.
      * intros j ?. destruct (Z_lt_le_dec j (k + 1 + Zpos p)); [apply Hlow|apply H2]; lia.
  - pose proof (IH k) as H1. destruct (find_pos f p k) as [i|].
    + destruct H1 as (H & Hi & Hj). split_and!; [lia|lia|done|done].
    + pose proof (IH (k + Zpos p)) as H2. destruct (find_pos f p (k + Zpos p)) as [i|].
      * destruct H2 as (H & Hi & Hj). split_and!; [lia|lia|done|]. intros j ?.
        destruct (Z_lt_le_dec j (k + Zpos p)); [apply H1|apply Hj]; lia.
      * intros j ?. destruct (Z_lt_le_dec j (k + Zpos p)); [apply H1|apply H2]; lia.
  - destruct (f k) eqn:Ek; [split_and!; [lia|lia|done|lia]|]. intros j ?. by replace j with k by lia.
Qed.

Lemma find_range_spec f k n :
  match find_range f k n with
  | Some i => k <= i < k + n /\ f i = true /\ (forall j, k <= j < i -> f j = false)
  | None => forall j, k <= j < k + n -> f j = false
  end.
Proof.
  destruct n as [|p|p]; cbn [find_range]; [intros; lia|apply find_pos_spec|intros; lia].
Qed.

(** Sums and differences at the width of the operands, which panic on overflow. *)
Definition add_w {T} (w a b : Z) : M T Z := if a + b <? 2 ^ w then ret (a + b) else panic.
Definition add64 {T} (a b : Z) : M T Z := add_w 64 a b.
Definition sub64 {T} (a b : Z) : M T Z := if b <=? a then ret (a - b) else panic.

Lemma add_w_run {T} w a b (s : T) : a + b < 2 ^ w -> add_w w a b s = Some (a + b, s).
Proof. intros H. unfold add_w. by rewrite (proj2 (Z.ltb_lt _ _) H). Qed.
Lemma add64_run {T} a b (s : T) : a + b < 2 ^ 64 -> add64 a b s = Some (a + b, s).
Proof. apply add_w_run. Qed.

(** A loop of [n] rounds that ends at the first round with a result.  [loop_pos]
    recurses on the binary representation of [n], so that a bound of millions
    costs nothing when the result comes early. *)
Fixpoint loop_nat {S R} (body : M S (option R)) (n : nat) : M S (option R) :=
  match n with
  | O => ret None
  | Datatypes.S n => r <- body ;; match r with Some _ => ret r | None => loop_nat body n end
  end.
Fixpoint loop_pos {S R} (body : M S (option R)) (p : positive) : M S (option R) :=
  match p with
  | xH => body
  | xO p => r <- loop_pos body p ;; match r with Some _ => ret r | None => loop_pos body p end
  | xI p =>
      r <- body ;;
      match r with
      | Some _ => ret r
      | None => r <- loop_pos body p ;; match r with Some _ => ret r | None => loop_pos body p end
      end
  end.

Lemma loop_nat_add {S R} (body : M S (option R)) n m s :
  loop_nat body (n + m) s =
  (r <- loop_nat body n ;; match r with Some _ => ret r | None => loop_nat body m end) s.
Proof.
  revert s. induction n as [|n IH]; intros s; [done|]. cbn [Nat.add loop_nat]. unfold bind.
  destruct (body s) as [[[r|] s1]|]; [done| |done]. apply IH.
Qed.

Lemma loop_pos_nat {S R} (body : M S (option R)) p s : loop_pos body p s = loop_nat body (Pos.to_nat p) s.
Proof.
  revert s. induction p as [p IH|p IH|]; intros s.
  - rewrite Pos2Nat.inj_xI. replace (2 * Pos.to_nat p)%nat with (Pos.to_nat p + Pos.to_nat p)%nat by lia.
    cbn [loop_nat loop_pos]. unfold bind at 1 3. destruct (body s) as [[[r|] s1]|]; [done| |done].
    rewrite loop_nat_add. unfold bind. rewrite IH. destruct (loop_nat _ _ s1) as [[[r|] s2]|]; [done|apply IH|done].
  - rewrite Pos2Nat.inj_xO. replace (2 * Pos.to_nat p)%nat with (Pos.to_nat p + Pos.to_nat p)%nat by lia.
    rewrite loop_nat_add. cbn [loop_pos]. unfold bind. rewrite IH.
    destruct (loop_nat _ _ s) as [[[r|] s2]|]; [done|apply IH|done].
  - change (Pos.to_nat 1) with 1%nat. cbn [loop_nat loop_pos]. unfold bind. destruct (body s) as [[[r|] s1]|]; reflexivity.
Qed.

(** If the first [k] rounds have no result and the next one has, so has the loop. *)
Lemma loop_nat_hit {S R} (body : M S (option R)) n s1 r s2 : body s1 = Some (Some r, s2) ->
  forall k (st : nat -> S), (k < n)%nat -> st k = s1 ->
  (forall i, (i < k)%nat -> body (st i) = Some (None, st (Datatypes.S i))) -> loop_nat body n (st O) = Some (Some r, s2).
Proof.
  intros Hr k. revert n. induction k as [|k IH]; intros n st Hk He Hi; (destruct n as [|n]; [lia|]); cbn [loop_nat]; unfold bind.
  - by rewrite He, Hr.
  - rewrite (Hi O) by lia. cbn. apply (IH n (fun i => st (Datatypes.S i))); [lia|done|]. intros i Hik. apply Hi. lia.
Qed.

(** A loop whose rounds keep an invariant has a result. *)
Lemma loop_nat_inv {S R} (I : S -> Prop) (body : M S (option R)) n s :
  (forall s, I s -> exists r s', body s = Some (r, s') /\ I s') -> I s -> exists r s', loop_nat body n s = Some (r, s') /\ I s'.
Proof.
  intros Hb. revert s. induction n as [|n IH]; intros s Hs; [by exists None, s|]. cbn [loop_nat].
  destruct (Hb s Hs) as (r & s1 & E & H1). rewrite (bind_run _ _ _ _ _ E). destruct r as [r|]; [by exists (Some r), s1|by apply IH].
Qed.
