(* ===== verification/Abi.v ===== *)
(** * The Xous ABI data types

    Models [xous-rs/src/definitions.rs], [definitions/memoryflags.rs],
    [definitions/messages/*.rs] and the AArch64 process and thread descriptors
    ([arch/aarch64/process.rs], [arch/aarch64/threading.rs]): the error codes,
    server IDs, memory ranges and flags, messages, senders and the [Result]
    register encoding, each with its conversion to and from machine words. *)

From S2P Require Import Prelude.
From Stdlib Require Import ZArith Lia Bool.

(** ** Identifiers *)

Definition PID := Z.   (* NonZeroU8 *)
Definition TID := Z.   (* usize *)
Definition CID := Z.   (* u32 *)
Definition MessageId := Z. (* usize *)

(** [PID::new(x as u8)] *)
Definition PID_new (x : Z) : option PID := nonzero (u8 x).

Definition pid_ok (p : PID) : bool := (1 <=? p) && (p <=? U8_MAX).

(** ** Errors *)

Inductive Error : Type :=
| NoError | BadAlignment | BadAddress | OutOfMemory | MemoryInUse
| InterruptNotFound | InterruptInUse | InvalidString | ServerExists
| ServerNotFound | ProcessNotFound | ProcessNotChild | ProcessTerminated
| Timeout | InternalError | ServerQueueFull | ThreadNotAvailable
| UnhandledSyscall | InvalidSyscall | ShareViolation | InvalidThread
| InvalidPID | UnknownError | AccessDenied | Again | DoubleFree
| DebugInProgress | InvalidLimit | ParseError | InvalidPhysicalAddress
| InvalidArguments.

#[export] Instance Error_eq_dec : EqDecision Error.
Proof. solve_decision. Defined.

(** The enum's discriminants ([e as usize]). *)
Definition Error_as_usize (e : Error) : Z :=
  match e with
  | NoError => 0 | BadAlignment => 1 | BadAddress => 2 | OutOfMemory => 3
  | MemoryInUse => 4 | InterruptNotFound => 5 | InterruptInUse => 6
  | InvalidString => 7 | ServerExists => 8 | ServerNotFound => 9
  | ProcessNotFound => 10 | ProcessNotChild => 11 | ProcessTerminated => 12
  | Timeout => 13 | InternalError => 14 | ServerQueueFull => 15
  | ThreadNotAvailable => 16 | UnhandledSyscall => 17 | InvalidSyscall => 18
  | ShareViolation => 19 | InvalidThread => 20 | InvalidPID => 21
  | UnknownError => 22 | AccessDenied => 23 | Again => 24 | DoubleFree => 25
  | DebugInProgress => 26 | InvalidLimit => 27 | ParseError => 28
  | InvalidPhysicalAddress => 29 | InvalidArguments => 30
  end.

Definition Error_from_usize (arg : Z) : Error :=
  match arg with
  | 0 => NoError | 1 => BadAlignment | 2 => BadAddress | 3 => OutOfMemory
  | 4 => MemoryInUse | 5 => InterruptNotFound | 6 => InterruptInUse
  | 7 => InvalidString | 8 => ServerExists | 9 => ServerNotFound
  | 10 => ProcessNotFound | 11 => ProcessNotChild | 12 => ProcessTerminated
  | 13 => Timeout | 14 => InternalError | 15 => ServerQueueFull
  | 16 => ThreadNotAvailable | 17 => UnhandledSyscall | 18 => InvalidSyscall
  | 19 => ShareViolation | 20 => InvalidThread | 21 => InvalidPID
  | 23 => AccessDenied | 24 => Again | 25 => DoubleFree
  | 26 => DebugInProgress | 27 => InvalidLimit | 28 => ParseError
  | 29 => InvalidPhysicalAddress | 30 => InvalidArguments
  | _ => UnknownError
  end.

Definition Error_to_usize (e : Error) : Z :=
  if bool_decide (e = UnknownError) then USIZE_MAX else Error_as_usize e.

Lemma Error_roundtrip e : Error_from_usize (Error_to_usize e) = e.
Proof. by destruct e. Qed.

(** ** Server IDs *)

Record SID := mkSID { sid0 : Z; sid1 : Z; sid2 : Z; sid3 : Z }.

#[export] Instance SID_eq_dec : EqDecision SID.
Proof. solve_decision. Defined.

Definition SID_from_u32 (a0 a1 a2 a3 : Z) : SID := mkSID a0 a1 a2 a3.

Definition quick_hash (s : SID) : Z :=
  Z.lxor (Z.lxor (Z.lxor (sid0 s) (sid1 s)) (sid2 s)) (sid3 s).

Definition SID_ok (s : SID) : bool :=
  fits 32 (sid0 s) && fits 32 (sid1 s) && fits 32 (sid2 s) && fits 32 (sid3 s).

(** ** Memory ranges *)

Record MemoryRange := mkRange { range_addr : Z; range_size : Z }.

#[export] Instance MemoryRange_eq_dec : EqDecision MemoryRange.
Proof. solve_decision. Defined.

Definition MemoryRange_new (addr size : Z) : res MemoryRange Error :=
  a <-! ok_or (nonzero addr) BadAddress ;;
  s <-! ok_or (nonzero size) BadAddress ;;
  Ok (mkRange a s).

Definition range_ok (r : MemoryRange) : bool :=
  negb (range_addr r =? 0) && negb (range_size r =? 0) &&
  fits 64 (range_addr r) && fits 64 (range_size r).

Definition MemoryRange_is_empty (r : MemoryRange) : bool := 0 <? range_size r.

(** [checked_add] and [NonZeroUsize::new] are the three ways [subrange] fails
    besides the bound test. *)
Definition MemoryRange_subrange (r : MemoryRange) (offset len : Z) : option MemoryRange :=
  if fits 64 (offset + len) then
    if range_size r <? offset + len then None
    else if fits 64 (range_addr r + offset) then
      match nonzero len with
      | Some l => Some (mkRange (range_addr r + offset) l)
      | None => None
      end
    else None
  else None.

Lemma MemoryRange_new_ok r :
  range_ok r = true -> MemoryRange_new (range_addr r) (range_size r) = Ok r.
Proof.
  destruct r as [a s]. unfold range_ok, MemoryRange_new; cbn.
  rewrite !andb_true_iff. intros [[[Ha Hs] _] _].
  by rewrite !nonzero_Some.
Qed.

(** [pid_from_usize] *)
Definition pid_from_usize (src : Z) : res PID Error :=
  if U8_MAX <? src then Err InvalidPID else ok_or (nonzero src) InvalidPID.

Lemma pid_from_usize_ok p : pid_ok p = true -> pid_from_usize p = Ok p.
Proof.
  unfold pid_ok, pid_from_usize, U8_MAX, nonzero. rewrite andb_true_iff, !Z.leb_le. intros.
  destruct (Z.ltb_spec 255 p); [lia|]. by destruct (Z.eqb_spec p 0); [lia|].
Qed.

Lemma PID_new_ok p : pid_ok p = true -> PID_new p = Some p.
Proof.
  unfold pid_ok, PID_new, U8_MAX. rewrite andb_true_iff, !Z.leb_le. intros.
  rewrite wrap_small by (apply fits_spec; lia).
  unfold nonzero. by destruct (Z.eqb_spec p 0); [lia|].
Qed.

(** ** Memory flags *)

Definition MemoryFlags := Z.
Definition FLAGS_ALL : MemoryFlags := 125. (* 0b0111_1101 *)
Definition MF_POPULATE : MemoryFlags := 1.
Definition MF_W : MemoryFlags := 4.
Definition MF_X : MemoryFlags := 8.
Definition MF_DEV : MemoryFlags := 16.
Definition MF_NO_CACHE : MemoryFlags := 32.
Definition MF_PLAINTEXT : MemoryFlags := 64.

Definition MemoryFlags_from_bits (raw : Z) : MemoryFlags := Z.land raw FLAGS_ALL.
Definition MemoryFlags_is_set (f mask : MemoryFlags) : bool := Z.land f mask =? mask.
(** [impl Not for MemoryFlags]: complement, then masked with the literal 15. *)
Definition MemoryFlags_not (f : MemoryFlags) : MemoryFlags :=
  Z.land (Z.land (Z.lnot f) USIZE_MAX) 15.

Definition flags_ok (f : MemoryFlags) : bool := Z.land f FLAGS_ALL =? f.

(** A single-bit test read as [Z.testbit]. *)
Lemma is_set_testbit f k :
  0 <= k -> MemoryFlags_is_set f (2 ^ k) = Z.testbit f k.
Proof.
  intros Hk. unfold MemoryFlags_is_set.
  assert (H : Z.land f (2 ^ k) = if Z.testbit f k then 2 ^ k else 0).
  { apply Z.bits_inj'. intros n Hn. rewrite Z.land_spec, Z.pow2_bits_eqb by done.
    destruct (Z.eqb_spec k n) as [->|Hne].
    - destruct (Z.testbit f n); [by rewrite Z.pow2_bits_true | by rewrite Z.bits_0].
    - rewrite andb_false_r. destruct (Z.testbit f k);
        [by rewrite Z.pow2_bits_false | by rewrite Z.bits_0]. }
  rewrite H. destruct (Z.testbit f k); [by rewrite Z.eqb_refl|].
  apply Z.eqb_neq. pose proof (Z.pow_pos_nonneg 2 k). lia.
Qed.

(** ** Small enums with a total decoding *)

Inductive CacheOperation := Clean | Invalidate | CleanAndInvalidate.
Definition CacheOperation_as_usize (c : CacheOperation) : Z :=
  match c with Clean => 0 | Invalidate => 1 | CleanAndInvalidate => 2 end.
Definition CacheOperation_from (value : Z) : CacheOperation :=
  match value with 0 => Clean | 1 => Invalidate | _ => CleanAndInvalidate end.

Inductive DramIdleMode := KeepClocked | LowPower.
Definition DramIdleMode_as_usize (d : DramIdleMode) : Z :=
  match d with KeepClocked => 0 | LowPower => 1 end.
Definition DramIdleMode_from (value : Z) : DramIdleMode :=
  match value with 1 => LowPower | _ => KeepClocked end.

Inductive SystemEvent := ChildTerminated | Disconnected | LowFreeMemory.
Definition SystemEvent_as_usize (e : SystemEvent) : Z :=
  match e with ChildTerminated => 0 | Disconnected => 1 | LowFreeMemory => 2 end.
Definition SystemEvent_from (value : Z) : SystemEvent :=
  match value with 1 => Disconnected | 2 => LowFreeMemory | _ => ChildTerminated end.

Inductive SystemStat := FreeMemory | IsSystemLowOnMemory.
Definition SystemStat_as_usize (s : SystemStat) : Z :=
  match s with FreeMemory => 0 | IsSystemLowOnMemory => 1 end.
Definition SystemStat_from (value : Z) : SystemStat :=
  match value with 0 => FreeMemory | 1 => IsSystemLowOnMemory | _ => FreeMemory end.

Inductive ThreadPriority :=
| Idle | AppBackground0 | AppBackground1 | AppDefault | AppHigh0 | AppHigh1
| System0 | System1 | System2 | System3 | System4 | System5 | System6
| System7 | System8 | Highest.

#[export] Instance ThreadPriority_eq_dec : EqDecision ThreadPriority.
Proof. solve_decision. Defined.

Definition ThreadPriority_as_usize (p : ThreadPriority) : Z :=
  match p with
  | Idle => 0 | AppBackground0 => 1 | AppBackground1 => 2 | AppDefault => 3
  | AppHigh0 => 4 | AppHigh1 => 5 | System0 => 6 | System1 => 7 | System2 => 8
  | System3 => 9 | System4 => 10 | System5 => 11 | System6 => 12
  | System7 => 13 | System8 => 14 | Highest => 15
  end.
Definition ThreadPriority_from (value : Z) : ThreadPriority :=
  match value with
  | 0 => Idle | 1 => AppBackground0 | 2 => AppBackground1 | 3 => AppDefault
  | 4 => AppHigh0 | 5 => AppHigh1 | 6 => System0 | 7 => System1 | 8 => System2
  | 9 => System3 | 10 => System4 | 11 => System5 | 12 => System6
  | 13 => System7 | 14 => System8 | 15 => Highest | _ => AppDefault
  end.

(** ** App identifiers: 16 bytes, read as four little-endian words *)

Definition AppId := list Z.
Definition AppId_ok (a : AppId) : bool := (length a =? 16)%nat && forallb byte_ok a.

Definition AppId_to_words (a : AppId) : list Z :=
  [from_le_bytes (take 4 a); from_le_bytes (take 4 (drop 4 a));
   from_le_bytes (take 4 (drop 8 a)); from_le_bytes (take 4 (drop 12 a))].

Definition AppId_from_words (w0 w1 w2 w3 : Z) : AppId :=
  to_le_bytes 4 w0 ++ to_le_bytes 4 w1 ++ to_le_bytes 4 w2 ++ to_le_bytes 4 w3.

Arguments AppId_from_words : simpl never.
Arguments AppId_ok : simpl never.

(** ** Messages *)

Record MemoryMessage := mkMemoryMessage {
  mm_id : MessageId; mm_buf : MemoryRange;
  mm_offset : option Z; mm_valid : option Z }.

Record ScalarMessage := mkScalarMessage {
  sm_id : MessageId; sm_arg1 : Z; sm_arg2 : Z; sm_arg3 : Z; sm_arg4 : Z }.

Inductive Message :=
| MutableBorrow (m : MemoryMessage)
| Borrow (m : MemoryMessage)
| Move (m : MemoryMessage)
| Scalar (s : ScalarMessage)
| BlockingScalar (s : ScalarMessage).

Definition MemoryMessage_from_usize (id addr size offset valid : Z) : option MemoryMessage :=
  match nonzero addr with
  | None => None
  | Some a =>
      match nonzero size with
      | None => None
      | Some s => Some (mkMemoryMessage id (mkRange a s) (nonzero offset) (nonzero valid))
      end
  end.

Definition MemoryMessage_to_usize (m : MemoryMessage) : list Z :=
  [mm_id m; range_addr (mm_buf m); range_size (mm_buf m);
   get_or_0 (mm_offset m); get_or_0 (mm_valid m)].

Definition ScalarMessage_to_usize (s : ScalarMessage) : list Z :=
  [sm_id s; sm_arg1 s; sm_arg2 s; sm_arg3 s; sm_arg4 s].

Definition is_blocking (m : Message) : bool :=
  match m with
  | MutableBorrow _ | Borrow _ | BlockingScalar _ => true
  | Move _ | Scalar _ => false
  end.

Definition has_memory (m : Message) : bool :=
  match m with
  | MutableBorrow _ | Borrow _ | Move _ => true
  | BlockingScalar _ | Scalar _ => false
  end.

Definition memory_message (m : Message) : option MemoryMessage :=
  match m with
  | MutableBorrow mem | Borrow mem | Move mem => Some mem
  | BlockingScalar _ | Scalar _ => None
  end.

Definition message_type (m : Message) : Z :=
  match m with
  | MutableBorrow _ => 1 | Borrow _ => 2 | Move _ => 3 | Scalar _ => 4 | BlockingScalar _ => 5
  end.

Definition message_id (m : Message) : MessageId :=
  match m with
  | MutableBorrow mem | Borrow mem | Move mem => mm_id mem
  | Scalar s | BlockingScalar s => sm_id s
  end.

Definition Message_to_usize (m : Message) : list Z :=
  match m with
  | MutableBorrow m => 0 :: MemoryMessage_to_usize m
  | Borrow m => 1 :: MemoryMessage_to_usize m
  | Move m => 2 :: MemoryMessage_to_usize m
  | Scalar s => 3 :: ScalarMessage_to_usize s
  | BlockingScalar s => 4 :: ScalarMessage_to_usize s
  end.

(** [TryFrom<(usize, usize, usize, usize, usize, usize)> for Message] *)
Definition Message_try_from (v0 v1 v2 v3 v4 v5 : Z) : res Message unit :=
  let mem k :=
    match MemoryRange_new v2 v3 with
    | Ok r => Ok (k (mkMemoryMessage v1 r (nonzero v4) (nonzero v5)))
    | Err _ => Err tt
    end in
  match v0 with
  | 1 => mem MutableBorrow
  | 2 => mem Borrow
  | 3 => mem Move
  | 4 => Ok (Scalar (mkScalarMessage v1 v2 v3 v4 v5))
  | 5 => Ok (BlockingScalar (mkScalarMessage v1 v2 v3 v4 v5))
  | _ => Err tt
  end.

Definition MemoryMessage_ok (m : MemoryMessage) : bool :=
  range_ok (mm_buf m) && nz_ok (mm_offset m) && nz_ok (mm_valid m).
Definition Message_ok (m : Message) : bool :=
  match memory_message m with Some mem => MemoryMessage_ok mem | None => true end.

(** [MessageSender] is the raw word; [Envelope] pairs it with the body. *)
Definition MessageSender := Z.
Record MessageEnvelope := mkEnvelope { env_sender : MessageSender; env_body : Message }.

Definition MessageSender_pid (data : MessageSender) : option PID :=
  PID_new (Z.land (Z.shiftr data 24) 255).

Definition Envelope_to_usize (e : MessageEnvelope) : list Z :=
  env_sender e :: Message_to_usize (env_body e).

(** ** Process and thread descriptors (AArch64) *)

Record ProcessInit := mkProcessInit { pi_elf : MemoryRange; pi_name_addr : Z; pi_app_id : AppId }.

Definition ProcessInit_to_args (p : ProcessInit) : list Z :=
  [range_addr (pi_elf p); range_size (pi_elf p)] ++ AppId_to_words (pi_app_id p) ++ [pi_name_addr p].

Definition ProcessInit_try_from (s0 s1 s2 s3 s4 s5 s6 : Z) : res ProcessInit Error :=
  elf <-! MemoryRange_new s0 s1 ;;
  name <-! ok_or (nonzero s6) BadAddress ;;
  Ok (mkProcessInit elf name (AppId_from_words (u32 s2) (u32 s3) (u32 s4) (u32 s5))).

(** [ProcessStartup] carries the PID of the new process. *)
Definition ProcessStartup := PID.
Definition ProcessStartup_to_args (p : ProcessStartup) : list Z := [p; 0; 0; 0; 0; 0; 0].
Definition ProcessStartup_from (src1 : Z) : ProcessStartup :=
  match PID_new src1 with Some p => p | None => 1 end.

Record ThreadInit := mkThreadInit {
  ti_call : Z; ti_stack : option MemoryRange;
  ti_arg1 : Z; ti_arg2 : Z; ti_arg3 : Z; ti_arg4 : Z }.

Definition thread_to_args (call : Z) (i : ThreadInit) : list Z :=
  [call; ti_call i;
   match ti_stack i with Some s => range_addr s | None => 0 end;
   match ti_stack i with Some s => range_size s | None => 0 end;
   ti_arg1 i; ti_arg2 i; ti_arg3 i; ti_arg4 i].

Definition args_to_thread (a1 a2 a3 a4 a5 a6 a7 : Z) : res ThreadInit Error :=
  if negb (a2 =? 0) then
    r <-! MemoryRange_new a2 a3 ;; Ok (mkThreadInit a1 (Some r) a4 a5 a6 a7)
  else Ok (mkThreadInit a1 None a4 a5 a6 a7).

Definition ProcessInit_ok (p : ProcessInit) : bool :=
  range_ok (pi_elf p) && negb (pi_name_addr p =? 0) && AppId_ok (pi_app_id p).
Definition ThreadInit_ok (i : ThreadInit) : bool :=
  match ti_stack i with Some s => range_ok s | None => true end.

(** ** The syscall result and its register encoding *)

Inductive XResult :=
| R_Ok
| R_Error (e : Error)
| R_MemoryAddress (a : Z)
| R_MemoryRange (r : MemoryRange)
| R_ReadyThreads (count pid0 ctx0 pid1 ctx1 pid2 ctx2 : Z)
| R_ResumeProcess
| R_ServerID (s : SID)
| R_ConnectionID (c : CID)
| R_NewServerID (s : SID)
| R_MessageEnvelope (e : MessageEnvelope)
| R_ThreadID (t : TID)
| R_ProcessID (p : PID)
| R_Unimplemented
| R_BlockedProcess
| R_Scalar1 (a : Z)
| R_Scalar2 (a b : Z)
| R_RetryCall
| R_None
| R_MemoryReturned (offset valid : option Z)
| R_NewProcess (p : ProcessStartup)
| R_Scalar5 (a b c d e : Z)
| R_Message (m : Message)
| R_UnknownResult (a1 a2 a3 a4 a5 a6 a7 : Z).

Definition XResult_to_args (r : XResult) : list Z :=
  match r with
  | R_Ok => [0; 0; 0; 0; 0; 0; 0; 0]
  | R_Error e => [1; Error_to_usize e; 0; 0; 0; 0; 0; 0]
  | R_MemoryAddress s => [2; s; 0; 0; 0; 0; 0; 0]
  | R_MemoryRange r => [3; range_addr r; range_size r; 0; 0; 0; 0; 0]
  | R_ReadyThreads count pid0 ctx0 pid1 ctx1 pid2 ctx2 =>
      [4; count; pid0; ctx0; pid1; ctx1; pid2; ctx2]
  | R_ResumeProcess => [5; 0; 0; 0; 0; 0; 0; 0]
  | R_ServerID s => [6; sid0 s; sid1 s; sid2 s; sid3 s; 0; 0; 0]
  | R_ConnectionID cid => [7; cid; 0; 0; 0; 0; 0; 0]
  | R_MessageEnvelope me => 9 :: Envelope_to_usize me
  | R_ThreadID ctx => [10; ctx; 0; 0; 0; 0; 0; 0]
  | R_ProcessID pid => [11; pid; 0; 0; 0; 0; 0; 0]
  | R_Unimplemented => [21; 0; 0; 0; 0; 0; 0; 0]
  | R_BlockedProcess => [13; 0; 0; 0; 0; 0; 0; 0]
  | R_Scalar1 a => [14; a; 0; 0; 0; 0; 0; 0]
  | R_Scalar2 a b => [15; a; b; 0; 0; 0; 0; 0]
  | R_NewServerID s => [8; sid0 s; sid1 s; sid2 s; sid3 s; 0; 0; 0]
  | R_RetryCall => [16; 0; 0; 0; 0; 0; 0; 0]
  | R_None => [17; 0; 0; 0; 0; 0; 0; 0]
  | R_MemoryReturned offset valid => [18; get_or_0 offset; get_or_0 valid; 0; 0; 0; 0; 0]
  | R_NewProcess p => 19 :: ProcessStartup_to_args p
  | R_Scalar5 a b c d e => [20; a; b; c; d; e; 0; 0]
  | R_Message m => 21 :: Message_to_usize m ++ [0]
  | R_UnknownResult a1 a2 a3 a4 a5 a6 a7 => [USIZE_MAX; a1; a2; a3; a4; a5; a6; a7]
  end.

(** The message carried by results 9 and 21; [None] is the [InternalError]
    exit of both decoders. *)
Definition decode_message (ty id a1 a2 a3 a4 : Z) : option Message :=
  let mem k :=
    match MemoryMessage_from_usize id a1 a2 a3 a4 with
    | None => None
    | Some s => Some (k s)
    end in
  match ty with
  | 0 => mem MutableBorrow
  | 1 => mem Borrow
  | 2 => mem Move
  | 3 => Some (Scalar (mkScalarMessage id a1 a2 a3 a4))
  | 4 => Some (BlockingScalar (mkScalarMessage id a1 a2 a3 a4))
  | _ => None
  end.

(** [Result::from_args]; the outer [None] is the panic of
    [PID::new(src[1] as _).unwrap()]. *)
Definition XResult_from_args (src0 src1 src2 src3 src4 src5 src6 src7 : Z) : option XResult :=
  match src0 with
  | 0 => Some R_Ok
  | 1 => Some (R_Error (Error_from_usize src1))
  | 2 => match nonzero src1 with
         | None => Some (R_Error InternalError)
         | Some s => Some (R_MemoryAddress s)
         end
  | 3 => match nonzero src1, nonzero src2 with
         | Some a, Some s => Some (R_MemoryRange (mkRange a s))
         | _, _ => Some (R_Error InternalError)
         end
  | 4 => Some (R_ReadyThreads src1 src2 src3 src4 src5 src6 src7)
  | 5 => Some R_ResumeProcess
  | 6 => Some (R_ServerID (SID_from_u32 (u32 src1) (u32 src2) (u32 src3) (u32 src4)))
  | 7 => Some (R_ConnectionID (u32 src1))
  | 8 => Some (R_NewServerID (SID_from_u32 (u32 src1) (u32 src2) (u32 src3) (u32 src4)))
  | 9 => match decode_message src2 src3 src4 src5 src6 src7 with
         | None => Some (R_Error InternalError)
         | Some m => Some (R_MessageEnvelope (mkEnvelope src1 m))
         end
  | 10 => Some (R_ThreadID src1)
  | 11 => match PID_new src1 with Some p => Some (R_ProcessID p) | None => None end
  | 12 => Some R_Unimplemented
  | 13 => Some R_BlockedProcess
  | 14 => Some (R_Scalar1 src1)
  | 15 => Some (R_Scalar2 src1 src2)
  | 16 => Some R_RetryCall
  | 17 => Some R_None
  | 18 => Some (R_MemoryReturned (nonzero src1) (nonzero src2))
  | 19 => Some (R_NewProcess (ProcessStartup_from src1))
  | 20 => Some (R_Scalar5 src1 src2 src3 src4 src5)
  | 21 => match decode_message src1 src2 src3 src4 src5 src6 with
          | None => Some (R_Error InternalError)
          | Some m => Some (R_Message m)
          end
  | _ => Some (R_UnknownResult src0 src1 src2 src3 src4 src5 src6)
  end.

(** Decoding the eight registers a kernel wrote with [to_args]. *)
Definition XResult_of_regs (l : list Z) : option XResult :=
  match l with
  | [a0; a1; a2; a3; a4; a5; a6; a7] => XResult_from_args a0 a1 a2 a3 a4 a5 a6 a7
  | _ => None
  end.

(** A result whose fields are in the range of their Rust types and which is
    not one of the two variants without an encoding of their own. *)
Definition XResult_ok (r : XResult) : bool :=
  match r with
  | R_MemoryAddress a => negb (a =? 0)
  | R_MemoryRange r => range_ok r
  | R_ServerID s | R_NewServerID s => SID_ok s
  | R_ConnectionID c => fits 32 c
  | R_MessageEnvelope e => Message_ok (env_body e)
  | R_ProcessID p | R_NewProcess p => pid_ok p
  | R_MemoryReturned o v => nz_ok o && nz_ok v
  | R_Message m => Message_ok m
  | R_Unimplemented | R_UnknownResult _ _ _ _ _ _ _ => false
  | _ => true
  end.

(** ** Round-trip lemmas of the pieces *)

Lemma SID_words_ok s :
  SID_ok s = true ->
  SID_from_u32 (u32 (sid0 s)) (u32 (sid1 s)) (u32 (sid2 s)) (u32 (sid3 s)) = s.
Proof.
  destruct s. unfold SID_ok; cbn. rewrite !andb_true_iff. intros [[[? ?] ?] ?].
  by rewrite !wrap_small.
Qed.

Lemma range_ok_nz r :
  range_ok r = true -> negb (range_addr r =? 0) = true /\ negb (range_size r =? 0) = true.
Proof. unfold range_ok. rewrite !andb_true_iff. tauto. Qed.

Lemma MemoryMessage_roundtrip m :
  MemoryMessage_ok m = true ->
  MemoryMessage_from_usize (mm_id m) (range_addr (mm_buf m)) (range_size (mm_buf m))
    (get_or_0 (mm_offset m)) (get_or_0 (mm_valid m)) = Some m.
Proof.
  destruct m as [id [a s] o v]. unfold MemoryMessage_ok; cbn.
  rewrite !andb_true_iff. intros [[[Ha Hs]%range_ok_nz Ho] Hv]; cbn in *.
  unfold MemoryMessage_from_usize. rewrite !nonzero_Some by done. by rewrite !nonzero_get_or_0.
Qed.

Lemma word_bytes_roundtrip b0 b1 b2 b3 :
  byte_ok b0 = true -> byte_ok b1 = true -> byte_ok b2 = true -> byte_ok b3 = true ->
  to_le_bytes 4 (u32 (from_le_bytes [b0; b1; b2; b3])) = [b0; b1; b2; b3].
Proof.
  intros. assert (Hall : forallb byte_ok [b0; b1; b2; b3] = true)
    by (cbn [forallb]; by rewrite !andb_true_iff).
  pose proof (from_le_bytes_bound _ Hall) as Hbd. cbn [length] in Hbd.
  rewrite wrap_small by (apply fits_spec; lia).
  by apply (to_from_le_bytes [b0; b1; b2; b3]).
Qed.

Lemma AppId_roundtrip a :
  AppId_ok a = true ->
  match AppId_to_words a with
  | [w0; w1; w2; w3] => AppId_from_words (u32 w0) (u32 w1) (u32 w2) (u32 w3)
  | _ => []
  end = a.
Proof.
  unfold AppId_ok. rewrite andb_true_iff. intros [Hl%Nat.eqb_eq Hb].
  do 16 (destruct a as [|?b a]; [done|]). destruct a; [|done].
  cbn [forallb] in Hb. rewrite !andb_true_iff in Hb. destruct_and!.
  unfold AppId_to_words. cbn [take drop].
  unfold AppId_from_words. by rewrite !word_bytes_roundtrip.
Qed.

Lemma decode_message_roundtrip m :
  Message_ok m = true ->
  match Message_to_usize m with
  | [t; id; a1; a2; a3; a4] => decode_message t id a1 a2 a3 a4
  | _ => None
  end = Some m.
Proof.
  destruct m as [m|m|m|[]|[]]; cbn; intros Hok; try done;
    by rewrite MemoryMessage_roundtrip.
Qed.

Lemma Message_try_from_roundtrip m :
  Message_ok m = true ->
  match Message_to_usize m with
  | [_; id; a1; a2; a3; a4] => Message_try_from (message_type m) id a1 a2 a3 a4
  | _ => Err tt
  end = Ok m.
Proof.
  destruct m as [[id r o v]|[id r o v]|[id r o v]|[]|[]]; cbn; try done;
    unfold Message_ok, MemoryMessage_ok; cbn; rewrite !andb_true_iff;
    intros [[Hr Ho] Hv]; rewrite MemoryRange_new_ok by done;
    by rewrite !nonzero_get_or_0.
Qed.

(** ** Properties *)

(** Result register round trip: every result with in-range fields, other
    than [Unimplemented] and [UnknownResult], that the kernel writes with
    [to_args] is read back by [from_args] unchanged, and decoding does not
    panic. *)
Theorem XResult_roundtrip r :
  XResult_ok r = true -> XResult_of_regs (XResult_to_args r) = Some r.
Proof.
  destruct r; intros Hok; cbn in Hok; try done; cbn.
  - by rewrite Error_roundtrip.
  - by rewrite nonzero_Some.
  - destruct r. apply range_ok_nz in Hok as [Ha Hs]; cbn in *. by rewrite !nonzero_Some.
  - by rewrite SID_words_ok.
  - by rewrite wrap_small.
  - by rewrite SID_words_ok.
  - destruct e as [snd m]; cbn in *. pose proof (decode_message_roundtrip m Hok) as H.
    destruct m as [| | |[]|[]]; cbn in *; try done; by rewrite H.
  - by rewrite PID_new_ok.
  - apply andb_true_iff in Hok as [Ho Hv]. by rewrite !nonzero_get_or_0.
  - unfold ProcessStartup_from. by rewrite PID_new_ok.
  - pose proof (decode_message_roundtrip m Hok) as H. destruct m as [| | |[]|[]]; cbn in *; try done; by rewrite H.
Qed.

Lemma XResult_roundtrip_witness :
  XResult_ok (R_MessageEnvelope (mkEnvelope 16908291
    (MutableBorrow (mkMemoryMessage 7 (mkRange 65536 16384) None (Some 12))))) = true /\
  XResult_of_regs (XResult_to_args (R_MessageEnvelope (mkEnvelope 16908291
    (MutableBorrow (mkMemoryMessage 7 (mkRange 65536 16384) None (Some 12)))))) =
  Some (R_MessageEnvelope (mkEnvelope 16908291
    (MutableBorrow (mkMemoryMessage 7 (mkRange 65536 16384) None (Some 12))))).
Proof. split; [reflexivity | apply XResult_roundtrip; reflexivity]. Defined.

(** The two variants outside the round trip: [Unimplemented] is written with
    code 21, the code of [Message], and reads back as an internal error; an
    [UnknownResult] loses its last word and gains the marker. *)
Theorem XResult_no_roundtrip a1 a2 a3 a4 a5 a6 a7 :
  XResult_of_regs (XResult_to_args R_Unimplemented) = Some (R_Error InternalError) /\
  XResult_of_regs (XResult_to_args (R_UnknownResult a1 a2 a3 a4 a5 a6 a7)) =
  Some (R_UnknownResult USIZE_MAX a1 a2 a3 a4 a5 a6).
Proof. split; reflexivity. Qed.

(** [MemoryRange::is_empty] answers [true] on every constructible range: the
    comparison is inverted. *)
Theorem MemoryRange_is_empty_inverted a s r :
  0 <= s -> MemoryRange_new a s = Ok r -> MemoryRange_is_empty r = true.
Proof.
  intros Hs. unfold MemoryRange_new, MemoryRange_is_empty, nonzero.
  destruct (a =? 0); [done|]. destruct (Z.eqb_spec s 0); [done|]. cbn.
  intros [= <-]. cbn. apply Z.ltb_lt. lia.
Qed.

Lemma MemoryRange_is_empty_inverted_witness :
  MemoryRange_is_empty (mkRange 4096 16384) = true.
Proof. apply (MemoryRange_is_empty_inverted 4096 16384); [lia | reflexivity]. Defined.
