(* ===== verification/SysCall.v ===== *)
(** * The system call ABI

    Models [xous-rs/src/syscall.rs]: the [SysCall] enum (in the [beetos]
    configuration), its numbers, the encoding into eight registers
    ([as_args]), the kernel-side decoding ([from_args]) and the predicates the
    kernel consults ([can_call_from_interrupt], [memory], ...).  A panic of the
    decoder ([try_into().unwrap()]) is the outer [None]. *)

From S2P Require Import Prelude Abi.
From Stdlib Require Import ZArith Lia Bool.

(** A half-open [Range<MessageId>]. *)
Record MsgRange := mkMsgRange { mr_start : MessageId; mr_end : MessageId }.

Inductive SysCall :=
| MapMemory (phys virt : option Z) (size : Z) (flags : MemoryFlags)
| UnmapMemory (r : MemoryRange)
| IncreaseHeap (size : Z)
| UpdateMemoryFlags (r : MemoryRange) (flags : MemoryFlags) (pid : option PID)
| Yield
| SetThreadPriority (p : ThreadPriority)
| ReceiveMessage (s : SID)
| TryReceiveMessage (s : SID)
| ClaimInterrupt (irq : Z) (f : Z) (arg : option Z)
| FreeInterrupt (irq : Z)
| FutexWait (addr val : Z)
| FutexWake (addr n : Z)
| CreateServerWithAddress (s : SID) (m : MsgRange)
| Connect (s : SID)
| TryConnect (s : SID)
| SendMessage (c : CID) (m : Message)
| TrySendMessage (c : CID) (m : Message)
| ReturnMemory (snd : MessageSender) (r : MemoryRange) (offset valid : option Z)
| ReturnScalar1 (snd : MessageSender) (a : Z)
| ReturnScalar2 (snd : MessageSender) (a b : Z)
| CreateThread (i : ThreadInit)
| CreateProcess (i : ProcessInit)
| TerminateProcess (code : Z)
| TerminatePid (p : PID) (code : Z)
| Shutdown (code : Z)
| CreateServer
| CreateServerId
| ConnectForProcess (p : PID) (s : SID)
| GetRemoteProcessId (c : CID)
| GetThreadId
| GetProcessId
| DestroyServer (s : SID)
| Disconnect (c : CID)
| JoinThread (t : TID)
| VirtToPhys (vaddr : Z)
| ReturnScalar5 (snd : MessageSender) (a b c d e : Z)
| VirtToPhysPid (p : PID) (vaddr : Z)
| GetAppId (p : PID)
| AllowMessagesSID (s : SID) (m : MsgRange)
| AllowMessagesCID (p : PID) (c : CID) (m : MsgRange)
| FlushCache (r : MemoryRange) (op : CacheOperation)
| PowerManagement (d : DramIdleMode)
| AppIdToPid (a : AppId)
| MirrorMemoryToPid (r : MemoryRange) (p : PID)
| DebugCommand (r : MemoryRange) (cmd : Z)
| GetSystemStats (s : SystemStat)
| RegisterEventHandler (e : SystemEvent) (s : SID) (id : MessageId)
| AppendPanicMessage (len a1 a2 a3 a4 a5 a6 : Z)
| GetPanicMessage (r : MemoryRange)
| SpawnByName (a0 a1 a2 a3 : Z)
| SpawnByNameWithArgs (n0 n1 argv_ptr argv_len : Z)
| WaitProcess (p : PID)
| NetGetInfo
| WaitEvent (mask : Z)
| PollEvent
| PostEvent (p : PID) (bits : Z)
| GetBinaryName (index : Z)
| AcquireDisplay
| ReleaseDisplay (row col : Z)
| AcquireInputFocus (a b c d : Z)
| ReleaseInputFocus
| Invalid (a1 a2 a3 a4 a5 a6 a7 : Z).

Inductive SysCallNumber :=
| Nr_MapMemory | Nr_Yield | Nr_SetThreadPriority | Nr_ClaimInterrupt
| Nr_FreeInterrupt | Nr_FutexWait | Nr_FutexWake | Nr_IncreaseHeap
| Nr_UpdateMemoryFlags | Nr_CreateServerWithAddress | Nr_ReceiveMessage
| Nr_SendMessage | Nr_Connect | Nr_CreateThread | Nr_UnmapMemory
| Nr_ReturnMemory | Nr_CreateProcess | Nr_TerminateProcess | Nr_Shutdown
| Nr_TrySendMessage | Nr_TryConnect | Nr_ReturnScalar1 | Nr_ReturnScalar2
| Nr_TryReceiveMessage | Nr_CreateServer | Nr_ConnectForProcess
| Nr_CreateServerId | Nr_GetThreadId | Nr_GetProcessId | Nr_DestroyServer
| Nr_Disconnect | Nr_JoinThread | Nr_GetRemoteProcessId | Nr_VirtToPhys
| Nr_ReturnScalar5 | Nr_VirtToPhysPid | Nr_GetAppId | Nr_AllowMessagesSID
| Nr_AllowMessagesCID | Nr_InvalidateCache | Nr_PowerManagement
| Nr_AppIdToPid | Nr_MirrorMemoryToPid | Nr_DebugCommand | Nr_GetSystemStats
| Nr_TerminatePid | Nr_RegisterEventHandler | Nr_AppendPanicMessage
| Nr_GetPanicMessage | Nr_SpawnByName | Nr_WaitProcess
| Nr_SpawnByNameWithArgs | Nr_NetGetInfo | Nr_WaitEvent | Nr_PollEvent
| Nr_PostEvent | Nr_GetBinaryName | Nr_AcquireDisplay | Nr_ReleaseDisplay
| Nr_AcquireInputFocus | Nr_ReleaseInputFocus | Nr_Invalid.

(** [n as usize]: the discriminants; [Invalid] follows [ReleaseInputFocus]. *)
Definition SysCallNumber_as_usize (n : SysCallNumber) : Z :=
  match n with
  | Nr_MapMemory => 2 | Nr_Yield => 3 | Nr_SetThreadPriority => 4
  | Nr_ClaimInterrupt => 5 | Nr_FreeInterrupt => 6 | Nr_FutexWait => 7
  | Nr_FutexWake => 8 | Nr_IncreaseHeap => 10 | Nr_UpdateMemoryFlags => 12
  | Nr_CreateServerWithAddress => 14 | Nr_ReceiveMessage => 15
  | Nr_SendMessage => 16 | Nr_Connect => 17 | Nr_CreateThread => 18
  | Nr_UnmapMemory => 19 | Nr_ReturnMemory => 20 | Nr_CreateProcess => 21
  | Nr_TerminateProcess => 22 | Nr_Shutdown => 23 | Nr_TrySendMessage => 24
  | Nr_TryConnect => 25 | Nr_ReturnScalar1 => 26 | Nr_ReturnScalar2 => 27
  | Nr_TryReceiveMessage => 28 | Nr_CreateServer => 29
  | Nr_ConnectForProcess => 30 | Nr_CreateServerId => 31
  | Nr_GetThreadId => 32 | Nr_GetProcessId => 33 | Nr_DestroyServer => 34
  | Nr_Disconnect => 35 | Nr_JoinThread => 36 | Nr_GetRemoteProcessId => 37
  | Nr_VirtToPhys => 39 | Nr_ReturnScalar5 => 40 | Nr_VirtToPhysPid => 42
  | Nr_GetAppId => 43 | Nr_AllowMessagesSID => 44 | Nr_AllowMessagesCID => 45
  | Nr_InvalidateCache => 46 | Nr_PowerManagement => 47 | Nr_AppIdToPid => 48
  | Nr_MirrorMemoryToPid => 50 | Nr_DebugCommand => 51
  | Nr_GetSystemStats => 52 | Nr_TerminatePid => 53
  | Nr_RegisterEventHandler => 54 | Nr_AppendPanicMessage => 55
  | Nr_GetPanicMessage => 56 | Nr_SpawnByName => 57 | Nr_WaitProcess => 58
  | Nr_SpawnByNameWithArgs => 59 | Nr_NetGetInfo => 60 | Nr_WaitEvent => 61
  | Nr_PollEvent => 62 | Nr_PostEvent => 63 | Nr_GetBinaryName => 64
  | Nr_AcquireDisplay => 65 | Nr_ReleaseDisplay => 66
  | Nr_AcquireInputFocus => 67 | Nr_ReleaseInputFocus => 68
  | Nr_Invalid => 69
  end.

Definition SysCallNumber_from (val : Z) : SysCallNumber :=
  match val with
  | 2 => Nr_MapMemory | 3 => Nr_Yield | 4 => Nr_SetThreadPriority
  | 5 => Nr_ClaimInterrupt | 6 => Nr_FreeInterrupt | 7 => Nr_FutexWait
  | 8 => Nr_FutexWake | 10 => Nr_IncreaseHeap | 12 => Nr_UpdateMemoryFlags
  | 14 => Nr_CreateServerWithAddress | 15 => Nr_ReceiveMessage
  | 16 => Nr_SendMessage | 17 => Nr_Connect | 18 => Nr_CreateThread
  | 19 => Nr_UnmapMemory | 20 => Nr_ReturnMemory | 21 => Nr_CreateProcess
  | 22 => Nr_TerminateProcess | 23 => Nr_Shutdown | 24 => Nr_TrySendMessage
  | 25 => Nr_TryConnect | 26 => Nr_ReturnScalar1 | 27 => Nr_ReturnScalar2
  | 28 => Nr_TryReceiveMessage | 29 => Nr_CreateServer
  | 30 => Nr_ConnectForProcess | 31 => Nr_CreateServerId
  | 32 => Nr_GetThreadId | 33 => Nr_GetProcessId | 34 => Nr_DestroyServer
  | 35 => Nr_Disconnect | 36 => Nr_JoinThread | 37 => Nr_GetRemoteProcessId
  | 39 => Nr_VirtToPhys | 40 => Nr_ReturnScalar5 | 42 => Nr_VirtToPhysPid
  | 43 => Nr_GetAppId | 44 => Nr_AllowMessagesSID | 45 => Nr_AllowMessagesCID
  | 46 => Nr_InvalidateCache | 47 => Nr_PowerManagement | 48 => Nr_AppIdToPid
  | 50 => Nr_MirrorMemoryToPid | 51 => Nr_DebugCommand
  | 52 => Nr_GetSystemStats | 53 => Nr_TerminatePid
  | 54 => Nr_RegisterEventHandler | 55 => Nr_AppendPanicMessage
  | 56 => Nr_GetPanicMessage | 57 => Nr_SpawnByName | 58 => Nr_WaitProcess
  | 59 => Nr_SpawnByNameWithArgs | 60 => Nr_NetGetInfo | 61 => Nr_WaitEvent
  | 62 => Nr_PollEvent | 63 => Nr_PostEvent | 64 => Nr_GetBinaryName
  | 65 => Nr_AcquireDisplay | 66 => Nr_ReleaseDisplay
  | 67 => Nr_AcquireInputFocus | 68 => Nr_ReleaseInputFocus
  | _ => Nr_Invalid
  end.

(** ** Encoding *)

Abbreviation nr := SysCallNumber_as_usize.

(** The shared register layout of [SendMessage] and [TrySendMessage]. *)
Definition send_args (n : SysCallNumber) (c : CID) (m : Message) : list Z :=
  match m with
  | MutableBorrow mm | Borrow mm | Move mm =>
      [nr n; c; message_type m; mm_id mm; range_addr (mm_buf mm); range_size (mm_buf mm);
       get_or_0 (mm_offset mm); get_or_0 (mm_valid mm)]
  | Scalar sc | BlockingScalar sc =>
      [nr n; c; message_type m; sm_id sc; sm_arg1 sc; sm_arg2 sc; sm_arg3 sc; sm_arg4 sc]
  end.

Definition as_args (call : SysCall) : list Z :=
  match call with
  | MapMemory a1 a2 a3 a4 => [nr Nr_MapMemory; get_or_0 a1; get_or_0 a2; a3; a4; 0; 0; 0]
  | UnmapMemory r => [nr Nr_UnmapMemory; range_addr r; range_size r; 0; 0; 0; 0; 0]
  | IncreaseHeap size => [nr Nr_IncreaseHeap; size; 0; 0; 0; 0; 0; 0]
  | Yield => [nr Nr_Yield; 0; 0; 0; 0; 0; 0; 0]
  | SetThreadPriority p => [nr Nr_SetThreadPriority; ThreadPriority_as_usize p; 0; 0; 0; 0; 0; 0]
  | ReceiveMessage s => [nr Nr_ReceiveMessage; sid0 s; sid1 s; sid2 s; sid3 s; 0; 0; 0]
  | TryReceiveMessage s => [nr Nr_TryReceiveMessage; sid0 s; sid1 s; sid2 s; sid3 s; 0; 0; 0]
  | ConnectForProcess p s => [nr Nr_ConnectForProcess; p; sid0 s; sid1 s; sid2 s; sid3 s; 0; 0]
  | CreateServerId => [nr Nr_CreateServerId; 0; 0; 0; 0; 0; 0; 0]
  | ClaimInterrupt a1 a2 a3 => [nr Nr_ClaimInterrupt; a1; a2; get_or_0 a3; 0; 0; 0; 0]
  | FreeInterrupt a1 => [nr Nr_FreeInterrupt; a1; 0; 0; 0; 0; 0; 0]
  | FutexWait addr val => [nr Nr_FutexWait; addr; val; 0; 0; 0; 0; 0]
  | FutexWake addr n => [nr Nr_FutexWake; addr; n; 0; 0; 0; 0; 0]
  | UpdateMemoryFlags a1 a2 a3 =>
      [nr Nr_UpdateMemoryFlags; range_addr a1; range_size a1; a2; get_or_0 a3; 0; 0; 0]
  | CreateServerWithAddress s m =>
      [nr Nr_CreateServerWithAddress; sid0 s; sid1 s; sid2 s; sid3 s; mr_start m; mr_end m; 0]
  | CreateServer => [nr Nr_CreateServer; 0; 0; 0; 0; 0; 0; 0]
  | Connect s => [nr Nr_Connect; sid0 s; sid1 s; sid2 s; sid3 s; 0; 0; 0]
  | SendMessage c m => send_args Nr_SendMessage c m
  | ReturnMemory snd r offset valid =>
      [nr Nr_ReturnMemory; snd; range_addr r; range_size r; get_or_0 offset; get_or_0 valid; 0; 0]
  | CreateThread i => thread_to_args (nr Nr_CreateThread) i
  | CreateProcess i => nr Nr_CreateProcess :: ProcessInit_to_args i
  | TerminateProcess code => [nr Nr_TerminateProcess; code; 0; 0; 0; 0; 0; 0]
  | Shutdown code => [nr Nr_Shutdown; usize code; 0; 0; 0; 0; 0; 0]
  | TryConnect s => [nr Nr_TryConnect; sid0 s; sid1 s; sid2 s; sid3 s; 0; 0; 0]
  | TrySendMessage c m => send_args Nr_TrySendMessage c m
  | ReturnScalar1 snd a => [nr Nr_ReturnScalar1; snd; a; 0; 0; 0; 0; 0]
  | ReturnScalar2 snd a b => [nr Nr_ReturnScalar2; snd; a; b; 0; 0; 0; 0]
  | GetThreadId => [nr Nr_GetThreadId; 0; 0; 0; 0; 0; 0; 0]
  | GetProcessId => [nr Nr_GetProcessId; 0; 0; 0; 0; 0; 0; 0]
  | DestroyServer s => [nr Nr_DestroyServer; sid0 s; sid1 s; sid2 s; sid3 s; 0; 0; 0]
  | Disconnect c => [nr Nr_Disconnect; c; 0; 0; 0; 0; 0; 0]
  | JoinThread t => [nr Nr_JoinThread; t; 0; 0; 0; 0; 0; 0]
  | GetRemoteProcessId c => [nr Nr_GetRemoteProcessId; c; 0; 0; 0; 0; 0; 0]
  | VirtToPhys vaddr => [nr Nr_VirtToPhys; vaddr; 0; 0; 0; 0; 0; 0]
  | ReturnScalar5 snd a b c d e => [nr Nr_ReturnScalar5; snd; a; b; c; d; e; 0]
  | VirtToPhysPid p vaddr => [nr Nr_VirtToPhysPid; p; vaddr; 0; 0; 0; 0; 0]
  | GetAppId p => [nr Nr_GetAppId; p; 0; 0; 0; 0; 0; 0]
  | AllowMessagesSID s m =>
      [nr Nr_AllowMessagesSID; sid0 s; sid1 s; sid2 s; sid3 s; mr_start m; mr_end m; 0]
  | AllowMessagesCID p c m => [nr Nr_AllowMessagesCID; p; c; mr_start m; mr_end m; 0; 0; 0]
  | FlushCache r op =>
      [nr Nr_InvalidateCache; range_addr r; range_size r; CacheOperation_as_usize op; 0; 0; 0; 0]
  | PowerManagement d => [nr Nr_PowerManagement; DramIdleMode_as_usize d; 0; 0; 0; 0; 0; 0]
  | AppIdToPid a => nr Nr_AppIdToPid :: AppId_to_words a ++ [0; 0; 0]
  | MirrorMemoryToPid r p =>
      [nr Nr_MirrorMemoryToPid; range_addr r; range_size r; p; 0; 0; 0; 0]
  | DebugCommand r cmd => [nr Nr_DebugCommand; range_addr r; range_size r; cmd; 0; 0; 0; 0]
  | GetSystemStats s => [nr Nr_GetSystemStats; SystemStat_as_usize s; 0; 0; 0; 0; 0; 0]
  | RegisterEventHandler e s id =>
      [nr Nr_RegisterEventHandler; SystemEvent_as_usize e; sid0 s; sid1 s; sid2 s; sid3 s; id; 0]
  | AppendPanicMessage len a2 a3 a4 a5 a6 a7 =>
      [nr Nr_AppendPanicMessage; len; a2; a3; a4; a5; a6; a7]
  | GetPanicMessage r => [nr Nr_GetPanicMessage; range_addr r; range_size r; 0; 0; 0; 0; 0]
  | TerminatePid p code => [nr Nr_TerminatePid; p; code; 0; 0; 0; 0; 0]
  | SpawnByName a0 a1 a2 a3 => [nr Nr_SpawnByName; a0; a1; a2; a3; 0; 0; 0]
  | SpawnByNameWithArgs a0 a1 p l => [nr Nr_SpawnByNameWithArgs; a0; a1; p; l; 0; 0; 0]
  | WaitProcess p => [nr Nr_WaitProcess; p; 0; 0; 0; 0; 0; 0]
  | NetGetInfo => [nr Nr_NetGetInfo; 0; 0; 0; 0; 0; 0; 0]
  | WaitEvent mask => [nr Nr_WaitEvent; mask; 0; 0; 0; 0; 0; 0]
  | PollEvent => [nr Nr_PollEvent; 0; 0; 0; 0; 0; 0; 0]
  | PostEvent p bits => [nr Nr_PostEvent; p; bits; 0; 0; 0; 0; 0]
  | GetBinaryName index => [nr Nr_GetBinaryName; index; 0; 0; 0; 0; 0; 0]
  | AcquireDisplay => [nr Nr_AcquireDisplay; 0; 0; 0; 0; 0; 0; 0]
  | ReleaseDisplay row col => [nr Nr_ReleaseDisplay; row; col; 0; 0; 0; 0; 0]
  | AcquireInputFocus a b c d => [nr Nr_AcquireInputFocus; a; b; c; d; 0; 0; 0]
  | ReleaseInputFocus => [nr Nr_ReleaseInputFocus; 0; 0; 0; 0; 0; 0; 0]
  | Invalid a1 a2 a3 a4 a5 a6 a7 => [nr Nr_Invalid; a1; a2; a3; a4; a5; a6; a7]
  end.

(** ** Decoding *)

(** [a1.try_into().unwrap()] from [usize] to [u32]. *)
Definition cid_unwrap (a1 : Z) : option CID := if a1 <=? U32_MAX then Some a1 else None.

(** [PID::new(a as _).ok_or(Error::InvalidSyscall)?] followed by [k]. *)
Definition with_pid (a : Z) (k : PID -> SysCall) : option (res SysCall Error) :=
  Some (p <-! ok_or (PID_new a) InvalidSyscall ;; Ok (k p)).

(** [unsafe { MemoryRange::new(a, s) }?] followed by [k]. *)
Definition with_range (a s : Z) (k : MemoryRange -> SysCall) : option (res SysCall Error) :=
  Some (r <-! MemoryRange_new a s ;; Ok (k r)).

Definition with_sid (a b c d : Z) (k : SID -> SysCall) : option (res SysCall Error) :=
  Some (Ok (k (SID_from_u32 (u32 a) (u32 b) (u32 c) (u32 d)))).

Definition decode_send (a1 a2 a3 a4 a5 a6 a7 : Z) : option (res SysCall Error) :=
  match Message_try_from a2 a3 a4 a5 a6 a7 with
  | Ok m => match cid_unwrap a1 with Some c => Some (Ok (SendMessage c m)) | None => None end
  | Err _ => Some (Ok (Invalid a1 a2 a3 a4 a5 a6 a7))
  end.

Definition decode_try_send (a1 a2 a3 a4 a5 a6 a7 : Z) : option (res SysCall Error) :=
  let mem k :=
    with_range a4 a5 (fun r =>
      TrySendMessage (u32 a1) (k (mkMemoryMessage a3 r (nonzero a6) (nonzero a7)))) in
  match a2 with
  | 1 => mem MutableBorrow
  | 2 => mem Borrow
  | 3 => mem Move
  | 4 => Some (Ok (TrySendMessage (u32 a1) (Scalar (mkScalarMessage a3 a4 a5 a6 a7))))
  | 5 => match cid_unwrap a1 with
         | Some c => Some (Ok (TrySendMessage c (BlockingScalar (mkScalarMessage a3 a4 a5 a6 a7))))
         | None => None
         end
  | _ => Some (Ok (Invalid a1 a2 a3 a4 a5 a6 a7))
  end.

Definition from_args (a0 a1 a2 a3 a4 a5 a6 a7 : Z) : option (res SysCall Error) :=
  match SysCallNumber_from a0 with
  | Nr_MapMemory =>
      Some (s <-! ok_or (nonzero a3) InvalidSyscall ;;
            Ok (MapMemory (nonzero a1) (nonzero a2) s (MemoryFlags_from_bits a4)))
  | Nr_UnmapMemory =>
      Some (match MemoryRange_new a1 a2 with
            | Ok r => Ok (UnmapMemory r) | Err _ => Err InvalidSyscall end)
  | Nr_Yield => Some (Ok Yield)
  | Nr_SetThreadPriority => Some (Ok (SetThreadPriority (ThreadPriority_from a1)))
  | Nr_ReceiveMessage => with_sid a1 a2 a3 a4 ReceiveMessage
  | Nr_TryReceiveMessage => with_sid a1 a2 a3 a4 TryReceiveMessage
  | Nr_ClaimInterrupt =>
      Some (f <-! ok_or (nonzero a2) InvalidSyscall ;; Ok (ClaimInterrupt a1 f (nonzero a3)))
  | Nr_FreeInterrupt => Some (Ok (FreeInterrupt a1))
  | Nr_FutexWait => Some (Ok (FutexWait a1 a2))
  | Nr_FutexWake => Some (Ok (FutexWake a1 a2))
  | Nr_IncreaseHeap =>
      Some (s <-! ok_or (nonzero a1) InvalidSyscall ;; Ok (IncreaseHeap s))
  | Nr_UpdateMemoryFlags =>
      with_range a1 a2 (fun r => UpdateMemoryFlags r (MemoryFlags_from_bits a3) (PID_new a4))
  | Nr_CreateServerWithAddress =>
      with_sid a1 a2 a3 a4 (fun s => CreateServerWithAddress s (mkMsgRange a5 a6))
  | Nr_CreateServer => Some (Ok CreateServer)
  | Nr_Connect => with_sid a1 a2 a3 a4 Connect
  | Nr_SendMessage => decode_send a1 a2 a3 a4 a5 a6 a7
  | Nr_ReturnMemory =>
      with_range a2 a3 (fun r => ReturnMemory a1 r (nonzero a4) (nonzero a5))
  | Nr_CreateThread =>
      Some (i <-! args_to_thread a1 a2 a3 a4 a5 a6 a7 ;; Ok (CreateThread i))
  | Nr_CreateProcess =>
      Some (i <-! ProcessInit_try_from a1 a2 a3 a4 a5 a6 a7 ;; Ok (CreateProcess i))
  | Nr_TerminateProcess => Some (Ok (TerminateProcess (u32 a1)))
  | Nr_Shutdown => Some (Ok (Shutdown (to_i32 a1)))
  | Nr_TryConnect => with_sid a1 a2 a3 a4 TryConnect
  | Nr_TrySendMessage => decode_try_send a1 a2 a3 a4 a5 a6 a7
  | Nr_ReturnScalar1 => Some (Ok (ReturnScalar1 a1 a2))
  | Nr_ReturnScalar2 => Some (Ok (ReturnScalar2 a1 a2 a3))
  | Nr_ConnectForProcess =>
      with_pid a1 (fun p => ConnectForProcess p (SID_from_u32 (u32 a2) (u32 a3) (u32 a4) (u32 a5)))
  | Nr_CreateServerId => Some (Ok CreateServerId)
  | Nr_GetThreadId => Some (Ok GetThreadId)
  | Nr_GetProcessId => Some (Ok GetProcessId)
  | Nr_DestroyServer => with_sid a1 a2 a3 a4 DestroyServer
  | Nr_Disconnect => Some (Ok (Disconnect (u32 a1)))
  | Nr_JoinThread => Some (Ok (JoinThread a1))
  | Nr_GetRemoteProcessId => Some (Ok (GetRemoteProcessId (u32 a1)))
  | Nr_VirtToPhys => Some (Ok (VirtToPhys a1))
  | Nr_VirtToPhysPid => Some (p <-! pid_from_usize a1 ;; Ok (VirtToPhysPid p a2))
  | Nr_ReturnScalar5 => Some (Ok (ReturnScalar5 a1 a2 a3 a4 a5 a6))
  | Nr_GetAppId => with_pid a1 GetAppId
  | Nr_AllowMessagesSID => with_sid a1 a2 a3 a4 (fun s => AllowMessagesSID s (mkMsgRange a5 a6))
  | Nr_AllowMessagesCID => with_pid a1 (fun p => AllowMessagesCID p (u32 a2) (mkMsgRange a3 a4))
  | Nr_InvalidateCache => with_range a1 a2 (fun r => FlushCache r (CacheOperation_from a3))
  | Nr_PowerManagement => Some (Ok (PowerManagement (DramIdleMode_from a1)))
  | Nr_AppIdToPid =>
      Some (Ok (AppIdToPid (AppId_from_words (u32 a1) (u32 a2) (u32 a3) (u32 a4))))
  | Nr_MirrorMemoryToPid =>
      Some (r <-! MemoryRange_new a1 a2 ;;
            p <-! ok_or (PID_new a3) InvalidSyscall ;;
            Ok (MirrorMemoryToPid r p))
  | Nr_DebugCommand => with_range a1 a2 (fun r => DebugCommand r (u8 a3))
  | Nr_GetSystemStats => Some (Ok (GetSystemStats (SystemStat_from a1)))
  | Nr_RegisterEventHandler =>
      with_sid a2 a3 a4 a5 (fun s => RegisterEventHandler (SystemEvent_from a1) s a6)
  | Nr_AppendPanicMessage => Some (Ok (AppendPanicMessage a1 a2 a3 a4 a5 a6 a7))
  | Nr_GetPanicMessage => with_range a1 a2 GetPanicMessage
  | Nr_TerminatePid => with_pid a1 (fun p => TerminatePid p (u32 a2))
  | Nr_SpawnByName => Some (Ok (SpawnByName a1 a2 a3 a4))
  | Nr_SpawnByNameWithArgs => Some (Ok (SpawnByNameWithArgs a1 a2 a3 a4))
  | Nr_WaitProcess => with_pid a1 WaitProcess
  | Nr_NetGetInfo => Some (Ok NetGetInfo)
  | Nr_WaitEvent => Some (Ok (WaitEvent a1))
  | Nr_PollEvent => Some (Ok PollEvent)
  | Nr_PostEvent => with_pid a1 (fun p => PostEvent p a2)
  | Nr_GetBinaryName => Some (Ok (GetBinaryName a1))
  | Nr_AcquireDisplay => Some (Ok AcquireDisplay)
  | Nr_ReleaseDisplay => Some (Ok (ReleaseDisplay a1 a2))
  | Nr_AcquireInputFocus => Some (Ok (AcquireInputFocus (u32 a1) (u32 a2) (u32 a3) (u32 a4)))
  | Nr_ReleaseInputFocus => Some (Ok ReleaseInputFocus)
  | Nr_Invalid => Some (Ok (Invalid a1 a2 a3 a4 a5 a6 a7))
  end.

Definition from_regs (l : list Z) : option (res SysCall Error) :=
  match l with
  | [a0; a1; a2; a3; a4; a5; a6; a7] => from_args a0 a1 a2 a3 a4 a5 a6 a7
  | _ => None
  end.

(** ** Predicates and accessors *)

Definition call_has_memory (c : SysCall) : bool :=
  match c with
  | TrySendMessage _ msg | SendMessage _ msg => has_memory msg
  | ReturnMemory _ _ _ _ => true
  | _ => false
  end.

Definition call_memory (c : SysCall) : option MemoryRange :=
  match c with
  | TrySendMessage _ msg | SendMessage _ msg =>
      match msg with
      | Move m | Borrow m | MutableBorrow m => Some (mm_buf m)
      | _ => None
      end
  | ReturnMemory _ range _ _ => Some range
  | FlushCache range _ => Some range
  | _ => None
  end.

Definition set_buf (m : MemoryMessage) (new : MemoryRange) : MemoryMessage :=
  mkMemoryMessage (mm_id m) new (mm_offset m) (mm_valid m).

Definition replace_message_memory (msg : Message) (new : MemoryRange) : Message :=
  match msg with
  | Move m => Move (set_buf m new)
  | Borrow m => Borrow (set_buf m new)
  | MutableBorrow m => MutableBorrow (set_buf m new)
  | _ => msg
  end.

Definition replace_memory (c : SysCall) (new : MemoryRange) : SysCall :=
  match c with
  | TrySendMessage cid msg => TrySendMessage cid (replace_message_memory msg new)
  | SendMessage cid msg => SendMessage cid (replace_message_memory msg new)
  | ReturnMemory snd _ o v => ReturnMemory snd new o v
  | FlushCache _ op => FlushCache new op
  | _ => c
  end.

Definition can_call_from_interrupt (c : SysCall) : bool :=
  match c with
  | TrySendMessage _ msg => negb (is_blocking msg)
  | TryConnect _ | FreeInterrupt _ | ClaimInterrupt _ _ _ | TryReceiveMessage _
  | ReturnScalar5 _ _ _ _ _ _ | ReturnScalar2 _ _ _ | ReturnScalar1 _ _
  | ReturnMemory _ _ _ _ | MapMemory _ _ _ _ | UnmapMemory _
  | PostEvent _ _ | PollEvent => true
  | _ => false
  end.

(** ** Well-formed calls: every field is in the range of its Rust type *)

Definition SysCall_ok (c : SysCall) : bool :=
  match c with
  | MapMemory p v s f => nz_ok p && nz_ok v && negb (s =? 0) && flags_ok f
  | UnmapMemory r | GetPanicMessage r | FlushCache r _ => range_ok r
  | IncreaseHeap s => negb (s =? 0)
  | UpdateMemoryFlags r f p =>
      range_ok r && flags_ok f && match p with Some p => pid_ok p | None => true end
  | ReceiveMessage s | TryReceiveMessage s | CreateServerWithAddress s _ | Connect s
  | TryConnect s | DestroyServer s | AllowMessagesSID s _ | RegisterEventHandler _ s _ => SID_ok s
  | ClaimInterrupt _ f a => negb (f =? 0) && nz_ok a
  | SendMessage c m | TrySendMessage c m => fits 32 c && Message_ok m
  | ReturnMemory _ r o v => range_ok r && nz_ok o && nz_ok v
  | CreateThread i => ThreadInit_ok i
  | CreateProcess i => ProcessInit_ok i
  | TerminateProcess c | GetRemoteProcessId c | Disconnect c => fits 32 c
  | TerminatePid p c => pid_ok p && fits 32 c
  | Shutdown c => (- 2 ^ 31 <=? c) && (c <? 2 ^ 31)
  | ConnectForProcess p s => pid_ok p && SID_ok s
  | VirtToPhysPid p _ | GetAppId p | WaitProcess p | PostEvent p _ => pid_ok p
  | AllowMessagesCID p c _ => pid_ok p && fits 32 c
  | AppIdToPid a => AppId_ok a
  | MirrorMemoryToPid r p => range_ok r && pid_ok p
  | DebugCommand r c => range_ok r && fits 8 c
  | AcquireInputFocus a b c d => fits 32 a && fits 32 b && fits 32 c && fits 32 d
  | _ => true
  end.

(** ** Lemmas and automation of the round trip *)

Lemma flags_from_bits_ok f : flags_ok f = true -> MemoryFlags_from_bits f = f.
Proof. apply Z.eqb_eq. Qed.

Lemma PID_new_opt p :
  match p with Some p => pid_ok p | None => true end = true -> PID_new (get_or_0 p) = p.
Proof. destruct p; [apply PID_new_ok | done]. Qed.

Lemma cid_unwrap_ok c : fits 32 c = true -> cid_unwrap c = Some c.
Proof.
  intros H%fits_spec. unfold cid_unwrap, U32_MAX. by destruct (Z.leb_spec c (2 ^ 32 - 1)); [|lia].
Qed.

Lemma ThreadPriority_roundtrip p : ThreadPriority_from (ThreadPriority_as_usize p) = p.
Proof. by destruct p. Qed.
Lemma CacheOperation_roundtrip p : CacheOperation_from (CacheOperation_as_usize p) = p.
Proof. by destruct p. Qed.
Lemma DramIdleMode_roundtrip p : DramIdleMode_from (DramIdleMode_as_usize p) = p.
Proof. by destruct p. Qed.
Lemma SystemStat_roundtrip p : SystemStat_from (SystemStat_as_usize p) = p.
Proof. by destruct p. Qed.
Lemma SystemEvent_roundtrip p : SystemEvent_from (SystemEvent_as_usize p) = p.
Proof. by destruct p. Qed.

Lemma args_to_thread_roundtrip i :
  ThreadInit_ok i = true ->
  match thread_to_args 0 i with
  | [_; a1; a2; a3; a4; a5; a6; a7] => args_to_thread a1 a2 a3 a4 a5 a6 a7
  | _ => Err InternalError
  end = Ok i.
Proof.
  destruct i as [call [s|] ? ? ? ?]; cbn; [|done]. intros Hok.
  unfold args_to_thread. pose proof (range_ok_nz _ Hok) as [-> _].
  by rewrite MemoryRange_new_ok.
Qed.

Lemma ProcessInit_roundtrip p :
  ProcessInit_ok p = true ->
  match ProcessInit_to_args p with
  | [a1; a2; a3; a4; a5; a6; a7] => ProcessInit_try_from a1 a2 a3 a4 a5 a6 a7
  | _ => Err InternalError
  end = Ok p.
Proof.
  destruct p as [elf name app]. unfold ProcessInit_ok; cbn. rewrite !andb_true_iff.
  intros [[Helf Hname] Happ]. unfold ProcessInit_try_from.
  rewrite MemoryRange_new_ok, nonzero_Some by done. cbn.
  pose proof (AppId_roundtrip app Happ) as Hrt. cbn in Hrt. by rewrite Hrt.
Qed.

Lemma send_roundtrip c m :
  fits 32 c = true -> Message_ok m = true ->
  from_regs (send_args Nr_SendMessage c m) = Some (Ok (SendMessage c m)).
Proof.
  intros Hc Hm. pose proof (Message_try_from_roundtrip m Hm) as H.
  destruct m as [| | |[]|[]]; cbn in *; unfold from_args, decode_send; cbn;
    rewrite ?H; by rewrite cid_unwrap_ok.
Qed.

Lemma try_send_roundtrip c m :
  fits 32 c = true -> Message_ok m = true ->
  from_regs (send_args Nr_TrySendMessage c m) = Some (Ok (TrySendMessage c m)).
Proof.
  intros Hc. destruct m as [[id r o v]|[id r o v]|[id r o v]|[]|[]]; cbn;
    unfold Message_ok, MemoryMessage_ok; cbn; rewrite ?andb_true_iff; intros Hm;
    unfold from_args, decode_try_send, with_range; cbn; destruct_and?;
    try rewrite MemoryRange_new_ok, !nonzero_get_or_0 by done;
    cbn; by rewrite ?wrap_small, ?cid_unwrap_ok.
Qed.

(** ** Properties *)

(** C13. System call round trip: for every well-formed call, decoding the
    registers that the userspace library encodes returns that call. *)
Theorem syscall_roundtrip c :
  SysCall_ok c = true -> from_regs (as_args c) = Some (Ok c).
Proof.
  destruct c; cbn [SysCall_ok]; rewrite ?andb_true_iff; intros Hok; destruct_and?;
    try (by apply send_roundtrip); try (by apply try_send_roundtrip);
    try match goal with
    | i : ThreadInit |- _ => pose proof (args_to_thread_roundtrip i Hok) as Hrt
    | i : ProcessInit |- _ => pose proof (ProcessInit_roundtrip i Hok) as Hrt
    | a : AppId |- _ => pose proof (AppId_roundtrip a Hok) as Hrt
    end;
    cbn in *; unfold from_args, with_sid, with_range, with_pid; cbn;
    rewrite ?MemoryRange_new_ok, ?flags_from_bits_ok, ?PID_new_opt, ?PID_new_ok,
      ?pid_from_usize_ok, ?SID_words_ok, ?ThreadPriority_roundtrip,
      ?CacheOperation_roundtrip, ?DramIdleMode_roundtrip, ?SystemStat_roundtrip,
      ?SystemEvent_roundtrip, ?nonzero_get_or_0, ?to_i32_usize by (done || lia);
    rewrite ?nonzero_Some by done; cbn;
    rewrite ?wrap_small by done; rewrite ?nonzero_get_or_0 by done;
    rewrite ?Hrt; try done;
    by match goal with m : MsgRange |- _ => destruct m end.
Qed.

Lemma syscall_roundtrip_witness :
  SysCall_ok (SendMessage 5 (Borrow (mkMemoryMessage 3 (mkRange 65536 32768) None (Some 9)))) = true /\
  from_regs (as_args (SendMessage 5 (Borrow (mkMemoryMessage 3 (mkRange 65536 32768) None (Some 9))))) =
  Some (Ok (SendMessage 5 (Borrow (mkMemoryMessage 3 (mkRange 65536 32768) None (Some 9))))).
Proof. split; [reflexivity | apply syscall_roundtrip; reflexivity]. Defined.

(** The decoder runs on registers a user process controls.  It panics exactly
    on a send whose connection word does not fit in 32 bits: [SendMessage]
    with a decodable message, or [TrySendMessage] of a blocking scalar. *)
Theorem from_args_panics_iff a0 a1 a2 a3 a4 a5 a6 a7 :
  from_args a0 a1 a2 a3 a4 a5 a6 a7 = None <->
  U32_MAX < a1 /\
  ((SysCallNumber_from a0 = Nr_SendMessage /\
    is_ok (Message_try_from a2 a3 a4 a5 a6 a7) = true) \/
   (SysCallNumber_from a0 = Nr_TrySendMessage /\ a2 = 5)).
Proof.
  unfold from_args. destruct (SysCallNumber_from a0);
    try (split; [by intros [=] | intros (_ & [[[=] _] | [[=] _]])]).
  - unfold decode_send, cid_unwrap.
    destruct (Message_try_from a2 a3 a4 a5 a6 a7) as [m|]; cbn.
    + destruct (Z.leb_spec a1 U32_MAX); split; try done; [intros [? _]; lia | tauto].
    + split; [intros [=] | intros (_ & [[_ [=]] | [[=] _]])].
  - unfold decode_try_send, cid_unwrap, with_range.
    destruct (decide (a2 = 5)) as [->|Hne].
    + cbn. destruct (Z.leb_spec a1 U32_MAX); split; try done; [intros [? _]; lia | tauto].
    + split; [|intros (_ & [[[=] _] | [_ ?]]); done].
      intros H. exfalso. revert H Hne.
      repeat case_match; try done.
Qed.

(** *** The decoded fields are in range *)

Lemma nz_ok_nonzero x : nz_ok (nonzero x) = true.
Proof. unfold nonzero. destruct (x =? 0) eqn:E; [done|]. cbn. by rewrite E. Qed.

Lemma nonzero_inv x y : nonzero x = Some y -> y = x /\ negb (x =? 0) = true.
Proof. unfold nonzero. destruct (x =? 0); [done|]. by intros [= ->]. Qed.

Lemma MemoryRange_new_sound a s r :
  fits 64 a = true -> fits 64 s = true -> MemoryRange_new a s = Ok r -> range_ok r = true.
Proof.
  intros Ha Hs. unfold MemoryRange_new, ok_or.
  destruct (nonzero a) as [a'|] eqn:Ea; [|done]. destruct (nonzero s) as [s'|] eqn:Es; [|done].
  apply nonzero_inv in Ea as [-> Ea], Es as [-> Es]. cbn. intros [= <-].
  unfold range_ok; cbn. by rewrite Ea, Es, Ha, Hs.
Qed.

Lemma PID_new_sound x p : PID_new x = Some p -> pid_ok p = true.
Proof.
  unfold PID_new. intros [-> Hz]%nonzero_inv. unfold pid_ok, U8_MAX.
  pose proof (wrap_fits 8 x ltac:(lia)) as H%fits_spec. change (2 ^ 8) with 256 in H.
  apply negb_true_iff, Z.eqb_neq in Hz. apply andb_true_iff. rewrite !Z.leb_le. lia.
Qed.

Lemma pid_from_usize_sound x p : fits 64 x = true -> pid_from_usize x = Ok p -> pid_ok p = true.
Proof.
  intros Hx%fits_spec. unfold pid_from_usize, ok_or, U8_MAX, pid_ok.
  destruct (Z.ltb_spec 255 x); [done|]. destruct (nonzero x) eqn:E; [|done].
  apply nonzero_inv in E as [-> Hz]. intros [= <-].
  apply negb_true_iff, Z.eqb_neq in Hz. apply andb_true_iff. rewrite !Z.leb_le. unfold U8_MAX. lia.
Qed.

Lemma flags_ok_from_bits x : flags_ok (MemoryFlags_from_bits x) = true.
Proof.
  unfold flags_ok, MemoryFlags_from_bits. apply Z.eqb_eq.
  by rewrite <- Z.land_assoc, Z.land_diag.
Qed.

Lemma SID_ok_from_u32 a b c d : SID_ok (SID_from_u32 (u32 a) (u32 b) (u32 c) (u32 d)) = true.
Proof. unfold SID_ok; cbn. by rewrite !wrap_fits by lia. Qed.

Lemma AppId_ok_from_words a b c d : AppId_ok (AppId_from_words a b c d) = true.
Proof.
  unfold AppId_ok, AppId_from_words. rewrite !length_app, !length_to_le_bytes.
  by rewrite !forallb_app, !to_le_bytes_ok.
Qed.

Lemma to_i32_range x : (- 2 ^ 31 <=? to_i32 x) && (to_i32 x <? 2 ^ 31) = true.
Proof.
  unfold to_i32. pose proof (Z.mod_pos_bound x (2 ^ 32)).
  apply andb_true_iff. rewrite Z.leb_le, Z.ltb_lt.
  destruct (Z.ltb_spec (x mod 2 ^ 32) (2 ^ 31)); lia.
Qed.

Lemma cid_unwrap_sound a c : fits 64 a = true -> cid_unwrap a = Some c -> fits 32 c = true.
Proof.
  intros Ha%fits_spec. unfold cid_unwrap, U32_MAX.
  destruct (Z.leb_spec a (2 ^ 32 - 1)); [|done]. intros [= <-]. apply fits_spec. lia.
Qed.

Lemma Message_try_from_sound v0 v1 v2 v3 v4 v5 m :
  fits 64 v2 = true -> fits 64 v3 = true ->
  Message_try_from v0 v1 v2 v3 v4 v5 = Ok m -> Message_ok m = true.
Proof.
  intros H2 H3. unfold Message_try_from.
  destruct (MemoryRange_new v2 v3) as [r|] eqn:Er;
    repeat case_match; intros [= <-]; try done; unfold Message_ok, MemoryMessage_ok; cbn;
    by rewrite (MemoryRange_new_sound _ _ _ H2 H3 Er), !nz_ok_nonzero.
Qed.

Lemma args_to_thread_sound a1 a2 a3 a4 a5 a6 a7 i :
  fits 64 a2 = true -> fits 64 a3 = true ->
  args_to_thread a1 a2 a3 a4 a5 a6 a7 = Ok i -> ThreadInit_ok i = true.
Proof.
  intros H2 H3. unfold args_to_thread. destruct (negb (a2 =? 0)); [|by intros [= <-]].
  destruct (MemoryRange_new a2 a3) as [r|] eqn:E; cbn; [|done]. intros [= <-].
  by apply (MemoryRange_new_sound a2 a3).
Qed.

Lemma ProcessInit_try_from_sound a1 a2 a3 a4 a5 a6 a7 i :
  fits 64 a1 = true -> fits 64 a2 = true ->
  ProcessInit_try_from a1 a2 a3 a4 a5 a6 a7 = Ok i -> ProcessInit_ok i = true.
Proof.
  intros H1 H2. unfold ProcessInit_try_from, ok_or.
  destruct (MemoryRange_new a1 a2) as [r|] eqn:E; cbn; [|done].
  destruct (nonzero a7) as [n|] eqn:En; [|done]. apply nonzero_inv in En as [-> Hn].
  intros [= <-]. unfold ProcessInit_ok; cbn [pi_elf pi_name_addr pi_app_id].
  by rewrite (MemoryRange_new_sound a1 a2 r), Hn, AppId_ok_from_words.
Qed.

(** Breaks a decoder arm into its sub-decoders and closes it with the lemmas
    above. *)
Ltac decode_arm :=
  repeat match goal with
  | H : Some _ = Some _ |- _ => injection H as H; subst
  | H : Ok _ = Ok _ |- _ => injection H as H; subst
  | H : res_bind ?r _ = Ok _ |- _ => let E := fresh "E" in destruct r eqn:E; cbn in H
  | H : ok_or ?o _ = Ok _ |- _ => let E := fresh "E" in destruct o eqn:E; cbn in H
  | H : nonzero _ = Some _ |- _ => apply nonzero_inv in H as [-> ?]
  | H : Err _ = Ok _ |- _ => discriminate H
  end; cbn [SysCall_ok];
  rewrite ?SID_ok_from_u32, ?flags_ok_from_bits, ?nz_ok_nonzero, ?AppId_ok_from_words,
    ?to_i32_range, ?wrap_fits by lia;
  repeat match goal with
  | H : MemoryRange_new _ _ = Ok _ |- _ => apply MemoryRange_new_sound in H; [|done|done]
  | H : PID_new _ = Some _ |- _ => apply PID_new_sound in H
  | H : pid_from_usize _ = Ok _ |- _ => apply pid_from_usize_sound in H; [|done]
  | H : args_to_thread _ _ _ _ _ _ _ = Ok _ |- _ => apply args_to_thread_sound in H; [|done|done]
  | H : ProcessInit_try_from _ _ _ _ _ _ _ = Ok _ |- _ =>
      apply ProcessInit_try_from_sound in H; [|done|done]
  | H : ?x = true |- context [?x] => rewrite H
  end; try done.

(** The fields of a decoded call are in range. *)
Lemma from_args_fields a0 a1 a2 a3 a4 a5 a6 a7 c :
  forallb (fits 64) [a0; a1; a2; a3; a4; a5; a6; a7] = true ->
  from_args a0 a1 a2 a3 a4 a5 a6 a7 = Some (Ok c) -> SysCall_ok c = true.
Proof.
  cbn [forallb]. rewrite !andb_true_iff. intros (H0 & H1 & H2 & H3 & H4 & H5 & H6 & H7 & _).
  unfold from_args, with_sid, with_range, with_pid.
  destruct (SysCallNumber_from a0); intros H; decode_arm.
  - destruct (PID_new a4) eqn:Ep; [by rewrite (PID_new_sound _ _ Ep) | done].
  - unfold decode_send in H.
    destruct (Message_try_from a2 a3 a4 a5 a6 a7) eqn:Em; [|by decode_arm].
    destruct (cid_unwrap a1) eqn:Ec; [|done]. decode_arm.
    by rewrite (cid_unwrap_sound a1), (Message_try_from_sound a2 a3 a4 a5 a6 a7).
  - by destruct (MemoryRange_new a1 a2) eqn:E; decode_arm.
  - unfold decode_try_send, with_range, cid_unwrap in H.
    repeat case_match; decode_arm; unfold Message_ok, MemoryMessage_ok; cbn;
      rewrite ?nz_ok_nonzero; decode_arm.
    apply fits_spec in H1. apply andb_true_iff. split; [|done].
    apply fits_spec. unfold U32_MAX in *. lia.
Qed.

(** Type soundness of the decoder: from 64-bit registers it only produces
    calls whose fields are in the range of their Rust types. *)
Theorem from_args_sound a0 a1 a2 a3 a4 a5 a6 a7 c :
  forallb (fits 64) [a0; a1; a2; a3; a4; a5; a6; a7] = true ->
  from_args a0 a1 a2 a3 a4 a5 a6 a7 = Some (Ok c) -> SysCall_ok c = true.
Proof. exact (from_args_fields a0 a1 a2 a3 a4 a5 a6 a7 c). Qed.

Lemma from_args_sound_witness :
  SysCall_ok (MapMemory None (Some 65536) 16384 4) = true.
Proof.
  apply (from_args_sound 2 0 65536 16384 6 0 0 0); vm_compute; reflexivity.
Defined.
