(* ===== verification/Scheduler.v ===== *)
(** * The thread scheduler

    Models [xous/kernel/src/scheduler.rs]: the sixteen priority queues kept as
    circular doubly linked lists threaded through a table of links, and the
    operations [ready_thread], [park_thread] and [yield_thread].

    The table [links: [[Option<SchedulerLink>; 32]; 64]] is a finite map from
    (PID, TID); an index outside the table panics, as the array access does.
    The abstract scheduler keeps one list of threads per priority, head first;
    [refines] relates the two, and the refinement theorems show that the
    pointer surgery implements append, remove and rotate without ever hitting
    one of its [expect]s. *)

From S2P Require Import Prelude Abi.
From Stdlib Require Import ZArith Lia Bool.
From stdpp Require Import gmap.
Open Scope Z_scope.

(** ** Data *)

Definition MAX_THREAD_COUNT : Z := 32.
Definition MAX_PROCESS_COUNT : Z := 64.
Definition IRQ_TID : TID := 0.
Definition INITIAL_TID : TID := 1.
Definition NUM_PRIORITIES : nat := 16.

Definition thread : Type := PID * TID.
#[export] Instance thread_eq_dec : EqDecision thread.
Proof. unfold thread, PID, TID. solve_decision. Defined.
#[export] Instance thread_countable : Countable thread.
Proof. unfold thread, PID, TID. apply _. Defined.

Record SchedulerLink := mkLink {
  next_pid : PID; next_tid : TID; prev_pid : PID; prev_tid : TID }.

Record Scheduler := mkScheduler {
  queue_heads : list (option thread);
  links : gmap thread SchedulerLink;
  highest_ready_priority : nat;
  in_irq_handler : bool }.

Definition scheduler_init : Scheduler :=
  mkScheduler (replicate NUM_PRIORITIES None) ∅ 0 false.

Definition prio_index (p : ThreadPriority) : nat := Z.to_nat (ThreadPriority_as_usize p).

Lemma prio_index_lt p : (prio_index p < NUM_PRIORITIES)%nat.
Proof. apply Nat.ltb_lt. by destruct p. Qed.

(** [l.next_pid, l.next_tid] and [l.prev_pid, l.prev_tid] as threads. *)
Definition link_next (l : SchedulerLink) : thread := (next_pid l, next_tid l).
Definition link_prev (l : SchedulerLink) : thread := (prev_pid l, prev_tid l).
Definition link_set_next (t : thread) (l : SchedulerLink) : SchedulerLink :=
  mkLink t.1 t.2 (prev_pid l) (prev_tid l).
Definition link_set_prev (t : thread) (l : SchedulerLink) : SchedulerLink :=
  mkLink (next_pid l) (next_tid l) t.1 t.2.

(** The indices [pid.get() as usize - 1] and [tid - 1] are inside the table. *)
Definition index_ok (t : thread) : bool :=
  (1 <=? t.1) && (t.1 <=? MAX_PROCESS_COUNT) && (1 <=? t.2) && (t.2 <=? MAX_THREAD_COUNT).

(** ** Operations *)

Definition set_heads (p : nat) (h : option thread) (s : Scheduler) : Scheduler :=
  mkScheduler (<[p := h]> (queue_heads s)) (links s) (highest_ready_priority s) (in_irq_handler s).
Definition set_highest (p : nat) (s : Scheduler) : Scheduler :=
  mkScheduler (queue_heads s) (links s) p (in_irq_handler s).
Definition set_irq (b : bool) (s : Scheduler) : Scheduler :=
  mkScheduler (queue_heads s) (links s) (highest_ready_priority s) b.
Definition set_links (m : gmap thread SchedulerLink) (s : Scheduler) : Scheduler :=
  mkScheduler (queue_heads s) m (highest_ready_priority s) (in_irq_handler s).

Definition link_copy (t : thread) : M Scheduler (option SchedulerLink) :=
  _ <- assertb (index_ok t) ;; gets (fun s => links s !! t).

(** [*self.link_mut(t) = Some(l)] *)
Definition link_write (t : thread) (l : SchedulerLink) : M Scheduler unit :=
  _ <- assertb (index_ok t) ;; modify (fun s => set_links (<[t := l]> (links s)) s).

(** [core::mem::take(self.link_mut(t))] *)
Definition link_take (t : thread) : M Scheduler (option SchedulerLink) :=
  l <- link_copy t ;; _ <- modify (fun s => set_links (delete t (links s)) s) ;; ret l.

(** [self.link_mut(t).as_mut().expect(..)] followed by field updates [f]. *)
Definition link_update (t : thread) (f : SchedulerLink -> SchedulerLink) : M Scheduler unit :=
  o <- link_copy t ;; l <- expect o ;; link_write t (f l).

Definition queue_head (p : nat) : M Scheduler (option thread) :=
  h <- gets queue_heads ;; expect (h !! p).

Definition ready_thread (pid : PID) (tid : TID) (priority : ThreadPriority) : M Scheduler unit :=
  if tid =? IRQ_TID then
    irq <- gets in_irq_handler ;;
    _ <- assertb (negb irq) ;;
    modify (set_irq true)
  else
    let p := prio_index priority in
    h <- queue_head p ;;
    match h with
    | None =>
        _ <- modify (set_heads p (Some (pid, tid))) ;;
        _ <- modify (fun s => if (highest_ready_priority s <? p)%nat then set_highest p s else s) ;;
        link_write (pid, tid) (mkLink pid tid pid tid)
    | Some (head_pid, head_tid) =>
        old <- link_copy (pid, tid) ;;
        _ <- assertb (match old with None => true | Some _ => false end) ;;
        hc <- link_copy (head_pid, head_tid) ;;
        head_copy <- expect hc ;;
        _ <- link_write (head_pid, head_tid)
               (mkLink (next_pid head_copy) (next_tid head_copy) pid tid) ;;
        _ <- link_update (prev_pid head_copy, prev_tid head_copy) (link_set_next (pid, tid)) ;;
        link_write (pid, tid)
          (mkLink head_pid head_tid (prev_pid head_copy) (prev_tid head_copy))
    end.

Definition is_some {A} (o : option A) : bool := match o with Some _ => true | None => false end.

Definition park_thread (pid : PID) (tid : TID) (priority : ThreadPriority) : M Scheduler unit :=
  if tid =? IRQ_TID then
    irq <- gets in_irq_handler ;;
    _ <- assertb irq ;;
    modify (set_irq false)
  else
    let p := prio_index priority in
    taken <- link_take (pid, tid) ;;
    link <- expect taken ;;
    if (next_pid link =? pid) && (next_tid link =? tid) then
      _ <- queue_head p ;;
      _ <- modify (set_heads p None) ;;
      modify (fun s =>
        if (p =? highest_ready_priority s)%nat then
          set_highest (default 0%nat (rposition is_some (take p (queue_heads s)))) s
        else s)
    else
      h <- queue_head p ;;
      _ <- modify (fun s =>
             if bool_decide (h = Some (pid, tid)) then set_heads p (Some (link_next link)) s else s) ;;
      _ <- link_update (link_prev link) (link_set_next (link_next link)) ;;
      link_update (link_next link) (link_set_prev (link_prev link)).

Definition yield_thread (pid : PID) (tid : TID) (priority : ThreadPriority) : M Scheduler unit :=
  let p := prio_index priority in
  h <- queue_head p ;;
  if bool_decide (h = Some (pid, tid)) then
    o <- link_copy (pid, tid) ;;
    link <- expect o ;;
    modify (set_heads p (Some (link_next link)))
  else ret tt.

(** ** The abstract scheduler *)

Record ASched := mkASched { a_queues : list (list thread); a_irq : bool }.

Definition a_init : ASched := mkASched (replicate NUM_PRIORITIES []) false.

Definition a_queue (a : ASched) (p : nat) : list thread := default [] (a_queues a !! p).
Definition a_set (a : ASched) (p : nat) (q : list thread) : ASched :=
  mkASched (<[p := q]> (a_queues a)) (a_irq a).

Definition a_ready (t : thread) (p : nat) (a : ASched) : ASched :=
  a_set a p (a_queue a p ++ [t]).
Definition a_park (t : thread) (p : nat) (a : ASched) : ASched :=
  a_set a p (filter (fun u : thread => u <> t) (a_queue a p)).
Definition rotate {A} (q : list A) : list A :=
  match q with [] => [] | x :: r => r ++ [x] end.
Definition a_yield (t : thread) (p : nat) (a : ASched) : ASched :=
  if bool_decide (head (a_queue a p) = Some t) then a_set a p (rotate (a_queue a p)) else a.

(** The thread the scheduler runs next: the head of the highest nonempty queue. *)
Definition nonempty {A} (q : list A) : bool := match q with [] => false | _ => true end.
Definition a_highest (a : ASched) : nat := default 0%nat (rposition nonempty (a_queues a)).
Definition a_ready_threads (a : ASched) : list thread := concat (a_queues a).

(** ** Circular lists in the link table *)

Section Ring.
Implicit Types (L : gmap thread SchedulerLink) (a b c e t u x : thread) (l m q : list thread).

Definition nxt L a : option thread := link_next <$> L !! a.
Definition prv L a : option thread := link_prev <$> L !! a.

(** [a -> b] in both directions. *)
Definition arrow L a b : Prop := nxt L a = Some b /\ prv L b = Some a.

(** The chain from [a] through [l] to [b]. *)
Fixpoint path L a l b : Prop :=
  match l with
  | [] => arrow L a b
  | x :: l => arrow L a x /\ path L x l b
  end.

Definition ring L q : Prop := match q with [] => True | h :: m => path L h m h end.

Lemma path_app L a l x m b : path L a (l ++ x :: m) b <-> path L a l x /\ path L x m b.
Proof. revert a. induction l as [|y l IH]; intros a; cbn; [done|]. rewrite IH. tauto. Qed.

Lemma path_nxt L a l b : path L a l b -> nxt L a = Some (default b (head l)).
Proof. destruct l; cbn; [intros []|intros [[] _]]; done. Qed.

Lemma path_prv L a l b : path L a l b -> prv L b = Some (default a (last l)).
Proof.
  revert a. induction l as [|y l IH]; intros a; cbn; [by intros []|].
  intros [_ H]. by rewrite (IH y H), last_cons_default.
Qed.

Lemma path_linked L a l b u : path L a l b -> u ∈ a :: l -> is_Some (L !! u).
Proof.
  revert a. induction l as [|y l IH]; intros a.
  - intros [H _] ->%list_elem_of_singleton. unfold nxt in H. by destruct (L !! a).
  - intros [[H _] Hp] [->|Hu]%elem_of_cons; [|by apply (IH y)].
    unfold nxt in H. by destruct (L !! a).
Qed.

Lemma ring_linked L q u : ring L q -> u ∈ q -> is_Some (L !! u).
Proof. destruct q; [by rewrite elem_of_nil|]. apply path_linked. Qed.

(** Rotating the list describes the same circle. *)
Lemma ring_rotate L l m : ring L (l ++ m) -> ring L (m ++ l).
Proof.
  destruct l as [|h l], m as [|k m]; cbn; rewrite ?app_nil_r; try done.
  rewrite !path_app. tauto.
Qed.

(** Redirecting the last arrow of a chain. *)
Lemma path_retarget L L' a l b c :
  let e := default a (last l) in
  NoDup (a :: l) -> path L a l b ->
  (forall u, u ∈ a :: l -> u <> e -> nxt L' u = nxt L u) -> nxt L' e = Some c ->
  (forall u, u ∈ l -> prv L' u = prv L u) -> prv L' c = Some e ->
  path L' a l c.
Proof.
  cbn. revert a. induction l as [|y l IH]; intros a Hnd Hp Hn He Hpr Hc; cbn in *; [done|].
  apply NoDup_cons in Hnd as [Hay Hnd]. destruct Hp as [[Hay1 Hay2] Hp].
  pose proof (last_cons_default a y l) as Hlast. cbn in Hlast. rewrite Hlast in *.
  pose proof (last_default_elem y l) as Hin.
  split.
  - split; [rewrite Hn; [done|set_solver|set_solver]|rewrite Hpr; [done|set_solver]].
  - apply IH; try done; intros u Hu; [intros ?; apply Hn; [set_solver|done]|apply Hpr; set_solver].
Qed.

Lemma path_frame L L' a l b :
  (forall u, u ∈ b :: a :: l -> L' !! u = L !! u) -> path L a l b -> path L' a l b.
Proof.
  revert a. induction l as [|y l IH]; intros a Hf; cbn; unfold arrow, nxt, prv.
  - rewrite !Hf by set_solver. done.
  - rewrite !Hf by set_solver. intros [? ?]. split; [done|]. apply IH; [set_solver|done].
Qed.

Lemma ring_frame L L' q : (forall u, u ∈ q -> L' !! u = L !! u) -> ring L q -> ring L' q.
Proof. destruct q as [|h m]; [done|]. intros Hf. apply path_frame. set_solver. Qed.

(** The two primitive writes, seen through [nxt] and [prv]. *)
Lemma nxt_set_prev L c a u : nxt (alter (link_set_prev c) a L) u = nxt L u.
Proof. unfold nxt. destruct (decide (u = a)) as [->|]; [rewrite lookup_alter_eq; by destruct (L !! a)|by rewrite lookup_alter_ne]. Qed.
Lemma prv_set_next L c a u : prv (alter (link_set_next c) a L) u = prv L u.
Proof. unfold prv. destruct (decide (u = a)) as [->|]; [rewrite lookup_alter_eq; by destruct (L !! a)|by rewrite lookup_alter_ne]. Qed.
Lemma nxt_set_next_ne L c a u : u <> a -> nxt (alter (link_set_next c) a L) u = nxt L u.
Proof. intros. unfold nxt. by rewrite lookup_alter_ne. Qed.
Lemma prv_set_prev_ne L c a u : u <> a -> prv (alter (link_set_prev c) a L) u = prv L u.
Proof. intros. unfold prv. by rewrite lookup_alter_ne. Qed.
Lemma nxt_set_next_eq L c a : is_Some (nxt L a) -> nxt (alter (link_set_next c) a L) a = Some c.
Proof. unfold nxt. rewrite lookup_alter_eq. destruct (L !! a); intros [? ?]; [by destruct c|done]. Qed.
Lemma prv_set_prev_eq L c a : is_Some (prv L a) -> prv (alter (link_set_prev c) a L) a = Some c.
Proof. unfold prv. rewrite lookup_alter_eq. destruct (L !! a); intros [? ?]; [by destruct c|done]. Qed.
Lemma nxt_insert_ne L k t u : u <> t -> nxt (<[t := k]> L) u = nxt L u.
Proof. intros. unfold nxt. by rewrite lookup_insert_ne. Qed.
Lemma prv_insert_ne L k t u : u <> t -> prv (<[t := k]> L) u = prv L u.
Proof. intros. unfold prv. by rewrite lookup_insert_ne. Qed.
Lemma nxt_delete_ne L t u : u <> t -> nxt (delete t L) u = nxt L u.
Proof. intros. unfold nxt. by rewrite lookup_delete_ne. Qed.
Lemma prv_delete_ne L t u : u <> t -> prv (delete t L) u = prv L u.
Proof. intros. unfold prv. by rewrite lookup_delete_ne. Qed.

(** The table after inserting [t] before the head [h], whose predecessor is [e]. *)
Definition linked_in L t h e : gmap thread SchedulerLink :=
  <[t := mkLink h.1 h.2 e.1 e.2]> (alter (link_set_next t) e (alter (link_set_prev t) h L)).

(** The table after unlinking [t], with successor [x] and predecessor [e]. *)
Definition unlinked L t x e : gmap thread SchedulerLink :=
  alter (link_set_prev e) x (alter (link_set_next x) e (delete t L)).

Lemma ring_link L t h m :
  NoDup (h :: m) -> t ∉ h :: m -> ring L (h :: m) ->
  ring (linked_in L t h (default h (last m))) (h :: m ++ [t]).
Proof.
  intros Hnd Ht Hr. pose proof (last_default_elem h m) as He.
  set (e := default h (last m)) in *. cbn [ring] in *. unfold linked_in.
  assert (Hhm : forall u, u ∈ m -> u <> h) by (intros u Hu ->; by apply NoDup_cons in Hnd as [? _]).
  assert (Hth : t <> h /\ t <> e) by (split; intros ->; set_solver).
  pose proof (path_linked _ _ _ _ e Hr He) as [el Hel].
  pose proof (path_prv _ _ _ _ Hr) as Hph.
  apply path_app. split.
  - apply (path_retarget L _ h m h t); fold e; [done|done|..].
    + intros u Hu Hue. rewrite nxt_insert_ne, nxt_set_next_ne, nxt_set_prev by set_solver. done.
    + rewrite nxt_insert_ne by set_solver. apply nxt_set_next_eq.
      rewrite nxt_set_prev. unfold nxt. rewrite Hel. by eexists.
    + intros u Hu. rewrite prv_insert_ne, prv_set_next, prv_set_prev_ne; set_solver.
    + unfold prv. rewrite lookup_insert_eq. by destruct e.
  - split.
    + unfold nxt. rewrite lookup_insert_eq. by destruct h.
    + rewrite prv_insert_ne, prv_set_next by set_solver. apply prv_set_prev_eq.
      rewrite Hph. by eexists.
Qed.

Lemma ring_unlink L t x m :
  NoDup (t :: x :: m) -> ring L (t :: x :: m) ->
  ring (unlinked L t x (default x (last m))) (x :: m).
Proof.
  intros Hnd Hr. pose proof (last_default_elem x m) as He.
  set (e := default x (last m)) in *. cbn [ring path] in *. unfold unlinked.
  apply NoDup_cons in Hnd as [Ht Hnd]. destruct Hr as [[Ht1 Ht2] Hr].
  assert (Hxm : forall u, u ∈ m -> u <> x) by (intros u Hu ->; by apply NoDup_cons in Hnd as [? _]).
  pose proof (path_linked _ _ _ _ e Hr He) as [el Hel].
  apply (path_retarget L _ x m t x); fold e; [done|done|..].
  - intros u Hu Hue. rewrite nxt_set_prev, nxt_set_next_ne, nxt_delete_ne by set_solver. done.
  - rewrite nxt_set_prev. apply nxt_set_next_eq. rewrite nxt_delete_ne by set_solver.
    unfold nxt. rewrite Hel. by eexists.
  - intros u Hu. rewrite prv_set_prev_ne, prv_set_next, prv_delete_ne; set_solver.
  - apply prv_set_prev_eq. rewrite prv_set_next, prv_delete_ne by set_solver.
    rewrite Ht2. by eexists.
Qed.

Lemma linked_in_frame L t h e u : u <> t -> u <> h -> u <> e -> linked_in L t h e !! u = L !! u.
Proof. intros. unfold linked_in. by rewrite lookup_insert_ne, !lookup_alter_ne. Qed.
Lemma unlinked_frame L t x e u : u <> t -> u <> x -> u <> e -> unlinked L t x e !! u = L !! u.
Proof. intros. unfold unlinked. by rewrite !lookup_alter_ne, lookup_delete_ne. Qed.

Lemma linked_in_dom L t h e u : is_Some (linked_in L t h e !! u) -> u = t \/ is_Some (L !! u).
Proof.
  unfold linked_in. intros H. destruct (decide (u = t)); [by left|]. right.
  by rewrite lookup_insert_ne, !lookup_alter_is_Some in H.
Qed.
Lemma unlinked_dom L t x e u : is_Some (unlinked L t x e !! u) -> u <> t /\ is_Some (L !! u).
Proof.
  unfold unlinked. rewrite !lookup_alter_is_Some. intros [l [? ?]%lookup_delete_Some]. split; [done|by eexists].
Qed.

End Ring.

(** ** Refinement relation *)

Record refines (s : Scheduler) (a : ASched) : Prop := {
  rf_len : length (a_queues a) = NUM_PRIORITIES;
  rf_heads : queue_heads s = head <$> a_queues a;
  rf_nodup : NoDup (a_ready_threads a);
  rf_rings : Forall (ring (links s)) (a_queues a);
  rf_dom : forall t, is_Some (links s !! t) -> t ∈ a_ready_threads a;
  rf_index : forall t, t ∈ a_ready_threads a -> index_ok t = true;
  rf_highest : highest_ready_priority s = a_highest a;
  rf_irq : in_irq_handler s = a_irq a }.

(** *** Runs of the link accessors *)

Lemma link_copy_run t s : index_ok t = true -> link_copy t s = Some (links s !! t, s).
Proof. intros H. unfold link_copy, bind, assertb. by rewrite H. Qed.
Lemma link_write_run t l s :
  index_ok t = true -> link_write t l s = Some (tt, set_links (<[t := l]> (links s)) s).
Proof. intros H. unfold link_write, bind, assertb. by rewrite H. Qed.
Lemma link_update_run t f s :
  index_ok t = true -> is_Some (links s !! t) ->
  link_update t f s = Some (tt, set_links (alter f t (links s)) s).
Proof.
  intros H [l Hl]. unfold link_update, bind. rewrite link_copy_run, Hl by done. cbn.
  rewrite link_write_run by done. do 3 f_equal. apply map_eq. intros u.
  destruct (decide (u = t)) as [->|]; [by rewrite lookup_insert_eq, lookup_alter_eq, Hl|].
  by rewrite lookup_insert_ne, lookup_alter_ne.
Qed.
Lemma queue_head_run p h s : queue_heads s !! p = Some h -> queue_head p s = Some (h, s).
Proof. intros H. unfold queue_head, bind, gets. by rewrite H. Qed.

Lemma tid_nonzero t : index_ok t = true -> (t.2 =? IRQ_TID) = false.
Proof. unfold index_ok, IRQ_TID. rewrite !andb_true_iff, !Z.leb_le. intros. apply Z.eqb_neq. lia. Qed.

Lemma alter_insert_eq (L : gmap thread SchedulerLink) t f l :
  L !! t = Some l -> <[t := f l]> L = alter f t L.
Proof.
  intros Hl. apply map_eq. intros u. destruct (decide (u = t)) as [->|].
  - by rewrite lookup_insert_eq, lookup_alter_eq, Hl.
  - by rewrite lookup_insert_ne, lookup_alter_ne.
Qed.

Section Operations.
Context (s : Scheduler) (a : ASched) (t : thread) (priority : ThreadPriority).
Hypothesis HR : refines s a.
Hypothesis Ht : index_ok t = true.
Let p := prio_index priority.

Lemma prio_lookup : a_queues a !! p = Some (a_queue a p).
Proof.
  unfold a_queue. destruct (lookup_lt_is_Some_2 (a_queues a) p) as [q Hq]; [|by rewrite Hq].
  rewrite (rf_len _ _ HR). apply prio_index_lt.
Qed.

Lemma head_lookup : queue_heads s !! p = Some (head (a_queue a p)).
Proof. by rewrite (rf_heads _ _ HR), list_lookup_fmap, prio_lookup. Qed.

Lemma prio_split : exists l1 l2,
  a_queues a = l1 ++ a_queue a p :: l2 /\ length l1 = p /\
  forall q', a_queues (a_set a p q') = l1 ++ q' :: l2.
Proof.
  destruct (lookup_split _ _ _ prio_lookup) as (l1 & l2 & E & Hl).
  exists l1, l2. split; [done|]. split; [done|]. intros q'. cbn. by rewrite E, <- Hl, insert_middle.
Qed.

Lemma queue_ring : ring (links s) (a_queue a p).
Proof. exact (Forall_lookup_1 _ _ _ _ (rf_rings _ _ HR) prio_lookup). Qed.

Lemma queue_in u : u ∈ a_queue a p -> u ∈ a_ready_threads a.
Proof.
  destruct prio_split as (l1 & l2 & E & _ & _). unfold a_ready_threads.
  rewrite E, concat_middle, !elem_of_app. tauto.
Qed.

Lemma queue_nodup : NoDup (a_queue a p).
Proof.
  destruct prio_split as (l1 & l2 & E & _ & _). pose proof (rf_nodup _ _ HR) as H.
  unfold a_ready_threads in H. rewrite E, concat_middle in H.
  apply NoDup_app in H as (_ & _ & H). by apply NoDup_app in H as (? & _ & _).
Qed.

(** Replacing queue [p] by [q'] and the links by [L'] keeps the refinement when
    the links outside the two queues are untouched. *)
Lemma refines_update q' L' hp :
  ring L' q' ->
  (forall u, u ∉ a_queue a p -> u ∉ q' -> L' !! u = links s !! u) ->
  NoDup (a_ready_threads (a_set a p q')) ->
  (forall u, u ∈ a_ready_threads (a_set a p q') -> index_ok u = true) ->
  (forall u, is_Some (L' !! u) -> u ∈ a_ready_threads (a_set a p q')) ->
  hp = a_highest (a_set a p q') ->
  refines (mkScheduler (<[p := head q']> (queue_heads s)) L' hp (in_irq_handler s)) (a_set a p q').
Proof.
  intros Hring Hframe Hnd Hidx Hdom Hhp.
  destruct prio_split as (l1 & l2 & E & Hl & Eset).
  split; cbn [queue_heads links highest_ready_priority in_irq_handler]; try done.
  - cbn. by rewrite length_insert, (rf_len _ _ HR).
  - cbn. by rewrite (rf_heads _ _ HR), list_fmap_insert.
  - pose proof (rf_rings _ _ HR) as Hr. pose proof (rf_nodup _ _ HR) as Hn.
    unfold a_ready_threads in Hn, Hnd. rewrite Eset in *. rewrite E in Hr, Hn.
    rewrite concat_middle in Hn, Hnd.
    apply Forall_app in Hr as [Hr1 Hr2]. apply Forall_cons in Hr2 as [_ Hr2].
    assert (Hf : forall q u, q ∈ l1 \/ q ∈ l2 -> u ∈ q -> L' !! u = links s !! u).
    { intros q u Hq Hu. assert (Hc : u ∈ concat l1 \/ u ∈ concat l2)
        by (destruct Hq; [left|right]; apply elem_of_concat; eauto).
      rewrite !NoDup_app in Hn, Hnd. apply Hframe; set_solver. }
    rewrite Forall_app, Forall_cons. rewrite Forall_forall in Hr1, Hr2.
    repeat split; [|done|]; apply Forall_forall; intros q Hq;
      apply (ring_frame (links s)); eauto.
  - apply (rf_irq _ _ HR).
Qed.

Lemma ready_threads_perm q' r : q' ≡ₚ r ++ a_queue a p ->
  a_ready_threads (a_set a p q') ≡ₚ r ++ a_ready_threads a.
Proof.
  intros Hq. destruct prio_split as (l1 & l2 & E & _ & Eset).
  unfold a_ready_threads. rewrite Eset, E, !concat_middle, Hq.
  rewrite <- !(assoc_L (++)). rewrite !(app_assoc (concat l1)), (Permutation_app_comm (concat l1) r).
  by rewrite <- !(assoc_L (++)).
Qed.

Lemma highest_set q' :
  a_highest (a_set a p q') = default 0%nat (rposition nonempty (<[p := q']> (a_queues a))).
Proof. done. Qed.

(** *** [ready_thread] *)

Lemma ready_run_nil :
  a_queue a p = [] ->
  ready_thread t.1 t.2 priority s =
  Some (tt, mkScheduler (<[p := Some t]> (queue_heads s)) (<[t := mkLink t.1 t.2 t.1 t.2]> (links s))
              (p `max` highest_ready_priority s)%nat (in_irq_handler s)).
Proof.
  intros Hq. unfold ready_thread. rewrite (tid_nonzero t Ht). unfold bind at 1. fold p.
  rewrite (queue_head_run p None) by (by rewrite head_lookup, Hq). unfold bind, modify.
  rewrite link_write_run by (by destruct t). destruct t as [pid tid].
  cbn [fst snd highest_ready_priority set_heads].
  destruct (Nat.ltb_spec (highest_ready_priority s) p); unfold set_links, set_highest, set_heads;
    cbn [queue_heads links highest_ready_priority in_irq_handler]; do 3 f_equal; lia.
Qed.

Lemma ready_run_cons h m :
  a_queue a p = h :: m -> t ∉ a_ready_threads a ->
  ready_thread t.1 t.2 priority s =
  Some (tt, set_links (linked_in (links s) t h (default h (last m))) s).
Proof.
  intros Hq Hnew. pose proof queue_ring as Hr. rewrite Hq in Hr. cbn in Hr.
  pose proof (path_prv _ _ _ _ Hr) as Hprv. pose proof (last_default_elem h m) as He.
  set (e := default h (last m)) in *.
  assert (Hidx : forall u, u ∈ h :: m -> index_ok u = true)
    by (intros u Hu; apply (rf_index _ _ HR), queue_in; by rewrite Hq).
  destruct (path_linked _ _ _ _ h Hr) as [hl Hhl]; [set_solver|].
  pose proof (path_linked _ _ _ _ e Hr He) as Hel.
  unfold prv in Hprv. rewrite Hhl in Hprv. injection Hprv as Hprv.
  assert (Hnone : links s !! t = None).
  { apply eq_None_not_Some. intros ?%(rf_dom _ _ HR). done. }
  unfold ready_thread. rewrite (tid_nonzero t Ht). fold p. destruct t as [pid tid], h as [hp ht].
  unfold bind at 1. rewrite (queue_head_run p (Some (hp, ht))) by (by rewrite head_lookup, Hq).
  unfold bind at 1. rewrite link_copy_run by done. cbn [fst snd]. rewrite Hnone.
  unfold bind at 1. cbn [assertb ret]. unfold bind at 1.
  rewrite link_copy_run, Hhl by (apply Hidx; set_solver). unfold bind at 1. cbn [expect ret].
  unfold bind at 1. rewrite link_write_run by (apply Hidx; set_solver).
  change (mkLink (next_pid hl) (next_tid hl) pid tid) with (link_set_prev (pid, tid) hl).
  rewrite alter_insert_eq by done. unfold bind at 1.
  change (prev_pid hl, prev_tid hl) with (link_prev hl). rewrite Hprv.
  rewrite link_update_run; [|by apply Hidx|by apply lookup_alter_is_Some].
  rewrite link_write_run by done. unfold linked_in, link_prev in *. by rewrite <- Hprv.
Qed.

Lemma ready_refines : t ∉ a_ready_threads a ->
  exists s', ready_thread t.1 t.2 priority s = Some (tt, s') /\ refines s' (a_ready t p a).
Proof.
  intros Hnew.
  assert (Hperm : a_ready_threads (a_ready t p a) ≡ₚ t :: a_ready_threads a).
  { apply (ready_threads_perm _ [t]). by rewrite Permutation_app_comm. }
  assert (Hnd : NoDup (a_ready_threads (a_ready t p a)))
    by (rewrite Hperm; apply NoDup_cons; split; [done|apply (rf_nodup _ _ HR)]).
  assert (Hidx : forall u, u ∈ a_ready_threads (a_ready t p a) -> index_ok u = true).
  { intros u. rewrite Hperm. intros [->|Hu]%elem_of_cons; [done|by apply (rf_index _ _ HR)]. }
  assert (Hhigh : a_highest (a_ready t p a) = (p `max` highest_ready_priority s)%nat).
  { unfold a_ready. rewrite highest_set, (rf_highest _ _ HR), (rposition_insert_true _ _ _ (a_queue a p)); [done|apply prio_lookup|].
    by destruct (a_queue a p). }
  destruct (a_queue a p) as [|h m] eqn:Hq.
  - eexists; split; [by apply ready_run_nil|].
    unfold a_ready in *. rewrite Hq in *. cbn [app] in *.
    change (Some t) with (head [t]). apply refines_update; try done.
    + cbn. unfold arrow, nxt, prv. rewrite lookup_insert_eq. by destruct t.
    + intros u _ Hu. apply lookup_insert_ne. set_solver.
    + intros u. rewrite Hperm. destruct (decide (u = t)) as [->|]; [set_solver|].
      rewrite lookup_insert_ne by done. intros ?%(rf_dom _ _ HR). set_solver.
  - pose proof queue_nodup as Hqn. rewrite Hq in Hqn. pose proof queue_ring as Hring. rewrite Hq in Hring.
    assert (Htq : t ∉ h :: m) by (rewrite <- Hq; intros ?%queue_in; done).
    eexists; split; [by apply ready_run_cons|].
    unfold a_ready in *. rewrite Hq in *. cbn [app] in *.
    replace (set_links _ s) with (mkScheduler (<[p := head (h :: m ++ [t])]> (queue_heads s))
      (linked_in (links s) t h (default h (last m))) (highest_ready_priority s) (in_irq_handler s)).
    2: { unfold set_links. f_equal. apply list_insert_id. by rewrite head_lookup, Hq. }
    apply refines_update; try done.
    + by apply ring_link.
    + intros u _ Hu. pose proof (last_default_elem h m) as He.
      apply linked_in_frame; intros ->; set_solver.
    + intros u [->|Hu]%linked_in_dom; rewrite Hperm; [set_solver|]. apply (rf_dom _ _ HR) in Hu. set_solver.
    + rewrite Hhigh, (rf_highest _ _ HR). unfold a_highest. apply eq_sym, Nat.max_r.
      destruct (rposition nonempty (a_queues a)) as [i|] eqn:Hi.
      * apply rposition_Some in Hi as [_ Hi]. cbn. destruct (decide (i < p)%nat) as [Hlt|]; [|lia].
        specialize (Hi p (h :: m) Hlt). rewrite <- Hq in Hi at 1. rewrite prio_lookup, Hq in Hi. by specialize (Hi eq_refl).
      * apply (rposition_None _ _ p (h :: m)) in Hi; [done|]. by rewrite prio_lookup, Hq.
Qed.

(** *** [park_thread] *)

Lemma filter_ne_notin (l : list thread) : t ∉ l -> filter (fun u : thread => u <> t) l = l.
Proof.
  induction l as [|x l IH]; intros Hx; [done|]. rewrite filter_cons_True by set_solver.
  f_equal. apply IH. set_solver.
Qed.

Lemma filter_ne_split l1 l2 :
  NoDup (l1 ++ t :: l2) -> filter (fun u : thread => u <> t) (l1 ++ t :: l2) = l1 ++ l2.
Proof.
  intros (_ & H1 & [H2 _]%NoDup_cons)%NoDup_app.
  rewrite filter_app, filter_cons_False by (by intros ?).
  rewrite !filter_ne_notin; set_solver.
Qed.

Lemma park_run_single :
  a_queue a p = [t] ->
  park_thread t.1 t.2 priority s =
  Some (tt, mkScheduler (<[p := None]> (queue_heads s)) (delete t (links s))
              (if (p =? highest_ready_priority s)%nat
               then default 0%nat (rposition is_some (take p (queue_heads s)))
               else highest_ready_priority s) (in_irq_handler s)).
Proof.
  intros Hq. pose proof queue_ring as Hr. pose proof head_lookup as Hh. rewrite Hq in Hr, Hh.
  destruct Hr as [Hn _]. unfold nxt in Hn. destruct (links s !! t) as [l|] eqn:Hl; [|done].
  injection Hn as Hn. unfold park_thread. rewrite (tid_nonzero t Ht). fold p.
  destruct t as [pid tid]. unfold link_take, bind at 1 2 3. rewrite link_copy_run by done. cbn [fst snd].
  rewrite Hl. unfold modify, ret, bind, expect, ret. unfold link_next in Hn. injection Hn as -> ->.
  rewrite !Z.eqb_refl. cbn [andb]. erewrite queue_head_run by exact Hh.
  unfold set_heads, set_highest, set_links. cbn. rewrite take_insert_ge by lia. by destruct (p =? _)%nat.
Qed.

Lemma park_run_ring x m :
  let e := default x (last m) in
  (forall u, u ∈ x :: m -> index_ok u = true) ->
  NoDup (t :: x :: m) -> ring (links s) (t :: x :: m) ->
  park_thread t.1 t.2 priority s =
  Some (tt, mkScheduler
    (<[p := if bool_decide (head (a_queue a p) = Some t) then Some x else head (a_queue a p)]> (queue_heads s))
    (unlinked (links s) t x e) (highest_ready_priority s) (in_irq_handler s)).
Proof.
  intros e Hidx Hnd Hr. pose proof (last_default_elem x m) as He. fold e in He.
  pose proof (path_nxt _ _ _ _ Hr) as Hn. pose proof (path_prv _ _ _ _ Hr) as Hp.
  rewrite last_cons_default in Hp. fold e in Hp. cbn [head default from_option] in Hn.
  pose proof (ring_linked _ _ e Hr ltac:(set_solver)) as Hel.
  pose proof (ring_linked _ _ x Hr ltac:(set_solver)) as Hxl.
  apply NoDup_cons in Hnd as [Hnt Hnd].
  unfold nxt, prv in Hn, Hp. destruct (links s !! t) as [l|] eqn:Hl; [|done].
  injection Hn as Hn. injection Hp as Hp.
  unfold park_thread. rewrite (tid_nonzero t Ht). fold p.
  unfold link_take, bind at 1 2 3. replace (t.1, t.2) with t by (by destruct t).
  rewrite link_copy_run, Hl by done. unfold modify, ret, bind at 1, expect, ret.
  assert (Hne : (next_pid l =? t.1) && (next_tid l =? t.2) = false).
  { apply andb_false_iff. rewrite !Z.eqb_neq. unfold link_next in Hn.
    destruct (Z.eq_dec (next_pid l) t.1) as [H1|]; [|by left]. right. intros H2.
    apply Hnt. rewrite H1, H2 in Hn. replace t with x by (subst x; by destruct t). set_solver. }
  rewrite Hne. unfold bind. rewrite (queue_head_run p (head (a_queue a p))) by apply head_lookup.
  rewrite Hp, Hn.
  set (s1 := if bool_decide _ then set_heads _ _ _ else _).
  assert (Hs1 : links s1 = delete t (links s)) by (subst s1; by case_bool_decide).
  rewrite link_update_run; [|apply Hidx; done|rewrite Hs1, lookup_delete_ne by set_solver; done].
  rewrite Hs1. rewrite link_update_run;
    [|apply Hidx; set_solver|cbn; rewrite lookup_alter_is_Some, lookup_delete_ne by set_solver; done].
  unfold unlinked, set_links. cbn [links queue_heads highest_ready_priority in_irq_handler].
  subst s1. case_bool_decide; cbn [set_links set_heads links queue_heads highest_ready_priority in_irq_handler];
    [by rewrite bool_decide_true|].
  rewrite bool_decide_false, list_insert_id; [done|apply head_lookup|done].
Qed.

Lemma in_queue_highest : a_queue a p <> [] -> (p <= a_highest a)%nat.
Proof.
  intros Hq. unfold a_highest. pose proof prio_lookup as Hl.
  destruct (rposition nonempty (a_queues a)) as [i|] eqn:Hi; cbn.
  - apply rposition_Some in Hi as [_ Hi]. destruct (decide (i < p)%nat) as [Hlt|]; [|lia].
    specialize (Hi p _ Hlt Hl). by destruct (a_queue a p).
  - apply (rposition_None _ _ p (a_queue a p)) in Hi; [|done]. by destruct (a_queue a p).
Qed.

Lemma park_highest :
  a_queue a p = [t] ->
  (if (p =? highest_ready_priority s)%nat
   then default 0%nat (rposition is_some (take p (queue_heads s)))
   else highest_ready_priority s) = a_highest (a_set a p []).
Proof.
  intros Hq. assert (Hle : (p <= a_highest a)%nat) by (apply in_queue_highest; by rewrite Hq).
  rewrite highest_set, (rf_highest _ _ HR), (rf_heads _ _ HR), <- fmap_take, rposition_fmap.
  rewrite (rposition_ext _ nonempty) by (by intros []).
  unfold a_highest in *. destruct (Nat.eqb_spec p (default 0%nat (rposition nonempty (a_queues a)))) as [E|E].
  - destruct (rposition nonempty (a_queues a)) as [i|] eqn:Hi; cbn in E.
    + rewrite rposition_insert_top by (done || by rewrite E). done.
    + apply (rposition_None _ _ p [t]) in Hi; [done|]. by rewrite prio_lookup, Hq.
  - rewrite rposition_insert_below; [done|lia].
Qed.

Lemma park_refines : t ∈ a_queue a p ->
  exists s', park_thread t.1 t.2 priority s = Some (tt, s') /\ refines s' (a_park t p a).
Proof.
  intros (l1 & l2 & Hq)%list_elem_of_split. pose proof queue_nodup as Hqn. pose proof queue_ring as Hr.
  unfold a_park. rewrite Hq in *. rewrite filter_ne_split by done.
  assert (Hperm : a_ready_threads a ≡ₚ t :: a_ready_threads (a_set a p (l1 ++ l2))).
  { destruct prio_split as (k1 & k2 & E & _ & Eset). unfold a_ready_threads.
    rewrite Eset, E, !concat_middle, Hq, <- !(assoc_L (++)).
    rewrite (Permutation_app_comm (concat k1)), <- !(assoc_L (++)). cbn.
    rewrite <- Permutation_middle. f_equal. rewrite (Permutation_app_comm (concat k1)).
    by rewrite <- !(assoc_L (++)). }
  pose proof (rf_nodup _ _ HR) as Hnd. rewrite Hperm in Hnd. apply NoDup_cons in Hnd as [Htn Hnd].
  assert (Hidx : forall u, u ∈ a_ready_threads (a_set a p (l1 ++ l2)) -> index_ok u = true)
    by (intros u Hu; apply (rf_index _ _ HR); rewrite Hperm; set_solver).
  assert (Hdom : forall u, u <> t -> is_Some (links s !! u) -> u ∈ a_ready_threads (a_set a p (l1 ++ l2))).
  { intros u Hut Hu%(rf_dom _ _ HR). rewrite Hperm in Hu. set_solver. }
  assert (Hnd2 : NoDup (t :: l2 ++ l1)).
  { by rewrite (Permutation_app_comm l2), Permutation_middle. }
  apply ring_rotate in Hr. cbn [app] in Hr.
  destruct (l2 ++ l1) as [|x m] eqn:Elm.
  - apply app_eq_nil in Elm as [-> ->]. cbn [app] in *.
    eexists; split; [by apply park_run_single|].
    change (@None thread) with (head (@nil thread)). apply refines_update; try done.
    + rewrite Hq. intros u Hu _. apply lookup_delete_ne. set_solver.
    + intros u [l [Hut Hl]%lookup_delete_Some]. apply Hdom; [done|by eexists].
    + by apply park_highest.
  - assert (Hxm : forall u, u ∈ x :: m <-> u ∈ l1 ++ l2).
    { intros u. rewrite <- Elm, !elem_of_app. tauto. }
    assert (Hxi : forall u, u ∈ x :: m -> index_ok u = true).
    { intros u Hu%Hxm. apply (rf_index _ _ HR), queue_in. rewrite Hq. set_solver. }
    eexists; split; [by apply (park_run_ring x m)|].
    replace (if bool_decide (head (a_queue a p) = Some t) then Some x else head (a_queue a p))
      with (head (l1 ++ l2)).
    2: { rewrite Hq. destruct l1 as [|h l1]; cbn.
         - rewrite bool_decide_true by done. rewrite app_nil_r in Elm. by rewrite Elm.
         - rewrite bool_decide_false; [done|]. intros [= ->]. apply NoDup_cons in Hqn as [? _]. set_solver. }
    apply refines_update; try done.
    + apply ring_rotate. rewrite Elm. by apply ring_unlink.
    + rewrite Hq. intros u Hu _. pose proof (last_default_elem x m) as He. apply Hxm in He.
      assert (Hx : x ∈ l1 ++ l2) by (apply Hxm; set_solver).
      apply unlinked_frame; set_solver.
    + intros u [? ?]%unlinked_dom. by apply Hdom.
    + rewrite (rf_highest _ _ HR). unfold a_highest. cbn [a_set a_queues].
      erewrite rposition_insert_same; [done|apply prio_lookup|]. rewrite Hq.
      destruct l1, l2; done.
Qed.

(** *** [yield_thread] *)

Lemma yield_refines :
  exists s', yield_thread t.1 t.2 priority s = Some (tt, s') /\ refines s' (a_yield t p a).
Proof.
  unfold yield_thread, a_yield, bind. fold p.
  rewrite (queue_head_run p (head (a_queue a p))) by apply head_lookup.
  replace (t.1, t.2) with t by (by destruct t).
  destruct (decide (head (a_queue a p) = Some t)) as [Hh|Hh].
  2: { rewrite !bool_decide_false by done. eexists; split; [done|apply HR]. }
  rewrite !bool_decide_true by done. rewrite link_copy_run by done.
  destruct (a_queue a p) as [|h m] eqn:Hq; [done|]. injection Hh as ->.
  pose proof queue_ring as Hr. rewrite Hq in Hr. pose proof (path_nxt _ _ _ _ Hr) as Hn.
  unfold nxt in Hn. destruct (links s !! t) as [l|] eqn:Hl; [|done]. injection Hn as Hn.
  unfold expect, ret, modify. eexists; split; [done|]. unfold set_heads. cbn [rotate].
  assert (Hperm : a_ready_threads (a_set a p (m ++ [t])) ≡ₚ a_ready_threads a).
  { apply (ready_threads_perm _ []). cbn. by rewrite Hq, Permutation_app_comm. }
  rewrite Hn. replace (Some (default t (head m))) with (head (m ++ [t])) by (by destruct m).
  apply refines_update; try done.
  - by apply (ring_rotate _ [t]).
  - rewrite Hperm. apply (rf_nodup _ _ HR).
  - intros u. rewrite Hperm. apply (rf_index _ _ HR).
  - intros u. rewrite Hperm. apply (rf_dom _ _ HR).
  - rewrite (rf_highest _ _ HR). unfold a_highest. cbn [a_set a_queues].
    erewrite rposition_insert_same; [done|apply prio_lookup|]. rewrite Hq. by destruct m.
Qed.
End Operations.

(** ** Traces of scheduler calls *)

Inductive sched_op :=
| OpReady (t : thread) (pr : ThreadPriority)
| OpPark (t : thread) (pr : ThreadPriority)
| OpYield (t : thread) (pr : ThreadPriority).

Definition run_op (op : sched_op) : M Scheduler unit :=
  match op with
  | OpReady t pr => ready_thread t.1 t.2 pr
  | OpPark t pr => park_thread t.1 t.2 pr
  | OpYield t pr => yield_thread t.1 t.2 pr
  end.

(** What each call does to the abstract queues; thread 0 is the IRQ thread. *)
Definition a_op (op : sched_op) (a : ASched) : ASched :=
  match op with
  | OpReady t pr =>
      if t.2 =? IRQ_TID then mkASched (a_queues a) true else a_ready t (prio_index pr) a
  | OpPark t pr =>
      if t.2 =? IRQ_TID then mkASched (a_queues a) false else a_park t (prio_index pr) a
  | OpYield t pr => a_yield t (prio_index pr) a
  end.

(** The kernel's obligations: it readies only threads that are not queued and
    parks only threads from the queue of their priority. *)
Definition op_ok (a : ASched) (op : sched_op) : bool :=
  match op with
  | OpReady t pr =>
      if t.2 =? IRQ_TID then negb (a_irq a)
      else index_ok t && bool_decide (t ∉ a_ready_threads a)
  | OpPark t pr =>
      if t.2 =? IRQ_TID then a_irq a
      else index_ok t && bool_decide (t ∈ a_queue a (prio_index pr))
  | OpYield t _ => index_ok t
  end.

Fixpoint run_ops (ops : list sched_op) : M Scheduler unit :=
  match ops with
  | [] => ret tt
  | op :: ops => _ <- run_op op ;; run_ops ops
  end.

Definition a_ops (ops : list sched_op) (a : ASched) : ASched := fold_left (fun a op => a_op op a) ops a.

Fixpoint ops_ok (a : ASched) (ops : list sched_op) : bool :=
  match ops with
  | [] => true
  | op :: ops => op_ok a op && ops_ok (a_op op a) ops
  end.

(** States the kernel can reach by calls that meet their obligations. *)
Inductive reachable : Scheduler -> ASched -> Prop :=
| reach_init : reachable scheduler_init a_init
| reach_step s a op s' :
    reachable s a -> op_ok a op = true -> run_op op s = Some (tt, s') -> reachable s' (a_op op a).

Lemma refines_init : refines scheduler_init a_init.
Proof.
  split; try done.
  - apply (bool_decide_unpack _). by vm_compute.
  - by repeat constructor.
  - intros t. cbn. rewrite lookup_empty. by intros [].
  - intros t Ht. exfalso. revert Ht. unfold a_ready_threads, a_init. cbn. set_solver.
Qed.

Lemma refines_irq s a b : refines s a -> refines (set_irq b s) (mkASched (a_queues a) b).
Proof. intros [? ? ? ? ? ? ? ?]. by split. Qed.

Lemma run_op_refines s a op :
  refines s a -> op_ok a op = true ->
  exists s', run_op op s = Some (tt, s') /\ refines s' (a_op op a).
Proof.
  intros HR. destruct op as [t pr|t pr|t pr]; cbn [op_ok run_op a_op].
  - destruct (t.2 =? IRQ_TID) eqn:E.
    + rewrite negb_true_iff. intros Hi. exists (set_irq true s). split; [|by apply refines_irq].
      unfold ready_thread. rewrite E. cbn. by rewrite (rf_irq _ _ HR), Hi.
    + intros [Hidx Hn%bool_decide_eq_true]%andb_true_iff. by apply ready_refines.
  - destruct (t.2 =? IRQ_TID) eqn:E.
    + intros Hi. exists (set_irq false s). split; [|by apply refines_irq].
      unfold park_thread. rewrite E. cbn. by rewrite (rf_irq _ _ HR), Hi.
    + intros [Hidx Hn%bool_decide_eq_true]%andb_true_iff. by apply park_refines.
  - intros Hidx. by apply yield_refines.
Qed.

Lemma reachable_refines s a : reachable s a -> refines s a.
Proof.
  induction 1 as [|s a op s' _ IH Hok Hrun]; [apply refines_init|].
  destruct (run_op_refines s a op IH Hok) as (s1 & Hs1 & HR). congruence.
Qed.

(** ** Properties *)

(** C9. Refinement: any sequence of [ready_thread], [park_thread] and
    [yield_thread] calls that meets the callers' obligations runs without a
    panic, and the linked queues it leaves are exactly the abstract ones
    (append at the tail, remove, rotate), with the links, the heads and
    [highest_ready_priority] in agreement. *)
Theorem scheduler_refinement ops :
  ops_ok a_init ops = true ->
  exists s', run_ops ops scheduler_init = Some (tt, s') /\ refines s' (a_ops ops a_init).
Proof.
  generalize refines_init. generalize scheduler_init a_init.
  induction ops as [|op ops IH]; intros s a HR; cbn [ops_ok run_ops a_ops fold_left]; [by eauto|].
  intros [Hok Hops]%andb_true_iff. destruct (run_op_refines s a op HR Hok) as (s1 & Hs1 & HR1).
  unfold bind. rewrite Hs1. by apply IH.
Qed.

Definition demo_ops : list sched_op :=
  [OpReady (2, 1) AppDefault; OpReady (3, 1) AppDefault; OpReady (3, 2) System0;
   OpYield (2, 1) AppDefault; OpReady (2, 0) AppDefault; OpPark (3, 2) System0;
   OpPark (3, 1) AppDefault].

Lemma scheduler_refinement_witness :
  exists s', run_ops demo_ops scheduler_init = Some (tt, s') /\ refines s' (a_ops demo_ops a_init).
Proof. apply (scheduler_refinement demo_ops). vm_compute. reflexivity. Defined.

Lemma highest_head s a :
  refines s a ->
  exists h, queue_heads s !! highest_ready_priority s = Some h /\
  match h with
  | Some t => head (a_queue a (highest_ready_priority s)) = Some t /\
              forall p, (highest_ready_priority s < p)%nat -> a_queue a p = []
  | None => a_ready_threads a = []
  end.
Proof.
  intros HR. rewrite (rf_heads _ _ HR), (rf_highest _ _ HR), list_lookup_fmap.
  unfold a_highest, a_queue. destruct (rposition nonempty (a_queues a)) as [i|] eqn:Hi; cbn.
  - apply rposition_Some in Hi as [(q & Hq & Hne) Hi]. rewrite Hq. cbn.
    exists (head q). split; [done|]. destruct q as [|t q]; [done|]. cbn. split; [done|].
    intros p Hp. destruct (a_queues a !! p) as [q'|] eqn:Hq'; [|done].
    specialize (Hi p q' Hp Hq'). by destruct q'.
  - assert (Hall : forall j q, a_queues a !! j = Some q -> q = []).
    { intros j q Hq. apply (rposition_None _ _ j q) in Hi; [|done]. by destruct q. }
    destruct (a_queues a) as [|q0 qs] eqn:Hqs; [by pose proof (rf_len _ _ HR) as Hl; rewrite Hqs in Hl|].
    cbn. exists (head q0). split; [done|]. rewrite (Hall 0%nat q0 eq_refl). cbn.
    unfold a_ready_threads. rewrite Hqs. apply elem_of_nil_inv. intros t Ht%elem_of_concat.
    destruct Ht as (q & Hq & Ht). apply list_elem_of_lookup in Hq as [j Hj].
    rewrite (Hall j q Hj) in Ht. by apply elem_of_nil in Ht.
Qed.

(** The thread [activate_current] selects, [queue_heads[highest_ready_priority]],
    is the head of a queue above which every queue is empty; it is [None] only
    when no thread is ready. *)
Theorem selected_thread_is_highest s a :
  reachable s a ->
  exists h, queue_heads s !! highest_ready_priority s = Some h /\
  match h with
  | Some t => head (a_queue a (highest_ready_priority s)) = Some t /\
              forall p, (highest_ready_priority s < p)%nat -> a_queue a p = []
  | None => a_ready_threads a = []
  end.
Proof.
  intros HR%reachable_refines. by apply highest_head.
Qed.

Lemma run_ops_reachable s a ops s' :
  reachable s a -> ops_ok a ops = true -> run_ops ops s = Some (tt, s') ->
  reachable s' (a_ops ops a).
Proof.
  revert s a. induction ops as [|op ops IH]; intros s a Hr; cbn [ops_ok run_ops].
  - intros _ [= <-]. done.
  - intros [Hok Hops]%andb_true_iff (u & s1 & H1 & H2)%run_bind. destruct u.
    apply (IH s1); [by apply (reach_step s)|done|done].
Qed.

Definition demo_state : Scheduler :=
  match run_ops (take 3 demo_ops) scheduler_init with Some (_, s) => s | None => scheduler_init end.

Lemma demo_reachable : reachable demo_state (a_ops (take 3 demo_ops) a_init).
Proof. by apply (run_ops_reachable _ _ _ _ reach_init). Qed.

Lemma selected_thread_is_highest_witness :
  exists h, queue_heads demo_state !! highest_ready_priority demo_state = Some h /\
  match h with
  | Some t => head (a_queue (a_ops (take 3 demo_ops) a_init) (highest_ready_priority demo_state)) = Some t /\
              forall p, (highest_ready_priority demo_state < p)%nat ->
                a_queue (a_ops (take 3 demo_ops) a_init) p = []
  | None => a_ready_threads (a_ops (take 3 demo_ops) a_init) = []
  end.
Proof. exact (selected_thread_is_highest _ _ demo_reachable). Defined.

(** The running thread of a priority gives up its slice: the kernel yields the
    current head of the queue. *)
Definition yield_head (pr : ThreadPriority) : M Scheduler unit :=
  h <- queue_head (prio_index pr) ;;
  match h with Some (pid, tid) => yield_thread pid tid pr | None => ret tt end.

Fixpoint repeat_m {S} (n : nat) (m : M S unit) : M S unit :=
  match n with O => ret tt | S n => _ <- m ;; repeat_m n m end.

Lemma yield_head_refines s a pr :
  refines s a -> exists s', yield_head pr s = Some (tt, s') /\
    refines s' (a_set a (prio_index pr) (rotate (a_queue a (prio_index pr)))).
Proof.
  intros HR. unfold yield_head, bind.
  rewrite (queue_head_run _ (head (a_queue a (prio_index pr)))) by (by apply head_lookup).
  destruct (a_queue a (prio_index pr)) as [|[pid tid] m] eqn:Hq; cbn [head rotate].
  - exists s. split; [done|]. unfold a_set. rewrite list_insert_id; [by destruct a|].
    by rewrite (prio_lookup s), Hq.
  - assert (Hidx : index_ok (pid, tid) = true)
      by (apply (rf_index _ _ HR), (queue_in s a pr HR); rewrite Hq; set_solver).
    destruct (yield_refines s a (pid, tid) pr HR Hidx) as (s' & Hs' & HR').
    exists s'. split; [done|]. unfold a_yield in HR'. rewrite Hq in HR'. cbn [head] in HR'.
    by rewrite bool_decide_true in HR'.
Qed.

Lemma a_set_queue s a pr q : refines s a -> a_queue (a_set a (prio_index pr) q) (prio_index pr) = q.
Proof.
  intros HR. unfold a_queue, a_set. cbn. rewrite list_lookup_insert_eq; [done|].
  rewrite (rf_len _ _ HR). apply prio_index_lt.
Qed.

Lemma head_lookup_0 {A} (q : list A) : q !! 0%nat = head q.
Proof. by destruct q. Qed.

Lemma rotate_lookup {A} (q : list A) i : (S i < length q)%nat -> rotate q !! i = q !! S i.
Proof. destruct q as [|x q]; [done|]. cbn. intros. apply lookup_app_l. lia. Qed.

Lemma rotate_length {A} (q : list A) : length (rotate q) = length q.
Proof. destruct q; [done|]. cbn. rewrite length_app. cbn. lia. Qed.

(** Round robin: whatever thread stands at position [i] of a priority's queue,
    [i] time slices of the threads before it make it the head of that queue,
    so no ready thread of the running priority is passed over. *)
Theorem round_robin s a pr i t :
  reachable s a -> a_queue a (prio_index pr) !! i = Some t ->
  exists s', repeat_m i (yield_head pr) s = Some (tt, s') /\
             queue_heads s' !! prio_index pr = Some (Some t).
Proof.
  intros HR%reachable_refines. revert s a HR. induction i as [|i IH]; intros s a HR Hi; cbn [repeat_m].
  - exists s. split; [done|]. rewrite (head_lookup s a pr HR). by rewrite <- Hi, head_lookup_0.
  - destruct (yield_head_refines s a pr HR) as (s1 & Hs1 & HR1). unfold bind. rewrite Hs1.
    apply (IH _ _ HR1). rewrite (a_set_queue s) by done.
    rewrite rotate_lookup; [done|]. by apply lookup_lt_Some in Hi.
Qed.

Lemma round_robin_witness :
  exists s', repeat_m 1 (yield_head AppDefault) demo_state = Some (tt, s') /\
             queue_heads s' !! 3%nat = Some (Some (3, 1)).
Proof. apply (round_robin _ _ AppDefault 1 (3, 1) demo_reachable). reflexivity. Defined.

(** Misuse is caught: readying a thread that is already in the queue of that
    priority, or parking one that is not ready, panics. *)
Theorem scheduler_misuse_panics s a t pr :
  reachable s a -> index_ok t = true ->
  (t ∈ a_queue a (prio_index pr) -> ready_thread t.1 t.2 pr s = None) /\
  (t ∉ a_ready_threads a -> park_thread t.1 t.2 pr s = None).
Proof.
  intros HR%reachable_refines Ht. split; intros Hin.
  - pose proof (ring_linked _ _ t (queue_ring s a pr HR) Hin) as [l Hl].
    unfold ready_thread. rewrite (tid_nonzero t Ht). unfold bind at 1.
    rewrite (queue_head_run _ (head (a_queue a (prio_index pr)))) by (by apply head_lookup).
    destruct (a_queue a (prio_index pr)) as [|[hp ht] m]; [by apply elem_of_nil in Hin|].
    cbn [head]. unfold bind. rewrite link_copy_run by (by destruct t).
    destruct t as [pid tid]. cbn in *. by rewrite Hl.
  - assert (Hl : links s !! t = None).
    { apply eq_None_not_Some. intros ?%(rf_dom _ _ HR). done. }
    unfold park_thread, link_take. rewrite (tid_nonzero t Ht). unfold bind at 1 2 3.
    replace (t.1, t.2) with t by (by destruct t). rewrite link_copy_run by done. by rewrite Hl.
Qed.

Lemma scheduler_misuse_panics_witness :
  ready_thread 3 1 AppDefault demo_state = None /\ park_thread 5 1 AppDefault demo_state = None.
Proof.
  split.
  - apply (proj1 (scheduler_misuse_panics _ _ (3, 1) AppDefault demo_reachable eq_refl)).
    apply (bool_decide_unpack _). vm_compute. done.
  - apply (proj2 (scheduler_misuse_panics _ _ (5, 1) AppDefault demo_reachable eq_refl)).
    apply (bool_decide_unpack _). vm_compute. done.
Defined.
