(* ===== verification/Server.v ===== *)
(** * Message servers

    Models [xous/kernel/src/server.rs]: the sender token [SenderID], the
    message permissions, and a server's queue of [QueuedMessage] slots with its
    generation counters, its count of empty slots and its bit mask of threads
    that wait for a message.  [Server::destroy] also drives the process table
    and the page tables of other processes and is not part of this file.

    Slots are addressed by [nat] indices; the generations are the 8-bit
    wrapping counters of the source. *)

From S2P Require Import Prelude Abi SysCall.
From Stdlib Require Import ZArith Lia Bool.
From stdpp Require Import list.
Open Scope Z_scope.

(** ** Sender tokens *)

Record SenderID := mkSenderID { snd_sidx : Z; snd_idx : Z; snd_pid : option PID }.

Definition SenderID_from_usize (item : Z) : SenderID :=
  mkSenderID (Z.land (Z.shiftr item 16) 255) (Z.land item 65535) (PID_new (Z.shiftr item 24)).

Definition SenderID_to_usize (v : SenderID) : Z :=
  Z.lor (Z.lor (Z.shiftl (get_or_0 (snd_pid v)) 24)
               (Z.land (Z.shiftl (snd_sidx v) 16) 16711680))
        (Z.land (snd_idx v) 65535).

(** ** Message permissions *)

Definition MESSAGE_PERMISSION_COUNT : nat := 4.

Record MessagePermissions := mkPerms {
  allow_all : bool; perm_mask : Z; perm_list : list MsgRange }.

Definition MessagePermissions_default : MessagePermissions :=
  mkPerms true 0 (replicate MESSAGE_PERMISSION_COUNT (mkMsgRange 0 0)).

(** [Range::is_empty] and [Range::contains] *)
Definition MsgRange_is_empty (r : MsgRange) : bool := negb (mr_start r <? mr_end r).
Definition MsgRange_contains (r : MsgRange) (id : MessageId) : bool :=
  (mr_start r <=? id) && (id <? mr_end r).

(** The loop [for message_id in start..min(end, 64) { mask |= 1 << message_id }]. *)
Definition mask_add (mask : Z) (messages : MsgRange) : Z :=
  fold_left (fun m id => Z.lor m (Z.shiftl 1 id))
    (seqZ (mr_start messages) (Z.min (mr_end messages) 64 - mr_start messages)) mask.

(** The loop over the list slots; [None] when no slot accepts the range. *)
Fixpoint list_add (messages : MsgRange) (l : list MsgRange) : option (list MsgRange) :=
  match l with
  | [] => None
  | slot :: l =>
      if (mr_start slot <=? mr_end messages) && (mr_start messages <=? mr_end slot) then
        Some (mkMsgRange (Z.min (mr_start slot) (mr_start messages))
                         (Z.max (mr_end slot) (mr_end messages)) :: l)
      else if MsgRange_is_empty slot then Some (messages :: l)
      else (fun l' => slot :: l') <$> list_add messages l
  end.

Definition permissions_add (messages : MsgRange) : M MessagePermissions (res XResult Error) :=
  if MsgRange_is_empty messages then ret (Err InvalidArguments)
  else
    _ <- modify (fun p => mkPerms false (mask_add (perm_mask p) messages) (perm_list p)) ;;
    if mr_end messages <=? 64 then ret (Ok R_Ok)
    else
      l <- gets perm_list ;;
      match list_add messages l with
      | Some l' =>
          _ <- modify (fun p => mkPerms (allow_all p) (perm_mask p) l') ;; ret (Ok R_Ok)
      | None => ret (Err OutOfMemory)
      end.

Definition is_permitted (p : MessagePermissions) (message_id : MessageId) : bool :=
  if allow_all p then true
  else if message_id <? 64 then negb (Z.land (perm_mask p) (Z.shiftl 1 message_id) =? 0)
  else existsb (fun r => MsgRange_contains r message_id) (perm_list p).

(** ** Queue slots *)

Inductive WaitingMessage :=
| WM_None
| WM_BorrowedMemory (pid : PID) (tid : TID) (client_addr : Z)
| WM_ScalarMessage (pid : PID) (tid : TID)
| WM_ScalarMessageTerminated
| WM_ForgetMemory (range : MemoryRange).

Definition args4 : Type := Z * Z * Z * Z.

Inductive QueuedMessage :=
| QM_Empty
| QM_BlockingScalarMessage (pid : PID) (tid idx msg_id : Z) (args : args4)
| QM_ScalarMessage (pid : PID) (idx msg_id : Z) (args : args4)
| QM_MemoryMessageSend (pid : PID) (idx msg_id server_addr buf_size offset valid : Z)
| QM_MemoryMessageROLend (pid : PID) (tid idx msg_id client_addr server_addr buf_size offset valid : Z)
| QM_MemoryMessageRWLend (pid : PID) (tid idx msg_id client_addr server_addr buf_size offset valid : Z)
| QM_MemoryMessageROLendTerminated (idx msg_id server_addr buf_size offset valid : Z)
| QM_MemoryMessageRWLendTerminated (idx msg_id server_addr buf_size offset valid : Z)
| QM_BlockingScalarTerminated (idx msg_id : Z) (args : args4)
| QM_WaitingReturnMemory (pid : PID) (tid server_addr client_addr buf_size : Z)
| QM_WaitingForget (server_addr buf_size : Z)
| QM_WaitingReturnScalar (pid : PID) (tid : Z)
| QM_WaitingReturnScalarTerminated.

Definition QM_is_empty (m : QueuedMessage) : bool :=
  match m with QM_Empty => true | _ => false end.

Record Server := mkServer {
  srv_sid : SID; srv_pid : PID;
  queue_addr : Z; (* [queue.as_ptr()], the start of the backing page *)
  queue_head : nat; queue_tail : nat;
  head_generation : Z; tail_generation : Z;
  empty_count : nat;
  queue : list QueuedMessage;
  ready_threads : Z;
  default_permissions : MessagePermissions }.

Definition set_queue (q : list QueuedMessage) (s : Server) : Server :=
  mkServer (srv_sid s) (srv_pid s) (queue_addr s) (queue_head s) (queue_tail s) (head_generation s)
    (tail_generation s) (empty_count s) q (ready_threads s) (default_permissions s).
Definition set_head (h : nat) (s : Server) : Server :=
  mkServer (srv_sid s) (srv_pid s) (queue_addr s) h (queue_tail s) (head_generation s)
    (tail_generation s) (empty_count s) (queue s) (ready_threads s) (default_permissions s).
Definition set_tail (t : nat) (s : Server) : Server :=
  mkServer (srv_sid s) (srv_pid s) (queue_addr s) (queue_head s) t (head_generation s)
    (tail_generation s) (empty_count s) (queue s) (ready_threads s) (default_permissions s).
Definition set_head_generation (g : Z) (s : Server) : Server :=
  mkServer (srv_sid s) (srv_pid s) (queue_addr s) (queue_head s) (queue_tail s) g
    (tail_generation s) (empty_count s) (queue s) (ready_threads s) (default_permissions s).
Definition set_tail_generation (g : Z) (s : Server) : Server :=
  mkServer (srv_sid s) (srv_pid s) (queue_addr s) (queue_head s) (queue_tail s) (head_generation s)
    g (empty_count s) (queue s) (ready_threads s) (default_permissions s).
Definition set_empty_count (n : nat) (s : Server) : Server :=
  mkServer (srv_sid s) (srv_pid s) (queue_addr s) (queue_head s) (queue_tail s) (head_generation s)
    (tail_generation s) n (queue s) (ready_threads s) (default_permissions s).
Definition set_ready_threads (r : Z) (s : Server) : Server :=
  mkServer (srv_sid s) (srv_pid s) (queue_addr s) (queue_head s) (queue_tail s) (head_generation s)
    (tail_generation s) (empty_count s) (queue s) r (default_permissions s).

Definition set_default_permissions (p : MessagePermissions) (s : Server) : Server :=
  mkServer (srv_sid s) (srv_pid s) (queue_addr s) (queue_head s) (queue_tail s) (head_generation s)
    (tail_generation s) (empty_count s) (queue s) (ready_threads s) p.

(** ** Operations *)

(** [size_of::<QueuedMessage>()], fixed by a compile-time assertion. *)
Definition QUEUED_MESSAGE_SIZE : Z := 64.

(** [Server::init]. The queue is the backing page itself, reinterpreted as
    [QueuedMessage]s and not written: [page i] is what slot [i] of the page
    reads as. A page of zeros reads as [QueuedMessage::Empty] in every slot; a
    page that was used before reads as whatever its bytes spell. *)
Definition Server_init (new : option Server) (pid : PID) (sid : SID) (backing : MemoryRange)
    (page : nat -> QueuedMessage) (initial_permissions : MsgRange) : option (res Server Error) :=
  match new with
  | Some _ => Some (Err MemoryInUse)
  | None =>
      let q := page <$> seq 0 (Z.to_nat (range_size backing / QUEUED_MESSAGE_SIZE)) in
      let mk p := mkServer sid pid (range_addr backing) 0 0 0 0 (length q) q 0 p in
      if MsgRange_is_empty initial_permissions then Some (Ok (mk MessagePermissions_default))
      else
        match permissions_add initial_permissions MessagePermissions_default with
        | Some (Ok _, p) => Some (Ok (mk p))
        | Some (Err e, _) => Some (Err e)
        | None => None
        end
  end.

Definition is_queue_full (s : Server) : bool := (empty_count s =? 0)%nat.

(** The arm of [discard_messages_for_pid] for one slot. *)
Definition discard_entry (pid : PID) (m : QueuedMessage) : QueuedMessage :=
  match m with
  | QM_MemoryMessageROLend mp _ idx id _ sa sz o v =>
      if mp =? pid then QM_MemoryMessageROLendTerminated idx id sa sz o v else m
  | QM_MemoryMessageRWLend mp _ idx id _ sa sz o v =>
      if mp =? pid then QM_MemoryMessageRWLendTerminated idx id sa sz o v else m
  | QM_BlockingScalarMessage mp _ idx id args =>
      if mp =? pid then QM_BlockingScalarTerminated idx id args else m
  | QM_WaitingReturnMemory mp _ sa _ sz => if mp =? pid then QM_WaitingForget sa sz else m
  | QM_WaitingReturnScalar mp _ => if mp =? pid then QM_WaitingReturnScalarTerminated else m
  | _ => m
  end.

Definition discard_messages_for_pid (pid : PID) : M Server unit :=
  modify (fun s => set_queue (discard_entry pid <$> queue s) s).

(** [let n = i + 1; if n >= self.queue.len() { 0 } else { n }] *)
Definition wrap_index (len i : nat) : nat := if (len <=? i + 1)%nat then 0%nat else (i + 1)%nat.

(** [buf] names another range than the one lent to the server. *)
Definition buf_mismatch (server_addr buf_size : Z) (buf : option MemoryRange) : bool :=
  match buf with
  | Some b => negb (server_addr =? range_addr b) || negb (buf_size =? range_size b)
  | None => false
  end.

(** The response held by one slot: [inl] is an early return of [Ok(None)] or of
    an error, [inr] continues to free the slot. *)
Definition waiting_response (m : QueuedMessage) (buf : option MemoryRange)
  : (res WaitingMessage Error) + WaitingMessage :=
  match m with
  | QM_WaitingReturnMemory pid tid sa ca sz =>
      if buf_mismatch sa sz buf then inl (Err BadAddress) else inr (WM_BorrowedMemory pid tid ca)
  | QM_WaitingForget sa sz =>
      if buf_mismatch sa sz buf then inl (Err BadAddress) else inr (WM_ForgetMemory (mkRange sa sz))
  | QM_WaitingReturnScalar pid tid => inr (WM_ScalarMessage pid tid)
  | QM_WaitingReturnScalarTerminated => inr WM_ScalarMessageTerminated
  | _ => inl (Ok WM_None)
  end.

Definition take_waiting_message (message_index : nat) (buf : option MemoryRange)
  : M Server (res WaitingMessage Error) :=
  q <- gets queue ;;
  match q !! message_index with
  | None => ret (Err BadAddress)
  | Some m =>
      match waiting_response m buf with
      | inl early => ret early
      | inr result =>
          _ <- modify (fun s => set_queue (<[message_index := QM_Empty]> (queue s)) s) ;;
          _ <- modify (fun s => set_empty_count (empty_count s + 1) s) ;;
          _ <- modify (fun s => set_tail (wrap_index (length (queue s)) message_index) s) ;;
          ret (Ok result)
      end
  end.

Definition sender_token (sidx queue_idx : nat) (pid : option PID) : MessageSender :=
  SenderID_to_usize (mkSenderID (Z.of_nat sidx) (Z.of_nat queue_idx) pid).

Definition memory_body (id sa sz offset valid : Z) : MemoryMessage :=
  mkMemoryMessage id (mkRange sa sz) (nonzero offset) (nonzero valid).
Definition scalar_body (id : Z) (args : args4) : ScalarMessage :=
  let '(a1, a2, a3, a4) := args in mkScalarMessage id a1 a2 a3 a4.

(** The generation a pending slot carries. *)
Definition slot_generation (m : QueuedMessage) : option Z :=
  match m with
  | QM_BlockingScalarMessage _ _ idx _ _ | QM_ScalarMessage _ idx _ _
  | QM_MemoryMessageSend _ idx _ _ _ _ _
  | QM_MemoryMessageROLend _ _ idx _ _ _ _ _ _ | QM_MemoryMessageRWLend _ _ idx _ _ _ _ _ _
  | QM_MemoryMessageROLendTerminated idx _ _ _ _ _
  | QM_MemoryMessageRWLendTerminated idx _ _ _ _ _
  | QM_BlockingScalarTerminated idx _ _ => Some idx
  | _ => None
  end.

(** The message a pending slot delivers (with the sender's PID, 255 when the
    sender is gone) and what the slot becomes. *)
Definition slot_delivery (m : QueuedMessage) : option (option PID * Message * QueuedMessage) :=
  match m with
  | QM_MemoryMessageROLend pid tid _ id ca sa sz o v =>
      Some (Some pid, Borrow (memory_body id sa sz o v), QM_WaitingReturnMemory pid tid sa ca sz)
  | QM_MemoryMessageRWLend pid tid _ id ca sa sz o v =>
      Some (Some pid, MutableBorrow (memory_body id sa sz o v), QM_WaitingReturnMemory pid tid sa ca sz)
  | QM_MemoryMessageROLendTerminated _ id sa sz o v =>
      Some (PID_new 255, Borrow (memory_body id sa sz o v), QM_WaitingForget sa sz)
  | QM_MemoryMessageRWLendTerminated _ id sa sz o v =>
      Some (PID_new 255, MutableBorrow (memory_body id sa sz o v), QM_WaitingForget sa sz)
  | QM_BlockingScalarMessage pid tid _ id args =>
      Some (Some pid, BlockingScalar (scalar_body id args), QM_WaitingReturnScalar pid tid)
  | QM_MemoryMessageSend pid _ id sa sz o v =>
      Some (Some pid, Move (memory_body id sa sz o v), QM_Empty)
  | QM_ScalarMessage pid _ id args => Some (Some pid, Scalar (scalar_body id args), QM_Empty)
  | QM_BlockingScalarTerminated _ id args =>
      Some (PID_new 255, BlockingScalar (scalar_body id args), QM_WaitingReturnScalarTerminated)
  | _ => None
  end.

(** The match of [take_next_message]: an arm fires when the slot is pending
    with generation [g]. *)
Definition serve_slot (g : Z) (sidx queue_idx : nat) (m : QueuedMessage)
  : option (MessageEnvelope * QueuedMessage) :=
  match slot_generation m, slot_delivery m with
  | Some idx, Some (pid, body, response) =>
      if idx =? g then Some (mkEnvelope (sender_token sidx queue_idx pid) body, response) else None
  | _, _ => None
  end.

(** The [loop]: it returns when it is back at [queue_tail], so as many rounds
    as there are slots are enough (see [take_next_message_total]). *)
Fixpoint take_loop (fuel : nat) (sidx queue_idx : nat) : M Server (option MessageEnvelope) :=
  match fuel with
  | O => panic
  | S fuel =>
      q <- gets queue ;;
      g <- gets head_generation ;;
      m <- expect (q !! queue_idx) ;;
      match serve_slot g sidx queue_idx m with
      | Some (result, response) =>
          _ <- modify (set_tail (wrap_index (length q) queue_idx)) ;;
          _ <- modify (fun s => if QM_is_empty response then set_empty_count (empty_count s + 1) s else s) ;;
          _ <- modify (fun s => set_queue (<[queue_idx := response]> (queue s)) s) ;;
          _ <- modify (fun s => set_head_generation (u8 (head_generation s + 1)) s) ;;
          ret (Some result)
      | None =>
          tail <- gets queue_tail ;;
          let next := wrap_index (length q) queue_idx in
          if (next =? tail)%nat then ret None else take_loop fuel sidx next
      end
  end.

Definition take_next_message (sidx : nat) : M Server (option MessageEnvelope) :=
  fun s =>
    if tail_generation s =? head_generation s then Some (None, s)
    else take_loop (length (queue s)) sidx (queue_tail s) s.

(** [(self.queue_head..self.queue.len()).chain(0..self.queue_head)] *)
Definition slot_order (head len : nat) : list nat := seq head (len - head) ++ seq 0 head.

(** The loop of [find_empty_slot] over the slot order. *)
Fixpoint find_empty_loop (order : list nat) : M Server (res nat Error) :=
  match order with
  | [] => ret (Err ServerQueueFull)
  | queue_idx :: order =>
      q <- gets queue ;;
      m <- expect (q !! queue_idx) ;;
      if QM_is_empty m then
        _ <- modify (set_head (wrap_index (length q) queue_idx)) ;; ret (Ok queue_idx)
      else find_empty_loop order
  end.

Definition find_empty_slot : M Server (res nat Error) :=
  fun s => find_empty_loop (slot_order (queue_head s) (length (queue s))) s.

(** The slot built for a message. *)
Definition queued_entry (pid : PID) (tid : TID) (idx : Z) (message : Message)
    (original_address : option Z) : res QueuedMessage Error :=
  match message with
  | Scalar m =>
      Ok (QM_ScalarMessage pid idx (sm_id m) (sm_arg1 m, sm_arg2 m, sm_arg3 m, sm_arg4 m))
  | BlockingScalar m =>
      Ok (QM_BlockingScalarMessage pid (u8 tid) idx (sm_id m)
            (sm_arg1 m, sm_arg2 m, sm_arg3 m, sm_arg4 m))
  | Move m =>
      sa <-! ok_or (nonzero (range_addr (mm_buf m))) BadAddress ;;
      sz <-! ok_or (nonzero (range_size (mm_buf m))) InvalidArguments ;;
      Ok (QM_MemoryMessageSend pid idx (mm_id m) sa sz (get_or_0 (mm_offset m)) (get_or_0 (mm_valid m)))
  | MutableBorrow m =>
      ca <-! ok_or original_address InvalidArguments ;;
      sa <-! ok_or (nonzero (range_addr (mm_buf m))) BadAddress ;;
      sz <-! ok_or (nonzero (range_size (mm_buf m))) InvalidArguments ;;
      Ok (QM_MemoryMessageRWLend pid (u8 tid) idx (mm_id m) ca sa sz
            (get_or_0 (mm_offset m)) (get_or_0 (mm_valid m)))
  | Borrow m =>
      ca <-! ok_or original_address InvalidArguments ;;
      sa <-! ok_or (nonzero (range_addr (mm_buf m))) BadAddress ;;
      sz <-! ok_or (nonzero (range_size (mm_buf m))) InvalidArguments ;;
      Ok (QM_MemoryMessageROLend pid (u8 tid) idx (mm_id m) ca sa sz
            (get_or_0 (mm_offset m)) (get_or_0 (mm_valid m)))
  end.

(** [self.empty_count -= 1]; the subtraction overflows (a panic) at zero. *)
Definition dec_empty_count : M Server unit :=
  n <- gets empty_count ;; _ <- assertb (negb (n =? 0)%nat) ;; modify (set_empty_count (n - 1)).

Definition queue_message (pid : PID) (tid : TID) (message : Message) (original_address : option Z)
  : M Server (res nat Error) :=
  queue_idx <-? find_empty_slot ;;
  idx <- gets tail_generation ;;
  entry <-? ret (queued_entry pid tid idx message original_address) ;;
  _ <- modify (fun s => set_queue (<[queue_idx := entry]> (queue s)) s) ;;
  _ <- dec_empty_count ;;
  _ <- modify (fun s => set_tail_generation (u8 (tail_generation s + 1)) s) ;;
  t <- gets tail_generation ;;
  h <- gets head_generation ;;
  _ <- assertb (negb (t =? h)) ;;
  ret (Ok queue_idx).

Definition response_entry (pid : PID) (tid : TID) (message : Message) (client_address : option Z)
  : res QueuedMessage Error :=
  match message with
  | Scalar _ | BlockingScalar _ => Ok (QM_WaitingReturnScalar pid (u8 tid))
  | Move m =>
      sa <-! ok_or (nonzero (range_addr (mm_buf m))) BadAddress ;;
      sz <-! ok_or (nonzero (range_size (mm_buf m))) InvalidArguments ;;
      Ok (QM_WaitingForget sa sz)
  | MutableBorrow m | Borrow m =>
      ca <-! ok_or client_address InvalidArguments ;;
      sa <-! ok_or (nonzero (range_addr (mm_buf m))) BadAddress ;;
      sz <-! ok_or (nonzero (range_size (mm_buf m))) InvalidArguments ;;
      Ok (QM_WaitingReturnMemory pid (u8 tid) sa ca sz)
  end.

Definition queue_response (pid : PID) (tid : TID) (message : Message) (client_address : option Z)
  : M Server (res nat Error) :=
  queue_idx <-? find_empty_slot ;;
  entry <-? ret (response_entry pid tid message client_address) ;;
  _ <- modify (fun s => set_queue (<[queue_idx := entry]> (queue s)) s) ;;
  _ <- dec_empty_count ;;
  ret (Ok queue_idx).

(** *** Waiting threads *)

(** The loop of [take_available_thread] from bit [n]; [rotate_left] brings the
    mask back to 1 after bit 63, which is the panic. *)
Fixpoint take_thread_loop (fuel : nat) (n : Z) : M Server (option TID) :=
  match fuel with
  | O => panic
  | S fuel =>
      r <- gets ready_threads ;;
      let mask := Z.shiftl 1 n in
      if Z.land r mask =? mask then
        _ <- modify (set_ready_threads (Z.ldiff r mask)) ;; ret (Some n)
      else take_thread_loop fuel (n + 1)
  end.

Definition take_available_thread : M Server (option TID) :=
  fun s => if ready_threads s =? 0 then Some (None, s) else take_thread_loop 64 0 s.

Definition mark_ready (tid : TID) : M Server unit :=
  modify (fun s => set_ready_threads (Z.lor (ready_threads s) (Z.shiftl 1 tid)) s).

(** [1 << tid] panics for [tid >= 64]; a bit already set is the panic of both
    functions. *)
Definition return_available_thread (tid : TID) : M Server unit :=
  r <- gets ready_threads ;;
  _ <- assertb ((0 <=? tid) && (tid <? 64)) ;;
  _ <- assertb (Z.land r (Z.shiftl 1 tid) =? 0) ;;
  mark_ready tid.

Definition park_thread (tid : TID) : M Server unit :=
  r <- gets ready_threads ;;
  _ <- assertb ((0 <=? tid) && (tid <? 64)) ;;
  _ <- assertb (Z.land r (Z.shiftl 1 tid) =? 0) ;;
  mark_ready tid.

(** ** Invariant *)

Fixpoint count_empty (q : list QueuedMessage) : nat :=
  match q with [] => 0 | m :: q => (if QM_is_empty m then 1 else 0) + count_empty q end.

(** What a pending slot will deliver. *)
Definition slot_view (m : QueuedMessage) : option (option PID * Message) :=
  match slot_delivery m with Some (p, b, _) => Some (p, b) | None => None end.

(** [idxs] lists the pending slots in arrival order: the [k]-th carries the
    [k]-th generation after the head, and no other slot is pending. *)
Record server_inv (s : Server) (idxs : list nat) : Prop := {
  si_head : (queue_head s < length (queue s))%nat;
  si_tail : (queue_tail s < length (queue s))%nat;
  si_count : empty_count s = count_empty (queue s);
  si_hgen : 0 <= head_generation s < 256;
  si_tgen : tail_generation s = u8 (head_generation s + Z.of_nat (length idxs));
  si_bound : (length idxs < 256)%nat;
  si_pending : forall k i, idxs !! k = Some i ->
    exists m, queue s !! i = Some m /\ slot_generation m = Some (u8 (head_generation s + Z.of_nat k));
  si_complete : forall i m g, queue s !! i = Some m -> slot_generation m = Some g -> i ∈ idxs }.

(** The queue as the sequence of messages still to be delivered. *)
Definition contents (s : Server) (idxs : list nat) : list (option (option PID * Message)) :=
  (fun i => match queue s !! i with Some m => slot_view m | None => None end) <$> idxs.

(** *** Generations *)

Lemma u8_inj a b : 0 <= b - a < 256 -> u8 a = u8 b -> a = b.
Proof.
  unfold wrap. change (2 ^ 8) with 256. intros Hr H.
  pose proof (Z.div_mod a 256 ltac:(lia)). pose proof (Z.div_mod b 256 ltac:(lia)). lia.
Qed.

Lemma u8_small a : 0 <= a < 256 -> u8 a = a.
Proof. intros. unfold wrap. change (2 ^ 8) with 256. by apply Z.mod_small. Qed.

Lemma u8_succ a : u8 (u8 a + 1) = u8 (a + 1).
Proof. unfold wrap. by rewrite Z.add_mod_idemp_l. Qed.

Lemma slot_generation_delivery m g :
  slot_generation m = Some g -> exists p b r, slot_delivery m = Some (p, b, r).
Proof. destruct m; cbn; try done; eauto. Qed.

Lemma delivery_response_idle m p b r :
  slot_delivery m = Some (p, b, r) -> slot_generation r = None.
Proof. destruct m; cbn; try done; by intros [= <- <- <-]. Qed.

Lemma slot_generation_nonempty m g : slot_generation m = Some g -> QM_is_empty m = false.
Proof. by destruct m. Qed.

(** *** Counting empty slots *)

Definition b2n (b : bool) : nat := if b then 1 else 0.

Lemma count_empty_insert q i m m' :
  q !! i = Some m ->
  (count_empty (<[i := m']> q) + b2n (QM_is_empty m) = count_empty q + b2n (QM_is_empty m'))%nat.
Proof.
  revert i. induction q as [|x q IH]; intros i; [done|]. destruct i; simpl.
  - intros [= ->]. unfold b2n. destruct (QM_is_empty m), (QM_is_empty m'); lia.
  - intros H%IH. lia.
Qed.

Lemma count_empty_0 q : count_empty q = 0%nat <-> forall i m, q !! i = Some m -> QM_is_empty m = false.
Proof.
  induction q as [|x q IH]; cbn [count_empty]; [done|]. split.
  - destruct (QM_is_empty x) eqn:Hx; [done|]. cbn. intros H i m. destruct i; [by intros [= <-]|].
    by apply IH.
  - intros H. rewrite (H 0%nat x eq_refl). apply IH. intros i m Hm. by apply (H (S i)).
Qed.

(** *** The ring of slots *)

Lemma wrap_index_mod len i : (i < len)%nat -> wrap_index len i = ((i + 1) mod len)%nat.
Proof.
  intros Hi. unfold wrap_index. destruct (Nat.leb_spec len (i + 1)).
  - replace (i + 1)%nat with len by lia. by rewrite Nat.Div0.mod_same.
  - by rewrite Nat.mod_small by lia.
Qed.

Lemma wrap_index_lt len i : (i < len)%nat -> (wrap_index len i < len)%nat.
Proof. intros. rewrite wrap_index_mod by done. apply Nat.mod_upper_bound. lia. Qed.

Lemma slot_order_elem head len i : (head < len)%nat -> i ∈ slot_order head len <-> (i < len)%nat.
Proof. intros. unfold slot_order. rewrite elem_of_app, !elem_of_seq. lia. Qed.

(** *** Finding an empty slot *)

Lemma find_empty_loop_run order s :
  (forall i, i ∈ order -> (i < length (queue s))%nat) ->
  (exists i, queue s !! i = Some QM_Empty /\ (i < length (queue s))%nat /\
     find_empty_loop order s = Some (Ok i, set_head (wrap_index (length (queue s)) i) s)) \/
  ((forall i m, i ∈ order -> queue s !! i = Some m -> QM_is_empty m = false) /\
   find_empty_loop order s = Some (Err ServerQueueFull, s)).
Proof.
  induction order as [|i order IH]; intros Hin.
  - right. split; [set_solver|done].
  - assert (Hi : (i < length (queue s))%nat) by (apply Hin; set_solver).
    destruct (lookup_lt_is_Some_2 _ _ Hi) as [m Hm].
    cbn [find_empty_loop]. unfold bind, gets, expect. rewrite Hm. cbn [ret].
    destruct (QM_is_empty m) eqn:He.
    + left. exists i. destruct m; done.
    + destruct (IH ltac:(set_solver)) as [?|[Hn Hrun]]; [by left|right]. split; [|done].
      intros j mj [->|Hj]%elem_of_cons ?; [congruence|by apply (Hn j)].
Qed.

Lemma find_empty_slot_run s idxs :
  server_inv s idxs ->
  (exists i, queue s !! i = Some QM_Empty /\ (i < length (queue s))%nat /\
     find_empty_slot s = Some (Ok i, set_head (wrap_index (length (queue s)) i) s)) \/
  (empty_count s = 0%nat /\ find_empty_slot s = Some (Err ServerQueueFull, s)).
Proof.
  intros Hinv. unfold find_empty_slot.
  destruct (find_empty_loop_run (slot_order (queue_head s) (length (queue s))) s) as [?|[Hn ?]].
  - intros i. by rewrite slot_order_elem by apply Hinv.
  - by left.
  - right. split; [|done]. rewrite (si_count _ _ Hinv), count_empty_0. intros i m Hm.
    apply (Hn i); [|done]. rewrite slot_order_elem by apply Hinv. by apply lookup_lt_Some in Hm.
Qed.

(** *** Storing a message *)

(** The message a slot was built from is the one it delivers. *)
Lemma queued_entry_view pid tid g msg addr entry :
  Message_ok msg = true -> queued_entry pid tid g msg addr = Ok entry ->
  slot_generation entry = Some g /\ slot_view entry = Some (Some pid, msg).
Proof.
  destruct msg as [m|m|m|m|m]; [| | |by destruct m; intros _ [= <-]|by destruct m; intros _ [= <-]];
    destruct m as [id [a sz] o v]; cbn [queued_entry Message_ok memory_message];
    unfold MemoryMessage_ok; cbn [mm_buf mm_id mm_offset mm_valid];
    rewrite !andb_true_iff; intros [[Hr Ho] Hv]; apply range_ok_nz in Hr as [H1 H2];
    cbn [range_addr range_size] in *; rewrite !nonzero_Some by done; cbn [ok_or res_bind];
    [destruct addr; [|done]|destruct addr; [|done]|];
    intros [= <-]; (split; [done|]); cbn; unfold memory_body;
    by rewrite !nonzero_get_or_0.
Qed.

Lemma queued_entry_ok pid tid g msg addr :
  Message_ok msg = true -> (is_blocking msg && has_memory msg = true -> is_Some addr) ->
  exists entry, queued_entry pid tid g msg addr = Ok entry.
Proof.
  destruct msg as [m|m|m|m|m]; [| | |by eauto|by eauto];
    destruct m as [id [a sz] o v]; cbn [queued_entry Message_ok memory_message];
    unfold MemoryMessage_ok; cbn [mm_buf mm_id mm_offset mm_valid];
    rewrite !andb_true_iff; intros [[Hr Ho] Hv] Ha; apply range_ok_nz in Hr as [H1 H2];
    cbn [range_addr range_size] in *; rewrite !nonzero_Some by done; cbn [ok_or res_bind];
    [| |by eauto]; destruct (Ha (conj eq_refl eq_refl)) as [ca ->]; cbn; eauto.
Qed.

Definition stored (s : Server) (i : nat) (entry : QueuedMessage) : Server :=
  set_tail_generation (u8 (tail_generation s + 1))
    (set_empty_count (empty_count s - 1)
      (set_queue (<[i := entry]> (queue s)) (set_head (wrap_index (length (queue s)) i) s))).

Lemma empty_slot_count s idxs i :
  server_inv s idxs -> queue s !! i = Some QM_Empty -> (0 < empty_count s)%nat.
Proof.
  intros Hinv Hi. rewrite (si_count _ _ Hinv).
  destruct (count_empty (queue s)) eqn:E; [|lia]. by apply (proj1 (count_empty_0 _) E i) in Hi.
Qed.

(** Another message arrives in slot [i]. *)
Lemma stored_inv s idxs i entry :
  server_inv s idxs -> (length idxs < 255)%nat -> queue s !! i = Some QM_Empty ->
  slot_generation entry = Some (tail_generation s) ->
  server_inv (stored s i entry) (idxs ++ [i]) /\
  contents (stored s i entry) (idxs ++ [i]) = contents s idxs ++ [slot_view entry].
Proof.
  intros Hinv Hlen Hi Hg. pose proof (lookup_lt_Some _ _ _ Hi) as Hil.
  pose proof (si_hgen _ _ Hinv) as Hh.
  assert (Hne : forall k j, idxs !! k = Some j -> j <> i).
  { intros k j Hk ->. destruct (si_pending _ _ Hinv k i Hk) as (m & Hm & Hmg).
    rewrite Hi in Hm. by injection Hm as <-. }
  split; [split|]; unfold stored; cbn.
  - rewrite length_insert. by apply wrap_index_lt.
  - rewrite length_insert. apply Hinv.
  - pose proof (count_empty_insert _ _ _ entry Hi) as Hc. rewrite (slot_generation_nonempty _ _ Hg) in Hc.
    pose proof (empty_slot_count _ _ _ Hinv Hi) as Hp. rewrite (si_count _ _ Hinv) in *. cbn in Hc. lia.
  - done.
  - rewrite (si_tgen _ _ Hinv), u8_succ, length_app. f_equal. cbn. lia.
  - rewrite length_app. cbn. lia.
  - intros k j [Hk|[Hlk Hk]]%lookup_app_Some.
    + rewrite list_lookup_insert_ne by (apply not_eq_sym; by apply (Hne k)). by apply (si_pending _ _ Hinv).
    + apply list_lookup_singleton_Some in Hk as [Hk ->]. exists entry.
      rewrite list_lookup_insert_eq by done. split; [done|].
      rewrite Hg, (si_tgen _ _ Hinv). do 2 f_equal. lia.
  - intros j m g. destruct (decide (j = i)) as [->|Hji]; [set_solver|].
    rewrite list_lookup_insert_ne by done. intros Hm Hmg.
    apply elem_of_app. left. by apply (si_complete _ _ Hinv j m g).
  - unfold contents. cbn. rewrite fmap_app. cbn. rewrite list_lookup_insert_eq by done.
    f_equal. apply list_fmap_ext. intros k j Hk. by rewrite list_lookup_insert_ne by (apply not_eq_sym; by apply (Hne k)).
Qed.

Lemma queue_message_run s idxs pid tid msg addr i entry :
  server_inv s idxs -> queue s !! i = Some QM_Empty ->
  find_empty_slot s = Some (Ok i, set_head (wrap_index (length (queue s)) i) s) ->
  queued_entry pid tid (tail_generation s) msg addr = Ok entry ->
  queue_message pid tid msg addr s =
  if (length idxs =? 255)%nat then None else Some (Ok i, stored s i entry).
Proof.
  intros Hinv Hi Hf He. unfold queue_message, bind_try, bind at 1. rewrite Hf.
  unfold bind at 1, gets at 1. cbn [tail_generation set_head]. rewrite He.
  unfold bind at 1, ret at 1. unfold bind at 1, modify at 1. unfold bind at 1, dec_empty_count, bind, gets, assertb, modify, ret.
  cbn [empty_count set_queue set_head].
  destruct (Nat.eqb_spec (empty_count s) 0) as [Hz|_]; [pose proof (empty_slot_count _ _ _ Hinv Hi); lia|].
  cbn [negb]. change (set_tail_generation _ _) with (stored s i entry).
  replace (tail_generation (stored s i entry)) with (u8 (tail_generation s + 1)) by done.
  replace (head_generation (stored s i entry)) with (head_generation s) by done.
  rewrite (si_tgen _ _ Hinv), u8_succ. pose proof (si_hgen _ _ Hinv) as Hh. pose proof (si_bound _ _ Hinv) as Hb.
  destruct (Nat.eqb_spec (length idxs) 255) as [->|Hl].
  - replace (u8 _) with (head_generation s); [by rewrite Z.eqb_refl|].
    unfold wrap. change (2 ^ 8) with 256. apply Z.mod_unique with 1; lia.
  - destruct (Z.eqb_spec (u8 (head_generation s + Z.of_nat (length idxs) + 1)) (head_generation s)) as [E|]; [|done].
    rewrite <- (u8_small (head_generation s) Hh) in E at 2. symmetry in E. apply u8_inj in E; lia.
Qed.

(** *** Taking the next message *)

Definition taken (s : Server) (i : nat) (response : QueuedMessage) : Server :=
  set_head_generation (u8 (head_generation s + 1))
    (set_queue (<[i := response]> (queue s))
      (set_empty_count (empty_count s + b2n (QM_is_empty response))
        (set_tail (wrap_index (length (queue s)) i) s))).

Lemma take_loop_stop fuel sidx j s m env response :
  queue s !! j = Some m -> serve_slot (head_generation s) sidx j m = Some (env, response) ->
  take_loop (S fuel) sidx j s = Some (Some env, taken s j response).
Proof.
  intros Hm Hs. cbn [take_loop]. unfold bind, gets, expect, modify, ret. rewrite Hm, Hs.
  unfold taken, b2n. destruct (QM_is_empty response); unfold set_queue, set_tail, set_empty_count, set_head_generation; cbn;
    rewrite ?Nat.add_0_r; done.
Qed.

Lemma take_loop_skip fuel sidx j s m :
  queue s !! j = Some m -> serve_slot (head_generation s) sidx j m = None ->
  take_loop (S fuel) sidx j s =
  if (wrap_index (length (queue s)) j =? queue_tail s)%nat then Some (None, s)
  else take_loop fuel sidx (wrap_index (length (queue s)) j) s.
Proof.
  intros Hm Hs. cbn [take_loop]. unfold bind, gets, expect, ret. rewrite Hm, Hs.
  by destruct (wrap_index (length (queue s)) j =? queue_tail s)%nat.
Qed.

Section TakeLoop.
Context (s : Server) (sidx : nat).
Abbreviation n := (length (queue s)).

Definition serves (j : nat) : bool :=
  match queue s !! j with
  | Some m => match serve_slot (head_generation s) sidx j m with Some _ => true | None => false end
  | None => false
  end.

Lemma mod_succ a : (0 < n)%nat -> wrap_index n (a mod n) = ((a + 1) mod n)%nat.
Proof.
  intros. rewrite wrap_index_mod by (apply Nat.mod_upper_bound; lia).
  by rewrite Nat.Div0.add_mod_idemp_l.
Qed.

(** The loop stops at the first slot that serves, [d] steps ahead, provided
    the walk does not come back to the tail before it. *)
Lemma take_loop_find d fuel a i m env response :
  (0 < n)%nat -> (d < fuel)%nat -> i = ((a + d) mod n)%nat ->
  queue s !! i = Some m -> serve_slot (head_generation s) sidx i m = Some (env, response) ->
  (forall d', (d' < d)%nat -> serves ((a + d') mod n) = false /\ ((a + d' + 1) mod n)%nat <> queue_tail s) ->
  take_loop fuel sidx (a mod n) s = Some (Some env, taken s i response).
Proof.
  intros Hn. revert a fuel. induction d as [|d IH]; intros a [|fuel] Hf Hi Hm Hs Hskip; try lia.
  - rewrite Nat.add_0_r in Hi. subst i. by apply take_loop_stop with m.
  - destruct (Hskip 0%nat ltac:(lia)) as [Hns Hnt]. rewrite Nat.add_0_r in Hns, Hnt.
    assert (Hlt : (a mod n < n)%nat) by (apply Nat.mod_upper_bound; lia).
    destruct (lookup_lt_is_Some_2 _ _ Hlt) as [mj Hmj]. unfold serves in Hns. rewrite Hmj in Hns.
    assert (Hnone : serve_slot (head_generation s) sidx (a mod n) mj = None)
      by (by destruct (serve_slot _ _ (a mod n) mj)).
    rewrite (take_loop_skip _ _ _ _ _ Hmj Hnone).
    rewrite mod_succ by done. destruct (Nat.eqb_spec ((a + 1) mod n) (queue_tail s)) as [|_]; [done|].
    apply (IH (a + 1)%nat fuel); [lia| |done|done|].
    + rewrite Hi. f_equal. lia.
    + intros d' Hd'. specialize (Hskip (S d') ltac:(lia)).
      replace (a + 1 + d')%nat with (a + S d')%nat by lia. done.
Qed.

(** The loop always ends: after [n] rounds it is back at the tail. *)
Lemma take_loop_total k fuel :
  (queue_tail s < n)%nat -> (k + fuel = n)%nat -> (0 < fuel)%nat ->
  take_loop fuel sidx ((queue_tail s + k) mod n) s <> None.
Proof.
  intros Ht. revert k. induction fuel as [|fuel IH]; intros k Hk Hf; [lia|].
  assert (Hlt : ((queue_tail s + k) mod n < n)%nat) by (apply Nat.mod_upper_bound; lia).
  destruct (lookup_lt_is_Some_2 _ _ Hlt) as [m Hm].
  destruct (serve_slot (head_generation s) sidx ((queue_tail s + k) mod n) m) as [[env r]|] eqn:Hs.
  - by rewrite (take_loop_stop _ _ _ _ _ _ _ Hm Hs).
  - rewrite (take_loop_skip _ _ _ _ _ Hm Hs), mod_succ by lia.
    destruct (Nat.eqb_spec ((queue_tail s + k + 1) mod n) (queue_tail s)) as [|E]; [done|].
    replace (queue_tail s + k + 1)%nat with (queue_tail s + (k + 1))%nat by lia.
    apply IH; [lia|]. destruct fuel; [|lia]. exfalso. apply E.
    replace (queue_tail s + k + 1)%nat with (queue_tail s + 1 * n)%nat by lia.
    rewrite Nat.Div0.mod_add. by apply Nat.mod_small.
Qed.
End TakeLoop.

(** [take_next_message] returns, whatever the queue holds. *)
Lemma take_next_message_total sidx s :
  (queue_tail s < length (queue s))%nat -> take_next_message sidx s <> None.
Proof.
  intros Ht. unfold take_next_message. destruct (tail_generation s =? head_generation s); [done|].
  rewrite <- (Nat.mod_small (queue_tail s) (length (queue s))) at 1 by done.
  rewrite <- (Nat.add_0_r (queue_tail s)) at 1. apply take_loop_total; lia.
Qed.

(** The slot of generation [head_generation] is the oldest pending one only. *)
Lemma serves_oldest s idxs i sidx j :
  server_inv s (i :: idxs) -> serves s sidx j = true -> j = i.
Proof.
  intros Hinv. unfold serves. destruct (queue s !! j) as [m|] eqn:Hm; [|done].
  unfold serve_slot. destruct (slot_generation m) as [g|] eqn:Hg; [|done].
  destruct (slot_delivery m) as [[[p b] r]|]; [|done].
  destruct (Z.eqb_spec g (head_generation s)) as [->|]; [|done]. intros _.
  pose proof (si_complete _ _ Hinv _ _ _ Hm Hg) as Hin.
  apply list_elem_of_lookup in Hin as [k Hk].
  destruct (si_pending _ _ Hinv k j Hk) as (m' & Hm' & Hg').
  rewrite Hm in Hm'. injection Hm' as <-. rewrite Hg in Hg'. injection Hg' as E.
  pose proof (si_hgen _ _ Hinv) as Hh. pose proof (si_bound _ _ Hinv) as Hb.
  apply lookup_lt_Some in Hk as Hkl.
  rewrite <- (u8_small _ Hh) in E at 1. apply u8_inj in E; [|lia].
  assert (k = 0%nat) as -> by lia. by injection Hk.
Qed.

Lemma mod_diff n t i : (t < n)%nat -> (i < n)%nat ->
  exists d, (d < n)%nat /\ i = ((t + d) mod n)%nat.
Proof.
  intros Ht Hi. destruct (decide (t <= i)%nat).
  - exists (i - t)%nat. split; [lia|]. rewrite Nat.mod_small; lia.
  - exists (n - t + i)%nat. split; [lia|]. replace (t + (n - t + i))%nat with (i + 1 * n)%nat by lia.
    rewrite Nat.Div0.mod_add, Nat.mod_small; lia.
Qed.

Lemma mod_shift_neq n t d : (t < n)%nat -> (0 < d < n)%nat -> ((t + d) mod n)%nat <> t.
Proof.
  intros Ht Hd E. destruct (decide (t + d < n)%nat); [rewrite Nat.mod_small in E; lia|].
  replace (t + d)%nat with (t + d - n + 1 * n)%nat in E by lia.
  rewrite Nat.Div0.mod_add, Nat.mod_small in E; lia.
Qed.

Lemma take_next_run s idxs i sidx :
  server_inv s (i :: idxs) ->
  exists m p b r, queue s !! i = Some m /\ slot_delivery m = Some (p, b, r) /\
    take_next_message sidx s =
    Some (Some (mkEnvelope (sender_token sidx i p) b), taken s i r).
Proof.
  intros Hinv. destruct (si_pending _ _ Hinv 0%nat i eq_refl) as (m & Hm & Hg).
  pose proof (si_hgen _ _ Hinv) as Hh. rewrite Z.add_0_r, u8_small in Hg by done.
  destruct (slot_generation_delivery _ _ Hg) as (p & b & r & Hd).
  exists m, p, b, r. split; [done|]. split; [done|]. unfold take_next_message.
  pose proof (si_bound _ _ Hinv) as Hb. pose proof (si_tail _ _ Hinv) as Ht.
  destruct (Z.eqb_spec (tail_generation s) (head_generation s)) as [E|_].
  - rewrite (si_tgen _ _ Hinv) in E. rewrite <- (u8_small _ Hh) in E at 2. symmetry in E.
    apply u8_inj in E; cbn [length] in *; lia.
  - destruct (mod_diff _ _ _ Ht (lookup_lt_Some _ _ _ Hm)) as (d & Hdn & Hi).
    rewrite <- (Nat.mod_small (queue_tail s) (length (queue s))) at 1 by done.
    apply (take_loop_find _ _ d _ _ i m); [lia|done|done|done| |].
    + unfold serve_slot. by rewrite Hg, Hd, Z.eqb_refl.
    + intros d' Hd'. split.
      * destruct (serves s sidx _) eqn:Es; [|done]. apply (serves_oldest s idxs i) in Es; [|done].
        exfalso. rewrite Hi in Es. revert Es. generalize (length (queue s)) Ht Hdn. clear -Hd'.
        intros n Ht Hdn Es. apply (mod_shift_neq n ((queue_tail s + d') mod n) (d - d')); [apply Nat.mod_upper_bound; lia|lia|].
        rewrite Nat.Div0.add_mod_idemp_l. replace (queue_tail s + d' + (d - d'))%nat with (queue_tail s + d)%nat by lia. done.
      * rewrite <- Nat.add_assoc. apply mod_shift_neq; lia.
Qed.

(** The oldest message leaves the queue. *)
Lemma taken_inv s idxs i m p b r :
  server_inv s (i :: idxs) -> queue s !! i = Some m -> slot_delivery m = Some (p, b, r) ->
  server_inv (taken s i r) idxs /\ contents (taken s i r) idxs = tail (contents s (i :: idxs)).
Proof.
  intros Hinv Hi Hd. pose proof (lookup_lt_Some _ _ _ Hi) as Hil.
  pose proof (si_hgen _ _ Hinv) as Hh. pose proof (si_bound _ _ Hinv) as Hb.
  pose proof (delivery_response_idle _ _ _ _ Hd) as Hr.
  assert (Hme : QM_is_empty m = false) by (by destruct m).
  assert (Hne : forall k j, idxs !! k = Some j -> j <> i).
  { intros k j Hk ->. destruct (si_pending _ _ Hinv (S k) i Hk) as (m1 & Hm1 & Hg1).
    destruct (si_pending _ _ Hinv 0%nat i eq_refl) as (m2 & Hm2 & Hg2).
    apply lookup_lt_Some in Hk. cbn [length] in Hb.
    assert (E : u8 (head_generation s + Z.of_nat 0) = u8 (head_generation s + Z.of_nat (S k))) by congruence.
    apply u8_inj in E; lia. }
  split; [split|]; unfold taken; cbn.
  - rewrite length_insert. apply Hinv.
  - rewrite length_insert. by apply wrap_index_lt.
  - pose proof (count_empty_insert _ _ _ r Hi) as Hc. rewrite Hme in Hc. rewrite (si_count _ _ Hinv). cbn in Hc. lia.
  - unfold wrap. apply Z.mod_pos_bound. lia.
  - rewrite (si_tgen _ _ Hinv). cbn [length]. unfold wrap.
    rewrite Z.add_mod_idemp_l by lia. f_equal. lia.
  - cbn in Hb. lia.
  - intros k j Hk. rewrite list_lookup_insert_ne by (apply not_eq_sym; by apply (Hne k)).
    destruct (si_pending _ _ Hinv (S k) j Hk) as (m1 & Hm1 & Hg1). exists m1. split; [done|].
    rewrite Hg1. f_equal. unfold wrap. rewrite Z.add_mod_idemp_l by lia. f_equal. lia.
  - intros j m' g. destruct (decide (j = i)) as [->|Hji].
    + rewrite list_lookup_insert_eq by done. intros [= <-]. congruence.
    + rewrite list_lookup_insert_ne by done. intros Hm' Hg'.
      pose proof (si_complete _ _ Hinv j m' g Hm' Hg') as Hin. set_solver.
  - unfold contents. cbn. apply list_fmap_ext. intros k j Hk.
    by rewrite list_lookup_insert_ne by (apply not_eq_sym; by apply (Hne k)).
Qed.

Lemma take_next_nil s sidx : server_inv s [] -> take_next_message sidx s = Some (None, s).
Proof.
  intros Hinv. unfold take_next_message. rewrite (si_tgen _ _ Hinv). cbn [length].
  rewrite Z.add_0_r, u8_small, Z.eqb_refl by apply Hinv. done.
Qed.

(** *** Slots that are not pending *)

(** Replacing a slot by one with the same generation (or none before and
    after), the tail anywhere in range and the count in step. *)
Lemma replace_idle_inv s idxs i m m' ec qt qh :
  server_inv s idxs -> queue s !! i = Some m ->
  slot_generation m = None -> slot_generation m' = None ->
  ec = count_empty (<[i := m']> (queue s)) ->
  (qt < length (queue s))%nat -> (qh < length (queue s))%nat ->
  let s' := mkServer (srv_sid s) (srv_pid s) (queue_addr s) qh qt (head_generation s) (tail_generation s) ec
              (<[i := m']> (queue s)) (ready_threads s) (default_permissions s) in
  server_inv s' idxs /\ contents s' idxs = contents s idxs.
Proof.
  intros Hinv Hi Hm Hm' Hec Hqt Hqh. pose proof (lookup_lt_Some _ _ _ Hi) as Hil.
  assert (Hne : forall k j, idxs !! k = Some j -> j <> i).
  { intros k j Hk ->. destruct (si_pending _ _ Hinv k i Hk) as (m1 & Hm1 & Hg1). congruence. }
  split; [split|]; cbn; rewrite ?length_insert; try apply Hinv; try done.
  - intros k j Hk. rewrite list_lookup_insert_ne by (apply not_eq_sym; by apply (Hne k)).
    by apply (si_pending _ _ Hinv).
  - intros j mj g. destruct (decide (j = i)) as [->|Hji].
    + rewrite list_lookup_insert_eq by done. intros [= <-]. congruence.
    + rewrite list_lookup_insert_ne by done. apply (si_complete _ _ Hinv).
  - unfold contents. cbn. apply list_fmap_ext. intros k j Hk.
    by rewrite list_lookup_insert_ne by (apply not_eq_sym; by apply (Hne k)).
Qed.

Lemma waiting_response_idle m buf r :
  waiting_response m buf = inr r -> slot_generation m = None /\ QM_is_empty m = false.
Proof. destruct m; cbn; try done; by destruct (buf_mismatch _ _ _). Qed.

Lemma take_waiting_inv s idxs i buf r s' :
  server_inv s idxs -> take_waiting_message i buf s = Some (r, s') ->
  server_inv s' idxs /\ contents s' idxs = contents s idxs.
Proof.
  intros Hinv. unfold take_waiting_message, bind, gets, modify, ret.
  destruct (queue s !! i) as [m|] eqn:Hi; [|by intros [= <- <-]].
  destruct (waiting_response m buf) as [e|w] eqn:Hw; [by intros [= <- <-]|].
  intros [= <- <-]. destruct (waiting_response_idle _ _ _ Hw) as [Hg He].
  pose proof (lookup_lt_Some _ _ _ Hi) as Hil.
  apply (replace_idle_inv s idxs i m QM_Empty); try done.
  - pose proof (count_empty_insert _ _ _ QM_Empty Hi) as Hc. rewrite He in Hc.
    cbn in *. rewrite (si_count _ _ Hinv). lia.
  - cbn. rewrite length_insert. by apply wrap_index_lt.
  - apply Hinv.
Qed.

Lemma response_entry_idle pid tid msg addr e :
  response_entry pid tid msg addr = Ok e -> slot_generation e = None /\ QM_is_empty e = false.
Proof.
  destruct msg as [m|m|m|m|m]; cbn [response_entry]; try (by intros [= <-]);
    destruct (nonzero (range_addr (mm_buf m))), (nonzero (range_size (mm_buf m))); destruct addr; try done;
    cbn; by intros [= <-].
Qed.

Lemma queue_response_inv s idxs pid tid msg addr r s' :
  server_inv s idxs -> queue_response pid tid msg addr s = Some (r, s') ->
  server_inv s' idxs /\ contents s' idxs = contents s idxs.
Proof.
  intros Hinv. unfold queue_response, bind_try, bind at 1.
  destruct (find_empty_slot_run s idxs Hinv) as [(i & Hi & Hil & Hf)|[_ Hf]]; rewrite Hf;
    [|by intros [= <- <-]].
  unfold bind at 1, ret at 1. destruct (response_entry pid tid msg addr) as [e|e] eqn:He.
  2: { intros [= <- <-]. split; [|done]. destruct Hinv. split; cbn; try done. by apply wrap_index_lt. }
  destruct (response_entry_idle _ _ _ _ _ He) as [Hg Hne].
  unfold dec_empty_count, bind, gets, assertb, modify, ret. cbn [empty_count set_queue set_head].
  destruct (Nat.eqb_spec (empty_count s) 0); [done|]. cbn [negb]. intros [= <- <-].
  apply (replace_idle_inv s idxs i QM_Empty e); try done.
  - pose proof (count_empty_insert _ _ _ e Hi) as Hc. rewrite Hne in Hc. cbn in *.
    rewrite (si_count _ _ Hinv) in *. lia.
  - apply Hinv.
  - cbn. by apply wrap_index_lt.
Qed.

Lemma queue_response_total s idxs pid tid msg addr :
  server_inv s idxs -> exists r s', queue_response pid tid msg addr s = Some (r, s') /\
    length (queue s') = length (queue s).
Proof.
  intros Hinv. unfold queue_response, bind_try, bind at 1.
  destruct (find_empty_slot_run s idxs Hinv) as [(i & Hi & Hil & Hf)|[_ Hf]]; rewrite Hf; [|by eauto].
  unfold bind at 1, ret at 1. destruct (response_entry pid tid msg addr) as [e|e]; [|by eauto].
  unfold dec_empty_count, bind, gets, assertb, modify, ret. cbn [empty_count set_queue set_head].
  destruct (Nat.eqb_spec (empty_count s) 0); [pose proof (empty_slot_count _ _ _ Hinv Hi); lia|].
  cbn [negb]. do 2 eexists. split; [done|]. cbn. by rewrite length_insert.
Qed.

(** *** A sender that terminated *)

Lemma discard_entry_generation pid m : slot_generation (discard_entry pid m) = slot_generation m.
Proof. destruct m; cbn; try done; by destruct (_ =? pid). Qed.
Lemma discard_entry_empty pid m : QM_is_empty (discard_entry pid m) = QM_is_empty m.
Proof. destruct m; cbn; try done; by destruct (_ =? pid). Qed.
Lemma discard_entry_body pid m : snd <$> slot_view (discard_entry pid m) = snd <$> slot_view m.
Proof. destruct m; cbn; try done; by destruct (_ =? pid). Qed.

Lemma count_empty_discard pid q : count_empty (discard_entry pid <$> q) = count_empty q.
Proof. induction q as [|m q IH]; cbn; [done|]. by rewrite discard_entry_empty, IH. Qed.

(** The bodies of the pending messages, in delivery order. *)
Definition bodies (c : list (option (option PID * Message))) : list (option Message) :=
  (fun o : option (option PID * Message) => snd <$> o) <$> c.

Lemma discard_inv s idxs pid s' :
  server_inv s idxs -> discard_messages_for_pid pid s = Some (tt, s') ->
  server_inv s' idxs /\ bodies (contents s' idxs) = bodies (contents s idxs).
Proof.
  intros Hinv [= <-]. split; [split|]; cbn; rewrite ?length_fmap, ?count_empty_discard; try apply Hinv.
  - intros k i Hk. destruct (si_pending _ _ Hinv k i Hk) as (m & Hm & Hg).
    exists (discard_entry pid m). by rewrite list_lookup_fmap, Hm, discard_entry_generation.
  - intros i m g. rewrite list_lookup_fmap. destruct (queue s !! i) as [m0|] eqn:Hm0; [|done].
    cbn. intros [= <-]. rewrite discard_entry_generation. by apply (si_complete _ _ Hinv).
  - unfold bodies, contents. rewrite <- !list_fmap_compose. apply list_fmap_ext. intros k i _. cbn.
    rewrite list_lookup_fmap. destruct (queue s !! i) as [m|]; [|done]. cbn. apply discard_entry_body.
Qed.

(** ** Traces of server operations *)

Inductive srv_op :=
| SrvSend (pid : PID) (tid : TID) (msg : Message) (addr : option Z)
| SrvReceive (sidx : nat)
| SrvReply (idx : nat) (buf : option MemoryRange)
| SrvRespond (pid : PID) (tid : TID) (msg : Message) (addr : option Z)
| SrvDiscard (pid : PID).

(** The messages accepted and delivered so far. *)
Record log := mkLog { accepted : list Message; delivered : list Message }.

Definition srv_step (op : srv_op) (sl : Server * log) : option (Server * log) :=
  let '(s, l) := sl in
  match op with
  | SrvSend pid tid msg addr =>
      match queue_message pid tid msg addr s with
      | Some (Ok _, s') => Some (s', mkLog (accepted l ++ [msg]) (delivered l))
      | Some (Err _, s') => Some (s', l)
      | None => None
      end
  | SrvReceive sidx =>
      match take_next_message sidx s with
      | Some (Some env, s') => Some (s', mkLog (accepted l) (delivered l ++ [env_body env]))
      | Some (None, s') => Some (s', l)
      | None => None
      end
  | SrvReply idx buf =>
      match take_waiting_message idx buf s with Some (_, s') => Some (s', l) | None => None end
  | SrvRespond pid tid msg addr =>
      match queue_response pid tid msg addr s with Some (_, s') => Some (s', l) | None => None end
  | SrvDiscard pid =>
      match discard_messages_for_pid pid s with Some (_, s') => Some (s', l) | None => None end
  end.

Fixpoint srv_run (ops : list srv_op) (sl : Server * log) : option (Server * log) :=
  match ops with
  | [] => Some sl
  | op :: ops => match srv_step op sl with Some sl' => srv_run ops sl' | None => None end
  end.

Definition srv_op_ok (op : srv_op) : bool :=
  match op with SrvSend _ _ msg _ => Message_ok msg | _ => true end.

(** A server over [n] slots that all read as empty: what [Server::init] leaves
    when the page it is given holds zeros ([Server_init_zero_page]), and only
    then. *)
Definition fresh_server (sid : SID) (pid : PID) (addr : Z) (n : nat) (perms : MessagePermissions) : Server :=
  mkServer sid pid addr 0 0 0 0 n (replicate n QM_Empty) 0 perms.

(** Everything accepted is either delivered already or pending, in order. *)
Definition log_inv (s : Server) (l : log) : Prop :=
  exists idxs, server_inv s idxs /\
    Some <$> accepted l = (Some <$> delivered l) ++ bodies (contents s idxs).

Lemma count_empty_replicate n : count_empty (replicate n QM_Empty) = n.
Proof. induction n as [|n IH]; cbn; [done|]. by rewrite IH. Qed.

Lemma fresh_inv sid pid addr n perms : (0 < n)%nat -> server_inv (fresh_server sid pid addr n perms) [].
Proof.
  intros Hn. split; cbn; rewrite ?length_replicate, ?count_empty_replicate; try lia; try done.
  intros i m g [-> _]%lookup_replicate. done.
Qed.

Lemma fmap_const_replicate (page : nat -> QueuedMessage) j n :
  (forall i, page i = QM_Empty) -> page <$> seq j n = replicate n QM_Empty.
Proof. intros Hz. revert j. induction n as [|n IH]; intros j; cbn; [done|]. by rewrite Hz, IH. Qed.

(** A server initialised over a page of zeros is a fresh server. *)
Lemma Server_init_zero_page pid sid backing page perms s :
  (forall i, page i = QM_Empty) ->
  Server_init None pid sid backing page perms = Some (Ok s) ->
  exists p, s = fresh_server sid pid (range_addr backing) (Z.to_nat (range_size backing / QUEUED_MESSAGE_SIZE)) p.
Proof.
  intros Hz. unfold Server_init. rewrite (fmap_const_replicate page 0) by done. rewrite length_replicate.
  unfold fresh_server. destruct (MsgRange_is_empty perms); [intros [= <-]; by eexists|].
  destruct (permissions_add perms MessagePermissions_default) as [[[] p]|]; try done. intros [= <-]. by eexists.
Qed.

Lemma queued_entry_err s idxs pid tid msg addr i e :
  server_inv s idxs -> (i < length (queue s))%nat ->
  find_empty_slot s = Some (Ok i, set_head (wrap_index (length (queue s)) i) s) ->
  queued_entry pid tid (tail_generation s) msg addr = Err e ->
  queue_message pid tid msg addr s = Some (Err e, set_head (wrap_index (length (queue s)) i) s) /\
  server_inv (set_head (wrap_index (length (queue s)) i) s) idxs.
Proof.
  intros Hinv Hi Hf He. unfold queue_message, bind_try, bind at 1. rewrite Hf.
  unfold bind at 1, gets at 1. cbn [tail_generation set_head]. rewrite He. split; [done|].
  destruct Hinv. split; cbn; try done. by apply wrap_index_lt.
Qed.

(** The one step of a server that panics: a send that finds a free slot and
    255 messages pending. *)
Definition send_overrun (op : srv_op) (s : Server) : Prop :=
  (exists pid tid msg addr, op = SrvSend pid tid msg addr) /\ is_queue_full s = false /\
  exists idxs, server_inv s idxs /\ length idxs = 255%nat.

(** One operation keeps the log in step or is such a send. *)
Lemma srv_step_inv op s l :
  srv_op_ok op = true -> log_inv s l ->
  match srv_step op (s, l) with
  | Some (s', l') => log_inv s' l' /\ length (queue s') = length (queue s)
  | None => send_overrun op s
  end.
Proof.
  intros Hok (idxs & Hinv & Hlog). destruct op as [pid tid msg addr|sidx|idx buf|pid tid msg addr|pid]; cbn [srv_step].
  - destruct (find_empty_slot_run s idxs Hinv) as [(i & Hi & Hil & Hf)|[Hec Hf]].
    + destruct (queued_entry pid tid (tail_generation s) msg addr) as [entry|e] eqn:He.
      * rewrite (queue_message_run s idxs _ _ _ _ i entry) by done.
        destruct (Nat.eqb_spec (length idxs) 255) as [Hl|Hl].
        -- pose proof (empty_slot_count _ _ _ Hinv Hi). split; [by do 4 eexists|].
           split; [by apply Nat.eqb_neq; lia|by exists idxs].
        -- destruct (queued_entry_view _ _ _ _ _ _ Hok He) as [Hg Hv].
           pose proof (si_bound _ _ Hinv). destruct (stored_inv s idxs i entry) as [Hs Hc]; [done|lia|done|done|].
           split; [|by cbn; rewrite length_insert]. exists (idxs ++ [i]). split; [done|].
           unfold bodies in *. cbn [accepted delivered]. rewrite Hc, Hv, !fmap_app, Hlog. by rewrite <- (assoc_L (++)).
      * destruct (queued_entry_err s idxs pid tid msg addr i e) as [-> Hs]; try done.
        split; [|done]. by exists idxs.
    + unfold queue_message, bind_try, bind at 1. rewrite Hf. split; [|done]. by exists idxs.
  - destruct idxs as [|i idxs]; [rewrite take_next_nil by done; split; [by exists []|done]|].
    destruct (take_next_run s idxs i sidx Hinv) as (m & p & b & r & Hm & Hd & ->).
    destruct (taken_inv s idxs i m p b r Hinv Hm Hd) as [Hs Hc].
    split; [|by cbn; rewrite length_insert]. exists idxs. split; [done|]. cbn [accepted delivered env_body].
    rewrite Hlog, Hc. unfold contents. cbn. rewrite Hm. unfold slot_view. rewrite Hd. cbn.
    rewrite fmap_app. cbn. by rewrite <- (assoc_L (++)).
  - destruct (take_waiting_message idx buf s) as [[r s']|] eqn:E.
    + destruct (take_waiting_inv _ _ _ _ _ _ Hinv E) as [Hs Hc]. split; [exists idxs; by rewrite Hc|].
      revert E. unfold take_waiting_message, bind, gets, modify, ret. destruct (queue s !! idx); [|by intros [= <- <-]].
      destruct (waiting_response _ buf); intros [= <- <-]; [done|]. cbn. by rewrite length_insert.
    + exfalso. revert E. unfold take_waiting_message, bind, gets, modify, ret. destruct (queue s !! idx); [|done].
      by destruct (waiting_response _ buf).
  - destruct (queue_response_total s idxs pid tid msg addr Hinv) as (r & s' & E & Hl). rewrite E.
    destruct (queue_response_inv _ _ _ _ _ _ _ _ Hinv E) as [Hs Hc]. split; [exists idxs; by rewrite Hc|done].
  - destruct (discard_messages_for_pid pid s) as [[[] s']|] eqn:E; [|done].
    destruct (discard_inv _ _ _ _ Hinv E) as [Hs Hc]. split; [exists idxs; by rewrite Hc|].
    injection E as <-. cbn. by rewrite length_fmap.
Qed.

Lemma srv_run_app ops1 ops2 sl :
  srv_run (ops1 ++ ops2) sl =
  match srv_run ops1 sl with Some sl' => srv_run ops2 sl' | None => None end.
Proof. revert sl. induction ops1 as [|op ops1 IH]; intros sl; cbn; [done|]. by destruct (srv_step op sl). Qed.

(** The pending slots are distinct, and none of them is an empty slot. *)
Lemma pending_nodup s idxs i :
  server_inv s idxs -> queue s !! i = Some QM_Empty -> NoDup (i :: idxs).
Proof.
  intros Hinv Hi. apply NoDup_cons. split.
  - intros [k Hk]%list_elem_of_lookup. destruct (si_pending _ _ Hinv k i Hk) as (m & Hm & Hg).
    rewrite Hi in Hm. by injection Hm as <-.
  - apply NoDup_alt. intros k1 k2 j H1 H2.
    destruct (si_pending _ _ Hinv k1 j H1) as (m1 & Hm1 & Hg1).
    destruct (si_pending _ _ Hinv k2 j H2) as (m2 & Hm2 & Hg2).
    assert (E : u8 (head_generation s + Z.of_nat k1) = u8 (head_generation s + Z.of_nat k2)) by congruence.
    apply lookup_lt_Some in H1, H2. pose proof (si_bound _ _ Hinv).
    destruct (decide (k1 <= k2)%nat); [apply u8_inj in E; lia|symmetry in E; apply u8_inj in E; lia].
Qed.

Lemma srv_run_inv ops s l :
  forallb srv_op_ok ops = true -> log_inv s l ->
  match srv_run ops (s, l) with
  | Some (s', l') => log_inv s' l' /\ length (queue s') = length (queue s)
  | None => (255 < length (queue s))%nat
  end.
Proof.
  revert s l. induction ops as [|op ops IH]; intros s l; cbn [forallb srv_run]; [done|].
  intros [Hop Hops]%andb_true_iff Hlog. pose proof (srv_step_inv op s l Hop Hlog) as Hstep.
  destruct (srv_step op (s, l)) as [[s1 l1]|].
  - destruct Hstep as [Hlog1 Hlen]. specialize (IH s1 l1 Hops Hlog1). rewrite Hlen in IH. exact IH.
  - destruct Hstep as (_ & Hec%Nat.eqb_neq & idxs & Hinv & Hl).
    destruct (find_empty_slot_run s idxs Hinv) as [(i & Hi & Hil & _)|[? _]]; [|lia].
    assert (Hnd : NoDup (i :: idxs)) by (by apply (pending_nodup s)).
    assert (Hsub : i :: idxs ⊆+ seq 0 (length (queue s))).
    { apply NoDup_submseteq; [done|]. intros j [->|Hj]%elem_of_cons; apply elem_of_seq; [lia|].
      apply list_elem_of_lookup in Hj as [k Hk]. destruct (si_pending _ _ Hinv k j Hk) as (m & Hm & _).
      apply lookup_lt_Some in Hm. lia. }
    apply submseteq_length in Hsub. rewrite length_seq in Hsub. cbn in Hsub. lia.
Qed.

(** A run goes on as long as no send overruns the queue. *)
Lemma srv_run_split ops s l :
  forallb srv_op_ok ops = true -> log_inv s l ->
  exists ops1 ops2 s' l', ops = ops1 ++ ops2 /\ srv_run ops1 (s, l) = Some (s', l') /\ log_inv s' l' /\
    (ops2 = [] \/ exists op rest, ops2 = op :: rest /\ srv_step op (s', l') = None /\ send_overrun op s').
Proof.
  revert s l. induction ops as [|op ops IH]; intros s l; cbn [forallb].
  - intros _ Hlog. exists [], [], s, l. by split_and!; [..|left].
  - intros [Hop Hops]%andb_true_iff Hlog. pose proof (srv_step_inv op s l Hop Hlog) as Hstep.
    destruct (srv_step op (s, l)) as [[s1 l1]|] eqn:E.
    + destruct (IH s1 l1 Hops (proj1 Hstep)) as (ops1 & ops2 & s' & l' & -> & Hrun & Hlog' & Hend).
      exists (op :: ops1), ops2, s', l'. cbn [srv_run]. by rewrite E.
    + exists [], (op :: ops), s, l. split_and!; try done. right. by exists op, ops.
Qed.

(** ** Properties *)

(** C12. First in, first out: on a server that [Server::init] builds over a
    page that holds zeros, along every sequence of sends, receives, replies,
    direct responses and sender terminations, the messages delivered are, in
    order, the first of the messages accepted, and the others are pending in
    the queue; the run goes through to its end unless it reaches a send that
    finds 255 messages pending and a slot still free, which panics the
    kernel. *)
Theorem server_fifo pid sid backing page perms s0 ops :
  (forall i, page i = QM_Empty) -> QUEUED_MESSAGE_SIZE <= range_size backing ->
  Server_init None pid sid backing page perms = Some (Ok s0) ->
  forallb srv_op_ok ops = true ->
  exists ops1 ops2 s l, ops = ops1 ++ ops2 /\ srv_run ops1 (s0, mkLog [] []) = Some (s, l) /\
    (exists idxs, server_inv s idxs /\
       Some <$> accepted l = (Some <$> delivered l) ++ bodies (contents s idxs)) /\
    (ops2 = [] \/ exists op rest, ops2 = op :: rest /\ srv_step op (s, l) = None /\ send_overrun op s).
Proof.
  intros Hz Hsize Hinit Hops. destruct (Server_init_zero_page _ _ _ _ _ _ Hz Hinit) as [p ->].
  apply (srv_run_split ops); [done|]. exists []. split; [|done]. apply fresh_inv.
  assert (0 < QUEUED_MESSAGE_SIZE) by (by vm_compute).
  pose proof (Z.div_str_pos (range_size backing) QUEUED_MESSAGE_SIZE). lia.
Qed.

Definition demo_sid : SID := mkSID 1 2 3 4.
Definition demo_msg (id : Z) : Message := Scalar (mkScalarMessage id 0 0 0 0).
Definition demo_lend : Message := MutableBorrow (mkMemoryMessage 9 (mkRange 16384 16384) None (Some 8)).
Definition demo_srv_ops : list srv_op :=
  [SrvSend 2 1 (demo_msg 5) None; SrvSend 3 2 demo_lend (Some 32768); SrvReceive 0;
   SrvReceive 0; SrvSend 2 1 (demo_msg 6) None; SrvReply 1 None; SrvDiscard 3].
Definition demo_server (n : nat) : Server := fresh_server demo_sid 4 0 n MessagePermissions_default.

Lemma server_fifo_witness :
  exists ops1 ops2 s l, demo_srv_ops = ops1 ++ ops2 /\ srv_run ops1 (demo_server 256, mkLog [] []) = Some (s, l) /\
    (exists idxs, server_inv s idxs /\
       Some <$> accepted l = (Some <$> delivered l) ++ bodies (contents s idxs)) /\
    (ops2 = [] \/ exists op rest, ops2 = op :: rest /\ srv_step op (s, l) = None /\ send_overrun op s).
Proof.
  apply (server_fifo 4 demo_sid (mkRange 0 16384) (fun _ => QM_Empty) (mkMsgRange 0 0));
    [done|by vm_compute|by vm_compute|reflexivity].
Defined.

(** What the page held before is delivered: over a page whose first slot reads
    as a scalar message of generation 0 and whose second slot is empty, the
    first message sent is accepted, the first receive yields the stale message
    instead, under the sender its bytes name, and the message sent is never
    found. *)
Theorem stale_page_delivers pid sid backing page s0 mpid mid args spid tid msg sidx :
  2 * QUEUED_MESSAGE_SIZE <= range_size backing ->
  Server_init None pid sid backing page (mkMsgRange 0 0) = Some (Ok s0) ->
  page 0%nat = QM_ScalarMessage mpid 0 mid args -> page 1%nat = QM_Empty ->
  exists i s1 s2, queue_message spid tid (Scalar msg) None s0 = Some (Ok i, s1) /\
    take_next_message sidx s1 =
      Some (Some (mkEnvelope (sender_token sidx 0 (Some mpid)) (Scalar (scalar_body mid args))), s2) /\
    take_next_message sidx s2 = Some (None, s2).
Proof.
  intros Hsize Hinit H0 H1. unfold Server_init in Hinit.
  assert (Hn : (2 <= Z.to_nat (range_size backing / QUEUED_MESSAGE_SIZE))%nat).
  { assert (0 < QUEUED_MESSAGE_SIZE) by (by vm_compute).
    pose proof (Z.div_le_lower_bound (range_size backing) QUEUED_MESSAGE_SIZE 2). lia. }
  destruct (Z.to_nat (range_size backing / QUEUED_MESSAGE_SIZE)) as [|[|n]]; [lia..|].
  cbn [seq fmap list_fmap] in Hinit. rewrite H0, H1 in Hinit. cbn in Hinit. injection Hinit as <-.
  unfold queue_message, bind_try, bind. cbn. do 3 eexists. split; [reflexivity|]. cbn. split; reflexivity.
Qed.

Lemma stale_page_delivers_witness :
  exists i s1 s2, queue_message 2 1 (demo_msg 7) None
      (mkServer demo_sid 4 0 0 0 0 0 2 [QM_ScalarMessage 9 0 66 (1, 2, 3, 4); QM_Empty] 0
         MessagePermissions_default) = Some (Ok i, s1) /\
    take_next_message 0 s1 =
      Some (Some (mkEnvelope (sender_token 0 0 (Some 9)) (Scalar (scalar_body 66 (1, 2, 3, 4)))), s2) /\
    take_next_message 0 s2 = Some (None, s2).
Proof.
  apply (stale_page_delivers 4 demo_sid (mkRange 0 (2 * QUEUED_MESSAGE_SIZE))
           (fun i => if (i =? 0)%nat then QM_ScalarMessage 9 0 66 (1, 2, 3, 4) else QM_Empty));
    [by vm_compute|by vm_compute|done|done].
Defined.

(** A queue of at most 255 slots never panics, whatever the callers do. *)
Theorem server_no_panic sid pid addr0 n perms ops :
  (0 < n <= 255)%nat -> forallb srv_op_ok ops = true ->
  srv_run ops (fresh_server sid pid addr0 n perms, mkLog [] []) <> None.
Proof.
  intros Hn Hops.
  pose proof (srv_run_inv ops (fresh_server sid pid addr0 n perms) (mkLog [] []) Hops) as H.
  destruct (srv_run _ _); [done|]. cbn in H. rewrite length_replicate in H.
  assert (log_inv (fresh_server sid pid addr0 n perms) (mkLog [] []))
    by (exists []; split; [apply fresh_inv; lia|done]). specialize (H ltac:(done)). lia.
Qed.

Lemma server_no_panic_witness :
  srv_run demo_srv_ops (demo_server 4, mkLog [] []) <> None.
Proof. apply (server_no_panic demo_sid 4 0 4 MessagePermissions_default demo_srv_ops); [lia|reflexivity]. Defined.

Lemma sends_run sid pid addr0 n perms spid tid msg addr k :
  (256 <= n)%nat -> (k <= 255)%nat ->
  Message_ok msg = true -> (is_blocking msg && has_memory msg = true -> is_Some addr) ->
  exists s l idxs, srv_run (replicate k (SrvSend spid tid msg addr)) (fresh_server sid pid addr0 n perms, mkLog [] []) = Some (s, l) /\
    server_inv s idxs /\ length idxs = k /\ (empty_count s = n - k)%nat.
Proof.
  intros Hn Hk Hmsg Haddr. induction k as [|k IH].
  - do 3 eexists. split; [done|]. split; [apply fresh_inv; lia|]. cbn. split; [done|lia].
  - destruct IH as (s & l & idxs & Hrun & Hinv & Hlen & Hec); [lia|].
    rewrite replicate_S_end, srv_run_app, Hrun. cbn [srv_run srv_step].
    destruct (find_empty_slot_run s idxs Hinv) as [(i & Hi & Hil & Hf)|[? _]]; [|lia].
    destruct (queued_entry_ok spid tid (tail_generation s) msg addr Hmsg Haddr) as [entry He].
    rewrite (queue_message_run s idxs _ _ _ _ i entry) by done.
    destruct (Nat.eqb_spec (length idxs) 255) as [|_]; [lia|].
    destruct (queued_entry_view _ _ _ _ _ _ Hmsg He) as [Hg _].
    destruct (stored_inv s idxs i entry) as [Hs _]; [done|lia|done|done|].
    do 3 eexists. split; [done|]. split; [exact Hs|]. rewrite length_app. cbn. lia.
Qed.

(** With the 256 slots that a 16 KiB page holds, 255 sends that nobody
    receives are accepted and the 256th, for which a slot is still free,
    panics the kernel: the 8-bit tail generation has wrapped onto the head
    generation and trips [assert_ne!]. *)
Theorem server_256th_message_panics sid pid addr0 perms spid tid msg addr :
  Message_ok msg = true -> (is_blocking msg && has_memory msg = true -> is_Some addr) ->
  let slots := Z.to_nat (16384 / QUEUED_MESSAGE_SIZE) in
  let send k := srv_run (replicate k (SrvSend spid tid msg addr))
                  (fresh_server sid pid addr0 slots perms, mkLog [] []) in
  (exists s l, send 255%nat = Some (s, l) /\ is_queue_full s = false) /\ send 256%nat = None.
Proof.
  intros Hmsg Haddr slots send. subst send. cbv beta.
  destruct (sends_run sid pid addr0 slots perms spid tid msg addr 255) as (s & l & idxs & Hrun & Hinv & Hlen & Hec);
    [by vm_compute; lia|lia|done|done|].
  assert (Hpos : empty_count s = 1%nat) by (rewrite Hec; by vm_compute).
  split; [exists s, l; split; [done|]; unfold is_queue_full; by rewrite Hpos|].
  change 256%nat with (S 255). rewrite replicate_S_end, srv_run_app, Hrun. cbn [srv_run srv_step].
  destruct (find_empty_slot_run s idxs Hinv) as [(i & Hi & Hil & Hf)|[? _]]; [|lia].
  destruct (queued_entry_ok spid tid (tail_generation s) msg addr Hmsg Haddr) as [entry He].
  rewrite (queue_message_run s idxs _ _ _ _ i entry) by done. by rewrite Hlen.
Qed.

Lemma server_256th_message_panics_witness :
  srv_run (replicate 256 (SrvSend 2 1 (demo_msg 5) None)) (demo_server 256, mkLog [] []) = None.
Proof.
  apply (server_256th_message_panics demo_sid 4 0 MessagePermissions_default 2 1 (demo_msg 5) None);
    [reflexivity|done].
Defined.

(** *** Sender tokens *)

Definition SenderID_ok (v : SenderID) : bool :=
  fits 8 (snd_sidx v) && fits 16 (snd_idx v) &&
  match snd_pid v with Some p => pid_ok p | None => true end.

(** The token as a sum of its three fields. *)
Lemma SenderID_to_usize_sum v :
  SenderID_ok v = true ->
  SenderID_to_usize v = (get_or_0 (snd_pid v) * 2 ^ 8 + snd_sidx v) * 2 ^ 16 + snd_idx v /\
  0 <= get_or_0 (snd_pid v) < 256.
Proof.
  destruct v as [sidx idx pid]. unfold SenderID_ok, SenderID_to_usize. cbn [snd_sidx snd_idx snd_pid].
  rewrite !andb_true_iff. intros [[Hs%fits_spec Hi%fits_spec] Hp].
  assert (Hpid : 0 <= get_or_0 pid < 256).
  { unfold get_or_0. destruct pid as [p|]; [|lia]. unfold pid_ok, U8_MAX in Hp.
    rewrite andb_true_iff, !Z.leb_le in Hp. lia. }
  split; [|done]. change 65535 with (Z.ones 16). rewrite land_ones_small by lia.
  replace (Z.land (Z.shiftl sidx 16) 16711680) with (Z.shiftl sidx 16).
  2: { change 16711680 with (Z.shiftl (Z.ones 8) 16). rewrite <- Z.shiftl_land, land_ones_small by lia. done. }
  change 24 with (8 + 16). rewrite <- Z.shiftl_shiftl, <- Z.shiftl_lor by lia.
  rewrite (lor_shiftl_add _ idx), (lor_shiftl_add _ sidx) by lia. done.
Qed.

(** A sender token carries its server index, slot index and PID through the
    word handed to user space: decoding the encoding is the identity for
    every in-range token. *)
Theorem sender_token_roundtrip v :
  SenderID_ok v = true -> SenderID_from_usize (SenderID_to_usize v) = v.
Proof.
  intros Hok. destruct (SenderID_to_usize_sum v Hok) as [E Hpid]. rewrite E. clear E.
  destruct v as [sidx idx pid]. unfold SenderID_ok in Hok. cbn [snd_sidx snd_idx snd_pid] in *.
  rewrite !andb_true_iff in Hok. destruct Hok as [[Hs%fits_spec Hi%fits_spec] Hp].
  unfold SenderID_from_usize. set (x := (_ * 2 ^ 16 + idx)).
  assert (H16 : Z.shiftr x 16 = get_or_0 pid * 2 ^ 8 + sidx)
    by (rewrite Z.shiftr_div_pow2 by lia; symmetry; apply Z.div_unique with idx; lia).
  assert (H24 : Z.shiftr x 24 = get_or_0 pid).
  { change 24 with (16 + 8). rewrite <- Z.shiftr_shiftr, H16, Z.shiftr_div_pow2 by lia.
    symmetry. apply Z.div_unique with sidx; lia. }
  assert (Hmod : Z.land x 65535 = idx).
  { change 65535 with (Z.ones 16). rewrite Z.land_ones by lia. symmetry.
    apply Z.mod_unique with (get_or_0 pid * 2 ^ 8 + sidx); lia. }
  rewrite H16, H24, Hmod. f_equal.
  - change 255 with (Z.ones 8). rewrite Z.land_ones by lia. symmetry.
    apply Z.mod_unique with (get_or_0 pid); lia.
  - destruct pid as [p|]; [|done]. by apply PID_new_ok.
Qed.

Lemma sender_token_roundtrip_witness :
  SenderID_from_usize (SenderID_to_usize (mkSenderID 127 255 (Some 63))) = mkSenderID 127 255 (Some 63).
Proof. apply (sender_token_roundtrip (mkSenderID 127 255 (Some 63))). reflexivity. Defined.

(** *** Permissions *)

(** What the configured mask and list allow, [allow_all] apart. *)
Definition explicitly_permitted (p : MessagePermissions) (id : MessageId) : bool :=
  if id <? 64 then Z.testbit (perm_mask p) id
  else existsb (fun r => MsgRange_contains r id) (perm_list p).

Lemma is_permitted_explicit p id :
  0 <= id -> is_permitted p id = allow_all p || explicitly_permitted p id.
Proof.
  intros Hid. unfold is_permitted, explicitly_permitted. destruct (allow_all p); [done|].
  rewrite land_bit_testbit by done. done.
Qed.

Lemma mask_fold_testbit l m id :
  0 <= id -> (forall x, x ∈ l -> 0 <= x) ->
  Z.testbit (fold_left (fun m id => Z.lor m (Z.shiftl 1 id)) l m) id =
  Z.testbit m id || existsb (Z.eqb id) l.
Proof.
  intros Hid. revert m. induction l as [|x l IH]; intros m Hl; cbn [fold_left existsb]; [by rewrite orb_false_r|].
  rewrite IH by set_solver. rewrite Z.lor_spec, Z.shiftl_1_l, Z.pow2_bits_eqb by (apply Hl; set_solver).
  rewrite (Z.eqb_sym x id). by rewrite orb_assoc.
Qed.

Lemma mask_add_testbit m r id :
  0 <= mr_start r -> 0 <= id < 64 ->
  Z.testbit (mask_add m r) id = Z.testbit m id || MsgRange_contains r id.
Proof.
  intros Hs Hid. unfold mask_add. rewrite mask_fold_testbit; [|lia|].
  2: { intros x Hx%elem_of_seqZ. lia. }
  f_equal. apply eq_true_iff_eq. unfold MsgRange_contains.
  rewrite existsb_exists, andb_true_iff, Z.leb_le, Z.ltb_lt. split.
  - intros (x & Hx%list_elem_of_In%elem_of_seqZ & ->%Z.eqb_eq). lia.
  - intros ?. exists id. rewrite Z.eqb_refl. split; [|done]. apply list_elem_of_In, elem_of_seqZ. lia.
Qed.

(** Adding a range to the list slots adds exactly its members. *)
Lemma list_add_exact r l l' id :
  MsgRange_is_empty r = false -> list_add r l = Some l' ->
  existsb (fun s => MsgRange_contains s id) l' =
  existsb (fun s => MsgRange_contains s id) l || MsgRange_contains r id.
Proof.
  intros Hr. revert l'. induction l as [|[a b] l IH]; intros l'; cbn [list_add mr_start mr_end existsb]; [done|].
  destruct r as [c d]. unfold MsgRange_is_empty, MsgRange_contains in *. cbn [mr_start mr_end] in *.
  apply negb_false_iff, Z.ltb_lt in Hr.
  destruct ((a <=? d) && (c <=? b)) eqn:E.
  - intros [= <-]. cbn [existsb mr_start mr_end]. rewrite andb_true_iff, !Z.leb_le in E.
    rewrite (orb_comm _ ((c <=? id) && _)), orb_assoc. f_equal. apply eq_true_iff_eq.
    rewrite orb_true_iff, !andb_true_iff, !Z.leb_le, !Z.ltb_lt. lia.
  - destruct (negb (a <? b)) eqn:Eb.
    + intros [= <-]. cbn [existsb mr_start mr_end]. apply negb_true_iff, Z.ltb_ge in Eb.
      replace ((a <=? id) && (id <? b)) with false; [by rewrite orb_comm|].
      symmetry. apply andb_false_iff. rewrite Z.leb_gt, Z.ltb_ge. lia.
    + destruct (list_add _ l) as [l1|]; [|done]. cbn. intros [= <-]. cbn [existsb mr_start mr_end].
      rewrite (IH l1 eq_refl). by rewrite orb_assoc.
Qed.

(** Granting permissions: [add] turns the allow-all default off and, when it
    returns [Ok], the permitted messages are exactly those configured before
    and those of the range.  When the four list slots are taken it returns
    [OutOfMemory] with only the part below 64 granted; an empty range is
    refused with nothing changed. *)
Theorem permissions_add_exact p r id :
  0 <= mr_start r -> 0 <= id ->
  exists res p', permissions_add r p = Some (res, p') /\
  match res with
  | Ok _ => is_permitted p' id = explicitly_permitted p id || MsgRange_contains r id
  | Err OutOfMemory =>
      is_permitted p' id = explicitly_permitted p id || (MsgRange_contains r id && (id <? 64))
  | Err e => e = InvalidArguments /\ MsgRange_is_empty r = true /\ p' = p
  end.
Proof.
  intros Hs Hid. unfold permissions_add. destruct (MsgRange_is_empty r) eqn:He; [by do 2 eexists|].
  assert (Hlow : id < 64 -> Z.testbit (mask_add (perm_mask p) r) id =
            Z.testbit (perm_mask p) id || MsgRange_contains r id)
    by (intros; apply mask_add_testbit; lia).
  unfold bind, modify, gets, ret.
  destruct (Z.leb_spec (mr_end r) 64) as [Hend|Hend];
    [|cbn [perm_list]; destruct (list_add r (perm_list p)) as [l'|] eqn:Hl];
    (do 2 eexists; split; [reflexivity|]); cbv beta iota;
    rewrite is_permitted_explicit by done; cbn [allow_all orb];
    unfold explicitly_permitted; cbn [perm_mask perm_list];
    destruct (Z.ltb_spec id 64) as [Hi|Hi]; rewrite ?andb_true_r, ?andb_false_r, ?orb_false_r; auto.
  - replace (MsgRange_contains r id) with false; [by rewrite orb_false_r|].
    symmetry. apply andb_false_iff. right. apply Z.ltb_ge. lia.
  - by apply list_add_exact.
Qed.

Lemma permissions_add_exact_witness :
  exists res p', permissions_add (mkMsgRange 60 70) MessagePermissions_default = Some (res, p') /\
  match res with
  | Ok _ => is_permitted p' 69 = explicitly_permitted MessagePermissions_default 69 || MsgRange_contains (mkMsgRange 60 70) 69
  | Err OutOfMemory => is_permitted p' 69 = explicitly_permitted MessagePermissions_default 69 || (MsgRange_contains (mkMsgRange 60 70) 69 && (69 <? 64))
  | Err e => e = InvalidArguments /\ MsgRange_is_empty (mkMsgRange 60 70) = true /\ p' = MessagePermissions_default
  end.
Proof. apply (permissions_add_exact MessagePermissions_default (mkMsgRange 60 70) 69); cbn; lia. Defined.

(** *** Replies *)

(** The token of a delivered message names its slot. *)
Lemma sender_token_slot sidx i p :
  (sidx < 256)%nat -> Z.of_nat i < 65536 -> match p with Some p => pid_ok p = true | None => True end ->
  snd_idx (SenderID_from_usize (sender_token sidx i p)) = Z.of_nat i.
Proof.
  intros Hs Hi Hp. unfold sender_token. set (v := mkSenderID _ _ _).
  assert (Hok : SenderID_ok v = true).
  { unfold SenderID_ok, v. cbn. rewrite !andb_true_iff, !fits_spec.
    change (2 ^ 8) with 256. change (2 ^ 16) with 65536. destruct p; repeat split; try done; lia. }
  destruct (SenderID_to_usize_sum v Hok) as [E Hpid]. rewrite E. cbn [snd_idx SenderID_from_usize].
  change 65535 with (Z.ones 16). rewrite Z.land_ones by lia. symmetry.
  apply Z.mod_unique with (get_or_0 (snd_pid v) * 2 ^ 8 + snd_sidx v); unfold v; cbn [snd_idx]; lia.
Qed.

(** A blocked sender gets its own reply, once: when the oldest pending message
    is a mutable lend, the server receives it with the lent range and a token;
    replying with the slot of that token and that range yields the sender's
    process, thread and original address, and a second reply finds nothing.
    A reply that names another range is refused and leaves the queue as it is. *)
Theorem reply_reaches_sender s idxs i sidx pid tid g id ca sa sz o v :
  server_inv s (i :: idxs) -> (sidx < 256)%nat -> Z.of_nat (length (queue s)) <= 65536 -> pid_ok pid = true ->
  queue s !! i = Some (QM_MemoryMessageRWLend pid tid g id ca sa sz o v) ->
  exists env s1, take_next_message sidx s = Some (Some env, s1) /\
    env_body env = MutableBorrow (memory_body id sa sz o v) /\
    let slot := Z.to_nat (snd_idx (SenderID_from_usize (env_sender env))) in
    (exists s2, take_waiting_message slot (Some (mkRange sa sz)) s1 =
                  Some (Ok (WM_BorrowedMemory pid tid ca), s2) /\
                take_waiting_message slot (Some (mkRange sa sz)) s2 = Some (Ok WM_None, s2)) /\
    (forall r, r <> mkRange sa sz -> take_waiting_message slot (Some r) s1 = Some (Err BadAddress, s1)).
Proof.
  intros Hinv Hsidx Hlen Hpid Hm. pose proof (lookup_lt_Some _ _ _ Hm) as Hil.
  destruct (take_next_run s idxs i sidx Hinv) as (m & p & b & r & Hm' & Hd & Hrun).
  rewrite Hm in Hm'. injection Hm' as <-. injection Hd as <- <- <-.
  do 2 eexists. split; [exact Hrun|]. split; [done|]. cbn [env_sender].
  rewrite sender_token_slot, Nat2Z.id by (done || lia). cbv zeta.
  unfold take_waiting_message, bind, gets, modify, ret, taken. cbn [queue set_head_generation set_queue].
  rewrite list_lookup_insert_eq by done. cbn [waiting_response]. split.
  - unfold buf_mismatch. cbn [range_addr range_size]. rewrite !Z.eqb_refl. cbn [negb orb].
    eexists. split; [reflexivity|]. cbn [queue set_tail set_empty_count set_queue].
    rewrite list_lookup_insert_eq; [done|]. cbn [queue set_head_generation set_queue]. by rewrite length_insert.
  - intros [a z] Hne. unfold buf_mismatch. cbn [range_addr range_size].
    destruct (Z.eqb_spec sa a) as [->|]; [|done]. destruct (Z.eqb_spec sz z) as [->|]; [done|done].
Qed.

Definition demo_lent : Server :=
  match queue_message 3 2 demo_lend (Some 32768) (demo_server 4) with Some (_, s) => s | None => demo_server 4 end.

Lemma demo_lent_inv : server_inv demo_lent [0%nat].
Proof. apply (stored_inv (demo_server 4) []); [apply fresh_inv; lia|cbn; lia|done|done]. Qed.

Lemma reply_reaches_sender_witness :
  exists env s1, take_next_message 7 demo_lent = Some (Some env, s1) /\
    env_body env = MutableBorrow (memory_body 9 16384 16384 0 8) /\
    let slot := Z.to_nat (snd_idx (SenderID_from_usize (env_sender env))) in
    (exists s2, take_waiting_message slot (Some (mkRange 16384 16384)) s1 =
                  Some (Ok (WM_BorrowedMemory 3 2 32768), s2) /\
                take_waiting_message slot (Some (mkRange 16384 16384)) s2 = Some (Ok WM_None, s2)) /\
    (forall r, r <> mkRange 16384 16384 -> take_waiting_message slot (Some r) s1 = Some (Err BadAddress, s1)).
Proof.
  apply (reply_reaches_sender demo_lent [] 0 7 3 2 0 9 32768 16384 16384 0 8 demo_lent_inv);
    [lia|vm_compute; discriminate|reflexivity|reflexivity].
Defined.

(** After a process terminates its messages are discarded: no reply of the
    server can name a thread of that process any more, and the memory it had
    lent is handed to [ForgetMemory] instead of being returned to it. *)
Theorem discard_forgets_process pid s s' i buf r s'' :
  discard_messages_for_pid pid s = Some (tt, s') -> take_waiting_message i buf s' = Some (Ok r, s'') ->
  match r with
  | WM_BorrowedMemory p _ _ | WM_ScalarMessage p _ => p <> pid
  | WM_ForgetMemory range =>
      exists m, queue s !! i = Some m /\
        match m with
        | QM_WaitingReturnMemory p _ sa _ sz => p = pid /\ range = mkRange sa sz
        | QM_WaitingForget sa sz => range = mkRange sa sz
        | _ => False
        end
  | _ => True
  end.
Proof.
  intros [= <-]. unfold take_waiting_message, bind, gets, modify, ret. cbn [queue set_queue].
  rewrite list_lookup_fmap. destruct (queue s !! i) as [m|] eqn:Hm; [|done]. cbn [fmap option_fmap option_map].
  assert (H : match waiting_response (discard_entry pid m) buf with
    | inr (WM_BorrowedMemory p _ _) | inr (WM_ScalarMessage p _) => p <> pid
    | inr (WM_ForgetMemory range) =>
        match m with
        | QM_WaitingReturnMemory p _ sa _ sz => p = pid /\ range = mkRange sa sz
        | QM_WaitingForget sa sz => range = mkRange sa sz
        | _ => False
        end
    | inl (Ok w) => w = WM_None
    | _ => True end).
  { destruct m; cbn; try done;
      try (destruct (Z.eqb_spec pid0 pid) as [->|]; cbn; try done);
      destruct (buf_mismatch _ _ buf); done. }
  destruct (waiting_response (discard_entry pid m) buf) as [[w|e]|w].
  - intros [= -> <-]. by subst r.
  - done.
  - intros [= <- <-]. destruct w; try done. by exists m.
Qed.

Lemma discard_forgets_process_witness :
  exists s1 s2 s3, take_next_message 7 demo_lent = Some (Some (mkEnvelope (sender_token 7 0 (Some 3)) demo_lend), s1) /\
    discard_messages_for_pid 3 s1 = Some (tt, s2) /\
    take_waiting_message 0 None s2 = Some (Ok (WM_ForgetMemory (mkRange 16384 16384)), s3) /\
    exists m, queue s1 !! 0%nat = Some m /\
        match m with
        | QM_WaitingReturnMemory p _ sa _ sz => p = 3 /\ mkRange 16384 16384 = mkRange sa sz
        | QM_WaitingForget sa sz => mkRange 16384 16384 = mkRange sa sz
        | _ => False
        end.
Proof.
  do 3 eexists. split; [reflexivity|]. split; [reflexivity|]. split; [reflexivity|].
  refine (discard_forgets_process 3 _ _ 0 None (WM_ForgetMemory (mkRange 16384 16384)) _ _ _); reflexivity.
Defined.

(** *** Waiting threads *)

Lemma land_pow_eqb x n : 0 <= n -> (Z.land x (Z.shiftl 1 n) =? Z.shiftl 1 n) = Z.testbit x n.
Proof.
  intros Hn. rewrite <- (land_bit_testbit x n Hn). apply eq_true_iff_eq.
  rewrite negb_true_iff, Z.eqb_eq, Z.eqb_neq. rewrite Z.shiftl_1_l. split.
  - intros ->. lia.
  - intros H. destruct (Z.testbit x n) eqn:E.
    + apply Z.bits_inj'. intros m Hm. rewrite Z.land_spec, Z.pow2_bits_eqb by done.
      destruct (Z.eqb_spec n m) as [<-|]; [by rewrite E|apply andb_false_r].
    + exfalso. apply H. apply Z.bits_inj'. intros m Hm. rewrite Z.land_spec, Z.pow2_bits_eqb, Z.bits_0 by done.
      destruct (Z.eqb_spec n m) as [<-|]; [by rewrite E|apply andb_false_r].
Qed.

Lemma take_thread_loop_run fuel n s :
  0 <= n -> n + Z.of_nat fuel = 64 ->
  (exists t, n <= t < 64 /\ Z.testbit (ready_threads s) t = true) ->
  exists t, n <= t < 64 /\ Z.testbit (ready_threads s) t = true /\
    (forall u, n <= u < t -> Z.testbit (ready_threads s) u = false) /\
    take_thread_loop fuel n s =
      Some (Some t, set_ready_threads (Z.ldiff (ready_threads s) (Z.shiftl 1 t)) s).
Proof.
  revert n. induction fuel as [|fuel IH]; intros n Hn Hf (t & Ht & Hb); [lia|].
  cbn [take_thread_loop]. unfold bind, gets, modify, ret. rewrite land_pow_eqb by done.
  destruct (Z.testbit (ready_threads s) n) eqn:En.
  - exists n. repeat split; try done; lia.
  - destruct (IH (n + 1)) as (t' & Ht' & Hb' & Hlow & Hrun); [lia|lia| |].
    + exists t. destruct (Z.eq_dec n t) as [->|]; [congruence|]. split; [lia|done].
    + exists t'. repeat split; try done; [lia|lia|]. intros u Hu.
      destruct (Z.eq_dec n u) as [->|]; [done|]. apply Hlow. lia.
Qed.

(** Choosing a waiting thread: with a 64-bit mask, [take_available_thread]
    never panics; it answers [None] exactly when no thread waits, and
    otherwise the lowest waiting thread, whose bit alone is cleared. *)
Theorem take_available_thread_lowest s :
  fits 64 (ready_threads s) = true ->
  exists r s', take_available_thread s = Some (r, s') /\
  match r with
  | None => ready_threads s = 0 /\ s' = s
  | Some t => 0 <= t < 64 /\ Z.testbit (ready_threads s) t = true /\
      (forall u, 0 <= u < t -> Z.testbit (ready_threads s) u = false) /\
      (forall u, 0 <= u -> Z.testbit (ready_threads s') u = Z.testbit (ready_threads s) u && negb (u =? t))
  end.
Proof.
  intros Hfit%fits_spec. unfold take_available_thread. destruct (Z.eqb_spec (ready_threads s) 0) as [E|E].
  { exists None, s. done. }
  assert (Hex : exists t, 0 <= t < 64 /\ Z.testbit (ready_threads s) t = true).
  { exists (Z.log2 (ready_threads s)). split; [|apply Z.bit_log2; lia]. split; [apply Z.log2_nonneg|].
    apply Z.log2_lt_pow2; lia. }
  destruct (take_thread_loop_run 64 0 s) as (t & Ht & Hb & Hlow & Hrun); [lia|lia|done|].
  exists (Some t), (set_ready_threads (Z.ldiff (ready_threads s) (Z.shiftl 1 t)) s). split; [done|]. repeat split; try done; [lia|lia|].
  intros u Hu. cbn. rewrite Z.ldiff_spec, Z.shiftl_1_l, Z.pow2_bits_eqb, (Z.eqb_sym t u) by lia. done.
Qed.

Lemma take_available_thread_lowest_witness :
  exists r s', take_available_thread (set_ready_threads 40 (demo_server 4)) = Some (r, s') /\
  match r with
  | None => 40 = 0 /\ s' = set_ready_threads 40 (demo_server 4)
  | Some t => 0 <= t < 64 /\ Z.testbit 40 t = true /\
      (forall u, 0 <= u < t -> Z.testbit 40 u = false) /\
      (forall u, 0 <= u -> Z.testbit (ready_threads s') u = Z.testbit 40 u && negb (u =? t))
  end.
Proof. apply (take_available_thread_lowest (set_ready_threads 40 (demo_server 4))). reflexivity. Defined.
