(* ===== verification/Memory.v ===== *)
(** * The physical page allocator

    Models the frame bookkeeping of [xous/kernel/src/mem.rs] ([MemoryManager])
    and the platform constants of [beetos/src/lib.rs]: the owner table
    [allocations], the bitmaps of free dirty and free zeroed pages, the search
    hints, the free page count and the low-memory state.

    The slice [allocations: &mut [Option<PID>]] is a finite map from page index
    to owner together with its length; the [BitArray]s are finite sets of page
    indices.  Slicing or indexing out of range is a panic, as in the source.
    [page_zeroer::start] is an empty function and has no counterpart.  Broadcasts
    of the low-memory event are recorded in [mm_events].

    The platform (base and size of the RAM) is a type class: the theorems hold
    for each of the three boards the repository builds for. *)

From S2P Require Import Prelude Abi.
From Stdlib Require Import ZArith Lia Bool.
From stdpp Require Import gmap fin_sets.
Open Scope Z_scope.

(** ** Platform *)

Definition PAGE_SIZE : Z := 16384.

Class Platform := {
  DRAM_BASE : Z;
  RAM_PAGES : Z;
  plat_base : 0 <= DRAM_BASE /\ DRAM_BASE mod PAGE_SIZE = 0;
  plat_pages : 4096 <= RAM_PAGES;
  plat_bound : DRAM_BASE + RAM_PAGES * PAGE_SIZE <= 2 ^ 40 }.

Definition RAM_SIZE_qemu_virt : Z := 1024 * 1024 * 1024.
Definition RAM_SIZE_8G : Z := 8 * 1024 * 1024 * 1024.

#[export] Instance qemu_virt : Platform.
Proof.
  refine {| DRAM_BASE := 1073741824; RAM_PAGES := RAM_SIZE_qemu_virt / PAGE_SIZE |};
    [split; [lia|reflexivity]|by vm_compute|by vm_compute].
Defined.
Definition bcm2712 : Platform.
Proof.
  refine {| DRAM_BASE := 0; RAM_PAGES := RAM_SIZE_8G / PAGE_SIZE |};
    [split; [lia|reflexivity]|by vm_compute|by vm_compute].
Defined.
Definition apple_t8103 : Platform.
Proof.
  refine {| DRAM_BASE := 34359738368; RAM_PAGES := RAM_SIZE_8G / PAGE_SIZE |};
    [split; [lia|reflexivity]|by vm_compute|by vm_compute].
Defined.

Section WithPlatform.
Context {P : Platform}.

Definition DRAM_END : Z := DRAM_BASE + RAM_PAGES * PAGE_SIZE.

Definition is_address_in_plaintext_dram (addr : Z) : bool := (DRAM_BASE <=? addr) && (addr <? DRAM_END).

(** Area at the end of the RAM reserved for large allocations. *)
Definition BIG_ALLOC_RESERVED_BYTES : Z := 40 * 1024 * 1024.
Definition FRAGMENTED_AREA_PAGES : Z := RAM_PAGES - BIG_ALLOC_RESERVED_BYTES / PAGE_SIZE.
Definition LOW_MEMORY_THRESHOLD : Z := 24 * 1024 * 1024.
Definition LOW_MEMORY_HYSTERESIS : Z := 1024 * 1024.

(** ** State *)

Record MemoryRangeExtra := mkExtra { mem_start : Z; mem_size : Z; mem_tag : Z }.

Record MemoryManager := mkMM {
  allocations : gmap Z PID;
  num_allocations : Z;
  extra_regions : list MemoryRangeExtra;
  free_pages_dirty : gset Z;
  next_dirty_page_hint : option Z;
  free_pages_zeroed : gset Z;
  next_zeroed_page_hint : Z;
  num_free_pages : Z;
  low_memory : bool;
  mm_events : list SystemEvent }.

Definition mm_default : MemoryManager := mkMM ∅ 0 (replicate 11 (mkExtra 0 0 0)) ∅ None ∅ 0 0 false [].

Definition set_allocations (a : gmap Z PID) (m : MemoryManager) : MemoryManager :=
  mkMM a (num_allocations m) (extra_regions m) (free_pages_dirty m) (next_dirty_page_hint m)
    (free_pages_zeroed m) (next_zeroed_page_hint m) (num_free_pages m) (low_memory m) (mm_events m).
Definition set_dirty (d : gset Z) (m : MemoryManager) : MemoryManager :=
  mkMM (allocations m) (num_allocations m) (extra_regions m) d (next_dirty_page_hint m)
    (free_pages_zeroed m) (next_zeroed_page_hint m) (num_free_pages m) (low_memory m) (mm_events m).
Definition set_dirty_hint (h : option Z) (m : MemoryManager) : MemoryManager :=
  mkMM (allocations m) (num_allocations m) (extra_regions m) (free_pages_dirty m) h
    (free_pages_zeroed m) (next_zeroed_page_hint m) (num_free_pages m) (low_memory m) (mm_events m).
Definition set_zeroed (z : gset Z) (m : MemoryManager) : MemoryManager :=
  mkMM (allocations m) (num_allocations m) (extra_regions m) (free_pages_dirty m) (next_dirty_page_hint m)
    z (next_zeroed_page_hint m) (num_free_pages m) (low_memory m) (mm_events m).
Definition set_zeroed_hint (h : Z) (m : MemoryManager) : MemoryManager :=
  mkMM (allocations m) (num_allocations m) (extra_regions m) (free_pages_dirty m) (next_dirty_page_hint m)
    (free_pages_zeroed m) h (num_free_pages m) (low_memory m) (mm_events m).
Definition set_free (n : Z) (low : bool) (ev : list SystemEvent) (m : MemoryManager) : MemoryManager :=
  mkMM (allocations m) (num_allocations m) (extra_regions m) (free_pages_dirty m) (next_dirty_page_hint m)
    (free_pages_zeroed m) (next_zeroed_page_hint m) n low ev.

(** ** Bitmap primitives *)

(** The pages [a .. a + n]. *)
Definition pages (a n : Z) : gset Z := list_to_set (seqZ a n).

(** [bitmap[a..b]] is a valid slice of a [BitArray] of [RAM_PAGES] bits. *)
Definition slice_ok (a b : Z) : bool := (0 <=? a) && (a <=? b) && (b <=? RAM_PAGES).

(** [bitmap[a..b].first_one()], as an absolute index. *)
Definition first_one (bits : gset Z) (a b : Z) : option Z :=
  find (fun i => bool_decide (i ∈ bits)) (zrange a (b - a)).

(** [bitmap[a..b].leading_ones()] *)
Fixpoint leading_ones (bits : gset Z) (l : list Z) : Z :=
  match l with
  | [] => 0
  | i :: l => if bool_decide (i ∈ bits) then 1 + leading_ones bits l else 0
  end.

(** [bitmap[i..i + n].all()] *)
Definition all_ones (bits : gset Z) (i n : Z) : bool :=
  forallb (fun j => bool_decide (j ∈ bits)) (seqZ i n).

(** ** Free page accounting

    When the number of free pages falls below the threshold, the code sends the
    event [LowFreeMemory] to all processes from within the allocator; here the
    event is recorded in [mm_events], and the waking of the processes that wait
    for it is not part of the allocator's step. *)

Definition subtract_free_pages (n : Z) : M MemoryManager unit :=
  free <- gets num_free_pages ;;
  _ <- assertb (n <=? free) ;;
  modify (fun m =>
    let free := num_free_pages m - n in
    if negb (low_memory m) && (free <? LOW_MEMORY_THRESHOLD / PAGE_SIZE)
    then set_free free true (LowFreeMemory :: mm_events m) m
    else set_free free (low_memory m) (mm_events m) m).

Definition add_free_pages (n : Z) : M MemoryManager unit :=
  free <- gets num_free_pages ;;
  _ <- assertb (free + n <=? RAM_PAGES) ;;
  modify (fun m =>
    let free := num_free_pages m + n in
    if low_memory m && ((LOW_MEMORY_THRESHOLD + LOW_MEMORY_HYSTERESIS) / PAGE_SIZE <=? free)
    then set_free free false (mm_events m) m
    else set_free free (low_memory m) (mm_events m) m).

Definition ram_free (m : MemoryManager) : Z := num_free_pages m * PAGE_SIZE.

(** [allocations[0..RAM_PAGES]] panics when the tracker is shorter. *)
Definition ram_used_by (m : MemoryManager) (pid : PID) : option Z :=
  if num_allocations m <? RAM_PAGES then None
  else Some (fold_left (fun acc i => if bool_decide (allocations m !! i = Some pid) then acc + PAGE_SIZE else acc)
               (zrange 0 RAM_PAGES) 0).

(** ** Initialisation *)

(** [init_from_bootstrap]: every page of the tracker without an owner is free
    and dirty. *)
Definition init_from_bootstrap (allocs : gmap Z PID) (len num_pages : Z) : M MemoryManager unit :=
  let scan_pages := Z.min num_pages RAM_PAGES in
  _ <- assertb ((0 <=? scan_pages) && (scan_pages <=? len)) ;;
  _ <- modify (fun m =>
         mkMM allocs len (extra_regions m) (free_pages_dirty m) (next_dirty_page_hint m)
           (free_pages_zeroed m) (next_zeroed_page_hint m) (num_free_pages m) (low_memory m) (mm_events m)) ;;
  modify (fun m =>
    fold_left (fun m offset =>
      if bool_decide (allocations m !! offset = None)
      then set_free (num_free_pages m + 1) (low_memory m) (mm_events m)
             (set_dirty ({[offset]} ∪ free_pages_dirty m) m)
      else m) (seqZ 0 scan_pages) m).

(** ** Allocation *)

(** The five searches of [alloc_single_page], in order; the bit found is
    cleared in the bitmap it was found in. *)
Definition pick_single : M MemoryManager (option (Z * bool)) :=
  hint <- gets next_zeroed_page_hint ;;
  z <- gets free_pages_zeroed ;;
  d <- gets free_pages_dirty ;;
  let take_zeroed idx := _ <- modify (set_zeroed (z ∖ {[idx]})) ;; ret (Some (idx, true)) in
  let take_dirty idx := _ <- modify (set_dirty (d ∖ {[idx]})) ;; ret (Some (idx, false)) in
  _ <- assertb (slice_ok hint FRAGMENTED_AREA_PAGES) ;;
  match first_one z hint FRAGMENTED_AREA_PAGES with
  | Some idx => take_zeroed idx
  | None =>
  _ <- assertb (slice_ok 0 hint) ;;
  match first_one z 0 hint with
  | Some idx => take_zeroed idx
  | None =>
  _ <- assertb (slice_ok 0 FRAGMENTED_AREA_PAGES) ;;
  match first_one d 0 FRAGMENTED_AREA_PAGES with
  | Some idx => take_dirty idx
  | None =>
  _ <- assertb (slice_ok FRAGMENTED_AREA_PAGES RAM_PAGES) ;;
  match first_one z FRAGMENTED_AREA_PAGES RAM_PAGES with
  | Some idx => take_zeroed idx
  | None =>
  match first_one d FRAGMENTED_AREA_PAGES RAM_PAGES with
  | Some idx => take_dirty idx
  | None => ret None
  end end end end end.

Definition alloc_single_page (pid : PID) : M MemoryManager (res (Z * bool) Error) :=
  pick <- pick_single ;;
  match pick with
  | None => ret (Err OutOfMemory)
  | Some (idx, zeroed) =>
      let phys := DRAM_BASE + idx * PAGE_SIZE in
      len <- gets num_allocations ;;
      _ <- assertb (idx <? len) ;;
      owner <- gets (fun m => allocations m !! idx) ;;
      (* the double allocation check *)
      _ <- assertb (bool_decide (owner = None)) ;;
      _ <- subtract_free_pages 1 ;;
      _ <- modify (fun m => set_allocations (<[idx := pid]> (allocations m)) m) ;;
      _ <- modify (set_zeroed_hint (if FRAGMENTED_AREA_PAGES <? idx + 1 then 0 else idx + 1)) ;;
      ret (Ok (phys, zeroed))
  end.

(** [allocations[idx..idx + n].fill(Some(pid))] *)
Definition fill_owner (pid : PID) (idx n : Z) (a : gmap Z PID) : gmap Z PID :=
  fold_left (fun a i => <[i := pid]> a) (seqZ idx n) a.

(** [alloc_range_aligned::<ALIGN_PAGES>] *)
Definition alloc_range_aligned (align_pages num_pages : Z) (pid : PID)
  : M MemoryManager (res (Z * bool) Error) :=
  _ <- assertb (num_pages <=? RAM_PAGES) ;;
  let end_ := RAM_PAGES - num_pages + 1 in
  _ <- assertb (slice_ok 0 end_) ;;
  z <- gets free_pages_zeroed ;;
  d <- gets free_pages_dirty ;;
  let fast := find (fun i => bool_decide (i ∈ z) && (Z.land i (align_pages - 1) =? 0) &&
                             all_ones z i num_pages) (reverse (zrange 0 end_)) in
  let slow := find (fun i => (i mod align_pages =? 0) && all_ones (z ∪ d) i num_pages)
                   (reverse (zrange 0 end_)) in
  let pick := match fast with
              | Some idx => Some (idx, true)
              | None => match slow with Some idx => Some (idx, false) | None => None end
              end in
  match pick with
  | None => ret (Err OutOfMemory)
  | Some (idx, zeroed) =>
      let block_start := DRAM_BASE + idx * PAGE_SIZE in
      _ <- subtract_free_pages num_pages ;;
      len <- gets num_allocations ;;
      _ <- assertb (idx + num_pages <=? len) ;;
      _ <- modify (fun m => set_allocations (fill_owner pid idx num_pages (allocations m)) m) ;;
      _ <- modify (fun m => set_zeroed (free_pages_zeroed m ∖ pages idx num_pages) m) ;;
      _ <- modify (fun m => if zeroed then m
                            else set_dirty (free_pages_dirty m ∖ pages idx num_pages) m) ;;
      ret (Ok (block_start, zeroed))
  end.

Definition alloc_range (num_pages : Z) (pid : PID) : M MemoryManager (res (Z * bool) Error) :=
  if num_pages =? 1 then alloc_single_page pid else alloc_range_aligned 1 num_pages pid.

(** ** Zeroing *)

Definition ZERO_CHUNK_PAGES : Z := 8 * 1024 * 1024 / PAGE_SIZE.

Definition take_dirty_pages : M MemoryManager (option (Z * Z)) :=
  hint <- gets next_dirty_page_hint ;;
  d <- gets free_pages_dirty ;;
  let start := match hint with Some h => h | None => 0 end in
  _ <- assertb (slice_ok start RAM_PAGES) ;;
  let offset := match first_one d start RAM_PAGES with
                | Some idx => Some idx
                | None => first_one d 0 start
                end in
  match offset with
  | None => _ <- modify (set_dirty_hint None) ;; ret None
  | Some offset =>
      let n := Z.min (leading_ones d (zrange offset (RAM_PAGES - offset))) ZERO_CHUNK_PAGES in
      _ <- modify (set_dirty (d ∖ pages offset n)) ;;
      _ <- modify (set_dirty_hint (Some ((offset + n) mod RAM_PAGES))) ;;
      ret (Some (DRAM_BASE + offset * PAGE_SIZE, n))
  end.

(** The search through [extra_regions]; [mem_start + mem_size] is a [u32] sum,
    whose overflow panics. *)
Fixpoint extra_offset (addr offset : Z) (l : list MemoryRangeExtra) : option (option Z) :=
  match l with
  | [] => Some None
  | region :: l =>
      if U32_MAX <? mem_start region + mem_size region then None
      else if (mem_start region <=? addr) && (addr <? mem_start region + mem_size region)
      then Some (Some (offset + (addr - mem_start region) / PAGE_SIZE))
      else extra_offset addr (offset + mem_size region / PAGE_SIZE) l
  end.

(** The encrypted and the plaintext DRAM are the same range on every platform,
    so the second test of the source is the first one again. *)
Definition address_to_allocation_offset (m : MemoryManager) (addr : Z) : option (option Z) :=
  if (DRAM_BASE <=? addr) && (addr <? DRAM_END) then Some (Some ((addr - DRAM_BASE) / PAGE_SIZE))
  else extra_offset addr RAM_PAGES (extra_regions m).

Definition set_pages_to_zeroed (phys n : Z) : M MemoryManager unit :=
  o <- gets (fun m => address_to_allocation_offset m phys) ;;
  o <- expect o ;;
  offset <- expect o ;;
  _ <- assertb (slice_ok offset (offset + n)) ;;
  modify (fun m => set_zeroed (free_pages_zeroed m ∪ pages offset n) m).

(** ** Ownership of single pages *)

Inductive ClaimReleaseMove := Claim | Release | MoveFrom (from : PID).

Definition SHARED_PERIPHERALS : list Z := [].

Definition shared_peripheral (pid : PID) (addr : Z) : bool :=
  existsb (fun base => negb (pid =? 1) &&
    ((addr =? base) || (addr =? base + PAGE_SIZE) || (addr =? base + 2 * PAGE_SIZE) ||
     (addr =? base + 3 * PAGE_SIZE))) SHARED_PERIPHERALS.

Definition claim_at (pid : PID) (offset : Z) : M MemoryManager (res unit Error) :=
  owner <- gets (fun m => allocations m !! offset) ;;
  match owner with
  | Some _ => ret (Err MemoryInUse)
  | None =>
      z <- gets free_pages_zeroed ;;
      d <- gets free_pages_dirty ;;
      let own := modify (fun m => set_allocations (<[offset := pid]> (allocations m)) m) in
      if offset <? RAM_PAGES then
        if bool_decide (offset ∈ z) then
          _ <- modify (set_zeroed (z ∖ {[offset]})) ;;
          _ <- subtract_free_pages 1 ;; _ <- own ;; ret (Ok tt)
        else if bool_decide (offset ∈ d) then
          _ <- modify (set_dirty (d ∖ {[offset]})) ;;
          _ <- subtract_free_pages 1 ;; _ <- own ;; ret (Ok tt)
        else ret (Err MemoryInUse)
      else _ <- own ;; ret (Ok tt)
  end.

Definition move_at (pid existing_pid : PID) (offset : Z) : M MemoryManager (res unit Error) :=
  owner <- gets (fun m => allocations m !! offset) ;;
  match owner with
  | None => ret (Err DoubleFree)
  | Some current_pid =>
      if negb (current_pid =? pid) && negb (existing_pid =? current_pid) then ret (Err MemoryInUse)
      else _ <- modify (fun m => set_allocations (<[offset := pid]> (allocations m)) m) ;; ret (Ok tt)
  end.

Definition release_at (pid : PID) (offset : Z) : M MemoryManager (res unit Error) :=
  owner <- gets (fun m => allocations m !! offset) ;;
  match owner with
  | None => ret (Err DoubleFree)
  | Some current_pid =>
      if negb (current_pid =? pid) then ret (Err MemoryInUse)
      else
        _ <- (if offset <? RAM_PAGES then
                _ <- modify (fun m => set_dirty ({[offset]} ∪ free_pages_dirty m) m) ;;
                _ <- modify (fun m => match next_dirty_page_hint m with
                                      | None => set_dirty_hint (Some offset) m | Some _ => m end) ;;
                add_free_pages 1
              else ret tt) ;;
        _ <- modify (fun m => set_allocations (delete offset (allocations m)) m) ;;
        ret (Ok tt)
  end.

(** [permitted] is [ss.process(pid)?.check_memory_permission(addr)]. *)
Definition claim_release_move (permitted : PID -> Z -> res unit Error) (addr : Z) (pid : PID)
    (action : ClaimReleaseMove) : M MemoryManager (res unit Error) :=
  if negb (Z.land addr (PAGE_SIZE - 1) =? 0) then ret (Err BadAlignment)
  else
    match permitted pid addr with
    | Err e => ret (Err e)
    | Ok _ =>
        if shared_peripheral pid addr then ret (Ok tt)
        else
          o <- gets (fun m => address_to_allocation_offset m addr) ;;
          o <- expect o ;;
          match o with
          | None => ret (Err BadAddress)
          | Some offset =>
              len <- gets num_allocations ;;
              _ <- assertb (offset <? len) ;;
              match action with
              | Claim => claim_at pid offset
              | MoveFrom existing_pid => move_at pid existing_pid offset
              | Release => release_at pid offset
              end
          end
    end.

Definition page_owner (m : MemoryManager) (addr : Z) : option (option PID) :=
  match address_to_allocation_offset m addr with
  | None => None
  | Some None => Some None
  | Some (Some offset) => if offset <? num_allocations m then Some (allocations m !! offset) else None
  end.

(** The loop of [release_all_memory_for_process]. *)
Fixpoint release_all_loop (pid : PID) (l : list Z) : M MemoryManager unit :=
  match l with
  | [] => ret tt
  | idx :: l =>
      owner <- gets (fun m => allocations m !! idx) ;;
      _ <- (if bool_decide (owner = Some pid) then
              _ <- modify (fun m => set_allocations (delete idx (allocations m)) m) ;;
              if idx <? RAM_PAGES then
                _ <- modify (fun m => set_dirty ({[idx]} ∪ free_pages_dirty m) m) ;;
                add_free_pages 1
              else ret tt
            else ret tt) ;;
      release_all_loop pid l
  end.

Definition release_all_memory_for_process (pid : PID) : M MemoryManager unit :=
  len <- gets num_allocations ;; release_all_loop pid (seqZ 0 len).

(** ** Invariant *)

(** The RAM pages the owner table covers. *)
Definition limit (m : MemoryManager) : Z := Z.min (num_allocations m) RAM_PAGES.

(** The owned RAM pages of an owner table. *)
Definition owned_ram (a : gmap Z PID) : gmap Z PID := filter (fun kv => kv.1 < RAM_PAGES) a.

(** A page is in at most one bitmap, a page in a bitmap has no owner, and
    [num_free_pages] counts the RAM pages without owner. *)
Record mm_inv (m : MemoryManager) : Prop := {
  inv_len : 0 <= num_allocations m;
  inv_dom : forall i p, allocations m !! i = Some p -> 0 <= i < num_allocations m;
  inv_free : forall i, i ∈ free_pages_zeroed m ∪ free_pages_dirty m ->
    0 <= i < limit m /\ allocations m !! i = None;
  inv_disj : free_pages_zeroed m ## free_pages_dirty m;
  inv_count : num_free_pages m + Z.of_nat (size (owned_ram (allocations m))) = limit m;
  inv_zhint : 0 <= next_zeroed_page_hint m <= FRAGMENTED_AREA_PAGES;
  inv_dhint : forall h, next_dirty_page_hint m = Some h -> 0 <= h < RAM_PAGES }.

Lemma FRAG_bounds : 0 <= FRAGMENTED_AREA_PAGES <= RAM_PAGES.
Proof.
  unfold FRAGMENTED_AREA_PAGES. pose proof plat_pages.
  replace (BIG_ALLOC_RESERVED_BYTES / PAGE_SIZE) with 2560 by done. lia.
Qed.

Lemma elem_of_pages i a n : i ∈ pages a n <-> a <= i < a + n.
Proof. unfold pages. rewrite elem_of_list_to_set, elem_of_seqZ. done. Qed.

Lemma pages_1 a : pages a 1 = {[a]}.
Proof. apply set_eq. intros i. rewrite elem_of_pages, elem_of_singleton. lia. Qed.

(** *** Counting owned pages *)

Lemma owned_insert_new a i p :
  a !! i = None -> i < RAM_PAGES -> size (owned_ram (<[i := p]> a)) = S (size (owned_ram a)).
Proof.
  intros Hi Hlt. unfold owned_ram. rewrite map_filter_insert_True by done.
  apply map_size_insert_None. apply map_lookup_filter_None. by left.
Qed.

Lemma owned_insert_high a i p :
  a !! i = None -> RAM_PAGES <= i -> owned_ram (<[i := p]> a) = owned_ram a.
Proof.
  intros Hi Hge. unfold owned_ram. rewrite map_filter_insert_False by (cbn; lia).
  by rewrite delete_id.
Qed.

Lemma owned_insert_old a i p q : a !! i = Some q -> size (owned_ram (<[i := p]> a)) = size (owned_ram a).
Proof.
  intros Hi. unfold owned_ram. destruct (decide (i < RAM_PAGES)).
  - rewrite map_filter_insert_True by done. apply map_size_insert_Some.
    exists q. by apply map_lookup_filter_Some.
  - rewrite map_filter_insert_False, map_filter_delete by done. f_equal. apply delete_id.
    apply map_lookup_filter_None. right. intros ? _. done.
Qed.

Lemma owned_delete a i p : a !! i = Some p -> i < RAM_PAGES ->
  size (owned_ram a) = S (size (owned_ram (delete i a))).
Proof.
  intros Hi Hlt. rewrite <- (insert_delete_id a i p) at 1 by done.
  apply owned_insert_new; [apply lookup_delete_eq|done].
Qed.

Lemma owned_delete_high a i : RAM_PAGES <= i -> owned_ram (delete i a) = owned_ram a.
Proof.
  intros Hge. unfold owned_ram. rewrite map_filter_delete. apply delete_id.
  apply map_lookup_filter_None. right. intros ? _. cbn. lia.
Qed.

Lemma owned_bound a len :
  0 <= len -> (forall i p, a !! i = Some p -> 0 <= i < len) ->
  Z.of_nat (size (owned_ram a)) <= Z.min len RAM_PAGES.
Proof.
  intros Hlen Hdom. pose proof plat_pages. rewrite <- size_dom.
  assert (Hsub : dom (owned_ram a) ⊆ pages 0 (Z.min len RAM_PAGES)).
  { intros i Hi. apply elem_of_dom in Hi as [p Hp]. apply map_lookup_filter_Some in Hp as [Hp Hlt].
    apply elem_of_pages. specialize (Hdom i p Hp). cbn in Hlt. lia. }
  apply subseteq_size in Hsub. unfold pages in Hsub at 1.
  rewrite size_list_to_set, length_seqZ in Hsub by apply NoDup_seqZ. lia.
Qed.

(** *** Searches *)

Lemma find_Some_in {A} (f : A -> bool) l x : find f l = Some x -> x ∈ l /\ f x = true.
Proof. intros H%find_some. by rewrite list_elem_of_In. Qed.

Lemma first_one_Some bits a b i : first_one bits a b = Some i -> i ∈ bits /\ a <= i < b.
Proof.
  unfold first_one. rewrite zrange_seqZ. intros H%find_Some_in.
  destruct H as [Hin Hb%bool_decide_eq_true]. apply elem_of_seqZ in Hin. split; [done|lia].
Qed.

Lemma first_one_None bits a b i : first_one bits a b = None -> a <= i < b -> i ∉ bits.
Proof.
  unfold first_one. rewrite zrange_seqZ. intros H Hi Hin.
  assert (Hl : In i (seqZ a (b - a))) by (apply list_elem_of_In, elem_of_seqZ; lia).
  apply (find_none _ _ H) in Hl. by apply bool_decide_eq_false in Hl.
Qed.

Lemma all_ones_spec bits i n : all_ones bits i n = true <-> pages i n ⊆ bits.
Proof.
  unfold all_ones. rewrite forallb_forall. split.
  - intros H j Hj. apply elem_of_pages in Hj. apply (bool_decide_eq_true_1 (j ∈ bits)), H.
    apply list_elem_of_In, elem_of_seqZ. lia.
  - intros H j Hj%list_elem_of_In%elem_of_seqZ. apply bool_decide_eq_true_2, H, elem_of_pages. lia.
Qed.

Lemma leading_ones_spec bits a n :
  0 <= leading_ones bits (seqZ a n) <= Z.max 0 n /\ pages a (leading_ones bits (seqZ a n)) ⊆ bits.
Proof.
  assert (Hn : exists k, Z.to_nat n = k) by eauto. destruct Hn as [k Hk].
  revert a n Hk. induction k as [|k IH]; intros a n Hk.
  - rewrite seqZ_nil by lia. cbn. split; [lia|]. intros j. rewrite elem_of_pages. lia.
  - rewrite seqZ_cons by lia. cbn [leading_ones]. case_bool_decide as Ha.
    + destruct (IH (Z.succ a) (Z.pred n) ltac:(lia)) as [Hb Hs]. split; [lia|].
      intros j Hj%elem_of_pages. destruct (Z.eq_dec j a) as [->|]; [done|]. apply Hs, elem_of_pages. lia.
    + split; [lia|]. intros j. rewrite elem_of_pages. lia.
Qed.

(** *** Runs of the primitives *)

Lemma subtract_run n m : n <= num_free_pages m ->
  exists low ev, subtract_free_pages n m = Some (tt, set_free (num_free_pages m - n) low ev m).
Proof.
  intros Hn. unfold subtract_free_pages, bind, gets, assertb, modify.
  apply Z.leb_le in Hn as ->. cbn. destruct (negb _ && _); eauto.
Qed.

Lemma add_run n m : num_free_pages m + n <= RAM_PAGES ->
  exists low ev, add_free_pages n m = Some (tt, set_free (num_free_pages m + n) low ev m).
Proof.
  intros Hn. unfold add_free_pages, bind, gets, assertb, modify.
  apply Z.leb_le in Hn as ->. cbn. destruct (low_memory m && _); eauto.
Qed.

Lemma slice_ok_true a b : 0 <= a -> a <= b -> b <= RAM_PAGES -> slice_ok a b = true.
Proof. intros. unfold slice_ok. rewrite !andb_true_iff, !Z.leb_le. lia. Qed.

(** What one of the searches found. *)
Definition picked (m : MemoryManager) (pick : option (Z * bool)) (m' : MemoryManager) : Prop :=
  match pick with
  | Some (idx, true) => idx ∈ free_pages_zeroed m /\ m' = set_zeroed (free_pages_zeroed m ∖ {[idx]}) m
  | Some (idx, false) => idx ∈ free_pages_dirty m /\ m' = set_dirty (free_pages_dirty m ∖ {[idx]}) m
  | None => m' = m /\ forall i, i ∉ free_pages_zeroed m ∪ free_pages_dirty m
  end.

Lemma pick_single_run m : mm_inv m ->
  exists pick m', pick_single m = Some (pick, m') /\ picked m pick m'.
Proof.
  intros Hinv. pose proof FRAG_bounds as HF. pose proof (inv_zhint _ Hinv) as Hh.
  unfold pick_single, bind, gets, modify, ret, assertb.
  rewrite !slice_ok_true by lia.
  destruct (first_one (free_pages_zeroed m) (next_zeroed_page_hint m) _) as [i|] eqn:E1.
  { apply first_one_Some in E1 as [? _]. do 2 eexists; split; [reflexivity|]. done. }
  cbn. destruct (first_one (free_pages_zeroed m) 0 (next_zeroed_page_hint m)) as [i|] eqn:E2.
  { apply first_one_Some in E2 as [? _]. do 2 eexists; split; [reflexivity|]. done. }
  destruct (first_one (free_pages_dirty m) 0 FRAGMENTED_AREA_PAGES) as [i|] eqn:E3.
  { apply first_one_Some in E3 as [? _]. do 2 eexists; split; [reflexivity|]. done. }
  destruct (first_one (free_pages_zeroed m) FRAGMENTED_AREA_PAGES RAM_PAGES) as [i|] eqn:E4.
  { apply first_one_Some in E4 as [? _]. do 2 eexists; split; [reflexivity|]. done. }
  destruct (first_one (free_pages_dirty m) FRAGMENTED_AREA_PAGES RAM_PAGES) as [i|] eqn:E5.
  { apply first_one_Some in E5 as [? _]. do 2 eexists; split; [reflexivity|]. done. }
  do 2 eexists; split; [reflexivity|]. split; [done|]. intros i Hi.
  pose proof (inv_free _ Hinv i Hi) as [Hb _]. unfold limit in Hb.
  apply elem_of_union in Hi as [Hi|Hi]; revert Hi.
  - destruct (decide (i < next_zeroed_page_hint m)); [apply (first_one_None _ _ _ i E2); lia|].
    destruct (decide (i < FRAGMENTED_AREA_PAGES)); [apply (first_one_None _ _ _ i E1); lia|].
    apply (first_one_None _ _ _ i E4); lia.
  - destruct (decide (i < FRAGMENTED_AREA_PAGES)); [apply (first_one_None _ _ _ i E3); lia|].
    apply (first_one_None _ _ _ i E5); lia.
Qed.

(** A block of free pages [pages idx n] becomes owned by [pid]. *)
Definition granted (m m' : MemoryManager) (idx n : Z) (pid : PID) : Prop :=
  pages idx n ⊆ free_pages_zeroed m ∪ free_pages_dirty m /\
  allocations m' = fill_owner pid idx n (allocations m) /\
  free_pages_zeroed m' = free_pages_zeroed m ∖ pages idx n /\
  free_pages_dirty m' = free_pages_dirty m ∖ pages idx n.

Lemma fill_owner_lookup pid idx n a i :
  fill_owner pid idx n a !! i = if bool_decide (idx <= i < idx + n) then Some pid else a !! i.
Proof.
  unfold fill_owner. assert (Hn : exists k, Z.to_nat n = k) by eauto. destruct Hn as [k Hk].
  revert idx n a Hk. induction k as [|k IH]; intros idx n a Hk.
  - rewrite seqZ_nil by lia. cbn. rewrite bool_decide_false by lia. done.
  - rewrite seqZ_cons by lia. cbn [fold_left]. rewrite IH by lia.
    destruct (decide (i = idx)) as [->|Hne].
    + rewrite lookup_insert_eq, (bool_decide_true (idx <= idx < idx + n)) by lia. by case_bool_decide.
    + rewrite lookup_insert_ne by done.
      replace (bool_decide (idx <= i < idx + n)) with (bool_decide (Z.succ idx <= i < Z.succ idx + Z.pred n)); [done|].
      apply bool_decide_ext. lia.
Qed.

Lemma fill_owner_size pid idx n a :
  0 <= n -> (forall i, i ∈ pages idx n -> a !! i = None /\ i < RAM_PAGES) ->
  Z.of_nat (size (owned_ram (fill_owner pid idx n a))) = Z.of_nat (size (owned_ram a)) + n.
Proof.
  unfold fill_owner. assert (Hk : exists k, Z.to_nat n = k) by eauto. destruct Hk as [k Hk].
  revert idx n a Hk. induction k as [|k IH]; intros idx n a Hk Hn Hfree.
  - rewrite seqZ_nil by lia. cbn. lia.
  - rewrite seqZ_cons by lia. cbn [fold_left].
    destruct (Hfree idx) as [Hi Hlt]; [apply elem_of_pages; lia|].
    rewrite IH; [|lia|lia|].
    + rewrite owned_insert_new by done. lia.
    + intros i Hi'%elem_of_pages. rewrite lookup_insert_ne by lia. apply Hfree, elem_of_pages. lia.
Qed.

(** Granting a block keeps the invariant, with the count reduced by its size. *)
Lemma granted_inv m m' idx n pid :
  mm_inv m -> 0 <= n -> granted m m' idx n pid ->
  num_allocations m' = num_allocations m -> num_free_pages m' = num_free_pages m - n ->
  0 <= next_zeroed_page_hint m' <= FRAGMENTED_AREA_PAGES ->
  next_dirty_page_hint m' = next_dirty_page_hint m -> mm_inv m'.
Proof.
  intros Hinv Hn (Hsub & Ha & Hz & Hd) Hlen Hfree Hzh Hdh.
  assert (Hnew : forall i, i ∈ pages idx n -> 0 <= i < limit m /\ allocations m !! i = None)
    by (intros i Hi; by apply (inv_free _ Hinv), Hsub).
  split; unfold limit in *; rewrite ?Hlen, ?Ha, ?Hz, ?Hd, ?Hfree, ?Hdh; try apply Hinv; try done.
  - intros i p. rewrite fill_owner_lookup. case_bool_decide as Hb; [|apply (inv_dom _ Hinv)].
    intros _. destruct (Hnew i) as [? _]; [by apply elem_of_pages|]. lia.
  - intros i Hi. rewrite fill_owner_lookup.
    rewrite bool_decide_false by (intros Hb%elem_of_pages; set_solver). apply (inv_free _ Hinv). set_solver.
  - pose proof (inv_disj _ Hinv). set_solver.
  - rewrite fill_owner_size; [pose proof (inv_count _ Hinv); unfold limit in *; lia|done|].
    intros i Hi. destruct (Hnew i Hi) as [? ?]. split; [done|lia].
Qed.

(** There are always enough free pages counted for a free block. *)
Lemma free_block_count m idx n :
  mm_inv m -> 0 <= n -> pages idx n ⊆ free_pages_zeroed m ∪ free_pages_dirty m ->
  n <= num_free_pages m /\ (0 < n -> 0 <= idx /\ idx + n <= limit m).
Proof.
  intros Hinv Hn Hsub.
  assert (Hnew : forall i, i ∈ pages idx n -> 0 <= i < limit m /\ allocations m !! i = None)
    by (intros i Hi; by apply (inv_free _ Hinv), Hsub).
  split.
  - pose proof (owned_bound (fill_owner 1 idx n (allocations m)) (num_allocations m) (inv_len _ Hinv)) as Hb.
    rewrite fill_owner_size in Hb.
    + pose proof (inv_count _ Hinv). unfold limit in *. enough (forall i p, fill_owner 1 idx n (allocations m) !! i = Some p -> 0 <= i < num_allocations m) by (specialize (Hb ltac:(done)); lia).
      intros i p. rewrite fill_owner_lookup. case_bool_decide as Hd; [|apply (inv_dom _ Hinv)].
      intros _. destruct (Hnew i) as [? _]; [by apply elem_of_pages|]. lia.
    + done.
    + intros i Hi. destruct (Hnew i Hi) as [? ?]. split; [done|]. unfold limit in *. lia.
  - intros Hpos. destruct (Hnew idx) as [? _]; [apply elem_of_pages; lia|].
    destruct (Hnew (idx + n - 1)) as [? _]; [apply elem_of_pages; lia|]. lia.
Qed.

(** *** Allocation *)

(** What an allocation of [n] pages may answer. *)
Definition alloc_outcome (m : MemoryManager) (n : Z) (pid : PID) (r : res (Z * bool) Error)
    (m' : MemoryManager) : Prop :=
  match r with
  | Ok (phys, zeroed) =>
      exists idx, phys = DRAM_BASE + idx * PAGE_SIZE /\ granted m m' idx n pid /\
        (zeroed = true -> pages idx n ⊆ free_pages_zeroed m)
  | Err e => e = OutOfMemory /\ m' = m /\
      forall i, ~ pages i n ⊆ free_pages_zeroed m ∪ free_pages_dirty m
  end.

Lemma alloc_single_run m pid : mm_inv m ->
  exists r m', alloc_single_page pid m = Some (r, m') /\ mm_inv m' /\ alloc_outcome m 1 pid r m'.
Proof.
  intros Hinv. destruct (pick_single_run m Hinv) as (pick & m1 & Hrun & Hp).
  unfold alloc_single_page, bind at 1. rewrite Hrun. destruct pick as [[idx zeroed]|]; cbn in Hp.
  2: { destruct Hp as [-> Hnone]. do 2 eexists; split; [reflexivity|]. split; [done|]. cbn.
       split; [done|]. split; [done|]. intros i Hi. apply (Hnone i), Hi, elem_of_pages. lia. }
  assert (Hfree : idx ∈ free_pages_zeroed m ∪ free_pages_dirty m) by (destruct zeroed; set_solver).
  assert (Hsub : pages idx 1 ⊆ free_pages_zeroed m ∪ free_pages_dirty m) by (rewrite pages_1; set_solver).
  destruct (inv_free _ Hinv idx Hfree) as [Hb Hnone].
  destruct (free_block_count m idx 1 Hinv ltac:(lia) Hsub) as [Hcnt _].
  assert (Hm1 : num_allocations m1 = num_allocations m /\ allocations m1 = allocations m /\
     num_free_pages m1 = num_free_pages m /\ next_dirty_page_hint m1 = next_dirty_page_hint m /\
     free_pages_zeroed m1 = free_pages_zeroed m ∖ {[idx]} /\
     free_pages_dirty m1 = free_pages_dirty m ∖ {[idx]}).
  { pose proof (inv_disj _ Hinv). destruct zeroed; destruct Hp as [Hin ->]; repeat split; cbn; set_solver. }
  destruct Hm1 as (Hl & Ha & Hn & Hdh & Hz & Hd).
  unfold bind, gets, assertb. rewrite Hl. unfold limit in Hb.
  destruct (Z.ltb_spec idx (num_allocations m)) as [_|]; [|lia]. cbn [ret].
  rewrite Ha, Hnone, bool_decide_true by done. unfold ret at 1.
  destruct (subtract_run 1 m1) as (low & ev & ->); [lia|]. unfold modify, ret.
  assert (Hg : forall m', allocations m' = <[idx := pid]> (allocations m) ->
     free_pages_zeroed m' = free_pages_zeroed m1 -> free_pages_dirty m' = free_pages_dirty m1 ->
     granted m m' idx 1 pid).
  { intros m' E1 E2 E3. unfold granted. rewrite E1, E2, E3, Hz, Hd, pages_1. repeat split; [|done..].
    rewrite <- pages_1. done. }
  do 2 eexists; split; [reflexivity|]. split.
  - eapply (granted_inv m _ idx 1 pid Hinv); [lia|apply Hg; cbn; congruence|cbn; congruence|cbn; lia| |cbn; congruence].
    cbn. pose proof FRAG_bounds. destruct (Z.ltb_spec FRAGMENTED_AREA_PAGES (idx + 1)); lia.
  - cbn. exists idx. split; [done|]. split; [apply Hg; cbn; congruence|]. intros ->. destruct Hp. rewrite pages_1. set_solver.
Qed.

Lemma find_None_all {A} (f : A -> bool) l x : find f l = None -> x ∈ l -> f x = false.
Proof. intros H Hx%list_elem_of_In. by apply (find_none _ _ H). Qed.

(** The two searches of [alloc_range_aligned]: a block found is free (and
    zeroed in the first), and when both fail there is no free block. *)
Lemma aligned_search m n :
  mm_inv m -> 1 <= n <= RAM_PAGES ->
  let z := free_pages_zeroed m in let d := free_pages_dirty m in
  let order := reverse (zrange 0 (RAM_PAGES - n + 1)) in
  let pick := match find (fun i => bool_decide (i ∈ z) && (Z.land i (1 - 1) =? 0) && all_ones z i n) order with
              | Some idx => Some (idx, true)
              | None => match find (fun i => (i mod 1 =? 0) && all_ones (z ∪ d) i n) order with
                        | Some idx => Some (idx, false) | None => None end
              end in
  match pick with
  | Some (idx, zeroed) => pages idx n ⊆ z ∪ d /\ (zeroed = true -> pages idx n ⊆ z)
  | None => forall i, ~ pages i n ⊆ z ∪ d
  end.
Proof.
  intros Hinv Hn z d order pick. subst pick. destruct (find _ order) as [idx|] eqn:E1.
  - apply find_Some_in in E1 as [_ E1]. rewrite !andb_true_iff in E1. destruct E1 as [_ E1%all_ones_spec].
    split; [set_solver|done].
  - destruct (find (fun i => (i mod 1 =? 0) && _) order) as [idx|] eqn:E2.
    + apply find_Some_in in E2 as [_ E2]. rewrite andb_true_iff in E2. destruct E2 as [_ E2%all_ones_spec]. done.
    + intros i Hi. destruct (free_block_count m i n Hinv ltac:(lia) Hi) as [_ Hb].
      specialize (Hb ltac:(lia)). unfold limit in Hb.
      apply (find_None_all _ _ i) in E2; [|subst order; rewrite zrange_seqZ; apply elem_of_reverse, elem_of_seqZ; lia].
      cbv beta in E2. rewrite Z.mod_1_r in E2. apply all_ones_spec in Hi. by rewrite Hi in E2.
Qed.

Lemma alloc_aligned_run m n pid : mm_inv m -> 1 <= n <= RAM_PAGES ->
  exists r m', alloc_range_aligned 1 n pid m = Some (r, m') /\ mm_inv m' /\ alloc_outcome m n pid r m'.
Proof.
  intros Hinv Hn. pose proof (aligned_search m n Hinv Hn) as Hpick. cbv zeta in Hpick.
  unfold alloc_range_aligned, bind at 1 2 3 4, gets, assertb.
  destruct (Z.leb_spec n RAM_PAGES) as [_|]; [|lia]. unfold ret at 1.
  rewrite slice_ok_true by lia. unfold ret at 1.
  set (pick := match find _ _ with Some idx => Some (idx, true) | None => _ end) in *.
  destruct pick as [[idx zeroed]|].
  2: { do 2 eexists; split; [reflexivity|]. split; [done|]. done. }
  destruct Hpick as [Hsub Hz]. destruct (free_block_count m idx n Hinv ltac:(lia) Hsub) as [Hcnt Hb].
  specialize (Hb ltac:(lia)). unfold limit in Hb.
  unfold bind. destruct (subtract_run n m Hcnt) as (low & ev & ->). unfold gets, modify, assertb.
  cbn [num_allocations set_free]. destruct (Z.leb_spec (idx + n) (num_allocations m)) as [_|]; [|lia].
  unfold ret. eexists _, _. split; [reflexivity|].
  match goal with |- mm_inv ?m' /\ _ => assert (Hg : granted m m' idx n pid) end.
  { unfold granted. split; [done|]. destruct zeroed; cbn; repeat split; try done.
    specialize (Hz eq_refl). pose proof (inv_disj _ Hinv). set_solver. }
  split; [|exists idx; done].
  eapply (granted_inv m _ idx n pid Hinv); [lia|exact Hg|by destruct zeroed|by destruct zeroed| |by destruct zeroed].
  destruct zeroed; cbn; apply Hinv.
Qed.

Lemma alloc_range_run m n pid : mm_inv m -> 1 <= n <= RAM_PAGES ->
  exists r m', alloc_range n pid m = Some (r, m') /\ mm_inv m' /\ alloc_outcome m n pid r m'.
Proof.
  intros Hinv Hn. unfold alloc_range. destruct (Z.eqb_spec n 1) as [->|].
  - by apply alloc_single_run.
  - by apply alloc_aligned_run.
Qed.

(** *** Zeroing *)

Lemma take_dirty_run m : mm_inv m ->
  exists r m', take_dirty_pages m = Some (r, m') /\ mm_inv m' /\
    allocations m' = allocations m /\ free_pages_zeroed m' = free_pages_zeroed m /\
    match r with
    | None => forall i, i ∉ free_pages_dirty m
    | Some (phys, n) => exists off, phys = DRAM_BASE + off * PAGE_SIZE /\ 1 <= n /\
        pages off n ⊆ free_pages_dirty m /\ free_pages_dirty m' = free_pages_dirty m ∖ pages off n
    end.
Proof.
  intros Hinv. pose proof plat_pages as HP.
  unfold take_dirty_pages, bind, gets, assertb, modify.
  set (start := match next_dirty_page_hint m with Some h => h | None => 0 end).
  assert (Hs : 0 <= start < RAM_PAGES).
  { subst start. destruct (next_dirty_page_hint m) as [h|] eqn:E; [by apply (inv_dhint _ Hinv)|lia]. }
  rewrite slice_ok_true by lia. unfold ret at 1.
  set (offset := match first_one _ start RAM_PAGES with Some idx => Some idx | None => _ end).
  destruct offset as [off|] eqn:Eoff; unfold ret.
  - assert (Hoff : off ∈ free_pages_dirty m /\ 0 <= off < RAM_PAGES).
    { subst offset. destruct (first_one _ start RAM_PAGES) as [i|] eqn:E1.
      - injection Eoff as ->. apply first_one_Some in E1. split; [apply E1|lia].
      - apply first_one_Some in Eoff. split; [apply Eoff|lia]. }
    destruct Hoff as [Hin Hb].
    destruct (leading_ones_spec (free_pages_dirty m) off (RAM_PAGES - off)) as [Hl Hsub].
    rewrite zrange_seqZ. set (lead := leading_ones _ _) in *.
    assert (H1 : 1 <= lead).
    { subst lead. rewrite seqZ_cons by lia. cbn [leading_ones]. rewrite bool_decide_true by done.
      destruct (leading_ones_spec (free_pages_dirty m) (Z.succ off) (Z.pred (RAM_PAGES - off))). lia. }
    assert (Hzc : ZERO_CHUNK_PAGES = 512) by done.
    assert (Hsub' : pages off (Z.min lead ZERO_CHUNK_PAGES) ⊆ free_pages_dirty m).
    { intros i Hi%elem_of_pages. apply Hsub, elem_of_pages. lia. }
    eexists _, _. split; [reflexivity|]. split; [|cbn; repeat split; exists off; repeat split; try done; lia].
    split; cbn; try apply Hinv.
    + intros i Hi. apply (inv_free _ Hinv). set_solver.
    + pose proof (inv_disj _ Hinv). set_solver.
    + intros h [= <-]. apply Z.mod_pos_bound. lia.
  - eexists _, _. split; [reflexivity|]. split; [|cbn; repeat split].
    + destruct Hinv. by split.
    + subst offset. destruct (first_one _ start RAM_PAGES) as [|] eqn:E1; [done|].
      intros i Hi. destruct (inv_free _ Hinv i) as [Hlim _]; [set_solver|]. unfold limit in Hlim.
      destruct (decide (i < start)).
      * apply (first_one_None _ _ _ i Eoff); [lia|done].
      * apply (first_one_None _ _ _ i E1); [lia|done].
Qed.

Lemma dram_offset m off :
  0 <= off < RAM_PAGES -> address_to_allocation_offset m (DRAM_BASE + off * PAGE_SIZE) = Some (Some off).
Proof.
  intros Ho. unfold address_to_allocation_offset, DRAM_END, PAGE_SIZE.
  destruct (Z.leb_spec DRAM_BASE (DRAM_BASE + off * 16384)); [|lia].
  destruct (Z.ltb_spec (DRAM_BASE + off * 16384) (DRAM_BASE + RAM_PAGES * 16384)); [|lia].
  cbn [andb]. do 2 f_equal. replace (DRAM_BASE + off * 16384 - DRAM_BASE) with (off * 16384) by lia.
  by rewrite Z.div_mul.
Qed.

(** The pages handed out by [take_dirty_pages]: without owner and in no bitmap. *)
Definition being_zeroed (m : MemoryManager) (i : Z) : Prop :=
  0 <= i < limit m /\ allocations m !! i = None /\ i ∉ free_pages_zeroed m ∪ free_pages_dirty m.

Lemma set_zeroed_run m off n :
  mm_inv m -> 1 <= n -> (forall i, i ∈ pages off n -> being_zeroed m i) ->
  exists m', set_pages_to_zeroed (DRAM_BASE + off * PAGE_SIZE) n m = Some (tt, m') /\ mm_inv m' /\
    allocations m' = allocations m /\ free_pages_dirty m' = free_pages_dirty m /\
    free_pages_zeroed m' = free_pages_zeroed m ∪ pages off n.
Proof.
  intros Hinv Hn Hz.
  destruct (Hz off) as (Hb1 & _ & _); [apply elem_of_pages; lia|].
  destruct (Hz (off + n - 1)) as (Hb2 & _ & _); [apply elem_of_pages; lia|]. unfold limit in *.
  unfold set_pages_to_zeroed, bind, gets. rewrite dram_offset by lia. unfold expect, assertb, modify, ret.
  rewrite slice_ok_true by lia. eexists. split; [reflexivity|]. split; [|done].
  split; cbn; try apply Hinv.
  - intros i Hi. destruct (decide (i ∈ pages off n)) as [Hp|Hp].
    + destruct (Hz i Hp) as (? & ? & _). done.
    + apply (inv_free _ Hinv). set_solver.
  - pose proof (inv_disj _ Hinv). intros i Hi Hd. apply elem_of_union in Hi as [Hi|Hi]; [set_solver|].
    destruct (Hz i Hi) as (_ & _ & ?). set_solver.
Qed.

(** *** Claim, move and release *)

Lemma owned_pos m off p : mm_inv m -> allocations m !! off = Some p -> off < RAM_PAGES ->
  num_free_pages m + 1 <= RAM_PAGES.
Proof.
  intros Hinv Ho Hlt. pose proof (inv_count _ Hinv) as Hc. rewrite (owned_delete _ _ _ Ho Hlt) in Hc.
  unfold limit in Hc. lia.
Qed.

Lemma claim_at_run m pid off : mm_inv m -> 0 <= off < num_allocations m ->
  exists r m', claim_at pid off m = Some (r, m') /\ mm_inv m' /\
    free_pages_zeroed m' ⊆ free_pages_zeroed m /\
    match r with
    | Ok _ => allocations m !! off = None /\ allocations m' = <[off := pid]> (allocations m)
    | Err e => e = MemoryInUse /\ m' = m
    end.
Proof.
  intros Hinv Ho. unfold claim_at, bind at 1, gets at 1.
  destruct (allocations m !! off) as [q|] eqn:Ea; [do 2 eexists; split; [reflexivity|]; done|].
  unfold bind at 1 2, gets. destruct (Z.ltb_spec off RAM_PAGES) as [Hlt|Hge].
  - case_bool_decide as Hz; [|case_bool_decide as Hd]; [..|do 2 eexists; split; [reflexivity|]; done].
    + assert (Hsub : pages off 1 ⊆ free_pages_zeroed m ∪ free_pages_dirty m) by (rewrite pages_1; set_solver).
      destruct (free_block_count m off 1 Hinv ltac:(lia) Hsub) as [Hcnt _].
      unfold bind, modify. destruct (subtract_run 1 (set_zeroed (free_pages_zeroed m ∖ {[off]}) m)) as (low & ev & ->); [done|].
      eexists _, _. split; [reflexivity|]. split; [|cbn; split; [set_solver|done]].
      eapply (granted_inv m _ off 1 pid Hinv); try done; [|apply Hinv].
      unfold granted. rewrite pages_1 in *. cbn. repeat split; try done. pose proof (inv_disj _ Hinv). set_solver.
    + assert (Hsub : pages off 1 ⊆ free_pages_zeroed m ∪ free_pages_dirty m) by (rewrite pages_1; set_solver).
      destruct (free_block_count m off 1 Hinv ltac:(lia) Hsub) as [Hcnt _].
      unfold bind, modify. destruct (subtract_run 1 (set_dirty (free_pages_dirty m ∖ {[off]}) m)) as (low & ev & ->); [done|].
      eexists _, _. split; [reflexivity|]. split; [|cbn; split; [set_solver|done]].
      eapply (granted_inv m _ off 1 pid Hinv); try done; [|apply Hinv].
      unfold granted. rewrite pages_1 in *. cbn. repeat split; try done. pose proof (inv_disj _ Hinv). set_solver.
  - unfold bind, modify, ret. eexists _, _. split; [reflexivity|]. split; [|cbn; split; [set_solver|done]].
    split; cbn; try apply Hinv.
    + intros i p. destruct (decide (i = off)) as [->|]; [done|]. rewrite lookup_insert_ne by done. apply (inv_dom _ Hinv).
    + intros i Hi. destruct (inv_free _ Hinv i Hi) as [Hl Hn]. split; [done|]. unfold limit in Hl.
      rewrite lookup_insert_ne by lia. done.
    + rewrite owned_insert_high by done. apply Hinv.
Qed.

Lemma moved_inv m off q pid :
  mm_inv m -> allocations m !! off = Some q -> mm_inv (set_allocations (<[off := pid]> (allocations m)) m).
Proof.
  intros Hinv Ea. split; cbn; try apply Hinv.
  - intros i p. destruct (decide (i = off)) as [->|].
    + intros _. by apply (inv_dom _ Hinv _ q).
    + rewrite lookup_insert_ne by done. apply (inv_dom _ Hinv).
  - intros i Hi. destruct (inv_free _ Hinv i Hi) as [Hl Hn]. split; [done|].
    rewrite lookup_insert_ne; [done|]. intros E. rewrite E in Ea. by rewrite Ea in Hn.
  - rewrite (owned_insert_old _ _ _ q) by done. apply Hinv.
Qed.

Lemma move_at_run m pid from off : mm_inv m ->
  exists r m', move_at pid from off m = Some (r, m') /\ mm_inv m' /\
    free_pages_zeroed m' = free_pages_zeroed m /\
    match r with
    | Ok _ => (allocations m !! off = Some pid \/ allocations m !! off = Some from) /\
              allocations m' = <[off := pid]> (allocations m)
    | Err e => m' = m
    end.
Proof.
  intros Hinv. unfold move_at, bind at 1, gets.
  destruct (allocations m !! off) as [q|] eqn:Ea; [|do 2 eexists; split; [reflexivity|]; done].
  destruct (Z.eqb_spec q pid) as [Hqp|Hqp], (Z.eqb_spec from q) as [Hfq|Hfq]; cbn [negb andb];
    try (do 2 eexists; split; [reflexivity|]; done).
  all: eexists _, _; split; [reflexivity|]; split; [by apply (moved_inv _ _ q)|split; [done|split; [subst; by auto|done]]].
Qed.

(** Taking an owned page back: dirty when it is RAM. *)
Lemma released_inv m m' off p :
  mm_inv m -> allocations m !! off = Some p ->
  allocations m' = delete off (allocations m) -> num_allocations m' = num_allocations m ->
  free_pages_zeroed m' = free_pages_zeroed m -> next_zeroed_page_hint m' = next_zeroed_page_hint m ->
  (forall h, next_dirty_page_hint m' = Some h -> 0 <= h < RAM_PAGES) ->
  (off < RAM_PAGES -> free_pages_dirty m' = {[off]} ∪ free_pages_dirty m /\ num_free_pages m' = num_free_pages m + 1) ->
  (RAM_PAGES <= off -> free_pages_dirty m' = free_pages_dirty m /\ num_free_pages m' = num_free_pages m) ->
  mm_inv m'.
Proof.
  intros Hinv Ho Ha Hlen Hz Hzh Hdh Hlow Hhigh.
  pose proof (inv_dom _ Hinv _ _ Ho) as Hb.
  assert (Hnd : off ∉ free_pages_zeroed m ∪ free_pages_dirty m).
  { intros Hi. destruct (inv_free _ Hinv off Hi). congruence. }
  assert (Hdirty : forall i, i ∈ free_pages_dirty m' -> i = off /\ off < RAM_PAGES \/ i ∈ free_pages_dirty m).
  { intros i. destruct (decide (off < RAM_PAGES)) as [Hlt|Hge].
    - destruct (Hlow Hlt) as [-> _]. set_solver.
    - destruct Hhigh as [-> _]; [lia|]. by right. }
  split; unfold limit in *; rewrite ?Ha, ?Hlen, ?Hz, ?Hzh; try apply Hinv; try done.
  - intros i q [_ Hi]%lookup_delete_Some. by apply (inv_dom _ Hinv i q).
  - intros i Hi. destruct (decide (i = off)) as [->|Hne].
    + rewrite lookup_delete_eq. split; [|done]. apply elem_of_union in Hi as [Hi|Hi%Hdirty]; [set_solver|].
      destruct Hi as [[_ ?]|?]; [lia|set_solver].
    + rewrite lookup_delete_ne by done. apply (inv_free _ Hinv).
      apply elem_of_union in Hi as [Hi|Hi%Hdirty]; [set_solver|]. destruct Hi as [[? _]|?]; [done|set_solver].
  - intros i Hi Hd%Hdirty. pose proof (inv_disj _ Hinv). destruct Hd as [[-> _]|?]; set_solver.
  - pose proof (inv_count _ Hinv) as Hc. destruct (decide (off < RAM_PAGES)) as [Hlt|Hge].
    + destruct (Hlow Hlt) as [_ ->]. rewrite (owned_delete _ _ _ Ho Hlt) in Hc. unfold limit in Hc. lia.
    + destruct Hhigh as [_ ->]; [lia|]. rewrite owned_delete_high by lia. apply Hc.
Qed.

Lemma release_at_run m pid off : mm_inv m ->
  exists r m', release_at pid off m = Some (r, m') /\ mm_inv m' /\
    match r with
    | Ok _ => allocations m !! off = Some pid /\ allocations m' = delete off (allocations m) /\
              free_pages_zeroed m' = free_pages_zeroed m /\ (off < RAM_PAGES -> off ∈ free_pages_dirty m')
    | Err e => m' = m /\ allocations m !! off <> Some pid
    end.
Proof.
  intros Hinv. unfold release_at, bind at 1, gets.
  destruct (allocations m !! off) as [q|] eqn:Ea; [|do 2 eexists; split; [reflexivity|]; done].
  destruct (Z.eqb_spec q pid) as [->|Hne]; cbn [negb];
    [|do 2 eexists; split; [reflexivity|]; split; [done|]; split; [done|congruence]].
  pose proof (inv_dom _ Hinv _ _ Ea) as Hb.
  unfold bind at 1. destruct (Z.ltb_spec off RAM_PAGES) as [Hlt|Hge].
  - unfold bind at 1 2, modify at 1 2.
    set (m1 := match next_dirty_page_hint _ with Some _ => _ | None => _ end).
    assert (Hm1 : num_free_pages m1 = num_free_pages m /\ allocations m1 = allocations m /\
      num_allocations m1 = num_allocations m /\ free_pages_zeroed m1 = free_pages_zeroed m /\
      next_zeroed_page_hint m1 = next_zeroed_page_hint m /\
      free_pages_dirty m1 = {[off]} ∪ free_pages_dirty m /\
      (forall h, next_dirty_page_hint m1 = Some h -> 0 <= h < RAM_PAGES)).
    { subst m1. cbn. destruct (next_dirty_page_hint m) as [h|] eqn:Eh; cbn; split_and!; try done.
      - intros h' E. apply (inv_dhint _ Hinv). congruence.
      - intros h [= <-]. lia. }
    destruct Hm1 as (Hf & Ha & Hl & Hz & Hzh & Hd & Hdh). clearbody m1.
    destruct (add_run 1 m1) as (low & ev & ->); [rewrite Hf; by apply (owned_pos m off pid)|].
    unfold bind, modify, ret. eexists _, _. split; [reflexivity|]. split.
    + eapply (released_inv m _ off pid Hinv Ea); cbn; rewrite ?Ha, ?Hl, ?Hz, ?Hzh, ?Hd, ?Hf; try done. lia.
    + cbn. rewrite Ha, Hz, Hd. repeat split; try done. set_solver.
  - unfold bind, modify, ret. eexists _, _. split; [reflexivity|]. split.
    + eapply (released_inv m _ off pid Hinv Ea); cbn; try done; [apply (inv_dhint _ Hinv)|lia].
    + cbn. repeat split; try done. lia.
Qed.

(** The address resolves to a slot of the owner table, or to none. *)
Definition addr_tracked (m : MemoryManager) (addr : Z) : bool :=
  match address_to_allocation_offset m addr with
  | None => false
  | Some None => true
  | Some (Some off) => (0 <=? off) && (off <? num_allocations m)
  end.

(** What claiming, moving and releasing do to the owner table. *)
Definition crm_outcome (m : MemoryManager) (pid : PID) (action : ClaimReleaseMove) (r : res unit Error)
    (off : Z) (m' : MemoryManager) : Prop :=
  match r, action with
  | Ok _, Claim => allocations m !! off = None /\ allocations m' = <[off := pid]> (allocations m)
  | Ok _, MoveFrom from =>
      (allocations m !! off = Some pid \/ allocations m !! off = Some from) /\
      allocations m' = <[off := pid]> (allocations m)
  | Ok _, Release =>
      allocations m !! off = Some pid /\ allocations m' = delete off (allocations m) /\
      (off < RAM_PAGES -> off ∈ free_pages_dirty m' /\ off ∉ free_pages_zeroed m')
  | Err _, _ => m' = m
  end.

Lemma crm_run permitted m addr pid action :
  mm_inv m -> addr_tracked m addr = true ->
  exists r m', claim_release_move permitted addr pid action m = Some (r, m') /\ mm_inv m' /\
    free_pages_zeroed m' ⊆ free_pages_zeroed m /\
    match r with
    | Err _ => m' = m
    | Ok _ => exists off, address_to_allocation_offset m addr = Some (Some off) /\ crm_outcome m pid action r off m'
    end.
Proof.
  intros Hinv Ht. unfold claim_release_move, addr_tracked in *.
  destruct (negb _); [do 2 eexists; split; [reflexivity|]; done|].
  destruct (permitted pid addr); [|do 2 eexists; split; [reflexivity|]; done].
  change (shared_peripheral pid addr) with false. cbv iota. unfold bind at 1, gets at 1.
  destruct (address_to_allocation_offset m addr) as [[off|]|] eqn:Eo; [|do 2 eexists; split; [reflexivity|]; done|done].
  apply andb_true_iff in Ht as [H0%Z.leb_le Hlt%Z.ltb_lt].
  unfold bind at 1, expect, ret at 1. unfold bind at 1 2, gets, assertb.
  destruct (Z.ltb_spec off (num_allocations m)) as [_|]; [|lia]. unfold ret at 1.
  destruct action as [| |from].
  - destruct (claim_at_run m pid off Hinv ltac:(lia)) as (r & m' & Hrun & Hi & Hz & Ho). exists r, m'.
    split_and!; try done. destruct r; [by exists off|apply Ho].
  - destruct (release_at_run m pid off Hinv) as (r & m' & Hrun & Hi & Ho). exists r, m'.
    split_and!; try done; destruct r.
    + destruct Ho as (_ & _ & -> & _). done.
    + destruct Ho as [-> _]. done.
    + exists off. split; [done|]. destruct Ho as (? & ? & Hz & Hd). cbn. split_and!; try done.
      intros Hr. split; [by apply Hd|].
      rewrite Hz. intros Hin. destruct (inv_free _ Hinv off) as [_ ?]; [set_solver|]. congruence.
    + apply Ho.
  - destruct (move_at_run m pid from off Hinv) as (r & m' & Hrun & Hi & Hz & Ho). exists r, m'.
    split_and!; try done; [by rewrite Hz|]. destruct r; [by exists off|apply Ho].
Qed.

(** *** Releasing a whole process *)

Lemma release_all_loop_run pid l m : mm_inv m ->
  exists m', release_all_loop pid l m = Some (tt, m') /\ mm_inv m' /\
    num_allocations m' = num_allocations m /\
    (forall i, allocations m' !! i =
       if bool_decide (i ∈ l /\ allocations m !! i = Some pid) then None else allocations m !! i) /\
    (forall i, i ∈ l -> allocations m !! i = Some pid -> i < RAM_PAGES -> i ∈ free_pages_dirty m') /\
    free_pages_zeroed m' = free_pages_zeroed m /\ free_pages_dirty m ⊆ free_pages_dirty m'.
Proof.
  revert m. induction l as [|idx l IH]; intros m Hinv; cbn [release_all_loop].
  - exists m. split_and!; try done.
    intros i ?%elem_of_nil. done.
  - unfold bind at 1 2, gets. case_bool_decide as Ho.
    2: { unfold ret. destruct (IH m Hinv) as (m' & Hrun & Hi & Hl & Ha & Hd & Hz & Hs). exists m'.
         split_and!; try done.
         - intros i. rewrite Ha. apply if_same_decide. rewrite elem_of_cons.
           split; [tauto|]. intros [[->|?] ?]; [done|done].
         - intros i [->|Hi']%elem_of_cons; [done|]. by apply Hd. }
    pose proof (inv_dom _ Hinv _ _ Ho) as Hb.
    assert (Hstep : exists m1, (_ <- modify (fun m => set_allocations (delete idx (allocations m)) m) ;;
         (if idx <? RAM_PAGES then
            _ <- modify (fun m => set_dirty ({[idx]} ∪ free_pages_dirty m) m) ;; add_free_pages 1
          else ret tt)) m = Some (tt, m1) /\ mm_inv m1 /\ num_allocations m1 = num_allocations m /\
         allocations m1 = delete idx (allocations m) /\ free_pages_zeroed m1 = free_pages_zeroed m /\
         free_pages_dirty m ⊆ free_pages_dirty m1 /\ (idx < RAM_PAGES -> idx ∈ free_pages_dirty m1)).
    { unfold bind at 1, modify. destruct (Z.ltb_spec idx RAM_PAGES) as [Hlt|Hge].
      - unfold bind. destruct (add_run 1 (set_dirty ({[idx]} ∪ free_pages_dirty m) (set_allocations (delete idx (allocations m)) m)))
          as (low & ev & Hadd); [cbn; by apply (owned_pos m idx pid)|].
        cbn in Hadd. eexists. split; [exact Hadd|]. split.
        + eapply (released_inv m _ idx pid Hinv Ho); cbn; try done; [apply (inv_dhint _ Hinv)|lia].
        + cbn. repeat split; try done; set_solver.
      - eexists. split; [reflexivity|]. split.
        + eapply (released_inv m _ idx pid Hinv Ho); cbn; try done; [apply (inv_dhint _ Hinv)|lia].
        + cbn. repeat split; try done. lia. }
    destruct Hstep as (m1 & Hrun1 & Hi1 & Hl1 & Ha1 & Hz1 & Hs1 & Hd1). rewrite Hrun1.
    destruct (IH m1 Hi1) as (m' & Hrun & Hi & Hl & Ha & Hd & Hz & Hs). exists m'.
    split; [done|]. split; [done|]. split; [congruence|]. split; [|split; [|split; [congruence|set_solver]]].
    + intros i. rewrite Ha, Ha1. destruct (decide (i = idx)) as [->|Hne].
      * rewrite lookup_delete_eq, (bool_decide_true (idx ∈ idx :: l /\ _)) by (split; [apply list_elem_of_here|done]).
        by case_bool_decide.
      * rewrite lookup_delete_ne by done. apply if_same_decide. rewrite elem_of_cons. naive_solver.
    + intros i Hil Hip Hlt. destruct (decide (i = idx)) as [->|Hne]; [by apply Hs, Hd1|].
      apply Hd; [|by rewrite Ha1, lookup_delete_ne|done]. apply elem_of_cons in Hil. naive_solver.
Qed.

Lemma release_all_run pid m : mm_inv m ->
  exists m', release_all_memory_for_process pid m = Some (tt, m') /\ mm_inv m' /\
    num_allocations m' = num_allocations m /\
    (forall i, allocations m' !! i = if bool_decide (allocations m !! i = Some pid) then None else allocations m !! i) /\
    (forall i, allocations m !! i = Some pid -> i < RAM_PAGES -> i ∈ free_pages_dirty m' /\ i ∉ free_pages_zeroed m') /\
    free_pages_zeroed m' = free_pages_zeroed m.
Proof.
  intros Hinv. unfold release_all_memory_for_process, bind, gets.
  destruct (release_all_loop_run pid (seqZ 0 (num_allocations m)) m Hinv) as (m' & Hrun & Hi & Hl & Ha & Hd & Hz & _).
  assert (Hin : forall i p, allocations m !! i = Some p -> i ∈ seqZ 0 (num_allocations m))
    by (intros i p Hp; apply elem_of_seqZ; pose proof (inv_dom _ Hinv i p Hp); lia).
  exists m'. split_and!; try done.
  - intros i. rewrite Ha. apply if_same_decide. naive_solver.
  - intros i Hip Hlt. split; [apply Hd; eauto|].
    rewrite Hz. intros Hzi. destruct (inv_free _ Hinv i) as [_ ?]; [set_solver|]. congruence.
Qed.

(** *** Initialisation *)

Definition unowned (a : gmap Z PID) (n : Z) : gset Z := filter (fun i => a !! i = None) (pages 0 n).

Definition init_step (m : MemoryManager) (offset : Z) : MemoryManager :=
  if bool_decide (allocations m !! offset = None)
  then set_free (num_free_pages m + 1) (low_memory m) (mm_events m)
         (set_dirty ({[offset]} ∪ free_pages_dirty m) m)
  else m.

Lemma unowned_succ a n : 0 <= n ->
  unowned a (n + 1) = if bool_decide (a !! n = None) then {[n]} ∪ unowned a n else unowned a n.
Proof.
  intros Hn. apply set_eq. intros i. unfold unowned.
  case_bool_decide as Ha; rewrite ?elem_of_union, ?elem_of_singleton, !elem_of_filter, !elem_of_pages.
  - destruct (Z.eq_dec i n) as [->|]; [|split; [intros [? ?]; right; split; [done|lia]|intros [?|[? ?]]; [done|split; [done|lia]]]].
    split; [by left|]. intros _. split; [done|lia].
  - destruct (Z.eq_dec i n) as [->|]; [|split; intros [? ?]; (split; [done|lia])].
    split; [by intros [? _]|]. intros [? _]. done.
Qed.

Lemma init_fold_run n m :
  0 <= n ->
  let m' := fold_left init_step (seqZ 0 n) m in
  allocations m' = allocations m /\ num_allocations m' = num_allocations m /\
  free_pages_zeroed m' = free_pages_zeroed m /\ next_zeroed_page_hint m' = next_zeroed_page_hint m /\
  next_dirty_page_hint m' = next_dirty_page_hint m /\
  free_pages_dirty m' = unowned (allocations m) n ∪ free_pages_dirty m /\
  num_free_pages m' = num_free_pages m + Z.of_nat (size (unowned (allocations m) n)).
Proof.
  intros Hn. cbv zeta. pattern n. apply natlike_ind; [| |done].
  - rewrite seqZ_nil by lia. cbn [fold_left].
    assert (E : unowned (allocations m) 0 = ∅).
    { apply set_eq. intros i. unfold unowned. rewrite elem_of_filter, elem_of_pages. set_solver by lia. }
    rewrite E, size_empty. split_and!; try done; [set_solver|lia].
  - intros k Hk (Ha & Hl & Hz & Hzh & Hdh & Hd & Hf).
    replace (Z.succ k) with (k + 1) by lia. rewrite seqZ_app, fold_left_app by lia.
    rewrite (seqZ_cons _ 1), seqZ_nil by lia. cbn [fold_left].
    set (mk := fold_left init_step (seqZ 0 k) m) in *. unfold init_step. rewrite Ha.
    rewrite unowned_succ by done. replace (0 + k) with k by lia. case_bool_decide as Hn'; [|done].
    assert (Hnin : k ∉ unowned (allocations m) k)
      by (unfold unowned; rewrite elem_of_filter, elem_of_pages; lia).
    split_and!; try done; cbn.
    + rewrite Hd. set_solver.
    + rewrite Hf, size_union, size_singleton by set_solver. lia.
Qed.

Lemma unowned_count a n :
  0 <= n <= RAM_PAGES -> (forall i p, a !! i = Some p -> i < RAM_PAGES -> 0 <= i < n) ->
  Z.of_nat (size (unowned a n)) + Z.of_nat (size (owned_ram a)) = n.
Proof.
  intros Hn Hdom. rewrite <- size_dom.
  assert (E : unowned a n ∪ dom (owned_ram a) = pages 0 n).
  { apply set_eq. intros i. unfold unowned. rewrite elem_of_union, elem_of_filter, elem_of_dom. split.
    - intros [[_ ?]|[p [Hp Hlt]%map_lookup_filter_Some]]; [done|]. cbn in Hlt. apply elem_of_pages.
      specialize (Hdom i p Hp Hlt). lia.
    - intros Hi. destruct (a !! i) as [p|] eqn:Ei; [right|by left]. exists p.
      apply map_lookup_filter_Some. apply elem_of_pages in Hi. split; [done|cbn; lia]. }
  apply (f_equal size) in E. rewrite size_union in E.
  - unfold pages in E. rewrite size_list_to_set, length_seqZ in E by apply NoDup_seqZ. lia.
  - intros i Hu Ho. unfold unowned in Hu. apply elem_of_filter in Hu as [Hu _].
    apply elem_of_dom in Ho as [p Hp]. apply map_lookup_filter_Some in Hp as [Hp _]. congruence.
Qed.

Lemma init_run allocs len :
  0 <= len -> (forall i p, allocs !! i = Some p -> 0 <= i < len) ->
  exists m, init_from_bootstrap allocs len len mm_default = Some (tt, m) /\ mm_inv m /\
    allocations m = allocs /\ free_pages_zeroed m = ∅ /\ free_pages_dirty m = unowned allocs (Z.min len RAM_PAGES).
Proof.
  intros Hlen Hdom. pose proof plat_pages. unfold init_from_bootstrap, bind, assertb, modify.
  assert (Hok : (0 <=? Z.min len RAM_PAGES) && (Z.min len RAM_PAGES <=? len) = true)
    by (rewrite andb_true_iff, !Z.leb_le; lia).
  assert (Hmin : 0 <= Z.min len RAM_PAGES) by lia.
  rewrite Hok. unfold ret. eexists. split; [reflexivity|].
  change (fun (m : MemoryManager) (offset : Z) => _) with init_step.
  match goal with |- context [fold_left init_step _ ?m0] =>
    destruct (init_fold_run (Z.min len RAM_PAGES) m0 Hmin) as (Ha & Hl & Hz & Hzh & Hdh & Hd & Hf) end.
  set (m' := fold_left init_step _ _) in *. cbn in Ha, Hl, Hz, Hzh, Hdh, Hd, Hf.
  assert (Hd' : free_pages_dirty m' = unowned allocs (Z.min len RAM_PAGES)) by (rewrite Hd; set_solver).
  split; [|done]. split; unfold limit; rewrite ?Ha, ?Hl, ?Hz, ?Hzh, ?Hdh, ?Hd', ?Hf; try done.
  - intros i Hi. unfold unowned in Hi.
    apply elem_of_union in Hi as [Hi|Hi]; [set_solver|]. apply elem_of_filter in Hi as [? Hi%elem_of_pages].
    split; [lia|done].
  - rewrite Z.add_0_l. apply unowned_count; [lia|].
    intros i p Hp Hlt. specialize (Hdom i p Hp). lia.
  - pose proof FRAG_bounds. lia.
Qed.

(** *** What the operations leave alone *)

Definition keeps {X} (op : M MemoryManager X) : Prop :=
  forall m x m', op m = Some (x, m') -> extra_regions m' = extra_regions m.

Lemma mm_keeps_ret {X} (x : X) : keeps (ret x).
Proof. by intros m y m' [= _ <-]. Qed.
Lemma mm_keeps_gets {X} (f : MemoryManager -> X) : keeps (gets f).
Proof. by intros m y m' [= _ <-]. Qed.
Lemma mm_keeps_panic {X} : keeps (X := X) panic.
Proof. by intros m y m'. Qed.
Lemma mm_keeps_bind {X Y} (m : M MemoryManager X) (k : X -> M MemoryManager Y) :
  keeps m -> (forall x, keeps (k x)) -> keeps (bind m k).
Proof.
  intros Hm Hk s y s' (x & s1 & H1 & H2)%run_bind. by rewrite (Hk _ _ _ _ H2), (Hm _ _ _ H1).
Qed.
Lemma keeps_modify f : (forall m, extra_regions (f m) = extra_regions m) -> keeps (modify f).
Proof. intros Hf m x m' [= _ <-]. apply Hf. Qed.
Lemma keeps_assertb b : keeps (assertb b).
Proof. destruct b; [apply mm_keeps_ret|apply mm_keeps_panic]. Qed.
Lemma mm_keeps_expect {X} (o : option X) : keeps (expect o).
Proof. destruct o; [apply mm_keeps_ret|apply mm_keeps_panic]. Qed.

#[local] Hint Resolve mm_keeps_ret mm_keeps_gets mm_keeps_panic keeps_assertb mm_keeps_expect : keeps.
Ltac keeps_step :=
  intros; match goal with
  | |- keeps (bind _ _) => apply mm_keeps_bind; [|intros ?]
  | |- keeps (modify _) => apply keeps_modify; intros ?
  | |- keeps (match ?x with _ => _ end) => destruct x eqn:?
  | |- context [match ?x with _ => _ end] => destruct x eqn:?
  | _ => solve [auto with keeps | reflexivity]
  end.
Ltac keeps_solve := repeat keeps_step.

Lemma keeps_subtract n : keeps (subtract_free_pages n).
Proof. unfold subtract_free_pages. keeps_solve. Qed.
Lemma keeps_add n : keeps (add_free_pages n).
Proof. unfold add_free_pages. keeps_solve. Qed.
#[local] Hint Resolve keeps_subtract keeps_add : keeps.

Lemma keeps_pick : keeps pick_single.
Proof. unfold pick_single. keeps_solve. Qed.
#[local] Hint Resolve keeps_pick : keeps.

Lemma keeps_alloc n pid : keeps (alloc_range n pid).
Proof.
  unfold alloc_range. destruct (n =? 1).
  - unfold alloc_single_page. keeps_solve.
  - unfold alloc_range_aligned. keeps_solve.
Qed.

Lemma keeps_crm permitted addr pid action : keeps (claim_release_move permitted addr pid action).
Proof.
  unfold claim_release_move. destruct action; unfold claim_at, release_at, move_at; keeps_solve.
Qed.
Definition extra_ok (m : MemoryManager) : Prop :=
  Forall (fun r => 0 <= mem_start r /\ 0 <= mem_size r) (extra_regions m).

Lemma extra_offset_ge addr off l o :
  Forall (fun r => 0 <= mem_start r /\ 0 <= mem_size r) l -> extra_offset addr off l = Some (Some o) ->
  off <= o /\ 0 <= addr < 2 ^ 32.
Proof.
  intros Hl. revert off. induction Hl as [|r l [Hs Hr] _ IH]; intros off; cbn; [done|].
  unfold U32_MAX. destruct (Z.ltb_spec (2 ^ 32 - 1) (mem_start r + mem_size r)); [done|]. destruct ((_ <=? _) && _) eqn:Eb.
  - intros [= <-]. apply andb_true_iff in Eb as [Hb%Z.leb_le Hb'%Z.ltb_lt].
    assert (0 <= (addr - mem_start r) / PAGE_SIZE) by (apply Z.div_pos; [lia|done]). lia.
  - intros [Hoff ?]%IH. assert (0 <= mem_size r / PAGE_SIZE) by (apply Z.div_pos; [lia|done]). lia.
Qed.

(** ** Traces *)

Inductive mm_op :=
| MmAlloc (n : Z) (pid : PID)
| MmTakeDirty
| MmSetZeroed (off n : Z)
| MmClaimReleaseMove (addr : Z) (pid : PID) (action : ClaimReleaseMove)
| MmReleaseAll (pid : PID).

Definition run_mm (permitted : PID -> Z -> res unit Error) (op : mm_op) : M MemoryManager unit :=
  match op with
  | MmAlloc n pid => _ <- alloc_range n pid ;; ret tt
  | MmTakeDirty => _ <- take_dirty_pages ;; ret tt
  | MmSetZeroed off n => set_pages_to_zeroed (DRAM_BASE + off * PAGE_SIZE) n
  | MmClaimReleaseMove addr pid action => _ <- claim_release_move permitted addr pid action ;; ret tt
  | MmReleaseAll pid => release_all_memory_for_process pid
  end.

(** The callers' obligations. *)
Definition mm_op_ok (m : MemoryManager) (op : mm_op) : Prop :=
  match op with
  | MmAlloc n _ => 1 <= n <= RAM_PAGES
  | MmSetZeroed off n => 1 <= n /\ forall i, i ∈ pages off n -> being_zeroed m i
  | MmClaimReleaseMove addr _ _ => addr_tracked m addr = true
  | _ => True
  end.

Inductive mm_reachable (permitted : PID -> Z -> res unit Error) : MemoryManager -> Prop :=
| mm_boot allocs len m :
    0 <= len -> (forall i p, allocs !! i = Some p -> 0 <= i < len) ->
    init_from_bootstrap allocs len len mm_default = Some (tt, m) -> mm_reachable permitted m
| mm_step m op m' :
    mm_reachable permitted m -> mm_op_ok m op -> run_mm permitted op m = Some (tt, m') ->
    mm_reachable permitted m'.

Lemma run_mm_total permitted m op :
  mm_inv m -> mm_op_ok m op -> exists m', run_mm permitted op m = Some (tt, m') /\ mm_inv m'.
Proof.
  intros Hinv. destruct op as [n pid| |off n|addr pid action|pid]; cbn [mm_op_ok run_mm]; unfold bind.
  - intros Hn. destruct (alloc_range_run m n pid Hinv Hn) as (r & m' & -> & Hi & _). by exists m'.
  - intros _. destruct (take_dirty_run m Hinv) as (r & m' & -> & Hi & _). by exists m'.
  - intros [Hn Hz]. destruct (set_zeroed_run m off n Hinv Hn Hz) as (m' & -> & Hi & _). by exists m'.
  - intros Ht. destruct (crm_run permitted m addr pid action Hinv Ht) as (r & m' & -> & Hi & _). by exists m'.
  - intros _. destruct (release_all_run pid m Hinv) as (m' & -> & Hi & _). by exists m'.
Qed.

Lemma mm_reachable_inv permitted m : mm_reachable permitted m -> mm_inv m.
Proof.
  induction 1 as [allocs len m Hlen Hdom Hm|m op m' _ IH Hok Hrun].
  - destruct (init_run allocs len Hlen Hdom) as (m' & Hm' & Hi & _). congruence.
  - destruct (run_mm_total permitted m op IH Hok) as (m1 & Hm1 & Hi). congruence.
Qed.
End WithPlatform.

(** ** Properties *)

(** C11. Safety of the frame allocator: in the states reached from boot by calls that
    meet their callers' obligations ([mm_op_ok]: an allocation is of 1 to
    [RAM_PAGES] pages, an address claimed, moved or released resolves to a slot of
    the owner table or to none, pages reported as zeroed were handed out for
    zeroing), every such allocation, claim, move, release, zeroing step and
    process teardown runs without a panic (none of the slice bounds, the double allocation check and
    the counter assertions fires) and re-establishes the invariant: a page is
    in at most one free bitmap, a free page has no owner, and the free count is
    the number of RAM pages without owner. *)
Theorem allocator_safe {P : Platform} permitted m op :
  mm_reachable permitted m -> mm_op_ok m op ->
  exists m', run_mm permitted op m = Some (tt, m') /\ mm_inv m'.
Proof. intros Hm%mm_reachable_inv Hok. by apply run_mm_total. Qed.

(** A machine with 64 pages, the first three owned by the kernel. *)
Definition demo_allocs : gmap Z PID := {[ 0 := 1; 1 := 1; 2 := 1 ]}.
Definition demo_mm : MemoryManager :=
  match init_from_bootstrap demo_allocs 64 64 mm_default with Some (_, m) => m | None => mm_default end.
Definition allow_all_pages (_ : PID) (_ : Z) : res unit Error := Ok tt.

Lemma demo_mm_reachable : mm_reachable allow_all_pages demo_mm.
Proof.
  apply (mm_boot _ demo_allocs 64); [lia| |by vm_compute].
  intros i p. unfold demo_allocs. rewrite !lookup_insert_Some, lookup_singleton_Some. lia.
Qed.

Lemma allocator_safe_witness :
  exists m', run_mm allow_all_pages (MmAlloc 5 4) demo_mm = Some (tt, m') /\ mm_inv m'.
Proof. apply (allocator_safe allow_all_pages demo_mm (MmAlloc 5 4) demo_mm_reachable). cbn. vm_compute. split; discriminate. Defined.

(** Exclusive allocation: an allocation of [n] pages always returns.  Either
    it grants a block of pages that had no owner, which the process owns
    afterwards while every other page keeps its owner, and which was zeroed
    when the result says so; or it reports [OutOfMemory], with nothing changed,
    and then no [n] consecutive pages were free. *)
Theorem alloc_exclusive {P : Platform} permitted m n pid :
  mm_reachable permitted m -> 1 <= n <= RAM_PAGES ->
  exists r m', alloc_range n pid m = Some (r, m') /\
  match r with
  | Ok (phys, zeroed) =>
      exists idx, phys = DRAM_BASE + idx * PAGE_SIZE /\
        (forall i, idx <= i < idx + n -> allocations m !! i = None /\ 0 <= i < limit m) /\
        (forall i, allocations m' !! i =
           if bool_decide (idx <= i < idx + n) then Some pid else allocations m !! i) /\
        (zeroed = true -> pages idx n ⊆ free_pages_zeroed m)
  | Err e => e = OutOfMemory /\ m' = m /\
      forall idx, ~ pages idx n ⊆ free_pages_zeroed m ∪ free_pages_dirty m
  end.
Proof.
  intros Hm%mm_reachable_inv Hn. destruct (alloc_range_run m n pid Hm Hn) as (r & m' & Hrun & _ & Ho).
  exists r, m'. split; [done|]. destruct r as [[phys zeroed]|e]; [|done].
  destruct Ho as (idx & -> & (Hsub & Ha & _) & Hz). exists idx. split_and!; try done.
  - intros i Hi%elem_of_pages. apply and_comm, (inv_free _ Hm). by apply Hsub.
  - intros i. by rewrite Ha, fill_owner_lookup.
Qed.

Lemma alloc_exclusive_witness :
  exists r m', alloc_range 61 4 demo_mm = Some (r, m') /\
  match r with
  | Ok (phys, zeroed) =>
      exists idx, phys = DRAM_BASE + idx * PAGE_SIZE /\
        (forall i, idx <= i < idx + 61 -> allocations demo_mm !! i = None /\ 0 <= i < limit demo_mm) /\
        (forall i, allocations m' !! i =
           if bool_decide (idx <= i < idx + 61) then Some 4 else allocations demo_mm !! i) /\
        (zeroed = true -> pages idx 61 ⊆ free_pages_zeroed demo_mm)
  | Err e => e = OutOfMemory /\ m' = demo_mm /\
      forall idx, ~ pages idx 61 ⊆ free_pages_zeroed demo_mm ∪ free_pages_dirty demo_mm
  end.
Proof. apply (alloc_exclusive allow_all_pages demo_mm 61 4 demo_mm_reachable). vm_compute. split; discriminate. Defined.

(** *** Freed pages and zeroing *)

Definition zeroes (op : mm_op) (i : Z) : bool :=
  match op with MmSetZeroed off n => (off <=? i) && (i <? off + n) | _ => false end.

Inductive mm_run {P : Platform} (permitted : PID -> Z -> res unit Error) : MemoryManager -> list mm_op -> MemoryManager -> Prop :=
| mm_run_nil m : mm_run permitted m [] m
| mm_run_cons m op m1 ops m2 :
    mm_op_ok m op -> run_mm permitted op m = Some (tt, m1) -> mm_run permitted m1 ops m2 ->
    mm_run permitted m (op :: ops) m2.

Lemma mm_run_zeroed {P : Platform} permitted m ops m' i :
  mm_inv m -> mm_run permitted m ops m' -> forallb (fun op => negb (zeroes op i)) ops = true ->
  i ∉ free_pages_zeroed m -> i ∉ free_pages_zeroed m' /\ mm_inv m'.
Proof.
  intros Hinv Hrun. revert Hinv. induction Hrun as [m|m op m1 ops m2 Hok Hop _ IH]; intros Hinv; [done|].
  cbn [forallb]. intros [Hz Hzs]%andb_true_iff Hi. destruct (run_mm_total permitted m op Hinv Hok) as (m1' & Hop' & Hinv1).
  rewrite Hop in Hop'. injection Hop' as <-. apply IH; [done|done|]. clear IH Hzs.
  destruct op as [n pid| |off n|addr pid action|pid]; cbn [run_mm mm_op_ok zeroes] in *.
  - destruct (alloc_range_run m n pid Hinv Hok) as (r & m' & Hr & _ & Ho). unfold bind in Hop. rewrite Hr in Hop.
    injection Hop as <-. destruct r as [[phys z]|e]; cbn in Ho; [|by destruct Ho as (_ & -> & _)].
    destruct Ho as (idx & _ & (_ & _ & -> & _) & _). set_solver.
  - destruct (take_dirty_run m Hinv) as (r & m' & Hr & _ & _ & Hzz & _). unfold bind in Hop. rewrite Hr in Hop.
    injection Hop as <-. by rewrite Hzz.
  - destruct Hok as [Hn Hb]. destruct (set_zeroed_run m off n Hinv Hn Hb) as (m' & Hr & _ & _ & _ & Hzz).
    rewrite Hr in Hop. injection Hop as <-. rewrite Hzz, elem_of_union, elem_of_pages.
    rewrite negb_true_iff, andb_false_iff, Z.leb_gt, Z.ltb_ge in Hz. intros [?|?]; [done|lia].
  - destruct (crm_run permitted m addr pid action Hinv Hok) as (r & m' & Hr & _ & Hzz & _). unfold bind in Hop.
    rewrite Hr in Hop. injection Hop as <-. set_solver.
  - destruct (release_all_run pid m Hinv) as (m' & Hr & _ & _ & _ & _ & Hzz). rewrite Hr in Hop.
    injection Hop as <-. by rewrite Hzz.
Qed.

(** No stale page is passed off as zeroed: after a process releases a RAM page,
    no sequence of operations in which the zeroer does not report that page
    makes an allocation return it with the zeroed flag. *)
Theorem released_page_not_zeroed {P : Platform} permitted m addr pid m1 ops m2 n pid' phys m3 off :
  mm_reachable permitted m -> addr_tracked m addr = true ->
  address_to_allocation_offset m addr = Some (Some off) -> off < RAM_PAGES ->
  claim_release_move permitted addr pid Release m = Some (Ok tt, m1) ->
  mm_run permitted m1 ops m2 -> forallb (fun op => negb (zeroes op off)) ops = true ->
  1 <= n <= RAM_PAGES -> alloc_range n pid' m2 = Some (Ok (phys, true), m3) ->
  ~ phys <= DRAM_BASE + off * PAGE_SIZE < phys + n * PAGE_SIZE.
Proof.
  intros Hm%mm_reachable_inv Ht Ho Hlt Hrel Hrun Hz Hn Hal.
  destruct (crm_run permitted m addr pid Release Hm Ht) as (r & m' & Hr & Hi1 & _ & Hout).
  rewrite Hrel in Hr. injection Hr as <- <-. destruct Hout as (off' & Ho' & Hcrm).
  rewrite Ho in Ho'. injection Ho' as <-. destruct Hcrm as (_ & _ & Hd). destruct (Hd Hlt) as [_ Hnz].
  destruct (mm_run_zeroed permitted m1 ops m2 off Hi1 Hrun Hz Hnz) as [Hnz2 Hi2].
  destruct (alloc_range_run m2 n pid' Hi2 Hn) as (r & m' & Hr & _ & Hout). rewrite Hal in Hr.
  injection Hr as <- <-. destruct Hout as (idx & -> & _ & Hzero). specialize (Hzero eq_refl).
  intros Hin. apply Hnz2, Hzero, elem_of_pages. unfold PAGE_SIZE in Hin. lia.
Qed.

Definition being_zeroedb {P : Platform} (m : MemoryManager) (i : Z) : bool :=
  (0 <=? i) && (i <? limit m) && bool_decide (allocations m !! i = None) &&
  bool_decide (i ∉ free_pages_zeroed m ∪ free_pages_dirty m).

Lemma being_zeroed_pages {P : Platform} m off n :
  forallb (being_zeroedb m) (seqZ off n) = true -> forall i, i ∈ pages off n -> being_zeroed m i.
Proof.
  rewrite forallb_forall. intros H i Hi%elem_of_pages.
  assert (Hin : In i (seqZ off n)) by (apply list_elem_of_In, elem_of_seqZ; lia).
  apply H in Hin. unfold being_zeroedb in Hin. rewrite !andb_true_iff in Hin.
  destruct Hin as [[[H0%Z.leb_le H1%Z.ltb_lt] H2%bool_decide_eq_true] H3%bool_decide_eq_true]. done.
Qed.

(** Page 3 goes to process 4 and back; the zeroer then takes the dirty pages
    and reports all of them but page 3. *)
Definition demo_state {P : Platform} (ops : list mm_op) (m : MemoryManager) : MemoryManager :=
  fold_left (fun m op => match run_mm allow_all_pages op m with Some (_, m') => m' | None => m end) ops m.
Definition demo_owned : MemoryManager := Eval vm_compute in demo_state [MmAlloc 1 4] demo_mm.
Definition demo_addr : Z := DRAM_BASE + 3 * PAGE_SIZE.
Definition demo_released : MemoryManager :=
  Eval vm_compute in demo_state [MmClaimReleaseMove demo_addr 4 Release] demo_owned.
Definition demo_taken : MemoryManager := Eval vm_compute in demo_state [MmTakeDirty] demo_released.
Definition demo_zeroed : MemoryManager := Eval vm_compute in demo_state [MmSetZeroed 4 60] demo_taken.
Definition demo_after : MemoryManager := Eval vm_compute in demo_state [MmAlloc 1 5] demo_zeroed.

Lemma demo_owned_reachable : mm_reachable allow_all_pages demo_owned.
Proof. apply (mm_step _ demo_mm (MmAlloc 1 4) _ demo_mm_reachable); [cbn; vm_compute; split; discriminate|by vm_compute]. Qed.

Lemma demo_zeroing_run : mm_run allow_all_pages demo_released [MmTakeDirty; MmSetZeroed 4 60] demo_zeroed.
Proof.
  apply (mm_run_cons _ _ _ demo_taken); [done|by vm_compute|].
  apply (mm_run_cons _ _ _ demo_zeroed); [|by vm_compute|constructor].
  split; [lia|]. apply being_zeroed_pages. by vm_compute.
Qed.

Lemma released_page_not_zeroed_witness :
  alloc_range 1 5 demo_zeroed = Some (Ok (DRAM_BASE + 4 * PAGE_SIZE, true), demo_after) /\
  ~ DRAM_BASE + 4 * PAGE_SIZE <= DRAM_BASE + 3 * PAGE_SIZE < DRAM_BASE + 4 * PAGE_SIZE + 1 * PAGE_SIZE.
Proof.
  assert (Hal : alloc_range 1 5 demo_zeroed = Some (Ok (DRAM_BASE + 4 * PAGE_SIZE, true), demo_after)) by (by vm_compute).
  split; [exact Hal|].
  apply (released_page_not_zeroed allow_all_pages demo_owned demo_addr 4 demo_released
           [MmTakeDirty; MmSetZeroed 4 60] demo_zeroed 1 5 _ demo_after 3 demo_owned_reachable);
    [by vm_compute|by vm_compute|by vm_compute|by vm_compute|exact demo_zeroing_run|reflexivity
    |vm_compute; split; discriminate|exact Hal].
Defined.

(** Tearing a process down frees exactly its pages: afterwards it owns none,
    every other page keeps its owner, and its RAM pages are free and marked
    dirty. *)
Theorem release_all_exact {P : Platform} permitted m pid :
  mm_reachable permitted m ->
  exists m', release_all_memory_for_process pid m = Some (tt, m') /\
    (forall i, allocations m' !! i =
       if bool_decide (allocations m !! i = Some pid) then None else allocations m !! i) /\
    (forall i, allocations m !! i = Some pid -> i < RAM_PAGES ->
       i ∈ free_pages_dirty m' /\ i ∉ free_pages_zeroed m').
Proof.
  intros Hm%mm_reachable_inv. destruct (release_all_run pid m Hm) as (m' & Hr & _ & _ & Ha & Hd & _). by exists m'.
Qed.

Lemma release_all_exact_witness :
  exists m', release_all_memory_for_process 4 demo_owned = Some (tt, m') /\
    (forall i, allocations m' !! i =
       if bool_decide (allocations demo_owned !! i = Some 4) then None else allocations demo_owned !! i) /\
    (forall i, allocations demo_owned !! i = Some 4 -> i < RAM_PAGES ->
       i ∈ free_pages_dirty m' /\ i ∉ free_pages_zeroed m').
Proof. apply (release_all_exact allow_all_pages demo_owned 4 demo_owned_reachable). Defined.

(** Ownership transitions: for an address the owner table covers, a claim
    succeeds only on a page nobody owns, a move only on a page owned by the
    source or already by the target, a release only on a page of that process,
    which becomes free and dirty; each changes that one entry, and on an error
    nothing changes. *)
Theorem claim_release_move_exact {P : Platform} permitted m addr pid action :
  mm_reachable permitted m -> addr_tracked m addr = true ->
  exists r m', claim_release_move permitted addr pid action m = Some (r, m') /\
  match r with
  | Err _ => m' = m
  | Ok _ =>
      exists off, address_to_allocation_offset m addr = Some (Some off) /\
      match action with
      | Claim => allocations m !! off = None /\ allocations m' = <[off := pid]> (allocations m)
      | MoveFrom from =>
          (allocations m !! off = Some pid \/ allocations m !! off = Some from) /\
          allocations m' = <[off := pid]> (allocations m)
      | Release =>
          allocations m !! off = Some pid /\ allocations m' = delete off (allocations m) /\
          (off < RAM_PAGES -> off ∈ free_pages_dirty m' /\ off ∉ free_pages_zeroed m')
      end
  end.
Proof.
  intros Hm%mm_reachable_inv Ht.
  destruct (crm_run permitted m addr pid action Hm Ht) as (r & m' & Hr & _ & _ & Ho).
  exists r, m'. split; [done|]. destruct r; [|done]. destruct Ho as (off & Ho & Hc). by exists off.
Qed.

Lemma claim_release_move_exact_witness :
  exists r m', claim_release_move allow_all_pages demo_addr 6 (MoveFrom 4) demo_owned = Some (r, m') /\
  match r with
  | Err _ => m' = demo_owned
  | Ok _ =>
      exists off, address_to_allocation_offset demo_owned demo_addr = Some (Some off) /\
          (allocations demo_owned !! off = Some 6 \/ allocations demo_owned !! off = Some 4) /\
          allocations m' = <[off := 6]> (allocations demo_owned)
  end.
Proof. apply (claim_release_move_exact allow_all_pages demo_owned demo_addr 6 (MoveFrom 4) demo_owned_reachable). by vm_compute. Defined.

(** The obligation on addresses is not met by the callers when less RAM is
    installed than the platform's maximum: the owner table then has fewer
    slots than [RAM_PAGES], and claiming any page-aligned DRAM address beyond
    it, which [check_memory_permission] allows to every process, indexes out of
    bounds and panics the kernel. *)
Theorem claim_beyond_ram_panics {P : Platform} permitted m off pid :
  permitted pid (DRAM_BASE + off * PAGE_SIZE) = Ok tt ->
  num_allocations m <= off < RAM_PAGES -> 0 <= off ->
  claim_release_move permitted (DRAM_BASE + off * PAGE_SIZE) pid Claim m = None.
Proof.
  intros Hp Ho H0. unfold claim_release_move.
  assert (Hal : Z.land (DRAM_BASE + off * PAGE_SIZE) (PAGE_SIZE - 1) =? 0 = true).
  { apply Z.eqb_eq. change (PAGE_SIZE - 1) with (Z.ones 14). rewrite Z.land_ones by lia.
    change (2 ^ 14) with PAGE_SIZE. rewrite Z.mod_add by done. apply plat_base. }
  rewrite Hal, Hp. cbn [negb]. change (shared_peripheral pid _) with false. cbv iota.
  unfold bind, gets. rewrite dram_offset by lia. unfold expect, ret, assertb.
  destruct (Z.ltb_spec off (num_allocations m)); [lia|done].
Qed.

Lemma claim_beyond_ram_panics_witness :
  claim_release_move allow_all_pages (DRAM_BASE + 64 * PAGE_SIZE) 4 Claim demo_mm = None.
Proof. apply (claim_beyond_ram_panics allow_all_pages demo_mm 64 4); [done|vm_compute; split; [discriminate|done]|lia]. Defined.

(** The two sizes outside the allocation obligation panic: zero pages (the
    slice [..RAM_PAGES + 1] is out of range) and more pages than the platform's
    maximum (the subtraction [RAM_PAGES - num_pages] underflows). *)
Theorem alloc_size_panics {P : Platform} m n pid :
  n = 0 \/ RAM_PAGES < n -> alloc_range n pid m = None.
Proof.
  pose proof plat_pages. intros Hn. unfold alloc_range. destruct (Z.eqb_spec n 1) as [->|_]; [lia|].
  unfold alloc_range_aligned, bind, assertb. destruct (Z.leb_spec n RAM_PAGES) as [Hle|]; [|done].
  destruct Hn as [->|]; [|lia]. unfold ret, slice_ok.
  destruct (Z.leb_spec (RAM_PAGES - 0 + 1) RAM_PAGES); [lia|]. by rewrite andb_false_r.
Qed.

Lemma alloc_size_panics_witness : alloc_range 65537 4 demo_mm = None.
Proof. apply (alloc_size_panics demo_mm 65537 4). right. by vm_compute. Defined.
