(* ===== verification/PageTable.v ===== *)
(** * AArch64 page tables

    Models [xous/kernel/src/arch/aarch64/mem.rs]: page table entries, the
    three-level walk over 16 KiB tables, and the operations of [MemoryMapping]
    (allocate, map, unmap, move, lend, return, translate), with the linear map
    [phys_to_virt] of [beetos/src/lib.rs].

    The memory seen by the walker is a finite map from the kernel address of a
    table page to its entries; a table is in the map from the moment it is
    zeroed, and an entry never written since then reads as 0.  Cache and TLB
    maintenance has no effect on this memory and is left out.

    Physical pages come from an allocator, known only through the interface
    [PageAllocator]: the page tables are proved against its laws, and the
    allocator of [Memory] is shown to satisfy them. *)

From S2P Require Import Prelude Abi Memory.
From Stdlib Require Import ZArith Lia Bool.
From stdpp Require Import gmap.
Open Scope Z_scope.

(** ** The linear map *)

Definition KERNEL_VA_OFFSET : Z := 18446603336221196288. (* 0xFFFF_8000_0000_0000 *)
Definition phys_to_virt (pa : Z) : Z := usize (pa + KERNEL_VA_OFFSET).
Definition kernel_virt_to_phys (va : Z) : Z := usize (va - KERNEL_VA_OFFSET).

Definition USER_AREA_END : Z := 123145302310912. (* 0x0000_7000_0000_0000 *)

(** ** Entries *)

Definition PAGE_SHIFT : Z := 14.
Definition TABLE_ENTRIES : Z := 2048.
Definition TABLE_INDEX_BITS : Z := 11.

Definition PTE_VALID : Z := Z.shiftl 1 0.
Definition PTE_TABLE : Z := Z.shiftl 1 1.
Definition PTE_ATTR_IDX_SHIFT : Z := 2.
Definition PTE_ATTR_DEVICE : Z := Z.shiftl 0 PTE_ATTR_IDX_SHIFT.
Definition PTE_ATTR_NORMAL : Z := Z.shiftl 1 PTE_ATTR_IDX_SHIFT.
Definition PTE_AP_RW_EL1 : Z := Z.shiftl 0 6.
Definition PTE_AP_RW_ALL : Z := Z.shiftl 1 6.
Definition PTE_AP_RO_EL1 : Z := Z.shiftl 2 6.
Definition PTE_AP_RO_ALL : Z := Z.shiftl 3 6.
Definition PTE_SH_ISH : Z := Z.shiftl 3 8.
Definition PTE_AF : Z := Z.shiftl 1 10.
Definition PTE_NG : Z := Z.shiftl 1 11.
Definition PTE_PXN : Z := Z.shiftl 1 53.
Definition PTE_UXN : Z := Z.shiftl 1 54.
Definition PTE_ADDR_MASK : Z := 281474976694272. (* 0x0000_FFFF_FFFF_C000 *)

Definition l1_index (va : Z) : Z :=
  Z.land (Z.shiftr va (PAGE_SHIFT + 2 * TABLE_INDEX_BITS)) (TABLE_ENTRIES - 1).
Definition l2_index (va : Z) : Z :=
  Z.land (Z.shiftr va (PAGE_SHIFT + TABLE_INDEX_BITS)) (TABLE_ENTRIES - 1).
Definition l3_index (va : Z) : Z :=
  Z.land (Z.shiftr va PAGE_SHIFT) (TABLE_ENTRIES - 1).

Definition flags_to_pte (flags : MemoryFlags) (user : bool) : Z :=
  let pte := Z.lor (Z.lor (Z.lor PTE_VALID PTE_TABLE) PTE_AF) PTE_SH_ISH in
  let pte := if MemoryFlags_is_set flags MF_DEV then Z.lor pte PTE_ATTR_DEVICE
             else Z.lor pte PTE_ATTR_NORMAL in
  if user then
    let pte := Z.lor pte PTE_NG in
    let writable := MemoryFlags_is_set flags MF_W in
    let executable := MemoryFlags_is_set flags MF_X in
    if writable && executable then Z.lor (Z.lor pte PTE_AP_RW_ALL) (Z.lor PTE_UXN PTE_PXN)
    else if writable then Z.lor (Z.lor pte PTE_AP_RW_ALL) (Z.lor PTE_UXN PTE_PXN)
    else if executable then Z.lor (Z.lor pte PTE_AP_RO_ALL) PTE_PXN
    else Z.lor (Z.lor pte PTE_AP_RO_ALL) (Z.lor PTE_UXN PTE_PXN)
  else
    let pte := if MemoryFlags_is_set flags MF_W then Z.lor pte PTE_AP_RW_EL1
               else Z.lor pte PTE_AP_RO_EL1 in
    if MemoryFlags_is_set flags MF_X then Z.lor pte PTE_UXN
    else Z.lor pte (Z.lor PTE_UXN PTE_PXN).

(** The entry [map_page] writes. *)
Definition page_entry (phys : Z) (flags : MemoryFlags) (user : bool) : Z :=
  Z.lor (Z.land phys PTE_ADDR_MASK) (flags_to_pte flags user).

(** What the MMU grants through an entry (ARMv8-A VMSAv8-64, stage 1): AP[2:1]
    in bits 7:6, PXN in bit 53, UXN in bit 54. *)
Definition el0_readable (pte : Z) : bool := Z.testbit pte 6.
Definition el0_writable (pte : Z) : bool := Z.testbit pte 6 && negb (Z.testbit pte 7).
Definition el1_writable (pte : Z) : bool := negb (Z.testbit pte 7).
Definition el0_executable (pte : Z) : bool := negb (Z.testbit pte 54).
Definition el1_executable (pte : Z) : bool := negb (Z.testbit pte 53).

(** ** Mappings *)

Record MemoryMapping := mkMapping { ttbr0 : Z; map_pid : Z; aslr_slide : Z }.

(** The kernel address of the L1 table. *)
Abbreviation root m := (phys_to_virt (ttbr0 m)).

Definition get_pid (m : MemoryMapping) : PID :=
  match PID_new (map_pid m) with Some p => p | None => 1 end.

(** The value [activate] writes to TTBR0_EL1, and what [current] reads back. *)
Definition ttbr0_value (m : MemoryMapping) : Z := Z.lor (ttbr0 m) (usize (Z.shiftl (map_pid m) 48)).
Definition mapping_current (ttbr0_el1 contextidr_el1 : Z) : MemoryMapping :=
  mkMapping (Z.land ttbr0_el1 PTE_ADDR_MASK) contextidr_el1 0.

(** ** The interface of the physical page allocator *)

Class PageAllocator (A : Type) := {
  (** [alloc_range(1, pid)] *)
  pa_alloc : PID -> M A (res (Z * bool) Error);
  pa_inv : A -> Prop;
  pa_owner : A -> Z -> option PID;
  pa_alloc_spec : forall a pid, pa_inv a ->
    exists r a', pa_alloc pid a = Some (r, a') /\ pa_inv a' /\
    match r with
    | Ok (phys, _) =>
        pa_owner a phys = None /\
        (forall q, pa_owner a' q = if decide (q = phys) then Some pid else pa_owner a q) /\
        0 <= phys < 2 ^ 47 /\ phys mod PAGE_SIZE = 0
    | Err _ => a' = a
    end }.

(** The owner of a frame is kept by an allocation. *)
Definition owners_kept {A} `{PageAllocator A} (a a' : A) : Prop :=
  forall q pid, pa_owner a q = Some pid -> pa_owner a' q = Some pid.

Lemma owners_kept_some {A} `{PageAllocator A} (a a' : A) q :
  owners_kept a a' -> is_Some (pa_owner a q) -> is_Some (pa_owner a' q).
Proof. intros Hk [pid Hp]. exists pid. by apply Hk. Qed.

Section Tables.
Context {A : Type} `{PA : PageAllocator A}.

Abbreviation tables := (gmap Z (gmap Z Z)).
Record VM := mkVM { vm_mm : A; vm_tables : tables }.

(** [read_volatile(table.add(index))] and [write_volatile(table.add(index), e)] *)
Definition read_entry (t : tables) (table index : Z) : Z :=
  match t !! table with Some es => default 0 (es !! index) | None => 0 end.
Definition write_entry (t : tables) (table index e : Z) : tables :=
  <[table := <[index := e]> (default ∅ (t !! table))]> t.

Definition alloc_page (pid : PID) : M VM (res (Z * bool) Error) :=
  fun s => match pa_alloc pid (vm_mm s) with
           | Some (r, a) => Some (r, mkVM a (vm_tables s))
           | None => None
           end.

(** [write_bytes(table, 0, PAGE_SIZE)] *)
Definition zero_table (table : Z) : M VM unit :=
  modify (fun s => mkVM (vm_mm s) (<[table := ∅]> (vm_tables s))).

Definition valid (e : Z) : bool := negb (Z.land e PTE_VALID =? 0).
Definition is_table (e : Z) : bool := negb (Z.land e PTE_TABLE =? 0).

(** [phys_to_virt((entry & PTE_ADDR_MASK) as usize)] *)
Definition next_table (e : Z) : Z := phys_to_virt (Z.land e PTE_ADDR_MASK).

(** [MemoryMapping::allocate]; the mapping is returned updated. *)
Definition allocate (self : MemoryMapping) (pid : PID) : M VM (res MemoryMapping Error) :=
  r <- alloc_page pid ;;
  match r with
  | Err _ => ret (Err OutOfMemory)
  | Ok (l1_phys, _) =>
      _ <- zero_table (phys_to_virt l1_phys) ;;
      ret (Ok (mkMapping l1_phys pid (aslr_slide self)))
  end.

Definition ensure_table (m : MemoryMapping) (table index : Z) : M VM (res Z Error) :=
  entry <- gets (fun s => read_entry (vm_tables s) table index) ;;
  if valid entry && is_table entry then ret (Ok (next_table entry))
  else
    r <- alloc_page (get_pid m) ;;
    match r with
    | Err _ => ret (Err OutOfMemory)
    | Ok (new_table_pa, _) =>
        let new_table_va := phys_to_virt new_table_pa in
        _ <- zero_table new_table_va ;;
        let desc := Z.lor (Z.lor (Z.land new_table_pa PTE_ADDR_MASK) PTE_VALID) PTE_TABLE in
        _ <- modify (fun s => mkVM (vm_mm s) (write_entry (vm_tables s) table index desc)) ;;
        ret (Ok new_table_va)
    end.

Definition map_page (m : MemoryMapping) (phys va : Z) (flags : MemoryFlags) (map_user : bool)
  : M VM (res unit Error) :=
  l2_table <-? ensure_table m (phys_to_virt (ttbr0 m)) (l1_index va) ;;
  l3_table <-? ensure_table m l2_table (l2_index va) ;;
  _ <- modify (fun s => mkVM (vm_mm s)
         (write_entry (vm_tables s) l3_table (l3_index va) (page_entry phys flags map_user))) ;;
  ret (Ok tt).

(** The walk down to the L3 table shared by [unmap_page] and [virt_to_phys]. *)
Definition walk_l3 (t : tables) (m : MemoryMapping) (va : Z) : res Z Error :=
  let l1_entry := read_entry t (phys_to_virt (ttbr0 m)) (l1_index va) in
  if negb (valid l1_entry) then Err BadAddress
  else
    let l2_entry := read_entry t (next_table l1_entry) (l2_index va) in
    if negb (valid l2_entry) then Err BadAddress
    else Ok (next_table l2_entry).

Definition unmap_page (m : MemoryMapping) (va : Z) : M VM (res unit Error) :=
  walk <- gets (fun s => walk_l3 (vm_tables s) m va) ;;
  match walk with
  | Err e => ret (Err e)
  | Ok l3_table =>
      _ <- modify (fun s => mkVM (vm_mm s) (write_entry (vm_tables s) l3_table (l3_index va) 0)) ;;
      ret (Ok tt)
  end.

Definition virt_to_phys (t : tables) (m : MemoryMapping) (va : Z) : res Z Error :=
  l3_table <-! walk_l3 t m va ;;
  let l3_entry := read_entry t l3_table (l3_index va) in
  if negb (valid l3_entry) then Err BadAddress
  else Ok (Z.lor (Z.land l3_entry PTE_ADDR_MASK) (Z.land va (PAGE_SIZE - 1))).

Definition move_page (src : MemoryMapping) (src_addr : Z) (dest : MemoryMapping) (dest_addr : Z)
  : M VM (res unit Error) :=
  phys <-? gets (fun s => virt_to_phys (vm_tables s) src src_addr) ;;
  _ <-? unmap_page src src_addr ;;
  map_page dest phys dest_addr MF_W true.

Definition lend_page (src : MemoryMapping) (src_addr : Z) (dest : MemoryMapping) (dest_addr : Z)
    (mutable : bool) : M VM (res unit Error) :=
  phys <-? gets (fun s => virt_to_phys (vm_tables s) src src_addr) ;;
  map_page dest phys dest_addr (if mutable then MF_W else 0) true.

(** [return_page] on the borrower's mapping; the lender's is not touched. *)
Definition return_page (borrower : MemoryMapping) (src_addr : Z) (lender : MemoryMapping) (dest_addr : Z)
  : M VM (res unit Error) :=
  _ <-? unmap_page borrower src_addr ;; ret (Ok tt).

Definition address_available (t : tables) (m : MemoryMapping) (va : Z) : bool :=
  negb (is_ok (virt_to_phys t m va)).

Definition address_user_accessible (t : tables) (m : MemoryMapping) (va : Z) : bool :=
  if USER_AREA_END <=? va then false else is_ok (virt_to_phys t m va).

(** [ensure_page_exists] for the current mapping [m]; zeroing the new user
    page does not concern the tables. *)
Definition ensure_page_exists (m : MemoryMapping) (address : Z) : M VM (res unit Error) :=
  mapped <- gets (fun s => is_ok (virt_to_phys (vm_tables s) m address)) ;;
  if (mapped : bool) then ret (Ok tt)
  else
    page <-? alloc_page (get_pid m) ;;
    map_page m page.1 address MF_W true.

(** ** Entries and addresses *)

Lemma valid_testbit e : valid e = Z.testbit e 0.
Proof. apply land_bit_testbit. lia. Qed.
Lemma is_table_testbit e : is_table e = Z.testbit e 1.
Proof. apply land_bit_testbit. lia. Qed.

Lemma ADDR_MASK_ones : PTE_ADDR_MASK = Z.shiftl (Z.ones 34) 14.
Proof. done. Qed.

Lemma addr_mask_bits n : 0 <= n -> Z.testbit PTE_ADDR_MASK n = (14 <=? n) && (n <? 48).
Proof.
  intros Hn. rewrite ADDR_MASK_ones, Z.shiftl_spec by done.
  destruct (Z.leb_spec 14 n).
  - rewrite Z.testbit_ones_nonneg by lia. apply eq_true_iff_eq. rewrite andb_true_iff, !Z.ltb_lt. lia.
  - by rewrite Z.testbit_neg_r by lia.
Qed.

Lemma addr_mask_aligned pa : 0 <= pa < 2 ^ 47 -> pa mod PAGE_SIZE = 0 -> Z.land pa PTE_ADDR_MASK = pa.
Proof.
  intros Hb Ha. apply Z.bits_inj'. intros n Hn. rewrite Z.land_spec, addr_mask_bits by done.
  destruct (Z.leb_spec 14 n) as [H1|H1]; cbn.
  - destruct (Z.ltb_spec n 48) as [|H2]; [by rewrite andb_true_r|]. rewrite andb_false_r. symmetry.
    destruct (Z.eq_dec pa 0) as [->|]; [apply Z.bits_0|].
    apply Z.bits_above_log2; [lia|]. apply Z.log2_lt_pow2; [lia|].
    apply Z.lt_le_trans with (2 ^ 47); [lia|]. apply Z.pow_le_mono_r; lia.
  - rewrite andb_false_r. symmetry. change PAGE_SIZE with (2 ^ 14) in Ha.
    rewrite <- (Z.mod_pow2_bits_low pa 14) by lia. rewrite Ha. apply Z.bits_0.
Qed.

(** The address field of an entry whose other bits are attributes. *)
Lemma addr_field_lor x f : Z.land f PTE_ADDR_MASK = 0 ->
  Z.land (Z.lor (Z.land x PTE_ADDR_MASK) f) PTE_ADDR_MASK = Z.land x PTE_ADDR_MASK.
Proof.
  intros Hf. rewrite Z.land_lor_distr_l, Hf, Z.lor_0_r, <- Z.land_assoc, Z.land_diag. done.
Qed.

Lemma flags_to_pte_cases flags user (Q : Z -> Prop) :
  (forall dev w x, Q (flags_to_pte
     (Z.lor (Z.lor (if dev : bool then MF_DEV else 0) (if w : bool then MF_W else 0)) (if x : bool then MF_X else 0)) user)) ->
  Q (flags_to_pte flags user).
Proof.
  intros H. specialize (H (MemoryFlags_is_set flags MF_DEV) (MemoryFlags_is_set flags MF_W) (MemoryFlags_is_set flags MF_X)).
  unfold flags_to_pte in *. revert H.
  by destruct (MemoryFlags_is_set flags MF_DEV), (MemoryFlags_is_set flags MF_W), (MemoryFlags_is_set flags MF_X).
Qed.

Lemma flags_to_pte_attrs flags user :
  Z.land (flags_to_pte flags user) PTE_ADDR_MASK = 0 /\ Z.testbit (flags_to_pte flags user) 0 = true.
Proof.
  apply (flags_to_pte_cases flags user (fun e => Z.land e PTE_ADDR_MASK = 0 /\ Z.testbit e 0 = true)).
  intros dev w x. by destruct dev, w, x, user.
Qed.

Lemma page_entry_addr phys flags user :
  Z.land (page_entry phys flags user) PTE_ADDR_MASK = Z.land phys PTE_ADDR_MASK /\
  valid (page_entry phys flags user) = true.
Proof.
  destruct (flags_to_pte_attrs flags user) as [Ha Hv]. unfold page_entry. split.
  - by apply addr_field_lor.
  - rewrite valid_testbit, Z.lor_spec, Hv. apply orb_true_r.
Qed.

Lemma page_entry_attr phys flags user n : 0 <= n -> (14 <=? n) && (n <? 48) = false ->
  Z.testbit (page_entry phys flags user) n = Z.testbit (flags_to_pte flags user) n.
Proof.
  intros Hn Hm. unfold page_entry. rewrite Z.lor_spec, Z.land_spec, addr_mask_bits, Hm by done.
  by rewrite andb_false_r.
Qed.

(** What each privilege level may do with a page, by the flags it was mapped with. *)
Lemma user_entry_perms phys flags :
  let e := page_entry phys flags true in
  el0_readable e = true /\ el0_writable e = MemoryFlags_is_set flags MF_W /\
  el0_executable e = (MemoryFlags_is_set flags MF_X && negb (MemoryFlags_is_set flags MF_W)) /\
  el1_executable e = false /\ Z.testbit e 11 = true.
Proof.
  cbn zeta. unfold el0_readable, el0_writable, el0_executable, el1_executable.
  rewrite !page_entry_attr by done. unfold flags_to_pte.
  by destruct (MemoryFlags_is_set flags MF_DEV), (MemoryFlags_is_set flags MF_W), (MemoryFlags_is_set flags MF_X).
Qed.

Lemma kernel_entry_perms phys flags :
  let e := page_entry phys flags false in
  el0_readable e = false /\ el0_writable e = false /\ el0_executable e = false /\
  el1_writable e = MemoryFlags_is_set flags MF_W /\ el1_executable e = MemoryFlags_is_set flags MF_X.
Proof.
  cbn zeta. unfold el0_readable, el0_writable, el0_executable, el1_writable, el1_executable.
  rewrite !page_entry_attr by done. unfold flags_to_pte.
  by destruct (MemoryFlags_is_set flags MF_DEV), (MemoryFlags_is_set flags MF_W), (MemoryFlags_is_set flags MF_X).
Qed.

Lemma phys_to_virt_inj p q :
  0 <= p < 2 ^ 47 -> 0 <= q < 2 ^ 47 -> phys_to_virt p = phys_to_virt q -> p = q.
Proof.
  intros Hp Hq. unfold phys_to_virt, wrap. change KERNEL_VA_OFFSET with (2 ^ 64 - 2 ^ 47).
  rewrite !Z.mod_small by lia. lia.
Qed.

Definition table_desc (pa : Z) : Z := Z.lor (Z.lor (Z.land pa PTE_ADDR_MASK) PTE_VALID) PTE_TABLE.

Lemma table_desc_spec pa : 0 <= pa < 2 ^ 47 -> pa mod PAGE_SIZE = 0 ->
  next_table (table_desc pa) = phys_to_virt pa /\ valid (table_desc pa) = true /\ is_table (table_desc pa) = true.
Proof.
  intros Hb Ha. unfold table_desc. rewrite <- Z.lor_assoc. split.
  - unfold next_table. rewrite addr_field_lor by done. by rewrite addr_mask_aligned.
  - rewrite valid_testbit, is_table_testbit, !Z.lor_spec. by rewrite !orb_true_r.
Qed.

(** ** The tree of tables *)

Inductive node := N1 | N2 (i : Z) | N3 (i j : Z).
#[local] Instance node_eq_dec : EqDecision node.
Proof. solve_decision. Defined.

Definition entry_next (e : Z) : option Z := if valid e then Some (next_table e) else None.

(** The table the walk from [root] reaches at a node. *)
Definition table_at (t : tables) (root : Z) (p : node) : option Z :=
  match p with
  | N1 => Some root
  | N2 i => entry_next (read_entry t root i)
  | N3 i j =>
      match entry_next (read_entry t root i) with
      | Some l2 => entry_next (read_entry t l2 j)
      | None => None
      end
  end.

Definition leaf (p : node) : bool := match p with N3 _ _ => true | _ => false end.
Definition child (p : node) (j : Z) : node := match p with N1 => N2 j | N2 i => N3 i j | N3 _ _ => p end.

Lemma inner_cases p : leaf p = false -> p = N1 \/ exists i, p = N2 i.
Proof. destruct p; [by left|right; eauto|done]. Qed.

Lemma table_at_child t root p j :
  leaf p = false ->
  table_at t root (child p j) =
  match table_at t root p with Some a => entry_next (read_entry t a j) | None => None end.
Proof. by destruct p. Qed.

(** The address spaces with roots in [R]: no table page occurs twice, inner
    entries point to tables, and every table page is owned. *)
Record vm_inv (R : gset Z) (s : VM) : Prop := {
  vi_mm : pa_inv (vm_mm s);
  vi_inj : forall r1 r2 p q a, r1 ∈ R -> r2 ∈ R ->
    table_at (vm_tables s) r1 p = Some a -> table_at (vm_tables s) r2 q = Some a -> r1 = r2 /\ p = q;
  vi_tab : forall r p a j, r ∈ R -> leaf p = false -> table_at (vm_tables s) r p = Some a ->
    valid (read_entry (vm_tables s) a j) = true -> is_table (read_entry (vm_tables s) a j) = true;
  vi_own : forall r p a, r ∈ R -> table_at (vm_tables s) r p = Some a ->
    exists pa, a = phys_to_virt pa /\ 0 <= pa < 2 ^ 47 /\ pa mod PAGE_SIZE = 0 /\ is_Some (pa_owner (vm_mm s) pa) }.

(** The L3 entry of a virtual address (0 where the walk ends early). *)
Definition pte_of (t : tables) (root va : Z) : Z :=
  match table_at t root (N3 (l1_index va) (l2_index va)) with
  | Some a => read_entry t a (l3_index va)
  | None => 0
  end.

(** Two addresses translated by the same L3 entry. *)
Definition same_page (va va' : Z) : bool :=
  (l1_index va =? l1_index va') && (l2_index va =? l2_index va') && (l3_index va =? l3_index va').

Lemma walk_l3_table t m va :
  walk_l3 t m va =
  match table_at t (phys_to_virt (ttbr0 m)) (N3 (l1_index va) (l2_index va)) with
  | Some a => Ok a | None => Err BadAddress end.
Proof.
  unfold walk_l3, table_at, entry_next.
  destruct (valid (read_entry t (phys_to_virt (ttbr0 m)) (l1_index va))); cbn; [|done].
  by destruct (valid _).
Qed.

(** Translation is determined by the entry. *)
Lemma virt_to_phys_pte t m va :
  virt_to_phys t m va =
  let e := pte_of t (phys_to_virt (ttbr0 m)) va in
  if valid e then Ok (Z.lor (Z.land e PTE_ADDR_MASK) (Z.land va (PAGE_SIZE - 1))) else Err BadAddress.
Proof.
  unfold virt_to_phys, pte_of. rewrite walk_l3_table.
  destruct (table_at t _ _) as [a|]; cbn [res_bind]; [|done]. by destruct (valid (read_entry t a _)).
Qed.

Lemma read_write_eq t a j e : read_entry (write_entry t a j e) a j = e.
Proof. unfold read_entry, write_entry. by rewrite !lookup_insert_eq. Qed.
Lemma read_write_ne t a j e b k : b <> a \/ k <> j -> read_entry (write_entry t a j e) b k = read_entry t b k.
Proof.
  intros H. unfold read_entry, write_entry. destruct (decide (b = a)) as [->|Hne].
  - destruct H as [|H]; [done|]. rewrite lookup_insert_eq, lookup_insert_ne by congruence.
    by destruct (t !! a).
  - by rewrite lookup_insert_ne.
Qed.
Lemma read_zeroed t a b k : read_entry (<[a := ∅]> t) b k = if decide (b = a) then 0 else read_entry t b k.
Proof.
  unfold read_entry. destruct (decide (b = a)) as [->|].
  - by rewrite lookup_insert_eq, lookup_empty.
  - by rewrite lookup_insert_ne.
Qed.

(** Tables whose inner entries are untouched are reached as before. *)
Lemma table_at_frame t t' r q :
  (forall p b k, leaf p = false -> table_at t r p = Some b -> read_entry t' b k = read_entry t b k) ->
  table_at t' r q = table_at t r q.
Proof.
  intros H. destruct q as [|i|i j]; [done| |]; cbn.
  - by rewrite (H N1 r i).
  - rewrite (H N1 r i) by done. destruct (entry_next (read_entry t r i)) as [l2|] eqn:E; [|done].
    by rewrite (H (N2 i) l2 j).
Qed.

(** Writing a page entry in an L3 table. *)
Lemma table_at_write_leaf R s r i j a k e r' q :
  vm_inv R s -> r ∈ R -> r' ∈ R -> table_at (vm_tables s) r (N3 i j) = Some a ->
  table_at (write_entry (vm_tables s) a k e) r' q = table_at (vm_tables s) r' q.
Proof.
  intros Hinv Hr Hr' Ha. apply table_at_frame. intros p b k' Hp Hb. apply read_write_ne. left.
  intros ->. destruct (vi_inj R s Hinv r r' (N3 i j) p a Hr Hr' Ha Hb) as [_ <-]. done.
Qed.

Lemma write_leaf_inv R s r i j a k e :
  vm_inv R s -> r ∈ R -> table_at (vm_tables s) r (N3 i j) = Some a ->
  vm_inv R (mkVM (vm_mm s) (write_entry (vm_tables s) a k e)).
Proof.
  intros Hinv Hr Ha.
  assert (Hat : forall r' q, r' ∈ R -> table_at (write_entry (vm_tables s) a k e) r' q = table_at (vm_tables s) r' q)
    by (intros; by apply (table_at_write_leaf R s r i j)).
  split; cbn.
  - apply Hinv.
  - intros r1 r2 p q b H1 H2. rewrite !Hat by done. by apply (vi_inj R s Hinv).
  - intros r1 p b j' H1 Hp. rewrite Hat by done. intros Hb.
    rewrite read_write_ne; [eapply (vi_tab R s Hinv); eauto|]. left. intros ->.
    destruct (vi_inj R s Hinv r r1 (N3 i j) p a Hr H1 Ha Hb) as [_ <-]. done.
  - intros r1 p b H1. rewrite Hat by done. by apply (vi_own R s Hinv).
Qed.

(** A new, zeroed table linked at a free inner entry. *)
Section Link.
Context (R : gset Z) (s : VM) (r : Z) (p : node) (a idx pa : Z) (mm' : A).
Hypothesis Hinv : vm_inv R s.
Hypothesis Hr : r ∈ R.
Hypothesis Hp : leaf p = false.
Hypothesis Ha : table_at (vm_tables s) r p = Some a.
Hypothesis Hfree : valid (read_entry (vm_tables s) a idx) = false.
Hypothesis Hpa : 0 <= pa < 2 ^ 47.
Hypothesis Hal : pa mod PAGE_SIZE = 0.
Hypothesis Hnew : pa_owner (vm_mm s) pa = None.
Hypothesis Hmm : pa_inv mm'.
Hypothesis Hown : is_Some (pa_owner mm' pa).
Hypothesis Hmono : owners_kept (vm_mm s) mm'.

Let t : tables := vm_tables s.
Let na : Z := phys_to_virt pa.
Let t' : tables := write_entry (<[na := ∅]> t) a idx (table_desc pa).

Lemma link_fresh r' q b : r' ∈ R -> table_at t r' q = Some b -> b <> na.
Proof.
  intros H1 H2 ->. destruct (vi_own R s Hinv r' q na H1 H2) as (pa' & E & Hb & _ & Ho).
  apply phys_to_virt_inj in E; [|done|done]. subst pa'. rewrite Hnew in Ho. by destruct Ho.
Qed.

Lemma link_read b k :
  read_entry t' b k =
  if decide (b = a /\ k = idx) then table_desc pa else if decide (b = na) then 0 else read_entry t b k.
Proof.
  subst t'. destruct (decide (b = a /\ k = idx)) as [[-> ->]|Hne].
  - apply read_write_eq.
  - rewrite read_write_ne by (destruct (decide (b = a)) as [->|]; [right; intros ->; by apply Hne|by left]).
    apply read_zeroed.
Qed.

Lemma link_next : entry_next (table_desc pa) = Some na.
Proof.
  unfold entry_next. destruct (table_desc_spec pa Hpa Hal) as (E & -> & _). by rewrite E.
Qed.

Lemma link_table_at r' q : r' ∈ R ->
  table_at t' r' q = if decide (r' = r /\ q = child p idx) then Some na else table_at t r' q.
Proof.
  intros Hr'.
  assert (Hf := fun q b => link_fresh r' q b Hr').
  assert (Hsame : forall x b k, table_at t r' x = Some b -> leaf x = false ->
            ~ (r' = r /\ x = p /\ k = idx) -> read_entry t' b k = read_entry t b k).
  { intros x b k Hb Hx Hne. rewrite link_read. rewrite (decide_False (P := b = na)) by (by eapply Hf).
    apply decide_False. intros [-> ->].
    destruct (vi_inj R s Hinv r r' p x a Hr Hr' Ha Hb) as [<- <-]. by apply Hne. }
  assert (Hna : forall k, entry_next (read_entry t' na k) = None).
  { intros k. rewrite link_read. rewrite decide_False; [by rewrite decide_True|].
    intros [E _]. by apply (link_fresh r p a). }
  destruct (decide (r' = r /\ q = child p idx)) as [[-> ->]|Hne].
  - rewrite table_at_child by done.
    assert (Hat : table_at t' r p = Some a).
    { rewrite <- Ha. destruct (inner_cases p Hp) as [Ep|[i Ep]]; rewrite Ep; [done|]. cbn.
      rewrite (Hsame N1 r i); [done|done|done|]. rewrite Ep. by intros (_ & ? & _). }
    rewrite Hat, link_read, decide_True by done. apply link_next.
  - destruct q as [|i|i j]; [done| |].
    + cbn. rewrite (Hsame N1 r' i); [done|done|done|]. intros (-> & Ep & ->). apply Hne. by rewrite <- Ep.
    + cbn. destruct (decide (r' = r /\ N1 = p /\ i = idx)) as [(-> & Ep & ->)|Hn1].
      * assert (E : r = a) by (pose proof Ha as H; rewrite <- Ep in H; by injection H).
        rewrite E, link_read, decide_True, link_next by done. rewrite Hna.
        unfold entry_next at 1. change (valid (read_entry t a idx)) with (valid (read_entry (vm_tables s) a idx)).
        by rewrite Hfree.
      * rewrite (Hsame N1 r' i) by done.
        destruct (entry_next (read_entry t r' i)) as [l2|] eqn:E; [|done].
        rewrite (Hsame (N2 i) l2 j); [done|done|done|]. intros (-> & Ep & ->). apply Hne. by rewrite <- Ep.
Qed.

Lemma link_inv : vm_inv R (mkVM mm' t').
Proof.
  split; cbn [vm_mm vm_tables]; [done| | |].
  - intros r1 r2 x y b H1 H2. rewrite !link_table_at by done.
    destruct (decide _) as [[-> ->]|]; destruct (decide _) as [[-> ->]|].
    + done.
    + intros [= <-] Hb. by destruct (link_fresh r2 y na H2 Hb).
    + intros Hb [= <-]. by destruct (link_fresh r1 x na H1 Hb).
    + by apply (vi_inj R s Hinv).
  - intros r1 x b j H1 Hx. rewrite link_table_at by done. rewrite link_read.
    destruct (table_desc_spec pa Hpa Hal) as (_ & _ & Htab).
    destruct (decide (b = a /\ j = idx)); [done|].
    destruct (decide (b = na)); [done|].
    destruct (decide _) as [_|]; [congruence|]. intros Hb. eapply (vi_tab R s Hinv); eauto.
  - intros r1 x b H1. rewrite link_table_at by done. destruct (decide _) as [_|].
    + intros [= <-]. by exists pa.
    + intros Hb. destruct (vi_own R s Hinv r1 x b H1 Hb) as (pa' & ? & ? & ? & Hs). exists pa'. do 3 (split; [done|]). by apply (owners_kept_some _ _ _ Hmono).
Qed.

Lemma link_pte r' va : r' ∈ R -> pte_of t' r' va = pte_of t r' va.
Proof.
  intros Hr'. unfold pte_of. rewrite link_table_at by done.
  destruct (decide _) as [[-> Hc]|Hne].
  - assert (Hnone : table_at t r (N3 (l1_index va) (l2_index va)) = None).
    { rewrite Hc, table_at_child by done. unfold t. rewrite Ha. unfold entry_next. by rewrite Hfree. }
    rewrite Hnone, link_read. rewrite decide_False; [by rewrite decide_True|].
    intros [E _]. by apply (link_fresh r p a).
  - destruct (table_at t r' _) as [b|] eqn:Hb; [|done]. rewrite link_read.
    rewrite (decide_False (P := b = na)) by (by eapply link_fresh). apply decide_False.
    intros [-> _]. destruct (vi_inj R s Hinv r r' p _ a Hr Hr' Ha Hb) as [_ E]. by rewrite E in Hp.
Qed.
End Link.

(** ** Specifications of the operations *)

(** Tables may have been added, on pages nobody owned. *)
Record vm_step (R : gset Z) (s s' : VM) : Prop := {
  st_inv : vm_inv R s';
  st_own : owners_kept (vm_mm s) (vm_mm s');
  st_at : forall r p a, r ∈ R -> table_at (vm_tables s) r p = Some a -> table_at (vm_tables s') r p = Some a;
  st_new : forall r p a, r ∈ R -> table_at (vm_tables s') r p = Some a ->
    table_at (vm_tables s) r p = Some a \/
    exists pa, a = phys_to_virt pa /\ 0 <= pa < 2 ^ 47 /\ pa_owner (vm_mm s) pa = None }.

(** ... and no translation has changed. *)
Definition vm_grows (R : gset Z) (s s' : VM) : Prop :=
  vm_step R s s' /\
  forall r va, r ∈ R -> pte_of (vm_tables s') r va = pte_of (vm_tables s) r va.

Lemma vm_step_refl R s : vm_inv R s -> vm_step R s s.
Proof. intros H. split; [done|by intros q pid|done|by left]. Qed.

Lemma vm_step_trans R s1 s2 s3 : vm_step R s1 s2 -> vm_step R s2 s3 -> vm_step R s1 s3.
Proof.
  intros [_ O1 A1 N1'] [I2 O2 A2 N2']. split; [done|by intros q pid H%O1%O2|auto|].
  intros r p a Hr Ha. destruct (N2' r p a Hr Ha) as [Ha2|(pa & E & Hb & Ho)]; [auto|].
  right. exists pa. split_and!; try done; try lia.
  destruct (pa_owner (vm_mm s1) pa) as [o|] eqn:Eo; [|done]. apply O1 in Eo. congruence.
Qed.

Lemma vm_grows_refl R s : vm_inv R s -> vm_grows R s s.
Proof. intros H. split; [by apply vm_step_refl|done]. Qed.

Lemma vm_grows_trans R s1 s2 s3 : vm_grows R s1 s2 -> vm_grows R s2 s3 -> vm_grows R s1 s3.
Proof.
  intros [G1 P1] [G2 P2]. split; [by eapply vm_step_trans|]. intros r va Hr. by rewrite P2, P1.
Qed.

Lemma owner_update (a a' : A) phys pid :
  (forall q, pa_owner a' q = if decide (q = phys) then Some pid else pa_owner a q) -> pa_owner a phys = None ->
  is_Some (pa_owner a' phys) /\ owners_kept a a'.
Proof.
  intros H Hn. split; [rewrite H, decide_True by done; eauto|].
  intros q o Hq. rewrite H. destruct (decide (q = phys)) as [->|]; [congruence|done].
Qed.

Lemma ensure_table_run R s r p a m idx :
  vm_inv R s -> r ∈ R -> leaf p = false -> table_at (vm_tables s) r p = Some a ->
  exists o s', ensure_table m a idx s = Some (o, s') /\ vm_grows R s s' /\
    match o with
    | Ok b => table_at (vm_tables s') r (child p idx) = Some b
    | Err e => e = OutOfMemory /\ s' = s
    end.
Proof.
  intros Hinv Hr Hp Ha. unfold ensure_table, bind, gets.
  destruct (valid (read_entry (vm_tables s) a idx)) eqn:Ev.
  - rewrite (vi_tab R s Hinv r p a idx) by done. cbn. eexists _, _. split_and!; [done|by apply vm_grows_refl|].
    rewrite table_at_child, Ha by done. unfold entry_next. by rewrite Ev.
  - cbn [andb]. unfold alloc_page.
    destruct (pa_alloc_spec (vm_mm s) (get_pid m)) as (o & mm' & E & Hmm & Ho); [apply Hinv|].
    rewrite E. destruct o as [[pa z]|e].
    + destruct Ho as (Hnew & Hown & Hb & Hal). apply owner_update in Hown as [Hown Hmono]; [|done]. cbn.
      fold (table_desc pa). eexists _, _. split_and!; [done| |].
      * split; [split; cbn [vm_mm vm_tables]|].
        -- by apply (link_inv R s r p).
        -- done.
        -- intros r1 q b H1 Hq. rewrite (link_table_at R s r p) by done.
           destruct (decide _) as [[-> ->]|]; [|done]. rewrite table_at_child, Ha in Hq by done.
           unfold entry_next in Hq. by rewrite Ev in Hq.
        -- intros r1 q b H1. rewrite (link_table_at R s r p) by done. destruct (decide _) as [_|]; [|by left].
           intros [= <-]. right. by exists pa.
        -- intros r1 va H1. by apply (link_pte R s r p).
      * cbn. rewrite (link_table_at R s r p) by done. by rewrite decide_True.
    + subst mm'. destruct s as [mm t]. cbn. eexists _, _. split_and!; [done|by apply vm_grows_refl|done..].
Qed.

(** Allocating a page does not disturb the tables. *)
Lemma vm_inv_mm R s mm' : vm_inv R s -> pa_inv mm' -> owners_kept (vm_mm s) mm' ->
  vm_inv R (mkVM mm' (vm_tables s)).
Proof.
  intros Hinv Hmm Hmono. split; [done|apply Hinv..|]. intros r p a H1 H2.
  destruct (vi_own R s Hinv r p a H1 H2) as (q & ? & ? & ? & Hs).
  exists q. do 3 (split; [done|]). by apply (owners_kept_some _ _ _ Hmono).
Qed.

Lemma same_page_eq va va' :
  same_page va va' = true <->
  l1_index va = l1_index va' /\ l2_index va = l2_index va' /\ l3_index va = l3_index va'.
Proof. unfold same_page. rewrite !andb_true_iff, !Z.eqb_eq. tauto. Qed.

Lemma pte_of_same_page t r va va' : same_page va va' = true -> pte_of t r va' = pte_of t r va.
Proof. intros (E1 & E2 & E3)%same_page_eq. unfold pte_of. by rewrite E1, E2, E3. Qed.

(** Effect of an operation that rewrites the entry of [va] in the address
    space of [r]. *)
Definition pte_update (R : gset Z) (s s' : VM) (r va e : Z) : Prop :=
  forall r' va', r' ∈ R ->
    pte_of (vm_tables s') r' va' =
    if decide (r' = r) then if same_page va va' then e else pte_of (vm_tables s) r' va'
    else pte_of (vm_tables s) r' va'.

Lemma write_leaf_pte R s r va a e :
  vm_inv R s -> r ∈ R -> table_at (vm_tables s) r (N3 (l1_index va) (l2_index va)) = Some a ->
  pte_update R s (mkVM (vm_mm s) (write_entry (vm_tables s) a (l3_index va) e)) r va e.
Proof.
  intros Hinv Hr Ha r' va' Hr'. unfold pte_of. cbn [vm_tables].
  rewrite (table_at_write_leaf R s r (l1_index va) (l2_index va)) by done.
  destruct (table_at (vm_tables s) r' (N3 (l1_index va') (l2_index va'))) as [b|] eqn:Hb.
  - destruct (decide (r' = r)) as [->|Hne].
    + destruct (same_page va va') eqn:Es.
      * apply same_page_eq in Es as (E1 & E2 & E3). rewrite <- E1, <- E2, Ha in Hb. injection Hb as <-.
        rewrite E3. apply read_write_eq.
      * apply read_write_ne. destruct (decide (b = a)) as [->|]; [right|by left]. intros E3.
        destruct (vi_inj R s Hinv r r _ _ a Hr Hr Ha Hb) as [_ [= E1 E2]].
        apply not_true_iff_false in Es. apply Es. by apply same_page_eq.
    + apply read_write_ne. left. intros ->.
      by destruct (vi_inj R s Hinv r r' _ _ a Hr Hr' Ha Hb) as [<- _].
  - destruct (decide (r' = r)) as [->|]; [|done].
    destruct (same_page va va') eqn:Es; [|done]. apply same_page_eq in Es as (E1 & E2 & E3).
    by rewrite <- E1, <- E2, Ha in Hb.
Qed.

Lemma write_leaf_step R s r i j a k e :
  vm_inv R s -> r ∈ R -> table_at (vm_tables s) r (N3 i j) = Some a ->
  vm_step R s (mkVM (vm_mm s) (write_entry (vm_tables s) a k e)).
Proof.
  intros Hinv Hr Ha. split; cbn.
  - by eapply write_leaf_inv.
  - by intros q pid.
  - intros r1 p b H1. by rewrite (table_at_write_leaf R s r i j).
  - intros r1 p b H1. rewrite (table_at_write_leaf R s r i j) by done. by left.
Qed.

Lemma map_page_run R s m phys va flags user :
  vm_inv R s -> root m ∈ R ->
  exists o s', map_page m phys va flags user s = Some (o, s') /\ vm_step R s s' /\
    match o with
    | Ok _ => pte_update R s s' (root m) va (page_entry phys flags user)
    | Err e => e = OutOfMemory /\ vm_grows R s s'
    end.
Proof.
  intros Hinv Hr. unfold map_page, bind_try, bind.
  destruct (ensure_table_run R s (root m) N1 (root m) m (l1_index va)) as (o1 & s1 & E1 & G1 & H1); [done..|].
  rewrite E1. destruct o1 as [l2|e]; [|destruct H1 as [-> ->]; eexists _, _; split_and!; try done; apply G1].
  destruct (ensure_table_run R s1 (root m) (N2 (l1_index va)) l2 m (l2_index va)) as (o2 & s2 & E2 & G2 & H2);
    [apply G1|done..|].
  rewrite E2. pose proof (vm_grows_trans R s s1 s2 G1 G2) as G.
  destruct o2 as [l3|e]; [|destruct H2 as [-> ->]; eexists _, _; split_and!; try done; apply G].
  cbn. eexists _, _. split_and!; [done| |].
  - eapply vm_step_trans; [apply G|]. eapply write_leaf_step; [apply G|done|done].
  - intros r' va' Hr'. pose proof (write_leaf_pte R s2 (root m) va l3 (page_entry phys flags user)
      (st_inv _ _ _ (proj1 G2)) Hr H2 r' va' Hr') as ->. by rewrite (proj2 G) by done.
Qed.

Lemma unmap_page_run R s m va :
  vm_inv R s -> root m ∈ R ->
  exists o s', unmap_page m va s = Some (o, s') /\ vm_step R s s' /\ vm_mm s' = vm_mm s /\
    match o with
    | Ok _ => pte_update R s s' (root m) va 0
    | Err e => e = BadAddress /\ s' = s /\ pte_of (vm_tables s) (root m) va = 0
    end.
Proof.
  intros Hinv Hr. unfold unmap_page, bind, gets. rewrite walk_l3_table. unfold pte_of.
  destruct (table_at (vm_tables s) (root m) _) as [a|] eqn:Ha; cbn; eexists _, _; split_and!; try done.
  - by eapply write_leaf_step.
  - by apply write_leaf_pte.
  - by apply vm_step_refl.
Qed.

(** A fresh, empty address space. *)
Lemma allocate_run R s m0 pid :
  vm_inv R s ->
  exists o s', allocate m0 pid s = Some (o, s') /\
    match o with
    | Ok m => root m ∉ R /\ vm_inv ({[root m]} ∪ R) s' /\ map_pid m = pid /\
              (forall va, pte_of (vm_tables s') (root m) va = 0) /\
              (forall r va, r ∈ R -> pte_of (vm_tables s') r va = pte_of (vm_tables s) r va)
    | Err e => e = OutOfMemory /\ s' = s
    end.
Proof.
  intros Hinv. unfold allocate, bind, alloc_page.
  destruct (pa_alloc_spec (vm_mm s) pid) as (o & mm' & E & Hmm & Ho); [apply Hinv|].
  rewrite E. destruct o as [[pa z]|e]; [|subst mm'; destruct s; by eexists _, _].
  destruct Ho as (Hnew & Hown & Hb & Hal). apply owner_update in Hown as [Hown Hmono]; [|done]. cbn. set (na := phys_to_virt pa).
  eexists _, _. split; [done|]. cbn. fold na.
  assert (Hf : forall r q b, r ∈ R -> table_at (vm_tables s) r q = Some b -> b <> na)
    by (intros r q b; by apply (link_fresh R s pa Hinv)).
  assert (Hat : forall r q, r ∈ R -> table_at (<[na:=∅]> (vm_tables s)) r q = table_at (vm_tables s) r q).
  { intros r q Hr. apply table_at_frame. intros p b k _ Hb'. rewrite read_zeroed.
    by rewrite decide_False by (by eapply Hf). }
  assert (Hroot : forall q b, table_at (<[na:=∅]> (vm_tables s)) na q = Some b -> q = N1 /\ b = na).
  { intros [|i|i j] b; cbn; [intros [= <-]; done|..]; by rewrite read_zeroed, decide_True by done. }
  assert (HnR : na ∉ R) by (intros Hin; by apply (Hf na N1 na Hin)).
  split_and!; [done| |done| |].
  - split; cbn; [done| | |].
    + intros r1 r2 p q b [->%elem_of_singleton|H1]%elem_of_union [->%elem_of_singleton|H2]%elem_of_union.
      * by intros [-> ->]%Hroot [-> _]%Hroot.
      * intros [-> ->]%Hroot. rewrite Hat by done. intros Hb'. by destruct (Hf r2 q na H2 Hb').
      * intros Hb' [-> ->]%Hroot. rewrite Hat in Hb' by done. by destruct (Hf r1 p na H1 Hb').
      * rewrite !Hat by done. by apply (vi_inj R s Hinv).
    + intros r p b j [->%elem_of_singleton|H1]%elem_of_union Hp.
      * intros [-> ->]%Hroot. by rewrite read_zeroed, decide_True.
      * rewrite Hat by done. intros Hb'. rewrite read_zeroed, decide_False by (by eapply Hf).
        eapply (vi_tab R s Hinv); eauto.
    + intros r p b [->%elem_of_singleton|H1]%elem_of_union.
      * intros [-> ->]%Hroot. by exists pa.
      * rewrite Hat by done. intros Hb'. destruct (vi_own R s Hinv r p b H1 Hb') as (pa' & ? & ? & ? & Hs).
        exists pa'. do 3 (split; [done|]). by apply (owners_kept_some _ _ _ Hmono).
  - intros va. unfold pte_of. cbn. by rewrite read_zeroed, decide_True.
  - intros r va Hr. unfold pte_of. rewrite Hat by done.
    destruct (table_at (vm_tables s) r _) as [b|] eqn:Hb'; [|done].
    by rewrite read_zeroed, decide_False by (by eapply Hf).
Qed.

Lemma allocate_ok R s m0 pid m s' :
  vm_inv R s -> allocate m0 pid s = Some (Ok m, s') ->
  vm_inv ({[root m]} ∪ R) s' /\ (forall va, pte_of (vm_tables s') (root m) va = 0) /\
  (forall r va, r ∈ R -> pte_of (vm_tables s') r va = pte_of (vm_tables s) r va).
Proof.
  intros Hinv Hrun. destruct (allocate_run R s m0 pid Hinv) as (o & s1 & E & Ho).
  rewrite Hrun in E. injection E as <- <-. destruct Ho as (_ & ? & _ & ? & ?). done.
Qed.

(** *** Addresses *)

Lemma index_div va k : 0 <= k -> Z.land (Z.shiftr va k) (TABLE_ENTRIES - 1) = va / 2 ^ k mod 2 ^ 11.
Proof. intros Hk. change (TABLE_ENTRIES - 1) with (Z.ones 11). by rewrite Z.land_ones, Z.shiftr_div_pow2. Qed.

(** The three indices are the digits of the page number in base 2048. *)
Lemma page_digits va : 0 <= va < 2 ^ 47 ->
  va / PAGE_SIZE = (l1_index va * 2048 + l2_index va) * 2048 + l3_index va /\
  0 <= l2_index va < 2048 /\ 0 <= l3_index va < 2048.
Proof.
  intros Hva. unfold l1_index, l2_index, l3_index. rewrite !index_div by done.
  change (PAGE_SHIFT + 2 * TABLE_INDEX_BITS) with 36. change (PAGE_SHIFT + TABLE_INDEX_BITS) with 25.
  change PAGE_SHIFT with 14. unfold PAGE_SIZE.
  change (2 ^ 36) with 68719476736. change (2 ^ 25) with 33554432. change (2 ^ 14) with 16384.
  change (2 ^ 11) with 2048. change (2 ^ 47) with 140737488355328 in Hva.
  replace (va / 33554432) with (va / 16384 / 2048) by (rewrite !Z.div_div by lia; done).
  replace (va / 68719476736) with (va / 16384 / 2048 / 2048) by (rewrite !Z.div_div by lia; done).
  pose proof (Z.div_mod (va / 16384) 2048). pose proof (Z.div_mod (va / 16384 / 2048) 2048).
  pose proof (Z.mod_pos_bound (va / 16384) 2048). pose proof (Z.mod_pos_bound (va / 16384 / 2048) 2048).
  assert (Hs : 0 <= va / 16384 / 2048 / 2048 < 2048).
  { rewrite !Z.div_div by lia. split; [apply Z.div_pos; lia|apply Z.div_lt_upper_bound; lia]. }
  rewrite (Z.mod_small _ _ Hs). lia.
Qed.

Lemma same_page_div va va' : 0 <= va < 2 ^ 47 -> 0 <= va' < 2 ^ 47 ->
  same_page va va' = (va' / PAGE_SIZE =? va / PAGE_SIZE).
Proof.
  intros H H'. apply eq_true_iff_eq. rewrite same_page_eq, Z.eqb_eq.
  destruct (page_digits va H) as (-> & ? & ?). destruct (page_digits va' H') as (-> & ? & ?).
  split; [intros (-> & -> & ->); done|lia].
Qed.

Lemma same_page_refl va : same_page va va = true.
Proof. by apply same_page_eq. Qed.

Lemma same_page_sym va va' : same_page va va' = same_page va' va.
Proof. apply eq_true_iff_eq. rewrite !same_page_eq. naive_solver. Qed.

(** The physical address an entry gives for an address of its page. *)
Lemma masked_frame e : exists f, Z.land e PTE_ADDR_MASK = f * PAGE_SIZE.
Proof.
  exists (Z.land (Z.shiftr e 14) (Z.ones 34)). rewrite ADDR_MASK_ones.
  change PAGE_SIZE with (2 ^ 14). rewrite <- Z.shiftl_mul_pow2 by done.
  rewrite Z.shiftl_land, <- Z.ldiff_ones_r by done. apply Z.bits_inj'. intros n Hn.
  rewrite !Z.land_spec, Z.ldiff_spec, Z.shiftl_spec, !Z.testbit_ones by lia.
  destruct (Z.leb_spec 0 n), (Z.ltb_spec n 14); cbn; try lia.
  by rewrite andb_true_r.
Qed.

Lemma frame_offset e va :
  Z.lor (Z.land e PTE_ADDR_MASK) (Z.land va (PAGE_SIZE - 1)) = Z.land e PTE_ADDR_MASK + va mod PAGE_SIZE.
Proof.
  destruct (masked_frame e) as [f ->]. change (PAGE_SIZE - 1) with (Z.ones 14). rewrite Z.land_ones by done.
  change PAGE_SIZE with (2 ^ 14). rewrite <- Z.shiftl_mul_pow2 by done.
  rewrite lor_shiftl_add, Z.shiftl_mul_pow2; [done|done|done|]. by apply Z.mod_pos_bound.
Qed.

(** Mapping the page of a translated address gives the same frame. *)
Lemma frame_of_translation e va :
  Z.land (Z.land e PTE_ADDR_MASK + va mod PAGE_SIZE) PTE_ADDR_MASK = Z.land e PTE_ADDR_MASK.
Proof.
  rewrite <- frame_offset, Z.land_lor_distr_l, <- (Z.land_assoc e), Z.land_diag.
  replace (Z.land (Z.land va (PAGE_SIZE - 1)) PTE_ADDR_MASK) with 0; [apply Z.lor_0_r|].
  rewrite <- Z.land_assoc. change (Z.land (PAGE_SIZE - 1) PTE_ADDR_MASK) with 0. by rewrite Z.land_0_r.
Qed.

(** *** Translations *)

Lemma translate_entry t m va :
  virt_to_phys t m va =
  if valid (pte_of t (root m) va) then Ok (Z.land (pte_of t (root m) va) PTE_ADDR_MASK + va mod PAGE_SIZE)
  else Err BadAddress.
Proof. rewrite virt_to_phys_pte. cbn zeta. by rewrite frame_offset. Qed.

Lemma page_miss (a b : Z) p q : ~ (a = b /\ p = q) -> bool_decide (a = b) && (p =? q) = false.
Proof.
  intros H. apply not_true_iff_false. intros [Ea%bool_decide_eq_true Eb%Z.eqb_eq]%andb_true_iff. by apply H.
Qed.

(** An updated entry, seen through translation. *)
Lemma translate_update R s s' m va e m' va' :
  pte_update R s s' (root m) va e -> root m' ∈ R -> 0 <= va < 2 ^ 47 -> 0 <= va' < 2 ^ 47 ->
  virt_to_phys (vm_tables s') m' va' =
  if bool_decide (root m' = root m) && (va' / PAGE_SIZE =? va / PAGE_SIZE)
  then if valid e then Ok (Z.land e PTE_ADDR_MASK + va' mod PAGE_SIZE) else Err BadAddress
  else virt_to_phys (vm_tables s) m' va'.
Proof.
  intros Hu Hr Hva Hva'. rewrite !translate_entry, Hu, same_page_div by done.
  destruct (decide (root m' = root m)); [rewrite bool_decide_true by done|by rewrite bool_decide_false by done].
  cbn. by destruct (va' / PAGE_SIZE =? va / PAGE_SIZE).
Qed.

Lemma translate_grows R s s' m va :
  vm_grows R s s' -> root m ∈ R -> virt_to_phys (vm_tables s') m va = virt_to_phys (vm_tables s) m va.
Proof. intros [_ G] Hr. by rewrite !translate_entry, G by done. Qed.

(** The physical address [virt_to_phys] returned, as a frame to map. *)
Lemma translated_frame t m va phys flags user :
  virt_to_phys t m va = Ok phys ->
  valid (pte_of t (root m) va) = true /\
  Z.land (page_entry phys flags user) PTE_ADDR_MASK = phys - va mod PAGE_SIZE /\
  phys = Z.land (pte_of t (root m) va) PTE_ADDR_MASK + va mod PAGE_SIZE.
Proof.
  rewrite translate_entry. destruct (valid _); [|done]. intros [= <-]. split; [done|].
  destruct (page_entry_addr (Z.land (pte_of t (root m) va) PTE_ADDR_MASK + va mod PAGE_SIZE) flags user) as [-> _].
  rewrite frame_of_translation. lia.
Qed.

(** ** Properties *)

(** C10. [map_page] never panics.  On success the page of [va] translates, in this
    address space only, to the frame [phys]; every other address of every
    address space translates as before.  On failure, which is lack of memory,
    no translation has changed. *)
Theorem map_page_translates R s m phys va flags user :
  vm_inv R s -> root m ∈ R -> 0 <= phys < 2 ^ 47 -> phys mod PAGE_SIZE = 0 -> 0 <= va < 2 ^ 47 ->
  exists o s', map_page m phys va flags user s = Some (o, s') /\ vm_inv R s' /\
  forall m' va', root m' ∈ R -> 0 <= va' < 2 ^ 47 ->
    virt_to_phys (vm_tables s') m' va' =
    match o with
    | Ok _ => if bool_decide (root m' = root m) && (va' / PAGE_SIZE =? va / PAGE_SIZE)
              then Ok (phys + va' mod PAGE_SIZE) else virt_to_phys (vm_tables s) m' va'
    | Err _ => virt_to_phys (vm_tables s) m' va'
    end /\ (forall e, o = Err e -> e = OutOfMemory).
Proof.
  intros Hinv Hr Hb Hal Hva. destruct (map_page_run R s m phys va flags user Hinv Hr) as (o & s' & E & Hi%st_inv & Ho).
  exists o, s'. split_and!; [done..|]. intros m' va' Hr' Hva'. destruct o as [[]|e].
  - split; [|done]. rewrite (translate_update R s s' m va _ m' va' Ho) by done.
    destruct (page_entry_addr phys flags user) as [-> ->]. by rewrite addr_mask_aligned.
  - destruct Ho as [-> G]. split; [by eapply translate_grows|by intros ? [= <-]].
Qed.

(** [unmap_page] removes the page of [va] from this address space and changes
    no other translation; it fails only where nothing is mapped, and then
    changes nothing. *)
Theorem unmap_page_exact R s m va :
  vm_inv R s -> root m ∈ R -> 0 <= va < 2 ^ 47 ->
  exists o s', unmap_page m va s = Some (o, s') /\ vm_inv R s' /\ vm_mm s' = vm_mm s /\
  match o with
  | Ok _ => forall m' va', root m' ∈ R -> 0 <= va' < 2 ^ 47 ->
      virt_to_phys (vm_tables s') m' va' =
      if bool_decide (root m' = root m) && (va' / PAGE_SIZE =? va / PAGE_SIZE)
      then Err BadAddress else virt_to_phys (vm_tables s) m' va'
  | Err e => e = BadAddress /\ s' = s /\ virt_to_phys (vm_tables s) m va = Err BadAddress
  end.
Proof.
  intros Hinv Hr Hva. destruct (unmap_page_run R s m va Hinv Hr) as (o & s' & E & Hi%st_inv & Hm & Ho).
  exists o, s'. split_and!; [done..|]. destruct o as [[]|e].
  - intros m' va' Hr' Hva'. by rewrite (translate_update R s s' m va _ m' va' Ho) by done.
  - destruct Ho as (-> & -> & H0). split_and!; [done..|]. by rewrite translate_entry, H0.
Qed.

(** [allocate] gives a new address space in which nothing is mapped, disjoint
    from the tables of every existing one, whose translations are unchanged. *)
Theorem allocate_empty_space R s m0 pid :
  vm_inv R s ->
  exists o s', allocate m0 pid s = Some (o, s') /\
  match o with
  | Ok m => root m ∉ R /\ vm_inv ({[root m]} ∪ R) s' /\ map_pid m = pid /\
            (forall va, virt_to_phys (vm_tables s') m va = Err BadAddress) /\
            (forall m' va, root m' ∈ R -> virt_to_phys (vm_tables s') m' va = virt_to_phys (vm_tables s) m' va)
  | Err e => e = OutOfMemory /\ s' = s
  end.
Proof.
  intros Hinv. destruct (allocate_run R s m0 pid Hinv) as (o & s' & E & Ho).
  exists o, s'. split; [done|]. destruct o as [m|e]; [|done].
  destruct Ho as (? & ? & ? & H0 & Hs). split_and!; [done..| |].
  - intros va. by rewrite translate_entry, H0.
  - intros m' va Hr. by rewrite !translate_entry, Hs by done.
Qed.

(** C18. Lending and returning: a lend fails only for want of memory, and then
    changes no translation; when it succeeds the borrower sees the lender's
    frame, writable from EL0 only if lent mutably and never executable, and the
    return succeeds and restores every translation.  (What the lender sees
    meanwhile is not part of the claim.) *)
Theorem lend_return_restores R s src sa dest da mutable phys :
  vm_inv R s -> root src ∈ R -> root dest ∈ R -> 0 <= da < 2 ^ 47 ->
  virt_to_phys (vm_tables s) src sa = Ok phys ->
  virt_to_phys (vm_tables s) dest da = Err BadAddress ->
  exists o s1, lend_page src sa dest da mutable s = Some (o, s1) /\ vm_inv R s1 /\
  match o with
  | Err e => e = OutOfMemory /\
      forall m' va', root m' ∈ R -> virt_to_phys (vm_tables s1) m' va' = virt_to_phys (vm_tables s) m' va'
  | Ok _ =>
      virt_to_phys (vm_tables s1) dest da = Ok (phys - sa mod PAGE_SIZE + da mod PAGE_SIZE) /\
      el0_writable (pte_of (vm_tables s1) (root dest) da) = mutable /\
      el0_executable (pte_of (vm_tables s1) (root dest) da) = false /\
      exists s2, return_page dest da src sa s1 = Some (Ok tt, s2) /\
        forall m' va', root m' ∈ R -> 0 <= va' < 2 ^ 47 ->
          virt_to_phys (vm_tables s2) m' va' = virt_to_phys (vm_tables s) m' va'
  end.
Proof.
  intros Hinv Hr Hd Hda Hsrc Hdst. unfold lend_page, bind_try, bind, gets. rewrite Hsrc.
  set (flags := if mutable then MF_W else 0).
  destruct (map_page_run R s dest phys da flags true Hinv Hd) as (o & s1 & E & Hi%st_inv & Ho).
  exists o, s1. destruct (translated_frame _ _ _ phys flags true Hsrc) as (Hv & Hfr & Hph).
  destruct o as [[]|e].
  2: { destruct Ho as [-> G]. split_and!; [done..|]. intros. by eapply translate_grows. }
  assert (Hdp : pte_of (vm_tables s1) (root dest) da = page_entry phys flags true)
    by (rewrite Ho by done; by rewrite decide_True, same_page_refl).
  split_and!; [done|done| | | |].
  - rewrite translate_entry, Hdp. destruct (page_entry_addr phys flags true) as [_ ->]. by rewrite Hfr.
  - rewrite Hdp. destruct (user_entry_perms phys flags) as (_ & -> & _). by destruct mutable.
  - rewrite Hdp. destruct (user_entry_perms phys flags) as (_ & _ & -> & _). by destruct mutable.
  - unfold return_page, bind_try, bind.
    destruct (unmap_page_run R s1 dest da Hi Hd) as (o2 & s2 & E2 & _ & _ & Ho2). rewrite E2.
    destruct o2 as [[]|e]; [|destruct Ho2 as (_ & _ & H0); rewrite Hdp in H0;
      destruct (page_entry_addr phys flags true) as [_ Hval]; by rewrite H0 in Hval].
    exists s2. split; [done|]. intros m' va' Hr' Hva'. rewrite translate_entry, Ho2, Ho by done.
    rewrite (translate_entry _ m'). destruct (decide (root m' = root dest)) as [->|]; [|done].
    destruct (same_page da va') eqn:Es; [|done]. rewrite translate_entry in Hdst.
    rewrite (pte_of_same_page _ _ _ _ Es). cbn. by destruct (valid _).
Qed.

(** Moving a page: the frame is mapped at the destination and no longer at the
    source, and nothing else changes.  If the destination needs a table and
    there is no memory for it, the source mapping is gone all the same. *)
Theorem move_page_exact R s src sa dest da phys :
  vm_inv R s -> root src ∈ R -> root dest ∈ R -> 0 <= sa < 2 ^ 47 -> 0 <= da < 2 ^ 47 ->
  (root src = root dest -> sa / PAGE_SIZE <> da / PAGE_SIZE) ->
  virt_to_phys (vm_tables s) src sa = Ok phys ->
  exists o s', move_page src sa dest da s = Some (o, s') /\ vm_inv R s' /\
  virt_to_phys (vm_tables s') src sa = Err BadAddress /\
  (forall m' va', root m' ∈ R -> 0 <= va' < 2 ^ 47 ->
     ~ (root m' = root src /\ va' / PAGE_SIZE = sa / PAGE_SIZE) ->
     ~ (root m' = root dest /\ va' / PAGE_SIZE = da / PAGE_SIZE) ->
     virt_to_phys (vm_tables s') m' va' = virt_to_phys (vm_tables s) m' va') /\
  match o with
  | Ok _ => virt_to_phys (vm_tables s') dest da = Ok (phys - sa mod PAGE_SIZE + da mod PAGE_SIZE)
  | Err e => e = OutOfMemory /\ virt_to_phys (vm_tables s') dest da = virt_to_phys (vm_tables s) dest da
  end.
Proof.
  intros Hinv Hr Hd Hsa Hda Hdiff Hsrc. unfold move_page, bind_try, bind, gets. rewrite Hsrc.
  destruct (translated_frame _ _ _ phys MF_W true Hsrc) as (Hv & Hfr & _).
  destruct (unmap_page_run R s src sa Hinv Hr) as (o1 & s1 & E1 & Hi1%st_inv & _ & Ho1). rewrite E1.
  destruct o1 as [[]|e]; [|destruct Ho1 as (_ & _ & H0); by rewrite H0 in Hv].
  destruct (map_page_run R s1 dest phys da MF_W true Hi1 Hd) as (o & s' & E & Hi%st_inv & Ho).
  exists o, s'. rewrite E.
  pose proof (fun m' va' => translate_update R s s1 src sa 0 m' va' Ho1) as T1.
  assert (Hframe : forall m' va', root m' ∈ R -> 0 <= va' < 2 ^ 47 ->
            ~ (root m' = root dest /\ va' / PAGE_SIZE = da / PAGE_SIZE) \/ is_ok o = false ->
            virt_to_phys (vm_tables s') m' va' = virt_to_phys (vm_tables s1) m' va').
  { intros m' va' Hm Hva [Hn|Hn]; destruct o as [[]|e]; try done; try by destruct Ho; eapply translate_grows.
    rewrite (translate_update R s1 s' dest da _ m' va' Ho) by done. by rewrite page_miss. }
  split_and!; [done|done| | |].
  - rewrite Hframe by (try done; left; intros [Er Ep]; by apply (Hdiff Er)). rewrite T1 by done.
    by rewrite bool_decide_true, Z.eqb_refl by done.
  - intros m' va' Hm Hva Hn1 Hn2. rewrite Hframe by (try done; by left). rewrite T1 by done.
    by rewrite page_miss.
  - destruct o as [[]|e].
    + rewrite (translate_update R s1 s' dest da _ dest da Ho), bool_decide_true, Z.eqb_refl by done. cbn [andb].
      destruct (page_entry_addr phys MF_W true) as [_ ->]. by rewrite Hfr.
    + split; [apply Ho|]. rewrite Hframe by (try done; by right). rewrite T1 by done.
      rewrite page_miss; [done|]. intros [Er Ep]. by apply (Hdiff (eq_sym Er)).
Qed.

(** Demand paging: afterwards the address is mapped, at a page nobody owned
    when it was not mapped before; other translations are unchanged.  The only
    failure is lack of memory. *)
Theorem ensure_page_exists_maps R s m va :
  vm_inv R s -> root m ∈ R -> 0 <= va < 2 ^ 47 ->
  exists o s', ensure_page_exists m va s = Some (o, s') /\ vm_inv R s' /\
  (forall m' va', root m' ∈ R -> 0 <= va' < 2 ^ 47 ->
     ~ (root m' = root m /\ va' / PAGE_SIZE = va / PAGE_SIZE) ->
     virt_to_phys (vm_tables s') m' va' = virt_to_phys (vm_tables s) m' va') /\
  match o with
  | Ok _ => exists phys, virt_to_phys (vm_tables s') m va = Ok (phys + va mod PAGE_SIZE) /\
      (virt_to_phys (vm_tables s) m va = Ok (phys + va mod PAGE_SIZE) \/
       (pa_owner (vm_mm s) phys = None /\ pa_owner (vm_mm s') phys = Some (get_pid m)))
  | Err e => virt_to_phys (vm_tables s) m va = Err BadAddress
  end.
Proof.
  intros Hinv Hr Hva. unfold ensure_page_exists, bind, gets.
  destruct (virt_to_phys (vm_tables s) m va) as [p|e] eqn:Et; cbn [is_ok].
  - eexists _, _. split_and!; [done..|]. rewrite Et. exists (p - va mod PAGE_SIZE).
    rewrite Z.sub_add. auto.
  - unfold bind_try, bind, alloc_page.
    assert (He : Err e = Err BadAddress :> res Z Error)
      by (rewrite <- Et; rewrite translate_entry in *; by destruct (valid _)).
    destruct (pa_alloc_spec (vm_mm s) (get_pid m)) as (o1 & mm' & E & Hmm & Ho1); [apply Hinv|].
    rewrite E. destruct o1 as [[pa z]|e1]; [|subst mm'; destruct s; by eexists _, _].
    destruct Ho1 as (Hnew & Hown & Hb & Hal). destruct (owner_update _ _ _ _ Hown Hnew) as [_ Hmono]. cbn [fst].
    assert (Hi1 : vm_inv R (mkVM mm' (vm_tables s))).
    { by apply vm_inv_mm. }
    destruct (map_page_run R _ m pa va MF_W true Hi1 Hr) as (o & s' & E' & Hst & Ho).
    rewrite E'. exists o, s'. split_and!; [done|apply Hst| |].
    + intros m' va' Hr' Hva' Hne. destruct o as [[]|e2].
      * rewrite (translate_update R _ s' m va _ m' va' Ho) by done. by rewrite page_miss.
      * destruct Ho as [_ G]. exact (translate_grows R _ s' m' va' G Hr').
    + destruct o as [[]|e2]; [|done]. exists pa. split; [|right; split; [done|]].
      2: { apply (st_own _ _ _ Hst). cbn. by rewrite Hown, decide_True. }
      rewrite (translate_update R _ s' m va _ m va Ho), bool_decide_true, Z.eqb_refl by done. cbn [andb].
      destruct (page_entry_addr pa MF_W true) as [-> ->]. by rewrite addr_mask_aligned.
Qed.

(** *** Reachable address spaces *)

Inductive vm_op :=
| VmMap (m : MemoryMapping) (phys va : Z) (flags : MemoryFlags) (user : bool)
| VmUnmap (m : MemoryMapping) (va : Z)
| VmMove (src : MemoryMapping) (sa : Z) (dest : MemoryMapping) (da : Z)
| VmLend (src : MemoryMapping) (sa : Z) (dest : MemoryMapping) (da : Z) (mutable : bool)
| VmReturn (borrower : MemoryMapping) (sa : Z) (lender : MemoryMapping) (da : Z)
| VmEnsure (m : MemoryMapping) (va : Z).

Definition run_vm (op : vm_op) : M VM (res unit Error) :=
  match op with
  | VmMap m phys va flags user => map_page m phys va flags user
  | VmUnmap m va => unmap_page m va
  | VmMove src sa dest da => move_page src sa dest da
  | VmLend src sa dest da mutable => lend_page src sa dest da mutable
  | VmReturn b sa l da => return_page b sa l da
  | VmEnsure m va => ensure_page_exists m va
  end.

(** The mappings an operation works on are existing address spaces. *)
Definition vm_op_in (R : gset Z) (op : vm_op) : Prop :=
  match op with
  | VmMap m _ _ _ _ | VmUnmap m _ | VmEnsure m _ => root m ∈ R
  | VmMove src _ dest _ | VmLend src _ dest _ _ | VmReturn src _ dest _ => root src ∈ R /\ root dest ∈ R
  end.

Inductive vm_reachable : gset Z -> VM -> Prop :=
| reach_init a : pa_inv a -> vm_reachable ∅ (mkVM a ∅)
| reach_allocate R s m0 pid m s' :
    vm_reachable R s -> allocate m0 pid s = Some (Ok m, s') -> vm_reachable ({[root m]} ∪ R) s'
| reach_op R s op o s' :
    vm_reachable R s -> vm_op_in R op -> run_vm op s = Some (o, s') -> vm_reachable R s'.

(** Every entry the kernel leaves in an L3 table is 0 or a page entry. *)
Definition entry_ok (e : Z) : Prop := e = 0 \/ exists phys flags user, e = page_entry phys flags user.
Definition vm_ok (R : gset Z) (s : VM) : Prop :=
  vm_inv R s /\ forall r va, r ∈ R -> entry_ok (pte_of (vm_tables s) r va).

Lemma vm_ok_update R s s' r va e :
  vm_ok R s -> vm_inv R s' -> pte_update R s s' r va e -> entry_ok e -> vm_ok R s'.
Proof.
  intros [_ H] Hi Hu He. split; [done|]. intros r' va' Hr. rewrite Hu by done.
  destruct (decide _); [destruct (same_page _ _)|]; auto.
Qed.

Lemma map_page_ok R s m phys va flags user : vm_ok R s -> root m ∈ R ->
  exists o s', map_page m phys va flags user s = Some (o, s') /\ vm_ok R s'.
Proof.
  intros Hok Hr. destruct (map_page_run R s m phys va flags user) as (o & s' & E & Hi%st_inv & Ho); [apply Hok|done|].
  exists o, s'. split; [done|]. destruct o as [[]|e].
  - eapply vm_ok_update; [done..|]. right; eauto.
  - destruct Ho as [_ G]. split; [done|]. intros r va' Hr'. rewrite (proj2 G) by done. by apply Hok.
Qed.

Lemma unmap_page_ok R s m va : vm_ok R s -> root m ∈ R ->
  exists o s', unmap_page m va s = Some (o, s') /\ vm_ok R s'.
Proof.
  intros Hok Hr. destruct (unmap_page_run R s m va) as (o & s' & E & Hi%st_inv & _ & Ho); [apply Hok|done|].
  exists o, s'. split; [done|]. destruct o as [[]|e].
  - eapply vm_ok_update; [done..|]. by left.
  - by destruct Ho as (_ & -> & _).
Qed.

Lemma alloc_page_ok R s pid : vm_ok R s ->
  exists o s', alloc_page pid s = Some (o, s') /\ vm_ok R s'.
Proof.
  intros [Hinv He]. unfold alloc_page.
  destruct (pa_alloc_spec (vm_mm s) pid) as (o & mm' & -> & Hmm & Ho); [apply Hinv|].
  eexists _, _. split; [done|]. split; [|done]. destruct o as [[pa z]|e].
  - destruct Ho as (Hnew & Hown & _). apply vm_inv_mm; [done..|]. by destruct (owner_update _ _ _ _ Hown Hnew).
  - subst mm'. split; apply Hinv.
Qed.

Lemma run_vm_ok R s op : vm_ok R s -> vm_op_in R op -> exists o s', run_vm op s = Some (o, s') /\ vm_ok R s'.
Proof.
  intros Hok Hin. destruct op as [m phys va flags user|m va|src sa dest da|src sa dest da mu|b sa l da|m va]; cbn in *.
  - by apply map_page_ok.
  - by apply unmap_page_ok.
  - destruct Hin as [H1 H2]. unfold move_page, bind_try, bind, gets.
    destruct (virt_to_phys _ _ _) as [p|e]; [|by eexists _, _].
    destruct (unmap_page_ok R s src sa Hok H1) as (o & s' & -> & Hok').
    destruct o; [by apply map_page_ok|by eexists _, _].
  - destruct Hin as [H1 H2]. unfold lend_page, bind_try, bind, gets.
    destruct (virt_to_phys _ _ _) as [p|e]; [by apply map_page_ok|by eexists _, _].
  - destruct Hin as [H1 H2]. unfold return_page, bind_try, bind.
    destruct (unmap_page_ok R s b sa Hok H1) as (o & s' & -> & Hok'). destruct o; by eexists _, _.
  - unfold ensure_page_exists, bind_try, bind, gets.
    destruct (is_ok _); [by eexists _, _|].
    destruct (alloc_page_ok R s (get_pid m) Hok) as (o & s' & -> & Hok').
    destruct o as [[pa z]|e]; [by apply map_page_ok|by eexists _, _].
Qed.

Lemma vm_reachable_ok R s : vm_reachable R s -> vm_ok R s.
Proof.
  induction 1 as [a Ha|R s m0 pid m s' _ IH E|R s op o s' _ IH Hin E].
  - split; [|set_solver]. split; [done|set_solver..].
  - destruct IH as [Hinv He]. destruct (allocate_run R s m0 pid Hinv) as (o & s1 & E' & Ho).
    rewrite E' in E. injection E as -> ->. destruct Ho as (_ & Hi & _ & H0 & Hs). split; [done|].
    intros r va [->%elem_of_singleton|Hr]%elem_of_union; [left; apply H0|]. rewrite Hs by done. by apply He.
  - destruct (run_vm_ok R s op IH Hin) as (o' & s1 & E' & Hok). rewrite E' in E. by injection E as _ ->.
Qed.

(** C14. W^X and privilege separation: in every reachable state, no page of any
    address space can be both written and executed by user code, none that
    user code can read is executable by the kernel, and every page user code
    can read is tagged with the address space identifier. *)
Theorem user_pages_wx R s r va :
  vm_reachable R s -> r ∈ R ->
  let e := pte_of (vm_tables s) r va in
  valid e = true ->
  el0_writable e && el0_executable e = false /\
  el0_readable e && el1_executable e = false /\
  (el0_readable e = true -> Z.testbit e 11 = true).
Proof.
  intros Hreach Hr e Hv. destruct (vm_reachable_ok R s Hreach) as [_ He].
  destruct (He r va Hr) as [E|(phys & flags & user & E)]; subst e; rewrite E in *; [done|].
  destruct user.
  - destruct (user_entry_perms phys flags) as (-> & -> & -> & -> & ->).
    by destruct (MemoryFlags_is_set flags MF_W), (MemoryFlags_is_set flags MF_X).
  - by destruct (kernel_entry_perms phys flags) as (-> & -> & -> & _ & _).
Qed.

(** No sequence of mapping operations panics: every operation on existing
    address spaces returns, in a state where the tables are well formed again. *)
Theorem mapping_ops_total R s op :
  vm_reachable R s -> vm_op_in R op -> exists o s', run_vm op s = Some (o, s') /\ vm_inv R s'.
Proof.
  intros Hreach Hin. destruct (run_vm_ok R s op (vm_reachable_ok R s Hreach) Hin) as (o & s' & E & Hok).
  exists o, s'. split; [done|apply Hok].
Qed.

End Tables.

(** ** Entries, outside any state *)

(** Kernel mappings are out of the reach of user code whatever the flags, and
    their kernel permissions are exactly the flags: a kernel mapping with both
    W and X is writable and executable at EL1. *)
Theorem kernel_page_permissions phys flags :
  let e := page_entry phys flags false in
  valid e = true /\ el0_readable e = false /\ el0_writable e = false /\ el0_executable e = false /\
  el1_writable e = MemoryFlags_is_set flags MF_W /\ el1_executable e = MemoryFlags_is_set flags MF_X.
Proof. intros e. split; [apply page_entry_addr|apply kernel_entry_perms]. Qed.

(** [current] reads back the mapping that [activate] installed. *)
Theorem activate_current m :
  0 <= ttbr0 m < 2 ^ 47 -> ttbr0 m mod PAGE_SIZE = 0 -> pid_ok (map_pid m) = true ->
  let m' := mapping_current (ttbr0_value m) (map_pid m) in
  ttbr0 m' = ttbr0 m /\ get_pid m' = map_pid m /\ get_pid m = map_pid m.
Proof.
  intros Hb Hal Hpid. cbn. unfold get_pid, ttbr0_value. cbn. rewrite !PID_new_ok by done. split; [|done].
  unfold pid_ok, U8_MAX in Hpid. apply andb_true_iff in Hpid as [H1%Z.leb_le H2%Z.leb_le].
  rewrite wrap_small by (rewrite Z.shiftl_mul_pow2 by done; apply fits_spec; lia).
  rewrite Z.land_lor_distr_l, addr_mask_aligned by done.
  replace (Z.land (Z.shiftl (map_pid m) 48) PTE_ADDR_MASK) with 0; [apply Z.lor_0_r|].
  apply Z.bits_inj'. intros n Hn. rewrite Z.bits_0, Z.land_spec, addr_mask_bits, Z.shiftl_spec by done.
  destruct (Z.ltb_spec n 48); [by rewrite Z.testbit_neg_r by lia|]. by rewrite !andb_false_r.
Qed.
Lemma activate_current_witness :
  ttbr0 (mapping_current (ttbr0_value (mkMapping 1073790976 7 0)) 7) = 1073790976.
Proof. apply (activate_current (mkMapping 1073790976 7 0)); [cbn; lia|done|done]. Defined.

(** ** The allocator of the kernel as a page allocator *)

(** The owner of the RAM frame at a physical address. *)
Definition frame_owner {P : Platform} (m : MemoryManager) (phys : Z) : option PID :=
  let off := phys - DRAM_BASE in
  if (off mod PAGE_SIZE =? 0) && (0 <=? off / PAGE_SIZE) && (off / PAGE_SIZE <? RAM_PAGES)
  then allocations m !! (off / PAGE_SIZE) else None.

Definition frame {P : Platform} (idx : Z) : Z := DRAM_BASE + idx * PAGE_SIZE.

Lemma frame_owner_idx {P : Platform} m idx : 0 <= idx < RAM_PAGES -> frame_owner m (frame idx) = allocations m !! idx.
Proof.
  intros Hidx. unfold frame_owner, frame. replace (DRAM_BASE + idx * PAGE_SIZE - DRAM_BASE) with (idx * PAGE_SIZE) by lia.
  rewrite Z.mod_mul, Z.div_mul by done. by rewrite (proj2 (Z.leb_le _ _)), (proj2 (Z.ltb_lt _ _)) by lia.
Qed.

Lemma frame_owner_cases {P : Platform} phys :
  (exists idx, 0 <= idx < RAM_PAGES /\ phys = frame idx) \/ (forall m, frame_owner m phys = None).
Proof.
  unfold frame_owner. destruct ((_ =? 0) && _ && _) eqn:E; [left|by right].
  rewrite !andb_true_iff in E. destruct E as [[E1%Z.eqb_eq E0%Z.leb_le] E2%Z.ltb_lt]. eexists. split; [done|].
  unfold frame. pose proof (Z.div_mod (phys - DRAM_BASE) PAGE_SIZE ltac:(done)). lia.
Qed.

Lemma frame_inj {P : Platform} i j : frame i = frame j -> i = j.
Proof. unfold frame, PAGE_SIZE. lia. Qed.

Lemma frame_bounds {P : Platform} idx : 0 <= idx < RAM_PAGES ->
  0 <= frame idx < 2 ^ 47 /\ frame idx mod PAGE_SIZE = 0.
Proof.
  intros. pose proof plat_base as [Hb0 Hb1]. pose proof plat_bound. unfold frame. split.
  - unfold PAGE_SIZE in *. lia.
  - by rewrite Z.mod_add.
Qed.

Lemma alloc_one_spec {P : Platform} m pid : mm_inv m /\ extra_ok m ->
  exists r m', alloc_range 1 pid m = Some (r, m') /\ (mm_inv m' /\ extra_ok m') /\
    match r with
    | Ok (phys, _) =>
        frame_owner m phys = None /\
        (forall q, frame_owner m' q = if decide (q = phys) then Some pid else frame_owner m q) /\
        0 <= phys < 2 ^ 47 /\ phys mod PAGE_SIZE = 0
    | Err _ => m' = m
    end.
Proof.
  intros [Hinv Hx]. pose proof plat_pages. destruct (alloc_range_run m 1 pid Hinv) as (r & m' & E & Hi & Ho); [lia|].
  exists r, m'. split_and!; [done|done|by unfold extra_ok; rewrite (keeps_alloc _ _ _ _ _ E)|]. unfold alloc_outcome in Ho.
  destruct r as [[phys z]|e]; [|by destruct Ho as (_ & -> & _)].
  destruct Ho as (idx & -> & (Hsub & Ha & _) & _). fold (frame idx).
  destruct (inv_free _ Hinv idx) as [Hlim Hnone]; [apply Hsub, elem_of_pages; lia|]. unfold limit in Hlim.
  split_and!; [by rewrite frame_owner_idx by lia| |apply frame_bounds; lia..].
  intros q. destruct (frame_owner_cases q) as [(j & Hj & ->)|Hn].
  - rewrite !frame_owner_idx, Ha, fill_owner_lookup by done.
    destruct (decide (frame j = frame idx)) as [->%frame_inj|Hne]; [by rewrite bool_decide_true by lia|].
    rewrite bool_decide_false; [done|]. intros ?. apply Hne. f_equal. lia.
  - rewrite !Hn. destruct (decide (q = frame idx)) as [->|]; [|done].
    specialize (Hn m'). rewrite frame_owner_idx, Ha, fill_owner_lookup, bool_decide_true in Hn by lia. done.
Qed.

#[export] Instance memory_page_allocator {P : Platform} : PageAllocator MemoryManager := {|
  pa_alloc := alloc_range 1;
  pa_inv m := mm_inv m /\ extra_ok m;
  pa_owner := frame_owner;
  pa_alloc_spec := alloc_one_spec |}.

(** ** Concrete runs *)

Definition no_mapping : MemoryMapping := mkMapping 0 0 0.
Definition vm0 : VM := mkVM demo_mm ∅.
Definition get_ok {T} (d : T) (o : option (res T Error * VM (A := MemoryManager))) : T * VM :=
  match o with Some (Ok x, s) => (x, s) | _ => (d, vm0) end.
Definition space_a : MemoryMapping := (get_ok no_mapping (allocate no_mapping 4 vm0)).1.
Definition vm1 : VM := (get_ok no_mapping (allocate no_mapping 4 vm0)).2.
Definition space_b : MemoryMapping := (get_ok no_mapping (allocate no_mapping 5 vm1)).1.
Definition vm2 : VM := (get_ok no_mapping (allocate no_mapping 5 vm1)).2.
Definition spaces : gset Z := {[root space_b]} ∪ ({[root space_a]} ∪ ∅).
Definition vm3 : VM := (get_ok tt (ensure_page_exists space_a 65536 vm2)).2.

Lemma space_a_in : root space_a ∈ spaces.
Proof. apply elem_of_union; right; apply elem_of_union; left; by apply elem_of_singleton. Qed.
Lemma space_b_in : root space_b ∈ spaces.
Proof. apply elem_of_union; left; by apply elem_of_singleton. Qed.

Lemma vm0_reachable : vm_reachable ∅ vm0.
Proof.
  apply reach_init. split; [eapply mm_reachable_inv, demo_mm_reachable|].
  unfold extra_ok. replace (extra_regions demo_mm) with (replicate 11 (mkExtra 0 0 0)) by (by vm_compute).
  by repeat constructor.
Qed.
Lemma vm2_reachable : vm_reachable spaces vm2.
Proof.
  apply (reach_allocate _ vm1 no_mapping 5 space_b); [|by vm_compute].
  apply (reach_allocate _ vm0 no_mapping 4 space_a); [exact vm0_reachable|by vm_compute].
Qed.
Lemma vm3_reachable : vm_reachable spaces vm3.
Proof.
  apply (reach_op _ vm2 (VmEnsure space_a 65536) (Ok tt)); [apply vm2_reachable| |by vm_compute].
  exact space_a_in.
Qed.

Lemma vm3_inv : vm_inv spaces vm3.
Proof. exact (proj1 (vm_reachable_ok spaces vm3 vm3_reachable)). Qed.

Lemma map_page_translates_witness :
  exists o s', map_page space_b 1073905664 65536 MF_W true vm3 = Some (o, s') /\ vm_inv spaces s'.
Proof.
  destruct (map_page_translates spaces vm3 space_b 1073905664 65536 MF_W true vm3_inv space_b_in)
    as (o & s' & E & Hi & _); [lia|done|lia|]. exact (ex_intro _ o (ex_intro _ s' (conj E Hi))).
Defined.

Lemma unmap_page_exact_witness :
  exists o s', unmap_page space_a 65536 vm3 = Some (o, s') /\ vm_inv spaces s'.
Proof.
  destruct (unmap_page_exact spaces vm3 space_a 65536 vm3_inv space_a_in) as (o & s' & E & Hi & _); [lia|].
  exact (ex_intro _ o (ex_intro _ s' (conj E Hi))).
Defined.

Lemma allocate_empty_space_witness :
  exists o s', allocate no_mapping 6 vm3 = Some (o, s').
Proof.
  destruct (allocate_empty_space spaces vm3 no_mapping 6 vm3_inv) as (o & s' & E & _). exact (ex_intro _ o (ex_intro _ s' E)).
Defined.

Definition addr_of (r : res Z Error) : Z := match r with Ok p => p | Err _ => 0 end.
Definition page_a : Z := addr_of (virt_to_phys (vm_tables vm3) space_a 65536).

Lemma lend_return_restores_witness :
  exists o s', lend_page space_a 65536 space_b 131072 false vm3 = Some (o, s') /\ vm_inv spaces s'.
Proof.
  destruct (lend_return_restores spaces vm3 space_a 65536 space_b 131072 false page_a
    vm3_inv space_a_in space_b_in) as (o & s' & E & Hi & _); [lia|by vm_compute|by vm_compute|].
  exact (ex_intro _ o (ex_intro _ s' (conj E Hi))).
Defined.

Lemma move_page_exact_witness :
  exists o s', move_page space_a 65536 space_b 131072 vm3 = Some (o, s') /\ vm_inv spaces s'.
Proof.
  destruct (move_page_exact spaces vm3 space_a 65536 space_b 131072 page_a
    vm3_inv space_a_in space_b_in) as (o & s' & E & Hi & _); [lia|lia|by vm_compute|by vm_compute|].
  exact (ex_intro _ o (ex_intro _ s' (conj E Hi))).
Defined.

Lemma ensure_page_exists_maps_witness :
  exists o s', ensure_page_exists space_b 65536 vm3 = Some (o, s') /\ vm_inv spaces s'.
Proof.
  destruct (ensure_page_exists_maps spaces vm3 space_b 65536 vm3_inv space_b_in) as (o & s' & E & Hi & _); [lia|].
  exact (ex_intro _ o (ex_intro _ s' (conj E Hi))).
Defined.

Lemma user_pages_wx_witness :
  el0_writable (pte_of (vm_tables vm3) (root space_a) 65536) &&
  el0_executable (pte_of (vm_tables vm3) (root space_a) 65536) = false.
Proof. refine (proj1 (user_pages_wx spaces vm3 (root space_a) 65536 vm3_reachable space_a_in _)). by vm_compute. Defined.

Lemma mapping_ops_total_witness :
  exists o s', run_vm (VmLend space_a 65536 space_b 131072 true) vm3 = Some (o, s') /\ vm_inv spaces s'.
Proof.
  apply (mapping_ops_total spaces vm3 (VmLend space_a 65536 space_b 131072 true) vm3_reachable).
  split; [apply space_a_in|apply space_b_in].
Defined.
