(* ===== verification/MemMap.v ===== *)
(** * Mapping memory into processes

    Models the part of [xous/kernel/src/mem.rs] that ties the page allocator to
    the page tables ([find_virtual_address], [map_range], [unmap_range],
    [check_range_accessible], [move_page], [lend_page], [unlend_page]), the
    memory transfers of [xous/kernel/src/services.rs] ([send_memory],
    [lend_memory], [return_memory]) and the memory system calls of
    [xous/kernel/src/syscall.rs] ([MapMemory], [UnmapMemory], [IncreaseHeap]).

    The state is the allocator and the tables ([VM]) with the
    [allocation_hint]s of the processes; the mappings themselves do not change
    and are an environment.  The kernel image is built with overflow checks:
    an overflowing addition or subtraction is a panic.  Zeroing of page
    contents and cache maintenance are left out. *)

From S2P Require Import Prelude Abi Memory PageTable.
From Stdlib Require Import ZArith Lia Bool.
From stdpp Require Import gmap relations.
Open Scope Z_scope.

Definition MMAP_AREA_VIRT : Z := 52776558133248. (* 0x0000_3000_0000_0000 *)
Definition MMAP_AREA_VIRT_END : Z := 70368744177664. (* 0x0000_4000_0000_0000 *)

Section WithPlatform.
Context {P : Platform}.

Abbreviation VMM := (VM (A := MemoryManager)).

Record Sys := mkSys { sys_vm : VMM; hints : gmap PID Z }.

(** The processes: their mappings and the device memory granted to them. *)
Record Env := mkEnv { env_maps : gmap PID MemoryMapping; env_regions : gmap PID (list (Z * Z)) }.

(** [Process::check_memory_permission] and [Process::add_memory_permission];
    a region whose end is 0 is a free slot. *)
Fixpoint region_permits (regions : list (Z * Z)) (addr : Z) : bool :=
  match regions with
  | [] => false
  | (start, end_) :: regions =>
      if (start <=? addr) && (addr <? end_) then true
      else if end_ =? 0 then false else region_permits regions addr
  end.

Definition check_memory_permission (pid : PID) (regions : list (Z * Z)) (addr : Z) : res unit Error :=
  if (pid =? 1) || is_address_in_plaintext_dram addr then Ok tt
  else if region_permits regions addr then Ok tt else Err AccessDenied.

Fixpoint add_memory_permission (regions : list (Z * Z)) (range : Z * Z) : res (list (Z * Z)) Error :=
  match regions with
  | [] => Err OutOfMemory
  | r :: regions =>
      if r.2 =? 0 then Ok (range :: regions)
      else l <-! add_memory_permission regions range ;; Ok (r :: l)
  end.

(** [ss.process(pid)?.check_memory_permission(addr)] *)
Definition env_permitted (E : Env) (pid : PID) (addr : Z) : res unit Error :=
  match env_maps E !! pid with
  | None => Err ProcessNotFound
  | Some _ => check_memory_permission pid (default [] (env_regions E !! pid)) addr
  end.

Definition on_vm {X} (op : M VMM X) : M Sys X :=
  fun s => match op (sys_vm s) with Some (x, v) => Some (x, mkSys v (hints s)) | None => None end.
Definition on_mm {X} (op : M MemoryManager X) : M Sys X :=
  on_vm (fun v => match op (vm_mm v) with Some (x, m) => Some (x, mkVM m (vm_tables v)) | None => None end).

(** [usize] addition and subtraction, which panic on overflow. *)
Definition checked_add (a b : Z) : M Sys Z := if a + b <? 2 ^ 64 then ret (a + b) else panic.
Definition checked_sub (a b : Z) : M Sys Z := if b <=? a then ret (a - b) else panic.

(** [(a..b).step_by(PAGE_SIZE)] *)
Definition page_steps (a b : Z) : list Z :=
  map (fun k => a + k * PAGE_SIZE) (zrange 0 ((b - a + PAGE_SIZE - 1) / PAGE_SIZE)).

(** ** [find_virtual_address] *)

(** The [k]-th element of
    [(hint..END - size).chain(MMAP_AREA_VIRT..hint).step_by(PAGE_SIZE)]. *)
Definition candidate (hint last k : Z) : Z :=
  let first_len := Z.max 0 (last - hint) in
  if k * PAGE_SIZE <? first_len then hint + k * PAGE_SIZE
  else MMAP_AREA_VIRT + (k * PAGE_SIZE - first_len).
Definition candidate_count (hint last : Z) : Z :=
  (Z.max 0 (last - hint) + Z.max 0 (hint - MMAP_AREA_VIRT) + PAGE_SIZE - 1) / PAGE_SIZE.

Definition all_free (t : gmap Z (gmap Z Z)) (m : MemoryMapping) (start size : Z) : bool :=
  forallb (fun page => address_available t m page) (page_steps start (start + size)).

Definition find_virtual_address (current_pid : PID) (mapping : MemoryMapping) (virt_ptr size : Z)
  : M Sys (res Z Error) :=
  if negb (virt_ptr =? 0) then ret (Ok virt_ptr)
  else
    hint <- gets (fun s => hints s !! current_pid) ;;
    hint <- expect hint ;;
    last <- checked_sub MMAP_AREA_VIRT_END size ;;
    t <- gets (fun s => vm_tables (sys_vm s)) ;;
    match find_range (fun k => all_free t mapping (candidate hint last k) size) 0 (candidate_count hint last) with
    | Some k =>
        let potential_start := candidate hint last k in
        _ <- modify (fun s => mkSys (sys_vm s) (<[current_pid := potential_start]> (hints s))) ;;
        ret (Ok potential_start)
    | None => ret (Err BadAddress)
    end.

(** ** [map_range] *)

Definition claim_page (E : Env) (addr : Z) (pid : PID) : M Sys (res unit Error) :=
  on_mm (claim_release_move (env_permitted E) addr pid Claim).
Definition release_page (E : Env) (addr : Z) (pid : PID) : M Sys (res unit Error) :=
  on_mm (claim_release_move (env_permitted E) addr pid Release).

(** [release_page(..).ok()] on each address *)
Fixpoint release_pages (E : Env) (pid : PID) (l : list Z) : M Sys unit :=
  match l with
  | [] => ret tt
  | a :: l => _ <- release_page E a pid ;; release_pages E pid l
  end.

Fixpoint unmap_pages (m : MemoryMapping) (l : list Z) : M Sys unit :=
  match l with
  | [] => ret tt
  | va :: l => _ <- on_vm (unmap_page m va) ;; unmap_pages m l
  end.

(** The claims; those made are given up at the first refusal. *)
Fixpoint claim_loop (E : Env) (pid : PID) (claimed l : list Z) : M Sys (res unit Error) :=
  match l with
  | [] => ret (Ok tt)
  | a :: l =>
      r <- claim_page E a pid ;;
      match r with
      | Err err => _ <- release_pages E pid claimed ;; ret (Err err)
      | Ok _ => claim_loop E pid (claimed ++ [a]) l
      end
  end.

(** The maps; at the first failure the pages mapped so far are unmapped and
    all the frames given up. *)
Fixpoint map_loop (E : Env) (m : MemoryMapping) (phys virt size : Z) (flags : MemoryFlags) (map_user : bool)
    (done l : list Z) : M Sys (res unit Error) :=
  match l with
  | [] => ret (Ok tt)
  | offset :: l =>
      let phys_page := if phys =? 0 then 0 else phys + offset in
      r <- on_vm (map_page m phys_page (usize (virt + offset)) flags map_user) ;;
      match r with
      | Ok _ => map_loop E m phys virt size flags map_user (done ++ [offset]) l
      | Err e =>
          _ <- unmap_pages m (map (fun o => usize (virt + o)) done) ;;
          _ <- (if phys =? 0 then ret tt
                else end_ <- checked_add phys size ;; release_pages E (get_pid m) (page_steps phys end_)) ;;
          ret (Err e)
      end
  end.

(** The frames of the range: allocated with [POPULATE], claimed when an address
    is given. *)
Definition map_source (E : Env) (pid : PID) (phys size : Z) (flags : MemoryFlags) : M Sys (res Z Error) :=
  if MemoryFlags_is_set flags MF_POPULATE then
    if negb (MemoryFlags_is_set flags MF_W) then ret (Err InvalidArguments)
    else if negb (phys =? 0) then ret (Err InvalidArguments)
    else a <-? on_mm (alloc_range (size / PAGE_SIZE) pid) ;; ret (Ok a.1)
  else if negb (phys =? 0) then
    end_ <- checked_add phys size ;;
    _ <-? claim_loop E pid [] (page_steps phys end_) ;; ret (Ok phys)
  else ret (Ok 0).

Definition map_range (E : Env) (current_pid : PID) (cur : MemoryMapping) (phys virt_ptr size : Z)
    (flags : MemoryFlags) (map_user : bool) : M Sys (res MemoryRange Error) :=
  virt <-? find_virtual_address current_pid cur virt_ptr size ;;
  phys <-? map_source E (get_pid cur) phys size flags ;;
  phys <-? (if phys =? 0 then a <-? on_mm (alloc_range (size / PAGE_SIZE) (get_pid cur)) ;; ret (Ok a.1)
            else ret (Ok phys)) ;;
  _ <-? map_loop E cur phys virt size flags map_user [] (page_steps 0 size) ;;
  ret (MemoryRange_new virt size).

(** ** [unmap_range] *)

Definition mm_unmap_page (E : Env) (cur : MemoryMapping) (virt : Z) : M Sys (res unit Error) :=
  t <- gets (fun s => vm_tables (sys_vm s)) ;;
  _ <- match virt_to_phys t cur virt with
       | Ok phys => _ <- release_page E phys (get_pid cur) ;; ret tt
       | Err _ => ret tt
       end ;;
  on_vm (unmap_page cur virt).

Fixpoint unmap_loop (E : Env) (cur : MemoryMapping) (result : res unit Error) (l : list Z) : M Sys (res unit Error) :=
  match l with
  | [] => ret result
  | addr :: l =>
      r <- mm_unmap_page E cur addr ;;
      unmap_loop E cur (match r, result with Err e, Ok _ => Err e | _, _ => result end) l
  end.

Definition unmap_range (E : Env) (cur : MemoryMapping) (virt len : Z) : M Sys (res unit Error) :=
  if negb (Z.land virt (PAGE_SIZE - 1) =? 0) || negb (Z.land len (PAGE_SIZE - 1) =? 0) then ret (Err BadAlignment)
  else end_ <- checked_add virt len ;; unmap_loop E cur (Ok tt) (page_steps virt end_).

Definition next_multiple_of_page (x : Z) : M Sys Z :=
  let r := x mod PAGE_SIZE in if r =? 0 then ret x else checked_add x (PAGE_SIZE - r).

Definition check_range_accessible (cur : MemoryMapping) (range : MemoryRange) : M Sys (res unit Error) :=
  end_ <- checked_add (range_addr range) (range_size range) ;;
  end_ <- next_multiple_of_page end_ ;;
  t <- gets (fun s => vm_tables (sys_vm s)) ;;
  let start := range_addr range - range_addr range mod PAGE_SIZE in
  if forallb (fun addr => negb (USER_AREA_END <? addr) && address_user_accessible t cur addr) (page_steps start end_)
  then ret (Ok tt) else ret (Err BadAddress).

(** ** Transfers of single pages *)

Definition mm_move_page (E : Env) (src : MemoryMapping) (src_addr : Z) (dest : MemoryMapping) (dest_addr : Z)
  : M Sys (res unit Error) :=
  phys_addr <-? gets (fun s => virt_to_phys (vm_tables (sys_vm s)) src src_addr) ;;
  _ <-? on_vm (move_page src src_addr dest dest_addr) ;;
  on_mm (claim_release_move (env_permitted E) phys_addr (get_pid dest) (MoveFrom (get_pid src))).

Definition mm_lend_page (src : MemoryMapping) (src_addr : Z) (dest : MemoryMapping) (dest_addr : Z) (mutable : bool)
  : M Sys (res unit Error) := on_vm (lend_page src src_addr dest dest_addr mutable).

Definition unlend_page (src : MemoryMapping) (src_addr : Z) (dest : MemoryMapping) (dest_addr : Z)
  : M Sys (res unit Error) := on_vm (return_page src src_addr dest dest_addr).

(** ** Transfers between processes

    [current_pid] and [cur] are the running process and its active mapping. *)

Definition page_aligned (x : Z) : bool := Z.land x (PAGE_SIZE - 1) =? 0.

(** Transfers within one process; the address stays aligned, which
    [lend_memory] also asserts. *)
Fixpoint ensure_pages (cur : MemoryMapping) (l : list Z) : M Sys (res unit Error) :=
  match l with
  | [] => ret (Ok tt)
  | va :: l => _ <-? on_vm (ensure_page_exists cur va) ;; ensure_pages cur l
  end.

(** The loop shared by [send_memory] and [lend_memory]: each page is made
    present, then transferred; the last transfer error is kept. *)
Fixpoint transfer_loop (cur : MemoryMapping) (transfer : Z -> Z -> M Sys (res unit Error)) (src_virt dest_virt : Z)
    (error : option Error) (l : list Z) : M Sys (res (option Error) Error) :=
  match l with
  | [] => ret (Ok error)
  | offset :: l =>
      let src := usize (src_virt + offset) in
      let dest := usize (dest_virt + offset) in
      _ <- assertb (page_aligned src) ;;
      _ <- assertb (page_aligned dest) ;;
      _ <-? on_vm (ensure_page_exists cur src) ;;
      r <- transfer src dest ;;
      transfer_loop cur transfer src_virt dest_virt (match r with Err e => Some e | Ok _ => error end) l
  end.

Definition lookup_process (E : Env) (pid : PID) : res MemoryMapping Error := ok_or (env_maps E !! pid) ProcessNotFound.

Definition send_memory (E : Env) (current_pid : PID) (cur : MemoryMapping) (src_virt : Z) (dest_pid : PID)
    (dest_virt len : Z) : M Sys (res Z Error) :=
  if len =? 0 then ret (Err BadAddress)
  else if negb (page_aligned len) then ret (Err BadAddress)
  else if negb (page_aligned src_virt) then ret (Err BadAddress)
  else if negb (page_aligned dest_virt) then ret (Err BadAddress)
  else
    dest_end <- checked_add dest_virt len ;;
    if USER_AREA_END <? dest_end then ret (Err BadAddress)
    else if current_pid =? dest_pid then
      _ <-? ensure_pages cur (map (fun o => usize (src_virt + o)) (page_steps 0 len)) ;; ret (Ok src_virt)
    else
      match lookup_process E current_pid, lookup_process E dest_pid with
      | Err e, _ => ret (Err e)
      | Ok _, Err e => ret (Err e)
      | Ok src_mapping, Ok dest_mapping =>
          dest_virt <-? find_virtual_address current_pid dest_mapping dest_virt len ;;
          error <-? transfer_loop cur (fun s d => mm_move_page E src_mapping s dest_mapping d)
                      src_virt dest_virt None (page_steps 0 len) ;;
          match error with None => ret (Ok dest_virt) | Some _ => panic end
      end.

Definition lend_memory (E : Env) (current_pid : PID) (cur : MemoryMapping) (src_virt : Z) (dest_pid : PID)
    (dest_virt len : Z) (mutable : bool) : M Sys (res Z Error) :=
  if len =? 0 then ret (Err BadAddress)
  else if negb (page_aligned len) then ret (Err BadAlignment)
  else if negb (page_aligned src_virt) then ret (Err BadAlignment)
  else if negb (page_aligned dest_virt) then ret (Err BadAlignment)
  else if current_pid =? dest_pid then
    _ <-? ensure_pages cur (map (fun o => usize (src_virt + o)) (page_steps 0 len)) ;; ret (Ok src_virt)
  else
    match lookup_process E current_pid, lookup_process E dest_pid with
    | Err e, _ => ret (Err e)
    | Ok _, Err e => ret (Err e)
    | Ok src_mapping, Ok dest_mapping =>
        dest_virt <-? find_virtual_address current_pid dest_mapping dest_virt len ;;
        error <-? transfer_loop cur (fun s d => mm_lend_page src_mapping s dest_mapping d mutable)
                    src_virt dest_virt None (page_steps 0 len) ;;
        match error with None => ret (Ok dest_virt) | Some _ => panic end
    end.

Fixpoint return_loop (src_mapping dest_mapping : MemoryMapping) (src_virt dest_virt : Z) (error : option Error)
    (l : list Z) : M Sys (option Error) :=
  match l with
  | [] => ret error
  | offset :: l =>
      let src := usize (src_virt + offset) in
      let dest := usize (dest_virt + offset) in
      _ <- assertb (page_aligned src) ;;
      _ <- assertb (page_aligned dest) ;;
      r <- unlend_page src_mapping src dest_mapping dest ;;
      return_loop src_mapping dest_mapping src_virt dest_virt (match r with Err e => Some e | Ok _ => error end) l
  end.

Definition return_memory (E : Env) (current_pid : PID) (src_virt : Z) (dest_pid : PID) (dest_virt len : Z)
  : M Sys (res Z Error) :=
  if len =? 0 then ret (Err BadAddress)
  else if negb (page_aligned len) then ret (Err BadAddress)
  else if negb (page_aligned src_virt) then ret (Err BadAddress)
  else if negb (page_aligned dest_virt) then ret (Err BadAddress)
  else if current_pid =? dest_pid then ret (Ok src_virt)
  else
    match lookup_process E current_pid, lookup_process E dest_pid with
    | Err e, _ => ret (Err e)
    | Ok _, Err e => ret (Err e)
    | Ok src_mapping, Ok dest_mapping =>
        error <- return_loop src_mapping dest_mapping src_virt dest_virt None (page_steps 0 len) ;;
        match error with None => ret (Ok dest_virt) | Some e => ret (Err e) end
    end.

(** ** System calls *)

Definition sys_map_memory (E : Env) (pid : PID) (cur : MemoryMapping) (phys virt : option Z) (size : Z)
    (req_flags : MemoryFlags) : M Sys (res XResult Error) :=
  let phys_ptr := get_or_0 phys in
  let virt_ptr := get_or_0 virt in
  if negb (pid =? 1) && match virt with Some v => USER_AREA_END <=? v | None => false end then ret (Err BadAddress)
  else if negb (page_aligned size) then ret (Err BadAlignment)
  else if MemoryFlags_is_set req_flags (Z.lor MF_W MF_X) then ret (Err InvalidArguments)
  else range <-? map_range E pid cur phys_ptr virt_ptr size req_flags true ;; ret (Ok (R_MemoryRange range)).

Definition sys_unmap_memory (E : Env) (pid : PID) (cur : MemoryMapping) (range : MemoryRange)
  : M Sys (res XResult Error) :=
  _ <-? check_range_accessible cur range ;;
  _ <-? unmap_range E cur (range_addr range) (range_size range) ;; ret (Ok R_Ok).

Definition sys_increase_heap (E : Env) (pid : PID) (cur : MemoryMapping) (size : Z) : M Sys (res XResult Error) :=
  if negb (page_aligned size) then ret (Err BadAlignment)
  else range <-? map_range E pid cur 0 0 size (Z.lor MF_POPULATE MF_W) true ;; ret (Ok (R_MemoryRange range)).


(** ** Frames and their owners *)

Lemma page_aligned_mod a : page_aligned a = true <-> a mod PAGE_SIZE = 0.
Proof.
  unfold page_aligned. rewrite Z.eqb_eq. change (PAGE_SIZE - 1) with (Z.ones 14). by rewrite Z.land_ones.
Qed.

(** An address is a RAM frame, or no operation on it touches one. *)
Lemma tracked_frame m addr off :
  extra_ok m -> address_to_allocation_offset m addr = Some (Some off) -> page_aligned addr = true ->
  0 <= off /\ 0 <= addr < 2 ^ 47 /\ ((off < RAM_PAGES /\ addr = frame off) \/
               (RAM_PAGES <= off /\ forall m', frame_owner m' addr = None)).
Proof.
  intros Hx Ho Ha%page_aligned_mod. pose proof plat_base as [Hb0 Hb1]. pose proof plat_pages.
  unfold address_to_allocation_offset in Ho. destruct ((_ <=? _) && _) eqn:Eb.
  - injection Ho as <-. apply andb_true_iff in Eb as [H1%Z.leb_le H2%Z.ltb_lt]. unfold DRAM_END in H2.
    assert (Hm : (addr - DRAM_BASE) mod PAGE_SIZE = 0) by (rewrite Zminus_mod, Ha, Hb1; done).
    pose proof (Z.div_mod (addr - DRAM_BASE) PAGE_SIZE ltac:(done)) as Hd. rewrite Hm in Hd.
    pose proof plat_bound. split; [apply Z.div_pos; [lia|done]|]. split; [unfold PAGE_SIZE in *; lia|].
    left. split; [apply Z.div_lt_upper_bound; lia|]. unfold frame. lia.
  - pose proof (extra_offset_ge _ _ _ _ Hx Ho). split; [lia|]. split; [lia|]. right. split; [lia|].
    intros m'. destruct (frame_owner_cases addr) as [(i & Hi & ->)|Hn]; [|done].
    apply andb_false_iff in Eb. rewrite Z.leb_gt, Z.ltb_ge in Eb. unfold frame, DRAM_END, PAGE_SIZE in Eb. lia.
Qed.

(** Claiming, releasing and moving, in terms of frame owners. *)
Definition crm_owner (pid : PID) (action : ClaimReleaseMove) : option PID :=
  match action with Release => None | _ => Some pid end.
Definition crm_was (pid : PID) (action : ClaimReleaseMove) (owner : option PID) : Prop :=
  match action with
  | Claim => owner = None
  | Release => owner = Some pid
  | MoveFrom from => owner = Some pid \/ owner = Some from
  end.

Lemma crm_frames permitted m addr pid action r m' :
  mm_inv m -> extra_ok m -> claim_release_move permitted addr pid action m = Some (r, m') ->
  mm_inv m' /\ extra_ok m' /\
  match r with
  | Err _ => m' = m
  | Ok _ =>
      page_aligned addr = true /\ 0 <= addr < 2 ^ 47 /\
      ((exists idx, 0 <= idx < RAM_PAGES /\ addr = frame idx /\ crm_was pid action (frame_owner m addr) /\
          forall q, frame_owner m' q = if decide (q = addr) then crm_owner pid action else frame_owner m q) \/
       ((forall m0, frame_owner m0 addr = None) /\ forall q, frame_owner m' q = frame_owner m q))
  end.
Proof.
  intros Hinv Hx Hrun. pose proof (keeps_crm _ _ _ _ _ _ _ Hrun) as Hk.
  assert (Hx' : extra_ok m') by (unfold extra_ok; by rewrite Hk).
  assert (Hal : page_aligned addr = true \/ exists e, r = Err e /\ m' = m).
  { unfold claim_release_move in Hrun. unfold page_aligned. destruct (_ =? 0); [by left|].
    injection Hrun as <- <-. right. eauto. }
  assert (Ht : addr_tracked m addr = true \/ exists e, r = Err e /\ m' = m).
  { unfold claim_release_move in Hrun. destruct (negb _); [injection Hrun as <- <-; right; eauto|].
    destruct (permitted pid addr); [|injection Hrun as <- <-; right; eauto].
    change (shared_peripheral pid addr) with false in Hrun. cbv iota in Hrun. unfold bind at 1, gets at 1 in Hrun.
    destruct Hal as [Hal|?]; [|by right]. left. unfold addr_tracked.
    destruct (address_to_allocation_offset m addr) as [[off|]|] eqn:Eo; [|done|done].
    destruct (tracked_frame m addr off Hx Eo Hal) as (H0 & _ & _).
    unfold bind, gets, expect, ret, assertb in Hrun.
    destruct (off <? num_allocations m); [|done]. by rewrite (proj2 (Z.leb_le _ _)). }
  destruct Hal as [Hal|(e & -> & ->)]; [|done]. destruct Ht as [Ht|(e & -> & ->)]; [|done].
  destruct (crm_run permitted m addr pid action Hinv Ht) as (r1 & m1 & Hrun1 & Hi1 & _ & Ho).
  rewrite Hrun1 in Hrun. injection Hrun as -> ->. split_and!; [done..|].
  destruct r as [[]|e]; [|done]. destruct Ho as (off & Eo & Hout).
  destruct (tracked_frame m addr off Hx Eo Hal) as (H0 & Hbnd & Hcase). do 2 (split; [done|]).
  assert (Ha : allocations m' = match crm_owner pid action with
                                | Some p => <[off := p]> (allocations m) | None => delete off (allocations m) end)
    by (destruct action; cbn in *; naive_solver).
  assert (Hl : forall j, allocations m' !! j = if decide (j = off) then crm_owner pid action else allocations m !! j).
  { intros j. rewrite Ha. destruct (crm_owner pid action); destruct (decide (j = off)) as [->|].
    - apply lookup_insert_eq.
    - by apply lookup_insert_ne.
    - apply lookup_delete_eq.
    - by apply lookup_delete_ne. }
  destruct Hcase as [[Hlt ->]|[Hge Hno]]; [left; exists off|right].
  - split_and!; [lia|lia|done| |].
    + rewrite frame_owner_idx by lia. destruct action; cbn in *; naive_solver.
    + intros q. destruct (frame_owner_cases q) as [(j & Hj & ->)|Hn].
      * rewrite !frame_owner_idx, Hl by done. destruct (decide (j = off)) as [->|].
        -- by rewrite decide_True.
        -- rewrite decide_False; [done|]. by intros ?%frame_inj.
      * rewrite !Hn. destruct (decide (q = frame off)) as [->|]; [|done].
        specialize (Hn m'). rewrite frame_owner_idx, Hl, decide_True in Hn by (done || lia). done.
  - split; [done|]. intros q. destruct (frame_owner_cases q) as [(j & Hj & ->)|Hn]; [|by rewrite !Hn].
    rewrite !frame_owner_idx, Hl by done. rewrite decide_False by lia. done.
Qed.

(** [q] is one of the [n] frames from [idx] on. *)
Definition frames_in (idx n q : Z) : Prop :=
  (q - DRAM_BASE) mod PAGE_SIZE = 0 /\ idx <= (q - DRAM_BASE) / PAGE_SIZE < idx + n.
#[local] Instance frames_in_dec idx n q : Decision (frames_in idx n q).
Proof. unfold frames_in. apply _. Defined.

Lemma frames_in_frame idx n j : frames_in idx n (frame j) <-> idx <= j < idx + n.
Proof.
  unfold frames_in, frame. replace (DRAM_BASE + j * PAGE_SIZE - DRAM_BASE) with (j * PAGE_SIZE) by lia.
  rewrite Z.mod_mul, Z.div_mul by done. naive_solver.
Qed.

(** Allocation, in terms of frame owners. *)
Lemma alloc_frames n pid m r m' :
  mm_inv m -> extra_ok m -> alloc_range n pid m = Some (r, m') ->
  mm_inv m' /\ extra_ok m' /\
  match r with
  | Err _ => m' = m
  | Ok (phys, _) => exists idx, phys = frame idx /\ 0 <= idx /\ 1 <= n /\ idx + n <= RAM_PAGES /\
      (forall j, idx <= j < idx + n -> frame_owner m (frame j) = None) /\
      (forall q, frame_owner m' q =
         if decide (frames_in idx n q) then Some pid else frame_owner m q)
  end.
Proof.
  intros Hinv Hx Hrun. pose proof (keeps_alloc _ _ _ _ _ Hrun) as Hk.
  assert (Hn : 1 <= n <= RAM_PAGES).
  { pose proof plat_pages. unfold alloc_range in Hrun. destruct (Z.eqb_spec n 1) as [->|]; [lia|].
    unfold alloc_range_aligned, bind, assertb in Hrun. destruct (Z.leb_spec n RAM_PAGES); [|done].
    unfold ret at 1, slice_ok in Hrun. destruct (Z.leb_spec (RAM_PAGES - n + 1) RAM_PAGES); [lia|].
    by rewrite andb_false_r in Hrun. }
  destruct (alloc_range_run m n pid Hinv Hn) as (r1 & m1 & Hrun1 & Hi & Ho).
  rewrite Hrun1 in Hrun. injection Hrun as -> ->. split_and!; [done|by unfold extra_ok; rewrite Hk|].
  destruct r as [[phys z]|e]; [|by destruct Ho as (_ & -> & _)].
  destruct Ho as (idx & -> & (Hsub & Ha & _) & _). exists idx.
  assert (Hin : forall j, idx <= j < idx + n -> 0 <= j < RAM_PAGES /\ allocations m !! j = None).
  { intros j Hj. destruct (inv_free _ Hinv j) as [Hl Hno]; [by apply Hsub, elem_of_pages|].
    unfold limit in Hl. split; [lia|done]. }
  destruct (Hin idx ltac:(lia)) as [? _]. destruct (Hin (idx + n - 1) ltac:(lia)) as [? _].
  split_and!; [done|lia|lia|lia| |].
  - intros j Hj. destruct (Hin j Hj). by rewrite frame_owner_idx by lia.
  - intros q. destruct (frame_owner_cases q) as [(j & Hj & ->)|Hq].
    + rewrite !frame_owner_idx, Ha, fill_owner_lookup by done.
      destruct (decide (frames_in idx n (frame j))) as [Hf|Hf]; rewrite frames_in_frame in Hf;
        [by rewrite bool_decide_true|by rewrite bool_decide_false].
    + rewrite !Hq. destruct (decide (frames_in idx n q)) as [[H1 H2]|]; [|done].
      assert (Eq : q = frame ((q - DRAM_BASE) / PAGE_SIZE))
        by (unfold frame; pose proof (Z.div_mod (q - DRAM_BASE) PAGE_SIZE ltac:(done)); lia).
      specialize (Hq m'). destruct (Hin _ H2) as [Hb _]. rewrite Eq, frame_owner_idx, Ha, fill_owner_lookup, bool_decide_true in Hq by done.
      done.
Qed.

(** ** Isolation

    Every RAM frame mapped in an address space belongs to that process, holds
    no page table, and is mapped once.  [tr] says to whom an owned frame
    belongs; it is the owner itself except while a page changes hands. *)

Section Isolation.
Context (E : Env).

Definition roots : gset Z := list_to_set ((fun kv => root kv.2) <$> map_to_list (env_maps E)).

Record env_ok : Prop := {
  eo_pid : forall p m, env_maps E !! p = Some m -> get_pid m = p;
  eo_inj : forall p q m m', env_maps E !! p = Some m -> env_maps E !! q = Some m' -> root m = root m' -> p = q }.

Definition is_frame (f : Z) : Prop := exists idx, 0 <= idx < RAM_PAGES /\ f = frame idx.

(** Process [p] maps the page of [va] to the frame [f]. *)
Definition mapped (v : VMM) (p : PID) (va f : Z) : Prop :=
  exists m, env_maps E !! p = Some m /\ valid (pte_of (vm_tables v) (root m) va) = true /\
            Z.land (pte_of (vm_tables v) (root m) va) PTE_ADDR_MASK = f.

Definition is_table_page (v : VMM) (f : Z) : Prop :=
  exists r nd, r ∈ roots /\ table_at (vm_tables v) r nd = Some (phys_to_virt f).

Definition belongs (tr : Z -> PID -> PID) (v : VMM) (f : Z) (p : PID) : Prop :=
  exists o, frame_owner (vm_mm v) f = Some o /\ tr f o = p.

Record isolated (tr : Z -> PID -> PID) (v : VMM) : Prop := {
  iso_inv : vm_inv roots v;
  iso_owner : forall p va f, mapped v p va f -> is_frame f -> belongs tr v f p /\ ~ is_table_page v f;
  iso_once : forall p va q vb f, mapped v p va f -> mapped v q vb f -> is_frame f -> same_page va vb = true }.

(** A frame owned by a process and used neither as a table nor in a mapping. *)
Definition reserved (tr : Z -> PID -> PID) (v : VMM) (p : PID) (f : Z) : Prop :=
  is_frame f -> belongs tr v f p /\ ~ is_table_page v f /\ forall q va, ~ mapped v q va f.

Definition no_transit : Z -> PID -> PID := fun _ o => o.

Lemma elem_roots r : r ∈ roots <-> exists p m, env_maps E !! p = Some m /\ r = root m.
Proof.
  unfold roots. rewrite elem_of_list_to_set, list_elem_of_fmap. split.
  - intros ([p m] & -> & Hm%elem_of_map_to_list). eauto.
  - intros (p & m & Hm & ->). exists (p, m). split; [done|]. by apply elem_of_map_to_list.
Qed.

Lemma root_in p m : env_maps E !! p = Some m -> root m ∈ roots.
Proof. intros Hm. apply elem_roots. eauto. Qed.

Lemma is_frame_bounds f : is_frame f -> 0 <= f < 2 ^ 47.
Proof. intros (i & Hi & ->). by apply frame_bounds. Qed.

Lemma not_frame f : (forall m, frame_owner m f = None) -> ~ is_frame f.
Proof.
  intros Hno (i & Hi & ->). specialize (Hno (mkMM {[i := 1]} 0 [] ∅ None ∅ 0 0 false [])).
  rewrite frame_owner_idx in Hno by done. cbn in Hno. by rewrite lookup_singleton_eq in Hno.
Qed.

(** A table page has an owner; a frame without owner is neither table nor mapped. *)
Lemma table_owned v f : vm_inv roots v -> is_frame f -> is_table_page v f -> is_Some (frame_owner (vm_mm v) f).
Proof.
  intros Hinv Hf (r & nd & Hr & Ha). destruct (vi_own _ _ Hinv r nd _ Hr Ha) as (pa & Hpa & Hb & _ & Ho).
  apply phys_to_virt_inj in Hpa; [by subst|by apply is_frame_bounds|done].
Qed.

Lemma unowned_unused tr v f : isolated tr v -> is_frame f -> frame_owner (vm_mm v) f = None ->
  ~ is_table_page v f /\ forall q va, ~ mapped v q va f.
Proof.
  intros Hiso Hf Hn. split.
  - intros Ht. destruct (table_owned v f (iso_inv _ _ Hiso) Hf Ht). congruence.
  - intros q va Hm. destruct (iso_owner _ _ Hiso q va f Hm Hf) as [(o & Ho & _) _]. congruence.
Qed.

(** Adding tables moves no owned frame into a table. *)
Lemma step_tables v v' f p : vm_step roots v v' -> is_frame f -> frame_owner (vm_mm v) f = Some p ->
  ~ is_table_page v f -> ~ is_table_page v' f.
Proof.
  intros Hst Hf Ho Hn (r & nd & Hr & Ha). destruct (st_new _ _ _ Hst r nd _ Hr Ha) as [Ha'|(pa & Hpa & Hb & Hno)].
  - apply Hn. by exists r, nd.
  - apply phys_to_virt_inj in Hpa; [|by apply is_frame_bounds|done]. subst pa. cbn in Hno. congruence.
Qed.

Lemma belongs_step tr v v' f p : vm_step roots v v' -> belongs tr v f p -> belongs tr v' f p.
Proof. intros Hst (o & Ho & Ht). exists o. split; [|done]. by apply (st_own _ _ _ Hst). Qed.

(** Entries after an update at [va] of process [p]. *)
Lemma mapped_update v v' p m va e q vb f :
  env_ok -> env_maps E !! p = Some m -> pte_update roots v v' (root m) va e ->
  mapped v' q vb f <->
  (q = p /\ same_page va vb = true /\ valid e = true /\ Z.land e PTE_ADDR_MASK = f) \/
  (~ (q = p /\ same_page va vb = true) /\ mapped v q vb f).
Proof.
  intros Henv Hm Hu. split.
  - intros (mq & Hq & Hv & Hf). rewrite Hu in Hv, Hf by (by eapply root_in).
    destruct (decide (root mq = root m)) as [Hr|Hr].
    + assert (q = p) as -> by (by apply (eo_inj Henv q p mq m)). assert (mq = m) as -> by congruence.
      destruct (same_page va vb) eqn:Es; [by left|]. right. split; [by intros [_ ?]|]. by exists m.
    + right. split; [|by exists mq]. intros [-> _]. congruence.
  - intros [(-> & Hs & Hv & Hf)|(Hn & mq & Hq & Hv & Hf)].
    + exists m. rewrite Hu by (by eapply root_in). by rewrite decide_True, Hs.
    + exists mq. rewrite Hu by (by eapply root_in). destruct (decide (root mq = root m)) as [Hr|]; [|done].
      assert (q = p) as -> by (by apply (eo_inj Henv q p mq m)). destruct (same_page va vb) eqn:Es; [by destruct Hn|done].
Qed.

(** Mapping a reserved frame. *)
Lemma isolated_map tr v v' p m va e :
  env_ok -> isolated tr v -> env_maps E !! p = Some m -> vm_step roots v v' ->
  pte_update roots v v' (root m) va e -> reserved tr v p (Z.land e PTE_ADDR_MASK) -> isolated tr v'.
Proof.
  intros Henv Hiso Hm Hst Hu Hres.
  assert (Hold : forall q vb f, mapped v' q vb f -> is_frame f ->
            (q = p /\ same_page va vb = true /\ Z.land e PTE_ADDR_MASK = f) \/
            (f <> Z.land e PTE_ADDR_MASK /\ mapped v q vb f)).
  { intros q vb f Hmp Hf. apply (mapped_update v v' p m va e) in Hmp; [|done..].
    destruct Hmp as [(-> & ? & _ & ?)|(_ & Hmp)]; [by left|]. right. split; [|done].
    intros ->. destruct (Hres Hf) as (_ & _ & Hno). by apply (Hno q vb). }
  split; [apply Hst| |].
  - intros q vb f Hmp Hf. assert (Hb : belongs tr v f q /\ ~ is_table_page v f).
    { destruct (Hold q vb f Hmp Hf) as [(-> & _ & <-)|[_ Hmq]]; [|by apply (iso_owner _ _ Hiso q vb)].
      by destruct (Hres Hf) as (? & ? & _). }
    destruct Hb as [Hb Ht]. split; [by eapply belongs_step|]. destruct Hb as (o & Ho & _). by eapply step_tables.
  - intros q vb q' vb' f H1 H2 Hf.
    destruct (Hold q vb f H1 Hf) as [(-> & S1 & E1)|[N1' M1]]; destruct (Hold q' vb' f H2 Hf) as [(-> & S2 & E2)|[N2' M2]].
    + rewrite same_page_eq in *. naive_solver congruence.
    + by destruct N2'.
    + by destruct N1'.
    + by apply (iso_once _ _ Hiso q vb q' vb' f).
Qed.

(** An unused frame stays so, unless it is the one being mapped. *)
Lemma reserved_update tr v v' p m va e q g :
  env_ok -> env_maps E !! p = Some m -> vm_step roots v v' -> pte_update roots v v' (root m) va e ->
  valid e = false \/ g <> Z.land e PTE_ADDR_MASK -> reserved tr v q g -> reserved tr v' q g.
Proof.
  intros Henv Hm Hst Hu Hne Hres Hf. destruct (Hres Hf) as (Hb & Ht & Hno). split_and!.
  - by eapply belongs_step.
  - destruct Hb as (o & Ho & _). by eapply step_tables.
  - intros q' vb Hmp. apply (mapped_update v v' p m va e) in Hmp; [|done..].
    destruct Hmp as [(_ & _ & Hv & Hg)|[_ Hmp]]; [|by apply (Hno q' vb)]. destruct Hne; congruence.
Qed.

(** A frame mapped at the updated page only is released by the update. *)
Lemma reserved_unmapped tr v v' p m va e g :
  env_ok -> isolated tr v -> env_maps E !! p = Some m -> vm_step roots v v' ->
  pte_update roots v v' (root m) va e ->
  valid e = false \/ g <> Z.land e PTE_ADDR_MASK -> mapped v p va g -> reserved tr v' p g.
Proof.
  intros Henv Hiso Hm Hst Hu Hne Hmp Hf. destruct (iso_owner _ _ Hiso p va g Hmp Hf) as [Hb Ht]. split_and!.
  - by eapply belongs_step.
  - destruct Hb as (o & Ho & _). by eapply step_tables.
  - intros q vb Hmq. apply (mapped_update v v' p m va e) in Hmq; [|done..].
    destruct Hmq as [(_ & _ & Hv & Hg)|[Hn Hmq]]; [destruct Hne; congruence|]. apply Hn.
    split; [|by apply (iso_once _ _ Hiso p va q vb g)].
    destruct (iso_owner _ _ Hiso q vb g Hmq Hf) as [(o & Ho & Ht') _]. destruct Hb as (o' & Ho' & Ht''). congruence.
Qed.

(** Removing a mapping. *)
Lemma isolated_unmap tr v v' p m va e :
  env_ok -> isolated tr v -> env_maps E !! p = Some m -> vm_step roots v v' ->
  pte_update roots v v' (root m) va e -> valid e = false -> isolated tr v'.
Proof.
  intros Henv Hiso Hm Hst Hu He.
  assert (Hold : forall q vb f, mapped v' q vb f -> mapped v q vb f).
  { intros q vb f Hmp. apply (mapped_update v v' p m va e) in Hmp; [|done..].
    destruct Hmp as [(_ & _ & Hv & _)|[_ ?]]; [congruence|done]. }
  split; [apply Hst| |].
  - intros q vb f Hmp%Hold Hf. destruct (iso_owner _ _ Hiso q vb f Hmp Hf) as [Hb Ht].
    split; [by eapply belongs_step|]. destruct Hb as (o & Ho & _). by eapply step_tables.
  - intros q vb q' vb' f H1%Hold H2%Hold. by apply (iso_once _ _ Hiso q vb q' vb' f).
Qed.

(** Tables added, no translation changed. *)
Lemma isolated_grows tr v v' : isolated tr v -> vm_grows roots v v' ->
  isolated tr v' /\ (forall q va f, mapped v' q va f <-> mapped v q va f) /\
  forall p g, reserved tr v p g -> reserved tr v' p g.
Proof.
  intros Hiso [Hst Hp].
  assert (Hmp : forall q va f, mapped v' q va f <-> mapped v q va f).
  { intros q va f. split; intros (m & Hm & Hv & Hf); exists m; rewrite Hp in * by (by eapply root_in); done. }
  split_and!; [split; [apply Hst| |]|done|].
  - intros q vb f Hq%Hmp Hf. destruct (iso_owner _ _ Hiso q vb f Hq Hf) as [Hb Ht].
    split; [by eapply belongs_step|]. destruct Hb as (o & Ho & _). by eapply step_tables.
  - intros q vb q' vb' f H1%Hmp H2%Hmp. by apply (iso_once _ _ Hiso q vb q' vb' f).
  - intros p g Hres Hf. destruct (Hres Hf) as (Hb & Ht & Hno). split_and!.
    + by eapply belongs_step.
    + destruct Hb as (o & Ho & _). by eapply step_tables.
    + intros q va Hq%Hmp. by apply (Hno q va).
Qed.

(** The allocator changes owners of unused frames only. *)
Lemma isolated_mm tr tr' v mm' :
  isolated tr v -> pa_inv mm' ->
  (forall f o, is_frame f -> frame_owner (vm_mm v) f = Some o -> (exists q va, mapped v q va f) \/ is_table_page v f ->
     exists o', frame_owner mm' f = Some o' /\ (~ is_table_page v f -> tr' f o' = tr f o)) ->
  isolated tr' (mkVM mm' (vm_tables v)).
Proof.
  intros Hiso Hmm Hk. split.
  - split; [done|apply (iso_inv _ _ Hiso)..|]. intros r nd a Hr Ha.
    destruct (vi_own _ _ (iso_inv _ _ Hiso) r nd a Hr Ha) as (pa & -> & Hb & Hal & [o Ho]). exists pa.
    do 3 (split; [done|]). cbn in *. destruct (frame_owner_cases pa) as [(i & Hi & Hpa)|Hn]; [|by rewrite Hn in Ho].
    destruct (Hk pa o) as (o' & Ho' & _); [by exists i|done|right; by exists r, nd|]. eauto.
  - intros q va f Hmp Hf. destruct (iso_owner _ _ Hiso q va f Hmp Hf) as [(o & Ho & Ht) Hnt]. split; [|done].
    destruct (Hk f o Hf Ho) as (o' & Ho' & Htr); [by left; exists q, va|]. exists o'. split; [done|].
    by rewrite Htr.
  - apply (iso_once _ _ Hiso).
Qed.
(** Changing hands matters for mapped frames only. *)
Lemma isolated_retarget tr tr' v :
  isolated tr v -> (forall q va f o, mapped v q va f -> tr' f o = tr f o) -> isolated tr' v.
Proof.
  intros Hiso Htr. split; [apply Hiso| |apply Hiso].
  intros q va f Hmp Hf. destruct (iso_owner _ _ Hiso q va f Hmp Hf) as [(o & Ho & Ht) ?]. split; [|done].
  exists o. split; [done|]. by rewrite (Htr q va).
Qed.

(** *** Operations on isolated states *)

Abbreviation iso s := (isolated no_transit (sys_vm s)).
Abbreviation rsv s := (reserved no_transit (sys_vm s)).

Lemma on_vm_run {X} (op : M VMM X) s x s' : on_vm op s = Some (x, s') ->
  exists v, op (sys_vm s) = Some (x, v) /\ s' = mkSys v (hints s).
Proof. unfold on_vm. destruct (op (sys_vm s)) as [[y v]|]; [|done]. intros [= <- <-]. eauto. Qed.

Lemma on_mm_run {X} (op : M MemoryManager X) s x s' : on_mm op s = Some (x, s') ->
  exists m, op (vm_mm (sys_vm s)) = Some (x, m) /\ s' = mkSys (mkVM m (vm_tables (sys_vm s))) (hints s).
Proof.
  unfold on_mm. intros (v & Hv & ->)%on_vm_run. destruct (op (vm_mm (sys_vm s))) as [[y m]|]; [|done].
  injection Hv as <- <-. eauto.
Qed.

Lemma pa_inv_iso tr v : isolated tr v -> mm_inv (vm_mm v) /\ extra_ok (vm_mm v).
Proof. intros Hiso. apply (vi_mm _ _ (iso_inv _ _ Hiso)). Qed.

(** Frames whose owner does not change stay reserved. *)
Lemma reserved_mm tr v mm' p g :
  frame_owner mm' g = frame_owner (vm_mm v) g -> reserved tr v p g -> reserved tr (mkVM mm' (vm_tables v)) p g.
Proof.
  intros Ho Hres Hf. destruct (Hres Hf) as ((o & Hb & Ht) & Hnt & Hno). split; [|done].
  exists o. cbn. by rewrite Ho.
Qed.

(** An unused frame may change its owner. *)
Lemma isolated_reown tr v mm' a :
  isolated tr v -> pa_inv mm' -> (is_frame a -> ~ is_table_page v a /\ forall q va, ~ mapped v q va a) ->
  (forall q, q <> a -> frame_owner mm' q = frame_owner (vm_mm v) q) ->
  isolated tr (mkVM mm' (vm_tables v)).
Proof.
  intros Hiso Hmm Hun Hk. apply (isolated_mm tr); [done..|]. intros f o Hf Ho Hu.
  exists o. split; [|done]. rewrite Hk; [done|]. intros ->. destruct (Hun Hf) as [Hnt Hno].
  destruct Hu as [(q & va & Hmp)|Ht]; [by apply (Hno q va)|done].
Qed.

Lemma claim_iso a p s r s' :
  iso s -> claim_page E a p s = Some (r, s') ->
  iso s' /\ vm_tables (sys_vm s') = vm_tables (sys_vm s) /\
  (forall q g, g <> a -> rsv s q g -> rsv s' q g) /\
  match r with
  | Ok _ => page_aligned a = true /\ 0 <= a < 2 ^ 47 /\ rsv s' p a
  | Err _ => s' = s
  end.
Proof.
  intros Hiso (m & Hrun & ->)%on_mm_run. destruct (pa_inv_iso _ _ Hiso) as [Hmi Hx].
  destruct (crm_frames _ _ _ _ _ _ _ Hmi Hx Hrun) as (Hi & Hx' & Ho). cbn [sys_vm hints].
  destruct r as [[]|e]; [|subst m; destruct s as [[? ?] ?]; by split_and!].
  destruct Ho as (Hal & Hb & [(idx & Hidx & Ha & Hwas & Hown)|[Hno Hown]]).
  - assert (Hf : is_frame a) by (by exists idx). cbn in Hwas.
    destruct (unowned_unused _ _ a Hiso Hf Hwas) as [Hnt Hnm].
    split_and!; try done; try lia.
    + apply (isolated_reown _ _ _ a); try done. intros q Hq. by rewrite Hown, decide_False.
    + intros q g Hg. apply reserved_mm. by rewrite Hown, decide_False.
    + intros _. split_and!; [|done..]. exists p. split; [|done]. cbn. by rewrite Hown, decide_True.
  - pose proof (not_frame a Hno) as Hnf.
    split_and!; try done; try lia.
    + by apply (isolated_reown _ _ _ a).
    + intros q g _. by apply reserved_mm.
Qed.

Lemma release_iso a p s r s' :
  iso s -> release_page E a p s = Some (r, s') -> rsv s p a ->
  iso s' /\ vm_tables (sys_vm s') = vm_tables (sys_vm s) /\ (forall q g, g <> a -> rsv s q g -> rsv s' q g).
Proof.
  intros Hiso (m & Hrun & ->)%on_mm_run Hres. destruct (pa_inv_iso _ _ Hiso) as [Hmi Hx].
  destruct (crm_frames _ _ _ _ _ _ _ Hmi Hx Hrun) as (Hi & Hx' & Ho). cbn [sys_vm hints].
  destruct r as [[]|e]; [|subst m; destruct s as [[? ?] ?]; by split_and!].
  destruct Ho as (_ & _ & Hcase).
  assert (Hk : forall q, q <> a -> frame_owner m q = frame_owner (vm_mm (sys_vm s)) q).
  { intros q Hq. destruct Hcase as [(_ & _ & _ & _ & Hown)|[_ Hown]]; rewrite Hown; [by rewrite decide_False|done]. }
  split_and!; [|done|].
  - apply (isolated_reown _ _ _ a); try done. intros Hf. by destruct (Hres Hf) as (_ & ? & ?).
  - intros q g Hg. apply reserved_mm. by apply Hk.
Qed.

Lemma release_pages_iso p l s s' :
  NoDup l -> iso s -> release_pages E p l s = Some (tt, s') -> (forall a, a ∈ l -> rsv s p a) -> iso s'.
Proof.
  revert s. induction l as [|a l IH]; intros s Hnd Hiso Hrun Hres; cbn in Hrun; [by injection Hrun as <-|].
  apply NoDup_cons in Hnd as [Ha Hnd]. apply run_bind in Hrun as (r & s1 & H1 & H2).
  destruct (release_iso a p s r s1 Hiso H1) as (Hiso1 & _ & Hk); [by apply Hres, elem_of_cons; left|].
  apply (IH s1); try done. intros b Hb. apply Hk; [by intros ->|]. by apply Hres, elem_of_cons; right.
Qed.

Lemma claim_loop_iso p claimed l s r s' :
  NoDup (claimed ++ l) -> iso s -> (forall a, a ∈ claimed -> rsv s p a) ->
  claim_loop E p claimed l s = Some (r, s') ->
  iso s' /\ (is_ok r = true ->
    (forall a, a ∈ l -> page_aligned a = true /\ 0 <= a < 2 ^ 47) /\ forall a, a ∈ claimed ++ l -> rsv s' p a).
Proof.
  revert claimed s. induction l as [|a l IH]; intros claimed s Hnd Hiso Hcl Hrun; cbn in Hrun.
  - injection Hrun as <- <-. split; [done|]. intros _. split; [by intros a ?%elem_of_nil|]. by rewrite app_nil_r.
  - apply run_bind in Hrun as (ra & s1 & H1 & H2).
    assert (Ha : a ∉ claimed) by (apply NoDup_app in Hnd as (_ & Hd & _); intros Hin; apply (Hd a Hin); left).
    destruct (claim_iso a p s ra s1 Hiso H1) as (Hiso1 & _ & Hk & Hra). destruct ra as [[]|e].
    + destruct Hra as (Hal & Hb & Hr). rewrite cons_middle, (app_assoc claimed [a] l) in Hnd.
      destruct (IH (claimed ++ [a]) s1 Hnd Hiso1) as [Hi Hok]; [|done|].
      * intros b [Hb'|Hb'%list_elem_of_singleton]%elem_of_app; [|by subst b]. apply Hk; [by intros ->|by apply Hcl].
      * split; [done|]. intros Hr'. destruct (Hok Hr') as [Hl Hall]. split.
        -- intros b [->|Hb']%elem_of_cons; [done|by apply Hl].
        -- rewrite cons_middle, (app_assoc claimed [a] l). done.
    + subst s1. apply run_bind in H2 as (? & s2 & H2 & [= <- <-]). split; [|done].
      destruct x. apply (release_pages_iso p claimed s); try done. by apply NoDup_app in Hnd as (? & _ & _).
Qed.
Context (Henv : env_ok).

(** A frame on its way into or out of the mapping of [vb]. *)
Definition pending (v : VMM) (p : PID) (g vb : Z) : Prop := mapped v p vb g \/ reserved no_transit v p g.

Lemma pending_update v v' p m va e g vb :
  isolated no_transit v -> env_maps E !! p = Some m -> vm_step roots v v' -> pte_update roots v v' (root m) va e ->
  valid e = false \/ g <> Z.land e PTE_ADDR_MASK -> pending v p g vb -> pending v' p g vb.
Proof.
  intros Hiso Hm Hst Hu Hne [Hmp|Hres]; [|right; by eapply reserved_update].
  destruct (same_page va vb) eqn:Es.
  - right. eapply reserved_unmapped; try done. destruct Hmp as (mp & Hp & Hv & Hf). exists mp.
    by rewrite <- (pte_of_same_page _ _ _ _ Es).
  - left. eapply mapped_update; try done. right. split; [|done]. intros [_ ?]. congruence.
Qed.

Lemma unmap_page_iso p m va s r s' :
  iso s -> env_maps E !! p = Some m -> on_vm (unmap_page m va) s = Some (r, s') ->
  iso s' /\ vm_mm (sys_vm s') = vm_mm (sys_vm s) /\
  (forall q g, rsv s q g -> rsv s' q g) /\
  (forall g vb, pending (sys_vm s) p g vb -> pending (sys_vm s') p g vb) /\
  (forall g, pending (sys_vm s) p g va -> rsv s' p g).
Proof.
  intros Hiso Hm (v & Hrun & ->)%on_vm_run. cbn [sys_vm].
  destruct (unmap_page_run roots (sys_vm s) m va (iso_inv _ _ Hiso) (root_in _ _ Hm)) as (o & v1 & H1 & Hst & Hmm & Ho).
  rewrite Hrun in H1. injection H1 as <- <-. destruct r as [[]|e].
  - split_and!; [by eapply isolated_unmap|done| | |].
    + intros q g. eapply reserved_update; try done. by left.
    + intros g vb. eapply pending_update; try done. by left.
    + intros g [Hmp|Hres]; [eapply reserved_unmapped; try done; by left|]. eapply reserved_update; try done. by left.
  - destruct Ho as (-> & -> & H0). split_and!; [done..|].
    intros g [(mp & Hp & Hv & _)|Hres]; [|done]. assert (mp = m) as -> by congruence. by rewrite H0 in Hv.
Qed.

Lemma unmap_pages_iso p m l s s' :
  iso s -> env_maps E !! p = Some m -> unmap_pages m l s = Some (tt, s') ->
  iso s' /\ (forall g, rsv s p g -> rsv s' p g) /\
  (forall g vb, vb ∈ l -> pending (sys_vm s) p g vb -> rsv s' p g).
Proof.
  revert s. induction l as [|va l IH]; intros s Hiso Hm Hrun; cbn in Hrun.
  - injection Hrun as <-. split_and!; [done..|]. by intros g vb ?%elem_of_nil.
  - apply run_bind in Hrun as (r & s1 & H1 & H2).
    destruct (unmap_page_iso p m va s r s1 Hiso Hm H1) as (Hi1 & _ & Hr1 & Hp1 & Hu1).
    destruct (IH s1 Hi1 Hm H2) as (Hi2 & Hr2 & Hu2). split_and!; [done|auto|].
    intros g vb [->|Hin]%elem_of_cons Hpd; [by apply Hr2, Hu1|]. by apply (Hu2 g vb Hin), Hp1.
Qed.

Lemma masked_self a : page_aligned a = true -> 0 <= a < 2 ^ 47 -> Z.land a PTE_ADDR_MASK = a.
Proof.
  intros Ha%page_aligned_mod Hb. by apply addr_mask_aligned.
Qed.

Lemma map_page_iso p m a va flags user s r s' :
  iso s -> env_maps E !! p = Some m -> page_aligned a = true -> 0 <= a < 2 ^ 47 -> rsv s p a ->
  on_vm (map_page m a va flags user) s = Some (r, s') ->
  iso s' /\ (forall g vb, g <> a -> pending (sys_vm s) p g vb -> pending (sys_vm s') p g vb) /\
  (forall q g, g <> a -> rsv s q g -> rsv s' q g) /\
  match r with Ok _ => pending (sys_vm s') p a va | Err _ => rsv s' p a end.
Proof.
  intros Hiso Hm Hal Hb Hres (v & Hrun & ->)%on_vm_run. cbn [sys_vm].
  destruct (map_page_run roots (sys_vm s) m a va flags user (iso_inv _ _ Hiso) (root_in _ _ Hm))
    as (o & v1 & H1 & Hst & Ho).
  rewrite Hrun in H1. injection H1 as <- <-. destruct r as [[]|e].
  - destruct (page_entry_addr a flags user) as [He Hv]. rewrite (masked_self a) in He by done.
    split_and!.
    + eapply isolated_map; try done. by rewrite He.
    + intros g vb Hg. eapply pending_update; try done. right. by rewrite He.
    + intros q g Hg. eapply reserved_update; try done. right. by rewrite He.
    + left. eapply mapped_update; try done. left. by rewrite same_page_refl.
  - destruct Ho as [_ G]. destruct (isolated_grows _ _ _ Hiso G) as (Hi & Hmp & Hr). split_and!; [done| |by intros; apply Hr|by apply Hr].
    intros g vb _ [?|?]; [left; by apply Hmp|right; by apply Hr].
Qed.

Lemma page_steps_shift a b : page_steps a (a + b) = map (fun o => a + o) (page_steps 0 b).
Proof.
  unfold page_steps. rewrite map_map. replace (a + b - a) with (b - 0) by lia.
  apply map_ext. intros k. lia.
Qed.

Lemma NoDup_page_steps a b : NoDup (page_steps a b).
Proof.
  unfold page_steps. rewrite zrange_seqZ. apply NoDup_fmap_2; [|apply NoDup_seqZ].
  intros x y. unfold PAGE_SIZE. lia.
Qed.

Lemma elem_of_page_steps a b x :
  x ∈ page_steps a b <-> exists k, x = a + k * PAGE_SIZE /\ 0 <= k < (b - a + PAGE_SIZE - 1) / PAGE_SIZE.
Proof.
  unfold page_steps. rewrite zrange_seqZ, list_elem_of_fmap. apply exist_proper. intros k. rewrite elem_of_seqZ. naive_solver lia.
Qed.

Lemma map_loop_iso p m phys virt size flags user dn l s r s' :
  iso s -> env_maps E !! p = Some m -> phys <> 0 -> dn ++ l = page_steps 0 size ->
  (forall o, o ∈ l -> page_aligned (phys + o) = true /\ 0 <= phys + o < 2 ^ 47 /\ rsv s p (phys + o)) ->
  (forall o, o ∈ dn -> pending (sys_vm s) p (phys + o) (usize (virt + o))) ->
  map_loop E m phys virt size flags user dn l s = Some (r, s') -> iso s'.
Proof.
  revert dn s. induction l as [|o l IH]; intros dn s Hiso Hm Hph Hl Hres Hpd Hrun; cbn in Hrun.
  { by injection Hrun as _ <-. }
  destruct (Z.eqb_spec phys 0) as [|_]; [done|]. apply run_bind in Hrun as (ro & s1 & H1 & H2).
  pose proof (NoDup_page_steps 0 size) as Hnd. rewrite <- Hl in Hnd.
  destruct (Hres o) as (Hal & Hb & Hr); [by left|].
  destruct (map_page_iso p m _ _ _ _ s ro s1 Hiso Hm Hal Hb Hr H1) as (Hi1 & Hp1 & Hr1 & Ho).
  assert (Hne : forall o', o' ∈ dn \/ o' ∈ l -> phys + o' <> phys + o).
  { intros o' Hin Heq. assert (o' = o) as -> by lia. apply NoDup_app in Hnd as (_ & Hd & [Hn _]%NoDup_cons).
    destruct Hin as [Hin|Hin]; [|done]. apply (Hd o Hin). by left. }
  destruct ro as [[]|e].
  - apply (IH (dn ++ [o]) s1); try done.
    + by rewrite <- app_assoc.
    + intros o' Hin. destruct (Hres o') as (? & ? & ?); [by right|]. split_and!; try done; try lia.
      apply Hr1; [|done]. apply Hne. by right.
    + intros o' [Hin|Hin%list_elem_of_singleton]%elem_of_app; [|by subst o'].
      apply Hp1; [|by apply Hpd]. apply Hne. by left.
  - apply run_bind in H2 as ([] & s2 & H2 & H3). apply run_bind in H3 as ([] & s3 & H3 & [= _ <-]).
    destruct (unmap_pages_iso p m _ s1 s2 Hi1 Hm H2) as (Hi2 & Hr2 & Hu2).
    apply run_bind in H3 as (end_ & s4 & H4 & H3).
    assert (end_ = phys + size /\ s4 = s2) as [-> ->]
      by (unfold checked_add in H4; destruct (_ <? _); [by injection H4 as <- <-|done]).
    rewrite (eo_pid Henv p m Hm) in H3. eapply (release_pages_iso p _ s2 s3); [|done|exact H3|].
    + apply NoDup_page_steps.
    + rewrite page_steps_shift, <- Hl. intros a (o' & -> & Hin)%list_elem_of_fmap.
      apply elem_of_app in Hin as [Hin|[->|Hin]%elem_of_cons].
      * apply (Hu2 _ (usize (virt + o'))); [apply list_elem_of_fmap; eauto|].
        apply Hp1; [|by apply Hpd]. apply Hne. by left.
      * by apply Hr2.
      * apply Hr2, Hr1; [apply Hne; by right|]. destruct (Hres o') as (_ & _ & ?); [by right|done].
Qed.
Lemma alloc_iso n p s r s' :
  iso s -> on_mm (alloc_range n p) s = Some (r, s') ->
  iso s' /\ (forall q g, rsv s q g -> rsv s' q g) /\
  match r with
  | Ok (phys, _) => exists idx, phys = frame idx /\ 0 <= idx /\ 1 <= n /\ idx + n <= RAM_PAGES /\
      forall j, idx <= j < idx + n -> rsv s' p (frame j)
  | Err _ => s' = s
  end.
Proof.
  intros Hiso (m & Hrun & ->)%on_mm_run. destruct (pa_inv_iso _ _ Hiso) as [Hmi Hx].
  destruct (alloc_frames _ _ _ _ _ Hmi Hx Hrun) as (Hi & Hx' & Ho). cbn [sys_vm hints].
  destruct r as [[phys z]|e]; [|subst m; destruct s as [[? ?] ?]; by split_and!].
  destruct Ho as (idx & -> & H0 & H1 & H2 & Hfree & Hown).
  assert (Hk : forall f o, is_frame f -> frame_owner (vm_mm (sys_vm s)) f = Some o ->
                 frame_owner m f = frame_owner (vm_mm (sys_vm s)) f).
  { intros f o (j & Hj & ->) Ho. rewrite Hown. apply decide_False. intros Hin%frames_in_frame.
    rewrite Hfree in Ho by done. done. }
  split_and!.
  - apply (isolated_mm no_transit); [done..|]. intros f o Hf Ho _. exists o. by rewrite (Hk f o).
  - intros q g Hres Hg. destruct (Hres Hg) as ((o & Ho & Ht) & Hrest). split; [|done].
    exists o. cbn. by rewrite (Hk g o).
  - exists idx. split_and!; try done. intros j Hj Hf.
    destruct (unowned_unused _ _ _ Hiso Hf (Hfree j Hj)) as [Hnt Hnm]. split; [|done].
    exists p. split; [|done]. cbn. rewrite Hown. apply decide_True. by apply frames_in_frame.
Qed.

Lemma find_virtual_address_run pid m virt size s r s' :
  find_virtual_address pid m virt size s = Some (r, s') -> sys_vm s' = sys_vm s.
Proof.
  unfold find_virtual_address. destruct (negb _); [by intros [= _ <-]|].
  unfold bind, gets, expect, checked_sub. destruct (hints s !! pid); cbn; [|done].
  destruct (_ <=? _); cbn; [|done]. destruct (find_range _ _ _); by intros [= _ <-].
Qed.

Lemma bind_try_run {S X Y Er} (m : M S (res X Er)) (k : X -> M S (res Y Er)) s r s' :
  bind_try m k s = Some (r, s') ->
  exists rx s1, m s = Some (rx, s1) /\
    match rx with Ok x => k x s1 = Some (r, s') | Err e => r = Err e /\ s' = s1 end.
Proof.
  unfold bind_try, bind. destruct (m s) as [[[x|e] s1]|]; [| |done]; intros H.
  - by exists (Ok x), s1.
  - injection H as <- <-. by exists (Err e), s1.
Qed.

(** The frames a mapping is made of are all reserved. *)
Definition ready_range (s : Sys) (p : PID) (phys size : Z) : Prop :=
  forall o, o ∈ page_steps 0 size -> page_aligned (phys + o) = true /\ 0 <= phys + o < 2 ^ 47 /\ rsv s p (phys + o).

Lemma alloc_ready p size s phys z s' :
  iso s -> size mod PAGE_SIZE = 0 -> on_mm (alloc_range (size / PAGE_SIZE) p) s = Some (Ok (phys, z), s') ->
  ready_range s' p phys size.
Proof.
  intros Hiso Hsz Hrun. destruct (alloc_iso _ _ _ _ _ Hiso Hrun) as (_ & _ & idx & -> & H0 & H1 & H2 & Hr).
  intros o (k & -> & Hk)%elem_of_page_steps.
  replace (frame idx + (0 + k * PAGE_SIZE)) with (frame (idx + k)) by (unfold frame; lia).
  assert (Hkn : k < size / PAGE_SIZE).
  { pose proof (Z.div_mod size PAGE_SIZE ltac:(done)) as Hd. rewrite Hsz in Hd.
    replace (size - 0 + PAGE_SIZE - 1) with (PAGE_SIZE - 1 + size / PAGE_SIZE * PAGE_SIZE) in Hk by lia.
    rewrite Z.div_add in Hk by done. change ((PAGE_SIZE - 1) / PAGE_SIZE) with 0 in Hk. lia. }
  destruct (frame_bounds (idx + k)) as [Hb Ha]; [lia|]. split_and!; [by apply page_aligned_mod|lia|lia|apply Hr; lia].
Qed.

Lemma map_source_iso p phys size flags s r s' :
  iso s -> size mod PAGE_SIZE = 0 -> map_source E p phys size flags s = Some (r, s') ->
  iso s' /\ forall ph, r = Ok ph -> ph <> 0 -> ready_range s' p ph size.
Proof.
  intros Hiso Hsz H1. unfold map_source in H1. destruct (MemoryFlags_is_set flags MF_POPULATE).
  - destruct (negb _); [by injection H1 as <- <-|]. destruct (negb _); [by injection H1 as <- <-|].
    apply bind_try_run in H1 as ([[ph z]|e] & s2 & H1 & H2); [|destruct H2 as [-> ->]; by apply alloc_iso in H1 as (? & _)].
    injection H2 as <- <-. split; [by apply alloc_iso in H1 as (? & _)|]. intros ? [= <-] _. by eapply alloc_ready.
  - destruct (Z.eqb_spec phys 0) as [->|Hn]; cbn [negb] in H1; [injection H1 as <- <-; split; [done|by intros ? [= <-]]|].
    apply run_bind in H1 as (end_ & s2 & H2 & H1). unfold checked_add in H2. destruct (_ <? _); [|done].
    injection H2 as <- <-. apply bind_try_run in H1 as (rc & s2 & H2 & H1).
    destruct (claim_loop_iso p [] (page_steps phys (phys + size)) s rc s2) as [Hi Hok]; [apply NoDup_page_steps|done|by intros a ?%elem_of_nil|done|].
    destruct rc as [[]|e]; [|by destruct H1 as [-> ->]]. injection H1 as <- <-. split; [done|].
    intros ph [= <-] _ o Ho. destruct (Hok eq_refl) as [Hg Hr].
    assert (Hin : phys + o ∈ page_steps phys (phys + size)) by (rewrite page_steps_shift; apply list_elem_of_fmap; eauto).
    destruct (Hg _ Hin). split_and!; [done|lia|lia|by apply Hr].
Qed.

Context (Hbase : 0 < DRAM_BASE).

Lemma map_range_iso p m phys virt size flags user s r s' :
  iso s -> env_maps E !! p = Some m -> size mod PAGE_SIZE = 0 ->
  map_range E p m phys virt size flags user s = Some (r, s') -> iso s'.
Proof.
  intros Hiso Hm Hsz Hrun. unfold map_range in Hrun.
  apply bind_try_run in Hrun as (rv & s1 & H1 & Hrun). apply find_virtual_address_run in H1.
  assert (Hiso1 : iso s1) by (by rewrite H1). clear H1 Hiso s. rename s1 into s, Hiso1 into Hiso.
  destruct rv as [v|e]; [|by destruct Hrun as [_ ->]].
  apply bind_try_run in Hrun as (rp & s1 & H1 & Hrun). rewrite (eo_pid Henv p m Hm) in *.
  destruct (map_source_iso p phys size flags s rp s1 Hiso Hsz H1) as [Hiso1 Hready].
  destruct rp as [ph|e]; [|by destruct Hrun as [_ ->]].
  apply bind_try_run in Hrun as (rq & s2 & H2 & Hrun).
  assert (Hsrc2 : iso s2 /\ forall q, rq = Ok q -> q <> 0 /\ ready_range s2 p q size).
  { destruct (Z.eqb_spec ph 0) as [->|Hn]; [|injection H2 as <- <-; split; [done|]; intros q [= <-]; auto].
    apply bind_try_run in H2 as ([[q z]|e] & s3 & H2 & H3); [|destruct H3 as [-> ->]; split; [by apply alloc_iso in H2 as (? & _)|done]].
    injection H3 as <- <-. split; [by apply alloc_iso in H2 as (? & _)|]. intros ? [= <-]. split; [|by eapply alloc_ready].
    destruct (alloc_iso _ _ _ _ _ Hiso1 H2) as (_ & _ & idx & -> & ? & _). unfold frame, PAGE_SIZE. lia. }
  destruct Hsrc2 as [Hiso2 Hready2]. destruct rq as [q|e]; [|by destruct Hrun as [_ ->]].
  destruct (Hready2 q eq_refl) as [Hq0 Hrq].
  apply bind_try_run in Hrun as (rm & s3 & H3 & Hrun).
  assert (Hiso3 : iso s3) by (eapply (map_loop_iso p m q v size flags user [] _ s2); try done; by intros o ?%elem_of_nil).
  destruct rm; [by injection Hrun as _ <-|by destruct Hrun as [_ ->]].
Qed.
(** [unmap_page] reads and writes tables only. *)
Lemma unmap_page_any_mm m va (v : VMM) o (v' : VMM) mm :
  unmap_page m va (mkVM mm (vm_tables v)) = Some (o, v') ->
  exists t, unmap_page m va v = Some (o, mkVM (vm_mm v) t) /\ v' = mkVM mm t.
Proof.
  unfold unmap_page, bind, gets. cbn. destruct v as [mv tv]; cbn.
  destruct (walk_l3 tv m va); intros [= <- <-]; eauto.
Qed.

(** A translated, aligned address is the frame of its entry. *)
Lemma mapped_frame v p m va phys :
  env_maps E !! p = Some m -> virt_to_phys (vm_tables v) m va = Ok phys -> page_aligned phys = true ->
  mapped v p va phys.
Proof.
  intros Hm Hv Ha%page_aligned_mod. destruct (translated_frame _ _ _ phys 0 true Hv) as (Hval & _ & Hp).
  exists m. split_and!; [done..|].
  destruct (masked_frame (pte_of (vm_tables v) (root m) va)) as [f Ef]. rewrite Ef in Hp |- *.
  assert (H0 : va mod PAGE_SIZE = 0); [|lia].
  rewrite Hp, Z.add_comm, Z.mod_add, Z.mod_mod in Ha by done. done.
Qed.

Lemma mm_unmap_page_iso p m va s r s' :
  iso s -> env_maps E !! p = Some m -> mm_unmap_page E m va s = Some (r, s') -> iso s'.
Proof.
  intros Hiso Hm Hrun. unfold mm_unmap_page in Hrun.
  apply run_bind in Hrun as (t & s0 & [= <- <-] & Hrun). apply run_bind in Hrun as ([] & s1 & H1 & H2).
  destruct (virt_to_phys (vm_tables (sys_vm s)) m va) as [phys|e] eqn:Ev.
  2: { injection H1 as <-. by apply (unmap_page_iso p m va s r s' Hiso Hm). }
  rewrite (eo_pid Henv p m Hm) in H1. apply run_bind in H1 as (rr & s2 & H1 & [= <-]).
  apply on_mm_run in H1 as (mm & H1 & ->).
  apply on_vm_run in H2 as (v & H2 & ->). cbn [sys_vm hints] in *.
  apply unmap_page_any_mm in H2 as (t & H2 & ->).
  assert (Hrun0 : on_vm (unmap_page m va) s = Some (r, mkSys (mkVM (vm_mm (sys_vm s)) t) (hints s)))
    by (unfold on_vm; by rewrite H2).
  destruct (unmap_page_iso p m va s _ _ Hiso Hm Hrun0) as (Hi & _ & _ & _ & Hu). cbn [sys_vm] in *.
  destruct (pa_inv_iso _ _ Hiso) as [Hmi Hx]. destruct (crm_frames _ _ _ _ _ _ _ Hmi Hx H1) as (Hi' & Hx' & Ho).
  destruct rr as [[]|e]; [|by subst mm]. destruct Ho as (Hal & _ & Ho).
  apply (isolated_reown _ (mkVM (vm_mm (sys_vm s)) t) mm phys); [done|done| |].
  - intros Hf. destruct (Hu phys) as (_ & ? & ?); [|done|done]. left. by apply (mapped_frame _ p m).
  - intros q Hq. cbn. destruct Ho as [(_ & _ & _ & _ & Hown)|[_ Hown]]; rewrite Hown; [by rewrite decide_False|done].
Qed.

Lemma unmap_loop_iso p m res l s r s' :
  iso s -> env_maps E !! p = Some m -> unmap_loop E m res l s = Some (r, s') -> iso s'.
Proof.
  revert res s. induction l as [|a l IH]; intros res s Hiso Hm Hrun; cbn in Hrun; [by injection Hrun as _ <-|].
  apply run_bind in Hrun as (r1 & s1 & H1 & H2). eapply (IH _ s1); [|done|exact H2].
  by apply (mm_unmap_page_iso p m a s r1).
Qed.

Lemma ensure_page_iso p m va s r s' :
  iso s -> env_maps E !! p = Some m -> on_vm (ensure_page_exists m va) s = Some (r, s') -> iso s'.
Proof.
  intros Hiso Hm (v & Hrun & ->)%on_vm_run. unfold ensure_page_exists in Hrun.
  apply run_bind in Hrun as (b & v0 & [= <- <-] & Hrun). cbn beta in Hrun.
  destruct (is_ok _); [by injection Hrun as _ <-|]. rewrite (eo_pid Henv p m Hm) in Hrun.
  apply bind_try_run in Hrun as (ra & v1 & H1 & H2).
  assert (Hal : on_mm (alloc_range 1 p) s = Some (ra, mkSys v1 (hints s))).
  { unfold on_mm, on_vm. unfold alloc_page in H1. cbn [pa_alloc memory_page_allocator] in H1.
    destruct (alloc_range 1 p (vm_mm (sys_vm s))) as [[x mm]|]; [|done]. by injection H1 as <- <-. }
  destruct (alloc_iso _ _ _ _ _ Hiso Hal) as (Hi1 & _ & Ho). destruct ra as [[phys z]|e]; [|by destruct H2 as [_ ->]].
  destruct Ho as (idx & -> & H0 & _ & Hn & Hr). destruct (frame_bounds idx) as [Hb Ha]; [lia|].
  cbn [fst] in H2.
  eapply (map_page_iso p m (frame idx) va MF_W true (mkSys v1 (hints s)) r (mkSys v (hints s)));
    [done|done|by apply page_aligned_mod|done|apply Hr; lia|].
  unfold on_vm. cbn [sys_vm hints]. by rewrite H2.
Qed.
(** RAM is permitted to every process of the table. *)
Lemma ram_permitted p m f : env_maps E !! p = Some m -> is_frame f -> env_permitted E p f = Ok tt.
Proof.
  intros Hm (i & Hi & ->). unfold env_permitted, check_memory_permission, is_address_in_plaintext_dram, DRAM_END, frame.
  rewrite Hm. rewrite (proj2 (Z.leb_le _ _)), (proj2 (Z.ltb_lt _ _)) by (unfold PAGE_SIZE; lia).
  by rewrite orb_true_r.
Qed.

(** Handing an owned frame over succeeds. *)
Lemma move_frame_ok mm f p q mq :
  mm_inv mm -> is_frame f -> frame_owner mm f = Some p -> env_maps E !! q = Some mq ->
  exists mm', claim_release_move (env_permitted E) f q (MoveFrom p) mm = Some (Ok tt, mm').
Proof.
  intros Hinv Hf Ho Hq. pose proof (ram_permitted q mq f Hq Hf) as Hp. destruct Hf as (i & Hi & ->).
  rewrite frame_owner_idx in Ho by done. destruct (frame_bounds i Hi) as [_ Ha%page_aligned_mod].
  unfold claim_release_move. unfold page_aligned in Ha. rewrite Ha. cbn [negb]. rewrite Hp.
  change (shared_peripheral q (frame i)) with false. cbv iota.
  pose proof (dram_offset mm i Hi) as Hoff. fold (frame i) in Hoff.
  unfold bind, gets. rewrite Hoff. cbn [expect ret].
  destruct (inv_dom _ Hinv _ _ Ho) as [_ Hl]. rewrite (proj2 (Z.ltb_lt _ _) Hl). cbn [assertb ret].
  unfold move_at, bind, gets. unfold PID in *. rewrite Ho, Z.eqb_refl, andb_false_r. eexists. reflexivity.
Qed.

Lemma move_owner_iso v f p q mm' r :
  isolated (fun g o => if decide (g = f) then q else o) v -> is_frame f ->
  claim_release_move (env_permitted E) f q (MoveFrom p) (vm_mm v) = Some (r, mm') ->
  frame_owner (vm_mm v) f = Some p -> is_Some (env_maps E !! q) ->
  isolated no_transit (mkVM mm' (vm_tables v)).
Proof.
  intros Hiso Hf Hrun Ho [mq Hq]. destruct (pa_inv_iso _ _ Hiso) as [Hmi Hx].
  destruct (move_frame_ok _ f p q mq Hmi Hf Ho Hq) as [mm1 Hok]. rewrite Hrun in Hok. injection Hok as -> ->.
  destruct (crm_frames _ _ _ _ _ _ _ Hmi Hx Hrun) as (Hi & Hx' & _ & _ & Hcase).
  destruct Hcase as [(i & _ & _ & _ & Hown)|[Hno _]]; [|by rewrite Hno in Ho].
  eapply isolated_mm; [done|done|]. intros g o Hg Hgo _. rewrite Hown.
  destruct (decide (g = f)) as [->|]; [by exists q|by exists o].
Qed.

Lemma mm_move_page_iso p mp sa q mq da s r s' :
  iso s -> env_maps E !! p = Some mp -> env_maps E !! q = Some mq -> page_aligned sa = true ->
  mm_move_page E mp sa mq da s = Some (r, s') -> iso s'.
Proof.
  intros Hiso Hp Hq Hsa Hrun. unfold mm_move_page in Hrun.
  apply bind_try_run in Hrun as (rv & s0 & [= <- <-] & Hrun).
  destruct (virt_to_phys (vm_tables (sys_vm s)) mp sa) as [f|e] eqn:Ev; [|by destruct Hrun as [_ ->]].
  rewrite (eo_pid Henv p mp Hp), (eo_pid Henv q mq Hq) in Hrun.
  destruct (translated_frame _ _ _ f MF_W true Ev) as (Hval & Hland & Hf).
  apply page_aligned_mod in Hsa. rewrite Hsa, Z.sub_0_r in Hland. rewrite Hsa, Z.add_0_r in Hf.
  assert (Hmp : mapped (sys_vm s) p sa f) by (by exists mp).
  apply bind_try_run in Hrun as (rm & s1 & H1 & Hrun). apply on_vm_run in H1 as (v1 & H1 & ->).
  unfold move_page in H1. apply bind_try_run in H1 as (rv & v0 & [= <- <-] & H1). rewrite Ev in H1.
  apply bind_try_run in H1 as (ru & v2 & H1 & H2).
  assert (Hu : on_vm (unmap_page mp sa) s = Some (ru, mkSys v2 (hints s))) by (unfold on_vm; by rewrite H1).
  destruct (unmap_page_iso p mp sa s _ _ Hiso Hp Hu) as (Hi2 & Hmm & _ & _ & Hr2). cbn [sys_vm] in *.
  destruct ru as [[]|e]; [|destruct H2 as [-> ->]; by destruct Hrun as [_ ->]].
  specialize (Hr2 f (or_introl Hmp)).
  destruct (map_page_run roots v2 mq f da MF_W true (iso_inv _ _ Hi2) (root_in _ _ Hq)) as (om & v3 & H3 & Hst & Ho).
  rewrite H2 in H3. injection H3 as <- <-. destruct rm as [[]|e].
  2: { destruct Ho as [_ G]. destruct Hrun as [_ ->]. cbn [sys_vm]. by apply (isolated_grows _ v2). }
  apply on_mm_run in Hrun as (mm & Hrun & ->). cbn [sys_vm hints] in *.
  destruct (frame_owner_cases f) as [Hfr|Hnf].
  - destruct (Hr2 Hfr) as ((o & Hown & Ht) & Hnt & Hno). unfold no_transit in Ht. subst o.
    apply (move_owner_iso v1 f p q mm r); [|done|done| |by exists mq].
    + apply (isolated_map _ v2 v1 q mq da (page_entry f MF_W true)); try done.
      * apply (isolated_retarget no_transit); [done|]. intros q' va g o Hm'.
        destruct (decide (g = f)) as [->|]; [|done]. by destruct (Hno q' va).
      * rewrite Hland. intros _. split_and!; try done. exists p. by rewrite decide_True.
    + by apply (st_own _ _ _ Hst).
  - pose proof (not_frame f Hnf) as Hnf'.
    assert (Hi1 : isolated no_transit v1).
    { apply (isolated_map _ v2 v1 q mq da (page_entry f MF_W true)); try done. by rewrite Hland. }
    destruct (pa_inv_iso _ _ Hi1) as [Hmi Hx]. destruct (crm_frames _ _ _ _ _ _ _ Hmi Hx Hrun) as (Hmi' & Hx' & Hout).
    destruct r as [[]|e]; [|subst mm; by destruct v1]. destruct Hout as (_ & _ & Hout).
    destruct Hout as [(i & Hi & -> & _)|[_ Hsame]]; [destruct Hnf'; by exists i|].
    by apply (isolated_reown _ _ _ f).
Qed.
Lemma ensure_pages_iso p m l s r s' :
  iso s -> env_maps E !! p = Some m -> ensure_pages m l s = Some (r, s') -> iso s'.
Proof.
  revert s. induction l as [|va l IH]; intros s Hiso Hm Hrun; cbn in Hrun; [by injection Hrun as _ <-|].
  apply bind_try_run in Hrun as (r1 & s1 & H1 & H2).
  assert (Hi1 : iso s1) by (by apply (ensure_page_iso p m va s r1)).
  destruct r1; [by apply (IH s1)|by destruct H2 as [_ ->]].
Qed.

Lemma move_loop_iso p mp q mq src dest err l s r s' :
  iso s -> env_maps E !! p = Some mp -> env_maps E !! q = Some mq ->
  transfer_loop mp (fun a b => mm_move_page E mp a mq b) src dest err l s = Some (r, s') -> iso s'.
Proof.
  revert err s. induction l as [|o l IH]; intros err s Hiso Hp Hq Hrun; cbn in Hrun; [by injection Hrun as _ <-|].
  apply run_bind in Hrun as ([] & s1 & [Ha [= ->]]%assertb_Some & Hrun).
  apply run_bind in Hrun as ([] & s1 & [_ [= ->]]%assertb_Some & Hrun).
  apply bind_try_run in Hrun as (r1 & s1 & H1 & Hrun).
  assert (Hi1 : iso s1) by (by apply (ensure_page_iso p mp (usize (src + o)) s r1)).
  destruct r1 as [[]|e]; [|by destruct Hrun as [_ ->]].
  apply run_bind in Hrun as (r2 & s2 & H2 & Hrun). eapply (IH _ s2); [|done..].
  by apply (mm_move_page_iso p mp (usize (src + o)) q mq (usize (dest + o)) s1 r2 s2).
Qed.

Lemma send_memory_iso p m src q dest len s r s' :
  iso s -> env_maps E !! p = Some m -> send_memory E p m src q dest len s = Some (r, s') -> iso s'.
Proof.
  intros Hiso Hm Hrun. unfold send_memory in Hrun.
  destruct (len =? 0); [by injection Hrun as _ <-|]. destruct (negb _); [by injection Hrun as _ <-|].
  destruct (negb _); [by injection Hrun as _ <-|]. destruct (negb _); [by injection Hrun as _ <-|].
  apply run_bind in Hrun as (e & s0 & H0 & Hrun).
  assert (s0 = s) as -> by (unfold checked_add in H0; destruct (_ <? _); [by injection H0|done]).
  destruct (_ <? e); [by injection Hrun as _ <-|]. destruct (p =? q).
  - apply bind_try_run in Hrun as (r1 & s1 & H1 & Hrun). assert (Hi1 : iso s1) by (eapply (ensure_pages_iso p m); [exact Hiso|done|exact H1]).
    destruct r1; [by injection Hrun as _ <-|by destruct Hrun as [_ ->]].
  - unfold lookup_process in Hrun. rewrite Hm in Hrun. cbn [ok_or] in Hrun.
    destruct (env_maps E !! q) as [mq|] eqn:Hq; cbn [ok_or] in Hrun; [|by injection Hrun as _ <-].
    apply bind_try_run in Hrun as (rv & s1 & H1%find_virtual_address_run & Hrun).
    assert (Hi1 : iso s1) by (by rewrite H1). destruct rv as [dv|e']; [|by destruct Hrun as [_ ->]].
    apply bind_try_run in Hrun as (rl & s2 & H2 & Hrun). assert (Hi2 : iso s2) by (eapply (move_loop_iso p m q mq); [exact Hi1|done|done|exact H2]).
    destruct rl as [[e'|]|e']; [done|by injection Hrun as _ <-|by destruct Hrun as [_ ->]].
Qed.

(** The system calls on memory other than lending. *)
Inductive mem_call :=
| CallMap (phys virt : option Z) (size : Z) (flags : MemoryFlags)
| CallUnmap (range : MemoryRange)
| CallHeap (size : Z)
| CallSend (src : Z) (dest_pid : PID) (dest len : Z).

Definition run_call (pid : PID) (cur : MemoryMapping) (c : mem_call) : M Sys unit :=
  match c with
  | CallMap phys virt size flags => _ <- sys_map_memory E pid cur phys virt size flags ;; ret tt
  | CallUnmap range => _ <- sys_unmap_memory E pid cur range ;; ret tt
  | CallHeap size => _ <- sys_increase_heap E pid cur size ;; ret tt
  | CallSend src dest_pid dest len => _ <- send_memory E pid cur src dest_pid dest len ;; ret tt
  end.

(** One call, by any process. *)
Definition mem_step (s s' : Sys) : Prop :=
  exists p m c, env_maps E !! p = Some m /\ run_call p m c s = Some (tt, s').

Lemma map_memory_iso p m phys virt size flags s r s' :
  iso s -> env_maps E !! p = Some m -> sys_map_memory E p m phys virt size flags s = Some (r, s') -> iso s'.
Proof.
  intros Hiso Hm Hrun. unfold sys_map_memory in Hrun. destruct (negb _ && _); [by injection Hrun as _ <-|].
  destruct (page_aligned size) eqn:Ea; cbn [negb] in Hrun; [|by injection Hrun as _ <-].
  apply page_aligned_mod in Ea. destruct (MemoryFlags_is_set _ _); [by injection Hrun as _ <-|].
  apply bind_try_run in Hrun as (r1 & s1 & H1 & Hrun). assert (Hi1 : iso s1) by (eapply (map_range_iso p m); [exact Hiso|done|exact Ea|exact H1]).
  destruct r1; [by injection Hrun as _ <-|by destruct Hrun as [_ ->]].
Qed.

Lemma increase_heap_iso p m size s r s' :
  iso s -> env_maps E !! p = Some m -> sys_increase_heap E p m size s = Some (r, s') -> iso s'.
Proof.
  intros Hiso Hm Hrun. unfold sys_increase_heap in Hrun.
  destruct (page_aligned size) eqn:Ea; cbn [negb] in Hrun; [|by injection Hrun as _ <-]. apply page_aligned_mod in Ea.
  apply bind_try_run in Hrun as (r1 & s1 & H1 & Hrun). assert (Hi1 : iso s1) by (eapply (map_range_iso p m); [exact Hiso|done|exact Ea|exact H1]).
  destruct r1; [by injection Hrun as _ <-|by destruct Hrun as [_ ->]].
Qed.

Lemma unmap_memory_iso p m range s r s' :
  iso s -> env_maps E !! p = Some m -> sys_unmap_memory E p m range s = Some (r, s') -> iso s'.
Proof.
  intros Hiso Hm Hrun. unfold sys_unmap_memory in Hrun.
  apply bind_try_run in Hrun as (r1 & s1 & H1 & Hrun).
  assert (s1 = s) as ->.
  { unfold check_range_accessible, next_multiple_of_page, checked_add in H1.
    apply run_bind in H1 as (e & s2 & H1 & H2). destruct (_ <? _); [|done]. injection H1 as <- <-.
    apply run_bind in H2 as (e & s2 & H1 & H2).
    assert (s2 = s) as -> by (destruct (_ =? 0); [by injection H1|destruct (_ <? _); [by injection H1|done]]).
    apply run_bind in H2 as (t & s2 & [= <- <-] & H2). destruct (forallb _ _); by injection H2. }
  destruct r1 as [[]|e]; [|by destruct Hrun as [_ ->]]. apply bind_try_run in Hrun as (r2 & s2 & H2 & Hrun).
  assert (Hi2 : iso s2).
  { unfold unmap_range in H2. destruct (_ || _); [by injection H2 as _ <-|].
    apply run_bind in H2 as (e & s3 & H3 & H2).
    assert (s3 = s) as -> by (unfold checked_add in H3; destruct (_ <? _); [by injection H3|done]).
    eapply (unmap_loop_iso p m); [exact Hiso|done|exact H2]. }
  destruct r2; [by injection Hrun as _ <-|by destruct Hrun as [_ ->]].
Qed.

Lemma mem_steps_iso s s' : rtc mem_step s s' -> iso s -> iso s'.
Proof.
  induction 1 as [|s s1 s' (p & m & c & Hm & Hrun) _ IH]; [done|]. intros Hiso. apply IH.
  destruct c; apply run_bind in Hrun as (r & s2 & Hr & [= <-]).
  - exact (map_memory_iso p m _ _ _ _ _ _ _ Hiso Hm Hr).
  - exact (unmap_memory_iso p m _ _ _ _ Hiso Hm Hr).
  - exact (increase_heap_iso p m _ _ _ _ Hiso Hm Hr).
  - exact (send_memory_iso p m _ _ _ _ _ _ _ Hiso Hm Hr).
Qed.
(** *** Lending *)

(** Giving an owned frame back succeeds. *)
Lemma release_frame_ok mm f p m :
  mm_inv mm -> is_frame f -> frame_owner mm f = Some p -> env_maps E !! p = Some m ->
  exists mm', claim_release_move (env_permitted E) f p Release mm = Some (Ok tt, mm') /\ frame_owner mm' f = None /\
    exists idx, 0 <= idx < RAM_PAGES /\ f = frame idx /\ idx ∈ free_pages_dirty mm'.
Proof.
  intros Hinv Hf Ho Hm. pose proof (ram_permitted p m f Hm Hf) as Hp. destruct Hf as (i & Hi & ->).
  rewrite frame_owner_idx in Ho by done. destruct (frame_bounds i Hi) as [_ Ha%page_aligned_mod].
  unfold claim_release_move. unfold page_aligned in Ha. rewrite Ha. cbn [negb]. rewrite Hp.
  change (shared_peripheral p (frame i)) with false. cbv iota.
  pose proof (dram_offset mm i Hi) as Hoff. fold (frame i) in Hoff.
  unfold bind, gets. rewrite Hoff. cbn [expect ret].
  destruct (inv_dom _ Hinv _ _ Ho) as [_ Hl]. rewrite (proj2 (Z.ltb_lt _ _) Hl). cbn [assertb ret].
  destruct (release_at_run mm p i Hinv) as (r & mm' & E1 & _ & Hr). rewrite E1. destruct r as [[]|e]; [|by destruct Hr].
  destruct Hr as (_ & Hal & _ & Hd). exists mm'. split; [done|]. split; [|exists i; split_and!; try done; lia || (apply Hd; lia)].
  rewrite frame_owner_idx by done. by rewrite Hal, lookup_delete_eq.
Qed.

(** One page lent: the borrower's entry is the frame of the lender's page. *)
Lemma lend_one p m va q mq mutable s da s1 f :
  vm_inv roots (sys_vm s) -> env_maps E !! p = Some m -> env_maps E !! q = Some mq -> p <> q -> 0 <= va < 2 ^ 64 ->
  virt_to_phys (vm_tables (sys_vm s)) m va = Ok f ->
  lend_memory E p m va q 0 PAGE_SIZE mutable s = Some (Ok da, s1) ->
  page_aligned va = true /\ page_aligned (usize da) = true /\ vm_step roots (sys_vm s) (sys_vm s1) /\
  pte_update roots (sys_vm s) (sys_vm s1) (root mq) (usize da) (page_entry f (if mutable then MF_W else 0) true).
Proof.
  intros Hinv Hm Hq Hne Hva Hf. unfold lend_memory. change (PAGE_SIZE =? 0) with false. change (page_aligned PAGE_SIZE) with true.
  change (page_aligned 0) with true. cbn [negb]. destruct (page_aligned va) eqn:Ha; [|done]. cbn [negb].
  rewrite (proj2 (Z.eqb_neq _ _) Hne). unfold lookup_process. rewrite Hm, Hq. cbn [ok_or].
  intros (rd & s0 & Hfind & H)%bind_try_run. apply find_virtual_address_run in Hfind. destruct rd as [d|e]; [|by destruct H].
  apply bind_try_run in H as (re & s2 & Hl & H). change (page_steps 0 PAGE_SIZE) with [0] in Hl. cbn [transfer_loop] in Hl.
  rewrite !Z.add_0_r in Hl. assert (Ev : usize va = va) by (by apply Z.mod_small). rewrite Ev, Ha in Hl.
  apply run_bind in Hl as (u1 & s3 & [= <- <-] & Hl). apply run_bind in Hl as (u2 & s3 & Hd & Hl). apply assertb_Some in Hd as [Hd [= _ ->]].
  apply bind_try_run in Hl as (r3 & s4 & He & Hl). apply on_vm_run in He as (v4 & He & ->).
  unfold ensure_page_exists, bind, gets in He. rewrite Hfind, Hf in He. cbn in He. injection He as <- <-. cbv iota in Hl.
  apply run_bind in Hl as (r5 & s5 & Hlp & [= <- <-]). apply on_vm_run in Hlp as (v5 & Hlp & ->). cbn [sys_vm] in Hlp.
  unfold lend_page, bind_try, bind, gets in Hlp. rewrite Hf in Hlp.
  destruct (map_page_run roots (sys_vm s) mq f (usize d) (if mutable then MF_W else 0) true Hinv (root_in _ _ Hq)) as (o & v & Emap & Hst & Ho).
  rewrite Emap in Hlp. injection Hlp as <- <-. destruct o as [[]|e]; [|done]. injection H as <- <-. done.
Qed.

(** One page unmapped: its frame is free, and no other entry changes. *)
Lemma unmap_one p m va s f :
  vm_inv roots (sys_vm s) -> env_maps E !! p = Some m -> page_aligned va = true -> 0 <= va -> va + PAGE_SIZE <= USER_AREA_END ->
  virt_to_phys (vm_tables (sys_vm s)) m va = Ok f -> is_frame f -> frame_owner (vm_mm (sys_vm s)) f = Some p ->
  exists s', sys_unmap_memory E p m (mkRange va PAGE_SIZE) s = Some (Ok R_Ok, s') /\ frame_owner (vm_mm (sys_vm s')) f = None /\
    (exists idx, 0 <= idx < RAM_PAGES /\ f = frame idx /\ idx ∈ free_pages_dirty (vm_mm (sys_vm s'))) /\
    forall r' va', r' ∈ roots -> r' <> root m -> pte_of (vm_tables (sys_vm s')) r' va' = pte_of (vm_tables (sys_vm s)) r' va'.
Proof.
  intros Hinv Hm Ha H0 Hend Hv Hf Ho. pose proof (proj1 (page_aligned_mod va) Ha) as Hmod.
  assert (Hadd : checked_add va PAGE_SIZE s = Some (va + PAGE_SIZE, s)).
  { unfold checked_add. rewrite (proj2 (Z.ltb_lt _ _)); [done|]. unfold USER_AREA_END in Hend. lia. }
  assert (Hsteps : page_steps va (va + PAGE_SIZE) = [va]).
  { unfold page_steps. replace (va + PAGE_SIZE - va + PAGE_SIZE - 1) with 32767 by (unfold PAGE_SIZE; lia).
    change (zrange 0 (32767 / PAGE_SIZE)) with [0]. cbn [map]. f_equal. lia. }
  assert (Hchk : check_range_accessible m (mkRange va PAGE_SIZE) s = Some (Ok tt, s)).
  { unfold check_range_accessible. cbn [range_addr range_size]. rewrite (bind_run _ _ _ _ _ Hadd).
    unfold next_multiple_of_page. assert ((va + PAGE_SIZE) mod PAGE_SIZE = 0) as -> by (rewrite <- Zplus_mod_idemp_l, Hmod; done).
    cbn [Z.eqb]. erewrite bind_run by reflexivity. erewrite bind_run by reflexivity. rewrite Hmod, Z.sub_0_r, Hsteps. cbn [forallb].
    unfold address_user_accessible. rewrite Hv. rewrite (proj2 (Z.ltb_ge _ _)), (proj2 (Z.leb_gt _ _)) by (unfold PAGE_SIZE in *; lia). done. }
  unfold sys_unmap_memory, bind_try. rewrite (bind_run _ _ _ _ _ Hchk). cbn [range_addr range_size].
  unfold unmap_range. fold (page_aligned va). change (Z.land PAGE_SIZE (PAGE_SIZE - 1) =? 0) with true. rewrite Ha. cbn [negb orb].
  destruct (release_frame_ok (vm_mm (sys_vm s)) f p m (proj1 (vi_mm _ _ Hinv)) Hf Ho Hm) as (mm' & Erel & Hnone & Hdirty).
  destruct (unmap_page_run roots (sys_vm s) m va Hinv (root_in _ _ Hm)) as (o & v & Eun & _ & Hmm & Hupd).
  assert (Hun : unmap_page m va (mkVM mm' (vm_tables (sys_vm s))) = Some (o, mkVM mm' (vm_tables v))).
  { revert Eun. unfold unmap_page, bind, gets. cbn. destruct (walk_l3 (vm_tables (sys_vm s)) m va); intros [= <- <-]; done. }
  destruct o as [[]|e].
  2: { destruct Hupd as (_ & _ & Hz). rewrite translate_entry, Hz in Hv. by vm_compute in Hv. }
  set (s' := mkSys (mkVM mm' (vm_tables v)) (hints s)).
  assert (Hpage : mm_unmap_page E m va s = Some (Ok tt, s')).
  { unfold mm_unmap_page. erewrite bind_run by reflexivity. rewrite Hv, (eo_pid Henv p m Hm).
    erewrite bind_run; [|erewrite bind_run; [reflexivity|unfold release_page, on_mm, on_vm; rewrite Erel; reflexivity]].
    unfold on_vm. cbn [sys_vm hints]. by rewrite Hun. }
  exists s'. split; [|split; [exact Hnone|split; [exact Hdirty|]]].
  - rewrite (bind_run _ _ s (Ok tt) s'); [done|]. rewrite (bind_run _ _ _ _ _ Hadd), Hsteps. cbn [unmap_loop]. by rewrite (bind_run _ _ _ _ _ Hpage).
  - intros r' va' Hr Hner. cbn [s' sys_vm vm_tables]. rewrite Hupd by done. by rewrite decide_False.
Qed.

End Isolation.

End WithPlatform.

(** ** Properties *)

(** C8. Process isolation: starting from an isolated state, whatever sequence of
    [MapMemory], [UnmapMemory], [IncreaseHeap] calls and memory sends the
    processes make, every RAM frame mapped in an address space is owned by that
    process, is not a page table, and is mapped nowhere else. *)
Theorem memory_isolation {P : Platform} E s s' :
  env_ok E -> 0 < DRAM_BASE ->
  isolated E no_transit (sys_vm s) -> rtc (mem_step E) s s' ->
  forall p va f, mapped E (sys_vm s') p va f -> is_frame f ->
    frame_owner (vm_mm (sys_vm s')) f = Some p /\ ~ is_table_page E (sys_vm s') f /\
    forall q vb, mapped E (sys_vm s') q vb f -> q = p /\ same_page va vb = true.
Proof.
  intros Henv Hb Hiso Hrun p va f Hm Hf.
  pose proof (mem_steps_iso E Henv Hb s s' Hrun Hiso) as Hiso'.
  destruct (iso_owner _ _ _ Hiso' p va f Hm Hf) as [(o & Ho & <-) Hnt]. split_and!; [done|done|].
  intros q vb Hq. destruct (iso_owner _ _ _ Hiso' q vb f Hq Hf) as [(o' & Ho' & <-) _].
  split; [unfold no_transit in *; congruence|]. by apply (iso_once _ _ _ Hiso' (no_transit f o) va (no_transit f o') vb f).
Qed.

(** A machine with two processes whose address spaces are empty. *)
Definition demo_env : Env := mkEnv {[ 4 := space_a; 5 := space_b ]} ∅.
Definition demo_sys : Sys := Eval vm_compute in mkSys vm2 {[ 4 := MMAP_AREA_VIRT; 5 := MMAP_AREA_VIRT ]}.

Definition sys_of {X} (o : option (X * Sys)) : Sys := match o with Some (_, s) => s | None => demo_sys end.

(** Process 4 grows its heap by two pages, sends the first to process 5, which
    unmaps it. *)
Definition demo_sys1 : Sys := Eval vm_compute in sys_of (run_call demo_env 4 space_a (CallHeap 32768) demo_sys).
Definition demo_sys2 : Sys := Eval vm_compute in sys_of (run_call demo_env 4 space_a (CallSend MMAP_AREA_VIRT 5 0 16384) demo_sys1).
Definition demo_sys3 : Sys := Eval vm_compute in
  sys_of (run_call demo_env 5 space_b (CallUnmap (mkRange MMAP_AREA_VIRT 16384)) demo_sys2).

Lemma demo_env_ok : env_ok demo_env.
Proof.
  assert (Hc : forall p m, env_maps demo_env !! p = Some m -> (p = 4 /\ m = space_a) \/ (p = 5 /\ m = space_b)).
  { intros p m. unfold demo_env. cbn [env_maps]. rewrite lookup_insert_Some, lookup_singleton_Some.
    intros [[<- <-]|(_ & <- & <-)]; [left|right]; split; reflexivity. }
  split.
  - intros p m [[-> ->]|[-> ->]]%Hc; by vm_compute.
  - intros p q m m' [[-> ->]|[-> ->]]%Hc [[-> ->]|[-> ->]]%Hc; try reflexivity; intros Hr; by vm_compute in Hr.
Qed.

Lemma roots_demo : roots demo_env = spaces.
Proof. by vm_compute. Qed.

Lemma empty_isolated {P : Platform} E v :
  vm_inv (roots E) v -> (forall r va, r ∈ roots E -> pte_of (vm_tables v) r va = 0) -> isolated E no_transit v.
Proof.
  intros Hinv H0. assert (Hno : forall p va f, ~ mapped E v p va f).
  { intros p va f (m & Hm & Hv & _). rewrite H0 in Hv by (by eapply root_in). done. }
  split; [done| |]; intros p va; intros; by destruct (Hno p va f).
Qed.

Lemma vm2_empty r va : r ∈ spaces -> pte_of (vm_tables vm2) r va = 0.
Proof.
  assert (Hinv0 : vm_inv ∅ vm0) by exact (proj1 (vm_reachable_ok ∅ vm0 vm0_reachable)).
  destruct (allocate_ok ∅ vm0 no_mapping 4 space_a vm1 Hinv0) as (Hi1 & Hz1 & _); [by vm_compute|].
  destruct (allocate_ok _ vm1 no_mapping 5 space_b vm2 Hi1) as (_ & Hz2 & Hk2); [by vm_compute|].
  intros [->%elem_of_singleton|Hr]%elem_of_union; [apply Hz2|]. rewrite Hk2 by exact Hr.
  apply elem_of_union in Hr as [->%elem_of_singleton|[]%elem_of_empty]. apply Hz1.
Qed.

Lemma demo_isolated : isolated demo_env no_transit (sys_vm demo_sys).
Proof.
  apply empty_isolated; rewrite roots_demo; [|exact vm2_empty].
  exact (proj1 (vm_reachable_ok spaces vm2 vm2_reachable)).
Qed.

Lemma demo_run : rtc (mem_step demo_env) demo_sys demo_sys3.
Proof.
  apply rtc_l with demo_sys1; [exists 4, space_a, (CallHeap 32768); split; by vm_compute|].
  apply rtc_l with demo_sys2; [exists 4, space_a, (CallSend MMAP_AREA_VIRT 5 0 16384); split; by vm_compute|].
  apply rtc_l with demo_sys3; [|apply rtc_refl].
  exists 5, space_b, (CallUnmap (mkRange MMAP_AREA_VIRT 16384)). split; by vm_compute.
Qed.

Definition demo_frame : Z := Eval vm_compute in
  addr_of (virt_to_phys (vm_tables (sys_vm demo_sys3)) space_a (MMAP_AREA_VIRT + 16384)).

Lemma memory_isolation_witness : frame_owner (vm_mm (sys_vm demo_sys3)) demo_frame = Some 4.
Proof.
  refine (proj1 (memory_isolation demo_env demo_sys demo_sys3 demo_env_ok _ demo_isolated demo_run
    4 (MMAP_AREA_VIRT + 16384) demo_frame _ _)).
  - by vm_compute.
  - exists space_a. split; [by vm_compute|]. split; by vm_compute.
  - exists 63. split; [|by vm_compute]. split; by vm_compute.
Defined.

(** A run in which a lent page is unmapped by its lender. *)
Definition vm3c : VM (A := MemoryManager) := (get_ok no_mapping (allocate no_mapping 6 vm2)).2.
Definition space_c : MemoryMapping := (get_ok no_mapping (allocate no_mapping 6 vm2)).1.
Definition lend_env : Env := mkEnv {[ 4 := space_a; 5 := space_b; 6 := space_c ]} ∅.
Definition lend_sys : Sys := Eval vm_compute in
  mkSys vm3c {[ 4 := MMAP_AREA_VIRT; 5 := MMAP_AREA_VIRT; 6 := MMAP_AREA_VIRT ]}.
Definition lend_then_unmap : M Sys unit :=
  _ <- sys_increase_heap lend_env 4 space_a 16384 ;;
  _ <- lend_memory lend_env 4 space_a MMAP_AREA_VIRT 5 0 16384 true ;;
  _ <- sys_unmap_memory lend_env 4 space_a (mkRange MMAP_AREA_VIRT 16384) ;;
  _ <- sys_increase_heap lend_env 6 space_c 16384 ;;
  ret tt.

Definition lend_end : Sys := Eval vm_compute in sys_of (lend_then_unmap lend_sys).

(** C22. Lending breaks the isolation.  In every state in which the processes are
    isolated: when [p] has lent a page of its RAM to another process [q], [p]
    can unmap it (the call succeeds), and then the frame is free, and will be
    handed out again as a dirty page, while [q] still has it in its address
    space, writable if it was lent mutably. *)
Theorem lent_page_reaches_stranger {P : Platform} E s p m va q mq mutable da s1 f :
  env_ok E -> isolated E no_transit (sys_vm s) -> env_maps E !! p = Some m -> env_maps E !! q = Some mq -> p <> q ->
  0 <= va -> va + PAGE_SIZE <= USER_AREA_END -> 0 <= da < 2 ^ 64 ->
  virt_to_phys (vm_tables (sys_vm s)) m va = Ok f -> is_frame f ->
  lend_memory E p m va q 0 PAGE_SIZE mutable s = Some (Ok da, s1) ->
  exists s2, sys_unmap_memory E p m (mkRange va PAGE_SIZE) s1 = Some (Ok R_Ok, s2) /\
    frame_owner (vm_mm (sys_vm s2)) f = None /\
    (exists idx, 0 <= idx < RAM_PAGES /\ f = frame idx /\ idx ∈ free_pages_dirty (vm_mm (sys_vm s2))) /\
    virt_to_phys (vm_tables (sys_vm s2)) mq da = Ok f /\
    el0_writable (pte_of (vm_tables (sys_vm s2)) (root mq) da) = mutable.
Proof.
  intros Henv Hiso Hm Hq Hne H0 Hend Hda Hf Hfr Hlend. pose proof (iso_inv _ _ _ Hiso) as Hinv.
  assert (Hroot : root mq <> root m) by (intros Hr; by apply Hne, (eo_inj _ Henv p q m mq)).
  destruct (lend_one E p m va q mq mutable s da s1 f) as (Ha & Hd & Hst & Hupd); try done; [unfold USER_AREA_END, PAGE_SIZE in Hend; lia|].
  assert (Eu : usize da = da) by (by apply Z.mod_small). rewrite Eu in *.
  assert (Ho : frame_owner (vm_mm (sys_vm s)) f = Some p).
  { destruct (translated_frame _ _ _ f 0 true Hf) as (Hval & _ & Hp).
    assert (Hmap : mapped E (sys_vm s) p va f).
    { exists m. split_and!; [done..|]. apply page_aligned_mod in Ha. lia. }
    destruct (iso_owner _ _ _ Hiso p va f Hmap Hfr) as [(o & Ho & <-) _]. exact Ho. }
  apply (st_own _ _ _ Hst) in Ho as Ho1.
  assert (Hv1 : virt_to_phys (vm_tables (sys_vm s1)) m va = Ok f).
  { rewrite translate_entry, Hupd by (by eapply root_in). rewrite decide_False by done. by rewrite translate_entry in Hf. }
  destruct (unmap_one E Henv p m va s1 f (st_inv _ _ _ Hst) Hm Ha H0 Hend Hv1 Hfr Ho1) as (s2 & E2 & Hnone & Hdirty & Hkeep).
  exists s2. split; [done|]. split; [done|]. split; [done|].
  assert (Hp : pte_of (vm_tables (sys_vm s2)) (root mq) da = page_entry f (if mutable then MF_W else 0) true).
  { rewrite Hkeep, Hupd by (done || by eapply root_in). by rewrite decide_True, same_page_refl. }
  split.
  - rewrite translate_entry, Hp. destruct (page_entry_addr f (if mutable then MF_W else 0) true) as [-> ->].
    apply page_aligned_mod in Hd. rewrite Hd, Z.add_0_r. f_equal. destruct Hfr as (i & Hi & ->).
    destruct (frame_bounds i Hi) as [Hb Ham]. apply masked_self; [by apply page_aligned_mod|done].
  - rewrite Hp. destruct (user_entry_perms f (if mutable then MF_W else 0)) as (_ & -> & _). by destruct mutable.
Qed.

(** Process 4 lends a page to 5 and unmaps it; the heap page process 6 gets next
    is that frame, owned by 6 and still writable by 5. *)
Example lent_page_run : exists s' f,
  lend_then_unmap lend_sys = Some (tt, s') /\
  frame_owner (vm_mm (sys_vm s')) f = Some 6 /\
  virt_to_phys (vm_tables (sys_vm s')) space_c MMAP_AREA_VIRT = Ok f /\
  virt_to_phys (vm_tables (sys_vm s')) space_b MMAP_AREA_VIRT = Ok f /\
  el0_writable (pte_of (vm_tables (sys_vm s')) (root space_b) MMAP_AREA_VIRT) = true.
Proof.
  exists lend_end, (frame 6). split; [by vm_compute|]. split; [by vm_compute|]. split; [by vm_compute|]. split; by vm_compute.
Qed.

Definition lent_sys : Sys := Eval vm_compute in sys_of (lend_memory demo_env 4 space_a MMAP_AREA_VIRT 5 0 16384 true demo_sys1).

Lemma lent_page_reaches_stranger_witness : exists s2 f,
  sys_unmap_memory demo_env 4 space_a (mkRange MMAP_AREA_VIRT 16384) lent_sys = Some (Ok R_Ok, s2) /\
  frame_owner (vm_mm (sys_vm s2)) f = None /\
  virt_to_phys (vm_tables (sys_vm s2)) space_b MMAP_AREA_VIRT = Ok f /\
  el0_writable (pte_of (vm_tables (sys_vm s2)) (root space_b) MMAP_AREA_VIRT) = true.
Proof.
  set (f := addr_of (virt_to_phys (vm_tables (sys_vm demo_sys1)) space_a MMAP_AREA_VIRT)).
  destruct (lent_page_reaches_stranger demo_env demo_sys1 4 space_a MMAP_AREA_VIRT 5 space_b true MMAP_AREA_VIRT lent_sys f)
    as (s2 & E2 & Hn & _ & Hv & Hw).
  - exact demo_env_ok.
  - eapply (mem_steps_iso demo_env demo_env_ok ltac:(by vm_compute) demo_sys); [|exact demo_isolated].
    apply rtc_once. eexists 4, space_a, (CallHeap 32768). split; [by vm_compute|]. by vm_compute.
  - by vm_compute.
  - by vm_compute.
  - done.
  - by vm_compute.
  - by vm_compute.
  - by vm_compute.
  - by vm_compute.
  - exists 62. split; [|by vm_compute]. split; by vm_compute.
  - by vm_compute.
  - exists s2, f. exact (conj E2 (conj Hn (conj Hv Hw))).
Defined.

Definition cross_end : Sys := Eval vm_compute in
  sys_of (sys_map_memory demo_env 4 space_a None (Some (USER_AREA_END - PAGE_SIZE)) (2 * PAGE_SIZE) MF_W demo_sys).

(** [MapMemory] checks only the start of the range against the end of the user
    area: a process maps a writable page at [USER_AREA_END]. *)
Theorem map_memory_crosses_user_area : exists s' f,
  sys_map_memory demo_env 4 space_a None (Some (USER_AREA_END - PAGE_SIZE)) (2 * PAGE_SIZE) MF_W demo_sys =
    Some (Ok (R_MemoryRange (mkRange (USER_AREA_END - PAGE_SIZE) (2 * PAGE_SIZE))), s') /\
  virt_to_phys (vm_tables (sys_vm s')) space_a USER_AREA_END = Ok f /\
  el0_writable (pte_of (vm_tables (sys_vm s')) (root space_a) USER_AREA_END) = true.
Proof.
  exists cross_end, (frame 63). split; [by vm_compute|]. split; by vm_compute.
Qed.
