(* ===== verification/Process.v ===== *)
(** * Processes

    Models [xous/kernel/src/process.rs] and the futures of
    [xous/kernel/src/kfuture.rs]: the states and priorities of the threads,
    event handlers, notification bits, kernel futures and result mailboxes, and
    the connection table.

    A process calls the scheduler whenever a thread becomes ready or stops
    being so.  It is proved against the interface [ReadyQueues]; the scheduler
    of [Scheduler] is shown to provide it, which discharges the obligations
    under which the scheduler was verified.  Arrays are lists of their fixed
    length, and an index outside is a panic. *)

From S2P Require Import Prelude Abi Scheduler Server.
From Stdlib Require Import ZArith Lia Bool.
From stdpp Require Import gmap.
Open Scope Z_scope.

Definition MAX_CONNECTIONS : nat := 32.
Definition NUM_SYSTEM_EVENTS : nat := 3.
Definition NUM_THREADS : nat := 32.

(** ** Data *)

Inductive ThreadState :=
| TS_Free
| TS_Ready
| TS_RetryConnect (sid_hash : Z)
| TS_RetryQueueFull (sidx : Z)
| TS_WaitEvent (mask : Z).
#[export] Instance ThreadState_eq_dec : EqDecision ThreadState.
Proof. solve_decision. Defined.

Inductive ConnectionSlot :=
| CS_Free
| CS_Tombstone (refcount : Z)
| CS_Connected (sidx : Z) (refcount : Z) (permissions : MessagePermissions).

Inductive KernelFuture :=
| KF_ReceiveMessage (sidx : Z)
| KF_WaitBlocking
| KF_WaitProcessExit (target_pid : PID)
| KF_WaitJoin (target_tid : Z)
| KF_WaitFutex (addr : Z)
| KF_WaitDisplay.

Definition EVENT_SERVER_MSG : Z := 1.
Definition EVENT_KERNEL : Z := 2.

Definition suspension_mask (f : KernelFuture) : Z :=
  match f with KF_ReceiveMessage _ => EVENT_SERVER_MSG | _ => EVENT_KERNEL end.

Definition MEMORY_MIRROR_AREA_VIRT : Z := 70368744177664. (* 0x0000_4000_0000_0000 *)

Record Process := mkProcess {
  p_pid : PID;
  p_ppid : option PID;
  p_app_id : AppId;
  threads : list ThreadState;
  thread_priorities : list ThreadPriority;
  event_handlers : list (option (SID * MessageId));
  syscall_permissions : Z;
  connection_map : list ConnectionSlot;
  notification_bits : Z;
  kernel_futures : list (option KernelFuture);
  result_mailbox : list (option XResult);
  next_mirror_address : Z }.

(** [Process::new], for the fields modelled here *)
Definition Process_new (pid ppid : PID) (app_id : AppId) : Process :=
  mkProcess pid (Some ppid) app_id (replicate NUM_THREADS TS_Free) (replicate NUM_THREADS AppDefault)
    (replicate NUM_SYSTEM_EVENTS None) 0 (replicate MAX_CONNECTIONS CS_Free) 0
    (replicate NUM_THREADS None) (replicate NUM_THREADS None) MEMORY_MIRROR_AREA_VIRT.

Definition set_threads (l : list ThreadState) (p : Process) : Process :=
  mkProcess (p_pid p) (p_ppid p) (p_app_id p) l (thread_priorities p) (event_handlers p) (syscall_permissions p)
    (connection_map p) (notification_bits p) (kernel_futures p) (result_mailbox p) (next_mirror_address p).
Definition set_priorities (l : list ThreadPriority) (p : Process) : Process :=
  mkProcess (p_pid p) (p_ppid p) (p_app_id p) (threads p) l (event_handlers p) (syscall_permissions p)
    (connection_map p) (notification_bits p) (kernel_futures p) (result_mailbox p) (next_mirror_address p).
Definition set_handlers (l : list (option (SID * MessageId))) (p : Process) : Process :=
  mkProcess (p_pid p) (p_ppid p) (p_app_id p) (threads p) (thread_priorities p) l (syscall_permissions p)
    (connection_map p) (notification_bits p) (kernel_futures p) (result_mailbox p) (next_mirror_address p).
Definition set_syscall_permissions (mask : Z) (p : Process) : Process :=
  mkProcess (p_pid p) (p_ppid p) (p_app_id p) (threads p) (thread_priorities p) (event_handlers p) mask
    (connection_map p) (notification_bits p) (kernel_futures p) (result_mailbox p) (next_mirror_address p).
Definition set_connections (l : list ConnectionSlot) (p : Process) : Process :=
  mkProcess (p_pid p) (p_ppid p) (p_app_id p) (threads p) (thread_priorities p) (event_handlers p) (syscall_permissions p)
    l (notification_bits p) (kernel_futures p) (result_mailbox p) (next_mirror_address p).
Definition set_bits (b : Z) (p : Process) : Process :=
  mkProcess (p_pid p) (p_ppid p) (p_app_id p) (threads p) (thread_priorities p) (event_handlers p) (syscall_permissions p)
    (connection_map p) b (kernel_futures p) (result_mailbox p) (next_mirror_address p).
Definition set_futures (l : list (option KernelFuture)) (p : Process) : Process :=
  mkProcess (p_pid p) (p_ppid p) (p_app_id p) (threads p) (thread_priorities p) (event_handlers p) (syscall_permissions p)
    (connection_map p) (notification_bits p) l (result_mailbox p) (next_mirror_address p).
Definition set_mailboxes (l : list (option XResult)) (p : Process) : Process :=
  mkProcess (p_pid p) (p_ppid p) (p_app_id p) (threads p) (thread_priorities p) (event_handlers p) (syscall_permissions p)
    (connection_map p) (notification_bits p) (kernel_futures p) l (next_mirror_address p).
Definition set_ppid (o : option PID) (p : Process) : Process :=
  mkProcess (p_pid p) o (p_app_id p) (threads p) (thread_priorities p) (event_handlers p) (syscall_permissions p)
    (connection_map p) (notification_bits p) (kernel_futures p) (result_mailbox p) (next_mirror_address p).
Definition set_mirror (a : Z) (p : Process) : Process :=
  mkProcess (p_pid p) (p_ppid p) (p_app_id p) (threads p) (thread_priorities p) (event_handlers p) (syscall_permissions p)
    (connection_map p) (notification_bits p) (kernel_futures p) (result_mailbox p) a.

(** ** The interface of the scheduler

    [G] is the abstract state of the ready queues. *)

Class ReadyQueues (S G : Type) := {
  rq_ready : PID -> TID -> ThreadPriority -> M S unit;
  rq_park : PID -> TID -> ThreadPriority -> M S unit;
  rq_yield : PID -> TID -> ThreadPriority -> M S unit;
  rq_head : M S (option thread);
  rq_in_irq : S -> bool;
  rq_rel : S -> G -> Prop;
  rq_in : G -> ThreadPriority -> thread -> Prop;
  rq_ready_spec : forall s g pid tid pr, rq_rel s g -> index_ok (pid, tid) = true ->
    (forall pr', ~ rq_in g pr' (pid, tid)) ->
    exists s' g', rq_ready pid tid pr s = Some (tt, s') /\ rq_rel s' g' /\
      forall pr' t, rq_in g' pr' t <-> rq_in g pr' t \/ (pr' = pr /\ t = (pid, tid));
  rq_park_spec : forall s g pid tid pr, rq_rel s g -> index_ok (pid, tid) = true ->
    rq_in g pr (pid, tid) ->
    exists s' g', rq_park pid tid pr s = Some (tt, s') /\ rq_rel s' g' /\
      forall pr' t, rq_in g' pr' t <-> rq_in g pr' t /\ t <> (pid, tid);
  rq_yield_spec : forall s g pid tid pr, rq_rel s g -> index_ok (pid, tid) = true ->
    exists s' g', rq_yield pid tid pr s = Some (tt, s') /\ rq_rel s' g' /\
      forall pr' t, rq_in g' pr' t <-> rq_in g pr' t;
  rq_yield_irq : forall s pid tid pr s', rq_yield pid tid pr s = Some (tt, s') -> rq_in_irq s' = rq_in_irq s;
  rq_head_spec : forall s g, rq_rel s g ->
    exists o, rq_head s = Some (o, s) /\
    match o with
    | Some t => exists pr, rq_in g pr t /\ forall pr' t', rq_in g pr' t' -> (prio_index pr' <= prio_index pr)%nat
    | None => forall pr t, ~ rq_in g pr t
    end }.

Section WithScheduler.
Context {S G : Type} {RQ : ReadyQueues S G}.

Record PS := mkPS { ps_proc : Process; ps_sched : S }.

Definition on_sched (op : M S unit) : M PS unit :=
  fun s => match op (ps_sched s) with Some (x, q) => Some (x, mkPS (ps_proc s) q) | None => None end.
Definition update (f : Process -> Process) : M PS unit := modify (fun s => mkPS (f (ps_proc s)) (ps_sched s)).

(** ** Threads *)

Definition thread_state (tid : nat) : M PS ThreadState :=
  o <- gets (fun s => threads (ps_proc s) !! tid) ;; expect o.
Definition thread_priority (tid : nat) : M PS ThreadPriority :=
  o <- gets (fun s => thread_priorities (ps_proc s) !! tid) ;; expect o.

Definition set_thread_state (tid : nat) (state : ThreadState) : M PS unit :=
  prio <- thread_priority tid ;;
  pid <- gets (fun s => p_pid (ps_proc s)) ;;
  cur <- thread_state tid ;;
  _ <- (if bool_decide (cur = TS_Ready) && negb (bool_decide (state = TS_Ready))
        then on_sched (rq_park pid (Z.of_nat tid) prio) else ret tt) ;;
  _ <- (if negb (bool_decide (cur = TS_Ready)) && bool_decide (state = TS_Ready)
        then on_sched (rq_ready pid (Z.of_nat tid) prio) else ret tt) ;;
  update (fun p => set_threads (<[tid := state]> (threads p)) p).

Definition set_thread_priority (tid : nat) (priority : ThreadPriority) : M PS unit :=
  current_priority <- thread_priority tid ;;
  if bool_decide (current_priority = priority) then ret tt
  else
    pid <- gets (fun s => p_pid (ps_proc s)) ;;
    cur <- thread_state tid ;;
    _ <- (if bool_decide (cur = TS_Ready) then
            _ <- on_sched (rq_park pid (Z.of_nat tid) current_priority) ;;
            on_sched (rq_ready pid (Z.of_nat tid) priority)
          else ret tt) ;;
    update (fun p => set_priorities (<[tid := priority]> (thread_priorities p)) p).

(** The loop of [terminate] over the threads [tid..tid + n]. *)
Fixpoint free_threads (tid n : nat) : M PS unit :=
  match n with
  | O => ret tt
  | Datatypes.S n =>
      _ <- set_thread_state tid TS_Free ;;
      _ <- update (fun p => set_futures (<[tid := None]> (kernel_futures p)) p) ;;
      _ <- update (fun p => set_mailboxes (<[tid := None]> (result_mailbox p)) p) ;;
      free_threads (Datatypes.S tid) n
  end.
Definition terminate_threads : M PS unit := free_threads 1 (NUM_THREADS - 1).

(** ** Notifications *)

Definition take_notification_bits : M PS Z :=
  bits <- gets (fun s => notification_bits (ps_proc s)) ;;
  _ <- update (set_bits 0) ;; ret bits.

Definition take_notification_bits_masked (mask : Z) : M PS Z :=
  fired <- gets (fun s => Z.land (notification_bits (ps_proc s)) mask) ;;
  _ <- update (fun p => set_bits (Z.ldiff (notification_bits p) mask) p) ;; ret fired.

Fixpoint post_loop (tid n : nat) : M PS (option (nat * Z)) :=
  match n with
  | O => ret None
  | Datatypes.S n =>
      state <- thread_state tid ;;
      match state with
      | TS_WaitEvent mask =>
          bits <- gets (fun s => notification_bits (ps_proc s)) ;;
          let fired := Z.land bits mask in
          if negb (fired =? 0) then
            _ <- update (fun p => set_bits (Z.ldiff (notification_bits p) fired) p) ;;
            _ <- set_thread_state tid TS_Ready ;;
            ret (Some (tid, fired))
          else post_loop (Datatypes.S tid) n
      | _ => post_loop (Datatypes.S tid) n
      end
  end.

Definition post_notification_bits (bits : Z) : M PS (option (nat * Z)) :=
  _ <- update (fun p => set_bits (Z.lor (notification_bits p) bits) p) ;;
  post_loop 1 (NUM_THREADS - 1).

(** The loop runs over [1..MAX_THREAD_COUNT - 1]; [n] is the number of threads
    still to wake, [usize::MAX] for all. *)
Fixpoint wake_loop (state : ThreadState) (tid k : nat) (n : Z) : M PS unit :=
  match k with
  | O => ret tt
  | Datatypes.S k =>
      cur <- thread_state tid ;;
      if bool_decide (cur = state) then
        _ <- set_thread_state tid TS_Ready ;;
        if n - 1 =? 0 then ret tt else wake_loop state (Datatypes.S tid) k (n - 1)
      else wake_loop state (Datatypes.S tid) k n
  end.

Definition wake_threads_with_state (state : ThreadState) (n : Z) : M PS unit :=
  if n =? 0 then ret tt else wake_loop state 1 (NUM_THREADS - 2) n.

(** ** Event handlers, futures and mailboxes *)

Definition set_event_handler (event : SystemEvent) (sid : SID) (id : MessageId) : M PS (res unit Error) :=
  o <- gets (fun s => event_handlers (ps_proc s) !! Z.to_nat (SystemEvent_as_usize event)) ;;
  existing <- expect o ;;
  match existing with
  | Some _ => ret (Err AccessDenied)
  | None =>
      _ <- update (fun p => set_handlers
             (<[Z.to_nat (SystemEvent_as_usize event) := Some (sid, id)]> (event_handlers p)) p) ;;
      ret (Ok tt)
  end.

Definition get_event_handler (event : SystemEvent) : M PS (option (SID * MessageId)) :=
  o <- gets (fun s => event_handlers (ps_proc s) !! Z.to_nat (SystemEvent_as_usize event)) ;; expect o.

Definition set_kernel_future (tid : nat) (future : KernelFuture) : M PS unit :=
  if (tid <? NUM_THREADS)%nat then update (fun p => set_futures (<[tid := Some future]> (kernel_futures p)) p)
  else ret tt.

Definition take_kernel_future (tid : nat) : M PS (option KernelFuture) :=
  if (tid <? NUM_THREADS)%nat then
    o <- gets (fun s => kernel_futures (ps_proc s) !! tid) ;;
    f <- expect o ;;
    _ <- update (fun p => set_futures (<[tid := None]> (kernel_futures p)) p) ;; ret f
  else ret None.

Definition set_mailbox (tid : nat) (result : XResult) : M PS unit :=
  if (tid <? NUM_THREADS)%nat then update (fun p => set_mailboxes (<[tid := Some result]> (result_mailbox p)) p)
  else ret tt.

Definition take_mailbox (tid : nat) : M PS (option XResult) :=
  if (tid <? NUM_THREADS)%nat then
    o <- gets (fun s => result_mailbox (ps_proc s) !! tid) ;;
    r <- expect o ;;
    _ <- update (fun p => set_mailboxes (<[tid := None]> (result_mailbox p)) p) ;; ret r
  else ret None.

(** [poll_mailbox], for an existing process: [None] is [Pending]. *)
Definition poll_mailbox (tid : nat) : M PS (option (res XResult Error)) :=
  r <- take_mailbox tid ;; ret (Ok <$> r).

(** ** Connections *)

(** The slot of a live connection to the server. *)
Definition connected_to (sidx : Z) (c : ConnectionSlot) : bool :=
  match c with CS_Connected s _ _ => s =? u8 sidx | _ => false end.
Definition is_free (c : ConnectionSlot) : bool := match c with CS_Free => true | _ => false end.

Fixpoint position {A} (f : A -> bool) (l : list A) : option nat :=
  match l with
  | [] => None
  | x :: l => if f x then Some 0%nat else Datatypes.S <$> position f l
  end.

Definition cid_of (cidx : nat) : CID := Z.of_nat cidx + 2.

Definition tombstone_connection_by_sidx (dead_sidx : Z) : M PS (option CID) :=
  l <- gets (fun s => connection_map (ps_proc s)) ;;
  match position (connected_to dead_sidx) l with
  | Some cidx =>
      _ <- update (fun p => set_connections
             (alter (fun c => match c with CS_Connected _ rc _ => CS_Tombstone rc | _ => c end) cidx l) p) ;;
      ret (Some (cid_of cidx))
  | None => ret None
  end.

(** [refcount += 1] panics on overflow. *)
Definition add_connection (sidx : Z) (permissions : MessagePermissions) : M PS (res CID Error) :=
  l <- gets (fun s => connection_map (ps_proc s)) ;;
  match position (connected_to sidx) l with
  | Some cidx =>
      match l !! cidx with
      | Some (CS_Connected s rc pm) =>
          _ <- assertb (rc + 1 <? 2 ^ 64) ;;
          _ <- update (set_connections (<[cidx := CS_Connected s (rc + 1) pm]> l)) ;;
          ret (Ok (cid_of cidx))
      | _ => panic
      end
  | None =>
      match position is_free l with
      | Some cidx =>
          _ <- update (set_connections (<[cidx := CS_Connected (u8 sidx) 1 permissions]> l)) ;;
          ret (Ok (cid_of cidx))
      | None => ret (Err OutOfMemory)
      end
  end.

Definition connection (cid : CID) : M PS (res ConnectionSlot Error) :=
  if cid <? 2 then ret (Err ServerNotFound)
  else l <- gets (fun s => connection_map (ps_proc s)) ;;
       ret (ok_or (l !! Z.to_nat (cid - 2)) ServerNotFound).

Definition number_of_connections (p : Process) : nat :=
  length (filter (fun c => is_free c = false) (connection_map p)).

(** ** Threads and the ready queues *)

Record proc_wf (p : Process) : Prop := {
  wf_pid : 1 <= p_pid p <= MAX_PROCESS_COUNT;
  wf_threads : length (threads p) = NUM_THREADS;
  wf_prios : length (thread_priorities p) = NUM_THREADS;
  wf_handlers : length (event_handlers p) = NUM_SYSTEM_EVENTS;
  wf_conns : length (connection_map p) = MAX_CONNECTIONS;
  wf_futures : length (kernel_futures p) = NUM_THREADS;
  wf_mailbox : length (result_mailbox p) = NUM_THREADS }.

(** A thread is in the queue of its priority exactly when its state is [Ready]. *)
Definition agrees (p : Process) (g : G) : Prop :=
  forall (tid : nat) st pr pr', (1 <= tid)%nat -> threads p !! tid = Some st -> thread_priorities p !! tid = Some pr ->
    rq_in g pr' (p_pid p, Z.of_nat tid) <-> st = TS_Ready /\ pr' = pr.

Definition valid_tid (tid : nat) : Prop := (1 <= tid < NUM_THREADS)%nat.

(** No other thread number of process [pid] is queued. *)
Definition queued_valid (pid : PID) (g : G) : Prop :=
  forall pr tid, rq_in g pr (pid, tid) -> exists n, tid = Z.of_nat n /\ valid_tid n.

Record ps_inv (s : PS) (g : G) : Prop := {
  pi_wf : proc_wf (ps_proc s);
  pi_rel : rq_rel (ps_sched s) g;
  pi_agrees : agrees (ps_proc s) g;
  pi_valid : queued_valid (p_pid (ps_proc s)) g }.

(** The queues differ at most in threads of process [pid]. *)
Definition same_others (pid : PID) (g g' : G) : Prop :=
  forall pr t, t.1 <> pid -> rq_in g' pr t <-> rq_in g pr t.

Lemma same_others_trans pid g1 g2 g3 : same_others pid g1 g2 -> same_others pid g2 g3 -> same_others pid g1 g3.
Proof. intros H1 H2 pr t Ht. by rewrite (H2 pr t Ht), (H1 pr t Ht). Qed.

Lemma queued_valid_step pid tid g g' : queued_valid pid g -> valid_tid tid ->
  (forall pr t, t <> (pid, Z.of_nat tid) -> rq_in g' pr t <-> rq_in g pr t) -> queued_valid pid g'.
Proof.
  intros Hv Ht Hoth pr u Hu. destruct (decide (u = Z.of_nat tid)) as [->|Hne]; [by exists tid|].
  apply (Hv pr). apply Hoth; [congruence|done].
Qed.

Lemma tid_index_ok pid tid : 1 <= pid <= MAX_PROCESS_COUNT -> valid_tid tid -> index_ok (pid, Z.of_nat tid) = true.
Proof.
  unfold valid_tid, NUM_THREADS, index_ok, MAX_PROCESS_COUNT, MAX_THREAD_COUNT. cbn. intros Hp Ht.
  rewrite !andb_true_iff, !Z.leb_le. lia.
Qed.

Lemma thread_lookup s g tid : ps_inv s g -> valid_tid tid ->
  exists st pr, threads (ps_proc s) !! tid = Some st /\ thread_priorities (ps_proc s) !! tid = Some pr.
Proof.
  intros Hinv [_ Ht]. destruct (lookup_lt_is_Some_2 (threads (ps_proc s)) tid) as [st Hst];
    [by rewrite (wf_threads _ (pi_wf _ _ Hinv))|].
  destruct (lookup_lt_is_Some_2 (thread_priorities (ps_proc s)) tid) as [pr Hpr];
    [by rewrite (wf_prios _ (pi_wf _ _ Hinv))|]. eauto.
Qed.

Lemma thread_state_run s tid st : threads (ps_proc s) !! tid = Some st -> thread_state tid s = Some (st, s).
Proof. intros H. unfold thread_state, bind, gets. by rewrite H. Qed.
Lemma thread_priority_run s tid pr :
  thread_priorities (ps_proc s) !! tid = Some pr -> thread_priority tid s = Some (pr, s).
Proof. intros H. unfold thread_priority, bind, gets. by rewrite H. Qed.

(** Changing one thread's row of the tables, with the queues following. *)
Lemma agrees_update p g g' tid st pr st' pr' p' :
  agrees p g -> valid_tid tid -> threads p !! tid = Some st -> thread_priorities p !! tid = Some pr ->
  p_pid p' = p_pid p -> threads p' = <[tid := st']> (threads p) -> thread_priorities p' = <[tid := pr']> (thread_priorities p) ->
  (forall q, rq_in g' q (p_pid p, Z.of_nat tid) <-> st' = TS_Ready /\ q = pr') ->
  (forall q t, t <> (p_pid p, Z.of_nat tid) -> rq_in g' q t <-> rq_in g q t) -> agrees p' g'.
Proof.
  intros Hag Ht Hst Hpr Hp Hth Hpi Hself Hoth u st1 pr1 q Hu Hst1 Hpr1. rewrite Hp.
  rewrite Hth in Hst1. rewrite Hpi in Hpr1. destruct (decide (u = tid)) as [->|Hne].
  - rewrite list_lookup_insert_eq in Hst1 by (by eapply lookup_lt_Some).
    rewrite list_lookup_insert_eq in Hpr1 by (by eapply lookup_lt_Some).
    injection Hst1 as <-. injection Hpr1 as <-. apply Hself.
  - rewrite list_lookup_insert_ne in Hst1 by done. rewrite list_lookup_insert_ne in Hpr1 by done. rewrite Hoth by (intros [= ?]; lia). by apply Hag.
Qed.

Lemma on_sched_run op s q : op (ps_sched s) = Some (tt, q) -> on_sched op s = Some (tt, mkPS (ps_proc s) q).
Proof. intros H. unfold on_sched. by rewrite H. Qed.

Lemma set_thread_state_run s g tid state :
  ps_inv s g -> valid_tid tid ->
  exists s' g', set_thread_state tid state s = Some (tt, s') /\ ps_inv s' g' /\
    ps_proc s' = set_threads (<[tid := state]> (threads (ps_proc s))) (ps_proc s) /\
    same_others (p_pid (ps_proc s)) g g'.
Proof.
  intros Hinv Ht. destruct (thread_lookup s g tid Hinv Ht) as (st & pr & Hst & Hpr).
  pose proof (tid_index_ok _ _ (wf_pid _ (pi_wf _ _ Hinv)) Ht) as Hidx.
  pose proof (fun q => pi_agrees _ _ Hinv tid st pr q (proj1 Ht) Hst Hpr) as Hq.
  assert (Hgoal : forall q g', rq_rel q g' ->
    (forall pr', rq_in g' pr' (p_pid (ps_proc s), Z.of_nat tid) <-> state = TS_Ready /\ pr' = pr) ->
    (forall pr' t, t <> (p_pid (ps_proc s), Z.of_nat tid) -> rq_in g' pr' t <-> rq_in g pr' t) ->
    ps_inv (mkPS (set_threads (<[tid := state]> (threads (ps_proc s))) (ps_proc s)) q) g' /\
    same_others (p_pid (ps_proc s)) g g').
  { intros q g' Hrel Hself Hoth. split.
    - destruct (pi_wf _ _ Hinv) as [? ? ? ? ? ? ?]. split; [split; cbn; try done; by rewrite length_insert|done| |by eapply queued_valid_step; [apply Hinv|..]].
      eapply (agrees_update (ps_proc s) g g' tid st pr state pr); try done; [apply Hinv|].
      cbn. by rewrite list_insert_id.
    - intros pr' t Hne. apply Hoth. intros ->. by apply Hne. }
  unfold set_thread_state, bind at 1. rewrite (thread_priority_run s tid pr Hpr). unfold bind at 1, gets.
  unfold bind at 1. rewrite (thread_state_run s tid st Hst). unfold bind at 1.
  destruct (bool_decide (st = TS_Ready)) eqn:Es; destruct (bool_decide (state = TS_Ready)) eqn:Es'; cbn [andb negb].
  - apply bool_decide_eq_true in Es, Es'. subst. unfold ret, bind. cbn. exists (mkPS (set_threads (<[tid := TS_Ready]> (threads (ps_proc s))) (ps_proc s)) (ps_sched s)), g.
    split; [done|]. destruct (Hgoal (ps_sched s) g) as [? ?]; [apply Hinv|done|done|]. done.
  - apply bool_decide_eq_true in Es. apply bool_decide_eq_false in Es'. subst st.
    destruct (rq_park_spec (ps_sched s) g (p_pid (ps_proc s)) (Z.of_nat tid) pr) as (q & g' & Hrun & Hrel & Hin);
      [apply Hinv|done|by apply Hq|]. rewrite (on_sched_run _ _ _ Hrun). cbn.
    destruct (Hgoal q g' Hrel) as [? ?]; [intros pr'; rewrite Hin; naive_solver|intros pr' t Hne; rewrite Hin; naive_solver|].
    eexists _, g'. split_and!; done.
  - apply bool_decide_eq_false in Es. apply bool_decide_eq_true in Es'. subst state.
    unfold ret at 1, bind.
    destruct (rq_ready_spec (ps_sched s) g (p_pid (ps_proc s)) (Z.of_nat tid) pr) as (q & g' & Hrun & Hrel & Hin);
      [apply Hinv|done|intros pr' Hbad; by apply Hq in Hbad as [? _]|]. rewrite (on_sched_run _ _ _ Hrun). cbn.
    destruct (Hgoal q g' Hrel) as [? ?]; [intros pr'; rewrite Hin, Hq; naive_solver|intros pr' t Hne; rewrite Hin; naive_solver|].
    eexists _, g'. split_and!; done.
  - apply bool_decide_eq_false in Es, Es'. unfold ret, bind. cbn.
    destruct (Hgoal (ps_sched s) g) as [? ?]; [apply Hinv|intros pr'; rewrite Hq; naive_solver|done|].
    eexists _, g. split_and!; done.
Qed.

Lemma set_thread_priority_run s g tid priority :
  ps_inv s g -> valid_tid tid ->
  exists s' g', set_thread_priority tid priority s = Some (tt, s') /\ ps_inv s' g' /\
    ps_proc s' = set_priorities (<[tid := priority]> (thread_priorities (ps_proc s))) (ps_proc s) /\
    same_others (p_pid (ps_proc s)) g g'.
Proof.
  intros Hinv Ht. destruct (thread_lookup s g tid Hinv Ht) as (st & pr & Hst & Hpr).
  pose proof (tid_index_ok _ _ (wf_pid _ (pi_wf _ _ Hinv)) Ht) as Hidx.
  pose proof (fun q => pi_agrees _ _ Hinv tid st pr q (proj1 Ht) Hst Hpr) as Hq.
  unfold set_thread_priority, bind at 1. rewrite (thread_priority_run s tid pr Hpr).
  case_bool_decide as Ep.
  { subst pr. exists s, g. split_and!; [done..| |done]. rewrite list_insert_id by done. by destruct s as [[] ?]. }
  assert (Hgoal : forall q g', rq_rel q g' ->
    (forall pr', rq_in g' pr' (p_pid (ps_proc s), Z.of_nat tid) <-> st = TS_Ready /\ pr' = priority) ->
    (forall pr' t, t <> (p_pid (ps_proc s), Z.of_nat tid) -> rq_in g' pr' t <-> rq_in g pr' t) ->
    ps_inv (mkPS (set_priorities (<[tid := priority]> (thread_priorities (ps_proc s))) (ps_proc s)) q) g' /\
    same_others (p_pid (ps_proc s)) g g').
  { intros q g' Hrel Hself Hoth. split.
    - destruct (pi_wf _ _ Hinv) as [? ? ? ? ? ? ?]. split; [split; cbn; try done; by rewrite length_insert|done| |by eapply queued_valid_step; [apply Hinv|..]].
      eapply (agrees_update (ps_proc s) g g' tid st pr st priority); try done; [apply Hinv|].
      cbn. by rewrite list_insert_id.
    - intros pr' t Hne. apply Hoth. intros ->. by apply Hne. }
  unfold bind at 1, gets. unfold bind at 1. rewrite (thread_state_run s tid st Hst). unfold bind at 1.
  case_bool_decide as Es.
  - subst st.
    destruct (rq_park_spec (ps_sched s) g (p_pid (ps_proc s)) (Z.of_nat tid) pr) as (q & g1 & Hrun & Hrel & Hin);
      [apply Hinv|done|by apply Hq|]. unfold bind. rewrite (on_sched_run _ _ _ Hrun).
    destruct (rq_ready_spec q g1 (p_pid (ps_proc s)) (Z.of_nat tid) priority) as (q' & g2 & Hrun' & Hrel' & Hin');
      [done|done|intros pr' Hbad; by apply Hin in Hbad as [_ ?]|].
    rewrite (on_sched_run _ (mkPS (ps_proc s) q) _ Hrun'). cbn.
    destruct (Hgoal q' g2 Hrel') as [? ?];
      [intros pr'; rewrite Hin', Hin; naive_solver|intros pr' t Hne; rewrite Hin', Hin; naive_solver|].
    eexists _, g2. split_and!; done.
  - unfold ret. cbn. destruct (Hgoal (ps_sched s) g) as [? ?]; [apply Hinv|intros pr'; rewrite Hq; naive_solver|done|].
    eexists _, g. split_and!; done.
Qed.

(** Updates of the other fields. *)
Lemma ps_inv_update s g p' :
  ps_inv s g -> p_pid p' = p_pid (ps_proc s) -> threads p' = threads (ps_proc s) ->
  thread_priorities p' = thread_priorities (ps_proc s) ->
  length (event_handlers p') = NUM_SYSTEM_EVENTS -> length (connection_map p') = MAX_CONNECTIONS ->
  length (kernel_futures p') = NUM_THREADS -> length (result_mailbox p') = NUM_THREADS ->
  ps_inv (mkPS p' (ps_sched s)) g.
Proof.
  intros [[? ? ? ? ? ? ?] Hr Ha Hv] Hp Ht Hpr ? ? ? ?. split; [split; cbn; congruence|done| |cbn; by rewrite Hp].
  unfold agrees. cbn. by rewrite Hp, Ht, Hpr.
Qed.

Ltac solve_update := eapply ps_inv_update; [eassumption|done..| | | |]; cbn; rewrite ?length_insert;
  match goal with H : ps_inv _ _ |- _ => destruct (pi_wf _ _ H); done end.

Lemma free_threads_run s g tid n :
  ps_inv s g -> (1 <= tid)%nat -> (tid + n <= NUM_THREADS)%nat ->
  exists s' g', free_threads tid n s = Some (tt, s') /\ ps_inv s' g' /\
    p_pid (ps_proc s') = p_pid (ps_proc s) /\ same_others (p_pid (ps_proc s)) g g' /\
    (forall k, (k < tid)%nat -> threads (ps_proc s') !! k = threads (ps_proc s) !! k) /\
    (forall k, (tid <= k < tid + n)%nat -> threads (ps_proc s') !! k = Some TS_Free).
Proof.
  revert s g tid. induction n as [|n IH]; intros s g tid Hinv Ht Hn; cbn [free_threads].
  - exists s, g. split_and!; try done. intros k Hk. lia.
  - destruct (set_thread_state_run s g tid TS_Free Hinv ltac:(split; lia)) as (s1 & g1 & H1 & Hi1 & Hp1 & Ho1).
    unfold bind at 1. rewrite H1. unfold bind at 1 2, update at 1 2, modify. cbn [ps_proc ps_sched].
    set (s2 := mkPS _ (ps_sched s1)).
    assert (Hi2 : ps_inv s2 g1) by (subst s2; solve_update).
    destruct (IH s2 g1 (Datatypes.S tid) Hi2 ltac:(lia) ltac:(lia)) as (s' & g' & H' & Hi' & Hpid & Ho' & Hlow & Hall).
    assert (Et : threads (ps_proc s2) = <[tid := TS_Free]> (threads (ps_proc s))) by (cbn; by rewrite Hp1).
    assert (Ep : p_pid (ps_proc s2) = p_pid (ps_proc s)) by (cbn; by rewrite Hp1).
    exists s', g'. rewrite Ep in *. split_and!; try done.
    + eapply same_others_trans; done.
    + intros k Hk. rewrite Hlow by lia. rewrite Et. apply list_lookup_insert_ne. lia.
    + intros k Hk. destruct (decide (k = tid)) as [->|]; [|apply Hall; lia].
      rewrite Hlow by lia. rewrite Et. apply list_lookup_insert_eq.
      rewrite (wf_threads _ (pi_wf _ _ Hinv)). lia.
Qed.

(** *** Notifications *)

(** Thread [tid] waits for an event of [mask]. *)
Definition waits (p : Process) (tid : nat) (mask : Z) : Prop := threads p !! tid = Some (TS_WaitEvent mask).

(** What scanning the threads [tid..tid + n] for pending events does: the first
    match is consumed and its thread made ready. *)
Definition post_result (tid n : nat) (s : PS) (r : option (nat * Z)) (s' : PS) : Prop :=
  let p := ps_proc s in
  match r with
  | None => s' = s /\ forall k mask, (tid <= k < tid + n)%nat -> waits p k mask -> Z.land (notification_bits p) mask = 0
  | Some (k, fired) => exists mask, (tid <= k < tid + n)%nat /\ waits p k mask /\
      fired = Z.land (notification_bits p) mask /\ fired <> 0 /\
      (forall j m, (tid <= j < k)%nat -> waits p j m -> Z.land (notification_bits p) m = 0) /\
      ps_proc s' = set_threads (<[k := TS_Ready]> (threads p)) (set_bits (Z.ldiff (notification_bits p) fired) p)
  end.

Lemma post_result_skip tid n s r s' :
  (forall mask, waits (ps_proc s) tid mask -> Z.land (notification_bits (ps_proc s)) mask = 0) ->
  post_result (Datatypes.S tid) n s r s' -> post_result tid (Datatypes.S n) s r s'.
Proof.
  intros Hself. unfold post_result. destruct r as [[k fired]|].
  - intros (mask & Hk & Hw & Hf & Hne & Hlow & Hp). exists mask. split_and!; try done; try lia.
    intros j m Hj. destruct (decide (j = tid)) as [->|]; [apply Hself|apply Hlow; lia].
  - intros [-> Hall]. split; [done|]. intros k mask Hk.
    destruct (decide (k = tid)) as [->|]; [apply Hself|apply Hall; lia].
Qed.

Lemma post_loop_run s g tid n :
  ps_inv s g -> (1 <= tid)%nat -> (tid + n <= NUM_THREADS)%nat ->
  exists r s' g', post_loop tid n s = Some (r, s') /\ ps_inv s' g' /\ same_others (p_pid (ps_proc s)) g g' /\
    post_result tid n s r s'.
Proof.
  revert tid. induction n as [|n IH]; intros tid Hinv Ht Hn; cbn [post_loop].
  - exists None, s, g. do 3 (split; [done|]). split; [done|]. intros k mask Hk. lia.
  - destruct (thread_lookup s g tid Hinv ltac:(split; lia)) as (st & pr & Hst & _).
    unfold bind at 1. rewrite (thread_state_run s tid st Hst).
    assert (Hnext : (forall mask, st = TS_WaitEvent mask -> Z.land (notification_bits (ps_proc s)) mask = 0) ->
      exists r s' g', post_loop (Datatypes.S tid) n s = Some (r, s') /\ ps_inv s' g' /\
        same_others (p_pid (ps_proc s)) g g' /\ post_result tid (Datatypes.S n) s r s').
    { intros H0. destruct (IH (Datatypes.S tid) Hinv ltac:(lia) ltac:(lia)) as (r & s' & g' & Hrun & Hi & Ho & Hr).
      exists r, s', g'. do 3 (split; [done|]). apply post_result_skip; [|done].
      intros mask Hw. apply H0. unfold waits in Hw. congruence. }
    destruct st as [| | | |mask]; try (apply Hnext; done).
    unfold bind at 1, gets at 1. destruct (Z.eqb_spec (Z.land (notification_bits (ps_proc s)) mask) 0) as [E0|En]; cbn [negb].
    + apply Hnext. by intros m [= <-].
    + set (fired := Z.land (notification_bits (ps_proc s)) mask) in *.
      set (s1 := mkPS (set_bits (Z.ldiff (notification_bits (ps_proc s)) fired) (ps_proc s)) (ps_sched s)).
      assert (Hi1 : ps_inv s1 g) by (subst s1; solve_update).
      destruct (set_thread_state_run s1 g tid TS_Ready Hi1 ltac:(split; lia)) as (s2 & g2 & H2 & Hi2 & Hp2 & Ho2).
      exists (Some (tid, fired)), s2, g2. split_and!; [|done|done|].
      * unfold bind at 1, update at 1, modify. fold s1. unfold bind. by rewrite H2.
      * exists mask. split_and!; try done; try lia.
Qed.

(** *** Waking by state *)

(** [wake_loop] only makes threads in [state] of its range ready, and all of
    them when the count allows it. *)
Lemma wake_loop_run state s g tid k n :
  ps_inv s g -> (1 <= tid)%nat -> (tid + k <= NUM_THREADS)%nat -> 1 <= n ->
  exists s' g', wake_loop state tid k n s = Some (tt, s') /\ ps_inv s' g' /\
    same_others (p_pid (ps_proc s)) g g' /\ p_pid (ps_proc s') = p_pid (ps_proc s) /\
    (forall j, (j < tid \/ tid + k <= j)%nat -> threads (ps_proc s') !! j = threads (ps_proc s) !! j) /\
    (forall j st, (tid <= j < tid + k)%nat -> threads (ps_proc s) !! j = Some st ->
       (st <> state -> threads (ps_proc s') !! j = Some st) /\
       (st = state -> threads (ps_proc s') !! j = Some TS_Ready \/ (n < Z.of_nat k /\ threads (ps_proc s') !! j = Some st))).
Proof.
  revert s g tid n. induction k as [|k IH]; intros s g tid n Hinv Ht Hk Hn; cbn [wake_loop].
  - exists s, g. split_and!; try done. intros j st Hj. lia.
  - destruct (thread_lookup s g tid Hinv ltac:(split; lia)) as (st & pr & Hst & _).
    unfold bind at 1. rewrite (thread_state_run s tid st Hst). case_bool_decide as Es.
    + destruct (set_thread_state_run s g tid TS_Ready Hinv ltac:(split; lia)) as (s1 & g1 & H1 & Hi1 & Hp1 & Ho1).
      assert (Et : threads (ps_proc s1) = <[tid := TS_Ready]> (threads (ps_proc s))) by (by rewrite Hp1).
      assert (Ep : p_pid (ps_proc s1) = p_pid (ps_proc s)) by (by rewrite Hp1).
      assert (Hl : (tid < length (threads (ps_proc s)))%nat) by (by eapply lookup_lt_Some).
      unfold bind at 1. rewrite H1. destruct (Z.eqb_spec (n - 1) 0) as [En|En].
      * exists s1, g1. split_and!; try done.
        -- intros j Hj. rewrite Et. apply list_lookup_insert_ne. lia.
        -- intros j st' Hj Hst'. rewrite Et. destruct (decide (j = tid)) as [->|Hne].
           ++ rewrite list_lookup_insert_eq by done. split; [congruence|by left].
           ++ rewrite list_lookup_insert_ne by done. split; [done|right; split; [lia|done]].
      * destruct (IH s1 g1 (Datatypes.S tid) (n - 1) Hi1 ltac:(lia) ltac:(lia) ltac:(lia))
          as (s' & g' & H' & Hi' & Ho' & Hpid & Hout & Hin).
        exists s', g'. rewrite Ep in *. split_and!; try done; [by eapply same_others_trans| |].
        -- intros j Hj. rewrite Hout by lia. rewrite Et. apply list_lookup_insert_ne. lia.
        -- intros j st' Hj Hst'. destruct (decide (j = tid)) as [->|Hne].
           ++ rewrite Hout by lia. rewrite Et, list_lookup_insert_eq by done. split; [congruence|by left].
           ++ specialize (Hin j st' ltac:(lia)). rewrite Et, list_lookup_insert_ne in Hin by done.
              destruct (Hin Hst') as [H1' H2']. split; [done|]. intros [?|[? ?]]%H2'; [by left|right; split; [lia|done]].
    + destruct (IH s g (Datatypes.S tid) n Hinv ltac:(lia) ltac:(lia) ltac:(lia))
        as (s' & g' & H' & Hi' & Ho' & Hpid & Hout & Hin).
      exists s', g'. split_and!; try done.
      * intros j Hj. apply Hout. lia.
      * intros j st' Hj Hst'. destruct (decide (j = tid)) as [->|Hne].
        -- rewrite Hout by lia. split; [done|congruence].
        -- destruct (Hin j st' ltac:(lia) Hst') as [H1' H2']. split; [done|].
           intros [?|[? ?]]%H2'; [by left|right; split; [lia|done]].
Qed.

(** *** Connections *)

Lemma position_Some {A} (f : A -> bool) l i : position f l = Some i ->
  (exists x, l !! i = Some x /\ f x = true) /\ forall j y, (j < i)%nat -> l !! j = Some y -> f y = false.
Proof.
  revert i. induction l as [|x l IH]; intros i; cbn; [done|]. destruct (f x) eqn:Ex.
  - intros [= <-]. split; [eauto|lia].
  - destruct (position f l) as [k|]; [|done]. intros [= <-]. destruct (IH k eq_refl) as [Hx Hlow]. split; [done|].
    intros [|j] y Hj; cbn; [by intros [= <-]|]. apply Hlow. lia.
Qed.

Lemma position_None {A} (f : A -> bool) l j y : position f l = None -> l !! j = Some y -> f y = false.
Proof.
  revert j. induction l as [|x l IH]; intros j; cbn; [done|]. destruct (f x) eqn:Ex; [done|].
  destruct (position f l); [done|]. intros _. destruct j; cbn; [by intros [= <-]|by apply IH].
Qed.

(** No two live connections to one server. *)
Definition conns_unique (l : list ConnectionSlot) : Prop :=
  forall i j s rc pm rc' pm', l !! i = Some (CS_Connected s rc pm) -> l !! j = Some (CS_Connected s rc' pm') -> i = j.

Lemma conns_unique_insert l i s rc pm :
  conns_unique l -> (forall j rc' pm', l !! j = Some (CS_Connected s rc' pm') -> j = i) ->
  conns_unique (<[i := CS_Connected s rc pm]> l).
Proof.
  intros Hu Hs j k s' rc1 pm1 rc2 pm2.
  rewrite !list_lookup_insert_Some. intros [(<- & [= <- <- <-] & _)|[Hne1 H1]] [(<- & H2 & _)|[Hne2 H2]].
  - done.
  - by destruct (Hs k _ _ H2).
  - injection H2 as <- <- <-. by eapply Hs.
  - by eapply Hu.
Qed.

(** ** Sequences of operations *)

Inductive proc_op :=
| PSetState (tid : nat) (state : ThreadState)
| PSetPriority (tid : nat) (priority : ThreadPriority)
| PPost (bits : Z)
| PTakeBits
| PTakeMasked (mask : Z)
| PWake (state : ThreadState) (n : Z)
| PTerminate
| PSetFuture (tid : nat) (f : KernelFuture)
| PTakeFuture (tid : nat)
| PSetMailbox (tid : nat) (r : XResult)
| PTakeMailbox (tid : nat)
| PSetHandler (e : SystemEvent) (sid : SID) (id : MessageId).

Definition run_proc (op : proc_op) : M PS unit :=
  match op with
  | PSetState tid st => set_thread_state tid st
  | PSetPriority tid pr => set_thread_priority tid pr
  | PPost bits => _ <- post_notification_bits bits ;; ret tt
  | PTakeBits => _ <- take_notification_bits ;; ret tt
  | PTakeMasked mask => _ <- take_notification_bits_masked mask ;; ret tt
  | PWake st n => wake_threads_with_state st n
  | PTerminate => terminate_threads
  | PSetFuture tid f => set_kernel_future tid f
  | PTakeFuture tid => _ <- take_kernel_future tid ;; ret tt
  | PSetMailbox tid r => set_mailbox tid r
  | PTakeMailbox tid => _ <- take_mailbox tid ;; ret tt
  | PSetHandler e sid id => _ <- set_event_handler e sid id ;; ret tt
  end.

(** Thread ids are those of user threads, and counts are unsigned. *)
Definition proc_op_ok (op : proc_op) : Prop :=
  match op with
  | PSetState tid _ | PSetPriority tid _ => valid_tid tid
  | PWake _ n => 0 <= n
  | _ => True
  end.

Fixpoint run_procs (ops : list proc_op) : M PS unit :=
  match ops with [] => ret tt | op :: ops => _ <- run_proc op ;; run_procs ops end.

(** An operation that runs, keeps the invariant and leaves other processes alone. *)
Definition safe_run (op : M PS unit) (s : PS) (g : G) : Prop :=
  exists s' g', op s = Some (tt, s') /\ ps_inv s' g' /\ p_pid (ps_proc s') = p_pid (ps_proc s) /\
    same_others (p_pid (ps_proc s)) g g'.

Lemma safe_update s g f :
  ps_inv s g -> p_pid (f (ps_proc s)) = p_pid (ps_proc s) -> ps_inv (mkPS (f (ps_proc s)) (ps_sched s)) g ->
  safe_run (update f) s g.
Proof. intros Hinv Hp Hi. eexists _, g. split; [reflexivity|]. split_and!; done. Qed.

Lemma post_safe s g bits : ps_inv s g -> safe_run (_ <- post_notification_bits bits ;; ret tt) s g.
Proof.
  intros Hinv. unfold post_notification_bits.
  set (s1 := mkPS (set_bits (Z.lor (notification_bits (ps_proc s)) bits) (ps_proc s)) (ps_sched s)).
  assert (Hi1 : ps_inv s1 g) by (subst s1; solve_update).
  destruct (post_loop_run s1 g 1 (NUM_THREADS - 1) Hi1) as (r & s' & g' & Hrun & Hi & Ho & Hr); [lia|unfold NUM_THREADS; lia|].
  exists s', g'. unfold bind, update, modify. fold s1. rewrite Hrun. split_and!; try done.
  destruct r as [[k fired]|]; [destruct Hr as (m & _ & _ & _ & _ & _ & ->); done|by destruct Hr as [-> _]].
Qed.

Lemma wake_safe s g state n : ps_inv s g -> 0 <= n -> safe_run (wake_threads_with_state state n) s g.
Proof.
  intros Hinv Hn. unfold wake_threads_with_state, safe_run. destruct (Z.eqb_spec n 0) as [->|]; [by exists s, g|].
  destruct (wake_loop_run state s g 1 (NUM_THREADS - 2) n Hinv) as (s' & g' & ? & ? & ? & ? & _);
    [lia|unfold NUM_THREADS; lia|lia|]. by exists s', g'.
Qed.

Lemma run_proc_safe s g op : ps_inv s g -> proc_op_ok op -> safe_run (run_proc op) s g.
Proof.
  intros Hinv Hok. destruct op as [tid st|tid pr|bits| |mask|st n| |tid f|tid|tid r|tid|e sid id]; cbn [run_proc proc_op_ok] in *.
  - destruct (set_thread_state_run s g tid st Hinv Hok) as (s' & g' & ? & ? & Hp & ?). exists s', g'.
    split_and!; try done. by rewrite Hp.
  - destruct (set_thread_priority_run s g tid pr Hinv Hok) as (s' & g' & ? & ? & Hp & ?). exists s', g'.
    split_and!; try done. by rewrite Hp.
  - by apply post_safe.
  - apply (safe_update s g (set_bits 0) Hinv eq_refl). solve_update.
  - apply (safe_update s g (fun p => set_bits (Z.ldiff (notification_bits p) mask) p) Hinv eq_refl). solve_update.
  - by apply wake_safe.
  - destruct (free_threads_run s g 1 (NUM_THREADS - 1) Hinv) as (s' & g' & ? & ? & ? & ? & _);
      [lia|unfold NUM_THREADS; lia|]. by exists s', g'.
  - unfold set_kernel_future. destruct (_ <? _)%nat; [|by exists s, g]. apply safe_update; [done..|]. solve_update.
  - unfold take_kernel_future. destruct (Nat.ltb_spec tid NUM_THREADS) as [Hl|]; [|by exists s, g].
    destruct (lookup_lt_is_Some_2 (kernel_futures (ps_proc s)) tid) as [o Ho];
      [by rewrite (wf_futures _ (pi_wf _ _ Hinv))|]. unfold safe_run, bind, gets. rewrite Ho.
    eexists _, g. split; [reflexivity|]. split_and!; try done. cbn. solve_update.
  - unfold set_mailbox. destruct (_ <? _)%nat; [|by exists s, g]. apply safe_update; [done..|]. solve_update.
  - unfold take_mailbox. destruct (Nat.ltb_spec tid NUM_THREADS) as [Hl|]; [|by exists s, g].
    destruct (lookup_lt_is_Some_2 (result_mailbox (ps_proc s)) tid) as [o Ho];
      [by rewrite (wf_mailbox _ (pi_wf _ _ Hinv))|]. unfold safe_run, bind, gets. rewrite Ho.
    eexists _, g. split; [reflexivity|]. split_and!; try done. cbn. solve_update.
  - unfold set_event_handler.
    destruct (lookup_lt_is_Some_2 (event_handlers (ps_proc s)) (Z.to_nat (SystemEvent_as_usize e))) as [o Ho];
      [rewrite (wf_handlers _ (pi_wf _ _ Hinv)); destruct e; cbn; unfold NUM_SYSTEM_EVENTS; lia|].
    unfold safe_run, bind, gets. rewrite Ho. destruct o; [by exists s, g|].
    eexists _, g. split; [reflexivity|]. split_and!; try done. cbn. solve_update.
Qed.

(** ** Properties *)

(** The ready queues follow the thread states: whatever sequence of state and
    priority changes, notifications, wake-ups and terminations a process goes
    through, no call into the scheduler panics, a thread is queued, in the queue
    of its priority and in no other, exactly while its state is [Ready], and
    the threads of other processes stay where they are. *)
Theorem ready_queue_follows_states s g ops :
  ps_inv s g -> Forall proc_op_ok ops ->
  exists s' g', run_procs ops s = Some (tt, s') /\ rq_rel (ps_sched s') g' /\
    (forall (tid : nat) pr, valid_tid tid ->
       rq_in g' pr (p_pid (ps_proc s), Z.of_nat tid) <->
       threads (ps_proc s') !! tid = Some TS_Ready /\ thread_priorities (ps_proc s') !! tid = Some pr) /\
    same_others (p_pid (ps_proc s)) g g'.
Proof.
  intros Hinv Hops. revert s g Hinv. induction Hops as [|op ops Hop _ IH]; intros s g Hinv; cbn [run_procs].
  - exists s, g. split_and!; [done|apply Hinv| |done]. intros tid pr Ht.
    destruct (thread_lookup s g tid Hinv Ht) as (st & pr' & Hst & Hpr). rewrite Hst, Hpr.
    rewrite (pi_agrees _ _ Hinv tid st pr' pr (proj1 Ht) Hst Hpr). naive_solver.
  - destruct (run_proc_safe s g op Hinv Hop) as (s1 & g1 & H1 & Hi1 & Hp1 & Ho1).
    destruct (IH s1 g1 Hi1) as (s' & g' & H' & Hrel & Hq & Ho). rewrite Hp1 in *. exists s', g'.
    unfold bind. rewrite H1. split_and!; [done|done|done|by eapply same_others_trans].
Qed.

(** Posting notification bits: no bit is lost or invented; the lowest waiting
    thread whose mask meets the pending bits is made ready and gets exactly
    those bits, which are no longer pending; [None] is answered only when no
    waiting thread's mask meets them. *)
Theorem post_notification_exact s g bits :
  ps_inv s g ->
  let pending := Z.lor (notification_bits (ps_proc s)) bits in
  exists r s', post_notification_bits bits s = Some (r, s') /\
  match r with
  | Some (tid, fired) => exists mask, valid_tid tid /\ waits (ps_proc s) tid mask /\
      fired = Z.land pending mask /\ fired <> 0 /\
      (forall j m, (1 <= j < tid)%nat -> waits (ps_proc s) j m -> Z.land pending m = 0) /\
      threads (ps_proc s') = <[tid := TS_Ready]> (threads (ps_proc s)) /\
      Z.lor (notification_bits (ps_proc s')) fired = pending /\ Z.land (notification_bits (ps_proc s')) fired = 0
  | None => threads (ps_proc s') = threads (ps_proc s) /\ notification_bits (ps_proc s') = pending /\
      forall tid m, valid_tid tid -> waits (ps_proc s) tid m -> Z.land pending m = 0
  end.
Proof.
  intros Hinv pending. unfold post_notification_bits.
  set (s1 := mkPS (set_bits pending (ps_proc s)) (ps_sched s)).
  assert (Hi1 : ps_inv s1 g) by (subst s1; solve_update).
  destruct (post_loop_run s1 g 1 (NUM_THREADS - 1) Hi1) as (r & s' & g' & Hrun & _ & _ & Hr); [lia|unfold NUM_THREADS; lia|].
  exists r, s'. unfold bind, update, modify. fold pending. fold s1. rewrite Hrun. split; [done|].
  unfold valid_tid in *. destruct r as [[k fired]|].
  - destruct Hr as (mask & Hk & Hw & Hf & Hne & Hlow & Hp). cbn in Hf, Hlow, Hp. exists mask.
    split_and!; try done; [lia|unfold NUM_THREADS in *; lia|by rewrite Hp| |]; rewrite Hp; cbn; rewrite Hf.
    + rewrite Z.lor_comm. apply Z.bits_inj'. intros n Hn. rewrite Z.lor_spec, Z.ldiff_spec, Z.land_spec.
      destruct (Z.testbit pending n), (Z.testbit mask n); done.
    + apply Z.bits_inj'. intros n Hn. rewrite Z.land_spec, Z.ldiff_spec, Z.land_spec, Z.bits_0.
      destruct (Z.testbit pending n), (Z.testbit mask n); done.
  - destruct Hr as [-> Hall]. split_and!; [done..|]. intros tid m Ht. apply Hall. unfold NUM_THREADS in *. lia.
Qed.

(** No thread waits for a bit that is pending. *)
Definition quiet (p : Process) : Prop :=
  forall tid m, valid_tid tid -> waits p tid m -> Z.land (notification_bits p) m = 0.

(** No lost wake-up: if no thread waits for a pending bit, this still holds
    after one more bit has been posted. *)
Theorem no_lost_wakeup s g k :
  ps_inv s g -> quiet (ps_proc s) -> 0 <= k ->
  exists r s', post_notification_bits (2 ^ k) s = Some (r, s') /\ quiet (ps_proc s').
Proof.
  intros Hinv Hq Hk. unfold post_notification_bits.
  set (bits0 := notification_bits (ps_proc s)) in *.
  set (s1 := mkPS (set_bits (Z.lor bits0 (2 ^ k)) (ps_proc s)) (ps_sched s)).
  assert (Hi1 : ps_inv s1 g) by (subst s1; solve_update).
  destruct (post_loop_run s1 g 1 (NUM_THREADS - 1) Hi1) as (r & s' & g' & Hrun & _ & _ & Hr); [lia|unfold NUM_THREADS; lia|].
  exists r, s'. unfold bind, update, modify. fold bits0. fold s1. rewrite Hrun. split; [done|].
  destruct r as [[t fired]|].
  - destruct Hr as (mask & Ht & Hw & Hf & Hne & _ & Hp). unfold waits in Hw.
    cbn [s1 ps_proc notification_bits threads set_bits] in Hf, Hp, Hw.
    intros tid m Hv Hwt. unfold waits in Hwt. rewrite Hp in Hwt |- *. cbn [threads notification_bits set_bits set_threads] in Hwt |- *.
    destruct (decide (tid = t)) as [->|Hnt].
    { rewrite list_lookup_insert_eq in Hwt by (eapply lookup_lt_Some; exact Hw). done. }
    rewrite list_lookup_insert_ne in Hwt by done. pose proof (Hq tid m Hv Hwt) as H0.
    assert (Hm : Z.land bits0 mask = 0) by (apply (Hq t); [unfold valid_tid, NUM_THREADS in *; lia|exact Hw]).
    rewrite Z.land_lor_distr_l, Hm, Z.lor_0_l in Hf.
    assert (Hfk : fired = 2 ^ k).
    { rewrite Hf. apply Z.bits_inj'. intros n Hn. rewrite Z.land_spec. destruct (Z.eq_dec k n) as [->|Hkn].
      - rewrite Z.pow2_bits_true by done. destruct (Z.testbit mask n) eqn:Em; [done|]. exfalso. apply Hne. rewrite Hf.
        apply Z.bits_inj'. intros j Hj. rewrite Z.land_spec, Z.bits_0. destruct (Z.eq_dec n j) as [->|].
        + by rewrite Em, andb_false_r.
        + by rewrite Z.pow2_bits_false by done.
      - by rewrite Z.pow2_bits_false by done. }
    rewrite Hfk. apply Z.bits_inj'. intros n Hn.
    pose proof (f_equal (fun z => Z.testbit z n) H0) as Hb. cbn in Hb. rewrite Z.land_spec, Z.bits_0 in *.
    rewrite Z.ldiff_spec, Z.lor_spec. destruct (Z.testbit (2 ^ k) n); [by rewrite andb_false_r|].
    by rewrite orb_false_r, andb_true_r.
  - destruct Hr as [-> Hall]. intros tid m Hv Hw. apply (Hall tid); [unfold valid_tid, NUM_THREADS in *; lia|exact Hw].
Qed.

(** [wake_threads_with_state] with the count [usize::MAX] makes ready all the
    threads 1 to 30 in that state and no other thread; thread 31 is never woken,
    whatever the count. *)
Theorem wake_misses_last_thread s g state n :
  ps_inv s g -> 1 <= n ->
  exists s', wake_threads_with_state state n s = Some (tt, s') /\
    threads (ps_proc s') !! 31%nat = threads (ps_proc s) !! 31%nat /\
    forall j st, (1 <= j <= 30)%nat -> threads (ps_proc s) !! j = Some st ->
      (st <> state -> threads (ps_proc s') !! j = Some st) /\
      (st = state -> 30 <= n -> threads (ps_proc s') !! j = Some TS_Ready).
Proof.
  intros Hinv Hn. unfold wake_threads_with_state. destruct (Z.eqb_spec n 0) as [->|_]; [lia|].
  destruct (wake_loop_run state s g 1 (NUM_THREADS - 2) n Hinv) as (s' & g' & Hrun & _ & _ & _ & Hout & Hin);
    [lia|unfold NUM_THREADS; lia|lia|]. change (NUM_THREADS - 2)%nat with 30%nat in *.
  exists s'. split_and!; [done|apply Hout; lia|].
  intros j st Hj Hst. destruct (Hin j st ltac:(lia) Hst) as [H1 H2]. split; [done|].
  intros Es Hle. destruct (H2 Es) as [?|[? _]]; [done|lia].
Qed.

(** Opening connections: [add_connection] answers the identifier of a slot
    connected to the server, counts a further reference when there was one and
    takes the lowest free slot otherwise; the other slots are unchanged and no
    server gets two slots.  It fails only when all slots are taken. *)
Theorem add_connection_exact s sidx pm r s' :
  conns_unique (connection_map (ps_proc s)) -> add_connection sidx pm s = Some (r, s') ->
  let l := connection_map (ps_proc s) in
  let l' := connection_map (ps_proc s') in
  match r with
  | Ok cid => exists i rc pm', cid = cid_of i /\ connection cid s' = Some (Ok (CS_Connected (u8 sidx) rc pm'), s') /\
      (forall j, j <> i -> l' !! j = l !! j) /\ conns_unique l' /\
      (l !! i = Some (CS_Connected (u8 sidx) (rc - 1) pm') \/
       (rc = 1 /\ pm' = pm /\ l !! i = Some CS_Free /\ forall j c, l !! j = Some c -> connected_to sidx c = false))
  | Err e => e = OutOfMemory /\ s' = s /\
      forall j c, l !! j = Some c -> connected_to sidx c = false /\ c <> CS_Free
  end.
Proof.
  intros Hu Hrun l l'. subst l l'. unfold add_connection, bind at 1, gets in Hrun.
  set (l := connection_map (ps_proc s)) in *.
  assert (Hconn : forall i q c (st : PS), connection_map (ps_proc st) = <[i := c]> q -> (i < length q)%nat ->
            connection (cid_of i) st = Some (Ok c, st)).
  { intros i q c st Hm Hi. unfold connection, cid_of, bind, gets. rewrite (proj2 (Z.ltb_ge _ _)) by lia.
    rewrite Hm. replace (Z.to_nat (Z.of_nat i + 2 - 2)) with i by lia. rewrite list_lookup_insert_eq by done. done. }
  destruct (position (connected_to sidx) l) as [i|] eqn:Ep.
  - destruct (position_Some _ _ _ Ep) as [(c & Hc & Hct) _]. rewrite Hc in Hrun.
    destruct c as [|rc|si rc pm']; [done|done|]. cbn in Hct. apply Z.eqb_eq in Hct as ->.
    apply run_bind in Hrun as ([] & s0 & [_ [= ->]]%assertb_Some & Hrun).
    injection Hrun as <- <-. exists i, (rc + 1), pm'. split; [done|].
    assert (Hi : (i < length l)%nat) by (by eapply lookup_lt_Some). split; [by apply (Hconn i l)|]. cbn.
    split_and!.
    + intros j Hj. by apply list_lookup_insert_ne.
    + apply conns_unique_insert; [done|]. intros j rc' pm1 Hj. by eapply Hu.
    + left. by replace (rc + 1 - 1) with rc by lia.
  - assert (Hno : forall j c, l !! j = Some c -> connected_to sidx c = false) by (intros j c; by apply position_None).
    destruct (position is_free l) as [i|] eqn:Ef.
    + destruct (position_Some _ _ _ Ef) as [(c & Hc & Hfc) _]. destruct c; [|done..].
      injection Hrun as <- <-. exists i, 1, pm. split; [done|].
      assert (Hi : (i < length l)%nat) by (by eapply lookup_lt_Some). split; [by apply (Hconn i l)|]. cbn.
      split_and!.
      * intros j Hj. by apply list_lookup_insert_ne.
      * apply conns_unique_insert; [done|]. intros j rc' pm1 Hj%Hno. cbn in Hj. by rewrite Z.eqb_refl in Hj.
      * by right.
    + injection Hrun as <- <-. split_and!; [done..|]. intros j c Hj. split; [by eapply Hno|].
      intros ->. by apply (position_None _ _ _ _ Ef) in Hj.
Qed.

(** A dead server is disconnected: after [tombstone_connection_by_sidx] no slot
    is connected to it; its slot, if there was one, is a tombstone with the same
    reference count, so the identifier is not reused, and other slots are kept. *)
Theorem tombstone_exact s sidx :
  conns_unique (connection_map (ps_proc s)) ->
  exists r s', tombstone_connection_by_sidx sidx s = Some (r, s') /\
  let l := connection_map (ps_proc s) in
  let l' := connection_map (ps_proc s') in
  (forall j c, l' !! j = Some c -> connected_to sidx c = false) /\ conns_unique l' /\
  match r with
  | Some cid => exists i rc pm, cid = cid_of i /\ l !! i = Some (CS_Connected (u8 sidx) rc pm) /\
      l' !! i = Some (CS_Tombstone rc) /\ forall j, j <> i -> l' !! j = l !! j
  | None => l' = l
  end.
Proof.
  intros Hu. unfold tombstone_connection_by_sidx, bind, gets. set (l := connection_map (ps_proc s)) in *.
  destruct (position (connected_to sidx) l) as [i|] eqn:Ep.
  - destruct (position_Some _ _ _ Ep) as [(c & Hc & Hct) _]. destruct c as [|rc|si rc pm]; [done|done|].
    cbn in Hct. apply Z.eqb_eq in Hct as ->. eexists _, _. split; [reflexivity|]. cbn.
    assert (Hi : alter (fun c => match c with CS_Connected _ rc _ => CS_Tombstone rc | _ => c end) i l !! i =
                 Some (CS_Tombstone rc)) by (by rewrite list_lookup_alter_eq, Hc).
    assert (Hn : forall j, j <> i -> alter (fun c => match c with CS_Connected _ rc _ => CS_Tombstone rc | _ => c end) i l !! j = l !! j)
      by (intros j Hj; by apply list_lookup_alter_ne).
    split_and!.
    + intros j c Hj. destruct (decide (j = i)) as [->|Hne]; [rewrite Hi in Hj; by injection Hj as <-|].
      rewrite Hn in Hj by done. destruct c as [| |s1 rc1 pm1]; [done|done|]. cbn. apply Z.eqb_neq. intros ->.
      by destruct (Hu i j _ _ _ _ _ Hc Hj).
    + intros j k s1 rc1 pm1 rc2 pm2 Hj Hk. destruct (decide (j = i)) as [->|Hji]; [by rewrite Hi in Hj|].
      destruct (decide (k = i)) as [->|Hki]; [by rewrite Hi in Hk|]. rewrite Hn in Hj, Hk by done. by eapply Hu.
    + exists i, rc, pm. split_and!; done.
  - eexists _, _. split; [reflexivity|]. cbn. split_and!; [|done|done]. intros j c. by apply position_None.
Qed.

End WithScheduler.
(** ** The scheduler provides the interface *)

Lemma prio_index_inj p q : prio_index p = prio_index q -> p = q.
Proof. by destruct p, q. Qed.

Lemma prio_index_surj k : (k < NUM_PRIORITIES)%nat -> exists p, prio_index p = k.
Proof.
  unfold NUM_PRIORITIES. intros Hk. exists (ThreadPriority_from (Z.of_nat k)).
  by do 16 (destruct k as [|k]; [done|]); lia.
Qed.

Lemma a_queue_set a s pr q pr' : refines s a ->
  a_queue (a_set a (prio_index pr) q) (prio_index pr') = if decide (pr' = pr) then q else a_queue a (prio_index pr').
Proof.
  intros HR. unfold a_queue, a_set. cbn. destruct (decide (pr' = pr)) as [->|Hne].
  - rewrite list_lookup_insert_eq; [done|]. rewrite (rf_len _ _ HR). apply prio_index_lt.
  - rewrite list_lookup_insert_ne; [done|]. intros ?%prio_index_inj. congruence.
Qed.

(** A ready thread is in one queue only. *)
Lemma queue_unique s a t pr pr' : refines s a ->
  t ∈ a_queue a (prio_index pr) -> t ∈ a_queue a (prio_index pr') -> pr = pr'.
Proof.
  intros HR H1 H2. destruct (decide (pr = pr')) as [|Hne]; [done|]. exfalso.
  destruct (prio_split s a pr HR) as (l1 & l2 & E & Hl & _).
  pose proof (prio_lookup s a pr' HR) as Hl2. rewrite E in Hl2.
  pose proof (rf_nodup _ _ HR) as Hnd. unfold a_ready_threads in Hnd. rewrite E, concat_middle in Hnd.
  apply NoDup_app in Hnd as (_ & Hd1 & Hnd). apply NoDup_app in Hnd as (_ & Hd2 & _).
  apply lookup_app_Some in Hl2 as [Hl2|[Hge Hl2]].
  - apply (Hd1 t); [apply elem_of_concat; eexists; split; [by eapply list_elem_of_lookup_2|done]|].
    apply elem_of_app. by left.
  - destruct (prio_index pr' - length l1)%nat as [|k] eqn:Ek; cbn in Hl2.
    + assert (prio_index pr = prio_index pr') as ?%prio_index_inj by lia. done.
    + apply (Hd2 t); [done|]. apply elem_of_concat. eexists. split; [by eapply list_elem_of_lookup_2|done].
Qed.

Lemma queued_somewhere s a t : refines s a -> t ∈ a_ready_threads a -> exists pr, t ∈ a_queue a (prio_index pr).
Proof.
  intros HR (q & Hq & Ht)%elem_of_concat. apply list_elem_of_lookup in Hq as [k Hk].
  destruct (prio_index_surj k) as [pr <-]; [rewrite <- (rf_len _ _ HR); by eapply lookup_lt_Some|].
  exists pr. unfold a_queue. by rewrite Hk.
Qed.

#[export] Program Instance scheduler_queues : ReadyQueues Scheduler ASched := {|
  rq_ready := ready_thread;
  rq_park := Scheduler.park_thread;
  rq_yield := yield_thread;
  rq_head := p <- gets highest_ready_priority ;; Scheduler.queue_head p;
  rq_in_irq := in_irq_handler;
  rq_rel := refines;
  rq_in a pr t := t ∈ a_queue a (prio_index pr) |}.
Next Obligation.
  intros s a pid tid pr HR Hidx Hno.
  assert (Hn : (pid, tid) ∉ a_ready_threads a).
  { intros Hin. destruct (queued_somewhere s a _ HR Hin) as [pr' Hq]. by apply (Hno pr'). }
  destruct (ready_refines s a (pid, tid) pr HR Hidx Hn) as (s' & Hrun & HR').
  exists s', (a_ready (pid, tid) (prio_index pr) a). split_and!; [done..|].
  intros pr' t. unfold a_ready. rewrite (a_queue_set a s) by done. destruct (decide (pr' = pr)) as [->|]; [|naive_solver].
  rewrite elem_of_app, list_elem_of_singleton. naive_solver.
Qed.
Next Obligation.
  intros s a pid tid pr HR Hidx Hin.
  destruct (park_refines s a (pid, tid) pr HR Hidx Hin) as (s' & Hrun & HR').
  exists s', (a_park (pid, tid) (prio_index pr) a). split_and!; [done..|].
  intros pr' t. unfold a_park. rewrite (a_queue_set a s) by done. destruct (decide (pr' = pr)) as [->|Hne].
  - rewrite list_elem_of_filter. naive_solver.
  - split; [|naive_solver]. intros Ht. split; [done|]. intros ->. by destruct (queue_unique s a _ _ _ HR Hin Ht).
Qed.
Next Obligation.
  intros s a pid tid pr HR Hidx. destruct (yield_refines s a (pid, tid) pr HR Hidx) as (s' & Hrun & HR').
  exists s', (a_yield (pid, tid) (prio_index pr) a). split_and!; [done..|]. intros pr' t. unfold a_yield.
  case_bool_decide as Hh; [|done]. rewrite (a_queue_set a s) by done. destruct (decide (pr' = pr)) as [->|]; [|done].
  destruct (a_queue a (prio_index pr)) as [|x q]; [done|]. cbn [Scheduler.rotate]. rewrite elem_of_app, list_elem_of_singleton, elem_of_cons. tauto.
Qed.
Next Obligation.
  intros s pid tid pr s'. unfold yield_thread. intros (h & s1 & H1 & H)%run_bind. apply run_bind in H1 as (o & s2 & [= <- <-] & H1).
  apply expect_Some in H1 as (? & _ & [= _ ->]). case_bool_decide; [|by injection H as <-].
  apply run_bind in H as (l & s2 & H1 & H). unfold link_copy in H1. apply run_bind in H1 as (u & s3 & H2 & H1).
  apply assertb_Some in H2 as [_ [= _ ->]]. injection H1 as _ <-. apply run_bind in H as (l' & s2 & H1 & [= <-]).
  by apply expect_Some in H1 as (? & _ & [= _ ->]).
Qed.
Next Obligation.
  intros s a HR. destruct (highest_head s a HR) as (h & Hh & Hcase). exists h. unfold bind, gets.
  rewrite (queue_head_run _ h) by done. split; [done|]. destruct h as [t|].
  - destruct Hcase as [Hhd Hup]. pose proof (lookup_lt_Some _ _ _ Hh) as Hlt.
    rewrite (rf_heads _ _ HR), length_fmap, (rf_len _ _ HR) in Hlt. destruct (prio_index_surj _ Hlt) as [pr Hpr].
    exists pr. rewrite <- Hpr in *. split.
    + destruct (a_queue a (prio_index pr)); [done|]. injection Hhd as ->. by left.
    + intros pr' t' Hin. destruct (decide (prio_index pr' <= prio_index pr)%nat) as [|Hgt]; [done|].
      rewrite Hup in Hin by lia. by apply elem_of_nil in Hin.
  - intros pr t Hin. assert (Ha : t ∈ a_ready_threads a) by (by apply (queue_in s a pr)).
    rewrite Hcase in Ha. by apply elem_of_nil in Ha.
Qed.

(** ** Concrete runs *)

Definition ps0 : PS (S := Scheduler) := mkPS (Process_new 3 1 []) scheduler_init.

Lemma init_empty pr t : ~ t ∈ a_queue a_init (prio_index pr).
Proof.
  unfold a_queue, a_init. cbn [a_queues]. rewrite lookup_replicate_2 by apply prio_index_lt. by intros ?%elem_of_nil.
Qed.

Lemma ps0_inv : ps_inv ps0 a_init.
Proof.
  split; [by split|apply refines_init| |intros pr tid Hin; by destruct (init_empty _ _ Hin)]. intros tid st pr pr' _ Hst Hpr.
  apply (lookup_replicate_1 NUM_THREADS) in Hst as [-> _]. split; [|by intros [? _]].
  intros Hin. by destruct (init_empty _ _ Hin).
Qed.

Definition demo_proc_ops : list proc_op :=
  [PSetState 1 TS_Ready; PSetState 2 (TS_WaitEvent 1); PSetPriority 1 System0; PPost 1; PWake TS_Ready 5;
   PSetState 1 (TS_WaitEvent 2); PSetState 31 (TS_RetryQueueFull 4)].

Lemma ready_queue_follows_states_witness :
  exists s' g', run_procs demo_proc_ops ps0 = Some (tt, s') /\ refines (ps_sched s') g' /\
    ((3, 2) ∈ a_queue g' (prio_index AppDefault) <->
     threads (ps_proc s') !! 2%nat = Some TS_Ready /\ thread_priorities (ps_proc s') !! 2%nat = Some AppDefault).
Proof.
  destruct (ready_queue_follows_states ps0 a_init demo_proc_ops ps0_inv) as (s' & g' & Hrun & Hrel & Hq & _).
  - unfold demo_proc_ops, proc_op_ok, valid_tid, NUM_THREADS. repeat constructor; lia.
  - exists s', g'. split; [exact Hrun|]. split; [exact Hrel|].
    apply (Hq 2%nat AppDefault). unfold valid_tid, NUM_THREADS. lia.
Defined.

(** Two threads waiting for different bits. *)
Definition two_waiters : list proc_op := [PSetState 1 (TS_WaitEvent 1); PSetState 2 (TS_WaitEvent 2)].
Definition ps1 : PS (S := Scheduler) :=
  match run_procs two_waiters ps0 with Some (_, s) => s | None => ps0 end.

Lemma ps1_inv : ps_inv ps1 a_init.
Proof.
  split; [by split|apply refines_init| |intros pr tid Hin; by destruct (init_empty _ _ Hin)]. intros tid st pr pr' Ht Hst Hpr.
  split; [intros Hin; by destruct (init_empty _ _ Hin)|]. intros [-> _]. exfalso. change (threads (ps_proc ps1)) with
    (TS_Free :: TS_WaitEvent 1 :: TS_WaitEvent 2 :: replicate 29 TS_Free) in Hst.
  destruct tid as [|[|[|tid]]]; [done|done|done|]. cbn in Hst. by apply (lookup_replicate_1 29) in Hst as [? _].
Qed.

Lemma post_notification_exact_witness :
  exists r s', post_notification_bits 2 ps1 = Some (r, s').
Proof.
  destruct (post_notification_exact ps1 a_init 2 ps1_inv) as (r & s' & Hrun & _). exact (ex_intro _ r (ex_intro _ s' Hrun)).
Defined.

Lemma no_lost_wakeup_witness :
  exists r s', post_notification_bits (2 ^ 1) ps1 = Some (r, s') /\ quiet (ps_proc s').
Proof.
  apply (no_lost_wakeup ps1 a_init 1 ps1_inv); [|lia]. intros tid m _ _. reflexivity.
Defined.

(** Posting two bits at once wakes only the first of the two threads that wait
    for one of them: the second stays blocked on a bit that is pending. *)
Theorem post_strands_second_waiter : exists s',
  post_notification_bits 3 ps1 = Some (Some (1%nat, 1), s') /\
  waits (ps_proc s') 2 2 /\ Z.land (notification_bits (ps_proc s')) 2 = 2.
Proof. eexists. split; [by vm_compute|]. by split. Qed.

Lemma wake_misses_last_thread_witness :
  exists s', wake_threads_with_state (TS_WaitEvent 2) 5 ps1 = Some (tt, s').
Proof.
  destruct (wake_misses_last_thread ps1 a_init (TS_WaitEvent 2) 5 ps1_inv) as (s' & Hrun & _); [lia|].
  exact (ex_intro _ s' Hrun).
Defined.

Definition ps2 : PS (S := Scheduler) :=
  match add_connection 9 MessagePermissions_default ps0 with Some (_, s) => s | None => ps0 end.

Lemma ps0_unique : conns_unique (connection_map (ps_proc ps0)).
Proof. intros i j s rc pm rc' pm' Hi. by apply (lookup_replicate_1 32) in Hi as [? _]. Qed.

Lemma ps2_unique : conns_unique (connection_map (ps_proc ps2)).
Proof.
  apply (conns_unique_insert (connection_map (ps_proc ps0)) 0 9 1 MessagePermissions_default ps0_unique).
  intros j rc pm Hj. by apply (lookup_replicate_1 32) in Hj as [? _].
Qed.

Lemma add_connection_exact_witness : connection 2 ps2 = Some (Ok (CS_Connected 9 1 MessagePermissions_default), ps2).
Proof.
  destruct (add_connection_exact ps0 9 MessagePermissions_default (Ok 2) ps2 ps0_unique eq_refl)
    as (i & rc & pm & Hi & Hc & _ & _ & Hcase).
  destruct Hcase as [Hbad|(-> & -> & _)]; [by apply (lookup_replicate_1 32) in Hbad as [? _]|exact Hc].
Defined.

Lemma tombstone_exact_witness :
  exists r s', tombstone_connection_by_sidx 9 ps2 = Some (r, s') /\
    forall j c, connection_map (ps_proc s') !! j = Some c -> connected_to 9 c = false.
Proof.
  destruct (tombstone_exact ps2 9 ps2_unique) as (r & s' & Hrun & Hno & _). exists r, s'. split; [exact Hrun|exact Hno].
Defined.
