(* ===== verification/ArchProcess.v ===== *)
(** * AArch64 register contexts

    Models [xous/kernel/src/arch/aarch64/process.rs] and
    [arch/aarch64/syscall.rs]: the saved registers of every thread, the table
    of process contexts indexed by [pid - 1], the current PID, and the
    operations that allocate, free, switch, save and restore contexts and that
    write a system call's result into a thread's registers.

    A table access outside its bounds is a panic.  Thread identifiers start at
    1, so thread [tid] lives in slot [tid - 1].  [Process::create] (it loads an
    ELF image) is not part of this file. *)

From S2P Require Import Prelude Abi.
From Stdlib Require Import ZArith Lia Bool.
From stdpp Require Import list.
Open Scope Z_scope.

Definition PROCESS_SLOTS : nat := 64.
Definition THREAD_SLOTS : nat := 32.
Definition INITIAL_TID : nat := 1.

(** ** A thread's context *)

Record Thread := mkThread {
  gpr : list Z; t_sp : Z; t_elr : Z; t_spsr : Z; tpidr : Z; fpcr : Z; fpsr : Z; t_pad : Z;
  vregs : list Z;
  allocated : bool;
  t_stack : option MemoryRange }.

Definition Thread_default : Thread :=
  mkThread (replicate 31 0) 0 0 0 0 0 0 0 (replicate 64 0) false None.

Definition with_gpr (g : list Z) (t : Thread) : Thread :=
  mkThread g (t_sp t) (t_elr t) (t_spsr t) (tpidr t) (fpcr t) (fpsr t) (t_pad t) (vregs t) (allocated t) (t_stack t).
Definition set_gpr (i : nat) (v : Z) (t : Thread) : Thread := with_gpr (<[i := v]> (gpr t)) t.
Definition set_pc (pc : Z) (t : Thread) : Thread :=
  mkThread (gpr t) (t_sp t) pc (t_spsr t) (tpidr t) (fpcr t) (fpsr t) (t_pad t) (vregs t) (allocated t) (t_stack t).
Definition set_sp (sp : Z) (t : Thread) : Thread :=
  mkThread (gpr t) sp (t_elr t) (t_spsr t) (tpidr t) (fpcr t) (fpsr t) (t_pad t) (vregs t) (allocated t) (t_stack t).
Definition set_spsr (v : Z) (t : Thread) : Thread :=
  mkThread (gpr t) (t_sp t) (t_elr t) v (tpidr t) (fpcr t) (fpsr t) (t_pad t) (vregs t) (allocated t) (t_stack t).
Definition set_allocated (b : bool) (t : Thread) : Thread :=
  mkThread (gpr t) (t_sp t) (t_elr t) (t_spsr t) (tpidr t) (fpcr t) (fpsr t) (t_pad t) (vregs t) b (t_stack t).

(** The registers of the call ABI, X0-X5, X8 and X9. *)
Definition ARG_REGS : list nat := [0; 1; 2; 3; 4; 5; 8; 9]%nat.

Definition get_args (t : Thread) : list Z := (fun i => nth i (gpr t) 0) <$> ARG_REGS.

(** [set_args]: the [k]-th argument goes to the [k]-th call register, as far
    as there are arguments. *)
Definition set_args (args : list Z) (t : Thread) : Thread :=
  fold_left (fun t kv => set_gpr kv.1 kv.2 t) (zip ARG_REGS args) t.

Definition processor_mode (t : Thread) : Z := Z.land (t_spsr t) 15.
Definition disable_interrupts (t : Thread) : Thread := set_spsr (Z.lor (t_spsr t) 960) t.

(** [arch::syscall::invoke] *)
Definition invoke (supervisor : bool) (pc sp ret_addr : Z) (args : list Z) (t : Thread) : Thread :=
  let t := set_args args (set_gpr 30 ret_addr (set_sp sp (set_pc pc t))) in
  if supervisor then set_spsr 965 t else set_spsr 0 t.

(** ** The table of processes *)

Record ProcessImpl := mkImpl { impl_threads : list Thread; current_thread : nat }.

Record Arch := mkArch { process_table : list (option ProcessImpl); cur_pid : PID }.

Definition arch_init : Arch := mkArch (replicate PROCESS_SLOTS None) 1.

Definition current_pid : M Arch PID := gets cur_pid.
Definition set_current_pid (pid : PID) : M Arch unit := modify (fun a => mkArch (process_table a) pid).

Definition table_index (pid : PID) : nat := Z.to_nat (pid - 1).

(** [PROCESS_TABLE[idx]], a panic outside the table *)
Definition table_get (pid : PID) : M Arch (option ProcessImpl) :=
  o <- gets (fun a => process_table a !! table_index pid) ;; expect o.
Definition table_set (pid : PID) (p : option ProcessImpl) : M Arch unit :=
  modify (fun a => mkArch (<[table_index pid := p]> (process_table a)) (cur_pid a)).

Definition set_thread (p : ProcessImpl) (slot : nat) (t : Thread) : ProcessImpl :=
  mkImpl (<[slot := t]> (impl_threads p)) (current_thread p).

(** [PROCESS_TABLE.get(idx)..unwrap_or(INITIAL_TID)]: the checked access *)
Definition current_tid (pid : PID) : M Arch nat :=
  gets (fun a => match process_table a !! table_index pid with
                 | Some (Some p) => current_thread p
                 | _ => INITIAL_TID
                 end).

Definition bad_tid (tid : nat) : bool := (tid =? 0)%nat || (THREAD_SLOTS <? tid)%nat.

Definition set_thread_arg0 (pid : PID) (value : Z) : M Arch unit :=
  o <- table_get pid ;;
  match o with
  | Some p =>
      t <- expect (impl_threads p !! (INITIAL_TID - 1)%nat) ;;
      table_set pid (Some (set_thread p (INITIAL_TID - 1) (set_gpr 0 value t)))
  | None => ret tt
  end.

Definition set_thread_args (pid : PID) (x0 x1 x2 : Z) : M Arch unit :=
  o <- table_get pid ;;
  match o with
  | Some p =>
      t <- expect (impl_threads p !! (INITIAL_TID - 1)%nat) ;;
      table_set pid (Some (set_thread p (INITIAL_TID - 1) (set_gpr 2 x2 (set_gpr 1 x1 (set_gpr 0 x0 t)))))
  | None => ret tt
  end.

Definition set_thread_result (pid : PID) (tid : nat) (result : XResult) : M Arch unit :=
  if bad_tid tid then ret tt
  else
    o <- table_get pid ;;
    match o with
    | Some p =>
        t <- expect (impl_threads p !! (tid - 1)%nat) ;;
        table_set pid (Some (set_thread p (tid - 1) (set_args (XResult_to_args result) t)))
    | None => ret tt
    end.

Definition retry_swi_instruction (pid : PID) (tid : nat) : M Arch (res unit Error) :=
  _ <- set_thread_result pid tid R_RetryCall ;; ret (Ok tt).

Definition initial_sp (stack : option MemoryRange) : M Arch Z :=
  match stack with
  | Some s => _ <- assertb (fits 64 (range_addr s + range_size s)) ;; ret (range_addr s + range_size s)
  | None => ret 0
  end.

Definition setup_thread (pid : PID) (thread : nat) (setup : ThreadInit) : M Arch (res unit Error) :=
  if bad_tid thread then ret (Err ThreadNotAvailable)
  else
    o <- table_get pid ;;
    match o with
    | Some p =>
        t <- expect (impl_threads p !! (thread - 1)%nat) ;;
        if allocated t then ret (Err ThreadNotAvailable)
        else
          sp <- initial_sp (ti_stack setup) ;;
          let t := set_sp sp (set_pc (ti_call setup) (set_allocated true Thread_default)) in
          let t := set_gpr 3 (ti_arg4 setup) (set_gpr 2 (ti_arg3 setup)
                     (set_gpr 1 (ti_arg2 setup) (set_gpr 0 (ti_arg1 setup) t))) in
          _ <- table_set pid (Some (set_thread p (thread - 1) (set_spsr 0 t))) ;;
          ret (Ok tt)
    | None => ret (Err ProcessNotFound)
    end.

Definition set_tid (pid : PID) (thread : nat) : M Arch (res unit Error) :=
  if bad_tid thread then ret (Err ThreadNotAvailable)
  else
    o <- table_get pid ;;
    match o with
    | Some p =>
        t <- expect (impl_threads p !! (thread - 1)%nat) ;;
        if negb (allocated t) then ret (Err ThreadNotAvailable)
        else _ <- table_set pid (Some (mkImpl (impl_threads p) thread)) ;; ret (Ok tt)
    | None => ret (Err ProcessNotFound)
    end.

(** [threads.iter().enumerate().find_map(..)] *)
Fixpoint first_free (i : nat) (l : list Thread) : option nat :=
  match l with
  | [] => None
  | t :: l => if negb (allocated t) then Some (i + 1)%nat else first_free (S i) l
  end.

Definition find_free_thread (pid : PID) : M Arch (option nat) :=
  o <- table_get pid ;;
  ret (match o with Some p => first_free 0 (impl_threads p) | None => None end).

Definition thread_exists (pid : PID) (tid : nat) : M Arch bool :=
  if bad_tid tid then ret false
  else
    o <- table_get pid ;;
    match o with
    | Some p => t <- expect (impl_threads p !! (tid - 1)%nat) ;; ret (allocated t)
    | None => ret false
    end.

Definition destroy (pid : PID) : M Arch (res unit Error) :=
  _ <- table_get pid ;; _ <- table_set pid None ;; ret (Ok tt).

Definition crash_current_process : M Arch unit :=
  pid <- current_pid ;; _ <- table_get pid ;; table_set pid None.

Definition new_impl : ProcessImpl := mkImpl (replicate THREAD_SLOTS Thread_default) INITIAL_TID.

Definition setup_process (pid : PID) (entry_point : Z) (stack : MemoryRange) : M Arch (res unit Error) :=
  if (PROCESS_SLOTS <=? table_index pid)%nat then ret (Err OutOfMemory)
  else
    o <- table_get pid ;;
    let p := default new_impl o in
    t <- expect (impl_threads p !! (INITIAL_TID - 1)%nat) ;;
    sp <- initial_sp (Some stack) ;;
    let t := set_spsr 0 (set_sp sp (set_pc entry_point (set_allocated true t))) in
    _ <- table_set pid (Some (set_thread p (INITIAL_TID - 1) t)) ;;
    ret (Ok tt).

Definition run_irq_handler (pid : PID) (pc irq_no arg : Z) : M Arch unit :=
  o <- table_get pid ;;
  match o with
  | Some p =>
      t <- expect (impl_threads p !! 0%nat) ;;
      table_set pid (Some (set_thread p 0 (set_spsr 0 (set_gpr 1 arg (set_gpr 0 irq_no (set_pc pc t))))))
  | None => ret tt
  end.

Definition destroy_thread (pid : PID) (tid : nat) : M Arch (option (Z * option MemoryRange)) :=
  if bad_tid tid then ret None
  else
    o <- table_get pid ;;
    match o with
    | Some p =>
        t <- expect (impl_threads p !! (tid - 1)%nat) ;;
        if negb (allocated t) then ret None
        else
          _ <- table_set pid (Some (set_thread p (tid - 1) Thread_default)) ;;
          ret (Some (nth 0 (gpr t) 0, t_stack t))
    | None => ret None
    end.

(** ** Saving and restoring the exception frame

    A frame is the register part of a [Thread]: the first 102 words; the flag
    [allocated] and the stack range are not part of it. *)

Record Frame := mkFrame {
  f_gpr : list Z; f_sp : Z; f_elr : Z; f_spsr : Z; f_tpidr : Z; f_fpcr : Z; f_fpsr : Z; f_pad : Z; f_vregs : list Z }.

Definition frame_of (t : Thread) : Frame :=
  mkFrame (gpr t) (t_sp t) (t_elr t) (t_spsr t) (tpidr t) (fpcr t) (fpsr t) (t_pad t) (vregs t).
Definition restore_frame (f : Frame) (t : Thread) : Thread :=
  mkThread (f_gpr f) (f_sp f) (f_elr f) (f_spsr f) (f_tpidr f) (f_fpcr f) (f_fpsr f) (f_pad f) (f_vregs f)
    (allocated t) (t_stack t).

Definition save_context_to_table (pid : PID) (tid : nat) (frame : Frame) : M Arch unit :=
  o <- table_get pid ;;
  match o with
  | Some p =>
      t <- expect (impl_threads p !! (tid - 1)%nat) ;;
      table_set pid (Some (set_thread p (tid - 1) (restore_frame frame t)))
  | None => ret tt
  end.

Definition load_context_from_table (pid : PID) (tid : nat) (frame : Frame) : M Arch Frame :=
  o <- table_get pid ;;
  match o with
  | Some p => t <- expect (impl_threads p !! (tid - 1)%nat) ;; ret (frame_of t)
  | None => ret frame
  end.

(** ** Well-formed tables *)

Definition thread_wf (t : Thread) : Prop := length (gpr t) = 31%nat.
Definition impl_wf (p : ProcessImpl) : Prop :=
  length (impl_threads p) = THREAD_SLOTS /\ Forall thread_wf (impl_threads p) /\ (1 <= current_thread p < THREAD_SLOTS)%nat.
Record arch_wf (a : Arch) : Prop := {
  aw_len : length (process_table a) = PROCESS_SLOTS;
  aw_impl : forall i p, process_table a !! i = Some (Some p) -> impl_wf p }.

(** The context of thread [tid] of process [pid], where there is one. *)
Definition thread_of (a : Arch) (pid : PID) (tid : nat) : option Thread :=
  match process_table a !! table_index pid with
  | Some (Some p) => impl_threads p !! (tid - 1)%nat
  | _ => None
  end.

Definition process_of (a : Arch) (pid : PID) : option ProcessImpl :=
  match process_table a !! table_index pid with Some (Some p) => Some p | _ => None end.

Definition slot_ok (tid : nat) : Prop := (1 <= tid <= THREAD_SLOTS)%nat.

(** All contexts but that of [(pid, tid)] are those of [a]. *)
Definition others_kept (pid : PID) (tid : nat) (a a' : Arch) : Prop :=
  cur_pid a' = cur_pid a /\
  forall q k, 1 <= q -> (1 <= k)%nat -> (q, k) <> (pid, tid) -> thread_of a' q k = thread_of a q k.

Lemma bad_tid_ok tid : slot_ok tid -> bad_tid tid = false.
Proof.
  unfold slot_ok, bad_tid. intros [H1 H2]. apply orb_false_iff. split.
  - by apply Nat.eqb_neq; lia.
  - by apply Nat.ltb_ge; lia.
Qed.

Lemma bad_tid_cases tid : bad_tid tid = false -> slot_ok tid.
Proof.
  unfold slot_ok, bad_tid. intros [H1 H2]%orb_false_iff.
  apply Nat.eqb_neq in H1. apply Nat.ltb_ge in H2. lia.
Qed.

Lemma table_index_inj p q : 1 <= p -> 1 <= q -> table_index p = table_index q -> p = q.
Proof. unfold table_index. lia. Qed.

Lemma process_of_lookup a pid p :
  process_of a pid = Some p <-> process_table a !! table_index pid = Some (Some p).
Proof.
  unfold process_of. destruct (process_table a !! table_index pid) as [[q|]|]; naive_solver.
Qed.

Lemma table_get_run a pid p : process_of a pid = Some p -> table_get pid a = Some (Some p, a).
Proof. intros H%process_of_lookup. unfold table_get, bind, gets. by rewrite H. Qed.

Lemma thread_of_process a pid tid p :
  process_of a pid = Some p -> thread_of a pid tid = impl_threads p !! (tid - 1)%nat.
Proof. intros H%process_of_lookup. unfold thread_of. by rewrite H. Qed.

Lemma slot_lookup a pid p tid :
  arch_wf a -> process_of a pid = Some p -> slot_ok tid ->
  exists t, impl_threads p !! (tid - 1)%nat = Some t /\ thread_wf t.
Proof.
  intros Ha Hp Ht. apply process_of_lookup in Hp.
  destruct (aw_impl a Ha _ _ Hp) as (Hlen & Hall & _).
  destruct (lookup_lt_is_Some_2 (impl_threads p) (tid - 1)%nat) as [t Hlt].
  { unfold slot_ok in Ht. lia. }
  exists t. split; [done|]. by eapply Forall_lookup_1.
Qed.

(** Writing one context: the state after [table_set pid (set_thread p slot t')]. *)
Section WriteThread.
Context (a : Arch) (pid : PID) (p : ProcessImpl) (tid : nat) (t' : Thread).
Context (Ha : arch_wf a) (Hpid : 1 <= pid) (Hp : process_of a pid = Some p) (Ht : slot_ok tid).

Definition written : Arch :=
  mkArch (<[table_index pid := Some (set_thread p (tid - 1) t')]> (process_table a)) (cur_pid a).

Lemma written_run : table_set pid (Some (set_thread p (tid - 1) t')) a = Some (tt, written).
Proof. done. Qed.

Lemma written_index : (table_index pid < length (process_table a))%nat.
Proof. apply process_of_lookup in Hp. by eapply lookup_lt_Some. Qed.

Lemma written_process : process_of written pid = Some (set_thread p (tid - 1) t').
Proof. apply process_of_lookup. apply list_lookup_insert_eq, written_index. Qed.

Lemma written_here : thread_of written pid tid = Some t'.
Proof.
  rewrite (thread_of_process _ _ _ _ written_process). cbn.
  apply list_lookup_insert_eq. apply process_of_lookup in Hp.
  destruct (aw_impl a Ha _ _ Hp) as [-> _]. unfold slot_ok in Ht. lia.
Qed.

Lemma written_others : others_kept pid tid a written.
Proof.
  split; [done|]. intros q k Hq Hk Hne. unfold thread_of, written; cbn.
  destruct (decide (table_index q = table_index pid)) as [E|E].
  - assert (q = pid) as -> by (by apply table_index_inj).
    assert (k <> tid) by (intros ->; by apply Hne).
    rewrite list_lookup_insert_eq by apply written_index. cbn.
    apply process_of_lookup in Hp. rewrite Hp.
    apply list_lookup_insert_ne. unfold slot_ok in Ht. lia.
  - by rewrite list_lookup_insert_ne.
Qed.

Lemma written_wf : thread_wf t' -> arch_wf written.
Proof.
  intros Hw. split; [unfold written; cbn; rewrite length_insert; apply Ha|].
  intros i q. unfold written; cbn. rewrite list_lookup_insert. case_decide as Hd.
  - intros [= <-]. destruct Hd as [<- _]. apply process_of_lookup in Hp.
    destruct (aw_impl a Ha _ _ Hp) as (Hl & Hall & Hc). split; cbn; [by rewrite length_insert|].
    split; [by apply Forall_insert|done].
  - apply (aw_impl a Ha).
Qed.

End WriteThread.

(** ** Results of system calls *)

Lemma to_args_length r : length (XResult_to_args r) = 8%nat.
Proof. by destruct r as [| | | | | | | | |[? []]| | | | | | | | | | | |[]|]. Qed.

Lemma set_gpr_wf i v t : thread_wf t -> thread_wf (set_gpr i v t).
Proof. unfold thread_wf. cbn. by rewrite length_insert. Qed.

Definition put_all (l : list (nat * Z)) (g : list Z) : list Z := fold_left (fun g kv => <[kv.1 := kv.2]> g) l g.

Lemma set_args_with args t : set_args args t = with_gpr (put_all (zip ARG_REGS args) (gpr t)) t.
Proof.
  unfold set_args, put_all. revert t. generalize (zip ARG_REGS args).
  induction l as [|kv l IH]; intros t; cbn; [by destruct t|]. by rewrite IH.
Qed.

Lemma put_all_length l g : length (put_all l g) = length g.
Proof. revert g. induction l as [|kv l IH]; intros g; cbn; [done|]. by rewrite IH, length_insert. Qed.

Lemma put_all_other l g i : i ∉ l.*1 -> put_all l g !! i = g !! i.
Proof.
  revert g. induction l as [|[k v] l IH]; intros g; cbn; [done|].
  intros [? ?]%not_elem_of_cons. rewrite IH by done. by apply list_lookup_insert_ne.
Qed.

Lemma put_all_here l g k v :
  NoDup l.*1 -> (k, v) ∈ l -> (k < length g)%nat -> put_all l g !! k = Some v.
Proof.
  revert g. induction l as [|[k' v'] l IH]; intros g; cbn; [by intros ? ?%not_elem_of_nil|].
  intros [Hn Hd]%NoDup_cons [[= <- <-]|H]%elem_of_cons Hlt.
  - rewrite put_all_other by done. by apply list_lookup_insert_eq.
  - apply IH; [done..|]. by rewrite length_insert.
Qed.

Lemma get_set_args args t : thread_wf t -> length args = 8%nat -> get_args (set_args args t) = args.
Proof.
  unfold thread_wf. intros Hw Hl. rewrite set_args_with. unfold get_args; cbn [gpr with_gpr].
  do 8 (destruct args as [|? args]; [done|]). destruct args; [|done]. cbn -[put_all].
  repeat f_equal; apply nth_lookup_Some, put_all_here; cbn; try (rewrite Hw; lia);
    try (by apply (bool_decide_unpack (NoDup _)));
    repeat (first [by left | right]).
Qed.

Lemma set_args_wf args t : thread_wf t -> thread_wf (set_args args t).
Proof. unfold thread_wf. rewrite set_args_with. cbn. by rewrite put_all_length. Qed.

(** Delivering the result of a system call writes exactly the eight call
    registers of that thread: they decode to what [to_args] encoded, every
    other register and field of the thread, and every other thread's context,
    stay as they were. *)
Theorem set_thread_result_exact a pid tid p t r :
  arch_wf a -> 1 <= pid -> slot_ok tid -> process_of a pid = Some p -> thread_of a pid tid = Some t ->
  exists a' t', set_thread_result pid tid r a = Some (tt, a') /\ arch_wf a' /\
    thread_of a' pid tid = Some t' /\ get_args t' = XResult_to_args r /\
    (forall i, i ∉ ARG_REGS -> gpr t' !! i = gpr t !! i) /\ with_gpr (gpr t) t' = t /\
    others_kept pid tid a a'.
Proof.
  intros Ha Hpid Ht Hp Hthr.
  rewrite (thread_of_process _ _ _ _ Hp) in Hthr.
  destruct (slot_lookup _ _ _ _ Ha Hp Ht) as (t0 & Ht0 & Hw). rewrite Hthr in Ht0. injection Ht0 as ->.
  set (t' := set_args (XResult_to_args r) t0).
  exists (written a pid p tid t'), t'. split.
  { unfold set_thread_result. rewrite bad_tid_ok by done. unfold bind.
    rewrite (table_get_run _ _ _ Hp), Hthr. done. }
  split; [by apply written_wf, set_args_wf|]. split; [by apply written_here|].
  split; [apply get_set_args; [done|apply to_args_length]|].
  split; [|split; [|by apply written_others]].
  - intros i Hi. subst t'. rewrite set_args_with. cbn [gpr with_gpr]. apply put_all_other.
    rewrite fst_zip by (by rewrite to_args_length). done.
  - subst t'. rewrite set_args_with. by destruct t0.
Qed.

(** ** Allocating threads *)

Lemma first_free_spec i l :
  match first_free i l with
  | Some tid => exists k t, tid = (i + k + 1)%nat /\ l !! k = Some t /\ allocated t = false /\
      forall j u, (j < k)%nat -> l !! j = Some u -> allocated u = true
  | None => Forall (fun t => allocated t = true) l
  end.
Proof.
  revert i. induction l as [|t l IH]; intros i; cbn; [constructor|].
  destruct (allocated t) eqn:E; cbn.
  - specialize (IH (S i)). destruct (first_free (S i) l) as [tid|]; [|by constructor].
    destruct IH as (k & u & -> & Hu & Hf & Hmin). exists (S k), u.
    split; [lia|]. split; [done|]. split; [done|].
    intros [|j] v Hj; cbn; [by intros [= <-]|]. apply Hmin. lia.
  - exists 0%nat, t. split; [lia|]. split; [done|]. split; [done|]. lia.
Qed.

Definition thread_free (a : Arch) (pid : PID) (tid : nat) : Prop :=
  exists t, thread_of a pid tid = Some t /\ allocated t = false.

Lemma find_free_thread_spec a pid p :
  arch_wf a -> process_of a pid = Some p ->
  exists o, find_free_thread pid a = Some (o, a) /\
  match o with
  | Some tid => slot_ok tid /\ thread_free a pid tid /\ forall k, (1 <= k < tid)%nat -> ~ thread_free a pid k
  | None => forall k, slot_ok k -> ~ thread_free a pid k
  end.
Proof.
  intros Ha Hp. exists (first_free 0 (impl_threads p)). split.
  { unfold find_free_thread, bind. by rewrite (table_get_run _ _ _ Hp). }
  pose proof (first_free_spec 0 (impl_threads p)) as Hspec.
  destruct (aw_impl a Ha _ _ (proj1 (process_of_lookup _ _ _) Hp)) as [Hlen _].
  assert (Hto : forall k, thread_of a pid k = impl_threads p !! (k - 1)%nat) by (intros k; by apply thread_of_process).
  destruct (first_free 0 (impl_threads p)) as [tid|]; unfold thread_free; setoid_rewrite Hto.
  - destruct Hspec as (k & t & -> & Ht & Hf & Hmin). pose proof (lookup_lt_Some _ _ _ Ht) as Hlt.
    split; [unfold slot_ok; lia|]. replace (0 + k + 1 - 1)%nat with k by lia.
    split; [by exists t|]. intros j Hj (u & Hu & Hfu).
    rewrite (Hmin (j - 1)%nat u) in Hfu; [done|lia|done].
  - intros k Hk (u & Hu & Hfu). rewrite Forall_lookup in Hspec.
    rewrite (Hspec _ _ Hu) in Hfu. done.
Qed.

(** The context of a new thread, as [setup_thread] leaves it. *)
Definition fresh_thread (setup : ThreadInit) (sp : Z) : Thread :=
  mkThread (ti_arg1 setup :: ti_arg2 setup :: ti_arg3 setup :: ti_arg4 setup :: replicate 27 0)
    sp (ti_call setup) 0 0 0 0 0 (replicate 64 0) true None.

Definition stack_top (setup : ThreadInit) : Z :=
  match ti_stack setup with Some s => range_addr s + range_size s | None => 0 end.

Lemma setup_thread_run a pid p tid t setup :
  arch_wf a -> process_of a pid = Some p -> slot_ok tid -> impl_threads p !! (tid - 1)%nat = Some t ->
  allocated t = false -> fits 64 (stack_top setup) = true ->
  setup_thread pid tid setup a = Some (Ok tt, written a pid p tid (fresh_thread setup (stack_top setup))).
Proof.
  intros Ha Hp Ht Hlt Hf Hsp. unfold setup_thread. rewrite bad_tid_ok by done.
  unfold bind. rewrite (table_get_run _ _ _ Hp), Hlt. cbn -[table_set]. rewrite Hf.
  unfold stack_top in *. destruct (ti_stack setup) as [s|]; [|done].
  unfold initial_sp, bind, assertb. by rewrite Hsp.
Qed.

Lemma destroy_thread_run a pid p tid t :
  process_of a pid = Some p -> slot_ok tid -> impl_threads p !! (tid - 1)%nat = Some t -> allocated t = true ->
  destroy_thread pid tid a = Some (Some (nth 0 (gpr t) 0, t_stack t), written a pid p tid Thread_default).
Proof.
  intros Hp Ht Hlt Hal. unfold destroy_thread. rewrite bad_tid_ok by done.
  unfold bind. rewrite (table_get_run _ _ _ Hp), Hlt. cbn -[table_set]. by rewrite Hal.
Qed.

(** Thread slots are handed out and taken back exactly: the lowest free
    slot is found, [setup_thread] fills it with the entry point, stack top and
    arguments of the new thread, [destroy_thread] returns its X0 and frees the
    slot again, a second [destroy_thread] finds nothing, and no other thread is
    touched.  The stack range is not recorded, so none is returned. *)
Theorem thread_slot_lifecycle a pid p setup tid :
  arch_wf a -> 1 <= pid -> process_of a pid = Some p -> fits 64 (stack_top setup) = true ->
  find_free_thread pid a = Some (Some tid, a) ->
  slot_ok tid /\ (forall k, (1 <= k < tid)%nat -> ~ thread_free a pid k) /\
  exists a1 a2, setup_thread pid tid setup a = Some (Ok tt, a1) /\ arch_wf a1 /\ others_kept pid tid a a1 /\
    thread_of a1 pid tid = Some (fresh_thread setup (stack_top setup)) /\
    thread_exists pid tid a1 = Some (true, a1) /\
    destroy_thread pid tid a1 = Some (Some (ti_arg1 setup, None), a2) /\ others_kept pid tid a a2 /\
    thread_free a2 pid tid /\ destroy_thread pid tid a2 = Some (None, a2).
Proof.
  intros Ha Hpid Hp Hsp Hfind.
  destruct (find_free_thread_spec a pid p Ha Hp) as (o & Hrun & Ho).
  rewrite Hfind in Hrun. injection Hrun as <-. destruct Ho as (Ht & (t & Hthr & Hf) & Hmin).
  rewrite (thread_of_process _ _ _ _ Hp) in Hthr.
  set (new := fresh_thread setup (stack_top setup)).
  set (a1 := written a pid p tid new).
  assert (Ha1 : arch_wf a1) by (by apply written_wf).
  assert (Hp1 : process_of a1 pid = Some (set_thread p (tid - 1) new)) by (by apply (written_process a pid p tid new Hp)).
  assert (Hn1 : impl_threads (set_thread p (tid - 1) new) !! (tid - 1)%nat = Some new).
  { rewrite <- (thread_of_process _ _ _ _ Hp1). by apply written_here. }
  set (a2 := written a1 pid (set_thread p (tid - 1) new) tid Thread_default).
  assert (Hp2 := written_process a1 pid (set_thread p (tid - 1) new) tid Thread_default Hp1).
  assert (Hn2 : thread_of a2 pid tid = Some Thread_default) by (by apply written_here).
  assert (Ho1 : others_kept pid tid a a1) by (by apply written_others).
  assert (Ho2 : others_kept pid tid a1 a2) by (by apply written_others).
  split; [done|]. split; [done|]. exists a1, a2.
  split; [by apply (setup_thread_run a pid p tid t)|]. split; [done|]. split; [done|].
  split; [by apply written_here|]. split.
  { unfold thread_exists. rewrite bad_tid_ok by done. unfold bind.
    by rewrite (table_get_run _ _ _ Hp1), Hn1. }
  split; [by apply (destroy_thread_run a1 pid _ tid new)|]. split.
  { destruct Ho1 as [Hc1 H1], Ho2 as [Hc2 H2]. split; [congruence|].
    intros q k Hq Hk Hne. by rewrite H2, H1. }
  split; [by exists Thread_default|].
  unfold destroy_thread. rewrite bad_tid_ok by done. unfold bind.
  fold a2 in Hp2. rewrite (thread_of_process _ _ _ _ Hp2) in Hn2. by rewrite (table_get_run _ _ _ Hp2), Hn2.
Qed.

(** ** Saving and restoring *)

(** Saving a frame for a thread and loading it back returns the same frame,
    keeps the allocation flag and stack range of that thread and every other
    context; a frame saved for a process without a table entry is dropped. *)
Theorem context_save_load a pid tid p f g :
  arch_wf a -> 1 <= pid -> slot_ok tid -> process_of a pid = Some p -> length (f_gpr f) = 31%nat ->
  exists a' t t', save_context_to_table pid tid f a = Some (tt, a') /\ arch_wf a' /\
    load_context_from_table pid tid g a' = Some (f, a') /\
    thread_of a pid tid = Some t /\ thread_of a' pid tid = Some t' /\
    allocated t' = allocated t /\ t_stack t' = t_stack t /\ others_kept pid tid a a'.
Proof.
  intros Ha Hpid Ht Hp Hlen.
  destruct (slot_lookup _ _ _ _ Ha Hp Ht) as (t & Hlt & Hw).
  set (t' := restore_frame f t). exists (written a pid p tid t'), t, t'.
  assert (Hp' := written_process a pid p tid t' Hp).
  assert (Hh : thread_of (written a pid p tid t') pid tid = Some t') by (by apply written_here).
  split. { unfold save_context_to_table, bind. by rewrite (table_get_run _ _ _ Hp), Hlt. }
  split; [by apply written_wf|]. split.
  { unfold load_context_from_table, bind. rewrite (table_get_run _ _ _ Hp').
    rewrite (thread_of_process _ _ _ _ Hp') in Hh. rewrite Hh. by destruct f. }
  split; [by rewrite (thread_of_process _ _ _ _ Hp)|]. do 3 (split; [done|]). by apply written_others.
Qed.

(** Delivering an interrupt to a process redirects its initial thread: the
    handler's entry point and arguments are written into slot 0, which is the
    context of thread 1, and the interrupted program counter and X0, X1 of that
    thread are lost. *)
Theorem irq_handler_overwrites_initial_thread a pid p pc irq_no arg :
  arch_wf a -> 1 <= pid -> process_of a pid = Some p ->
  exists a' t', run_irq_handler pid pc irq_no arg a = Some (tt, a') /\
    thread_of a' pid INITIAL_TID = Some t' /\ t_elr t' = pc /\
    gpr t' !! 0%nat = Some irq_no /\ gpr t' !! 1%nat = Some arg /\ others_kept pid INITIAL_TID a a'.
Proof.
  intros Ha Hpid Hp. assert (Ht : slot_ok INITIAL_TID) by (unfold slot_ok, INITIAL_TID, THREAD_SLOTS; lia).
  destruct (slot_lookup _ _ _ _ Ha Hp Ht) as (t & Hlt & Hw). cbn in Hlt.
  set (t' := set_spsr 0 (set_gpr 1 arg (set_gpr 0 irq_no (set_pc pc t)))).
  exists (written a pid p INITIAL_TID t'), t'.
  split. { unfold run_irq_handler, bind. by rewrite (table_get_run _ _ _ Hp), Hlt. }
  split; [by apply written_here|]. split; [done|].
  unfold thread_wf in Hw. cbn. split; [|split].
  - rewrite list_lookup_insert_ne by lia. apply list_lookup_insert_eq. lia.
  - apply list_lookup_insert_eq. rewrite length_insert. lia.
  - by apply written_others.
Qed.

(** ** Examples *)

Definition demo_setup : ThreadInit := mkThreadInit 4096 (Some (mkRange 65536 16384)) 1 2 3 4.
Definition demo_arch : Arch := mkArch (<[2%nat := Some new_impl]> (replicate PROCESS_SLOTS None)) 3.

Lemma demo_arch_wf : arch_wf demo_arch.
Proof.
  split; [done|]. intros i p. unfold demo_arch. cbn [process_table]. rewrite list_lookup_insert.
  case_decide as Hd; [intros [= <-]|].
  - split; [done|]. split; [by apply Forall_replicate|]. cbn. unfold INITIAL_TID, THREAD_SLOTS. lia.
  - intros H. apply lookup_replicate in H as [? _]. done.
Qed.

Lemma set_thread_result_exact_witness :
  exists a' t', set_thread_result 3 1 (R_Scalar2 7 9) demo_arch = Some (tt, a') /\
    thread_of a' 3 1 = Some t' /\ get_args t' = XResult_to_args (R_Scalar2 7 9).
Proof.
  destruct (set_thread_result_exact demo_arch 3 1 new_impl Thread_default (R_Scalar2 7 9)) as (a' & t' & H1 & _ & H2 & H3 & _).
  - apply demo_arch_wf.
  - lia.
  - unfold slot_ok, THREAD_SLOTS; lia.
  - reflexivity.
  - reflexivity.
  - by exists a', t'.
Defined.

Lemma thread_slot_lifecycle_witness :
  exists a1 a2, setup_thread 3 1 demo_setup demo_arch = Some (Ok tt, a1) /\
    destroy_thread 3 1 a1 = Some (Some (1, None), a2).
Proof.
  destruct (thread_slot_lifecycle demo_arch 3 new_impl demo_setup 1) as (_ & _ & a1 & a2 & H1 & _ & _ & _ & _ & H2 & _).
  - apply demo_arch_wf.
  - lia.
  - reflexivity.
  - reflexivity.
  - reflexivity.
  - by exists a1, a2.
Defined.

Definition demo_frame_regs : Frame := frame_of (set_pc 8192 Thread_default).

Lemma context_save_load_witness :
  exists a', save_context_to_table 3 2 demo_frame_regs demo_arch = Some (tt, a') /\
    load_context_from_table 3 2 (frame_of Thread_default) a' = Some (demo_frame_regs, a').
Proof.
  destruct (context_save_load demo_arch 3 2 new_impl demo_frame_regs (frame_of Thread_default)) as (a' & t & t' & H1 & _ & H2 & _).
  - apply demo_arch_wf.
  - lia.
  - unfold slot_ok, THREAD_SLOTS; lia.
  - reflexivity.
  - reflexivity.
  - by exists a'.
Defined.

Lemma irq_handler_overwrites_initial_thread_witness :
  exists a' t', run_irq_handler 3 4096 27 0 demo_arch = Some (tt, a') /\
    thread_of a' 3 INITIAL_TID = Some t' /\ t_elr t' = 4096.
Proof.
  destruct (irq_handler_overwrites_initial_thread demo_arch 3 new_impl 4096 27 0) as (a' & t' & H1 & H2 & H3 & _).
  - apply demo_arch_wf.
  - lia.
  - reflexivity.
  - by exists a', t'.
Defined.
