(* ===== verification/Display.v ===== *)
(** * The display queue and the keyboard buffer

    Models [DisplayState] of [xous/kernel/src/services.rs]: the owner of the
    display, the ring of threads that wait for it, and the ring of characters
    typed while no process has the input focus.  The rings are shown to be a
    bounded queue that refuses when full and a sliding window that forgets the
    oldest character.  The kernel operations that move the ownership between
    processes are in [Services]. *)

From S2P Require Import Prelude Abi.
From Stdlib Require Import ZArith Lia Bool.
From stdpp Require Import list.
Open Scope Z_scope.

Definition DISPLAY_WAITER_MAX : nat := 16.
Definition INPUT_BUF_CAP : nat := 64.

Record DisplayState := mkDisplay {
  owner : option (PID * TID);
  cursor_row : Z; cursor_col : Z;
  waiters : list (PID * TID); waiter_head : nat; waiter_count : nat;
  input_sid : option SID;
  input_buf : list Z; input_head : nat; input_count : nat }.

Definition DisplayState_new : DisplayState :=
  mkDisplay None 0 0 (replicate DISPLAY_WAITER_MAX (1, 0)) 0 0 None (replicate INPUT_BUF_CAP 0) 0 0.

Definition set_owner (o : option (PID * TID)) (d : DisplayState) : DisplayState :=
  mkDisplay o (cursor_row d) (cursor_col d) (waiters d) (waiter_head d) (waiter_count d)
    (input_sid d) (input_buf d) (input_head d) (input_count d).
Definition set_cursor (row col : Z) (d : DisplayState) : DisplayState :=
  mkDisplay (owner d) row col (waiters d) (waiter_head d) (waiter_count d)
    (input_sid d) (input_buf d) (input_head d) (input_count d).
Definition set_waiters (w : list (PID * TID)) (head count : nat) (d : DisplayState) : DisplayState :=
  mkDisplay (owner d) (cursor_row d) (cursor_col d) w head count
    (input_sid d) (input_buf d) (input_head d) (input_count d).
Definition set_input_sid (s : option SID) (d : DisplayState) : DisplayState :=
  mkDisplay (owner d) (cursor_row d) (cursor_col d) (waiters d) (waiter_head d) (waiter_count d)
    s (input_buf d) (input_head d) (input_count d).
Definition set_input (b : list Z) (head count : nat) (d : DisplayState) : DisplayState :=
  mkDisplay (owner d) (cursor_row d) (cursor_col d) (waiters d) (waiter_head d) (waiter_count d)
    (input_sid d) b head count.

(** An array store; outside the array the source panics. *)
Definition store {A} (l : list A) (i : nat) (x : A) : option (list A) :=
  if (i <? length l)%nat then Some (<[i := x]> l) else None.

Definition push_waiter (pid : PID) (tid : TID) : M DisplayState bool :=
  fun d =>
    if (DISPLAY_WAITER_MAX <=? waiter_count d)%nat then Some (false, d)
    else
      let tail := ((waiter_head d + waiter_count d) mod DISPLAY_WAITER_MAX)%nat in
      w ← store (waiters d) tail (pid, tid);
      Some (true, set_waiters w (waiter_head d) (waiter_count d + 1) d).

Definition pop_waiter : M DisplayState (option (PID * TID)) :=
  fun d =>
    if (waiter_count d =? 0)%nat then Some (None, d)
    else
      entry ← waiters d !! waiter_head d;
      Some (Some entry,
            set_waiters (waiters d) ((waiter_head d + 1) mod DISPLAY_WAITER_MAX)%nat (waiter_count d - 1) d).

Definition set_input_focus (sid : SID) : M DisplayState unit := modify (set_input_sid (Some sid)).
Definition clear_input_focus : M DisplayState unit := modify (set_input_sid None).

Definition push_input_char (c : Z) : M DisplayState unit :=
  fun d =>
    if (input_count d <? INPUT_BUF_CAP)%nat then
      let tail := ((input_head d + input_count d) mod INPUT_BUF_CAP)%nat in
      b ← store (input_buf d) tail c;
      Some (tt, set_input b (input_head d) (input_count d + 1) d)
    else
      b ← store (input_buf d) (input_head d) c;
      Some (tt, set_input b ((input_head d + 1) mod INPUT_BUF_CAP)%nat (input_count d) d).

(** The copy loop of [drain_input_buf], from index [i] for [n] steps. *)
Fixpoint drain_loop (buf : list Z) (head i n : nat) (out : list Z) : option (list Z) :=
  match n with
  | O => Some out
  | S n =>
      c ← buf !! ((head + i) mod INPUT_BUF_CAP)%nat;
      out ← store out i c;
      drain_loop buf head (S i) n out
  end.

Definition drain_input_buf (out : list Z) : M DisplayState (nat * list Z) :=
  fun d =>
    out ← drain_loop (input_buf d) (input_head d) 0 (input_count d) out;
    Some ((input_count d, out), set_input (input_buf d) 0 0 d).

(** ** Rings *)

Section Ring.
Context {A : Type} (cap : nat) (Hcap : (0 < cap)%nat).

(** The [count] elements from [head] on, cyclically. *)
Definition ring (buf : list A) (head count : nat) : list A :=
  omap (fun i => buf !! ((head + i) mod cap)%nat) (seq 0 count).

Definition ring_ok (buf : list A) (head count : nat) : Prop :=
  length buf = cap /\ (head < cap)%nat /\ (count <= cap)%nat.

Lemma ring_lookup_total (buf : list A) head i : length buf = cap -> exists x, buf !! ((head + i) mod cap)%nat = Some x.
Proof. intros Hl. apply lookup_lt_is_Some_2. rewrite Hl. apply Nat.mod_upper_bound. lia. Qed.

(** Positions of a window of at most [cap] elements are distinct. *)
Lemma ring_index_inj head i j :
  (i < cap)%nat -> (j < cap)%nat -> ((head + i) mod cap = (head + j) mod cap)%nat -> i = j.
Proof.
  intros Hi Hj E.
  assert (H : forall a b, (a <= b)%nat -> (b < cap)%nat ->
            ((head + a) mod cap = (head + b) mod cap)%nat -> a = b).
  { intros a b Hab Hb E'.
    pose proof (Nat.div_mod_eq (head + a) cap). pose proof (Nat.div_mod_eq (head + b) cap).
    assert ((head + a) / cap = (head + b) / cap)%nat by nia. nia. }
  destruct (Nat.le_ge_cases i j); [by apply H|symmetry; by apply H].
Qed.

Lemma ring_length (buf : list A) head count : length buf = cap -> length (ring buf head count) = count.
Proof.
  intros Hl. unfold ring. generalize 0%nat. induction count as [|n IH]; intros k; cbn; [done|].
  destruct (ring_lookup_total buf head k Hl) as [x ->]. cbn. by rewrite IH.
Qed.

Lemma ring_lookup (buf : list A) head count i :
  length buf = cap -> (i < count)%nat -> ring buf head count !! i = buf !! ((head + i) mod cap)%nat.
Proof.
  intros Hl. unfold ring.
  enough (H : forall k i, (i < count)%nat ->
    omap (fun i => buf !! ((head + i) mod cap)%nat) (seq k count) !! i = buf !! ((head + (k + i)) mod cap)%nat).
  { intros Hi. by rewrite H. }
  induction count as [|n IH]; intros k j Hj; [lia|]. cbn.
  destruct (ring_lookup_total buf head k Hl) as [x Hx]. rewrite Hx.
  destruct j as [|j]; cbn; [by rewrite Nat.add_0_r|].
  rewrite IH by lia. by replace (S k + j)%nat with (k + S j)%nat by lia.
Qed.

Lemma ring_ext (buf' : list A) head' count (l : list A) :
  length buf' = cap -> length l = count ->
  (forall i, (i < count)%nat -> buf' !! ((head' + i) mod cap)%nat = l !! i) -> ring buf' head' count = l.
Proof.
  intros Hl Hlen H. apply list_eq. intros i.
  destruct (decide (i < count)%nat) as [Hi|Hi].
  - by rewrite ring_lookup, H.
  - rewrite !lookup_ge_None_2; [done|lia|]. rewrite ring_length by done. lia.
Qed.

(** Storing at the tail appends. *)
Lemma ring_push (buf : list A) head count x :
  ring_ok buf head count -> (count < cap)%nat ->
  ring (<[((head + count) mod cap)%nat := x]> buf) head (count + 1) = ring buf head count ++ [x].
Proof.
  intros (Hl & Hh & Hc) Hlt. apply ring_ext; [by rewrite length_insert|rewrite length_app, ring_length by done; cbn; lia|].
  intros i Hi. destruct (decide (i = count)) as [->|Hne].
  - rewrite list_lookup_insert_eq by (rewrite Hl; apply Nat.mod_upper_bound; lia).
    rewrite lookup_app_r by (rewrite ring_length by done; lia). by rewrite ring_length, Nat.sub_diag by done.
  - rewrite lookup_app_l by (rewrite ring_length by done; lia). rewrite ring_lookup by (done || lia).
    apply list_lookup_insert_ne. intros E. apply Hne. symmetry. apply (ring_index_inj head); [lia..|done].
Qed.

(** Advancing the head drops the first element. *)
Lemma ring_pop (buf : list A) head count :
  ring_ok buf head (S count) ->
  exists x, buf !! head = Some x /\
    ring buf head (S count) = x :: ring buf ((head + 1) mod cap)%nat count.
Proof.
  intros (Hl & Hh & Hc). destruct (ring_lookup_total buf head 0 Hl) as [x Hx].
  rewrite Nat.add_0_r, Nat.mod_small in Hx by done. exists x. split; [done|].
  symmetry. apply list_eq. intros [|i].
  - change (Some x = ring buf head (S count) !! 0%nat). rewrite ring_lookup by (done || lia). by rewrite Nat.add_0_r, Nat.mod_small.
  - change (ring buf ((head + 1) mod cap)%nat count !! i = ring buf head (S count) !! S i).
    destruct (decide (i < count)%nat) as [Hi|Hi].
    + rewrite !ring_lookup by (done || lia). rewrite Nat.Div0.add_mod_idemp_l.
      by replace (head + 1 + i)%nat with (head + S i)%nat by lia.
    + rewrite !lookup_ge_None_2; [done|..]; rewrite ring_length by done; lia.
Qed.

(** Overwriting the first element of a full ring slides the window. *)
Lemma ring_slide (buf : list A) head x :
  ring_ok buf head cap ->
  ring (<[head := x]> buf) ((head + 1) mod cap)%nat cap = tail (ring buf head cap) ++ [x].
Proof.
  intros (Hl & Hh & Hc).
  assert (Hlen : length (tail (ring buf head cap)) = (cap - 1)%nat).
  { pose proof (ring_length buf head cap Hl) as E. destruct (ring buf head cap); cbn in *; lia. }
  apply ring_ext; [by rewrite length_insert|rewrite length_app, Hlen; cbn; lia|].
  intros i Hi. rewrite Nat.Div0.add_mod_idemp_l. replace (head + 1 + i)%nat with (head + S i)%nat by lia.
  destruct (decide (i = cap - 1)%nat) as [->|Hne].
  - replace (head + S (cap - 1))%nat with (head + 1 * cap)%nat by lia.
    rewrite Nat.Div0.mod_add, Nat.mod_small, list_lookup_insert_eq by lia.
    rewrite lookup_app_r by lia. by rewrite Hlen, Nat.sub_diag.
  - rewrite lookup_app_l by lia. rewrite lookup_tail, ring_lookup by (done || lia).
    apply list_lookup_insert_ne. intros E.
    assert (0 = S i)%nat; [|lia]. apply (ring_index_inj head); [lia..|].
    by rewrite Nat.add_0_r, (Nat.mod_small head) by done.
Qed.

End Ring.

(** ** The display state as queues *)

Definition waiting (d : DisplayState) : list (PID * TID) := ring DISPLAY_WAITER_MAX (waiters d) (waiter_head d) (waiter_count d).
Definition typed (d : DisplayState) : list Z := ring INPUT_BUF_CAP (input_buf d) (input_head d) (input_count d).

Record display_ok (d : DisplayState) : Prop := {
  do_waiters : ring_ok DISPLAY_WAITER_MAX (waiters d) (waiter_head d) (waiter_count d);
  do_input : ring_ok INPUT_BUF_CAP (input_buf d) (input_head d) (input_count d) }.

Lemma display_new_ok : display_ok DisplayState_new.
Proof. by split; repeat split; vm_compute; lia. Qed.

Lemma waiting_length d : display_ok d -> length (waiting d) = waiter_count d.
Proof. intros [[Hl _] _]. apply ring_length; [unfold DISPLAY_WAITER_MAX; lia|done]. Qed.
Lemma typed_length d : display_ok d -> length (typed d) = input_count d.
Proof. intros [_ [Hl _]]. apply ring_length; [unfold INPUT_BUF_CAP; lia|done]. Qed.

Lemma store_run {A} (l : list A) i x : (i < length l)%nat -> store l i x = Some (<[i := x]> l).
Proof. intros H. unfold store. by apply Nat.ltb_lt in H as ->. Qed.

Lemma push_waiter_run d pid tid :
  display_ok d ->
  exists d', push_waiter pid tid d = Some (bool_decide (length (waiting d) < DISPLAY_WAITER_MAX)%nat, d') /\
    display_ok d' /\ typed d' = typed d /\ owner d' = owner d /\ input_sid d' = input_sid d /\
    waiting d' = if decide (length (waiting d) < DISPLAY_WAITER_MAX)%nat then waiting d ++ [(pid, tid)] else waiting d.
Proof.
  intros Hd. rewrite (waiting_length d Hd). destruct Hd as [[Hl [Hh Hc]] Hi].
  unfold push_waiter. destruct (decide (waiter_count d < DISPLAY_WAITER_MAX)%nat) as [Hlt|Hge].
  - rewrite (proj2 (Nat.leb_gt _ _)) by done. rewrite bool_decide_true by done.
    rewrite store_run by (rewrite Hl; apply Nat.mod_upper_bound; done). cbn [mbind option_bind].
    eexists; split; [reflexivity|]. split; [split; [|done]; repeat split; cbn; [by rewrite length_insert|done|lia]|].
    do 3 (split; [done|]). unfold waiting; cbn [waiters set_waiters waiter_head waiter_count].
    by apply ring_push; [unfold DISPLAY_WAITER_MAX; lia|repeat split; lia|].
  - rewrite (proj2 (Nat.leb_le _ _)) by lia. rewrite bool_decide_false by done.
    exists d. done.
Qed.

Lemma pop_waiter_run d :
  display_ok d ->
  exists d', pop_waiter d = Some (head (waiting d), d') /\ display_ok d' /\ typed d' = typed d /\
    owner d' = owner d /\ input_sid d' = input_sid d /\ waiting d' = tail (waiting d).
Proof.
  intros Hd. pose proof Hd as [[Hl [Hh Hc]] Hi]. unfold pop_waiter, waiting. destruct (waiter_count d) as [|n] eqn:En; cbn [Nat.eqb].
  - exists d. do 5 (split; [done|]). by rewrite En.
  - destruct (ring_pop DISPLAY_WAITER_MAX ltac:(unfold DISPLAY_WAITER_MAX; lia) (waiters d) (waiter_head d) n)
      as (x & Hx & ->); [by repeat split|].
    rewrite Hx. cbn [mbind option_bind head tail]. eexists; split; [reflexivity|].
    split; [split; [|done]; repeat split; cbn [waiters set_waiters waiter_head waiter_count]; [done|apply Nat.mod_upper_bound; done|lia]|].
    do 3 (split; [done|]). cbn [waiters set_waiters waiter_head waiter_count].
    by replace (S n - 1)%nat with n by lia.
Qed.

(** The last [INPUT_BUF_CAP] characters. *)
Definition slide (l : list Z) (c : Z) : list Z :=
  if decide (length l < INPUT_BUF_CAP)%nat then l ++ [c] else tail l ++ [c].

Lemma push_input_char_run d c :
  display_ok d ->
  exists d', push_input_char c d = Some (tt, d') /\ display_ok d' /\ waiting d' = waiting d /\
    owner d' = owner d /\ input_sid d' = input_sid d /\ typed d' = slide (typed d) c.
Proof.
  intros Hd. unfold push_input_char, slide. rewrite (typed_length d Hd). destruct Hd as [Hw [Hl [Hh Hc]]].
  destruct (decide (input_count d < INPUT_BUF_CAP)%nat) as [Hlt|Hge].
  - rewrite (proj2 (Nat.ltb_lt _ _)) by done.
    rewrite store_run by (rewrite Hl; apply Nat.mod_upper_bound; done). cbn [mbind option_bind].
    eexists; split; [reflexivity|]. split; [split; [done|]; repeat split; cbn; [by rewrite length_insert|done|lia]|].
    do 3 (split; [done|]). unfold typed; cbn [input_buf set_input input_head input_count].
    by apply ring_push; [unfold INPUT_BUF_CAP; lia|repeat split; lia|].
  - rewrite (proj2 (Nat.ltb_ge _ _)) by lia. rewrite store_run by lia. cbn [mbind option_bind].
    eexists; split; [reflexivity|].
    split; [split; [done|]; repeat split; cbn [input_buf set_input input_head input_count]; [by rewrite length_insert|apply Nat.mod_upper_bound; done|lia]|].
    do 3 (split; [done|]). unfold typed; cbn [input_buf set_input input_head input_count].
    assert (input_count d = INPUT_BUF_CAP) as -> by lia.
    by apply ring_slide; [unfold INPUT_BUF_CAP; lia|repeat split; lia].
Qed.

Lemma drain_loop_run d out i n :
  display_ok d -> length out = INPUT_BUF_CAP -> (i + n = input_count d)%nat ->
  exists out', drain_loop (input_buf d) (input_head d) i n out = Some out' /\ length out' = INPUT_BUF_CAP /\
    (forall j, (j < i)%nat -> out' !! j = out !! j) /\
    (forall j, (i <= j < i + n)%nat -> out' !! j = typed d !! j).
Proof.
  intros [_ [Hl [Hh Hc]]]. revert i out. induction n as [|n IH]; intros i out Hlen Hin.
  - exists out. cbn. do 3 (split; [done|]). lia.
  - cbn [drain_loop]. destruct (ring_lookup_total INPUT_BUF_CAP ltac:(unfold INPUT_BUF_CAP; lia) (input_buf d) (input_head d) i Hl) as [c Ec].
    rewrite Ec. cbn [mbind option_bind]. rewrite store_run by lia. cbn [mbind option_bind].
    destruct (IH (S i) (<[i := c]> out)) as (out' & Hrun & Hlen' & Hlow & Hhigh); [by rewrite length_insert|lia|].
    exists out'. split; [done|]. split; [done|]. split.
    + intros j Hj. rewrite Hlow by lia. apply list_lookup_insert_ne. lia.
    + intros j Hj. destruct (decide (j = i)) as [->|Hne]; [|apply Hhigh; lia].
      rewrite Hlow, list_lookup_insert_eq by lia. unfold typed.
      rewrite ring_lookup by (done || unfold INPUT_BUF_CAP in *; lia). by rewrite Ec.
Qed.

Lemma drain_input_buf_run d out :
  display_ok d -> length out = INPUT_BUF_CAP ->
  exists out' d', drain_input_buf out d = Some ((length (typed d), out'), d') /\ display_ok d' /\
    take (length (typed d)) out' = typed d /\ typed d' = [] /\ waiting d' = waiting d /\
    owner d' = owner d /\ input_sid d' = input_sid d.
Proof.
  intros Hd Hlen. destruct (drain_loop_run d out 0 (input_count d) Hd Hlen eq_refl) as (out' & Hrun & Hlen' & _ & Hhigh).
  pose proof (typed_length d Hd) as Ht. destruct Hd as [Hw [Hl [Hh Hc]]].
  eexists out', _. split; [unfold drain_input_buf; rewrite Hrun, Ht; reflexivity|].
  split; [split; [done|]; repeat split; cbn; [done|unfold INPUT_BUF_CAP; lia|lia]|].
  split; [|done]. apply list_eq. intros j. destruct (decide (j < length (typed d))%nat) as [Hj|Hj].
  - rewrite lookup_take_lt by done. apply Hhigh. lia.
  - rewrite !lookup_ge_None_2; [done|lia|]. rewrite length_take. lia.
Qed.

(** ** Sequences of operations *)

Inductive display_op := OpPushWaiter (pid : PID) (tid : TID) | OpPopWaiter | OpType (c : Z) | OpDrain.

Inductive display_out := OutBool (b : bool) | OutWaiter (w : option (PID * TID)) | OutUnit | OutChars (l : list Z).

Definition run_display_op (op : display_op) : M DisplayState display_out :=
  match op with
  | OpPushWaiter pid tid => b <- push_waiter pid tid ;; ret (OutBool b)
  | OpPopWaiter => w <- pop_waiter ;; ret (OutWaiter w)
  | OpType c => _ <- push_input_char c ;; ret OutUnit
  | OpDrain => r <- drain_input_buf (replicate INPUT_BUF_CAP 0) ;; ret (OutChars (take r.1 r.2))
  end.

Fixpoint run_display (ops : list display_op) : M DisplayState (list display_out) :=
  match ops with
  | [] => ret []
  | op :: ops => o <- run_display_op op ;; os <- run_display ops ;; ret (o :: os)
  end.

(** The specification: two lists. *)
Definition display_spec (op : display_op) (q : list (PID * TID)) (l : list Z)
  : display_out * list (PID * TID) * list Z :=
  match op with
  | OpPushWaiter pid tid =>
      if decide (length q < DISPLAY_WAITER_MAX)%nat then (OutBool true, q ++ [(pid, tid)], l) else (OutBool false, q, l)
  | OpPopWaiter => (OutWaiter (head q), tail q, l)
  | OpType c => (OutUnit, q, slide l c)
  | OpDrain => (OutChars l, q, [])
  end.

Fixpoint display_specs (ops : list display_op) (q : list (PID * TID)) (l : list Z)
  : list display_out * list (PID * TID) * list Z :=
  match ops with
  | [] => ([], q, l)
  | op :: ops =>
      let '(o, q, l) := display_spec op q l in
      let '(os, q, l) := display_specs ops q l in (o :: os, q, l)
  end.

Lemma run_display_op_refines d op :
  display_ok d ->
  exists d', run_display_op op d = Some ((display_spec op (waiting d) (typed d)).1.1, d') /\ display_ok d' /\
    (display_spec op (waiting d) (typed d)).1.2 = waiting d' /\ (display_spec op (waiting d) (typed d)).2 = typed d'.
Proof.
  intros Hd. destruct op as [pid tid| |c|]; cbn [run_display_op display_spec]; unfold bind.
  - destruct (push_waiter_run d pid tid Hd) as (d' & -> & Hok & Ht & _ & _ & Hw). exists d'. rewrite Hw, Ht.
    case_decide as E; [rewrite bool_decide_true by done|rewrite bool_decide_false by done]; done.
  - destruct (pop_waiter_run d Hd) as (d' & -> & Hok & Ht & _ & _ & Hw). exists d'. by rewrite Hw, Ht.
  - destruct (push_input_char_run d c Hd) as (d' & -> & Hok & Hw & _ & _ & Ht). exists d'. by rewrite Hw, Ht.
  - destruct (drain_input_buf_run d (replicate INPUT_BUF_CAP 0) Hd eq_refl) as (out & d' & -> & Hok & Htk & Ht & Hw & _).
    exists d'. cbn [fst snd]. rewrite Htk. by rewrite Hw, Ht.
Qed.

Lemma run_display_refines d ops :
  display_ok d ->
  exists d', run_display ops d = Some ((display_specs ops (waiting d) (typed d)).1.1, d') /\ display_ok d' /\
    (display_specs ops (waiting d) (typed d)).1.2 = waiting d' /\ (display_specs ops (waiting d) (typed d)).2 = typed d'.
Proof.
  revert d. induction ops as [|op ops IH]; intros d Hd; cbn [run_display display_specs]; [by exists d|].
  destruct (run_display_op_refines d op Hd) as (d1 & Hrun & Hok & Hw & Ht).
  destruct (display_spec op (waiting d) (typed d)) as [[o q] l]. cbn in Hrun, Hw, Ht. subst q l.
  destruct (IH d1 Hok) as (d2 & Hrun2 & Hok2 & Hw2 & Ht2).
  destruct (display_specs ops (waiting d1) (typed d1)) as [[os q] l]. cbn in Hrun2, Hw2, Ht2.
  exists d2. cbn [fst snd]. unfold bind. by rewrite Hrun, Hrun2.
Qed.

(** From the initial state, every sequence of operations on the display's ring
    buffers runs without panic and returns what two lists return: a FIFO queue
    of at most 16 waiting threads that refuses a seventeenth, and a window of
    the last 64 characters typed, which a drain returns in order and empties. *)
Theorem display_rings_refine_queues ops :
  exists d', run_display ops DisplayState_new = Some ((display_specs ops [] []).1.1, d') /\
    waiting d' = (display_specs ops [] []).1.2 /\ typed d' = (display_specs ops [] []).2 /\
    (length (waiting d') <= DISPLAY_WAITER_MAX)%nat /\ (length (typed d') <= INPUT_BUF_CAP)%nat.
Proof.
  destruct (run_display_refines DisplayState_new ops display_new_ok) as (d' & Hrun & Hok & Hw & Ht).
  change (waiting DisplayState_new) with (@nil (PID * TID)) in *.
  change (typed DisplayState_new) with (@nil Z) in *.
  exists d'. rewrite Hw, Ht. do 3 (split; [done|]).
  rewrite waiting_length, typed_length by done. destruct Hok as [[_ [_ ?]] [_ [_ ?]]]. done.
Qed.
