(* ===== verification/Bytes.v ===== *)
(** * Byte strings

    The operations of Rust's [str] and [[u8]] that the user-space servers use,
    on lists of bytes: prefixes and suffixes, searching for a byte, trimming
    white space, NUL-terminated names and the UTF-8 check of
    [core::str::from_utf8].  A [&str] is the list of its UTF-8 bytes. *)

From S2P Require Import Prelude.
From Stdlib Require Import ZArith Lia Bool.
From stdpp Require Import list.
Open Scope Z_scope.

Abbreviation str := (list Z).

Definition SLASH : Z := 47.

(** [s == t] on byte strings *)
Definition str_eqb (s t : str) : bool := bool_decide (s = t).

(** [s.starts_with(p)] and [s.strip_prefix(p)] *)
Definition starts_with (p s : str) : bool := str_eqb (take (length p) s) p.
Definition strip_prefix (p s : str) : option str :=
  if starts_with p s then Some (drop (length p) s) else None.

(** [s.ends_with(p)] and [s.strip_suffix(p)] *)
Definition ends_with (p s : str) : bool :=
  (length p <=? length s)%nat && str_eqb (drop (length s - length p) s) p.
Definition strip_suffix (p s : str) : option str :=
  if ends_with p s then Some (take (length s - length p) s) else None.

(** [s.iter().position(|&b| b == c)], also [s.find(c)] for an ASCII [c] *)
Fixpoint find_byte (c : Z) (s : str) : option nat :=
  match s with
  | [] => None
  | b :: s => if b =? c then Some 0%nat else S <$> find_byte c s
  end.

Definition contains_byte (c : Z) (s : str) : bool := match find_byte c s with Some _ => true | None => false end.

(** [s.rfind(c)] for an ASCII [c] *)
Definition rfind_byte (c : Z) (s : str) : option nat := rposition (fun b => b =? c) s.

(** The bytes before the first NUL, all of them if there is none. *)
Definition until_nul (s : str) : str := take (default (length s) (find_byte 0 s)) s.

(** The encodings of the characters with property [White_Space]. *)
Definition WHITE_SPACE : list str :=
  [[9]; [10]; [11]; [12]; [13]; [32]; [194; 133]; [194; 160]; [225; 154; 128];
   [226; 128; 128]; [226; 128; 129]; [226; 128; 130]; [226; 128; 131]; [226; 128; 132]; [226; 128; 133];
   [226; 128; 134]; [226; 128; 135]; [226; 128; 136]; [226; 128; 137]; [226; 128; 138];
   [226; 128; 168]; [226; 128; 169]; [226; 128; 175]; [226; 129; 159]; [227; 128; 128]].

(** [trim_start] and [trim_end]; a step removes at least one byte, so the
    length of the string is enough fuel. *)
Fixpoint trim_start_loop (fuel : nat) (s : str) : str :=
  match fuel with
  | O => s
  | S fuel =>
      match List.find (fun w => starts_with w s) WHITE_SPACE with
      | Some w => trim_start_loop fuel (drop (length w) s)
      | None => s
      end
  end.
Fixpoint trim_end_loop (fuel : nat) (s : str) : str :=
  match fuel with
  | O => s
  | S fuel =>
      match List.find (fun w => ends_with w s) WHITE_SPACE with
      | Some w => trim_end_loop fuel (take (length s - length w) s)
      | None => s
      end
  end.
Definition trim (s : str) : str :=
  let s := trim_start_loop (length s) s in trim_end_loop (length s) s.

(** ** UTF-8

    One encoded character at the front of a string: its length, as the
    validation of [core::str::from_utf8] accepts it. *)

Definition in_range (lo hi b : Z) : bool := (lo <=? b) && (b <=? hi).
Definition continuation (b : Z) : bool := in_range 128 191 b.

Definition utf8_char (s : str) : option nat :=
  match s with
  | b0 :: rest =>
      if b0 <? 128 then Some 1%nat
      else
        match rest with
        | b1 :: rest =>
            if in_range 194 223 b0 then if continuation b1 then Some 2%nat else None
            else
              match rest with
              | b2 :: rest =>
                  if in_range 224 239 b0 then
                    let ok1 := if b0 =? 224 then in_range 160 191 b1
                               else if b0 =? 237 then in_range 128 159 b1
                               else continuation b1 in
                    if ok1 && continuation b2 then Some 3%nat else None
                  else
                    match rest with
                    | b3 :: _ =>
                        if in_range 240 244 b0 then
                          let ok1 := if b0 =? 240 then in_range 144 191 b1
                                     else if b0 =? 244 then in_range 128 143 b1
                                     else continuation b1 in
                          if ok1 && continuation b2 && continuation b3 then Some 4%nat else None
                        else None
                    | [] => None
                    end
              | [] => None
              end
        | [] => None
        end
  | [] => None
  end.

Fixpoint utf8_loop (fuel : nat) (s : str) : bool :=
  match s with
  | [] => true
  | _ =>
      match fuel with
      | O => false
      | S fuel => match utf8_char s with Some n => utf8_loop fuel (drop n s) | None => false end
      end
  end.

(** [core::str::from_utf8(s).is_ok()] *)
Definition utf8_valid (s : str) : bool := utf8_loop (length s) s.

(** ** Strings in registers

    [pack_path], [pack_name_to_usize] and their like: the bytes of a name, eight
    to a word, little end first, in [k] words; what does not fit is dropped. *)

Definition pad8 (chunk : list Z) : list Z := chunk ++ replicate (8 - length chunk) 0.

Fixpoint pack_words (k : nat) (bytes : str) : list Z :=
  match k with
  | O => []
  | S k => from_le_bytes (pad8 (take 8 bytes)) :: pack_words k (drop 8 bytes)
  end.

(** The memory of the words, up to the first NUL. *)
Definition word_bytes (words : list Z) : list Z := concat (to_le_bytes 8 <$> words).
Definition unpack_bytes (words : list Z) : str := until_nul (word_bytes words).

(** [core::str::from_utf8(..).unwrap_or(..empty..)] *)
Definition str_or_empty (s : str) : str := if utf8_valid s then s else [].

(** ** Lemmas *)

Definition nul_free (s : str) : Prop := 0 ∉ s.

Lemma str_eqb_true s t : str_eqb s t = true <-> s = t.
Proof. apply bool_decide_eq_true. Qed.

Lemma find_byte_None c s : find_byte c s = None <-> c ∉ s.
Proof.
  induction s as [|b s IH]; cbn; [split; [intros _; apply not_elem_of_nil|done]|].
  destruct (Z.eqb_spec b c) as [->|Hne].
  - split; [done|]. intros H. exfalso. apply H. by left.
  - rewrite not_elem_of_cons. destruct (find_byte c s); cbn; split; try done; naive_solver.
Qed.

Lemma until_nul_free s : nul_free s -> until_nul s = s.
Proof. intros H%find_byte_None. unfold until_nul. rewrite H. apply take_ge. cbn. lia. Qed.

Lemma find_byte_app c s t : c ∉ s -> find_byte c (s ++ c :: t) = Some (length s).
Proof.
  induction s as [|b s IH]; cbn; [by rewrite Z.eqb_refl|].
  intros [Hne Hn]%not_elem_of_cons. rewrite (proj2 (Z.eqb_neq b c)) by done. by rewrite IH.
Qed.

Lemma until_nul_app s t : nul_free s -> until_nul (s ++ 0 :: t) = s.
Proof. intros H. unfold until_nul. rewrite find_byte_app by done. cbn. apply take_app_length. Qed.

Lemma until_nul_is_free s : nul_free (until_nul s).
Proof.
  unfold nul_free, until_nul. induction s as [|b s IH]; cbn; [apply not_elem_of_nil|].
  destruct (Z.eqb_spec b 0) as [->|Hne]; [apply not_elem_of_nil|].
  destruct (find_byte 0 s) as [n|] eqn:E; cbn in *; apply not_elem_of_cons; split; done.
Qed.

Lemma starts_with_spec p s : starts_with p s = true <-> exists t, s = p ++ t.
Proof.
  unfold starts_with. rewrite str_eqb_true. split.
  - intros E. exists (drop (length p) s). rewrite <- E at 1. by rewrite take_drop.
  - intros [t ->]. apply take_app_length.
Qed.

Lemma strip_prefix_Some p s t : strip_prefix p s = Some t <-> s = p ++ t.
Proof.
  unfold strip_prefix. destruct (starts_with p s) eqn:E.
  - apply starts_with_spec in E as [u ->]. rewrite drop_app_length.
    split; [by intros [= ->]|]. by intros ->%app_inv_head.
  - split; [done|]. intros ->. assert (H : starts_with p (p ++ t) = true) by (apply starts_with_spec; by exists t).
    congruence.
Qed.

Lemma ends_with_spec p s : ends_with p s = true <-> exists t, s = t ++ p.
Proof.
  unfold ends_with. rewrite andb_true_iff, str_eqb_true, Nat.leb_le. split.
  - intros [Hle E]. exists (take (length s - length p) s). rewrite <- E at 2. by rewrite take_drop.
  - intros [t ->]. rewrite length_app. split; [lia|].
    replace (length t + length p - length p)%nat with (length t) by lia. apply drop_app_length.
Qed.

Lemma strip_suffix_Some p s t : strip_suffix p s = Some t <-> s = t ++ p.
Proof.
  unfold strip_suffix. destruct (ends_with p s) eqn:E.
  - apply ends_with_spec in E as [u ->]. rewrite length_app.
    replace (length u + length p - length p)%nat with (length u) by lia. rewrite take_app_length.
    split; [by intros [= ->]|]. by intros ->%app_inv_tail.
  - split; [done|]. intros ->. assert (H : ends_with p (t ++ p) = true) by (apply ends_with_spec; by exists t).
    congruence.
Qed.

(** Trimming and slicing only drop bytes. *)
Lemma nul_free_app s t : nul_free (s ++ t) <-> nul_free s /\ nul_free t.
Proof. unfold nul_free. rewrite elem_of_app. naive_solver. Qed.

Lemma nul_free_take n s : nul_free s -> nul_free (take n s).
Proof. rewrite <- (take_drop n s) at 1. by intros [? _]%nul_free_app. Qed.

Lemma nul_free_drop n s : nul_free s -> nul_free (drop n s).
Proof. rewrite <- (take_drop n s) at 1. by intros [_ ?]%nul_free_app. Qed.

Lemma nul_free_trim s : nul_free s -> nul_free (trim s).
Proof.
  assert (Hs : forall fuel s, nul_free s -> nul_free (trim_start_loop fuel s)).
  { induction fuel as [|fuel IH]; intros t Ht; cbn [trim_start_loop]; [done|].
    destruct (List.find _ _); [|done]. by apply IH, nul_free_drop. }
  assert (He : forall fuel s, nul_free s -> nul_free (trim_end_loop fuel s)).
  { induction fuel as [|fuel IH]; intros t Ht; cbn [trim_end_loop]; [done|].
    destruct (List.find _ _); [|done]. by apply IH, nul_free_take. }
  intros H. unfold trim. by apply He, Hs.
Qed.

Lemma word_bytes_pack k s :
  forallb byte_ok s = true ->
  word_bytes (pack_words k s) = take (8 * k) s ++ replicate (8 * k - length s) 0.
Proof.
  revert s. induction k as [|k IH]; intros s Hs; cbn [pack_words].
  { by rewrite Nat.mul_0_r. }
  unfold word_bytes in *. cbn [fmap list_fmap concat].
  assert (Hb : forallb byte_ok (pad8 (take 8 s)) = true /\ length (pad8 (take 8 s)) = 8%nat).
  { unfold pad8. split.
    - rewrite forallb_app. apply andb_true_iff. split.
      + rewrite <- (take_drop 8 s), forallb_app in Hs. by apply andb_true_iff in Hs as [? _].
      + generalize (8 - length (take 8 s))%nat. induction n as [|n IHn]; cbn; [done|exact IHn].
    - rewrite length_app, length_replicate, length_take. lia. }
  destruct Hb as [Hb Hlen]. rewrite <- Hlen at 1. rewrite to_from_le_bytes by done. rewrite IH.
  2:{ rewrite <- (take_drop 8 s), forallb_app in Hs. by apply andb_true_iff in Hs as [_ ?]. }
  unfold pad8. replace (8 * S k)%nat with (8 + 8 * k)%nat by lia. rewrite length_drop, length_take.
  destruct (Nat.le_gt_cases 8 (length s)) as [Hge|Hlt].
  - rewrite Nat.min_l, Nat.sub_diag by lia. cbn [replicate]. rewrite app_nil_r, app_assoc.
    rewrite <- take_take_drop. f_equal. f_equal. lia.
  - rewrite (drop_ge s 8), (take_ge s (8 + 8 * k)), (take_ge s 8) by lia. rewrite take_nil. cbn [app].
    rewrite Nat.min_r by lia. rewrite <- app_assoc, <- replicate_add. f_equal. f_equal. lia.
Qed.

(** A name that fits comes back unchanged. *)
Lemma unpack_pack k s :
  forallb byte_ok s = true -> nul_free s -> (length s <= 8 * k)%nat -> unpack_bytes (pack_words k s) = s.
Proof.
  intros Hb Hn Hl. unfold unpack_bytes. rewrite word_bytes_pack, take_ge by done.
  destruct (8 * k - length s)%nat as [|n]; cbn [replicate].
  - rewrite app_nil_r. by apply until_nul_free.
  - by apply until_nul_app.
Qed.
