(* ===== verification/RamFs.v ===== *)
(** * The in-memory file system

    Models [os/fs/src/ramfs.rs] (the kernel shell's [ramfs.rs] is the same
    code): a flat table of 64 entries, each with a NUL-terminated path of at
    most 63 bytes and at most 4096 bytes of data.  The static table is the
    state; indexing or slicing outside an array is a panic.

    The table is proved to implement a finite map from paths to nodes. *)

From S2P Require Import Prelude Bytes.
From Stdlib Require Import ZArith Lia Bool.
From stdpp Require Import gmap.
Open Scope Z_scope.

Definition MAX_FILES : nat := 64.
Definition MAX_NAME_LEN : nat := 63.
Definition MAX_FILE_SIZE : nat := 4096.

Record FileEntry := mkEntry {
  e_name : list Z; e_data : list Z; e_len : nat; used : bool; is_dir : bool }.

Definition FileEntry_empty : FileEntry :=
  mkEntry (replicate (MAX_NAME_LEN + 1) 0) (replicate MAX_FILE_SIZE 0) 0 false false.

Inductive FsError :=
| NotFound | AlreadyExists | NoSpace | NameTooLong | FileTooLarge | IsDirectory | NotDirectory | NotEmpty.

#[export] Instance FsError_eq_dec : EqDecision FsError.
Proof. solve_decision. Defined.

Definition name_str (e : FileEntry) : str := until_nul (e_name e).

Definition set_name (name : str) (e : FileEntry) : FileEntry :=
  let len := Nat.min (length name) MAX_NAME_LEN in
  mkEntry (take len name ++ 0 :: drop (len + 1) (e_name e)) (e_data e) (e_len e) (used e) (is_dir e).

(** [data[..content.len()].copy_from_slice(content)], a panic when the content
    is longer than the array *)
Definition set_data (content : list Z) (e : FileEntry) : option FileEntry :=
  if (length content <=? length (e_data e))%nat then
    Some (mkEntry (e_name e) (content ++ drop (length content) (e_data e)) (e_len e) (used e) (is_dir e))
  else None.
Definition set_len (n : nat) (e : FileEntry) : FileEntry := mkEntry (e_name e) (e_data e) n (used e) (is_dir e).
Definition set_used (b : bool) (e : FileEntry) : FileEntry := mkEntry (e_name e) (e_data e) (e_len e) b (is_dir e).
Definition set_is_dir (b : bool) (e : FileEntry) : FileEntry := mkEntry (e_name e) (e_data e) (e_len e) (used e) b.

Abbreviation Fs := (list FileEntry).

Definition fs_empty : Fs := replicate MAX_FILES FileEntry_empty.

(** [FS[i] = e] *)
Definition put (i : nat) (e : FileEntry) : M Fs unit := modify (<[i := e]>).
Definition get (i : nat) : M Fs FileEntry := o <- gets (fun s => s !! i) ;; expect o.

Definition normalize_path (path : str) : str :=
  let path := trim path in
  let front := if starts_with [SLASH] path then [] else [SLASH] in
  let buf := front ++ take (Nat.min (length path) (MAX_NAME_LEN - length front)) path in
  if (1 <? length buf)%nat && ends_with [SLASH] buf then take (length buf - 1) buf else buf.

(** The first index at which [f] holds, as the [for] loops find it. *)
Fixpoint find_index (f : FileEntry -> bool) (i : nat) (s : Fs) : option nat :=
  match s with
  | [] => None
  | e :: s => if f e then Some i else find_index f (S i) s
  end.

Definition find_entry (path : str) (s : Fs) : option nat :=
  find_index (fun e => used e && str_eqb (name_str e) path) 0 s.
Definition find_free (s : Fs) : option nat := find_index (fun e => negb (used e)) 0 s.

Definition init : M Fs unit :=
  e <- get 0 ;; put 0 (set_is_dir true (set_used true (set_name [SLASH] e))).

Definition mkdir (path : str) : M Fs (res unit FsError) :=
  let path := normalize_path path in
  if (MAX_NAME_LEN <? length path)%nat then ret (Err NameTooLong)
  else
    s <- gets id ;;
    match find_entry path s with
    | Some _ => ret (Err AlreadyExists)
    | None =>
        match find_free s with
        | None => ret (Err NoSpace)
        | Some idx =>
            _ <- put idx (set_is_dir true (set_used true (set_name path FileEntry_empty))) ;;
            ret (Ok tt)
        end
    end.

Definition write (path : str) (content : list Z) : M Fs (res unit FsError) :=
  let path := normalize_path path in
  if (MAX_NAME_LEN <? length path)%nat then ret (Err NameTooLong)
  else if (MAX_FILE_SIZE <? length content)%nat then ret (Err FileTooLarge)
  else
    s <- gets id ;;
    match find_entry path s with
    | Some idx =>
        e <- get idx ;;
        if is_dir e then ret (Err IsDirectory)
        else
          e <- expect (set_data content e) ;;
          _ <- put idx (set_len (length content) e) ;;
          ret (Ok tt)
    | None =>
        match find_free s with
        | None => ret (Err NoSpace)
        | Some idx =>
            e <- expect (set_data content (set_name path FileEntry_empty)) ;;
            _ <- put idx (set_is_dir false (set_used true (set_len (length content) e))) ;;
            ret (Ok tt)
        end
    end.

Definition read (path : str) : M Fs (res (list Z) FsError) :=
  let path := normalize_path path in
  s <- gets id ;;
  match find_entry path s with
  | None => ret (Err NotFound)
  | Some idx =>
      e <- get idx ;;
      if is_dir e then ret (Err IsDirectory)
      else
        _ <- assertb (e_len e <=? length (e_data e))%nat ;;
        ret (Ok (take (e_len e) (e_data e)))
  end.

(** An entry below the directory [path]: a longer name that starts with
    [path/]. *)
Definition below (path : str) (n : str) : bool :=
  (length path + 1 <? length n)%nat && str_eqb (take (length path) n) path &&
  match n !! length path with Some b => b =? SLASH | None => false end.

Fixpoint has_child (path : str) (idx i : nat) (s : Fs) : bool :=
  match s with
  | [] => false
  | e :: s =>
      if used e && negb (i =? idx)%nat && below path (name_str e) then true
      else has_child path idx (S i) s
  end.

Definition remove (path : str) : M Fs (res unit FsError) :=
  let path := normalize_path path in
  if str_eqb path [SLASH] then ret (Err NotEmpty)
  else
    s <- gets id ;;
    match find_entry path s with
    | None => ret (Err NotFound)
    | Some idx =>
        e <- get idx ;;
        if is_dir e && has_child path idx 0 s then ret (Err NotEmpty)
        else _ <- put idx (set_used false e) ;; ret (Ok tt)
    end.

(** A direct child of the directory. *)
Definition is_child (dir_path name : str) : bool :=
  if str_eqb dir_path [SLASH] then starts_with [SLASH] name && negb (contains_byte SLASH (drop 1 name))
  else
    starts_with dir_path name &&
    match name !! length dir_path with Some b => b =? SLASH | None => false end &&
    negb (contains_byte SLASH (drop (length dir_path + 1) name)).

Definition basename (name : str) : str :=
  match rfind_byte SLASH name with Some pos => drop (pos + 1) name | None => name end.

(** The callbacks of [list], in order. *)
Definition list_item (dir_path : str) (e : FileEntry) : option (str * bool * nat) :=
  if negb (used e) then None
  else if str_eqb (name_str e) dir_path then None
  else if is_child dir_path (name_str e) then Some (basename (name_str e), is_dir e, e_len e)
  else None.

Definition list_dir (dir_path : str) : M Fs (res (list (str * bool * nat)) FsError) :=
  let dir_path := normalize_path dir_path in
  s <- gets id ;;
  match find_entry dir_path s with
  | None => ret (Err NotFound)
  | Some idx =>
      e <- get idx ;;
      if negb (is_dir e) then ret (Err NotDirectory)
      else ret (Ok (omap (list_item dir_path) s))
  end.

Definition stats (s : Fs) : nat * nat * nat :=
  (length (List.filter used s), MAX_FILES, sum_list (e_len <$> List.filter used s)).

(** ** Paths *)

Lemma normalize_length path : (length (normalize_path path) <= MAX_NAME_LEN)%nat.
Proof.
  unfold normalize_path. set (p := trim path). set (front := if starts_with [SLASH] p then [] else [SLASH]).
  assert (Hf : (length front <= 1)%nat) by (subst front; destruct (starts_with [SLASH] p); cbn; lia).
  set (buf := front ++ take _ p).
  assert (Hb : (length buf <= MAX_NAME_LEN)%nat).
  { subst buf. rewrite length_app, length_take. unfold MAX_NAME_LEN in *. lia. }
  destruct (_ && _); [rewrite length_take|]; lia.
Qed.

Lemma normalize_nul_free path : nul_free path -> nul_free (normalize_path path).
Proof.
  intros H%nul_free_trim. unfold normalize_path.
  set (front := if starts_with [SLASH] (trim path) then [] else [SLASH]).
  assert (Hf : nul_free front).
  { subst front. destruct (starts_with _ _); [apply not_elem_of_nil|].
    apply not_elem_of_cons. split; [done|apply not_elem_of_nil]. }
  set (buf := front ++ _).
  assert (Hb : nul_free buf) by (apply nul_free_app; split; [done|by apply nul_free_take]).
  destruct (_ && _); [by apply nul_free_take|done].
Qed.

Lemma set_name_str path e :
  nul_free path -> (length path <= MAX_NAME_LEN)%nat -> name_str (set_name path e) = path.
Proof.
  intros Hn Hl. unfold name_str, set_name; cbn [e_name].
  rewrite Nat.min_l, take_ge by lia. by apply until_nul_app.
Qed.

(** ** The file system as a map from paths to nodes *)

Inductive Node := Dir | File (content : list Z).

#[export] Instance Node_eq_dec : EqDecision Node.
Proof. solve_decision. Defined.

Definition node_of (e : FileEntry) : Node :=
  if is_dir e then Dir else File (take (e_len e) (e_data e)).
Definition node_len (n : Node) : nat := match n with Dir => 0%nat | File c => length c end.
Definition node_is_dir (n : Node) : bool := match n with Dir => true | File _ => false end.

Fixpoint view (s : Fs) : gmap str Node :=
  match s with
  | [] => ∅
  | e :: s => if used e then <[name_str e := node_of e]> (view s) else view s
  end.

Record entry_ok (e : FileEntry) : Prop := {
  eo_data : length (e_data e) = MAX_FILE_SIZE;
  eo_len : (e_len e <= MAX_FILE_SIZE)%nat;
  eo_dir : is_dir e = true -> e_len e = 0%nat }.

Definition unique_names (s : Fs) : Prop :=
  forall i j e e', s !! i = Some e -> s !! j = Some e' -> used e = true -> used e' = true ->
    name_str e = name_str e' -> i = j.

Record fs_ok (s : Fs) : Prop := {
  fo_size : length s = MAX_FILES;
  fo_entries : Forall entry_ok s;
  fo_unique : unique_names s }.

Lemma unique_tail e s : unique_names (e :: s) -> unique_names s.
Proof.
  intros H i j a b Hi Hj Ha Hb Hn. specialize (H (S i) (S j) a b Hi Hj Ha Hb Hn). lia.
Qed.

Lemma view_lookup s p n :
  unique_names s ->
  view s !! p = Some n <-> exists i e, s !! i = Some e /\ used e = true /\ name_str e = p /\ node_of e = n.
Proof.
  induction s as [|e s IH]; intros Hu; cbn [view].
  { rewrite lookup_empty. split; [done|]. by intros (i & e & H & _). }
  specialize (IH (unique_tail _ _ Hu)).
  assert (Hshift : (exists i a, s !! i = Some a /\ used a = true /\ name_str a = p /\ node_of a = n) ->
    exists i a, (e :: s) !! i = Some a /\ used a = true /\ name_str a = p /\ node_of a = n).
  { intros (i & a & H). by exists (S i), a. }
  destruct (used e) eqn:Eu.
  - destruct (decide (name_str e = p)) as [Hp|Hp].
    + subst p. rewrite lookup_insert_eq. split.
      * intros [= <-]. by exists 0%nat, e.
      * intros (i & a & Ha & Hua & Hn & <-). f_equal.
        assert (i = 0%nat) as -> by (apply (Hu i 0%nat a e); auto). cbn in Ha. congruence.
    + rewrite lookup_insert_ne, IH by done. split; [done|].
      intros ([|i] & a & Ha & Hua & Hn & Hd); cbn in Ha; [congruence|]. by exists i, a.
  - rewrite IH. split; [done|].
    intros ([|i] & a & Ha & Hua & Hn & Hd); cbn in Ha; [congruence|]. by exists i, a.
Qed.

Lemma view_absent s p :
  unique_names s ->
  view s !! p = None <-> forall i e, s !! i = Some e -> used e = true -> name_str e <> p.
Proof.
  intros Hu. rewrite eq_None_not_Some. split.
  - intros H i e Hi Hue Hn. apply H. exists (node_of e). apply view_lookup; [done|]. by exists i, e.
  - intros H [n Hn]. apply view_lookup in Hn as (i & e & Hi & Hue & Hp & _); [|done]. by apply (H i e).
Qed.

Lemma view_fresh e s : unique_names (e :: s) -> used e = true -> view s !! name_str e = None.
Proof.
  intros Hu Hue. apply view_absent; [by eapply unique_tail|]. intros i a Ha Hua Hn.
  specialize (Hu (S i) 0%nat a e Ha eq_refl Hua Hue Hn). done.
Qed.

Lemma view_size s : unique_names s -> size (view s) = length (List.filter used s).
Proof.
  induction s as [|e s IH]; intros Hu; cbn; [apply map_size_empty|].
  destruct (used e) eqn:Eu; [|by apply IH, (unique_tail e)].
  rewrite map_size_insert_None by (by apply view_fresh). cbn. f_equal. by apply IH, (unique_tail e).
Qed.

(** ** Searching the table *)

Lemma find_index_spec f i s :
  match find_index f i s with
  | Some k => exists j e, k = (i + j)%nat /\ s !! j = Some e /\ f e = true
  | None => forall j e, s !! j = Some e -> f e = false
  end.
Proof.
  revert i. induction s as [|e s IH]; intros i; cbn [find_index]; [by intros j e|].
  destruct (f e) eqn:E; [exists 0%nat, e; split; [lia|done]|].
  specialize (IH (S i)). destruct (find_index f (S i) s) as [k|].
  - destruct IH as (j & a & -> & Ha & Hf). exists (S j), a. split; [lia|done].
  - intros [|j] a Ha; cbn in Ha; [congruence|by eapply IH].
Qed.

Lemma find_entry_Some path s i :
  find_entry path s = Some i -> exists e, s !! i = Some e /\ used e = true /\ name_str e = path.
Proof.
  intros H. pose proof (find_index_spec (fun e => used e && str_eqb (name_str e) path) 0 s) as Hs.
  unfold find_entry in H. rewrite H in Hs. destruct Hs as (j & e & -> & Hj & [Hu Hn%str_eqb_true]%andb_true_iff).
  by exists e.
Qed.

Lemma find_entry_None path s : unique_names s -> find_entry path s = None -> view s !! path = None.
Proof.
  intros Hu H. pose proof (find_index_spec (fun e => used e && str_eqb (name_str e) path) 0 s) as Hs.
  unfold find_entry in H. rewrite H in Hs. apply view_absent; [done|].
  intros i e Hi Hue Hn. specialize (Hs i e Hi). cbn in Hs. rewrite Hue in Hs. cbn in Hs.
  apply str_eqb_true in Hn. congruence.
Qed.

Lemma find_free_spec s :
  fs_ok s ->
  match find_free s with
  | Some i => (exists e, s !! i = Some e /\ used e = false) /\ (size (view s) < MAX_FILES)%nat
  | None => size (view s) = MAX_FILES
  end.
Proof.
  intros [Hlen _ Hu]. rewrite (view_size s Hu), <- Hlen. clear Hlen Hu.
  pose proof (find_index_spec (fun e => negb (used e)) 0 s) as Hs. unfold find_free.
  destruct (find_index _ 0 s) as [i|].
  - destruct Hs as (j & e & -> & Hj & Hf%negb_true_iff). split; [by exists e|].
    apply lookup_split in Hj as (l1 & l2 & -> & _).
    rewrite List.filter_app, !length_app. cbn. rewrite Hf.
    pose proof (List.filter_length_le used l1). pose proof (List.filter_length_le used l2). lia.
  - f_equal. assert (Hall : forall e, In e s -> used e = true).
    { intros e [j Hj]%list_elem_of_In%list_elem_of_lookup. specialize (Hs j e Hj). by apply negb_false_iff. }
    clear Hs. induction s as [|e s IH]; cbn; [done|]. rewrite Hall by (by left). f_equal.
    apply IH. intros a Ha. apply Hall. by right.
Qed.

(** ** Updating the table *)

Definition add_node (e : FileEntry) (m : gmap str Node) : gmap str Node :=
  if used e then <[name_str e := node_of e]> m else m.
Definition del_node (e : FileEntry) (m : gmap str Node) : gmap str Node :=
  if used e then delete (name_str e) m else m.

Lemma view_put s i old e' :
  s !! i = Some old -> unique_names s -> unique_names (<[i := e']> s) ->
  view (<[i := e']> s) = add_node e' (del_node old (view s)).
Proof.
  revert i. induction s as [|e s IH]; intros [|i] Hi Hu Hu'; cbn in Hi; try done.
  - injection Hi as ->. change (<[0%nat := e']> (old :: s)) with (e' :: s). cbn [view]. unfold add_node, del_node.
    destruct (used old) eqn:Eo; [|by destruct (used e')].
    rewrite delete_insert_id by (by apply view_fresh). by destruct (used e').
  - change (<[S i := e']> (e :: s)) with (e :: <[i := e']> s) in *. cbn [view]. rewrite (IH i Hi (unique_tail _ _ Hu) (unique_tail _ _ Hu')).
    destruct (used e) eqn:Ee; [|done]. unfold add_node, del_node.
    assert (Hold : used old = true -> name_str e <> name_str old).
    { intros Ho Hn. by specialize (Hu 0%nat (S i) e old eq_refl Hi Ee Ho Hn). }
    assert (Hnew : used e' = true -> name_str e <> name_str e').
    { intros Ho Hn. assert (Hi' : (e :: <[i := e']> s) !! S i = Some e').
      { apply (list_lookup_insert_eq s i e'). by eapply lookup_lt_Some. }
      by specialize (Hu' 0%nat (S i) e e' eq_refl Hi' Ee Ho Hn). }
    destruct (used old); destruct (used e');
      rewrite ?(delete_insert_ne _ (name_str old) (name_str e)) by (apply not_eq_sym; auto); try done;
      by rewrite insert_insert_ne by auto.
Qed.

Lemma fs_ok_put s i old e' :
  fs_ok s -> s !! i = Some old -> entry_ok e' ->
  (used e' = true -> view s !! name_str e' = None \/ (used old = true /\ name_str old = name_str e')) ->
  fs_ok (<[i := e']> s) /\ view (<[i := e']> s) = add_node e' (del_node old (view s)).
Proof.
  intros [Hlen Hall Hu] Hi He' Hname.
  assert (Hone : forall j a, j <> i -> s !! j = Some a -> used a = true -> used e' = true -> name_str a <> name_str e').
  { intros j a Hj Ha Hua Hue' Hn. destruct (Hname Hue') as [Habs|[Hold Ho]].
    - by apply (proj1 (view_absent s _ Hu) Habs j a).
    - apply Hj, (Hu j i a old); congruence. }
  assert (Hu' : unique_names (<[i := e']> s)).
  { intros j k a b. rewrite !list_lookup_insert.
    repeat case_decide; intros Ha Hb Hua Hub Hn; simplify_eq; try lia.
    - destruct (decide (k = j)) as [|Hk]; [done|]. exfalso. apply (Hone k b); naive_solver.
    - destruct (decide (j = k)) as [|Hk]; [done|]. exfalso. apply (Hone j a); naive_solver.
    - by apply (Hu j k a b). }
  split; [|by apply view_put]. split; [by rewrite length_insert|by apply Forall_insert|done].
Qed.

(** ** The operations of the specification *)

Definition spec_mkdir (path : str) (m : gmap str Node) : res unit FsError * gmap str Node :=
  let path := normalize_path path in
  match m !! path with
  | Some _ => (Err AlreadyExists, m)
  | None => if (size m =? MAX_FILES)%nat then (Err NoSpace, m) else (Ok tt, <[path := Dir]> m)
  end.

Definition spec_write (path : str) (content : list Z) (m : gmap str Node) : res unit FsError * gmap str Node :=
  let path := normalize_path path in
  if (MAX_FILE_SIZE <? length content)%nat then (Err FileTooLarge, m)
  else
    match m !! path with
    | Some Dir => (Err IsDirectory, m)
    | Some (File _) => (Ok tt, <[path := File content]> m)
    | None => if (size m =? MAX_FILES)%nat then (Err NoSpace, m) else (Ok tt, <[path := File content]> m)
    end.

Definition spec_read (path : str) (m : gmap str Node) : res (list Z) FsError :=
  match m !! normalize_path path with
  | Some (File content) => Ok content
  | Some Dir => Err IsDirectory
  | None => Err NotFound
  end.

Definition spec_remove (path : str) (m : gmap str Node) : res unit FsError * gmap str Node :=
  let path := normalize_path path in
  if str_eqb path [SLASH] then (Err NotEmpty, m)
  else
    match m !! path with
    | None => (Err NotFound, m)
    | Some (File _) => (Ok tt, delete path m)
    | Some Dir =>
        if existsb (fun kv => below path kv.1) (map_to_list m) then (Err NotEmpty, m)
        else (Ok tt, delete path m)
    end.

Definition child_item (dir_path : str) (kv : str * Node) : option (str * bool * nat) :=
  if str_eqb kv.1 dir_path then None
  else if is_child dir_path kv.1 then Some (basename kv.1, node_is_dir kv.2, node_len kv.2) else None.

Definition spec_list (path : str) (m : gmap str Node) : res (list (str * bool * nat)) FsError :=
  match m !! normalize_path path with
  | None => Err NotFound
  | Some (File _) => Err NotDirectory
  | Some Dir => Ok (omap (child_item (normalize_path path)) (map_to_list m))
  end.

Definition spec_stats (m : gmap str Node) : nat * nat * nat :=
  (size m, MAX_FILES, sum_list (node_len <$> (map_to_list m).*2)).

(** ** Each operation implements its specification *)

Lemma get_run s i e : s !! i = Some e -> get i s = Some (e, s).
Proof. intros H. unfold get, bind, gets. by rewrite H. Qed.

Lemma found s path i :
  fs_ok s -> find_entry path s = Some i ->
  exists e, s !! i = Some e /\ used e = true /\ name_str e = path /\ entry_ok e /\ view s !! path = Some (node_of e).
Proof.
  intros [_ Hall Hu] H. destruct (find_entry_Some _ _ _ H) as (e & Hi & Hue & Hn).
  exists e. do 3 (split; [done|]). split; [by eapply Forall_lookup_1|].
  apply view_lookup; [done|]. by exists i, e.
Qed.

Lemma new_entry_ok path content :
  (length content <= MAX_FILE_SIZE)%nat -> nul_free path -> (length path <= MAX_NAME_LEN)%nat ->
  exists e, set_data content (set_name path FileEntry_empty) = Some e /\
    let e' := set_is_dir false (set_used true (set_len (length content) e)) in
    entry_ok e' /\ name_str e' = path /\ node_of e' = File content.
Proof.
  intros Hc Hn Hl. unfold set_data. cbn [e_data set_name FileEntry_empty]. rewrite length_replicate.
  rewrite (proj2 (Nat.leb_le _ _)) by done. eexists. split; [reflexivity|]. cbv zeta. split; [|split].
  - split; cbn -[MAX_FILE_SIZE]; [|done|done]. rewrite length_app, length_drop, length_replicate. lia.
  - exact (set_name_str path FileEntry_empty Hn Hl).
  - unfold node_of; cbn -[MAX_FILE_SIZE]. by rewrite take_app_length.
Qed.

Lemma new_dir_ok path :
  nul_free path -> (length path <= MAX_NAME_LEN)%nat ->
  let e := set_is_dir true (set_used true (set_name path FileEntry_empty)) in
  entry_ok e /\ name_str e = path /\ node_of e = Dir.
Proof.
  intros Hn Hl. cbv zeta. split; [|split; [|done]].
  - split; cbn -[MAX_FILE_SIZE]; [by rewrite length_replicate|lia|done].
  - exact (set_name_str path FileEntry_empty Hn Hl).
Qed.

Lemma put_run i e s : put i e s = Some (tt, <[i := e]> s).
Proof. done. Qed.

Lemma mkdir_refines s path :
  fs_ok s -> nul_free path ->
  exists s', mkdir path s = Some ((spec_mkdir path (view s)).1, s') /\ fs_ok s' /\ view s' = (spec_mkdir path (view s)).2.
Proof.
  intros Hs Hn. pose proof (normalize_length path) as Hl. pose proof (normalize_nul_free path Hn) as Hnn.
  unfold mkdir, spec_mkdir. rewrite (proj2 (Nat.ltb_ge _ _)) by done.
  unfold bind, gets, id. destruct (find_entry (normalize_path path) s) as [i|] eqn:Ef.
  - destruct (found _ _ _ Hs Ef) as (e & _ & _ & _ & _ & ->). by exists s.
  - rewrite (find_entry_None _ _ (fo_unique _ Hs) Ef).
    pose proof (find_free_spec s Hs) as Hf. destruct (find_free s) as [i|].
    + destruct Hf as [(old & Hi & Hold) Hlt]. rewrite (proj2 (Nat.eqb_neq _ _)) by lia.
      rewrite put_run. destruct (new_dir_ok _ Hnn Hl) as (He & Hname & Hnode).
      set (e' := set_is_dir true _) in *.
      destruct (fs_ok_put s i old e' Hs Hi He) as [Hok Hv].
      { intros _. left. rewrite Hname. by apply find_entry_None; [apply Hs|]. }
      exists (<[i := e']> s). split; [done|]. split; [done|]. rewrite Hv. unfold add_node, del_node.
      by rewrite Hold, Hname, Hnode.
    + rewrite Hf, Nat.eqb_refl. by exists s.
Qed.

Lemma overwrite_ok e content :
  entry_ok e -> (length content <= MAX_FILE_SIZE)%nat -> is_dir e = false ->
  exists e', set_data content e = Some e' /\
    let f := set_len (length content) e' in
    entry_ok f /\ used f = used e /\ name_str f = name_str e /\ node_of f = File content.
Proof.
  intros [Hd Hle Hdir] Hc Hnd. unfold set_data. rewrite Hd. rewrite (proj2 (Nat.leb_le _ _)) by done.
  eexists. split; [reflexivity|]. cbv zeta. split; [|split; [done|split; [done|]]].
  - split; cbn -[MAX_FILE_SIZE]; [|done|by rewrite Hnd]. rewrite length_app, length_drop. lia.
  - unfold node_of; cbn -[MAX_FILE_SIZE]. by rewrite Hnd, take_app_length.
Qed.

Lemma write_refines s path content :
  fs_ok s -> nul_free path ->
  exists s', write path content s = Some ((spec_write path content (view s)).1, s') /\ fs_ok s' /\
    view s' = (spec_write path content (view s)).2.
Proof.
  intros Hs Hn. pose proof (normalize_length path) as Hl. pose proof (normalize_nul_free path Hn) as Hnn.
  unfold write, spec_write. rewrite (proj2 (Nat.ltb_ge _ _)) by done.
  destruct (Nat.ltb_spec MAX_FILE_SIZE (length content)) as [Hbig|Hfit]; [by exists s|].
  unfold bind, gets, id. destruct (find_entry (normalize_path path) s) as [i|] eqn:Ef.
  - destruct (found _ _ _ Hs Ef) as (e & Hi & Hue & Hname & He & ->).
    rewrite (get_run _ _ _ Hi). unfold node_of. destruct (is_dir e) eqn:Ed; [by exists s|].
    destruct (overwrite_ok e content He Hfit Ed) as (e' & -> & Hf & Hu' & Hn' & Hnode). cbn [expect ret].
    rewrite put_run. set (f := set_len (length content) e') in *.
    destruct (fs_ok_put s i e f Hs Hi Hf) as [Hok Hv]; [by right|].
    exists (<[i := f]> s). split; [done|]. split; [done|]. rewrite Hv. unfold add_node, del_node.
    rewrite Hu', Hue, Hn', Hnode, Hname. by rewrite insert_delete_eq.
  - rewrite (find_entry_None _ _ (fo_unique _ Hs) Ef).
    pose proof (find_free_spec s Hs) as Hf. destruct (find_free s) as [i|].
    + destruct Hf as [(old & Hi & Hold) Hlt]. rewrite (proj2 (Nat.eqb_neq _ _)) by lia.
      destruct (new_entry_ok _ content Hfit Hnn Hl) as (e & -> & He & Hname & Hnode). cbn [expect ret].
      rewrite put_run. set (e' := set_is_dir false _) in *.
      destruct (fs_ok_put s i old e' Hs Hi He) as [Hok Hv].
      { intros _. left. rewrite Hname. by apply find_entry_None; [apply Hs|]. }
      exists (<[i := e']> s). split; [done|]. split; [done|]. rewrite Hv. unfold add_node, del_node.
      by rewrite Hold, Hname, Hnode.
    + rewrite Hf, Nat.eqb_refl. by exists s.
Qed.

Lemma read_refines s path : fs_ok s -> read path s = Some (spec_read path (view s), s).
Proof.
  intros Hs. unfold read, spec_read, bind, gets, id.
  destruct (find_entry (normalize_path path) s) as [i|] eqn:Ef.
  - destruct (found _ _ _ Hs Ef) as (e & Hi & _ & _ & [Hd Hle _] & ->).
    rewrite (get_run _ _ _ Hi). unfold node_of. destruct (is_dir e); [done|].
    rewrite Hd. by rewrite (proj2 (Nat.leb_le _ _)) by done.
  - by rewrite (find_entry_None _ _ (fo_unique _ Hs) Ef).
Qed.

Lemma below_irrefl path : below path path = false.
Proof. unfold below. by rewrite (proj2 (Nat.ltb_ge _ _)) by lia. Qed.

Lemma has_child_spec path idx k s :
  has_child path idx k s = true <->
  exists i e, s !! i = Some e /\ used e = true /\ (k + i)%nat <> idx /\ below path (name_str e) = true.
Proof.
  revert k. induction s as [|e s IH]; intros k; cbn [has_child].
  { split; [done|]. by intros (i & e & H & _). }
  destruct (used e && negb (k =? idx)%nat && below path (name_str e)) eqn:E.
  - apply andb_true_iff in E as [[Hu Hk%negb_true_iff%Nat.eqb_neq]%andb_true_iff Hb].
    split; [|done]. intros _. exists 0%nat, e. rewrite Nat.add_0_r. done.
  - rewrite IH. split.
    + intros (i & a & Hi & Hu & Hne & Hb). exists (S i), a. split; [done|]. split; [done|]. split; [lia|done].
    + intros ([|i] & a & Hi & Hu & Hne & Hb); cbn in Hi.
      * injection Hi as ->. rewrite Hu, Hb in E. rewrite Nat.add_0_r in Hne.
        rewrite (proj2 (Nat.eqb_neq _ _)) in E by done. done.
      * exists i, a. do 2 (split; [done|]). split; [lia|done].
Qed.

Lemma has_child_view path idx e s :
  fs_ok s -> s !! idx = Some e -> name_str e = path ->
  has_child path idx 0 s = existsb (fun kv => below path kv.1) (map_to_list (view s)).
Proof.
  intros Hs Hidx Hn. apply eq_true_iff_eq. rewrite has_child_spec, existsb_exists. split.
  - intros (i & a & Hi & Hu & _ & Hb). exists (name_str a, node_of a). split; [|done].
    apply list_elem_of_In, elem_of_map_to_list. apply view_lookup; [apply Hs|]. by exists i, a.
  - intros ([k n] & Hin & Hb). apply list_elem_of_In, elem_of_map_to_list in Hin.
    apply view_lookup in Hin as (i & a & Hi & Hu & <- & _); [|apply Hs]. exists i, a.
    do 2 (split; [done|]). split; [|done]. cbn [Nat.add]. intros ->.
    assert (a = e) as -> by congruence. cbn in Hb. by rewrite Hn, below_irrefl in Hb.
Qed.

Lemma remove_refines s path :
  fs_ok s ->
  exists s', remove path s = Some ((spec_remove path (view s)).1, s') /\ fs_ok s' /\ view s' = (spec_remove path (view s)).2.
Proof.
  intros Hs. unfold remove, spec_remove. destruct (str_eqb (normalize_path path) [SLASH]); [by exists s|].
  unfold bind, gets, id. destruct (find_entry (normalize_path path) s) as [i|] eqn:Ef.
  2:{ rewrite (find_entry_None _ _ (fo_unique _ Hs) Ef). by exists s. }
  destruct (found _ _ _ Hs Ef) as (e & Hi & Hue & Hname & He & ->).
  rewrite (get_run _ _ _ Hi), (has_child_view _ _ e s Hs Hi Hname).
  assert (Hdel : fs_ok (<[i := set_used false e]> s) /\
    view (<[i := set_used false e]> s) = delete (normalize_path path) (view s)).
  { destruct (fs_ok_put s i e (set_used false e) Hs Hi) as [Hok Hv]; [by destruct He|done|].
    split; [done|]. rewrite Hv. unfold add_node, del_node. cbn [used set_used]. by rewrite Hue, Hname. }
  unfold node_of. destruct (is_dir e); cbn [andb].
  - destruct (existsb _ _); [by exists s|]. rewrite put_run. by exists (<[i := set_used false e]> s).
  - rewrite put_run. by exists (<[i := set_used false e]> s).
Qed.

Lemma node_of_dir e : node_is_dir (node_of e) = is_dir e.
Proof. unfold node_of. by destruct (is_dir e). Qed.

Lemma node_of_len e : entry_ok e -> node_len (node_of e) = e_len e.
Proof.
  intros [Hd Hl Hdir]. unfold node_of. destruct (is_dir e); cbn [node_len]; [by rewrite Hdir|].
  rewrite length_take. lia.
Qed.

Lemma list_items_view dir s :
  Forall entry_ok s -> unique_names s ->
  omap (list_item dir) s ≡ₚ omap (child_item dir) (map_to_list (view s)).
Proof.
  induction s as [|e s IH]; intros Hall Hu; cbn [view]; [by rewrite map_to_list_empty|].
  inversion_clear Hall as [|? ? He Hs]. specialize (IH Hs (unique_tail _ _ Hu)).
  assert (Hitem : used e = true -> list_item dir e = child_item dir (name_str e, node_of e)).
  { intros Hue. unfold list_item, child_item. rewrite Hue. cbn.
    by rewrite node_of_dir, node_of_len. }
  destruct (used e) eqn:Eu.
  - rewrite map_to_list_insert by (by apply view_fresh). cbn. rewrite Hitem by done.
    by destruct (child_item dir _); [constructor|].
  - cbn. assert (list_item dir e = None) as -> by (unfold list_item; by rewrite Eu). done.
Qed.

Lemma list_refines s path :
  fs_ok s ->
  exists r, list_dir path s = Some (r, s) /\
  match r, spec_list path (view s) with
  | Ok l, Ok l' => l ≡ₚ l'
  | Err e, Err e' => e = e'
  | _, _ => False
  end.
Proof.
  intros Hs. unfold list_dir, spec_list, bind, gets, id.
  destruct (find_entry (normalize_path path) s) as [i|] eqn:Ef.
  - destruct (found _ _ _ Hs Ef) as (e & Hi & _ & _ & _ & ->). rewrite (get_run _ _ _ Hi).
    unfold node_of. destruct (is_dir e); cbn [negb]; [|by eexists].
    eexists. split; [done|]. by apply list_items_view; apply Hs.
  - rewrite (find_entry_None _ _ (fo_unique _ Hs) Ef). by eexists.
Qed.

Lemma sum_list_perm (l l' : list nat) : l ≡ₚ l' -> sum_list l = sum_list l'.
Proof. induction 1; cbn; lia. Qed.

Lemma stats_refines s : fs_ok s -> stats s = spec_stats (view s).
Proof.
  intros [_ Hall Hu]. unfold stats, spec_stats. rewrite view_size by done. f_equal.
  induction s as [|e s IH]; cbn [view]; [by rewrite map_to_list_empty|].
  inversion_clear Hall as [|? ? He Hs]. specialize (IH Hs (unique_tail _ _ Hu)). cbn [List.filter].
  destruct (used e) eqn:Eu; [|done].
  rewrite (sum_list_perm (node_len <$> (map_to_list (<[name_str e := node_of e]> (view s))).*2)
             (node_len <$> ((name_str e, node_of e) :: map_to_list (view s)).*2)).
  2:{ apply fmap_Permutation, fmap_Permutation. by apply map_to_list_insert, view_fresh. }
  cbn. rewrite node_of_len by done. by rewrite IH.
Qed.

(** ** Runs *)

Inductive fs_op :=
| FMkdir (path : str) | FWrite (path : str) (content : list Z) | FRead (path : str)
| FRemove (path : str) | FList (path : str) | FStats.

Inductive fs_out :=
| OUnit (r : res unit FsError) | OData (r : res (list Z) FsError)
| OList (r : res (list (str * bool * nat)) FsError) | OStats (x : nat * nat * nat).

Definition run_fs (op : fs_op) : M Fs fs_out :=
  match op with
  | FMkdir p => r <- mkdir p ;; ret (OUnit r)
  | FWrite p c => r <- write p c ;; ret (OUnit r)
  | FRead p => r <- read p ;; ret (OData r)
  | FRemove p => r <- remove p ;; ret (OUnit r)
  | FList p => r <- list_dir p ;; ret (OList r)
  | FStats => s <- gets id ;; ret (OStats (stats s))
  end.

Definition spec_fs (op : fs_op) (m : gmap str Node) : fs_out * gmap str Node :=
  match op with
  | FMkdir p => let r := spec_mkdir p m in (OUnit r.1, r.2)
  | FWrite p c => let r := spec_write p c m in (OUnit r.1, r.2)
  | FRead p => (OData (spec_read p m), m)
  | FRemove p => let r := spec_remove p m in (OUnit r.1, r.2)
  | FList p => (OList (spec_list p m), m)
  | FStats => (OStats (spec_stats m), m)
  end.

(** Listings are compared up to their order. *)
Definition same_out (o o' : fs_out) : Prop :=
  match o, o' with
  | OList (Ok l), OList (Ok l') => l ≡ₚ l'
  | _, _ => o = o'
  end.

Definition op_path (op : fs_op) : str :=
  match op with FMkdir p | FWrite p _ | FRead p | FRemove p | FList p => p | FStats => [] end.

Fixpoint runs_fs (ops : list fs_op) : M Fs (list fs_out) :=
  match ops with [] => ret [] | op :: ops => o <- run_fs op ;; os <- runs_fs ops ;; ret (o :: os) end.

Fixpoint specs_fs (ops : list fs_op) (m : gmap str Node) : list fs_out * gmap str Node :=
  match ops with
  | [] => ([], m)
  | op :: ops => let '(o, m) := spec_fs op m in let '(os, m) := specs_fs ops m in (o :: os, m)
  end.

Lemma run_fs_refines s op :
  fs_ok s -> nul_free (op_path op) ->
  exists o s', run_fs op s = Some (o, s') /\ fs_ok s' /\ same_out o (spec_fs op (view s)).1 /\
    view s' = (spec_fs op (view s)).2.
Proof.
  intros Hs Hn. destruct op as [p|p c|p|p|p|]; cbn [run_fs spec_fs op_path] in *; unfold bind.
  - destruct (mkdir_refines s p Hs Hn) as (s' & -> & ? & ?). by eexists _, s'.
  - destruct (write_refines s p c Hs Hn) as (s' & -> & ? & ?). by eexists _, s'.
  - rewrite (read_refines s p Hs). by eexists _, s.
  - destruct (remove_refines s p Hs) as (s' & -> & ? & ?). by eexists _, s'.
  - destruct (list_refines s p Hs) as (r & -> & Hr). eexists _, s. split; [done|]. split; [done|]. split; [|done].
    cbn. destruct r, (spec_list p (view s)); by subst.
  - cbn. rewrite (stats_refines s Hs). by eexists _, s.
Qed.

Lemma runs_fs_refines s ops :
  fs_ok s -> Forall (fun op => nul_free (op_path op)) ops ->
  exists os s', runs_fs ops s = Some (os, s') /\ fs_ok s' /\ Forall2 same_out os (specs_fs ops (view s)).1 /\
    view s' = (specs_fs ops (view s)).2.
Proof.
  intros Hs Hops. revert s Hs. induction Hops as [|op ops Hn _ IH]; intros s Hs; cbn [runs_fs specs_fs].
  { eexists _, s. split; [done|]. split; [done|]. split; [constructor|done]. }
  destruct (run_fs_refines s op Hs Hn) as (o & s1 & Hrun & Hs1 & Ho & Hv).
  destruct (IH s1 Hs1) as (os & s2 & Hruns & Hs2 & Hos & Hv2).
  exists (o :: os), s2. unfold bind. rewrite Hrun, Hruns.
  destruct (spec_fs op (view s)) as [o' m']. cbn in Ho, Hv. subst m'.
  destruct (specs_fs ops (view s1)) as [os' m']. split; [done|]. split; [done|]. by split; [constructor|].
Qed.

Definition fs_start : Fs := match init fs_empty with Some (_, s) => s | None => [] end.

Lemma view_unused s : (forall e, e ∈ s -> used e = false) -> view s = ∅.
Proof.
  induction s as [|e s IH]; intros H; cbn; [done|]. rewrite (H e) by (by left). apply IH.
  intros a Ha. apply H. by right.
Qed.

Lemma fs_start_ok : fs_ok fs_start /\ view fs_start = {[ [SLASH] := Dir ]}.
Proof.
  assert (Hempty : fs_ok fs_empty /\ view fs_empty = ∅).
  { assert (Hun : forall i e, fs_empty !! i = Some e -> e = FileEntry_empty).
    { intros i e H. by apply lookup_replicate in H as [? _]. }
    split; [split|].
    - apply length_replicate.
    - apply Forall_replicate. split; cbn -[MAX_FILE_SIZE]; [apply length_replicate|lia|done].
    - intros i j e e' Hi _ Hu. apply Hun in Hi as ->. done.
    - apply view_unused. intros e [i Hi]%list_elem_of_lookup. by apply Hun in Hi as ->. }
  destruct Hempty as [Hok Hv].
  assert (Hp : nul_free [SLASH]) by (apply not_elem_of_cons; split; [done|apply not_elem_of_nil]).
  destruct (new_dir_ok [SLASH] Hp) as (He & Hn & Hnode); [unfold MAX_NAME_LEN; cbn; lia|].
  set (e := set_is_dir true _) in *.
  destruct (fs_ok_put fs_empty 0 FileEntry_empty e Hok eq_refl He) as [Hok' Hv'].
  { intros _. left. by rewrite Hv. }
  change fs_start with (<[0%nat := e]> fs_empty). split; [done|]. rewrite Hv', Hv.
  unfold add_node, del_node. cbn [used FileEntry_empty]. change (used e) with true. by rewrite Hn, Hnode.
Qed.

(** ** Theorems *)

(** C26. From the freshly initialised table, every sequence of operations on paths
    without NUL bytes runs without panic and answers as a finite map from
    normalised paths to nodes with at most 64 keys does: lookups, creations,
    overwrites, removals and their errors agree, listings agree up to order,
    and the table ends as the map. *)
Theorem ramfs_refines_map ops :
  Forall (fun op => nul_free (op_path op)) ops ->
  exists os s', runs_fs ops fs_start = Some (os, s') /\
    Forall2 same_out os (specs_fs ops {[ [SLASH] := Dir ]}).1 /\
    view s' = (specs_fs ops {[ [SLASH] := Dir ]}).2 /\ (size (view s') <= MAX_FILES)%nat.
Proof.
  intros Hops. destruct fs_start_ok as [Hok Hv].
  destruct (runs_fs_refines fs_start ops Hok Hops) as (os & s' & Hrun & Hs' & Hos & Hvs). rewrite Hv in *.
  exists os, s'. do 3 (split; [done|]).
  destruct Hs' as [Hlen _ Hu]. rewrite view_size by done.
  pose proof (List.filter_length_le used s') as Hle. lia.
Qed.

(** What was written is read back, under every spelling of the path, until it
    is written again or removed; other files keep their contents. *)
Theorem write_read_roundtrip s path content s' :
  fs_ok s -> nul_free path -> write path content s = Some (Ok tt, s') ->
  fs_ok s' /\
  (forall p, normalize_path p = normalize_path path -> read p s' = Some (Ok content, s')) /\
  (forall p, normalize_path p <> normalize_path path ->
     exists r, read p s' = Some (r, s') /\ read p s = Some (r, s)).
Proof.
  intros Hs Hn Hw. destruct (write_refines s path content Hs Hn) as (s1 & Hrun & Hok & Hv).
  rewrite Hw in Hrun. injection Hrun as Hr <-. split; [done|].
  assert (Hview : view s' = <[normalize_path path := File content]> (view s)).
  { rewrite Hv. revert Hr. unfold spec_write. destruct (_ <? _)%nat; [done|].
    destruct (view s !! normalize_path path) as [[|c]|]; [done|done|]. by destruct (_ =? _)%nat. }
  split.
  - intros p Hp. rewrite (read_refines s' p Hok). unfold spec_read. by rewrite Hview, Hp, lookup_insert_eq.
  - intros p Hp. exists (spec_read p (view s)). rewrite (read_refines s' p Hok), (read_refines s p Hs).
    split; [|done]. unfold spec_read. by rewrite Hview, lookup_insert_ne by done.
Qed.

Definition long_name (last : Z) : str := SLASH :: replicate 62 97 ++ [last].

(** Names longer than 63 bytes are cut off, never refused: [NameTooLong] is
    unreachable, and two names that differ only after their 63rd byte are the
    same file, so writing the second overwrites the first. *)
Theorem long_names_collide :
  (forall path content s r s', write path content s = Some (r, s') -> r <> Err NameTooLong) /\
  (forall path s r s', mkdir path s = Some (r, s') -> r <> Err NameTooLong) /\
  long_name 120 <> long_name 121 /\
  exists s', runs_fs [FWrite (long_name 120) [1]; FWrite (long_name 121) [2]; FRead (long_name 120)] fs_start =
    Some ([OUnit (Ok tt); OUnit (Ok tt); OData (Ok [2])], s').
Proof.
  split; [|split; [|split]].
  - intros path content s r s'. unfold write. rewrite (proj2 (Nat.ltb_ge MAX_NAME_LEN _) (normalize_length path)).
    destruct (_ <? _)%nat; [by intros [= <- _]|]. intros (s1 & s2 & _ & H)%run_bind.
    destruct (find_entry _ s1) as [i|].
    + apply run_bind in H as (e & s3 & _ & H). destruct (is_dir e); [by injection H as <- _|].
      apply run_bind in H as (e' & s4 & _ & H). apply run_bind in H as ([] & s5 & _ & H). by injection H as <- _.
    + destruct (find_free s1); [|by injection H as <- _].
      apply run_bind in H as (e' & s4 & _ & H). apply run_bind in H as ([] & s5 & _ & H). by injection H as <- _.
  - intros path s r s'. unfold mkdir. rewrite (proj2 (Nat.ltb_ge MAX_NAME_LEN _) (normalize_length path)).
    intros (s1 & s2 & _ & H)%run_bind. destruct (find_entry _ s1); [by injection H as <- _|].
    destruct (find_free s1); [|by injection H as <- _].
    apply run_bind in H as ([] & s5 & _ & H). by injection H as <- _.
  - by vm_compute.
  - assert (H : fst <$> runs_fs [FWrite (long_name 120) [1]; FWrite (long_name 121) [2]; FRead (long_name 120)]
      fs_start = Some [OUnit (Ok tt); OUnit (Ok tt); OData (Ok [2])]) by (by vm_compute).
    destruct (runs_fs _ fs_start) as [[os s']|]; [|done]. injection H as ->. by exists s'.
Qed.

(** [/tmp] and [/etc/motd], as the server creates them at start-up. *)
Definition tmp_path : str := [47; 116; 109; 112].
Definition motd_path : str := [47; 101; 116; 99; 47; 109; 111; 116; 100].
Definition demo_ops : list fs_op :=
  [FMkdir tmp_path; FWrite motd_path [72; 105; 10]; FRead (motd_path ++ [47]); FRemove tmp_path; FList [47]; FStats].

Lemma demo_ops_nul_free : Forall (fun op => nul_free (op_path op)) demo_ops.
Proof. repeat (constructor; [unfold nul_free; by apply (bool_decide_unpack (_ ∉ _))|]). constructor. Qed.

Lemma ramfs_refines_map_witness :
  exists os s', runs_fs demo_ops fs_start = Some (os, s') /\
    Forall2 same_out os (specs_fs demo_ops {[ [SLASH] := Dir ]}).1.
Proof.
  destruct (ramfs_refines_map demo_ops demo_ops_nul_free) as (os & s' & H1 & H2 & _).
  exact (ex_intro _ os (ex_intro _ s' (conj H1 H2))).
Defined.

Definition fs_motd : Fs := match write motd_path [72; 105; 10] fs_start with Some (_, s) => s | None => [] end.

Lemma write_read_roundtrip_witness : read (motd_path ++ [SLASH]) fs_motd = Some (Ok [72; 105; 10], fs_motd).
Proof.
  destruct (write_read_roundtrip fs_start motd_path [72; 105; 10] fs_motd) as (_ & H & _).
  - apply fs_start_ok.
  - unfold nul_free. by apply (bool_decide_unpack (_ ∉ _)).
  - reflexivity.
  - apply H. reflexivity.
Defined.
