(* ===== verification/TarFs.v ===== *)
(** * The read-only tar archive

    Models [os/fs/src/tarfs.rs]: header fields, and the four loops that walk an
    archive ([find], [list], [has_dir], [count]).  Offsets and sizes are
    [usize] values kept in [Z]; a size field has 12 characters, so sizes stay
    below 2^36 and no addition of the walk can overflow.  Each loop has fuel and
    returns [None] when it runs out; a block of fuel per 512 bytes of archive is
    enough, which the theorems show.  What an archive means is stated apart from
    the code: [Module Tree] has entries with paths and a writer of the ustar
    format, and the loops are proved against those. *)

From Stdlib Require Import ZArith Lia Bool.
From stdpp Require Import list.
From S2P Require Import Prelude Bytes.
Open Scope Z_scope.

Definition HEADER_SIZE : Z := 512.

(** [data[off..off + n]] *)
Definition slice (data : list Z) (off n : Z) : list Z := take (Z.to_nat n) (drop (Z.to_nat off) data).

Definition len (data : list Z) : Z := Z.of_nat (length data).

(** ** Headers *)

Abbreviation TarHeader := (list Z).

Definition name (h : TarHeader) : str :=
  let name_bytes := slice h 0 100 in
  let n := default 100%nat (find_byte 0 name_bytes) in
  let s := take n name_bytes in
  if utf8_valid s then s else [].

Fixpoint octal_loop (bytes : list Z) (result : Z) : Z :=
  match bytes with
  | [] => result
  | b :: bytes =>
      if (b =? 0) || (b =? 32) then result
      else octal_loop bytes (if (48 <=? b) && (b <=? 55) then result * 8 + (b - 48) else result)
  end.
Definition parse_octal (bytes : list Z) : Z := octal_loop bytes 0.

Definition header_size (h : TarHeader) : Z := parse_octal (slice h 124 12).
Definition type_flag (h : TarHeader) : Z := nth 156 h 0.
Definition is_file (h : TarHeader) : bool := (type_flag h =? 48) || (type_flag h =? 0).
Definition header_is_dir (h : TarHeader) : bool := type_flag h =? 53.
Definition is_valid (h : TarHeader) : bool := negb (nth 0 h 0 =? 0).

Definition round_up_512 (n : Z) : Z := Z.ldiff (n + 511) 511.

Definition trim_slash (s : str) : str := default s (strip_suffix [SLASH] s).
Definition skip_slash (s : str) : str := default s (strip_prefix [SLASH] s).

(** ** The archive *)

Section Archive.
Context (data : list Z).

Definition header_at (offset : Z) : TarHeader := slice data offset HEADER_SIZE.

Fixpoint find_loop (fuel : nat) (normalized : str) (offset : Z) : option (option (list Z)) :=
  match fuel with
  | O => None
  | S fuel =>
      if offset + HEADER_SIZE <=? len data then
        let header := header_at offset in
        if negb (is_valid header) then Some None
        else
          let size := header_size header in
          let data_offset := offset + HEADER_SIZE in
          if str_eqb (trim_slash (name header)) (trim_slash normalized) && is_file header &&
             (data_offset + size <=? len data)
          then Some (Some (slice data data_offset size))
          else find_loop fuel normalized (data_offset + round_up_512 size)
      else Some None
  end.

Definition fuel_for : nat := S (Z.to_nat (len data / HEADER_SIZE)).

Definition find (path : str) : option (option (list Z)) := find_loop fuel_for (skip_slash path) 0.

(** The part of an entry's name below [prefix], if it is below it and not the
    directory itself. *)
Definition relative_name (prefix nm : str) : option str :=
  if str_eqb prefix [] then Some nm
  else
    match strip_prefix prefix nm with
    | Some rest =>
        let rest := skip_slash rest in
        if str_eqb rest [] then None else Some rest
    | None => None
    end.

Fixpoint list_loop (fuel : nat) (prefix : str) (offset : Z) (acc : list (str * bool * Z))
  : option (list (str * bool * Z)) :=
  match fuel with
  | O => None
  | S fuel =>
      if offset + HEADER_SIZE <=? len data then
        let header := header_at offset in
        if negb (is_valid header) then Some acc
        else
          let size := header_size header in
          let next := offset + HEADER_SIZE + round_up_512 size in
          match relative_name prefix (name header) with
          | None => list_loop fuel prefix next acc
          | Some relative =>
              let clean := trim_slash relative in
              list_loop fuel prefix next
                (if negb (contains_byte SLASH clean) then acc ++ [(clean, header_is_dir header, size)] else acc)
          end
      else Some acc
  end.

(** The calls of the callback, in order. *)
Definition list_dir (dir : str) : option (list (str * bool * Z)) :=
  list_loop fuel_for (skip_slash dir) 0 [].

Fixpoint has_dir_loop (fuel : nat) (dir : str) (offset : Z) : option bool :=
  match fuel with
  | O => None
  | S fuel =>
      if offset + HEADER_SIZE <=? len data then
        let header := header_at offset in
        if negb (is_valid header) then Some false
        else
          let size := header_size header in
          let nm := skip_slash (name header) in
          if str_eqb (trim_slash nm) dir && header_is_dir header then Some true
          else if starts_with dir nm && match nm !! length dir with Some b => b =? SLASH | None => false end
          then Some true
          else has_dir_loop fuel dir (offset + (HEADER_SIZE + round_up_512 size))
      else Some false
  end.

Definition has_dir (dir : str) : option bool :=
  let dir := trim_slash (skip_slash dir) in
  if str_eqb dir [] then Some true else has_dir_loop fuel_for dir 0.

Fixpoint count_loop (fuel : nat) (offset n : Z) : option Z :=
  match fuel with
  | O => None
  | S fuel =>
      if offset + HEADER_SIZE <=? len data then
        let header := header_at offset in
        if negb (is_valid header) then Some n
        else count_loop fuel (offset + HEADER_SIZE + round_up_512 (header_size header)) (n + 1)
      else Some n
  end.

Definition count : option Z := count_loop fuel_for 0 0.

End Archive.

(** ** Sizes *)

Lemma octal_loop_bound bytes r :
  0 <= r -> 0 <= octal_loop bytes r /\ octal_loop bytes r + 1 <= (r + 1) * 8 ^ Z.of_nat (length bytes).
Proof.
  revert r. induction bytes as [|b bytes IH]; intros r Hr; cbn [octal_loop length]; [lia|].
  rewrite Nat2Z.inj_succ, Z.pow_succ_r by lia.
  assert (0 < 8 ^ Z.of_nat (length bytes)) by (apply Z.pow_pos_nonneg; lia).
  destruct ((b =? 0) || (b =? 32)); [nia|].
  destruct ((48 <=? b) && (b <=? 55)) eqn:E.
  - apply andb_true_iff in E as [?%Z.leb_le ?%Z.leb_le]. specialize (IH (r * 8 + (b - 48)) ltac:(lia)). nia.
  - specialize (IH r Hr). nia.
Qed.

Lemma header_size_bound h : 0 <= header_size h < 2 ^ 36.
Proof.
  unfold header_size, parse_octal. destruct (octal_loop_bound (slice h 124 12) 0 ltac:(lia)) as [H1 H2].
  split; [done|].
  assert (Hl : (length (slice h 124 12) <= 12)%nat) by (unfold slice; rewrite length_take; lia).
  assert (8 ^ Z.of_nat (length (slice h 124 12)) <= 8 ^ 12) by (apply Z.pow_le_mono_r; lia).
  change (2 ^ 36) with (8 ^ 12). lia.
Qed.

Lemma round_up_512_spec n : 0 <= n -> round_up_512 n = (n + 511) / 512 * 512.
Proof.
  intros Hn. unfold round_up_512. change 511 with (Z.ones 9) at 2.
  rewrite Z.ldiff_ones_r by lia. rewrite Z.shiftr_div_pow2, Z.shiftl_mul_pow2 by lia. done.
Qed.

Lemma round_up_512_ge n : 0 <= n -> n <= round_up_512 n < n + 512.
Proof.
  intros Hn. rewrite round_up_512_spec by done.
  pose proof (Z.div_mod (n + 511) 512 ltac:(lia)). pose proof (Z.mod_pos_bound (n + 511) 512 ltac:(lia)). lia.
Qed.

(** ** The entries of an archive

    [walks data offset es]: from [offset] on, the archive consists of the
    entries [es], up to the first header that is invalid or not complete. *)

Inductive walks (data : list Z) : Z -> list (Z * TarHeader) -> Prop :=
| walks_end offset : len data < offset + HEADER_SIZE -> walks data offset []
| walks_zero offset : offset + HEADER_SIZE <= len data -> is_valid (header_at data offset) = false ->
    walks data offset []
| walks_entry offset es : offset + HEADER_SIZE <= len data -> is_valid (header_at data offset) = true ->
    walks data (offset + HEADER_SIZE + round_up_512 (header_size (header_at data offset))) es ->
    walks data offset ((offset + HEADER_SIZE, header_at data offset) :: es).

Lemma walks_unique data offset es es' : walks data offset es -> walks data offset es' -> es = es'.
Proof.
  intros H. revert es'. induction H as [o H|o H Hv|o es H Hv _ IH]; intros es' H'; inversion H'; subst;
    try lia; try congruence; try done. f_equal. by apply IH.
Qed.

Lemma walks_exists data offset :
  0 <= offset -> exists es, walks data offset es /\ ((0 < length es)%nat -> HEADER_SIZE * Z.of_nat (length es) <= len data - offset).
Proof.
  intros H0. assert (Hw : exists n : nat, len data - offset < HEADER_SIZE * Z.of_nat n).
  { exists (S (Z.to_nat (len data - offset))). unfold HEADER_SIZE. lia. }
  destruct Hw as [n Hn]. revert offset H0 Hn.
  induction n as [|n IH]; intros offset H0 Hn.
  { exists []. split; [|cbn; lia]. apply walks_end. unfold HEADER_SIZE in *. lia. }
  destruct (Z.leb_spec (offset + HEADER_SIZE) (len data)) as [Hle|Hgt].
  2:{ exists []. split; [by apply walks_end|cbn; lia]. }
  destruct (is_valid (header_at data offset)) eqn:Ev.
  2:{ exists []. split; [by apply walks_zero|cbn; lia]. }
  pose proof (header_size_bound (header_at data offset)) as Hs.
  pose proof (round_up_512_ge (header_size (header_at data offset)) ltac:(lia)) as Hr.
  destruct (IH (offset + HEADER_SIZE + round_up_512 (header_size (header_at data offset)))) as (es & Hes & Hlen);
    [unfold HEADER_SIZE in *; lia..|].
  exists ((offset + HEADER_SIZE, header_at data offset) :: es). split; [by apply walks_entry|].
  intros _. cbn [length]. unfold HEADER_SIZE in *. destruct es; cbn [length] in *; lia.
Qed.

Lemma fuel_enough data es : walks data 0 es -> (length es < fuel_for data)%nat.
Proof.
  intros H. destruct (walks_exists data 0 ltac:(lia)) as (es' & H' & Hlen).
  rewrite (walks_unique _ _ _ _ H H'). unfold fuel_for, HEADER_SIZE in *.
  destruct es' as [|e es']; [cbn; lia|]. specialize (Hlen ltac:(cbn; lia)).
  assert (Z.of_nat (length (e :: es')) <= len data / 512) by (apply Z.div_le_lower_bound; lia). lia.
Qed.

(** What the loops compute, on the list of entries. *)

Definition entry_matches (data : list Z) (path : str) (e : Z * TarHeader) : bool :=
  str_eqb (trim_slash (name e.2)) (trim_slash path) && is_file e.2 && (e.1 + header_size e.2 <=? len data).

Definition spec_find (data : list Z) (path : str) (es : list (Z * TarHeader)) : option (list Z) :=
  (fun e => slice data e.1 (header_size e.2)) <$> List.find (entry_matches data path) es.

Definition spec_item (prefix : str) (e : Z * TarHeader) : option (str * bool * Z) :=
  relative ← relative_name prefix (name e.2);
  if negb (contains_byte SLASH (trim_slash relative))
  then Some (trim_slash relative, header_is_dir e.2, header_size e.2) else None.

Definition dir_evidence (dir : str) (e : Z * TarHeader) : bool :=
  let nm := skip_slash (name e.2) in
  (str_eqb (trim_slash nm) dir && header_is_dir e.2) ||
  (starts_with dir nm && match nm !! length dir with Some b => b =? SLASH | None => false end).

Section Loops.
Context (data : list Z).

Lemma find_loop_run path offset es fuel :
  walks data offset es -> (length es < fuel)%nat -> find_loop data fuel path offset = Some (spec_find data path es).
Proof.
  intros H. revert fuel. induction H as [o H|o H Hv|o es H Hv _ IH]; intros [|fuel] Hf; cbn [length] in Hf;
    try lia; cbn [find_loop].
  - by rewrite (proj2 (Z.leb_gt _ _)).
  - by rewrite (proj2 (Z.leb_le _ _)), Hv.
  - rewrite (proj2 (Z.leb_le _ _)), Hv by done. cbn [negb].
    unfold spec_find; cbn [List.find]. unfold entry_matches at 1; cbn [fst snd].
    destruct (_ && _); [done|]. rewrite IH by lia. done.
Qed.

Lemma list_loop_run prefix offset es fuel acc :
  walks data offset es -> (length es < fuel)%nat ->
  list_loop data fuel prefix offset acc = Some (acc ++ omap (spec_item prefix) es).
Proof.
  intros H. revert fuel acc. induction H as [o H|o H Hv|o es H Hv _ IH]; intros [|fuel] acc Hf; cbn [length] in Hf;
    try lia; cbn [list_loop].
  - by rewrite (proj2 (Z.leb_gt _ _)), app_nil_r.
  - by rewrite (proj2 (Z.leb_le _ _)), Hv, app_nil_r.
  - rewrite (proj2 (Z.leb_le _ _)), Hv by done. cbn [negb omap list_omap]. unfold spec_item at 1; cbn [fst snd].
    destruct (relative_name prefix (name (header_at data o))) as [r|]; cbn [mbind option_bind];
      [|by rewrite IH by lia].
    destruct (negb _); rewrite IH by lia; [by rewrite <- app_assoc|done].
Qed.

Lemma has_dir_loop_run dir offset es fuel :
  walks data offset es -> (length es < fuel)%nat -> has_dir_loop data fuel dir offset = Some (existsb (dir_evidence dir) es).
Proof.
  intros H. revert fuel. induction H as [o H|o H Hv|o es H Hv _ IH]; intros [|fuel] Hf; cbn [length] in Hf;
    try lia; cbn [has_dir_loop].
  - by rewrite (proj2 (Z.leb_gt _ _)).
  - by rewrite (proj2 (Z.leb_le _ _)), Hv.
  - rewrite (proj2 (Z.leb_le _ _)), Hv by done. cbn [negb existsb]. unfold dir_evidence at 1; cbn [fst snd].
    destruct (str_eqb _ dir && _); [done|]. destruct (starts_with _ _ && _); [done|].
    cbn [orb]. rewrite Z.add_assoc. by rewrite IH by lia.
Qed.

Lemma count_loop_run offset es fuel n :
  walks data offset es -> (length es < fuel)%nat -> count_loop data fuel offset n = Some (n + Z.of_nat (length es)).
Proof.
  intros H. revert fuel n. induction H as [o H|o H Hv|o es H Hv _ IH]; intros [|fuel] n Hf; cbn [length] in Hf;
    try lia; cbn [count_loop].
  - rewrite (proj2 (Z.leb_gt _ _)) by done. cbn. by rewrite Z.add_0_r.
  - rewrite (proj2 (Z.leb_le _ _)), Hv by done. cbn. by rewrite Z.add_0_r.
  - rewrite (proj2 (Z.leb_le _ _)), Hv by done. cbn [negb length]. rewrite IH by lia. f_equal. lia.
Qed.

End Loops.

(** The four loops over an archive end, whatever the bytes are, and agree with one
    reading of the archive as a list of headers: [find] returns the data of the first
    complete regular file of that name, [list] the items of the entries that the tests
    of the code take for direct children ([spec_item]; what these are in an archive of
    a directory tree is [Tree.tar_archive_read]), [has_dir] whether an entry is or
    lies in the directory, and [count] the number of entries.  The reading is unique,
    and no entry's end can overflow a [usize]. *)
Theorem tar_loops_equivalent data :
  exists es, walks data 0 es /\ (forall es', walks data 0 es' -> es' = es) /\
    (forall path, find data path = Some (spec_find data (skip_slash path) es)) /\
    (forall dir, list_dir data dir = Some (omap (spec_item (skip_slash dir)) es)) /\
    (forall dir, has_dir data dir =
       Some (str_eqb (trim_slash (skip_slash dir)) [] || existsb (dir_evidence (trim_slash (skip_slash dir))) es)) /\
    count data = Some (Z.of_nat (length es)) /\
    (forall offset, 0 <= offset <= len data -> forall h, offset + HEADER_SIZE + round_up_512 (header_size h) < len data + 2 ^ 37).
Proof.
  destruct (walks_exists data 0 ltac:(lia)) as (es & H & _). pose proof (fuel_enough data es H) as Hf.
  exists es. split; [done|]. split; [intros es' H'; by apply (walks_unique data 0)|].
  split; [intros path; by apply find_loop_run|].
  split; [intros dir; unfold list_dir; by rewrite (list_loop_run data _ 0 es)|].
  split. { intros dir. unfold has_dir. destruct (str_eqb _ []); [done|]. by apply has_dir_loop_run. }
  split; [unfold count; by rewrite (count_loop_run data 0 es)|].
  intros offset Ho h. pose proof (header_size_bound h).
  pose proof (round_up_512_ge (header_size h) ltac:(lia)). unfold HEADER_SIZE. lia.
Qed.

(** ** A reference writer

    A file of an archive; the fields the reader ignores (mode, owner, time,
    checksum, link name, ...) are arbitrary. *)

Record TarFile := mkTarFile {
  tf_name : str; tf_flag : Z; tf_content : list Z;
  tf_owner : list Z; tf_times : list Z; tf_rest : list Z }.

Record tar_file_ok (f : TarFile) : Prop := {
  tk_name : (1 <= length (tf_name f) <= 100)%nat;
  tk_nul : nul_free (tf_name f);
  tk_utf8 : utf8_valid (tf_name f) = true;
  tk_content : len (tf_content f) < 8 ^ 11;
  tk_owner : length (tf_owner f) = 24%nat;
  tk_times : length (tf_times f) = 20%nat;
  tk_rest : length (tf_rest f) = 355%nat }.

Fixpoint octal (k : nat) (n : Z) : list Z :=
  match k with O => [] | S k => octal k (n / 8) ++ [48 + n mod 8] end.

Definition write_header (f : TarFile) : TarHeader :=
  tf_name f ++ replicate (100 - length (tf_name f)) 0 ++ tf_owner f ++
  octal 11 (len (tf_content f)) ++ [0] ++ tf_times f ++ [tf_flag f] ++ tf_rest f.

Definition padding (n : Z) : list Z := replicate (Z.to_nat (round_up_512 n - n)) 0.

Definition write_file (f : TarFile) : list Z :=
  write_header f ++ tf_content f ++ padding (len (tf_content f)).

(** Two zero blocks end the archive. *)
Definition write_archive (fs : list TarFile) : list Z := concat (write_file <$> fs) ++ replicate 1024 0.

Lemma octal_length k n : length (octal k n) = k.
Proof. revert n. induction k as [|k IH]; intros n; cbn; [done|]. rewrite length_app, IH. cbn. lia. Qed.

Lemma octal_loop_octal k n t r :
  0 <= n < 8 ^ Z.of_nat k -> octal_loop (octal k n ++ t) r = octal_loop t (r * 8 ^ Z.of_nat k + n).
Proof.
  revert n t. induction k as [|k IH]; intros n t Hn.
  - cbn in *. f_equal. lia.
  - rewrite Nat2Z.inj_succ, Z.pow_succ_r in * by lia. cbn [octal]. rewrite <- app_assoc.
    rewrite IH by (split; [apply Z.div_pos; lia|apply Z.div_lt_upper_bound; lia]).
    cbn [app octal_loop]. pose proof (Z.mod_pos_bound n 8 ltac:(lia)).
    rewrite (proj2 (Z.eqb_neq _ _)), (proj2 (Z.eqb_neq _ _)) by lia. cbn [orb].
    rewrite (proj2 (Z.leb_le _ _)), (proj2 (Z.leb_le _ _)) by lia. cbn [andb]. f_equal.
    pose proof (Z.div_mod n 8 ltac:(lia)). nia.
Qed.

Lemma slice_app pre x post n : n = len x -> slice (pre ++ x ++ post) (len pre) n = x.
Proof.
  intros ->. unfold slice, len. rewrite !Nat2Z.id, drop_app_length. apply take_app_length.
Qed.

Lemma len_app a b : len (a ++ b) = len a + len b.
Proof. unfold len. rewrite length_app. lia. Qed.

Section Header.
Context (f : TarFile) (Hf : tar_file_ok f).

Lemma write_header_length : len (write_header f) = 512.
Proof.
  destruct Hf. unfold write_header, len. rewrite !length_app, octal_length, length_replicate. cbn [length]. lia.
Qed.

Lemma name_written : name (write_header f) = tf_name f.
Proof.
  destruct Hf as [[H1 H2] Hn Hu _ _ _ _]. unfold name, write_header, slice.
  change (Z.to_nat 0) with 0%nat. change (Z.to_nat 100) with 100%nat. rewrite drop_0.
  rewrite (app_assoc (tf_name f)). rewrite take_app_length'.
  2:{ rewrite length_app, length_replicate. lia. }
  assert (Htake : take (default 100%nat (find_byte 0 (tf_name f ++ replicate (100 - length (tf_name f)) 0)))
    (tf_name f ++ replicate (100 - length (tf_name f)) 0) = tf_name f).
  { destruct (100 - length (tf_name f))%nat as [|n] eqn:E; cbn [replicate].
    - rewrite app_nil_r. rewrite (proj2 (find_byte_None 0 (tf_name f)) Hn). cbn. apply take_ge. lia.
    - rewrite find_byte_app by done. cbn. apply take_app_length. }
  rewrite Htake. by rewrite Hu.
Qed.

Lemma size_written : header_size (write_header f) = len (tf_content f).
Proof.
  destruct Hf as [[H1 H2] _ _ Hc Ho _ _]. unfold header_size, parse_octal.
  set (o := octal 11 (len (tf_content f))).
  assert (Hsl : slice (write_header f) 124 12 = o ++ [0]).
  { assert (E : write_header f = (tf_name f ++ replicate (100 - length (tf_name f)) 0 ++ tf_owner f) ++
      (o ++ [0]) ++ tf_times f ++ [tf_flag f] ++ tf_rest f) by (unfold write_header; by rewrite <- !app_assoc).
    rewrite E. replace 124 with (len (tf_name f ++ replicate (100 - length (tf_name f)) 0 ++ tf_owner f)).
    - apply slice_app. unfold len, o. rewrite length_app, octal_length. done.
    - unfold len. rewrite !length_app, length_replicate. lia. }
  rewrite Hsl. unfold o. rewrite octal_loop_octal; [cbn; lia|].
  split; [unfold len; lia|]. exact Hc.
Qed.

Lemma flag_written : type_flag (write_header f) = tf_flag f.
Proof.
  destruct Hf as [[H1 H2] _ _ _ Ho Ht _]. unfold type_flag, write_header.
  rewrite !app_assoc. rewrite <- (app_assoc _ [tf_flag f]).
  rewrite app_nth2; rewrite !length_app, octal_length, length_replicate; cbn [length]; [|lia].
  replace (156 - _)%nat with 0%nat by lia. done.
Qed.

Lemma valid_written : is_valid (write_header f) = true.
Proof.
  destruct Hf as [[H1 H2] Hn _ _ _ _ _]. unfold is_valid, write_header.
  destruct (tf_name f) as [|b nm]; [cbn in H1; lia|]. cbn.
  apply not_elem_of_cons in Hn as [Hb _]. by rewrite (proj2 (Z.eqb_neq _ _)) by done.
Qed.

Lemma write_file_length : len (write_file f) = 512 + round_up_512 (len (tf_content f)).
Proof.
  unfold write_file, padding. rewrite !len_app, write_header_length.
  assert (0 <= len (tf_content f)) by (unfold len; lia).
  pose proof (round_up_512_ge (len (tf_content f)) ltac:(done)).
  unfold len at 2. rewrite length_replicate. lia.
Qed.

End Header.

(** The entries written after [pre] bytes. *)
Fixpoint written_entries (pre : Z) (fs : list TarFile) : list (Z * TarHeader) :=
  match fs with
  | [] => []
  | f :: fs => (pre + HEADER_SIZE, write_header f) :: written_entries (pre + len (write_file f)) fs
  end.

Lemma walks_written pre fs :
  Forall tar_file_ok fs -> walks (pre ++ write_archive fs) (len pre) (written_entries (len pre) fs).
Proof.
  intros H. revert pre. induction H as [|f fs Hf _ IH]; intros pre; cbn [written_entries].
  - assert (Hh : header_at (pre ++ write_archive []) (len pre) = replicate 512 0).
    { unfold header_at, write_archive. cbn [fmap list_fmap concat app].
      change (replicate 1024 0) with (replicate (512 + 512) 0). rewrite replicate_add. by apply slice_app. }
    apply walks_zero; [|by rewrite Hh].
    rewrite len_app. unfold write_archive, HEADER_SIZE, len. cbn [fmap list_fmap concat app]. rewrite length_replicate. lia.
  - assert (E : pre ++ write_archive (f :: fs) = (pre ++ write_file f) ++ write_archive fs).
    { unfold write_archive. cbn [fmap list_fmap concat]. by rewrite <- !app_assoc. }
    assert (Hh : header_at (pre ++ write_archive (f :: fs)) (len pre) = write_header f).
    { rewrite E, <- app_assoc. unfold write_file. rewrite <- app_assoc. apply slice_app.
      by rewrite write_header_length. }
    rewrite <- Hh at 1. apply walks_entry.
    + rewrite E, <- app_assoc, !len_app, write_file_length by done.
      assert (0 <= len (tf_content f)) by (unfold len; lia).
      pose proof (round_up_512_ge (len (tf_content f)) ltac:(done)).
      assert (0 <= len (write_archive fs)) by (unfold len; lia). unfold HEADER_SIZE. lia.
    + rewrite Hh. by apply valid_written.
    + rewrite Hh, size_written by done.
      replace (len pre + HEADER_SIZE + round_up_512 (len (tf_content f))) with (len (pre ++ write_file f)).
      * rewrite E. replace (len pre + len (write_file f)) with (len (pre ++ write_file f)) by apply len_app. apply IH.
      * rewrite len_app, write_file_length by done. unfold HEADER_SIZE. lia.
Qed.

(** The first file of the archive with that name, a trailing slash aside. *)
Definition lookup_file (path : str) (fs : list TarFile) : option TarFile :=
  List.find (fun f => str_eqb (trim_slash (tf_name f)) (trim_slash path) &&
                      ((tf_flag f =? 48) || (tf_flag f =? 0))) fs.

Lemma spec_find_written path pre fs :
  Forall tar_file_ok fs ->
  spec_find (pre ++ write_archive fs) path (written_entries (len pre) fs) = tf_content <$> lookup_file path fs.
Proof.
  intros H. revert pre. induction H as [|f fs Hf _ IH]; intros pre; [done|].
  unfold spec_find, lookup_file in *. cbn [written_entries List.find].
  assert (E : pre ++ write_archive (f :: fs) = (pre ++ write_file f) ++ write_archive fs).
  { unfold write_archive. cbn [fmap list_fmap concat]. by rewrite <- !app_assoc. }
  unfold entry_matches at 1; cbn [fst snd]. unfold is_file.
  rewrite name_written, flag_written, size_written by done.
  assert (Hfit : len pre + HEADER_SIZE + len (tf_content f) <= len (pre ++ write_archive (f :: fs))).
  { rewrite E, !len_app, write_file_length by done. assert (0 <= len (tf_content f)) by (unfold len; lia).
    pose proof (round_up_512_ge (len (tf_content f)) ltac:(done)).
    assert (0 <= len (write_archive fs)) by (unfold len; lia). unfold HEADER_SIZE. lia. }
  rewrite (proj2 (Z.leb_le _ _) Hfit), andb_true_r.
  destruct (_ && _); cbn [fmap option_fmap option_map fst snd].
  - f_equal. rewrite size_written by done.
    rewrite E. unfold write_file. rewrite <- !app_assoc. rewrite (app_assoc pre).
    replace (len pre + HEADER_SIZE) with (len (pre ++ write_header f)) by (rewrite len_app, write_header_length; done).
    by apply slice_app.
  - specialize (IH (pre ++ write_file f)). rewrite <- E in IH. rewrite <- IH.
    by rewrite len_app.
Qed.

(** What the reference writer stores, [find] reads back: for every archive of
    well-formed files and every path, it returns the content of the first
    regular file with that name, or nothing when there is none; and every file
    is counted. *)
Theorem tar_write_find_roundtrip fs path :
  Forall tar_file_ok fs ->
  find (write_archive fs) path = Some (tf_content <$> lookup_file (skip_slash path) fs) /\
  count (write_archive fs) = Some (Z.of_nat (length fs)).
Proof.
  intros H. pose proof (walks_written [] fs H) as Hw. cbn [app] in Hw.
  change (len []) with 0 in Hw. pose proof (fuel_enough _ _ Hw) as Hfuel. split.
  - unfold find. rewrite (find_loop_run _ _ 0 _ _ Hw Hfuel). f_equal. apply (spec_find_written _ [] fs H).
  - unfold count. rewrite (count_loop_run _ 0 _ _ 0 Hw Hfuel). f_equal.
    enough (Hl : forall p, length (written_entries p fs) = length fs) by (by rewrite Hl).
    clear. induction fs as [|f fs IH]; intros p; cbn; [done|]. by rewrite IH.
Qed.

Definition demo_file : TarFile :=
  mkTarFile [104; 105] 48 [72; 105; 10] (replicate 24 32) (replicate 20 49) (replicate 355 7).

Lemma demo_file_ok : Forall tar_file_ok [demo_file].
Proof.
  constructor; [|constructor]. split; [cbn; lia| |done|by vm_compute|done..].
  unfold nul_free. by apply (bool_decide_unpack (_ ∉ _)).
Qed.

Lemma tar_write_find_roundtrip_witness :
  find (write_archive [demo_file]) [47; 104; 105] = Some (Some [72; 105; 10]) /\
  count (write_archive [demo_file]) = Some 1.
Proof. apply (tar_write_find_roundtrip [demo_file] [47; 104; 105] demo_file_ok). Defined.

(** ** Archives of a directory tree

    What an archive means: entries with a path, as a list of components, that
    are files or directories.  The name of an entry is its path with slashes, and
    a slash behind it for a directory. *)

Module Tree.

Record TarEntry := mkTarEntry {
  te_path : list str; te_dir : bool; te_content : list Z;
  te_owner : list Z; te_times : list Z; te_rest : list Z }.

Fixpoint join (path : list str) : str :=
  match path with
  | [] => []
  | [c] => c
  | c :: path => c ++ SLASH :: join path
  end.

Definition entry_name (e : TarEntry) : str := join (te_path e) ++ (if te_dir e then [SLASH] else []).
Definition tar_file_of (e : TarEntry) : TarFile :=
  mkTarFile (entry_name e) (if te_dir e then 53 else 48) (te_content e) (te_owner e) (te_times e) (te_rest e).

Definition component (c : str) : Prop := c <> [] /\ SLASH ∉ c.
#[global] Instance component_dec c : Decision (component c).
Proof. unfold component. apply _. Defined.
Record entry_ok (e : TarEntry) : Prop := {
  ek_path : te_path e <> [];
  ek_components : Forall component (te_path e);
  ek_file : tar_file_ok (tar_file_of e) }.

(** The file at a path, what is directly in a directory, and whether there is a
    directory: with an entry of its own, or with something in it. *)
Definition file_at (path : list str) (es : list TarEntry) : option TarEntry :=
  List.find (fun e => negb (te_dir e) && bool_decide (te_path e = path)) es.

Fixpoint rest_below (dir path : list str) : option (list str) :=
  match dir, path with
  | [], _ => Some path
  | d :: dir, c :: path => if str_eqb d c then rest_below dir path else None
  | _ :: _, [] => None
  end.
Definition child (dir : list str) (e : TarEntry) : option (str * bool * Z) :=
  match rest_below dir (te_path e) with Some [c] => Some (c, te_dir e, len (te_content e)) | _ => None end.
Definition is_directory (dir : list str) (es : list TarEntry) : bool :=
  bool_decide (dir = []) ||
  existsb (fun e => match rest_below dir (te_path e) with Some [] => te_dir e | Some _ => true | None => false end) es.

(** A path as a caller writes it: a slash in front or not, a slash behind or not. *)
Definition path_string (lead : bool) (path : list str) (trail : bool) : str :=
  (if lead then [SLASH] else []) ++ join path ++ (if trail then [SLASH] else []).

(** No entry has a name that starts with that of [dir] without being [dir] or in
    it: no [foobar] next to the directory [foo]. *)
Definition no_lookalike (dir : list str) (es : list TarEntry) : Prop :=
  Forall (fun e => starts_with (join dir) (entry_name e) = true -> is_Some (rest_below dir (te_path e))) es.

(** *** Names and paths *)

Fixpoint split (s : str) : list str :=
  match s with
  | [] => [[]]
  | b :: s => if b =? SLASH then [] :: split s else match split s with c :: cs => (b :: c) :: cs | [] => [[b]] end
  end.

Lemma split_cons s : exists c cs, split s = c :: cs.
Proof. destruct s as [|b s]; cbn; [eauto|]. destruct (b =? SLASH); [eauto|]. destruct (split s); eauto. Qed.

Lemma split_slash s t : split (s ++ SLASH :: t) = split s ++ split t.
Proof.
  induction s as [|b s IH]; [done|]. cbn [app split]. rewrite IH. destruct (b =? SLASH); [done|].
  destruct (split_cons s) as (c & cs & ->). done.
Qed.

Lemma split_component c : SLASH ∉ c -> split c = [c].
Proof.
  induction c as [|b c IH]; [done|]. intros [Hb Hc]%not_elem_of_cons. cbn. rewrite (proj2 (Z.eqb_neq _ _)) by done. by rewrite IH.
Qed.

Lemma join_cons c path : path <> [] -> join (c :: path) = c ++ SLASH :: join path.
Proof. by destruct path. Qed.

Lemma join_app dir path : dir <> [] -> path <> [] -> join (dir ++ path) = join dir ++ SLASH :: join path.
Proof.
  intros Hd Hp. induction dir as [|d [|d' dir] IH]; [done|by apply join_cons|].
  change ((d :: d' :: dir) ++ path) with (d :: (d' :: dir) ++ path).
  rewrite !(join_cons d), IH by done. by rewrite <- app_assoc.
Qed.

Lemma split_join path : path <> [] -> Forall component path -> split (join path) = path.
Proof.
  intros Hp Hc. induction Hc as [|c [|c' path] [_ Hs] _ IH]; [done|by apply split_component|].
  rewrite join_cons, split_slash, split_component, IH by done. done.
Qed.

Lemma join_first path : path <> [] -> Forall component path -> exists b s, join path = b :: s /\ b <> SLASH.
Proof.
  intros Hp Hc. destruct Hc as [|c path [Hc Hs] _]; [done|].
  destruct c as [|b c]; [done|]. apply not_elem_of_cons in Hs as [Hb _]. exists b. destruct path; cbn; eauto.
Qed.

Lemma join_last path : path <> [] -> Forall component path -> exists s b, join path = s ++ [b] /\ b <> SLASH.
Proof.
  intros Hp Hc. induction Hc as [|c [|c' path] [Hc Hs] _ IH]; [done| |].
  - destruct c as [|b c _] using rev_ind; [done|]. exists c, b. split; [done|]. intros ->. apply Hs. set_solver.
  - destruct IH as (s & b & E & Hb); [done|]. exists (c ++ SLASH :: s), b. rewrite join_cons, E by done.
    by rewrite <- app_assoc.
Qed.

Lemma skip_other b s : b <> SLASH -> skip_slash (b :: s) = b :: s.
Proof.
  intros Hb. unfold skip_slash. destruct (strip_prefix [SLASH] (b :: s)) as [t|] eqn:E; [|done].
  apply strip_prefix_Some in E. by injection E as -> _.
Qed.
Lemma skip_one s : skip_slash (SLASH :: s) = s.
Proof. unfold skip_slash. by rewrite (proj2 (strip_prefix_Some [SLASH] _ s)). Qed.
Lemma trim_one s : trim_slash (s ++ [SLASH]) = s.
Proof. unfold trim_slash. by rewrite (proj2 (strip_suffix_Some [SLASH] _ s)). Qed.
Lemma trim_other s b : b <> SLASH -> trim_slash (s ++ [b]) = s ++ [b].
Proof.
  intros Hb. unfold trim_slash. destruct (strip_suffix [SLASH] (s ++ [b])) as [t|] eqn:E; [|done].
  apply strip_suffix_Some in E. apply app_inj_tail in E as [_ ->]. done.
Qed.

Section Names.
Context (path : list str) (Hp : path <> []) (Hc : Forall component path).

Lemma skip_join t : skip_slash (join path ++ t) = join path ++ t.
Proof. destruct (join_first path Hp Hc) as (b & s & -> & Hb). by apply skip_other. Qed.
Lemma trim_join (d : bool) : trim_slash (join path ++ (if d then [SLASH] else [])) = join path.
Proof.
  destruct d; [apply trim_one|]. rewrite app_nil_r.
  destruct (join_last path Hp Hc) as (s & b & -> & Hb). by apply trim_other.
Qed.
Lemma join_nonempty t : join path ++ t <> [].
Proof. destruct (join_first path Hp Hc) as (b & s & -> & _). done. Qed.

Lemma slash_in_join : contains_byte SLASH (join path) = negb (bool_decide (length path = 1%nat)).
Proof.
  unfold contains_byte. destruct path as [|c [|c' r]]; [done| |].
  - apply Forall_cons in Hc as [[_ Hs] _]. cbn [join]. by rewrite (proj2 (find_byte_None SLASH c)).
  - rewrite join_cons by done. rewrite find_byte_app; [done|]. by apply Forall_cons in Hc as [[_ Hs] _].
Qed.

End Names.

Lemma join_inj p q : p <> [] -> q <> [] -> Forall component p -> Forall component q -> join p = join q -> p = q.
Proof. intros Hp Hq Cp Cq E. rewrite <- (split_join p), <- (split_join q) by done. by rewrite E. Qed.

Lemma rest_below_Some dir path rest : rest_below dir path = Some rest <-> path = dir ++ rest.
Proof.
  revert path. induction dir as [|d dir IH]; intros [|c path]; cbn [rest_below app];
    [split; congruence..|done|].
  destruct (str_eqb d c) eqn:E.
  - apply str_eqb_true in E as ->. rewrite IH. split; congruence.
  - split; [done|]. intros [= -> _]. by rewrite (proj2 (str_eqb_true d d)) in E.
Qed.

(** A name that continues that of [dir] with a slash is that of [dir] itself or of
    something below it. *)
Lemma slash_below dir path (d : bool) t :
  dir <> [] -> path <> [] -> Forall component dir -> Forall component path ->
  join path ++ (if d then [SLASH] else []) = join dir ++ SLASH :: t -> exists rest, path = dir ++ rest.
Proof.
  intros Hd Hp Cd Cp E. apply (f_equal split) in E.
  rewrite split_slash, (split_join dir) in E by done.
  destruct d.
  - rewrite split_slash, split_join in E by done. cbn [split] in E.
    destruct (split t) as [|x u _] using rev_ind; [|].
    + rewrite app_nil_r in E. exists []. exfalso.
      rewrite <- E in Cd. apply Forall_app in Cd as [_ Cd]. apply Forall_cons in Cd as [[Cd _] _]. done.
    + rewrite app_assoc in E. apply app_inj_tail in E as [-> _]. by exists u.
  - rewrite app_nil_r, split_join in E by done. by exists (split t).
Qed.

(** *** What the tests of the loops say of an entry *)

Section Entry.
Context (e : TarEntry) (He : entry_ok e).

Lemma entry_header_name : name (write_header (tar_file_of e)) = entry_name e.
Proof. rewrite name_written; [done|apply He]. Qed.
Lemma entry_header_dir : header_is_dir (write_header (tar_file_of e)) = te_dir e.
Proof. unfold header_is_dir. rewrite flag_written by apply He. cbn. by destruct (te_dir e). Qed.
Lemma entry_header_size : header_size (write_header (tar_file_of e)) = len (te_content e).
Proof. rewrite size_written; [done|apply He]. Qed.

Lemma file_test lead path :
  Forall component path ->
  str_eqb (trim_slash (tf_name (tar_file_of e))) (trim_slash (skip_slash (path_string lead path false))) =
  bool_decide (te_path e = path).
Proof.
  intros Cp. destruct He as [Hne Hc _]. cbn [tar_file_of tf_name]. unfold entry_name. rewrite trim_join by done.
  assert (E : trim_slash (skip_slash (path_string lead path false)) = join path).
  { unfold path_string. destruct path as [|c r]; [by destruct lead|].
    destruct lead; cbn [app]; [rewrite skip_one|rewrite skip_join by done]; by apply (trim_join (c :: r) ltac:(done) Cp false). }
  rewrite E. unfold str_eqb. apply bool_decide_ext. split; [|by intros ->]. intros Ej.
  destruct path as [|c r]; [|by apply join_inj].
  exfalso. apply (join_nonempty (te_path e) Hne Hc []). by rewrite Ej.
Qed.

Lemma dir_test dir o :
  dir <> [] -> Forall component dir ->
  dir_evidence (join dir) (o, write_header (tar_file_of e)) =
  match rest_below dir (te_path e) with Some [] => te_dir e | Some _ => true | None => false end.
Proof.
  intros Hd Cd. pose proof He as [Hne Hc _]. unfold dir_evidence; cbn [snd].
  rewrite entry_header_name, entry_header_dir. unfold entry_name. rewrite skip_join, trim_join by done.
  destruct (rest_below dir (te_path e)) as [rest|] eqn:E.
  - apply rest_below_Some in E. destruct rest as [|c rest].
    + rewrite app_nil_r in E. rewrite E. rewrite (proj2 (str_eqb_true _ _)) by done.
      destruct (te_dir e); [done|]. rewrite app_nil_r, lookup_ge_None_2 by lia. by rewrite !andb_false_r.
    + rewrite E, join_app by done. rewrite <- app_assoc.
      rewrite (proj2 (starts_with_spec _ _)) by (eexists; done).
      rewrite lookup_app_r, Nat.sub_diag by lia. cbn [app lookup list_lookup]. by rewrite Z.eqb_refl, orb_true_r.
  - apply orb_false_iff. split; apply not_true_iff_false; intros [H1 H2]%andb_true_iff.
    + apply str_eqb_true, join_inj in H1; [|done..]. rewrite H1 in E.
      assert (rest_below dir dir = Some []) by (apply rest_below_Some; by rewrite app_nil_r). congruence.
    + apply starts_with_spec in H1 as [t H1]. rewrite H1, lookup_app_r, Nat.sub_diag in H2 by lia.
      destruct t as [|b t]; [done|]. apply Z.eqb_eq in H2 as ->.
      apply slash_below in H1 as [rest H1]; [|done..]. apply rest_below_Some in H1. congruence.
Qed.

(** The part of a name below a directory, and the item made of it. *)
Lemma item_of rest (d : bool) :
  rest <> [] -> Forall component rest ->
  (if negb (contains_byte SLASH (trim_slash (join rest ++ if d then [SLASH] else [])))
   then Some (trim_slash (join rest ++ if d then [SLASH] else []), te_dir e, len (te_content e)) else None) =
  match rest with [c] => Some (c, te_dir e, len (te_content e)) | _ => None end.
Proof. intros Hr Cr. rewrite trim_join, slash_in_join by done. by destruct rest as [|c [|c' r]]. Qed.

Lemma relative_below dir rest (trail : bool) :
  dir <> [] -> rest <> [] -> Forall component rest -> te_path e = dir ++ rest ->
  relative_name (join dir ++ if trail then [SLASH] else []) (entry_name e) =
  Some (join rest ++ if te_dir e then [SLASH] else []).
Proof.
  intros Hd Hr Cr E. unfold relative_name, entry_name. rewrite E, join_app by done.
  destruct (str_eqb (join dir ++ _) []) eqn:E0.
  { apply str_eqb_true, app_eq_nil in E0 as [E0 _]. exfalso. destruct He as [_ Hc _]. rewrite E in Hc.
    apply Forall_app in Hc as [Hc _]. apply (join_nonempty dir Hd Hc []). by rewrite E0. }
  rewrite (proj2 (strip_prefix_Some _ _ ((if trail then [] else [SLASH]) ++ join rest ++ if te_dir e then [SLASH] else []))).
  2:{ rewrite <- !app_assoc. by destruct trail. }
  destruct trail; cbn [app]; [rewrite skip_join by done|rewrite skip_one];
    destruct (str_eqb (join rest ++ _) []) eqn:E1; try done; by apply str_eqb_true, join_nonempty in E1.
Qed.

Lemma item_test dir (trail : bool) o :
  Forall component dir -> (dir = [] -> trail = false) ->
  (trail = true \/ (starts_with (join dir) (entry_name e) = true -> is_Some (rest_below dir (te_path e)))) ->
  spec_item (join dir ++ if trail then [SLASH] else []) (o, write_header (tar_file_of e)) = child dir e.
Proof.
  intros Cd Ht Hl. pose proof He as [Hne Hc _]. unfold spec_item, child; cbn [snd].
  rewrite entry_header_name, entry_header_dir, entry_header_size.
  destruct dir as [|d0 dir0].
  { rewrite Ht by done. cbn [join app rest_below]. unfold relative_name, entry_name; cbn. by apply item_of. }
  set (dir := d0 :: dir0) in *. assert (Hd : dir <> []) by done.
  destruct (rest_below dir (te_path e)) as [rest|] eqn:E.
  - apply rest_below_Some in E. destruct rest as [|c rest].
    + rewrite app_nil_r in E. unfold relative_name, entry_name. rewrite E.
      destruct (str_eqb _ []) eqn:E0; [by apply str_eqb_true, join_nonempty in E0|].
      destruct (strip_prefix _ _) as [t|] eqn:E1; [|done]. apply strip_prefix_Some in E1.
      rewrite <- app_assoc in E1. apply app_inv_head in E1.
      assert (skip_slash t = []) as ->; [|done].
      destruct trail, (te_dir e); cbn in E1; try done; [by injection E1 as <-|by subst..].
    + rewrite (relative_below dir (c :: rest) trail) by (done || (rewrite E in Hc; by apply Forall_app in Hc as [_ Hc])).
      cbn [mbind option_bind]. apply (item_of (c :: rest)); [done|]. rewrite E in Hc. by apply Forall_app in Hc as [_ Hc].
  - assert (strip_prefix (join dir ++ if trail then [SLASH] else []) (entry_name e) = None) as Hs.
    { destruct (strip_prefix _ _) as [t|] eqn:E1; [|done]. exfalso. apply strip_prefix_Some in E1.
      rewrite <- app_assoc in E1. destruct Hl as [->|Hl].
      - apply slash_below in E1 as [rest E1]; [|done..]. apply rest_below_Some in E1. congruence.
      - destruct Hl as [? ?]; [apply starts_with_spec; eauto|done]. }
    unfold relative_name. destruct (str_eqb _ []) eqn:E0; [by apply str_eqb_true, join_nonempty in E0|].
    by rewrite Hs.
Qed.

End Entry.

Lemma written_items (A : Type) (g : TarHeader -> option A) p fs :
  omap (fun x : Z * TarHeader => g x.2) (written_entries p fs) = omap (fun f => g (write_header f)) fs.
Proof. revert p. induction fs as [|f fs IH]; intros p; [done|]. cbn. rewrite IH. done. Qed.

Lemma written_exists (g : TarHeader -> bool) p fs :
  existsb (fun x : Z * TarHeader => g x.2) (written_entries p fs) = existsb (fun f => g (write_header f)) fs.
Proof. revert p. induction fs as [|f fs IH]; intros p; [done|]. cbn. by rewrite IH. Qed.

Lemma archive_walks es :
  Forall entry_ok es ->
  walks (write_archive (tar_file_of <$> es)) 0 (written_entries 0 (tar_file_of <$> es)) /\
  Forall tar_file_ok (tar_file_of <$> es).
Proof.
  intros He. assert (Hf : Forall tar_file_ok (tar_file_of <$> es)).
  { apply Forall_fmap. eapply Forall_impl; [exact He|]. intros e Hk. apply Hk. }
  split; [|done]. apply (walks_written [] _ Hf).
Qed.

Lemma archive_list es dir lead (trail : bool) :
  Forall entry_ok es -> Forall component dir -> (dir = [] -> trail = false) ->
  trail = true \/ no_lookalike dir es ->
  list_dir (write_archive (tar_file_of <$> es)) (path_string lead dir trail) = Some (omap (child dir) es).
Proof.
  intros He Cd Ht Hl. destruct (archive_walks es He) as [Hw _]. unfold list_dir.
  rewrite (list_loop_run _ _ 0 _ _ _ Hw (fuel_enough _ _ Hw)). f_equal. cbn [app].
  assert (Hs : skip_slash (path_string lead dir trail) = join dir ++ if trail then [SLASH] else []).
  { unfold path_string. destruct lead; [apply skip_one|]. cbn [app]. destruct dir; [by rewrite Ht|].
    by apply skip_join. }
  rewrite Hs. etransitivity; [exact (written_items _ (fun h => spec_item _ (0, h)) 0 _)|].
  clear Hw. induction He as [|e es Hk _ IH]; [done|]. cbn [fmap list_fmap omap list_omap].
  rewrite item_test by (done || (destruct Hl as [Hl|Hl]; [by left|right; by inversion Hl])).
  rewrite IH by (destruct Hl as [Hl|Hl]; [by left|right; by inversion Hl]). done.
Qed.

Lemma archive_has_dir es dir lead (trail : bool) :
  Forall entry_ok es -> Forall component dir -> (dir = [] -> trail = false) ->
  has_dir (write_archive (tar_file_of <$> es)) (path_string lead dir trail) = Some (is_directory dir es).
Proof.
  intros He Cd Ht. destruct (archive_walks es He) as [Hw _]. unfold has_dir, is_directory.
  assert (Hs : trim_slash (skip_slash (path_string lead dir trail)) = join dir).
  { unfold path_string. destruct dir as [|d dir]; [rewrite Ht by done; by destruct lead|].
    destruct lead; cbn [app]; [rewrite skip_one|rewrite skip_join by done]; by apply trim_join. }
  rewrite Hs. destruct dir as [|d dir]; [done|].
  rewrite (bool_decide_eq_false_2 (_ = [])) by done. cbn [orb].
  destruct (str_eqb _ []) eqn:E0.
  { apply str_eqb_true in E0. exfalso. apply (join_nonempty (d :: dir) ltac:(done) Cd []). by rewrite E0. }
  rewrite (has_dir_loop_run _ _ 0 _ _ Hw (fuel_enough _ _ Hw)). f_equal.
  etransitivity; [exact (written_exists (fun h => dir_evidence _ (0, h)) 0 _)|].
  clear Hw. induction He as [|e es Hk _ IH]; [done|]. cbn [fmap list_fmap existsb]. by rewrite dir_test, IH.
Qed.

Lemma archive_lookup es path lead :
  Forall entry_ok es -> Forall component path ->
  tf_content <$> lookup_file (skip_slash (path_string lead path false)) (tar_file_of <$> es) = te_content <$> file_at path es.
Proof.
  intros He Cp. unfold lookup_file, file_at. induction He as [|e es Hk _ IH]; [done|].
  cbn [fmap list_fmap List.find]. rewrite file_test by done. cbn [tar_file_of tf_flag].
  destruct (te_dir e); cbn; [by rewrite andb_false_r|]. rewrite andb_true_r.
  by destruct (bool_decide (te_path e = path)).
Qed.

(** C27. An archive of a directory tree reads as that tree.  For every sequence of
    entries (files and directories with their paths) stored in the ustar format,
    [find] returns the content of the file at a path, the first one when the
    path is stored twice, and nothing when no file has that path; [list] calls
    back with name, kind and size of exactly the entries directly in the
    directory, in the order of the archive; [has_dir] tells whether there is a
    directory, with an entry of its own or with something below it; [count] is
    the number of entries.  The path may start with a slash, and that of a
    directory may end with one.  When it does not, the listing needs that no
    entry's name merely continues the directory's name (see
    [sibling_listed]). *)
Theorem tar_archive_read es path lead (trail : bool) :
  Forall entry_ok es -> Forall component path -> (path = [] -> trail = false) ->
  let data := write_archive (tar_file_of <$> es) in
  find data (path_string lead path false) = Some (te_content <$> file_at path es) /\
  (trail = true \/ no_lookalike path es ->
   list_dir data (path_string lead path trail) = Some (omap (child path) es)) /\
  has_dir data (path_string lead path trail) = Some (is_directory path es) /\
  count data = Some (Z.of_nat (length es)).
Proof.
  intros He Cp Ht data. destruct (archive_walks es He) as [Hw Hf].
  destruct (tar_write_find_roundtrip _ (path_string lead path false) Hf) as [H1 H2].
  rewrite length_fmap in H2. rewrite archive_lookup in H1 by done.
  split; [done|]. split; [intros Hl; by apply archive_list|]. split; [by apply archive_has_dir|done].
Qed.

(** An archive with [etc/], [etc/motd], [bin/sh] and [etcetera]. *)
Definition demo_entry (path : list str) (dir : bool) (content : list Z) : TarEntry :=
  mkTarEntry path dir content (replicate 24 32) (replicate 20 49) (replicate 355 7).
Definition etc : str := [101; 116; 99].
Definition demo_tree : list TarEntry :=
  [demo_entry [etc] true []; demo_entry [etc; [109; 111; 116; 100]] false [72; 105; 10];
   demo_entry [[98; 105; 110]; [115; 104]] false [1; 2]; demo_entry [etc ++ [101; 116; 101; 114; 97]] false [7]].

Lemma demo_archive_ok : Forall entry_ok demo_tree.
Proof.
  unfold demo_tree.
  repeat first [apply Forall_nil_2|apply Forall_cons_2];
    (split; [done|by apply (bool_decide_unpack (Forall component _))|]);
    (split; [cbn; lia| |done|by vm_compute|done..]);
    unfold nul_free; by apply (bool_decide_unpack (_ ∉ _)).
Qed.

Lemma tar_archive_read_witness :
  find (write_archive (tar_file_of <$> demo_tree)) [47; 101; 116; 99; 47; 109; 111; 116; 100] = Some (Some [72; 105; 10]) /\
  list_dir (write_archive (tar_file_of <$> demo_tree)) [47; 101; 116; 99; 47] = Some [([109; 111; 116; 100], false, 3)] /\
  has_dir (write_archive (tar_file_of <$> demo_tree)) [98; 105; 110] = Some true /\
  count (write_archive (tar_file_of <$> demo_tree)) = Some 4.
Proof.
  destruct (tar_archive_read demo_tree [etc; [109; 111; 116; 100]] true false demo_archive_ok) as (H1 & _ & _ & H4);
    [by apply (bool_decide_unpack (Forall component _))|done|].
  destruct (tar_archive_read demo_tree [etc] true true demo_archive_ok) as (_ & H2 & _);
    [by apply (bool_decide_unpack (Forall component _))|done|].
  destruct (tar_archive_read demo_tree [[98; 105; 110]] false false demo_archive_ok) as (_ & _ & H3 & _);
    [by apply (bool_decide_unpack (Forall component _))|done|].
  split; [exact H1|]. split; [exact (H2 (or_introl eq_refl))|]. split; [exact H3|exact H4].
Defined.

(** Without the slash behind it, [list] of [etc] also shows the file [etcetera],
    under the name [etera]. *)
Example sibling_listed :
  list_dir (write_archive (tar_file_of <$> demo_tree)) [47; 101; 116; 99] =
  Some [([109; 111; 116; 100], false, 3); ([101; 116; 101; 114; 97], false, 1)].
Proof. by vm_compute. Qed.

End Tree.
