(* ===== verification/FsServer.v ===== *)
(** * The file system server

    Models [os/fs/src/main.rs] with the protocol of [api/fs/src/lib.rs]: the
    requests that arrive as blocking scalars (paths packed into registers), and
    the buffer requests, whose page holds the path, a status byte and the text
    of the answer.  The state is the RAM file system, the disk image and what
    was written to the serial line.

    The message loop around the handlers (system calls) and the busy waiting on
    the serial line's status register are left out. *)

From Stdlib Require Import ZArith Lia Bool String Ascii.
From stdpp Require Import gmap.
From S2P Require Import Prelude Abi Bytes RamFs TarFs.
Open Scope Z_scope.

(** A string literal as bytes. *)
Fixpoint lit (s : string) : str :=
  match s with EmptyString => [] | String c s => Z.of_nat (nat_of_ascii c) :: lit s end.

Inductive ApiError :=
| A_Ok | A_NotFound | A_AlreadyExists | A_IsDirectory | A_NotDirectory | A_NotEmpty | A_NoSpace | A_ReadOnly
| A_InvalidPath.

Definition ApiError_code (e : ApiError) : Z :=
  match e with
  | A_Ok => 0 | A_NotFound => 1 | A_AlreadyExists => 2 | A_IsDirectory => 3 | A_NotDirectory => 4
  | A_NotEmpty => 5 | A_NoSpace => 6 | A_ReadOnly => 7 | A_InvalidPath => 8
  end.

Inductive FsOp := Op_Cat | Op_Ls | Op_Mkdir | Op_Remove | Op_WriteShort | Op_Stats | Op_IsDir | Op_LsBuf | Op_CatBuf.

Definition FsOp_code (op : FsOp) : Z :=
  match op with
  | Op_Cat => 0 | Op_Ls => 1 | Op_Mkdir => 2 | Op_Remove => 3 | Op_WriteShort => 4 | Op_Stats => 5
  | Op_IsDir => 6 | Op_LsBuf => 7 | Op_CatBuf => 8
  end.

Definition MAX_PATH_LEN : nat := 32.
Definition BUF_STATUS_OFFSET : nat := MAX_PATH_LEN.
Definition BUF_TEXT_OFFSET : nat := (MAX_PATH_LEN + 1)%nat.

Definition pack_path (path : str) : list Z := pack_words 4 path.
Definition unpack_path (args : list Z) : str := str_or_empty (unpack_bytes args).
Definition unpack_short_content (args : list Z) : list Z := unpack_bytes args.

(** [write_path_to_buf] for a buffer of at least one byte, and
    [read_path_from_buf] *)
Definition write_path_to_buf (buf : list Z) (path : str) : list Z * nat :=
  let n := Nat.min (Nat.min (length path) (MAX_PATH_LEN - 1)) (length buf - 1) in
  (take n path ++ 0 :: drop (n + 1) buf, (n + 1)%nat).
Definition read_path_from_buf (buf : list Z) : str :=
  str_or_empty (until_nul (take (Nat.min MAX_PATH_LEN (length buf)) buf)).

(** ** State *)

Record FsState := mkFsState { ramfs : Fs; disk : option (list Z); uart : list Z }.

Definition on_ramfs {A} (m : M Fs A) : M FsState A :=
  fun s => match m (ramfs s) with Some (a, f) => Some (a, mkFsState f (disk s) (uart s)) | None => None end.

Definition get_disk_archive : M FsState (option (list Z)) := gets disk.

(** The serial line inserts a carriage return before a line feed. *)
Definition putc (c : Z) : list Z := if c =? 10 then [13; 10] else [c].
Definition puts (s : str) : M FsState unit :=
  modify (fun st => mkFsState (ramfs st) (disk st) (uart st ++ concat (putc <$> s))).

Definition NEWLINE : Z := 10.

(** [{}] of a [usize] *)
Fixpoint decimal_loop (fuel : nat) (n : Z) (acc : str) : str :=
  match fuel with
  | O => acc
  | S fuel => if n <? 10 then (48 + n) :: acc else decimal_loop fuel (n / 10) ((48 + n mod 10) :: acc)
  end.
Definition decimal (n : Z) : str := decimal_loop 20 n [].

Definition DISK : str := [100; 105; 115; 107].

Definition is_disk_path (path : str) : bool :=
  let p := skip_slash path in str_eqb p DISK || starts_with (DISK ++ [SLASH]) p.

Definition disk_subpath (path : str) : str :=
  let p := skip_slash path in
  default (default p (strip_prefix DISK p)) (strip_prefix (DISK ++ [SLASH]) p).

(** The text shown for a file and for a directory entry. *)
Definition file_text (data : list Z) : str :=
  if utf8_valid data then
    if ends_with [NEWLINE] data then data else data ++ [NEWLINE]
  else lit "<binary: " ++ decimal (Z.of_nat (length data)) ++ lit " bytes>" ++ [NEWLINE].

Definition entry_text (name : str) (is_dir : bool) (size : Z) : str :=
  if is_dir then lit "  " ++ name ++ lit "/" ++ [NEWLINE]
  else lit "  " ++ name ++ lit " (" ++ decimal size ++ lit " bytes)" ++ [NEWLINE].

Definition root_text : str := lit "  disk/  (block device)" ++ [NEWLINE].

Definition is_root (path : str) : bool := str_eqb (skip_slash path) [].

(** ** Operations that answer with text

    [cat_text] and [ls_text] are the searches shared by the serial and the
    buffer variants: the status and the pieces of text, in the order in which
    they are written. *)

Definition cat_text (path : str) : M FsState (ApiError * list str) :=
  if is_disk_path path then
    archive <- get_disk_archive ;;
    match archive with
    | Some data =>
        found <- expect (TarFs.find data (disk_subpath path)) ;;
        match found with
        | Some content => ret (A_Ok, [file_text content])
        | None => ret (A_NotFound, [])
        end
    | None => ret (A_NotFound, [])
    end
  else
    r <- on_ramfs (read path) ;;
    match r with
    | Ok content => ret (A_Ok, [file_text content])
    | Err NotFound => ret (A_NotFound, [])
    | Err IsDirectory => ret (A_IsDirectory, [])
    | Err _ => ret (A_InvalidPath, [])
    end.

Definition ls_text (path : str) : M FsState (ApiError * list str) :=
  archive <- get_disk_archive ;;
  let banner := if is_root path && match archive with Some _ => true | None => false end then [root_text] else [] in
  if is_disk_path path then
    match archive with
    | Some data =>
        items <- expect (TarFs.list_dir data (disk_subpath path)) ;;
        ret (A_Ok, banner ++ ((fun i => entry_text i.1.1 i.1.2 i.2) <$> items))
    | None => ret (A_NotFound, banner)
    end
  else
    r <- on_ramfs (RamFs.list_dir path) ;;
    match r with
    | Ok items => ret (A_Ok, banner ++ ((fun i => entry_text i.1.1 i.1.2 (Z.of_nat i.2)) <$> items))
    | Err NotFound => ret (A_NotFound, banner)
    | Err NotDirectory => ret (A_NotDirectory, banner)
    | Err _ => ret (A_InvalidPath, banner)
    end.

Definition do_cat (path : str) : M FsState ApiError := r <- cat_text path ;; _ <- puts (concat r.2) ;; ret r.1.
Definition do_ls (path : str) : M FsState ApiError := r <- ls_text path ;; _ <- puts (concat r.2) ;; ret r.1.

Definition do_is_dir (path : str) : M FsState ApiError :=
  if is_disk_path path then
    archive <- get_disk_archive ;;
    match archive with
    | None => ret A_NotFound
    | Some data =>
        if str_eqb (disk_subpath path) [] then ret A_Ok
        else
          b <- expect (has_dir data (disk_subpath path)) ;;
          if b then ret A_Ok else ret A_NotFound
    end
  else
    r <- on_ramfs (RamFs.list_dir path) ;;
    match r with
    | Ok _ => ret A_Ok
    | Err NotFound => ret A_NotFound
    | Err NotDirectory => ret A_NotDirectory
    | Err _ => ret A_InvalidPath
    end.

Definition do_mkdir (path : str) : M FsState ApiError :=
  if is_disk_path path then ret A_ReadOnly
  else
    r <- on_ramfs (mkdir path) ;;
    match r with
    | Ok _ => ret A_Ok
    | Err AlreadyExists => ret A_AlreadyExists
    | Err NotFound => ret A_NotFound
    | Err _ => ret A_NoSpace
    end.

Definition do_remove (path : str) : M FsState ApiError :=
  if is_disk_path path then ret A_ReadOnly
  else
    r <- on_ramfs (remove path) ;;
    match r with
    | Ok _ => ret A_Ok
    | Err NotFound => ret A_NotFound
    | Err NotEmpty => ret A_NotEmpty
    | Err _ => ret A_InvalidPath
    end.

Definition do_write (path : str) (content : list Z) : M FsState ApiError :=
  if is_disk_path path then ret A_ReadOnly
  else
    r <- on_ramfs (write path content) ;;
    match r with
    | Ok _ =>
        _ <- puts (lit "wrote " ++ decimal (Z.of_nat (length content)) ++ lit " bytes to " ++ path ++ [NEWLINE]) ;;
        ret A_Ok
    | Err IsDirectory => ret A_IsDirectory
    | Err _ => ret A_NoSpace
    end.

(** ** Scalar requests: the values returned to the sender *)

Definition status_reply (m : M FsState ApiError) : M FsState (list Z) :=
  e <- m ;; ret [ApiError_code e].

Definition handle_blocking_scalar (scalar : ScalarMessage) : M FsState (list Z) :=
  let args := [sm_arg1 scalar; sm_arg2 scalar; sm_arg3 scalar; sm_arg4 scalar] in
  let path := unpack_path args in
  if sm_id scalar =? FsOp_code Op_Cat then status_reply (do_cat path)
  else if sm_id scalar =? FsOp_code Op_Ls then status_reply (do_ls path)
  else if sm_id scalar =? FsOp_code Op_Mkdir then status_reply (do_mkdir path)
  else if sm_id scalar =? FsOp_code Op_Remove then status_reply (do_remove path)
  else if sm_id scalar =? FsOp_code Op_WriteShort then
    let path := unpack_path [sm_arg1 scalar; sm_arg2 scalar; 0; 0] in
    let content := unpack_short_content [sm_arg3 scalar; sm_arg4 scalar] in
    status_reply (do_write path content)
  else if sm_id scalar =? FsOp_code Op_Stats then
    x <- gets (fun s => stats (ramfs s)) ;;
    archive <- get_disk_archive ;;
    disk_files <- match archive with Some data => expect (count data) | None => ret 0 end ;;
    ret [Z.of_nat x.1.1; Z.of_nat x.1.2; Z.of_nat x.2;
         match archive with Some data => Z.of_nat (length data) | None => 0 end; disk_files]
  else if sm_id scalar =? FsOp_code Op_IsDir then status_reply (do_is_dir path)
  else ret [ApiError_code A_InvalidPath].

(** ** Buffer requests *)

Record BufWrite := mkBuf { bw_buf : list Z; bw_pos : nat }.

Fixpoint write_str (s : str) (w : BufWrite) : BufWrite :=
  match s with
  | [] => w
  | b :: s =>
      write_str s (if (bw_pos w + 1 <? length (bw_buf w))%nat
                   then mkBuf (<[bw_pos w := b]> (bw_buf w)) (bw_pos w + 1) else w)
  end.

Definition write_all (pieces : list str) (output : list Z) : list Z :=
  bw_buf (fold_left (fun w t => write_str t w) pieces (mkBuf output 0)).

Definition do_ls_buf (path : str) (output : list Z) : M FsState (ApiError * list Z) :=
  r <- ls_text path ;; ret (r.1, write_all r.2 output).
Definition do_cat_buf (path : str) (output : list Z) : M FsState (ApiError * list Z) :=
  r <- cat_text path ;; ret (r.1, write_all r.2 output).

(** The handler on the lent page: the page as it is returned.  The status byte
    is written without a bounds check; lent buffers are whole pages. *)
Definition handle_mutable_borrow (op : Z) (buf : list Z) : M FsState (list Z) :=
  let src := take (Nat.min (length buf) 32) buf in
  let path_copy := src ++ replicate (32 - length src) 0 in
  let path := str_or_empty (until_nul path_copy) in
  r <- (if (BUF_TEXT_OFFSET <? length buf)%nat then
          let text_area := replicate (length buf - BUF_TEXT_OFFSET) 0 in
          x <- (if op =? FsOp_code Op_LsBuf then do_ls_buf path text_area
                else if op =? FsOp_code Op_CatBuf then do_cat_buf path text_area
                else ret (A_InvalidPath, text_area)) ;;
          ret (x.1, take BUF_TEXT_OFFSET buf ++ x.2)
        else ret (A_InvalidPath, buf)) ;;
  _ <- assertb (BUF_STATUS_OFFSET <? length buf)%nat ;;
  ret (<[BUF_STATUS_OFFSET := ApiError_code r.1]> r.2).

(** ** Start-up and dispatch *)

Definition start (disk_size : Z) : M FsState unit :=
  _ <- on_ramfs init ;;
  _ <- on_ramfs (mkdir (lit "/tmp")) ;;
  _ <- on_ramfs (mkdir (lit "/etc")) ;;
  _ <- on_ramfs (write (lit "/etc/motd") (lit "Welcome to BeetOS!" ++ [NEWLINE])) ;;
  puts (lit "[fs] started, disk=" ++ decimal disk_size ++ lit " bytes" ++ [NEWLINE]).

Inductive FsReply := ReplyScalars (values : list Z) | ReplyPage (page : list Z) | NoReply.

(** One turn of the message loop; [page] is the content of a lent buffer. *)
Definition handle_message (body : Message) (page : list Z) : M FsState FsReply :=
  match body with
  | BlockingScalar scalar => r <- handle_blocking_scalar scalar ;; ret (ReplyScalars r)
  | MutableBorrow mem => p <- handle_mutable_borrow (mm_id mem) page ;; ret (ReplyPage p)
  | _ => ret NoReply
  end.

(** ** Text buffers *)

Lemma write_str_run s buf pos :
  (pos < length buf)%nat ->
  write_str s (mkBuf buf pos) =
    let n := Nat.min (length s) (length buf - 1 - pos) in
    mkBuf (take pos buf ++ take n s ++ drop (pos + n) buf) (pos + n).
Proof.
  revert buf pos. induction s as [|b s IH]; intros buf pos Hp; cbn [write_str bw_pos bw_buf].
  - cbn. by rewrite Nat.add_0_r, take_drop.
  - destruct (Nat.ltb_spec (pos + 1) (length buf)) as [Hlt|Hge].
    + rewrite IH by (rewrite length_insert; lia). cbv zeta. rewrite length_insert.
      replace (Nat.min (length (b :: s)) (length buf - 1 - pos))
        with (S (Nat.min (length s) (length buf - 1 - (pos + 1)))) by (cbn [length]; lia).
      set (n := Nat.min (length s) _). f_equal; [|lia].
      rewrite Nat.add_1_r at 1. rewrite (take_S_r _ _ b) by (apply list_lookup_insert_eq; lia).
      rewrite take_insert_ge, drop_insert_lt, <- app_assoc by lia. cbn [take app].
      by replace (pos + 1 + n)%nat with (pos + S n)%nat by lia.
    + replace (length buf - 1 - pos)%nat with 0%nat by lia.
      assert (E : forall s, write_str s (mkBuf buf pos) = mkBuf buf pos).
      { clear IH s. induction s as [|c s IH]; cbn [write_str bw_pos bw_buf]; [done|].
        rewrite (proj2 (Nat.ltb_ge _ _)) by lia. exact IH. }
      rewrite E. cbv zeta. rewrite Nat.min_0_r, Nat.add_0_r. cbn [take app]. by rewrite take_drop.
Qed.

Lemma write_str_app a b w : write_str (a ++ b) w = write_str b (write_str a w).
Proof. revert w. induction a as [|c a IH]; intros w; cbn; [done|]. apply IH. Qed.

(** The text area after writing [text]: as much as fits before the last byte,
    then zeros. *)
Definition text_area (n : nat) (text : str) : list Z :=
  take (n - 1) text ++ replicate (n - Nat.min (length text) (n - 1)) 0.

Lemma write_all_run pieces n : (1 <= n)%nat -> write_all pieces (replicate n 0) = text_area n (concat pieces).
Proof.
  intros Hn. unfold write_all, text_area.
  assert (E : forall w, fold_left (fun w t => write_str t w) pieces w = write_str (concat pieces) w).
  { induction pieces as [|t pieces IH]; intros w; cbn; [done|]. by rewrite IH, write_str_app. }
  rewrite E, write_str_run by (rewrite length_replicate; lia). cbn [bw_buf take]. cbv zeta.
  rewrite length_replicate, Nat.sub_0_r. cbn [Nat.add app]. rewrite drop_replicate.
  assert (Ht : take (Nat.min (length (concat pieces)) (n - 1)) (concat pieces) = take (n - 1) (concat pieces)).
  { destruct (Nat.le_gt_cases (length (concat pieces)) (n - 1)) as [Hle|Hgt].
    - by rewrite !take_ge by lia.
    - by rewrite Nat.min_r by lia. }
  by rewrite Ht.
Qed.

Lemma text_area_length n text : (1 <= n)%nat -> length (text_area n text) = n.
Proof. intros H. unfold text_area. rewrite length_app, length_take, length_replicate. lia. Qed.

Lemma text_area_last n text : (1 <= n)%nat -> text_area n text !! (n - 1)%nat = Some 0.
Proof.
  intros H. unfold text_area. rewrite lookup_app_r by (rewrite length_take; lia).
  rewrite length_take. apply lookup_replicate_2. lia.
Qed.

(** ** The state the handlers keep *)

(** [m] returns and leaves the files and the disk alone. *)
Definition reads {A} (m : M FsState A) (s : FsState) : Prop :=
  exists a s', m s = Some (a, s') /\ ramfs s' = ramfs s /\ disk s' = disk s.

Lemma find_total data path : exists r, TarFs.find data path = Some r.
Proof.
  destruct (walks_exists data 0 ltac:(lia)) as (es & H & _). eexists.
  unfold TarFs.find. by apply (find_loop_run data _ 0 es _ H (fuel_enough data es H)).
Qed.
Lemma list_dir_total data dir : exists r, TarFs.list_dir data dir = Some r.
Proof.
  destruct (walks_exists data 0 ltac:(lia)) as (es & H & _). eexists.
  unfold TarFs.list_dir. by apply (list_loop_run data _ 0 es _ _ H (fuel_enough data es H)).
Qed.
Lemma has_dir_total data dir : exists r, has_dir data dir = Some r.
Proof.
  destruct (walks_exists data 0 ltac:(lia)) as (es & H & _). unfold has_dir.
  destruct (str_eqb _ []); [by eexists|]. eexists. by apply (has_dir_loop_run data _ 0 es _ H (fuel_enough data es H)).
Qed.
Lemma count_total data : exists r, count data = Some r.
Proof.
  destruct (walks_exists data 0 ltac:(lia)) as (es & H & _). eexists.
  unfold count. by apply (count_loop_run data 0 es _ _ H (fuel_enough data es H)).
Qed.

Lemma cat_text_run s path :
  fs_ok (ramfs s) -> exists r, cat_text path s = Some (r, s).
Proof.
  intros Hs. unfold cat_text, get_disk_archive, bind, gets. destruct (is_disk_path path).
  - destruct (disk s) as [data|]; [|by eexists].
    destruct (find_total data (disk_subpath path)) as [[c|] ->]; cbn; by eexists.
  - unfold on_ramfs. rewrite (read_refines _ path Hs). cbn.
    assert (E : mkFsState (ramfs s) (disk s) (uart s) = s) by (by destruct s). rewrite E.
    destruct (spec_read path _) as [c|[]]; by eexists.
Qed.

Lemma ls_text_run s path : fs_ok (ramfs s) -> exists r, ls_text path s = Some (r, s).
Proof.
  intros Hs. unfold ls_text, get_disk_archive, bind, gets. destruct (is_disk_path path).
  - destruct (disk s) as [data|]; [|by eexists].
    destruct (list_dir_total data (disk_subpath path)) as [l ->]; cbn; by eexists.
  - unfold on_ramfs. destruct (list_refines _ path Hs) as (r & -> & _).
    assert (E : mkFsState (ramfs s) (disk s) (uart s) = s) by (by destruct s). rewrite E.
    destruct r as [l|[]]; by eexists.
Qed.

Lemma do_is_dir_run s path : fs_ok (ramfs s) -> exists r, do_is_dir path s = Some (r, s).
Proof.
  intros Hs. unfold do_is_dir, get_disk_archive, bind, gets. destruct (is_disk_path path).
  - destruct (disk s) as [data|]; [|by eexists]. destruct (str_eqb _ []); [by eexists|].
    destruct (has_dir_total data (disk_subpath path)) as [[] ->]; cbn; by eexists.
  - unfold on_ramfs. destruct (list_refines _ path Hs) as (r & -> & _).
    assert (E : mkFsState (ramfs s) (disk s) (uart s) = s) by (by destruct s). rewrite E.
    destruct r as [l|[]]; by eexists.
Qed.

Lemma str_or_empty_free s : nul_free s -> nul_free (str_or_empty s).
Proof. unfold str_or_empty. destruct (utf8_valid s); [done|]. intros _. apply not_elem_of_nil. Qed.

Lemma unpack_path_free args : nul_free (unpack_path args).
Proof. apply str_or_empty_free, until_nul_is_free. Qed.

(** What every scalar handler guarantees: it returns a status, keeps the table
    well formed and the disk as it was. *)
Definition answers (m : M FsState ApiError) (s : FsState) : Prop :=
  exists e s', m s = Some (e, s') /\ fs_ok (ramfs s') /\ disk s' = disk s.
Definition answers_reading (m : M FsState ApiError) (s : FsState) : Prop :=
  exists e s', m s = Some (e, s') /\ ramfs s' = ramfs s /\ disk s' = disk s.

Lemma text_op_reads (m : M FsState (ApiError * list str)) s :
  (exists r, m s = Some (r, s)) -> answers_reading (r <- m ;; _ <- puts (concat r.2) ;; ret r.1) s.
Proof.
  intros [r Hr]. unfold answers_reading, bind. rewrite Hr. eexists _, _. split; [reflexivity|]. done.
Qed.

Lemma do_cat_reads s path : fs_ok (ramfs s) -> answers_reading (do_cat path) s.
Proof. intros Hs. by apply text_op_reads, cat_text_run. Qed.
Lemma do_ls_reads s path : fs_ok (ramfs s) -> answers_reading (do_ls path) s.
Proof. intros Hs. by apply text_op_reads, ls_text_run. Qed.
Lemma do_is_dir_reads s path : fs_ok (ramfs s) -> answers_reading (do_is_dir path) s.
Proof. intros Hs. destruct (do_is_dir_run s path Hs) as [e He]. by exists e, s. Qed.

Lemma do_mkdir_answers s path : fs_ok (ramfs s) -> nul_free path -> answers (do_mkdir path) s.
Proof.
  intros Hs Hn. unfold answers, do_mkdir. destruct (is_disk_path path); [by eexists _, s|].
  destruct (mkdir_refines _ path Hs Hn) as (f & Hrun & Hok & _). unfold bind, on_ramfs. rewrite Hrun.
  destruct (spec_mkdir path (view (ramfs s))).1 as [[]|[]]; by eexists _, _.
Qed.

Lemma do_remove_answers s path : fs_ok (ramfs s) -> answers (do_remove path) s.
Proof.
  intros Hs. unfold answers, do_remove. destruct (is_disk_path path); [by eexists _, s|].
  destruct (remove_refines _ path Hs) as (f & Hrun & Hok & _). unfold bind, on_ramfs. rewrite Hrun.
  destruct (spec_remove path (view (ramfs s))).1 as [[]|[]]; by eexists _, _.
Qed.

Lemma do_write_answers s path content : fs_ok (ramfs s) -> nul_free path -> answers (do_write path content) s.
Proof.
  intros Hs Hn. unfold answers, do_write. destruct (is_disk_path path); [by eexists _, s|].
  destruct (write_refines _ path content Hs Hn) as (f & Hrun & Hok & _). unfold bind, on_ramfs. rewrite Hrun.
  destruct (spec_write path content (view (ramfs s))).1 as [[]|[]]; by eexists _, _.
Qed.

Definition mutating (op : Z) : bool :=
  (op =? FsOp_code Op_Mkdir) || (op =? FsOp_code Op_Remove) || (op =? FsOp_code Op_WriteShort).

Definition reply_length (op : Z) : nat := if op =? FsOp_code Op_Stats then 5%nat else 1%nat.

(** The path a request names. *)
Definition request_path (m : ScalarMessage) : str :=
  unpack_path (if sm_id m =? FsOp_code Op_WriteShort then [sm_arg1 m; sm_arg2 m; 0; 0]
               else [sm_arg1 m; sm_arg2 m; sm_arg3 m; sm_arg4 m]).

Lemma status_reply_run m s e s' : m s = Some (e, s') -> status_reply m s = Some ([ApiError_code e], s').
Proof. intros H. unfold status_reply, bind. by rewrite H. Qed.

Lemma mutation_answered op s :
  answers op s -> exists r s', status_reply op s = Some (r, s') /\ fs_ok (ramfs s') /\ disk s' = disk s /\ length r = 1%nat.
Proof. intros (e & s' & Hrun & Hok & Hd). eexists _, s'. by rewrite (status_reply_run _ _ _ _ Hrun). Qed.

Lemma reading_answered op s :
  fs_ok (ramfs s) -> answers_reading op s ->
  exists r s', status_reply op s = Some (r, s') /\ fs_ok (ramfs s') /\ disk s' = disk s /\ length r = 1%nat /\
    ramfs s' = ramfs s.
Proof.
  intros Hs (e & s' & Hrun & Hr & Hd). eexists _, s'. rewrite (status_reply_run _ _ _ _ Hrun), Hr. done.
Qed.

(** Case analysis on the request number. *)
Ltac is_op m op := destruct (Z.eqb_spec (sm_id m) (FsOp_code op)) as [E|_]; [rewrite ?E; clear E|].

(** Whatever scalar message arrives, the server answers it with the right
    number of values and without panic; the table stays well formed and the
    disk image unchanged, only the create, remove and write requests change
    files, and such a request for a path on the disk is refused as read-only
    and changes nothing at all. *)
Theorem scalar_requests_answered s m :
  fs_ok (ramfs s) ->
  exists r s', handle_blocking_scalar m s = Some (r, s') /\ fs_ok (ramfs s') /\ disk s' = disk s /\
    length r = reply_length (sm_id m) /\ (mutating (sm_id m) = false -> ramfs s' = ramfs s) /\
    (mutating (sm_id m) = true -> is_disk_path (request_path m) = true -> r = [7] /\ s' = s).
Proof.
  intros Hs. unfold handle_blocking_scalar, request_path, mutating, reply_length.
  set (path := unpack_path [sm_arg1 m; sm_arg2 m; sm_arg3 m; sm_arg4 m]).
  assert (Hn : nul_free path) by apply unpack_path_free.
  is_op m Op_Cat.
  { destruct (reading_answered _ s Hs (do_cat_reads s path Hs)) as (r & s' & ? & ? & ? & ? & ?). by exists r, s'. }
  is_op m Op_Ls.
  { destruct (reading_answered _ s Hs (do_ls_reads s path Hs)) as (r & s' & ? & ? & ? & ? & ?). by exists r, s'. }
  is_op m Op_Mkdir.
  { destruct (mutation_answered _ s (do_mkdir_answers s path Hs Hn)) as (r & s' & Hrun & ? & ? & ?). exists r, s'.
    do 5 (split; [done|]). cbn [FsOp_code Z.eqb]. intros _ Hd. revert Hrun.
    unfold do_mkdir. fold path in Hd. cbn in Hd. fold path in Hd. rewrite Hd. by intros [= <- <-]. }
  is_op m Op_Remove.
  { destruct (mutation_answered _ s (do_remove_answers s path Hs)) as (r & s' & Hrun & ? & ? & ?). exists r, s'.
    do 5 (split; [done|]). intros _ Hd. revert Hrun.
    unfold do_remove. cbn in Hd. fold path in Hd. rewrite Hd. by intros [= <- <-]. }
  is_op m Op_WriteShort.
  { set (wpath := unpack_path [sm_arg1 m; sm_arg2 m; 0; 0]).
    destruct (mutation_answered _ s (do_write_answers s wpath (unpack_short_content [sm_arg3 m; sm_arg4 m]) Hs
                (unpack_path_free _))) as (r & s' & Hrun & ? & ? & ?). exists r, s'.
    do 5 (split; [done|]). intros _ Hd. revert Hrun.
    unfold do_write. cbn in Hd. fold wpath in Hd. rewrite Hd. by intros [= <- <-]. }
  is_op m Op_Stats.
  { unfold get_disk_archive, bind, gets. destruct (disk s) as [data|] eqn:Ed.
    - destruct (count_total data) as [n ->]. cbn. eexists _, s. split; [reflexivity|]. done.
    - cbn. eexists _, s. split; [reflexivity|]. done. }
  is_op m Op_IsDir.
  { destruct (reading_answered _ s Hs (do_is_dir_reads s path Hs)) as (r & s' & ? & ? & ? & ? & ?). by exists r, s'. }
  eexists _, s. split; [reflexivity|]. done.
Qed.

Lemma ApiError_code_range e : 0 <= ApiError_code e <= 8.
Proof. destruct e; cbn; lia. Qed.

(** The page returned for a request of the buffer kind: the status and the text
    of the answer in place of whatever was there. *)
Definition answer_page (buf : list Z) (e : ApiError) (text : str) : list Z :=
  take BUF_STATUS_OFFSET buf ++ ApiError_code e :: text_area (length buf - BUF_TEXT_OFFSET) text.

Definition buffer_path (buf : list Z) : str :=
  str_or_empty (until_nul (take (Nat.min (length buf) 32) buf ++
    replicate (32 - length (take (Nat.min (length buf) 32) buf)) 0)).

Definition buffer_text (op : Z) (path : str) : M FsState (ApiError * list str) :=
  if op =? FsOp_code Op_LsBuf then ls_text path
  else if op =? FsOp_code Op_CatBuf then cat_text path else ret (A_InvalidPath, []).

Lemma buffer_text_run op path s : fs_ok (ramfs s) -> exists r, buffer_text op path s = Some (r, s).
Proof.
  intros Hs. unfold buffer_text. destruct (_ =? _); [by apply ls_text_run|].
  destruct (_ =? _); [by apply cat_text_run|by eexists].
Qed.

Lemma answer_page_insert (buf x : list Z) (e : Z) :
  (BUF_TEXT_OFFSET < length buf)%nat ->
  <[BUF_STATUS_OFFSET := e]> (take BUF_TEXT_OFFSET buf ++ x) = take BUF_STATUS_OFFSET buf ++ e :: x.
Proof.
  unfold BUF_TEXT_OFFSET, BUF_STATUS_OFFSET, MAX_PATH_LEN. intros H.
  destruct (lookup_lt_is_Some_2 buf 32%nat) as [b Hb]; [lia|].
  change (32 + 1)%nat with 33%nat. rewrite (take_S_r buf 32 b) by done. rewrite <- app_assoc. cbn [app].
  assert (Hl : length (take 32 buf) = 32%nat) by (rewrite length_take; lia).
  rewrite <- Hl at 1. apply insert_middle.
Qed.

Lemma handle_buffer_run op buf s r :
  (BUF_TEXT_OFFSET < length buf)%nat -> buffer_text op (buffer_path buf) s = Some (r, s) ->
  handle_mutable_borrow op buf s = Some (answer_page buf r.1 (concat r.2), s).
Proof.
  intros Hlen Hr. unfold handle_mutable_borrow. cbv zeta. fold (buffer_path buf).
  rewrite (proj2 (Nat.ltb_lt _ _) Hlen).
  assert (Hn : (1 <= length buf - BUF_TEXT_OFFSET)%nat) by lia.
  assert (Hst : (BUF_STATUS_OFFSET <? length buf)%nat = true).
  { apply Nat.ltb_lt. unfold BUF_TEXT_OFFSET, BUF_STATUS_OFFSET in *. lia. }
  unfold answer_page. rewrite <- (write_all_run (r.2) _ Hn), <- (answer_page_insert buf _ _ Hlen).
  revert Hr. unfold buffer_text, do_ls_buf, do_cat_buf, bind.
  destruct (op =? FsOp_code Op_LsBuf); [intros ->; by rewrite Hst|].
  destruct (op =? FsOp_code Op_CatBuf); [intros ->; by rewrite Hst|].
  intros [= <-]. cbn [ret fst snd]. rewrite Hst. done.
Qed.

(** C28. Buffer requests never write outside the lent page and never change a file:
    the page keeps its length and its first 32 bytes, byte 32 is a status code,
    and the text that follows, cut off when it does not fit, is always ended by
    a NUL byte. *)
Theorem buffer_requests_bounded s op buf :
  fs_ok (ramfs s) -> (BUF_TEXT_OFFSET < length buf)%nat ->
  exists buf' e, handle_mutable_borrow op buf s = Some (buf', s) /\ length buf' = length buf /\
    take BUF_STATUS_OFFSET buf' = take BUF_STATUS_OFFSET buf /\
    buf' !! BUF_STATUS_OFFSET = Some (ApiError_code e) /\ 0 <= ApiError_code e <= 8 /\
    buf' !! (length buf - 1)%nat = Some 0.
Proof.
  intros Hs Hlen. destruct (buffer_text_run op (buffer_path buf) s Hs) as [r Hr].
  pose proof (handle_buffer_run op buf s r Hlen Hr) as Hrun.
  eexists _, r.1. split; [exact Hrun|]. unfold answer_page.
  assert (Hn : (1 <= length buf - BUF_TEXT_OFFSET)%nat) by lia.
  assert (H32 : length (take BUF_STATUS_OFFSET buf) = BUF_STATUS_OFFSET).
  { rewrite length_take. unfold BUF_TEXT_OFFSET, BUF_STATUS_OFFSET in *. lia. }
  split. { rewrite length_app, H32. cbn [length]. rewrite text_area_length by done.
           unfold BUF_TEXT_OFFSET, BUF_STATUS_OFFSET in *. lia. }
  split; [by apply take_app_length'|]. split.
  { rewrite lookup_app_r by lia. by rewrite H32, Nat.sub_diag. }
  split; [apply ApiError_code_range|].
  rewrite lookup_app_r by (unfold BUF_TEXT_OFFSET, BUF_STATUS_OFFSET in *; lia). rewrite H32.
  replace (length buf - 1 - BUF_STATUS_OFFSET)%nat with (S (length buf - BUF_TEXT_OFFSET - 1))
    by (unfold BUF_TEXT_OFFSET, BUF_STATUS_OFFSET in *; lia).
  by apply text_area_last.
Qed.

(** ** From one client to another *)

(** The message a client sends to write [content] to [path]. *)
Definition write_short_message (path content : str) : ScalarMessage :=
  mkScalarMessage (FsOp_code Op_WriteShort)
    (nth 0 (pack_words 2 path) 0) (nth 1 (pack_words 2 path) 0)
    (nth 0 (pack_words 2 content) 0) (nth 1 (pack_words 2 content) 0).

Record short_ok (s : str) : Prop := {
  so_bytes : forallb byte_ok s = true; so_nul : nul_free s; so_len : (length s <= 16)%nat }.

Lemma pack_path_short p : (length p <= 16)%nat -> pack_words 4 p = pack_words 2 p ++ [0; 0].
Proof.
  intros H. cbn [pack_words app]. rewrite !drop_drop.
  rewrite (drop_ge p (8 + 8)), (drop_ge p (8 + 8 + 8)) by lia. done.
Qed.

Lemma write_short_path p c : short_ok p -> utf8_valid p = true -> request_path (write_short_message p c) = p.
Proof.
  intros [Hb Hn Hl] Hu. unfold request_path, write_short_message; cbn [sm_id sm_arg1 sm_arg2 FsOp_code].
  rewrite Z.eqb_refl. assert (E : [nth 0 (pack_words 2 p) 0; nth 1 (pack_words 2 p) 0; 0; 0] = pack_words 4 p)
    by (rewrite pack_path_short by done; done).
  rewrite E. unfold unpack_path. rewrite unpack_pack by (done || lia). unfold str_or_empty. by rewrite Hu.
Qed.

Lemma write_path_buffer_path buf p :
  nul_free p -> (length p <= 16)%nat -> utf8_valid p = true -> (BUF_TEXT_OFFSET < length buf)%nat ->
  buffer_path (write_path_to_buf buf p).1 = p /\ length (write_path_to_buf buf p).1 = length buf.
Proof.
  unfold BUF_TEXT_OFFSET, MAX_PATH_LEN. intros Hn Hl Hu Hb. unfold write_path_to_buf, MAX_PATH_LEN; cbn [fst].
  assert (Hlen : length (take (length p) p ++ 0 :: drop (length p + 1) buf) = length buf).
  { rewrite length_app, length_take. cbn [length]. rewrite length_drop. lia. }
  replace (Nat.min (Nat.min (length p) (32 - 1)) (length buf - 1)) with (length p) by lia.
  split; [|done]. unfold buffer_path. rewrite Hlen, Nat.min_r by lia.
  rewrite (length_take _ 32), Hlen. replace (32 - Nat.min 32 (length buf))%nat with 0%nat by lia.
  cbn [replicate]. rewrite app_nil_r, (take_ge p) by lia.
  rewrite take_app_ge by lia. replace (32 - length p)%nat with (S (31 - length p)) by lia. cbn [take].
  rewrite until_nul_app by done. unfold str_or_empty. by rewrite Hu.
Qed.

(** A short file written by one client is what another client reads: after a
    successful write request, a buffer request for the same path returns the
    written bytes as text, through the packing into registers, the table and
    the lent page. *)
Theorem write_short_then_cat s s1 p c buf :
  fs_ok (ramfs s) -> short_ok p -> short_ok c -> utf8_valid p = true -> is_disk_path p = false ->
  (BUF_TEXT_OFFSET < length buf)%nat ->
  handle_blocking_scalar (write_short_message p c) s = Some ([0], s1) ->
  handle_mutable_borrow (FsOp_code Op_CatBuf) (write_path_to_buf buf p).1 s1 =
    Some (answer_page (write_path_to_buf buf p).1 A_Ok (file_text c), s1).
Proof.
  intros Hs Hp Hc Hu Hd Hlen Hw. pose proof (write_short_path p c Hp Hu) as Hpath.
  destruct Hp as [Hpb Hpn Hpl]. destruct Hc as [Hcb Hcn Hcl].
  destruct (write_path_buffer_path buf p Hpn Hpl Hu Hlen) as [Hbp Hbl].
  assert (Hwr : do_write p c s = Some (A_Ok, s1)).
  { revert Hw. change (handle_blocking_scalar (write_short_message p c) s) with
      (status_reply (do_write (request_path (write_short_message p c))
         (unpack_short_content (pack_words 2 c))) s).
    unfold unpack_short_content. rewrite Hpath, unpack_pack by done. unfold status_reply, bind.
    destruct (do_write p c s) as [[e s2]|]; [|done]. destruct e; try done. by intros [= <-]. }
  assert (Hread : fs_ok (ramfs s1) /\ read p (ramfs s1) = Some (Ok c, ramfs s1)).
  { revert Hwr. unfold do_write. rewrite Hd. unfold bind, on_ramfs.
    destruct (write_refines _ p c Hs Hpn) as (f & -> & Hok & Hv).
    destruct (spec_write p c (view (ramfs s))).1 as [[]|[]] eqn:Es; try done.
    intros [= <-]. cbn [ramfs]. split; [done|]. rewrite (read_refines f p Hok). unfold spec_read. rewrite Hv.
    revert Es. unfold spec_write. destruct (_ <? _)%nat; [done|].
    destruct (view (ramfs s) !! normalize_path p) as [[|?]|]; [done|intros _; cbn [snd]; by rewrite lookup_insert_eq|].
    destruct (_ =? _)%nat; [done|]. intros _. cbn [snd]. by rewrite lookup_insert_eq. }
  destruct Hread as [Hok Hread].
  rewrite (handle_buffer_run _ _ s1 (A_Ok, [file_text c])).
  - cbn [fst snd concat]. by rewrite app_nil_r.
  - by rewrite Hbl.
  - rewrite Hbp. unfold buffer_text. cbn [FsOp_code Z.eqb Pos.eqb]. unfold cat_text. rewrite Hd.
    unfold bind, on_ramfs. rewrite Hread. by destruct s1.
Qed.

(** ** Examples *)

Definition srv0 : FsState := mkFsState fs_start None [].
Definition demo_name : str := lit "/note".
Definition demo_note : str := lit "hello".
Definition srv1 : FsState :=
  match handle_blocking_scalar (write_short_message demo_name demo_note) srv0 with Some (_, s) => s | None => srv0 end.

Lemma demo_name_ok : short_ok demo_name.
Proof. split; [done| |by cbn; lia]. unfold nul_free. by apply (bool_decide_unpack (_ ∉ _)). Qed.
Lemma demo_note_ok : short_ok demo_note.
Proof. split; [done| |by cbn; lia]. unfold nul_free. by apply (bool_decide_unpack (_ ∉ _)). Qed.

Lemma scalar_requests_answered_witness :
  exists r s', handle_blocking_scalar (mkScalarMessage 2 0 0 0 0) srv0 = Some (r, s') /\ fs_ok (ramfs s').
Proof.
  destruct (scalar_requests_answered srv0 (mkScalarMessage 2 0 0 0 0) (proj1 fs_start_ok)) as (r & s' & H1 & H2 & _).
  exact (ex_intro _ r (ex_intro _ s' (conj H1 H2))).
Defined.

Lemma buffer_requests_bounded_witness :
  exists buf' e, handle_mutable_borrow 7 (replicate 64 0) srv0 = Some (buf', srv0) /\
    buf' !! BUF_STATUS_OFFSET = Some (ApiError_code e).
Proof.
  destruct (buffer_requests_bounded srv0 7 (replicate 64 0) (proj1 fs_start_ok)) as (b & e & H1 & _ & _ & H2 & _).
  - vm_compute. lia.
  - exact (ex_intro _ b (ex_intro _ e (conj H1 H2))).
Defined.

Lemma write_short_then_cat_witness :
  handle_mutable_borrow (FsOp_code Op_CatBuf) (write_path_to_buf (replicate 64 0) demo_name).1 srv1 =
    Some (answer_page (write_path_to_buf (replicate 64 0) demo_name).1 A_Ok (file_text demo_note), srv1).
Proof.
  apply (write_short_then_cat srv0).
  - apply fs_start_ok.
  - apply demo_name_ok.
  - apply demo_note_ok.
  - reflexivity.
  - reflexivity.
  - vm_compute. lia.
  - reflexivity.
Defined.
