(* ===== verification/Elf.v ===== *)
(** * The ELF loader

    Models [xous/kernel/src/arch/aarch64/elf.rs]: the checks of the file header,
    the load slide, the copying of [PT_LOAD] segments into fresh pages and the
    [R_AARCH64_RELATIVE] relocations.

    The file is [img], the bytes from its start on, with its length [len]: the
    loader reads headers without comparing their offsets with the length, so
    bytes beyond it can be read.  [ls_mem] is the physical memory of user pages;
    the kernel reaches it through the linear map.  Page tables and allocation are
    those of [PageTable].  Sums of addresses are [usize] sums, which panic on
    overflow. *)

From S2P Require Import Prelude Abi Memory PageTable MemMap.
From Stdlib Require Import ZArith Lia Bool.
From stdpp Require Import gmap.
Open Scope Z_scope.

Definition ASLR_START : Z := 65536. (* 0x1_0000 *)
Definition ASLR_END : Z := 52776558133248. (* 0x3000_0000_0000 *)

Definition ELF_MAGIC : list Z := [127; 69; 76; 70].
Definition ELFCLASS64 : Z := 2.
Definition ELFDATA2LSB : Z := 1.
Definition EM_AARCH64 : Z := 183.
Definition ET_DYN : Z := 3.
Definition ET_EXEC : Z := 2.
Definition PT_LOAD : Z := 1.
Definition PT_DYNAMIC : Z := 2.
Definition PF_X : Z := 1.
Definition PF_W : Z := 2.
Definition R_AARCH64_RELATIVE : Z := 1027.

(** ** Reading the file *)

Definition image : Type := Z -> Z.
Definition bytes_at (img : image) (off n : Z) : list Z := (fun i => img (off + i)) <$> seqZ 0 n.
Definition le_at (img : image) (off n : Z) : Z := from_le_bytes (bytes_at img off n).

Record Elf64Header := mkHeader {
  e_ident : list Z; e_type : Z; e_machine : Z; e_version : Z; e_entry : Z; e_phoff : Z; e_shoff : Z; e_flags : Z;
  e_ehsize : Z; e_phentsize : Z; e_phnum : Z; e_shentsize : Z; e_shnum : Z; e_shstrndx : Z }.
Definition HEADER_SIZE : Z := 64.
Definition read_header (img : image) : Elf64Header :=
  mkHeader (bytes_at img 0 16) (le_at img 16 2) (le_at img 18 2) (le_at img 20 4) (le_at img 24 8) (le_at img 32 8)
    (le_at img 40 8) (le_at img 48 4) (le_at img 52 2) (le_at img 54 2) (le_at img 56 2) (le_at img 58 2)
    (le_at img 60 2) (le_at img 62 2).

Record Elf64Phdr := mkPhdr {
  p_type : Z; p_flags : Z; p_offset : Z; p_vaddr : Z; p_paddr : Z; p_filesz : Z; p_memsz : Z; p_align : Z }.
Definition PHDR_SIZE : Z := 56.
Definition read_phdr (img : image) (off : Z) : Elf64Phdr :=
  mkPhdr (le_at img off 4) (le_at img (off + 4) 4) (le_at img (off + 8) 8) (le_at img (off + 16) 8)
    (le_at img (off + 24) 8) (le_at img (off + 32) 8) (le_at img (off + 40) 8) (le_at img (off + 48) 8).

Record Elf64Dyn := mkDyn { d_tag : Z; d_val : Z }.
Definition DYN_SIZE : Z := 16.
Definition i64 (x : Z) : Z := if x <? 2 ^ 63 then x else x - 2 ^ 64.
Definition read_dyn (img : image) (off : Z) : Elf64Dyn := mkDyn (i64 (le_at img off 8)) (le_at img (off + 8) 8).

Record Elf64Rela := mkRela { r_offset : Z; r_info : Z; r_addend : Z }.
Definition RELA_SIZE : Z := 24.
Definition read_rela (img : image) (off : Z) : Elf64Rela :=
  mkRela (le_at img off 8) (le_at img (off + 8) 8) (i64 (le_at img (off + 16) 8)).

(** The program headers, as [phdr_base.add(i)] reads them. *)
Definition phdrs (img : image) (h : Elf64Header) : list Elf64Phdr :=
  (fun i => read_phdr img (e_phoff h + i * PHDR_SIZE)) <$> seqZ 0 (e_phnum h).

Definition has (flags bit : Z) : bool := negb (Z.land flags bit =? 0).

(** The checks of [load_elf] on the header. *)
Definition header_ok (h : Elf64Header) : bool :=
  bool_decide (take 4 (e_ident h) = ELF_MAGIC) && (nth 4 (e_ident h) 0 =? ELFCLASS64) &&
  (nth 5 (e_ident h) 0 =? ELFDATA2LSB) && (e_machine h =? EM_AARCH64) &&
  ((e_type h =? ET_DYN) || (e_type h =? ET_EXEC)).

Definition wx_violation (p : Elf64Phdr) : bool := (p_type p =? PT_LOAD) && has (p_flags p) PF_W && has (p_flags p) PF_X.

Definition slide_of (random : Z) (h : Elf64Header) : Z :=
  if e_type h =? ET_DYN
  then ASLR_START + random mod ((ASLR_END - ASLR_START) / PAGE_SIZE) * PAGE_SIZE else 0.

Definition segment_flags (p : Elf64Phdr) : MemoryFlags :=
  Z.lor (if has (p_flags p) PF_W then MF_W else 0) (if has (p_flags p) PF_X then MF_X else 0).

Definition page_down (a : Z) : Z := Z.ldiff a (PAGE_SIZE - 1).

(** ** Loading *)

Section Loader.
Context {A : Type} `{PA : PageAllocator A}.
Notation VM := (VM (A := A)).

Record LS := mkLS { ls_vm : VM; ls_mem : Z -> Z }.

Definition on_ls_vm {X} (op : M VM X) : M LS X :=
  fun s => match op (ls_vm s) with Some (x, v) => Some (x, mkLS v (ls_mem s)) | None => None end.

(** [write_bytes(p, 0, n)], [copy_nonoverlapping(base.add(src), p, n)] and
    [write_unaligned(p, value)] *)
Definition zero_bytes (p n : Z) : M LS unit :=
  modify (fun s => mkLS (ls_vm s) (fun a => if (p <=? a) && (a <? p + n) then 0 else ls_mem s a)).
Definition copy_bytes (img : image) (src p n : Z) : M LS unit :=
  modify (fun s => mkLS (ls_vm s) (fun a => if (p <=? a) && (a <? p + n) then img (src + (a - p)) else ls_mem s a)).
Definition write_u64 (p value : Z) : M LS unit :=
  modify (fun s => mkLS (ls_vm s)
    (fun a => if (p <=? a) && (a <? p + 8) then nth (Z.to_nat (a - p)) (to_le_bytes 8 value) 0 else ls_mem s a)).

(** The part of the file that belongs into the page at [page_va]. *)
Definition copy_page (img : image) (len : Z) (p : Elf64Phdr) (vaddr page_va page_phys : Z) : M LS unit :=
  file_end <- add64 vaddr (p_filesz p) ;;
  if page_va <? file_end then
    src_start <- (if vaddr <=? page_va then add64 (p_offset p) (page_va - vaddr) else ret (p_offset p)) ;;
    let dst_offset := if page_va <? vaddr then vaddr - page_va else 0 in
    let copy_len := Z.min (PAGE_SIZE - dst_offset) (Z.max 0 (file_end - (page_va + dst_offset))) in
    if (0 <? copy_len) && (src_start <? len)
    then copy_bytes img src_start (page_phys + dst_offset) (Z.min copy_len (len - src_start))
    else ret tt
  else ret tt.

(** The [while] loop over the pages [l] of one segment. *)
Fixpoint load_pages (img : image) (len : Z) (pid : PID) (m : MemoryMapping) (p : Elf64Phdr) (vaddr : Z) (l : list Z)
  : M LS (res unit Error) :=
  match l with
  | [] => ret (Ok tt)
  | page_va :: l =>
      r <- on_ls_vm (alloc_page pid) ;;
      match r with
      | Err _ => ret (Err OutOfMemory)
      | Ok (page_phys, _) =>
          _ <- zero_bytes page_phys PAGE_SIZE ;;
          _ <- copy_page img len p vaddr page_va page_phys ;;
          _ <-? on_ls_vm (map_page m page_phys page_va (segment_flags p) true) ;;
          load_pages img len pid m p vaddr l
      end
  end.

Definition load_segment (img : image) (len : Z) (pid : PID) (m : MemoryMapping) (slide : Z) (p : Elf64Phdr)
  : M LS (res unit Error) :=
  vaddr <- add64 (p_vaddr p) slide ;;
  e <- add64 vaddr (p_memsz p) ;;
  e <- add64 e PAGE_SIZE ;;
  load_pages img len pid m p vaddr (page_steps (page_down vaddr) (page_down (e - 1))).

Fixpoint load_segments (img : image) (len : Z) (pid : PID) (m : MemoryMapping) (slide : Z) (l : list Elf64Phdr)
  : M LS (res unit Error) :=
  match l with
  | [] => ret (Ok tt)
  | p :: l =>
      if negb (p_type p =? PT_LOAD) then load_segments img len pid m slide l
      else _ <-? load_segment img len pid m slide p ;; load_segments img len pid m slide l
  end.

(** ** Relocations *)

Fixpoint va_to_file_offset {T} (va : Z) (l : list Elf64Phdr) : M T (option Z) :=
  match l with
  | [] => ret None
  | p :: l =>
      if (p_type p =? PT_LOAD) && (p_vaddr p <=? va) then
        e <- add64 (p_vaddr p) (p_filesz p) ;;
        if va <? e then o <- add64 (p_offset p) (va - p_vaddr p) ;; ret (Some o)
        else va_to_file_offset va l
      else va_to_file_offset va l
  end.

(** [DT_RELA], [DT_RELASZ] and [DT_RELAENT] as far as they were found. *)
Record DynInfo := mkDynInfo { rela_addr : option Z; rela_size : Z; rela_ent : Z }.

Fixpoint scan_dynamic (img : image) (off : Z) (n : nat) (d : DynInfo) : DynInfo :=
  match n with
  | O => d
  | S n =>
      let e := read_dyn img off in
      if d_tag e =? 7 then scan_dynamic img (off + DYN_SIZE) n (mkDynInfo (Some (d_val e)) (rela_size d) (rela_ent d))
      else if d_tag e =? 8 then scan_dynamic img (off + DYN_SIZE) n (mkDynInfo (rela_addr d) (d_val e) (rela_ent d))
      else if d_tag e =? 9 then scan_dynamic img (off + DYN_SIZE) n (mkDynInfo (rela_addr d) (rela_size d) (d_val e))
      else if d_tag e =? 0 then d
      else scan_dynamic img (off + DYN_SIZE) n d
  end.

Fixpoint find_dynamic (img : image) (l : list Elf64Phdr) (d : DynInfo) : DynInfo :=
  match l with
  | [] => d
  | p :: l =>
      find_dynamic img l
        (if p_type p =? PT_DYNAMIC then scan_dynamic img (p_offset p) (Z.to_nat (p_filesz p / DYN_SIZE)) d else d)
  end.

Definition relocate (m : MemoryMapping) (slide : Z) (r : Elf64Rela) : M LS (res unit Error) :=
  if Z.land (r_info r) (2 ^ 32 - 1) =? R_AARCH64_RELATIVE then
    target <- add64 (r_offset r) slide ;;
    t <- gets (fun s => vm_tables (ls_vm s)) ;;
    match virt_to_phys t m target with
    | Ok phys => _ <- write_u64 phys (usize (usize (r_addend r) + slide)) ;; ret (Ok tt)
    | Err _ => ret (Err BadAddress)
    end
  else ret (Ok tt).

Fixpoint relocate_all (img : image) (m : MemoryMapping) (slide off : Z) (n : nat) : M LS (res unit Error) :=
  match n with
  | O => ret (Ok tt)
  | S n => _ <-? relocate m slide (read_rela img off) ;; relocate_all img m slide (off + RELA_SIZE) n
  end.

Definition apply_relocations (img : image) (len : Z) (l : list Elf64Phdr) (slide : Z) (m : MemoryMapping)
  : M LS (res unit Error) :=
  let d := find_dynamic img l (mkDynInfo None 0 0) in
  match rela_addr d with
  | None => ret (Ok tt)
  | Some rela_va =>
      if rela_ent d =? 0 then ret (Ok tt)
      else
        o <- va_to_file_offset rela_va l ;;
        match o with
        | None => ret (Err BadAddress)
        | Some off =>
            if len <=? off then ret (Err BadAddress)
            else relocate_all img m slide off (Z.to_nat (rela_size d / rela_ent d))
        end
  end.

Record ElfLoadResult := mkLoadResult { entry_point : Z; load_slide : Z }.

Definition load_elf (random : Z) (img : image) (len : Z) (pid : PID) (m : MemoryMapping) : M LS (res ElfLoadResult Error) :=
  if len <? HEADER_SIZE then ret (Err BadAddress)
  else
    let h := read_header img in
    if negb (header_ok h) then ret (Err BadAddress)
    else
      let slide := slide_of random h in
      let l := phdrs img h in
      if existsb wx_violation l then ret (Err BadAddress)
      else
        _ <-? load_segments img len pid m slide l ;;
        _ <-? (if e_type h =? ET_DYN then apply_relocations img len l slide m else ret (Ok tt)) ;;
        entry <- add64 (e_entry h) slide ;;
        ret (Ok (mkLoadResult entry slide)).

(** ** Addresses of pages *)

Lemma page_down_spec a : page_down a = a / PAGE_SIZE * PAGE_SIZE.
Proof.
  unfold page_down. change (PAGE_SIZE - 1) with (Z.ones 14). rewrite Z.ldiff_ones_r by lia.
  by rewrite Z.shiftl_mul_pow2, Z.shiftr_div_pow2 by lia.
Qed.

Lemma page_down_bounds a : page_down a mod PAGE_SIZE = 0 /\ page_down a <= a < page_down a + PAGE_SIZE.
Proof.
  rewrite page_down_spec. split; [by apply Z.mod_mul|]. pose proof (Z.div_mod a PAGE_SIZE ltac:(done)).
  pose proof (Z.mod_pos_bound a PAGE_SIZE ltac:(done)). lia.
Qed.

Lemma page_down_unique a b : a mod PAGE_SIZE = 0 -> a <= b < a + PAGE_SIZE -> page_down b = a.
Proof.
  intros Ha Hb. rewrite page_down_spec. rewrite (Z.div_mod a PAGE_SIZE) in Hb |- * by done. rewrite Ha, Z.add_0_r in *.
  rewrite Z.mul_comm. f_equal. symmetry. apply (Z.div_unique_pos b PAGE_SIZE (a / PAGE_SIZE) (b - PAGE_SIZE * (a / PAGE_SIZE))); lia.
Qed.

Lemma aligned_disjoint p q a : p mod PAGE_SIZE = 0 -> q mod PAGE_SIZE = 0 -> p <> q ->
  p <= a < p + PAGE_SIZE -> ~ (q <= a < q + PAGE_SIZE).
Proof. intros Hp Hq Hne Ha Hb. apply Hne. by rewrite <- (page_down_unique p a), <- (page_down_unique q a). Qed.

Definition seg_pages (slide : Z) (p : Elf64Phdr) : list Z :=
  page_steps (page_down (p_vaddr p + slide)) (page_down (p_vaddr p + slide + p_memsz p + PAGE_SIZE - 1)).

(** Segments whose sums fit, below the end of the address space. *)
Definition seg_fits (slide : Z) (p : Elf64Phdr) : Prop :=
  0 <= p_offset p /\ 0 <= p_vaddr p + slide /\ 0 <= p_filesz p /\ 0 <= p_memsz p /\
  p_vaddr p + slide + p_memsz p + PAGE_SIZE <= 2 ^ 47 /\ p_vaddr p + slide + p_filesz p < 2 ^ 64 /\
  p_offset p + p_filesz p < 2 ^ 64.

(** The byte the file puts at address [a] of segment [p]. *)
Definition in_file (len slide : Z) (p : Elf64Phdr) (a : Z) : bool :=
  (p_vaddr p + slide <=? a) && (a <? p_vaddr p + slide + p_filesz p) && (p_offset p + (a - (p_vaddr p + slide)) <? len).
Definition file_byte (img : image) (len slide : Z) (p : Elf64Phdr) (a : Z) : Z :=
  if in_file len slide p a then img (p_offset p + (a - (p_vaddr p + slide))) else 0.

Lemma seg_page_spec slide p va : seg_fits slide p -> va ∈ seg_pages slide p ->
  va mod PAGE_SIZE = 0 /\ 0 <= va /\ va + PAGE_SIZE <= 2 ^ 47 /\ p_vaddr p + slide < va + PAGE_SIZE.
Proof.
  intros (Ho & Hv & Hf & Hm & Hb & _) Hva. unfold seg_pages in Hva. apply elem_of_page_steps in Hva as (k & -> & Hk). set (v := p_vaddr p + slide) in *.
  destruct (page_down_bounds v) as [Ha [Hl Hu]]. destruct (page_down_bounds (v + p_memsz p + PAGE_SIZE - 1)) as [Ha' [Hl' Hu']].
  rewrite page_down_spec in Ha |- *. rewrite page_down_spec in Hl, Hu, Hl', Hu', Hk. rewrite page_down_spec in Hk.
  set (x := v / PAGE_SIZE) in *. set (y := (v + p_memsz p + PAGE_SIZE - 1) / PAGE_SIZE) in *.
  assert (Hxy : k < y - x).
  { replace (y * PAGE_SIZE - x * PAGE_SIZE + PAGE_SIZE - 1) with ((y - x) * PAGE_SIZE + (PAGE_SIZE - 1)) in Hk by lia.
    rewrite Z.div_add_l in Hk by done. change ((PAGE_SIZE - 1) / PAGE_SIZE) with 0 in Hk. lia. }
  assert (Hx : 0 <= x) by (apply Z.div_pos; [done|done]).
  replace (x * PAGE_SIZE + k * PAGE_SIZE) with ((x + k) * PAGE_SIZE) by lia.
  split; [by apply Z.mod_mul|]. unfold PAGE_SIZE in *. lia.
Qed.

(** ** One page *)

Lemma copy_page_run img len slide p va phys s : seg_fits slide p -> p_vaddr p + slide < va + PAGE_SIZE ->
  exists s', copy_page img len p (p_vaddr p + slide) va phys s = Some (tt, s') /\ ls_vm s' = ls_vm s /\
    forall a, ls_mem s' a =
      if (phys <=? a) && (a <? phys + PAGE_SIZE) && in_file len slide p (va + (a - phys))
      then img (p_offset p + (va + (a - phys) - (p_vaddr p + slide))) else ls_mem s a.
Proof.
  intros (Ho & Hv & Hf & Hm & _ & Hfe & Hof) Hlt. unfold copy_page, in_file. set (v := p_vaddr p + slide) in *.
  rewrite (bind_run _ _ _ _ _ (add64_run v (p_filesz p) s Hfe)).
  destruct (Z.ltb_spec va (v + p_filesz p)) as [Hva|Hva].
  2: { exists s. split; [done|]. split; [done|]. intros a.
       destruct (_ && _) eqn:E; [|done]. rewrite !andb_true_iff, !Z.leb_le, !Z.ltb_lt in E. lia. }
  set (src := if v <=? va then p_offset p + (va - v) else p_offset p).
  rewrite (bind_run _ _ s src s).
  2: { unfold src. destruct (Z.leb_spec v va); [apply add64_run; lia|done]. }
  cbv zeta. set (d := if va <? v then v - va else 0). set (n := Z.min (PAGE_SIZE - d) _).
  assert (Hd : 0 <= d /\ va + d = Z.max va v) by (subst d; destruct (Z.ltb_spec va v); lia).
  assert (Hs : src + (va + 0) = p_offset p + (va + d - v) + (va + 0)) by (subst src d; destruct (Z.ltb_spec va v), (Z.leb_spec v va); lia).
  assert (Hn : n = Z.min (PAGE_SIZE - d) (v + p_filesz p - (va + d))) by (subst n d; destruct (Z.ltb_spec va v); lia).
  clearbody src d n. destruct ((0 <? n) && (src <? len)) eqn:Ec.
  - eexists. split; [reflexivity|]. split; [done|]. intros a. cbn [ls_mem].
    rewrite andb_true_iff, !Z.ltb_lt in Ec.
    destruct ((phys + d <=? a) && _) eqn:E1; destruct ((phys <=? a) && _ && _) eqn:E2; try done.
    + f_equal. rewrite !andb_true_iff, !Z.leb_le, !Z.ltb_lt in E1. lia.
    + exfalso. apply not_true_iff_false in E2. apply E2. rewrite !andb_true_iff, !Z.leb_le, !Z.ltb_lt in *. lia.
    + exfalso. apply not_true_iff_false in E1. apply E1. rewrite !andb_true_iff, !Z.leb_le, !Z.ltb_lt in *. lia.
  - exists s. split; [done|]. split; [done|]. intros a. destruct ((phys <=? a) && _ && _) eqn:E; [|done]. exfalso.
    apply not_true_iff_false in Ec. apply Ec. rewrite !andb_true_iff, !Z.leb_le, !Z.ltb_lt in *. lia.
Qed.

(** ** The loaded image *)

Section Image.
Context (R : gset Z) (img : image) (len : Z) (pid : PID) (m : MemoryMapping) (slide : Z) (s0 : LS).
Context (Hroot : root m ∈ R).

(** Page [va] holds the bytes of segment [p], in a frame of its own. *)
Definition page_loaded (s : LS) (va : Z) (p : Elf64Phdr) : Prop :=
  exists f, pte_of (vm_tables (ls_vm s)) (root m) va = page_entry f (segment_flags p) true /\
    0 <= f < 2 ^ 47 /\ f mod PAGE_SIZE = 0 /\ pa_owner (vm_mm (ls_vm s)) f = Some pid /\
    pa_owner (vm_mm (ls_vm s0)) f = None /\
    forall o, 0 <= o < PAGE_SIZE -> ls_mem s (f + o) = file_byte img len slide p (va + o).

(** What was there before is untouched, outside the pages [done]. *)
Record untouched (done : list (Z * Elf64Phdr)) (s : LS) : Prop := {
  un_inv : vm_inv R (ls_vm s);
  un_own : owners_kept (vm_mm (ls_vm s0)) (vm_mm (ls_vm s));
  un_pte : forall r va, r ∈ R -> (r = root m -> forall d, d ∈ done -> same_page d.1 va = false) ->
    pte_of (vm_tables (ls_vm s)) r va = pte_of (vm_tables (ls_vm s0)) r va;
  un_mem : forall a, is_Some (pa_owner (vm_mm (ls_vm s0)) (page_down a)) -> ls_mem s a = ls_mem s0 a }.

Definition loaded (done : list (Z * Elf64Phdr)) (s : LS) : Prop :=
  untouched done s /\ forall d, d ∈ done -> page_loaded s d.1 d.2.

Definition page_ok (d : Z * Elf64Phdr) : Prop := d.1 ∈ seg_pages slide d.2 /\ seg_fits slide d.2.

Lemma page_ok_va d : page_ok d -> d.1 mod PAGE_SIZE = 0 /\ 0 <= d.1 < 2 ^ 47.
Proof. intros [Hd Hf]. destruct (seg_page_spec _ _ _ Hf Hd) as (? & ? & ? & _). split; [done|]. unfold PAGE_SIZE in *. lia. Qed.

Lemma pages_differ d e : page_ok d -> page_ok e -> d.1 <> e.1 -> same_page d.1 e.1 = false.
Proof.
  intros [Hda Hdb]%page_ok_va [Hea Heb]%page_ok_va Hne. rewrite same_page_div by done. apply Z.eqb_neq. intros E. apply Hne.
  rewrite (Z.div_mod d.1 PAGE_SIZE), (Z.div_mod e.1 PAGE_SIZE), Hda, Hea by done. by rewrite E.
Qed.

(** One round of the loop. *)
Lemma load_page_step done va p l s : loaded done s -> Forall page_ok done -> page_ok (va, p) -> va ∉ done.*1 ->
  exists r s', load_pages img len pid m p (p_vaddr p + slide) (va :: l) s =
      (if r : bool then load_pages img len pid m p (p_vaddr p + slide) l s' else Some (Err OutOfMemory, s')) /\
    (if r then loaded ((va, p) :: done) s' else untouched done s').
Proof.
  intros [Hu Hl] Hdone Hva Hnew. destruct (page_ok_va _ Hva) as [Hal Hb]. destruct Hva as [Hin Hfit]. cbn [fst snd] in *.
  destruct (seg_page_spec _ _ _ Hfit Hin) as (_ & _ & _ & Hlt). cbn [load_pages].
  destruct (pa_alloc_spec (vm_mm (ls_vm s)) pid (vi_mm _ _ (un_inv _ _ Hu))) as (o & mm1 & Ea & Hmm & Ho).
  set (s1 := mkLS (mkVM mm1 (vm_tables (ls_vm s))) (ls_mem s)).
  rewrite (bind_run _ _ s o s1) by (unfold on_ls_vm, alloc_page; by rewrite Ea).
  destruct o as [[f z]|e].
  2: { exists false, s1. split; [done|]. subst mm1. destruct Hu. split; cbn; try done. apply vm_inv_mm; [done|done|by intros q x]. }
  destruct Ho as (Hnone & Hown & Hfb & Hfa). destruct (owner_update _ _ _ _ Hown Hnone) as [_ Hkept].
  set (s2 := mkLS (ls_vm s1) (fun a => if (f <=? a) && (a <? f + PAGE_SIZE) then 0 else ls_mem s a)).
  rewrite (bind_run _ _ s1 tt s2) by reflexivity.
  destruct (copy_page_run img len slide p va f s2 Hfit Hlt) as (s3 & Ec & Hv3 & Hm3). rewrite (bind_run _ _ _ _ _ Ec).
  assert (Hi3 : vm_inv R (ls_vm s3)) by (rewrite Hv3; apply vm_inv_mm; [apply Hu|done..]).
  assert (Hmem : forall a, ls_mem s3 a = if (f <=? a) && (a <? f + PAGE_SIZE) then file_byte img len slide p (va + (a - f)) else ls_mem s a).
  { intros a. rewrite Hm3. unfold s2, file_byte. cbn [ls_mem]. by destruct ((f <=? a) && (a <? f + PAGE_SIZE)), (in_file len slide p (va + (a - f))). }
  assert (Hout : forall q a, q mod PAGE_SIZE = 0 -> is_Some (pa_owner (vm_mm (ls_vm s)) q) -> q <= a < q + PAGE_SIZE -> ls_mem s3 a = ls_mem s a).
  { intros q a Hq [x Hx] Ha. rewrite Hmem. destruct ((f <=? a) && (a <? f + PAGE_SIZE)) eqn:E; [|done]. exfalso.
    rewrite andb_true_iff, Z.leb_le, Z.ltb_lt in E. apply (aligned_disjoint q f a Hq Hfa); [by intros ->; rewrite Hnone in Hx|done..]. }
  destruct (map_page_run R (ls_vm s3) m f va (segment_flags p) true Hi3 Hroot) as (o & v4 & Em & Hst & Ho4).
  set (s4 := mkLS v4 (ls_mem s3)).
  assert (E4 : on_ls_vm (map_page m f va (segment_flags p) true) s3 = Some (o, s4)) by (unfold on_ls_vm; by rewrite Em).
  assert (Hk4 : owners_kept (vm_mm (ls_vm s0)) (vm_mm (ls_vm s4))).
  { intros q x Hq. apply (st_own _ _ _ Hst). rewrite Hv3. apply Hkept. by apply (un_own _ _ Hu). }
  assert (Hm4 : forall a, is_Some (pa_owner (vm_mm (ls_vm s0)) (page_down a)) -> ls_mem s4 a = ls_mem s0 a).
  { intros a [x Hx]. rewrite <- (un_mem _ _ Hu a) by (by exists x). destruct (page_down_bounds a) as [Hpa Hpb].
    apply (Hout (page_down a) a Hpa); [|done]. exists x. by apply (un_own _ _ Hu). }
  destruct o as [[]|e].
  - exists true, s4. rewrite (try_run _ _ _ _ _ E4). split; [done|]. split.
    + split; [apply Hst|done| |done]. intros r va' Hr Hd. cbn [ls_vm s4]. rewrite (Ho4 r va' Hr), Hv3. cbn [vm_tables s1 ls_vm].
      destruct (decide (r = root m)) as [->|Hne].
      * pose proof (Hd eq_refl (va, p) ltac:(by left)) as Hsp. cbn in Hsp. rewrite Hsp. apply (un_pte _ _ Hu); [done|]. intros _ d Hin'. apply Hd; [done|]. by right.
      * apply (un_pte _ _ Hu); [done|]. by intros ->.
    + intros d [->|Hd]%elem_of_cons.
      * exists f. cbn [fst snd ls_vm s4]. rewrite (Ho4 (root m) va Hroot), decide_True, same_page_refl by done.
        split; [done|]. split; [done|]. split; [done|]. split; [|split].
        -- apply (st_own _ _ _ Hst). rewrite Hv3. cbn. rewrite Hown. by rewrite decide_True.
        -- destruct (pa_owner (vm_mm (ls_vm s0)) f) as [x|] eqn:Ex; [|done]. apply (un_own _ _ Hu) in Ex. congruence.
        -- intros j Hj. cbn [ls_mem s4]. rewrite Hmem, (proj2 (Z.leb_le f (f + j))), (proj2 (Z.ltb_lt (f + j) _)) by lia. cbn.
           f_equal. lia.
      * destruct (Hl d Hd) as (g & Hpte & Hgb & Hga & Hgo & Hg0 & Hgm). exists g. split; [|split; [done|split; [done|split; [|split; [done|]]]]].
        -- cbn [ls_vm s4]. rewrite (Ho4 (root m) d.1 Hroot), decide_True, Hv3 by done. pose proof (pages_differ (va, p) d) as Hdiff. cbn [fst snd] in Hdiff. rewrite Hdiff; [done|by split| |].
           ++ rewrite Forall_forall in Hdone. by apply Hdone.
           ++ intros ->. apply Hnew. apply list_elem_of_fmap. by exists d.
        -- apply (st_own _ _ _ Hst). rewrite Hv3. cbn. by apply Hkept.
        -- intros j Hj. cbn [ls_mem s4]. rewrite (Hout g) by (try done; try lia; by exists pid). by apply Hgm.
  - exists false, s4. destruct Ho4 as [-> [Hst' Hg]]. rewrite (try_err _ _ _ _ _ E4). split; [done|].
    split; [apply Hst|done| |done]. intros r va' Hr Hd. cbn [ls_vm s4]. rewrite (Hg r va' Hr), Hv3. by apply (un_pte _ _ Hu).
Qed.

Lemma untouched_mono done done' s : (forall d, d ∈ done -> d ∈ done') -> untouched done s -> untouched done' s.
Proof. intros Hsub []. split; try done. intros r va Hr Hd. apply un_pte0; [done|]. intros E d Hin. apply Hd; auto. Qed.

Lemma load_pages_run p l : forall done s, loaded done s -> Forall page_ok done -> Forall (fun va => page_ok (va, p)) l ->
  NoDup l -> (forall va, va ∈ l -> va ∉ done.*1) ->
  exists r s', load_pages img len pid m p (p_vaddr p + slide) l s = Some (r, s') /\
    let all := ((fun va => (va, p)) <$> l) ++ done in
    match r with Ok _ => loaded all s' | Err e => e = OutOfMemory /\ untouched all s' end.
Proof.
  induction l as [|va l IH]; intros done s Hs Hdone Hl Hnd Hnew; [by exists (Ok tt), s|].
  apply Forall_cons in Hl as [Hva Hl]. apply NoDup_cons in Hnd as [Hnl Hnd].
  destruct (load_page_step done va p l s Hs Hdone Hva) as (r & s1 & E & H1); [apply Hnew; by left|]. rewrite E.
  destruct r; [|exists (Err OutOfMemory), s1; split; [done|]; split; [done|]; eapply untouched_mono; [|exact H1]; set_solver].
  destruct (IH ((va, p) :: done) s1 H1) as (r & s' & E' & Hr); [by constructor|done|done| |].
  { intros v Hv [->|Hin]%elem_of_cons; [done|]. apply (Hnew v); [by right|done]. }
  exists r, s'. split; [done|]. cbv zeta in *.
  assert (Hsub : forall d, d ∈ ((fun va => (va, p)) <$> l) ++ (va, p) :: done <-> d ∈ ((fun va => (va, p)) <$> va :: l) ++ done) by set_solver.
  destruct r as [[]|e].
  - destruct Hr as [Hu Hp]. split; [eapply untouched_mono; [|exact Hu]; intros d; apply Hsub|]. intros d Hd. by apply Hp, Hsub.
  - destruct Hr as [-> Hu]. split; [done|]. eapply untouched_mono; [|exact Hu]. intros d. apply Hsub.
Qed.

Definition loads (l : list Elf64Phdr) : list Elf64Phdr := List.filter (fun p => p_type p =? PT_LOAD) l.
Definition load_list (l : list Elf64Phdr) : list (Z * Elf64Phdr) :=
  flat_map (fun p => (fun va => (va, p)) <$> seg_pages slide p) (loads l).

Lemma load_segment_unfold p s : seg_fits slide p ->
  load_segment img len pid m slide p s = load_pages img len pid m p (p_vaddr p + slide) (seg_pages slide p) s.
Proof.
  intros (Ho & Hv & Hf & Hm & Hb & Hfe & Hof). unfold load_segment.
  assert (Hs : p_vaddr p + slide + p_memsz p + PAGE_SIZE < 2 ^ 64) by lia. assert (0 <= PAGE_SIZE) by done.
  rewrite (bind_run _ _ _ _ _ (add64_run (p_vaddr p) slide s ltac:(lia))).
  rewrite (bind_run _ _ _ _ _ (add64_run (p_vaddr p + slide) (p_memsz p) s ltac:(lia))).
  by rewrite (bind_run _ _ _ _ _ (add64_run (p_vaddr p + slide + p_memsz p) PAGE_SIZE s ltac:(lia))).
Qed.

Lemma load_list_pages p l : (load_list (p :: l)).*1 =
  (if p_type p =? PT_LOAD then seg_pages slide p else []) ++ (load_list l).*1.
Proof.
  unfold load_list, loads. cbn [List.filter]. destruct (p_type p =? PT_LOAD); [|done]. cbn [flat_map].
  rewrite fmap_app, <- list_fmap_compose. f_equal. apply list_fmap_id.
Qed.

Lemma load_segments_run l : forall done s, loaded done s -> Forall page_ok done -> Forall (seg_fits slide) (loads l) ->
  NoDup ((load_list l).*1 ++ done.*1) ->
  exists r s', load_segments img len pid m slide l s = Some (r, s') /\
    let all := load_list l ++ done in
    match r with Ok _ => loaded all s' | Err e => e = OutOfMemory /\ untouched all s' end.
Proof.
  induction l as [|p l IH]; intros done s Hs Hdone Hfit Hnd; [by exists (Ok tt), s|]. cbn [load_segments].
  rewrite load_list_pages in Hnd. unfold loads in Hfit. cbn [List.filter] in Hfit. unfold load_list, loads. cbn [List.filter].
  destruct (p_type p =? PT_LOAD) eqn:Et; cbn [negb]; [|apply IH; done].
  apply Forall_cons in Hfit as [Hp Hfit]. fold (loads l) in *. cbn [flat_map]. fold (load_list l).
  rewrite <- app_assoc in Hnd. apply NoDup_app in Hnd as (Hn1 & Hn12 & Hn2).
  destruct (load_pages_run p (seg_pages slide p) done s Hs Hdone) as (r & s1 & E & Hr).
  { apply Forall_forall. intros va Hva. by split. }
  { done. }
  { intros va Hva Hin. apply (Hn12 va Hva). apply elem_of_app. by right. }
  cbv zeta in Hr. destruct r as [[]|e].
  - rewrite (try_run _ _ s tt s1) by (by rewrite load_segment_unfold).
    destruct (IH _ s1 Hr) as (r & s' & E' & Hr').
    + apply Forall_app. split; [|done]. apply Forall_fmap, Forall_forall. intros va Hva. by split.
    + done.
    + rewrite fmap_app, <- list_fmap_compose, list_fmap_id. apply NoDup_app in Hn2 as (Hl & Hld & Hd).
      apply NoDup_app. split; [done|]. split; [|apply NoDup_app; split_and!; [done| |done]].
      * intros va Hva [Hin|Hin]%elem_of_app; [|by apply (Hld va)]. apply (Hn12 va Hin). apply elem_of_app. by left.
      * intros va Hva Hin. apply (Hn12 va Hva). apply elem_of_app. by right.
    + exists r, s'. split; [done|]. cbv zeta in *. revert Hr'.
      assert (Hsub : forall d, d ∈ load_list l ++ ((fun va => (va, p)) <$> seg_pages slide p) ++ done <->
        d ∈ (((fun va => (va, p)) <$> seg_pages slide p) ++ load_list l) ++ done) by (intros d; rewrite !elem_of_app; tauto).
      destruct r as [[]|e].
      * intros [Hu Hpl]. split; [eapply untouched_mono; [|exact Hu]; intros d; apply Hsub|]. intros d Hd. by apply Hpl, Hsub.
      * intros [-> Hu]. split; [done|]. eapply untouched_mono; [|exact Hu]. intros d. apply Hsub.
  - exists (Err e), s1. rewrite (try_err _ _ s e s1) by (by rewrite load_segment_unfold). split; [done|].
    destruct Hr as [-> Hu]. split; [done|]. eapply untouched_mono; [|exact Hu]. intros d. rewrite !elem_of_app. tauto.
Qed.

End Image.

Lemma seg_pages_cover slide p a : seg_fits slide p -> p_vaddr p + slide <= a < p_vaddr p + slide + p_memsz p ->
  page_down a ∈ seg_pages slide p.
Proof.
  intros _ Ha. set (v := p_vaddr p + slide) in *. unfold seg_pages. fold v. apply elem_of_page_steps.
  exists (a / PAGE_SIZE - v / PAGE_SIZE). rewrite !page_down_spec. split; [lia|].
  pose proof (Z.div_le_mono v a PAGE_SIZE ltac:(done) (proj1 Ha)).
  pose proof (Z.div_le_mono (a + PAGE_SIZE) (v + p_memsz p + PAGE_SIZE - 1) PAGE_SIZE ltac:(done) ltac:(lia)) as Hle.
  rewrite <- (Z.mul_1_l PAGE_SIZE) in Hle at 1. rewrite Z.div_add in Hle by done.
  set (x := v / PAGE_SIZE) in *. set (y := (v + p_memsz p + PAGE_SIZE - 1) / PAGE_SIZE) in *.
  replace (y * PAGE_SIZE - x * PAGE_SIZE + PAGE_SIZE - 1) with ((y - x) * PAGE_SIZE + (PAGE_SIZE - 1)) by lia.
  rewrite Z.div_add_l by done. change ((PAGE_SIZE - 1) / PAGE_SIZE) with 0. lia.
Qed.

Lemma segment_flags_bits p : MemoryFlags_is_set (segment_flags p) MF_W = has (p_flags p) PF_W /\
  MemoryFlags_is_set (segment_flags p) MF_X = has (p_flags p) PF_X.
Proof. unfold segment_flags. by destruct (has (p_flags p) PF_W), (has (p_flags p) PF_X). Qed.

Lemma load_list_elem slide l va p : (va, p) ∈ load_list slide l <-> p ∈ loads l /\ va ∈ seg_pages slide p.
Proof.
  unfold load_list. rewrite list_elem_of_In, in_flat_map. split.
  - intros (q & Hq & Hin%list_elem_of_In). apply list_elem_of_fmap in Hin as (v & [= <- <-] & Hv). by rewrite list_elem_of_In.
  - intros [Hp%list_elem_of_In Hva]. exists p. split; [done|]. apply list_elem_of_In, list_elem_of_fmap. by exists va.
Qed.

(** C23. The kernel loads what the file says.  When the segments of a program lie on
    pages of their own and their sums fit, [load_segments] ends without a panic;
    its only error is lack of memory.  On success every address of every segment
    translates, in the new address space, to a byte of memory that holds the
    byte of the file, or 0 beyond the file's part; it may be written exactly when
    the segment says so, and executed only when it says so and is not writable.
    Whatever happens, no translation of another address space changes, and no
    byte of a page that already had an owner does. *)
Theorem segments_loaded R img len pid m slide l s :
  root m ∈ R -> vm_inv R (ls_vm s) -> Forall (seg_fits slide) (loads l) ->
  NoDup (flat_map (seg_pages slide) (loads l)) ->
  exists r s', load_segments img len pid m slide l s = Some (r, s') /\ vm_inv R (ls_vm s') /\
    (forall m' va, root m' ∈ R -> root m' <> root m ->
       virt_to_phys (vm_tables (ls_vm s')) m' va = virt_to_phys (vm_tables (ls_vm s)) m' va) /\
    (forall a, is_Some (pa_owner (vm_mm (ls_vm s)) (page_down a)) -> ls_mem s' a = ls_mem s a) /\
    match r with
    | Err e => e = OutOfMemory
    | Ok _ => forall p a, p ∈ loads l -> p_vaddr p + slide <= a < p_vaddr p + slide + p_memsz p ->
        exists pa, virt_to_phys (vm_tables (ls_vm s')) m a = Ok pa /\ ls_mem s' pa = file_byte img len slide p a /\
        let pte := pte_of (vm_tables (ls_vm s')) (root m) a in
        el0_writable pte = has (p_flags p) PF_W /\
        el0_executable pte = (has (p_flags p) PF_X && negb (has (p_flags p) PF_W))
    end.
Proof.
  intros Hr Hinv Hfit Hnd.
  assert (H0 : loaded R img len pid m slide s [] s).
  { split; [|by intros d ?%elem_of_nil]. split; try done. by intros q x. }
  destruct (load_segments_run R img len pid m slide s Hr l [] s H0) as (r & s' & E & Hres); [done|done| |].
  { rewrite app_nil_r. clear -Hnd. replace ((load_list slide l).*1) with (flat_map (seg_pages slide) (loads l)); [done|].
    unfold load_list. clear Hnd. induction (loads l) as [|p ps IH]; [done|]. cbn [flat_map].
    by rewrite fmap_app, <- list_fmap_compose, list_fmap_id, IH. }
  rewrite app_nil_r in Hres. exists r, s'. split; [done|].
  assert (Hu : untouched R m s (load_list slide l) s') by (destruct r as [[]|e]; apply Hres).
  split; [apply Hu|]. split; [|split; [apply Hu|]].
  - intros m' va Hm' Hne. rewrite !translate_entry. rewrite (un_pte _ _ _ _ _ Hu (root m') va Hm'); [done|]. by intros ?.
  - destruct r as [[]|e]; [|apply Hres]. intros p a Hp Ha. destruct Hres as [_ Hall].
    assert (Hf : seg_fits slide p) by (rewrite Forall_forall in Hfit; by apply Hfit).
    pose proof (seg_pages_cover slide p a Hf Ha) as Hpg. destruct (seg_page_spec slide p _ Hf Hpg) as (Hal & Hv0 & Hv47 & _).
    destruct (page_down_bounds a) as [_ Hab].
    destruct (Hall (page_down a, p)) as (f & Hpte & Hfb & Hfa & _ & _ & Hmem); [by apply load_list_elem|]. cbn [fst snd] in *.
    assert (Hsp : same_page (page_down a) a = true).
    { rewrite same_page_div by (unfold PAGE_SIZE in *; lia). apply Z.eqb_eq. rewrite page_down_spec. by rewrite Z.div_mul. }
    pose proof (pte_of_same_page (vm_tables (ls_vm s')) (root m) _ _ Hsp) as Hpte'. rewrite Hpte in Hpte'.
    destruct (page_entry_addr f (segment_flags p) true) as [Haddr Hvalid].
    exists (f + a mod PAGE_SIZE). rewrite translate_entry, Hpte', Hvalid, Haddr, addr_mask_aligned by done.
    pose proof (Z.mod_pos_bound a PAGE_SIZE ltac:(done)). split; [done|]. split.
    + rewrite Hmem by done. f_equal. rewrite page_down_spec. pose proof (Z.div_mod a PAGE_SIZE ltac:(done)). lia.
    + cbv zeta. destruct (user_entry_perms f (segment_flags p)) as (_ & -> & -> & _).
      by destruct (segment_flags_bits p) as [-> ->].
Qed.

(** A file the loader refuses: too short, not an AArch64 executable of 64 bits,
    or with a segment both writable and executable.  Nothing has happened then:
    no page was allocated and no byte written. *)
Theorem bad_elf_refused random img len pid m s :
  len < HEADER_SIZE \/ header_ok (read_header img) = false \/ existsb wx_violation (phdrs img (read_header img)) = true ->
  load_elf random img len pid m s = Some (Err BadAddress, s).
Proof.
  intros H. unfold load_elf. destruct (Z.ltb_spec len HEADER_SIZE) as [|Hl]; [done|].
  destruct (header_ok _) eqn:Eh; cbn [negb]; [|done]. destruct (existsb _ _) eqn:Ew; [done|].
  destruct H as [H|[H|H]]; [lia|congruence..].
Qed.

(** One relocation, inside a page: the 64-bit word at the relocated address
    becomes the addend plus the slide, and no other byte changes. *)
Theorem relocation_exact m slide r s f : Z.land (r_info r) (2 ^ 32 - 1) = R_AARCH64_RELATIVE ->
  0 <= r_offset r + slide < 2 ^ 64 -> (r_offset r + slide) mod PAGE_SIZE <= PAGE_SIZE - 8 ->
  virt_to_phys (vm_tables (ls_vm s)) m (r_offset r + slide) = Ok f ->
  exists s', relocate m slide r s = Some (Ok tt, s') /\ ls_vm s' = ls_vm s /\
    bytes_at (ls_mem s') f 8 = to_le_bytes 8 (usize (r_addend r + slide)) /\
    page_down (f + 7) = page_down f /\ forall a, ~ (f <= a < f + 8) -> ls_mem s' a = ls_mem s a.
Proof.
  intros Hi Ht Hp Hf. unfold relocate. rewrite Hi, Z.eqb_refl.
  rewrite (bind_run _ _ _ _ _ (add64_run (r_offset r) slide s (proj2 Ht))). rewrite (bind_run _ _ s _ s eq_refl). rewrite Hf.
  eexists. split; [reflexivity|]. split; [done|]. split_and!.
  - cbn [ls_mem]. unfold usize. rewrite Zplus_mod_idemp_l.
    set (w := (r_addend r + slide) mod _). change (to_le_bytes 8 w) with (to_le_bytes 8 w).
    unfold bytes_at. change (seqZ 0 8) with [0; 1; 2; 3; 4; 5; 6; 7]. cbn [fmap list_fmap].
    destruct (to_le_bytes 8 w) as [|b0 [|b1 [|b2 [|b3 [|b4 [|b5 [|b6 [|b7 [|]]]]]]]]] eqn:Eb; try done.
    repeat match goal with |- context [if ?b then _ else _] =>
      replace b with true by (symmetry; rewrite andb_true_iff, Z.leb_le, Z.ltb_lt; lia) end.
    repeat match goal with |- context [Z.to_nat (f + ?n - f)] => replace (f + n - f) with n by lia end. done.
  - rewrite translate_entry in Hf. destruct (valid _); [|done]. injection Hf as <-.
    destruct (masked_frame (pte_of (vm_tables (ls_vm s)) (root m) (r_offset r + slide))) as [x ->].
    pose proof (Z.mod_pos_bound (r_offset r + slide) PAGE_SIZE ltac:(done)).
    rewrite !(page_down_unique (x * PAGE_SIZE)); try done; try (by apply Z.mod_mul); lia.
  - intros a Ha. cbn [ls_mem]. destruct (_ && _) eqn:E; [|done]. rewrite andb_true_iff, Z.leb_le, Z.ltb_lt in E. lia.
Qed.

End Loader.

(** The slide of a position-independent program is a page boundary inside the
    area for it, whatever random word was drawn. *)
Theorem slide_in_range random h : 0 <= random -> e_type h = ET_DYN ->
  ASLR_START <= slide_of random h < ASLR_END /\ slide_of random h mod PAGE_SIZE = 0.
Proof.
  intros Hr He. unfold slide_of. rewrite He. cbn [Z.eqb Pos.eqb ET_DYN].
  pose proof (Z.mod_pos_bound random ((ASLR_END - ASLR_START) / PAGE_SIZE) ltac:(done)) as Hb.
  change ((ASLR_END - ASLR_START) / PAGE_SIZE) with 3221225468 in *. unfold ASLR_START, ASLR_END, PAGE_SIZE in *.
  split; [lia|]. rewrite Z.mod_add by done. done.
Qed.

(** ** A concrete file

    A static program with one segment of three bytes and one zeroed byte, at
    virtual address [0x10008]. *)

Definition demo_elf : list Z :=
  ELF_MAGIC ++ [2; 1; 1; 0] ++ replicate 8 0 ++
  to_le_bytes 2 ET_EXEC ++ to_le_bytes 2 EM_AARCH64 ++ to_le_bytes 4 1 ++ to_le_bytes 8 65544 ++ to_le_bytes 8 64 ++
  to_le_bytes 8 0 ++ to_le_bytes 4 0 ++ to_le_bytes 2 64 ++ to_le_bytes 2 56 ++ to_le_bytes 2 1 ++ replicate 6 0 ++
  to_le_bytes 4 PT_LOAD ++ to_le_bytes 4 5 ++ to_le_bytes 8 120 ++ to_le_bytes 8 65544 ++ to_le_bytes 8 65544 ++
  to_le_bytes 8 3 ++ to_le_bytes 8 4 ++ to_le_bytes 8 16384 ++ [1; 2; 3].
Definition demo_img : image := fun o => nth (Z.to_nat o) demo_elf 0.
Definition demo_len : Z := 123.
Definition demo_phdr : Elf64Phdr := mkPhdr 1 5 120 65544 65544 3 4 16384.
Definition demo_ls : LS := mkLS vm2 (fun _ => 170).

Example demo_phdrs : phdrs demo_img (read_header demo_img) = [demo_phdr].
Proof. by vm_compute. Qed.

(** The bytes a program reads at addresses [l] after loading. *)
Definition user_bytes (s : LS (A := MemoryManager)) (m : MemoryMapping) (l : list Z) : list (option Z) :=
  (fun a => match virt_to_phys (vm_tables (ls_vm s)) m a with Ok pa => Some (ls_mem s pa) | Err _ => None end) <$> l.

Example demo_loaded :
  match load_elf 7 demo_img demo_len 4 space_a demo_ls with
  | Some (Ok r, s) => entry_point r = 65544 /\ user_bytes s space_a [65543; 65544; 65546; 65547; 81920] = [Some 0; Some 1; Some 3; Some 0; None]
  | _ => False
  end.
Proof. vm_compute. by split. Qed.

Lemma segments_loaded_witness :
  exists r s', load_segments demo_img demo_len 4 space_a 0 [demo_phdr] demo_ls = Some (r, s') /\ vm_inv spaces (ls_vm s').
Proof.
  destruct (segments_loaded spaces demo_img demo_len 4 space_a 0 [demo_phdr] demo_ls space_a_in
    (proj1 (vm_reachable_ok spaces vm2 vm2_reachable))) as (r & s' & E & Hi & _).
  - repeat constructor; done.
  - change (flat_map (seg_pages 0) (loads [demo_phdr])) with [65536]. apply NoDup_singleton.
  - exact (ex_intro _ r (ex_intro _ s' (conj E Hi))).
Defined.

Lemma bad_elf_refused_witness : load_elf 7 (fun _ => 0) 64 4 space_a demo_ls = Some (Err BadAddress, demo_ls).
Proof. apply (bad_elf_refused 7 (fun _ => 0) 64 4 space_a demo_ls). right. left. by vm_compute. Defined.

Definition demo_rela : Elf64Rela := mkRela 65544 R_AARCH64_RELATIVE 4096.
Definition demo_rela_ls : LS := mkLS vm3 (fun _ => 170).

Lemma relocation_exact_witness :
  exists s', relocate space_a 0 demo_rela demo_rela_ls = Some (Ok tt, s') /\
    bytes_at (ls_mem s') (page_a + 8) 8 = to_le_bytes 8 4096.
Proof.
  destruct (relocation_exact space_a 0 demo_rela demo_rela_ls (page_a + 8)) as (s' & E & _ & Hb & _);
    [done|done|done|by vm_compute|]. exact (ex_intro _ s' (conj E Hb)).
Defined.

Lemma slide_in_range_witness : ASLR_START <= slide_of 4294967295 (mkHeader [] 3 183 1 0 64 0 0 64 56 1 0 0 0) < ASLR_END.
Proof. apply (slide_in_range 4294967295 (mkHeader [] 3 183 1 0 64 0 0 64 56 1 0 0 0)); [lia|reflexivity]. Defined.
