(* ===== verification/Boot.v ===== *)
(** * Early boot

    Models [xous/kernel/src/arch/aarch64/boot.rs] up to the launch of the first
    process: the parser that looks for the RAM in the flattened device tree, the
    bump allocator, [init_memory] and [init_memory_manager].

    [Fdt] is the parser: the blob is the memory from [fdt_ptr] on ([image] of
    [Elf]), read without a length.  Positions are [usize], so their sums panic on
    overflow; for the blobs of the theorems they are small.  [Fdt.parse_loop]
    takes fuel because the source's loop has no bound of its own: each round
    moves forward by at least four bytes and ends only at a token that is not
    one of the known ones, so for a blob that ends (see [fdt_parsed]) as many
    rounds as there are tokens are enough. *)

From S2P Require Import Prelude Abi Memory PageTable MemMap Elf.
From Stdlib Require Import ZArith Lia Bool.
From stdpp Require Import gmap.
Open Scope Z_scope.

(** ** The device tree *)

Module Fdt.

Definition FDT_MAGIC : Z := 3490578157. (* 0xD00D_FEED *)
Definition FDT_BEGIN_NODE : Z := 1.
Definition FDT_END_NODE : Z := 2.
Definition FDT_PROP : Z := 3.
Definition FDT_NOP : Z := 4.
Definition FDT_END : Z := 9.

Definition be32 (img : image) (p : Z) : Z := from_le_bytes (reverse (bytes_at img p 4)).
Definition be64 (img : image) (p : Z) : Z := from_le_bytes (reverse (bytes_at img p 8)).

(** [cstr_starts_with]; the comparison stops at the first difference. *)
Definition cstr_starts_with (img : image) (p : Z) (prefix : list Z) : bool :=
  bool_decide (bytes_at img p (Z.of_nat (length prefix)) = prefix).

Definition align4 (pos : Z) : Z := Z.ldiff (pos + 3) 3.

(** [while *struct_base.add(pos + name_len) != 0], with fuel *)
Fixpoint strlen (fuel : nat) (img : image) (p : Z) : option Z :=
  match fuel with
  | O => None
  | S fuel => if img p =? 0 then Some 0 else Z.succ <$> strlen fuel img (p + 1)
  end.

Definition MEMORY : list Z := [109; 101; 109; 111; 114; 121].
Definition REG : list Z := [114; 101; 103; 0].

Record RamRegion := mkRam { ram_start : Z; ram_len : Z }.

(** The loop: [None] is a panic (the depth below zero) or lack of fuel. *)
Fixpoint parse_loop (fuel : nat) (img : image) (struct_base strings_base pos depth : Z) (in_memory : bool)
  : option (option RamRegion) :=
  match fuel with
  | O => None
  | S fuel' =>
      let token := be32 img (struct_base + pos) in
      let pos := pos + 4 in
      if token =? FDT_BEGIN_NODE then
        let depth := depth + 1 in
        match strlen fuel img (struct_base + pos) with
        | None => None
        | Some name_len =>
            let in_memory := in_memory || ((depth =? 2) && cstr_starts_with img (struct_base + pos) MEMORY) in
            parse_loop fuel' img struct_base strings_base (align4 (pos + (name_len + 1))) depth in_memory
        end
      else if token =? FDT_END_NODE then
        let in_memory := if in_memory && (depth =? 2) then false else in_memory in
        if depth =? 0 then None else parse_loop fuel' img struct_base strings_base pos (depth - 1) in_memory
      else if token =? FDT_PROP then
        let len := be32 img (struct_base + pos) in
        let nameoff := be32 img (struct_base + pos + 4) in
        let pos := pos + 8 in
        if in_memory && (16 <=? len) && cstr_starts_with img (strings_base + nameoff) REG
        then Some (Some (mkRam (be64 img (struct_base + pos)) (be64 img (struct_base + pos + 8))))
        else parse_loop fuel' img struct_base strings_base (align4 (pos + len)) depth in_memory
      else if token =? FDT_NOP then parse_loop fuel' img struct_base strings_base pos depth in_memory
      else Some None
  end.

Definition parse_fdt_ram (fuel : nat) (img : image) : option (option RamRegion) :=
  if negb (be32 img 0 =? FDT_MAGIC) then Some None
  else parse_loop fuel img (be32 img 8) (be32 img 12) 0 0 false.

(** ** The tree as a sequence of tokens *)

Inductive token :=
| T_Begin (name : list Z)
| T_End
| T_Prop (nameoff : Z) (data : list Z)
| T_Nop.

Definition to_be (n : nat) (x : Z) : list Z := reverse (to_le_bytes n x).
Definition pad4 (l : list Z) : list Z := l ++ replicate (Z.to_nat (align4 (Z.of_nat (length l))) - length l) 0.

Definition encode (t : token) : list Z :=
  match t with
  | T_Begin name => to_be 4 FDT_BEGIN_NODE ++ pad4 (name ++ [0])
  | T_End => to_be 4 FDT_END_NODE
  | T_Prop nameoff data => to_be 4 FDT_PROP ++ to_be 4 (Z.of_nat (length data)) ++ to_be 4 nameoff ++ pad4 data
  | T_Nop => to_be 4 FDT_NOP
  end.
Definition encode_all (l : list token) : list Z := flat_map encode l ++ to_be 4 FDT_END.

(** The names of the properties that count as "reg", by their offset. *)
Definition is_reg (img : image) (strings nameoff : Z) : bool := cstr_starts_with img (strings + nameoff) REG.
Definition is_memory (name : list Z) : bool := bool_decide (take 6 name = MEMORY).
Definition be (l : list Z) : Z := from_le_bytes (reverse l).

(** The parser's loop on tokens instead of bytes: the first "reg" of at least 16
    bytes inside a node at depth 2 whose name starts with "memory", or inside a
    descendant of it.  What it should find is [memory_region] below. *)
Fixpoint find_ram (reg : Z -> bool) (l : list token) (depth : Z) (in_memory : bool) : option (option RamRegion) :=
  match l with
  | [] => Some None
  | T_Begin name :: l =>
      find_ram reg l (depth + 1) (in_memory || ((depth + 1 =? 2) && is_memory name))
  | T_End :: l =>
      if depth =? 0 then None else find_ram reg l (depth - 1) (if in_memory && (depth =? 2) then false else in_memory)
  | T_Prop nameoff data :: l =>
      if in_memory && (16 <=? Z.of_nat (length data)) && reg nameoff
      then Some (Some (mkRam (be (take 8 data)) (be (take 8 (drop 8 data)))))
      else find_ram reg l depth in_memory
  | T_Nop :: l => find_ram reg l depth in_memory
  end.

Definition token_ok (t : token) : Prop :=
  match t with
  | T_Begin name => Forall (fun b => 0 < b < 256) name
  | T_Prop nameoff data => 0 <= nameoff < 2 ^ 32 /\ Z.of_nat (length data) < 2 ^ 32 /\ Forall (fun b => 0 <= b < 256) data
  | _ => True
  end.

(** [img] holds the bytes [l] at [p]. *)
Definition holds (img : image) (p : Z) (l : list Z) : Prop :=
  forall i b, l !! i = Some b -> img (p + Z.of_nat i) = b.

(** ** The parser on an encoded tree *)

Lemma holds_app img p l1 l2 : holds img p (l1 ++ l2) <-> holds img p l1 /\ holds img (p + Z.of_nat (length l1)) l2.
Proof.
  unfold holds. split.
  - intros H. split; intros i b Hi.
    + apply H. by apply lookup_app_l_Some.
    + rewrite <- Z.add_assoc, <- Nat2Z.inj_add. apply H. rewrite lookup_app_r by lia. by replace (length l1 + i - length l1)%nat with i by lia.
  - intros [H1 H2] i b [Hi|[Hl Hi]]%lookup_app_Some; [by apply H1|].
    rewrite <- (H2 _ _ Hi). f_equal. lia.
Qed.

Lemma holds_bytes img p l : holds img p l -> bytes_at img p (Z.of_nat (length l)) = l.
Proof.
  intros H. unfold bytes_at. apply list_eq. intros i. rewrite list_lookup_fmap.
  destruct (l !! i) as [b|] eqn:Hi.
  - pose proof (lookup_lt_Some _ _ _ Hi). rewrite lookup_seqZ_lt by lia. cbn. f_equal. by apply H.
  - apply lookup_ge_None in Hi. by rewrite lookup_seqZ_ge by lia.
Qed.

Lemma holds_take img p l n : holds img p l -> holds img p (take n l).
Proof. intros H i b [Hi _]%lookup_take_Some. by apply H. Qed.

Lemma holds_drop img p l n : (n <= length l)%nat -> holds img p l -> holds img (p + Z.of_nat n) (drop n l).
Proof. intros Hn H i b Hi. rewrite lookup_drop in Hi. rewrite <- (H _ _ Hi). f_equal. lia. Qed.

Lemma to_be_length n x : length (to_be n x) = n.
Proof. unfold to_be. by rewrite length_reverse, length_to_le_bytes. Qed.

Lemma be32_holds img p x : 0 <= x < 2 ^ 32 -> holds img p (to_be 4 x) -> be32 img p = x.
Proof.
  intros Hx H%holds_bytes. rewrite to_be_length in H. unfold be32. change (Z.of_nat 4) with 4 in H. rewrite H.
  unfold to_be. rewrite reverse_involutive, from_to_le_bytes. by apply Z.mod_small.
Qed.

Lemma align4_spec x : align4 x = (x + 3) / 4 * 4.
Proof. unfold align4. change 3 with (Z.ones 2) at 2. by rewrite Z.ldiff_ones_r, Z.shiftl_mul_pow2, Z.shiftr_div_pow2 by lia. Qed.
Lemma align4_add a x : a mod 4 = 0 -> align4 (a + x) = a + align4 x.
Proof.
  intros Ha. rewrite !align4_spec. rewrite (Z.div_mod a 4), Ha, Z.add_0_r by lia.
  replace (4 * (a / 4) + x + 3) with (a / 4 * 4 + (x + 3)) by lia. rewrite Z.div_add_l by lia. lia.
Qed.
Lemma align4_bounds x : align4 x mod 4 = 0 /\ x <= align4 x < x + 4.
Proof.
  rewrite align4_spec. split; [by apply Z.mod_mul|]. pose proof (Z.div_mod (x + 3) 4 ltac:(done)).
  pose proof (Z.mod_pos_bound (x + 3) 4 ltac:(done)). lia.
Qed.
Lemma pad4_length l : Z.of_nat (length (pad4 l)) = align4 (Z.of_nat (length l)).
Proof. unfold pad4. rewrite length_app, length_replicate. pose proof (align4_bounds (Z.of_nat (length l))). lia. Qed.

Lemma strlen_run img name fuel : forall p, Forall (fun b => 0 < b < 256) name -> holds img p (name ++ [0]) ->
  (length name < fuel)%nat -> strlen fuel img p = Some (Z.of_nat (length name)).
Proof.
  revert name. induction fuel as [|fuel IH]; intros name p Hn Hh Hf; [lia|]. cbn [strlen]. destruct name as [|b name].
  - pose proof (Hh 0%nat 0 eq_refl) as H0. rewrite Z.add_0_r in H0. by rewrite H0.
  - apply Forall_cons in Hn as [Hb Hn]. pose proof (Hh 0%nat b eq_refl) as H0. rewrite Z.add_0_r in H0. rewrite H0.
    destruct (Z.eqb_spec b 0) as [->|_]; [lia|]. rewrite (IH name (p + 1)); [cbn; f_equal; lia|done| |cbn in Hf; lia].
    change ((b :: name) ++ [0]) with ([b] ++ (name ++ [0])) in Hh. by apply holds_app in Hh as [_ Hh].
Qed.

Lemma memory_name img p name : Forall (fun b => 0 < b < 256) name -> holds img p (name ++ [0]) ->
  cstr_starts_with img p MEMORY = is_memory name.
Proof.
  intros Hn Hh. unfold cstr_starts_with, is_memory. apply bool_decide_ext. change (Z.of_nat (length MEMORY)) with 6.
  destruct (decide (6 <= length name)%nat) as [Hl|Hl].
  - apply (holds_take img p (name ++ [0]) 6) in Hh. rewrite take_app_le in Hh by done. apply holds_bytes in Hh.
    rewrite length_take, Nat.min_l in Hh by done. change (Z.of_nat 6) with 6 in Hh. by rewrite Hh.
  - rewrite take_ge by lia. split.
    + intros H. exfalso. assert (Hz : (name ++ [0]) !! length name = Some 0) by (by rewrite lookup_app_r, Nat.sub_diag by lia).
      apply Hh in Hz. assert (Hx : bytes_at img p 6 !! length name = Some 0).
      { unfold bytes_at. rewrite list_lookup_fmap, lookup_seqZ_lt by lia. cbn. by f_equal. }
      rewrite H in Hx. destruct (length name) as [|[|[|[|[|[|]]]]]]; try lia; done.
    + intros ->. cbn in Hl. lia.
Qed.

Lemma encode_length t : Z.of_nat (length (encode t)) mod 4 = 0 /\ (4 <= length (encode t))%nat.
Proof.
  destruct t as [name| |off data|]; cbn [encode]; rewrite ?length_app, !to_be_length; split; try done; try lia.
  - rewrite Nat2Z.inj_add, pad4_length. rewrite Z.add_mod, (proj1 (align4_bounds _)) by lia. done.
  - rewrite !Nat2Z.inj_add, pad4_length. replace (Z.of_nat 4 + (Z.of_nat 4 + (Z.of_nat 4 + align4 (Z.of_nat (length data)))))
      with (align4 (Z.of_nat (length data)) + 3 * 4) by lia. rewrite Z.mod_add by lia. apply align4_bounds.
Qed.

Lemma be64_holds img p l : holds img p l -> (8 <= length l)%nat -> be64 img p = be (take 8 l).
Proof.
  intros H Hl. apply (holds_take img p l 8), holds_bytes in H. rewrite length_take, Nat.min_l in H by done.
  unfold be64, be. change (Z.of_nat 8) with 8 in H. by rewrite H.
Qed.

Lemma parse_loop_run img sb strings l : forall fuel pos depth b, pos mod 4 = 0 -> holds img (sb + pos) (encode_all l) ->
  Forall token_ok l -> (length (encode_all l) <= fuel)%nat ->
  parse_loop fuel img sb strings pos depth b = find_ram (is_reg img strings) l depth b.
Proof.
  induction l as [|t l IH]; intros fuel pos depth b Hpos Hh Hok Hf.
  { unfold encode_all in *. cbn [flat_map app] in *. rewrite to_be_length in Hf. destruct fuel as [|fuel]; [lia|].
    cbn [parse_loop]. by rewrite (be32_holds img (sb + pos) FDT_END) by done. }
  apply Forall_cons in Hok as [Ht Hok]. destruct (encode_length t) as [Hm Hlen].
  unfold encode_all in Hh, Hf. cbn [flat_map] in Hh, Hf. rewrite <- app_assoc in Hh, Hf. fold (encode_all l) in Hh, Hf.
  rewrite length_app in Hf. apply holds_app in Hh as [Ht' Hh]. destruct fuel as [|fuel]; [lia|].
  assert (Hnext : forall p' d' b', p' = pos + Z.of_nat (length (encode t)) ->
    parse_loop fuel img sb strings p' d' b' = find_ram (is_reg img strings) l d' b').
  { intros p' d' b' ->. apply IH; [|by rewrite Z.add_assoc|done|lia]. by rewrite Z.add_mod, Hpos, Hm by lia. }
  assert (Hp4 : (pos + 4) mod 4 = 0) by (by rewrite Z.add_mod, Hpos by lia).
  destruct t as [name| |off data|]; cbn [encode find_ram parse_loop] in *.
  - apply holds_app in Ht' as [Htag Hname]. rewrite to_be_length in Hname. change (Z.of_nat 4) with 4 in Hname.
    rewrite (be32_holds img (sb + pos) FDT_BEGIN_NODE) by done. cbn [Z.eqb Pos.eqb FDT_BEGIN_NODE].
    rewrite Z.add_assoc. unfold pad4 in Hname. apply holds_app in Hname as [Hname _].
    rewrite length_app, to_be_length in Hlen, Hf. pose proof (pad4_length (name ++ [0])) as Hpl.
    pose proof (align4_bounds (Z.of_nat (length (name ++ [0])))) as [_ Hab]. rewrite length_app in Hab. cbn in Hab.
    rewrite (strlen_run img name _ (sb + pos + 4) Ht Hname) by (rewrite length_app in *; cbn in *; lia).
    rewrite (memory_name img (sb + pos + 4) name Ht Hname). apply Hnext.
    rewrite length_app, to_be_length, Nat2Z.inj_add, Hpl. replace (Z.of_nat (length name) + 1) with (Z.of_nat (length (name ++ [0]))) by (rewrite length_app; cbn; lia).
    rewrite (align4_add (pos + 4)) by done. lia.
  - rewrite (be32_holds img (sb + pos) FDT_END_NODE) by done. cbn [Z.eqb Pos.eqb FDT_BEGIN_NODE FDT_END_NODE].
    destruct (depth =? 0); [done|]. apply Hnext. rewrite to_be_length. lia.
  - destruct Ht as (Ho & Hdl & Hd). apply holds_app in Ht' as [Htag Hr]. rewrite to_be_length in Hr. apply holds_app in Hr as [Hlenh Hr].
    rewrite to_be_length in Hr. apply holds_app in Hr as [Hoff Hdata]. rewrite to_be_length in Hdata.
    change (Z.of_nat 4) with 4 in *. unfold pad4 in Hdata. apply holds_app in Hdata as [Hdata _].
    rewrite (be32_holds img (sb + pos) FDT_PROP) by done. cbn [Z.eqb Pos.eqb FDT_BEGIN_NODE FDT_END_NODE FDT_PROP].
    rewrite !Z.add_assoc. rewrite (be32_holds img (sb + pos + 4) (Z.of_nat (length data))) by (done || lia).
    rewrite (be32_holds img (sb + pos + 4 + 4) off) by done. unfold is_reg.
    destruct (b && (16 <=? Z.of_nat (length data)) && cstr_starts_with img (strings + off) REG) eqn:E.
    + rewrite !andb_true_iff, Z.leb_le in E. replace (sb + pos + 4 + 8) with (sb + pos + 4 + 4 + 4) by lia.
      rewrite (be64_holds img (sb + pos + 4 + 4 + 4) data Hdata) by lia.
      apply (holds_drop _ _ _ 8) in Hdata; [|lia]. change (Z.of_nat 8) with 8 in Hdata.
      by rewrite (be64_holds img _ (drop 8 data) Hdata) by (rewrite length_drop; lia).
    + apply Hnext. rewrite !length_app, !to_be_length, !Nat2Z.inj_add, pad4_length.
      replace (pos + 4 + 8 + Z.of_nat (length data)) with (pos + 4 + 4 + 4 + Z.of_nat (length data)) by lia.
      rewrite (align4_add (pos + 4 + 4 + 4)); [lia|].
      replace (pos + 4 + 4 + 4) with (pos + 3 * 4) by lia. by rewrite Z.mod_add.
  - rewrite (be32_holds img (sb + pos) FDT_NOP) by done. cbn [Z.eqb Pos.eqb FDT_BEGIN_NODE FDT_END_NODE FDT_PROP FDT_NOP].
    apply Hnext. rewrite to_be_length. lia.
Qed.

(** ** Trees

    A device tree as the specification has it: nodes with a name, properties and
    children.  A property has a name, which stands at [dp_off] in the strings
    block, and a value. *)

Record dprop := mkProp { dp_name : list Z; dp_off : Z; dp_data : list Z }.
Inductive node := Node (name : list Z) (props : list dprop) (children : list node).

Definition node_name (n : node) : list Z := let 'Node name _ _ := n in name.
Definition node_props (n : node) : list dprop := let 'Node _ props _ := n in props.
Definition node_children (n : node) : list node := let 'Node _ _ children := n in children.

(** The tokens of a tree, in the order of the structure block. *)
Fixpoint flatten (n : node) : list token :=
  match n with
  | Node name props children =>
      T_Begin name :: ((fun p => T_Prop (dp_off p) (dp_data p)) <$> props) ++ flat_map flatten children ++ [T_End]
  end.

Definition REG_NAME : list Z := [114; 101; 103].

(** A node called [memory] or [memory@...]. *)
Definition is_memory_node (n : node) : bool :=
  match take 6 (node_name n), drop 6 (node_name n) with
  | t, [] => bool_decide (t = MEMORY)
  | t, c :: _ => bool_decide (t = MEMORY) && (c =? 64)
  end.

(** The value of the first "reg" of a node: a 64-bit address and a 64-bit size. *)
Definition region_of (p : dprop) : RamRegion := mkRam (be (take 8 (dp_data p))) (be (take 8 (drop 8 (dp_data p)))).
Definition reg_of (n : node) : option dprop := List.find (fun p => bool_decide (dp_name p = REG_NAME)) (node_props n).

(** The region of the first memory node below the root. *)
Definition memory_region (root : node) : option RamRegion :=
  match List.find is_memory_node (node_children root) with
  | Some n => region_of <$> reg_of n
  | None => None
  end.

(** Names are NUL-free, and those of properties are where the strings block says. *)
Fixpoint node_ok (img : image) (strings : Z) (n : node) : Prop :=
  match n with
  | Node name props children =>
      Forall (fun b => 0 < b < 256) name /\
      Forall (fun p => Forall (fun b => 0 < b < 256) (dp_name p) /\ holds img (strings + dp_off p) (dp_name p ++ [0])) props /\
      foldr (fun c P => node_ok img strings c /\ P) True children
  end.

(** The nodes below the root whose names start with "memory" are memory nodes,
    without children, and with a "reg" of 16 bytes or more. *)
Definition memory_nodes_plain (root : node) : Prop :=
  Forall (fun n => is_memory (node_name n) = true ->
    is_memory_node n = true /\ node_children n = [] /\ exists p, reg_of n = Some p /\ (16 <= length (dp_data p))%nat) (node_children root).

Lemma node_rect' (P : node -> Prop) :
  (forall name props children, Forall P children -> P (Node name props children)) -> forall n, P n.
Proof.
  intros H. fix IH 1. intros [name props children]. apply H.
  induction children as [|c children IHc]; [apply Forall_nil_2|apply Forall_cons_2; [apply IH|exact IHc]].
Qed.

Lemma children_ok img strings l : foldr (fun c P => node_ok img strings c /\ P) True l <-> Forall (node_ok img strings) l.
Proof. induction l as [|c l IH]; cbn; [split; [intros _; apply Forall_nil_2|done]|]. by rewrite IH, Forall_cons. Qed.

Lemma memory_node_prefix n : is_memory_node n = true -> is_memory (node_name n) = true.
Proof.
  unfold is_memory_node, is_memory. destruct (drop 6 (node_name n)); [done|]. by intros [H _]%andb_true_iff.
Qed.

(** The name in the strings block is "reg" and nothing longer. *)
Lemma reg_name img p name : Forall (fun b => 0 < b < 256) name -> holds img p (name ++ [0]) ->
  cstr_starts_with img p REG = bool_decide (name = REG_NAME).
Proof.
  intros Hn Hh. unfold cstr_starts_with. apply bool_decide_ext. change (Z.of_nat (length REG)) with 4. split; [|intros ->; by apply holds_bytes in Hh].
  intros H. assert (Hat : forall i b, (i < 4)%nat -> (name ++ [0]) !! i = Some b -> REG !! i = Some b).
  { intros i b Hi Hb. apply Hh in Hb. rewrite <- H. unfold bytes_at. rewrite list_lookup_fmap, lookup_seqZ_lt by lia. cbn. by f_equal. }
  destruct name as [|a [|b [|c [|d name]]]]; cbn in Hat.
  - by specialize (Hat 0%nat 0 ltac:(lia) eq_refl).
  - by specialize (Hat 1%nat 0 ltac:(lia) eq_refl).
  - by specialize (Hat 2%nat 0 ltac:(lia) eq_refl).
  - pose proof (Hat 0%nat a ltac:(lia) eq_refl) as [= <-]. pose proof (Hat 1%nat b ltac:(lia) eq_refl) as [= <-].
    by pose proof (Hat 2%nat c ltac:(lia) eq_refl) as [= <-].
  - specialize (Hat 3%nat d ltac:(lia) eq_refl). injection Hat as <-. rewrite !Forall_cons in Hn. lia.
Qed.

Lemma skip_props reg (props : list dprop) rest d : find_ram reg (((fun p => T_Prop (dp_off p) (dp_data p)) <$> props) ++ rest) d false = find_ram reg rest d false.
Proof. by induction props as [|p props IH]; cbn. Qed.

(** A subtree that is not below a memory node is passed over. *)
Lemma skip_node reg n : forall d rest, 1 <= d -> (d = 1 -> is_memory (node_name n) = false) ->
  find_ram reg (flatten n ++ rest) d false = find_ram reg rest d false.
Proof.
  induction n as [name props children IH] using node_rect'. intros d rest Hd Hname. cbn [flatten]. rewrite <- app_comm_cons, <- !app_assoc.
  cbn [find_ram orb node_name] in *. assert ((d + 1 =? 2) && is_memory name = false) as ->.
  { destruct (Z.eqb_spec (d + 1) 2); [|done]. apply Hname. lia. }
  rewrite skip_props. assert (Hkids : find_ram reg (flat_map flatten children ++ [T_End] ++ rest) (d + 1) false = find_ram reg ([T_End] ++ rest) (d + 1) false).
  { clear Hname. induction IH as [|c children Hc _ IHc]; [done|]. cbn [flat_map]. rewrite <- app_assoc. by rewrite Hc by lia. }
  rewrite Hkids. cbn [find_ram app andb]. destruct (Z.eqb_spec (d + 1) 0); [lia|]. f_equal. lia.
Qed.

(** A memory node without children ends the search. *)
Lemma find_reg img strings props p rest :
  Forall (fun p => Forall (fun b => 0 < b < 256) (dp_name p) /\ holds img (strings + dp_off p) (dp_name p ++ [0])) props ->
  List.find (fun p => bool_decide (dp_name p = REG_NAME)) props = Some p -> (16 <= length (dp_data p))%nat ->
  find_ram (is_reg img strings) (((fun p => T_Prop (dp_off p) (dp_data p)) <$> props) ++ rest) 2 true = Some (Some (region_of p)).
Proof.
  intros Hok Hf Hl. induction Hok as [|x props [Hx1 Hx2] _ IH]; [done|]. cbn in Hf. cbn [fmap list_fmap app find_ram andb].
  unfold is_reg at 1. rewrite (reg_name img (strings + dp_off x) (dp_name x)) by done. destruct (bool_decide (dp_name x = REG_NAME)) eqn:E.
  - injection Hf as ->. rewrite (proj2 (Z.leb_le _ _)) by lia. done.
  - rewrite andb_false_r. by apply IH.
Qed.

Lemma find_ram_nops reg l d b : find_ram reg (List.filter (fun t => match t with T_Nop => false | _ => true end) l) d b = find_ram reg l d b.
Proof.
  revert d b. induction l as [|t l IH]; intros d b; [done|]. destruct t as [name| |off data|]; cbn [List.filter find_ram]; rewrite ?IH; try done.
Qed.

(** The children of the root. *)
Lemma find_children img strings children rest : Forall (node_ok img strings) children -> 
  Forall (fun n => is_memory (node_name n) = true ->
    is_memory_node n = true /\ node_children n = [] /\ exists p, reg_of n = Some p /\ (16 <= length (dp_data p))%nat) children ->
  find_ram (is_reg img strings) (flat_map flatten children ++ rest) 1 false =
  match List.find is_memory_node children with
  | Some n => Some (region_of <$> reg_of n)
  | None => find_ram (is_reg img strings) rest 1 false
  end.
Proof.
  intros Hok Hp. revert Hok. induction Hp as [|n children Hn _ IH]; [done|]. intros [Hnok Hok]%Forall_cons. cbn [flat_map List.find]. rewrite <- app_assoc.
  destruct (is_memory_node n) eqn:Em.
  - destruct (Hn (memory_node_prefix n Em)) as (_ & Hkids & p & Hreg & Hlen). pose proof (memory_node_prefix n Em) as Hname.
    destruct n as [name props kids]. cbn in Hkids, Hname. subst kids. destruct Hnok as (_ & Hprops & _). cbn [flatten flat_map]. rewrite <- app_comm_cons, <- !app_assoc.
    cbn [find_ram orb]. change (1 + 1 =? 2) with true. rewrite Hname. cbn [andb]. change (1 + 1) with 2. rewrite Hreg. by apply find_reg.
  - rewrite (skip_node _ n 1); [by apply IH|lia|]. intros _. destruct (is_memory (node_name n)); [|done]. destruct (Hn eq_refl). congruence.
Qed.

End Fdt.

(** ** The bump allocator *)

Module Bump.
Record BumpAllocator := mkBump { next : Z }.

Definition align_up {T} (addr : Z) : M T Z := a <- add64 addr PAGE_SIZE ;; ret (page_down (a - 1)).
Definition new {T} (start : Z) : M T BumpAllocator := a <- align_up start ;; ret (mkBump a).
Definition alloc_page : M BumpAllocator Z :=
  page <- gets next ;; n <- add64 page PAGE_SIZE ;; _ <- modify (fun _ => mkBump n) ;; ret page.
Definition current (b : BumpAllocator) : Z := next b.

Lemma align_up_run {T} addr (s : T) : 0 <= addr -> addr + PAGE_SIZE < 2 ^ 64 ->
  exists a, align_up addr s = Some (a, s) /\ a mod PAGE_SIZE = 0 /\ addr <= a < addr + PAGE_SIZE.
Proof.
  intros H0 Hb. unfold align_up. rewrite (bind_run _ _ _ _ _ (add64_run addr PAGE_SIZE s Hb)).
  eexists. split; [reflexivity|]. destruct (page_down_bounds (addr + PAGE_SIZE - 1)) as [Ha Hl]. split; [done|]. lia.
Qed.
End Bump.

(** ** Memory *)

Section Memory.
Context {P : Platform}.

Record BootInfo := mkBootInfo {
  ram_base : Z; ram_size : Z; page_tracker_base : Z; page_tracker_size : Z; bootstrap_end : Z }.

Definition RAM_SIZE : Z := RAM_PAGES * PAGE_SIZE.

(** The size of the framebuffer, which only the QEMU board reserves. *)
Definition FB_RESERVED : Z := 4 * 1024 * 1024.

(** [fdt] is the blob if the boot loader passed one, [kernel_end] the linker's
    [_end]; zeroing the tracker is left to [init_memory_manager]. *)
Definition discovered_ram (fuel : nat) (fdt : option image) : option (Z * Z) :=
  match fdt with
  | Some img =>
      match Fdt.parse_fdt_ram fuel img with
      | Some (Some r) => Some (Fdt.ram_start r, Fdt.ram_len r)
      | Some None => Some (DRAM_BASE, RAM_SIZE)
      | None => None
      end
  | None => Some (DRAM_BASE, RAM_SIZE)
  end.

Definition init_memory {T} (fuel : nat) (qemu : bool) (kernel_end : Z) (fdt : option image) : M T BootInfo :=
  ram <- expect (discovered_ram fuel fdt) ;;
  let '(base, raw) := ram in
  let size := Z.min raw RAM_SIZE in
  let size := if qemu && (FB_RESERVED <=? size) then size - FB_RESERVED else size in
  bump <- Bump.new kernel_end ;;
  let num_pages := size / PAGE_SIZE in
  let tracker_size := num_pages * 2 in
  let tracker_base := Bump.current bump in
  e <- add64 tracker_base tracker_size ;;
  next <- Bump.align_up e ;;
  ret (mkBootInfo base size tracker_base tracker_size next).

(** Pages [0 .. n] belong to the kernel. *)
Definition kernel_pages (n : Z) : gmap Z PID := fold_left (fun a i => <[i := 1]> a) (seqZ 0 n) ∅.

Definition init_memory_manager (info : BootInfo) : M MemoryManager unit :=
  let num_pages := ram_size info / PAGE_SIZE in
  let phys_end := kernel_virt_to_phys (bootstrap_end info) in
  used <- sub64 phys_end (ram_base info) ;;
  used <- add64 used PAGE_SIZE ;;
  let last_used_page := (used - 1) / PAGE_SIZE in
  init_from_bootstrap (kernel_pages (Z.min last_used_page num_pages)) num_pages num_pages.

Lemma kernel_pages_lookup n i : kernel_pages n !! i = if bool_decide (0 <= i < n) then Some 1 else None.
Proof.
  unfold kernel_pages. change (fold_left (fun a i => <[i := 1]> a) (seqZ 0 n) ∅) with (fill_owner 1 0 n ∅).
  rewrite fill_owner_lookup. by rewrite Z.add_0_l.
Qed.

Lemma kernel_virt_to_phys_high a : KERNEL_VA_OFFSET <= a < 2 ^ 64 -> kernel_virt_to_phys a = a - KERNEL_VA_OFFSET.
Proof. unfold kernel_virt_to_phys, usize, KERNEL_VA_OFFSET. intros H. rewrite Z.mod_small; lia. Qed.

End Memory.

(** C24. On the blob of a device tree whose nodes with names that start with
    "memory" below the root are called [memory] or [memory@...], have no children
    and have a "reg" of at least 16 bytes, the parser ends and returns address and
    size from the "reg" of the first memory node below the root, or nothing when
    there is none: the tree is that of the tokens of the structure block, with
    NOPs anywhere, and the names of properties are read in the strings block. *)
Theorem fdt_parsed img root l fuel :
  Fdt.be32 img 0 = Fdt.FDT_MAGIC -> Fdt.holds img (Fdt.be32 img 8) (Fdt.encode_all l) -> Forall Fdt.token_ok l ->
  (length (Fdt.encode_all l) <= fuel)%nat ->
  List.filter (fun t => match t with Fdt.T_Nop => false | _ => true end) l = Fdt.flatten root ->
  Fdt.node_ok img (Fdt.be32 img 12) root -> Fdt.memory_nodes_plain root ->
  Fdt.parse_fdt_ram fuel img = Some (Fdt.memory_region root).
Proof.
  intros Hm Hh Hok Hf Hl Hn Hp. unfold Fdt.parse_fdt_ram. rewrite Hm, Z.eqb_refl. cbn [negb].
  rewrite (Fdt.parse_loop_run img _ _ l); [|done|by rewrite Z.add_0_r|done|done]. rewrite <- Fdt.find_ram_nops, Hl.
  destruct root as [name props children]. destruct Hn as (_ & _ & Hkids%Fdt.children_ok). cbn [Fdt.flatten Fdt.find_ram].
  change (0 + 1 =? 2) with false. cbn [orb andb]. rewrite Fdt.skip_props. change (0 + 1) with 1. rewrite Fdt.find_children by done.
  unfold Fdt.memory_region. cbn [Fdt.node_children]. by destruct (List.find _ children).
Qed.

(** Boot protects the kernel's memory.  With the kernel loaded at [kernel_end]
    inside the linear map of a RAM that starts where the build expects it,
    [init_memory] and [init_memory_manager] run without a panic; the page tracker
    lies between the kernel and the end of the bootstrap memory; and the
    allocator starts with its invariant, with every page of the RAM up to that
    end owned by process 1 and every page above it free. *)
Theorem boot_memory_protected {P : Platform} fuel qemu kernel_end fdt raw :
  discovered_ram fuel fdt = Some (DRAM_BASE, raw) -> 0 <= raw ->
  phys_to_virt DRAM_BASE <= kernel_end < phys_to_virt DRAM_BASE + 2 ^ 40 ->
  exists info m, init_memory fuel qemu kernel_end fdt tt = Some (info, tt) /\
    init_memory_manager info mm_default = Some (tt, m) /\ mm_inv m /\
    kernel_end <= page_tracker_base info /\
    page_tracker_base info + 2 * (ram_size info / PAGE_SIZE) <= bootstrap_end info /\
    forall idx, 0 <= idx < ram_size info / PAGE_SIZE ->
      allocations m !! idx =
      if bool_decide (phys_to_virt (frame idx) < bootstrap_end info) then Some 1 else None.
Proof.
  intros Hd Hraw Hk. pose proof plat_base as [Hb0 _]. pose proof plat_bound as Hpb. pose proof plat_pages as Hpp.
  unfold init_memory. rewrite Hd. rewrite (bind_run _ _ tt (DRAM_BASE, raw) tt eq_refl).
  set (size := if qemu && _ then _ else _).
  assert (Hv : phys_to_virt DRAM_BASE = DRAM_BASE + KERNEL_VA_OFFSET).
  { unfold phys_to_virt, usize. apply Z.mod_small. unfold KERNEL_VA_OFFSET, PAGE_SIZE in *. lia. }
  rewrite Hv in Hk.
  assert (Hsize : 0 <= size <= RAM_SIZE).
  { subst size. unfold RAM_SIZE in *. destruct qemu; cbn [andb].
    - destruct (Z.leb_spec FB_RESERVED (Z.min raw (RAM_PAGES * PAGE_SIZE))); unfold FB_RESERVED, PAGE_SIZE in *; lia.
    - unfold PAGE_SIZE in *. lia. }
  clearbody size. unfold RAM_SIZE in Hsize. set (n := size / PAGE_SIZE).
  assert (Hn : 0 <= n <= RAM_PAGES).
  { split; [apply Z.div_pos; [lia|done]|]. apply Z.div_le_upper_bound; [done|lia]. }
  destruct (Bump.align_up_run (T := unit) kernel_end tt) as (tb & Etb & Htba & Htbb);
    [unfold KERNEL_VA_OFFSET in *; lia|unfold KERNEL_VA_OFFSET, PAGE_SIZE in *; lia|].
  rewrite (bind_run _ _ tt (Bump.mkBump tb) tt) by (unfold Bump.new; by rewrite (bind_run _ _ _ _ _ Etb)).
  cbn [Bump.current Bump.next]. fold n.
  assert (He : tb + n * 2 + PAGE_SIZE < 2 ^ 64) by (unfold KERNEL_VA_OFFSET, PAGE_SIZE in *; lia).
  rewrite (bind_run _ _ _ _ _ (add64_run tb (n * 2) tt ltac:(unfold PAGE_SIZE in *; lia))).
  destruct (Bump.align_up_run (T := unit) (tb + n * 2) tt) as (e & Ee & Hea & Heb); [unfold KERNEL_VA_OFFSET in *; lia|done|].
  rewrite (bind_run _ _ _ _ _ Ee). eexists (mkBootInfo DRAM_BASE size tb (n * 2) e).
  unfold init_memory_manager. cbn [ram_size ram_base bootstrap_end page_tracker_base]. fold n.
  rewrite kernel_virt_to_phys_high by (unfold PAGE_SIZE in *; lia).
  rewrite (bind_run _ _ mm_default (e - KERNEL_VA_OFFSET - DRAM_BASE) mm_default)
    by (unfold sub64; by rewrite (proj2 (Z.leb_le _ _)) by lia).
  assert (Hu : e - KERNEL_VA_OFFSET - DRAM_BASE + PAGE_SIZE < 2 ^ 64).
  { clearbody n. unfold KERNEL_VA_OFFSET, PAGE_SIZE in *. lia. }
  rewrite (bind_run _ _ _ _ _ (add64_run (e - KERNEL_VA_OFFSET - DRAM_BASE) PAGE_SIZE mm_default Hu)).
  set (last := (e - KERNEL_VA_OFFSET - DRAM_BASE + PAGE_SIZE - 1) / PAGE_SIZE).
  destruct (init_run (kernel_pages (Z.min last n)) n) as (m & Em & Hi & Ha & _); [lia| |].
  { intros i p. rewrite kernel_pages_lookup. case_bool_decide; [lia|done]. }
  exists m. split; [done|]. split; [done|]. split; [done|]. split; [lia|]. split; [lia|].
  intros idx Hidx. rewrite Ha, kernel_pages_lookup. destruct (frame_bounds idx) as [Hfb _]; [lia|].
  replace (phys_to_virt (frame idx)) with (frame idx + KERNEL_VA_OFFSET).
  2: { symmetry. unfold phys_to_virt, usize. apply Z.mod_small. unfold KERNEL_VA_OFFSET in *. lia. }
  assert (Hlast : idx < last <-> frame idx + KERNEL_VA_OFFSET < e).
  { unfold frame, last. pose proof (Z.div_mod (e - KERNEL_VA_OFFSET - DRAM_BASE + PAGE_SIZE - 1) PAGE_SIZE ltac:(done)).
    pose proof (Z.mod_pos_bound (e - KERNEL_VA_OFFSET - DRAM_BASE + PAGE_SIZE - 1) PAGE_SIZE ltac:(done)).
    fold last in H |- *. unfold PAGE_SIZE in *. lia. }
  do 2 case_bool_decide; try done; lia.
Qed.

(** ** A concrete device tree: a root with a property, another node and a memory node *)

Definition demo_root : Fdt.node :=
  Fdt.Node [] [Fdt.mkProp [120] 4 [0; 0; 0; 2]]
    [Fdt.Node [99; 112; 117; 115] [Fdt.mkProp Fdt.REG_NAME 0 (replicate 16 1)] [];
     Fdt.Node (Fdt.MEMORY ++ [64; 52; 48]) [Fdt.mkProp [120] 4 [109]; Fdt.mkProp Fdt.REG_NAME 0 (Fdt.to_be 8 1073741824 ++ Fdt.to_be 8 268435456)] []].
Definition demo_tree : list Fdt.token := Fdt.T_Nop :: Fdt.flatten demo_root.
Definition demo_fdt_bytes : list Z :=
  Fdt.to_be 4 Fdt.FDT_MAGIC ++ Fdt.to_be 4 0 ++ Fdt.to_be 4 28 ++ Fdt.to_be 4 20 ++ Fdt.to_be 4 0 ++
  [114; 101; 103; 0; 120; 0; 0; 0] ++ Fdt.encode_all demo_tree.
Definition demo_fdt : image := fun o => nth (Z.to_nat o) demo_fdt_bytes 0.

Example demo_fdt_ram : Fdt.parse_fdt_ram 400 demo_fdt = Some (Some (Fdt.mkRam 1073741824 268435456)).
Proof. by vm_compute. Qed.

Lemma demo_fdt_holds : Fdt.holds demo_fdt (Fdt.be32 demo_fdt 8) (Fdt.encode_all demo_tree).
Proof.
  change (Fdt.be32 demo_fdt 8) with 28. intros i b Hi. unfold demo_fdt. rewrite Z2Nat.inj_add, Nat2Z.id by lia.
  change (Z.to_nat 28) with 28%nat. unfold demo_fdt_bytes. rewrite !app_assoc. rewrite nth_lookup.
  rewrite lookup_app_r by (cbn; lia). change (length _) with 28%nat at 1. replace (28 + i - 28)%nat with i by lia. by rewrite Hi.
Qed.

Lemma demo_tree_ok : Forall Fdt.token_ok demo_tree.
Proof.
  assert (Hd : forall l, forallb (fun b => (0 <=? b) && (b <? 256)) l = true -> Forall (fun b => 0 <= b < 256) l).
  { intros l Hl. apply Forall_forall. intros b Hb%list_elem_of_In. apply (proj1 (forallb_forall _ _) Hl) in Hb. lia. }
  assert (Hn : forall l, forallb (fun b => (0 <? b) && (b <? 256)) l = true -> Forall (fun b => 0 < b < 256) l).
  { intros l Hl. apply Forall_forall. intros b Hb%list_elem_of_In. apply (proj1 (forallb_forall _ _) Hl) in Hb. lia. }
  unfold demo_tree. repeat apply Forall_cons_2; try apply Forall_nil_2; cbn [Fdt.token_ok]; try done;
    try (by apply Hn; vm_compute); split_and!; try done; by apply Hd; vm_compute.
Qed.

Lemma fdt_parsed_witness : Fdt.parse_fdt_ram 400 demo_fdt = Some (Some (Fdt.mkRam 1073741824 268435456)).
Proof.
  rewrite (fdt_parsed demo_fdt demo_root demo_tree 400); [by vm_compute|by vm_compute|exact demo_fdt_holds|exact demo_tree_ok|vm_compute; lia|done| |].
  - change (Fdt.be32 demo_fdt 12) with 20. cbn. assert (Hx : Fdt.holds demo_fdt 24 [120; 0]) by (intros [|[|i]] b [= <-]; done).
    assert (Hr : Fdt.holds demo_fdt 20 [114; 101; 103; 0]) by (intros [|[|[|[|i]]]] b [= <-]; done).
    repeat first [exact Hx | exact Hr | split | constructor]; lia.
  - unfold Fdt.memory_nodes_plain. cbn [Fdt.node_children demo_root]. apply Forall_cons_2; [by intros [=]|]. apply Forall_cons_2; [|apply Forall_nil_2].
    intros _. split; [done|]. split; [done|]. eexists. split; [reflexivity|]. cbn. lia.
Defined.

(** Any name that starts with "memory" counts for the parser, and so does the
    "reg" of a child of such a node. *)
Example memory_controller_taken :
  let n name regs kids := Fdt.Node name ((fun b => Fdt.mkProp Fdt.REG_NAME 0 (replicate 16 b)) <$> regs) kids in
  let controller := n (Fdt.MEMORY ++ [45; 99]) [5] [] in
  let nested := n Fdt.MEMORY [] [n [120] [6] []] in
  let parsed kids := Fdt.find_ram (fun o => o =? 0) (Fdt.flatten (n [] [] kids)) 0 false in
  Fdt.memory_region (n [] [] [controller]) = None /\ parsed [controller] = Some (Some (Fdt.mkRam (Fdt.be (replicate 8 5)) (Fdt.be (replicate 8 5)))) /\
  Fdt.memory_region (n [] [] [nested]) = None /\ parsed [nested] = Some (Some (Fdt.mkRam (Fdt.be (replicate 8 6)) (Fdt.be (replicate 8 6)))).
Proof. vm_compute. by split_and!. Qed.

Lemma boot_memory_protected_witness :
  exists info m, init_memory 400 true (phys_to_virt 1074790400) (Some demo_fdt) tt = Some (info, tt) /\
    init_memory_manager info mm_default = Some (tt, m) /\ mm_inv m.
Proof.
  destruct (boot_memory_protected 400 true (phys_to_virt 1074790400) (Some demo_fdt) 268435456)
    as (info & m & H1 & H2 & H3 & _); [by vm_compute|lia|by vm_compute|].
  exact (ex_intro _ info (ex_intro _ m (conj H1 (conj H2 H3)))).
Defined.
