(* ===== verification/Services.v ===== *)
(** * Kernel services

    Models [xous/kernel/src/services.rs] with the parts of [syscall.rs],
    [kfuture.rs], [scheduler.rs], [server.rs] and [irq.rs] it calls: the tables
    of processes and servers, delivery of results, suspension and polling of
    kernel futures, the choice of the next thread, the sending of messages,
    threads, events, the display and the termination of processes.

    [Kernel] is the whole mutable state of the kernel.  The mapping of a
    process and its memory permissions live in [mem_env], its allocation hint
    in [mem_sys] (see [MemMap]); the register contexts and the current process
    are [arch].  [MemoryMapping::current()] is the mapping of the current
    process: [queue_server_message] and [remember_server_message] activate
    another one only around a call that does not use it, and restore it.
    The queue of a server is the field [queue] of its record.  In the code it
    is a page of the owner's address space, mapped without user access: what
    it reads as at creation is an argument ([create_server_with_address]), and
    the properties that speak of queues say that the page stays mapped.
    Framebuffer pages are those of the QEMU board.  CPU-usage accounting, the
    preemption timer, interrupt-controller masks and log output are left out. *)

From Stdlib Require Import ZArith Lia Bool.
From stdpp Require Import gmap.
From S2P Require Import Prelude Abi SysCall Scheduler Server Memory PageTable MemMap Process ArchProcess Display Bytes.
Open Scope Z_scope.

Definition MAX_SERVER_COUNT : nat := 128.
Definition PANIC_MESSAGE_SIZE : nat := 1024.

(** ** Interrupt handlers ([irq.rs]) *)

Inductive IrqHandler :=
| Irq_Free
| Irq_User (pid : PID) (pc : Z) (arg : option Z)
| Irq_Kernel.

Definition IRQ_COUNT : nat := 32.

(** [IrqNumber::try_from] *)
Definition IrqNumber_try_from (value : Z) : res nat Error :=
  if (1 <=? value) && (value <=? 8) then Ok (Z.to_nat value) else Err InvalidLimit.

Section Kernel.
Context {P : Platform} {S G : Type} {RQ : ReadyQueues S G}.

Record Kernel := mkKernel {
  processes : list (option Process);
  servers : list (option Server);
  panic_message : list Z;
  panic_message_pid : option PID;
  display_state : DisplayState;
  sched : S;
  arch : Arch;
  irq_handlers : list IrqHandler;
  mem_env : Env;
  mem_sys : Sys }.

Definition set_processes (l : list (option Process)) (k : Kernel) : Kernel :=
  mkKernel l (servers k) (panic_message k) (panic_message_pid k) (display_state k) (sched k) (arch k)
    (irq_handlers k) (mem_env k) (mem_sys k).
Definition set_servers (l : list (option Server)) (k : Kernel) : Kernel :=
  mkKernel (processes k) l (panic_message k) (panic_message_pid k) (display_state k) (sched k) (arch k)
    (irq_handlers k) (mem_env k) (mem_sys k).
Definition set_panic (m : list Z) (o : option PID) (k : Kernel) : Kernel :=
  mkKernel (processes k) (servers k) m o (display_state k) (sched k) (arch k)
    (irq_handlers k) (mem_env k) (mem_sys k).
Definition set_display (d : DisplayState) (k : Kernel) : Kernel :=
  mkKernel (processes k) (servers k) (panic_message k) (panic_message_pid k) d (sched k) (arch k)
    (irq_handlers k) (mem_env k) (mem_sys k).
Definition set_sched (q : S) (k : Kernel) : Kernel :=
  mkKernel (processes k) (servers k) (panic_message k) (panic_message_pid k) (display_state k) q (arch k)
    (irq_handlers k) (mem_env k) (mem_sys k).
Definition set_arch (a : Arch) (k : Kernel) : Kernel :=
  mkKernel (processes k) (servers k) (panic_message k) (panic_message_pid k) (display_state k) (sched k) a
    (irq_handlers k) (mem_env k) (mem_sys k).
Definition set_irq_handlers (l : list IrqHandler) (k : Kernel) : Kernel :=
  mkKernel (processes k) (servers k) (panic_message k) (panic_message_pid k) (display_state k) (sched k) (arch k)
    l (mem_env k) (mem_sys k).
Definition set_mem_env (E : Env) (k : Kernel) : Kernel :=
  mkKernel (processes k) (servers k) (panic_message k) (panic_message_pid k) (display_state k) (sched k) (arch k)
    (irq_handlers k) E (mem_sys k).
Definition set_mem_sys (y : Sys) (k : Kernel) : Kernel :=
  mkKernel (processes k) (servers k) (panic_message k) (panic_message_pid k) (display_state k) (sched k) (arch k)
    (irq_handlers k) (mem_env k) y.

(** ** Running a component's operation on the kernel *)

Definition lift {T A} (get : Kernel -> T) (put : T -> Kernel -> Kernel) (m : M T A) : M Kernel A :=
  fun k => match m (get k) with Some (a, t) => Some (a, put t k) | None => None end.

Definition on_arch {A} : M Arch A -> M Kernel A := lift arch set_arch.
Definition on_scheduler {A} : M S A -> M Kernel A := lift sched set_sched.
Definition on_display {A} : M DisplayState A -> M Kernel A := lift display_state set_display.
Definition on_mem {A} : M Sys A -> M Kernel A := lift mem_sys set_mem_sys.

(** [.unwrap()] and [.expect(..)] of a [Result] *)
Definition unwrap {A E} (m : M Kernel (res A E)) : M Kernel A :=
  r <- m ;; match r with Ok a => ret a | Err _ => panic end.

Definition current_pid : M Kernel PID := gets (fun k => cur_pid (arch k)).

(** The memory manager's view of the running process. *)
Definition with_mm {A} (f : Env -> PID -> MemoryMapping -> M Sys A) : M Kernel A :=
  E <- gets mem_env ;;
  pid <- current_pid ;;
  cur <- expect (env_maps E !! pid) ;;
  on_mem (f E pid cur).

(** ** The table of processes *)

Definition process_index (pid : PID) : nat := Z.to_nat (pid - 1).

Definition process_slot (pid : PID) : M Kernel (option Process) :=
  o <- gets (fun k => processes k !! process_index pid) ;; expect o.

Definition process (pid : PID) : M Kernel (res Process Error) :=
  o <- process_slot pid ;; ret (ok_or o ProcessNotFound).

(** [self.process_mut(pid)] followed by operations on it. *)
Definition on_process {A} (pid : PID) (m : M PS A) : M Kernel (res A Error) :=
  o <- process_slot pid ;;
  match o with
  | None => ret (Err ProcessNotFound)
  | Some p =>
      fun k => match m (mkPS p (sched k)) with
               | Some (a, s) =>
                   Some (Ok a, set_sched (ps_sched s) (set_processes (<[process_index pid := Some (ps_proc s)]> (processes k)) k))
               | None => None
               end
  end.

Definition current_process : M Kernel Process := pid <- current_pid ;; unwrap (process pid).
Definition on_current {A} (m : M PS A) : M Kernel A := pid <- current_pid ;; unwrap (on_process pid m).

(** [self.process(pid)?.activate()] *)
Definition activate_process (pid : PID) : M Kernel (res unit Error) :=
  p <-? process pid ;; _ <- on_arch (set_current_pid (p_pid p)) ;; ret (Ok tt).

Definition free_process (pid : PID) : M Kernel unit :=
  _ <- process_slot pid ;; modify (fun k => set_processes (<[process_index pid := None]> (processes k)) k).

(** [for_all_processes] over the slots [l] *)
Fixpoint for_processes (f : M PS unit) (l : list nat) : M Kernel unit :=
  match l with
  | [] => ret tt
  | i :: l => _ <- on_process (Z.of_nat i + 1) f ;; for_processes f l
  end.
Definition for_all_processes (f : M PS unit) : M Kernel unit :=
  n <- gets (fun k => length (processes k)) ;; for_processes f (seq 0 n).

Definition wake_threads_with_state (state : ThreadState) (n : Z) : M Kernel unit :=
  for_all_processes (Process.wake_threads_with_state state n).

Fixpoint find_app_id (app_id : AppId) (l : list (option Process)) : option PID :=
  match l with
  | [] => None
  | Some p :: l => if bool_decide (p_app_id p = app_id) then Some (p_pid p) else find_app_id app_id l
  | None :: l => find_app_id app_id l
  end.
Definition pid_from_app_id (app_id : AppId) : M Kernel (option PID) :=
  gets (fun k => find_app_id app_id (processes k)).

(** ** Results *)

Definition set_thread_result (pid : PID) (tid : nat) (result : XResult) : M Kernel (res unit Error) :=
  cur <- current_pid ;;
  if cur =? pid then _ <- on_arch (ArchProcess.set_thread_result cur tid result) ;; ret (Ok tt)
  else
    _ <-? activate_process pid ;;
    active <- current_pid ;;
    _ <- on_arch (ArchProcess.set_thread_result active tid result) ;;
    _ <- unwrap (activate_process cur) ;;
    ret (Ok tt).

Definition kernel_future (p : Process) (tid : nat) : option KernelFuture :=
  match kernel_futures p !! tid with Some o => o | None => None end.
Definition has_kernel_future (p : Process) (tid : nat) : bool := is_some (kernel_future p tid).

(** [syscall::wake_thread_with_result], on the hardware *)
Definition wake_thread_with_result (pid : PID) (tid : nat) (result : XResult) : M Kernel unit :=
  r <- process pid ;;
  match r with
  | Ok p =>
      if has_kernel_future p tid then
        _ <- on_process pid (_ <- set_mailbox tid result ;; set_thread_state tid TS_Ready) ;; ret tt
      else
        _ <- on_process pid (_ <- take_kernel_future tid ;; set_thread_state tid TS_Ready) ;;
        _ <- set_thread_result pid tid result ;; ret tt
  | Err _ => _ <- set_thread_result pid tid result ;; ret tt
  end.

(** [syscall::suspend_with_future] *)
Definition suspend_with_future (tid : nat) (future : KernelFuture) (mask : Z) : M Kernel unit :=
  on_current (_ <- set_kernel_future tid future ;; set_thread_state tid (TS_WaitEvent mask)).

(** ** The table of servers *)

(** [sidx > self.servers.len()] lets the length itself through, which panics. *)
Definition server_from_sidx (sidx : nat) : M Kernel (option Server) :=
  l <- gets servers ;;
  if (length l <? sidx)%nat then ret None else expect (l !! sidx).

(** An operation on a server that is known to be there. *)
Definition on_server {A} (sidx : nat) (m : M Server A) : M Kernel A :=
  o <- server_from_sidx sidx ;;
  s <- expect o ;;
  fun k => match m s with
           | Some (a, s') => Some (a, set_servers (<[sidx := Some s']> (servers k)) k)
           | None => None
           end.

Definition sidx_from_sid (sid : SID) (pid : PID) : M Kernel (option nat) :=
  gets (fun k => position (fun o => match o with
                                    | Some s => bool_decide (srv_sid s = sid) && (srv_pid s =? pid)
                                    | None => false
                                    end) (servers k)).

Definition sidx_from_any_sid (sid : SID) : M Kernel (option nat) :=
  gets (fun k => position (fun o => match o with Some s => bool_decide (srv_sid s = sid) | None => false end)
                   (servers k)).

(** [page] is what the slots of the page that [map_range] populates read as:
    the pool the page comes from may hold pages that were used before, and the
    populating path does not clear them. *)
Definition create_server_with_address (page : nat -> QueuedMessage) (sid : SID) (initial_permissions : MsgRange)
  : M Kernel (res SID Error) :=
  pid <- current_pid ;;
  l <- gets servers ;;
  match position (fun o => negb (is_some o)) l with
  | None => ret (Err ServerNotFound)
  | Some sidx =>
      backing <-? with_mm (fun E cp cur => map_range E cp cur 0 0 PAGE_SIZE (Z.lor MF_W MF_POPULATE) false) ;;
      match Server_init None pid sid backing page initial_permissions with
      | Some (Ok server) =>
          _ <- modify (fun k => set_servers (<[sidx := Some server]> (servers k)) k) ;;
          _ <- wake_threads_with_state (TS_RetryConnect (quick_hash sid)) USIZE_MAX ;;
          ret (Ok sid)
      | _ => panic
      end
  end.

Definition connect_to_server (pid : PID) (sid : SID) : M Kernel (res CID Error) :=
  o <- sidx_from_any_sid sid ;;
  match o with
  | None => ret (Err ServerNotFound)
  | Some sidx =>
      so <- server_from_sidx sidx ;;
      s <- expect so ;;
      r <-? on_process pid (add_connection (Z.of_nat sidx) (default_permissions s)) ;; ret r
  end.

Definition disconnect_from_server (cid : CID) : M Kernel (res unit Error) :=
  p <- current_process ;;
  if cid <? 2 then ret (Err ServerNotFound)
  else
    let i := Z.to_nat (cid - 2) in
    let put c := on_current (update (fun p => set_connections (<[i := c]> (connection_map p)) p)) in
    match connection_map p !! i with
    | None | Some CS_Free => ret (Err ServerNotFound)
    | Some (CS_Tombstone rc) =>
        _ <- put (if 1 <? rc then CS_Tombstone (rc - 1) else CS_Free) ;; ret (Ok tt)
    | Some (CS_Connected s rc pm) =>
        _ <- put (if 1 <? rc then CS_Connected s (rc - 1) pm else CS_Free) ;; ret (Ok tt)
    end.

(** [self.current_process().connection(cid)?] of a live connection *)
Definition connected (cid : CID) : M Kernel (res (nat * MessagePermissions) Error) :=
  p <- current_process ;;
  ret (if cid <? 2 then Err ServerNotFound
       else match connection_map p !! Z.to_nat (cid - 2) with
            | Some (CS_Connected sidx _ pm) => Ok (Z.to_nat sidx, pm)
            | _ => Err ServerNotFound
            end).

(** [process.mapping.activate()] only switches the page tables, so the current
    process stays the same while the message is stored. *)
Definition queue_server_message (sidx : nat) (pid : PID) (tid : nat) (message : Message) (original_address : option Z)
  : M Kernel (res nat Error) :=
  cur <- current_pid ;;
  so <- server_from_sidx sidx ;;
  match so with
  | None => ret (Err ServerNotFound)
  | Some s =>
      _ <-? process (srv_pid s) ;;
      r <- on_server sidx (queue_message pid (Z.of_nat tid) message original_address) ;;
      _ <- unwrap (process cur) ;;
      ret r
  end.

Definition remember_server_message (sidx : nat) (cur : PID) (tid : nat) (message : Message) (client_address : option Z)
  : M Kernel (res nat Error) :=
  so <- server_from_sidx sidx ;;
  match so with
  | None => ret (Err ServerNotFound)
  | Some s =>
      _ <-? process (srv_pid s) ;;
      r <- on_server sidx (queue_response cur (Z.of_nat tid) message client_address) ;;
      _ <- unwrap (process cur) ;;
      ret r
  end.

(** ** Kernel futures ([kfuture.rs]); [None] is [Pending] *)

(** After a message or a reply was taken: wake the senders that found the
    queue full. *)
Definition wake_if_unfull (sidx : nat) (queue_was_full : bool) : M Kernel unit :=
  so <- server_from_sidx sidx ;;
  s <- expect so ;;
  if queue_was_full && negb (is_queue_full s)
  then wake_threads_with_state (TS_RetryQueueFull (Z.of_nat sidx)) USIZE_MAX else ret tt.

(** The queue is read through its address in the address space of the owner.
    The code does not activate that address space first; the definition reads
    the queue of the server, which is what the code does when [pid] is the
    current process or the queue's page is mapped alike there. *)
Definition poll_receive_message (pid : PID) (sidx : nat) : M Kernel (option (res XResult Error)) :=
  so <- server_from_sidx sidx ;;
  match so with
  | None => ret (Some (Err ServerNotFound))
  | Some server =>
      if negb (srv_pid server =? pid) then ret (Some (Err ServerNotFound))
      else
        m <- on_server sidx (take_next_message sidx) ;;
        match m with
        | Some msg => _ <- wake_if_unfull sidx (is_queue_full server) ;; ret (Some (Ok (R_MessageEnvelope msg)))
        | None => ret None
        end
  end.

Definition poll_process_mailbox (pid : PID) (tid : nat) : M Kernel (option (res XResult Error)) :=
  r <- on_process pid (poll_mailbox tid) ;;
  ret (match r with Ok o => o | Err e => Some (Err e) end).

Definition poll (f : KernelFuture) (pid : PID) (tid : nat) : M Kernel (option (res XResult Error)) :=
  match f with
  | KF_ReceiveMessage sidx => poll_receive_message pid (Z.to_nat sidx)
  | _ => poll_process_mailbox pid tid
  end.

(** ** Choosing the next thread ([Scheduler::activate_current]) *)

Definition dispatch (cur_p : PID) (cur_t : nat) (next_pid : PID) (next_tid : nat) : M Kernel (res XResult Error) :=
  if (next_pid =? cur_p) && (next_tid =? cur_t)%nat then ret (Ok R_ResumeProcess)
  else
    _ <- unwrap (activate_process next_pid) ;;
    active <- current_pid ;;
    _ <- on_arch (set_tid active next_tid) ;;
    ret (Ok R_ResumeProcess).

(** The [loop]: each round that does not end it parks a ready thread, so more
    rounds than there are threads are enough (see [activate_current_dispatches]). *)
Fixpoint activate_loop (fuel : nat) (cur_p : PID) (cur_t : nat) : M Kernel (res XResult Error) :=
  match fuel with
  | O => panic
  | Datatypes.S fuel =>
      h <- on_scheduler rq_head ;;
      match h with
      | None => ret (Ok R_ResumeProcess)
      | Some (next_pid, next) =>
          let next_tid := Z.to_nat next in
          future <- unwrap (on_process next_pid (take_kernel_future next_tid)) ;;
          match future with
          | None => dispatch cur_p cur_t next_pid next_tid
          | Some kf =>
              r <- poll kf next_pid next_tid ;;
              match r with
              | Some (Ok result) =>
                  _ <- set_thread_result next_pid next_tid result ;; dispatch cur_p cur_t next_pid next_tid
              | Some (Err e) => ret (Err e)
              | None =>
                  _ <- unwrap (on_process next_pid
                         (_ <- set_kernel_future next_tid kf ;;
                          set_thread_state next_tid (TS_WaitEvent (suspension_mask kf)))) ;;
                  activate_loop fuel cur_p cur_t
              end
          end
      end
  end.

Definition ACTIVATE_FUEL : nat := 64 * 32 + 1.

Definition activate_current : M Kernel (res XResult Error) :=
  irq <- gets (fun k => rq_in_irq (sched k)) ;;
  if irq : bool then ret (Ok R_ResumeProcess)
  else
    pid <- current_pid ;;
    tid <- on_arch (current_tid pid) ;;
    activate_loop ACTIVATE_FUEL pid tid.

Definition retry_syscall (tid : nat) (state : ThreadState) : M Kernel (res XResult Error) :=
  pid <- current_pid ;;
  _ <-? on_arch (retry_swi_instruction pid tid) ;;
  _ <- on_current (set_thread_state tid state) ;;
  activate_current.

(** ** Messages ([syscall::send_message_inner]) *)

(** Moving or lending the memory of a message into the server's address space. *)
Definition translate_message (server_pid : PID) (message : Message) : M Kernel (res Message Error) :=
  let with_buf (mk : MemoryMessage -> Message) msg (t : M Kernel (res Z Error)) :=
    new_virt <-? t ;;
    buf <-? ret (MemoryRange_new new_virt (range_size (mm_buf msg))) ;;
    ret (Ok (mk (mkMemoryMessage (mm_id msg) buf (mm_offset msg) (mm_valid msg)))) in
  let lend msg mutable := with_mm (fun E cp cur =>
    lend_memory E cp cur (range_addr (mm_buf msg)) server_pid 0 (range_size (mm_buf msg)) mutable) in
  match message with
  | Scalar _ | BlockingScalar _ => ret (Ok message)
  | Move msg => with_buf Move msg (with_mm (fun E cp cur =>
      send_memory E cp cur (range_addr (mm_buf msg)) server_pid 0 (range_size (mm_buf msg))))
  | MutableBorrow msg => with_buf MutableBorrow msg (lend msg true)
  | Borrow msg => with_buf Borrow msg (lend msg false)
  end.

(** Posting bit 0, "server message available", to the server's process. *)
Definition notify_server (server_pid : PID) : M Kernel (res unit Error) :=
  woken <-? on_process server_pid (post_notification_bits 1) ;;
  match woken with
  | Some (tid, fired) => _ <- set_thread_result server_pid tid (R_Scalar1 fired) ;; ret (Ok tt)
  | None => ret (Ok tt)
  end.

Definition send_message_inner (sender_tid : nat) (sidx : nat) (message : Message) : M Kernel (res unit Error) :=
  so <- server_from_sidx sidx ;;
  server <- expect so ;;
  if is_queue_full server then ret (Err ServerQueueFull)
  else
    let server_pid := srv_pid server in
    let client_address := match memory_message message with
                          | Some m => nonzero (range_addr (mm_buf m)) | None => None end in
    message <-? translate_message server_pid message ;;
    sender_pid <- current_pid ;;
    available <- on_server sidx take_available_thread ;;
    match available with
    | Some server_tid =>
        r <- (if is_blocking message
              then remember_server_message sidx sender_pid sender_tid message client_address
              else ret (Ok 0%nat)) ;;
        match r with
        | Err e => _ <- on_server sidx (return_available_thread server_tid) ;; ret (Err e)
        | Ok sender_idx =>
            let envelope := mkEnvelope (sender_token sidx sender_idx (Some sender_pid)) message in
            let tid := Z.to_nat server_tid in
            _ <- unwrap (on_process server_pid (_ <- take_kernel_future tid ;; set_thread_state tid TS_Ready)) ;;
            _ <- set_thread_result server_pid tid (R_MessageEnvelope envelope) ;;
            ret (Ok tt)
        end
    | None =>
        _ <-? queue_server_message sidx sender_pid sender_tid message client_address ;;
        _ <- unwrap (notify_server server_pid) ;;
        ret (Ok tt)
    end.

Definition send_event (dst_pid : PID) (event : SystemEvent) (a0 a1 a2 a3 : Z) : M Kernel (res unit Error) :=
  p <-? process dst_pid ;;
  o <- expect (event_handlers p !! Z.to_nat (SystemEvent_as_usize event)) ;;
  match o with
  | None => ret (Ok tt)
  | Some (sid, id) =>
      so <- sidx_from_sid sid dst_pid ;;
      match so with
      | None => ret (Ok tt)
      | Some sidx => send_message_inner 0 sidx (Scalar (mkScalarMessage id a0 a1 a2 a3))
      end
  end.

Fixpoint broadcast_loop (event : SystemEvent) (a0 a1 a2 a3 : Z) (l : list nat) : M Kernel (res unit Error) :=
  match l with
  | [] => ret (Ok tt)
  | i :: l =>
      let pid := Z.of_nat i + 1 in
      r <- process pid ;;
      if is_ok r then _ <-? send_event pid event a0 a1 a2 a3 ;; broadcast_loop event a0 a1 a2 a3 l
      else broadcast_loop event a0 a1 a2 a3 l
  end.
Definition broadcast_event (event : SystemEvent) (a0 a1 a2 a3 : Z) : M Kernel (res unit Error) :=
  broadcast_loop event a0 a1 a2 a3 (seq 0 64).

(** ** Destroying servers *)

Definition wake_client (pid : PID) (tid : Z) : M Kernel unit :=
  unwrap (on_process pid (set_thread_state (Z.to_nat tid) TS_Ready)).
Definition refuse_client (pid : PID) (tid : Z) : M Kernel unit :=
  unwrap (set_thread_result pid (Z.to_nat tid) (R_Error ServerNotFound)).

(** One round of the loop of [Server::destroy] over the queue. *)
Definition destroy_entry (m : QueuedMessage) : M Kernel unit :=
  match m with
  | QM_Empty | QM_ScalarMessage _ _ _ _ | QM_BlockingScalarTerminated _ _ _ | QM_WaitingReturnScalarTerminated => ret tt
  | QM_MemoryMessageSend _ _ _ sa sz _ _ | QM_WaitingForget sa sz
  | QM_MemoryMessageROLendTerminated _ _ sa sz _ _ | QM_MemoryMessageRWLendTerminated _ _ sa sz _ _ =>
      unwrap (with_mm (fun E _ cur => unmap_range E cur sa sz))
  | QM_BlockingScalarMessage pid tid _ _ _ | QM_WaitingReturnScalar pid tid =>
      _ <- refuse_client pid tid ;; wake_client pid tid
  | QM_MemoryMessageROLend pid tid _ _ ca sa sz _ _ | QM_MemoryMessageRWLend pid tid _ _ ca sa sz _ _
  | QM_WaitingReturnMemory pid tid sa ca sz =>
      _ <- unwrap (with_mm (fun E cp _ => return_memory E cp sa pid ca sz)) ;;
      _ <- wake_client pid tid ;; refuse_client pid tid
  end.

Fixpoint destroy_entries (q : list QueuedMessage) : M Kernel unit :=
  match q with [] => ret tt | m :: q => _ <- destroy_entry m ;; destroy_entries q end.

(** [while let Some(server_tid) = self.take_available_thread()]: a 64-bit mask
    is empty after at most 64 rounds. *)
Fixpoint wake_available (fuel : nat) (server_pid : PID) (s : Server) : M Kernel unit :=
  match take_available_thread s with
  | None => panic
  | Some (None, _) => ret tt
  | Some (Some tid, s) =>
      match fuel with
      | O => panic
      | Datatypes.S fuel =>
          _ <- wake_client server_pid tid ;; _ <- refuse_client server_pid tid ;; wake_available fuel server_pid s
      end
  end.

Definition server_destroy (s : Server) : M Kernel unit :=
  _ <- destroy_entries (queue s) ;;
  server_pid <- current_pid ;;
  _ <- wake_available 64 server_pid s ;;
  unwrap (with_mm (fun E _ cur =>
    unmap_range E cur (queue_addr s) (Z.of_nat (length (queue s)) * QUEUED_MESSAGE_SIZE))).

(** The loop of [destroy_sidx] over the processes [l]. *)
Fixpoint disconnect_processes (sidx : nat) (l : list nat) : M Kernel unit :=
  match l with
  | [] => ret tt
  | i :: l =>
      let pid := Z.of_nat i + 1 in
      r <- on_process pid (tombstone_connection_by_sidx (Z.of_nat sidx)) ;;
      _ <- match r with
           | Ok (Some cid) => _ <- send_event pid Disconnected cid 0 0 0 ;; ret tt
           | _ => ret tt
           end ;;
      disconnect_processes sidx l
  end.

Definition destroy_sidx (sidx : nat) : M Kernel unit :=
  so <- gets (fun k => servers k !! sidx) ;;
  o <- expect so ;;
  s <- expect o ;;
  _ <- modify (fun k => set_servers (<[sidx := None]> (servers k)) k) ;;
  _ <- server_destroy s ;;
  n <- gets (fun k => length (processes k)) ;;
  disconnect_processes sidx (seq 0 n).

Definition destroy_server (pid : PID) (sid : SID) : M Kernel (res unit Error) :=
  o <- sidx_from_sid sid pid ;;
  match o with
  | None => ret (Err ServerNotFound)
  | Some sidx => _ <- destroy_sidx sidx ;; ret (Ok tt)
  end.

(** ** Threads *)

Definition create_thread (parent : nat) (init : ThreadInit) : M Kernel (res nat Error) :=
  pid <- current_pid ;;
  o <- on_arch (find_free_thread pid) ;;
  match o with
  | None => ret (Err ThreadNotAvailable)
  | Some tid =>
      _ <-? on_arch (setup_thread pid tid init) ;;
      _ <- on_current (_ <- set_thread_state tid TS_Ready ;;
                       prio <- thread_priority parent ;; set_thread_priority tid prio) ;;
      ret (Ok tid)
  end.

Definition is_joiner (p : Process) (tid waiting : nat) : bool :=
  match kernel_future p waiting with Some (KF_WaitJoin t) => t =? Z.of_nat tid | _ => false end.

Fixpoint wake_joiners (tid : nat) (value : Z) (l : list nat) : M Kernel unit :=
  match l with
  | [] => ret tt
  | w :: l =>
      p <- current_process ;;
      pid <- current_pid ;;
      _ <- (if is_joiner p tid w then wake_thread_with_result pid w (R_Scalar1 value) else ret tt) ;;
      wake_joiners tid value l
  end.

Definition thread_exited (tid : nat) : M Kernel (res XResult Error) :=
  _ <- on_current (set_thread_state tid TS_Free) ;;
  _ <- on_current (take_kernel_future tid) ;;
  _ <- on_current (take_mailbox tid) ;;
  _ <- (if (tid =? 0)%nat then ret tt
        else
          pid <- current_pid ;;
          o <- on_arch (destroy_thread pid tid) ;;
          let '(return_value, stack) := default (0, None) o in
          _ <- match stack with
               | Some st => _ <- with_mm (fun E _ cur => unmap_range E cur (range_addr st) (range_size st)) ;; ret tt
               | None => ret tt
               end ;;
          wake_joiners tid return_value (seq 0 NUM_THREADS)) ;;
  activate_current.

(** The thread number comes from the caller and indexes the table. *)
Definition join_thread (tid : nat) (join_tid : TID) : M Kernel (res XResult Error) :=
  if Z.of_nat tid =? join_tid then ret (Err ThreadNotAvailable)
  else
    st <- on_current (thread_state (Z.to_nat join_tid)) ;;
    if negb (bool_decide (st = TS_Free)) then
      _ <- suspend_with_future tid (KF_WaitJoin join_tid) EVENT_KERNEL ;; activate_current
    else ret (Ok (R_Scalar1 0)).

(** ** The display *)

Definition FB_PHYS : Z := 2143289344. (* 0x7FC0_0000 *)
Definition FB_SIZE : Z := 4 * 1024 * 1024.
Definition SHELL_FB_VA : Z := 68753031168. (* 0x10_0200_0000 *)

(** [if let Ok(process) = self.process_mut(pid)] and its mapping *)
Definition mapping_of (pid : PID) : M Kernel (option MemoryMapping) :=
  r <- process pid ;;
  match r with
  | Ok _ => E <- gets mem_env ;; m <- expect (env_maps E !! pid) ;; ret (Some m)
  | Err _ => ret None
  end.

Fixpoint each_page (f : Z -> M Kernel unit) (l : list Z) : M Kernel unit :=
  match l with [] => ret tt | i :: l => _ <- f i ;; each_page f l end.

Definition map_fb_for (pid : PID) : M Kernel unit :=
  o <- mapping_of pid ;;
  match o with
  | None => ret tt
  | Some m => each_page (fun i => _ <- on_mem (on_vm (map_page m (FB_PHYS + i * PAGE_SIZE) (SHELL_FB_VA + i * PAGE_SIZE)
                                                  (Z.lor MF_W MF_DEV) true)) ;; ret tt)
                (seqZ 0 (FB_SIZE / PAGE_SIZE))
  end.

Definition unmap_fb_for (pid : PID) : M Kernel unit :=
  o <- mapping_of pid ;;
  match o with
  | None => ret tt
  | Some m => each_page (fun i => _ <- on_mem (on_vm (unmap_page m (SHELL_FB_VA + i * PAGE_SIZE))) ;; ret tt)
                (seqZ 0 (FB_SIZE / PAGE_SIZE))
  end.

Definition display_cursor : M Kernel (Z * Z) :=
  gets (fun k => (cursor_row (display_state k), cursor_col (display_state k))).
Definition display_input_sid : M Kernel (option SID) := gets (fun k => input_sid (display_state k)).
Definition push_display_input_char (c : Z) : M Kernel unit := on_display (push_input_char c).
Definition release_input_focus : M Kernel unit := on_display clear_input_focus.

Definition owns_display (d : DisplayState) (pid : PID) : bool :=
  match owner d with Some (p, _) => p =? pid | None => false end.

(** The buffered characters are the first component of the drained buffer. *)
Definition acquire_input_focus (pid : PID) (sid : SID) : M Kernel (res (list Z) Error) :=
  d <- gets display_state ;;
  if negb (owns_display d pid) then ret (Err AccessDenied)
  else
    _ <- on_display (set_input_focus sid) ;;
    r <- on_display (drain_input_buf (replicate INPUT_BUF_CAP 0)) ;;
    ret (Ok (take r.1 r.2)).

Definition try_acquire_display (pid : PID) (tid : nat) : M Kernel bool :=
  d <- gets display_state ;;
  if is_some (owner d) then _ <- on_display (push_waiter pid (Z.of_nat tid)) ;; ret false
  else
    _ <- on_display (modify (set_owner (Some (pid, Z.of_nat tid)))) ;;
    _ <- map_fb_for pid ;;
    ret true.

(** The hand-off [loop]: every round takes one waiter out of the ring. *)
Fixpoint hand_off (fuel : nat) (row col : Z) : M Kernel unit :=
  match fuel with
  | O => panic
  | Datatypes.S fuel =>
      w <- on_display pop_waiter ;;
      match w with
      | None => ret tt
      | Some (waiter_pid, waiter_tid) =>
          r <- process waiter_pid ;;
          if is_ok r then
            _ <- on_display (modify (set_owner (Some (waiter_pid, waiter_tid)))) ;;
            _ <- map_fb_for waiter_pid ;;
            wake_thread_with_result waiter_pid (Z.to_nat waiter_tid) (R_Scalar2 row col)
          else hand_off fuel row col
      end
  end.
Definition HAND_OFF_FUEL : nat := DISPLAY_WAITER_MAX + 1.

Definition release_display (row col : Z) : M Kernel unit :=
  pid <- current_pid ;;
  d <- gets display_state ;;
  if negb (owns_display d pid) then ret tt
  else
    _ <- on_display (modify (fun d => set_cursor row col (set_owner None d))) ;;
    _ <- unmap_fb_for pid ;;
    hand_off HAND_OFF_FUEL row col.

Definition release_display_on_exit (pid : PID) : M Kernel unit :=
  d <- gets display_state ;;
  if owns_display d pid then
    _ <- on_display (modify (set_owner None)) ;;
    _ <- on_display clear_input_focus ;;
    hand_off HAND_OFF_FUEL (cursor_row d) (cursor_col d)
  else ret tt.

(** [arch::irq::deliver_char_to_sid] *)
Definition ConsoleOp_Char : Z := 0.
Definition deliver_char_to_sid (sid : SID) (c : Z) : M Kernel unit :=
  o <- sidx_from_any_sid sid ;;
  match o with
  | None => ret tt
  | Some sidx =>
      so <- server_from_sidx sidx ;;
      match so with
      | None => ret tt
      | Some server =>
          let server_pid := srv_pid server in
          let msg := Scalar (mkScalarMessage ConsoleOp_Char c 0 0 0) in
          available <- on_server sidx take_available_thread ;;
          match available with
          | Some server_tid =>
              let tid := Z.to_nat server_tid in
              _ <- on_process server_pid (_ <- take_kernel_future tid ;; set_thread_state tid TS_Ready) ;;
              _ <- set_thread_result server_pid tid (R_MessageEnvelope (mkEnvelope 0 msg)) ;; ret tt
          | None =>
              _ <- queue_server_message sidx 1 1 msg None ;;
              _ <- notify_server server_pid ;; ret tt
          end
      end
  end.

(** [arch::irq::dispatch_input_char] *)
Definition dispatch_input_char (c : Z) : M Kernel unit :=
  o <- display_input_sid ;;
  match o with Some sid => deliver_char_to_sid sid c | None => push_display_input_char c end.

(** ** Interrupts *)

Definition irq_slot (irq : nat) : M Kernel IrqHandler :=
  o <- gets (fun k => irq_handlers k !! irq) ;; expect o.
Definition put_irq (irq : nat) (h : IrqHandler) : M Kernel unit :=
  modify (fun k => set_irq_handlers (<[irq := h]> (irq_handlers k)) k).

Definition interrupt_claim_user (irq : nat) (pid : PID) (pc : Z) (arg : option Z) : M Kernel (res unit Error) :=
  h <- irq_slot irq ;;
  match h with
  | Irq_Free => _ <- put_irq irq (Irq_User pid pc arg) ;; ret (Ok tt)
  | _ => ret (Err InterruptInUse)
  end.

Definition interrupt_free (irq : nat) (pid : PID) : M Kernel (res unit Error) :=
  h <- irq_slot irq ;;
  match h with
  | Irq_User p _ _ => if pid =? p then _ <- put_irq irq Irq_Free ;; ret (Ok tt) else ret (Err InterruptNotFound)
  | _ => ret (Err InterruptNotFound)
  end.

Definition release_handler (pid : PID) (h : IrqHandler) : IrqHandler :=
  match h with Irq_User p _ _ => if pid =? p then Irq_Free else h | _ => h end.
Definition release_interrupts_for_pid (pid : PID) : M Kernel unit :=
  modify (fun k => set_irq_handlers (release_handler pid <$> irq_handlers k) k).

(** ** Termination *)

(** [Process::terminate] with its memory, interrupt and context part; the
    mapping leaves the environment when the slot is freed. *)
Definition process_terminate (pid : PID) : M Kernel (res unit Error) :=
  _ <-? on_process pid terminate_threads ;;
  _ <- on_mem (on_mm (release_all_memory_for_process pid)) ;;
  _ <- release_interrupts_for_pid pid ;;
  on_arch (destroy pid).

(** The loop of [terminate_current_process] over the servers [l]. *)
Fixpoint leave_servers (pid : PID) (l : list nat) : M Kernel (res unit Error) :=
  match l with
  | [] => ret (Ok tt)
  | sidx :: l =>
      so <- gets (fun k => servers k !! sidx) ;;
      o <- expect so ;;
      match o with
      | None => leave_servers pid l
      | Some s =>
          if srv_pid s =? pid then _ <- destroy_sidx sidx ;; leave_servers pid l
          else
            _ <- unwrap (activate_process (srv_pid s)) ;;
            _ <- on_server sidx (discard_messages_for_pid pid) ;;
            _ <-? activate_process pid ;;
            leave_servers pid l
      end
  end.

(** The threads of one process that wait for the exit of [pid]. *)
Definition waits_for (pid : PID) (p : Process) (tid : nat) : bool :=
  match kernel_future p tid with Some (KF_WaitProcessExit t) => t =? pid | _ => false end.
Definition exit_waiters (pid : PID) (l : list (option Process)) : list (PID * nat) :=
  flat_map (fun o => match o with
                     | Some p => (fun t => (p_pid p, t)) <$> List.filter (waits_for pid p) (seq 1 (NUM_THREADS - 1))
                     | None => []
                     end) l.

Fixpoint wake_waiters (code : Z) (l : list (PID * nat)) : M Kernel unit :=
  match l with
  | [] => ret tt
  | (pid, tid) :: l => _ <- wake_thread_with_result pid tid (R_Scalar1 code) ;; wake_waiters code l
  end.

Definition remove_process (pid : PID) : M Kernel unit :=
  _ <- free_process pid ;;
  modify (fun k => set_mem_env (mkEnv (delete pid (env_maps (mem_env k))) (delete pid (env_regions (mem_env k)))) k).

Definition orphan (pid : PID) (p : Process) : Process :=
  if bool_decide (p_ppid p = Some pid) then set_ppid None p else p.

Definition terminate_current_process (code : Z) : M Kernel (res XResult Error) :=
  pid <- current_pid ;;
  p <- current_process ;;
  if negb (code =? 0) && bool_decide (p_ppid p = Some 1) then panic
  else
    n <- gets (fun k => length (servers k)) ;;
    _ <-? leave_servers pid (seq 0 n) ;;
    p <- current_process ;;
    _ <- match p_ppid p with
         | Some ppid => _ <- send_event ppid ChildTerminated code 0 0 0 ;; ret tt
         | None => ret tt
         end ;;
    waiting <- gets (fun k => take 64 (exit_waiters pid (processes k))) ;;
    _ <- wake_waiters code waiting ;;
    _ <- release_display_on_exit pid ;;
    _ <-? process_terminate pid ;;
    _ <- remove_process pid ;;
    _ <- unwrap (activate_process 1) ;;
    _ <- for_all_processes (update (orphan pid)) ;;
    activate_current.

Definition terminate_process (caller_tid : nat) (pid : PID) (code : Z) : M Kernel (res XResult Error) :=
  caller_pid <- current_pid ;;
  p <-? process pid ;;
  if bool_decide (p_ppid p = Some 1) then ret (Err AccessDenied)
  else
    _ <-? set_thread_result caller_pid caller_tid R_Ok ;;
    _ <- unwrap (activate_process pid) ;;
    terminate_current_process code.

(** ** Panic messages *)

(** [BufStr::write_str]: what does not fit is dropped. *)
Definition write_str (buf s : list Z) : list Z := buf ++ take (PANIC_MESSAGE_SIZE - length buf) s.

Definition append_panic_message (msg : list Z) : M Kernel (res unit Error) :=
  pid <- current_pid ;;
  _ <- modify (fun k => if bool_decide (panic_message_pid k = Some pid) then k else set_panic [] (Some pid) k) ;;
  if negb (utf8_valid msg) then ret (Err InvalidString)
  else
    _ <- modify (fun k => set_panic (write_str (panic_message k) msg) (panic_message_pid k) k) ;;
    ret (Ok tt).

Definition take_panic_message : M Kernel (option PID * list Z) :=
  pid <- gets panic_message_pid ;;
  msg <- gets panic_message ;;
  _ <- modify (fun k => set_panic (panic_message k) None k) ;;
  ret (pid, msg).

End Kernel.
