(* ===== verification/Spawn.v ===== *)
(** * Creating processes

    Models the part of [xous/kernel/src/services.rs] that creates processes
    ([init_pid1], [create_process], [spawn_by_name], [spawn_by_name_with_args]),
    [Process::create] of [arch/aarch64/process.rs], the table of embedded
    programs and the launch of the first processes of [arch/aarch64/boot.rs], and
    [map_range_readonly_mirror] of [mem.rs].

    A program is the bytes from its start on with their length ([Elf]).  The
    contents of user pages are not part of [Kernel]: a load starts from any
    contents ([pg_mem]) and what it wrote is what [Elf.segments_loaded] describes.
    Process names are only printed and are left out; [set_name] cannot fail for
    the 64 bytes that are passed. *)

From Stdlib Require Import ZArith Lia Bool.
From stdpp Require Import gmap.
From S2P Require Import Prelude Abi SysCall Scheduler Server Memory PageTable MemMap Process ArchProcess Display Bytes Elf Services.
Open Scope Z_scope.

Definition STACK_PAGE_COUNT : Z := 256.
Definition USER_STACK_BOTTOM : Z := 123076582834176. (* 0x6FF0_0000_0000 *)
Definition USER_IRQ_STACK_PAGE_COUNT : Z := 3.
Definition USER_IRQ_STACK_BOTTOM : Z := 123007863357440. (* 0x6FE0_0000_0000 *)
Definition KERNEL_STACK_BOTTOM : Z := 18446744073709027328. (* 0xFFFF_FFFF_FFF8_0000 *)
Definition KERNEL_STACK_PAGE_COUNT : Z := 16.
Definition SHELL_UART_VA : Z := 68736253952. (* 0x10_0100_0000 *)
Definition UART_PHYS : Z := 150994944. (* 0x0900_0000 *)
Definition ARGV_PAGE_VA : Z := 68769808384. (* 0x10_0300_0000 *)
Definition ARGV_MAX_LEN : Z := PAGE_SIZE.
Definition ARGV_BUF : Z := 256.
Definition DISK_DATA_VA : Z := 68753031168. (* 0x10_0200_0000 *)
Definition SECTOR_SIZE : Z := 512.

Record Program := mkProgram { pg_img : image; pg_len : Z; pg_mem : Z -> Z }.

(** The embedded programs and the names among them that users cannot list. *)
Definition BinaryTable : Type := list (list Z * Program).

Fixpoint lookup_binary (table : BinaryTable) (name : list Z) : option Program :=
  match table with
  | [] => None
  | (entry_name, elf) :: table => if bool_decide (entry_name = name) then Some elf else lookup_binary table name
  end.

Definition INTERNAL_SERVICES : list (list Z) :=
  [[108; 111; 103]; [105; 100; 108; 101]; [115; 104; 101; 108; 108]; [112; 114; 111; 99; 109; 97; 110]; [102; 115];
   [98; 101; 101; 116; 111; 115; 45; 116; 101; 115; 116]].

Fixpoint user_binary_at (table : BinaryTable) (index user_idx : Z) : option (list Z) :=
  match table with
  | [] => None
  | (name, _) :: table =>
      if bool_decide (name ∈ INTERNAL_SERVICES) then user_binary_at table index user_idx
      else if user_idx =? index then Some name else user_binary_at table index (user_idx + 1)
  end.
Definition get_user_binary_at (table : BinaryTable) (index : Z) : option (list Z) := user_binary_at table index 0.

Section Spawn.
Context {P : Platform} {S G : Type} {RQ : ReadyQueues S G}.
Notation K := (Kernel (S := S)).

(** An operation of the page tables; the contents of user pages are dropped. *)
Definition on_tables {X} (op : M (VM (A := MemoryManager)) X) : M K X := on_mem (on_vm op).
Definition on_loader {X} (mem : Z -> Z) (op : M (LS (A := MemoryManager)) X) : M K X :=
  on_tables (fun v => match op (mkLS v mem) with Some (x, s) => Some (x, ls_vm s) | None => None end).

(** The loops of [Process::create] that map the two stacks. *)
Fixpoint map_stack (m : MemoryMapping) (pid : PID) (l : list Z) : M K (res unit Error) :=
  match l with
  | [] => ret (Ok tt)
  | va :: l =>
      r <- on_tables (alloc_page pid) ;;
      match r with
      | Err _ => ret (Err OutOfMemory)
      | Ok (phys, _) => _ <-? on_tables (map_page m phys va MF_W true) ;; map_stack m pid l
      end
  end.

Definition fresh_impl : ProcessImpl :=
  mkImpl (<[(INITIAL_TID - 1)%nat := set_allocated true Thread_default]> (replicate THREAD_SLOTS Thread_default)) INITIAL_TID.

(** [Process::create]; the mapping is that of the process already in the table. *)
Definition arch_create (random : Z) (prog : Program) (pid : PID) : M K (res ProcessStartup Error) :=
  if (PROCESS_SLOTS <=? table_index pid)%nat then ret (Err OutOfMemory)
  else
    o <- on_arch (table_get pid) ;;
    if is_some o then ret (Err ProcessNotFound)
    else
      _ <- on_arch (table_set pid (Some fresh_impl)) ;;
      _ <-? process pid ;;
      E <- gets mem_env ;;
      m <- expect (env_maps E !! pid) ;;
      elf <-? on_loader (pg_mem prog) (load_elf random (pg_img prog) (pg_len prog) pid m) ;;
      let stack_size := STACK_PAGE_COUNT * PAGE_SIZE in
      let stack_base := USER_STACK_BOTTOM - stack_size in
      stack <-? ret (MemoryRange_new stack_base stack_size) ;;
      _ <-? map_stack m pid (page_steps stack_base USER_STACK_BOTTOM) ;;
      let irq_base := USER_IRQ_STACK_BOTTOM - USER_IRQ_STACK_PAGE_COUNT * PAGE_SIZE in
      _ <-? map_stack m pid (page_steps irq_base USER_IRQ_STACK_BOTTOM) ;;
      _ <-? on_arch (setup_process pid (entry_point elf) stack) ;;
      ret (Ok pid).

(** Putting a process with a mapping into the table. *)
Definition insert_process (slot : nat) (p : Process) (m : MemoryMapping) : M K unit :=
  modify (fun k =>
    set_mem_sys (mkSys (sys_vm (mem_sys k)) (<[p_pid p := MMAP_AREA_VIRT]> (hints (mem_sys k))))
      (set_mem_env (mkEnv (<[p_pid p := m]> (env_maps (mem_env k))) (<[p_pid p := []]> (env_regions (mem_env k))))
        (set_processes (<[slot := Some p]> (processes k)) k))).

(** An operation on a process that is not in the table yet. *)
Definition on_new (p : Process) (m : M (PS (S := S)) unit) : M K Process :=
  fun k => match m (mkPS p (sched k)) with
           | Some (_, s) => Some (ps_proc s, set_sched (ps_sched s) k)
           | None => None
           end.

Definition create_process (random : Z) (prog : Program) (app_id : AppId) : M K (res ProcessStartup Error) :=
  ppid <- current_pid ;;
  l <- gets processes ;;
  match position (fun o => negb (is_some o)) l with
  | None => ret (Err OutOfMemory)
  | Some slot =>
      let pid := Z.of_nat slot + 1 in
      m <-? on_tables (allocate (mkMapping 0 0 0) pid) ;;
      p <- on_new (Process_new pid ppid app_id) (set_thread_state INITIAL_TID TS_Ready) ;;
      _ <- insert_process slot p m ;;
      startup <- unwrap (arch_create random prog pid) ;;
      ret (Ok startup)
  end.

Definition U64_MAX : Z := 2 ^ 64 - 1.

Definition set_permissions (pid : PID) (mask : Z) : M K (res unit Error) :=
  on_process pid (update (set_syscall_permissions mask)).

(** Mapping the UART page, whose failure is ignored. *)
Definition map_uart (pid : PID) : M K (res unit Error) :=
  o <- mapping_of pid ;;
  m <- expect o ;;
  on_tables (map_page m UART_PHYS SHELL_UART_VA (Z.lor MF_W MF_DEV) true).

Definition no_app_id : AppId := AppId_from_words 0 0 0 0.

Definition spawn_by_name (table : BinaryTable) (random : Z) (name : list Z) : M K (res PID Error) :=
  match lookup_binary table name with
  | None => ret (Err ProcessNotFound)
  | Some prog =>
      pid <-? create_process random prog no_app_id ;;
      _ <-? set_permissions pid U64_MAX ;;
      _ <- map_uart pid ;;
      _ <- on_arch (set_thread_args pid SHELL_UART_VA 0 0) ;;
      ret (Ok pid)
  end.

(** Copying the arguments: the length that was copied.  The caller's page is
    found through its page tables; at most [ARGV_BUF] bytes, within that page. *)
Definition copy_argv (pid : PID) (argv_ptr argv_len : Z) : M K (res Z Error) :=
  let use_len := Z.min (Z.min argv_len ARGV_MAX_LEN) ARGV_BUF in
  caller <- current_pid ;;
  r <- process caller ;;
  match r with
  | Err _ => ret (Err InternalError)
  | Ok _ =>
      E <- gets mem_env ;;
      cm <- expect (env_maps E !! caller) ;;
      t <- gets (fun k => vm_tables (sys_vm (mem_sys k))) ;;
      match virt_to_phys t cm argv_ptr with
      | Err _ => ret (Err BadAddress)
      | Ok _ =>
          let safe_len := Z.min use_len (PAGE_SIZE - Z.land argv_ptr (PAGE_SIZE - 1)) in
          page <-? on_tables (alloc_page pid) ;;
          o <- mapping_of pid ;;
          m <- expect o ;;
          r <- on_tables (map_page m page.1 ARGV_PAGE_VA 0 true) ;;
          ret (match r with Ok _ => Ok safe_len | Err _ => Err InternalError end)
      end
  end.

Definition spawn_by_name_with_args (table : BinaryTable) (random : Z) (name : list Z) (argv_ptr argv_len : Z)
  : M K (res PID Error) :=
  match lookup_binary table name with
  | None => ret (Err ProcessNotFound)
  | Some prog =>
      pid <-? create_process random prog no_app_id ;;
      _ <-? set_permissions pid U64_MAX ;;
      _ <- map_uart pid ;;
      actual <-? (if negb (argv_ptr =? 0) && (0 <? argv_len) then copy_argv pid argv_ptr argv_len else ret (Ok 0)) ;;
      _ <- on_arch (set_thread_args pid SHELL_UART_VA (if 0 <? actual then ARGV_PAGE_VA else 0) actual) ;;
      ret (Ok pid)
  end.

(** ** Boot *)

(** [SYSTEM_SERVICES] before the first process. *)
Definition kernel_init (q : S) (mem : Sys) : K :=
  mkKernel (replicate PROCESS_SLOTS None) (replicate MAX_SERVER_COUNT None) [] None DisplayState_new q arch_init
    (replicate IRQ_COUNT Irq_Free) (mkEnv ∅ ∅) mem.

Definition PID1_APP_ID : AppId := AppId_from_words 826558800 0 0 0. (* "PID1" *)

Definition init_pid1 (m : MemoryMapping) : M K unit :=
  p <- on_new (Process_new 1 1 PID1_APP_ID)
         (_ <- set_thread_priority INITIAL_TID Idle ;;
          _ <- set_thread_state INITIAL_TID TS_Ready ;;
          update (set_syscall_permissions U64_MAX)) ;;
  _ <- insert_process 0 p m ;;
  stack <- (match MemoryRange_new (KERNEL_STACK_BOTTOM - KERNEL_STACK_PAGE_COUNT * PAGE_SIZE) (KERNEL_STACK_PAGE_COUNT * PAGE_SIZE) with
            | Ok r => ret r | Err _ => panic end) ;;
  unwrap (on_arch (setup_process 1 0 stack)).

(** [create_elf_process] *)
Definition create_elf_process (random : Z) (pid : PID) (prog : Program) : M K unit :=
  _ <- unwrap (create_process random prog (AppId_from_words (u32 pid) 0 0 0)) ;;
  unwrap (set_permissions pid U64_MAX).

Fixpoint create_all (random : Z) (l : list (PID * Program)) : M K unit :=
  match l with
  | [] => ret tt
  | (pid, prog) :: l => _ <- create_elf_process random pid prog ;; create_all random l
  end.
Fixpoint map_uart_all (l : list PID) : M K unit :=
  match l with [] => ret tt | pid :: l => _ <- unwrap (map_uart pid) ;; map_uart_all l end.

(** The pages of the disk: allocated for the kernel one by one, going on after a
    failure; [None] if one of them failed. *)
Fixpoint alloc_disk (n : nat) : M K (option (list Z)) :=
  match n with
  | O => ret (Some [])
  | Datatypes.S n =>
      r <- on_tables (alloc_page 1) ;;
      rest <- alloc_disk n ;;
      ret (match r, rest with Ok (pa, _), Some l => Some (pa :: l) | _, _ => None end)
  end.

Fixpoint map_disk (m : MemoryMapping) (va : Z) (l : list Z) : M K unit :=
  match l with
  | [] => ret tt
  | pa :: l => _ <- on_tables (map_page m pa va 0 true) ;; map_disk m (va + PAGE_SIZE) l
  end.

(** [disk] is the capacity in sectors of the block device, if there is one, and
    whether reading it succeeded. *)
Definition load_disk (fs_pid : PID) (disk : option (Z * bool)) : M K (Z * Z) :=
  match disk with
  | None => ret (0, 0)
  | Some (capacity, read_ok) =>
      let disk_bytes := capacity * SECTOR_SIZE in
      let disk_pages := (disk_bytes + PAGE_SIZE - 1) / PAGE_SIZE in
      if (0 <? disk_pages) && (disk_pages <=? 256) then
        o <- alloc_disk (Z.to_nat disk_pages) ;;
        match o with
        | None => ret (0, 0)
        | Some l =>
            if read_ok : bool then
              mo <- mapping_of fs_pid ;;
              m <- expect mo ;;
              _ <- map_disk m DISK_DATA_VA l ;;
              ret (DISK_DATA_VA, disk_bytes)
            else ret (0, 0)
        end
      else ret (0, 0)
  end.

(** [launch_first_process], up to the return to user mode in the shell. *)
Definition launch_first_process (random : Z) (log procman shell fs : Program) (disk : option (Z * bool)) : M K unit :=
  _ <- create_all random [(2, log); (3, procman); (4, shell); (5, fs)] ;;
  _ <- map_uart_all [2; 3; 4; 5] ;;
  d <- load_disk 5 disk ;;
  _ <- on_arch (set_thread_arg0 2 SHELL_UART_VA) ;;
  _ <- on_arch (set_thread_arg0 3 SHELL_UART_VA) ;;
  _ <- on_arch (set_thread_arg0 4 SHELL_UART_VA) ;;
  _ <- on_arch (set_thread_args 5 SHELL_UART_VA d.1 d.2) ;;
  _ <- on_arch (set_current_pid 4) ;;
  unwrap (activate_process 4).

(** ** Mirrors *)

Fixpoint unmap_mirror (m : MemoryMapping) (virt : Z) (l : list Z) : M K unit :=
  match l with [] => ret tt | o :: l => _ <- on_tables (unmap_page m (o + virt)) ;; unmap_mirror m virt l end.

(** [done] are the offsets already mapped. *)
Fixpoint mirror_loop (m : MemoryMapping) (phys virt : Z) (done l : list Z) : M K (res unit Error) :=
  match l with
  | [] => ret (Ok tt)
  | o :: l =>
      r <- on_tables (map_page m (o + phys) (o + virt) 0 true) ;;
      match r with
      | Err e => _ <- unmap_mirror m virt done ;; ret (Err e)
      | Ok _ => mirror_loop m phys virt (done ++ [o]) l
      end
  end.

(** [checked_next_multiple_of(PAGE_SIZE).unwrap_or(next)] *)
Definition next_mirror (virt size : Z) : Z :=
  let next := Z.min (virt + size) U64_MAX in
  let up := page_down (next + PAGE_SIZE - 1) in
  if up <? 2 ^ 64 then up else next.

Definition map_range_readonly_mirror (pid : PID) (phys size : Z) : M K (res MemoryRange Error) :=
  p <-? process pid ;;
  E <- gets mem_env ;;
  m <- expect (env_maps E !! pid) ;;
  let virt := next_mirror_address p in
  _ <-? mirror_loop m phys virt [] (page_steps 0 size) ;;
  _ <-? on_process pid (update (set_mirror (next_mirror virt size))) ;;
  ret (MemoryRange_new virt size).

(** Whether the pages of a range are contiguous in memory. *)
Fixpoint contiguous (t : gmap Z (gmap Z Z)) (m : MemoryMapping) (expected : Z) (l : list Z) : res unit Error :=
  match l with
  | [] => Ok tt
  | page :: l =>
      phys <-! virt_to_phys t m page ;;
      if negb (phys =? expected) then Err AccessDenied else contiguous t m (expected + PAGE_SIZE) l
  end.

(** Reading the page tables of the running process. *)
Definition translate {X} (f : gmap Z (gmap Z Z) -> MemoryMapping -> X) : M K X :=
  with_mm (fun _ _ cur => gets (fun y => f (vm_tables (sys_vm y)) cur)).

Definition sys_mirror_memory (mem : MemoryRange) (pid : PID) : M K (res XResult Error) :=
  phys <-? translate (fun t cur => virt_to_phys t cur (range_addr mem)) ;;
  stop <- add64 (range_addr mem) (range_size mem) ;;
  _ <-? translate (fun t cur => contiguous t cur phys (page_steps (range_addr mem) stop)) ;;
  _ <-? process pid ;;
  range <-? map_range_readonly_mirror pid phys (range_size mem) ;;
  ret (Ok (R_MemoryRange range)).

End Spawn.
