(* ===== verification/Handler.v ===== *)
(** * The system call handler

    Models [xous/kernel/src/syscall.rs]: receiving and answering messages, the
    permission check and [handle], on the hardware configuration in production
    mode ([DebugCommand] does not exist there).

    [Input] holds what a call reads from outside the kernel: the word a futex
    address holds, a freshly drawn server identifier and random word, the network
    addresses of the board, the embedded programs, the file [CreateProcess]
    points to, the contents of unused pages, and what the page populated for a
    server queue reads as.  [Shutdown] never returns, like
    a panic. *)

From Stdlib Require Import ZArith Lia Bool.
From stdpp Require Import gmap.
From S2P Require Import Prelude Abi SysCall Scheduler Server Memory PageTable MemMap Process ArchProcess Display Bytes Elf Services Spawn.
Open Scope Z_scope.

Section Handler.
Context {P : Platform} {S G : Type} {RQ : ReadyQueues S G}.
Notation K := (Kernel (S := S)).

Record Input := mkInput {
  in_word : Z;
  in_sid : SID;
  in_random : Z;
  in_net : XResult;
  in_table : BinaryTable;
  in_image : image;
  in_mem : Z -> Z;
  in_page : nat -> QueuedMessage }.

(** ** Messages *)

Definition send_message (sender_tid : nat) (cid : CID) (message : Message) : M K (res XResult Error) :=
  c <-? connected cid ;;
  let '(sidx, permissions) := c in
  so <- server_from_sidx sidx ;;
  server <- expect so ;;
  pid <- current_pid ;;
  if negb (srv_pid server =? pid) && negb (is_permitted permissions (message_id message)) then ret (Err AccessDenied)
  else
    _ <-? send_message_inner sender_tid sidx message ;;
    _ <-? (if is_blocking message
           then _ <- suspend_with_future sender_tid KF_WaitBlocking EVENT_KERNEL ;; ret (Ok tt)
           else pid <- current_pid ;; set_thread_result pid sender_tid R_Ok) ;;
    activate_current.

(** The server a reply names, if the caller owns it. *)
Definition reply_server (sender : SenderID) : M K (res Server Error) :=
  so <- server_from_sidx (Z.to_nat (snd_sidx sender)) ;;
  pid <- current_pid ;;
  ret (match so with
       | Some s => if srv_pid s =? pid then Ok s else Err ServerNotFound
       | None => Err ServerNotFound
       end).

(** Taking the reply slot out of the server, shared by both kinds of reply. *)
Definition take_reply (sender : SenderID) (buf : option MemoryRange) : M K (res WaitingMessage Error) :=
  server <-? reply_server sender ;;
  let sidx := Z.to_nat (snd_sidx sender) in
  result <-? on_server sidx (take_waiting_message (Z.to_nat (snd_idx sender)) buf) ;;
  _ <- wake_if_unfull sidx (is_queue_full server) ;;
  ret (Ok result).

Definition finish_reply (server_tid : nat) : M K (res XResult Error) :=
  pid <- current_pid ;;
  _ <-? set_thread_result pid server_tid R_Ok ;;
  activate_current.

Definition sys_return_memory (server_tid : nat) (token : MessageSender) (buf : MemoryRange) (offset valid : option Z)
  : M K (res XResult Error) :=
  result <-? take_reply (SenderID_from_usize token) (Some buf) ;;
  _ <-? match result with
        | WM_BorrowedMemory pid tid client_addr =>
            _ <-? with_mm (fun E cp _ => return_memory E cp (range_addr buf) pid client_addr (range_size buf)) ;;
            _ <- wake_thread_with_result pid (Z.to_nat tid) (R_MemoryReturned offset valid) ;; ret (Ok tt)
        | WM_ForgetMemory range => with_mm (fun E _ cur => unmap_range E cur (range_addr range) (range_size range))
        | WM_ScalarMessage _ _ | WM_ScalarMessageTerminated | WM_None => ret (Err DoubleFree)
        end ;;
  finish_reply server_tid.

Definition return_result (server_tid : nat) (token : MessageSender) (return_value : XResult) : M K (res XResult Error) :=
  result <-? take_reply (SenderID_from_usize token) None ;;
  _ <-? match result with
        | WM_ScalarMessage pid tid => _ <- wake_thread_with_result pid (Z.to_nat tid) return_value ;; ret (Ok tt)
        | WM_ScalarMessageTerminated => ret (Ok tt)
        | WM_ForgetMemory _ | WM_BorrowedMemory _ _ _ | WM_None => ret (Err DoubleFree)
        end ;;
  finish_reply server_tid.

Definition receive_message (tid : nat) (sid : SID) (blocking : bool) : M K (res XResult Error) :=
  pid <- current_pid ;;
  o <- sidx_from_sid sid pid ;;
  match o with
  | None => ret (Err ServerNotFound)
  | Some sidx =>
      so <- server_from_sidx sidx ;;
      match so with
      | None => ret (Err ServerNotFound)
      | Some server =>
          if negb (srv_pid server =? pid) then ret (Err ServerNotFound)
          else
            m <- on_server sidx (take_next_message sidx) ;;
            match m with
            | Some msg => _ <- wake_if_unfull sidx (is_queue_full server) ;; ret (Ok (R_MessageEnvelope msg))
            | None =>
                if negb blocking then ret (Ok R_None)
                else
                  _ <- on_server sidx (Server.park_thread (Z.of_nat tid)) ;;
                  _ <- suspend_with_future tid (KF_ReceiveMessage (Z.of_nat sidx)) EVENT_SERVER_MSG ;;
                  activate_current
            end
      end
  end.

(** ** Permissions *)

Definition is_permitted_by_mask (call : SysCall) : M K (res unit Error) :=
  p <- current_process ;;
  ret (if negb (Z.land (syscall_permissions p) (Z.shiftl 1 (nth 0 (as_args call) 0)) =? 0)
       then Ok tt else Err AccessDenied).

(** Calls that need their bit in the permission mask. *)
Definition privileged (call : SysCall) : bool :=
  match call with
  | SetThreadPriority prio => negb (ThreadPriority_as_usize prio <? ThreadPriority_as_usize System0)
  | ClaimInterrupt _ _ _ | FreeInterrupt _ | CreateProcess _ | Shutdown _ | PowerManagement _ | TerminatePid _ _
  | GetSystemStats _ | GetPanicMessage _ | VirtToPhys _ | VirtToPhysPid _ _ | DebugCommand _ _
  | SpawnByName _ _ _ _ | SpawnByNameWithArgs _ _ _ _ | WaitProcess _ => true
  | _ => false
  end.

(** [AllowMessagesCID]: whether the named connection leads to the caller. *)
Definition server_is_current (pid : PID) (cid : CID) : M K (res bool Error) :=
  p <-? process pid ;;
  if cid <? 2 then ret (Err ServerNotFound)
  else match connection_map p !! Z.to_nat (cid - 2) with
       | Some (CS_Connected sidx _ _) =>
           so <- server_from_sidx (Z.to_nat sidx) ;;
           cur <- current_pid ;;
           ret (match so with Some s => Ok (srv_pid s =? cur) | None => Err ServerNotFound end)
       | _ => ret (Err ServerNotFound)
       end.

Definition check_syscall_permission (call : SysCall) : M K (res unit Error) :=
  match call with
  | AllowMessagesSID sid _ =>
      pid <- current_pid ;;
      o <- sidx_from_sid sid pid ;;
      if is_some o then ret (Ok tt) else is_permitted_by_mask call
  | AllowMessagesCID pid cid _ =>
      own <-? server_is_current pid cid ;;
      if own : bool then ret (Ok tt) else is_permitted_by_mask call
  | Invalid _ _ _ _ _ _ _ => ret (Err UnhandledSyscall)
  | _ => if privileged call then is_permitted_by_mask call else ret (Ok tt)
  end.

(** ** The calls *)

(** [.map(f)] of a result *)
Definition map_ok {A} (f : A -> XResult) (m : M K (res A Error)) : M K (res XResult Error) :=
  r <- m ;; ret (res_map f r).

Definition sys_futex_wait (i : Input) (tid : nat) (addr val : Z) : M K (res XResult Error) :=
  if negb (Z.land addr 7 =? 0) then ret (Err BadAlignment)
  else
    range <-? ret (MemoryRange_new addr 8) ;;
    _ <-? with_mm (fun _ _ cur => check_range_accessible cur range) ;;
    if negb (val =? in_word i) then ret (Err Again)
    else
      pid <- current_pid ;;
      _ <-? set_thread_result pid tid R_Ok ;;
      _ <- suspend_with_future tid (KF_WaitFutex addr) EVENT_KERNEL ;;
      activate_current.

Definition is_futex_waiter (p : Process) (addr : Z) (tid : nat) : bool :=
  match kernel_future p tid with Some (KF_WaitFutex a) => a =? addr | _ => false end.

Fixpoint futex_wake_loop (addr remaining : Z) (l : list nat) : M (PS (S := S)) unit :=
  match l with
  | [] => ret tt
  | w :: l =>
      if remaining =? 0 then ret tt
      else
        p <- gets ps_proc ;;
        if is_futex_waiter p addr w then
          _ <- set_mailbox w R_Ok ;; _ <- set_thread_state w TS_Ready ;; futex_wake_loop addr (remaining - 1) l
        else futex_wake_loop addr remaining l
  end.

Definition sys_futex_wake (addr n : Z) : M K (res XResult Error) :=
  _ <- on_current (futex_wake_loop addr n (seq 1 (NUM_THREADS - 1))) ;; ret (Ok R_Ok).

Definition sys_yield (tid : nat) : M K (res XResult Error) :=
  pid <- current_pid ;;
  _ <-? set_thread_result pid tid R_Ok ;;
  prio <- on_current (thread_priority tid) ;;
  pid <- current_pid ;;
  _ <- on_scheduler (rq_yield pid (Z.of_nat tid) prio) ;;
  activate_current.

Definition sys_set_thread_priority (tid : nat) (priority : ThreadPriority) : M K (res XResult Error) :=
  if bool_decide (priority = Idle) then ret (Err InvalidArguments)
  else
    _ <- on_current (set_thread_priority tid priority) ;;
    pid <- current_pid ;;
    _ <-? set_thread_result pid tid R_Ok ;;
    activate_current.

Definition sys_wait_event (tid : nat) (mask : Z) : M K (res XResult Error) :=
  if mask =? 0 then ret (Err InvalidArguments)
  else
    fired <- on_current (take_notification_bits_masked mask) ;;
    if negb (fired =? 0) then ret (Ok (R_Scalar1 fired))
    else
      pid <- current_pid ;;
      _ <-? set_thread_result pid tid R_Ok ;;
      _ <- on_current (set_thread_state tid (TS_WaitEvent mask)) ;;
      activate_current.

Definition sys_post_event (target_pid : PID) (bits : Z) : M K (res XResult Error) :=
  if bits =? 0 then ret (Ok R_Ok)
  else
    pid <- current_pid ;;
    if negb (target_pid =? pid) then ret (Err AccessDenied)
    else
      woken <-? on_process target_pid (post_notification_bits bits) ;;
      _ <- match woken with
           | Some (tid, fired) => _ <- set_thread_result target_pid tid (R_Scalar1 fired) ;; ret tt
           | None => ret tt
           end ;;
      ret (Ok R_Ok).

Definition sys_wait_process (tid : nat) (target_pid : PID) : M K (res XResult Error) :=
  r <- process target_pid ;;
  if is_ok r then
    _ <- suspend_with_future tid (KF_WaitProcessExit target_pid) EVENT_KERNEL ;; activate_current
  else ret (Ok (R_Scalar1 0)).

Definition sys_acquire_display (tid : nat) : M K (res XResult Error) :=
  pid <- current_pid ;;
  c <- display_cursor ;;
  granted <- try_acquire_display pid tid ;;
  if granted : bool then ret (Ok (R_Scalar2 c.1 c.2))
  else _ <- suspend_with_future tid KF_WaitDisplay EVENT_KERNEL ;; activate_current.

Fixpoint deliver_chars (sid : SID) (l : list Z) : M K unit :=
  match l with [] => ret tt | c :: l => _ <- deliver_char_to_sid sid c ;; deliver_chars sid l end.

Definition sys_acquire_input_focus (sid : SID) : M K (res XResult Error) :=
  pid <- current_pid ;;
  chars <-? acquire_input_focus pid sid ;;
  _ <- deliver_chars sid chars ;; ret (Ok R_Ok).

Definition sys_allow_messages_sid (sid : SID) (messages : MsgRange) : M K (res XResult Error) :=
  pid <- current_pid ;;
  o <- sidx_from_sid sid pid ;;
  match o with
  | None => ret (Err ServerNotFound)
  | Some sidx =>
      on_server sidx (fun s => match permissions_add messages (default_permissions s) with
                               | Some (r, p) => Some (r, set_default_permissions p s)
                               | None => None
                               end)
  end.

Definition allow_on_connection (cid : CID) (messages : MsgRange) : M (PS (S := S)) (res XResult Error) :=
  l <- gets (fun s => connection_map (ps_proc s)) ;;
  match l !! Z.to_nat (cid - 2) with
  | Some (CS_Connected sidx rc pm) =>
      match permissions_add messages pm with
      | Some (r, pm') =>
          _ <- update (set_connections (<[Z.to_nat (cid - 2) := CS_Connected sidx rc pm']> l)) ;; ret r
      | None => panic
      end
  | _ => ret (Err ServerNotFound)
  end.

Definition sys_allow_messages_cid (pid : PID) (cid : CID) (messages : MsgRange) : M K (res XResult Error) :=
  if cid <? 2 then ret (Err ServerNotFound)
  else r <-? on_process pid (allow_on_connection cid messages) ;; ret r.

Definition sys_get_remote_process_id (cid : CID) : M K (res XResult Error) :=
  c <-? connected cid ;;
  so <- server_from_sidx c.1 ;;
  ret (match so with Some s => Ok (R_ProcessID (srv_pid s)) | None => Err ServerNotFound end).

Definition sys_send_message (tid : nat) (cid : CID) (message : Message) : M K (res XResult Error) :=
  r <- send_message tid cid message ;;
  match r with
  | Err ServerQueueFull =>
      c <-? connected cid ;; retry_syscall tid (TS_RetryQueueFull (Z.of_nat c.1))
  | _ => ret r
  end.

(** [vaddr & !(PAGE_SIZE - 1)] translated, with the offset put back *)
Definition translated (t : gmap Z (gmap Z Z)) (m : MemoryMapping) (vaddr : Z) : res XResult Error :=
  res_map (fun pa => R_Scalar1 (Z.lor pa (Z.land vaddr (PAGE_SIZE - 1))))
    (virt_to_phys t m (Z.ldiff vaddr (PAGE_SIZE - 1))).

Definition sys_virt_to_phys (vaddr : Z) : M K (res XResult Error) :=
  with_mm (fun _ _ cur => gets (fun y => translated (vm_tables (sys_vm y)) cur vaddr)).

Definition sys_virt_to_phys_pid (pid : PID) (vaddr : Z) : M K (res XResult Error) :=
  o <- mapping_of pid ;;
  match o with
  | Some m => on_mem (gets (fun y => translated (vm_tables (sys_vm y)) m vaddr))
  | None => ret (Err ProcessNotFound)
  end.

Definition sys_get_app_id (pid : PID) : M K (res XResult Error) :=
  r <- process pid ;;
  ret (Ok (match r with
           | Ok p => match AppId_to_words (p_app_id p) with
                     | [w0; w1; w2; w3] => R_Scalar5 w0 w1 w2 w3 1
                     | _ => R_Scalar5 0 0 0 0 1
                     end
           | Err _ => R_Scalar5 0 0 0 0 0
           end)).

(** The first [len] of the 48 bytes of six words, little-endian. *)
Definition message_bytes (len : Z) (words : list Z) : list Z :=
  take (Z.to_nat (Z.min len 48)) (flat_map (to_le_bytes 8) words).

Definition sys_get_panic_message (buf : MemoryRange) : M K (res XResult Error) :=
  _ <-? with_mm (fun _ _ cur => check_range_accessible cur buf) ;;
  r <- take_panic_message ;;
  ret (Ok (R_Scalar2 (get_or_0 r.1) (Z.min (Z.of_nat (length r.2)) (range_size buf)))).

Definition sys_get_binary_name (i : Input) (index : Z) : M K (res XResult Error) :=
  ret (match get_user_binary_at (in_table i) index with
       | Some name => match pack_words 4 name with
                      | [w0; w1; w2; w3] => Ok (R_Scalar5 w0 w1 w2 w3 0)
                      | _ => Err ProcessNotFound
                      end
       | None => Err ProcessNotFound
       end).

Definition sys_interrupt (no : Z) (f : nat -> PID -> M K (res unit Error)) : M K (res XResult Error) :=
  match IrqNumber_try_from no with
  | Ok irq => pid <- current_pid ;; map_ok (fun _ => R_Ok) (f irq pid)
  | Err _ => ret (Err InvalidArguments)
  end.

(** The name packed into words, up to the first NUL. *)
Definition unpack_name (words : list Z) : list Z := until_nul (word_bytes words).

Definition sys_spawn (name : list Z) (spawn : list Z -> M K (res PID Error)) : M K (res XResult Error) :=
  if utf8_valid name then map_ok R_ProcessID (spawn name) else ret (Err InvalidString).

Definition handle (i : Input) (tid : nat) (call : SysCall) : M K (res XResult Error) :=
  if (tid =? 0)%nat && negb (can_call_from_interrupt call) then ret (Err InvalidSyscall)
  else
    _ <-? check_syscall_permission call ;;
    match call with
    | MapMemory phys virt size flags => with_mm (fun E pid cur => sys_map_memory E pid cur phys virt size flags)
    | UnmapMemory range => with_mm (fun E pid cur => sys_unmap_memory E pid cur range)
    | IncreaseHeap size => with_mm (fun E pid cur => sys_increase_heap E pid cur size)
    | ClaimInterrupt no callback arg => sys_interrupt no (fun irq pid => interrupt_claim_user irq pid callback arg)
    | FreeInterrupt no => sys_interrupt no interrupt_free
    | FutexWait addr val => sys_futex_wait i tid addr val
    | FutexWake addr n => sys_futex_wake addr n
    | Yield => sys_yield tid
    | SetThreadPriority priority => sys_set_thread_priority tid priority
    | ReceiveMessage sid => receive_message tid sid true
    | TryReceiveMessage sid => receive_message tid sid false
    | CreateThread init => map_ok (fun t => R_ThreadID (Z.of_nat t)) (create_thread tid init)
    | CreateServerWithAddress name range => map_ok R_NewServerID (create_server_with_address (in_page i) name range)
    | CreateServer => map_ok R_NewServerID (create_server_with_address (in_page i) (in_sid i) (mkMsgRange 0 0))
    | CreateServerId => ret (Ok (R_ServerID (in_sid i)))
    | TryConnect sid | Connect sid => pid <- current_pid ;; map_ok R_ConnectionID (connect_to_server pid sid)
    | ConnectForProcess pid sid => map_ok R_ConnectionID (connect_to_server pid sid)
    | ReturnMemory sender buf offset valid => sys_return_memory tid sender buf offset valid
    | ReturnScalar1 sender a => return_result tid sender (R_Scalar1 a)
    | ReturnScalar2 sender a b => return_result tid sender (R_Scalar2 a b)
    | ReturnScalar5 sender a b c d e => return_result tid sender (R_Scalar5 a b c d e)
    | TrySendMessage cid message => send_message tid cid message
    | SendMessage cid message => sys_send_message tid cid message
    | TerminateProcess code => terminate_current_process code
    | TerminatePid pid code =>
        p <- current_process ;;
        if pid =? p_pid p then ret (Err InvalidArguments) else terminate_process tid pid code
    | Shutdown _ => panic
    | GetProcessId => pid <- current_pid ;; ret (Ok (R_ProcessID pid))
    | NetGetInfo => ret (Ok (in_net i))
    | GetBinaryName index => sys_get_binary_name i index
    | GetThreadId => ret (Ok (R_ThreadID (Z.of_nat tid)))
    | Disconnect cid => map_ok (fun _ => R_Ok) (disconnect_from_server cid)
    | DestroyServer sid => pid <- current_pid ;; map_ok (fun _ => R_Ok) (destroy_server pid sid)
    | JoinThread other => join_thread tid other
    | GetRemoteProcessId cid => sys_get_remote_process_id cid
    | UpdateMemoryFlags _ _ pid => if is_some pid then ret (Err ProcessNotChild) else panic
    | VirtToPhys vaddr => sys_virt_to_phys vaddr
    | VirtToPhysPid pid vaddr => sys_virt_to_phys_pid pid vaddr
    | GetAppId pid => sys_get_app_id pid
    | AllowMessagesSID sid messages => sys_allow_messages_sid sid messages
    | AllowMessagesCID pid cid messages => sys_allow_messages_cid pid cid messages
    | FlushCache mem _ => _ <-? with_mm (fun _ _ cur => check_range_accessible cur mem) ;; ret (Ok R_Ok)
    | PowerManagement _ => ret (Ok R_Ok)
    | AppIdToPid app_id =>
        o <- pid_from_app_id app_id ;; ret (Ok (match o with Some pid => R_ProcessID pid | None => R_None end))
    | GetSystemStats FreeMemory =>
        k <- gets (fun k => vm_mm (sys_vm (mem_sys k))) ;; ret (Ok (R_Scalar1 (num_free_pages k * PAGE_SIZE)))
    | GetSystemStats IsSystemLowOnMemory =>
        k <- gets (fun k => vm_mm (sys_vm (mem_sys k))) ;; ret (Ok (R_Scalar1 (Z.b2z (low_memory k))))
    | RegisterEventHandler event sid id => map_ok (fun _ => R_Ok) (on_current (set_event_handler event sid id))
    | AppendPanicMessage len a1 a2 a3 a4 a5 a6 =>
        map_ok (fun _ => R_Ok) (append_panic_message (message_bytes len [a1; a2; a3; a4; a5; a6]))
    | GetPanicMessage buf => sys_get_panic_message buf
    | WaitProcess target => sys_wait_process tid target
    | WaitEvent mask => sys_wait_event tid mask
    | PollEvent => bits <- on_current take_notification_bits ;; ret (Ok (R_Scalar1 bits))
    | PostEvent target bits => sys_post_event target bits
    | AcquireDisplay => sys_acquire_display tid
    | ReleaseDisplay row col => _ <- release_display row col ;; ret (Ok R_Ok)
    | AcquireInputFocus a b c d => sys_acquire_input_focus (mkSID a b c d)
    | ReleaseInputFocus => _ <- release_input_focus ;; ret (Ok R_Ok)
    | CreateProcess init =>
        map_ok R_NewProcess (create_process (in_random i) (mkProgram (in_image i) (range_size (pi_elf init)) (in_mem i)) (pi_app_id init))
    | SpawnByName a b c d => sys_spawn (unpack_name [a; b; c; d]) (spawn_by_name (in_table i) (in_random i))
    | SpawnByNameWithArgs a b argv_ptr argv_len =>
        sys_spawn (unpack_name [a; b]) (fun name => spawn_by_name_with_args (in_table i) (in_random i) name argv_ptr argv_len)
    | MirrorMemoryToPid mem pid => sys_mirror_memory mem pid
    | DebugCommand _ _ | Invalid _ _ _ _ _ _ _ => ret (Err UnhandledSyscall)
    end.

End Handler.
