(* ===== verification/KernelInv.v ===== *)
(** * The kernel's invariant

    What holds of the whole kernel between two system calls, and that every
    handler of [Handler] keeps it: the ready queues hold exactly the ready
    threads of live processes, the process that runs is alive, every server
    belongs to a live process and has a well-formed queue, every client that a
    queue promises an answer is alive, and the threads recorded as waiting on a
    server or for the display are real thread numbers.

    The rules [keeps_bind], [keeps_try], ... follow the structure of the code;
    the lemma of each primitive operation is in the hint database [keeps], and
    the tactic [keep] walks through a handler.  A panic keeps everything
    vacuously: the theorems of this file are about the states the kernel goes on
    with. *)

From Stdlib Require Import ZArith Lia Bool.
From stdpp Require Import gmap.
From S2P Require Import Prelude Abi SysCall Scheduler Server Memory PageTable MemMap Process ArchProcess Display Bytes Elf Services Spawn Handler.
Open Scope Z_scope.

Create HintDb keeps.

Lemma bind_try_ok {T X Y E} (m : M T (res X E)) (f : X -> M T (res Y E)) t y t' :
  (x <-? m ;; f x) t = Some (Ok y, t') -> exists x t1, m t = Some (Ok x, t1) /\ f x t1 = Some (Ok y, t').
Proof. unfold bind_try, bind. destruct (m t) as [[[x|e] t1]|]; [eauto|by intros [=]|done]. Qed.

(** ** One server *)

(** The blocked client a slot promises an answer. *)
Definition entry_client (m : QueuedMessage) : option (PID * Z) :=
  match m with
  | QM_BlockingScalarMessage pid tid _ _ _ | QM_WaitingReturnScalar pid tid
  | QM_MemoryMessageROLend pid tid _ _ _ _ _ _ _ | QM_MemoryMessageRWLend pid tid _ _ _ _ _ _ _
  | QM_WaitingReturnMemory pid tid _ _ _ => Some (pid, tid)
  | _ => None
  end.

Definition clients_ok (Q : PID -> Prop) (q : list QueuedMessage) : Prop :=
  forall j m pid tid, q !! j = Some m -> entry_client m = Some (pid, tid) -> Q pid /\ 1 <= tid.

Record server_ok (Q : PID -> Prop) (s : Server) : Prop := {
  so_owner : Q (srv_pid s);
  so_inv : exists idxs, server_inv s idxs;
  so_clients : clients_ok Q (queue s);
  so_ready : forall t, 0 <= t -> Z.testbit (ready_threads s) t = true -> 1 <= t }.

Lemma server_ok_mono (Q Q' : PID -> Prop) s : (forall q, Q q -> Q' q) -> server_ok Q s -> server_ok Q' s.
Proof. intros HQ [Ho Hi Hc Hr]. split; [by apply HQ|done| |done]. intros j m pid tid Hj Hm. destruct (Hc j m pid tid Hj Hm). auto. Qed.

(** Operations that keep a server well formed, with what they return. *)
Definition srv_keeps {A} (Q : PID -> Prop) (m : M Server A) (R : A -> Prop) : Prop :=
  forall s a s', server_ok Q s -> m s = Some (a, s') -> R a /\ server_ok Q s'.

Lemma clients_insert Q q i m : clients_ok Q q ->
  (forall pid tid, entry_client m = Some (pid, tid) -> Q pid /\ 1 <= tid) -> clients_ok Q (<[i := m]> q).
Proof.
  intros Hq Hm j m' pid tid. rewrite list_lookup_insert_Some. intros [(_ & <- & _)|[_ Hj]]; [apply Hm|by apply (Hq j)].
Qed.

Lemma server_inv_ready r s idxs : server_inv s idxs -> server_inv (set_ready_threads r s) idxs.
Proof. by intros []. Qed.

Lemma take_thread_loop_Some fuel n s o s' : 0 <= n -> take_thread_loop fuel n s = Some (o, s') ->
  exists t, o = Some t /\ 0 <= t /\ Z.testbit (ready_threads s) t = true /\
    s' = set_ready_threads (Z.ldiff (ready_threads s) (Z.shiftl 1 t)) s.
Proof.
  revert n. induction fuel as [|fuel IH]; intros n Hn; [done|]. cbn [take_thread_loop].
  unfold bind, gets, modify, ret. rewrite land_pow_eqb by done. destruct (Z.testbit (ready_threads s) n) eqn:E.
  - intros [= <- <-]. by exists n.
  - intros H. apply (IH (n + 1)); [lia|done].
Qed.

Lemma take_available_keeps Q : srv_keeps Q take_available_thread (fun o => forall t, o = Some t -> 1 <= t).
Proof.
  intros s o s' Hs. unfold take_available_thread. destruct (_ =? 0); [by intros [= <- <-]|].
  intros (t & -> & Ht & Hb & ->)%take_thread_loop_Some; [|lia].
  split; [intros u [= <-]; by apply (so_ready _ _ Hs)|]. destruct Hs as [Ho [idxs Hi] Hc Hr]. split; [done| |done|].
  - exists idxs. by apply server_inv_ready.
  - cbn. intros u Hu. rewrite Z.ldiff_spec. intros [H _]%andb_true_iff. by apply Hr.
Qed.

Lemma mark_ready_ok Q s t : server_ok Q s -> 1 <= t ->
  server_ok Q (set_ready_threads (Z.lor (ready_threads s) (Z.shiftl 1 t)) s).
Proof.
  intros [Ho [idxs Hi] Hc Hr] Ht. split; [done|exists idxs; by apply server_inv_ready|done|].
  cbn. intros u Hu. rewrite Z.lor_spec. intros [H|H]%orb_true_iff; [by apply Hr|].
  rewrite Z.shiftl_1_l, Z.pow2_bits_eqb in H by lia. apply Z.eqb_eq in H. lia.
Qed.

Lemma park_keeps Q t : 1 <= t -> srv_keeps Q (Server.park_thread t) (fun _ => True).
Proof.
  intros Ht s a s' Hs. unfold Server.park_thread, mark_ready, bind, gets, assertb, modify.
  destruct (_ && _); [|done]. destruct (_ =? 0); [|done]. intros [= <- <-]. split; [done|]. by apply mark_ready_ok.
Qed.
Lemma return_thread_keeps Q t : 1 <= t -> srv_keeps Q (return_available_thread t) (fun _ => True).
Proof. apply park_keeps. Qed.

Lemma queued_entry_generation pid tid g msg addr e : queued_entry pid tid g msg addr = Ok e -> slot_generation e = Some g.
Proof.
  destruct msg; cbn; repeat (destruct (ok_or _ _); cbn; [|done]); by intros [= <-].
Qed.

Lemma queued_entry_client pid tid g msg addr e p t : queued_entry pid tid g msg addr = Ok e ->
  entry_client e = Some (p, t) -> is_blocking msg = true /\ p = pid /\ t = u8 tid.
Proof.
  destruct msg; cbn; repeat (destruct (ok_or _ _); cbn; [|done]); intros [= <-]; cbn; try done; by intros [= <- <-].
Qed.

Lemma response_entry_client pid tid msg addr e p t : response_entry pid tid msg addr = Ok e ->
  entry_client e = Some (p, t) -> p = pid /\ t = u8 tid.
Proof.
  destruct msg; cbn; repeat (destruct (ok_or _ _); cbn; [|done]); intros [= <-]; cbn; try done; by intros [= <- <-].
Qed.

Lemma queue_message_keeps (Q : PID -> Prop) pid tid msg addr :
  (is_blocking msg = true -> Q pid /\ 1 <= u8 tid) -> srv_keeps Q (queue_message pid tid msg addr) (fun _ => True).
Proof.
  intros HQ s r s' [Ho [idxs Hi] Hc Hr] Hrun. split; [done|].
  destruct (find_empty_slot_run s idxs Hi) as [(i & He & Hil & Hf)|[_ Hf]].
  - destruct (queued_entry pid tid (tail_generation s) msg addr) as [entry|e] eqn:Een.
    + rewrite (queue_message_run s idxs _ _ _ _ i entry) in Hrun by done.
      destruct (Nat.eqb_spec (length idxs) 255) as [|Hl]; [done|]. injection Hrun as <- <-.
      pose proof (si_bound _ _ Hi). destruct (stored_inv s idxs i entry) as [Hs _]; [done|lia|done|by eapply queued_entry_generation|].
      split; [done|by eexists| |done]. apply clients_insert; [done|]. intros p t Hcl.
      destruct (queued_entry_client _ _ _ _ _ _ _ _ Een Hcl) as (Hb & -> & ->). by apply HQ.
    + destruct (queued_entry_err s idxs pid tid msg addr i e) as [Hq Hs]; try done.
      rewrite Hq in Hrun. injection Hrun as <- <-. split; [done|by exists idxs|done|done].
  - unfold queue_message, bind_try, bind at 1 in Hrun. rewrite Hf in Hrun. injection Hrun as <- <-.
    split; [done|by exists idxs|done|done].
Qed.

Lemma queue_response_keeps (Q : PID -> Prop) pid tid msg addr :
  Q pid -> 1 <= u8 tid -> srv_keeps Q (queue_response pid tid msg addr) (fun _ => True).
Proof.
  intros HQ Ht s r s' [Ho [idxs Hi] Hc Hr] Hrun. split; [done|].
  destruct (queue_response_inv _ _ _ _ _ _ _ _ Hi Hrun) as [Hs _].
  revert Hrun. unfold queue_response, bind_try, bind at 1.
  destruct (find_empty_slot_run s idxs Hi) as [(i & He & Hil & Hf)|[_ Hf]]; rewrite Hf;
    [|intros [= <- <-]; by split; [|exists idxs|..]].
  unfold bind at 1, ret at 1. destruct (response_entry pid tid msg addr) as [e|e] eqn:Ee;
    [|intros [= <- <-]; by split; [|exists idxs|..]].
  unfold dec_empty_count, bind, gets, assertb, modify, ret. destruct (negb _); [|done].
  intros [= <- <-]. split; [done|by exists idxs| |done]. apply clients_insert; [done|]. intros p t Hcl.
  by destruct (response_entry_client _ _ _ _ _ _ _ Ee Hcl) as [-> ->].
Qed.

Lemma slot_delivery_client m p b r c : slot_delivery m = Some (p, b, r) -> entry_client r = Some c -> entry_client m = Some c.
Proof. destruct m; cbn; try done; intros [= <- <- <-]; done. Qed.

Lemma take_next_keeps Q sidx : srv_keeps Q (take_next_message sidx) (fun _ => True).
Proof.
  intros s r s' [Ho [idxs Hi] Hc Hr] Hrun. split; [done|]. destruct idxs as [|i idxs].
  - rewrite take_next_nil in Hrun by done. injection Hrun as <- <-. by split; [|exists []|..].
  - destruct (take_next_run s idxs i sidx Hi) as (m & p & b & e & Hm & Hd & E). rewrite E in Hrun. injection Hrun as <- <-.
    destruct (taken_inv s idxs i m p b e Hi Hm Hd) as [Hs _]. split; [done|by exists idxs| |done].
    apply clients_insert; [done|]. intros q t Hcl. apply (Hc i m q t Hm). by eapply slot_delivery_client.
Qed.

(** The client named by a reply. *)
Definition reply_ok (Q : PID -> Prop) (w : WaitingMessage) : Prop :=
  match w with WM_BorrowedMemory pid tid _ | WM_ScalarMessage pid tid => Q pid /\ 1 <= tid | _ => True end.

Lemma take_waiting_keeps Q i buf :
  srv_keeps Q (take_waiting_message i buf) (fun r => match r with Ok w => reply_ok Q w | Err _ => True end).
Proof.
  intros s r s' [Ho [idxs Hi] Hc Hr] Hrun. destruct (take_waiting_inv _ _ _ _ _ _ Hi Hrun) as [Hs _].
  revert Hrun. unfold take_waiting_message, bind, gets, modify, ret.
  destruct (queue s !! i) as [m|] eqn:Em; [|intros [= <- <-]; by split; [|split; [|exists idxs|..]]].
  destruct (waiting_response m buf) as [e|w] eqn:Hw; intros [= <- <-].
  - split; [|by split; [|exists idxs|..]]. destruct m; cbn in Hw; repeat case_match; by simplify_eq.
  - split.
    + destruct m; cbn in Hw; repeat case_match; simplify_eq; cbn; try done; by apply (Hc i _ _ _ Em).
    + split; [done|by exists idxs| |done]. apply clients_insert; [done|done].
Qed.

Lemma fresh_server_ok (Q : PID -> Prop) sid pid addr n p : (0 < n)%nat -> Q pid ->
  server_ok Q (fresh_server sid pid addr n p).
Proof.
  intros Hn HQ. split; cbn; [done| | |].
  - exists []. by apply (fresh_inv sid pid addr n p).
  - intros j m q t Hj. by apply lookup_replicate_1 in Hj as [-> _].
  - intros t _. by rewrite Z.bits_0.
Qed.

(** After a process left, no queue mentions it. *)
Lemma discard_keeps (Q : PID -> Prop) pid s s' : server_ok Q s -> srv_pid s <> pid ->
  discard_messages_for_pid pid s = Some (tt, s') -> server_ok (fun q => Q q /\ q <> pid) s'.
Proof.
  intros [Ho [idxs Hi] Hc Hr] Hne Hrun. destruct (discard_inv _ _ _ _ Hi Hrun) as [Hs _]. injection Hrun as <-.
  split; [done|by exists idxs| |done]. intros j m p t. cbn [queue set_queue]. rewrite list_lookup_fmap.
  destruct (queue s !! j) as [m0|] eqn:Hm0; [|done]. intros [= <-] Hcl.
  assert (entry_client m0 = Some (p, t) /\ p <> pid) as [Hm Hp].
  { destruct m0; cbn in Hcl; try done; try (destruct (Z.eqb_spec pid0 pid); [done|]); cbn in Hcl; injection Hcl as <- <-; done. }
  destruct (Hc j m0 p t Hm0 Hm). done.
Qed.

(** ** The register contexts *)

Definition arch_keeps {X} (m : M Arch X) (R : X -> Prop) : Prop :=
  forall a x a', arch_wf a -> m a = Some (x, a') -> R x /\ arch_wf a' /\ cur_pid a' = cur_pid a.

Lemma arch_ret {X} (x : X) (R : X -> Prop) : R x -> arch_keeps (ret x) R.
Proof. by intros HR a y a' Ha [= <- <-]. Qed.
Lemma arch_bind {X Y} (m : M Arch X) (f : X -> M Arch Y) (R : X -> Prop) (Q : Y -> Prop) :
  arch_keeps m R -> (forall x, R x -> arch_keeps (f x) Q) -> arch_keeps (x <- m ;; f x) Q.
Proof.
  intros Hm Hf a y a' Ha. unfold bind. destruct (m a) as [[x a1]|] eqn:E; [|done]. intros Hrun.
  destruct (Hm _ _ _ Ha E) as (HR & Ha1 & Hc1). destruct (Hf x HR _ _ _ Ha1 Hrun) as (HQ & Ha2 & Hc2).
  split_and!; [done..|congruence].
Qed.
Lemma arch_expect {X} (o : option X) (R : X -> Prop) : (forall x, o = Some x -> R x) -> arch_keeps (expect o) R.
Proof. intros H a x a' Ha. destruct o as [y|]; [|done]. intros [= <- <-]. auto. Qed.

Lemma arch_table_get pid : arch_keeps (table_get pid) (fun o => forall p, o = Some p -> impl_wf p).
Proof.
  intros a x a' Ha. unfold table_get, bind, gets, expect. destruct (process_table a !! table_index pid) as [o|] eqn:E; [|done].
  intros [= <- <-]. split; [|done]. intros p ->. by apply (aw_impl a Ha (table_index pid)).
Qed.
Lemma arch_table_set pid o : (forall p, o = Some p -> impl_wf p) -> arch_keeps (table_set pid o) (fun _ => True).
Proof.
  intros Ho a x a' [Hl Hi] [= <- <-]. split; [done|]. split; [|done]. split; cbn; [by rewrite length_insert|].
  intros i p Hp. apply list_lookup_insert_Some in Hp as [(_ & -> & _)|[_ Hp]]; [by apply Ho|by apply (Hi i)].
Qed.

(** Reading the context of a thread and writing it back changed. *)
Lemma arch_thread {X} (p : ProcessImpl) i (f : Thread -> M Arch X) R :
  impl_wf p -> (forall t, thread_wf t -> arch_keeps (f t) R) -> arch_keeps (t <- expect (impl_threads p !! i) ;; f t) R.
Proof.
  intros (Hl & Hall & _) Hf. eapply arch_bind; [apply (arch_expect _ thread_wf)|exact Hf].
  intros t Ht. by apply (Forall_lookup_1 _ _ _ _ Hall Ht).
Qed.
Lemma set_thread_impl_wf p i t : impl_wf p -> thread_wf t -> impl_wf (set_thread p i t).
Proof. intros (Hl & Hall & Hc) Ht. split; cbn; [by rewrite length_insert|]. split; [by apply Forall_insert|done]. Qed.

Lemma arch_table {X} pid (f : option ProcessImpl -> M Arch X) R :
  arch_keeps (f None) R -> (forall p, impl_wf p -> arch_keeps (f (Some p)) R) -> arch_keeps (o <- table_get pid ;; f o) R.
Proof. intros Hn Hs. eapply arch_bind; [apply arch_table_get|]. intros [p|] Hp; [by apply Hs, Hp|done]. Qed.

Lemma arch_put pid p i t : impl_wf p -> thread_wf t -> arch_keeps (table_set pid (Some (set_thread p i t))) (fun _ => True).
Proof. intros Hp Ht. apply arch_table_set. intros q [= <-]. by apply set_thread_impl_wf. Qed.

Ltac arch_step := first [by apply arch_ret|apply arch_table; [by apply arch_ret|intros p Hp]|apply arch_thread; [done|intros t Ht]].

Lemma arch_set_thread_result pid tid r : arch_keeps (ArchProcess.set_thread_result pid tid r) (fun _ => True).
Proof.
  unfold ArchProcess.set_thread_result. destruct (bad_tid tid); [arch_step|]. do 2 arch_step.
  apply arch_put; [done|]. by apply set_args_wf.
Qed.
Lemma arch_retry pid tid : arch_keeps (retry_swi_instruction pid tid) (fun _ => True).
Proof. eapply arch_bind; [apply arch_set_thread_result|intros; arch_step]. Qed.
Lemma arch_set_tid pid tid : valid_tid tid -> arch_keeps (set_tid pid tid) (fun _ => True).
Proof.
  intros Htid. unfold set_tid. destruct (bad_tid tid); [arch_step|]. do 2 arch_step. destruct (negb (allocated t)); [arch_step|].
  eapply arch_bind; [|intros; arch_step]. apply arch_table_set. intros q [= <-]. destruct Hp as (Hl & Hall & _). split; [done|by split].
Qed.
Lemma arch_current_tid pid : arch_keeps (current_tid pid) (fun _ => True).
Proof. by intros a x a' Ha [= <- <-]. Qed.
Lemma arch_find_free pid : arch_keeps (find_free_thread pid) (fun o => forall t, o = Some t -> (1 <= t)%nat).
Proof.
  apply arch_table; [by apply arch_ret|]. intros p _. apply arch_ret.
  enough (H : forall n u, first_free n (impl_threads p) = Some u -> (1 <= u)%nat) by (intros u; apply H).
  induction (impl_threads p) as [|t l IH]; intros n u; cbn; [done|]. destruct (negb _); [intros [= <-]; lia|apply IH].
Qed.
Lemma arch_setup_thread pid tid init : arch_keeps (setup_thread pid tid init) (fun _ => True).
Proof.
  unfold setup_thread. destruct (bad_tid tid); [arch_step|]. do 2 arch_step. destruct (allocated t); [arch_step|].
  eapply (arch_bind _ _ (fun _ => True)).
  - intros a x a' Ha. unfold initial_sp, bind, assertb. destruct (ti_stack init) as [st|]; [|by intros [= <- <-]].
    destruct (fits _ _); [by intros [= <- <-]|done].
  - intros sp _. eapply arch_bind; [|intros; arch_step]. by apply arch_put.
Qed.
Lemma arch_destroy_thread pid tid : arch_keeps (destroy_thread pid tid) (fun _ => True).
Proof.
  unfold destroy_thread. destruct (bad_tid tid); [arch_step|]. do 2 arch_step. destruct (negb (allocated t)); [arch_step|].
  eapply arch_bind; [|intros; arch_step]. by apply arch_put.
Qed.
Lemma arch_destroy pid : arch_keeps (destroy pid) (fun _ => True).
Proof.
  unfold destroy. apply arch_table; [|intros p Hp]; (eapply arch_bind; [|intros; arch_step]); by apply arch_table_set.
Qed.

Lemma fresh_impl_wf : impl_wf fresh_impl.
Proof.
  split; [done|]. unfold fresh_impl. cbn [impl_threads]. split; [apply Forall_insert; [by apply Forall_replicate|done]|].
  cbn. unfold INITIAL_TID, THREAD_SLOTS. lia.
Qed.
Lemma new_impl_wf : impl_wf new_impl.
Proof. split; [done|]. split; [by apply Forall_replicate|]. cbn. unfold INITIAL_TID, THREAD_SLOTS. lia. Qed.
Lemma arch_put_fresh pid : arch_keeps (table_set pid (Some fresh_impl)) (fun _ => True).
Proof. apply arch_table_set. intros p [= <-]. apply fresh_impl_wf. Qed.
Lemma arch_get pid : arch_keeps (table_get pid) (fun _ => True).
Proof. intros a x a' Ha Hrun. destruct (arch_table_get pid a x a' Ha Hrun) as (_ & ? & ?). done. Qed.
Lemma arch_initial_sp stack : arch_keeps (initial_sp stack) (fun _ => True).
Proof.
  intros a x a' Ha. unfold initial_sp, bind, assertb. destruct stack as [st|]; [|by intros [= <- <-]].
  destruct (fits _ _); [by intros [= <- <-]|done].
Qed.
Lemma arch_setup_process pid entry stack : arch_keeps (setup_process pid entry stack) (fun _ => True).
Proof.
  unfold setup_process. destruct (_ <=? _)%nat; [arch_step|]. eapply arch_bind; [apply arch_table_get|]. intros o Ho.
  assert (Hp : impl_wf (default new_impl o)) by (destruct o as [p|]; [by apply Ho|apply new_impl_wf]).
  apply arch_thread; [done|]. intros t Ht. eapply arch_bind; [apply arch_initial_sp|]. intros sp _.
  eapply arch_bind; [by apply arch_put|]. intros _ _. arch_step.
Qed.
Lemma arch_set_thread_args pid x0 x1 x2 : arch_keeps (set_thread_args pid x0 x1 x2) (fun _ => True).
Proof.
  unfold set_thread_args. do 2 arch_step. apply arch_put; [done|]. by repeat apply set_gpr_wf.
Qed.
Lemma arch_set_thread_arg0 pid x : arch_keeps (set_thread_arg0 pid x) (fun _ => True).
Proof. unfold set_thread_arg0. do 2 arch_step. apply arch_put; [done|]. by apply set_gpr_wf. Qed.

Section Inv.
Context {P : Platform} {S G : Type} {RQ : ReadyQueues S G}.
Notation K := (Kernel (S := S)).
Notation PS := (PS (S := S)).

(** ** One process *)

(** The futures of a process: none for the interrupt thread, and a server index
    inside the table. *)
Definition future_ok (f : KernelFuture) : Prop :=
  match f with KF_ReceiveMessage sidx => 0 <= sidx < Z.of_nat MAX_SERVER_COUNT | _ => True end.
Definition futures_ok (p : Process) : Prop :=
  kernel_futures p !! 0%nat = Some None /\ forall t f, kernel_futures p !! t = Some (Some f) -> future_ok f.

Record p_inv (s : PS) (g : G) : Prop := { pv_inv : ps_inv s g; pv_futures : futures_ok (ps_proc s) }.

Definition ps_keeps {A} (m : M PS A) (R : A -> Prop) : Prop :=
  forall s g a s', p_inv s g -> m s = Some (a, s') ->
    R a /\ exists g', p_inv s' g' /\ p_pid (ps_proc s') = p_pid (ps_proc s) /\ same_others (p_pid (ps_proc s)) g g'.

Lemma ps_ret {A} (a : A) (R : A -> Prop) : R a -> ps_keeps (ret a) R.
Proof. intros HR s g b s' Hs [= <- <-]. split; [done|]. by exists g. Qed.

Lemma ps_bind {A B} (m : M PS A) (f : A -> M PS B) (R : A -> Prop) (Q : B -> Prop) :
  ps_keeps m R -> (forall a, R a -> ps_keeps (f a) Q) -> ps_keeps (a <- m ;; f a) Q.
Proof.
  intros Hm Hf s g b s' Hs. unfold bind. destruct (m s) as [[a s1]|] eqn:E; [|done]. intros Hrun.
  destruct (Hm s g a s1 Hs E) as (HR & g1 & Hs1 & Hp1 & Ho1).
  destruct (Hf a HR s1 g1 b s' Hs1 Hrun) as (HQ & g2 & Hs2 & Hp2 & Ho2).
  split; [done|]. exists g2. split_and!; [done|congruence|]. rewrite Hp1 in Ho2. by eapply same_others_trans.
Qed.

Lemma ps_mono {A} (m : M PS A) (R R' : A -> Prop) : (forall a, R a -> R' a) -> ps_keeps m R -> ps_keeps m R'.
Proof. intros HR Hm s g a s' Hs Hrun. destruct (Hm s g a s' Hs Hrun) as [Ha H]. auto. Qed.

Lemma ps_gets {A} (f : PS -> A) : ps_keeps (gets f) (fun _ => True).
Proof. intros s g a s' Hs [= <- <-]. split; [done|]. by exists g. Qed.
Lemma ps_panic {A} (R : A -> Prop) : ps_keeps panic R.
Proof. by intros s g a s' _. Qed.
Lemma ps_expect {A} (o : option A) : ps_keeps (expect o) (fun _ => True).
Proof. destruct o; [by apply ps_ret|apply ps_panic]. Qed.
Lemma ps_assert b : ps_keeps (assertb b) (fun _ => True).
Proof. destruct b; [by apply ps_ret|apply ps_panic]. Qed.

(** A total operation that is known to run. *)
Lemma ps_run {A} (m : M PS A) (R : A -> Prop) :
  (forall s g, ps_inv s g -> exists a s' g', m s = Some (a, s') /\ R a /\ ps_inv s' g' /\
     p_pid (ps_proc s') = p_pid (ps_proc s) /\ same_others (p_pid (ps_proc s)) g g' /\
     (futures_ok (ps_proc s) -> futures_ok (ps_proc s'))) -> ps_keeps m R.
Proof.
  intros Hm s g a s' [Hs Hf] Hrun. destruct (Hm s g Hs) as (b & s1 & g' & E & HR & Hi & Hp & Ho & Hfu).
  rewrite E in Hrun. injection Hrun as <- <-. split; [done|]. exists g'. split; [split; auto|done].
Qed.

(** Updates that leave the thread table alone. *)
Definition rows_kept (f : Process -> Process) : Prop :=
  forall p, proc_wf p -> p_pid (f p) = p_pid p /\ threads (f p) = threads p /\
    thread_priorities (f p) = thread_priorities p /\ proc_wf (f p) /\ (futures_ok p -> futures_ok (f p)).

Lemma ps_update f : rows_kept f -> ps_keeps (update f) (fun _ => True).
Proof.
  intros Hf. apply ps_run. intros s g Hs. destruct (Hf (ps_proc s) (pi_wf _ _ Hs)) as (Hp & Ht & Hpr & Hw & Hfu).
  eexists tt, _, g. split; [reflexivity|]. split; [done|]. split; [|by split_and!].
  destruct Hw. by eapply ps_inv_update.
Qed.

Ltac rows := intros p [? ? ? ? ? ? ?]; split_and!; [done..|split; cbn; rewrite ?length_insert, ?length_alter; done|].

Lemma rows_bits f : rows_kept (fun p => set_bits (f p) p).
Proof. by rows. Qed.
Lemma rows_handler i h : rows_kept (fun p => set_handlers (<[i := h]> (event_handlers p)) p).
Proof. by rows. Qed.
Lemma rows_future i o : (forall f, o = Some f -> (1 <= i)%nat /\ future_ok f) ->
  rows_kept (fun p => set_futures (<[i := o]> (kernel_futures p)) p).
Proof.
  intros Hof. rows. intros [H0 Hall]. split; cbn.
  - destruct (decide (i = 0%nat)) as [->|Hne]; [|by rewrite list_lookup_insert_ne].
    rewrite list_lookup_insert_eq by (by eapply lookup_lt_Some). destruct o as [f|]; [|done]. destruct (Hof f eq_refl). lia.
  - intros t f Hl. apply list_lookup_insert_Some in Hl as [(_ & Hx & _)|[_ Hl]]; [|by apply (Hall t)].
    by apply Hof.
Qed.
Lemma rows_mailbox i h : rows_kept (fun p => set_mailboxes (<[i := h]> (result_mailbox p)) p).
Proof. by rows. Qed.
Lemma rows_connection i h : rows_kept (fun p => set_connections (<[i := h]> (connection_map p)) p).
Proof. by rows. Qed.
Lemma rows_orphan pid : rows_kept (orphan pid).
Proof. intros p Hp. unfold orphan. case_bool_decide; [|done]. destruct Hp. by split_and!. Qed.

(** Updates with a table read before. *)
Lemma ps_put_connections l : length l = MAX_CONNECTIONS -> ps_keeps (update (set_connections l)) (fun _ => True).
Proof. intros Hl. apply ps_update. by rows. Qed.

Lemma ps_read_connections {A} (f : list ConnectionSlot -> M PS A) R :
  (forall l, length l = MAX_CONNECTIONS -> ps_keeps (f l) R) ->
  ps_keeps (l <- gets (fun s => connection_map (ps_proc s)) ;; f l) R.
Proof. intros Hf s g a s' Hs. unfold bind, gets. apply (Hf _ (wf_conns _ (pi_wf _ _ (pv_inv _ _ Hs))) s g a s' Hs). Qed.

Lemma ps_thread_state tid : ps_keeps (thread_state tid) (fun _ => True).
Proof. eapply ps_bind; [apply ps_gets|intros; apply ps_expect]. Qed.
Lemma ps_thread_priority tid : ps_keeps (thread_priority tid) (fun _ => True).
Proof. eapply ps_bind; [apply ps_gets|intros; apply ps_expect]. Qed.

(** A thread number outside the table is a panic. *)
Lemma priority_index s g tid r : ps_inv s g -> (1 <= tid)%nat -> thread_priority tid s = Some r -> valid_tid tid.
Proof.
  intros Hs Ht. unfold thread_priority, bind, gets, expect.
  destruct (thread_priorities (ps_proc s) !! tid) eqn:E; [|done]. intros _.
  apply lookup_lt_Some in E. rewrite (wf_prios _ (pi_wf _ _ Hs)) in E. by split.
Qed.

Lemma ps_set_thread_state tid st : (1 <= tid)%nat -> ps_keeps (set_thread_state tid st) (fun _ => True).
Proof.
  intros Ht s g [] s' [Hs Hf] Hrun. assert (Hv : valid_tid tid).
  { revert Hrun. unfold set_thread_state, bind at 1. destruct (thread_priority tid s) eqn:E; [|done]. intros _.
    by eapply priority_index. }
  destruct (set_thread_state_run s g tid st Hs Hv) as (s1 & g' & E & Hi & Hp & Ho). rewrite E in Hrun. injection Hrun as <-.
  split; [done|]. exists g'. rewrite Hp. split; [by split; [|rewrite Hp]|done].
Qed.

Lemma ps_set_thread_priority tid pr : (1 <= tid)%nat -> ps_keeps (set_thread_priority tid pr) (fun _ => True).
Proof.
  intros Ht s g [] s' [Hs Hf] Hrun. assert (Hv : valid_tid tid).
  { revert Hrun. unfold set_thread_priority, bind at 1. destruct (thread_priority tid s) eqn:E; [|done]. intros _.
    by eapply priority_index. }
  destruct (set_thread_priority_run s g tid pr Hs Hv) as (s1 & g' & E & Hi & Hp & Ho). rewrite E in Hrun. injection Hrun as <-.
  split; [done|]. exists g'. rewrite Hp. split; [by split; [|rewrite Hp]|done].
Qed.

Definition same_futures {X} (m : M PS X) : Prop :=
  forall s x s', m s = Some (x, s') -> kernel_futures (ps_proc s') = kernel_futures (ps_proc s).

Lemma set_thread_state_futures tid st : same_futures (set_thread_state tid st).
Proof.
  intros s x s'. unfold set_thread_state. intros (pr & s1 & H1 & H)%run_bind. apply run_bind in H as (pid & s2 & [= <- <-] & H).
  apply run_bind in H as (cur & s3 & H3 & H). apply run_bind in H as (u & s4 & H4 & H). apply run_bind in H as (v & s5 & H5 & [= <- <-]).
  assert (Hq : forall (b : bool) (op : M S unit) t u t', (if b then on_sched op else ret tt) t = Some (u, t') -> ps_proc t' = ps_proc t).
  { intros b op t w t'. destruct b; [|by intros [= <- <-]]. unfold on_sched. by destruct (op _) as [[? ?]|]; [intros [= <- <-]|]. }
  assert (Hg : forall {X} (f : PS -> option X) t w t', (o <- gets f ;; expect o) t = Some (w, t') -> t' = t).
  { intros X f t w t' (o & t1 & [= <- <-] & He)%run_bind. by apply expect_Some in He as (? & _ & [= _ ->]). }
  apply Hg in H1, H3. apply Hq in H4, H5. cbn. by rewrite H5, H4, H3, H1.
Qed.

Lemma wake_loop_futures st tid k n : same_futures (wake_loop st tid k n).
Proof.
  revert tid n. induction k as [|k IH]; intros tid n s x s'; cbn [wake_loop]; [by intros [= <- <-]|].
  intros (cur & s1 & H1 & H)%run_bind. unfold thread_state in H1.
  apply run_bind in H1 as (o & s0 & [= <- <-] & H1). apply expect_Some in H1 as (? & _ & [= _ ->]).
  destruct (bool_decide _); [|by apply (IH _ _ _ _ _ H)]. apply run_bind in H as (u & s2 & H2 & H).
  apply set_thread_state_futures in H2. rewrite <- H2. destruct (n - 1 =? 0); [by injection H as <- <-|by apply (IH _ _ _ _ _ H)].
Qed.

Lemma ps_safe_run (m : M PS unit) : (forall s g, ps_inv s g -> safe_run m s g) -> same_futures m -> ps_keeps m (fun _ => True).
Proof.
  intros Hm Hf. apply ps_run. intros s g Hs. destruct (Hm s g Hs) as (s' & g' & E & ? & ? & ?). exists tt, s', g'.
  split_and!; try done. unfold futures_ok. by rewrite (Hf _ _ _ E).
Qed.

Lemma ps_wake state n : 0 <= n -> ps_keeps (Process.wake_threads_with_state state n) (fun _ => True).
Proof. 
  intros Hn. apply ps_safe_run; [intros s g Hs; by apply wake_safe|].
  intros s x s'. unfold Process.wake_threads_with_state. destruct (n =? 0); [by intros [= <- <-]|]. apply wake_loop_futures.
Qed.

Lemma ps_post bits : ps_keeps (post_notification_bits bits) (fun o => forall t f, o = Some (t, f) -> (1 <= t)%nat).
Proof.
  eapply ps_bind; [apply ps_update, (rows_bits (fun p => Z.lor (notification_bits p) bits))|]. intros _ _.
  apply ps_run. intros s g Hs.
  destruct (post_loop_run s g 1 (NUM_THREADS - 1) Hs) as (r & s' & g' & Hrun & Hi & Ho & Hr); [lia|unfold NUM_THREADS; lia|].
  exists r, s', g'. split; [done|]. split.
  - intros t f ->. destruct Hr as (m & ? & _). lia.
  - split; [done|]. assert (E : p_pid (ps_proc s') = p_pid (ps_proc s) /\ kernel_futures (ps_proc s') = kernel_futures (ps_proc s)).
    { destruct r as [[k f]|]; [destruct Hr as (m & _ & _ & _ & _ & _ & ->); done|by destruct Hr as [-> _]]. }
    destruct E as [Ep Ef]. split; [done|]. split; [done|]. unfold futures_ok. by rewrite Ef.
Qed.

Lemma ps_take_bits : ps_keeps take_notification_bits (fun _ => True).
Proof.
  eapply ps_bind; [apply ps_gets|]. intros b _. eapply ps_bind; [apply ps_update, (rows_bits (fun _ => 0))|].
  intros _ _. by apply ps_ret.
Qed.
Lemma ps_take_masked mask : ps_keeps (take_notification_bits_masked mask) (fun _ => True).
Proof.
  eapply ps_bind; [apply ps_gets|]. intros b _.
  eapply ps_bind; [apply ps_update, (rows_bits (fun p => Z.ldiff (notification_bits p) mask))|].
  intros _ _. by apply ps_ret.
Qed.
Lemma ps_set_future tid f : (1 <= tid)%nat -> future_ok f -> ps_keeps (set_kernel_future tid f) (fun _ => True).
Proof.
  intros Ht Hf. unfold set_kernel_future. destruct (_ <? _)%nat; [|by apply ps_ret]. apply ps_update, rows_future. by intros f' [= <-].
Qed.
Lemma ps_take_future tid : ps_keeps (take_kernel_future tid) (fun o => forall f, o = Some f -> future_ok f).
Proof.
  unfold take_kernel_future. destruct (_ <? _)%nat; [|by apply ps_ret].
  eapply (ps_bind _ _ (fun o => forall f, o = Some (Some f) -> future_ok f)).
  { intros s g o s' Hs [= <- <-]. split; [|by exists g]. intros f. apply (pv_futures _ _ Hs). }
  intros o Ho. eapply (ps_bind _ _ (fun f => forall f', f = Some f' -> future_ok f')).
  { intros s g f s' Hs Hrun. apply expect_Some in Hrun as (f' & -> & [= -> ->]). split; [|by exists g]. intros f ->. by apply Ho. }
  intros f Hf. eapply ps_bind; [apply ps_update, rows_future; done|]. intros _ _. by apply ps_ret.
Qed.
Lemma ps_set_mailbox tid r : ps_keeps (set_mailbox tid r) (fun _ => True).
Proof. unfold set_mailbox. destruct (_ <? _)%nat; [apply ps_update, rows_mailbox|by apply ps_ret]. Qed.
Lemma ps_take_mailbox tid : ps_keeps (take_mailbox tid) (fun _ => True).
Proof.
  unfold take_mailbox. destruct (_ <? _)%nat; [|by apply ps_ret].
  eapply ps_bind; [apply ps_gets|]. intros o _. eapply ps_bind; [apply ps_expect|]. intros f _.
  eapply ps_bind; [apply ps_update, rows_mailbox|]. intros _ _. by apply ps_ret.
Qed.
Lemma ps_poll_mailbox tid : ps_keeps (poll_mailbox tid) (fun _ => True).
Proof. eapply ps_bind; [apply ps_take_mailbox|]. intros r _. by apply ps_ret. Qed.

Lemma ps_free_threads tid n : (1 <= tid)%nat -> ps_keeps (free_threads tid n) (fun _ => True).
Proof.
  revert tid. induction n as [|n IH]; intros tid Ht; cbn [free_threads]; [by apply ps_ret|].
  eapply ps_bind; [by apply ps_set_thread_state|]. intros _ _. eapply ps_bind; [by apply ps_update, rows_future|]. intros _ _.
  eapply ps_bind; [apply ps_update, rows_mailbox|]. intros _ _. apply IH. lia.
Qed.

Lemma ps_tombstone sidx : ps_keeps (tombstone_connection_by_sidx sidx) (fun _ => True).
Proof.
  apply ps_read_connections. intros l Hl. destruct (position _ l); [|by apply ps_ret].
  eapply ps_bind; [apply ps_put_connections; by rewrite length_alter|]. intros _ _. by apply ps_ret.
Qed.
Lemma ps_add_connection sidx pm : ps_keeps (add_connection sidx pm) (fun _ => True).
Proof.
  apply ps_read_connections. intros l Hl. destruct (position (connected_to sidx) l) as [i|].
  - destruct (l !! i) as [[| |s rc q]|]; try apply ps_panic.
    eapply ps_bind; [apply ps_assert|]. intros _ _. eapply ps_bind; [|intros _ _; by apply ps_ret].
    apply ps_put_connections. by rewrite length_insert.
  - destruct (position is_free l); [|by apply ps_ret]. eapply ps_bind; [|intros _ _; by apply ps_ret].
    apply ps_put_connections. by rewrite length_insert.
Qed.
Lemma ps_set_event_handler e sid id : ps_keeps (set_event_handler e sid id) (fun _ => True).
Proof.
  eapply ps_bind; [apply ps_gets|]. intros o _. eapply ps_bind; [apply ps_expect|]. intros x _.
  destruct x; [by apply ps_ret|]. eapply ps_bind; [apply ps_update, rows_handler|]. intros _ _. by apply ps_ret.
Qed.
Lemma ps_allow cid messages : ps_keeps (allow_on_connection cid messages) (fun _ => True).
Proof.
  apply ps_read_connections. intros l Hl. destruct (l !! Z.to_nat (cid - 2)) as [[| |s rc q]|]; try by apply ps_ret.
  destruct (permissions_add messages q) as [[r q']|]; [|apply ps_panic].
  eapply ps_bind; [|intros _ _; by apply ps_ret]. apply ps_put_connections. by rewrite length_insert.
Qed.
Lemma ps_futex_wake addr n l : Forall (fun t => (1 <= t)%nat) l -> ps_keeps (futex_wake_loop addr n l) (fun _ => True).
Proof.
  intros Hl. revert n. induction Hl as [|t l Ht _ IH]; intros n; cbn; [by apply ps_ret|].
  destruct (n =? 0); [by apply ps_ret|]. eapply ps_bind; [apply ps_gets|]. intros p _.
  destruct (is_futex_waiter p addr t); [|apply IH]. eapply ps_bind; [apply ps_set_mailbox|]. intros _ _.
  eapply ps_bind; [by apply ps_set_thread_state|]. intros _ _. apply IH.
Qed.

(** ** The kernel *)

Definition process_at (k : K) (pid : PID) : option Process := default None (processes k !! process_index pid).
Definition alive (k : K) (pid : PID) : Prop := 1 <= pid /\ is_Some (process_at k pid).

Definition display_wf (d : DisplayState) : Prop := display_ok d /\ forall p t, (p, t) ∈ waiting d -> 1 <= p /\ 1 <= t.

(** [A] is the set of live processes, [Al i] those that may own or be served by
    the server in slot [i]. *)
Record inv (A : PID -> Prop) (Al : nat -> PID -> Prop) (k : K) (g : G) : Prop := {
  ki_plen : length (processes k) = PROCESS_SLOTS;
  ki_slen : length (servers k) = MAX_SERVER_COUNT;
  ki_rel : rq_rel (sched k) g;
  ki_proc : forall i p, processes k !! i = Some (Some p) ->
    p_inv (mkPS p (sched k)) g /\ p_pid p = Z.of_nat i + 1;
  ki_live : forall pr t, rq_in g pr t -> alive k t.1;
  ki_alive : forall q, A q <-> alive k q;
  ki_current : A (cur_pid (arch k));
  ki_sub : forall i q, Al i q -> A q;
  ki_server : forall i s, servers k !! i = Some (Some s) -> server_ok (Al i) s;
  ki_arch : arch_wf (arch k);
  ki_display : display_wf (display_state k) }.

Lemma process_at_lookup k pid p : process_at k pid = Some p <-> processes k !! process_index pid = Some (Some p).
Proof. unfold process_at. destruct (processes k !! process_index pid) as [[q|]|]; cbn; naive_solver. Qed.

Lemma process_index_of i : process_index (Z.of_nat i + 1) = i.
Proof. unfold process_index. lia. Qed.
Lemma process_index_pid pid : 1 <= pid -> Z.of_nat (process_index pid) + 1 = pid.
Proof. unfold process_index. lia. Qed.

Lemma inv_process A Al k g pid p : inv A Al k g -> 1 <= pid -> process_at k pid = Some p ->
  p_inv (mkPS p (sched k)) g /\ p_pid p = pid.
Proof.
  intros H Hp Hat%process_at_lookup. destruct (ki_proc _ _ _ _ H _ _ Hat) as [Hi E].
  by rewrite process_index_pid in E.
Qed.

(** Changes to the parts the invariant does not mention. *)
Definition same_core (k k' : K) : Prop :=
  processes k' = processes k /\ servers k' = servers k /\ sched k' = sched k /\ arch k' = arch k /\
  display_state k' = display_state k.

Lemma inv_same A Al k k' g : same_core k k' -> inv A Al k g -> inv A Al k' g.
Proof.
  intros (Hp & Hs & Hq & Ha & Hd) []. split; unfold alive, process_at in *; rewrite ?Hp, ?Hs, ?Hq, ?Ha, ?Hd; done.
Qed.

Section Keeps.
Context (A : PID -> Prop) (Al : nat -> PID -> Prop).

Definition keeps {X} (m : M K X) (R : X -> Prop) : Prop :=
  forall k g x k', inv A Al k g -> m k = Some (x, k') -> R x /\ exists g', inv A Al k' g'.

Notation any := (fun _ => True).

(** *** Rules *)

Lemma keeps_ret {X} (x : X) (R : X -> Prop) : R x -> keeps (ret x) R.
Proof. intros HR k g y k' Hk [= <- <-]. split; [done|]. by exists g. Qed.
Lemma keeps_panic {X} (R : X -> Prop) : keeps panic R.
Proof. by intros k g x k' _. Qed.
Lemma keeps_gets {X} (f : K -> X) : keeps (gets f) any.
Proof. intros k g x k' Hk [= <- <-]. split; [done|]. by exists g. Qed.
Lemma keeps_expect {X} (o : option X) (R : X -> Prop) : (forall x, o = Some x -> R x) -> keeps (expect o) R.
Proof. destruct o as [x|]; intros H; [by apply keeps_ret, H|apply keeps_panic]. Qed.
Lemma keeps_mono {X} (m : M K X) (R R' : X -> Prop) : (forall x, R x -> R' x) -> keeps m R -> keeps m R'.
Proof. intros HR Hm k g x k' Hk Hrun. destruct (Hm k g x k' Hk Hrun) as [? ?]. auto. Qed.
Lemma keeps_weaken {X} (m : M K X) (R : X -> Prop) : keeps m R -> keeps m any.
Proof. by apply keeps_mono. Qed.

Lemma keeps_bind {X Y} (m : M K X) (f : X -> M K Y) (R : X -> Prop) (Q : Y -> Prop) :
  keeps m R -> (forall x, R x -> keeps (f x) Q) -> keeps (x <- m ;; f x) Q.
Proof.
  intros Hm Hf k g y k' Hk. unfold bind. destruct (m k) as [[x k1]|] eqn:E; [|done]. intros Hrun.
  destruct (Hm k g x k1 Hk E) as (HR & g1 & Hk1). by apply (Hf x HR k1 g1).
Qed.

Definition ok_then {X} (R : X -> Prop) (r : res X Error) : Prop := match r with Ok x => R x | Err _ => True end.

Lemma keeps_try {X Y} (m : M K (res X Error)) (f : X -> M K (res Y Error)) (R : X -> Prop) (Q : Y -> Prop) :
  keeps m (ok_then R) -> (forall x, R x -> keeps (f x) (ok_then Q)) -> keeps (x <-? m ;; f x) (ok_then Q).
Proof.
  intros Hm Hf. unfold bind_try. eapply keeps_bind; [exact Hm|]. intros [x|e] HR; [by apply Hf|by apply keeps_ret].
Qed.

Lemma keeps_unwrap {X E} (m : M K (res X E)) (R : X -> Prop) :
  keeps m (fun r => match r with Ok x => R x | Err _ => True end) -> keeps (unwrap m) R.
Proof. intros Hm. unfold unwrap. eapply keeps_bind; [exact Hm|]. intros [x|e] HR; [by apply keeps_ret|apply keeps_panic]. Qed.

(** *** Components *)

Lemma keeps_same {X} (m : M K X) : (forall k x k', m k = Some (x, k') -> same_core k k') -> keeps m any.
Proof. intros Hm k g x k' Hk Hrun. split; [done|]. exists g. by eapply inv_same; [eapply Hm|]. Qed.

Lemma keeps_mem {X} (m : M Sys X) : keeps (on_mem m) any.
Proof. apply keeps_same. intros k x k'. unfold on_mem, lift. by destruct (m _) as [[y s]|]; [intros [= <- <-]|]. Qed.

Lemma keeps_with_mm {X} (f : Env -> PID -> MemoryMapping -> M Sys X) : keeps (with_mm f) any.
Proof.
  eapply keeps_bind; [apply keeps_gets|]. intros E _. eapply keeps_bind; [apply keeps_gets|]. intros pid _.
  eapply keeps_bind; [by apply (keeps_expect _ any)|]. intros cur _. apply keeps_mem.
Qed.

Lemma keeps_arch {X} (m : M Arch X) (R : X -> Prop) : arch_keeps m R -> keeps (on_arch m) R.
Proof.
  intros Hm k g x k' Hk. unfold on_arch, lift. destruct (m (arch k)) as [[y a]|] eqn:E; [|done]. intros [= <- <-].
  destruct (Hm _ _ _ (ki_arch _ _ _ _ Hk) E) as (HR & Hw & Hc). split; [done|]. exists g.
  destruct Hk. split; cbn; try done. by rewrite Hc.
Qed.

Lemma keeps_display {X} (m : M DisplayState X) (R : X -> Prop) :
  (forall d x d', display_wf d -> m d = Some (x, d') -> R x /\ display_wf d') -> keeps (on_display m) R.
Proof.
  intros Hm k g x k' Hk. unfold on_display, lift. destruct (m (display_state k)) as [[y d]|] eqn:E; [|done]. intros [= <- <-].
  destruct (Hm _ _ _ (ki_display _ _ _ _ Hk) E) as (HR & Hw). split; [done|]. exists g. by destruct Hk.
Qed.

(** Replacing one process, the queues following. *)
Lemma inv_put k g g' pid p q p' :
  inv A Al k g -> 1 <= pid -> process_at k pid = Some p -> p_inv (mkPS p' q) g' -> p_pid p' = pid ->
  same_others pid g g' ->
  inv A Al (set_sched q (set_processes (<[process_index pid := Some p']> (processes k)) k)) g'.
Proof.
  intros Hk Hp Hat Hi Hpid Ho.
  pose proof (proj1 (process_at_lookup _ _ _) Hat) as Hlk. pose proof (lookup_lt_Some _ _ _ Hlk) as Hlt.
  assert (Hal : forall r, alive (set_sched q (set_processes (<[process_index pid := Some p']> (processes k)) k)) r <-> alive k r).
  { intros r. unfold alive, process_at. cbn. destruct (decide (process_index r = process_index pid)) as [E|E].
    - rewrite E, list_lookup_insert_eq, Hlk by done. cbn. split; intros [? _]; split; eauto.
    - by rewrite list_lookup_insert_ne by done. }
  destruct Hk as [H1 H2 H3 H4 H5 H6 H7 H8 H9 H10 H11]. split; cbn; try done.
  - by rewrite length_insert.
  - apply Hi.
  - intros i r Hr. apply list_lookup_insert_Some in Hr as [(<- & [= <-] & _)|[Hne Hr]].
    + split; [done|]. by rewrite process_index_pid.
    + destruct (H4 i r Hr) as [[[Hw _ Ha Hv] Hfu] Hri]. split; [|done]. split; [|done]. cbn in *.
      assert (Hrp : p_pid r <> pid).
      { intros E. apply Hne. rewrite Hri in E. unfold process_index. lia. }
      split; cbn; [done|apply Hi| |].
      * intros tid st pr pr' Ht Hst Hpr. rewrite (Ho pr' (p_pid r, Z.of_nat tid) Hrp). by apply Ha.
      * intros pr tid Hin. apply (Hv pr). by apply Ho in Hin.
  - intros pr t Hin. apply Hal. destruct (decide (t.1 = pid)) as [->|Hne].
    + split; [done|]. by rewrite Hat.
    + apply (H5 pr). by apply Ho.
  - intros r. by rewrite Hal.
Qed.

Lemma process_slot_Some pid k o k' : process_slot pid k = Some (o, k') -> k' = k /\ process_at k pid = o.
Proof.
  unfold process_slot, bind, gets, expect, process_at. destruct (processes k !! process_index pid) as [o'|]; [|done].
  by intros [= <- <-].
Qed.

Lemma keeps_process pid : keeps (process pid) any.
Proof.
  apply (keeps_bind _ _ any); [|intros; by apply keeps_ret]. intros k g x k' Hk [-> _]%process_slot_Some. split; [done|]. by exists g.
Qed.

Lemma keeps_on_process {X} pid (m : M PS X) (R : X -> Prop) :
  1 <= pid -> ps_keeps m R -> keeps (on_process pid m) (ok_then R).
Proof.
  intros Hp Hm k g x k' Hk. unfold on_process, bind at 1. destruct (process_slot pid k) as [[o k1]|] eqn:E; [|done].
  apply process_slot_Some in E as [-> Hat]. destruct o as [p|]; [|intros [= <- <-]; split; [done|by exists g]].
  destruct (m (mkPS p (sched k))) as [[y s]|] eqn:Em; [|done]. intros [= <- <-].
  destruct (inv_process _ _ _ _ _ _ Hk Hp Hat) as [Hi Hpid].
  destruct (Hm _ _ _ _ Hi Em) as (HR & g' & Hi' & Hpid' & Ho). split; [done|]. exists g'.
  cbn in Hpid', Ho. eapply inv_put; [exact Hk|done|exact Hat| |congruence|by rewrite <- Hpid].
  by destruct s.
Qed.

Lemma A_pos k g q : inv A Al k g -> A q -> 1 <= q.
Proof. intros Hk Hq. by apply (ki_alive _ _ _ _ Hk) in Hq as [? _]. Qed.

Lemma keeps_current : keeps current_pid (fun pid => A pid /\ 1 <= pid).
Proof.
  intros k g x k' Hk [= <- <-]. split; [|by exists g]. pose proof (ki_current _ _ _ _ Hk) as Hc. split; [done|]. by eapply A_pos.
Qed.
Lemma keeps_current_process : keeps current_process futures_ok.
Proof.
  eapply keeps_bind; [apply keeps_current|]. intros pid [_ Hp]. apply keeps_unwrap. intros k g r k' Hk Hrun.
  split; [|by eapply keeps_process]. revert Hrun. unfold process, bind. destruct (process_slot pid k) as [[o k1]|] eqn:E; [|done].
  apply process_slot_Some in E as [-> E]. intros [= <- <-]. destruct o as [p|]; [|done].
  apply (inv_process _ _ _ _ _ _ Hk Hp) in E as [Hi _]. apply Hi.
Qed.
Lemma keeps_on_current {X} (m : M PS X) (R : X -> Prop) : ps_keeps m R -> keeps (on_current m) R.
Proof. intros Hm. eapply keeps_bind; [apply keeps_current|]. intros pid [_ Hp]. apply keeps_unwrap. by apply keeps_on_process. Qed.

Lemma keeps_activate pid : 1 <= pid -> keeps (activate_process pid) any.
Proof.
  intros Hp k g x k' Hk. unfold activate_process, bind_try, process, bind at 1 2.
  destruct (process_slot pid k) as [[o k1]|] eqn:E; [|done]. apply process_slot_Some in E as [-> Hat].
  destruct o as [p|]; cbn; [|intros [= <- <-]; split; [done|by exists g]]. intros [= <- <-]. split; [done|]. exists g.
  destruct (inv_process _ _ _ _ _ _ Hk Hp Hat) as [_ Hpid].
  assert (HA : A pid) by (apply (ki_alive _ _ _ _ Hk); split; [done|by rewrite Hat]).
  destruct Hk as [H1 H2 H3 H4 H5 H6 H7 H8 H9 [Ha1 Ha2] H11]. split; cbn; try done. by rewrite Hpid.
Qed.

(** A server that was found in its slot. *)
Lemma keeps_server_from sidx : keeps (server_from_sidx sidx) (fun o => forall s, o = Some s -> server_ok (Al sidx) s).
Proof.
  intros k g o k' Hk. unfold server_from_sidx, bind, gets. destruct (length (servers k) <? sidx)%nat.
  { intros [= <- <-]. split; [done|by exists g]. }
  unfold expect. destruct (servers k !! sidx) as [o'|] eqn:E; [|done]. intros [= <- <-].
  split; [|by exists g]. intros s ->. by apply (ki_server _ _ _ _ Hk).
Qed.

Lemma inv_put_server k g sidx s : inv A Al k g -> server_ok (Al sidx) s ->
  inv A Al (set_servers (<[sidx := Some s]> (servers k)) k) g.
Proof.
  intros [] Hs. split; cbn; try done; [by rewrite length_insert|].
  intros i r Hr. apply list_lookup_insert_Some in Hr as [(<- & [= <-] & _)|[_ Hr]]; auto.
Qed.

Lemma keeps_on_server {X} sidx (m : M Server X) (R : X -> Prop) :
  srv_keeps (Al sidx) m R -> keeps (on_server sidx m) R.
Proof.
  intros Hm. eapply keeps_bind; [apply keeps_server_from|]. intros o Ho.
  eapply keeps_bind; [apply (keeps_expect o (fun s => server_ok (Al sidx) s)), Ho|].
  intros s Hs k g x k' Hk. destruct (m s) as [[y s']|] eqn:E; [|done]. intros [= <- <-].
  destruct (Hm _ _ _ Hs E) as [HR Hs']. split; [done|]. exists g. by apply inv_put_server.
Qed.

(** *** Walking through the code *)

Lemma keeps_try_any {X Y} (m : M K (res X Error)) (f : X -> M K (res Y Error)) (R : X -> Prop) :
  keeps m (ok_then R) -> (forall x, R x -> keeps (f x) any) -> keeps (x <-? m ;; f x) any.
Proof.
  intros Hm Hf. unfold bind_try. eapply keeps_bind; [exact Hm|]. intros [x|e] HR; [by apply Hf|by apply keeps_ret].
Qed.
Lemma keeps_ok_any {X} (m : M K (res X Error)) : keeps m any -> keeps m (ok_then any).
Proof. apply keeps_mono. by intros []. Qed.
Lemma keeps_unwrap_any {X E} (m : M K (res X E)) : keeps m any -> keeps (unwrap m) any.
Proof. intros Hm. apply keeps_unwrap. eapply keeps_mono; [|exact Hm]. by intros []. Qed.
Lemma keeps_unwrap_ok {X} (m : M K (res X Error)) (R : X -> Prop) : keeps m (ok_then R) -> keeps (unwrap m) R.
Proof. apply keeps_unwrap. Qed.
Lemma keeps_ret_any {X} (x : X) : keeps (ret x) any.
Proof. by apply keeps_ret. Qed.
Lemma keeps_expect_any {X} (o : option X) : keeps (expect o) any.
Proof. by apply keeps_expect. Qed.
Lemma keeps_on_process_any {X} pid (m : M PS X) (R : X -> Prop) : 1 <= pid -> ps_keeps m R -> keeps (on_process pid m) any.
Proof. intros Hp Hm. eapply keeps_weaken. by apply keeps_on_process. Qed.

Hint Resolve keeps_ret_any keeps_panic keeps_gets keeps_expect_any keeps_mem keeps_with_mm keeps_process keeps_on_process
  keeps_current keeps_current_process keeps_on_current keeps_activate keeps_server_from keeps_on_server
  keeps_unwrap_ok keeps_arch : keeps.
Hint Resolve keeps_unwrap_any keeps_ok_any keeps_on_process_any | 10 : keeps.
Hint Resolve arch_set_thread_result arch_retry arch_set_tid arch_current_tid arch_find_free arch_setup_thread
  arch_destroy_thread arch_destroy : keeps.
Hint Resolve ps_ret ps_gets ps_panic ps_expect ps_set_thread_state ps_set_thread_priority ps_thread_state
  ps_thread_priority ps_wake ps_post ps_take_bits ps_take_masked ps_set_future ps_take_future ps_set_mailbox
  ps_take_mailbox ps_poll_mailbox ps_tombstone ps_add_connection ps_set_event_handler ps_allow ps_futex_wake
  ps_bind : keeps.
Hint Resolve take_available_keeps park_keeps return_thread_keeps queue_message_keeps queue_response_keeps take_next_keeps
  take_waiting_keeps : keeps.
Hint Extern 1 (_ <= _) => assumption || lia : keeps.
Hint Extern 1 (_ <= _)%nat => assumption || lia : keeps.
Hint Extern 1 (1 <= _) => match goal with H : _ /\ 1 <= _ |- _ => apply H end : keeps.

Hint Extern 1 (1 <= _)%nat => match goal with H : forall _, Some _ = Some _ -> (1 <= _)%nat |- _ => exact (H _ eq_refl) end : keeps.

Hint Extern 1 (future_ok _) => first [exact I|assumption|
  match goal with H : forall _, Some _ = Some _ -> future_ok _ |- _ => exact (H _ eq_refl) end] : keeps.

Ltac found := solve [eauto 7 with keeps].
Ltac keep_step :=
  match goal with
  | |- keeps (bind_try ?m ?f) any =>
      first [eapply (keeps_try_any m f); [found|]|apply (keeps_try_any m f any); [apply keeps_ok_any|]]; intros; cbv beta in *
  | |- keeps (bind_try ?m ?f) (ok_then _) => eapply (keeps_try m f); [found|intros; cbv beta in *]
  | |- keeps (bind ?m ?f) _ =>
      first [eapply (keeps_bind m f); [found|]|apply (keeps_bind m f any)]; intros; cbv beta in *
  | |- keeps (match ?x with _ => _ end) _ => destruct x eqn:?
  | |- keeps _ _ => found
  end.
Ltac keep := repeat keep_step.

Lemma keeps_set_thread_result pid tid r : 1 <= pid -> keeps (set_thread_result pid tid r) any.
Proof. intros Hp. unfold set_thread_result. keep. Qed.
Hint Resolve keeps_set_thread_result : keeps.

Lemma keeps_wake pid tid r : 1 <= pid -> (1 <= tid)%nat -> keeps (wake_thread_with_result pid tid r) any.
Proof. intros Hp Ht. unfold wake_thread_with_result. keep. Qed.
Lemma keeps_suspend tid f mask : (1 <= tid)%nat -> future_ok f -> keeps (suspend_with_future tid f mask) any.
Proof. intros Ht Hf. unfold suspend_with_future. keep. Qed.
Hint Resolve keeps_wake keeps_suspend : keeps.

Lemma keeps_for_processes f l : ps_keeps f any -> keeps (for_processes f l) any.
Proof. intros Hf. induction l as [|i l IH]; cbn; keep. Qed.
Lemma keeps_for_all f : ps_keeps f any -> keeps (for_all_processes f) any.
Proof. intros Hf. unfold for_all_processes. eapply keeps_bind; [found|]. intros n _. by apply keeps_for_processes. Qed.
Lemma keeps_wake_state st n : 0 <= n -> keeps (wake_threads_with_state st n) any.
Proof. intros Hn. apply keeps_for_all. found. Qed.
Lemma keeps_wake_state_max st : keeps (wake_threads_with_state st USIZE_MAX) any.
Proof. by apply keeps_wake_state. Qed.
Hint Resolve keeps_for_all keeps_wake_state_max : keeps.

Lemma keeps_sidx sid pid : keeps (sidx_from_sid sid pid) (fun o => forall i, o = Some i -> (i < MAX_SERVER_COUNT)%nat).
Proof.
  intros k g o k' Hk [= <- <-]. split; [|by exists g]. intros i Hi. apply position_Some in Hi as [(x & Hx & _) _].
  apply lookup_lt_Some in Hx. by rewrite (ki_slen _ _ _ _ Hk) in Hx.
Qed.
Lemma keeps_any_sidx sid : keeps (sidx_from_any_sid sid) any.
Proof. apply keeps_gets. Qed.
Lemma keeps_connect pid sid : 1 <= pid -> keeps (connect_to_server pid sid) any.
Proof. intros Hp. unfold connect_to_server. eapply keeps_bind; [apply keeps_any_sidx|]. intros; keep. Qed.
Lemma keeps_connected cid : keeps (connected cid) any.
Proof. unfold connected. keep. Qed.
Hint Resolve keeps_sidx keeps_any_sidx keeps_connect keeps_connected : keeps.

Lemma keeps_disconnect cid : keeps (disconnect_from_server cid) any.
Proof.
  unfold disconnect_from_server.
  assert (Hput : forall i c, keeps (on_current (update (fun p => set_connections (<[i := c]> (connection_map p)) p))) any).
  { intros i c. apply keeps_on_current, ps_update, rows_connection. }
  keep.
Qed.

Lemma keeps_wake_if sidx b : keeps (wake_if_unfull sidx b) any.
Proof. unfold wake_if_unfull. keep. Qed.
Hint Resolve keeps_disconnect keeps_wake_if : keeps.

Lemma keeps_poll f pid tid : 1 <= pid -> keeps (poll f pid tid) any.
Proof. intros Hp. unfold poll, poll_receive_message, poll_process_mailbox. destruct f; keep. Qed.
Hint Resolve keeps_poll : keeps.

Lemma keeps_dispatch cp ct pid tid : 1 <= pid -> valid_tid tid -> keeps (dispatch cp ct pid tid) any.
Proof. intros Hp Ht. unfold dispatch. keep. Qed.
Hint Resolve keeps_dispatch : keeps.

Lemma keeps_head : keeps (on_scheduler rq_head)
  (fun o => forall t, o = Some t -> 1 <= t.1 /\ valid_tid (Z.to_nat t.2)).
Proof.
  intros k g x k' Hk. unfold on_scheduler, lift.
  destruct (rq_head_spec (sched k) g (ki_rel _ _ _ _ Hk)) as (o & E & Ho). rewrite E. intros [= <- <-]. split.
  - intros t ->. destruct Ho as (pr & Hin & _). pose proof (ki_live _ _ _ _ Hk pr t Hin) as [Ht Hat]. split; [done|].
    destruct Hat as [p Hp]. destruct (inv_process _ _ _ _ _ _ Hk Ht Hp) as [Hi Hpid]. destruct t as [pid tid]. cbn in *.
    rewrite <- Hpid in Hin. destruct (pi_valid _ _ (pv_inv _ _ Hi) pr tid Hin) as (n & -> & Hn). by rewrite Nat2Z.id.
  - exists g. by destruct Hk.
Qed.

Lemma keeps_activate_loop fuel cp ct : keeps (activate_loop fuel cp ct) any.
Proof.
  induction fuel as [|fuel IH]; cbn [activate_loop]; [found|]. eapply keeps_bind; [apply keeps_head|]. intros h Hh.
  destruct h as [[pid tid]|]; [|found]. destruct (Hh _ eq_refl) as [Hp Ht]. cbn [fst snd] in Hp, Ht. pose proof (proj1 Ht) as Ht1. keep.
Qed.

Lemma keeps_activate_current : keeps activate_current any.
Proof. unfold activate_current. keep. apply keeps_activate_loop. Qed.
Hint Resolve keeps_activate_current : keeps.

Lemma keeps_retry tid st : (1 <= tid)%nat -> keeps (retry_syscall tid st) any.
Proof. intros Ht. unfold retry_syscall. keep. Qed.
Hint Resolve keeps_retry : keeps.

(** *** Messages *)

Lemma keeps_translate pid msg : keeps (translate_message pid msg) (ok_then (fun m => is_blocking m = is_blocking msg)).
Proof.
  assert (H : forall mk mem (t : M K (res Z Error)), keeps t any ->
    (forall m', is_blocking (mk m') = is_blocking (mk mem)) ->
    keeps (new_virt <-? t ;; buf <-? ret (MemoryRange_new new_virt (range_size (mm_buf mem))) ;;
           ret (Ok (mk (mkMemoryMessage (mm_id mem) buf (mm_offset mem) (mm_valid mem)))))
      (ok_then (fun m => is_blocking m = is_blocking (mk mem)))).
  { intros mk mem t Ht Hb. eapply (keeps_try _ _ any); [by apply keeps_ok_any|]. intros v _.
    eapply (keeps_try _ _ any); [by apply keeps_ret; destruct (MemoryRange_new _ _)|]. intros buf _. by apply keeps_ret, Hb. }
  destruct msg; cbn [translate_message]; try by apply keeps_ret.
  all: apply H; [found|done].
Qed.

Lemma keeps_notify pid : 1 <= pid -> keeps (notify_server pid) any.
Proof. intros Hp. unfold notify_server. keep. Qed.
Hint Resolve keeps_notify : keeps.

Lemma keeps_queue sidx pid tid msg addr : (is_blocking msg = true -> Al sidx pid /\ 1 <= u8 (Z.of_nat tid)) ->
  keeps (queue_server_message sidx pid tid msg addr) any.
Proof. intros H. unfold queue_server_message. keep. Qed.
Lemma keeps_remember sidx pid tid msg addr : Al sidx pid -> 1 <= u8 (Z.of_nat tid) ->
  keeps (remember_server_message sidx pid tid msg addr) any.
Proof. intros H Ht. unfold remember_server_message. keep. Qed.

Hypothesis A_ok : forall q, A q -> 1 <= q.
Hypothesis Al_sub : forall i q, Al i q -> A q.

Lemma keeps_send_inner tid sidx msg :
  (is_blocking msg = true -> (forall q, A q -> Al sidx q) /\ 1 <= u8 (Z.of_nat tid)) ->
  keeps (send_message_inner tid sidx msg) any.
Proof.
  intros Hb. unfold send_message_inner. eapply keeps_bind; [apply keeps_server_from|]. intros o Ho.
  eapply keeps_bind; [apply (keeps_expect o (server_ok (Al sidx))), Ho|]. intros s Hs.
  assert (Hsp : 1 <= srv_pid s) by (eapply A_ok, Al_sub, so_owner; done).
  destruct (is_queue_full s); [found|].
  eapply keeps_try_any; [apply keeps_translate|]. intros m Hm. rewrite <- Hm in Hb.
  eapply keeps_bind; [apply keeps_current|]. intros cur [HA Hcur].
  eapply keeps_bind; [apply keeps_on_server, take_available_keeps|]. intros av Hav. destruct av as [t|].
  - specialize (Hav t eq_refl). eapply (keeps_bind _ _ any).
    { destruct (is_blocking m); [|found]. destruct (Hb eq_refl) as [Hal Ht]. apply keeps_remember; auto. }
    intros r _. keep.
  - eapply (keeps_try_any _ _ any).
    { apply keeps_ok_any, keeps_queue. intros Hbl. destruct (Hb Hbl). auto. }
    intros _ _. keep.
Qed.

Lemma keeps_event pid e a0 a1 a2 a3 : keeps (send_event pid e a0 a1 a2 a3) any.
Proof.
  unfold send_event. eapply keeps_try_any; [found|]. intros p _. eapply keeps_bind; [found|]. intros [[sid id]|] _; [|found].
  eapply keeps_bind; [found|]. intros [sidx|] _; [|found]. by apply keeps_send_inner.
Qed.
Hint Resolve keeps_event : keeps.

Lemma keeps_broadcast e a0 a1 a2 a3 l : keeps (broadcast_loop e a0 a1 a2 a3 l) any.
Proof. induction l as [|i l IH]; cbn; keep. Qed.

Lemma keeps_broadcast_event e a0 a1 a2 a3 : keeps (broadcast_event e a0 a1 a2 a3) any.
Proof. apply keeps_broadcast. Qed.

(** *** Servers *)

Lemma map_range_size E cp cur phys virt size flags user y r y' :
  map_range E cp cur phys virt size flags user y = Some (Ok r, y') -> range_size r = size.
Proof.
  unfold map_range. intros (v & y1 & _ & H)%bind_try_ok. apply bind_try_ok in H as (p & y2 & _ & H).
  apply bind_try_ok in H as (q & y3 & _ & H). apply bind_try_ok in H as (u & y4 & _ & H).
  unfold ret in H. injection H as H _. revert H. unfold MemoryRange_new. destruct (nonzero v); [|done]. cbn.
  unfold nonzero. destruct (size =? 0); [done|]. by intros [= <-].
Qed.

Lemma keeps_create_server page sid perms : (forall i, page i = QM_Empty) -> (forall i q, A q -> Al i q) ->
  keeps (create_server_with_address page sid perms) any.
Proof.
  intros Hz HA. unfold create_server_with_address. eapply keeps_bind; [apply keeps_current|]. intros pid [Hpid _].
  eapply keeps_bind; [found|]. intros l _. destruct (position _ l) as [sidx|]; [|found].
  eapply (keeps_try_any _ _ (fun r => range_size r = PAGE_SIZE)).
  { intros k g r k' Hk Hrun. split; [|by eapply (keeps_with_mm _ k g r k' Hk)]. revert Hrun.
    unfold with_mm. intros (E0 & k1 & [= <- <-] & Hrun)%run_bind. apply run_bind in Hrun as (p0 & k2 & [= <- <-] & Hrun).
    apply run_bind in Hrun as (cur & k3 & Hcur & Hrun). apply expect_Some in Hcur as (c & _ & [= -> ->]). revert Hrun.
    unfold on_mem, lift. destruct (map_range _ _ _ _ _ _ _ _ _) as [[r' y]|] eqn:E; [|done]. intros [= <- <-].
    destruct r' as [range|]; [|done]. by apply map_range_size in E. }
  intros backing Hsize. destruct (Server_init None pid sid backing page perms) as [[server|]|] eqn:E; [|found..].
  eapply (keeps_bind _ _ any); [|intros; keep].
  intros k g x k' Hk [= <- <-]. split; [done|]. exists g. apply inv_put_server; [done|].
  destruct (Server_init_zero_page _ _ _ _ _ _ Hz E) as [p ->]. rewrite Hsize.
  apply fresh_server_ok; [by vm_compute; lia|by apply HA].
Qed.

Lemma keeps_wake_client pid tid : 1 <= pid -> 1 <= tid -> keeps (wake_client pid tid) any.
Proof. intros Hp Ht. unfold wake_client. keep. Qed.
Lemma keeps_refuse_client pid tid : 1 <= pid -> keeps (refuse_client pid tid) any.
Proof. intros Hp. unfold refuse_client. keep. Qed.
Hint Resolve keeps_wake_client keeps_refuse_client : keeps.

Lemma keeps_destroy_entry m : (forall pid tid, entry_client m = Some (pid, tid) -> A pid /\ 1 <= tid) ->
  keeps (destroy_entry m) any.
Proof.
  intros Hm. destruct m as [|pid tid| | |pid tid|pid tid| | | |pid tid| |pid tid|]; cbn [destroy_entry entry_client] in *; try found.
  all: destruct (Hm _ _ eq_refl) as [Hp%A_ok Ht]; keep.
Qed.

Lemma keeps_destroy_entries q : clients_ok A q -> keeps (destroy_entries q) any.
Proof.
  induction q as [|m q IH]; intros Hq; cbn; [found|].
  eapply (keeps_bind _ _ any); [apply keeps_destroy_entry; intros pid tid; by apply (Hq 0%nat)|].
  intros _ _. apply IH. intros j m' pid tid Hj. by apply (Hq (Datatypes.S j)).
Qed.

Lemma keeps_wake_available fuel pid s : 1 <= pid -> server_ok A s -> keeps (wake_available fuel pid s) any.
Proof.
  intros Hp. revert s. induction fuel as [|fuel IH]; intros s Hs; cbn [wake_available];
    destruct (take_available_thread s) as [[[t|] s']|] eqn:E; try found;
    destruct (take_available_keeps A s _ _ Hs E) as [Ht Hs']; specialize (Ht t eq_refl).
  eapply (keeps_bind _ _ any); [found|]. intros _ _. eapply (keeps_bind _ _ any); [found|]. intros _ _. by apply IH.
Qed.

Lemma keeps_server_destroy s : server_ok A s -> keeps (server_destroy s) any.
Proof.
  intros Hs. unfold server_destroy. eapply keeps_bind; [apply keeps_destroy_entries, Hs|]. intros _ _.
  eapply keeps_bind; [apply keeps_current|]. intros pid [_ Hp].
  eapply keeps_bind; [by apply keeps_wake_available|]. intros _ _. found.
Qed.

Lemma keeps_disconnect_processes sidx l : keeps (disconnect_processes sidx l) any.
Proof. induction l as [|i l IH]; cbn [disconnect_processes]; keep. Qed.

(** *** Threads *)

Lemma keeps_create_thread tid init : keeps (create_thread tid init) any.
Proof. unfold create_thread. keep. Qed.

(** The interrupt thread never waits for another. *)
Lemma joiner_pos p tid w : futures_ok p -> is_joiner p tid w = true -> (1 <= w)%nat.
Proof. intros [H0 _]. destruct w; [|lia]. unfold is_joiner, kernel_future. by rewrite H0. Qed.

Lemma keeps_wake_joiners tid v l : keeps (wake_joiners tid v l) any.
Proof.
  induction l as [|w l IH]; cbn [wake_joiners]; [found|]. eapply keeps_bind; [apply keeps_current_process|]. intros p Hp.
  eapply keeps_bind; [apply keeps_current|]. intros pid [_ Hpid]. destruct (is_joiner p tid w) eqn:E; [|keep].
  pose proof (joiner_pos _ _ _ Hp E). keep.
Qed.
Hint Resolve keeps_wake_joiners : keeps.

Lemma keeps_thread_exited tid : (1 <= tid)%nat -> keeps (thread_exited tid) any.
Proof. intros Ht. unfold thread_exited. keep. Qed.

Lemma keeps_join tid other : (1 <= tid)%nat -> keeps (join_thread tid other) any.
Proof. intros Ht. unfold join_thread. keep. Qed.

(** *** The display *)

Lemma keeps_display_modify f : (forall d, waiting (f d) = waiting d /\ (display_ok d -> display_ok (f d))) ->
  keeps (on_display (modify f)) any.
Proof. intros Hf. apply keeps_display. intros d x d' [Hd Hw] [= <- <-]. split; [done|]. destruct (Hf d) as [E Hok]. split; [auto|by rewrite E]. Qed.

Lemma keeps_set_owner o : keeps (on_display (modify (set_owner o))) any.
Proof. apply keeps_display_modify. intros d. split; [done|]. by intros []. Qed.
Lemma keeps_release row col : keeps (on_display (modify (fun d => set_cursor row col (set_owner None d)))) any.
Proof. apply keeps_display_modify. intros d. split; [done|]. by intros []. Qed.
Lemma keeps_set_focus sid : keeps (on_display (set_input_focus sid)) any.
Proof. apply keeps_display_modify. intros d. split; [done|]. by intros []. Qed.
Lemma keeps_clear_focus : keeps (on_display clear_input_focus) any.
Proof. apply keeps_display_modify. intros d. split; [done|]. by intros []. Qed.
Lemma keeps_drain : keeps (on_display (drain_input_buf (replicate INPUT_BUF_CAP 0))) any.
Proof.
  apply keeps_display. intros d x d' [Hd Hw] Hrun. split; [done|].
  destruct (drain_input_buf_run d (replicate INPUT_BUF_CAP 0) Hd) as (out & d1 & E & Hok & _ & _ & Hwt & _); [by rewrite length_replicate|].
  rewrite E in Hrun. injection Hrun as <- <-. split; [done|]. by rewrite Hwt.
Qed.
Lemma keeps_push_char c : keeps (on_display (push_input_char c)) any.
Proof.
  apply keeps_display. intros d x d' [Hd Hw] Hrun. split; [done|].
  destruct (push_input_char_run d c Hd) as (d1 & E & Hok & Hwt & _). rewrite E in Hrun. injection Hrun as <- <-.
  split; [done|]. by rewrite Hwt.
Qed.
Lemma keeps_push_waiter pid tid : 1 <= pid -> 1 <= tid -> keeps (on_display (push_waiter pid tid)) any.
Proof.
  intros Hp Ht. apply keeps_display. intros d x d' [Hd Hw] Hrun. split; [done|].
  destruct (push_waiter_run d pid tid Hd) as (d1 & E & Hok & _ & _ & _ & Hwt). rewrite E in Hrun. injection Hrun as <- <-.
  split; [done|]. rewrite Hwt. intros p t. case_decide; [|apply Hw].
  rewrite elem_of_app, list_elem_of_singleton. intros [?|[= -> ->]]; eauto.
Qed.
Lemma keeps_pop_waiter : keeps (on_display pop_waiter) (fun o => forall p t, o = Some (p, t) -> 1 <= p /\ 1 <= t).
Proof.
  apply keeps_display. intros d x d' [Hd Hw] Hrun.
  destruct (pop_waiter_run d Hd) as (d1 & E & Hok & _ & _ & _ & Hwt). rewrite E in Hrun. injection Hrun as <- <-.
  destruct (waiting d) as [|w l] eqn:El; cbn in *.
  - split; [done|]. split; [done|]. by rewrite Hwt.
  - split; [intros p t [= ->]; apply (Hw p); by left|]. split; [done|]. rewrite Hwt. intros p t Hin. apply (Hw p). by right.
Qed.
Hint Resolve keeps_set_owner keeps_release keeps_set_focus keeps_clear_focus keeps_drain keeps_push_char keeps_push_waiter
  keeps_pop_waiter : keeps.

Lemma keeps_mapping_of pid : keeps (mapping_of pid) any.
Proof. unfold mapping_of. keep. Qed.
Hint Resolve keeps_mapping_of : keeps.
Lemma keeps_each_page f l : (forall i, keeps (f i) any) -> keeps (each_page f l) any.
Proof. intros Hf. induction l as [|i l IH]; cbn [each_page]; [found|]. eapply keeps_bind; [apply Hf|]. auto. Qed.
Lemma keeps_map_fb pid : keeps (map_fb_for pid) any.
Proof. unfold map_fb_for. keep. apply keeps_each_page. intros i. keep. Qed.
Lemma keeps_unmap_fb pid : keeps (unmap_fb_for pid) any.
Proof. unfold unmap_fb_for. keep. apply keeps_each_page. intros i. keep. Qed.
Hint Resolve keeps_map_fb keeps_unmap_fb : keeps.

Lemma keeps_hand_off fuel row col : keeps (hand_off fuel row col) any.
Proof.
  induction fuel as [|fuel IH]; cbn [hand_off]; [found|]. eapply keeps_bind; [found|].
  intros [[pid tid]|] Hw; [|found]. specialize (Hw pid tid eq_refl) as [Hp Ht]. keep.
Qed.
Hint Resolve keeps_create_thread keeps_join keeps_hand_off : keeps.

Lemma keeps_release_display row col : keeps (release_display row col) any.
Proof. unfold release_display. keep. Qed.
Lemma keeps_release_on_exit pid : keeps (release_display_on_exit pid) any.
Proof. unfold release_display_on_exit. keep. Qed.
Lemma keeps_try_acquire pid tid : 1 <= pid -> (1 <= tid)%nat -> keeps (try_acquire_display pid tid) any.
Proof. intros Hp Ht. unfold try_acquire_display. keep. Qed.
Lemma keeps_acquire_focus pid sid : keeps (acquire_input_focus pid sid) any.
Proof. unfold acquire_input_focus. keep. Qed.
Hint Resolve keeps_release_display keeps_release_on_exit keeps_try_acquire keeps_acquire_focus : keeps.

Lemma keeps_deliver_char sid c : keeps (deliver_char_to_sid sid c) any.
Proof.
  unfold deliver_char_to_sid. eapply keeps_bind; [found|]. intros [sidx|] _; [|found].
  eapply keeps_bind; [apply keeps_server_from|]. intros [s|] Hs; [|found]. specialize (Hs s eq_refl).
  assert (Hsp : 1 <= srv_pid s) by (eapply A_ok, Al_sub, so_owner; done).
  eapply keeps_bind; [apply keeps_on_server, take_available_keeps|]. intros [t|] Ht.
  - specialize (Ht t eq_refl). keep.
  - eapply (keeps_bind _ _ any); [by apply keeps_queue|]. intros _ _. keep.
Qed.
Hint Resolve keeps_deliver_char : keeps.
Lemma keeps_deliver_chars sid l : keeps (deliver_chars sid l) any.
Proof. induction l as [|c l IH]; cbn [deliver_chars]; keep. Qed.
Lemma keeps_input_char c : keeps (dispatch_input_char c) any.
Proof. unfold dispatch_input_char, display_input_sid, push_display_input_char. keep. Qed.
Hint Resolve keeps_deliver_chars : keeps.

(** *** Interrupts and panic messages *)

Lemma keeps_put_irq irq h : keeps (put_irq irq h) any.
Proof. apply keeps_same. by intros k x k' [= <- <-]. Qed.
Lemma keeps_irq_slot irq : keeps (irq_slot irq) any.
Proof. unfold irq_slot. keep. Qed.
Hint Resolve keeps_put_irq keeps_irq_slot : keeps.
Lemma keeps_claim irq pid pc arg : keeps (interrupt_claim_user irq pid pc arg) any.
Proof. unfold interrupt_claim_user. keep. Qed.
Lemma keeps_irq_free irq pid : keeps (interrupt_free irq pid) any.
Proof. unfold interrupt_free. keep. Qed.
Lemma keeps_append_panic msg : keeps (append_panic_message msg) any.
Proof.
  assert (H : forall f : K -> K, (forall k, same_core k (f k)) -> keeps (modify f) any).
  { intros f Hf. apply keeps_same. intros k x k' [= <- <-]. apply Hf. }
  unfold append_panic_message. eapply keeps_bind; [found|]. intros pid _.
  eapply keeps_bind; [apply H; intros k; by case_bool_decide|]. intros _ _. destruct (negb _); [found|].
  eapply keeps_bind; [by apply H|]. intros _ _. found.
Qed.
Lemma keeps_take_panic : keeps take_panic_message any.
Proof.
  unfold take_panic_message. eapply keeps_bind; [found|]. intros pid _. eapply keeps_bind; [found|]. intros m _.
  eapply (keeps_bind _ _ any); [apply keeps_same; by intros k x k' [= <- <-]|]. intros _ _. found.
Qed.
Hint Resolve keeps_claim keeps_irq_free keeps_append_panic keeps_take_panic : keeps.

Lemma keeps_wake_waiters code l : Forall (fun w => 1 <= w.1 /\ (1 <= w.2)%nat) l -> keeps (wake_waiters code l) any.
Proof. induction 1 as [|[pid tid] l [Hp Ht] _ IH]; cbn [wake_waiters fst snd] in *; keep. Qed.

(** The waiters that [terminate_current_process] collects. *)
Lemma keeps_waiters pid : keeps (gets (fun k => take 64 (exit_waiters pid (processes k))))
  (Forall (fun w => 1 <= w.1 /\ (1 <= w.2)%nat)).
Proof.
  intros k g x k' Hk [= <- <-]. split; [|by exists g]. apply Forall_take, Forall_forall. intros w Hw.
  apply list_elem_of_In, in_flat_map in Hw as (o & Ho%list_elem_of_In & Hw). destruct o as [p|]; [|done].
  apply list_elem_of_In, list_elem_of_fmap in Hw as (t & -> & Ht%list_elem_of_In). cbn.
  apply filter_In in Ht as [Ht%in_seq _]. apply list_elem_of_lookup in Ho as [i Hi].
  destruct (ki_proc _ _ _ _ Hk i p Hi) as [_ ->]. lia.
Qed.

(** *** The system calls, those that destroy servers or processes apart *)

Hypothesis Al_all : forall i q, A q -> Al i q.

Context (tid : nat) (Ht : valid_tid tid).

Lemma tid_pos : (1 <= tid)%nat.
Proof. apply Ht. Qed.
Lemma tid_u8 : 1 <= u8 (Z.of_nat tid).
Proof.
  assert (H : (1 <= tid < 32)%nat) by exact Ht. rewrite u8_small by lia. lia.
Qed.
Hint Resolve tid_pos tid_u8 : keeps.

Lemma keeps_send cid msg : keeps (send_message tid cid msg) any.
Proof.
  unfold send_message. eapply keeps_try_any; [found|]. intros [sidx pm] _. eapply keeps_bind; [found|]. intros o _.
  eapply keeps_bind; [found|]. intros s _. eapply keeps_bind; [found|]. intros pid _. destruct (_ && _); [found|].
  eapply keeps_try_any; [apply keeps_ok_any, keeps_send_inner; intros _; split; [apply Al_all|apply tid_u8]|]. intros _ _.
  keep.
Qed.
Hint Resolve keeps_send : keeps.

Lemma keeps_take_reply sender buf :
  keeps (take_reply sender buf) (ok_then (reply_ok (fun q => A q))).
Proof.
  unfold take_reply. eapply keeps_try; [apply keeps_ok_any; unfold reply_server; keep|]. intros s _.
  eapply keeps_try; [apply keeps_on_server, take_waiting_keeps|]. intros w Hw.
  eapply keeps_bind; [found|]. intros _ _. apply keeps_ret. cbn. destruct w; cbn in *; try done; destruct Hw; eauto.
Qed.

Lemma keeps_finish : keeps (finish_reply tid) any.
Proof. unfold finish_reply. keep. Qed.
Hint Resolve keeps_finish : keeps.

Lemma keeps_return_memory token buf o v : keeps (sys_return_memory tid token buf o v) any.
Proof.
  unfold sys_return_memory. eapply keeps_try_any; [apply keeps_take_reply|]. intros w Hw.
  destruct w as [|pid t ca|pid t| |r]; cbn in Hw; try (destruct Hw as [Hp%A_ok Htt]); cbv iota beta; keep.
Qed.
Lemma keeps_return_result token r : keeps (return_result tid token r) any.
Proof.
  unfold return_result. eapply keeps_try_any; [apply keeps_take_reply|]. intros w Hw.
  destruct w as [|pid t ca|pid t| |range]; cbn in Hw; try (destruct Hw as [Hp%A_ok Htt]); cbv iota beta; keep.
Qed.
Lemma keeps_receive sid b : keeps (receive_message tid sid b) any.
Proof.
  pose proof Ht as [? ?]. unfold receive_message. eapply keeps_bind; [found|]. intros pid _. eapply keeps_bind; [found|].
  intros [sidx|] Hsidx; [|found]. assert (Hf : future_ok (KF_ReceiveMessage (Z.of_nat sidx))).
  { specialize (Hsidx _ eq_refl). cbn. lia. }
  keep.
Qed.

Lemma keeps_by_mask call : keeps (is_permitted_by_mask call) any.
Proof. unfold is_permitted_by_mask. keep. Qed.
Lemma keeps_server_is_current pid cid : keeps (server_is_current pid cid) any.
Proof. unfold server_is_current. keep. Qed.
Hint Resolve keeps_by_mask keeps_server_is_current : keeps.
Lemma keeps_permission call : keeps (check_syscall_permission call) any.
Proof. unfold check_syscall_permission. destruct call; keep. Qed.

Lemma keeps_map_ok {X} (f : X -> XResult) (m : M K (res X Error)) : keeps m any -> keeps (map_ok f m) any.
Proof. intros Hm. unfold map_ok. eapply keeps_bind; [exact Hm|]. intros r _. found. Qed.

Lemma keeps_futex_wait i addr v : keeps (sys_futex_wait i tid addr v) any.
Proof. unfold sys_futex_wait. keep. Qed.
Lemma keeps_futex_wake addr n : keeps (sys_futex_wake addr n) any.
Proof.
  unfold sys_futex_wake. eapply keeps_bind; [apply keeps_on_current, ps_futex_wake|intros _ _; found].
  apply Forall_forall. intros t Hin%list_elem_of_In%in_seq. lia.
Qed.

Lemma keeps_yield_op pid prio : 1 <= pid <= MAX_PROCESS_COUNT -> keeps (on_scheduler (rq_yield pid (Z.of_nat tid) prio)) any.
Proof.
  intros Hp k g x k' Hk. unfold on_scheduler, lift.
  destruct (rq_yield_spec (sched k) g pid (Z.of_nat tid) prio (ki_rel _ _ _ _ Hk)) as (q & g' & E & Hrel & Hin).
  { by apply tid_index_ok. }
  rewrite E. intros [= <- <-]. split; [done|]. exists g'. destruct Hk as [H1 H2 H3 H4 H5 H6 H7 H8 H9 H10 H11]. split; cbn; try done.
  - intros i p Hi. destruct (H4 i p Hi) as [[[Hw _ Ha Hv] Hfu] Hpid]. split; [|done]. split; [|done]. split; [done|done| |].
    + intros t st pr pr' Htt Hst Hpr. rewrite Hin. by apply Ha.
    + intros pr t Htt. apply (Hv pr). by apply Hin.
  - intros pr t Htt. apply (H5 pr). by apply Hin.
Qed.

Lemma keeps_current_bound : keeps current_pid (fun pid => 1 <= pid <= MAX_PROCESS_COUNT).
Proof.
  intros k g x k' Hk [= <- <-]. split; [|by exists g]. pose proof (proj1 (ki_alive _ _ _ _ Hk _) (ki_current _ _ _ _ Hk)) as [H1 [p Hp]].
  split; [done|]. apply process_at_lookup, lookup_lt_Some in Hp. rewrite (ki_plen _ _ _ _ Hk) in Hp.
  unfold process_index, PROCESS_SLOTS, MAX_PROCESS_COUNT in *. lia.
Qed.

Lemma keeps_yield : keeps (sys_yield tid) any.
Proof.
  unfold sys_yield. eapply keeps_bind; [found|]. intros pid [_ Hp]. eapply keeps_try_any; [found|]. intros _ _.
  eapply keeps_bind; [found|]. intros prio _. eapply keeps_bind; [apply keeps_current_bound|]. intros pid' Hp'.
  eapply keeps_bind; [by apply keeps_yield_op|]. intros _ _. found.
Qed.

Lemma keeps_priority prio : keeps (sys_set_thread_priority tid prio) any.
Proof. unfold sys_set_thread_priority. keep. Qed.
Lemma keeps_wait_event mask : keeps (sys_wait_event tid mask) any.
Proof. unfold sys_wait_event. keep. Qed.
Lemma keeps_post_event pid bits : keeps (sys_post_event pid bits) any.
Proof.
  unfold sys_post_event. destruct (bits =? 0); [found|]. eapply keeps_bind; [found|]. intros cur [_ Hc].
  destruct (Z.eqb_spec pid cur) as [->|]; cbn [negb]; [|found]. keep.
Qed.
Lemma keeps_wait_process pid : keeps (sys_wait_process tid pid) any.
Proof. unfold sys_wait_process. keep. Qed.
Lemma keeps_acquire_display : keeps (sys_acquire_display tid) any.
Proof. unfold sys_acquire_display, display_cursor. keep. Qed.
Lemma keeps_acquire_input sid : keeps (sys_acquire_input_focus sid) any.
Proof. unfold sys_acquire_input_focus. keep. Qed.

Lemma srv_permissions Q messages : srv_keeps Q (fun s => match permissions_add messages (default_permissions s) with
    | Some (r, p) => Some (r, set_default_permissions p s) | None => None end) (fun _ => True).
Proof.
  intros s r s' [Ho [idxs []] Hc Hr]. destruct (permissions_add _ _) as [[r' p]|]; [|done]. intros [= <- <-].
  split; [done|]. split; [done| |done|done]. by exists idxs.
Qed.
Lemma keeps_allow_sid sid messages : keeps (sys_allow_messages_sid sid messages) any.
Proof. unfold sys_allow_messages_sid. pose proof srv_permissions. keep. Qed.
Lemma keeps_allow_cid pid cid messages : 1 <= pid -> keeps (sys_allow_messages_cid pid cid messages) any.
Proof. intros Hp. unfold sys_allow_messages_cid. keep. Qed.
Lemma keeps_remote_pid cid : keeps (sys_get_remote_process_id cid) any.
Proof. unfold sys_get_remote_process_id. keep. Qed.
Lemma keeps_sys_send cid msg : keeps (sys_send_message tid cid msg) any.
Proof. unfold sys_send_message. eapply keeps_bind; [found|]. intros r _. keep. Qed.
Lemma keeps_v2p_pid pid v : keeps (sys_virt_to_phys_pid pid v) any.
Proof. unfold sys_virt_to_phys_pid. keep. Qed.
Lemma keeps_app_id pid : keeps (sys_get_app_id pid) any.
Proof. unfold sys_get_app_id. keep. Qed.
Lemma keeps_panic_message buf : keeps (sys_get_panic_message buf) any.
Proof. unfold sys_get_panic_message. keep. Qed.
Lemma keeps_interrupt no f : (forall irq pid, keeps (f irq pid) any) -> keeps (sys_interrupt no f) any.
Proof. intros Hf. unfold sys_interrupt. destruct (IrqNumber_try_from no); [|found]. eapply keeps_bind; [found|]. intros pid _. by apply keeps_map_ok. Qed.
Hint Resolve keeps_return_memory keeps_return_result keeps_receive keeps_permission keeps_map_ok keeps_futex_wait
  keeps_futex_wake keeps_yield keeps_priority keeps_wait_event keeps_post_event keeps_wait_process keeps_acquire_display
  keeps_acquire_input keeps_allow_sid keeps_allow_cid keeps_remote_pid keeps_sys_send keeps_v2p_pid keeps_app_id
  keeps_panic_message keeps_interrupt keeps_create_server : keeps.

(** *** Loading programs and mirrors *)

Lemma keeps_tables {X} (op : M (VM (A := MemoryManager)) X) : keeps (on_tables op) any.
Proof. apply keeps_mem. Qed.
Lemma keeps_loader {X} mem (op : M (LS (A := MemoryManager)) X) : keeps (on_loader mem op) any.
Proof. apply keeps_mem. Qed.
Hint Resolve keeps_tables keeps_loader arch_put_fresh arch_get arch_setup_process arch_set_thread_args arch_set_thread_arg0 : keeps.

Lemma keeps_map_stack m pid l : keeps (map_stack m pid l) any.
Proof. induction l as [|va l IH]; cbn [map_stack]; keep. Qed.
Hint Resolve keeps_map_stack : keeps.

Lemma keeps_arch_create random prog pid : keeps (arch_create random prog pid) (ok_then (fun q => q = pid)).
Proof.
  unfold arch_create. destruct (_ <=? _)%nat; [by apply keeps_ret|]. eapply keeps_bind; [found|]. intros o _.
  destruct (is_some o); [by apply keeps_ret|]. eapply keeps_bind; [found|]. intros _ _. eapply keeps_try; [found|]. intros p _.
  eapply keeps_bind; [found|]. intros E _. eapply keeps_bind; [found|]. intros m _. eapply keeps_try; [found|]. intros elf _.
  eapply keeps_try; [found|]. intros stack _. eapply keeps_try; [found|]. intros _ _. eapply keeps_try; [found|]. intros _ _.
  eapply keeps_try; [found|]. intros _ _. by apply keeps_ret.
Qed.

Lemma rows_permissions mask : rows_kept (set_syscall_permissions mask).
Proof. by rows. Qed.
Lemma rows_mirror a : rows_kept (set_mirror a).
Proof. by rows. Qed.
Lemma keeps_set_permissions pid mask : 1 <= pid -> keeps (set_permissions pid mask) any.
Proof. intros Hp. eapply keeps_on_process_any; [done|]. apply ps_update, rows_permissions. Qed.
Lemma keeps_map_uart pid : keeps (map_uart pid) any.
Proof. unfold map_uart, mapping_of. keep. Qed.
Lemma keeps_copy_argv pid ptr len : keeps (copy_argv pid ptr len) any.
Proof. unfold copy_argv, mapping_of. keep. Qed.
Lemma keeps_unmap_mirror m virt l : keeps (unmap_mirror m virt l) any.
Proof. induction l as [|o l IH]; cbn [unmap_mirror]; keep. Qed.
Hint Resolve keeps_set_permissions keeps_map_uart keeps_copy_argv keeps_unmap_mirror : keeps.
Lemma keeps_mirror_loop m phys virt done l : keeps (mirror_loop m phys virt done l) any.
Proof. revert done. induction l as [|o l IH]; intros done; cbn [mirror_loop]; keep. Qed.
Hint Resolve keeps_mirror_loop : keeps.
Lemma keeps_map_mirror pid phys size : 1 <= pid -> keeps (map_range_readonly_mirror pid phys size) any.
Proof.
  intros Hp. unfold map_range_readonly_mirror.
  assert (H : forall a, keeps (on_process pid (update (set_mirror a))) any).
  { intros a. eapply keeps_on_process_any; [done|]. apply ps_update, rows_mirror. }
  keep.
Qed.
Hint Resolve keeps_map_mirror : keeps.
Lemma keeps_mirror_memory mem pid : 1 <= pid -> keeps (sys_mirror_memory mem pid) any.
Proof. intros Hp. unfold sys_mirror_memory, translate, add64, add_w. keep. Qed.
Hint Resolve keeps_mirror_memory : keeps.

Lemma keeps_alloc_disk n : keeps (alloc_disk n) any.
Proof. induction n as [|n IH]; cbn [alloc_disk]; keep. Qed.
Lemma keeps_map_disk m va l : keeps (map_disk m va l) any.
Proof. revert va. induction l as [|pa l IH]; intros va; cbn [map_disk]; keep. Qed.
Hint Resolve keeps_alloc_disk keeps_map_disk : keeps.
Lemma keeps_load_disk pid disk : keeps (load_disk pid disk) any.
Proof. unfold load_disk, mapping_of. keep. Qed.
Lemma keeps_map_uart_all l : keeps (map_uart_all l) any.
Proof. induction l as [|pid l IH]; cbn [map_uart_all]; keep. Qed.

(** The processes a call names are numbered from 1, as [PID] is. *)
Definition call_pids_ok (call : SysCall) : Prop :=
  match call with
  | ConnectForProcess pid _ | AllowMessagesCID pid _ _ | TerminatePid pid _ | MirrorMemoryToPid _ pid => 1 <= pid
  | _ => True
  end.

(** Calls treated elsewhere. *)
Definition destroying (call : SysCall) : bool :=
  match call with TerminateProcess _ | TerminatePid _ _ | DestroyServer _ => true | _ => false end.
Definition loading (call : SysCall) : bool :=
  match call with
  | CreateProcess _ | SpawnByName _ _ _ _ | SpawnByNameWithArgs _ _ _ _ => true
  | _ => false
  end.

(** The page that [map_range] populates for a server queue holds zeros. *)
Definition queue_page_zero (i : Input) : Prop := forall j, in_page i j = QM_Empty.

Lemma keeps_handle i call : queue_page_zero i -> call_pids_ok call -> destroying call = false -> loading call = false ->
  keeps (handle i tid call) any.
Proof.
  intros Hz Hc Hd Hl. unfold handle. destruct (_ && _); [found|]. eapply keeps_try_any; [found|]. intros _ _.
  destruct call; try done; cbn in Hc; unfold sys_virt_to_phys, sys_get_binary_name, pid_from_app_id, release_input_focus; keep.
Qed.

End Keeps.

(** ** Destroying servers and processes *)

Lemma inv_mono A (Al Al' : nat -> PID -> Prop) k g :
  (forall i q, servers k !! i <> Some None -> Al i q -> Al' i q) -> (forall i q, Al' i q -> A q) -> inv A Al k g -> inv A Al' k g.
Proof.
  intros Hsub HA []. split; try done. intros i s Hs. eapply server_ok_mono; [|by apply ki_server0]. intros q. apply Hsub.
  by rewrite Hs.
Qed.

Lemma inv_pos A Al k g q : inv A Al k g -> A q -> 1 <= q.
Proof. apply A_pos. Qed.

(** A server taken out of its slot; the slot stays empty. *)
Lemma destroy_sidx_clears A Al k g sidx k' : inv A Al k g -> destroy_sidx sidx k = Some (tt, k') ->
  exists g', inv A (fun i q => Al i q /\ i <> sidx) k' g'.
Proof.
  intros Hk. set (Al' := fun i q => Al i q /\ i <> sidx).
  unfold destroy_sidx. intros (so & k0 & [= <- <-] & H)%run_bind. apply run_bind in H as (o & k0 & Ho & H).
  apply expect_Some in Ho as (o' & Hlk & [= -> ->]). apply run_bind in H as (s & k0 & Hs & H).
  apply expect_Some in Hs as (s' & -> & [= -> ->]). apply run_bind in H as ([] & k1 & [= <-] & H).
  pose proof (ki_server _ _ _ _ Hk sidx s' Hlk) as Hs'.
  assert (Hk1 : inv A Al' (set_servers (<[sidx := None]> (servers k)) k) g).
  { destruct Hk. split; cbn; try done; [by rewrite length_insert|by intros i q [? _]; eapply ki_sub0|].
    intros i r Hr. apply list_lookup_insert_Some in Hr as [(_ & Hbad & _)|[Hne Hr]]; [done|].
    eapply server_ok_mono; [|by apply ki_server0]. intros q Hq. by split. }
  assert (Hpos : forall q, A q -> 1 <= q) by (intros q; by apply (inv_pos _ _ _ _ _ Hk)).
  assert (Hsub : forall i q, Al' i q -> A q) by (intros i q [? _]; by eapply (ki_sub _ _ _ _ Hk)).
  assert (Hall : keeps A Al' (_ <- server_destroy s' ;; n <- gets (fun k => length (processes k)) ;;
                              disconnect_processes sidx (seq 0 n)) (fun _ => True)).
  { eapply keeps_bind; [apply keeps_server_destroy; [done|]|].
    - eapply server_ok_mono; [|exact Hs']. intros q. by apply (ki_sub _ _ _ _ Hk).
    - intros _ _. eapply keeps_bind; [apply keeps_gets|]. intros n _. by apply keeps_disconnect_processes. }
  by destruct (Hall _ _ _ _ Hk1 H).
Qed.

(** Activating a live process succeeds. *)
Lemma activate_ok A Al k g pid r k' : inv A Al k g -> A pid -> activate_process pid k = Some (r, k') -> r = Ok tt.
Proof.
  intros Hk HA. apply (ki_alive _ _ _ _ Hk) in HA as [_ [p Hp]]. unfold activate_process, bind_try, process.
  intros (ra & k1 & Hra & H)%run_bind. apply run_bind in Hra as (o & k2 & Hs & [= <- <-]).
  apply process_slot_Some in Hs as [-> Ho]. rewrite Hp in Ho. subst o. by injection H as <- <-.
Qed.

(** While [pid] leaves: it owns none of the first [n] servers and waits for none of them. *)
Definition left_until (A : PID -> Prop) (pid : PID) (n : nat) (i : nat) (q : PID) : Prop := A q /\ ((i < n)%nat -> q <> pid).

Lemma leave_servers_keeps A pid k g n m r k' :
  inv A (left_until A pid n) k g -> A pid -> (n + m = MAX_SERVER_COUNT)%nat ->
  leave_servers pid (seq n m) k = Some (r, k') ->
  r = Ok tt /\ exists g', inv A (left_until A pid MAX_SERVER_COUNT) k' g'.
Proof.
  intros Hk HAp Hnm. pose proof (inv_pos _ _ _ _ _ Hk HAp) as Hpid. revert n k g Hk Hnm.
  induction m as [|m IH]; intros n k g Hk Hn; cbn [seq leave_servers].
  { intros [= <- <-]. split; [done|]. exists g. by rewrite Nat.add_0_r in Hn; subst n. }
  intros (so & k0 & [= <- <-] & H)%run_bind. apply run_bind in H as (o & k0 & Ho & H).
  apply expect_Some in Ho as (o' & Hlk & [= -> ->]).
  assert (Hsub : forall i q, left_until A pid (Datatypes.S n) i q -> A q) by (by intros i q [? _]).
  destruct o' as [s|].
  2: { apply (IH (Datatypes.S n) k g); [|lia|done]. eapply inv_mono; [|exact Hsub|exact Hk].
       intros i q Hi [HA Hq]. split; [done|]. intros Hlt. apply Hq. destruct (decide (i = n)) as [->|]; [done|lia]. }
  destruct (Z.eqb_spec (srv_pid s) pid) as [E|E].
  - apply run_bind in H as ([] & k1 & Hd & H). destruct (destroy_sidx_clears _ _ _ _ _ _ Hk Hd) as [g1 Hk1].
    apply (IH (Datatypes.S n) k1 g1); [|lia|done]. eapply inv_mono; [|exact Hsub|exact Hk1].
    intros i q _ [[HA Hq] Hne]. split; [done|]. intros Hlt. apply Hq. lia.
  - apply run_bind in H as ([] & k1 & Ha & H).
    assert (Hk1 : inv A (left_until A pid n) k1 g /\ servers k1 = servers k).
    { revert Ha. unfold unwrap, activate_process, bind_try, process, bind at 1 2 3.
      destruct (process_slot (srv_pid s) k) as [[[p|] k2]|] eqn:Eslot; [| |done];
        apply process_slot_Some in Eslot as [-> Hat]; cbn; [|by intros [=]].
      intros [= <-]. split; [|done]. pose proof (ki_server _ _ _ _ Hk _ _ Hlk) as Hs.
      assert (HA : A (srv_pid s)) by (by destruct (so_owner _ _ Hs)).
      destruct (inv_process _ _ _ _ _ _ Hk (inv_pos _ _ _ _ _ Hk HA) Hat) as [_ Hpp].
      destruct Hk as [H1 H2 H3 H4 H5 H6 H7 H8 H9 [? ?] H11]. split; cbn; try done. by rewrite Hpp. }
    destruct Hk1 as [Hk1 Hsv]. apply run_bind in H as ([] & k2 & Hdis & H).
    assert (Hk2 : inv A (left_until A pid (Datatypes.S n)) k2 g).
    { revert Hdis. unfold on_server, server_from_sidx, bind, gets. rewrite Hsv.
      destruct (_ <? _)%nat; [done|]. rewrite Hlk. cbn. intros [= <-].
      pose proof (ki_server _ _ _ _ Hk _ _ Hlk) as Hs.
      assert (Hs' := discard_keeps _ pid s _ Hs E eq_refl).
      destruct Hk1 as [H1 H2 H3 H4 H5 H6 H7 H8 H9 H10 H11]. split; cbn; try done; [by rewrite length_insert|].
      intros i t Hi. apply list_lookup_insert_Some in Hi as [(<- & [= <-] & _)|[Hne Hi]].
      - eapply server_ok_mono; [|exact Hs']. by intros q [[HA _] Hq].
      - eapply server_ok_mono; [|by apply H9]. intros q [HA Hq]. split; [done|]. intros Hlt. apply Hq. lia. }
    unfold bind_try in H. apply run_bind in H as (ra & k3 & Ha2 & H).
    destruct (keeps_activate A (left_until A pid (Datatypes.S n)) pid Hpid _ _ _ _ Hk2 Ha2) as [_ [g3 Hk3]].
    rewrite (activate_ok _ _ _ _ _ _ _ Hk2 HAp Ha2) in H. apply (IH (Datatypes.S n) k3 g3); [done|lia|done].
Qed.

Definition kernel_ok (k : K) : Prop := exists g, inv (alive k) (fun _ => alive k) k g.

Lemma inv_ok A Al k g : inv A Al k g -> kernel_ok k.
Proof.
  intros Hk. exists g. destruct Hk as [H1 H2 H3 H4 H5 H6 H7 H8 H9 H10 H11]. split; try done; [by apply H6|].
  intros i s Hs. eapply server_ok_mono; [|by apply H9]. intros q Hq. apply H6. by eapply H8.
Qed.

(** The threads of a process that was terminated are in no queue. *)
Lemma process_terminate_keeps A Al k g pid r k' :
  inv A Al k g -> A pid -> process_terminate pid k = Some (r, k') ->
  r = Ok tt /\ exists g', inv A Al k' g' /\ forall pr t, rq_in g' pr t -> t.1 <> pid.
Proof.
  intros Hk HAp. pose proof (inv_pos _ _ _ _ _ Hk HAp) as Hp. pose proof (proj1 (ki_alive _ _ _ _ Hk _) HAp) as [_ [p0 Hp0]]. unfold process_terminate, bind_try, on_process. intros (ra & k1 & Hra & H)%run_bind.
  apply run_bind in Hra as (o & k0 & Hslot & Hra). apply process_slot_Some in Hslot as [-> Hat].
  rewrite Hp0 in Hat. subst o. rename p0 into p, Hp0 into Hat.
  destruct (inv_process _ _ _ _ _ _ Hk Hp Hat) as [Hi Hpid].
  destruct (free_threads_run (mkPS p (sched k)) g 1 (NUM_THREADS - 1) (pv_inv _ _ Hi)) as (s' & g' & E & Hi' & Hp' & Ho & _ & Hfree);
    [lia|unfold NUM_THREADS; lia|].
  destruct (ps_free_threads 1 (NUM_THREADS - 1) ltac:(lia) _ _ _ _ Hi E) as (_ & _ & [_ Hfu] & _).
  unfold terminate_threads in Hra. rewrite E in Hra. injection Hra as <- <-. cbn in Hp', Ho, Hfree.
  assert (Hk1 : inv A Al (set_sched (ps_sched s') (set_processes (<[process_index pid := Some (ps_proc s')]> (processes k)) k)) g').
  { eapply inv_put; [exact Hk|done|exact Hat|destruct s'; by split|congruence|by rewrite <- Hpid]. }
  assert (Hno : forall pr t, rq_in g' pr t -> t.1 <> pid).
  { intros pr [q tid] Hin E'. cbn in E'. subst q. rewrite <- Hpid, <- Hp' in Hin.
    destruct (pi_valid _ _ Hi' pr tid Hin) as (n & -> & Hn).
    destruct (thread_lookup s' g' n Hi' Hn) as (st & pr' & Hst & Hpr).
    apply (pi_agrees _ _ Hi' n st pr' pr (proj1 Hn) Hst Hpr) in Hin as [-> _].
    unfold valid_tid in Hn. rewrite Hfree in Hst by (unfold NUM_THREADS in *; lia). done. }
  assert (Hrest : forall k x k', inv A Al k g' ->
    (_ <- on_mem (on_mm (release_all_memory_for_process pid)) ;; _ <- release_interrupts_for_pid pid ;; on_arch (destroy pid)) k
      = Some (x, k') -> x = Ok tt /\ inv A Al k' g').
  { intros k0 x k2 Hk0 (y & k3 & Hm & Hrun)%run_bind. apply run_bind in Hrun as (z & k4 & [= <- <-] & Hrun).
    assert (Hk3 : inv A Al k3 g').
    { revert Hm. unfold on_mem, lift. destruct (on_mm _ _) as [[u y0]|]; [|done]. intros [= <- <-]. by eapply inv_same; [|exact Hk0]. }
    revert Hrun. unfold on_arch, lift. destruct (destroy pid _) as [[u a]|] eqn:Ed; [|done]. intros [= <- <-].
    destruct (arch_destroy pid _ _ _ (ki_arch _ _ _ _ Hk3) Ed) as (_ & Hw & Hc). split.
    - revert Ed. unfold destroy. intros (? & ? & _ & (? & ? & _ & [= <- _])%run_bind)%run_bind. done.
    - destruct Hk3. split; cbn; try done. cbn in Hc. by rewrite Hc. }
  destruct (Hrest _ _ _ Hk1 H) as [-> Hk']. split; [done|]. by exists g'.
Qed.

Lemma remove_keeps A k g pid k1 k2 :
  inv A (left_until A pid MAX_SERVER_COUNT) k g -> 1 <= pid -> (forall pr t, rq_in g pr t -> t.1 <> pid) ->
  remove_process pid k = Some (tt, k1) -> unwrap (activate_process 1) k1 = Some (tt, k2) ->
  inv (fun q => A q /\ q <> pid) (fun _ q => A q /\ q <> pid) k2 g.
Proof.
  intros Hk Hp Hno. unfold remove_process, free_process. intros ([] & k0 & Hf & [= <-])%run_bind.
  apply run_bind in Hf as (o & k3 & Hslot & [= <-]). apply process_slot_Some in Hslot as [-> Hat].
  set (ps := <[process_index pid := None]> (processes k)).
  unfold unwrap, activate_process, bind_try, process. intros (ra & k4 & Hra & H)%run_bind.
  apply run_bind in Hra as (rb & k5 & Hrb & Hra). apply run_bind in Hrb as (o1 & k6 & Hs1 & [= <- <-]).
  apply process_slot_Some in Hs1 as [-> Hat1]. destruct o1 as [p1|]; cbn in Hra; [|injection Hra as <- <-; done].
  injection Hra as <- <-. injection H as <-.
  assert (Hal : forall q, is_Some (process_at (set_processes ps k) q) /\ 1 <= q <-> alive k q /\ q <> pid).
  { intros q. unfold alive, process_at, ps. cbn. split.
    - intros [[p' Hs] Hq]. destruct (decide (q = pid)) as [->|Hne].
      + revert Hs. destruct (decide (process_index pid < length (processes k))%nat).
        * by rewrite list_lookup_insert_eq.
        * rewrite list_insert_ge by lia. by rewrite (lookup_ge_None_2 (processes k) (process_index pid)) by lia.
      + rewrite list_lookup_insert_ne in Hs by (unfold process_index; lia). by rewrite Hs.
    - intros [[Hq [p' Hs]] Hne]. split; [|done]. rewrite list_lookup_insert_ne by (unfold process_index; lia). by exists p'. }
  assert (Hp1 : p_pid p1 = 1 /\ alive k 1 /\ 1 <> pid).
  { assert (H1 : is_Some (process_at (set_processes ps k) 1) /\ 1 <= 1) by (split; [by exists p1|lia]).
    apply Hal in H1 as [H1 Hne]. split; [|done]. apply (inv_process _ _ k g 1 p1 Hk ltac:(lia)).
    unfold process_at in *. cbn in Hat1. unfold ps in Hat1. by rewrite list_lookup_insert_ne in Hat1 by (unfold process_index; lia). }
  destruct Hp1 as (Hpp & Ha1 & Hne1).
  destruct Hk as [H1 H2 H3 H4 H5 H6 H7 H8 H9 [Hw1 Hw2] H11].
  split; cbn; try done.
  - unfold ps. by rewrite length_insert.
  - intros i p Hi. unfold ps in Hi. apply list_lookup_insert_Some in Hi as [(_ & Hbad & _)|[_ Hi]]; [done|by apply H4].
  - intros pr t Hin. pose proof (H5 pr t Hin) as Hat'. pose proof (Hno pr t Hin) as Hne.
    destruct (proj2 (Hal t.1)) as [? ?]; [done|]. by split.
  - intros q. rewrite H6. rewrite <- (Hal q). unfold alive. rewrite (and_comm (1 <= q)). done.
  - rewrite Hpp. split; [by apply H6|done].
  - intros i s Hs. eapply server_ok_mono; [|by apply H9]. intros q [HA Hq]. split; [done|]. apply Hq.
    apply lookup_lt_Some in Hs. by rewrite H2 in Hs.
Qed.

Lemma keeps_ok {X} (m : M K X) R k x k' :
  (forall A, (forall q, A q -> 1 <= q) -> keeps A (fun _ => A) m R) -> kernel_ok k -> m k = Some (x, k') -> kernel_ok k'.
Proof.
  intros Hm [g Hk] Hrun. destruct (Hm (alive k) (fun q H => proj1 H) k g x k' Hk Hrun) as [_ [g' Hk']]. by eapply inv_ok.
Qed.

(** A process that ends is gone, and only that process. *)
Lemma terminate_ends code k r k' : kernel_ok k -> terminate_current_process code k = Some (r, k') ->
  kernel_ok k' /\ forall q, alive k' q <-> alive k q /\ q <> cur_pid (arch k).
Proof.
  intros [g Hk]. set (A := alive k) in *. assert (HA : forall q, A q -> 1 <= q) by (by intros q [? _]).
  unfold terminate_current_process. intros (pid & k0 & [= <- <-] & H)%run_bind.
  pose proof (ki_current _ _ _ _ Hk) as HAp. set (pid := cur_pid (arch k)) in *. pose proof (HA _ HAp) as Hp.
  apply run_bind in H as (p & k0 & Hcp & H). destruct (keeps_current_process A (fun _ => A) _ _ _ _ Hk Hcp) as [_ [g0 Hk0]].
  destruct (_ && _); [done|]. apply run_bind in H as (n & k1 & [= <- <-] & H).
  unfold bind_try at 1 in H. apply run_bind in H as (ra & k2 & Hl & H).
  assert (Hst : inv A (left_until A pid 0) k0 g0).
  { eapply inv_mono; [|by intros i q [? _]|exact Hk0]. intros i q _ Hq. split; [done|lia]. }
  rewrite (ki_slen _ _ _ _ Hk0) in Hl.
  destruct (leave_servers_keeps A pid k0 g0 0 MAX_SERVER_COUNT ra k2 Hst HAp eq_refl Hl) as [-> [g2 Hk2]].
  set (Al := left_until A pid MAX_SERVER_COUNT) in *.
  assert (Hsub : forall i q, Al i q -> A q) by (by intros i q [? _]).
  apply run_bind in H as (p' & k3 & Hcp' & H). destruct (keeps_current_process A Al _ _ _ _ Hk2 Hcp') as [_ [g3 Hk3]].
  apply run_bind in H as (u & k4 & He & H).
  assert (Hk4 : exists g4, inv A Al k4 g4).
  { destruct (p_ppid p') as [pp|]; [|injection He as <- <-; by exists g3].
    apply run_bind in He as (ue & k4' & He & [= <- <-]). by eapply (keeps_event A Al HA Hsub _ _ _ _ _ _ _ _ _ _ Hk3 He). }
  destruct Hk4 as [g4 Hk4]. apply run_bind in H as (w & k5 & Hwt & H).
  destruct (keeps_waiters A Al pid _ _ _ _ Hk4 Hwt) as [Hws [g5 Hk5]].
  apply run_bind in H as (u2 & k6 & Hww & H). destruct (keeps_wake_waiters A Al code w Hws _ _ _ _ Hk5 Hww) as [_ [g6 Hk6]].
  apply run_bind in H as (u3 & k7 & Hrd & H). destruct (keeps_release_on_exit A Al pid _ _ _ _ Hk6 Hrd) as [_ [g7 Hk7]].
  unfold bind_try in H. apply run_bind in H as (rt & k8 & Hpt & H).
  destruct (process_terminate_keeps _ _ _ _ _ _ _ Hk7 HAp Hpt) as (-> & g8 & Hk8 & Hno).
  apply run_bind in H as ([] & k9 & Hrm & H). apply run_bind in H as ([] & k10 & Hact & H).
  pose proof (remove_keeps A k8 g8 pid k9 k10 Hk8 Hp Hno Hrm Hact) as Hk10. set (A' := fun q => A q /\ q <> pid) in Hk10.
  assert (Hend : exists g', inv A' (fun _ => A') k' g').
  { eapply (keeps_bind A' (fun _ => A') (for_all_processes (update (orphan pid))) (fun _ => activate_current) (fun _ => True) (fun _ => True));
      [apply keeps_for_all, ps_update, rows_orphan|intros _ _; apply keeps_activate_current|exact Hk10|exact H]. }
  destruct Hend as [g' Hk']. split; [by eapply inv_ok|]. intros q. by rewrite <- (ki_alive _ _ _ _ Hk' q).
Qed.

Lemma terminate_keeps code k r k' : kernel_ok k -> terminate_current_process code k = Some (r, k') -> kernel_ok k'.
Proof. intros Hk Hrun. by destruct (terminate_ends code k r k' Hk Hrun). Qed.

Lemma terminate_process_keeps tid pid code k r k' :
  1 <= pid -> kernel_ok k -> terminate_process tid pid code k = Some (r, k') -> kernel_ok k'.
Proof.
  intros Hp [g Hk]. set (A := alive k) in *. assert (HA : forall q, A q -> 1 <= q) by (by intros q [? _]).
  unfold terminate_process, bind_try. intros (cur & k0 & [= <- <-] & H)%run_bind.
  apply run_bind in H as (rp & k1 & Hpr & H). destruct (keeps_process A (fun _ => A) pid _ _ _ _ Hk Hpr) as [_ [g1 Hk1]].
  destruct rp as [p|e]; [|injection H as <- <-; by eapply inv_ok].
  destruct (bool_decide _); [injection H as <- <-; by eapply inv_ok|].
  apply run_bind in H as (rs & k2 & Hs & H).
  destruct (keeps_set_thread_result A (fun _ => A) (cur_pid (arch k)) tid R_Ok (HA _ (ki_current _ _ _ _ Hk)) _ _ _ _ Hk1 Hs) as [_ [g2 Hk2]].
  destruct rs as [[]|e]; [|injection H as <- <-; by eapply inv_ok].
  apply run_bind in H as ([] & k3 & Ha & H).
  destruct (keeps_unwrap_any A (fun _ => A) _ (keeps_activate A (fun _ => A) pid Hp) _ _ _ _ Hk2 Ha) as [_ [g3 Hk3]].
  eapply terminate_keeps; [by eapply inv_ok|exact H].
Qed.

Lemma destroy_server_keeps pid sid k r k' : kernel_ok k -> destroy_server pid sid k = Some (r, k') -> kernel_ok k'.
Proof.
  intros [g Hk]. unfold destroy_server. intros (o & k0 & [= <- <-] & H)%run_bind.
  destruct (position _ _) as [sidx|]; [|injection H as <- <-; by eapply inv_ok].
  apply run_bind in H as ([] & k1 & Hd & [= <- <-]). destruct (destroy_sidx_clears _ _ _ _ _ _ Hk Hd) as [g1 Hk1]. by eapply inv_ok.
Qed.

(** ** Creating processes *)

(** Everything the invariant says, apart from the process that runs. *)
Record tables_ok (k : K) (g : G) : Prop := {
  tk_plen : length (processes k) = PROCESS_SLOTS;
  tk_slen : length (servers k) = MAX_SERVER_COUNT;
  tk_proc : forall i p, processes k !! i = Some (Some p) -> p_inv (mkPS p (sched k)) g /\ p_pid p = Z.of_nat i + 1;
  tk_live : forall pr t, rq_in g pr t -> alive k t.1;
  tk_server : forall i s, servers k !! i = Some (Some s) -> server_ok (alive k) s;
  tk_arch : arch_wf (arch k);
  tk_display : display_wf (display_state k) }.

Lemma inv_tables k g : inv (alive k) (fun _ => alive k) k g -> tables_ok k g.
Proof. intros []. by split. Qed.

Lemma alive_insert k slot p : (slot < length (processes k))%nat ->
  forall q, alive (set_processes (<[slot := Some p]> (processes k)) k) q <-> alive k q \/ q = Z.of_nat slot + 1.
Proof.
  intros Hs q. unfold alive, process_at. cbn. destruct (decide (process_index q = slot)) as [<-|Hne].
  - rewrite list_lookup_insert_eq by done. cbn. unfold process_index in *. split.
    + intros [Hq _]. right. lia.
    + intros [[Hq _]| ->]; (split; [lia|by eexists]).
  - rewrite list_lookup_insert_ne by done. split; [tauto|]. intros [?| ->]; [done|]. by rewrite process_index_of in Hne.
Qed.

(** A new process in a free slot, with its threads queued as their states say. *)
Lemma insert_ok k g g' q slot p m u k' : tables_ok k g -> processes k !! slot = Some None ->
  p_inv (mkPS p q) g' -> p_pid p = Z.of_nat slot + 1 -> same_others (p_pid p) g g' ->
  (alive k (cur_pid (arch k)) \/ cur_pid (arch k) = p_pid p) ->
  insert_process slot p m (set_sched q k) = Some (u, k') -> kernel_ok k'.
Proof.
  intros [H1 H2 H4 H5 H9 H10 H11] Hslot Hi Hpid Ho Hcur [= <- <-].
  set (k1 := set_processes (<[slot := Some p]> (processes k)) (set_sched q k)).
  assert (Hlt : (slot < length (processes k))%nat) by (by eapply lookup_lt_Some).
  assert (Hal : forall r, alive k1 r <-> alive k r \/ r = Z.of_nat slot + 1) by (intros r; apply (alive_insert k slot p Hlt r)).
  apply (inv_ok (alive k1) (fun _ => alive k1) _ g').
  apply (inv_same _ _ k1); [by split_and!|]. split; cbn; try done.
  - by rewrite length_insert.
  - apply Hi.
  - intros i r Hr. apply list_lookup_insert_Some in Hr as [(<- & [= <-] & _)|[Hne Hr]]; [by split|].
    destruct (H4 i r Hr) as [[[Hw _ Ha Hv] Hfu] Hri]. split; [|done]. split; [|done]. cbn in *.
    assert (Hrp : p_pid r <> p_pid p) by (rewrite Hri, Hpid; lia).
    split; cbn; [done|apply Hi| |].
    + intros tid st pr pr' Ht Hst Hpr. rewrite (Ho pr' (p_pid r, Z.of_nat tid) Hrp). by apply Ha.
    + intros pr tid Hin. apply (Hv pr). by apply Ho in Hin.
  - intros pr t Hin. apply Hal. destruct (decide (t.1 = p_pid p)) as [->|Hne]; [by right|]. left. apply (H5 pr). by apply Ho.
  - apply Hal. destruct Hcur as [Hc|Hc]; [by left|]. right. by rewrite Hc.
  - intros i s Hs. eapply server_ok_mono; [|by apply (H9 i s)]. intros r Hr. apply Hal. by left.
Qed.

(** A process that is not in the table has no thread in the queues. *)
Lemma new_process_inv k g slot ppid app : tables_ok k g -> rq_rel (sched k) g -> processes k !! slot = Some None ->
  p_inv (mkPS (Process_new (Z.of_nat slot + 1) ppid app) (sched k)) g.
Proof.
  intros Hk Hrel Hslot. pose proof (lookup_lt_Some _ _ _ Hslot) as Hlt. rewrite (tk_plen _ _ Hk) in Hlt.
  assert (Hno : forall pr t, rq_in g pr t -> t.1 <> Z.of_nat slot + 1).
  { intros pr t Hin E. destruct (tk_live _ _ Hk pr t Hin) as [_ Hal]. rewrite E in Hal. unfold process_at in Hal.
    rewrite process_index_of, Hslot in Hal. by destruct Hal. }
  split; [split; cbn|split; cbn].
  - unfold PROCESS_SLOTS in Hlt. split; cbn; try done. unfold MAX_PROCESS_COUNT. lia.
  - done.
  - intros tid st pr pr' _ Hst _. apply (lookup_replicate_1 NUM_THREADS) in Hst as [-> _]. split; [|by intros [? _]].
    intros Hin. by destruct (Hno pr' _ Hin).
  - intros pr tid Hin. by destruct (Hno pr _ Hin).
  - done.
  - intros t f Hf. by apply (lookup_replicate_1 NUM_THREADS) in Hf as [? _].
Qed.

Lemma on_new_ok k g p (op : M PS unit) R k1 p' : p_inv (mkPS p (sched k)) g -> ps_keeps op R ->
  on_new p op k = Some (p', k1) ->
  exists q g', k1 = set_sched q k /\ p_inv (mkPS p' q) g' /\ p_pid p' = p_pid p /\ same_others (p_pid p) g g'.
Proof.
  intros Hp Hop. unfold on_new. destruct (op (mkPS p (sched k))) as [[u s]|] eqn:E; [|done]. intros [= <- <-].
  destruct (Hop _ _ _ _ Hp E) as (_ & g' & Hs & Hpid & Ho). exists (ps_sched s), g'. split; [done|]. split; [by destruct s|]. done.
Qed.

Lemma create_process_keeps random prog app k r k' : kernel_ok k -> create_process random prog app k = Some (r, k') ->
  kernel_ok k' /\ ok_then (fun pid => 1 <= pid) r.
Proof.
  intros [g Hk]. unfold create_process. intros (ppid & k0 & [= <- <-] & H)%run_bind.
  apply run_bind in H as (l & k0 & [= <- <-] & H). destruct (position _ _) as [slot|] eqn:Hpos.
  2: { injection H as <- <-. split; [by exists g|done]. }
  apply position_Some in Hpos as [(o & Ho & Hnone) _].
  unfold bind_try in H. apply run_bind in H as (rm & k1 & Ha & H).
  pose proof (keeps_tables (alive k) (fun _ => alive k) _ _ _ _ _ Hk Ha) as [_ [g1 Hk1]].
  assert (Esl : processes k1 = processes k /\ sched k1 = sched k /\ arch k1 = arch k).
  { revert Ha. unfold on_tables, on_mem, lift. destruct (on_vm _ _) as [[? ?]|]; [by intros [= <- <-]|done]. }
  destruct Esl as (Epr & Esc & Ear).
  destruct rm as [m|e]; [|injection H as <- <-; split; [by eapply inv_ok|done]].
  apply inv_ok in Hk1 as [g2 Hk2]. pose proof (inv_tables _ _ Hk2) as Ht.
  assert (Hslot : processes k1 !! slot = Some None) by (rewrite Epr; destruct o; [done|exact Ho]).
  apply run_bind in H as (p & k2 & Hn & H).
  destruct (on_new_ok k1 g2 _ _ _ k2 p (new_process_inv _ _ _ _ _ Ht (ki_rel _ _ _ _ Hk2) Hslot)
    (ps_set_thread_state INITIAL_TID TS_Ready ltac:(done)) Hn) as (q & g3 & -> & Hp & Hpid & Hoth). cbn in Hpid, Hoth.
  apply run_bind in H as ([] & k3 & Hins & H).
  assert (Hk3 : kernel_ok k3).
  { eapply (insert_ok k1 g2 g3 q slot p m tt k3 Ht Hslot Hp Hpid); [by rewrite Hpid| |exact Hins].
    left. apply (ki_current _ _ _ _ Hk2). }
  apply run_bind in H as (pid & k4 & Hc & [= <- <-]). destruct Hk3 as [g4 Hk4].
  destruct (keeps_unwrap_ok _ _ _ _ (keeps_arch_create (alive k3) (fun _ => alive k3) random prog (Z.of_nat slot + 1)) _ _ _ _ Hk4 Hc)
    as [-> [g5 Hk5]]. split; [by eapply inv_ok|]. cbn. lia.
Qed.

Lemma spawn_keeps table random name k r k' : kernel_ok k -> spawn_by_name table random name k = Some (r, k') -> kernel_ok k'.
Proof.
  intros Hk. unfold spawn_by_name. destruct (lookup_binary table name) as [prog|]; [|by intros [= <- <-]].
  unfold bind_try at 1. intros (rp & k1 & Hc & H)%run_bind. destruct (create_process_keeps _ _ _ _ _ _ Hk Hc) as [Hk1 Hp].
  destruct rp as [pid|e]; [|by injection H as <- <-]. cbn in Hp. eapply (keeps_ok _ (fun _ => True)); [|exact Hk1|exact H].
  intros A HA. eapply keeps_try_any; [apply keeps_ok_any; by apply keeps_set_permissions|]. intros _ _.
  eapply keeps_bind; [apply keeps_map_uart|]. intros _ _.
  eapply keeps_bind; [apply keeps_arch, arch_set_thread_args|]. intros _ _. apply keeps_ret_any.
Qed.

Lemma spawn_args_keeps table random name ptr len k r k' : kernel_ok k ->
  spawn_by_name_with_args table random name ptr len k = Some (r, k') -> kernel_ok k'.
Proof.
  intros Hk. unfold spawn_by_name_with_args. destruct (lookup_binary table name) as [prog|]; [|by intros [= <- <-]].
  unfold bind_try at 1. intros (rp & k1 & Hc & H)%run_bind. destruct (create_process_keeps _ _ _ _ _ _ Hk Hc) as [Hk1 Hp].
  destruct rp as [pid|e]; [|by injection H as <- <-]. cbn in Hp. eapply (keeps_ok _ (fun _ => True)); [|exact Hk1|exact H].
  intros A HA. eapply keeps_try_any; [apply keeps_ok_any; by apply keeps_set_permissions|]. intros _ _.
  eapply keeps_bind; [apply keeps_map_uart|]. intros _ _.
  eapply keeps_try_any; [apply keeps_ok_any; destruct (_ && _); [apply keeps_copy_argv|apply keeps_ret_any]|]. intros actual _.
  eapply keeps_bind; [apply keeps_arch, arch_set_thread_args|]. intros _ _. apply keeps_ret_any.
Qed.

Lemma map_ok_run {X} (f : X -> XResult) (m : M K (res X Error)) k r k' : map_ok f m k = Some (r, k') ->
  exists r0, m k = Some (r0, k').
Proof. unfold map_ok. intros (r0 & k1 & Hm & [= <- <-])%run_bind. by exists r0. Qed.

Lemma sys_spawn_run name spawn k (r : res XResult Error) k' : kernel_ok k ->
  (forall r0, spawn name k = Some (r0, k') -> kernel_ok k') -> sys_spawn name spawn k = Some (r, k') -> kernel_ok k'.
Proof.
  intros Hk Hs. unfold sys_spawn. destruct (utf8_valid name); [|by intros [= <- <-]].
  intros [r0 Hr]%map_ok_run. by eapply Hs.
Qed.

Lemma handle_keeps i tid call k r k' :
  queue_page_zero i -> valid_tid tid -> call_pids_ok call -> kernel_ok k -> handle i tid call k = Some (r, k') -> kernel_ok k'.
Proof.
  intros Hz Ht Hc Hk Hrun.
  destruct (destroying call) eqn:Hd; [|destruct (loading call) eqn:Hl].
  3: { eapply (keeps_ok _ _ _ _ _ ltac:(intros A HA; apply (keeps_handle A (fun _ => A) HA); done) Hk Hrun). }
  all: revert Hrun; unfold handle; destruct (_ && _); [by intros [= <- <-]|]; unfold bind_try at 1.
  all: intros (rc & k0 & Hperm & H)%run_bind.
  all: assert (Hk0 : kernel_ok k0) by (eapply (keeps_ok _ _ _ _ _ ltac:(intros A HA; apply keeps_permission) Hk Hperm)).
  all: destruct rc as [[]|e]; [|by injection H as <- <-].
  - destruct call; try done.
    + by eapply terminate_keeps.
    + apply run_bind in H as (cp & k1 & Hp & H).
      assert (Hk1 : kernel_ok k1) by (eapply (keeps_ok _ _ _ _ _ ltac:(intros A HA; apply keeps_current_process) Hk0 Hp)).
      destruct (_ =? _); [by injection H as <- <-|]. by eapply terminate_process_keeps.
    + apply run_bind in H as (pid & k1 & [= <- <-] & H). unfold map_ok in H. apply run_bind in H as (rd & k2 & Hrd & [= <- <-]).
      by eapply destroy_server_keeps.
  - destruct call; try done.
    + apply map_ok_run in H as [r0 H]. by eapply create_process_keeps.
    + eapply sys_spawn_run; [exact Hk0| |exact H]. intros r0. by apply spawn_keeps.
    + eapply sys_spawn_run; [exact Hk0| |exact H]. intros r0. by apply spawn_args_keeps.
Qed.

(** ** Boot *)

Lemma on_new_runs k p (op : M PS unit) s : op (mkPS p (sched k)) = Some (tt, s) ->
  on_new p op k = Some (ps_proc s, set_sched (ps_sched s) k).
Proof. intros E. unfold on_new. by rewrite E. Qed.

Lemma init_tables_ok q g mem : rq_rel q g -> (forall pr t, ~ rq_in g pr t) -> tables_ok (kernel_init q mem) g.
Proof.
  intros Hq Hno. split; cbn; try done.
  - intros i p Hi. by apply (lookup_replicate_1 PROCESS_SLOTS) in Hi as [? _].
  - intros pr t Hin. by destruct (Hno pr t).
  - intros i s Hi. by apply (lookup_replicate_1 MAX_SERVER_COUNT) in Hi as [? _].
  - split; [done|]. intros i p Hi. by apply (lookup_replicate_1 PROCESS_SLOTS) in Hi as [? _].
  - split; [apply display_new_ok|]. by intros p t ?%elem_of_nil.
Qed.

Lemma init_pid1_ok q g m mem : rq_rel q g -> (forall pr t, ~ rq_in g pr t) ->
  exists k, init_pid1 m (kernel_init q mem) = Some (tt, k) /\ kernel_ok k.
Proof.
  intros Hq Hno. pose proof (init_tables_ok q g mem Hq Hno) as Ht. set (k0 := kernel_init q mem) in *.
  pose proof (new_process_inv k0 g 0 1 PID1_APP_ID Ht Hq eq_refl) as Hp. cbn [Z.of_nat Z.add] in Hp.
  set (op := (_ <- set_thread_priority INITIAL_TID Idle ;; _ <- set_thread_state INITIAL_TID TS_Ready ;;
              update (set_syscall_permissions U64_MAX)) : M PS unit).
  assert (Hv : valid_tid INITIAL_TID) by (split; vm_compute; lia).
  assert (Hrun : exists s, op (mkPS (Process_new 1 1 PID1_APP_ID) q) = Some (tt, s)).
  { destruct (set_thread_priority_run _ g INITIAL_TID Idle (pv_inv _ _ Hp) Hv) as (s1 & g1 & E1 & Hi1 & _).
    destruct (set_thread_state_run s1 g1 INITIAL_TID TS_Ready Hi1 Hv) as (s2 & g2 & E2 & _).
    unfold op. eexists. rewrite (bind_run _ _ _ _ _ E1), (bind_run _ _ _ _ _ E2). reflexivity. }
  destruct Hrun as [s Es]. pose proof (on_new_runs k0 _ op s Es) as Hn.
  assert (Hkeeps : ps_keeps op (fun _ => True)).
  { eapply ps_bind; [apply ps_set_thread_priority, Hv|]. intros _ _. eapply ps_bind; [apply ps_set_thread_state, Hv|]. intros _ _.
    apply ps_update, rows_permissions. }
  destruct (on_new_ok k0 g _ op _ _ _ Hp Hkeeps Hn) as (q' & g' & Eq & Hp' & Hpid & Hoth).
  unfold init_pid1. fold op. rewrite (bind_run _ _ _ _ _ Hn). rewrite Eq.
  rewrite (bind_run _ _ _ tt _ eq_refl). set (k1 := set_mem_sys _ _).
  assert (Hk1 : kernel_ok k1).
  { apply (insert_ok k0 g g' q' 0 (ps_proc s) m tt k1 Ht); [done|done|by rewrite Hpid|by rewrite Hpid| |done].
    right. by rewrite Hpid. }
  assert (Ek : exists k2, unwrap (on_arch (setup_process 1 0 (mkRange 18446744073708765184 262144))) k1 = Some (tt, k2)).
  { eexists. unfold unwrap, on_arch, lift, bind. change (arch k1) with arch_init.
    set (o := setup_process _ _ _ _). vm_compute in o. subst o. cbv iota beta. reflexivity. }
  destruct Ek as [k2 Ek]. exists k2. split; [exact Ek|].
  eapply (keeps_ok _ (fun _ => True)); [|exact Hk1|exact Ek]. intros A HA. apply keeps_unwrap_any, keeps_arch, arch_setup_process.
Qed.

Lemma create_elf_keeps random pid prog k u k' : 1 <= pid -> kernel_ok k -> create_elf_process random pid prog k = Some (u, k') -> kernel_ok k'.
Proof.
  intros Hp Hk. unfold create_elf_process. intros (x & k1 & Hc & H)%run_bind.
  unfold unwrap in Hc. apply run_bind in Hc as (r & k2 & Hc & Hr). destruct r as [y|e]; [|done]. injection Hr as <- <-.
  eapply (keeps_ok _ (fun _ => True)); [|by eapply create_process_keeps|exact H].
  intros A HA. apply keeps_unwrap_any. by apply keeps_set_permissions.
Qed.

Lemma create_all_keeps random l k u k' : Forall (fun x => 1 <= x.1) l -> kernel_ok k -> create_all random l k = Some (u, k') -> kernel_ok k'.
Proof.
  intros Hl. revert k. induction Hl as [|[pid prog] l Hp _ IH]; intros k Hk; cbn [create_all]; [by intros [= <- <-]|].
  intros (x & k1 & Hc & H)%run_bind. apply (IH k1); [by eapply create_elf_keeps|exact H].
Qed.

Lemma launch_keeps random log procman shell fs disk k u k' : kernel_ok k ->
  launch_first_process random log procman shell fs disk k = Some (u, k') -> kernel_ok k' /\ cur_pid (arch k') = 4.
Proof.
  intros Hk. unfold launch_first_process. intros (x & k1 & Hc & H)%run_bind.
  assert (Hk1 : kernel_ok k1) by (eapply create_all_keeps; [|exact Hk|exact Hc]; by repeat constructor).
  (* up to the switch to the shell *)
  apply run_bind in H as (u1 & k2 & H1 & H). apply run_bind in H as (d & k3 & H2 & H). apply run_bind in H as (u3 & k4 & H3 & H).
  apply run_bind in H as (u4 & k5 & H4 & H). apply run_bind in H as (u5 & k6 & H5 & H). apply run_bind in H as (u6 & k7 & H6 & H).
  assert (Hk2 : kernel_ok k2) by (eapply (keeps_ok _ (fun _ => True)); [intros A HA; apply keeps_map_uart_all|exact Hk1|exact H1]).
  assert (Hk3 : kernel_ok k3) by (eapply (keeps_ok _ (fun _ => True)); [intros A HA; apply keeps_load_disk|exact Hk2|exact H2]).
  assert (Hk4 : kernel_ok k4) by (eapply (keeps_ok _ (fun _ => True)); [intros A HA; apply keeps_arch, arch_set_thread_arg0|exact Hk3|exact H3]).
  assert (Hk5 : kernel_ok k5) by (eapply (keeps_ok _ (fun _ => True)); [intros A HA; apply keeps_arch, arch_set_thread_arg0|exact Hk4|exact H4]).
  assert (Hk6 : kernel_ok k6) by (eapply (keeps_ok _ (fun _ => True)); [intros A HA; apply keeps_arch, arch_set_thread_arg0|exact Hk5|exact H5]).
  assert (Hk7 : kernel_ok k7) by (eapply (keeps_ok _ (fun _ => True)); [intros A HA; apply keeps_arch, arch_set_thread_args|exact Hk6|exact H6]).
  destruct Hk7 as [g Hk7]. apply run_bind in H as (u7 & k8 & [= <- <-] & H).
  unfold unwrap in H. apply run_bind in H as (r & k9 & Ha & Hr). destruct r as [[]|e]; [|done]. injection Hr as <- <-.
  (* the shell is alive, so making it current twice is activating it once *)
  assert (Hat : exists p, process_at k7 4 = Some p /\ k9 = set_arch (mkArch (process_table (arch k7)) 4) k7).
  { revert Ha. unfold activate_process, bind_try, process, bind at 1 2.
    destruct (process_slot 4 _) as [[o k10]|] eqn:E; [|done]. apply process_slot_Some in E as [-> E].
    destruct o as [p|]; cbn; [|done]. intros [= <-]. exists p. split; [exact E|].
    destruct (inv_process _ _ _ _ _ _ Hk7 (ltac:(done) : 1 <= 4) E) as [_ ->]. done. }
  destruct Hat as (p & Hat & ->). split; [|done].
  assert (Hal : alive k7 4) by (split; [done|by rewrite Hat]).
  apply (inv_ok (alive k7) (fun _ => alive k7) _ g). destruct Hk7 as [H1' H2' H3' H4' H5' H6' H7' H8' H9' [Hw1 Hw2] H11']. by split.
Qed.

(** ** Runs of the kernel *)

(** The frame behind the queue of a server, in its owner's address space. *)
Definition queue_frame (k : K) (s : Server) : option (res Z Error) :=
  (fun m => virt_to_phys (vm_tables (sys_vm (mem_sys k))) m (queue_addr s)) <$> env_maps (mem_env k) !! srv_pid s.

(** What the runs below take for granted of the pages that hold server queues,
    and what the code does not ensure: a page populated for a queue holds
    zeros, and the owner does not unmap or give away the page of its queue. *)
Definition queue_pages_hold (i : Input) (k k' : K) : Prop :=
  queue_page_zero i /\
  forall n s s', servers k !! n = Some (Some s) -> servers k' !! n = Some (Some s') -> queue_frame k' s' = queue_frame k s.

(** One entry into the kernel that returns: the launch of the first processes, a
    system call of a thread, the exit of a thread, a character typed on the
    console, or an event broadcast to all. *)
Inductive kernel_step : K -> K -> Prop :=
| step_launch random log procman shell fs disk k k' :
    launch_first_process random log procman shell fs disk k = Some (tt, k') -> kernel_step k k'
| step_call i tid call k r k' :
    valid_tid tid -> call_pids_ok call -> handle i tid call k = Some (r, k') -> queue_pages_hold i k k' -> kernel_step k k'
| step_exit tid k r k' : valid_tid tid -> thread_exited tid k = Some (r, k') -> kernel_step k k'
| step_char c k k' : dispatch_input_char c k = Some (tt, k') -> kernel_step k k'
| step_event e a0 a1 a2 a3 k r k' : broadcast_event e a0 a1 a2 a3 k = Some (r, k') -> kernel_step k k'.

Lemma kernel_step_keeps k k' : kernel_step k k' -> kernel_ok k -> kernel_ok k'.
Proof.
  destruct 1 as [random log procman shell fs disk k k' Hrun|i tid call k r k' Ht Hc Hrun [Hz _]|tid k r k' [Ht _] Hrun|c k k' Hrun|e a0 a1 a2 a3 k r k' Hrun]; intros Hk.
  - exact (proj1 (launch_keeps _ _ _ _ _ _ _ _ _ Hk Hrun)).
  - exact (handle_keeps i tid call k r k' Hz Ht Hc Hk Hrun).
  - exact (keeps_ok _ (fun _ => True) k r k' (fun A HA => keeps_thread_exited A _ tid Ht) Hk Hrun).
  - exact (keeps_ok _ (fun _ => True) k tt k' (fun A HA => keeps_input_char A _ HA (fun _ _ H => H) c) Hk Hrun).
  - exact (keeps_ok _ (fun _ => True) k r k' (fun A HA => keeps_broadcast_event A _ HA (fun _ _ H => H) e a0 a1 a2 a3) Hk Hrun).
Qed.

Lemma kernel_steps_keep k k' : rtc kernel_step k k' -> kernel_ok k -> kernel_ok k'.
Proof. induction 1 as [|k1 k2 k3 Hstep _ IH]; [done|]. intros Hk. by apply IH, (kernel_step_keeps k1). Qed.

(** What the invariant says. *)
Definition is_ready (k : K) (pr : ThreadPriority) (pid tid : Z) : Prop :=
  exists p n, 1 <= pid /\ process_at k pid = Some p /\ valid_tid n /\ tid = Z.of_nat n /\
    threads p !! n = Some TS_Ready /\ thread_priorities p !! n = Some pr.

Lemma kernel_ok_ready k g : inv (alive k) (fun _ => alive k) k g ->
  forall pr pid tid, rq_in g pr (pid, tid) <-> is_ready k pr pid tid.
Proof.
  intros Hk pr pid tid. split.
  - intros Hin. destruct (ki_live _ _ _ _ Hk pr (pid, tid) Hin) as [Hp [p Hat]]. cbn in Hp, Hat.
    destruct (inv_process _ _ _ _ _ _ Hk Hp Hat) as [[Hi _] Hpid]. subst pid.
    destruct (pi_valid _ _ Hi pr tid Hin) as (n & -> & Hn). exists p, n. split_and!; try done.
    all: destruct (thread_lookup _ _ n Hi Hn) as (st & pr' & Hst & Hpr).
    all: by apply (pi_agrees _ _ Hi n st pr' pr (proj1 Hn) Hst Hpr) in Hin as [-> ->].
  - intros (p & n & Hp & Hat & Hn & -> & Hst & Hpr). destruct (inv_process _ _ _ _ _ _ Hk Hp Hat) as [[Hi _] Hpid]. subst pid.
    by apply (pi_agrees _ _ Hi n TS_Ready pr pr (proj1 Hn) Hst Hpr).
Qed.

End Inv.

(** C1. Along every run of the kernel from boot on in which the pages populated
    for server queues hold zeros and stay mapped ([queue_pages_hold], which the
    code leaves to chance: see [stale_page_delivers]), whatever programs are
    loaded and whatever the processes ask for: the first process is set up without a panic,
    and from then on the ready queues hold exactly the ready threads of live
    processes, each in the queue of its priority; the current process is alive;
    every server belongs to a live process and its queue is well formed; and
    every client that a queue promises an answer is a thread of a live process. *)
Theorem kernel_invariant {P : Platform} {S G : Type} {RQ : ReadyQueues S G} (q : S) (g0 : G) (m : MemoryMapping) (mem : Sys) :
  rq_rel q g0 -> (forall pr t, ~ rq_in g0 pr t) ->
  exists k0, init_pid1 m (kernel_init q mem) = Some (tt, k0) /\
  forall k, rtc kernel_step k0 k ->
    (exists g, rq_rel (sched k) g /\ forall pr pid tid, rq_in g pr (pid, tid) <-> is_ready k pr pid tid) /\
    alive k (cur_pid (arch k)) /\
    (forall i s, servers k !! i = Some (Some s) ->
       alive k (srv_pid s) /\ (exists idxs, server_inv s idxs) /\
       forall j e pid tid, queue s !! j = Some e -> entry_client e = Some (pid, tid) -> alive k pid /\ 1 <= tid).
Proof.
  intros Hq Hno. destruct (init_pid1_ok q g0 m mem Hq Hno) as (k0 & E & Hk0). exists k0. split; [done|]. intros k Hsteps.
  destruct (kernel_steps_keep k0 k Hsteps Hk0) as [g Hk]. split_and!.
  - exists g. split; [exact (ki_rel _ _ _ _ Hk)|]. intros pr pid tid. exact (kernel_ok_ready k g Hk pr pid tid).
  - exact (ki_current _ _ _ _ Hk).
  - intros i s Hs. destruct (ki_server _ _ _ _ Hk i s Hs) as [Ho Hi Hc _]. by split_and!.
Qed.

(** ** A concrete run: the first process raises its priority, yields and sleeps *)

Definition boot_kernel : Kernel (S := Scheduler) :=
  match init_pid1 no_mapping (kernel_init scheduler_init (mkSys vm0 ∅)) with
  | Some (_, k) => k
  | None => kernel_init scheduler_init (mkSys vm0 ∅)
  end.
Definition demo_input : Input := mkInput 0 (mkSID 1 2 3 4) 7 R_Ok [] (fun _ => 0) (fun _ => 0) (fun _ => QM_Empty).
Definition after_call (call : SysCall) (k : Kernel (S := Scheduler)) : Kernel :=
  match handle demo_input 1 call k with Some (_, k') => k' | None => k end.
Definition demo_calls : list SysCall := [SetThreadPriority AppHigh0; Yield; WaitEvent 4].
Definition demo_kernel : Kernel := fold_left (fun k c => after_call c k) demo_calls boot_kernel.

Lemma demo_boot : init_pid1 no_mapping (kernel_init scheduler_init (mkSys vm0 ∅)) = Some (tt, boot_kernel).
Proof. by vm_compute. Qed.

Lemma demo_step call k r : call_pids_ok call -> servers k = replicate MAX_SERVER_COUNT None ->
  handle demo_input 1 call k = Some (r, after_call call k) -> kernel_step k (after_call call k).
Proof.
  intros Hc Hs Hrun. apply (step_call demo_input 1 call k r); [by vm_compute; split; lia|done|done|].
  split; [done|]. intros n s s'. rewrite Hs. by intros [? _]%lookup_replicate_1.
Qed.

Lemma demo_steps : rtc kernel_step boot_kernel demo_kernel.
Proof.
  eapply rtc_l; [apply (demo_step (SetThreadPriority AppHigh0) _ (Ok R_ResumeProcess)); by vm_compute|].
  eapply rtc_l; [apply (demo_step Yield _ (Ok R_ResumeProcess)); by vm_compute|].
  apply rtc_once. apply (demo_step (WaitEvent 4) _ (Ok R_ResumeProcess)); by vm_compute.
Qed.

Lemma kernel_invariant_witness : alive demo_kernel (cur_pid (arch demo_kernel)).
Proof.
  destruct (kernel_invariant (RQ := scheduler_queues) scheduler_init a_init no_mapping (mkSys vm0 ∅) refines_init init_empty) as (k0 & E & H).
  rewrite demo_boot in E. injection E as E. exact (proj1 (proj2 (H demo_kernel (eq_ind _ (fun k => rtc kernel_step k demo_kernel) demo_steps _ E)))).
Defined.
