(* ===== verification/Dispatch.v ===== *)
(** * Choosing the next thread

    [Scheduler::activate_current] ([Services.activate_current]) ends every system
    call that gives up the processor.  Its loop polls the kernel future of the
    best ready thread, parks the thread again when the future is pending and
    looks for another one.  This file shows that from a state satisfying the
    invariant of [KernelInv] the loop ends, never panics, and selects a ready
    thread without a pending future whenever it reports success: each round that
    goes on parks one thread, so the number of ready threads, at most 64 times
    32, bounds the rounds. *)

From Stdlib Require Import ZArith Lia Bool.
From stdpp Require Import gmap.
From S2P Require Import Prelude Abi SysCall Scheduler Server Memory PageTable MemMap Process ArchProcess Display Bytes Elf Services Spawn Handler KernelInv.
Open Scope Z_scope.

(** ** Counting *)

Lemma filter_insert_drop {X} (Q : X -> Prop) `{forall x, Decision (Q x)} (l : list X) i x y :
  l !! i = Some x -> Q x -> ~ Q y -> Datatypes.S (length (filter Q (<[i := y]> l))) = length (filter Q l).
Proof.
  revert i. induction l as [|z l IH]; intros i; [done|]. destruct i as [|i].
  - intros [= ->] Hx Hy. change (<[0%nat := y]> (x :: l)) with (y :: l). by rewrite !filter_cons, decide_False, decide_True.
  - intros Hl Hx Hy. change (<[Datatypes.S i := y]> (z :: l)) with (z :: <[i := y]> l). specialize (IH i Hl Hx Hy).
    rewrite !filter_cons. destruct (decide (Q z)); cbn [length]; by rewrite IH.
Qed.

Lemma sum_list_insert {X} (f : X -> nat) (l : list X) i x y :
  l !! i = Some x -> (sum_list (f <$> <[i := y]> l) + f x = sum_list (f <$> l) + f y)%nat.
Proof.
  revert i. induction l as [|z l IH]; intros i; [done|]. destruct i as [|i].
  - intros [= ->]. change (<[0%nat := y]> (x :: l)) with (y :: l). cbn. lia.
  - intros Hl. change (<[Datatypes.S i := y]> (z :: l)) with (z :: <[i := y]> l). specialize (IH i Hl). cbn. lia.
Qed.

Lemma sum_list_bound {X} (f : X -> nat) (l : list X) n : Forall (fun x => (f x <= n)%nat) l -> (sum_list (f <$> l) <= length l * n)%nat.
Proof. induction 1; cbn; [lia|]. lia. Qed.

Section Dispatch.
Context {P : Platform} {S G : Type} {RQ : ReadyQueues S G}.
Notation K := (Kernel (S := S)).
Notation PS := (PS (S := S)).

Definition ready_threads_of (o : option Process) : nat :=
  match o with Some p => length (filter (fun st => st = TS_Ready) (threads p)) | None => 0%nat end.
Definition ready_count (k : K) : nat := sum_list (ready_threads_of <$> processes k).

(** The thread a process runs when it is the current one. *)
Definition tid_of (a : Arch) (pid : PID) : nat :=
  match process_table a !! table_index pid with Some (Some p) => current_thread p | _ => INITIAL_TID end.
Definition allocated_in (a : Arch) (pid : PID) (tid : nat) : Prop :=
  exists p t, process_table a !! table_index pid = Some (Some p) /\ impl_threads p !! (tid - 1)%nat = Some t /\ allocated t = true.

(** Thread [tid] of [pid] is the one to go on with. *)
Definition selected (a : Arch) (pid : PID) (tid : nat) : Prop :=
  cur_pid a = pid /\ (allocated_in a pid tid -> tid_of a pid = tid).

Definition can_run (k : K) (pid : PID) (tid : nat) : Prop :=
  exists p, process_at k pid = Some p /\ valid_tid tid /\ threads p !! tid = Some TS_Ready /\ kernel_future p tid = None.

Definition none_ready (k : K) : Prop :=
  forall pid p tid, 1 <= pid -> process_at k pid = Some p -> valid_tid tid -> threads p !! tid <> Some TS_Ready.

(** What activation leaves behind. *)
Definition outcome (r : res XResult Error) (k : K) : Prop :=
  match r with
  | Ok x => x = R_ResumeProcess /\ (none_ready k \/ exists pid tid, can_run k pid tid /\ selected (arch k) pid tid)
  | Err e => e = ServerNotFound
  end.

(** Ready threads stay ready and futures stay. *)
Definition proc_calm (p p' : Process) : Prop :=
  kernel_futures p' = kernel_futures p /\ forall tid, threads p !! tid = Some TS_Ready -> threads p' !! tid = Some TS_Ready.
Definition calm (k k' : K) : Prop :=
  arch k' = arch k /\
  forall pid p, process_at k pid = Some p -> exists p', process_at k' pid = Some p' /\ proc_calm p p'.

Lemma calm_refl k : calm k k.
Proof. split; [done|]. intros pid p Hp. exists p. split; [done|by split]. Qed.
Lemma calm_trans k1 k2 k3 : calm k1 k2 -> calm k2 k3 -> calm k1 k3.
Proof.
  intros [Ha1 H1] [Ha2 H2]. split; [congruence|]. intros pid p Hp. destruct (H1 pid p Hp) as (p2 & Hp2 & Hf2 & Hr2).
  destruct (H2 pid p2 Hp2) as (p3 & Hp3 & Hf3 & Hr3). exists p3. split; [done|]. split; [congruence|auto].
Qed.
Lemma calm_same k k' : processes k' = processes k -> arch k' = arch k -> calm k k'.
Proof. intros Hp Ha. split; [done|]. intros pid p Hat. exists p. split; [|by split]. unfold process_at in *. by rewrite Hp. Qed.

(** ** Running a step *)

Section Runs.
Context (A : PID -> Prop) (Al : nat -> PID -> Prop).
Notation inv := (inv A Al).

Definition put_process (pid : PID) (s : PS) (k : K) : K :=
  set_sched (ps_sched s) (set_processes (<[process_index pid := Some (ps_proc s)]> (processes k)) k).

Lemma process_slot_run k g pid : inv k g -> 1 <= pid <= MAX_PROCESS_COUNT ->
  process_slot pid k = Some (process_at k pid, k).
Proof.
  intros Hk Hp. unfold process_slot, bind, gets, process_at.
  destruct (lookup_lt_is_Some_2 (processes k) (process_index pid)) as [o Ho].
  { rewrite (ki_plen _ _ _ _ Hk). unfold process_index, PROCESS_SLOTS, MAX_PROCESS_COUNT in *. lia. }
  by rewrite Ho.
Qed.

Lemma process_bound k g pid p : inv k g -> 1 <= pid -> process_at k pid = Some p -> 1 <= pid <= MAX_PROCESS_COUNT /\ p_pid p = pid.
Proof. intros Hk Hp Hat. destruct (inv_process _ _ _ _ _ _ Hk Hp Hat) as [[[[] _ _ _] _] E]. by rewrite <- E. Qed.

Lemma process_run k g pid p : inv k g -> 1 <= pid -> process_at k pid = Some p -> process pid k = Some (Ok p, k).
Proof.
  intros Hk Hp Hat. destruct (process_bound _ _ _ _ Hk Hp Hat) as [Hb _]. unfold process, bind.
  by rewrite (process_slot_run _ _ _ Hk Hb), Hat.
Qed.

Lemma on_process_run {X} k g pid p (m : M PS X) x s : inv k g -> 1 <= pid -> process_at k pid = Some p ->
  m (mkPS p (sched k)) = Some (x, s) -> on_process pid m k = Some (Ok x, put_process pid s k).
Proof.
  intros Hk Hp Hat Hm. destruct (process_bound _ _ _ _ Hk Hp Hat) as [Hb _]. unfold on_process, bind.
  by rewrite (process_slot_run _ _ _ Hk Hb), Hat, Hm.
Qed.

Lemma put_process_here k pid s : is_Some (process_at k pid) -> process_at (put_process pid s k) pid = Some (ps_proc s).
Proof.
  intros [p Hp]. apply process_at_lookup in Hp. apply lookup_lt_Some in Hp.
  unfold process_at, put_process. cbn. by rewrite list_lookup_insert_eq.
Qed.
Lemma put_process_other k pid s q : 1 <= pid -> 1 <= q -> q <> pid -> process_at (put_process pid s k) q = process_at k q.
Proof.
  intros Hp Hq Hne. unfold process_at, put_process. cbn. rewrite list_lookup_insert_ne; [done|].
  unfold process_index. lia.
Qed.

Lemma put_process_calm k g pid p s : inv k g -> 1 <= pid -> process_at k pid = Some p -> proc_calm p (ps_proc s) ->
  calm k (put_process pid s k).
Proof.
  intros Hk Hp Hat Hc. split; [done|]. intros q r Hr. destruct (decide (process_index q = process_index pid)) as [E|E].
  - exists (ps_proc s). unfold process_at in *. cbn. rewrite E in *. pose proof (proj1 (process_at_lookup _ _ _) Hat) as Hl.
    rewrite list_lookup_insert_eq by (by eapply lookup_lt_Some). split; [done|]. rewrite Hr in Hat. by injection Hat as ->.
  - exists r. split; [|by split]. unfold process_at in *. cbn. by rewrite list_lookup_insert_ne.
Qed.

Lemma set_sched_id (k : K) : set_sched (sched k) k = k.
Proof. by destruct k. Qed.

(** The head of the best queue. *)
Lemma head_run k g : inv k g -> exists o, on_scheduler rq_head k = Some (o, k) /\
  match o with
  | None => none_ready k
  | Some (pid, t) => 1 <= pid /\ exists n p, t = Z.of_nat n /\ valid_tid n /\ process_at k pid = Some p /\
      threads p !! n = Some TS_Ready
  end.
Proof.
  intros Hk. destruct (rq_head_spec (sched k) g (ki_rel _ _ _ _ Hk)) as (o & E & Ho).
  exists o. unfold on_scheduler, lift. rewrite E, set_sched_id. split; [done|]. destruct o as [[pid t]|].
  - destruct Ho as (pr & Hin & _). destruct (ki_live _ _ _ _ Hk pr _ Hin) as [Hp [p Hat]]. cbn in Hp, Hat. split; [done|].
    destruct (inv_process _ _ _ _ _ _ Hk Hp Hat) as [[Hi _] Hpid]. rewrite <- Hpid in Hin.
    destruct (pi_valid _ _ Hi pr t Hin) as (n & -> & Hn). exists n, p. split_and!; try done.
    destruct (thread_lookup _ _ n Hi Hn) as (st & pr' & Hst & Hpr).
    by apply (pi_agrees _ _ Hi n st pr' pr (proj1 Hn) Hst Hpr) in Hin as [-> _].
  - intros pid p n Hp Hat Hn Hst. destruct (inv_process _ _ _ _ _ _ Hk Hp Hat) as [[Hi _] Hpid].
    destruct (thread_lookup _ _ n Hi Hn) as (st & pr & _ & Hpr).
    apply (Ho pr (p_pid p, Z.of_nat n)). by apply (pi_agrees _ _ Hi n TS_Ready pr pr (proj1 Hn) Hst Hpr).
Qed.

(** ** Register contexts *)

Lemma arch_result_run a pid tid r : arch_wf a -> 1 <= pid <= MAX_PROCESS_COUNT ->
  exists a', ArchProcess.set_thread_result pid tid r a = Some (tt, a') /\ cur_pid a' = cur_pid a /\
    forall q, tid_of a' q = tid_of a q.
Proof.
  intros [Hl Hi] Hp. unfold ArchProcess.set_thread_result. destruct (bad_tid tid) eqn:Hb; [by exists a|].
  apply bad_tid_cases in Hb. unfold table_get, bind, gets.
  destruct (lookup_lt_is_Some_2 (process_table a) (table_index pid)) as [o Ho].
  { rewrite Hl. unfold table_index, PROCESS_SLOTS, MAX_PROCESS_COUNT in *. lia. }
  rewrite Ho. cbn. destruct o as [p|]; [|by exists a]. destruct (Hi _ _ Ho) as [Hlen _].
  destruct (lookup_lt_is_Some_2 (impl_threads p) (tid - 1)%nat) as [t Ht]; [rewrite Hlen; unfold slot_ok in Hb; lia|].
  rewrite Ht. eexists. split; [reflexivity|]. split; [done|]. intros q. unfold tid_of. cbn.
  destruct (decide (table_index q = table_index pid)) as [->|Hne]; [|by rewrite list_lookup_insert_ne].
  rewrite list_lookup_insert_eq by (by eapply lookup_lt_Some). by rewrite Ho.
Qed.

Lemma arch_set_tid_run a pid tid : arch_wf a -> 1 <= pid <= MAX_PROCESS_COUNT -> valid_tid tid ->
  exists r a', set_tid pid tid a = Some (r, a') /\ cur_pid a' = cur_pid a /\ (allocated_in a' pid tid -> tid_of a' pid = tid).
Proof.
  intros [Hl Hi] Hp Hv. unfold set_tid. destruct (bad_tid tid) eqn:Hb.
  { rewrite bad_tid_ok in Hb; [done|]. unfold slot_ok, THREAD_SLOTS, valid_tid, NUM_THREADS in *. lia. }
  unfold table_get, bind, gets. destruct (lookup_lt_is_Some_2 (process_table a) (table_index pid)) as [o Ho].
  { rewrite Hl. unfold table_index, PROCESS_SLOTS, MAX_PROCESS_COUNT in *. lia. }
  rewrite Ho. cbn. destruct o as [p|].
  2: { eexists _, a. split; [reflexivity|]. split; [done|]. intros (p & t & Hpt & _). by rewrite Ho in Hpt. }
  destruct (Hi _ _ Ho) as [Hlen _]. destruct (lookup_lt_is_Some_2 (impl_threads p) (tid - 1)%nat) as [t Ht].
  { rewrite Hlen. unfold THREAD_SLOTS, valid_tid, NUM_THREADS in *. lia. }
  rewrite Ht. cbn. destruct (allocated t) eqn:Ha; cbn.
  - eexists _, _. split; [reflexivity|]. split; [done|]. intros _. unfold tid_of. cbn.
    by rewrite list_lookup_insert_eq by (by eapply lookup_lt_Some).
  - eexists _, a. split; [reflexivity|]. split; [done|]. intros (p' & t' & Hp' & Ht' & Ha'). rewrite Ho in Hp'. injection Hp' as <-. congruence.
Qed.

Lemma activate_run k g pid p : inv k g -> 1 <= pid -> process_at k pid = Some p ->
  activate_process pid k = Some (Ok tt, set_arch (mkArch (process_table (arch k)) pid) k).
Proof.
  intros Hk Hp Hat. destruct (process_bound _ _ _ _ Hk Hp Hat) as [_ E]. unfold activate_process, bind_try, bind at 1.
  rewrite (process_run _ _ _ _ Hk Hp Hat). unfold on_arch, lift, bind. cbn. by rewrite E.
Qed.

Lemma current_alive k g : inv k g -> 1 <= cur_pid (arch k) /\ exists p, process_at k (cur_pid (arch k)) = Some p.
Proof. intros Hk. by apply (ki_alive _ _ _ _ Hk), (ki_current _ _ _ _ Hk). Qed.

Lemma result_run k g pid p tid r : inv k g -> 1 <= pid -> process_at k pid = Some p ->
  exists a', set_thread_result pid tid r k = Some (Ok tt, set_arch a' k) /\ cur_pid a' = cur_pid (arch k) /\
    forall q, tid_of a' q = tid_of (arch k) q.
Proof.
  intros Hk Hp Hat. destruct (process_bound _ _ _ _ Hk Hp Hat) as [Hb _]. destruct (current_alive _ _ Hk) as [Hc [pc Hpc]].
  unfold set_thread_result, current_pid, bind at 1, gets at 1. destruct (Z.eqb_spec (cur_pid (arch k)) pid) as [Ec|Hne].
  - destruct (arch_result_run (arch k) pid tid r (ki_arch _ _ _ _ Hk) Hb) as (a' & E & Hca & Ht).
    exists a'. unfold bind, on_arch, lift. rewrite Ec, E. by rewrite <- Ec.
  - unfold bind_try, bind at 1. rewrite (activate_run _ _ _ _ Hk Hp Hat).
    set (k1 := set_arch _ k). assert (Hk1 : inv k1 g).
    { destruct (keeps_activate A Al pid Hp k g _ _ Hk (activate_run _ _ _ _ Hk Hp Hat)) as [_ [g1 Hk1]].
      destruct Hk1, Hk. by split. }
    unfold bind at 1. cbn [arch k1 set_arch]. unfold gets at 1. cbn [cur_pid].
    destruct (arch_result_run (arch k1) pid tid r (ki_arch _ _ _ _ Hk1) Hb) as (a' & E & Hca & Ht).
    unfold bind at 1, on_arch, lift. cbn [arch k1 set_arch cur_pid] in E |- *. rewrite E. unfold unwrap, bind at 1 2.
    set (k2 := set_arch a' k1). assert (Hk2 : inv k2 g).
    { destruct (arch_set_thread_result pid tid r _ _ _ (ki_arch _ _ _ _ Hk1) E) as (_ & Hw & Hc2).
      destruct Hk1. split; try done. cbn [arch k2 set_arch]. by rewrite Hca. }
    rewrite (activate_run k2 g (cur_pid (arch k)) pc Hk2 Hc Hpc). unfold bind, ret.
    exists (mkArch (process_table a') (cur_pid (arch k))). split; [done|]. split; [done|]. intros q. apply (Ht q).
Qed.

(** ** Polling *)

Lemma wake_calm s g state n : ps_inv s g -> state <> TS_Ready -> 1 <= n ->
  exists s', Process.wake_threads_with_state state n s = Some (tt, s') /\ proc_calm (ps_proc s) (ps_proc s').
Proof.
  intros Hs Hst Hn. unfold Process.wake_threads_with_state. destruct (Z.eqb_spec n 0) as [->|_]; [lia|].
  destruct (wake_loop_run state s g 1 (NUM_THREADS - 2) n Hs) as (s' & g' & E & _ & _ & _ & Hout & Hin);
    [lia|unfold NUM_THREADS; lia|done|].
  exists s'. split; [done|]. split; [by apply (wake_loop_futures _ _ _ _ _ _ _ E)|]. intros j Hj.
  destruct (decide (1 <= j < 1 + (NUM_THREADS - 2))%nat) as [Hr|Hr]; [by apply (Hin j TS_Ready Hr Hj)|].
  rewrite Hout; [done|]. lia.
Qed.

Lemma for_wake_run state l k g : inv k g -> state <> TS_Ready -> Forall (fun i => (i < PROCESS_SLOTS)%nat) l ->
  exists k', for_processes (Process.wake_threads_with_state state USIZE_MAX) l k = Some (tt, k') /\ calm k k' /\
    servers k' = servers k.
Proof.
  intros Hk Hst Hl. revert k g Hk. induction Hl as [|i l Hi Hl IH]; intros k g Hk; cbn [for_processes].
  { exists k. split; [done|]. split; [apply calm_refl|done]. }
  assert (Hb : 1 <= Z.of_nat i + 1 <= MAX_PROCESS_COUNT) by (unfold PROCESS_SLOTS, MAX_PROCESS_COUNT in *; lia).
  destruct (process_at k (Z.of_nat i + 1)) as [p|] eqn:Hat.
  - destruct (inv_process _ _ _ _ _ _ Hk (proj1 Hb) Hat) as [[Hi' _] _].
    destruct (wake_calm _ g state USIZE_MAX Hi' Hst) as (s' & E & Hc); [done|].
    pose proof (on_process_run _ _ _ _ _ _ _ Hk (proj1 Hb) Hat E) as Erun. rewrite (bind_run _ _ _ _ _ Erun).
    destruct (keeps_on_process A Al _ _ _ (proj1 Hb) (ps_wake state USIZE_MAX ltac:(done)) _ _ _ _ Hk Erun) as [_ [g1 Hk1]].
    destruct (IH _ g1 Hk1) as (k' & E' & Hc' & Hs'). exists k'. split; [done|]. split; [|done].
    eapply calm_trans; [|exact Hc']. exact (put_process_calm k g _ p s' Hk (proj1 Hb) Hat Hc).
  - rewrite (bind_run _ _ k (Err ProcessNotFound) k); [by apply (IH k g)|].
    unfold on_process. by rewrite (bind_run _ _ _ _ _ (process_slot_run _ _ _ Hk Hb)), Hat.
Qed.

Lemma wake_if_run k g sidx s b : inv k g -> servers k !! sidx = Some (Some s) ->
  exists k', wake_if_unfull sidx b k = Some (tt, k') /\ calm k k' /\ servers k' = servers k.
Proof.
  intros Hk Hs. unfold wake_if_unfull, server_from_sidx. unfold bind at 1 2, gets at 1.
  destruct (Nat.ltb_spec (length (servers k)) sidx) as [Hlt|_]; [apply lookup_lt_Some in Hs; lia|].
  rewrite Hs. cbn. unfold bind, ret. destruct (b && _); [|exists k; split; [done|split; [apply calm_refl|done]]].
  unfold wake_threads_with_state, for_all_processes, bind at 1, gets at 1.
  destruct (for_wake_run (TS_RetryQueueFull (Z.of_nat sidx)) (seq 0 (length (processes k))) k g Hk) as (k' & E & Hc & Hsv);
    [done| |by exists k'].
  apply Forall_seq. intros j Hj. rewrite (ki_plen _ _ _ _ Hk) in Hj. lia.
Qed.

Lemma server_from_run k g sidx : inv k g -> (sidx < MAX_SERVER_COUNT)%nat ->
  exists o, servers k !! sidx = Some o /\ server_from_sidx sidx k = Some (o, k).
Proof.
  intros Hk Hs. destruct (lookup_lt_is_Some_2 (servers k) sidx) as [o Ho]; [by rewrite (ki_slen _ _ _ _ Hk)|].
  exists o. split; [done|]. unfold server_from_sidx, bind, gets. rewrite Ho.
  destruct (Nat.ltb_spec (length (servers k)) sidx) as [Hlt|_]; [rewrite (ki_slen _ _ _ _ Hk) in Hlt; lia|done].
Qed.

Lemma take_next_runs s sidx : (exists idxs, server_inv s idxs) -> exists r s', take_next_message sidx s = Some (r, s').
Proof.
  intros [idxs Hi]. destruct (take_next_message sidx s) as [[r s']|] eqn:E; [eauto|].
  destruct (take_next_message_total sidx s); [apply Hi|done].
Qed.

(** A poll returns, keeps every ready thread ready and every future in place,
    and fails only when the server is gone. *)
Definition polled (k : K) (r : option (res XResult Error)) (k' : K) : Prop :=
  calm k k' /\ (r = None -> ready_count k' = ready_count k) /\ (forall e, r = Some (Err e) -> e = ServerNotFound).

Lemma poll_receive_run k g pid sidx : inv k g -> (sidx < MAX_SERVER_COUNT)%nat ->
  exists r k', poll_receive_message pid sidx k = Some (r, k') /\ polled k r k'.
Proof.
  intros Hk Hs. destruct (server_from_run k g sidx Hk Hs) as (o & Ho & Eo). unfold poll_receive_message.
  rewrite (bind_run _ _ _ _ _ Eo). destruct o as [s|].
  2: { eexists _, k. split; [done|]. split; [apply calm_refl|]. split; [done|]. by intros e [= <-]. }
  destruct (negb _). { eexists _, k. split; [done|]. split; [apply calm_refl|]. split; [done|]. by intros e [= <-]. }
  pose proof (ki_server _ _ _ _ Hk sidx s Ho) as Hso.
  destruct (take_next_runs s sidx (so_inv _ _ Hso)) as (m & s' & Em).
  destruct (take_next_keeps _ _ _ _ _ Hso Em) as [_ Hso'].
  set (k1 := set_servers (<[sidx := Some s']> (servers k)) k).
  assert (E1 : on_server sidx (take_next_message sidx) k = Some (m, k1)).
  { unfold on_server. rewrite (bind_run _ _ _ _ _ Eo), (bind_run _ _ _ s k eq_refl). by rewrite Em. }
  assert (Hk1 : inv k1 g) by (by apply inv_put_server). rewrite (bind_run _ _ _ _ _ E1).
  assert (Hc1 : calm k k1) by (by apply calm_same). destruct m as [msg|].
  - assert (Hs1 : servers k1 !! sidx = Some (Some s')) by (cbn; apply list_lookup_insert_eq; by eapply lookup_lt_Some).
    destruct (wake_if_run k1 g sidx s' (is_queue_full s) Hk1 Hs1) as (k' & E' & Hc' & _).
    rewrite (bind_run _ _ _ _ _ E'). eexists _, k'. split; [done|]. split; [exact (calm_trans _ _ _ Hc1 Hc')|]. by split.
  - eexists _, k1. split; [done|]. split; [done|]. by split.
Qed.

Lemma take_mailbox_run s g tid : ps_inv s g -> valid_tid tid ->
  exists o, take_mailbox tid s = Some (o, mkPS (set_mailboxes (<[tid := None]> (result_mailbox (ps_proc s))) (ps_proc s)) (ps_sched s)).
Proof.
  intros Hs [_ Ht]. unfold take_mailbox. destruct (Nat.ltb_spec tid NUM_THREADS) as [_|Hge]; [|lia].
  destruct (lookup_lt_is_Some_2 (result_mailbox (ps_proc s)) tid) as [o Ho]; [by rewrite (wf_mailbox _ (pi_wf _ _ Hs))|].
  exists o. unfold bind, gets. by rewrite Ho.
Qed.

Lemma take_future_run s g tid : ps_inv s g -> valid_tid tid ->
  exists f, kernel_futures (ps_proc s) !! tid = Some f /\
    take_kernel_future tid s = Some (f, mkPS (set_futures (<[tid := None]> (kernel_futures (ps_proc s))) (ps_proc s)) (ps_sched s)).
Proof.
  intros Hs [_ Ht]. unfold take_kernel_future. destruct (Nat.ltb_spec tid NUM_THREADS) as [_|Hge]; [|lia].
  destruct (lookup_lt_is_Some_2 (kernel_futures (ps_proc s)) tid) as [o Ho]; [by rewrite (wf_futures _ (pi_wf _ _ Hs))|].
  exists o. split; [done|]. unfold bind, gets. by rewrite Ho.
Qed.

(** Replacing a process changes the count by its own. *)
Lemma put_process_count k pid p s : process_at k pid = Some p ->
  (ready_count (put_process pid s k) + ready_threads_of (Some p) = ready_count k + ready_threads_of (Some (ps_proc s)))%nat.
Proof. intros Hat%process_at_lookup. exact (sum_list_insert ready_threads_of (processes k) (process_index pid) (Some p) _ Hat). Qed.

Lemma poll_run k g f pid p tid : inv k g -> future_ok f -> 1 <= pid -> process_at k pid = Some p -> valid_tid tid ->
  exists r k', poll f pid tid k = Some (r, k') /\ polled k r k'.
Proof.
  intros Hk Hf Hp Hat Ht.
  assert (Hm : exists r k', poll_process_mailbox pid tid k = Some (r, k') /\ polled k r k').
  { destruct (inv_process _ _ _ _ _ _ Hk Hp Hat) as [[Hi _] _].
    destruct (take_mailbox_run _ g tid Hi Ht) as [o Eo]. unfold poll_process_mailbox.
    set (s' := mkPS (set_mailboxes _ _) _) in Eo.
    assert (E : poll_mailbox tid (mkPS p (sched k)) = Some (Ok <$> o, s')) by exact (bind_run _ _ _ _ _ Eo).
    rewrite (bind_run _ _ _ _ _ (on_process_run _ _ _ _ _ _ _ Hk Hp Hat E)). eexists _, _. split; [reflexivity|].
    split; [by apply (put_process_calm k g pid p s' Hk Hp Hat)|]. split.
    - intros _. pose proof (put_process_count k pid p s' Hat) as Hcnt.
      change (ready_threads_of (Some (ps_proc s'))) with (ready_threads_of (Some p)) in Hcnt. lia.
    - intros e. by destruct o. }
  destruct f as [sidx| | | | |]; try done. cbn in Hf. apply (poll_receive_run k g); [done|]. lia.
Qed.

(** ** Dispatching *)

Lemma dispatch_run k g cp ct pid p tid : inv k g -> 1 <= pid -> process_at k pid = Some p -> valid_tid tid ->
  threads p !! tid = Some TS_Ready -> kernel_future p tid = None -> cur_pid (arch k) = cp -> tid_of (arch k) cp = ct ->
  exists k', dispatch cp ct pid tid k = Some (Ok R_ResumeProcess, k') /\ outcome (Ok R_ResumeProcess) k'.
Proof.
  intros Hk Hp Hat Ht Hst Hf Hcp Hct. destruct (process_bound _ _ _ _ Hk Hp Hat) as [Hb _]. unfold dispatch.
  destruct (_ && _) eqn:E.
  - apply andb_true_iff in E as [E1%Z.eqb_eq E2%Nat.eqb_eq]. exists k. split; [done|]. split; [done|]. right.
    exists pid, tid. split; [by exists p|]. subst. by split.
  - pose proof (activate_run _ _ _ _ Hk Hp Hat) as Ea.
    destruct (keeps_activate A Al pid Hp k g _ _ Hk Ea) as [_ [g1 Hk1]]. set (k1 := set_arch _ k) in *.
    rewrite (bind_run _ _ k tt k1) by (unfold unwrap; by rewrite (bind_run _ _ _ _ _ Ea)).
    rewrite (bind_run _ _ k1 pid k1 eq_refl).
    destruct (arch_set_tid_run (arch k1) pid tid (ki_arch _ _ _ _ Hk1) Hb Ht) as (r & a' & Er & Hc & Hsel).
    rewrite (bind_run _ _ k1 r (set_arch a' k1)) by (unfold on_arch, lift; by rewrite Er).
    eexists. split; [reflexivity|]. split; [done|]. right. exists pid, tid. split; [by exists p|]. by split.
Qed.

Lemma repark_run s g tid f mask : p_inv s g -> future_ok f -> valid_tid tid -> threads (ps_proc s) !! tid = Some TS_Ready ->
  exists s', (_ <- set_kernel_future tid f ;; set_thread_state tid (TS_WaitEvent mask)) s = Some (tt, s') /\
    Datatypes.S (ready_threads_of (Some (ps_proc s'))) = ready_threads_of (Some (ps_proc s)).
Proof.
  intros Hs Hf Ht Hst. unfold set_kernel_future. destruct (Nat.ltb_spec tid NUM_THREADS) as [_|Hge]; [|unfold valid_tid in Ht; lia].
  set (s1 := mkPS (set_futures (<[tid := Some f]> (kernel_futures (ps_proc s))) (ps_proc s)) (ps_sched s)).
  rewrite (bind_run _ _ s tt s1) by reflexivity. destruct (ps_update _ (rows_future tid (Some f) ltac:(intros f' [= <-]; split; [apply Ht|done])) s g tt s1 Hs eq_refl)
    as (_ & g1 & [Hi1 _] & _ & _).
  destruct (set_thread_state_run s1 g1 tid (TS_WaitEvent mask) Hi1 Ht) as (s' & g' & E & _ & Hp & _).
  exists s'. split; [done|]. rewrite Hp. cbn [ready_threads_of threads set_threads].
  apply (filter_insert_drop (fun st => st = TS_Ready) (threads (ps_proc s)) tid TS_Ready); done.
Qed.

Lemma activate_loop_run fuel cp ct k g : inv k g -> (ready_count k < fuel)%nat -> cur_pid (arch k) = cp ->
  tid_of (arch k) cp = ct -> exists r k', activate_loop fuel cp ct k = Some (r, k') /\ outcome r k'.
Proof.
  revert k g. induction fuel as [|fuel IH]; intros k g Hk Hfuel Hcp Hct; [lia|]. cbn [activate_loop].
  destruct (head_run k g Hk) as (o & Eh & Ho). rewrite (bind_run _ _ _ _ _ Eh). destruct o as [[pid t]|].
  2: { eexists _, k. split; [done|]. split; [done|]. by left. }
  destruct Ho as (Hp & tid & p & -> & Ht & Hat & Hst). rewrite Nat2Z.id.
  destruct (inv_process _ _ _ _ _ _ Hk Hp Hat) as [Hpi _].
  destruct (take_future_run _ g tid (pv_inv _ _ Hpi) Ht) as (f & Hfl & Ef). cbn [ps_proc ps_sched] in Ef.
  pose proof (on_process_run _ _ _ _ _ _ _ Hk Hp Hat Ef) as Ep.
  destruct (keeps_on_process A Al pid _ _ Hp (ps_take_future tid) _ _ _ _ Hk Ep) as [Hfo [g1 Hk1]]. cbn in Hfo.
  set (p1 := set_futures _ p) in *. set (k1 := put_process _ _ k) in *.
  assert (Hat1 : process_at k1 pid = Some p1) by (apply put_process_here; by rewrite Hat).
  assert (Hf1 : kernel_future p1 tid = None).
  { unfold kernel_future, p1. cbn. by rewrite list_lookup_insert_eq by (by eapply lookup_lt_Some). }
  rewrite (bind_run _ _ k f k1) by (unfold unwrap; by rewrite (bind_run _ _ _ _ _ Ep)).
  destruct f as [f|].
  2: { destruct (dispatch_run k1 g1 cp ct pid p1 tid) as (k' & Ed & Hd); try done. by exists (Ok R_ResumeProcess), k'. }
  destruct (poll_run k1 g1 f pid p1 tid Hk1 (Hfo f eq_refl) Hp Hat1 Ht) as (r & k2 & Er & [Ha2 Hc2] & Hn & He).
  destruct (keeps_poll A Al f pid tid Hp _ _ _ _ Hk1 Er) as [_ [g2 Hk2]]. rewrite (bind_run _ _ _ _ _ Er).
  destruct (Hc2 pid p1 Hat1) as (p2 & Hat2 & Hf2 & Hr2). destruct r as [[x|e]|].
  - destruct (result_run k2 g2 pid p2 tid x Hk2 Hp Hat2) as (a' & Es & Hca & Hta). rewrite (bind_run _ _ _ _ _ Es).
    destruct (keeps_set_thread_result A Al pid tid x Hp _ _ _ _ Hk2 Es) as [_ [g3 Hk3]].
    destruct (dispatch_run (set_arch a' k2) g3 cp ct pid p2 tid) as (k' & Ed & Hd); try done.
    + by apply Hr2.
    + unfold kernel_future in *. by rewrite Hf2.
    + cbn. by rewrite Hca, Ha2.
    + cbn. by rewrite Hta, Ha2.
    + by exists (Ok R_ResumeProcess), k'.
  - exists (Err e), k2. split; [done|]. by apply He.
  - destruct (inv_process _ _ _ _ _ _ Hk2 Hp Hat2) as [Hpi2 _].
    destruct (repark_run _ g2 tid f (suspension_mask f) Hpi2 (Hfo f eq_refl) Ht) as (s' & Es & Hcnt); [by apply Hr2|].
    pose proof (on_process_run _ _ _ _ _ _ _ Hk2 Hp Hat2 Es) as Ep2.
    rewrite (bind_run _ _ k2 tt (put_process pid s' k2)) by (unfold unwrap; by rewrite (bind_run _ _ _ _ _ Ep2)).
    assert (Hk3 : exists g3, inv (put_process pid s' k2) g3).
    { eapply (keeps_on_process A Al pid _ (fun _ => True) Hp); [|exact Hk2|exact Ep2].
      eapply ps_bind; [apply ps_set_future; [apply Ht|by apply Hfo]|]. intros _ _. apply ps_set_thread_state, Ht. }
    destruct Hk3 as [g3 Hk3]. apply (IH _ g3 Hk3).
    + pose proof (put_process_count k pid p (mkPS p1 (sched k)) Hat) as H1.
      pose proof (put_process_count k2 pid p2 s' Hat2) as H2. specialize (Hn eq_refl).
      change (ready_threads_of (Some (ps_proc (mkPS p1 (sched k))))) with (ready_threads_of (Some p)) in H1.
      fold k1 in H1. cbn [ps_proc] in Hcnt. lia.
    + cbn. by rewrite Ha2.
    + cbn. by rewrite Ha2.
Qed.

Lemma ready_count_bound k g : inv k g -> (ready_count k <= 64 * 32)%nat.
Proof.
  intros Hk. pose proof (ki_plen _ _ _ _ Hk) as Hl. change 64%nat with PROCESS_SLOTS. rewrite <- Hl.
  apply sum_list_bound. apply Forall_lookup_2. intros i o Ho. destruct o as [p|]; [|cbn; lia].
  destruct (ki_proc _ _ _ _ Hk i p Ho) as [[Hi _] _]. cbn [ready_threads_of].
  pose proof (wf_threads _ (pi_wf _ _ Hi)) as Hth. cbn [ps_proc] in Hth.
  pose proof (length_filter (fun st => st = TS_Ready) (threads p)) as Hle. rewrite Hth in Hle. exact Hle.
Qed.

Lemma activate_current_run k g : inv k g -> rq_in_irq (sched k) = false ->
  exists r k', activate_current k = Some (r, k') /\ outcome r k'.
Proof.
  intros Hk Hirq. unfold activate_current. rewrite (bind_run _ _ k false k) by (unfold gets; by rewrite Hirq).
  rewrite (bind_run _ _ k (cur_pid (arch k)) k eq_refl).
  rewrite (bind_run _ _ k (tid_of (arch k) (cur_pid (arch k))) k).
  2: { unfold on_arch, lift, current_tid, gets. by destruct k. }
  apply (activate_loop_run _ _ _ k g Hk); [|done..]. pose proof (ready_count_bound k g Hk). unfold ACTIVATE_FUEL. lia.
Qed.

End Runs.
End Dispatch.

(** C4. Choosing the next thread always ends: from a state satisfying the kernel's
    invariant, outside an interrupt handler, the loop of [activate_current]
    neither panics nor runs on, whatever futures the ready threads carry.  It
    reports success only when no thread is ready, or when the current process
    and thread are a ready thread whose future is done; and the only error is
    that of a server that no longer exists. *)
Theorem activate_current_dispatches {P : Platform} {S G : Type} {RQ : ReadyQueues S G} (k : Kernel (S := S)) :
  kernel_ok k -> rq_in_irq (sched k) = false ->
  exists r k', activate_current k = Some (r, k') /\ kernel_ok k' /\ outcome r k'.
Proof.
  intros [g Hk] Hirq. destruct (activate_current_run _ _ k g Hk Hirq) as (r & k' & E & Ho). exists r, k'.
  split; [done|]. split; [|done]. eapply (keeps_ok _ (fun _ => True)); [|by exists g|exact E].
  intros A HA. apply keeps_activate_current.
Qed.

Lemma boot_ok : kernel_ok boot_kernel.
Proof.
  destruct (init_pid1_ok (RQ := scheduler_queues) scheduler_init a_init no_mapping (mkSys vm0 ∅) refines_init init_empty) as (k & E & Hk).
  rewrite demo_boot in E. by injection E as <-.
Qed.

Lemma activate_current_dispatches_witness :
  exists r k', activate_current boot_kernel = Some (r, k') /\ kernel_ok k' /\ outcome r k'.
Proof. apply (activate_current_dispatches boot_kernel boot_ok). by vm_compute. Defined.
