(* ===== verification/Calls.v ===== *)
(** * What system calls guarantee

    Theorems about [syscall::handle] and the services behind it that hold in
    every state satisfying the invariant of [KernelInv]: the checks made before
    a call is carried out, a blocking call from the send to the reply, and the
    end of a process. *)

From Stdlib Require Import ZArith Lia Bool.
From stdpp Require Import gmap.
From S2P Require Import Prelude Abi SysCall Scheduler Server Memory PageTable MemMap Process ArchProcess Display Bytes Elf Services Spawn Handler KernelInv Dispatch.
Open Scope Z_scope.

Lemma mask_test m n : 0 <= n -> negb (Z.land m (Z.shiftl 1 n) =? 0) = Z.testbit m n.
Proof.
  intros Hn. destruct (Z.testbit m n) eqn:E.
  - destruct (Z.eqb_spec (Z.land m (Z.shiftl 1 n)) 0) as [E0|]; [|done]. exfalso.
    assert (Hb : Z.testbit (Z.land m (Z.shiftl 1 n)) n = true).
    { by rewrite Z.land_spec, E, Z.shiftl_1_l, Z.pow2_bits_true by lia. }
    by rewrite E0, Z.bits_0 in Hb.
  - destruct (Z.eqb_spec (Z.land m (Z.shiftl 1 n)) 0) as [|Hne]; [done|]. exfalso. apply Hne.
    apply Z.bits_inj'. intros j Hj. rewrite Z.land_spec, Z.shiftl_1_l, Z.bits_0.
    destruct (Z.eq_dec n j) as [<-|]; [by rewrite E|]. rewrite Z.pow2_bits_false by lia. apply andb_false_r.
Qed.

Section Calls.
Context {P : Platform} {S G : Type} {RQ : ReadyQueues S G}.
Notation K := (Kernel (S := S)).
Notation PS := (PS (S := S)).

(** The current process of a state that satisfies the invariant. *)
Lemma current_process_run A Al (k : K) g : inv A Al k g ->
  exists p, process_at k (cur_pid (arch k)) = Some p /\ current_process k = Some (p, k).
Proof.
  intros Hk. destruct (current_alive _ _ _ _ Hk) as [Hc [p Hp]]. exists p. split; [done|].
  unfold current_process. rewrite (bind_run _ _ k (cur_pid (arch k)) k eq_refl).
  unfold unwrap. by rewrite (bind_run _ _ _ _ _ (process_run _ _ _ _ _ _ Hk Hc Hp)).
Qed.

(** The number of the call, whose bit in the mask permits it. *)
Definition call_number (call : SysCall) : Z := nth 0 (as_args call) 0.

Lemma privileged_number call : privileged call = true -> 0 <= call_number call < 64.
Proof. destruct call; cbn; try done; intros _; split; done. Qed.

Lemma mask_run A Al (k : K) g p call : inv A Al k g -> process_at k (cur_pid (arch k)) = Some p -> 0 <= call_number call ->
  is_permitted_by_mask call k =
    Some (if Z.testbit (syscall_permissions p) (call_number call) then Ok tt else Err AccessDenied, k).
Proof.
  intros Hk Hp Hn. destruct (current_process_run _ _ _ _ Hk) as (p' & Hp' & E). rewrite Hp in Hp'. injection Hp' as <-.
  unfold is_permitted_by_mask. rewrite (bind_run _ _ _ _ _ E). unfold ret. by rewrite <- mask_test.
Qed.

Lemma permission_run A Al (k : K) g p call : inv A Al k g -> process_at k (cur_pid (arch k)) = Some p -> privileged call = true ->
  check_syscall_permission call k =
    Some (if Z.testbit (syscall_permissions p) (call_number call) then Ok tt else Err AccessDenied, k).
Proof.
  intros Hk Hp Hc. rewrite <- (mask_run _ _ _ _ _ _ Hk Hp (proj1 (privileged_number _ Hc))).
  unfold check_syscall_permission. destruct call; try discriminate Hc; by rewrite Hc.
Qed.

Lemma handle_refused i tid call (k : K) : (tid <> 0%nat \/ can_call_from_interrupt call = true) ->
  check_syscall_permission call k = Some (Err AccessDenied, k) -> handle i tid call k = Some (Err AccessDenied, k).
Proof.
  intros Ht Hc. unfold handle. destruct (_ && _) eqn:E.
  { apply andb_true_iff in E as [E1%Nat.eqb_eq E2%negb_true_iff]. destruct Ht; congruence. }
  by rewrite (try_err _ _ _ _ _ Hc).
Qed.

(** A connection of the current process. *)
Lemma connected_run A Al (k : K) g p cid : inv A Al k g -> process_at k (cur_pid (arch k)) = Some p -> 2 <= cid ->
  forall sidx rc pm, connection_map p !! Z.to_nat (cid - 2) = Some (CS_Connected sidx rc pm) ->
  connected cid k = Some (Ok (Z.to_nat sidx, pm), k).
Proof.
  intros Hk Hp Hcid sidx rc pm Hs. destruct (current_process_run _ _ _ _ Hk) as (p' & Hp' & E).
  rewrite Hp in Hp'. injection Hp' as <-. unfold connected. rewrite (bind_run _ _ _ _ _ E). unfold ret.
  destruct (Z.ltb_spec cid 2); [lia|]. by rewrite Hs.
Qed.

(** Calls that need no permission. *)
Definition unprivileged (call : SysCall) : bool :=
  match call with
  | AllowMessagesSID _ _ | AllowMessagesCID _ _ _ | Invalid _ _ _ _ _ _ _ => false
  | _ => negb (privileged call)
  end.
Lemma unprivileged_run call (k : K) : unprivileged call = true -> check_syscall_permission call k = Some (Ok tt, k).
Proof.
  unfold unprivileged, check_syscall_permission. destruct call; try done; intros ->%negb_true_iff; done.
Qed.

Lemma send_refused A Al (k : K) g p tid cid msg sidx rc pm s : inv A Al k g -> process_at k (cur_pid (arch k)) = Some p ->
  2 <= cid -> connection_map p !! Z.to_nat (cid - 2) = Some (CS_Connected sidx rc pm) ->
  servers k !! Z.to_nat sidx = Some (Some s) -> srv_pid s <> cur_pid (arch k) -> is_permitted pm (message_id msg) = false ->
  send_message tid cid msg k = Some (Err AccessDenied, k).
Proof.
  intros Hk Hp Hcid Hcon Hs Hne Hperm. unfold send_message.
  rewrite (try_run _ _ _ _ _ (connected_run _ _ _ _ _ _ Hk Hp Hcid _ _ _ Hcon)).
  destruct (server_from_run _ _ k g (Z.to_nat sidx) Hk) as (o & Ho & Eo).
  { apply lookup_lt_Some in Hs. by rewrite (ki_slen _ _ _ _ Hk) in Hs. }
  rewrite Hs in Ho. injection Ho as <-. rewrite (bind_run _ _ _ _ _ Eo), (bind_run _ _ k s k eq_refl).
  rewrite (bind_run _ _ k (cur_pid (arch k)) k eq_refl). destruct (Z.eqb_spec (srv_pid s) (cur_pid (arch k))); [done|].
  by rewrite Hperm.
Qed.

Lemma reply_refused A Al (k : K) g token buf : inv A Al k g ->
  let sidx := Z.to_nat (snd_sidx (SenderID_from_usize token)) in
  sidx <> MAX_SERVER_COUNT -> (forall s, servers k !! sidx = Some (Some s) -> srv_pid s <> cur_pid (arch k)) ->
  take_reply (SenderID_from_usize token) buf k = Some (Err ServerNotFound, k).
Proof.
  cbv zeta. intros Hk Hne Hs. unfold take_reply. apply try_err. unfold reply_server.
  set (sidx := Z.to_nat _) in *. destruct (decide (sidx < MAX_SERVER_COUNT)%nat) as [Hlt|Hge].
  - destruct (server_from_run _ _ k g sidx Hk Hlt) as (o & Ho & Eo). rewrite (bind_run _ _ _ _ _ Eo).
    rewrite (bind_run _ _ k (cur_pid (arch k)) k eq_refl). destruct o as [s|]; [|done].
    destruct (Z.eqb_spec (srv_pid s) (cur_pid (arch k))) as [E|]; [by destruct (Hs s Ho)|done].
  - rewrite (bind_run _ _ k None k); [done|]. unfold server_from_sidx, bind, gets. rewrite (ki_slen _ _ _ _ Hk).
    destruct (Nat.ltb_spec MAX_SERVER_COUNT sidx); [done|lia].
Qed.

(** ** Replies *)

(** Server [sidx] of [owner] owes thread [tid] of [pid] the answer to a blocking
    call, in slot [slot]. *)
Definition owed (k : K) (sidx slot : nat) (owner pid : PID) (tid : nat) : Prop :=
  exists s p, servers k !! sidx = Some (Some s) /\ srv_pid s = owner /\
    queue s !! slot = Some (QM_WaitingReturnScalar pid (Z.of_nat tid)) /\
    process_at k pid = Some p /\ kernel_future p tid = Some KF_WaitBlocking.

(** The thread is ready and goes on with the answer when it is chosen. *)
Definition answered (k : K) (pid : PID) (tid : nat) (v : XResult) : Prop :=
  exists p, process_at k pid = Some p /\ threads p !! tid = Some TS_Ready /\
    kernel_future p tid = Some KF_WaitBlocking /\ result_mailbox p !! tid = Some (Some v) /\
    exists k', poll KF_WaitBlocking pid tid k = Some (Some (Ok v), k').

Lemma on_server_run {X} A Al (k : K) g sidx s (op : M Server X) x s' : inv A Al k g -> servers k !! sidx = Some (Some s) ->
  op s = Some (x, s') -> on_server sidx op k = Some (x, set_servers (<[sidx := Some s']> (servers k)) k).
Proof.
  intros Hk Hs Hop. destruct (server_from_run _ _ k g sidx Hk) as (o & Ho & Eo).
  { apply lookup_lt_Some in Hs. by rewrite (ki_slen _ _ _ _ Hk) in Hs. }
  rewrite Hs in Ho. injection Ho as <-. unfold on_server.
  by rewrite (bind_run _ _ _ _ _ Eo), (bind_run _ _ k s k eq_refl), Hop.
Qed.

(** Waking a thread that waits in a future: the result waits in its mailbox. *)
Lemma wake_run A Al (k : K) g pid p tid v : inv A Al k g -> 1 <= pid -> process_at k pid = Some p -> valid_tid tid ->
  kernel_future p tid = Some KF_WaitBlocking ->
  exists s', wake_thread_with_result pid tid v k = Some (tt, put_process pid s' k) /\ answered (put_process pid s' k) pid tid v.
Proof.
  intros Hk Hp Hat Ht Hf. destruct (inv_process _ _ _ _ _ _ Hk Hp Hat) as [[Hi Hfo] _].
  pose proof (pi_wf _ _ Hi) as Hwf. cbn [ps_proc] in Hwf.
  set (p1 := set_mailboxes (<[tid := Some v]> (result_mailbox p)) p).
  assert (E1 : set_mailbox tid v (mkPS p (sched k)) = Some (tt, mkPS p1 (sched k))).
  { unfold set_mailbox. destruct (Nat.ltb_spec tid NUM_THREADS); [done|]. unfold valid_tid in Ht. lia. }
  destruct (ps_set_mailbox tid v _ _ _ _ {| pv_inv := Hi; pv_futures := Hfo |} E1) as (_ & g1 & [Hi1 _] & _).
  destruct (set_thread_state_run _ g1 tid TS_Ready Hi1 Ht) as (s' & g' & E2 & _ & Hp' & _). cbn [ps_proc] in Hp'.
  assert (Ew : wake_thread_with_result pid tid v k = Some (tt, put_process pid s' k)).
  { unfold wake_thread_with_result. rewrite (bind_run _ _ _ _ _ (process_run _ _ _ _ _ _ Hk Hp Hat)).
    unfold has_kernel_future. rewrite Hf. cbn [is_some].
    rewrite (bind_run _ _ k (Ok tt) (put_process pid s' k)); [done|].
    eapply on_process_run; [exact Hk|done|exact Hat|]. by rewrite (bind_run _ _ _ _ _ E1). }
  exists s'. split; [done|]. destruct (keeps_wake A Al pid tid v Hp (proj1 Ht) _ _ _ _ Hk Ew) as [_ [g2 Hk2]].
  assert (Hat2 : process_at (put_process pid s' k) pid = Some (ps_proc s')) by (apply put_process_here; by rewrite Hat).
  exists (ps_proc s'). split; [done|]. rewrite Hp'. unfold valid_tid in Ht.
  assert (Hm : result_mailbox (ps_proc s') !! tid = Some (Some v)).
  { rewrite Hp'. cbn. apply list_lookup_insert_eq. rewrite (wf_mailbox _ Hwf). lia. }
  split; [cbn; apply list_lookup_insert_eq; rewrite (wf_threads _ Hwf); lia|]. split; [done|].
  split; [by rewrite Hp' in Hm|]. cbn [poll]. unfold poll_process_mailbox.
  assert (Em : exists s2, poll_mailbox tid (mkPS (ps_proc s') (sched (put_process pid s' k))) = Some (Some (Ok v), s2)).
  { unfold poll_mailbox, take_mailbox. destruct (Nat.ltb_spec tid NUM_THREADS); [|lia]. unfold bind, gets. cbn [ps_proc]. rewrite Hm. by eexists. }
  destruct Em as [s2 Em]. eexists. by rewrite (bind_run _ _ _ _ _ (on_process_run _ _ _ _ _ _ _ _ _ Hk2 Hp Hat2 Em)).
Qed.

(** Taking the reply slot of a blocking scalar message. *)
Lemma take_reply_run A Al (k : K) g sidx slot o pid tid : inv A Al k g ->
  owed k sidx slot (cur_pid (arch k)) pid tid ->
  exists k1 g1 s1, take_reply (mkSenderID (Z.of_nat sidx) (Z.of_nat slot) o) None k =
      Some (Ok (WM_ScalarMessage pid (Z.of_nat tid)), k1) /\ inv A Al k1 g1 /\ calm k k1 /\
    servers k1 !! sidx = Some (Some s1) /\ srv_pid s1 = cur_pid (arch k) /\ queue s1 !! slot = Some QM_Empty.
Proof.
  intros Hk (s & p & Hs & Hown & Hq & Hat & Hf). unfold take_reply. cbn [snd_sidx snd_idx]. rewrite !Nat2Z.id.
  destruct (server_from_run _ _ k g sidx Hk) as (os & Ho & Eo).
  { apply lookup_lt_Some in Hs. by rewrite (ki_slen _ _ _ _ Hk) in Hs. }
  rewrite Hs in Ho. injection Ho as <-.
  rewrite (try_run _ _ k s k).
  2: { unfold reply_server. cbn [snd_sidx]. rewrite Nat2Z.id, (bind_run _ _ _ _ _ Eo), (bind_run _ _ k (cur_pid (arch k)) k eq_refl).
       by rewrite Hown, Z.eqb_refl. }
  set (s1 := set_tail (wrap_index (length (queue s)) slot) (set_empty_count (empty_count s + 1) (set_queue (<[slot := QM_Empty]> (queue s)) s))).
  assert (Et : take_waiting_message slot None s = Some (Ok (WM_ScalarMessage pid (Z.of_nat tid)), s1)).
  { unfold take_waiting_message, bind, gets. rewrite Hq. cbn. unfold modify, ret, s1. cbn. by rewrite length_insert. }
  pose proof (on_server_run _ _ _ _ _ _ _ _ _ Hk Hs Et) as Eon. rewrite (try_run _ _ _ _ _ Eon).
  set (k0 := set_servers _ k) in *.
  destruct (take_waiting_keeps _ _ _ _ _ _ (ki_server _ _ _ _ Hk _ _ Hs) Et) as [_ Hso].
  assert (Hk0 : inv A Al k0 g) by (by apply inv_put_server).
  assert (Hs0 : servers k0 !! sidx = Some (Some s1)) by (cbn; apply list_lookup_insert_eq; by eapply lookup_lt_Some).
  destruct (wake_if_run _ _ k0 g sidx s1 (is_queue_full s) Hk0 Hs0) as (k1 & Ew & Hc & Hsv).
  destruct (keeps_wake_if A Al sidx (is_queue_full s) _ _ _ _ Hk0 Ew) as [_ [g1 Hk1]].
  rewrite (bind_run _ _ _ _ _ Ew). exists k1, g1, s1. split; [done|]. split; [done|].
  split; [eapply calm_trans; [by apply (calm_same k k0)|done]|]. rewrite Hsv. split; [done|]. split; [done|].
  cbn. apply list_lookup_insert_eq. by eapply lookup_lt_Some.
Qed.

Lemma token_fields sidx slot pid : (sidx < 256)%nat -> Z.of_nat slot < 65536 -> pid_ok pid = true ->
  SenderID_from_usize (sender_token sidx slot (Some pid)) = mkSenderID (Z.of_nat sidx) (Z.of_nat slot) (Some pid).
Proof.
  intros Hs Hi Hp. apply sender_token_roundtrip. unfold SenderID_ok. cbn [snd_sidx snd_idx snd_pid].
  rewrite Hp, !andb_true_iff, !fits_spec. change (2 ^ 8) with 256. change (2 ^ 16) with 65536. lia.
Qed.

(** No one owes the answer any more: a second reply is refused. *)
Definition settled (k : K) (sidx slot : nat) (owner : PID) : Prop :=
  exists s, servers k !! sidx = Some (Some s) /\ srv_pid s = owner /\ queue s !! slot = Some QM_Empty.

Lemma reply_run A Al (k : K) g sidx slot pid tid server_tid v : inv A Al k g -> (sidx < 256)%nat -> Z.of_nat slot < 65536 ->
  pid_ok pid = true -> valid_tid tid -> owed k sidx slot (cur_pid (arch k)) pid tid ->
  exists k1 g1, return_result server_tid (sender_token sidx slot (Some pid)) v k = finish_reply server_tid k1 /\ inv A Al k1 g1 /\
    answered k1 pid tid v /\ settled k1 sidx slot (cur_pid (arch k)).
Proof.
  intros Hk Hsi Hsl Hpid Ht Ho. destruct (take_reply_run _ _ k g sidx slot (Some pid) pid tid Hk Ho)
    as (k0 & g0 & s0 & Et & Hk0 & [Harch Hc] & Hs0 & Hown & Hq). destruct Ho as (s & p & Hs & _ & _ & Hat & Hf).
  destruct (Hc pid p Hat) as (p0 & Hat0 & Hf0 & _).
  assert (Hp1 : 1 <= pid) by (unfold pid_ok in Hpid; apply andb_true_iff in Hpid as [?%Z.leb_le _]; lia).
  destruct (wake_run _ _ k0 g0 pid p0 tid v Hk0 Hp1 Hat0 Ht) as (s' & Ew & Ha).
  { unfold kernel_future in *. by rewrite Hf0. }
  destruct (keeps_wake A Al pid tid v Hp1 (proj1 Ht) _ _ _ _ Hk0 Ew) as [_ [g1 Hk1]].
  exists (put_process pid s' k0), g1. split; [|split; [done|split; [done|by exists s0]]].
  unfold return_result. rewrite (token_fields _ _ _ Hsi Hsl Hpid), (try_run _ _ _ _ _ Et), Nat2Z.id.
  by rewrite (try_run _ _ k0 tt (put_process pid s' k0)) by (by rewrite (bind_run _ _ _ _ _ Ew)).
Qed.

(** ** Blocking calls *)

Lemma queue_response_run s idxs pid tid msg addr e : server_inv s idxs -> is_queue_full s = false ->
  response_entry pid tid msg addr = Ok e ->
  exists i s', queue_response pid tid msg addr s = Some (Ok i, s') /\ (i < length (queue s))%nat /\
    queue s' = <[i := e]> (queue s) /\ srv_pid s' = srv_pid s.
Proof.
  intros Hi Hfull He. unfold is_queue_full in Hfull. apply Nat.eqb_neq in Hfull. unfold queue_response.
  destruct (find_empty_slot_run s idxs Hi) as [(i & Hq & Hil & Hf)|[Hz _]]; [|done].
  rewrite (try_run _ _ _ _ _ Hf). set (s0 := set_head _ s). rewrite (try_run _ _ s0 e s0) by (by rewrite He).
  rewrite (bind_run _ _ s0 tt (set_queue (<[i := e]> (queue s0)) s0) eq_refl).
  unfold dec_empty_count, bind, gets, assertb. cbn [empty_count set_queue set_head s0].
  rewrite (proj2 (Nat.eqb_neq _ _) Hfull). cbn. by eexists i, _.
Qed.

(** The registers of a thread hold a result. *)
Definition holds_result (a : Arch) (pid : PID) (tid : nat) (r : XResult) : Prop :=
  exists t, thread_of a pid tid = Some t /\ get_args t = XResult_to_args r.

Lemma arch_result_registers a pid tid r a' : arch_wf a -> 1 <= pid -> valid_tid tid -> is_Some (thread_of a pid tid) ->
  ArchProcess.set_thread_result pid tid r a = Some (tt, a') -> holds_result a' pid tid r.
Proof.
  intros Ha Hp Ht [t Hth] E. assert (Hpr : exists p, process_of a pid = Some p).
  { unfold thread_of, process_of in *. destruct (process_table a !! table_index pid) as [[p|]|]; [by exists p|done..]. }
  destruct Hpr as [p Hpr]. destruct (set_thread_result_exact a pid tid p t r Ha Hp) as (a1 & t1 & E1 & _ & Ht1 & Hg & _); try done.
  { unfold slot_ok, THREAD_SLOTS, valid_tid, NUM_THREADS in *. lia. }
  rewrite E in E1. injection E1 as <-. by exists t1.
Qed.

Lemma result_registers A Al (k : K) g pid p tid r k' : inv A Al k g -> 1 <= pid -> process_at k pid = Some p -> valid_tid tid ->
  is_Some (thread_of (arch k) pid tid) ->
  set_thread_result pid tid r k = Some (Ok tt, k') -> holds_result (arch k') pid tid r.
Proof.
  intros Hk Hp Hat Ht Hth. unfold set_thread_result. rewrite (bind_run _ _ k (cur_pid (arch k)) k eq_refl).
  destruct (Z.eqb_spec (cur_pid (arch k)) pid) as [Ec|Hne].
  - intros ([] & k1 & H1 & [= <-])%run_bind. revert H1. unfold on_arch, lift.
    destruct (ArchProcess.set_thread_result _ tid r (arch k)) as [[[] a]|] eqn:E; [|done]. intros [= <-]. cbn.
    rewrite Ec in E. by apply (arch_result_registers (arch k) pid tid r a (ki_arch _ _ _ _ Hk)).
  - rewrite (try_run _ _ _ _ _ (activate_run _ _ _ _ _ _ Hk Hp Hat)). set (k1 := set_arch _ k).
    rewrite (bind_run _ _ k1 pid k1 eq_refl). intros ([] & k2 & H1 & H)%run_bind. revert H1. unfold on_arch, lift.
    destruct (ArchProcess.set_thread_result _ tid r (arch k1)) as [[[] a]|] eqn:E; [|done]. intros [= <-].
    assert (Hr : holds_result a pid tid r).
    { apply (arch_result_registers (arch k1) pid tid r a); [|done..]. destruct (ki_arch _ _ _ _ Hk). by split. }
    apply run_bind in H as ([] & k3 & Hu & [= <-]). revert Hu. unfold unwrap, activate_process, bind_try, bind.
    destruct (process _ _) as [[[q|e] k4]|] eqn:Eq; try done. cbn. intros [= <-].
    unfold process, bind in Eq. destruct (process_slot _ _) as [[o k5]|] eqn:Es; [|done].
    apply process_slot_Some in Es as [-> _]. injection Eq as _ <-. exact Hr.
Qed.

(** Storing the reply slot of a blocking message. *)
Lemma remember_run (k : K) g sidx s tid msg e cp sp : inv (alive k) (fun _ => alive k) k g -> servers k !! sidx = Some (Some s) ->
  is_queue_full s = false -> process_at k (cur_pid (arch k)) = Some cp -> process_at k (srv_pid s) = Some sp -> valid_tid tid ->
  response_entry (cur_pid (arch k)) (Z.of_nat tid) msg None = Ok e ->
  exists slot s' g', let k' := set_servers (<[sidx := Some s']> (servers k)) k in
    remember_server_message sidx (cur_pid (arch k)) tid msg None k = Some (Ok slot, k') /\
    inv (alive k) (fun _ => alive k) k' g' /\ (slot < length (queue s))%nat /\ queue s' !! slot = Some e /\ srv_pid s' = srv_pid s.
Proof.
  intros Hk Hs Hfull Hcp Hsp Ht He. pose proof (ki_server _ _ _ _ Hk _ _ Hs) as Hso. destruct (so_inv _ _ Hso) as [idxs Hidx].
  destruct (queue_response_run s idxs _ _ _ _ e Hidx Hfull He) as (slot & s' & Eq & Hlt & Hq & Hown).
  pose proof (ki_current _ _ _ _ Hk) as Hcur. pose proof (so_owner _ _ Hso) as Hal.
  assert (Hk' : inv (alive k) (fun _ => alive k) (set_servers (<[sidx := Some s']> (servers k)) k) g).
  { apply inv_put_server; [done|]. assert (Hu : 1 <= u8 (Z.of_nat tid)).
    { unfold valid_tid, NUM_THREADS in Ht. rewrite u8_small; lia. }
    by destruct (queue_response_keeps (alive k) _ _ _ _ Hcur Hu _ _ _ Hso Eq). }
  exists slot, s', g. cbv zeta. split; [|split; [done|split; [done|split; [|done]]]].
  - unfold remember_server_message. destruct (server_from_run _ _ k g sidx Hk) as (os & Ho & Eo).
    { apply lookup_lt_Some in Hs. by rewrite (ki_slen _ _ _ _ Hk) in Hs. }
    rewrite Hs in Ho. injection Ho as <-. rewrite (bind_run _ _ _ _ _ Eo).
    rewrite (try_run _ _ _ _ _ (process_run _ _ _ _ _ _ Hk (proj1 Hal) Hsp)).
    rewrite (bind_run _ _ _ _ _ (on_server_run _ _ _ _ _ _ _ _ _ Hk Hs Eq)).
    unfold unwrap. by rewrite (bind_run _ _ _ cp _) by (by rewrite (bind_run _ _ _ _ _ (process_run _ _ _ _ _ _ Hk' (proj1 Hcur) Hcp))).
  - rewrite Hq. by apply list_lookup_insert_eq.
Qed.

(** Giving a message to a waiting thread of the server's process. *)
Lemma hand_over_run A Al (k : K) g pid p tid r : inv A Al k g -> 1 <= pid -> process_at k pid = Some p -> valid_tid tid ->
  exists k1 g1 p1, (_ <- unwrap (on_process pid (_ <- take_kernel_future tid ;; set_thread_state tid TS_Ready)) ;;
    _ <- set_thread_result pid tid r ;; ret (Ok tt)) k = Some (@Ok unit Error tt, k1) /\ inv A Al k1 g1 /\
    process_at k1 pid = Some p1 /\ threads p1 !! tid = Some TS_Ready /\ kernel_future p1 tid = None /\
    (forall q, 1 <= q -> q <> pid -> process_at k1 q = process_at k q) /\ servers k1 = servers k /\
    cur_pid (arch k1) = cur_pid (arch k) /\
    (is_Some (thread_of (arch k) pid tid) -> holds_result (arch k1) pid tid r).
Proof.
  intros Hk Hp Hat Ht. destruct (inv_process _ _ _ _ _ _ Hk Hp Hat) as [[Hi Hfo] _].
  destruct (take_future_run _ g tid Hi Ht) as (f & Hf & E1). cbn [ps_proc ps_sched] in E1, Hf.
  set (p0 := set_futures _ p) in E1.
  destruct (ps_take_future tid _ _ _ _ {| pv_inv := Hi; pv_futures := Hfo |} E1) as (_ & g0 & [Hi0 _] & _).
  destruct (set_thread_state_run _ g0 tid TS_Ready Hi0 Ht) as (s' & g' & E2 & _ & Hp' & _). cbn [ps_proc] in Hp'.
  assert (Eon : on_process pid (_ <- take_kernel_future tid ;; set_thread_state tid TS_Ready) k = Some (Ok tt, put_process pid s' k)).
  { eapply on_process_run; [exact Hk|done|exact Hat|]. by rewrite (bind_run _ _ _ _ _ E1). }
  assert (Hk0 : exists g0, inv A Al (put_process pid s' k) g0).
  { eapply (keeps_on_process A Al pid _ (fun _ => True) Hp); [|exact Hk|exact Eon].
    eapply ps_bind; [apply ps_take_future|]. intros _ _. apply ps_set_thread_state, Ht. }
  destruct Hk0 as [g1 Hk0]. set (k0 := put_process pid s' k) in *.
  assert (Hat0 : process_at k0 pid = Some (ps_proc s')) by (apply put_process_here; by rewrite Hat).
  destruct (result_run _ _ k0 g1 pid _ tid r Hk0 Hp Hat0) as (a' & Es & Hca & _).
  destruct (keeps_set_thread_result A Al pid tid r Hp _ _ _ _ Hk0 Es) as [_ [g2 Hk2]].
  exists (set_arch a' k0), g2, (ps_proc s'). split.
  { rewrite (bind_run _ _ k tt k0) by (unfold unwrap; by rewrite (bind_run _ _ _ _ _ Eon)). by rewrite (bind_run _ _ _ _ _ Es). }
  pose proof (pi_wf _ _ Hi) as Hwf. cbn [ps_proc] in Hwf. unfold valid_tid in Ht.
  split; [done|]. split; [done|]. rewrite Hp'. split; [cbn; apply list_lookup_insert_eq; rewrite (wf_threads _ Hwf); lia|].
  split; [unfold kernel_future, p0; cbn; by rewrite list_lookup_insert_eq by (rewrite (wf_futures _ Hwf); lia)|].
  split; [intros q Hq Hne; exact (put_process_other k pid s' q Hp Hq Hne)|]. split; [done|]. split; [done|].
  intros Hth. by apply (result_registers A Al k0 g1 pid (ps_proc s') tid r).
Qed.

(** The caller of a blocking message is suspended. *)
Lemma suspend_run A Al (k : K) g p tid f mask : inv A Al k g -> process_at k (cur_pid (arch k)) = Some p -> valid_tid tid -> future_ok f ->
  exists k1 g1 p1, suspend_with_future tid f mask k = Some (tt, k1) /\ inv A Al k1 g1 /\
    process_at k1 (cur_pid (arch k)) = Some p1 /\ kernel_future p1 tid = Some f /\ threads p1 !! tid = Some (TS_WaitEvent mask) /\
    (forall q, 1 <= q -> q <> cur_pid (arch k) -> process_at k1 q = process_at k q) /\ servers k1 = servers k /\ arch k1 = arch k.
Proof.
  intros Hk Hat Ht Hf. destruct (current_alive _ _ _ _ Hk) as [Hp _].
  destruct (inv_process _ _ _ _ _ _ Hk Hp Hat) as [[Hi Hfo] _]. pose proof (pi_wf _ _ Hi) as Hwf. cbn [ps_proc] in Hwf.
  set (p0 := set_futures (<[tid := Some f]> (kernel_futures p)) p).
  assert (E1 : set_kernel_future tid f (mkPS p (sched k)) = Some (tt, mkPS p0 (sched k))).
  { unfold set_kernel_future. destruct (Nat.ltb_spec tid NUM_THREADS); [done|]. unfold valid_tid in Ht. lia. }
  destruct (ps_set_future tid f (proj1 Ht) Hf _ _ _ _ {| pv_inv := Hi; pv_futures := Hfo |} E1) as (_ & g0 & [Hi0 _] & _).
  destruct (set_thread_state_run _ g0 tid (TS_WaitEvent mask) Hi0 Ht) as (s' & g' & E2 & _ & Hp' & _). cbn [ps_proc] in Hp'.
  assert (Es : suspend_with_future tid f mask k = Some (tt, put_process (cur_pid (arch k)) s' k)).
  { unfold suspend_with_future, on_current. rewrite (bind_run _ _ k (cur_pid (arch k)) k eq_refl). unfold unwrap.
    rewrite (bind_run _ _ k (Ok tt) (put_process (cur_pid (arch k)) s' k)); [done|].
    eapply on_process_run; [exact Hk|done|exact Hat|]. by rewrite (bind_run _ _ _ _ _ E1). }
  destruct (keeps_suspend A Al tid f mask (proj1 Ht) Hf _ _ _ _ Hk Es) as [_ [g1 Hk1]].
  exists (put_process (cur_pid (arch k)) s' k), g1, (ps_proc s'). split; [done|]. split; [done|].
  split; [apply put_process_here; by rewrite Hat|]. unfold valid_tid in Ht. rewrite Hp'.
  split; [unfold kernel_future, p0; cbn; by rewrite list_lookup_insert_eq by (rewrite (wf_futures _ Hwf); lia)|].
  split; [cbn; apply list_lookup_insert_eq; rewrite (wf_threads _ Hwf); lia|].
  split; [intros q Hq Hne; by apply put_process_other|done].
Qed.

Lemma take_available_run s t s0 : take_available_thread s = Some (Some t, s0) -> exists r, s0 = set_ready_threads r s.
Proof.
  unfold take_available_thread. destruct (_ =? 0); [done|]. intros (u & _ & _ & _ & ->)%take_thread_loop_Some; [|lia]. by eexists.
Qed.

(** A blocking scalar message finds a waiting thread of the server. *)
Lemma deliver_run (k : K) g sidx s s0 st sp cp tid m : inv (alive k) (fun _ => alive k) k g -> servers k !! sidx = Some (Some s) ->
  is_queue_full s = false -> take_available_thread s = Some (Some (Z.of_nat st), s0) -> valid_tid st -> valid_tid tid ->
  process_at k (cur_pid (arch k)) = Some cp -> process_at k (srv_pid s) = Some sp ->
  let envelope slot := R_MessageEnvelope (mkEnvelope (sender_token sidx slot (Some (cur_pid (arch k)))) (BlockingScalar m)) in
  exists slot s1 k1 g1 p1, send_message_inner tid sidx (BlockingScalar m) k = Some (Ok tt, k1) /\
    inv (alive k) (fun _ => alive k) k1 g1 /\ (slot < length (queue s))%nat /\ cur_pid (arch k1) = cur_pid (arch k) /\
    servers k1 !! sidx = Some (Some s1) /\ srv_pid s1 = srv_pid s /\
    queue s1 !! slot = Some (QM_WaitingReturnScalar (cur_pid (arch k)) (Z.of_nat tid)) /\
    process_at k1 (srv_pid s) = Some p1 /\ threads p1 !! st = Some TS_Ready /\ kernel_future p1 st = None /\
    (forall q, 1 <= q -> q <> srv_pid s -> process_at k1 q = process_at k q) /\
    (is_Some (thread_of (arch k) (srv_pid s) st) -> holds_result (arch k1) (srv_pid s) st (envelope slot)).
Proof.
  cbv zeta. intros Hk Hs Hfull Hav Hst Ht Hcp Hsp. destruct (take_available_run _ _ _ Hav) as [r Hs0].
  pose proof (ki_server _ _ _ _ Hk _ _ Hs) as Hso. pose proof (so_owner _ _ Hso) as Hal.
  set (ka := set_servers (<[sidx := Some s0]> (servers k)) k).
  assert (Hka : inv (alive k) (fun _ => alive k) ka g).
  { apply inv_put_server; [done|]. by destruct (take_available_keeps _ _ _ _ Hso Hav). }
  assert (Hsa : servers ka !! sidx = Some (Some s0)) by (cbn; apply list_lookup_insert_eq; by eapply lookup_lt_Some).
  destruct (remember_run ka g sidx s0 tid (BlockingScalar m) (QM_WaitingReturnScalar (cur_pid (arch k)) (Z.of_nat tid)) cp sp)
    as (slot & s1 & g1 & Er & Hkb & Hlt & Hq & Hown); try done; [by rewrite Hs0|by rewrite Hs0| |].
  { cbn [response_entry]. unfold valid_tid, NUM_THREADS in Ht. rewrite u8_small by lia. done. }
  cbv zeta in Er. set (kb := set_servers (<[sidx := Some s1]> (servers ka)) ka) in *.
  destruct (hand_over_run _ _ kb g1 (srv_pid s) sp st
    (R_MessageEnvelope (mkEnvelope (sender_token sidx slot (Some (cur_pid (arch k)))) (BlockingScalar m))) Hkb (proj1 Hal) Hsp Hst)
    as (k1 & g2 & p1 & Eh & Hk1 & Hp1 & Hr1 & Hf1 & Hoth & Hsv & Hcur & Hreg).
  exists slot, s1, k1, g2, p1. split.
  { unfold send_message_inner. destruct (server_from_run _ _ k g sidx Hk) as (os & Ho & Eo).
    { apply lookup_lt_Some in Hs. by rewrite (ki_slen _ _ _ _ Hk) in Hs. }
    rewrite Hs in Ho. injection Ho as <-. rewrite (bind_run _ _ _ _ _ Eo), (bind_run _ _ k s k eq_refl), Hfull.
    rewrite (try_run _ _ k (BlockingScalar m) k eq_refl), (bind_run _ _ k (cur_pid (arch k)) k eq_refl).
    rewrite (bind_run _ _ _ _ _ (on_server_run _ _ _ _ _ _ _ _ _ Hk Hs Hav)). cbn [is_blocking memory_message].
    rewrite (bind_run _ _ _ _ _ Er), Nat2Z.id. exact Eh. }
  rewrite Hsv. split; [done|]. split; [by rewrite Hs0 in Hlt|]. split; [done|].
  split; [unfold kb; cbn; apply list_lookup_insert_eq; rewrite length_insert; by eapply lookup_lt_Some|].
  split; [rewrite Hown, Hs0; done|]. done.
Qed.

End Calls.

(** Past the checks of [handle], for a thread other than the interrupt handler's. *)
Ltac enter Ht :=
  match goal with |- handle _ _ ?c ?k = _ =>
    unfold handle; rewrite (proj2 (Nat.eqb_neq _ 0) Ht); cbn [andb];
    rewrite (try_run _ _ k tt k (unprivileged_run c k eq_refl))
  end.

(** C7. No process gets past the checks of the system calls.  In every state
    satisfying the kernel's invariant, and with no change to the state: a
    privileged call is refused unless the caller's permission mask has the bit of
    its number; a message is refused unless the connection permits its id or leads
    to the caller itself; a reply is refused unless the caller owns the server the
    token names. *)
Theorem calls_access_checked {P : Platform} {S G : Type} {RQ : ReadyQueues S G} (k : Kernel (S := S)) i tid p :
  kernel_ok k -> tid <> 0%nat -> process_at k (cur_pid (arch k)) = Some p ->
  (forall call, privileged call = true -> Z.testbit (syscall_permissions p) (call_number call) = false ->
     handle i tid call k = Some (Err AccessDenied, k)) /\
  (forall cid msg sidx rc pm s, 2 <= cid -> connection_map p !! Z.to_nat (cid - 2) = Some (CS_Connected sidx rc pm) ->
     servers k !! Z.to_nat sidx = Some (Some s) -> srv_pid s <> cur_pid (arch k) -> is_permitted pm (message_id msg) = false ->
     handle i tid (SendMessage cid msg) k = Some (Err AccessDenied, k) /\
     handle i tid (TrySendMessage cid msg) k = Some (Err AccessDenied, k)) /\
  (forall token, let sidx := Z.to_nat (snd_sidx (SenderID_from_usize token)) in
     sidx <> MAX_SERVER_COUNT -> (forall s, servers k !! sidx = Some (Some s) -> srv_pid s <> cur_pid (arch k)) ->
     (forall v, handle i tid (ReturnScalar1 token v) k = Some (Err ServerNotFound, k)) /\
     (forall buf o v, handle i tid (ReturnMemory token buf o v) k = Some (Err ServerNotFound, k))).
Proof.
  intros [g Hk] Ht Hp. split; [|split].
  - intros call Hc Hb. apply handle_refused; [by left|]. by rewrite (permission_run _ _ _ _ _ _ Hk Hp Hc), Hb.
  - intros cid msg sidx rc pm s Hcid Hcon Hs Hne Hperm.
    pose proof (send_refused _ _ k g p tid cid msg sidx rc pm s Hk Hp Hcid Hcon Hs Hne Hperm) as E.
    split; enter Ht; [|done]. unfold sys_send_message. by rewrite (bind_run _ _ _ _ _ E).
  - intros token sidx Hne Hs. pose proof (fun buf => reply_refused _ _ k g token buf Hk Hne Hs) as E.
    split; intros; enter Ht; unfold return_result, sys_return_memory; by rewrite (try_err _ _ _ _ _ (E _)).
Qed.

(** C5. A blocking call is answered once, with the server's value.  The caller's
    message reaches a waiting thread of the server: that thread becomes ready and
    its registers hold the message with a token, the caller is suspended and the
    server owes it the answer.  In every later state in which the answer is still
    owed, a reply of the server with that token makes the caller ready with exactly
    the value of the reply, and leaves nothing for a second reply. *)
Theorem blocking_call_answered {P : Platform} {S G : Type} {RQ : ReadyQueues S G} (k : Kernel (S := S)) i tid cid m p sidx rc pm s s0 st :
  let client := cur_pid (arch k) in let n := Z.to_nat sidx in
  kernel_ok k -> valid_tid tid -> process_at k client = Some p -> 2 <= cid ->
  connection_map p !! Z.to_nat (cid - 2) = Some (CS_Connected sidx rc pm) -> servers k !! n = Some (Some s) ->
  Z.of_nat (length (queue s)) <= 65536 -> srv_pid s <> client -> is_permitted pm (message_id (BlockingScalar m)) = true ->
  is_queue_full s = false -> take_available_thread s = Some (Some (Z.of_nat st), s0) -> valid_tid st ->
  is_Some (thread_of (arch k) (srv_pid s) st) ->
  exists k1 slot, let token := sender_token n slot (Some client) in
    handle i tid (TrySendMessage cid (BlockingScalar m)) k = activate_current k1 /\ kernel_ok k1 /\
    can_run k1 (srv_pid s) st /\
    holds_result (arch k1) (srv_pid s) st (R_MessageEnvelope (mkEnvelope token (BlockingScalar m))) /\
    owed k1 n slot (srv_pid s) client tid /\
    forall k2 server_tid v, kernel_ok k2 -> server_tid <> 0%nat -> cur_pid (arch k2) = srv_pid s ->
      owed k2 n slot (srv_pid s) client tid ->
      exists k3, handle i server_tid (ReturnScalar1 token v) k2 = finish_reply server_tid k3 /\ kernel_ok k3 /\
        answered k3 client tid (R_Scalar1 v) /\ settled k3 n slot (srv_pid s).
Proof.
  cbv zeta. set (client := cur_pid (arch k)). set (n := Z.to_nat sidx).
  intros [g Hk] Ht Hp Hcid Hcon Hs Hlen Hne Hperm Hfull Hav Hst Hth.
  pose proof (ki_server _ _ _ _ Hk _ _ Hs) as Hso. pose proof (so_owner _ _ Hso) as [Hsp1 [sp Hsp]].
  destruct (current_alive _ _ _ _ Hk) as [Hc1 _].
  assert (Hpid : pid_ok client = true).
  { destruct (process_bound _ _ _ _ _ _ Hk Hc1 Hp) as [[? ?] _]. unfold pid_ok, U8_MAX, MAX_PROCESS_COUNT in *.
    apply andb_true_iff. rewrite !Z.leb_le. fold client in Hc1. lia. }
  assert (Hn : (n < MAX_SERVER_COUNT)%nat) by (apply lookup_lt_Some in Hs; by rewrite (ki_slen _ _ _ _ Hk) in Hs).
  destruct (deliver_run k g n s s0 st sp p tid m Hk Hs Hfull Hav Hst Ht Hp Hsp)
    as (slot & s1 & k0 & g0 & p0 & Ed & Hk0 & Hslot & Hcur & Hs1 & Hown & Hq & Hp0 & Hr0 & Hf0 & Hoth & Hreg).
  assert (Hpc : process_at k0 (cur_pid (arch k0)) = Some p) by (by rewrite Hcur, Hoth).
  destruct (suspend_run _ _ k0 g0 p tid KF_WaitBlocking EVENT_KERNEL Hk0 Hpc Ht I)
    as (k1 & g1 & p1 & Es & Hk1 & Hp1 & Hf1 & _ & Hoth1 & Hsv1 & Ha1).
  rewrite Hcur in Hp1, Hoth1. fold client in Hp1, Hoth1.
  exists k1, slot. split; [|split; [by eapply inv_ok|split; [|split; [by rewrite Ha1; apply Hreg|split]]]].
  - assert (Htz : tid <> 0%nat) by (unfold valid_tid in Ht; lia). enter Htz. unfold send_message.
    rewrite (try_run _ _ _ _ _ (connected_run _ _ _ _ _ _ Hk Hp Hcid _ _ _ Hcon)).
    destruct (server_from_run _ _ k g n Hk Hn) as (o & Ho & Eo). rewrite Hs in Ho. injection Ho as <-.
    rewrite (bind_run _ _ _ _ _ Eo), (bind_run _ _ k s k eq_refl), (bind_run _ _ k client k eq_refl).
    rewrite Hperm, andb_false_r, (try_run _ _ _ _ _ Ed). cbn [is_blocking].
    by rewrite (try_run _ _ k0 tt k1) by (by rewrite (bind_run _ _ _ _ _ Es)).
  - exists p0. rewrite Hoth1 by done. done.
  - exists s1, p1. by rewrite Hsv1.
  - intros k2 server_tid v [g2 Hk2] Hst0 Hc2 Ho. rewrite <- Hc2 in Ho.
    destruct (reply_run _ _ k2 g2 n slot client tid server_tid (R_Scalar1 v) Hk2) as (k3 & g3 & E3 & Hk3 & Ha & Hse); try done.
    + unfold MAX_SERVER_COUNT in Hn. lia.
    + lia.
    + exists k3. rewrite Hc2 in Hse. split; [by enter Hst0|]. split; [by eapply inv_ok|]. done.
Qed.

(** ** A concrete state: a server thread of process 2 waits, process 1 is connected *)

Definition run {X} (m : M (Kernel (S := Scheduler)) X) (k : Kernel) : Kernel := match m k with Some (_, k') => k' | None => k end.

Lemma run_ok {X} (m : M (Kernel (S := Scheduler)) X) R k :
  (forall A, (forall q, A q -> 1 <= q) -> keeps A (fun _ => A) m R) -> kernel_ok k -> kernel_ok (run m k).
Proof. intros Hm Hk. unfold run. destruct (m k) as [[x k']|] eqn:E; [|done]. by apply (keeps_ok m R k x k'). Qed.

Definition demo_new (slot : nat) : M (Kernel (S := Scheduler)) unit :=
  p <- on_new (Process_new (Z.of_nat slot + 1) 1 no_app_id) (set_thread_state INITIAL_TID TS_Ready) ;;
  insert_process slot p no_mapping.

Lemma demo_new_ok slot k : kernel_ok k -> processes k !! slot = Some None -> kernel_ok (run (demo_new slot) k).
Proof.
  intros [g Hk] Hslot. unfold run, demo_new. destruct (bind _ _ k) as [[u k']|] eqn:E; [|by exists g].
  apply run_bind in E as (p & k1 & Hn & Hins). pose proof (inv_tables _ _ Hk) as Ht.
  destruct (on_new_ok k g _ _ _ k1 p (new_process_inv _ _ _ _ _ Ht (ki_rel _ _ _ _ Hk) Hslot)
    (ps_set_thread_state INITIAL_TID TS_Ready ltac:(done)) Hn) as (q & g1 & -> & Hp & Hpid & Hoth). cbn in Hpid, Hoth.
  eapply (insert_ok k g g1 q slot p no_mapping u k' Ht Hslot Hp Hpid); [by rewrite Hpid| |exact Hins].
  left. apply (ki_current _ _ _ _ Hk).
Qed.

Definition call_sid : SID := mkSID 1 2 3 4.
Definition call_server : Server :=
  mkServer call_sid 2 4096 0 0 0 0 4 (replicate 4 QM_Empty) 0 (mkPerms false 2 (replicate MESSAGE_PERMISSION_COUNT (mkMsgRange 0 0))).
Definition two_kernel : Kernel := run (on_arch (table_set 2 (Some fresh_impl))) (run (demo_new 1) boot_kernel).
Definition server_kernel : Kernel := set_servers (<[0%nat := Some call_server]> (servers two_kernel)) two_kernel.
Definition call_kernel : Kernel :=
  run (receive_message 1 call_sid true) (run (activate_process 2) (run (set_permissions 1 0) (run (connect_to_server 1 call_sid) server_kernel))).

Lemma two_kernel_ok : kernel_ok two_kernel.
Proof. eapply run_ok; [intros A HA; apply keeps_arch, arch_put_fresh|]. apply demo_new_ok; [apply boot_ok|by vm_compute]. Qed.

Lemma call_kernel_ok : kernel_ok call_kernel.
Proof.
  assert (Hs : kernel_ok server_kernel).
  { destruct two_kernel_ok as [g Hk]. eapply inv_ok, inv_put_server; [exact Hk|]. apply fresh_server_ok; [lia|]. split; [lia|].
    vm_compute. by eexists. }
  unfold call_kernel. eapply run_ok; [intros A HA; apply keeps_receive; unfold valid_tid, NUM_THREADS; lia|].
  eapply run_ok; [intros A HA; by apply keeps_activate|]. eapply run_ok; [intros A HA; by apply keeps_set_permissions|].
  eapply run_ok; [intros A HA; by apply keeps_connect|]. exact Hs.
Qed.

Definition call_client : Process := default (Process_new 1 1 no_app_id) (process_at call_kernel 1).
Lemma call_client_at : process_at call_kernel (cur_pid (arch call_kernel)) = Some call_client.
Proof. by vm_compute. Qed.

Lemma call_client_pid : cur_pid (arch call_kernel) = 1.
Proof. by vm_compute. Qed.

Lemma calls_access_checked_witness :
  handle demo_input 1 (WaitProcess 2) call_kernel = Some (Err AccessDenied, call_kernel) /\
  handle demo_input 1 (SendMessage 2 (Scalar (mkScalarMessage 5 0 0 0 0))) call_kernel = Some (Err AccessDenied, call_kernel) /\
  handle demo_input 1 (ReturnScalar1 0 7) call_kernel = Some (Err ServerNotFound, call_kernel).
Proof.
  destruct (calls_access_checked call_kernel demo_input 1 call_client call_kernel_ok ltac:(done) call_client_at) as (H1 & H2 & H3).
  split; [by apply H1; vm_compute|]. split.
  - eapply (proj1 (H2 2 (Scalar (mkScalarMessage 5 0 0 0 0)) 0 1 (default_permissions call_server)
      (set_ready_threads 2 call_server) ltac:(lia) ltac:(by vm_compute) ltac:(by vm_compute) ltac:(by vm_compute) ltac:(by vm_compute))).
  - destruct (H3 0) as [H _]; [by vm_compute| |exact (H 7)]. intros s Hs. assert (Hv : Some (Some (set_ready_threads 2 call_server)) = Some (Some s)).
    { rewrite <- Hs. by vm_compute. }
    injection Hv as <-. by vm_compute.
Defined.

Definition call_message : ScalarMessage := mkScalarMessage 1 10 20 30 40.

Lemma blocking_call_answered_witness :
  exists k1 slot, handle demo_input 1 (TrySendMessage 2 (BlockingScalar call_message)) call_kernel = activate_current k1 /\
    can_run k1 2 1 /\ owed k1 0 slot 2 1 1.
Proof.
  destruct (blocking_call_answered call_kernel demo_input 1 2 call_message call_client 0 1 (default_permissions call_server)
    (set_ready_threads 2 call_server) call_server 1) as (k1 & slot & E & _ & Hr & _ & Ho & _).
  - apply call_kernel_ok.
  - unfold valid_tid, NUM_THREADS. lia.
  - apply call_client_at.
  - lia.
  - by vm_compute.
  - by vm_compute.
  - by vm_compute.
  - by vm_compute.
  - by vm_compute.
  - by vm_compute.
  - by vm_compute.
  - unfold valid_tid, NUM_THREADS. lia.
  - vm_compute. by eexists.
  - rewrite call_client_pid in Ho. exact (ex_intro _ k1 (ex_intro _ slot (conj E (conj Hr Ho)))).
Defined.

(** ** The end of a process *)

(** C6. When a process ends, nothing of it is left: it is no longer in the table,
    every other process still is, no server belongs to it, no queue owes it an
    answer, none of its threads is ready, and the kernel goes on in a process that
    exists. *)
Theorem terminated_process_gone {P : Platform} {S G : Type} {RQ : ReadyQueues S G} (k k' : Kernel (S := S)) code r :
  kernel_ok k -> terminate_current_process code k = Some (r, k') ->
  let pid := cur_pid (arch k) in
  (forall q, alive k' q <-> alive k q /\ q <> pid) /\ alive k' (cur_pid (arch k')) /\ cur_pid (arch k') <> pid /\
  (forall i s, servers k' !! i = Some (Some s) -> srv_pid s <> pid /\
     forall j m q t, queue s !! j = Some m -> entry_client m = Some (q, t) -> q <> pid) /\
  (forall pr tid, ~ is_ready k' pr pid tid).
Proof.
  intros Hk Hrun. cbv zeta. destruct (terminate_ends code k r k' Hk Hrun) as [[g Hk'] Hal].
  assert (Hgone : forall q, alive k' q -> q <> cur_pid (arch k)) by (intros q Hq; by apply Hal in Hq as [_ ?]).
  pose proof (ki_current _ _ _ _ Hk') as Hc. split; [done|]. split; [done|]. split; [by apply Hgone|]. split.
  - intros i s Hs. destruct (ki_server _ _ _ _ Hk' i s Hs) as [Ho _ Hcl _]. split; [by apply Hgone|].
    intros j m q t Hj Hm. destruct (Hcl j m q t Hj Hm) as [Hq _]. by apply Hgone.
  - intros pr tid Hr. apply (kernel_ok_ready k' g Hk') in Hr. by apply (Hgone _ (ki_live _ _ _ _ Hk' _ _ Hr)).
Qed.

Definition ending_kernel : Kernel := run (activate_process 2) two_kernel.
Lemma ending_kernel_ok : kernel_ok ending_kernel.
Proof. eapply run_ok; [intros A HA; by apply keeps_activate|]. apply two_kernel_ok. Qed.

Lemma terminated_process_gone_witness : ~ alive (run (terminate_current_process 0) ending_kernel) 2.
Proof.
  intros H. destruct (terminated_process_gone ending_kernel (run (terminate_current_process 0) ending_kernel) 0 (Ok R_ResumeProcess))
    as (Hal & _); [apply ending_kernel_ok|by vm_compute|]. apply Hal in H as [_ Hne]. apply Hne. by vm_compute.
Defined.

(** ** Arguments that stop the kernel *)

Lemma process_out_of_range {P : Platform} {S G : Type} {RQ : ReadyQueues S G} (k : Kernel (S := S)) A Al g pid :
  inv A Al k g -> MAX_PROCESS_COUNT < pid -> process pid k = None.
Proof.
  intros Hk Hp. unfold process, process_slot, bind, gets. rewrite (lookup_ge_None_2 (processes k)); [done|].
  rewrite (ki_plen _ _ _ _ Hk). unfold process_index, PROCESS_SLOTS, MAX_PROCESS_COUNT in *. lia.
Qed.

(** C25. Three arguments that no check stops and that panic the kernel, whoever passes
    them: the application of a process number above 64, a thread number above 31 to
    join, and a reply token that names the server slot just past the table. *)
Theorem arguments_panic_kernel {P : Platform} {S G : Type} {RQ : ReadyQueues S G} (k : Kernel (S := S)) i tid :
  kernel_ok k -> tid <> 0%nat ->
  (forall pid, MAX_PROCESS_COUNT < pid -> handle i tid (GetAppId pid) k = None) /\
  (forall t, Z.of_nat NUM_THREADS <= t -> Z.of_nat tid <> t -> handle i tid (JoinThread t) k = None) /\
  (forall token v, Z.to_nat (snd_sidx (SenderID_from_usize token)) = MAX_SERVER_COUNT ->
     handle i tid (ReturnScalar1 token v) k = None).
Proof.
  intros [g Hk] Ht. split; [|split].
  - intros pid Hp. enter Ht. unfold sys_get_app_id, bind. by rewrite (process_out_of_range _ _ _ _ _ Hk Hp).
  - intros t Hbig Hne. enter Ht. unfold join_thread. destruct (Z.eqb_spec (Z.of_nat tid) t); [done|].
    destruct (current_process_run _ _ _ _ Hk) as (p & Hat & _). destruct (current_alive _ _ _ _ Hk) as [Hc _].
    destruct (inv_process _ _ _ _ _ _ Hk Hc Hat) as [[Hi _] _]. destruct (process_bound _ _ _ _ _ _ Hk Hc Hat) as [Hb _].
    unfold on_current, unwrap, on_process, bind at 1 2 3 4. unfold current_pid, gets at 1.
    rewrite (process_slot_run _ _ _ _ _ Hk Hb), Hat. unfold thread_state, bind, gets. cbn [ps_proc].
    rewrite (lookup_ge_None_2 (threads p)); [done|].
    pose proof (wf_threads _ (pi_wf _ _ Hi)) as Hl. cbn [ps_proc] in Hl. rewrite Hl. lia.
  - intros token v Hs. enter Ht. unfold return_result, take_reply, bind_try, reply_server, server_from_sidx, bind, gets.
    rewrite Hs, (ki_slen _ _ _ _ Hk), Nat.ltb_irrefl. rewrite (lookup_ge_None_2 (servers k)); [done|].
    by rewrite (ki_slen _ _ _ _ Hk).
Qed.

Lemma arguments_panic_kernel_witness :
  handle demo_input 1 (GetAppId 65) call_kernel = None /\ handle demo_input 1 (JoinThread 32) call_kernel = None /\
  handle demo_input 1 (ReturnScalar1 (sender_token 128 0 None) 0) call_kernel = None.
Proof.
  destruct (arguments_panic_kernel call_kernel demo_input 1 call_kernel_ok ltac:(done)) as (H1 & H2 & H3).
  split; [apply (H1 65); done|]. split; [apply (H2 32); done|]. apply (H3 (sender_token 128 0 None) 0). by vm_compute.
Defined.
