(* ===== verification/Virtio.v ===== *)
(** * The virtio transport

    Models [xous/kernel/src/platform/qemu_virt/virtio.rs]: the registers of a
    virtio-mmio device, the initialisation sequence, and virtqueues: the
    descriptor table with its free list, the available ring the driver writes
    and the used ring the device writes.

    A queue is its shared memory, seen as a table and two rings, with the
    fields of [Virtqueue].  An access to a descriptor outside of the table has
    no result in the model.  The registers of the device are the function
    [answer] of the accesses made so far. *)

From S2P Require Import Prelude Memory PageTable.
From Stdlib Require Import ZArith Lia Bool.
From stdpp Require Import list relations.
Open Scope Z_scope.

(** ** Registers *)

Definition MAGIC_VALUE : Z := 0.
Definition DEVICE_ID : Z := 8.
Definition HOST_FEATURES : Z := 16.
Definition HOST_FEATURES_SEL : Z := 20.
Definition GUEST_FEATURES : Z := 32.
Definition GUEST_FEATURES_SEL : Z := 36.
Definition GUEST_PAGE_SIZE : Z := 40.
Definition QUEUE_SEL : Z := 48.
Definition QUEUE_NUM_MAX : Z := 52.
Definition QUEUE_NUM : Z := 56.
Definition QUEUE_ALIGN : Z := 60.
Definition QUEUE_PFN : Z := 64.
Definition QUEUE_NOTIFY : Z := 80.
Definition INTERRUPT_STATUS : Z := 96.
Definition INTERRUPT_ACK : Z := 100.
Definition STATUS : Z := 112.
Definition CONFIG : Z := 256.

Definition VIRTIO_MAGIC : Z := 1953655158. (* 0x74726976 *)
Definition STATUS_ACKNOWLEDGE : Z := 1.
Definition STATUS_DRIVER : Z := 2.
Definition STATUS_DRIVER_OK : Z := 4.
Definition STATUS_FEATURES_OK : Z := 8.
Definition STATUS_FAILED : Z := 128.
Definition DEVICE_ID_BLOCK : Z := 2.
Definition NUM_TRANSPORTS : Z := 32.
Definition TRANSPORT_SIZE : Z := 512.
Definition VIRTIO_IRQ_BASE : Z := 48.

(** The accesses to device registers, the last one first. *)
Inductive Access := Rd (addr value : Z) | Wr (addr value : Z).
Abbreviation Bus := (list Access).

(** ** Virtqueues *)

Record VirtqDesc := mkDesc { vd_addr : Z; vd_len : Z; vd_flags : Z; vd_next : Z }.
Definition VIRTQ_DESC_F_NEXT : Z := 1.
Definition VIRTQ_DESC_F_WRITE : Z := 2.
Record VirtqAvail := mkAvail { av_flags : Z; av_idx : Z; av_ring : list Z }.
Record VirtqUsedElem := mkElem { ue_id : Z; ue_len : Z }.
Record VirtqUsed := mkUsed { us_flags : Z; us_idx : Z; us_ring : list VirtqUsedElem }.

Record Virtqueue := mkVq {
  vq_desc : list VirtqDesc; vq_avail : VirtqAvail; vq_used : VirtqUsed; vq_num : Z; vq_free_head : Z; vq_num_free : Z;
  vq_last_used_idx : Z; vq_phys_base : Z }.

Definition set_desc (i : Z) (d : VirtqDesc) (q : Virtqueue) : Virtqueue :=
  mkVq (<[Z.to_nat i := d]> (vq_desc q)) (vq_avail q) (vq_used q) (vq_num q) (vq_free_head q) (vq_num_free q)
    (vq_last_used_idx q) (vq_phys_base q).
Definition set_avail (a : VirtqAvail) (q : Virtqueue) : Virtqueue :=
  mkVq (vq_desc q) a (vq_used q) (vq_num q) (vq_free_head q) (vq_num_free q) (vq_last_used_idx q) (vq_phys_base q).
Definition set_used (u : VirtqUsed) (q : Virtqueue) : Virtqueue :=
  mkVq (vq_desc q) (vq_avail q) u (vq_num q) (vq_free_head q) (vq_num_free q) (vq_last_used_idx q) (vq_phys_base q).
Definition set_free (head n : Z) (q : Virtqueue) : Virtqueue :=
  mkVq (vq_desc q) (vq_avail q) (vq_used q) (vq_num q) head n (vq_last_used_idx q) (vq_phys_base q).
Definition set_last_used (i : Z) (q : Virtqueue) : Virtqueue :=
  mkVq (vq_desc q) (vq_avail q) (vq_used q) (vq_num q) (vq_free_head q) (vq_num_free q) i (vq_phys_base q).

(** Offsets of the two rings behind the descriptor table. *)
Definition avail_offset (num : Z) : Z := 16 * num.
Definition used_offset (num page_size : Z) : Z :=
  Z.ldiff (16 * num + 6 + 2 * num + page_size - 1) (page_size - 1).
Definition size_bytes (num page_size : Z) : Z :=
  let first_part := 16 * num + (6 + 2 * num) in
  Z.ldiff (first_part + page_size - 1) (page_size - 1) + (6 + 8 * num).

(** [Virtqueue::init], on a zeroed buffer *)
Definition vq_init (buf_pa num : Z) : Virtqueue :=
  mkVq ((fun i => mkDesc 0 0 0 (if i + 1 <? num then i + 1 else 0)) <$> zrange 0 num)
    (mkAvail 0 0 (replicate (Z.to_nat num) 0)) (mkUsed 0 0 (replicate (Z.to_nat num) (mkElem 0 0)))
    num 0 num 0 buf_pa.

Definition get_desc (i : Z) : M Virtqueue VirtqDesc :=
  q <- gets (fun q => q) ;; expect (vq_desc q !! Z.to_nat i).
(** A write through [&mut *desc.add(i)] *)
Definition write_desc (i : Z) (d : VirtqDesc) : M Virtqueue unit := _ <- get_desc i ;; modify (set_desc i d).

Definition alloc_desc : M Virtqueue (option Z) :=
  n <- gets vq_num_free ;;
  if n =? 0 then ret None
  else
    idx <- gets vq_free_head ;;
    d <- get_desc idx ;;
    _ <- modify (set_free (vd_next d) (n - 1)) ;;
    ret (Some idx).

Definition free_desc (idx : Z) : M Virtqueue unit :=
  head <- gets vq_free_head ;;
  _ <- write_desc idx (mkDesc 0 0 0 head) ;;
  n <- gets vq_num_free ;;
  n <- add_w 16 n 1 ;;
  modify (set_free idx n).

Definition has_next (d : VirtqDesc) : bool := negb (Z.land (vd_flags d) VIRTQ_DESC_F_NEXT =? 0).

(** [free_chain]: a round clears the flags of one descriptor, so one round more
    than there are descriptors is enough ([free_chain_total]). *)
Fixpoint free_chain_loop (fuel : nat) (idx : Z) : M Virtqueue unit :=
  match fuel with
  | O => panic
  | S fuel =>
      d <- get_desc idx ;;
      _ <- free_desc idx ;;
      if has_next d then free_chain_loop fuel (vd_next d) else ret tt
  end.
Definition free_chain (head : Z) : M Virtqueue unit :=
  fun q => free_chain_loop (S (length (vq_desc q))) head q.

(** [idx as usize % num as usize] *)
Definition ring_slot (idx : Z) : M Virtqueue nat :=
  num <- gets vq_num ;; _ <- assertb (negb (num =? 0)) ;; ret (Z.to_nat (idx mod num)).

Definition push_avail (desc_idx : Z) : M Virtqueue unit :=
  a <- gets vq_avail ;;
  slot <- ring_slot (av_idx a) ;;
  modify (set_avail (mkAvail (av_flags a) (wrap 16 (av_idx a + 1)) (<[slot := desc_idx]> (av_ring a)))).

Definition pop_used : M Virtqueue (option (Z * Z)) :=
  u <- gets vq_used ;;
  last <- gets vq_last_used_idx ;;
  if last =? us_idx u then ret None
  else
    slot <- ring_slot last ;;
    e <- expect (us_ring u !! slot) ;;
    _ <- modify (set_last_used (wrap 16 (last + 1))) ;;
    ret (Some (wrap 16 (ue_id e), ue_len e)).

(** ** Discovery and initialisation *)

Section Registers.
Variable answer : Bus -> Z -> Z.

Definition read_reg (base offset : Z) : M Bus Z :=
  a <- add64 base offset ;;
  v <- gets (fun h => wrap 32 (answer h a)) ;;
  _ <- modify (cons (Rd a v)) ;;
  ret v.

Definition write_reg (base offset val : Z) : M Bus unit :=
  a <- add64 base offset ;; modify (cons (Wr a val)).

Definition probe_transport (base_va : Z) : M Bus (option Z) :=
  magic <- read_reg base_va MAGIC_VALUE ;;
  if negb (magic =? VIRTIO_MAGIC) then ret None
  else
    device_id <- read_reg base_va DEVICE_ID ;;
    ret (if device_id =? 0 then None else Some device_id).

Definition reset_device (base_va : Z) : M Bus unit := write_reg base_va STATUS 0.

Definition init_device (base_va desired_features : Z) : M Bus (option Z) :=
  _ <- write_reg base_va STATUS 0 ;;
  let status := STATUS_ACKNOWLEDGE in
  _ <- write_reg base_va STATUS status ;;
  let status := Z.lor status STATUS_DRIVER in
  _ <- write_reg base_va STATUS status ;;
  _ <- write_reg base_va HOST_FEATURES_SEL 0 ;;
  host_features <- read_reg base_va HOST_FEATURES ;;
  let negotiated := Z.land host_features desired_features in
  _ <- write_reg base_va GUEST_FEATURES_SEL 0 ;;
  _ <- write_reg base_va GUEST_FEATURES negotiated ;;
  _ <- write_reg base_va GUEST_PAGE_SIZE PAGE_SIZE ;;
  let status := Z.lor status STATUS_FEATURES_OK in
  _ <- write_reg base_va STATUS status ;;
  readback <- read_reg base_va STATUS ;;
  if Z.land readback STATUS_FEATURES_OK =? 0
  then _ <- write_reg base_va STATUS STATUS_FAILED ;; ret None
  else ret (Some negotiated).

Definition driver_ok (base_va : Z) : M Bus unit :=
  status <- read_reg base_va STATUS ;; write_reg base_va STATUS (Z.lor status STATUS_DRIVER_OK).

Definition setup_queue (base_va queue_idx : Z) (queue : Virtqueue) (guest_page_size : Z) : M Bus unit :=
  _ <- write_reg base_va QUEUE_SEL queue_idx ;;
  max <- read_reg base_va QUEUE_NUM_MAX ;;
  if max =? 0 then ret tt
  else
    let num := Z.min (vq_num queue) max in
    _ <- write_reg base_va QUEUE_NUM num ;;
    _ <- write_reg base_va QUEUE_ALIGN (wrap 32 guest_page_size) ;;
    let pfn := wrap 32 (vq_phys_base queue / guest_page_size) in
    write_reg base_va QUEUE_PFN pfn.

Definition notify (base_va queue_idx : Z) : M Bus unit := write_reg base_va QUEUE_NOTIFY queue_idx.

Definition ack_interrupt (base_va : Z) : M Bus Z :=
  status <- read_reg base_va INTERRUPT_STATUS ;;
  _ <- (if negb (status =? 0) then write_reg base_va INTERRUPT_ACK status else ret tt) ;;
  ret status.

Definition read_config_u32 (base_va offset : Z) : M Bus Z := read_reg base_va (CONFIG + offset).
Definition read_config_u64 (base_va offset : Z) : M Bus Z :=
  lo <- read_reg base_va (CONFIG + offset) ;;
  hi <- read_reg base_va (CONFIG + offset + 4) ;;
  ret (Z.lor lo (Z.shiftl hi 32)).

End Registers.

(** An access to the registers inside of the state of a driver. *)
Definition on_bus {T X} (bus : T -> Bus) (set : Bus -> T -> T) (op : M Bus X) : M T X :=
  fun s => match op (bus s) with Some (x, b) => Some (x, set b s) | None => None end.

(** ** Memory shared with the device *)

Definition bmem : Type := Z -> Z.
Definition put_bytes (a : Z) (l : list Z) (m : bmem) : bmem :=
  fun x => if (a <=? x) && (x <? a + Z.of_nat (length l)) then nth (Z.to_nat (x - a)) l 0 else m x.
Definition get_bytes (a n : Z) (m : bmem) : list Z := (fun i => m (a + i)) <$> seqZ 0 n.

(** ** Ownership of descriptors

    [linked t h l]: from [h] on the [next] fields lead through [l]. *)

Fixpoint linked (t : list VirtqDesc) (h : Z) (l : list Z) : Prop :=
  match l with
  | [] => True
  | i :: l => h = i /\ exists d, t !! Z.to_nat i = Some d /\ linked t (vd_next d) l
  end.

(** A request: descriptors linked by [next], all but the last with the flag. *)
Fixpoint req_chain (t : list VirtqDesc) (c : list Z) : Prop :=
  match c with
  | [] => False
  | x :: c' =>
      exists d, t !! Z.to_nat x = Some d /\
        match c' with
        | [] => has_next d = false
        | y :: _ => has_next d = true /\ vd_next d = y /\ req_chain t c'
        end
  end.

Definition head_of (c : list Z) : Z := default 0 (head c).

(** Every descriptor is on the free list, held by the driver or part of one of
    the requests [chains]. *)
Record vq_inv (q : Virtqueue) (free held : list Z) (chains : list (list Z)) : Prop := {
  inv_num : 0 < vq_num q <= 32768;
  inv_desc : length (vq_desc q) = Z.to_nat (vq_num q);
  inv_ring : length (av_ring (vq_avail q)) = Z.to_nat (vq_num q);
  inv_used : length (us_ring (vq_used q)) = Z.to_nat (vq_num q);
  inv_idx : 0 <= av_idx (vq_avail q) < 2 ^ 16 /\ 0 <= us_idx (vq_used q) < 2 ^ 16 /\ 0 <= vq_last_used_idx q < 2 ^ 16;
  inv_linked : linked (vq_desc q) (vq_free_head q) free;
  inv_free : vq_num_free q = Z.of_nat (length free);
  inv_owned : free ++ held ++ concat chains ≡ₚ seqZ 0 (vq_num q);
  inv_chains : Forall (req_chain (vq_desc q)) chains }.

Section Tables.
Implicit Types (t : list VirtqDesc) (l c : list Z).

Lemma linked_frame t h l i d : Forall (fun j => 0 <= j) l -> 0 <= i -> i ∉ l -> linked t h l -> linked (<[Z.to_nat i := d]> t) h l.
Proof.
  revert h. induction l as [|j l IH]; intros h Hp Hi Hn Hl; [done|]. apply Forall_cons in Hp as [Hj Hp].
  apply not_elem_of_cons in Hn as [Hij Hn]. destruct Hl as (-> & d' & Hd & Hl). split; [done|]. exists d'.
  split; [|by apply IH]. rewrite list_lookup_insert_ne by lia. done.
Qed.

Lemma req_chain_frame t c i d : Forall (fun j => 0 <= j) c -> 0 <= i -> i ∉ c -> req_chain t c -> req_chain (<[Z.to_nat i := d]> t) c.
Proof.
  induction c as [|x c IH]; [done|]. intros Hp Hi Hn (d' & Hd & Hc). apply Forall_cons in Hp as [Hx Hp].
  apply not_elem_of_cons in Hn as [Hxi Hn]. exists d'. rewrite list_lookup_insert_ne by lia. split; [done|].
  destruct c as [|y c]; [done|]. destruct Hc as (? & ? & Hc). split_and!; [done..|]. by apply IH.
Qed.

Lemma req_chain_cons t c : req_chain t c -> exists x c', c = x :: c' /\ head_of c = x.
Proof. destruct c as [|x c]; [done|]. eauto. Qed.

End Tables.

Section Ownership.
Context {q : Virtqueue} {free held : list Z} {chains : list (list Z)} (H : vq_inv q free held chains).

Lemma owned_range i : i ∈ free ++ held ++ concat chains -> 0 <= i < vq_num q.
Proof. rewrite (inv_owned _ _ _ _ H), elem_of_seqZ. lia. Qed.

Lemma owned_NoDup : NoDup (free ++ held ++ concat chains).
Proof. rewrite (inv_owned _ _ _ _ H). apply NoDup_seqZ. Qed.

Lemma owned_nonneg l : (forall i, i ∈ l -> i ∈ free ++ held ++ concat chains) -> Forall (fun j => 0 <= j) l.
Proof. intros Hl. apply Forall_forall. intros i Hi. pose proof (owned_range i (Hl i Hi)). lia. Qed.

Lemma owned_desc i : i ∈ free ++ held ++ concat chains -> exists d, vq_desc q !! Z.to_nat i = Some d.
Proof.
  intros Hi. pose proof (owned_range i Hi). pose proof (inv_desc _ _ _ _ H). apply lookup_lt_is_Some. lia.
Qed.

(** A write to a descriptor the driver holds concerns nobody else. *)
Lemma set_desc_inv i d : i ∈ held -> vq_inv (set_desc i d q) free held chains.
Proof.
  intros Hi. pose proof owned_NoDup as Hnd. apply NoDup_app in Hnd as (_ & Hf & Hnd). apply NoDup_app in Hnd as (_ & Hh & _).
  assert (Hr : 0 <= i) by (apply owned_range; set_solver). destruct H. split; try done; cbn.
  - by rewrite length_insert.
  - apply linked_frame; [apply owned_nonneg; set_solver|done| |done]. intros Hif. apply (Hf i Hif). set_solver.
  - rewrite Forall_forall in inv_chains0 |- *. intros c Hc.
    assert (Hin : forall j, j ∈ c -> j ∈ concat chains) by (intros j Hj; apply elem_of_concat; eauto).
    apply req_chain_frame; [apply owned_nonneg; set_solver|done| |by apply inv_chains0]. intros Hic. apply (Hh i Hi). auto.
Qed.

End Ownership.

Lemma regroup q l held chains held' chains' : vq_inv q l held chains -> held ++ concat chains ≡ₚ held' ++ concat chains' ->
  Forall (req_chain (vq_desc q)) chains' -> vq_inv q l held' chains'.
Proof. intros [] Hp Hf. split; try done. by rewrite <- Hp. Qed.

Lemma vq_init_inv pa num : 0 < num <= 32768 -> vq_inv (vq_init pa num) (seqZ 0 num) [] [].
Proof.
  intros Hn. unfold vq_init. rewrite zrange_seqZ. set (f := fun i => mkDesc _ _ _ _).
  assert (Hl : forall i, 0 <= i < num -> (f <$> seqZ 0 num) !! Z.to_nat i = Some (f i)).
  { intros i Hi. rewrite list_lookup_fmap, lookup_seqZ_lt by lia. cbn. f_equal. f_equal. lia. }
  split; cbn; try lia; try (rewrite ?length_replicate, ?length_fmap, ?length_seqZ; lia); [| |done].
  - assert (Hk : forall k n, Z.of_nat k = n -> n <= num -> linked (f <$> seqZ 0 num) (num - n) (seqZ (num - n) n)).
    { intros k. induction k as [|k IH]; intros n Hk Hle; [by rewrite (seqZ_nil _ n) by lia|].
      rewrite (seqZ_cons _ n) by lia.
      split; [done|]. exists (f (num - n)). split; [apply Hl; lia|].
      replace (Z.succ (num - n)) with (num - Z.pred n) by lia.
      destruct (Z.eq_dec n 1) as [Hn1|]; [by rewrite (seqZ_nil _ (Z.pred n)) by lia|]. cbn.
      rewrite (proj2 (Z.ltb_lt _ _)) by lia. replace (num - n + 1) with (num - Z.pred n) by lia. apply IH; lia. }
    specialize (Hk (Z.to_nat num) num). rewrite Z.sub_diag in Hk. apply Hk; lia.
  - by rewrite app_nil_r.
Qed.

Lemma get_desc_run q i d : vq_desc q !! Z.to_nat i = Some d -> get_desc i q = Some (d, q).
Proof. intros Hd. unfold get_desc, bind, gets. by rewrite Hd. Qed.

Lemma write_desc_run q i d : is_Some (vq_desc q !! Z.to_nat i) -> write_desc i d q = Some (tt, set_desc i d q).
Proof. intros [d' Hd]. unfold write_desc. by rewrite (bind_run _ _ _ _ _ (get_desc_run _ _ _ Hd)). Qed.

Lemma alloc_desc_inv q i free held chains : vq_inv q (i :: free) held chains ->
  exists q', alloc_desc q = Some (Some i, q') /\ vq_inv q' free (i :: held) chains /\ vq_desc q' = vq_desc q /\
    vq_avail q' = vq_avail q /\ vq_used q' = vq_used q /\ vq_last_used_idx q' = vq_last_used_idx q /\ vq_num q' = vq_num q.
Proof.
  intros H. pose proof (inv_linked _ _ _ _ H) as (Hh & d & Hd & Hl). pose proof (inv_free _ _ _ _ H) as Hf. cbn in Hf.
  exists (set_free (vd_next d) (vq_num_free q - 1) q). split_and!; try done.
  - unfold alloc_desc, bind at 1, gets at 1. rewrite (proj2 (Z.eqb_neq _ _)) by lia.
    unfold bind at 1, gets at 1. rewrite Hh. by rewrite (bind_run _ _ _ _ _ (get_desc_run _ _ _ Hd)).
  - destruct H. split; try done; cbn; [lia|]. rewrite <- inv_owned0. cbn. by rewrite <- Permutation_middle.
Qed.

Lemma alloc_desc_none q held chains : vq_inv q [] held chains -> alloc_desc q = Some (None, q).
Proof. intros H. pose proof (inv_free _ _ _ _ H) as Hf. unfold alloc_desc, bind, gets. by rewrite Hf. Qed.

Lemma free_desc_inv q i free held chains : vq_inv q free (i :: held) chains ->
  exists q', free_desc i q = Some (tt, q') /\ vq_inv q' (i :: free) held chains /\
    (forall j, j <> i -> 0 <= j -> vq_desc q' !! Z.to_nat j = vq_desc q !! Z.to_nat j) /\
    vq_avail q' = vq_avail q /\ vq_used q' = vq_used q /\ vq_last_used_idx q' = vq_last_used_idx q /\ vq_num q' = vq_num q.
Proof.
  intros H. assert (Hin : i ∈ free ++ (i :: held) ++ concat chains) by set_solver.
  pose proof (owned_range H i Hin) as Hr. destruct (owned_desc H i Hin) as [d Hd].
  pose proof (set_desc_inv H i (mkDesc 0 0 0 (vq_free_head q)) ltac:(set_solver)) as H1.
  pose proof (inv_free _ _ _ _ H) as Hf. pose proof (inv_num _ _ _ _ H) as Hn.
  assert (Hlen : Z.of_nat (length free) < vq_num q).
  { pose proof (Permutation_length (inv_owned _ _ _ _ H)) as Hp. rewrite length_app, length_seqZ in Hp. cbn in Hp. lia. }
  set (q1 := set_desc i (mkDesc 0 0 0 (vq_free_head q)) q) in *.
  exists (set_free i (vq_num_free q + 1) q1). split_and!; try done.
  - unfold free_desc, bind at 1, gets at 1. rewrite (bind_run _ _ _ _ _ (write_desc_run _ _ _ (mk_is_Some _ _ Hd))).
    unfold bind at 1, gets at 1. erewrite bind_run by (apply add_w_run; cbn; lia). done.
  - destruct H1. split; try done; cbn; [|lia|].
    + split; [done|]. eexists. split; [apply list_lookup_insert_eq; by eapply lookup_lt_Some|]. done.
    + etrans; [|exact inv_owned0]. apply (Permutation_middle free (held ++ concat chains) i).
  - intros j Hj Hj0. cbn. rewrite list_lookup_insert_ne by lia. done.
Qed.

(** A request goes back to the free list as a whole. *)
Lemma free_chain_loop_inv c fuel q free held chains : vq_inv q free (c ++ held) chains -> req_chain (vq_desc q) c ->
  (length c <= fuel)%nat -> NoDup c ->
  exists q', free_chain_loop fuel (head_of c) q = Some (tt, q') /\ vq_inv q' (rev c ++ free) held chains /\
    vq_avail q' = vq_avail q /\ vq_used q' = vq_used q /\ vq_last_used_idx q' = vq_last_used_idx q /\ vq_num q' = vq_num q.
Proof.
  revert fuel q free. induction c as [|x c IH]; intros fuel q free H Hc Hlen Hnd; [done|].
  destruct Hc as (d & Hd & Hc). destruct fuel as [|fuel]; [cbn in Hlen; lia|]. cbn [free_chain_loop head_of head default].
  rewrite (bind_run _ _ _ _ _ (get_desc_run _ _ _ Hd)).
  apply NoDup_cons in Hnd as [Hx Hnd].
  assert (Hpos : Forall (fun j => 0 <= j) (x :: c)) by (apply (owned_nonneg H); set_solver). apply Forall_cons in Hpos as [Hx0 Hpos].
  destruct (free_desc_inv q x free (c ++ held) chains H) as (q1 & E1 & H1 & Hk & Ha & Hu & Hlu & Hn).
  rewrite (bind_run _ _ _ _ _ E1). destruct c as [|y c].
  - rewrite Hc. exists q1. by split_and!.
  - destruct Hc as (Hnx & Hy & Hc). rewrite Hnx, Hy. assert (Hc1 : req_chain (vq_desc q1) (y :: c)).
    { assert (Hall : forall j, j ∈ y :: c -> vq_desc q1 !! Z.to_nat j = vq_desc q !! Z.to_nat j).
      { intros j Hj. apply Hk; [by intros ->|]. rewrite Forall_forall in Hpos. by apply Hpos. }
      clear -Hc Hall. revert Hc Hall. generalize (y :: c). intros l. induction l as [|z l IHl]; [done|].
      intros (d & Hd & Hl) Hall. exists d. rewrite Hall by set_solver. split; [done|].
      destruct l as [|w l]; [done|]. destruct Hl as (? & ? & Hl). split_and!; [done..|]. apply IHl; [done|]. set_solver. }
    destruct (IH fuel q1 (x :: free) H1 Hc1 ltac:(cbn in *; lia) Hnd) as (q2 & E2 & H2 & Ha2 & Hu2 & Hlu2 & Hn2).
    exists q2. split; [done|]. change (rev (x :: y :: c)) with (rev (y :: c) ++ [x]). rewrite <- app_assoc.
    split; [done|]. split_and!; congruence.
Qed.

Lemma free_chain_inv c q free held chains : vq_inv q free (c ++ held) chains -> req_chain (vq_desc q) c ->
  exists q', free_chain (head_of c) q = Some (tt, q') /\ vq_inv q' (rev c ++ free) held chains /\
    vq_avail q' = vq_avail q /\ vq_used q' = vq_used q /\ vq_last_used_idx q' = vq_last_used_idx q /\ vq_num q' = vq_num q.
Proof.
  intros H Hc. apply free_chain_loop_inv; [done|done| |].
  - pose proof (Permutation_length (inv_owned _ _ _ _ H)) as Hp. rewrite !length_app, length_seqZ in Hp.
    pose proof (inv_desc _ _ _ _ H). lia.
  - pose proof (owned_NoDup H) as Hnd. rewrite !NoDup_app in Hnd. tauto.
Qed.

(** ** [free_chain] ends on every table

    Whatever the [next] fields say, also on a cycle: a freed descriptor has no
    flags left, so the number of descriptors with the flag goes down. *)

Definition flagged (t : list VirtqDesc) : nat := length (filter (fun d => has_next d = true) t).

Lemma flagged_insert t i d d' : t !! i = Some d -> has_next d = true -> has_next d' = false ->
  flagged t = S (flagged (<[i := d']> t)).
Proof.
  intros Hi Hd Hd'. destruct (lookup_split _ _ _ Hi) as (l1 & l2 & -> & <-). rewrite insert_middle.
  unfold flagged. rewrite !filter_app, !filter_cons, decide_True by done. rewrite decide_False by (by rewrite Hd').
  rewrite !length_app. cbn. lia.
Qed.

Definition links_inside (q : Virtqueue) : Prop :=
  Forall (fun d => 0 <= vd_next d < Z.of_nat (length (vq_desc q))) (vq_desc q) /\
  0 <= vq_free_head q < Z.of_nat (length (vq_desc q)).

Lemma free_desc_links q i : links_inside q -> 0 <= i < Z.of_nat (length (vq_desc q)) -> vq_num_free q + 1 < 2 ^ 16 ->
  free_desc i q = Some (tt, set_free i (vq_num_free q + 1) (set_desc i (mkDesc 0 0 0 (vq_free_head q)) q)) /\
  links_inside (set_free i (vq_num_free q + 1) (set_desc i (mkDesc 0 0 0 (vq_free_head q)) q)).
Proof.
  intros [Hl Hh] Hi Hn. assert (Hd : is_Some (vq_desc q !! Z.to_nat i)) by (apply lookup_lt_is_Some; lia).
  split.
  - unfold free_desc, bind at 1, gets at 1. rewrite (bind_run _ _ _ _ _ (write_desc_run _ _ _ Hd)).
    unfold bind at 1, gets at 1. erewrite bind_run by (apply add_w_run; cbn; lia). done.
  - unfold links_inside. cbn. rewrite length_insert. split; [|done]. apply Forall_insert; [done|]. done.
Qed.

Lemma free_chain_loop_total fuel q i : links_inside q -> 0 <= i < Z.of_nat (length (vq_desc q)) ->
  (flagged (vq_desc q) < fuel)%nat -> vq_num_free q + Z.of_nat fuel < 2 ^ 16 -> is_Some (free_chain_loop fuel i q).
Proof.
  revert q i. induction fuel as [|fuel IH]; intros q i Hq Hi Hf Hn; [lia|]. cbn [free_chain_loop].
  assert (Hd : is_Some (vq_desc q !! Z.to_nat i)) by (apply lookup_lt_is_Some; lia). destruct Hd as [d Hd].
  rewrite (bind_run _ _ _ _ _ (get_desc_run _ _ _ Hd)).
  destruct (free_desc_links q i Hq Hi ltac:(lia)) as [E Hq']. rewrite (bind_run _ _ _ _ _ E).
  destruct (has_next d) eqn:Hnx; [|done]. apply IH; [done| | |cbn [set_free vq_num_free]; lia].
  - cbn. rewrite length_insert. destruct Hq as [Hl _]. by apply (Forall_lookup_1 _ _ _ _ Hl Hd).
  - cbn [set_free set_desc vq_desc]. rewrite (flagged_insert _ _ d (mkDesc 0 0 0 (vq_free_head q)) Hd Hnx) in Hf by done. lia.
Qed.

Lemma free_chain_total q i : links_inside q -> 0 <= i < Z.of_nat (length (vq_desc q)) ->
  vq_num_free q + Z.of_nat (length (vq_desc q)) + 1 < 2 ^ 16 -> is_Some (free_chain i q).
Proof.
  intros Hq Hi Hn. apply free_chain_loop_total; [done|done| |lia]. unfold flagged.
  pose proof (length_filter (fun d => has_next d = true) (vq_desc q)). lia.
Qed.

(** ** The protocol of driver and device

    What the driver holds, and the requests that wait in the available ring,
    that the device works on and that wait in the used ring. *)

Record Own := mkOwn { o_held : list Z; o_posted : list (list Z); o_taken : list (list Z); o_done : list (list Z) }.

Definition in_flight (o : Own) : list (list Z) := o_posted o ++ o_taken o ++ o_done o.

(** What a device does when it has finished a request (virtio 1.2, 2.7.8): it
    writes the next element of the used ring, then the index. *)
Definition device_complete (h len : Z) (q : Virtqueue) : Virtqueue :=
  let u := vq_used q in
  set_used (mkUsed (us_flags u) (wrap 16 (us_idx u + 1))
    (<[Z.to_nat (us_idx u mod vq_num q) := mkElem h len]> (us_ring u))) q.

Inductive vq_step : Virtqueue * Own -> Virtqueue * Own -> Prop :=
| vs_alloc q q' i h p t d : alloc_desc q = Some (Some i, q') -> vq_step (q, mkOwn h p t d) (q', mkOwn (i :: h) p t d)
| vs_full q q' o : alloc_desc q = Some (None, q') -> vq_step (q, o) (q', o)
| vs_write q q' i x o : i ∈ o_held o -> write_desc i x q = Some (tt, q') -> vq_step (q, o) (q', o)
| vs_free q q' i h h' p t d : h ≡ₚ i :: h' -> free_desc i q = Some (tt, q') ->
    vq_step (q, mkOwn h p t d) (q', mkOwn h' p t d)
| vs_free_chain q q' c h h' p t d : h ≡ₚ c ++ h' -> req_chain (vq_desc q) c -> free_chain (head_of c) q = Some (tt, q') ->
    vq_step (q, mkOwn h p t d) (q', mkOwn h' p t d)
| vs_push q q' c h h' p t d : h ≡ₚ c ++ h' -> req_chain (vq_desc q) c -> push_avail (head_of c) q = Some (tt, q') ->
    vq_step (q, mkOwn h p t d) (q', mkOwn h' (p ++ [c]) t d)
| vs_take q c h p t d : vq_step (q, mkOwn h (c :: p) t d) (q, mkOwn h p (c :: t) d)
| vs_complete q len c h p t t' d : t ≡ₚ c :: t' ->
    vq_step (q, mkOwn h p t d) (device_complete (head_of c) len q, mkOwn h p t' (d ++ [c]))
| vs_pop q q' r c h p t d : pop_used q = Some (Some r, q') -> vq_step (q, mkOwn h p t (c :: d)) (q', mkOwn (c ++ h) p t d)
| vs_idle q q' o : pop_used q = Some (None, q') -> vq_step (q, o) (q', o).

Record vq_proto (q : Virtqueue) (o : Own) : Prop := {
  pr_inv : exists free, vq_inv q free (o_held o) (in_flight o);
  pr_div : (vq_num q | 2 ^ 16);
  pr_avail : forall k c, o_posted o !! k = Some c ->
    av_ring (vq_avail q) !! Z.to_nat ((av_idx (vq_avail q) - Z.of_nat (length (o_posted o)) + Z.of_nat k) mod vq_num q) =
    Some (head_of c);
  pr_used : us_idx (vq_used q) = wrap 16 (vq_last_used_idx q + Z.of_nat (length (o_done o)));
  pr_done : forall k c, o_done o !! k = Some c ->
    exists len, us_ring (vq_used q) !! Z.to_nat ((vq_last_used_idx q + Z.of_nat k) mod vq_num q) = Some (mkElem (head_of c) len) }.

Lemma slot_ne n x d : 0 < d < n -> (x - d) mod n <> x mod n.
Proof.
  intros Hd He. pose proof (Zminus_mod x (x - d) n) as Hm. rewrite He, Z.sub_diag, Z.mod_0_l in Hm by lia.
  replace (x - (x - d)) with d in Hm by lia. rewrite Z.mod_small in Hm; lia.
Qed.

Lemma wrap_slot n x : 0 < n -> (n | 2 ^ 16) -> wrap 16 x mod n = x mod n.
Proof. intros Hn Hd. unfold wrap. symmetry. by apply Znumtheory.Zmod_div_mod. Qed.

Lemma wrap_slot_add n x y : 0 < n -> (n | 2 ^ 16) -> (wrap 16 x + y) mod n = (x + y) mod n.
Proof. intros Hn Hd. rewrite <- Zplus_mod_idemp_l, wrap_slot by done. by rewrite Zplus_mod_idemp_l. Qed.

Lemma flight_bound q free held chains : vq_inv q free held chains ->
  (length held + length chains <= Z.to_nat (vq_num q))%nat.
Proof.
  intros H. pose proof (Permutation_length (inv_owned _ _ _ _ H)) as Hp. rewrite !length_app, length_seqZ in Hp.
  assert (Hc : (length chains <= length (concat chains))%nat).
  { pose proof (inv_chains _ _ _ _ H) as Hf. clear -Hf. induction Hf as [|c cs Hc Hf IH]; [done|].
    destruct c as [|x c]; [done|]. cbn. rewrite length_app. lia. }
  lia.
Qed.

(** The queue invariant speaks of the rings only through their lengths. *)
Lemma set_avail_inv a q free held chains : vq_inv q free held chains ->
  length (av_ring a) = Z.to_nat (vq_num q) -> 0 <= av_idx a < 2 ^ 16 -> vq_inv (set_avail a q) free held chains.
Proof. intros [] Hl Hi. split; try done. cbn. tauto. Qed.

Lemma set_used_inv u q free held chains : vq_inv q free held chains ->
  length (us_ring u) = Z.to_nat (vq_num q) -> 0 <= us_idx u < 2 ^ 16 -> vq_inv (set_used u q) free held chains.
Proof. intros [] Hl Hi. split; try done. cbn. tauto. Qed.

Lemma set_last_used_inv i q free held chains : vq_inv q free held chains -> 0 <= i < 2 ^ 16 ->
  vq_inv (set_last_used i q) free held chains.
Proof. intros [] Hi. split; try done. cbn. tauto. Qed.

Lemma wrap16_range x : 0 <= wrap 16 x < 2 ^ 16.
Proof. unfold wrap. apply Z.mod_pos_bound. lia. Qed.

Lemma ring_slot_run q i : vq_num q <> 0 -> ring_slot i q = Some (Z.to_nat (i mod vq_num q), q).
Proof. intros Hn. unfold ring_slot, bind at 1, gets. by rewrite (proj2 (Z.eqb_neq _ _) Hn). Qed.

Lemma push_avail_run q h : vq_num q <> 0 ->
  push_avail h q = Some (tt, set_avail (mkAvail (av_flags (vq_avail q)) (wrap 16 (av_idx (vq_avail q) + 1))
    (<[Z.to_nat (av_idx (vq_avail q) mod vq_num q) := h]> (av_ring (vq_avail q)))) q).
Proof. intros Hn. unfold push_avail, bind at 1, gets at 1. by rewrite (bind_run _ _ _ _ _ (ring_slot_run _ _ Hn)). Qed.

Lemma push_avail_inv q h free held chains : vq_inv q free held chains ->
  exists q', push_avail h q = Some (tt, q') /\ vq_inv q' free held chains /\ vq_desc q' = vq_desc q /\ vq_used q' = vq_used q /\
    vq_last_used_idx q' = vq_last_used_idx q /\ vq_num q' = vq_num q.
Proof.
  intros H. pose proof (inv_num _ _ _ _ H). eexists. split; [apply push_avail_run; lia|]. split_and!; try done.
  apply set_avail_inv; [done| |apply wrap16_range]. cbn. rewrite length_insert. apply (inv_ring _ _ _ _ H).
Qed.

Lemma pop_used_none q : us_idx (vq_used q) = vq_last_used_idx q -> pop_used q = Some (None, q).
Proof. intros H. unfold pop_used, bind, gets. by rewrite H, Z.eqb_refl. Qed.

Lemma pop_used_some q e : us_idx (vq_used q) <> vq_last_used_idx q -> vq_num q <> 0 ->
  us_ring (vq_used q) !! Z.to_nat (vq_last_used_idx q mod vq_num q) = Some e ->
  pop_used q = Some (Some (wrap 16 (ue_id e), ue_len e), set_last_used (wrap 16 (vq_last_used_idx q + 1)) q).
Proof.
  intros Hi Hn He. unfold pop_used, bind at 1, gets at 1. unfold bind at 1, gets at 1.
  rewrite (proj2 (Z.eqb_neq _ _)) by done. rewrite (bind_run _ _ _ _ _ (ring_slot_run _ _ Hn)). unfold bind at 1. by rewrite He.
Qed.

(** What [pop_used] finds: the oldest request of the used ring, if there is one. *)
Lemma proto_pop q h p t d : vq_proto q (mkOwn h p t d) ->
  match d with
  | [] => pop_used q = Some (None, q)
  | c :: _ => exists len, pop_used q = Some (Some (head_of c, len), set_last_used (wrap 16 (vq_last_used_idx q + 1)) q)
  end.
Proof.
  intros [[free Hi] Hd _ Hu Hk]. cbn [o_done o_held] in *. destruct d as [|c d].
  - apply pop_used_none. rewrite Hu. cbn. rewrite Z.add_0_r. apply wrap_small, fits_spec, (inv_idx _ _ _ _ Hi).
  - destruct (Hk O c eq_refl) as [len He]. cbn in He. rewrite Z.add_0_r in He. pose proof (inv_num _ _ _ _ Hi) as Hn.
    exists len. rewrite (pop_used_some q (mkElem (head_of c) len)); [|rewrite Hu|lia|done].
    + cbn. f_equal. f_equal. f_equal. f_equal. apply wrap_small, fits_spec.
      assert (Hr : 0 <= head_of c < vq_num q); [|lia].
      pose proof (inv_chains _ _ _ _ Hi) as Hc. unfold in_flight in Hc. cbn in Hc. rewrite !Forall_app, Forall_cons in Hc.
      destruct Hc as (_ & _ & Hc & _). destruct (req_chain_cons _ _ Hc) as (x & c' & -> & ->). apply (owned_range Hi).
      unfold in_flight. cbn. rewrite !concat_app. cbn. set_solver.
    + pose proof (flight_bound _ _ _ _ Hi) as Hb. unfold in_flight in Hb. rewrite !length_app in Hb. cbn in Hb.
      pose proof (inv_idx _ _ _ _ Hi) as (_ & _ & Hl). unfold wrap. intros He'.
      assert (Hm : (vq_last_used_idx q + Z.of_nat (length (c :: d)) - vq_last_used_idx q) mod 2 ^ 16 = 0).
      { rewrite Zminus_mod, He', (Z.mod_small (vq_last_used_idx q)) by done. by rewrite Z.sub_diag. }
      cbn in Hm. rewrite Z.add_simpl_l, Z.mod_small in Hm; lia.
Qed.

Lemma proto_windows q q' o h p t d : vq_proto q o -> o_posted o = p -> o_done o = d ->
  (exists free, vq_inv q' free h (p ++ t ++ d)) -> vq_num q' = vq_num q -> vq_avail q' = vq_avail q -> vq_used q' = vq_used q ->
  vq_last_used_idx q' = vq_last_used_idx q -> vq_proto q' (mkOwn h p t d).
Proof.
  intros [Hi Hd Ha Hu Hk] <- <- H' Hn Hav Hus Hl. split; cbn; [done|by rewrite Hn| | |]; by rewrite ?Hav, ?Hus, ?Hl, ?Hn.
Qed.

Lemma proto_push q c h h' p t d : vq_proto q (mkOwn h p t d) -> h ≡ₚ c ++ h' -> req_chain (vq_desc q) c ->
  exists q', push_avail (head_of c) q = Some (tt, q') /\ vq_proto q' (mkOwn h' (p ++ [c]) t d).
Proof.
  intros [[free Hi] Hd Ha Hu Hk] Hh Hc. pose proof (inv_num _ _ _ _ Hi) as Hn. eexists. split; [apply push_avail_run; lia|].
  pose proof (flight_bound _ _ _ _ Hi) as Hb. unfold in_flight in *. cbn [o_held o_posted o_taken o_done] in *.
  destruct (req_chain_cons _ _ Hc) as (x & c' & Hx & _). pose proof (Permutation_length Hh) as Hlen.
  rewrite Hx, length_app in Hlen. cbn in Hlen. rewrite !length_app in Hb.
  split; cbn [set_avail vq_num vq_avail vq_used vq_last_used_idx av_ring av_idx o_held o_posted o_taken o_done]; [|done| |done|done].
  - exists free. apply set_avail_inv; [|cbn; rewrite length_insert; apply (inv_ring _ _ _ _ Hi)|apply wrap16_range].
    apply (regroup _ _ h (p ++ t ++ d)); [done| |].
    + unfold in_flight. cbn. rewrite Hh, !concat_app. cbn. rewrite app_nil_r. solve_Permutation.
    + pose proof (inv_chains _ _ _ _ Hi) as Hf. unfold in_flight. cbn. rewrite !Forall_app in *. rewrite Forall_singleton. tauto.
  - intros k c1 Hk1. rewrite length_app. cbn [length]. rewrite <- Z.add_sub_swap, <- Z.add_sub_assoc, wrap_slot_add by lia || done.
    replace (av_idx (vq_avail q) + 1 + _) with (av_idx (vq_avail q) - Z.of_nat (length p) + Z.of_nat k) by lia.
    apply lookup_app_Some in Hk1 as [Hk1|[Hle Hk1]].
    + pose proof (lookup_lt_Some _ _ _ Hk1). rewrite list_lookup_insert_ne; [by apply Ha|].
      pose proof (slot_ne (vq_num q) (av_idx (vq_avail q)) (Z.of_nat (length p) - Z.of_nat k) ltac:(lia)) as Hne.
      replace (av_idx (vq_avail q) - (Z.of_nat (length p) - Z.of_nat k))
        with (av_idx (vq_avail q) - Z.of_nat (length p) + Z.of_nat k) in Hne by lia.
      pose proof (Z.mod_pos_bound (av_idx (vq_avail q)) (vq_num q)).
      pose proof (Z.mod_pos_bound (av_idx (vq_avail q) - Z.of_nat (length p) + Z.of_nat k) (vq_num q)). lia.
    + pose proof (lookup_lt_Some _ _ _ Hk1) as Hk2. cbn in Hk2. replace (k - length p)%nat with O in Hk1 by lia.
      injection Hk1 as <-. replace (_ - _ + Z.of_nat k) with (av_idx (vq_avail q)) by lia.
      apply list_lookup_insert_eq. pose proof (Z.mod_pos_bound (av_idx (vq_avail q)) (vq_num q)).
      rewrite (inv_ring _ _ _ _ Hi). lia.
Qed.

Lemma proto_complete q c len h p t t' d : vq_proto q (mkOwn h p t d) -> t ≡ₚ c :: t' ->
  vq_proto (device_complete (head_of c) len q) (mkOwn h p t' (d ++ [c])).
Proof.
  intros [[free Hi] Hd Ha Hu Hk] Ht. pose proof (inv_num _ _ _ _ Hi) as Hn. pose proof (flight_bound _ _ _ _ Hi) as Hb.
  unfold in_flight in *. cbn [o_held o_posted o_taken o_done] in *.
  pose proof (Permutation_length Ht) as Hlen. cbn in Hlen. rewrite !length_app in Hb.
  split; unfold device_complete, in_flight; cbn [set_used vq_num vq_avail vq_used vq_last_used_idx us_ring us_idx o_held o_posted o_taken o_done];
    [|done|done| |].
  - exists free. apply set_used_inv; [|cbn; rewrite length_insert; apply (inv_used _ _ _ _ Hi)|apply wrap16_range].
    apply (regroup _ _ h (p ++ t ++ d)); [done| |].
    + rewrite Ht, !concat_app. cbn. rewrite app_nil_r. solve_Permutation.
    + pose proof (inv_chains _ _ _ _ Hi) as Hf. rewrite Ht in Hf. rewrite !Forall_app, Forall_cons in *.
      rewrite Forall_nil. tauto.
  - rewrite Hu, length_app. cbn [length]. unfold wrap. rewrite Zplus_mod_idemp_l. f_equal. lia.
  - intros k c1 Hk1. rewrite Hu, wrap_slot by (lia || done). apply lookup_app_Some in Hk1 as [Hk1|[Hle Hk1]].
    + pose proof (lookup_lt_Some _ _ _ Hk1). rewrite list_lookup_insert_ne; [by apply Hk|].
      pose proof (slot_ne (vq_num q) (vq_last_used_idx q + Z.of_nat (length d)) (Z.of_nat (length d) - Z.of_nat k) ltac:(lia)) as Hne.
      replace (_ - (Z.of_nat (length d) - Z.of_nat k)) with (vq_last_used_idx q + Z.of_nat k) in Hne by lia.
      pose proof (Z.mod_pos_bound (vq_last_used_idx q + Z.of_nat k) (vq_num q)).
      pose proof (Z.mod_pos_bound (vq_last_used_idx q + Z.of_nat (length d)) (vq_num q)). lia.
    + pose proof (lookup_lt_Some _ _ _ Hk1) as Hk2. cbn in Hk2. replace (k - length d)%nat with O in Hk1 by lia.
      injection Hk1 as <-. exists len. replace (Z.of_nat k) with (Z.of_nat (length d)) by lia.
      apply list_lookup_insert_eq. pose proof (Z.mod_pos_bound (vq_last_used_idx q + Z.of_nat (length d)) (vq_num q)).
      rewrite (inv_used _ _ _ _ Hi). lia.
Qed.

Lemma proto_reaped q c h p t d : vq_proto q (mkOwn h p t (c :: d)) ->
  vq_proto (set_last_used (wrap 16 (vq_last_used_idx q + 1)) q) (mkOwn (c ++ h) p t d).
Proof.
  intros [[free Hi] Hd Ha Hu Hk]. pose proof (inv_num _ _ _ _ Hi) as Hn. unfold in_flight in *.
  cbn [o_held o_posted o_taken o_done] in *.
  split; unfold in_flight; cbn [set_last_used vq_num vq_avail vq_used vq_last_used_idx o_held o_posted o_taken o_done]; [|done|done| |].
  - exists free. apply set_last_used_inv; [|apply wrap16_range]. apply (regroup _ _ h (p ++ t ++ c :: d)); [done| |].
    + rewrite !concat_app. cbn. solve_Permutation.
    + pose proof (inv_chains _ _ _ _ Hi) as Hf. rewrite !Forall_app, Forall_cons in *. tauto.
  - rewrite Hu. cbn [length]. unfold wrap. rewrite Zplus_mod_idemp_l. f_equal. lia.
  - intros k c1 Hk1. rewrite wrap_slot_add by (lia || done). destruct (Hk (S k) c1 Hk1) as [len He]. exists len.
    rewrite <- He. f_equal. f_equal. f_equal. lia.
Qed.

Lemma vq_step_proto s s' : vq_step s s' -> vq_proto s.1 s.2 -> vq_proto s'.1 s'.2.
Proof.
  intros Hs HP. destruct Hs as [q q' i h p t d E|q q' o E|q q' i x o Hi E|q q' i h h' p t d Hh E|q q' c h h' p t d Hh Hc E
    |q q' c h h' p t d Hh Hc E|q c h p t d|q len c h p t t' d Ht|q q' r c h p t d E|q q' o E]; cbn [fst snd] in *;
    pose proof (pr_inv _ _ HP) as [free Hv]; unfold in_flight in Hv; cbn [o_held o_posted o_taken o_done] in Hv.
  - destruct free as [|j free]; [by rewrite (alloc_desc_none _ _ _ Hv) in E|].
    destruct (alloc_desc_inv _ _ _ _ _ Hv) as (q1 & E1 & H1 & _ & Ha & Hu & Hl & Hn). rewrite E1 in E. simplify_eq.
    eapply proto_windows; [done..|eauto| | | |]; done.
  - destruct free as [|j free]; [rewrite (alloc_desc_none _ _ _ Hv) in E; by simplify_eq|].
    destruct (alloc_desc_inv _ _ _ _ _ Hv) as (q1 & E1 & _). congruence.
  - destruct (owned_desc Hv i ltac:(set_solver)) as [d0 Hd0]. rewrite write_desc_run in E by eauto. simplify_eq.
    destruct o as [h p t d]. eapply proto_windows; [done..| | | | |]; [|done..]. exists free. by apply set_desc_inv.
  - assert (Hv' : vq_inv q free (i :: h') (p ++ t ++ d)) by (eapply regroup; [done|by rewrite Hh|by destruct Hv]).
    destruct (free_desc_inv _ _ _ _ _ Hv') as (q1 & E1 & H1 & _ & Ha & Hu & Hl & Hn). rewrite E1 in E. simplify_eq.
    eapply proto_windows; [done..|eauto| | | |]; done.
  - assert (Hv' : vq_inv q free (c ++ h') (p ++ t ++ d)) by (eapply regroup; [done|by rewrite Hh|by destruct Hv]).
    destruct (free_chain_inv _ _ _ _ _ Hv' Hc) as (q1 & E1 & H1 & Ha & Hu & Hl & Hn). rewrite E1 in E. simplify_eq.
    eapply proto_windows; [done..|eauto| | | |]; done.
  - destruct (proto_push _ _ _ _ _ _ _ HP Hh Hc) as (q1 & E1 & H1). congruence.
  - destruct HP as [_ Hd Ha Hu Hk]. split; cbn in *; [|done| |done|done].
    + exists free. eapply regroup; [done|unfold in_flight; cbn; rewrite !concat_app; cbn; rewrite concat_app; solve_Permutation|].
      pose proof (inv_chains _ _ _ _ Hv) as Hf. unfold in_flight. cbn. by rewrite <- Permutation_middle.
    + intros k c1 Hk1. rewrite <- (Ha (S k) c1 Hk1). f_equal. f_equal. f_equal. lia.
  - by eapply proto_complete.
  - destruct (proto_pop _ _ _ _ _ HP) as [len E1]. rewrite E1 in E. simplify_eq. by apply proto_reaped.
  - destruct o as [h p t d]. pose proof (proto_pop _ _ _ _ _ HP) as Hp. destruct d; [congruence|]. destruct Hp as [len ?]. congruence.
Qed.

Definition own0 : Own := mkOwn [] [] [] [].

Lemma vq_init_proto pa num : 0 < num <= 32768 -> (num | 2 ^ 16) -> vq_proto (vq_init pa num) own0.
Proof. intros Hn Hd. split; try done; cbn. exists (seqZ 0 num). by apply vq_init_inv. Qed.

Lemma reachable_proto pa num s : 0 < num <= 32768 -> (num | 2 ^ 16) ->
  rtc vq_step (vq_init pa num, own0) s -> vq_proto s.1 s.2.
Proof.
  intros Hn Hd Hr. assert (H0 : vq_proto (vq_init pa num, own0).1 (vq_init pa num, own0).2) by by apply vq_init_proto.
  revert H0. induction Hr as [s|s s1 s2 Hs Hr IH]; [done|]. intros H0. apply IH. by eapply vq_step_proto.
Qed.

(** What both sides may rely on. *)
Record vq_promises (q : Virtqueue) (o : Own) : Prop := {
  vp_exclusive : NoDup (o_held o ++ concat (in_flight o)) /\ (forall i, i ∈ o_held o ++ concat (in_flight o) -> 0 <= i < vq_num q);
  vp_alloc : (exists i q', alloc_desc q = Some (Some i, q') /\ 0 <= i < vq_num q /\ i ∉ o_held o ++ concat (in_flight o)) \/
    (alloc_desc q = Some (None, q) /\ Z.of_nat (length (o_held o ++ concat (in_flight o))) = vq_num q);
  vp_runs : forall c, (forall i x, i ∈ o_held o -> is_Some (write_desc i x q) /\ is_Some (free_desc i q)) /\
    (c ⊆+ o_held o -> req_chain (vq_desc q) c -> is_Some (free_chain (head_of c) q) /\ is_Some (push_avail (head_of c) q));
  vp_available : forall k c, o_posted o !! k = Some c ->
    av_ring (vq_avail q) !! Z.to_nat ((av_idx (vq_avail q) - Z.of_nat (length (o_posted o)) + Z.of_nat k) mod vq_num q) =
    Some (head_of c);
  vp_pop : match o_done o with
    | [] => pop_used q = Some (None, q)
    | c :: _ => exists len q', pop_used q = Some (Some (head_of c, len), q')
    end }.

(** C15. Along every run of a driver that writes, frees and posts only descriptors
    it holds, and of a device that completes requests it has taken, in any order:
    no descriptor has two owners and [alloc_desc] hands out one nobody has,
    failing only when all are taken; every operation has a result; no slot of
    the available ring is overwritten before the device has read it, although
    its index wraps at 16 bits; and [pop_used] returns the requests the device
    completed, in their order, and nothing else. *)
Theorem virtqueue_protocol pa num q o : 0 < num <= 32768 -> (num | 2 ^ 16) ->
  rtc vq_step (vq_init pa num, own0) (q, o) -> vq_promises q o.
Proof.
  intros Hn Hd Hr. pose proof (reachable_proto _ _ _ Hn Hd Hr) as HP. cbn in HP. pose proof (pr_inv _ _ HP) as [free Hv].
  pose proof (owned_NoDup Hv) as Hnd. pose proof (inv_owned _ _ _ _ Hv) as Ho. split.
  - apply NoDup_app in Hnd as (_ & _ & Hnd). split; [done|]. intros i Hi. apply (owned_range Hv). set_solver.
  - destruct free as [|i free]; [right|left].
    + split; [by eapply alloc_desc_none|]. cbn in Ho. pose proof (inv_num _ _ _ _ Hv). rewrite Ho, length_seqZ. lia.
    + destruct (alloc_desc_inv _ _ _ _ _ Hv) as (q1 & E1 & _). exists i, q1. split; [done|]. split; [apply (owned_range Hv); set_solver|].
      cbn in Hnd. apply NoDup_cons in Hnd as [Hnd _]. set_solver.
  - intros c. split.
    + intros i x Hi. destruct (owned_desc Hv i ltac:(set_solver)) as [d0 Hd0]. rewrite write_desc_run by eauto. split; [done|].
      apply list_elem_of_split in Hi as (l1 & l2 & Hh).
      assert (Hv' : vq_inv q free (i :: l1 ++ l2) (in_flight o)).
      { eapply regroup; [done| |by destruct Hv]. rewrite Hh. solve_Permutation. }
      destruct (free_desc_inv _ _ _ _ _ Hv') as (q1 & E1 & _). by rewrite E1.
    + intros Hc Hq. apply submseteq_Permutation in Hc as [h' Hh].
      assert (Hv' : vq_inv q free (c ++ h') (in_flight o)) by (eapply regroup; [done|by rewrite Hh|by destruct Hv]).
      destruct (free_chain_inv _ _ _ _ _ Hv' Hq) as (q1 & -> & _).
      destruct (push_avail_inv q (head_of c) _ _ _ Hv) as (q2 & -> & _). done.
  - apply (pr_avail _ _ HP).
  - destruct o as [h p t d]. pose proof (proto_pop _ _ _ _ _ HP) as Hp. destruct d as [|c d]; [done|].
    destruct Hp as [len Hp]. cbn. eauto.
Qed.

(** A request of one descriptor, posted, taken, completed and about to be popped. *)
Definition posted_queue : Virtqueue := Eval vm_compute in
  match (i <- alloc_desc ;; _ <- write_desc 0 (mkDesc 4096 64 2 0) ;; _ <- push_avail 0 ;; ret i) (vq_init 0 16) with
  | Some (_, q) => q
  | None => vq_init 0 16
  end.
Definition completed_queue : Virtqueue := device_complete 0 20 posted_queue.

Lemma completed_steps : rtc vq_step (vq_init 0 16, own0) (completed_queue, mkOwn [] [] [] [[0]]).
Proof.
  eapply rtc_l; [apply vs_alloc; by vm_compute|]. eapply rtc_l; [eapply (vs_write _ _ 0 (mkDesc 4096 64 2 0)); [by left|by vm_compute]|].
  eapply rtc_l; [eapply (vs_push _ _ [0] _ []); [done| |by vm_compute]; eexists; split; reflexivity|].
  eapply rtc_l; [apply vs_take|]. eapply rtc_l; [apply (vs_complete _ 20 [0] _ _ _ []); done|]. apply rtc_refl.
Qed.

Lemma virtqueue_protocol_witness : vq_promises completed_queue (mkOwn [] [] [] [[0]]) /\
  pop_used completed_queue = Some (Some (0, 20), set_last_used 1 completed_queue).
Proof.
  split; [|by vm_compute]. apply (virtqueue_protocol 0 16); [lia|by exists 4096|apply completed_steps].
Defined.

(** ** Shared lemmas of the drivers *)

Lemma write_desc_inv q i d free held chains : vq_inv q free held chains -> i ∈ held ->
  write_desc i d q = Some (tt, set_desc i d q) /\ vq_inv (set_desc i d q) free held chains.
Proof.
  intros H Hi. split; [|by apply set_desc_inv]. apply write_desc_run. eapply (owned_desc H). set_solver.
Qed.

Lemma set_used_same q : set_used (vq_used q) q = q.
Proof. by destruct q. Qed.

Lemma put_bytes_out a l m x : x < a \/ a + Z.of_nat (length l) <= x -> put_bytes a l m x = m x.
Proof. intros Hx. unfold put_bytes. by rewrite (proj2 (andb_false_iff _ _)) by (rewrite Z.leb_gt, Z.ltb_ge; lia). Qed.

Lemma put_bytes_in a l m i b : 0 <= i -> l !! Z.to_nat i = Some b -> put_bytes a l m (a + i) = b.
Proof.
  intros Hi Hb. pose proof (lookup_lt_Some _ _ _ Hb). unfold put_bytes.
  rewrite (proj2 (andb_true_iff _ _)) by (rewrite Z.leb_le, Z.ltb_lt; lia). replace (a + i - a) with i by lia.
  by apply nth_lookup_Some.
Qed.

Lemma put_byte_at a v m : put_bytes a [v] m a = v.
Proof. pose proof (put_bytes_in a [v] m 0 v) as H. rewrite Z.add_0_r in H. by apply H. Qed.

Lemma get_bytes_ext a n m m' : (forall i, 0 <= i < n -> m (a + i) = m' (a + i)) -> get_bytes a n m = get_bytes a n m'.
Proof. intros H. apply list_fmap_ext. intros i x Hx. apply H. apply lookup_seqZ in Hx. lia. Qed.

Lemma length_get_bytes a n m : length (get_bytes a n m) = Z.to_nat n.
Proof. unfold get_bytes. by rewrite length_fmap, length_seqZ. Qed.

Lemma get_bytes_lookup a n m i : 0 <= i < n -> get_bytes a n m !! Z.to_nat i = Some (m (a + i)).
Proof. intros Hi. unfold get_bytes. rewrite list_lookup_fmap, lookup_seqZ_lt by lia. cbn. do 2 f_equal. lia. Qed.

Lemma get_put_sub a l m k n : 0 <= k -> 0 <= n -> k + n <= Z.of_nat (length l) ->
  get_bytes (a + k) n (put_bytes a l m) = take (Z.to_nat n) (drop (Z.to_nat k) l).
Proof.
  intros Hk Hn Hl. apply list_eq. intros j. destruct (Nat.lt_ge_cases j (Z.to_nat n)) as [Hj|Hj].
  - rewrite lookup_take_lt, lookup_drop by lia. replace j with (Z.to_nat (Z.of_nat j)) at 1 by lia.
    rewrite get_bytes_lookup by lia. assert (Hb : is_Some (l !! (Z.to_nat k + j)%nat)) by (apply lookup_lt_is_Some; lia).
    destruct Hb as [b Hb]. rewrite Hb. f_equal. rewrite <- Z.add_assoc. apply put_bytes_in; [lia|]. rewrite <- Hb. f_equal. lia.
  - rewrite lookup_take_ge by lia. apply lookup_ge_None. rewrite length_get_bytes. lia.
Qed.

Lemma get_put_same a l m n : Z.of_nat (length l) = n -> get_bytes a n (put_bytes a l m) = l.
Proof.
  intros <-. pose proof (get_put_sub a l m 0 (Z.of_nat (length l))) as H. rewrite Z.add_0_r in H. rewrite H by lia.
  cbn. rewrite Nat2Z.id. by apply take_ge.
Qed.

(** ** Layout and initialisation *)

Lemma ldiff_align x k : 0 <= k -> 0 <= x -> Z.ldiff (x + 2 ^ k - 1) (2 ^ k - 1) = (x + 2 ^ k - 1) / 2 ^ k * 2 ^ k.
Proof.
  intros Hk Hx. replace (2 ^ k - 1) with (Z.ones k) by (rewrite Z.ones_equiv; lia). rewrite Z.ldiff_ones_r by done. rewrite Z.shiftr_div_pow2, Z.shiftl_mul_pow2 by done. done.
Qed.

(** The rings lie behind the table and behind each other inside of the buffer,
    and the used ring starts on a page boundary. *)
Lemma queue_layout num k : 0 <= k -> 0 < num ->
  let page := 2 ^ k in
  avail_offset num + (6 + 2 * num) <= used_offset num page < avail_offset num + (6 + 2 * num) + page /\
  used_offset num page mod page = 0 /\ used_offset num page + (6 + 8 * num) = size_bytes num page.
Proof.
  intros Hk Hn page. unfold used_offset, size_bytes, avail_offset, page.
  replace (16 * num + (6 + 2 * num)) with (16 * num + 6 + 2 * num) by lia.
  rewrite ldiff_align by lia. set (x := 16 * num + 6 + 2 * num). assert (Hp : 0 < 2 ^ k) by (apply Z.pow_pos_nonneg; lia).
  pose proof (Z.div_mod (x + 2 ^ k - 1) (2 ^ k)) as Hdm. pose proof (Z.mod_pos_bound (x + 2 ^ k - 1) (2 ^ k)) as Hm.
  split_and!; try nia. by apply Z.mod_mul, Z.neq_sym, Z.lt_neq.
Qed.

Section Sequence.
Variable answer : Bus -> Z -> Z.

Lemma write_reg_run base off v h : base + off < 2 ^ 64 -> write_reg base off v h = Some (tt, Wr (base + off) v :: h).
Proof. intros H. unfold write_reg. by rewrite (bind_run _ _ _ _ _ (add64_run _ _ h H)). Qed.

Lemma read_reg_run base off h : base + off < 2 ^ 64 ->
  read_reg answer base off h = Some (wrap 32 (answer h (base + off)), Rd (base + off) (wrap 32 (answer h (base + off))) :: h).
Proof. intros H. unfold read_reg. by rewrite (bind_run _ _ _ _ _ (add64_run _ _ h H)). Qed.

Lemma init_device_result base feats h : base + TRANSPORT_SIZE <= 2 ^ 64 ->
  exists r h', init_device answer base feats h = Some (r, h') /\
    (r = None \/ exists host, 0 <= host < 2 ^ 32 /\ r = Some (Z.land host feats)).
Proof.
  intros Hb. unfold init_device. unfold TRANSPORT_SIZE in Hb.
  do 4 (erewrite bind_run by (apply write_reg_run; unfold STATUS, HOST_FEATURES_SEL; lia)).
  erewrite bind_run by (apply read_reg_run; unfold HOST_FEATURES; lia). set (host := wrap 32 _).
  do 4 (erewrite bind_run by (apply write_reg_run; unfold STATUS, GUEST_FEATURES_SEL, GUEST_FEATURES, GUEST_PAGE_SIZE; lia)).
  erewrite bind_run by (apply read_reg_run; unfold STATUS; lia). case_match.
  - erewrite bind_run by (apply write_reg_run; unfold STATUS; lia). eexists _, _. split; [done|]. by left.
  - eexists _, _. split; [done|]. right. exists host. split; [apply Z.mod_pos_bound; lia|done].
Qed.

Lemma setup_queue_result base i q page h : base + TRANSPORT_SIZE <= 2 ^ 64 -> exists h', setup_queue answer base i q page h = Some (tt, h').
Proof.
  intros Hb. unfold setup_queue. unfold TRANSPORT_SIZE in Hb. erewrite bind_run by (apply write_reg_run; unfold QUEUE_SEL; lia).
  erewrite bind_run by (apply read_reg_run; unfold QUEUE_NUM_MAX; lia). case_match; [by eexists|].
  do 2 (erewrite bind_run by (apply write_reg_run; unfold QUEUE_NUM, QUEUE_ALIGN; lia)). eexists. apply write_reg_run. unfold QUEUE_PFN. lia.
Qed.

Lemma driver_ok_result base h : base + TRANSPORT_SIZE <= 2 ^ 64 -> exists h', driver_ok answer base h = Some (tt, h').
Proof.
  intros Hb. unfold driver_ok. unfold TRANSPORT_SIZE in Hb. erewrite bind_run by (apply read_reg_run; unfold STATUS; lia).
  eexists. apply write_reg_run. unfold STATUS. lia.
Qed.

Lemma read_config_u64_result base h : base + TRANSPORT_SIZE <= 2 ^ 64 ->
  exists c h', read_config_u64 answer base 0 h = Some (c, h') /\ 0 <= c < 2 ^ 64.
Proof.
  intros Hb. unfold read_config_u64. unfold TRANSPORT_SIZE in Hb. do 2 erewrite bind_run by (apply read_reg_run; unfold CONFIG; lia).
  eexists _, _. split; [done|]. set (lo := wrap 32 _). set (hi := wrap 32 _). rewrite Z.lor_comm.
  assert (0 <= lo < 2 ^ 32) by (apply Z.mod_pos_bound; lia). assert (0 <= hi < 2 ^ 32) by (apply Z.mod_pos_bound; lia).
  rewrite lor_shiftl_add by lia. lia.
Qed.

End Sequence.

(** ** Drivers and devices that serve whole requests *)

(** A device takes posted requests and completes taken ones, with at most [maxlen]
    bytes written (virtio 1.2, 2.7). *)
Inductive dev_step (maxlen : Z) : Virtqueue * Own -> Virtqueue * Own -> Prop :=
| ds_take q c h p t d : dev_step maxlen (q, mkOwn h (c :: p) t d) (q, mkOwn h p (c :: t) d)
| ds_complete q len c h p t t' d : t ≡ₚ c :: t' -> 0 <= len <= maxlen ->
    dev_step maxlen (q, mkOwn h p t d) (device_complete (head_of c) len q, mkOwn h p t' (d ++ [c])).

(** [pos] is how far the device has read the available ring. *)
Definition at_pos (pos : Z) (q : Virtqueue) (o : Own) : Prop :=
  0 <= pos < 2 ^ 16 /\ av_idx (vq_avail q) = wrap 16 (pos + Z.of_nat (length (o_posted o))).

Lemma dev_step_vq maxlen s s' : dev_step maxlen s s' -> vq_step s s'.
Proof. intros [q c h p t d|q len c h p t t' d Ht Hl]; [apply vs_take|by apply vs_complete]. Qed.

Definition singles (o : Own) : Prop := Forall (fun c => exists i, c = [i]) (in_flight o).

Lemma singles_perm o o' : in_flight o' ≡ₚ in_flight o -> singles o -> singles o'.
Proof. unfold singles. by intros ->. Qed.

(** What turns of the device keep. *)
Lemma dev_steps_frame maxlen s s' : rtc (dev_step maxlen) s s' -> vq_proto s.1 s.2 ->
  vq_proto s'.1 s'.2 /\ o_held s'.2 = o_held s.2 /\ in_flight s'.2 ≡ₚ in_flight s.2 /\ vq_desc s'.1 = vq_desc s.1 /\ vq_num s'.1 = vq_num s.1.
Proof.
  induction 1 as [s|s s1 s2 H1 H2 IH]; intros HP; [by split_and!|].
  destruct IH as (A1 & A2 & A3 & A4 & A5); [by eapply vq_step_proto, HP; eapply dev_step_vq|]. rewrite A2, A3, A4, A5. split; [done|].
  destruct H1 as [q c h p t d|q len c h p t t' d Ht Hl]; cbn; split_and!; try done; unfold in_flight; cbn; [by rewrite <- Permutation_middle|].
  rewrite Ht. solve_Permutation.
Qed.

Lemma push_avail_idx q h q' : push_avail h q = Some (tt, q') -> vq_num q <> 0 -> av_idx (vq_avail q') = wrap 16 (av_idx (vq_avail q) + 1).
Proof. intros E Hn. rewrite push_avail_run in E by done. by injection E as <-. Qed.

Lemma at_pos_push pos q q' h p t d h' c : at_pos pos q (mkOwn h p t d) -> av_idx (vq_avail q') = wrap 16 (av_idx (vq_avail q) + 1) ->
  at_pos pos q' (mkOwn h' (p ++ [c]) t d).
Proof.
  intros [Hp Ha] Ha'. split; [done|]. rewrite Ha', Ha. cbn. rewrite length_app. cbn. unfold wrap. rewrite Zplus_mod_idemp_l. f_equal. lia.
Qed.

(** The oldest completed request is popped and its descriptors are freed. *)
Lemma proto_reap q p t c d : vq_proto q (mkOwn [] p t (c :: d)) ->
  exists len q1 q2, pop_used q = Some (Some (head_of c, len), q1) /\ free_chain (head_of c) q1 = Some (tt, q2) /\
    vq_proto q2 (mkOwn [] p t d) /\ vq_num q2 = vq_num q /\ vq_avail q2 = vq_avail q.
Proof.
  intros HP. destruct (proto_pop _ _ _ _ _ HP) as [len E1]. pose proof (proto_reaped _ _ _ _ _ _ HP) as H1.
  pose proof (pr_inv _ _ HP) as [free0 Hi0]. pose proof (inv_chains _ _ _ _ Hi0) as Hc. unfold in_flight in Hc. cbn in Hc.
  rewrite !Forall_app, Forall_cons in Hc. destruct Hc as (_ & _ & Hc & _).
  pose proof (pr_inv _ _ H1) as [free1 Hi1]. cbn [o_held] in Hi1.
  destruct (free_chain_inv c _ free1 [] (in_flight (mkOwn (c ++ []) p t d)) Hi1 Hc) as (q2 & E2 & H2 & Ha & Hu & Hl & Hn).
  exists len, (set_last_used (wrap 16 (vq_last_used_idx q + 1)) q), q2. split_and!; [done|done| |done|done].
  eapply (proto_windows _ _ _ [] p t d H1); [done|done|by eexists|done..].
Qed.

(** The first free descriptor is taken, written and posted. *)
Lemma proto_post_at q i free p t d x : vq_proto q (mkOwn [] p t d) -> vq_inv q (i :: free) [] (in_flight (mkOwn [] p t d)) -> has_next x = false ->
  exists q1 q2 q3, alloc_desc q = Some (Some i, q1) /\ write_desc i x q1 = Some (tt, q2) /\ push_avail i q2 = Some (tt, q3) /\
    vq_proto q3 (mkOwn [] (p ++ [[i]]) t d) /\ vq_inv q3 free [] (in_flight (mkOwn [] (p ++ [[i]]) t d)) /\ vq_num q3 = vq_num q /\ vq_num q1 = vq_num q /\
    av_idx (vq_avail q3) = wrap 16 (av_idx (vq_avail q) + 1) /\ vq_desc q3 = <[Z.to_nat i := x]> (vq_desc q).
Proof.
  intros HP Hi Hx. destruct (alloc_desc_inv _ _ _ _ _ Hi) as (q1 & E1 & H1 & Hd1 & Ha1 & Hu1 & Hl1 & Hn1).
  assert (HP1 : vq_proto q1 (mkOwn [i] p t d)) by (eapply (proto_windows _ _ _ [i] p t d HP); [done|done|by eexists|done..]).
  destruct (write_desc_inv q1 i x _ _ _ H1 ltac:(set_solver)) as [E2 H2]. set (q2 := set_desc i x q1) in *.
  assert (HP2 : vq_proto q2 (mkOwn [i] p t d)) by (eapply (proto_windows _ _ _ [i] p t d HP1); [done|done|by eexists|done..]).
  assert (Hc : req_chain (vq_desc q2) [i]).
  { exists x. split; [|done]. apply list_lookup_insert_eq. pose proof (owned_range H1 i ltac:(set_solver)). rewrite (inv_desc _ _ _ _ H1). lia. }
  destruct (proto_push _ _ _ _ _ _ _ HP2 (reflexivity [i]) Hc) as (q3 & E3 & H3). exists q1, q2, q3. pose proof (inv_num _ _ _ _ H2).
  destruct (push_avail_inv _ i _ _ _ H2) as (q3' & E3' & H3' & Hd3 & _ & _ & Hn3). change (head_of [i]) with i in E3. rewrite E3 in E3'. injection E3' as <-.
  split_and!; try done.
  - eapply regroup; [exact H3'| |].
    + unfold in_flight. cbn. rewrite !concat_app. cbn. solve_Permutation.
    + pose proof (inv_chains _ _ _ _ H3') as Hf. rewrite <- Hd3 in Hc. unfold in_flight in *. cbn in *. rewrite !Forall_app in *. rewrite Forall_singleton. naive_solver.
  - etrans; [exact Hn3|exact Hn1].
  - rewrite (push_avail_idx _ _ _ E3) by lia. cbn. by rewrite Ha1.
  - rewrite Hd3. cbn. by rewrite Hd1.
Qed.

(** A single descriptor is taken from the free list, written and posted. *)
Lemma proto_post q p t d x : vq_proto q (mkOwn [] p t d) -> has_next x = false ->
  alloc_desc q = Some (None, q) \/
  exists i q1 q2 q3, alloc_desc q = Some (Some i, q1) /\ write_desc i x q1 = Some (tt, q2) /\ push_avail i q2 = Some (tt, q3) /\
    vq_proto q3 (mkOwn [] (p ++ [[i]]) t d) /\ vq_num q3 = vq_num q /\ vq_num q1 = vq_num q /\
    av_idx (vq_avail q3) = wrap 16 (av_idx (vq_avail q) + 1).
Proof.
  intros HP Hx. pose proof (pr_inv _ _ HP) as [[|i free] Hi]; [left; by eapply alloc_desc_none|right].
  destruct (proto_post_at _ _ _ _ _ _ _ HP Hi Hx) as (q1 & q2 & q3 & H). exists i, q1, q2, q3. naive_solver.
Qed.

(** The oldest completed request, of one descriptor, is popped and posted again. *)
Lemma proto_recycle q i p t d : vq_proto q (mkOwn [] p t ([i] :: d)) ->
  exists len q1 q2, pop_used q = Some (Some (i, len), q1) /\ push_avail i q1 = Some (tt, q2) /\ vq_proto q2 (mkOwn [] (p ++ [[i]]) t d) /\
    vq_num q2 = vq_num q /\ vq_desc q2 = vq_desc q /\ av_idx (vq_avail q2) = wrap 16 (av_idx (vq_avail q) + 1).
Proof.
  intros HP. destruct (proto_pop _ _ _ _ _ HP) as [len E1]. pose proof (proto_reaped _ _ _ _ _ _ HP) as H1.
  set (q1 := set_last_used _ q) in *. exists len, q1. pose proof (pr_inv _ _ HP) as [free0 Hi0]. pose proof (inv_chains _ _ _ _ Hi0) as Hc.
  unfold in_flight in Hc. cbn in Hc. rewrite !Forall_app, Forall_cons in Hc. destruct Hc as (_ & _ & Hc & _).
  destruct (proto_push q1 [i] ([i] ++ []) [] p t d H1 (reflexivity _) Hc) as (q2 & E2 & H2). exists q2.
  pose proof (pr_inv _ _ H1) as [free Hi]. pose proof (inv_num _ _ _ _ Hi).
  destruct (push_avail_inv _ i _ _ _ Hi) as (q2' & E2' & _ & Hd & _ & _ & Hn). change (head_of [i]) with i in E2. rewrite E2 in E2'. injection E2' as <-.
  split_and!; try done. by rewrite (push_avail_idx _ _ _ E2) by lia.
Qed.

(** A descriptor the driver holds is written again and posted. *)
Lemma proto_repost q i h p t d x : vq_proto q (mkOwn (i :: h) p t d) -> has_next x = false ->
  exists q1 q2, write_desc i x q = Some (tt, q1) /\ push_avail i q1 = Some (tt, q2) /\ vq_proto q2 (mkOwn h (p ++ [[i]]) t d) /\
    vq_num q2 = vq_num q /\ vq_used q2 = vq_used q /\ vq_last_used_idx q2 = vq_last_used_idx q /\
    av_idx (vq_avail q2) = wrap 16 (av_idx (vq_avail q) + 1).
Proof.
  intros HP Hx. pose proof (pr_inv _ _ HP) as [free Hi]. cbn [o_held] in Hi.
  destruct (write_desc_inv q i x _ _ _ Hi ltac:(set_solver)) as [E1 H1]. set (q1 := set_desc i x q) in *.
  assert (HP1 : vq_proto q1 (mkOwn (i :: h) p t d)) by (eapply (proto_windows _ _ _ (i :: h) p t d HP); [done|done|by eexists|done..]).
  assert (Hc : req_chain (vq_desc q1) [i]).
  { exists x. split; [|done]. apply list_lookup_insert_eq. pose proof (owned_range Hi i ltac:(set_solver)). rewrite (inv_desc _ _ _ _ Hi). lia. }
  destruct (proto_push _ _ _ h _ _ _ HP1 (reflexivity (i :: h)) Hc) as (q2 & E2 & H2). exists q1, q2.
  destruct (push_avail_inv _ i _ _ _ H1) as (q2' & E2' & _ & _ & Hu & Hl & Hn). change (head_of [i]) with i in E2.
  rewrite E2 in E2'. injection E2' as <-. pose proof (inv_num _ _ _ _ H1).
  split_and!; [done..|exact Hn|exact Hu|exact Hl|by rewrite (push_avail_idx _ _ _ E2) by lia].
Qed.

(** The device finds the oldest posted request at its position. *)
Lemma next_request pos q o : vq_proto q o -> at_pos pos q o -> av_idx (vq_avail q) <> pos ->
  exists c p, o_posted o = c :: p /\ av_ring (vq_avail q) !! Z.to_nat (pos mod vq_num q) = Some (head_of c).
Proof.
  intros HP [Hp Ha] Hne. destruct (o_posted o) as [|c p] eqn:E.
  { destruct Hne. rewrite Ha. cbn. rewrite Z.add_0_r. by apply wrap_small, fits_spec. }
  exists c, p. split; [done|]. rewrite <- (pr_avail _ _ HP O c) by (by rewrite E). pose proof (pr_inv _ _ HP) as [free Hi].
  pose proof (inv_num _ _ _ _ Hi). do 2 f_equal. rewrite E, Ha, Z.add_0_r, <- Z.add_opp_r, wrap_slot_add by (lia || apply (pr_div _ _ HP)). f_equal. lia.
Qed.

(** Taking and completing it. *)
Lemma serve_request pos q o c p maxlen len : vq_proto q o -> at_pos pos q o -> o_posted o = c :: p -> 0 <= len <= maxlen ->
  rtc (dev_step maxlen) (q, o) (device_complete (head_of c) len q, mkOwn (o_held o) p (o_taken o) (o_done o ++ [c])) /\
  at_pos (wrap 16 (pos + 1)) (device_complete (head_of c) len q) (mkOwn (o_held o) p (o_taken o) (o_done o ++ [c])).
Proof.
  intros HP [Hp Ha] E Hl. destruct o as [h p0 t d]. cbn in *. subst p0. split.
  - eapply rtc_l; [apply ds_take|]. eapply rtc_l; [by apply (ds_complete _ _ len c _ _ _ t)|]. apply rtc_refl.
  - split; [apply wrap16_range|]. cbn. rewrite Ha. cbn. unfold wrap. rewrite Zplus_mod_idemp_l. f_equal. lia.
Qed.
