(* ===== verification/Gic.v ===== *)
(** * The interrupt controller and the timer

    Models [xous/kernel/src/platform/qemu_virt/gic.rs] and [timer.rs]: the
    initialisation of the GICv3 distributor and redistributor, enabling and
    disabling of interrupts, and the tick counter.  The accesses to the CPU
    interface and to the timer, which are system registers, are not modelled. *)

From S2P Require Import Prelude Memory PageTable Virtio.
From Stdlib Require Import ZArith Lia Bool.
From stdpp Require Import list.
Open Scope Z_scope.

Definition GICD_CTLR : Z := 0.
Definition GICD_TYPER : Z := 4.
Definition GICD_IGROUPR : Z := 128.
Definition GICD_ISENABLER : Z := 256.
Definition GICD_ICENABLER : Z := 384.
Definition GICD_ICPENDR : Z := 640.
Definition GICD_IPRIORITYR : Z := 1024.
Definition CTLR_ENABLE_GRP0 : Z := 1.
Definition CTLR_ENABLE_GRP1_NS : Z := 2.
Definition CTLR_ARE_S : Z := 16.
Definition GICR_WAKER : Z := 20.
Definition GICR_IGROUPR0 : Z := 65664. (* 0x10080 *)
Definition GICR_ISENABLER0 : Z := 65792. (* 0x10100 *)
Definition GICR_ICENABLER0 : Z := 65920. (* 0x10180 *)
Definition GICR_IPRIORITYR : Z := 66560. (* 0x10400 *)
Definition WAKER_PROCESSOR_SLEEP : Z := 2.
Definition WAKER_CHILDREN_ASLEEP : Z := 4.
Definition ALL_ONES : Z := 2 ^ 32 - 1.
Definition PRIO_A0 : Z := 2694881440. (* 0xA0A0_A0A0 *)
Definition TIMER_IRQ : Z := 30.
Definition IRQ_SPURIOUS : Z := 1023.

Section Controller.
Variable answer : Bus -> Z -> Z.

(** [GICD_BASE] and [GICR_BASE] *)
Variables gicd_base gicr_base : Z.

Definition gicd_read (offset : Z) : M Bus Z := read_reg answer gicd_base offset.
Definition gicd_write (offset val : Z) : M Bus unit := write_reg gicd_base offset val.
Definition gicr_read (offset : Z) : M Bus Z := read_reg answer gicr_base offset.
Definition gicr_write (offset val : Z) : M Bus unit := write_reg gicr_base offset val.

Fixpoint for_each {A} (l : list A) (f : A -> M Bus unit) : M Bus unit :=
  match l with [] => ret tt | x :: l => _ <- f x ;; for_each l f end.

(** [i = from, from + step, ..] while [i < to] *)
Definition steps_to (from step to : Z) : list Z := (fun k => from + step * k) <$> zrange 0 ((to - from + step - 1) / step).

Definition init_distributor : M Bus unit :=
  _ <- gicd_write GICD_CTLR 0 ;;
  typer <- gicd_read GICD_TYPER ;;
  let num_irqs := (Z.land typer 31 + 1) * 32 in
  _ <- for_each (steps_to 32 32 num_irqs) (fun i =>
         let reg_idx := i / 32 in
         _ <- gicd_write (GICD_IGROUPR + reg_idx * 4) ALL_ONES ;;
         _ <- gicd_write (GICD_ICENABLER + reg_idx * 4) ALL_ONES ;;
         gicd_write (GICD_ICPENDR + reg_idx * 4) ALL_ONES) ;;
  _ <- for_each (steps_to 32 4 num_irqs) (fun i => gicd_write (GICD_IPRIORITYR + i) PRIO_A0) ;;
  gicd_write GICD_CTLR (Z.lor (Z.lor CTLR_ENABLE_GRP0 CTLR_ENABLE_GRP1_NS) CTLR_ARE_S).

(** The wait for [ChildrenAsleep] to clear, for at most [fuel] reads. *)
Fixpoint wait_awake (fuel : nat) : M Bus unit :=
  match fuel with
  | O => panic
  | S fuel =>
      w <- gicr_read GICR_WAKER ;;
      if negb (Z.land w WAKER_CHILDREN_ASLEEP =? 0) then wait_awake fuel else ret tt
  end.

Definition init_redistributor (fuel : nat) : M Bus unit :=
  waker <- gicr_read GICR_WAKER ;;
  _ <- gicr_write GICR_WAKER (Z.ldiff waker WAKER_PROCESSOR_SLEEP) ;;
  _ <- wait_awake fuel ;;
  _ <- gicr_write GICR_IGROUPR0 ALL_ONES ;;
  _ <- gicr_write GICR_ICENABLER0 ALL_ONES ;;
  for_each (steps_to 0 4 32) (fun i => gicr_write (GICR_IPRIORITYR + i * 1) PRIO_A0).

Definition gic_init (fuel : nat) : M Bus unit := _ <- init_distributor ;; init_redistributor fuel.

Definition enable_irq (irq : Z) : M Bus unit :=
  if irq <? 32 then gicr_write GICR_ISENABLER0 (Z.shiftl 1 irq)
  else gicd_write (GICD_ISENABLER + irq / 32 * 4) (Z.shiftl 1 (irq mod 32)).

Definition disable_irq (irq : Z) : M Bus unit :=
  if irq <? 32 then gicr_write GICR_ICENABLER0 (Z.shiftl 1 irq)
  else gicd_write (GICD_ICENABLER + irq / 32 * 4) (Z.shiftl 1 (irq mod 32)).

(** ** The set of enabled interrupts

    What the controller makes of the writes (GIC architecture, ISENABLER and
    ICENABLER): bit [b] of register [n] belongs to interrupt [32 n + b]; those
    below 32 are the redistributor's. *)

Definition enable_reg (irq : Z) : Z := if irq <? 32 then gicr_base + GICR_ISENABLER0 else gicd_base + (GICD_ISENABLER + irq / 32 * 4).
Definition clear_reg (irq : Z) : Z := if irq <? 32 then gicr_base + GICR_ICENABLER0 else gicd_base + (GICD_ICENABLER + irq / 32 * 4).

Fixpoint enabled (h : Bus) (irq : Z) : bool :=
  match h with
  | [] => false
  | Wr a v :: h =>
      if (a =? enable_reg irq) && Z.testbit v (irq mod 32) then true
      else if (a =? clear_reg irq) && Z.testbit v (irq mod 32) then false
      else enabled h irq
  | Rd _ _ :: h => enabled h irq
  end.

End Controller.

(** ** The tick counter *)

Definition TICK_RATE_HZ : Z := 100.
Record Timer := mkTimer { timer_freq : Z; tick_interval : Z; tick_count : Z; timer_value : Z }.

(** [timer::init] with the counter frequency [freq]; [timer_value] is the
    deadline register. *)
Definition timer_init (freq : Z) : Timer := mkTimer freq (freq / TICK_RATE_HZ) 0 (freq / TICK_RATE_HZ).

Definition handle_tick : M Timer Z :=
  n <- gets tick_count ;;
  count <- add64 n 1 ;;
  _ <- modify (fun t => mkTimer (timer_freq t) (tick_interval t) count (tick_interval t)) ;;
  ret count.

(** ** Correctness *)

Lemma for_each_inv {A} (P : Bus -> Prop) (l : list A) f h :
  (forall x h, x ∈ l -> P h -> exists h', f x h = Some (tt, h') /\ P h') -> P h -> exists h', for_each l f h = Some (tt, h') /\ P h'.
Proof.
  revert h. induction l as [|x l IH]; intros h Hf HP; [by exists h|]. cbn [for_each].
  destruct (Hf x h ltac:(set_solver) HP) as (h1 & E1 & H1). rewrite (bind_run _ _ _ _ _ E1). apply IH; [|done].
  intros y h2 Hy. apply Hf. set_solver.
Qed.

(** A property that one of the rounds brings about and the others keep. *)
Lemma for_each_hit (Q : Bus -> Prop) (l : list Z) f h x0 : x0 ∈ l ->
  (forall h, exists h', f x0 h = Some (tt, h') /\ Q h') -> (forall x h, x ∈ l -> exists h', f x h = Some (tt, h')) ->
  (forall x h, x ∈ l -> Q h -> exists h', f x h = Some (tt, h') /\ Q h') -> exists h', for_each l f h = Some (tt, h') /\ Q h'.
Proof.
  intros Hx H0 Hr Hq. revert h. induction l as [|x l IH]; intros h; [set_solver|]. cbn [for_each].
  destruct (decide (x = x0)) as [->|Hne].
  - destruct (H0 h) as (h1 & E1 & H1). rewrite (bind_run _ _ _ _ _ E1). apply for_each_inv; [|done]. intros y h2 Hy. apply Hq. set_solver.
  - destruct (Hr x h ltac:(set_solver)) as (h1 & E1). rewrite (bind_run _ _ _ _ _ E1). apply IH; [set_solver| |].
    + intros y h2 Hy. apply Hr. set_solver.
    + intros y h2 Hy. apply Hq. set_solver.
Qed.

Lemma steps_to_elem from step to x : 0 < step -> x ∈ steps_to from step to -> from <= x < to /\ (x - from) mod step = 0.
Proof.
  intros Hs Hx. unfold steps_to in Hx. rewrite zrange_seqZ in Hx. apply list_elem_of_fmap in Hx as (k & -> & Hk).
  apply elem_of_seqZ in Hk. pose proof (Z.div_mod (to - from + step - 1) step). pose proof (Z.mod_pos_bound (to - from + step - 1) step).
  split; [nia|]. replace (from + step * k - from) with (k * step) by lia. apply Z.mod_mul. lia.
Qed.

Lemma elem_steps_to from step to k : 0 < step -> 0 <= k -> from + step * k < to -> from + step * k ∈ steps_to from step to.
Proof.
  intros Hs Hk Hlt. unfold steps_to. rewrite zrange_seqZ. apply list_elem_of_fmap. exists k. split; [done|]. apply elem_of_seqZ.
  pose proof (Z.div_mod (to - from + step - 1) step). pose proof (Z.mod_pos_bound (to - from + step - 1) step). nia.
Qed.

Section Enabling.
Variable answer : Bus -> Z -> Z.
Variables gicd gicr : Z.
Hypothesis Hgicd : 0 <= gicd /\ gicd + 65536 <= gicr /\ gicr + 131072 <= 2 ^ 64.

Notation enabled := (enabled gicd gicr).

Lemma gicd_write_run off v h : off < 65536 -> gicd_write gicd off v h = Some (tt, Wr (gicd + off) v :: h).
Proof. intros H. apply write_reg_run. lia. Qed.
Lemma gicr_write_run off v h : off < 131072 -> gicr_write gicr off v h = Some (tt, Wr (gicr + off) v :: h).
Proof. intros H. apply write_reg_run. lia. Qed.
Lemma gicd_read_run off h : off < 65536 -> exists v, gicd_read answer gicd off h = Some (v, Rd (gicd + off) v :: h) /\ 0 <= v < 2 ^ 32.
Proof. intros H. unfold gicd_read. rewrite read_reg_run by lia. eexists. split; [done|]. unfold wrap. apply Z.mod_pos_bound. lia. Qed.

(** A write to another register does not matter. *)
Lemma enabled_other a v h irq : a <> enable_reg gicd gicr irq -> a <> clear_reg gicd gicr irq -> enabled (Wr a v :: h) irq = enabled h irq.
Proof. intros H1 H2. cbn. by rewrite (proj2 (Z.eqb_neq _ _) H1), (proj2 (Z.eqb_neq _ _) H2). Qed.

Lemma reg_ranges irq : 0 <= irq < 1024 -> (irq < 32 /\ enable_reg gicd gicr irq = gicr + 65792 /\ clear_reg gicd gicr irq = gicr + 65920) \/
  (32 <= irq /\ enable_reg gicd gicr irq = gicd + (256 + irq / 32 * 4) /\ clear_reg gicd gicr irq = gicd + (384 + irq / 32 * 4) /\ 1 <= irq / 32 <= 31).
Proof.
  intros Hi. unfold enable_reg, clear_reg, GICR_ISENABLER0, GICR_ICENABLER0, GICD_ISENABLER, GICD_ICENABLER.
  destruct (Z.ltb_spec irq 32); [left; split_and!; [lia|done..]|right]. split_and!; [lia|done|done| |].
  - apply Z.div_le_lower_bound; lia.
  - apply Z.lt_succ_r, Z.div_lt_upper_bound; lia.
Qed.

Lemma testbit_one_bit b i : 0 <= b -> 0 <= i -> Z.testbit (Z.shiftl 1 b) i = (i =? b).
Proof.
  intros Hb Hi. rewrite Z.shiftl_spec by done. destruct (Z.eqb_spec i b) as [->|Hne]; [by rewrite Z.sub_diag|].
  destruct (Z.ltb_spec (i - b) 0); [by apply Z.testbit_neg_r|]. apply (Z.bits_above_log2 1); [lia|]. change (Z.log2 1) with 0. lia.
Qed.

(** Register and bit together name the interrupt. *)
Lemma enable_bit i j : 0 <= i < 1024 -> 0 <= j < 1024 ->
  (enable_reg gicd gicr i =? enable_reg gicd gicr j) && Z.testbit (Z.shiftl 1 (i mod 32)) (j mod 32) = (j =? i) /\
  (clear_reg gicd gicr i =? clear_reg gicd gicr j) && Z.testbit (Z.shiftl 1 (i mod 32)) (j mod 32) = (j =? i) /\
  (enable_reg gicd gicr i =? clear_reg gicd gicr j) = false /\ (clear_reg gicd gicr i =? enable_reg gicd gicr j) = false.
Proof.
  intros Hi Hj. pose proof (Z.div_mod i 32 ltac:(lia)). pose proof (Z.div_mod j 32 ltac:(lia)).
  pose proof (Z.mod_pos_bound i 32 ltac:(lia)). pose proof (Z.mod_pos_bound j 32 ltac:(lia)).
  rewrite testbit_one_bit by lia.
  destruct (reg_ranges i Hi) as [(? & -> & ->)|(? & -> & -> & ?)]; destruct (reg_ranges j Hj) as [(? & -> & ->)|(? & -> & -> & ?)];
    split_and!; rewrite ?andb_true_iff; apply Bool.eq_true_iff_eq || idtac;
    rewrite ?andb_true_iff, ?Z.eqb_eq, ?Z.eqb_neq; lia.
Qed.

(** Enabling adds one interrupt to the set, disabling removes one. *)
Lemma enable_irq_exact irq h : 0 <= irq < 1024 ->
  exists h', enable_irq gicd gicr irq h = Some (tt, h') /\ forall j, 0 <= j < 1024 -> enabled h' j = (j =? irq) || enabled h j.
Proof.
  intros Hi. exists (Wr (enable_reg gicd gicr irq) (Z.shiftl 1 (irq mod 32)) :: h). split.
  - unfold enable_irq, enable_reg. destruct (reg_ranges irq Hi) as [(Hl & _)|(Hl & _ & _ & ?)].
    + rewrite (proj2 (Z.ltb_lt _ _) Hl), gicr_write_run by (unfold GICR_ISENABLER0; lia). by rewrite Z.mod_small by lia.
    + rewrite (proj2 (Z.ltb_ge _ _) Hl), gicd_write_run by (unfold GICD_ISENABLER; lia). done.
  - intros j Hj. cbn. destruct (enable_bit irq j Hi Hj) as (-> & _ & -> & _). cbn. by destruct (j =? irq).
Qed.

Lemma disable_irq_exact irq h : 0 <= irq < 1024 ->
  exists h', disable_irq gicd gicr irq h = Some (tt, h') /\ forall j, 0 <= j < 1024 -> enabled h' j = negb (j =? irq) && enabled h j.
Proof.
  intros Hi. exists (Wr (clear_reg gicd gicr irq) (Z.shiftl 1 (irq mod 32)) :: h). split.
  - unfold disable_irq, clear_reg. destruct (reg_ranges irq Hi) as [(Hl & _)|(Hl & _ & _ & ?)].
    + rewrite (proj2 (Z.ltb_lt _ _) Hl), gicr_write_run by (unfold GICR_ICENABLER0; lia). by rewrite Z.mod_small by lia.
    + rewrite (proj2 (Z.ltb_ge _ _) Hl), gicd_write_run by (unfold GICD_ICENABLER; lia). done.
  - intros j Hj. cbn. destruct (enable_bit irq j Hi Hj) as (_ & -> & _ & ->). cbn. by destruct (j =? irq).
Qed.

(** The reads of the wake register so far. *)
Fixpoint waker_reads (h : Bus) : nat :=
  match h with
  | [] => 0
  | Rd a _ :: h => (if a =? gicr + GICR_WAKER then 1 else 0) + waker_reads h
  | Wr _ _ :: h => waker_reads h
  end.

(** The redistributor is awake after at most [n] reads of its wake register. *)
Definition wakes_after (n : nat) : Prop :=
  forall h, (n <= waker_reads h)%nat -> Z.land (wrap 32 (answer h (gicr + GICR_WAKER))) WAKER_CHILDREN_ASLEEP = 0.

Lemma wait_awake_run n fuel (P : Bus -> Prop) h : wakes_after n -> (n < fuel + waker_reads h)%nat -> (0 < fuel)%nat ->
  (forall h v, P h -> P (Rd (gicr + GICR_WAKER) v :: h)) -> P h -> exists h', wait_awake answer gicr fuel h = Some (tt, h') /\ P h'.
Proof.
  intros Hw. revert h. induction fuel as [|fuel IH]; intros h Hf Hp HP H0; [lia|]. cbn [wait_awake]. unfold gicr_read.
  erewrite bind_run by (apply read_reg_run; unfold GICR_WAKER; lia).
  destruct (Z.eqb_spec (Z.land (wrap 32 (answer h (gicr + GICR_WAKER))) WAKER_CHILDREN_ASLEEP) 0) as [E|E].
  - eexists. split; [done|]. by apply HP.
  - assert (Hlt : (waker_reads h < n)%nat) by (destruct (Nat.lt_ge_cases (waker_reads h) n); [done|exfalso; apply E, Hw; lia]).
    cbn [negb]. apply IH; [|lia|done|by apply HP]. cbn. rewrite Z.eqb_refl. lia.
Qed.

(** The number of interrupts the distributor reports, when it is asked after
    the accesses [h]. *)
Definition num_irqs (h : Bus) : Z := (Z.land (wrap 32 (answer h (gicd + GICD_TYPER))) 31 + 1) * 32.

Lemma num_irqs_bound h : num_irqs h <= 1024.
Proof.
  unfold num_irqs. change 31 with (Z.ones 5). rewrite Z.land_ones by lia. pose proof (Z.mod_pos_bound (wrap 32 (answer h (gicd + GICD_TYPER))) (2 ^ 5)). lia.
Qed.

Definition clear_round (i : Z) : M Bus unit :=
  _ <- gicd_write gicd (GICD_IGROUPR + i / 32 * 4) ALL_ONES ;;
  _ <- gicd_write gicd (GICD_ICENABLER + i / 32 * 4) ALL_ONES ;;
  gicd_write gicd (GICD_ICPENDR + i / 32 * 4) ALL_ONES.

Lemma clear_round_run i h : 32 <= i < 1024 -> 1 <= i / 32 <= 31 /\
  clear_round i h = Some (tt, Wr (gicd + (640 + i / 32 * 4)) ALL_ONES :: Wr (gicd + (384 + i / 32 * 4)) ALL_ONES ::
    Wr (gicd + (128 + i / 32 * 4)) ALL_ONES :: h).
Proof.
  intros Hr. assert (Hd : 1 <= i / 32 <= 31) by (split; [apply Z.div_le_lower_bound; lia|apply Z.lt_succ_r, Z.div_lt_upper_bound; lia]).
  split; [done|]. unfold clear_round, GICD_IGROUPR, GICD_ICENABLER, GICD_ICPENDR.
  do 2 erewrite bind_run by (apply gicd_write_run; lia). apply gicd_write_run. lia.
Qed.

(** A round disables the 32 interrupts of its register and enables none. *)
Lemma clear_round_enabled i irq h h' : 32 <= i < 1024 -> 0 <= irq < 1024 -> clear_round i h = Some (tt, h') ->
  enabled h' irq = negb (i / 32 =? irq / 32) && enabled h irq.
Proof.
  intros Hi Hq. destruct (clear_round_run i h Hi) as [Hd ->]. intros [= <-]. pose proof (Z.mod_pos_bound irq 32 ltac:(lia)).
  assert (Hb : Z.testbit ALL_ONES (irq mod 32) = true) by (change ALL_ONES with (Z.ones 32); apply Z.ones_spec_low; lia).
  destruct (reg_ranges irq Hq) as [(Hl & He & Hc)|(Hl & He & Hc & Hk)].
  - rewrite !enabled_other by lia. rewrite (proj2 (Z.eqb_neq (i / 32) _)); [done|]. rewrite (Z.div_small irq) by lia. lia.
  - rewrite enabled_other by lia. cbn [Gic.enabled]. rewrite He, Hc, !(proj2 (Z.eqb_neq (gicd + (384 + _)) (gicd + (256 + _)))) by lia.
    rewrite Hb, andb_true_r. cbn [andb]. rewrite !(proj2 (Z.eqb_neq (gicd + (128 + _)) _)) by lia. cbn [andb].
    destruct (Z.eqb_spec (i / 32) (irq / 32)) as [->|Hne]; [by rewrite Z.eqb_refl|]. by rewrite (proj2 (Z.eqb_neq _ _)) by lia.
Qed.

Lemma clear_loop num irq h : num <= 1024 -> 0 <= irq < 1024 ->
  exists h', for_each (steps_to 32 32 num) clear_round h = Some (tt, h') /\ (32 <= irq < num -> enabled h' irq = false).
Proof.
  intros Hn Hi. assert (Hr : forall x, x ∈ steps_to 32 32 num -> forall h, exists h', clear_round x h = Some (tt, h')).
  { intros x Hx h1. apply steps_to_elem in Hx; [|lia]. destruct (clear_round_run x h1) as [_ ->]; [lia|]. eauto. }
  destruct (decide (32 <= irq < num)) as [Hin|Hout].
  - pose proof (Z.div_mod irq 32 ltac:(lia)). pose proof (Z.mod_pos_bound irq 32 ltac:(lia)).
    set (x0 := 32 + 32 * (irq / 32 - 1)). assert (Hx0 : x0 ∈ steps_to 32 32 num).
    { assert (1 <= irq / 32) by (apply Z.div_le_lower_bound; lia). apply elem_steps_to; lia. }
    assert (Hq : x0 / 32 = irq / 32) by (unfold x0; replace (32 + 32 * (irq / 32 - 1)) with (irq / 32 * 32) by lia; by rewrite Z.div_mul).
    pose proof (proj1 (steps_to_elem 32 32 num x0 ltac:(lia) Hx0)) as Hb.
    edestruct (for_each_hit (fun h => enabled h irq = false) (steps_to 32 32 num) clear_round h x0 Hx0) as (h2 & E2 & H2); [| | |eauto].
    + intros h1. destruct (Hr x0 Hx0 h1) as (h2 & E2). exists h2. split; [done|].
      rewrite (clear_round_enabled x0 irq h1 h2 ltac:(lia) Hi E2). by rewrite Hq, Z.eqb_refl.
    + intros x h1 Hx. by apply Hr.
    + intros x h1 Hx H1. destruct (Hr x Hx h1) as (h2 & E2). exists h2. split; [done|]. apply steps_to_elem in Hx; [|lia].
      rewrite (clear_round_enabled x irq h1 h2 ltac:(lia) Hi E2), H1. apply andb_false_r.
  - edestruct (for_each_inv (fun _ => True) (steps_to 32 32 num) clear_round h) as (h2 & E2 & _); [|done|].
    + intros x h1 Hx _. destruct (Hr x Hx h1) as (h2 & E2). eauto.
    + exists h2. split; [done|]. lia.
Qed.

Lemma init_distributor_disables h irq : 0 <= irq < 1024 ->
  exists h', init_distributor answer gicd h = Some (tt, h') /\
    (32 <= irq < num_irqs (Wr (gicd + GICD_CTLR) 0 :: h) -> enabled h' irq = false).
Proof.
  intros Hi. unfold init_distributor. erewrite bind_run by (apply gicd_write_run; unfold GICD_CTLR; lia).
  unfold gicd_read. erewrite bind_run by (apply read_reg_run; unfold GICD_TYPER; lia). fold (num_irqs (Wr (gicd + GICD_CTLR) 0 :: h)).
  pose proof (num_irqs_bound (Wr (gicd + GICD_CTLR) 0 :: h)) as Hn. set (num := num_irqs _) in *. set (h1 := Rd _ _ :: _).
  destruct (clear_loop num irq h1 Hn Hi) as (h2 & E2 & H2). unfold clear_round in E2. rewrite (bind_run _ _ _ _ _ E2).
  edestruct (for_each_inv (fun h => 32 <= irq < num -> enabled h irq = false) (steps_to 32 4 num)
    (fun i => gicd_write gicd (GICD_IPRIORITYR + i) PRIO_A0) h2) as (h3 & E3 & H3); [|done|].
  { intros x h3 Hx H3. apply steps_to_elem in Hx; [|lia]. unfold GICD_IPRIORITYR. rewrite gicd_write_run by lia.
    eexists. split; [done|]. intros Hin. pose proof (reg_ranges irq Hi) as [|(_ & He & Hc & Hd)]; [lia|].
    rewrite enabled_other by lia. auto. }
  rewrite (bind_run _ _ _ _ _ E3), gicd_write_run by (unfold GICD_CTLR; lia). eexists. split; [done|]. intros Hin.
  pose proof (reg_ranges irq Hi) as [|(_ & He & Hc & Hd)]; [lia|]. unfold GICD_CTLR. rewrite enabled_other by lia. auto.
Qed.

Lemma init_redistributor_disables n h irq : wakes_after n -> 0 <= irq < 1024 ->
  exists h', init_redistributor answer gicr (S n) h = Some (tt, h') /\
    ((irq < 32) \/ enabled h irq = false -> enabled h' irq = false).
Proof.
  intros Hw Hi. unfold init_redistributor, gicr_read. erewrite bind_run by (apply read_reg_run; unfold GICR_WAKER; lia).
  erewrite bind_run by (apply gicr_write_run; unfold GICR_WAKER; lia). set (h1 := Wr _ _ :: _).
  destruct (wait_awake_run n (S n) (fun h' => enabled h' irq = enabled h irq) h1 Hw) as (h2 & E2 & H2); [lia|lia|by intros| |].
  { unfold h1. unfold GICR_WAKER. destruct (reg_ranges irq Hi) as [(? & ? & ?)|(? & ? & ? & ?)]; by rewrite enabled_other by lia. }
  rewrite (bind_run _ _ _ _ _ E2). do 2 erewrite bind_run by (apply gicr_write_run; unfold GICR_IGROUPR0, GICR_ICENABLER0; lia).
  set (P h' := irq < 32 \/ enabled h irq = false -> enabled h' irq = false).
  edestruct (for_each_inv P (steps_to 0 4 32) (fun i => gicr_write gicr (GICR_IPRIORITYR + i * 1) PRIO_A0)) as (h3 & E3 & H3); [| |by exists h3].
  - intros x h3 Hx H3. apply steps_to_elem in Hx; [|lia]. unfold GICR_IPRIORITYR. rewrite gicr_write_run by lia.
    eexists. split; [done|]. intros Ho. destruct (reg_ranges irq Hi) as [(? & He & Hc)|(? & He & Hc & ?)]; rewrite enabled_other by lia; auto.
  - intros Ho. unfold GICR_ICENABLER0, GICR_IGROUPR0. destruct (reg_ranges irq Hi) as [(Hl & He & Hc)|(Hl & He & Hc & ?)].
    + cbn [Gic.enabled]. rewrite He, Hc, Z.eqb_refl, (proj2 (Z.eqb_neq (gicr + 65920) _)) by lia. cbn [andb].
      rewrite Z.mod_small by lia. change ALL_ONES with (Z.ones 32). by rewrite Z.ones_spec_low by lia.
    + rewrite !enabled_other by lia. rewrite H2. by destruct Ho; [lia|].
Qed.

End Enabling.

(** The initialisation of the interrupt controller ends once the redistributor
    wakes up and leaves every interrupt disabled that the controller has; from
    then on, enabling an interrupt adds exactly it to the enabled ones and
    disabling removes exactly it, over the whole range of interrupt numbers. *)
Theorem gic_enabled_set answer gicd gicr n h :
  0 <= gicd /\ gicd + 65536 <= gicr /\ gicr + 131072 <= 2 ^ 64 -> wakes_after answer gicr n ->
  (exists h', gic_init answer gicd gicr (S n) h = Some (tt, h') /\
     forall irq, 0 <= irq < num_irqs answer gicd (Wr (gicd + GICD_CTLR) 0 :: h) -> enabled gicd gicr h' irq = false) /\
  (forall irq h1, 0 <= irq < 1024 -> exists h2, enable_irq gicd gicr irq h1 = Some (tt, h2) /\
     forall j, 0 <= j < 1024 -> enabled gicd gicr h2 j = (j =? irq) || enabled gicd gicr h1 j) /\
  (forall irq h1, 0 <= irq < 1024 -> exists h2, disable_irq gicd gicr irq h1 = Some (tt, h2) /\
     forall j, 0 <= j < 1024 -> enabled gicd gicr h2 j = negb (j =? irq) && enabled gicd gicr h1 j).
Proof.
  intros Hg Hw. split_and!; [|intros; by apply enable_irq_exact|intros; by apply disable_irq_exact]. unfold gic_init.
  destruct (init_distributor_disables answer gicd gicr Hg h 0 ltac:(lia)) as (h1 & E1 & _). rewrite (bind_run _ _ _ _ _ E1).
  destruct (init_redistributor_disables answer gicd gicr Hg n h1 0 Hw ltac:(lia)) as (h2 & E2 & _). exists h2. split; [done|].
  intros irq Hi. assert (Hr : 0 <= irq < 1024) by (pose proof (num_irqs_bound answer gicd (Wr (gicd + GICD_CTLR) 0 :: h)); lia).
  destruct (init_distributor_disables answer gicd gicr Hg h irq Hr) as (h1' & E1' & H1).
  destruct (init_redistributor_disables answer gicd gicr Hg n h1 irq Hw Hr) as (h2' & E2' & H2).
  simplify_eq. apply H2. destruct (Z.ltb_spec irq 32); [by left|]. right. apply H1. lia.
Qed.

(** A controller with 64 interrupts that is awake at the first read. *)
Lemma gic_enabled_set_witness :
  let answer := fun _ a => if a =? 2 ^ 27 + GICD_TYPER then 1 else 0 in
  exists h1 h2, gic_init answer (2 ^ 27) (2 ^ 27 + 655360) 1 [] = Some (tt, h1) /\
    enable_irq (2 ^ 27) (2 ^ 27 + 655360) 48 h1 = Some (tt, h2) /\
    (forall j, 0 <= j < 64 -> enabled (2 ^ 27) (2 ^ 27 + 655360) h2 j = (j =? 48)).
Proof.
  intros answer. destruct (gic_enabled_set answer (2 ^ 27) (2 ^ 27 + 655360) 0 []) as ((h1 & E1 & H1) & He & _); [lia|by intros ? ?|].
  destruct (He 48 h1 ltac:(lia)) as (h2 & E2 & H2). exists h1, h2. split_and!; [done..|]. intros j Hj.
  rewrite H2, H1, orb_false_r by (try lia; exact Hj). done.
Defined.
