(* ===== verification/Blk.v ===== *)
(** * The virtio block driver

    Models [xous/kernel/src/platform/qemu_virt/blk.rs]: probing and
    initialisation, and synchronous reads and writes of sectors over one
    virtqueue.

    Memory is a function from physical addresses to bytes; the buffer of the
    queue is apart, as a [Virtqueue].  The device is not
    part of the kernel: [serve] is what it does to its own state, to the used
    ring and to memory between two reads of the used ring by the driver, and
    class [VirtioBlkDevice] states what a virtio block device promises (virtio
    1.2, 2.7 and 5.2.6). *)

From S2P Require Import Prelude Memory PageTable Virtio Gic.
From Stdlib Require Import ZArith Lia Bool.
From stdpp Require Import list.
Open Scope Z_scope.

Definition SECTOR_SIZE : Z := 512.
Definition VIRTIO_BLK_T_IN : Z := 0.
Definition VIRTIO_BLK_T_OUT : Z := 1.
Definition VIRTIO_BLK_S_OK : Z := 0.
Definition VIRTIO_BLK_S_IOERR : Z := 1.
Definition BLK_QUEUE_SIZE : Z := 16.
Definition HEADER_BYTES : Z := 16.

Record BlkDevice := mkBlk { bd_base_va : Z; bd_capacity : Z; bd_queue : Virtqueue; bd_irq : Z }.

Inductive BlkError := NoDevice | InvalidSize | OutOfRange | IoError | DeviceFailed.
(** [beetos_api_storage::BlockError] *)
Inductive BlockError := BE_OutOfRange | BE_IoError | BE_NotReady.

(** ** The request header *)

(** [VirtioBlkReqHeader] in memory *)
Definition header_bytes (type_ reserved sector : Z) : list Z :=
  to_le_bytes 4 type_ ++ to_le_bytes 4 reserved ++ to_le_bytes 8 sector.

(** ** The driver *)

Section Driver.
Context {D : Type}.
Variable serve : D -> Bus -> Virtqueue -> bmem -> D * VirtqUsed * bmem.
Variable answer : Bus -> Z -> Z.
(** The addresses of [REQ_HEADER], [REQ_STATUS], [VQUEUE_BUF] and of the
    interrupt controller. *)
Variables req_header req_status vqueue_buf gicd gicr : Z.

Record BS := mkBS { bs_dev : option BlkDevice; bs_mem : bmem; bs_bus : Bus; bs_hw : D }.

Definition with_queue (b : BlkDevice) (q : Virtqueue) : BlkDevice := mkBlk (bd_base_va b) (bd_capacity b) q (bd_irq b).

Definition on_queue {X} (op : M Virtqueue X) : M BS X :=
  fun s => match bs_dev s with
           | Some b => match op (bd_queue b) with
                       | Some (x, q) => Some (x, mkBS (Some (with_queue b q)) (bs_mem s) (bs_bus s) (bs_hw s))
                       | None => None
                       end
           | None => None
           end.
Definition on_regs {X} (op : M Bus X) : M BS X :=
  on_bus bs_bus (fun h s => mkBS (bs_dev s) (bs_mem s) h (bs_hw s)) op.
Definition write_mem (va : Z) (l : list Z) : M BS unit :=
  modify (fun s => mkBS (bs_dev s) (put_bytes (kernel_virt_to_phys va) l (bs_mem s)) (bs_bus s) (bs_hw s)).

(** The device runs on while the driver polls. *)
Definition device_turn : M BS unit :=
  fun s => match bs_dev s with
           | Some b =>
               let '(hw, u, m) := serve (bs_hw s) (bs_bus s) (bd_queue b) (bs_mem s) in
               Some (tt, mkBS (Some (with_queue b (set_used u (bd_queue b)))) m (bs_bus s) hw)
           | None => None
           end.

(** One round of the polling loop: [true] when a request was reaped. *)
Definition poll_round : M BS (option unit) :=
  _ <- device_turn ;;
  r <- on_queue pop_used ;;
  match r with
  | Some (head, _) => _ <- on_queue (free_chain head) ;; ret (Some tt)
  | None => ret None
  end.

(** [spins] goes from 0 to 10_000_001. *)
Definition MAX_POLLS : positive := 10000001.

(** The loop of [do_block_request] and the look at the status byte behind it. *)
Definition await_request (status_pa : Z) : M BS (res unit BlkError) :=
  r <- loop_pos poll_round MAX_POLLS ;;
  match r with
  | None => ret (Err DeviceFailed)
  | Some _ =>
      status <- gets (fun s => bs_mem s status_pa) ;;
      ret (if status =? VIRTIO_BLK_S_OK then Ok tt
           else if status =? VIRTIO_BLK_S_IOERR then Err IoError else Err DeviceFailed)
  end.

Definition do_block_request (base_va req_type sector data_ptr data_len : Z) : M BS (res unit BlkError) :=
  o0 <- on_queue alloc_desc ;;
  match o0 with
  | None => ret (Err DeviceFailed)
  | Some d0 =>
      o1 <- on_queue alloc_desc ;;
      match o1 with
      | None => _ <- on_queue (free_desc d0) ;; ret (Err DeviceFailed)
      | Some d1 =>
          o2 <- on_queue alloc_desc ;;
          match o2 with
          | None => _ <- on_queue (free_desc d1) ;; _ <- on_queue (free_desc d0) ;; ret (Err DeviceFailed)
          | Some d2 =>
              _ <- write_mem req_header (header_bytes req_type 0 sector) ;;
              _ <- write_mem req_status [255] ;;
              let header_pa := kernel_virt_to_phys req_header in
              let data_pa := kernel_virt_to_phys data_ptr in
              let status_pa := kernel_virt_to_phys req_status in
              _ <- on_queue (write_desc d0 (mkDesc header_pa HEADER_BYTES VIRTQ_DESC_F_NEXT d1)) ;;
              let flags := if req_type =? VIRTIO_BLK_T_IN then Z.lor VIRTQ_DESC_F_NEXT VIRTQ_DESC_F_WRITE else VIRTQ_DESC_F_NEXT in
              _ <- on_queue (write_desc d1 (mkDesc data_pa (wrap 32 data_len) flags d2)) ;;
              _ <- on_queue (write_desc d2 (mkDesc status_pa 1 VIRTQ_DESC_F_WRITE 0)) ;;
              _ <- on_queue (push_avail d0) ;;
              _ <- on_regs (notify base_va 0) ;;
              await_request status_pa
          end
      end
  end.

Definition rw_sectors (req_type lba ptr len : Z) : M BS (res unit BlkError) :=
  let count := len / SECTOR_SIZE in
  if negb (len mod SECTOR_SIZE =? 0) || (count =? 0) then ret (Err InvalidSize)
  else
    o <- gets bs_dev ;;
    match o with
    | None => ret (Err NoDevice)
    | Some dev =>
        e <- add64 lba count ;;
        if bd_capacity dev <? e then ret (Err OutOfRange)
        else do_block_request (bd_base_va dev) req_type lba ptr len
    end.
Definition read_sectors (lba ptr len : Z) : M BS (res unit BlkError) := rw_sectors VIRTIO_BLK_T_IN lba ptr len.
Definition write_sectors (lba ptr len : Z) : M BS (res unit BlkError) := rw_sectors VIRTIO_BLK_T_OUT lba ptr len.

Definition capacity : M BS Z := gets (fun s => match bs_dev s with Some d => bd_capacity d | None => 0 end).
Definition is_available : M BS bool := gets (fun s => match bs_dev s with Some _ => true | None => false end).
Definition irq_number : M BS (option Z) := gets (fun s => bd_irq <$> bs_dev s).
Definition handle_irq : M BS unit :=
  o <- gets bs_dev ;;
  match o with Some dev => _ <- on_regs (ack_interrupt answer (bd_base_va dev)) ;; ret tt | None => ret tt end.

(** [impl BlockDevice for VirtioBlk] *)
Definition block_error (e : BlkError) : BlockError :=
  match e with OutOfRange => BE_OutOfRange | NoDevice => BE_NotReady | _ => BE_IoError end.
Definition VirtioBlk_read_sectors (lba ptr len : Z) : M BS (res unit BlockError) :=
  r <- read_sectors lba ptr len ;; ret (match r with Ok x => Ok x | Err e => Err (block_error e) end).
Definition VirtioBlk_write_sectors (lba ptr len : Z) : M BS (res unit BlockError) :=
  r <- write_sectors lba ptr len ;; ret (match r with Ok x => Ok x | Err e => Err (block_error e) end).

(** The buffer of the queue is zeroed, as [vq_init] expects it.  The size printed
    in MiB is computed with a multiplication that panics on
    overflow. *)
Definition init_block_device (base_va transport_idx : Z) : M BS bool :=
  f <- on_regs (init_device answer base_va 0) ;;
  match f with
  | None => ret false
  | Some _ =>
      capacity <- on_regs (read_config_u64 answer base_va 0) ;;
      if capacity =? 0 then ret false
      else
        let buf_pa := kernel_virt_to_phys vqueue_buf in
        let queue := vq_init buf_pa BLK_QUEUE_SIZE in
        _ <- on_regs (setup_queue answer base_va 0 queue PAGE_SIZE) ;;
        _ <- on_regs (driver_ok answer base_va) ;;
        let irq := VIRTIO_IRQ_BASE + transport_idx in
        _ <- on_regs (enable_irq gicd gicr irq) ;;
        _ <- assertb (capacity * SECTOR_SIZE <? 2 ^ 64) ;;
        _ <- modify (fun s => mkBS (Some (mkBlk base_va capacity queue irq)) (bs_mem s) (bs_bus s) (bs_hw s)) ;;
        ret true
  end.

Fixpoint probe_loop (virtio_base_va : Z) (l : list Z) : M BS unit :=
  match l with
  | [] => ret tt
  | i :: l =>
      let base := virtio_base_va + i * TRANSPORT_SIZE in
      o <- on_regs (probe_transport answer base) ;;
      match o with
      | Some device_id =>
          if device_id =? DEVICE_ID_BLOCK then
            done <- init_block_device base i ;;
            if done : bool then ret tt else probe_loop virtio_base_va l
          else probe_loop virtio_base_va l
      | None => probe_loop virtio_base_va l
      end
  end.
Definition probe_and_init (virtio_base_va : Z) : M BS unit := probe_loop virtio_base_va (zrange 0 NUM_TRANSPORTS).

End Driver.

Arguments BS : clear implicits.

(** ** What a virtio block device promises *)

Record Req := mkReq { rq_type : Z; rq_sector : Z; rq_data : Z; rq_len : Z; rq_status : Z }.

(** The request whose descriptor chain starts at [h]: header, data, status.  The
    device reads the header; it may write the data buffer of a read, and only of
    a read; it writes the status. *)
Definition decode_request (q : Virtqueue) (m : bmem) (h : Z) : option Req :=
  d0 ← vq_desc q !! Z.to_nat h;
  d1 ← vq_desc q !! Z.to_nat (vd_next d0);
  d2 ← vq_desc q !! Z.to_nat (vd_next d1);
  let type_ := from_le_bytes (get_bytes (vd_addr d0) 4 m) in
  if (vd_flags d0 =? VIRTQ_DESC_F_NEXT) && (vd_len d0 =? 16) && (vd_flags d2 =? VIRTQ_DESC_F_WRITE) && (vd_len d2 =? 1) &&
     (vd_flags d1 =? (if type_ =? VIRTIO_BLK_T_IN then Z.lor VIRTQ_DESC_F_NEXT VIRTQ_DESC_F_WRITE else VIRTQ_DESC_F_NEXT))
  then Some (mkReq type_ (from_le_bytes (get_bytes (vd_addr d0 + 8) 8 m)) (vd_addr d1) (vd_len d1) (vd_addr d2))
  else None.

(** The memory after a read or write of sectors by a device with contents [disk]. *)
Definition after_request (r : Req) (disk m : bmem) : bmem :=
  put_bytes (rq_status r) [VIRTIO_BLK_S_OK]
    (if rq_type r =? VIRTIO_BLK_T_IN
     then put_bytes (rq_data r) (get_bytes (rq_sector r * SECTOR_SIZE) (rq_len r) disk) m else m).
Definition disk_after (r : Req) (disk m : bmem) : bmem :=
  if rq_type r =? VIRTIO_BLK_T_IN then disk else put_bytes (rq_sector r * SECTOR_SIZE) (get_bytes (rq_data r) (rq_len r) m) disk.

Definition valid_request (sectors : Z) (r : Req) : Prop :=
  (rq_type r = VIRTIO_BLK_T_IN \/ rq_type r = VIRTIO_BLK_T_OUT) /\ 0 <= rq_sector r /\
  0 < rq_len r /\ rq_len r mod SECTOR_SIZE = 0 /\ rq_sector r * SECTOR_SIZE + rq_len r <= sectors * SECTOR_SIZE /\
  ~ (rq_data r <= rq_status r < rq_data r + rq_len r).

(** What the device has done after [n] turns. *)
Fixpoint turns {D} (serve : D -> Bus -> Virtqueue -> bmem -> D * VirtqUsed * bmem) (n : nat) (d : D) (bus : Bus) (q : Virtqueue) (m : bmem)
  : D * VirtqUsed * bmem :=
  match n with
  | O => (d, vq_used q, m)
  | S n => let '(d1, u1, m1) := turns serve n d bus q m in serve d1 bus (set_used u1 q) m1
  end.

(** [hw_seen] is the device's position in the available ring, [hw_disk] what it
    stores.  From one turn to the next, a valid request it finds there stays
    pending, with the used ring as it was, or is completed: its element of the
    used ring is written, and when the status says that it succeeded, memory
    and disk are those after the request.  Nothing says how long it takes, and
    it may fail with any other status. *)
Class VirtioBlkDevice (D : Type) (serve : D -> Bus -> Virtqueue -> bmem -> D * VirtqUsed * bmem) := {
  hw_seen : D -> Z;
  hw_disk : D -> bmem;
  hw_sectors : D -> Z;
  hw_serves : forall d bus q m h r n,
    av_idx (vq_avail q) = wrap 16 (hw_seen d + 1) ->
    av_ring (vq_avail q) !! Z.to_nat (hw_seen d mod vq_num q) = Some h ->
    decode_request q m h = Some r -> valid_request (hw_sectors d) r ->
    (forall i, (i <= n)%nat -> (turns serve i d bus q m).1.2 = vq_used q) ->
    (turns serve (S n) d bus q m).1.2 = vq_used q \/
    exists len d' m', turns serve (S n) d bus q m = (d', vq_used (device_complete h len q), m') /\
      hw_seen d' = wrap 16 (hw_seen d + 1) /\ hw_sectors d' = hw_sectors d /\
      (m' (rq_status r) = VIRTIO_BLK_S_OK ->
       (forall x, hw_disk d' x = disk_after r (hw_disk d) m x) /\ (forall x, m' x = after_request r (hw_disk d) m x)) }.

(** A device that completes every valid request with success while the driver is
    still polling. *)
Definition prompt {D} serve {HD : VirtioBlkDevice D serve} : Prop :=
  forall d bus q m h r,
    av_idx (vq_avail q) = wrap 16 (hw_seen d + 1) ->
    av_ring (vq_avail q) !! Z.to_nat (hw_seen d mod vq_num q) = Some h ->
    decode_request q m h = Some r -> valid_request (hw_sectors d) r ->
    exists n, Z.of_nat n < Zpos MAX_POLLS /\ (forall i, (i <= n)%nat -> (turns serve i d bus q m).1.2 = vq_used q) /\
      (turns serve (S n) d bus q m).1.2 <> vq_used q /\ (turns serve (S n) d bus q m).2 (rq_status r) = VIRTIO_BLK_S_OK.

(** ** One request *)

Section Submission.
Variables (q : Virtqueue) (i0 i1 i2 : Z) (free : list Z) (x0 x1 x2 : VirtqDesc).

(** The queue with three descriptors taken from the free list and written. *)
Definition submitted (q3 : Virtqueue) : Virtqueue := set_desc i2 x2 (set_desc i1 x1 (set_desc i0 x0 q3)).

Lemma three_allocs chains : vq_inv q (i0 :: i1 :: i2 :: free) [] chains ->
  exists q1 q2 q3, alloc_desc q = Some (Some i0, q1) /\ alloc_desc q1 = Some (Some i1, q2) /\
  alloc_desc q2 = Some (Some i2, q3) /\ vq_inv q3 free [i2; i1; i0] chains /\ vq_avail q3 = vq_avail q /\ vq_used q3 = vq_used q /\
  vq_last_used_idx q3 = vq_last_used_idx q /\ vq_num q3 = vq_num q.
Proof.
  intros Hq. destruct (alloc_desc_inv _ _ _ _ _ Hq) as (q1 & E1 & H1 & _ & Ha1 & Hu1 & Hl1 & Hn1).
  destruct (alloc_desc_inv _ _ _ _ _ H1) as (q2 & E2 & H2 & _ & Ha2 & Hu2 & Hl2 & Hn2).
  destruct (alloc_desc_inv _ _ _ _ _ H2) as (q3 & E3 & H3 & _ & Ha3 & Hu3 & Hl3 & Hn3).
  exists q1, q2, q3. split_and!; [done..| | | |]; congruence.
Qed.

Lemma submitted_inv q3 chains : vq_inv q3 free [i2; i1; i0] chains ->
  write_desc i0 x0 q3 = Some (tt, set_desc i0 x0 q3) /\
  write_desc i1 x1 (set_desc i0 x0 q3) = Some (tt, set_desc i1 x1 (set_desc i0 x0 q3)) /\
  write_desc i2 x2 (set_desc i1 x1 (set_desc i0 x0 q3)) = Some (tt, submitted q3) /\
  vq_inv (submitted q3) free [i2; i1; i0] chains /\
  vq_desc (submitted q3) !! Z.to_nat i0 = Some x0 /\ vq_desc (submitted q3) !! Z.to_nat i1 = Some x1 /\
  vq_desc (submitted q3) !! Z.to_nat i2 = Some x2.
Proof.
  intros H3. destruct (write_desc_inv q3 i0 x0 _ _ _ H3 ltac:(set_solver)) as [E4 H4].
  destruct (write_desc_inv _ i1 x1 _ _ _ H4 ltac:(set_solver)) as [E5 H5].
  destruct (write_desc_inv _ i2 x2 _ _ _ H5 ltac:(set_solver)) as [E6 H6].
  pose proof (owned_NoDup H3) as Hnd. apply NoDup_app in Hnd as (_ & _ & Hnd). apply NoDup_app in Hnd as (Hnd & _ & _). rewrite !NoDup_cons in Hnd.
  pose proof (owned_range H3 i0 ltac:(set_solver)). pose proof (owned_range H3 i1 ltac:(set_solver)).
  pose proof (owned_range H3 i2 ltac:(set_solver)). pose proof (inv_desc _ _ _ _ H3) as Hd.
  assert (i0 <> i1 /\ i0 <> i2 /\ i1 <> i2) as (? & ? & ?) by set_solver.
  split_and!; [done..| | |]; unfold submitted; cbn.
  - rewrite !list_lookup_insert_ne by lia. apply list_lookup_insert_eq. lia.
  - rewrite list_lookup_insert_ne by lia. apply list_lookup_insert_eq. rewrite length_insert. lia.
  - apply list_lookup_insert_eq. rewrite !length_insert. lia.
Qed.

(** The whole way of a request of three descriptors, from the free list to the
    available ring and back after the device has completed it. *)
Lemma request_cycle len : vq_inv q (i0 :: i1 :: i2 :: free) [] [] -> has_next x0 = true -> vd_next x0 = i1 -> has_next x1 = true -> vd_next x1 = i2 -> has_next x2 = false ->
  us_idx (vq_used q) = vq_last_used_idx q ->
  exists q1 q2 q3 q7 q8, alloc_desc q = Some (Some i0, q1) /\ alloc_desc q1 = Some (Some i1, q2) /\
    alloc_desc q2 = Some (Some i2, q3) /\
    write_desc i0 x0 q3 = Some (tt, set_desc i0 x0 q3) /\
    write_desc i1 x1 (set_desc i0 x0 q3) = Some (tt, set_desc i1 x1 (set_desc i0 x0 q3)) /\
    write_desc i2 x2 (set_desc i1 x1 (set_desc i0 x0 q3)) = Some (tt, submitted q3) /\
    push_avail i0 (submitted q3) = Some (tt, q7) /\ vq_num q7 = vq_num q /\ vq_used q7 = vq_used q /\
    vq_last_used_idx q7 = vq_last_used_idx q /\ vq_desc q7 = vq_desc (submitted q3) /\
    av_idx (vq_avail q7) = wrap 16 (av_idx (vq_avail q) + 1) /\
    av_ring (vq_avail q7) !! Z.to_nat (av_idx (vq_avail q) mod vq_num q) = Some i0 /\
    vq_inv q7 free [] [[i0; i1; i2]] /\
    pop_used (device_complete i0 len q7) =
      Some (Some (i0, len), set_last_used (wrap 16 (vq_last_used_idx q + 1)) (device_complete i0 len q7)) /\
    free_chain i0 (set_last_used (wrap 16 (vq_last_used_idx q + 1)) (device_complete i0 len q7)) = Some (tt, q8) /\
    vq_inv q8 (i2 :: i1 :: i0 :: free) [] [] /\ us_idx (vq_used q8) = vq_last_used_idx q8 /\ vq_num q8 = vq_num q /\
    av_idx (vq_avail q8) = wrap 16 (av_idx (vq_avail q) + 1).
Proof.
  intros Hq Hx0 Hn0 Hx1 Hn1 Hx2 Hidle. destruct (three_allocs _ Hq) as (q1 & q2 & q3 & E1 & E2 & E3 & H3 & Ha & Hu & Hl & Hn).
  destruct (submitted_inv q3 _ H3) as (E4 & E5 & E6 & H6 & Hd0 & Hd1 & Hd2).
  assert (Hc : req_chain (vq_desc (submitted q3)) [i0; i1; i2]) by (cbn; eauto 12).
  pose proof (inv_num _ _ _ _ H6) as Hnum. assert (Hnum6 : vq_num (submitted q3) = vq_num q) by exact Hn.
  pose proof (push_avail_run (submitted q3) i0 ltac:(lia)) as E7. set (q7 := set_avail _ (submitted q3)) in E7.
  assert (H7 : vq_inv q7 free [] [[i0; i1; i2]]).
  { apply (regroup _ _ [i2; i1; i0] []); [|cbn; solve_Permutation|by apply Forall_singleton].
    apply set_avail_inv; [done| |apply wrap16_range]. cbn. rewrite length_insert. apply (inv_ring _ _ _ _ H6). }
  pose proof (Z.mod_pos_bound (vq_last_used_idx q) (vq_num q) ltac:(lia)) as Hm.
  assert (H8 : vq_inv (set_last_used (wrap 16 (vq_last_used_idx q + 1)) (device_complete i0 len q7)) free ([i0; i1; i2] ++ []) []).
  { apply (regroup _ _ [] [[i0; i1; i2]]); [|done|done]. apply set_last_used_inv; [|apply wrap16_range].
    apply set_used_inv; [done| |apply wrap16_range]. cbn. rewrite length_insert. apply (inv_used _ _ _ _ H7). }
  destruct (free_chain_inv _ _ _ _ _ H8 Hc) as (q8 & E8 & H8' & Ha8 & Hu8 & Hl8 & Hn8).
  pose proof (owned_range Hq i0 ltac:(set_solver)) as Hi0. pose proof (inv_idx _ _ _ _ Hq) as (Hav & _ & Hlu).
  exists q1, q2, q3, q7, q8. split_and!; try done.
  - cbn. rewrite Ha. done.
  - cbn. rewrite Hn, Ha. apply list_lookup_insert_eq. pose proof (Z.mod_pos_bound (av_idx (vq_avail q)) (vq_num q) ltac:(lia)).
    pose proof (inv_ring _ _ _ _ H3) as Hr. rewrite Ha, Hn in Hr. lia.
  - rewrite (pop_used_some _ (mkElem i0 len)); cbn.
    + rewrite Hl. f_equal. f_equal. f_equal. f_equal. apply wrap_small, fits_spec. lia.
    + rewrite Hu, Hl, Hidle. unfold wrap. intros He.
      assert (Hx : (vq_last_used_idx q + 1 - vq_last_used_idx q) mod 2 ^ 16 = 0)
        by (rewrite Zminus_mod, He, (Z.mod_small (vq_last_used_idx q)) by done; by rewrite Z.sub_diag).
      rewrite Z.add_simpl_l in Hx. by vm_compute in Hx.
    + lia.
    + rewrite Hu, Hl, Hidle, Hn. apply list_lookup_insert_eq. pose proof (inv_used _ _ _ _ H3) as Hr. rewrite Hu, Hn in Hr. lia.
  - rewrite Hu8, Hl8. cbn. by rewrite Hu, Hidle.
  - rewrite Hn8. done.
  - rewrite Ha8. cbn. by rewrite Ha.
Qed.

End Submission.

Lemma length_header t r x : length (header_bytes t r x) = 16%nat.
Proof. unfold header_bytes. by rewrite !length_app, !length_to_le_bytes. Qed.

(** ** Posting a request *)

(** The descriptors of a request, as [do_block_request] writes them. *)
Definition data_flags (type : Z) : Z :=
  if type =? VIRTIO_BLK_T_IN then Z.lor VIRTQ_DESC_F_NEXT VIRTQ_DESC_F_WRITE else VIRTQ_DESC_F_NEXT.

Lemma data_flags_next type a l n : has_next (mkDesc a l (data_flags type) n) = true.
Proof. unfold has_next, data_flags. cbn. by destruct (type =? VIRTIO_BLK_T_IN). Qed.

Lemma on_queue_run {D X} (op : M Virtqueue X) (s : BS D) b x q : bs_dev s = Some b -> op (bd_queue b) = Some (x, q) ->
  on_queue op s = Some (x, mkBS (Some (with_queue b q)) (bs_mem s) (bs_bus s) (bs_hw s)).
Proof. intros Hb Ho. unfold on_queue. by rewrite Hb, Ho. Qed.

Section Posting.
Context {D : Type} (serve : D -> Bus -> Virtqueue -> bmem -> D * VirtqUsed * bmem).
Variables (req_header req_status type sector ptr len i0 i1 i2 : Z).
Definition req_x0 : VirtqDesc := mkDesc (kernel_virt_to_phys req_header) HEADER_BYTES VIRTQ_DESC_F_NEXT i1.
Definition req_x1 : VirtqDesc := mkDesc (kernel_virt_to_phys ptr) (wrap 32 len) (data_flags type) i2.
Definition req_x2 : VirtqDesc := mkDesc (kernel_virt_to_phys req_status) 1 VIRTQ_DESC_F_WRITE 0.
Definition req_mem (m : bmem) : bmem :=
  put_bytes (kernel_virt_to_phys req_status) [255] (put_bytes (kernel_virt_to_phys req_header) (header_bytes type 0 sector) m).

(** With three descriptors free, [do_block_request] comes to its loop. *)
Lemma request_posted s b free chains : bs_dev s = Some b -> vq_inv (bd_queue b) (i0 :: i1 :: i2 :: free) [] chains ->
  bd_base_va b + TRANSPORT_SIZE <= 2 ^ 64 ->
  exists q1 q2 q3 q7, alloc_desc (bd_queue b) = Some (Some i0, q1) /\ alloc_desc q1 = Some (Some i1, q2) /\
    alloc_desc q2 = Some (Some i2, q3) /\ vq_inv q3 free [i2; i1; i0] chains /\ vq_used q3 = vq_used (bd_queue b) /\
    vq_last_used_idx q3 = vq_last_used_idx (bd_queue b) /\
    push_avail i0 (submitted i0 i1 i2 req_x0 req_x1 req_x2 q3) = Some (tt, q7) /\
    do_block_request serve req_header req_status (bd_base_va b) type sector ptr len s =
      await_request serve (kernel_virt_to_phys req_status)
        (mkBS (Some (with_queue b q7)) (req_mem (bs_mem s)) (Wr (bd_base_va b + QUEUE_NOTIFY) 0 :: bs_bus s) (bs_hw s)).
Proof.
  intros Hb Hq Hbase. destruct (three_allocs _ _ _ _ _ _ Hq) as (q1 & q2 & q3 & E1 & E2 & E3 & H3 & _ & Hu & Hl & Hn).
  destruct (submitted_inv i0 i1 i2 free req_x0 req_x1 req_x2 q3 _ H3) as (E4 & E5 & E6 & H6 & _).
  destruct (push_avail_inv _ i0 _ _ _ H6) as (q7 & E7 & _). exists q1, q2, q3, q7. split_and!; try done. unfold do_block_request.
  erewrite bind_run; [|eapply on_queue_run; [done|exact E1]]. cbv beta iota.
  erewrite bind_run; [|eapply on_queue_run; [done|exact E2]]. cbv beta iota.
  erewrite bind_run; [|eapply on_queue_run; [done|exact E3]]. cbv beta iota.
  erewrite bind_run by reflexivity. erewrite bind_run by reflexivity. cbv zeta. fold (data_flags type).
  erewrite bind_run; [|eapply on_queue_run; [done|exact E4]]. erewrite bind_run; [|eapply on_queue_run; [done|exact E5]].
  erewrite bind_run; [|eapply on_queue_run; [done|exact E6]]. erewrite bind_run; [|eapply on_queue_run; [done|exact E7]].
  erewrite bind_run; [|unfold on_regs, on_bus, notify; rewrite write_reg_run by (unfold QUEUE_NOTIFY, TRANSPORT_SIZE in *; lia); reflexivity].
  done.
Qed.

End Posting.

(** ** Correctness against the interface *)

Lemma completed_differs h len q : us_idx (vq_used (device_complete h len q)) <> us_idx (vq_used q).
Proof. cbn. unfold wrap. pose proof (Z.div_mod (us_idx (vq_used q) + 1) (2 ^ 16)). lia. Qed.

(** The first turn at which a request is completed, if there is one. *)
Lemma first_completion {D} {serve : D -> Bus -> Virtqueue -> bmem -> D * VirtqUsed * bmem} (d : D) bus q m (P : nat -> Prop) N :
  (forall n, (forall i, (i <= n)%nat -> (turns serve i d bus q m).1.2 = vq_used q) -> (turns serve (S n) d bus q m).1.2 = vq_used q \/ P n) ->
  (forall i, (i <= N)%nat -> (turns serve i d bus q m).1.2 = vq_used q) \/
  exists n, (n < N)%nat /\ (forall i, (i <= n)%nat -> (turns serve i d bus q m).1.2 = vq_used q) /\ P n.
Proof.
  intros Hstep. induction N as [|N [IH|(n & Hn & H)]].
  - left. intros i Hi. by replace i with 0%nat by lia.
  - destruct (Hstep N IH) as [Hp|HP]; [|right; by exists N; split; [lia|]].
    left. intros i Hi. destruct (decide (i = S N)) as [->|]; [done|]. apply IH. lia.
  - right. exists n. by split; [lia|].
Qed.

(** The rounds of the polling loop while the request is pending. *)
Lemma pending_round {D} (serve : D -> Bus -> Virtqueue -> bmem -> D * VirtqUsed * bmem) b bus d m i : let q := bd_queue b in
  let st i := mkBS (Some b) (turns serve i d bus q m).2 bus (turns serve i d bus q m).1.1 in
  us_idx (vq_used q) = vq_last_used_idx q ->
  (turns serve i d bus q m).1.2 = vq_used q -> (turns serve (S i) d bus q m).1.2 = vq_used q ->
  poll_round serve (st i) = Some (None, st (S i)).
Proof.
  intros q st Hidle. unfold st. cbn [turns]. destruct (turns serve i d bus q m) as [[d1 u1] m1]. cbn [fst snd]. intros -> Hu'. rewrite set_used_same in *.
  destruct (serve d1 bus q m1) as [[d2 u2] m2] eqn:Es. cbn in Hu'. subst u2. unfold poll_round, device_turn.
  erewrite bind_run by (cbn [bs_dev bs_hw bs_bus bs_mem]; fold q; rewrite Es; reflexivity). rewrite set_used_same.
  erewrite bind_run; [|eapply on_queue_run; [done|by apply pop_used_none]]. by destruct b.
Qed.

Lemma loop_pending {S R} (body : M S (option R)) (st : nat -> S) n :
  (forall i, (i < n)%nat -> body (st i) = Some (None, st (Datatypes.S i))) -> loop_nat body n (st 0%nat) = Some (None, st n).
Proof.
  revert st. induction n as [|n IH]; intros st Hst; [done|]. cbn [loop_nat]. rewrite (bind_run _ _ _ _ _ (Hst 0%nat ltac:(lia))).
  apply (IH (fun i => st (Datatypes.S i))). intros i Hi. apply Hst. lia.
Qed.

(** A request that stays pending for all the polls of the driver. *)
Lemma poll_gives_up {D} (serve : D -> Bus -> Virtqueue -> bmem -> D * VirtqUsed * bmem) b bus d m :
  us_idx (vq_used (bd_queue b)) = vq_last_used_idx (bd_queue b) ->
  (forall i, (i <= Pos.to_nat MAX_POLLS)%nat -> (turns serve i d bus (bd_queue b) m).1.2 = vq_used (bd_queue b)) ->
  exists d' m', loop_pos (poll_round serve) MAX_POLLS (mkBS (Some b) m bus d) = Some (None, mkBS (Some b) m' bus d').
Proof.
  intros Hidle Hu. rewrite loop_pos_nat. generalize dependent (Pos.to_nat MAX_POLLS). intros N Hu.
  set (q := bd_queue b) in *. set (st i := mkBS (Some b) (turns serve i d bus q m).2 bus (turns serve i d bus q m).1.1).
  exists (turns serve N d bus q m).1.1, (turns serve N d bus q m).2. apply (loop_pending _ st). intros i Hi.
  apply pending_round; [done|apply Hu; lia|apply Hu; lia].
Qed.

Section Correct.
Context {D : Type} {serve : D -> Bus -> Virtqueue -> bmem -> D * VirtqUsed * bmem} {HD : VirtioBlkDevice D serve}.
Variables req_header req_status : Z.
Notation header_pa := (kernel_virt_to_phys req_header).
Notation status_pa := (kernel_virt_to_phys req_status).
Hypothesis Hcells : status_pa < header_pa \/ header_pa + 16 <= status_pa.

(** No request is under way, and driver and device agree on the queue. *)
Record blk_ready (s : BS D) (b : BlkDevice) : Prop := {
  rd_dev : bs_dev s = Some b;
  rd_queue : exists free, vq_inv (bd_queue b) free [] [];
  rd_num : vq_num (bd_queue b) = BLK_QUEUE_SIZE;
  rd_idle : us_idx (vq_used (bd_queue b)) = vq_last_used_idx (bd_queue b);
  rd_seen : av_idx (vq_avail (bd_queue b)) = hw_seen (bs_hw s);
  rd_cap : bd_capacity b <= hw_sectors (bs_hw s) < 2 ^ 64;
  rd_base : bd_base_va b + TRANSPORT_SIZE <= 2 ^ 64 }.

(** The polling loop, given that the device completes the request at the head
    [h] in time and that reaping it leaves the queue [q8]. *)
Lemma poll_completes (b : BlkDevice) bus (d d' : D) m m' n h len q8 : let q := bd_queue b in
  Z.of_nat n < Zpos MAX_POLLS -> us_idx (vq_used q) = vq_last_used_idx q ->
  (forall i, (i <= n)%nat -> (turns serve i d bus q m).1.2 = vq_used q) ->
  turns serve (S n) d bus q m = (d', vq_used (device_complete h len q), m') ->
  pop_used (device_complete h len q) = Some (Some (h, len), set_last_used (wrap 16 (vq_last_used_idx q + 1)) (device_complete h len q)) ->
  free_chain h (set_last_used (wrap 16 (vq_last_used_idx q + 1)) (device_complete h len q)) = Some (tt, q8) ->
  loop_pos (poll_round serve) MAX_POLLS (mkBS (Some b) m bus d) = Some (Some tt, mkBS (Some (with_queue b q8)) m' bus d').
Proof.
  intros q Hn Hidle Hu Ht Hpop Hfree. rewrite loop_pos_nat.
  set (st i := mkBS (Some b) (turns serve i d bus q m).2 bus (turns serve i d bus q m).1.1).
  change (mkBS (Some b) m bus d) with (st O).
  assert (Hturn : forall i, (i <= n)%nat -> device_turn serve (st i) =
    let '(d1, u1, m1) := turns serve (S i) d bus q m in Some (tt, mkBS (Some (with_queue b (set_used u1 q))) m1 bus d1)).
  { intros i Hi. unfold device_turn, st. cbn [bs_dev bs_hw bs_bus bs_mem turns]. pose proof (Hu i Hi) as Hi'.
    destruct (turns serve i d bus q m) as [[d1 u1] m1]. cbn in Hi' |- *. subst u1. rewrite set_used_same.
    fold q. by destruct (serve d1 bus q m1) as [[d2 u2] m2]. }
  eapply (loop_nat_hit _ _ (st n)); [|eapply (Nat2Z.inj_lt n); rewrite positive_nat_Z; exact Hn|done|].
  - unfold poll_round. erewrite bind_run; [|rewrite (Hturn n), Ht by lia; reflexivity].
    erewrite bind_run; [|eapply on_queue_run; [done|exact Hpop]]. cbv beta iota.
    erewrite bind_run; [|eapply on_queue_run; [done|exact Hfree]]. done.
  - intros i Hi. apply pending_round; [done|apply Hu; lia|apply Hu; lia].
Qed.

Lemma header_decoded type sector m : 0 <= type < 2 ^ 32 -> 0 <= sector < 2 ^ 64 ->
  let m1 := put_bytes status_pa [255] (put_bytes header_pa (header_bytes type 0 sector) m) in
  from_le_bytes (get_bytes header_pa 4 m1) = type /\ from_le_bytes (get_bytes (header_pa + 8) 8 m1) = sector.
Proof.
  intros Ht Hs m1.
  assert (Hsub : forall k n, 0 <= k -> 0 <= n -> k + n <= 16 ->
    get_bytes (header_pa + k) n m1 = take (Z.to_nat n) (drop (Z.to_nat k) (header_bytes type 0 sector))).
  { intros k n Hk Hn Hkn. rewrite <- (get_put_sub header_pa _ m) by (rewrite ?length_header; lia).
    apply get_bytes_ext. intros i Hi. apply put_bytes_out. cbn. lia. }
  pose proof (Hsub 0 4) as H1. rewrite Z.add_0_r in H1. rewrite H1, (Hsub 8 8) by lia.
  unfold header_bytes. change (Z.to_nat 0) with 0%nat. change (Z.to_nat 4) with 4%nat. change (Z.to_nat 8) with 8%nat.
  rewrite drop_0, take_app_length' by (by rewrite length_to_le_bytes). rewrite app_assoc.
  rewrite drop_app_length' by (rewrite length_app, !length_to_le_bytes; done).
  rewrite take_ge by (rewrite length_to_le_bytes; done). rewrite !from_to_le_bytes.
  split; by apply Z.mod_small.
Qed.

(** What became of a request. *)
Definition request_result (r : res unit BlkError) : Prop := r = Ok tt \/ r = Err IoError \/ r = Err DeviceFailed.

Lemma do_block_request_ok s b type sector ptr len : blk_ready s b ->
  let data_pa := kernel_virt_to_phys ptr in
  let m1 := put_bytes status_pa [255] (put_bytes header_pa (header_bytes type 0 sector) (bs_mem s)) in
  let r := mkReq type sector data_pa len status_pa in
  sector < 2 ^ 64 -> len < 2 ^ 32 -> valid_request (bd_capacity b) r ->
  exists res s', do_block_request serve req_header req_status (bd_base_va b) type sector ptr len s = Some (res, s') /\
    request_result res /\ (prompt serve -> res = Ok tt) /\
    (res = Ok tt -> exists b', blk_ready s' b' /\ bd_capacity b' = bd_capacity b /\
      (forall x, bs_mem s' x = after_request r (hw_disk (bs_hw s)) m1 x) /\
      (forall x, hw_disk (bs_hw s') x = disk_after r (hw_disk (bs_hw s)) m1 x)).
Proof.
  intros [Hdev [free Hq] Hnum Hidle Hseen Hcap Hbase] data_pa m1 r Hs Hl (Hty & Hs0 & Hl0 & Hlm & Hin & Hst). cbn in Hty, Hs0, Hl0, Hlm, Hin, Hst.
  assert (Hlen : Z.of_nat (length free) = 16).
  { pose proof (Permutation_length (inv_owned _ _ _ _ Hq)) as Hp. rewrite app_nil_r, length_seqZ, Hnum in Hp. cbn in Hp. unfold BLK_QUEUE_SIZE in *. lia. }
  destruct free as [|i0 [|i1 [|i2 free]]]; [cbn in Hlen; lia..|].
  set (x0 := req_x0 req_header i1). set (x1 := req_x1 type ptr len i2). set (x2 := req_x2 req_status).
  destruct (request_posted serve req_header req_status type sector ptr len i0 i1 i2 s b free [] Hdev Hq Hbase)
    as (q1 & q2 & q3 & q7 & E1 & E2 & E3 & H3 & _ & _ & E7 & ->). fold x0 x1 x2 in E7. change (req_mem _ _ _ _ _) with m1.
  destruct (submitted_inv i0 i1 i2 free x0 x1 x2 q3 _ H3) as (_ & _ & _ & _ & Hd0 & Hd1 & Hd2).
  pose proof (fun n => request_cycle _ i0 i1 i2 free x0 x1 x2 n Hq eq_refl eq_refl (data_flags_next _ _ _ _) eq_refl eq_refl Hidle) as Hcyc.
  destruct (Hcyc 0) as (q1' & q2' & q3' & q7' & _ & E1' & E2' & E3' & _ & _ & _ & E7' & Hn7 & Hu7 & Hl7 & Hd7 & Ha7 & Hr7 & _).
  simplify_eq. set (bus := Wr _ _ :: _). unfold await_request.
  assert (Hdec : decode_request q7 m1 i0 = Some r).
  { unfold decode_request. rewrite Hd7, Hd0. cbn [mbind option_bind]. change (vd_next x0) with i1. rewrite Hd1. cbn [mbind option_bind].
    change (vd_next x1) with i2. rewrite Hd2. cbn [mbind option_bind].
    destruct (header_decoded type sector (bs_mem s)) as [Ht4 Hs8]; [destruct Hty as [->| ->]; done|done|]. fold m1 in Ht4, Hs8.
    unfold r. change (vd_addr x0) with header_pa. rewrite Ht4, Hs8. cbv zeta. cbn [vd_flags vd_len vd_addr x0 x1 x2 req_x0 req_x1 req_x2].
    fold (data_flags type). rewrite !Z.eqb_refl. cbn [andb]. by rewrite wrap_small by (apply fits_spec; lia). }
  assert (Hp1 : av_idx (vq_avail q7) = wrap 16 (hw_seen (bs_hw s) + 1)) by (by rewrite Ha7, Hseen).
  assert (Hp2 : av_ring (vq_avail q7) !! Z.to_nat (hw_seen (bs_hw s) mod vq_num q7) = Some i0) by (by rewrite <- Hseen, Hn7).
  assert (Hp3 : valid_request (hw_sectors (bs_hw s)) r).
  { split_and!; cbn; try done. etrans; [exact Hin|]. unfold SECTOR_SIZE. lia. }
  destruct (first_completion (bs_hw s) bus q7 m1 _ (Pos.to_nat MAX_POLLS)
    (fun n => hw_serves (bs_hw s) bus q7 m1 i0 r n Hp1 Hp2 Hdec Hp3)) as [Hpend|(n & Hnmax & Huse & l & d' & m' & Ht & Hseen' & Hsec & Hok)].
  { destruct (poll_gives_up serve (mkBlk (bd_base_va b) (bd_capacity b) q7 (bd_irq b)) bus (bs_hw s) m1) as (d' & m' & Eg);
      [cbn; congruence|exact Hpend|]. rewrite (bind_run _ _ _ _ _ Eg). eexists _, _. split; [reflexivity|]. split; [by right; right|].
    split; [|done]. intros Hpr. exfalso. destruct (Hpr (bs_hw s) bus q7 m1 i0 r Hp1 Hp2 Hdec Hp3) as (n & Hn & _ & Hne & _). apply Hne, Hpend. lia. }
  destruct (Hcyc l) as (q1' & q2' & q3' & q7' & q8 & E1' & E2' & E3' & _ & _ & _ & E7' & _ & _ & _ & _ & _ & _ & _ & Hpop & Hfree & H8 & Hid8 & Hn8 & Ha8).
  simplify_eq. rewrite <- Hl7 in Hpop, Hfree.
  erewrite bind_run; [|eapply (poll_completes (mkBlk (bd_base_va b) (bd_capacity b) q7 (bd_irq b)) bus _ d' m1 m' n i0 l q8); cbn; try done; try congruence; lia].
  cbv beta iota. unfold bind, gets, ret. cbn [bs_mem]. eexists _, _. split; [reflexivity|]. split.
  { unfold request_result. destruct (m' status_pa =? VIRTIO_BLK_S_OK), (m' status_pa =? VIRTIO_BLK_S_IOERR); naive_solver. }
  split.
  { intros Hpr. destruct (Hpr (bs_hw s) bus q7 m1 i0 r Hp1 Hp2 Hdec Hp3) as (n' & _ & Huse' & Hne & Hst').
    assert (n' = n) as ->.
    { destruct (decide (n' < n)%nat); [exfalso; apply Hne, Huse; lia|]. destruct (decide (n < n')%nat); [|lia]. exfalso.
      pose proof (Huse' (S n) ltac:(lia)) as Hu. rewrite Ht in Hu. cbn [fst snd] in Hu.
      apply (completed_differs i0 l q7). by rewrite Hu. }
    rewrite Ht in Hst'. cbn in Hst'. by rewrite Hst'. }
  intros Hres. destruct (Z.eqb_spec (m' status_pa) VIRTIO_BLK_S_OK) as [Hst'|]; [|by destruct (m' status_pa =? VIRTIO_BLK_S_IOERR)].
  destruct (Hok Hst') as [Hdisk Hmem]. exists (mkBlk (bd_base_va b) (bd_capacity b) q8 (bd_irq b)).
  split; [|by split_and!]. split; cbn; try done; [eauto|by rewrite Hn8|by rewrite Ha8, Hseen', Hseen|by rewrite Hsec].
Qed.

Definition whole_sectors (b : BlkDevice) (lba len : Z) : Prop :=
  0 <= lba /\ 0 < len < 2 ^ 32 /\ len mod SECTOR_SIZE = 0 /\ lba + len / SECTOR_SIZE <= bd_capacity b.
(** A buffer that overlaps neither the header nor the status byte. *)
Definition clear_buffer (pa len : Z) : Prop :=
  (pa + len <= header_pa \/ header_pa + 16 <= pa) /\ ~ (pa <= status_pa < pa + len).

Lemma rw_sectors_ok s b type lba ptr len : blk_ready s b -> type = VIRTIO_BLK_T_IN \/ type = VIRTIO_BLK_T_OUT ->
  whole_sectors b lba len -> clear_buffer (kernel_virt_to_phys ptr) len ->
  let m1 := put_bytes status_pa [255] (put_bytes header_pa (header_bytes type 0 lba) (bs_mem s)) in
  let r := mkReq type lba (kernel_virt_to_phys ptr) len status_pa in
  exists res s', rw_sectors serve req_header req_status type lba ptr len s = Some (res, s') /\
    request_result res /\ (prompt serve -> res = Ok tt) /\
    (res = Ok tt -> exists b', blk_ready s' b' /\ bd_capacity b' = bd_capacity b /\
      (forall x, bs_mem s' x = after_request r (hw_disk (bs_hw s)) m1 x) /\
      (forall x, hw_disk (bs_hw s') x = disk_after r (hw_disk (bs_hw s)) m1 x)).
Proof.
  intros Hr Hty (Hl & Hn & Hm & Hc) [_ Hb] m1 r. pose proof (rd_cap _ _ Hr) as Hcap. unfold SECTOR_SIZE in *.
  pose proof (Z.div_mod len 512 ltac:(lia)) as Hdm. rewrite Hm in Hdm. unfold rw_sectors, SECTOR_SIZE.
  rewrite Hm, (proj2 (Z.eqb_neq (len / 512) 0)) by lia. cbn [Z.eqb negb orb].
  unfold bind at 1, gets. rewrite (rd_dev _ _ Hr).
  erewrite bind_run by (apply add64_run; lia). rewrite (proj2 (Z.ltb_ge _ _)) by lia.
  apply do_block_request_ok; [done|lia|lia|].
  split_and!; cbn; try done; unfold SECTOR_SIZE; lia.
Qed.

(** A read leaves the disk alone and fills the buffer, a write stores the buffer. *)
Lemma read_effect s b lba ptr len : blk_ready s b -> whole_sectors b lba len -> clear_buffer (kernel_virt_to_phys ptr) len ->
  exists res s', read_sectors serve req_header req_status lba ptr len s = Some (res, s') /\ request_result res /\ (prompt serve -> res = Ok tt) /\
    (res = Ok tt -> exists b', blk_ready s' b' /\ bd_capacity b' = bd_capacity b /\
    get_bytes (kernel_virt_to_phys ptr) len (bs_mem s') = get_bytes (lba * SECTOR_SIZE) len (hw_disk (bs_hw s)) /\
    (forall x, clear_buffer x 1 -> ~ (kernel_virt_to_phys ptr <= x < kernel_virt_to_phys ptr + len) -> bs_mem s' x = bs_mem s x) /\
    (forall x, hw_disk (bs_hw s') x = hw_disk (bs_hw s) x)).
Proof.
  intros Hr Hw Hb. destruct (rw_sectors_ok s b VIRTIO_BLK_T_IN lba ptr len Hr (or_introl eq_refl) Hw Hb) as (res & s' & E & Hres & Hpr & Hok).
  exists res, s'. do 3 (split; [done|]). intros ->. destruct (Hok eq_refl) as (b' & H1 & H2 & Hm & Hd). exists b'. split_and!; try done.
  - rewrite <- (get_put_same (kernel_virt_to_phys ptr) (get_bytes (lba * SECTOR_SIZE) len (hw_disk (bs_hw s)))
      (put_bytes status_pa [255] (put_bytes header_pa (header_bytes VIRTIO_BLK_T_IN 0 lba) (bs_mem s))) len)
      by (rewrite length_get_bytes; destruct Hw as (_ & ? & _); lia).
    apply get_bytes_ext. intros i Hi. rewrite Hm. apply put_bytes_out. cbn. destruct Hb as [_ Hb]. lia.
  - intros x Hx Hout. rewrite Hm. destruct Hx as [Hh Hs]. unfold after_request.
    cbn [rq_status rq_type rq_data rq_len rq_sector]. rewrite Z.eqb_refl.
    rewrite put_bytes_out by (cbn; lia). rewrite put_bytes_out by (rewrite length_get_bytes; lia).
    rewrite put_bytes_out by (cbn; lia). apply put_bytes_out. rewrite length_header. lia.
Qed.

Lemma write_effect s b lba ptr len : blk_ready s b -> whole_sectors b lba len -> clear_buffer (kernel_virt_to_phys ptr) len ->
  exists res s', write_sectors serve req_header req_status lba ptr len s = Some (res, s') /\ request_result res /\ (prompt serve -> res = Ok tt) /\
    (res = Ok tt -> exists b', blk_ready s' b' /\ bd_capacity b' = bd_capacity b /\
    get_bytes (lba * SECTOR_SIZE) len (hw_disk (bs_hw s')) = get_bytes (kernel_virt_to_phys ptr) len (bs_mem s) /\
    (forall x, clear_buffer x 1 -> bs_mem s' x = bs_mem s x) /\
    (forall x, x < lba * SECTOR_SIZE \/ lba * SECTOR_SIZE + len <= x -> hw_disk (bs_hw s') x = hw_disk (bs_hw s) x)).
Proof.
  intros Hr Hw Hb. destruct (rw_sectors_ok s b VIRTIO_BLK_T_OUT lba ptr len Hr (or_intror eq_refl) Hw Hb) as (res & s' & E & Hres & Hpr & Hok).
  exists res, s'. do 3 (split; [done|]). intros ->. destruct (Hok eq_refl) as (b' & H1 & H2 & Hm & Hd). clear Hok.
  set (m1 := put_bytes status_pa [255] (put_bytes header_pa (header_bytes VIRTIO_BLK_T_OUT 0 lba) (bs_mem s))) in *.
  assert (Hm1 : forall x, clear_buffer x 1 -> m1 x = bs_mem s x).
  { intros x [Hh Hs]. unfold m1. rewrite put_bytes_out by (cbn; lia). apply put_bytes_out. rewrite length_header. lia. }
  assert (Hl : Z.of_nat (length (get_bytes (kernel_virt_to_phys ptr) len m1)) = len) by (rewrite length_get_bytes; destruct Hw as (_ & ? & _); lia).
  exists b'. split_and!; try done.
  - rewrite (get_bytes_ext _ _ _ _ (fun i _ => Hd _)). unfold disk_after. cbn. rewrite get_put_same by done.
    apply get_bytes_ext. intros i Hi. apply Hm1. destruct Hb as [Hh Hs]. split; lia.
  - intros x Hx. rewrite Hm. unfold after_request. cbn. rewrite put_bytes_out by (cbn; destruct Hx; lia). by apply Hm1.
  - intros x Hx. rewrite Hd. unfold disk_after. cbn. apply put_bytes_out. lia.
Qed.

End Correct.

(** C17. A write of sectors and then a read of the same sectors on a virtio block
    device that takes any time and may fail: each returns, with success or as an
    I/O error or a failed device, within the polls the driver makes.  If both
    report success, the read has brought back the bytes that were written; the
    write changed no other sector and the read none; no memory changed outside of
    the destination, the request header and the status byte; all descriptors are
    free again and the driver is ready for the next request.  On a device that
    completes requests with success while the driver polls, both succeed. *)
Theorem block_write_read D serve `{HD : VirtioBlkDevice D serve} req_header req_status s b lba src dst len :
  kernel_virt_to_phys req_status < kernel_virt_to_phys req_header \/ kernel_virt_to_phys req_header + 16 <= kernel_virt_to_phys req_status ->
  blk_ready s b -> whole_sectors b lba len -> clear_buffer req_header req_status (kernel_virt_to_phys src) len ->
  clear_buffer req_header req_status (kernel_virt_to_phys dst) len ->
  exists r1 s1, write_sectors serve req_header req_status lba src len s = Some (r1, s1) /\ request_result r1 /\ (prompt serve -> r1 = Ok tt) /\
    (r1 = Ok tt -> exists r2 s2, read_sectors serve req_header req_status lba dst len s1 = Some (r2, s2) /\ request_result r2 /\
      (prompt serve -> r2 = Ok tt) /\
      (r2 = Ok tt -> (exists b2, blk_ready s2 b2) /\
        get_bytes (kernel_virt_to_phys dst) len (bs_mem s2) = get_bytes (kernel_virt_to_phys src) len (bs_mem s) /\
        (forall x, x < lba * SECTOR_SIZE \/ lba * SECTOR_SIZE + len <= x -> hw_disk (bs_hw s2) x = hw_disk (bs_hw s) x) /\
        (forall x, clear_buffer req_header req_status x 1 -> ~ (kernel_virt_to_phys dst <= x < kernel_virt_to_phys dst + len) ->
           bs_mem s2 x = bs_mem s x))).
Proof.
  intros Hcells Hr Hw Hsrc Hdst.
  destruct (write_effect req_header req_status Hcells s b lba src len Hr Hw Hsrc) as (r1 & s1 & E1 & Hr1 & Hp1 & Hok1).
  exists r1, s1. do 3 (split; [done|]). intros ->. destruct (Hok1 eq_refl) as (b1 & H1 & Hc & Hget1 & Hm1 & Hd1).
  assert (Hw1 : whole_sectors b1 lba len) by (unfold whole_sectors in *; by rewrite Hc).
  destruct (read_effect req_header req_status Hcells s1 b1 lba dst len H1 Hw1 Hdst) as (r2 & s2 & E2 & Hr2 & Hp2 & Hok2).
  exists r2, s2. do 3 (split; [done|]). intros ->. destruct (Hok2 eq_refl) as (b2 & H2 & _ & Hget2 & Hm2 & Hd2).
  split_and!; [by exists b2|by rewrite Hget2|intros x Hx; by rewrite Hd2, Hd1|].
  intros x Hx Hout. by rewrite Hm2, Hm1.
Qed.

(** ** A device that serves at once *)

Record RefDisk := mkRef { ref_seen : Z; ref_disk : bmem; ref_sectors : Z }.

Definition ref_serve (d : RefDisk) (_ : Bus) (q : Virtqueue) (m : bmem) : RefDisk * VirtqUsed * bmem :=
  if av_idx (vq_avail q) =? ref_seen d then (d, vq_used q, m)
  else
    match av_ring (vq_avail q) !! Z.to_nat (ref_seen d mod vq_num q) with
    | Some h =>
        match decode_request q m h with
        | Some r => (mkRef (wrap 16 (ref_seen d + 1)) (disk_after r (ref_disk d) m) (ref_sectors d),
                     vq_used (device_complete h (rq_len r + 1) q), after_request r (ref_disk d) m)
        | None => (d, vq_used q, m)
        end
    | None => (d, vq_used q, m)
    end.

Lemma ref_serves_at_once d bus q m h r :
  av_idx (vq_avail q) = wrap 16 (ref_seen d + 1) -> av_ring (vq_avail q) !! Z.to_nat (ref_seen d mod vq_num q) = Some h ->
  decode_request q m h = Some r ->
  turns ref_serve 1 d bus q m = (mkRef (wrap 16 (ref_seen d + 1)) (disk_after r (ref_disk d) m) (ref_sectors d),
    vq_used (device_complete h (rq_len r + 1) q), after_request r (ref_disk d) m).
Proof.
  intros Ha Hh Hr. cbn [turns]. rewrite set_used_same. unfold ref_serve. rewrite (proj2 (Z.eqb_neq _ _)); [by rewrite Hh, Hr|].
  rewrite Ha. unfold wrap. intros He. pose proof (Z.div_mod (ref_seen d + 1) (2 ^ 16)). lia.
Qed.

#[global] Program Instance ref_device : VirtioBlkDevice RefDisk ref_serve :=
  {| hw_seen := ref_seen; hw_disk := ref_disk; hw_sectors := ref_sectors |}.
Next Obligation.
  intros d bus q m h r n Ha Hh Hr Hv Hp. right. destruct n as [|n].
  - eexists _, _, _. split; [by apply ref_serves_at_once|]. by split_and!.
  - exfalso. specialize (Hp 1%nat ltac:(lia)). rewrite (ref_serves_at_once d bus q m h r Ha Hh Hr) in Hp. cbn [fst snd] in Hp.
    apply (completed_differs h (rq_len r + 1) q). by rewrite Hp.
Qed.

Lemma ref_prompt : prompt ref_serve.
Proof.
  intros d bus q m h r Ha Hh Hr Hv. exists 0%nat. split; [done|]. split; [intros i Hi; by replace i with 0%nat by lia|].
  rewrite (ref_serves_at_once d bus q m h r Ha Hh Hr). cbn [fst snd]. split; [|apply put_byte_at].
  intros He. apply (completed_differs h (rq_len r + 1) q). by rewrite He.
Qed.

(** A disk of 8 sectors behind a driver that has just been initialised. *)
Definition demo_header : Z := KERNEL_VA_OFFSET + 65536.
Definition demo_status : Z := KERNEL_VA_OFFSET + 65600.
Definition demo_blk : BlkDevice := mkBlk (KERNEL_VA_OFFSET + 167772160) 8 (vq_init 131072 16) 48.
Definition demo_bs : BS RefDisk := mkBS (Some demo_blk) (fun x => x mod 251) [] (mkRef 0 (fun _ => 0) 8).

Lemma demo_ready : blk_ready demo_bs demo_blk.
Proof.
  split; try (by vm_compute). exists (seqZ 0 16). apply vq_init_inv. lia.
Qed.

Lemma block_write_read_witness : exists s1 s2,
  write_sectors ref_serve demo_header demo_status 2 (KERNEL_VA_OFFSET + 262144) 1024 demo_bs = Some (Ok tt, s1) /\
  read_sectors ref_serve demo_header demo_status 2 (KERNEL_VA_OFFSET + 524288) 1024 s1 = Some (Ok tt, s2) /\
  get_bytes 524288 1024 (bs_mem s2) = get_bytes 262144 1024 (bs_mem demo_bs).
Proof.
  destruct (block_write_read RefDisk ref_serve demo_header demo_status demo_bs demo_blk 2 (KERNEL_VA_OFFSET + 262144) (KERNEL_VA_OFFSET + 524288) 1024)
    as (r1 & s1 & E1 & _ & Hp1 & Hok1); [right; by vm_compute|apply demo_ready|by vm_compute| | |].
  - split; [right; by vm_compute|]. intros [H _]. by vm_compute in H.
  - split; [right; by vm_compute|]. intros [H _]. by vm_compute in H.
  - rewrite (Hp1 ref_prompt) in E1. destruct (Hok1 (Hp1 ref_prompt)) as (r2 & s2 & E2 & _ & Hp2 & Hok2).
    rewrite (Hp2 ref_prompt) in E2. destruct (Hok2 (Hp2 ref_prompt)) as (_ & Hg & _). by exists s1, s2.
Defined.

(** ** Time-outs *)

(** Too few free descriptors: what was taken is put back and nothing is posted. *)
Lemma request_refused {D} (serve : D -> Bus -> Virtqueue -> bmem -> D * VirtqUsed * bmem) req_header req_status s b base type sector ptr len
  free chains : bs_dev s = Some b -> vq_inv (bd_queue b) free [] chains -> (length free < 3)%nat ->
  exists q', do_block_request serve req_header req_status base type sector ptr len s =
      Some (Err DeviceFailed, mkBS (Some (with_queue b q')) (bs_mem s) (bs_bus s) (bs_hw s)) /\ vq_inv q' free [] chains /\
    vq_avail q' = vq_avail (bd_queue b) /\ vq_used q' = vq_used (bd_queue b) /\ vq_last_used_idx q' = vq_last_used_idx (bd_queue b).
Proof.
  intros Hb Hq Hl. unfold do_block_request. destruct free as [|i0 [|i1 [|i2 free]]]; [| | |cbn in Hl; lia].
  - exists (bd_queue b). erewrite bind_run; [|eapply on_queue_run; [done|by eapply alloc_desc_none]]. done.
  - destruct (alloc_desc_inv _ _ _ _ _ Hq) as (q1 & E1 & H1 & _ & Ha1 & Hu1 & Hl1 & _).
    destruct (free_desc_inv _ _ _ _ _ H1) as (q2 & E2 & H2 & _ & Ha2 & Hu2 & Hl2 & _). exists q2.
    erewrite bind_run; [|eapply on_queue_run; [done|exact E1]]. cbv beta iota.
    erewrite bind_run; [|eapply on_queue_run; [done|by eapply alloc_desc_none]]. cbv beta iota.
    erewrite bind_run; [|eapply on_queue_run; [done|exact E2]]. split_and!; [done|done|congruence..].
  - destruct (alloc_desc_inv _ _ _ _ _ Hq) as (q1 & E1 & H1 & _ & Ha1 & Hu1 & Hl1 & _).
    destruct (alloc_desc_inv _ _ _ _ _ H1) as (q2 & E2 & H2 & _ & Ha2 & Hu2 & Hl2 & _).
    destruct (free_desc_inv _ _ _ _ _ H2) as (q3 & E3 & H3 & _ & Ha3 & Hu3 & Hl3 & _).
    destruct (free_desc_inv _ _ _ _ _ H3) as (q4 & E4 & H4 & _ & Ha4 & Hu4 & Hl4 & _). exists q4.
    erewrite bind_run; [|eapply on_queue_run; [done|exact E1]]. cbv beta iota.
    erewrite bind_run; [|eapply on_queue_run; [done|exact E2]]. cbv beta iota.
    erewrite bind_run; [|eapply on_queue_run; [done|by eapply alloc_desc_none]]. cbv beta iota.
    erewrite bind_run; [|eapply on_queue_run; [done|exact E3]]. erewrite bind_run; [|eapply on_queue_run; [done|exact E4]].
    split_and!; [done|done|congruence..].
Qed.

(** The device leaves the used ring alone. *)
Definition silent {D} (serve : D -> Bus -> Virtqueue -> bmem -> D * VirtqUsed * bmem) : Prop :=
  forall d bus q m, (serve d bus q m).1.2 = vq_used q.

Lemma poll_silent {D} (serve : D -> Bus -> Virtqueue -> bmem -> D * VirtqUsed * bmem) b bus d m : silent serve ->
  us_idx (vq_used (bd_queue b)) = vq_last_used_idx (bd_queue b) ->
  exists d' m', loop_pos (poll_round serve) MAX_POLLS (mkBS (Some b) m bus d) = Some (None, mkBS (Some b) m' bus d').
Proof.
  intros Hs Hidle. apply poll_gives_up; [done|]. intros i _. set (q := bd_queue b).
  induction i as [|i IH]; [done|]. cbn [turns]. destruct (turns serve i d bus q m) as [[d1 u1] m1]. cbn in IH. subst u1.
  by rewrite set_used_same, Hs.
Qed.

(** When the device does not answer within ten million polls, the request fails
    and its three descriptors stay with the device: five such requests use up
    the queue of sixteen, and from then on every request fails, even if the
    device has recovered, without being posted. *)
Theorem block_timeout_leaks D (serve : D -> Bus -> Virtqueue -> bmem -> D * VirtqUsed * bmem) req_header req_status s b type sector ptr len
  free chains :
  bs_dev s = Some b -> vq_inv (bd_queue b) free [] chains -> us_idx (vq_used (bd_queue b)) = vq_last_used_idx (bd_queue b) ->
  bd_base_va b + TRANSPORT_SIZE <= 2 ^ 64 -> silent serve \/ (length free < 3)%nat ->
  exists s' b' free' chains', do_block_request serve req_header req_status (bd_base_va b) type sector ptr len s = Some (Err DeviceFailed, s') /\
    bs_dev s' = Some b' /\ vq_inv (bd_queue b') free' [] chains' /\ us_idx (vq_used (bd_queue b')) = vq_last_used_idx (bd_queue b') /\
    if decide (length free < 3)%nat
    then free' = free /\ chains' = chains /\ vq_avail (bd_queue b') = vq_avail (bd_queue b) /\ bs_bus s' = bs_bus s
    else exists c, length c = 3%nat /\ free = c ++ free' /\ chains' = c :: chains.
Proof.
  intros Hb Hq Hidle Hbase Hor. destruct (decide (length free < 3)%nat) as [Hlt|Hge].
  { destruct (request_refused serve req_header req_status s b (bd_base_va b) type sector ptr len free chains Hb Hq Hlt) as (q' & E & H' & Ha & Hu & Hl).
    eexists _, _, free, chains. split; [exact E|]. split_and!; try done. cbn. congruence. }
  destruct Hor as [Hs|?]; [|lia]. destruct free as [|i0 [|i1 [|i2 free]]]; [cbn in Hge; lia..|].
  set (x0 := req_x0 req_header i1). set (x1 := req_x1 type ptr len i2). set (x2 := req_x2 req_status).
  destruct (request_posted serve req_header req_status type sector ptr len i0 i1 i2 s b free chains Hb Hq Hbase)
    as (q1 & q2 & q3 & q7 & _ & _ & _ & H3 & Hu & Hl & E7 & ->). fold x0 x1 x2 in E7.
  destruct (submitted_inv i0 i1 i2 free x0 x1 x2 q3 _ H3) as (_ & _ & _ & H6 & Hd0 & Hd1 & Hd2).
  destruct (push_avail_inv _ i0 _ _ _ H6) as (q7' & E7' & H7 & Hd7 & Hu7 & Hl7 & _). simplify_eq. unfold await_request.
  edestruct (poll_silent serve (mkBlk (bd_base_va b) (bd_capacity b) q7 (bd_irq b))) as (d' & m' & E8); [done|cbn; rewrite Hu7, Hl7; cbn; congruence|].
  erewrite bind_run; [|exact E8]. eexists _, _, free, ([i0; i1; i2] :: chains). split; [reflexivity|]. split; [done|].
  split; [|split; [cbn; rewrite Hu7, Hl7; cbn; congruence|by exists [i0; i1; i2]]].
  apply (regroup _ _ [i2; i1; i0] chains); [done|cbn; solve_Permutation|]. apply Forall_cons. split; [|apply (inv_chains _ _ _ _ H7)].
  cbn. rewrite Hd7. exists x0. split; [done|]. split_and!; try done. exists x1. split; [done|]. split; [apply data_flags_next|]. eauto.
Qed.

Definition mute_serve (d : unit) (_ : Bus) (q : Virtqueue) (m : bmem) : unit * VirtqUsed * bmem := (d, vq_used q, m).

Lemma block_timeout_leaks_witness : exists s' b' free' chains',
  do_block_request mute_serve demo_header demo_status (bd_base_va demo_blk) VIRTIO_BLK_T_IN 0 (KERNEL_VA_OFFSET + 262144) 512
    (mkBS (Some demo_blk) (fun _ => 0) [] tt) = Some (Err DeviceFailed, s') /\
  bs_dev s' = Some b' /\ vq_inv (bd_queue b') free' [] chains' /\ seqZ 0 16 = [0; 1; 2] ++ free' /\ chains' = [[0; 1; 2]].
Proof.
  destruct (block_timeout_leaks unit mute_serve demo_header demo_status (mkBS (Some demo_blk) (fun _ => 0) [] tt) demo_blk VIRTIO_BLK_T_IN 0
    (KERNEL_VA_OFFSET + 262144) 512 (seqZ 0 16) []) as (s' & b' & free' & chains' & E & Hb & Hv & _ & Hc);
    [done|apply vq_init_inv; lia|done|by vm_compute|by left|].
  rewrite decide_False in Hc by (vm_compute; lia). destruct Hc as (c & Hl & Hf & ->). exists s', b', free', [c].
  assert (Hc : c = [0; 1; 2]).
  { clear -Hl Hf. destruct c as [|c0 [|c1 [|c2 [|]]]]; try (cbn in Hl; lia). by injection Hf as <- <- <- _. }
  subst c. exact (conj E (conj Hb (conj Hv (conj Hf eq_refl)))).
Defined.

(** ** Initialisation *)

Section Init.
Variable answer : Bus -> Z -> Z.

(** A device with a capacity that the driver can print is ready for requests;
    a larger one panics the kernel. *)
Lemma init_block_device_result {D} vqueue_buf gicd gicr base idx (s : BS D) :
  0 <= gicd /\ gicd + 65536 <= gicr /\ gicr + 131072 <= 2 ^ 64 -> base + TRANSPORT_SIZE <= 2 ^ 64 -> 0 <= idx < NUM_TRANSPORTS ->
  exists c, 0 <= c < 2 ^ 64 /\
  match init_block_device answer vqueue_buf gicd gicr base idx s with
  | Some (true, s') => bs_dev s' = Some (mkBlk base c (vq_init (kernel_virt_to_phys vqueue_buf) BLK_QUEUE_SIZE) (VIRTIO_IRQ_BASE + idx)) /\
      bs_mem s' = bs_mem s /\ 0 < c /\ c * SECTOR_SIZE < 2 ^ 64
  | Some (false, s') => bs_dev s' = bs_dev s /\ bs_mem s' = bs_mem s
  | None => 2 ^ 64 <= c * SECTOR_SIZE
  end.
Proof.
  intros Hg Hb Hi. unfold init_block_device, on_regs, on_bus.
  destruct (init_device_result answer base 0 (bs_bus s) Hb) as (r & h1 & E1 & _). unfold bind at 1. rewrite E1.
  destruct r as [f|]; [|exists 0; split; [lia|done]].
  destruct (read_config_u64_result answer base h1 Hb) as (c & h2 & E2 & Hc). exists c. split; [done|]. unfold bind at 1. cbn [bs_bus]. rewrite E2.
  destruct (Z.eqb_spec c 0); [done|]. set (q := vq_init _ _). destruct (setup_queue_result answer base 0 q PAGE_SIZE h2 Hb) as (h3 & E3).
  unfold bind at 1. cbn [bs_bus]. rewrite E3. destruct (driver_ok_result answer base h3 Hb) as (h4 & E4). unfold bind at 1. cbn [bs_bus]. rewrite E4.
  destruct (enable_irq_exact gicd gicr Hg (VIRTIO_IRQ_BASE + idx) h4) as (h5 & E5 & _); [unfold VIRTIO_IRQ_BASE, NUM_TRANSPORTS in *; lia|].
  unfold bind at 1. cbn [bs_bus]. rewrite E5. unfold bind at 1, assertb. destruct (Z.ltb_spec (c * SECTOR_SIZE) (2 ^ 64)); [|done].
  cbn. split_and!; [done|done|lia|done].
Qed.

End Init.
