(* ===== verification/Net.v ===== *)
(** * The network stack

    Models [xous/kernel/src/platform/qemu_virt/net_stack.rs]: ARP and ICMP echo
    replies, the DHCP client with its retransmissions, and the Internet
    checksum.

    The stack runs against class [NetDriver], the functions of [net.rs] it
    calls; [NetDev] gives the instance.  Frames are lists of bytes; reads of a
    byte or slice outside of a frame panic.  The message printed when an
    address is bound is left out. *)

From S2P Require Import Prelude.
From Stdlib Require Import ZArith Lia Bool.
From stdpp Require Import list relations.
Open Scope Z_scope.

(** ** Bytes of a frame *)

Definition byte_at {S} (l : list Z) (i : Z) : M S Z := expect (l !! Z.to_nat i).
(** [&l[from..to]] and [&l[from..]] *)
Definition slice {S} (l : list Z) (from to : Z) : M S (list Z) :=
  if (from <=? to) && (to <=? Z.of_nat (length l)) then ret (take (Z.to_nat (to - from)) (drop (Z.to_nat from) l)) else panic.
Definition slice_from {S} (l : list Z) (from : Z) : M S (list Z) := slice l from (Z.of_nat (length l)).
(** [p[off..off + l.len()].copy_from_slice(l)] *)
Definition blit {S} (p : list Z) (off : Z) (l : list Z) : M S (list Z) :=
  if off + Z.of_nat (length l) <=? Z.of_nat (length p)
  then ret (take (Z.to_nat off) p ++ l ++ drop (Z.to_nat off + length l) p) else panic.

Definition be16 (a b : Z) : Z := 256 * a + b.
Definition be32 (a b c d : Z) : Z := 256 * (256 * (256 * a + b) + c) + d.
Definition to_be16 (x : Z) : list Z := [x / 256 mod 256; x mod 256].
Definition to_be32 (x : Z) : list Z := [x / 16777216 mod 256; x / 65536 mod 256; x / 256 mod 256; x mod 256].

(** ** The Internet checksum *)

(** [data[i], data[i + 1]] for [i = 0, 2, ..] and an odd last byte *)
Fixpoint sum_words (data : list Z) (sum : Z) : option Z :=
  match data with
  | [] => Some sum
  | [a] => let s := sum + Z.shiftl a 8 in if s <? 2 ^ 32 then Some s else None
  | a :: b :: data => let s := sum + be16 a b in if s <? 2 ^ 32 then sum_words data s else None
  end.

(** A round of the second loop at least halves a sum above [0xFFFF]; from 32
    bits on, three are enough. *)
Fixpoint fold_carry (fuel : nat) (sum : Z) : option Z :=
  if Z.shiftr sum 16 =? 0 then Some sum
  else match fuel with O => None | S fuel => fold_carry fuel (Z.land sum 65535 + Z.shiftr sum 16) end.

Definition internet_checksum {S} (data : list Z) : M S Z :=
  sum <- expect (sum_words data 0) ;;
  sum <- expect (fold_carry 3 sum) ;;
  ret (65535 - wrap 16 sum).

(** ** State *)

Inductive DhcpState := DInit | Discovering | Requesting | Bound.

Record NetState := mkNet {
  ip : list Z; gateway : list Z; server_ip : list Z; dhcp_state : DhcpState; dhcp_xid : Z; dhcp_retry : Z; req_retries : Z }.

Definition NO_IP : list Z := [0; 0; 0; 0].
Definition STATE0 : NetState := mkNet NO_IP NO_IP NO_IP DInit 0 0 0.
Definition DHCP_RETRY_TICKS : Z := 200.

(** What the stack calls of [net.rs]. *)
Class NetDriver (N : Type) := {
  get_mac : N -> option (list Z);
  poll_recv : M N (option (Z * Z));
  get_rx_frame : Z -> Z -> M N (list Z);
  return_rx_buffer : Z -> M N unit;
  send_packet : list Z -> M N unit }.

Definition DHCP_MAGIC : list Z := [99; 130; 83; 99].
Definition DHCP_OPT_MSG_TYPE : Z := 53.
Definition DHCP_OPT_SERVER_ID : Z := 54.
Definition DHCP_OPT_REQUESTED_IP : Z := 50.
Definition DHCP_OPT_SUBNET_MASK : Z := 1.
Definition DHCP_OPT_ROUTER : Z := 3.
Definition DHCP_MSG_OFFER : Z := 2.
Definition DHCP_MSG_ACK : Z := 5.
Definition PKT_SIZE : Z := 338.
Definition DHCP_OPTS_OFF : Z := 282.
Definition BROADCAST_MAC : list Z := [255; 255; 255; 255; 255; 255].

Section Stack.
Context {N : Type} `{ND : NetDriver N}.

Record NS := mkNS { ns_st : NetState; ns_dev : N }.

Definition on_dev {X} (op : M N X) : M NS X :=
  fun s => match op (ns_dev s) with Some (x, n) => Some (x, mkNS (ns_st s) n) | None => None end.
Definition modify_st (f : NetState -> NetState) : M NS unit := modify (fun s => mkNS (f (ns_st s)) (ns_dev s)).
Definition mac : M NS (option (list Z)) := gets (fun s => get_mac (ns_dev s)).
Definition send (frame : list Z) : M NS unit := on_dev (send_packet frame).

Definition net_init : M NS unit :=
  o <- mac ;;
  match o with
  | Some m =>
      a <- byte_at m 2 ;; b <- byte_at m 3 ;; c <- byte_at m 4 ;; d <- byte_at m 5 ;;
      modify_st (fun s => mkNet (ip s) (gateway s) (server_ip s) Discovering (be32 a b c d) 0 (req_retries s))
  | None => ret tt
  end.

Definition get_ip : M NS (list Z) := gets (fun s => ip (ns_st s)).

(** *** ARP *)

Definition arp_reply (our_mac our_ip sender_mac sender_ip : list Z) : list Z :=
  (sender_mac ++ our_mac ++ [8; 6]) ++
  [0; 1] ++ [8; 0] ++ [6; 4] ++ [0; 2] ++ our_mac ++ our_ip ++ sender_mac ++ sender_ip.

Definition handle_arp (arp : list Z) : M NS unit :=
  if Z.of_nat (length arp) <? 28 then ret tt
  else
    a <- byte_at arp 6 ;; b <- byte_at arp 7 ;;
    if negb (be16 a b =? 1) then ret tt
    else
      target_ip <- slice arp 24 28 ;;
      our_ip <- get_ip ;;
      if bool_decide (our_ip = NO_IP) || negb (bool_decide (target_ip = our_ip)) then ret tt
      else
        sender_mac <- slice arp 8 14 ;;
        sender_ip <- slice arp 14 18 ;;
        o <- mac ;;
        match o with
        | None => ret tt
        | Some our_mac => send (arp_reply our_mac our_ip sender_mac sender_ip)
        end.

(** *** ICMP *)

(** The Ethernet and IPv4 headers of an echo reply, with [csum] as checksum. *)
Definition echo_header (src_mac our_mac our_ip src_ip : list Z) (ip_total : Z) (csum : list Z) : list Z :=
  (src_mac ++ our_mac ++ [8; 0]) ++
  [69; 0] ++ to_be16 ip_total ++ [0; 0] ++ [0; 0] ++ [64; 1] ++ csum ++ our_ip ++ src_ip.

Definition handle_icmp (frame src_ip dst_ip icmp : list Z) : M NS unit :=
  our_ip <- get_ip ;;
  if bool_decide (our_ip = NO_IP) || negb (bool_decide (dst_ip = our_ip)) then ret tt
  else if Z.of_nat (length icmp) <? 8 then ret tt
  else
    t <- byte_at icmp 0 ;;
    if negb (t =? 8) then ret tt
    else
      src_mac <- slice frame 6 12 ;;
      o <- mac ;;
      match o with
      | None => ret tt
      | Some our_mac =>
          let payload_len := Z.of_nat (length icmp) in
          let copy_len := Z.max 0 (payload_len - 4) in
          let total := 14 + 20 + payload_len in
          if 1518 <? total then ret tt
          else
            let ip_total := wrap 16 (20 + payload_len) in
            reply <- blit (replicate 1518 0) 0 (echo_header src_mac our_mac our_ip src_ip ip_total [0; 0]) ;;
            header <- slice reply 14 34 ;;
            ip_csum <- internet_checksum header ;;
            reply <- blit reply 24 (to_be16 ip_csum) ;;
            reply <- blit reply 34 [0; 0; 0; 0] ;;
            data <- slice icmp 4 (4 + copy_len) ;;
            reply <- (if 0 <? copy_len then blit reply 38 data else ret reply) ;;
            body <- slice reply 34 (34 + payload_len) ;;
            icmp_csum <- internet_checksum body ;;
            reply <- blit reply 36 (to_be16 icmp_csum) ;;
            out <- slice reply 0 total ;;
            send out
      end.

(** *** DHCP *)

Record DhcpOpts := mkOpts { o_msg_type : Z; o_server : list Z; o_router : list Z }.

(** The loop over the options from [i] on; [i] grows in every round, so that the
    length of the message is enough fuel. *)
Fixpoint dhcp_options (fuel : nat) (dhcp : list Z) (i : Z) (o : DhcpOpts) : M NS DhcpOpts :=
  let len := Z.of_nat (length dhcp) in
  if i <? len then
    match fuel with
    | O => panic
    | S fuel =>
        opt <- byte_at dhcp i ;;
        let i := i + 1 in
        if opt =? 0 then dhcp_options fuel dhcp i o
        else if opt =? 255 then ret o
        else if len <=? i then ret o
        else
          l <- byte_at dhcp i ;;
          let i := i + 1 in
          if len <? i + l then ret o
          else
            o <- (if (opt =? DHCP_OPT_MSG_TYPE) && (1 <=? l) then m <- byte_at dhcp i ;; ret (mkOpts m (o_server o) (o_router o))
                  else if (opt =? DHCP_OPT_SERVER_ID) && (4 <=? l) then v <- slice dhcp i (i + 4) ;; ret (mkOpts (o_msg_type o) v (o_router o))
                  else if (opt =? DHCP_OPT_ROUTER) && (4 <=? l) then v <- slice dhcp i (i + 4) ;; ret (mkOpts (o_msg_type o) (o_server o) v)
                  else ret o) ;;
            dhcp_options fuel dhcp (i + l) o
    end
  else ret o.

(** The new state on a message of type [o_msg_type o] that offers [yiaddr]. *)
Definition dhcp_transition (yiaddr : list Z) (o : DhcpOpts) (s : NetState) : NetState :=
  match dhcp_state s with
  | Discovering =>
      if o_msg_type o =? DHCP_MSG_OFFER then mkNet yiaddr (o_router o) (o_server o) Requesting (dhcp_xid s) 0 0 else s
  | Requesting =>
      if o_msg_type o =? DHCP_MSG_ACK
      then mkNet yiaddr (o_router o) (o_server o) Bound (dhcp_xid s) (dhcp_retry s) (req_retries s) else s
  | _ => s
  end.

Definition handle_dhcp (server : list Z) (dhcp : list Z) : M NS unit :=
  if Z.of_nat (length dhcp) <? 240 then ret tt
  else
    op <- byte_at dhcp 0 ;;
    magic <- slice dhcp 236 240 ;;
    if negb (op =? 2) || negb (bool_decide (magic = DHCP_MAGIC)) then ret tt
    else
      a <- byte_at dhcp 4 ;; b <- byte_at dhcp 5 ;; c <- byte_at dhcp 6 ;; d <- byte_at dhcp 7 ;;
      our_xid <- gets (fun s => dhcp_xid (ns_st s)) ;;
      if negb (be32 a b c d =? our_xid) then ret tt
      else
        yiaddr <- slice dhcp 16 20 ;;
        o <- dhcp_options (length dhcp) dhcp 240 (mkOpts 0 server NO_IP) ;;
        modify_st (dhcp_transition yiaddr o).

Definition handle_udp (src_ip dst_ip udp : list Z) : M NS unit :=
  if Z.of_nat (length udp) <? 8 then ret tt
  else
    a <- byte_at udp 0 ;; b <- byte_at udp 1 ;; c <- byte_at udp 2 ;; d <- byte_at udp 3 ;;
    if (be16 a b =? 67) && (be16 c d =? 68) && (8 <? Z.of_nat (length udp))
    then dhcp <- slice_from udp 8 ;; handle_dhcp src_ip dhcp
    else ret tt.

(** *** Frames *)

Definition handle_ipv4 (frame ipv4 : list Z) : M NS unit :=
  if Z.of_nat (length ipv4) <? 20 then ret tt
  else
    v <- byte_at ipv4 0 ;;
    let ihl := Z.land v 15 * 4 in
    if (ihl <? 20) || (Z.of_nat (length ipv4) <? ihl) then ret tt
    else
      proto <- byte_at ipv4 9 ;;
      src_ip <- slice ipv4 12 16 ;;
      dst_ip <- slice ipv4 16 20 ;;
      payload <- slice_from ipv4 ihl ;;
      if proto =? 1 then handle_icmp frame src_ip dst_ip payload
      else if proto =? 17 then handle_udp src_ip dst_ip payload
      else ret tt.

Definition process_frame (frame : list Z) : M NS unit :=
  if Z.of_nat (length frame) <? 14 then ret tt
  else
    a <- byte_at frame 12 ;; b <- byte_at frame 13 ;;
    payload <- slice_from frame 14 ;;
    if be16 a b =? 2054 then handle_arp payload
    else if be16 a b =? 2048 then handle_ipv4 frame payload
    else ret tt.

(** *** Requests *)

(** [build_dhcp_eth_ip_udp]: the first 282 bytes, with [csum] as IPv4 checksum. *)
Definition dhcp_frame (our_mac : list Z) (xid : Z) (csum options : list Z) : list Z :=
  (BROADCAST_MAC ++ our_mac ++ [8; 0]) ++
  ([69; 16] ++ to_be16 324 ++ [0; 171] ++ [0; 0] ++ [64; 17] ++ csum ++ [0; 0; 0; 0] ++ [255; 255; 255; 255]) ++
  (to_be16 68 ++ to_be16 67 ++ to_be16 304 ++ [0; 0]) ++
  ([1; 1; 6; 0] ++ to_be32 xid ++ [0; 0] ++ [128; 0] ++ replicate 16 0 ++ our_mac ++ replicate 202 0 ++ DHCP_MAGIC) ++
  options ++ replicate (56 - length options) 0.

Definition finalize_ipv4_checksum (pkt : list Z) : M NS (list Z) :=
  header <- slice pkt 14 34 ;;
  csum <- internet_checksum header ;;
  blit pkt 24 (to_be16 csum).

Definition discover_options : list Z :=
  [DHCP_OPT_MSG_TYPE; 1; 1; 55; 2; DHCP_OPT_SUBNET_MASK; DHCP_OPT_ROUTER; 255].
Definition request_options (requested_ip server : list Z) : list Z :=
  [DHCP_OPT_MSG_TYPE; 1; 3; DHCP_OPT_REQUESTED_IP; 4] ++ requested_ip ++ [DHCP_OPT_SERVER_ID; 4] ++ server ++ [255].

Definition send_dhcp (options : list Z) : M NS unit :=
  o <- mac ;;
  match o with
  | None => ret tt
  | Some m =>
      xid <- gets (fun s => dhcp_xid (ns_st s)) ;;
      pkt <- finalize_ipv4_checksum (dhcp_frame m xid [0; 0] options) ;;
      send pkt
  end.
Definition send_dhcp_discover : M NS unit := send_dhcp discover_options.
Definition send_dhcp_request (requested_ip server : list Z) : M NS unit := send_dhcp (request_options requested_ip server).

(** *** The tick *)

(** [while let Some(..) = net::poll_recv()], for at most [fuel] frames. *)
Fixpoint drain (fuel : nat) : M NS unit :=
  match fuel with
  | O => panic
  | S fuel =>
      o <- on_dev poll_recv ;;
      match o with
      | None => ret tt
      | Some (desc_head, frame_len) =>
          let len := Z.min frame_len 1518 in
          frame <- on_dev (get_rx_frame desc_head frame_len) ;;
          _ <- assertb (Z.of_nat (length frame) =? len) ;;
          _ <- on_dev (return_rx_buffer desc_head) ;;
          _ <- process_frame frame ;;
          drain fuel
      end
  end.

Definition dhcp_tick (tick_count : Z) : M NS unit :=
  s <- gets ns_st ;;
  match dhcp_state s with
  | DInit => ret tt
  | Discovering =>
      if dhcp_retry s <=? tick_count then
        _ <- send_dhcp_discover ;;
        t <- add64 tick_count DHCP_RETRY_TICKS ;;
        modify_st (fun s => mkNet (ip s) (gateway s) (server_ip s) (dhcp_state s) (dhcp_xid s) t (req_retries s))
      else ret tt
  | Requesting =>
      if dhcp_retry s <=? tick_count then
        n <- add_w 8 (req_retries s) 1 ;;
        if 3 <? n then
          t <- add64 tick_count DHCP_RETRY_TICKS ;;
          modify_st (fun s => mkNet (ip s) (gateway s) (server_ip s) Discovering (dhcp_xid s) t 0)
        else
          _ <- send_dhcp_request (ip s) (server_ip s) ;;
          t <- add64 tick_count DHCP_RETRY_TICKS ;;
          modify_st (fun s => mkNet (ip s) (gateway s) (server_ip s) (dhcp_state s) (dhcp_xid s) t n)
      else ret tt
  | Bound => ret tt
  end.

Definition tick (fuel : nat) (tick_count : Z) : M NS unit :=
  o <- mac ;;
  match o with
  | None => ret tt
  | Some _ => _ <- drain fuel ;; dhcp_tick tick_count
  end.

End Stack.

Arguments NS : clear implicits.

(** ** The checksum *)

Abbreviation bytes_ok l := (Forall (fun b => 0 <= b < 256) l).

(** The sum of the big-endian words, without a bound. *)
Fixpoint word_sum (data : list Z) : Z :=
  match data with
  | [] => 0
  | [a] => 256 * a
  | a :: b :: data => be16 a b + word_sum data
  end.

(** Induction in steps of two bytes. *)
Lemma pair_ind (P : list Z -> Prop) : P [] -> (forall a, P [a]) -> (forall a b l, P l -> P (a :: b :: l)) -> forall l, P l.
Proof.
  intros H0 H1 H2 l. assert (H : P l /\ forall a, P (a :: l)); [|apply H].
  induction l as [|b l [IH1 IH2]]; [done|]. split; [apply IH2|]. intros a. by apply H2.
Qed.

Lemma word_sum_app a b : (length a `mod` 2 = 0)%nat -> word_sum (a ++ b) = word_sum a + word_sum b.
Proof.
  revert a. refine (pair_ind _ _ _ _); [done|done|]. intros x y l IH Hl. cbn [word_sum app]. rewrite IH; [lia|].
  cbn [length] in Hl. replace (S (S (length l))) with (length l + 1 * 2)%nat in Hl by lia. by rewrite Nat.Div0.mod_add in Hl.
Qed.

Lemma word_sum_bound data : bytes_ok data -> 0 <= word_sum data <= 65535 * (Z.of_nat (length data)).
Proof.
  revert data. refine (pair_ind _ _ _ _); [done| |].
  - intros a Ha. apply Forall_cons in Ha as [Ha _]. cbn [word_sum length]. lia.
  - intros a b l IH Hl. apply Forall_cons in Hl as [Ha Hl]. apply Forall_cons in Hl as [Hb Hl]. specialize (IH Hl). cbn [word_sum length].
    unfold be16. lia.
Qed.

Lemma sum_words_exact data sum : bytes_ok data -> 0 <= sum -> sum + word_sum data < 2 ^ 32 ->
  sum_words data sum = Some (sum + word_sum data).
Proof.
  revert data sum. refine (pair_ind _ _ _ _).
  - intros sum _ _ _. cbn. by rewrite Z.add_0_r.
  - intros a sum _ Hs Hb. cbn [sum_words word_sum] in *. rewrite Z.shiftl_mul_pow2 by lia. change (2 ^ 8) with 256.
    rewrite (Z.mul_comm a). by rewrite (proj2 (Z.ltb_lt _ _)) by lia.
  - intros a b l IH sum Hl Hs Hb. apply Forall_cons in Hl as [Ha Hl]. apply Forall_cons in Hl as [Hb' Hl]. cbn [sum_words word_sum] in *.
    pose proof (word_sum_bound l Hl). unfold be16 in *. rewrite (proj2 (Z.ltb_lt _ _)) by lia. rewrite IH by (try done; lia). f_equal. lia.
Qed.

(** The one's complement residue of a sum: between 1 and [0xFFFF], 0 only for 0. *)
Definition residue (s : Z) : Z := if s =? 0 then 0 else (s - 1) mod 65535 + 1.

Lemma residue_carry s : 0 <= s -> residue (s mod 65536 + s / 65536) = residue s.
Proof.
  intros Hs. pose proof (Z.div_mod s 65536 ltac:(lia)) as Hd. pose proof (Z.mod_pos_bound s 65536 ltac:(lia)) as Hm.
  pose proof (Z.div_pos s 65536 Hs ltac:(lia)) as Hq. unfold residue.
  destruct (Z.eqb_spec s 0) as [->|Hne]; [done|]. rewrite (proj2 (Z.eqb_neq (s mod 65536 + s / 65536) 0)) by lia. f_equal.
  replace (s - 1) with (s mod 65536 + s / 65536 - 1 + s / 65536 * 65535) by lia. by rewrite Z.mod_add.
Qed.

Lemma fold_carry_step fuel s : 0 <= s -> fold_carry (S fuel) s =
  if s <? 65536 then Some s else fold_carry fuel (s mod 65536 + s / 65536).
Proof.
  intros Hs. cbn [fold_carry]. rewrite Z.shiftr_div_pow2 by lia. change (2 ^ 16) with 65536. change 65535 with (Z.ones 16). rewrite Z.land_ones by lia.
  change (2 ^ 16) with 65536. destruct (Z.ltb_spec s 65536) as [Hlt|Hge].
  - by rewrite Z.div_small.
  - rewrite (proj2 (Z.eqb_neq _ _)); [done|]. assert (1 <= s / 65536) by (apply Z.div_le_lower_bound; lia). lia.
Qed.

Lemma residue_small s : 0 <= s < 65536 -> residue s = s.
Proof. intros Hs. unfold residue. destruct (Z.eqb_spec s 0) as [->|]; [done|]. rewrite Z.mod_small; lia. Qed.

Lemma fold_carry_exact s : 0 <= s < 2 ^ 32 -> fold_carry 3 s = Some (residue s).
Proof.
  intros Hs. rewrite fold_carry_step by lia. destruct (Z.ltb_spec s 65536); [by rewrite residue_small by lia|].
  rewrite <- residue_carry by lia. pose proof (Z.mod_pos_bound s 65536 ltac:(lia)).
  assert (0 <= s / 65536 < 65536) by (split; [apply Z.div_pos; lia|apply Z.div_lt_upper_bound; lia]).
  set (s1 := s mod 65536 + s / 65536) in *. rewrite fold_carry_step by lia. destruct (Z.ltb_spec s1 65536); [by rewrite residue_small by lia|].
  rewrite <- residue_carry by lia. assert (Hq : s1 / 65536 = 1) by (symmetry; apply (Z.div_unique _ _ _ (s1 - 65536)); lia).
  pose proof (Z.div_mod s1 65536 ltac:(lia)) as Hd. rewrite Hq in Hd |- *. rewrite fold_carry_step by lia.
  rewrite (proj2 (Z.ltb_lt _ _)) by lia. by rewrite residue_small by lia.
Qed.

Lemma residue_range s : 0 <= s -> 0 <= residue s < 65536.
Proof. intros Hs. unfold residue. case_match; [lia|]. pose proof (Z.mod_pos_bound (s - 1) 65535). lia. Qed.

Lemma internet_checksum_exact {S} data (s : S) : bytes_ok data -> Z.of_nat (length data) <= 65536 ->
  internet_checksum data s = Some (65535 - residue (word_sum data), s).
Proof.
  intros Hb Hl. pose proof (word_sum_bound data Hb) as Hw. unfold internet_checksum.
  rewrite (sum_words_exact data 0) by (try done; lia). rewrite Z.add_0_l. cbn [expect]. rewrite bind_ret_l.
  rewrite fold_carry_exact by lia. cbn [expect]. rewrite bind_ret_l. unfold ret. rewrite wrap_small; [done|].
  apply fits_spec. pose proof (residue_range (word_sum data) ltac:(lia)). lia.
Qed.

Lemma to_be16_ok x : bytes_ok (to_be16 x).
Proof. unfold to_be16. pose proof (Z.mod_pos_bound (x / 256) 256). pose proof (Z.mod_pos_bound x 256). repeat constructor; lia. Qed.

Lemma word_sum_be16 x : 0 <= x < 65536 -> word_sum (to_be16 x) = x.
Proof.
  intros Hx. unfold to_be16. cbn [word_sum]. unfold be16. rewrite (Z.mod_small (x / 256)).
  - pose proof (Z.div_mod x 256). lia.
  - split; [apply Z.div_pos; lia|apply Z.div_lt_upper_bound; lia].
Qed.

(** Bytes whose checksum field, at an even offset, has been filled in. *)
Definition checksummed (a b : list Z) : list Z := a ++ to_be16 (65535 - residue (word_sum (a ++ [0; 0] ++ b))) ++ b.

(** A receiver finds the checksum of such bytes to be right. *)
Lemma checksum_verifies {S} a b (s : S) : bytes_ok a -> bytes_ok b -> (length a `mod` 2 = 0)%nat ->
  Z.of_nat (length a + 2 + length b) <= 65536 -> internet_checksum (checksummed a b) s = Some (0, s).
Proof.
  intros Ha Hb Hev Hl. unfold checksummed. pose proof (word_sum_bound a Ha) as Hwa. pose proof (word_sum_bound b Hb) as Hwb.
  set (w := word_sum (a ++ [0; 0] ++ b)).
  assert (Hw : w = word_sum a + word_sum b) by (unfold w; rewrite word_sum_app by done; reflexivity).
  pose proof (residue_range w ltac:(lia)) as Hr.
  rewrite internet_checksum_exact; [| |rewrite !length_app; cbn; lia].
  - do 2 f_equal. rewrite !word_sum_app by done. rewrite word_sum_be16 by lia.
    assert (Hv : residue (word_sum a + (65535 - residue w + word_sum b)) = 65535); [|lia].
    unfold residue at 1. unfold residue in Hr |- *. destruct (Z.eqb_spec w 0) as [Hw0|Hw0].
    + rewrite (proj2 (Z.eqb_neq _ _)) by lia. replace (word_sum a + (65535 - 0 + word_sum b) - 1) with 65534 by lia. done.
    + pose proof (Z.div_mod (w - 1) 65535 ltac:(lia)) as Hd. pose proof (Z.mod_pos_bound (w - 1) 65535 ltac:(lia)).
      rewrite (proj2 (Z.eqb_neq _ _)) by lia.
      replace (word_sum a + (65535 - ((w - 1) mod 65535 + 1) + word_sum b) - 1) with (65534 + (w - 1) / 65535 * 65535) by lia.
      by rewrite Z.mod_add.
  - rewrite !Forall_app. split_and!; [done|apply to_be16_ok|done].
Qed.

(** ** What the driver promises *)

(** [nd_pending] bounds the frames that can still be received in this tick. *)
Class NetDriverLaws (N : Type) `{NetDriver N} := {
  nd_ok : N -> Prop;
  nd_pending : N -> nat;
  nd_mac : forall n m, nd_ok n -> get_mac n = Some m -> length m = 6%nat /\ bytes_ok m;
  nd_send : forall f n, nd_ok n -> bytes_ok f -> exists n', send_packet f n = Some (tt, n') /\ nd_ok n' /\ get_mac n' = get_mac n /\
    (nd_pending n' <= nd_pending n)%nat;
  nd_poll : forall n, nd_ok n -> is_Some (get_mac n) -> exists r n', poll_recv n = Some (r, n') /\ get_mac n' = get_mac n /\
    match r with
    | None => nd_ok n' /\ (nd_pending n' <= nd_pending n)%nat
    | Some (d, l) => exists f n2, get_rx_frame d l n' = Some (f, n') /\ Z.of_nat (length f) = l /\ l <= 1518 /\ bytes_ok f /\
        return_rx_buffer d n' = Some (tt, n2) /\ nd_ok n2 /\ get_mac n2 = get_mac n /\ (nd_pending n2 < nd_pending n)%nat
    end }.

(** ** No frame panics the stack *)

Definition addr_ok (a : list Z) : Prop := length a = 4%nat /\ bytes_ok a.
Definition net_ok (s : NetState) : Prop :=
  addr_ok (ip s) /\ addr_ok (gateway s) /\ addr_ok (server_ip s) /\ 0 <= req_retries s <= 3 /\ 0 <= dhcp_retry s.

Lemma byte_at_run {S} l i (s : S) : 0 <= i < Z.of_nat (length l) -> exists b, byte_at l i s = Some (b, s) /\ l !! Z.to_nat i = Some b.
Proof.
  intros Hi. assert (Hb : is_Some (l !! Z.to_nat i)) by (apply lookup_lt_is_Some; lia). destruct Hb as [b Hb]. exists b.
  unfold byte_at. by rewrite Hb.
Qed.

Lemma slice_run {S} l a b (s : S) : 0 <= a <= b -> b <= Z.of_nat (length l) ->
  slice l a b s = Some (take (Z.to_nat (b - a)) (drop (Z.to_nat a) l), s).
Proof. intros Ha Hb. unfold slice. by rewrite (proj2 (andb_true_iff _ _)) by (rewrite !Z.leb_le; lia). Qed.

Lemma slice_props l a b : 0 <= a <= b -> b <= Z.of_nat (length l) ->
  Z.of_nat (length (take (Z.to_nat (b - a)) (drop (Z.to_nat a) l))) = b - a /\
  (bytes_ok l -> bytes_ok (take (Z.to_nat (b - a)) (drop (Z.to_nat a) l))).
Proof. intros Ha Hb. rewrite length_take, length_drop. split; [lia|]. intros Hl. by apply Forall_take, Forall_drop. Qed.

Lemma blit_run {S} p off l (s : S) : 0 <= off -> off + Z.of_nat (length l) <= Z.of_nat (length p) ->
  blit p off l s = Some (take (Z.to_nat off) p ++ l ++ drop (Z.to_nat off + length l) p, s).
Proof. intros Ho Hl. unfold blit. by rewrite (proj2 (Z.leb_le _ _)) by lia. Qed.

Section Safety.
Context {N : Type} `{NL : NetDriverLaws N}.

Definition ns_ok (s : NS N) : Prop := net_ok (ns_st s) /\ nd_ok (ns_dev s).

(** [m] has a result in every state, keeps the invariant and produces no work. *)
Definition safe (m : M (NS N) unit) : Prop := forall s, ns_ok s ->
  exists s', m s = Some (tt, s') /\ ns_ok s' /\ get_mac (ns_dev s') = get_mac (ns_dev s) /\ (nd_pending (ns_dev s') <= nd_pending (ns_dev s))%nat.

Lemma safe_ret : safe (ret tt).
Proof. intros s Hs. exists s. by split_and!. Qed.

Lemma safe_if (b : bool) m1 m2 : (b = true -> safe m1) -> (b = false -> safe m2) -> safe (if b then m1 else m2).
Proof. destruct b; auto. Qed.

Lemma safe_send f : bytes_ok f -> safe (send f).
Proof.
  intros Hf s [Hn Hd]. destruct (nd_send f _ Hd Hf) as (n' & E & Hn' & Hm & Hp). exists (mkNS (ns_st s) n'). split_and!; try done.
  unfold send, on_dev. by rewrite E.
Qed.

Lemma safe_byte l i k : 0 <= i < Z.of_nat (length l) -> (forall b, l !! Z.to_nat i = Some b -> safe (k b)) -> safe (b <- byte_at l i ;; k b).
Proof. intros Hi Hk s Hs. destruct (byte_at_run l i s Hi) as (b & E & Hb). rewrite (bind_run _ _ _ _ _ E). by apply Hk. Qed.

Lemma safe_slice l a b k : 0 <= a <= b -> b <= Z.of_nat (length l) -> bytes_ok l ->
  (forall v, Z.of_nat (length v) = b - a -> bytes_ok v -> safe (k v)) -> safe (v <- slice l a b ;; k v).
Proof.
  intros Ha Hb Hl Hk s Hs. rewrite (bind_run _ _ _ _ _ (slice_run l a b s Ha Hb)).
  destruct (slice_props l a b Ha Hb) as [H1 H2]. apply Hk; auto.
Qed.

Lemma safe_slice_from l a k : 0 <= a <= Z.of_nat (length l) -> bytes_ok l ->
  (forall v, Z.of_nat (length v) = Z.of_nat (length l) - a -> bytes_ok v -> safe (k v)) -> safe (v <- slice_from l a ;; k v).
Proof. intros Ha Hl Hk. apply safe_slice; [lia|lia|done|done]. Qed.

Lemma safe_blit p off l k : 0 <= off -> off + Z.of_nat (length l) <= Z.of_nat (length p) -> bytes_ok p -> bytes_ok l ->
  (forall v, length v = length p -> bytes_ok v -> safe (k v)) -> safe (v <- blit p off l ;; k v).
Proof.
  intros Ho Hl Hp Hb Hk s Hs. rewrite (bind_run _ _ _ _ _ (blit_run p off l s Ho Hl)). apply Hk; [| |done].
  - rewrite !length_app, length_take, length_drop. lia.
  - rewrite !Forall_app. split_and!; [by apply Forall_take|done|by apply Forall_drop].
Qed.

Lemma safe_checksum d k : bytes_ok d -> Z.of_nat (length d) <= 65536 -> (forall c, safe (k c)) -> safe (c <- internet_checksum d ;; k c).
Proof. intros Hd Hl Hk s Hs. rewrite (bind_run _ _ _ _ _ (internet_checksum_exact d s Hd Hl)). by apply Hk. Qed.

Lemma safe_get_ip k : (forall a, addr_ok a -> safe (k a)) -> safe (a <- get_ip ;; k a).
Proof. intros Hk s Hs. unfold get_ip, bind, gets. apply Hk; [apply Hs|done]. Qed.

Lemma safe_mac k : safe (k None) -> (forall m, length m = 6%nat -> bytes_ok m -> safe (k (Some m))) -> safe (o <- mac ;; k o).
Proof.
  intros H0 H1 s Hs. assert (Hk : safe (k (get_mac (ns_dev s)))); [|by apply Hk].
  destruct (get_mac (ns_dev s)) as [m|] eqn:E; [|done]. destruct (nd_mac _ _ (proj2 Hs) E). by apply H1.
Qed.

Lemma safe_xid k : (forall x, safe (k x)) -> safe (x <- gets (fun s => dhcp_xid (ns_st s)) ;; k x).
Proof. intros Hk s Hs. unfold bind, gets. by apply Hk. Qed.

Lemma safe_modify f : (forall s, net_ok s -> net_ok (f s)) -> safe (modify_st f).
Proof. intros Hf s [Hn Hd]. eexists. split; [done|]. split_and!; try done. split; [by apply Hf|done]. Qed.

Lemma safe_bind m k : safe m -> safe (k tt) -> safe (x <- m ;; k x).
Proof.
  intros Hm Hk s Hs. destruct (Hm s Hs) as (s1 & E1 & H1 & Hm1 & Hp1). rewrite (bind_run _ _ _ _ _ E1).
  destruct (Hk s1 H1) as (s2 & E2 & H2 & Hm2 & Hp2). exists s2. split_and!; [done|done|congruence|lia].
Qed.

End Safety.

Create HintDb net.
#[export] Hint Resolve safe_ret safe_send : net.

(** One step through a handler. *)
Ltac safe_step :=
  first
    [ solve [eauto with net]
    | apply safe_if; [intros ?|intros ?]
    | apply safe_byte; [lia|intros ? ?]
    | apply safe_slice; [lia|lia|done|intros ? ? ?]
    | apply safe_slice_from; [lia|done|intros ? ? ?]
    | apply safe_get_ip; intros ? [? ?]
    | apply safe_mac; [|intros ? ? ?]
    | apply safe_xid; intros ? ].

Section Handlers.
Context {N : Type} `{NL : NetDriverLaws N}.
Notation safe := (safe (N := N)).

Lemma arp_reply_ok a b c d : bytes_ok a -> bytes_ok b -> bytes_ok c -> bytes_ok d -> bytes_ok (arp_reply a b c d).
Proof. intros. unfold arp_reply. rewrite !Forall_app. split_and!; try done; repeat constructor; lia. Qed.
Hint Resolve arp_reply_ok : net.

Lemma handle_arp_safe arp : bytes_ok arp -> safe (handle_arp arp).
Proof.
  intros Hb. unfold handle_arp. apply safe_if; intros Hl; [auto with net|]. apply Z.ltb_ge in Hl. repeat safe_step.
Qed.

Lemma header_length src_mac our_mac our_ip src_ip t c : length src_mac = 6%nat -> length our_mac = 6%nat -> length our_ip = 4%nat ->
  length src_ip = 4%nat -> length c = 2%nat -> length (echo_header src_mac our_mac our_ip src_ip t c) = 34%nat.
Proof. intros. unfold echo_header, to_be16. rewrite !length_app. cbn. lia. Qed.

Lemma header_bytes_ok src_mac our_mac our_ip src_ip t c : bytes_ok src_mac -> bytes_ok our_mac -> bytes_ok our_ip ->
  bytes_ok src_ip -> bytes_ok c -> bytes_ok (echo_header src_mac our_mac our_ip src_ip t c).
Proof.
  intros. unfold echo_header. rewrite !Forall_app. split_and!; try done; try apply to_be16_ok; repeat constructor; lia.
Qed.

Lemma length_to_be16 x : length (to_be16 x) = 2%nat.
Proof. done. Qed.

Lemma handle_icmp_safe frame src dst icmp : bytes_ok frame -> 14 <= Z.of_nat (length frame) -> addr_ok src -> bytes_ok icmp ->
  safe (handle_icmp frame src dst icmp).
Proof.
  intros Hf Hfl [Hs1 Hs2] Hb. unfold handle_icmp. apply safe_get_ip; intros our [Ho1 Ho2].
  apply safe_if; intros _; [auto with net|]. apply safe_if; intros Hl; [auto with net|]. apply Z.ltb_ge in Hl.
  apply safe_byte; [lia|intros t _]. apply safe_if; intros _; [auto with net|]. apply safe_slice; [lia|lia|done|intros smac Hm1 Hm2].
  apply safe_mac; [auto with net|intros omac Hm3 Hm4]. apply safe_if; intros Ht; [auto with net|]. apply Z.ltb_ge in Ht.
  assert (Hz : bytes_ok (replicate 1518 0)) by (apply Forall_replicate; lia). assert (Hz4 : bytes_ok [0; 0; 0; 0]) by (repeat constructor; lia).
  assert (Hz2 : bytes_ok [0; 0]) by (repeat constructor; lia).
  apply safe_blit; [lia|rewrite header_length, length_replicate by (done || lia); lia|done|by apply header_bytes_ok|intros r1 Hr1 Hb1].
  rewrite length_replicate in Hr1. apply safe_slice; [lia|lia|done|intros h1 ? ?]. apply safe_checksum; [done|lia|intros c1].
  apply safe_blit; [lia|rewrite length_to_be16; lia|done|apply to_be16_ok|intros r2 Hr2 Hb2].
  apply safe_blit; [lia|cbn; lia|done|done|intros r3 Hr3 Hb3]. apply safe_slice; [lia|lia|done|intros d Hd1 Hd2].
  rewrite (proj2 (Z.ltb_lt 0 _)) by lia. apply safe_blit; [lia|lia|done|done|intros r4 Hr4 Hb4].
  apply safe_slice; [lia|lia|done|intros b1 Hc1 Hc2]. apply safe_checksum; [done|lia|intros c2].
  apply safe_blit; [lia|rewrite length_to_be16; lia|done|apply to_be16_ok|intros r5 Hr5 Hb5]. apply safe_slice; [lia|lia|done|auto with net].
Qed.

Lemma dhcp_options_run fuel dhcp i o (s : NS N) : bytes_ok dhcp -> 0 <= i -> Z.of_nat (length dhcp) <= i + Z.of_nat fuel ->
  addr_ok (o_server o) -> addr_ok (o_router o) ->
  exists o', dhcp_options fuel dhcp i o s = Some (o', s) /\ addr_ok (o_server o') /\ addr_ok (o_router o').
Proof.
  intros Hb. revert i o. induction fuel as [|fuel IH]; intros i o Hi Hf Hs Hr; cbn [dhcp_options].
  { rewrite (proj2 (Z.ltb_ge _ _)) by lia. by exists o. }
  destruct (Z.ltb_spec i (Z.of_nat (length dhcp))) as [Hlt|]; [|by exists o].
  destruct (byte_at_run dhcp i s ltac:(lia)) as (opt & E1 & H1). rewrite (bind_run _ _ _ _ _ E1).
  destruct (opt =? 0); [apply IH; try done; lia|]. destruct (opt =? 255); [by exists o|].
  destruct (Z.leb_spec (Z.of_nat (length dhcp)) (i + 1)); [by exists o|].
  destruct (byte_at_run dhcp (i + 1) s ltac:(lia)) as (l & E2 & H2). rewrite (bind_run _ _ _ _ _ E2).
  pose proof (Forall_lookup_1 _ _ _ _ Hb H2) as Hl. cbn in Hl. destruct (Z.ltb_spec (Z.of_nat (length dhcp)) (i + 1 + 1 + l)); [by exists o|].
  assert (Ho : forall o1, addr_ok (o_server o1) -> addr_ok (o_router o1) ->
    exists o', (o2 <- ret o1 ;; dhcp_options fuel dhcp (i + 1 + 1 + l) o2) s = Some (o', s) /\ addr_ok (o_server o') /\ addr_ok (o_router o')).
  { intros o1 Ho1 Ho2. rewrite bind_ret_l. apply IH; try done; lia. }
  assert (H4 : 4 <= l -> exists v, slice dhcp (i + 1 + 1) (i + 1 + 1 + 4) s = Some (v, s) /\ addr_ok v).
  { intros H4. eexists. split; [apply slice_run; lia|]. destruct (slice_props dhcp (i + 1 + 1) (i + 1 + 1 + 4)) as [G1 G2]; [lia|lia|].
    split; [lia|auto]. }
  destruct ((opt =? DHCP_OPT_MSG_TYPE) && (1 <=? l)) eqn:C1.
  { apply andb_true_iff in C1 as [_ C1]. apply Z.leb_le in C1. destruct (byte_at_run dhcp (i + 1 + 1) s ltac:(lia)) as (m & E3 & _).
    rewrite bind_assoc, (bind_run _ _ _ _ _ E3). by apply Ho. }
  destruct ((opt =? DHCP_OPT_SERVER_ID) && (4 <=? l)) eqn:C2.
  { apply andb_true_iff in C2 as [_ C2]. apply Z.leb_le in C2. destruct (H4 C2) as (v & E3 & Hv). rewrite bind_assoc, (bind_run _ _ _ _ _ E3). by apply Ho. }
  destruct ((opt =? DHCP_OPT_ROUTER) && (4 <=? l)) eqn:C3.
  { apply andb_true_iff in C3 as [_ C3]. apply Z.leb_le in C3. destruct (H4 C3) as (v & E3 & Hv). rewrite bind_assoc, (bind_run _ _ _ _ _ E3). by apply Ho. }
  by apply Ho.
Qed.

Lemma dhcp_transition_ok yiaddr o s : addr_ok yiaddr -> addr_ok (o_server o) -> addr_ok (o_router o) -> net_ok s -> net_ok (dhcp_transition yiaddr o s).
Proof.
  intros Hy Hs Hr Hn. pose proof Hn as (? & ? & ? & ? & ?). unfold dhcp_transition. destruct (dhcp_state s); try done; case_match; done.
Qed.

Lemma handle_dhcp_safe src dhcp : addr_ok src -> bytes_ok dhcp -> safe (handle_dhcp src dhcp).
Proof.
  intros Hs Hb. unfold handle_dhcp. apply safe_if; intros Hl; [auto with net|]. apply Z.ltb_ge in Hl.
  apply safe_byte; [lia|intros op _]. apply safe_slice; [lia|lia|done|intros magic _ _]. apply safe_if; intros _; [auto with net|].
  do 4 (apply safe_byte; [lia|intros ? _]). apply safe_xid; intros x. apply safe_if; intros _; [auto with net|].
  apply safe_slice; [lia|lia|done|intros yi Hy1 Hy2]. intros s Hok.
  destruct (dhcp_options_run (length dhcp) dhcp 240 (mkOpts 0 src NO_IP) s) as (o & E & Ho1 & Ho2); [done|lia|lia|done|split; [done|repeat constructor; lia]|].
  rewrite (bind_run _ _ _ _ _ E). apply safe_modify; [|done]. intros st. apply dhcp_transition_ok; [|done|done]. split; [lia|done].
Qed.

Lemma handle_udp_safe src dst udp : addr_ok src -> bytes_ok udp -> safe (handle_udp src dst udp).
Proof.
  intros Hs Hb. unfold handle_udp. apply safe_if; intros Hl; [auto with net|]. apply Z.ltb_ge in Hl.
  do 4 (apply safe_byte; [lia|intros ? _]). apply safe_if; intros _; [|auto with net].
  apply safe_slice_from; [lia|done|intros d Hd1 Hd2]. by apply handle_dhcp_safe.
Qed.

Lemma handle_ipv4_safe frame ipv4 : bytes_ok frame -> 14 <= Z.of_nat (length frame) -> bytes_ok ipv4 -> safe (handle_ipv4 frame ipv4).
Proof.
  intros Hf Hfl Hb. unfold handle_ipv4. apply safe_if; intros Hl; [auto with net|]. apply Z.ltb_ge in Hl.
  apply safe_byte; [lia|intros v _]. apply safe_if; intros Hi; [auto with net|]. apply orb_false_iff in Hi as [Hi1 Hi2].
  apply Z.ltb_ge in Hi1, Hi2. apply safe_byte; [lia|intros proto _]. apply safe_slice; [lia|lia|done|intros src Hs1 Hs2].
  apply safe_slice; [lia|lia|done|intros dst Hd1 Hd2]. apply safe_slice_from; [lia|done|intros p Hp1 Hp2].
  assert (addr_ok src) by (split; [lia|done]). apply safe_if; intros _; [by apply handle_icmp_safe|].
  apply safe_if; intros _; [by apply handle_udp_safe|auto with net].
Qed.

Lemma process_frame_safe frame : bytes_ok frame -> safe (process_frame frame).
Proof.
  intros Hf. unfold process_frame. apply safe_if; intros Hl; [auto with net|]. apply Z.ltb_ge in Hl.
  do 2 (apply safe_byte; [lia|intros ? _]). apply safe_slice_from; [lia|done|intros p Hp1 Hp2].
  apply safe_if; intros _; [by apply handle_arp_safe|]. apply safe_if; intros _; [by apply handle_ipv4_safe|auto with net].
Qed.

End Handlers.

Section Ticks.
Context {N : Type} `{NL : NetDriverLaws N}.
Notation safe := (safe (N := N)).

Lemma dhcp_frame_length m xid csum options : length m = 6%nat -> length csum = 2%nat -> (length options <= 56)%nat ->
  length (dhcp_frame m xid csum options) = 338%nat.
Proof. intros Hm Hc Ho. unfold dhcp_frame, to_be16, to_be32, DHCP_MAGIC, BROADCAST_MAC. rewrite !length_app, !length_replicate. cbn [length]. lia. Qed.

Lemma to_be32_ok x : bytes_ok (to_be32 x).
Proof.
  unfold to_be32. pose proof (Z.mod_pos_bound (x / 16777216) 256). pose proof (Z.mod_pos_bound (x / 65536) 256).
  pose proof (Z.mod_pos_bound (x / 256) 256). pose proof (Z.mod_pos_bound x 256). repeat constructor; lia.
Qed.

Lemma dhcp_frame_ok m xid csum options : bytes_ok m -> bytes_ok csum -> bytes_ok options -> bytes_ok (dhcp_frame m xid csum options).
Proof.
  intros. unfold dhcp_frame, DHCP_MAGIC, BROADCAST_MAC. rewrite !Forall_app.
  split_and!; try done; try apply to_be16_ok; try apply to_be32_ok; try (apply Forall_replicate; lia); repeat constructor; lia.
Qed.

Lemma send_dhcp_safe options : (length options <= 56)%nat -> bytes_ok options -> safe (send_dhcp options).
Proof.
  intros Hl Ho. unfold send_dhcp. apply safe_mac; [auto with net|intros m Hm1 Hm2]. apply safe_xid; intros xid.
  set (pkt := dhcp_frame m xid [0; 0] options). assert (Hp : length pkt = 338%nat) by (by apply dhcp_frame_length).
  assert (Hb : bytes_ok pkt) by (apply dhcp_frame_ok; [done|repeat constructor; lia|done]). intros s Hs. unfold finalize_ipv4_checksum.
  rewrite bind_assoc. revert s Hs. apply safe_slice; [lia|lia|done|intros h Hh1 Hh2]. intros s. rewrite bind_assoc. revert s.
  apply safe_checksum; [done|lia|intros c]. apply safe_blit; [lia|rewrite length_to_be16; lia|done|apply to_be16_ok|auto with net].
Qed.

Lemma request_options_ok a b : addr_ok a -> addr_ok b -> (length (request_options a b) <= 56)%nat /\ bytes_ok (request_options a b).
Proof.
  intros [Ha1 Ha2] [Hb1 Hb2]. unfold request_options. rewrite !length_app, !Forall_app. cbn [length]. split; [lia|].
  split_and!; try done; repeat constructor; done.
Qed.

Lemma dhcp_tick_safe t : 0 <= t -> t + DHCP_RETRY_TICKS < 2 ^ 64 -> safe (dhcp_tick t).
Proof.
  intros Ht0 Ht s Hs. unfold dhcp_tick, bind at 1, gets. pose proof Hs as [(Hi & Hg & Hv & Hr & Hy) _].
  assert (Hset : forall d n, 0 <= n <= 3 -> safe (x <- add64 t DHCP_RETRY_TICKS ;;
    modify_st (fun s => mkNet (ip s) (gateway s) (server_ip s) (d s) (dhcp_xid s) x (n)))).
  { intros d n Hn s1 Hs1. rewrite (bind_run _ _ _ _ _ (add64_run _ _ s1 Ht)). apply safe_modify; [|done].
    intros st (? & ? & ? & ? & ?). unfold DHCP_RETRY_TICKS in *. unfold net_ok. cbn. split_and!; try done; lia. }
  assert (Hkeep : safe (x <- add64 t DHCP_RETRY_TICKS ;;
    modify_st (fun s => mkNet (ip s) (gateway s) (server_ip s) (dhcp_state s) (dhcp_xid s) x (req_retries s)))).
  { intros s1 Hs1. rewrite (bind_run _ _ _ _ _ (add64_run _ _ s1 Ht)). apply safe_modify; [|done].
    intros st (? & ? & ? & ? & ?). unfold DHCP_RETRY_TICKS in *. unfold net_ok. cbn. split_and!; try done; lia. }
  destruct (dhcp_state (ns_st s)); [by apply safe_ret| | |by apply safe_ret].
  - destruct (dhcp_retry (ns_st s) <=? t); [|by apply safe_ret]. apply safe_bind; [|done|done].
    apply send_dhcp_safe; [cbn; lia|repeat constructor; done].
  - destruct (dhcp_retry (ns_st s) <=? t); [|by apply safe_ret]. rewrite (bind_run _ _ _ _ _ (add_w_run 8 (req_retries (ns_st s)) 1 s ltac:(lia))).
    destruct (Z.ltb_spec 3 (req_retries (ns_st s) + 1)); [apply (Hset (fun _ => Discovering)); [lia|done]|].
    apply safe_bind; [apply send_dhcp_safe; by apply request_options_ok| |done]. apply (Hset dhcp_state). lia.
Qed.

Lemma drain_run fuel (s : NS N) : ns_ok s -> is_Some (get_mac (ns_dev s)) -> (nd_pending (ns_dev s) < fuel)%nat ->
  exists s', drain fuel s = Some (tt, s') /\ ns_ok s' /\ get_mac (ns_dev s') = get_mac (ns_dev s).
Proof.
  revert s. induction fuel as [|fuel IH]; intros s Hs Hm Hp; [lia|]. cbn [drain]. pose proof Hs as [Hn Hd].
  destruct (nd_poll _ Hd Hm) as (r & n1 & E1 & Hm1 & Hr).
  erewrite bind_run by (unfold on_dev; rewrite E1; reflexivity). destruct r as [[d l]|].
  - destruct Hr as (f & n2 & E2 & Hl & Hle & Hf & E3 & Hd2 & Hm2 & Hp2). cbv beta iota.
    erewrite bind_run by (unfold on_dev; cbn [ns_dev]; rewrite E2; reflexivity). rewrite Z.min_l, Hl, Z.eqb_refl by lia.
    erewrite bind_run by reflexivity. erewrite bind_run by (unfold on_dev; cbn [ns_dev]; rewrite E3; reflexivity).
    destruct (process_frame_safe f Hf (mkNS (ns_st s) n2)) as (s3 & E4 & H3 & Hm3 & Hp3); [done|].
    cbn [ns_st ns_dev] in *. rewrite (bind_run _ _ _ _ _ E4).
    destruct (IH s3 H3) as (s4 & E5 & H4 & Hm4); [by rewrite Hm3, Hm2|lia|]. exists s4. split_and!; [done|done|congruence].
  - destruct Hr as [Hd1 Hp1]. exists (mkNS (ns_st s) n1). by split_and!.
Qed.

End Ticks.

(** Whatever bytes arrive from the network, the work of a timer tick ends and
    does not panic the kernel: all frames are processed, the state of the stack
    stays well-formed, and as many rounds of the receive loop are enough as
    frames can be pending. *)
Lemma tick_run N `{NL : NetDriverLaws N} fuel (s : NS N) t : ns_ok s -> 0 <= t -> t + DHCP_RETRY_TICKS < 2 ^ 64 -> (nd_pending (ns_dev s) < fuel)%nat ->
  exists s', tick fuel t s = Some (tt, s') /\ ns_ok s' /\ get_mac (ns_dev s') = get_mac (ns_dev s).
Proof.
  intros Hs Ht0 Ht Hf. unfold tick, mac, bind at 1, gets. destruct (get_mac (ns_dev s)) as [m|] eqn:Em; [|exists s; by rewrite Em].
  destruct (drain_run fuel s Hs ltac:(rewrite Em; eauto) Hf) as (s1 & E1 & H1 & Hm1).
  rewrite (bind_run _ _ _ _ _ E1). destruct (dhcp_tick_safe t Ht0 Ht s1 H1) as (s2 & E2 & H2 & Hm2 & _).
  exists s2. split_and!; [done|done|congruence].
Qed.
Lemma tick_total N `{NL : NetDriverLaws N} (s : NS N) t : ns_ok s -> 0 <= t -> t + DHCP_RETRY_TICKS < 2 ^ 64 ->
  exists s', tick (S (nd_pending (ns_dev s))) t s = Some (tt, s') /\ ns_ok s' /\ get_mac (ns_dev s') = get_mac (ns_dev s).
Proof. intros Hs Ht0 Ht. apply tick_run; [done|done|done|lia]. Qed.

(** ** Exact answers *)

Lemma zeros_ok n : bytes_ok (replicate n 0).
Proof. apply Forall_replicate. lia. Qed.

Lemma slice_mid {S} a m b (s : S) : slice (a ++ m ++ b) (Z.of_nat (length a)) (Z.of_nat (length a + length m)) s = Some (m, s).
Proof.
  rewrite slice_run by (rewrite ?length_app; lia). replace (Z.to_nat (_ - _)) with (length m) by lia. rewrite Nat2Z.id.
  by rewrite drop_app_length, take_app_length.
Qed.

Lemma blit_mid {S} a m b l (s : S) : length l = length m -> blit (a ++ m ++ b) (Z.of_nat (length a)) l s = Some (a ++ l ++ b, s).
Proof.
  intros Hl. rewrite blit_run by (rewrite ?length_app; lia). rewrite Nat2Z.id, take_app_length.
  by rewrite (app_assoc a m b), drop_app_length' by (rewrite length_app; lia).
Qed.

(** The two headers and the message of an echo reply. *)
Definition echo_ipv4 (our_ip src_ip : list Z) (payload_len : Z) : list Z :=
  checksummed ([69; 0] ++ to_be16 (20 + payload_len) ++ [0; 0] ++ [0; 0] ++ [64; 1]) (our_ip ++ src_ip).
Definition echo_reply (src_mac our_mac our_ip src_ip rest : list Z) : list Z :=
  (src_mac ++ our_mac ++ [8; 0]) ++ echo_ipv4 our_ip src_ip (4 + Z.of_nat (length rest)) ++ checksummed [0; 0] rest.

Section Echo.
Context {N : Type} `{ND : NetDriver N}.
Variables (our_mac our_ip src_mac src_ip rest : list Z).
Hypothesis Hlen : length our_mac = 6%nat /\ length our_ip = 4%nat /\ length src_mac = 6%nat /\ length src_ip = 4%nat.
Hypothesis Hbytes : bytes_ok our_mac /\ bytes_ok our_ip /\ bytes_ok src_mac /\ bytes_ok src_ip /\ bytes_ok rest.
Hypothesis Hrest : 4 <= Z.of_nat (length rest) /\ 14 + 20 + (4 + Z.of_nat (length rest)) <= 1518.

Lemma echo_ipv4_length n : length (echo_ipv4 our_ip src_ip n) = 20%nat.
Proof. destruct Hlen as (? & ? & ? & ?). unfold echo_ipv4, checksummed, to_be16. rewrite !length_app. cbn [length]. lia. Qed.

(** The buffer from the zeroed array to the finished reply. *)
Lemma echo_built (s : NS N) : let n := 4 + Z.of_nat (length rest) in
  (reply <- blit (replicate 1518 0) 0 (echo_header src_mac our_mac our_ip src_ip (wrap 16 (20 + n)) [0; 0]) ;;
   header <- slice reply 14 34 ;;
   ip_csum <- internet_checksum header ;;
   reply <- blit reply 24 (to_be16 ip_csum) ;;
   reply <- blit reply 34 [0; 0; 0; 0] ;;
   reply <- blit reply 38 rest ;;
   body <- slice reply 34 (34 + n) ;;
   icmp_csum <- internet_checksum body ;;
   reply <- blit reply 36 (to_be16 icmp_csum) ;;
   out <- slice reply 0 (14 + 20 + n) ;;
   send out) s = send (echo_reply src_mac our_mac our_ip src_ip rest) s.
Proof.
  intros n. destruct Hlen as (Hl1 & Hl2 & Hl3 & Hl4), Hbytes as (Hb1 & Hb2 & Hb3 & Hb4 & Hb5).
  rewrite wrap_small by (apply fits_spec; lia). set (k := length rest) in *. set (eth := src_mac ++ our_mac ++ [8; 0]).
  set (pre := [69; 0] ++ to_be16 (20 + n) ++ [0; 0] ++ [0; 0] ++ [64; 1]). set (addrs := our_ip ++ src_ip).
  assert (Heth : length eth = 14%nat) by (unfold eth; rewrite !length_app; cbn; lia). assert (Hpre : length pre = 10%nat) by done.
  assert (Haddrs : length addrs = 8%nat) by (unfold addrs; rewrite length_app; lia).
  assert (Hzero : replicate 1518 0 = replicate 34 0 ++ [0; 0] ++ [0; 0] ++ replicate k 0 ++ replicate (1480 - k) 0 :> list Z).
  { change [0; 0] with (replicate 2 0 : list Z). rewrite <- !replicate_add. f_equal. lia. }
  assert (Hhdr : echo_header src_mac our_mac our_ip src_ip (20 + n) [0; 0] = eth ++ pre ++ [0; 0] ++ addrs) by (unfold echo_header, pre, addrs, eth; by rewrite <- !app_assoc).
  assert (Hpb : bytes_ok pre) by (unfold pre; rewrite !Forall_app; split_and!; try apply to_be16_ok; repeat constructor; lia).
  assert (Hab : bytes_ok addrs) by (unfold addrs; by apply Forall_app).
  rewrite Hhdr, Hzero. set (zs := replicate (1480 - k) 0).
  erewrite bind_run by (apply (blit_mid [] (replicate 34 0)); rewrite length_replicate, !length_app; cbn; lia). cbn [app length].
  rewrite <- !app_assoc. cbn [app].
  set (z4 := 0 :: 0 :: 0 :: 0 :: _).
  erewrite bind_run. 2: { pose proof (slice_mid eth (pre ++ [0; 0] ++ addrs) z4 s) as E. rewrite Heth, !length_app, Hpre, Haddrs in E.
    rewrite <- !app_assoc in E. exact E. }
  erewrite bind_run by (apply internet_checksum_exact; [rewrite !Forall_app; split_and!; [done|exact (zeros_ok 2)|done]|rewrite !length_app, Hpre, Haddrs; cbn; lia]).
  set (c1 := to_be16 _).
  erewrite bind_run. 2: { pose proof (blit_mid (eth ++ pre) [0; 0] (addrs ++ z4) c1 s eq_refl) as E. rewrite length_app, Heth, Hpre in E.
    rewrite <- !app_assoc in E. exact E. }
  set (hdr := eth ++ pre ++ c1 ++ addrs). assert (Hh : length hdr = 34%nat) by (unfold hdr; rewrite !length_app, Heth, Hpre, Haddrs; done).
  replace (eth ++ pre ++ c1 ++ addrs ++ z4) with (hdr ++ z4) by (unfold hdr; by rewrite <- !app_assoc).
  erewrite bind_run. 2: { pose proof (blit_mid hdr [0; 0; 0; 0] (replicate k 0 ++ zs) [0; 0; 0; 0] s eq_refl) as E. rewrite Hh in E. exact E. }
  erewrite bind_run. 2: { pose proof (blit_mid (hdr ++ [0; 0; 0; 0]) (replicate k 0) zs rest s ltac:(by rewrite length_replicate)) as E.
    rewrite length_app, Hh in E. rewrite <- !app_assoc in E. exact E. }
  erewrite bind_run. 2: { pose proof (slice_mid hdr ([0; 0; 0; 0] ++ rest) zs s) as E. rewrite length_app, Hh in E. rewrite <- !app_assoc in E.
    replace (34 + n) with (Z.of_nat (34 + (4 + length rest))) by (unfold n; lia). exact E. }
  erewrite bind_run by (apply internet_checksum_exact; [apply Forall_app; split; [exact (zeros_ok 4)|done]|rewrite length_app; cbn; unfold n in *; lia]).
  set (c2 := to_be16 _).
  erewrite bind_run. 2: { pose proof (blit_mid (hdr ++ [0; 0]) [0; 0] (rest ++ zs) c2 s eq_refl) as E. rewrite length_app, Hh in E.
    rewrite <- !app_assoc in E. exact E. }
  erewrite bind_run. 2: { pose proof (slice_mid [] (hdr ++ [0; 0] ++ c2 ++ rest) zs s) as E. cbn [app length] in E. rewrite !length_app, Hh in E.
    rewrite <- !app_assoc in E. replace (14 + 20 + n) with (Z.of_nat (0 + (34 + (length [0; 0] + (length c2 + length rest))))) by (unfold n; cbn; lia). exact E. }
  f_equal. unfold echo_reply, echo_ipv4, checksummed, hdr. fold n pre addrs eth. rewrite <- !app_assoc. done.
Qed.

End Echo.

Lemma bind_ext {S A B} (m : M S A) (k1 k2 : A -> M S B) s : (forall x s, k1 x s = k2 x s) -> bind m k1 s = bind m k2 s.
Proof. intros H. unfold bind. destruct (m s) as [[x s']|]; auto. Qed.

(** An echo request to us, as it comes from the wire: an Ethernet frame that ends
    where the total length of the IPv4 header says, and an ICMP message of type 8
    and code 0.  [rest] is its identifier, sequence number and data. *)
Definition echo_request (dst_mac src_mac : list Z) (tos : Z) (ident : list Z) (flags ttl : Z) (cks src_ip our_ip ck rest : list Z) : list Z :=
  (dst_mac ++ src_mac ++ [8; 0]) ++
  ([69; tos] ++ to_be16 (20 + (4 + Z.of_nat (length rest))) ++ ident ++ [flags; 0; ttl; 1] ++ cks ++ src_ip ++ our_ip) ++
  ([8; 0] ++ ck ++ rest).

(** Lists of a known length as their elements. *)
Ltac explode l H :=
  let rec go l :=
    match type of H with
    | length l = 0%nat => destruct l as [|? ?]; [|cbn in H; lia]
    | _ => destruct l as [|? l]; [cbn in H; lia|]; cbn in H; apply Nat.succ_inj in H; go l
    end in go l.

(** C20. An unfragmented echo request (ping) to the address of the kernel, with
    code 0 and in a frame without padding behind the IPv4 packet, is answered with
    one frame: to the sender, from us, with the code, identifier, sequence number
    and data of the request, and a receiver finds both checksums of the answer
    right. *)
Theorem echo_answered N `{ND : NetDriver N} (s : NS N) our_mac our_ip dst_mac src_mac src_ip ident cks ck rest tos flags ttl :
  get_mac (ns_dev s) = Some our_mac -> ip (ns_st s) = our_ip -> our_ip <> NO_IP ->
  length our_mac = 6%nat -> length our_ip = 4%nat -> length dst_mac = 6%nat -> length src_mac = 6%nat -> length src_ip = 4%nat ->
  length ident = 2%nat -> length cks = 2%nat -> length ck = 2%nat -> flags = 0 \/ flags = 64 ->
  bytes_ok our_mac -> bytes_ok our_ip -> bytes_ok src_mac -> bytes_ok src_ip -> bytes_ok rest ->
  4 <= Z.of_nat (length rest) <= 1480 ->
  process_frame (echo_request dst_mac src_mac tos ident flags ttl cks src_ip our_ip ck rest) s =
    send (echo_reply src_mac our_mac our_ip src_ip rest) s /\
  (forall u : unit, internet_checksum (echo_ipv4 our_ip src_ip (4 + Z.of_nat (length rest))) u = Some (0, u)) /\
  (forall u : unit, internet_checksum (checksummed [0; 0] rest) u = Some (0, u)).
Proof.
  intros Hmac Hip Hno Hl1 Hl2 Hl3 Hl4 Hl5 Hl6 Hl7 Hl8 _ Hb1 Hb2 Hb4 Hb5 Hbr Hr. split_and!.
  - rewrite <- echo_built by (split_and!; done || lia). match goal with |- _ = ?r => set (built := r) end.
    unfold echo_request. pose proof (length_to_be16 (20 + (4 + Z.of_nat (length rest)))) as Hl9. generalize dependent (to_be16 (20 + (4 + Z.of_nat (length rest)))).
    intros total Hl9. explode total Hl9. explode dst_mac Hl3. explode ident Hl6. explode cks Hl7. explode ck Hl8.
    pose proof Hl4 as Hl4'. explode src_mac Hl4'. pose proof Hl5 as Hl5'. explode src_ip Hl5'. pose proof Hl2 as Hl2'. explode our_ip Hl2'.
    cbn [app]. unfold process_frame. cbn [length]. rewrite (proj2 (Z.ltb_ge _ 14)) by lia.
    do 2 erewrite bind_run by reflexivity.
    unfold slice_from. erewrite bind_run by (apply slice_run; cbn [length]; lia).
    change (be16 8 0 =? 2054) with false. change (be16 8 0 =? 2048) with true. cbv iota. rewrite take_ge by (rewrite length_drop; cbn [length]; lia). change (Z.to_nat 14) with 14%nat. cbn [drop].
    unfold handle_ipv4. cbn [length]. rewrite (proj2 (Z.ltb_ge _ 20)) by lia. erewrite bind_run by reflexivity.
    change (Z.land 69 15 * 4) with 20. change (20 <? 20) with false. cbn [orb length]. rewrite (proj2 (Z.ltb_ge _ 20)) by lia.
    do 3 (erewrite bind_run by (reflexivity || (apply slice_run; cbn [length]; lia))).
    unfold slice_from. erewrite bind_run by (apply slice_run; cbn [length]; lia).
    change (Z.to_nat 20) with 20%nat. change (Z.to_nat (16 - 12)) with 4%nat. change (Z.to_nat 12) with 12%nat.
    change (Z.to_nat (20 - 16)) with 4%nat. change (Z.to_nat 16) with 16%nat. cbn [drop take]. rewrite take_ge by (cbn [length]; lia).
    change (1 =? 1) with true. cbv iota. unfold handle_icmp. erewrite bind_run by reflexivity. rewrite Hip.
    rewrite bool_decide_eq_false_2 by done. rewrite bool_decide_eq_true_2 by done. cbn [orb negb length].
    rewrite (proj2 (Z.ltb_ge _ 8)) by lia. erewrite bind_run by reflexivity. change (negb (8 =? 8)) with false. cbv iota.
    erewrite bind_run by (apply slice_run; cbn [length]; lia). unfold mac at 1. erewrite bind_run by (unfold gets; rewrite Hmac; reflexivity).
    cbv beta iota zeta. rewrite (proj2 (Z.ltb_ge 1518 _)) by lia. rewrite Nat2Z.inj_succ.
    replace (Z.succ (Z.of_nat (S (S (S (length rest)))))) with (4 + Z.of_nat (length rest)) by lia.
    rewrite Z.max_r by lia. replace (4 + Z.of_nat (length rest) - 4) with (Z.of_nat (length rest)) by lia.
    unfold built. do 5 (apply bind_ext; intros ? ?). erewrite bind_run by (apply slice_run; cbn [length]; lia).
    rewrite take_ge by (rewrite length_drop; cbn [length]; lia). by rewrite (proj2 (Z.ltb_lt 0 _)) by lia.
  - intros u. apply checksum_verifies; [| |done|rewrite !length_app; cbn [length]; rewrite Hl2, Hl5, length_to_be16; lia].
    + rewrite !Forall_app. split_and!; try apply to_be16_ok; repeat constructor; lia.
    + by apply Forall_app.
  - intros u. apply checksum_verifies; [exact (zeros_ok 2)|done|done|cbn [length]; lia].
Qed.

(** A frame of more than 1518 bytes panics the kernel: it is copied out of the
    receive buffer, which has room for 1526, into an array of 1518. *)
Theorem long_frame_panics N `{ND : NetDriver N} (s : NS N) fuel h len frame n :
  poll_recv (ns_dev s) = Some (Some (h, len), n) -> get_rx_frame h len n = Some (frame, n) ->
  Z.of_nat (length frame) = len -> 1518 < len -> drain fuel s = None.
Proof.
  intros E1 E2 Hf Hl. destruct fuel as [|fuel]; [done|]. cbn [drain]. unfold bind at 1, on_dev at 1. rewrite E1.
  unfold bind at 1, on_dev at 1. cbn [ns_dev]. rewrite E2. unfold bind at 1, assertb. by rewrite (proj2 (Z.eqb_neq _ _)) by lia.
Qed.

(** ** DHCP

    The options of a message as a list of types and values. *)

Fixpoint tlv (fuel : nat) (l : list Z) : list (Z * list Z) :=
  match fuel, l with
  | S fuel, t :: l =>
      if t =? 0 then tlv fuel l
      else if t =? 255 then []
      else match l with
           | [] => []
           | n :: l => if n <=? Z.of_nat (length l) then (t, take (Z.to_nat n) l) :: tlv fuel (drop (Z.to_nat n) l) else []
           end
  | _, _ => []
  end.

Definition apply_opt (o : DhcpOpts) (x : Z * list Z) : DhcpOpts :=
  let '(t, v) := x in
  if (t =? DHCP_OPT_MSG_TYPE) && (1 <=? Z.of_nat (length v)) then mkOpts (nth 0 v 0) (o_server o) (o_router o)
  else if (t =? DHCP_OPT_SERVER_ID) && (4 <=? Z.of_nat (length v)) then mkOpts (o_msg_type o) (take 4 v) (o_router o)
  else if (t =? DHCP_OPT_ROUTER) && (4 <=? Z.of_nat (length v)) then mkOpts (o_msg_type o) (o_server o) (take 4 v)
  else o.

(** The bytes of a list of options, as a server sends them. *)
Definition encode_opts (opts : list (Z * list Z)) : list Z :=
  concat ((fun x => fst x :: Z.of_nat (length (snd x)) :: snd x) <$> opts) ++ [255].
Definition opt_ok (x : Z * list Z) : Prop := 0 < fst x < 255 /\ (length (snd x) < 256)%nat /\ bytes_ok (snd x).

Section Dhcp.
Context {N : Type} `{ND : NetDriver N}.

(** The loop, for every message and from every position, does what folding over
    the list of options does. *)
Lemma dhcp_options_exact fuel dhcp i o (s : NS N) : bytes_ok dhcp -> 0 <= i -> Z.of_nat (length dhcp) <= i + Z.of_nat fuel ->
  dhcp_options fuel dhcp i o s = Some (fold_left apply_opt (tlv fuel (drop (Z.to_nat i) dhcp)) o, s).
Proof.
  intros Hb. revert i o. induction fuel as [|fuel IH]; intros i o Hi Hf; cbn [dhcp_options].
  { rewrite (proj2 (Z.ltb_ge _ _)) by lia. done. }
  destruct (Z.ltb_spec i (Z.of_nat (length dhcp))) as [Hlt|Hge]; [|by rewrite drop_ge by lia].
  destruct (byte_at_run dhcp i s ltac:(lia)) as (opt & E1 & H1). rewrite (bind_run _ _ _ _ _ E1), (drop_S _ _ _ H1). cbn [tlv].
  replace (S (Z.to_nat i)) with (Z.to_nat (i + 1)) by lia. destruct (opt =? 0); [apply IH; lia|]. destruct (opt =? 255); [done|].
  destruct (Z.leb_spec (Z.of_nat (length dhcp)) (i + 1)) as [Hle|Hgt]; [by rewrite drop_ge by lia|].
  destruct (byte_at_run dhcp (i + 1) s ltac:(lia)) as (l & E2 & H2). rewrite (bind_run _ _ _ _ _ E2), (drop_S _ _ _ H2).
  replace (S (Z.to_nat (i + 1))) with (Z.to_nat (i + 1 + 1)) by lia.
  pose proof (Forall_lookup_1 _ _ _ _ Hb H2) as Hl. cbn in Hl. rewrite length_drop.
  destruct (Z.ltb_spec (Z.of_nat (length dhcp)) (i + 1 + 1 + l)) as [|Hfit]; [by rewrite (proj2 (Z.leb_gt l _)) by lia|].
  rewrite (proj2 (Z.leb_le l _)) by lia. cbn [fold_left]. rewrite drop_drop, <- Z2Nat.inj_add, <- IH by lia.
  set (v := take (Z.to_nat l) (drop (Z.to_nat (i + 1 + 1)) dhcp)). assert (Hv : Z.of_nat (length v) = l) by (unfold v; rewrite length_take, length_drop; lia).
  assert (H4 : 4 <= l -> slice dhcp (i + 1 + 1) (i + 1 + 1 + 4) s = Some (take 4 v, s)).
  { intros H4. rewrite slice_run by lia. unfold v. rewrite take_take.
    by replace (4 `min` Z.to_nat l)%nat with (Z.to_nat (i + 1 + 1 + 4 - (i + 1 + 1))) by lia. }
  unfold apply_opt. rewrite Hv. destruct ((opt =? DHCP_OPT_MSG_TYPE) && (1 <=? l)) eqn:C1.
  { apply andb_true_iff in C1 as [_ C1]. apply Z.leb_le in C1. destruct (byte_at_run dhcp (i + 1 + 1) s ltac:(lia)) as (m & E3 & H3).
    rewrite bind_assoc, (bind_run _ _ _ _ _ E3), bind_ret_l. do 3 f_equal. unfold v. rewrite (drop_S _ _ _ H3).
    replace (Z.to_nat l) with (S (Z.to_nat (l - 1))) by lia. done. }
  destruct ((opt =? DHCP_OPT_SERVER_ID) && (4 <=? l)) eqn:C2.
  { apply andb_true_iff in C2 as [_ C2]. apply Z.leb_le in C2. by rewrite bind_assoc, (bind_run _ _ _ _ _ (H4 C2)), bind_ret_l. }
  destruct ((opt =? DHCP_OPT_ROUTER) && (4 <=? l)) eqn:C3; [|by rewrite bind_ret_l].
  apply andb_true_iff in C3 as [_ C3]. apply Z.leb_le in C3. by rewrite bind_assoc, (bind_run _ _ _ _ _ (H4 C3)), bind_ret_l.
Qed.

Lemma tlv_encode opts fuel : Forall opt_ok opts -> (length (encode_opts opts) <= fuel)%nat -> tlv fuel (encode_opts opts) = opts.
Proof.
  intros Ho. revert fuel. induction Ho as [|[t v] opts (Ht & Hv & Hb) Ho IH]; intros fuel Hf.
  { destruct fuel as [|fuel]; [cbn in Hf; lia|done]. }
  cbn [fst snd] in *. unfold encode_opts in *. cbn [fmap list_fmap concat app fst snd] in *. rewrite <- app_assoc in *. cbn [length] in Hf.
  rewrite length_app in Hf. destruct fuel as [|fuel]; [lia|]. cbn [tlv].
  rewrite (proj2 (Z.eqb_neq _ _)) by lia. rewrite (proj2 (Z.eqb_neq _ _)) by lia. rewrite (proj2 (Z.leb_le _ _)) by (rewrite length_app; lia).
  rewrite Nat2Z.id, take_app_length, drop_app_length, IH by (unfold encode_opts; lia). done.
Qed.

(** A reply of a server to transaction [xid]: [a], [b] and [c] are the fields
    the client does not look at. *)
Definition dhcp_reply (a : list Z) (xid : Z) (b yiaddr c : list Z) (opts : list (Z * list Z)) : list Z :=
  ([2] ++ a ++ to_be32 xid ++ b ++ yiaddr ++ c ++ DHCP_MAGIC) ++ encode_opts opts.

Lemma be32_to_be32 x : 0 <= x < 2 ^ 32 -> match to_be32 x with [a; b; c; d] => be32 a b c d = x | _ => False end.
Proof.
  intros Hx. cbn [to_be32]. unfold be32.
  replace (x / 65536) with (x / 256 / 256) by (rewrite Z.div_div by lia; done).
  replace (x / 16777216) with (x / 256 / 256 / 256) by (rewrite !Z.div_div by lia; done).
  pose proof (Z.div_mod x 256). pose proof (Z.div_mod (x / 256) 256). pose proof (Z.div_mod (x / 256 / 256) 256).
  rewrite (Z.mod_small (x / 256 / 256 / 256)); [lia|].
  rewrite !Z.div_div by lia. split; [apply Z.div_pos; lia|apply Z.div_lt_upper_bound; lia].
Qed.

Lemma handle_dhcp_exact src a xid b yiaddr c opts (s : NS N) :
  length a = 3%nat -> length b = 8%nat -> length yiaddr = 4%nat -> length c = 216%nat -> 0 <= xid < 2 ^ 32 ->
  bytes_ok a -> bytes_ok b -> bytes_ok yiaddr -> bytes_ok c -> Forall opt_ok opts ->
  handle_dhcp src (dhcp_reply a xid b yiaddr c opts) s =
    if xid =? dhcp_xid (ns_st s)
    then Some (tt, mkNS (dhcp_transition yiaddr (fold_left apply_opt opts (mkOpts 0 src NO_IP)) (ns_st s)) (ns_dev s))
    else Some (tt, s).
Proof.
  intros Ha Hb Hy Hc Hx Hba Hbb Hby Hbc Ho. set (e := encode_opts opts).
  assert (He : bytes_ok e).
  { unfold e, encode_opts. apply Forall_app. split; [|repeat constructor; lia]. clear -Ho. induction Ho as [|[t v] opts (Ht & Hv & Hbv) Ho IH]; [constructor|].
    cbn in *. constructor; [lia|]. constructor; [lia|]. by apply Forall_app. }
  unfold handle_dhcp, dhcp_reply. fold e. set (d := (_ ++ _) ++ e).
  assert (Hd : Z.of_nat (length d) = 240 + Z.of_nat (length e)) by (unfold d; rewrite !length_app; cbn [length to_be32 DHCP_MAGIC]; lia).
  assert (Hdb : bytes_ok d).
  { unfold d, DHCP_MAGIC. rewrite !Forall_app. split_and!; try done; try apply to_be32_ok; repeat constructor; lia. }
  rewrite (proj2 (Z.ltb_ge _ _)) by lia. erewrite bind_run by reflexivity.
  erewrite bind_run. 2: { pose proof (slice_mid ([2] ++ a ++ to_be32 xid ++ b ++ yiaddr ++ c) DHCP_MAGIC e s) as E.
    rewrite !length_app, Ha, Hb, Hy, Hc in E. unfold d. repeat rewrite <- app_assoc in E. repeat rewrite <- app_assoc. exact E. }
  rewrite bool_decide_eq_true_2 by done. cbn [Z.eqb Pos.eqb negb orb].
  pose proof (be32_to_be32 xid Hx) as Hbe. explode a Ha. unfold to_be32 in Hbe.
  do 4 erewrite bind_run by reflexivity. erewrite bind_run by reflexivity. rewrite Hbe. destruct (Z.eqb_spec xid (dhcp_xid (ns_st s))); [|done]. cbn [negb].
  erewrite bind_run. 2: { pose proof (slice_mid ([2; z; z0; z1] ++ to_be32 xid ++ b) yiaddr (c ++ DHCP_MAGIC ++ e) s) as E.
    rewrite !length_app, Hb, Hy in E. unfold d. repeat rewrite <- app_assoc in E. repeat rewrite <- app_assoc. exact E. }
  rewrite (bind_run _ _ _ _ _ (dhcp_options_exact (length d) d 240 _ s Hdb ltac:(lia) ltac:(lia))).
  replace (drop (Z.to_nat 240) d) with e; [|unfold d; rewrite drop_app_length' by (rewrite !length_app; cbn [length to_be32 DHCP_MAGIC]; lia); done].
  unfold e. rewrite tlv_encode by (done || (fold e; lia)). done.
Qed.

End Dhcp.

(** The IPv4 header of our DHCP messages. *)
Definition dhcp_ipv4 : list Z :=
  checksummed ([69; 16] ++ to_be16 324 ++ [0; 171] ++ [0; 0] ++ [64; 17]) ([0; 0; 0; 0] ++ [255; 255; 255; 255]).
Definition dhcp_csum : list Z := take 2 (drop 10 dhcp_ipv4).

Lemma dhcp_csum_ok : bytes_ok dhcp_csum.
Proof. apply Forall_take, Forall_drop, (bool_decide_unpack _). by vm_compute. Qed.

Lemma dhcp_ipv4_verifies {S} (s : S) : internet_checksum dhcp_ipv4 s = Some (0, s).
Proof. reflexivity. Qed.

Section Machine.
Context {N : Type} `{ND : NetDriver N}.

(** What [send_dhcp] hands to the driver. *)
Lemma send_dhcp_exact m options (s : NS N) : get_mac (ns_dev s) = Some m -> length m = 6%nat ->
  send_dhcp options s = send (dhcp_frame m (dhcp_xid (ns_st s)) dhcp_csum options) s.
Proof.
  intros Hm Hl. unfold send_dhcp, mac at 1. erewrite bind_run by (unfold gets; rewrite Hm; reflexivity). cbv beta iota.
  erewrite bind_run by reflexivity. unfold finalize_ipv4_checksum. explode m Hl.
  rewrite bind_assoc. erewrite bind_run.
  2: { rewrite slice_run; [reflexivity|lia|unfold dhcp_frame; rewrite !length_app; cbn [length to_be16]; lia]. }
  rewrite bind_assoc. erewrite bind_run by reflexivity. erewrite bind_run; [reflexivity|].
  rewrite blit_run; [reflexivity|lia|unfold dhcp_frame; rewrite !length_app; cbn [length to_be16]; lia].
Qed.

(** *** The states of the client *)

(** A run of the stack: frames in any order, with ticks in between. *)
Inductive net_step (s s' : NS N) : Prop :=
| step_frame f : process_frame f s = Some (tt, s') -> net_step s s'
| step_tick t : dhcp_tick t s = Some (tt, s') -> net_step s s'.

Definition by_reply (st st' : NetState) : Prop := st' = st \/ exists yiaddr o, st' = dhcp_transition yiaddr o st.
Definition moves (m : M (NS N) unit) : Prop := forall s s', m s = Some (tt, s') -> by_reply (ns_st s) (ns_st s').

Lemma moves_ret : moves (ret tt).
Proof. intros s s' [= <-]. by left. Qed.

Lemma moves_if (b : bool) m1 m2 : moves m1 -> moves m2 -> moves (if b then m1 else m2).
Proof. by destruct b. Qed.

Lemma moves_panic : moves panic.
Proof. by intros s s'. Qed.

Lemma moves_send f : moves (send f).
Proof. intros s s' H. left. unfold send, on_dev in H. destruct (send_packet f (ns_dev s)) as [[[] n]|]; [|done]. by injection H as <-. Qed.

(** Steps that only look at the state. *)
Definition pure_op {A} (m : M (NS N) A) : Prop := forall s a s', m s = Some (a, s') -> s' = s.
Lemma moves_pure {A} (m : M (NS N) A) k : pure_op m -> (forall a, moves (k a)) -> moves (a <- m ;; k a).
Proof. intros Hp Hk s s' H. unfold bind in H. destruct (m s) as [[a s1]|] eqn:E; [|done]. apply Hp in E as ->. by apply (Hk a). Qed.

Lemma pure_expect {A} (o : option A) : pure_op (expect (S := NS N) o).
Proof. intros s a s' H. destruct o; [by injection H|done]. Qed.
Lemma pure_gets {A} (f : NS N -> A) : pure_op (gets f).
Proof. intros s a s' H. by injection H. Qed.
Lemma pure_ret {A} (x : A) : pure_op (ret (S := NS N) x).
Proof. intros s a s' H. by injection H. Qed.
Lemma pure_bind {A B} (m : M (NS N) A) (k : A -> M (NS N) B) : pure_op m -> (forall a, pure_op (k a)) -> pure_op (a <- m ;; k a).
Proof. intros Hm Hk s b s' H. unfold bind in H. destruct (m s) as [[a s1]|] eqn:E; [|done]. apply Hm in E as ->. by eapply Hk. Qed.
Lemma pure_slice l a b : pure_op (slice (S := NS N) l a b).
Proof. unfold slice. intros s v s'. case_match; [intros E; by injection E|done]. Qed.
Lemma pure_blit p o l : pure_op (blit (S := NS N) p o l).
Proof. unfold blit. intros s v s'. case_match; [intros E; by injection E|done]. Qed.
Lemma pure_checksum d : pure_op (internet_checksum (S := NS N) d).
Proof. unfold internet_checksum. repeat (apply pure_bind; [apply pure_expect|intros ?]). apply pure_ret. Qed.
Lemma pure_options fuel d i o : pure_op (dhcp_options (N := N) fuel d i o).
Proof.
  revert i o. induction fuel as [|fuel IH]; intros i o; cbn [dhcp_options]; case_match; try apply pure_ret; [done|].
  apply pure_bind; [apply pure_expect|intros opt]. case_match; [apply IH|]. case_match; [apply pure_ret|]. case_match; [apply pure_ret|].
  apply pure_bind; [apply pure_expect|intros l]. case_match; [apply pure_ret|]. apply pure_bind; [|intros; apply IH].
  repeat case_match; try apply pure_ret; (apply pure_bind; [apply pure_expect || apply pure_slice|intros; apply pure_ret]).
Qed.

Lemma process_frame_moves f : moves (process_frame f).
Proof.
  assert (Ha : forall a, moves (handle_arp a)).
  { intros a. unfold handle_arp, byte_at, get_ip, mac. repeat (apply moves_ret || apply moves_if || apply moves_send ||
      (apply moves_pure; [apply pure_expect || apply pure_slice || apply pure_gets|intros ?]) || case_match). }
  assert (Hd : forall src d, moves (handle_dhcp src d)).
  { intros src d. unfold handle_dhcp, byte_at. repeat (apply moves_ret || apply moves_if ||
      (apply moves_pure; [apply pure_expect || apply pure_slice || apply pure_gets || apply pure_options|intros ?])).
    intros s s' [= <-]. right. eauto. }
  assert (Hi : forall fr src dst p, moves (handle_icmp fr src dst p)).
  { intros fr src dst p. unfold handle_icmp, byte_at, get_ip, mac. repeat (apply moves_ret || apply moves_if || apply moves_send ||
      (apply moves_pure; [apply pure_expect || apply pure_slice || apply pure_blit || apply pure_checksum || apply pure_gets|intros ?]) || case_match
      || (apply moves_pure; [case_match; [apply pure_blit|apply pure_ret]|intros ?])). }
  unfold process_frame, handle_ipv4, handle_udp, slice_from, byte_at. repeat (apply Ha || apply Hd || apply Hi || apply moves_ret || apply moves_if ||
    (apply moves_pure; [apply pure_expect || apply pure_slice|intros ?])).
Qed.

(** Nothing changes the state of a bound client. *)
Lemma bound_step s s' : net_step s s' -> dhcp_state (ns_st s) = Bound -> ns_st s' = ns_st s.
Proof.
  intros [f H|t H] Hb.
  - apply process_frame_moves in H as [->|(yi & o & ->)]; [done|]. unfold dhcp_transition. by rewrite Hb.
  - unfold dhcp_tick, bind at 1, gets in H. rewrite Hb in H. by injection H as <-.
Qed.

Lemma bound_final s s' : rtc net_step s s' -> dhcp_state (ns_st s) = Bound -> ns_st s' = ns_st s.
Proof.
  induction 1 as [s|s s1 s2 H1 H2 IH]; [done|]. intros Hb. pose proof (bound_step _ _ H1 Hb) as Hst. rewrite IH; [done|by rewrite Hst].
Qed.

End Machine.

(** C21. A DHCP exchange: an offer for our transaction makes the client send, at the
    next tick, one request for the offered address to the offering server; the
    acknowledgement binds the address, and from then on neither frames nor
    ticks change it.  Replies to other transactions change nothing. *)
Theorem dhcp_lease N `{NL : NetDriverLaws N} (s : NS N) our_mac src a b c yi yi2 opts opts2 srv rt srv2 rt2 t :
  ns_ok s -> get_mac (ns_dev s) = Some our_mac -> dhcp_state (ns_st s) = Discovering -> 0 <= dhcp_xid (ns_st s) < 2 ^ 32 ->
  length a = 3%nat -> length b = 8%nat -> addr_ok yi -> addr_ok yi2 -> length c = 216%nat ->
  bytes_ok a -> bytes_ok b -> bytes_ok c -> Forall opt_ok opts -> Forall opt_ok opts2 ->
  fold_left apply_opt opts (mkOpts 0 src NO_IP) = mkOpts DHCP_MSG_OFFER srv rt -> addr_ok srv -> addr_ok rt ->
  fold_left apply_opt opts2 (mkOpts 0 src NO_IP) = mkOpts DHCP_MSG_ACK srv2 rt2 ->
  0 <= t -> t + DHCP_RETRY_TICKS < 2 ^ 64 ->
  let x := dhcp_xid (ns_st s) in
  exists s1 s2 s3,
    handle_dhcp src (dhcp_reply a x b yi c opts) s = Some (tt, s1) /\ ns_dev s1 = ns_dev s /\
    dhcp_tick t s1 = Some (tt, s2) /\
    send_packet (dhcp_frame our_mac x dhcp_csum (request_options yi srv)) (ns_dev s1) = Some (tt, ns_dev s2) /\
    handle_dhcp src (dhcp_reply a x b yi2 c opts2) s2 = Some (tt, s3) /\
    (forall s4, rtc net_step s3 s4 -> ip (ns_st s4) = yi2 /\ gateway (ns_st s4) = rt2 /\ server_ip (ns_st s4) = srv2 /\ dhcp_state (ns_st s4) = Bound) /\
    (forall x' (s' : NS N), 0 <= x' < 2 ^ 32 -> x' <> dhcp_xid (ns_st s') -> handle_dhcp src (dhcp_reply a x' b yi c opts) s' = Some (tt, s')).
Proof.
  intros Hok Hmac Hst Hx Ha Hb [Hy1 Hy2] [Hz1 Hz2] Hc Hba Hbb Hbc Ho Ho2 Hf Hsrv Hrt Hf2 Ht0 Ht x.
  pose proof (handle_dhcp_exact src a x b yi c opts s Ha Hb Hy1 Hc Hx Hba Hbb Hy2 Hbc Ho) as E1. unfold x in E1 at 2. rewrite Z.eqb_refl, Hf in E1.
  unfold dhcp_transition in E1. rewrite Hst in E1. cbn in E1. set (s1 := mkNS _ _) in E1.
  assert (H1 : ns_ok s1) by (split; [split_and!; cbn; try done; lia|apply Hok]).
  assert (Hmac1 : get_mac (ns_dev s1) = Some our_mac) by done. destruct (nd_mac _ _ (proj2 H1) Hmac1) as [Hm6 Hmb].
  destruct (nd_send (dhcp_frame our_mac x dhcp_csum (request_options yi srv)) _ (proj2 H1)) as (n2 & En2 & _).
  { apply dhcp_frame_ok; [done|apply dhcp_csum_ok|by apply request_options_ok]. }
  set (s2 := mkNS (mkNet yi rt srv Requesting x (t + DHCP_RETRY_TICKS) 1) n2).
  assert (E2 : dhcp_tick t s1 = Some (tt, s2)).
  { unfold dhcp_tick, bind at 1, gets. cbn [ns_st s1 dhcp_state dhcp_retry req_retries ip server_ip]. rewrite (proj2 (Z.leb_le 0 t) Ht0).
    rewrite (bind_run _ _ _ _ _ (add_w_run 8 0 1 s1 ltac:(lia))). change (3 <? 0 + 1) with false. cbv iota. unfold send_dhcp_request.
    erewrite bind_run by (rewrite (send_dhcp_exact our_mac) by done; unfold send, on_dev; change (dhcp_xid (ns_st s1)) with x; rewrite En2; reflexivity).
    by rewrite (bind_run _ _ _ _ _ (add64_run _ _ _ Ht)). }
  pose proof (handle_dhcp_exact src a x b yi2 c opts2 s2 Ha Hb Hz1 Hc Hx Hba Hbb Hz2 Hbc Ho2) as E3. cbn [ns_st s2 dhcp_xid] in E3.
  rewrite Z.eqb_refl, Hf2 in E3. cbn in E3. set (s3 := mkNS _ _) in E3.
  exists s1, s2, s3. split_and!; try done.
  - intros s4 Hr. by rewrite (bound_final _ _ Hr eq_refl).
  - intros x' s' Hx' Hne. rewrite handle_dhcp_exact by done. by rewrite (proj2 (Z.eqb_neq _ _) Hne).
Qed.

(** ** A driver over lists of frames *)

Record Wire := mkWire { w_mac : list Z; w_in : list (list Z); w_out : list (list Z) }.

#[global] Instance wire_driver : NetDriver Wire := {|
  get_mac := fun w => Some (w_mac w);
  poll_recv := fun w => Some (match w_in w with f :: _ => Some (0, Z.of_nat (length f)) | [] => None end, w);
  get_rx_frame := fun _ _ w => Some (default [] (head (w_in w)), w);
  return_rx_buffer := fun _ w => Some (tt, mkWire (w_mac w) (tail (w_in w)) (w_out w));
  send_packet := fun f w => Some (tt, mkWire (w_mac w) (w_in w) (w_out w ++ [f])) |}.

#[global] Program Instance wire_laws : NetDriverLaws Wire := {|
  nd_ok := fun w => length (w_mac w) = 6%nat /\ bytes_ok (w_mac w) /\ Forall (fun f => bytes_ok f /\ Z.of_nat (length f) <= 1518) (w_in w);
  nd_pending := fun w => length (w_in w) |}.
Next Obligation. intros w m (H1 & H2 & _) [= <-]. done. Qed.
Next Obligation. intros f w Hw _. eexists. split; [done|]. split; [exact Hw|]. split; [done|cbn; lia]. Qed.
Next Obligation.
  intros [m [|f fs] out] (H1 & H2 & H3) _; [by eexists _, _|]. apply Forall_cons in H3 as [[Hf1 Hf2] H3]. eexists (Some (0, Z.of_nat (length f))), _.
  split; [done|]. split; [done|]. exists f, (mkWire m fs out). split_and!; try done. cbn. lia.
Qed.

Definition demo_mac : list Z := [82; 84; 0; 18; 52; 86].
Definition demo_net (st : NetState) (frames : list (list Z)) : NS Wire := mkNS st (mkWire demo_mac frames []).
Definition demo_bound : NetState := mkNet [10; 0; 2; 15] [10; 0; 2; 2] [10; 0; 2; 2] Bound 1193046 200 1.
Definition demo_ping : list Z :=
  Eval vm_compute in echo_request demo_mac [82; 85; 10; 0; 2; 2] 0 [0; 1] 0 64 [0; 0] [10; 0; 2; 2] [10; 0; 2; 15] [0; 0] [0; 7; 0; 1; 222; 173].

Ltac bytes := repeat (apply Forall_cons; split; [lia|]); apply Forall_nil; done.

Lemma tick_total_example : exists s', tick 3 0 (demo_net demo_bound [demo_ping; [1; 2; 3]]) = Some (tt, s') /\ ns_ok s' /\ length (w_out (ns_dev s')) = 1%nat.
Proof.
  destruct (tick_total Wire (demo_net demo_bound [demo_ping; [1; 2; 3]]) 0) as (s' & E & Hok & _); [|lia|done|].
  - split; [|split_and!; [done|unfold demo_mac; cbn; bytes|]].
    + split_and!; try (split; [done|cbn; bytes]); cbn; lia.
    + repeat (apply Forall_cons; split; [split; [cbn; bytes|cbn; lia]|]). by apply Forall_nil.
  - exists s'. split; [exact E|]. split; [done|]. vm_compute in E. by injection E as <-.
Defined.

Lemma echo_answered_witness : process_frame demo_ping (demo_net demo_bound []) =
  send (echo_reply [82; 85; 10; 0; 2; 2] demo_mac [10; 0; 2; 15] [10; 0; 2; 2] [0; 7; 0; 1; 222; 173]) (demo_net demo_bound []).
Proof.
  refine (proj1 (echo_answered Wire (demo_net demo_bound []) demo_mac [10; 0; 2; 15] demo_mac [82; 85; 10; 0; 2; 2] [10; 0; 2; 2]
    [0; 1] [0; 0] [0; 0] [0; 7; 0; 1; 222; 173] 0 0 64 _ _ _ _ _ _ _ _ _ _ _ _ _ _ _ _ _ _)); try done; try (cbn; bytes). by left.
Defined.

Lemma long_frame_panics_witness : drain 9 (demo_net demo_bound [replicate 1519 0]) = None.
Proof. by eapply (long_frame_panics Wire (demo_net demo_bound [replicate 1519 0]) 9 0 1519). Defined.

Definition demo_offer : list (Z * list Z) := [(53, [2]); (54, [10; 0; 2; 2]); (1, [255; 255; 255; 0]); (3, [10; 0; 2; 2])].
Definition demo_ack : list (Z * list Z) := [(53, [5]); (54, [10; 0; 2; 2]); (3, [10; 0; 2; 2])].

Lemma dhcp_lease_witness : exists s1 s2 s3,
  let s := demo_net (mkNet NO_IP NO_IP NO_IP Discovering 1193046 0 0) [] in
  handle_dhcp [10; 0; 2; 2] (dhcp_reply [1; 6; 0] 1193046 (replicate 8 0) [10; 0; 2; 15] (replicate 216 0) demo_offer) s = Some (tt, s1) /\
  dhcp_tick 5 s1 = Some (tt, s2) /\
  handle_dhcp [10; 0; 2; 2] (dhcp_reply [1; 6; 0] 1193046 (replicate 8 0) [10; 0; 2; 15] (replicate 216 0) demo_ack) s2 = Some (tt, s3) /\
  ip (ns_st s3) = [10; 0; 2; 15].
Proof.
  destruct (dhcp_lease Wire (demo_net (mkNet NO_IP NO_IP NO_IP Discovering 1193046 0 0) []) demo_mac [10; 0; 2; 2] [1; 6; 0] (replicate 8 0)
    (replicate 216 0) [10; 0; 2; 15] [10; 0; 2; 15] demo_offer demo_ack [10; 0; 2; 2] [10; 0; 2; 2] [10; 0; 2; 2] [10; 0; 2; 2] 5)
    as (s1 & s2 & s3 & E1 & _ & E2 & _ & E3 & Hf & _); try done; try (split; [done|cbn; bytes]); try apply zeros_ok; try (cbn; bytes).
  - split; [|split_and!; [done|unfold demo_mac; cbn; bytes|done]]. split_and!; try (split; [done|cbn; bytes]); cbn; lia.
  - repeat (apply Forall_cons; split; [split_and!; [done|done|cbn; lia|cbn; bytes]|]). by apply Forall_nil.
  - repeat (apply Forall_cons; split; [split_and!; [done|done|cbn; lia|cbn; bytes]|]). by apply Forall_nil.
  - exists s1, s2, s3. split_and!; [done..|]. apply (Hf s3). apply rtc_refl.
Defined.
