(* ===== verification/NetDev.v ===== *)
(** * The virtio network driver

    Models [xous/kernel/src/platform/qemu_virt/net.rs]: initialisation with one
    receive buffer per descriptor, polling for received frames, returning
    buffers, and sending through one transmit buffer.  It is the driver the
    network stack of [Net] runs on.

    As in [Blk], memory is a function from physical addresses to bytes and the
    device is the function [serve], which runs before every look of the driver
    at a used ring. *)

From S2P Require Import Prelude Memory PageTable Virtio Gic Net.
From Stdlib Require Import ZArith Lia Bool.
From stdpp Require Import list relations.
Open Scope Z_scope.

Definition VIRTIO_NET_DEVICE_ID : Z := 1.
Definition VIRTIO_NET_F_MAC : Z := 32.
Definition VNET_HDR_SIZE : Z := 10.
Definition MAX_FRAME_SIZE : Z := 1518.
Definition RX_BUF_SIZE : Z := 1536.
Definition NET_QUEUE_SIZE : Z := 16.

Record NetDev := mkNetDev {
  nv_base_va : Z; nv_mac : list Z; nv_rx : Virtqueue; nv_tx : Virtqueue; nv_irq : Z; nv_desc_to_buf : list Z }.

Definition with_rx (d : NetDev) (q : Virtqueue) : NetDev :=
  mkNetDev (nv_base_va d) (nv_mac d) q (nv_tx d) (nv_irq d) (nv_desc_to_buf d).
Definition with_tx (d : NetDev) (q : Virtqueue) : NetDev :=
  mkNetDev (nv_base_va d) (nv_mac d) (nv_rx d) q (nv_irq d) (nv_desc_to_buf d).

Section Driver.
Context {D : Type}.
Variable serve : D -> Bus -> Virtqueue -> Virtqueue -> bmem -> D * VirtqUsed * VirtqUsed * bmem.
Variable answer : Bus -> Z -> Z.
(** The addresses of [RX_VQ_BUF], [TX_VQ_BUF], [RX_BUFS] and [TX_BUF] and of the
    interrupt controller. *)
Variables rx_vq_buf tx_vq_buf rx_bufs tx_buf gicd gicr : Z.
(** A bound for the rounds of the loops that run until a used ring is empty. *)
Variable rounds : nat.

(** [NET_DEV], memory, registers and the device *)
Record ND := mkND { nd_dev : option NetDev; nd_mem : bmem; nd_bus : Bus; nd_hw : D }.

Definition set_dev (f : NetDev -> NetDev) (s : ND) : ND := mkND (f <$> nd_dev s) (nd_mem s) (nd_bus s) (nd_hw s).
Definition on_rx {X} (op : M Virtqueue X) : M ND X :=
  fun s => match nd_dev s with
           | Some d => match op (nv_rx d) with Some (x, q) => Some (x, set_dev (fun d => with_rx d q) s) | None => None end
           | None => None
           end.
Definition on_tx {X} (op : M Virtqueue X) : M ND X :=
  fun s => match nd_dev s with
           | Some d => match op (nv_tx d) with Some (x, q) => Some (x, set_dev (fun d => with_tx d q) s) | None => None end
           | None => None
           end.
Definition nd_regs {X} (op : M Bus X) : M ND X := on_bus nd_bus (fun h s => mkND (nd_dev s) (nd_mem s) h (nd_hw s)) op.
Definition nd_write (pa : Z) (l : list Z) : M ND unit :=
  modify (fun s => mkND (nd_dev s) (put_bytes pa l (nd_mem s)) (nd_bus s) (nd_hw s)).

Definition net_turn : M ND unit :=
  fun s => match nd_dev s with
           | Some d =>
               let '(hw, ur, ut, m) := serve (nd_hw s) (nd_bus s) (nv_rx d) (nv_tx d) (nd_mem s) in
               Some (tt, mkND (Some (with_tx (with_rx d (set_used ur (nv_rx d))) (set_used ut (nv_tx d)))) m (nd_bus s) hw)
           | None => None
           end.

Definition net_mac (s : ND) : option (list Z) := nv_mac <$> nd_dev s.
Definition net_irq_number (s : ND) : option Z := nv_irq <$> nd_dev s.
Definition net_handle_irq : M ND unit :=
  o <- gets nd_dev ;;
  match o with Some dev => _ <- nd_regs (ack_interrupt answer (nv_base_va dev)) ;; ret tt | None => ret tt end.

Definition buf_pa (i : Z) : Z := kernel_virt_to_phys (rx_bufs + i * RX_BUF_SIZE).

(** [dev.rx_desc_to_buf[desc_head as usize]] and [RX_BUFS[buf_idx]] *)
Definition buffer_of (dev : NetDev) (desc_head : Z) : M ND Z :=
  i <- expect (nv_desc_to_buf dev !! Z.to_nat desc_head) ;;
  _ <- assertb (i <? NET_QUEUE_SIZE) ;;
  ret i.

Definition rx_desc (i : Z) : VirtqDesc := mkDesc (buf_pa i) RX_BUF_SIZE VIRTQ_DESC_F_WRITE 0.

Definition resubmit_rx_desc (dev : NetDev) (desc_head : Z) : M ND unit :=
  i <- buffer_of dev desc_head ;;
  _ <- on_rx (write_desc desc_head (rx_desc i)) ;;
  _ <- on_rx (push_avail desc_head) ;;
  nd_regs (notify (nv_base_va dev) 0).

Fixpoint poll_loop (fuel : nat) (dev : NetDev) : M ND (option (Z * Z)) :=
  match fuel with
  | O => panic
  | S fuel =>
      _ <- net_turn ;;
      o <- on_rx pop_used ;;
      match o with
      | None => ret None
      | Some (desc_head, len) =>
          let frame_len := Z.max 0 (len - VNET_HDR_SIZE) in
          if frame_len <? 14 then _ <- resubmit_rx_desc dev desc_head ;; poll_loop fuel dev
          else ret (Some (desc_head, frame_len))
      end
  end.
Definition net_poll_recv : M ND (option (Z * Z)) :=
  o <- gets nd_dev ;; match o with None => ret None | Some dev => poll_loop rounds dev end.

Definition net_get_rx_frame (desc_head frame_len : Z) : M ND (list Z) :=
  o <- gets nd_dev ;;
  dev <- expect o ;;
  i <- buffer_of dev desc_head ;;
  _ <- assertb (VNET_HDR_SIZE + frame_len <=? RX_BUF_SIZE) ;;
  gets (fun s => get_bytes (buf_pa i + VNET_HDR_SIZE) frame_len (nd_mem s)).

Definition net_return_rx_buffer (desc_head : Z) : M ND unit :=
  o <- gets nd_dev ;; match o with Some dev => resubmit_rx_desc dev desc_head | None => ret tt end.

(** [while let Some((head, _)) = dev.tx_queue.pop_used()] *)
Fixpoint reclaim_loop (fuel : nat) : M ND unit :=
  match fuel with
  | O => panic
  | S fuel =>
      _ <- net_turn ;;
      o <- on_tx pop_used ;;
      match o with
      | None => ret tt
      | Some (head, _) => _ <- on_tx (free_chain head) ;; reclaim_loop fuel
      end
  end.

(** A round of the loop that waits for the frame to be sent. *)
Definition tx_round : M ND (option unit) :=
  _ <- net_turn ;;
  o <- on_tx pop_used ;;
  match o with
  | Some (head, _) => _ <- on_tx (free_chain head) ;; ret (Some tt)
  | None => ret None
  end.

Definition tx_desc (len : Z) : VirtqDesc := mkDesc (kernel_virt_to_phys tx_buf) (wrap 32 (VNET_HDR_SIZE + len)) 0 0.

Definition net_send_packet (frame : list Z) : M ND unit :=
  let len := Z.of_nat (length frame) in
  if MAX_FRAME_SIZE <? len then ret tt
  else
    o <- gets nd_dev ;;
    match o with
    | None => ret tt
    | Some dev =>
        _ <- reclaim_loop rounds ;;
        d <- on_tx alloc_desc ;;
        match d with
        | None => ret tt
        | Some desc =>
            let tx_pa := kernel_virt_to_phys tx_buf in
            _ <- nd_write tx_pa (replicate (Z.to_nat VNET_HDR_SIZE) 0) ;;
            _ <- nd_write (tx_pa + VNET_HDR_SIZE) frame ;;
            _ <- on_tx (write_desc desc (tx_desc len)) ;;
            _ <- on_tx (push_avail desc) ;;
            _ <- nd_regs (notify (nv_base_va dev) 1) ;;
            _ <- loop_pos tx_round 1000000 ;;
            ret tt
        end
    end.

(** *** Initialisation *)

Definition mac_of (w0 w1 : Z) : list Z :=
  [Z.land w0 255; Z.land (Z.shiftr w0 8) 255; Z.land (Z.shiftr w0 16) 255; Z.land (Z.shiftr w0 24) 255;
   Z.land w1 255; Z.land (Z.shiftr w1 8) 255].
Definition DEFAULT_MAC : list Z := [82; 84; 0; 18; 52; 86].

(** The loop that posts a buffer per descriptor, on the queue and the map. *)
Fixpoint post_buffers (l : list Z) (map : list Z) : M Virtqueue (list Z) :=
  match l with
  | [] => ret map
  | i :: l =>
      o <- alloc_desc ;;
      match o with
      | Some desc =>
          _ <- write_desc desc (rx_desc i) ;;
          _ <- assertb (desc <? NET_QUEUE_SIZE) ;;
          _ <- push_avail desc ;;
          post_buffers l (<[Z.to_nat desc := i]> map)
      | None => post_buffers l map
      end
  end.

Definition init_net_device (base_va transport_idx : Z) : M ND bool :=
  f <- nd_regs (init_device answer base_va VIRTIO_NET_F_MAC) ;;
  match f with
  | None => ret false
  | Some features =>
      mac <- (if negb (Z.land features VIRTIO_NET_F_MAC =? 0) then
                w0 <- nd_regs (read_config_u32 answer base_va 0) ;;
                w1 <- nd_regs (read_config_u32 answer base_va 4) ;;
                ret (mac_of w0 w1)
              else ret DEFAULT_MAC) ;;
      let rx_queue := vq_init (kernel_virt_to_phys rx_vq_buf) NET_QUEUE_SIZE in
      let tx_queue := vq_init (kernel_virt_to_phys tx_vq_buf) NET_QUEUE_SIZE in
      _ <- nd_regs (setup_queue answer base_va 0 rx_queue PAGE_SIZE) ;;
      _ <- nd_regs (setup_queue answer base_va 1 tx_queue PAGE_SIZE) ;;
      _ <- nd_regs (driver_ok answer base_va) ;;
      let irq := VIRTIO_IRQ_BASE + transport_idx in
      _ <- nd_regs (enable_irq gicd gicr irq) ;;
      match post_buffers (zrange 0 NET_QUEUE_SIZE) (replicate (Z.to_nat NET_QUEUE_SIZE) 0) rx_queue with
      | None => panic
      | Some (map, rx_queue) =>
          _ <- nd_regs (notify base_va 0) ;;
          _ <- modify (fun s => mkND (Some (mkNetDev base_va mac rx_queue tx_queue irq map)) (nd_mem s) (nd_bus s) (nd_hw s)) ;;
          ret true
      end
  end.

Fixpoint net_probe_loop (virtio_base_va : Z) (l : list Z) : M ND unit :=
  match l with
  | [] => ret tt
  | i :: l =>
      let base := virtio_base_va + i * TRANSPORT_SIZE in
      o <- nd_regs (probe_transport answer base) ;;
      match o with
      | Some device_id =>
          if device_id =? VIRTIO_NET_DEVICE_ID then
            done <- init_net_device base i ;;
            if done : bool then ret tt else net_probe_loop virtio_base_va l
          else net_probe_loop virtio_base_va l
      | None => net_probe_loop virtio_base_va l
      end
  end.
Definition net_probe_and_init (virtio_base_va : Z) : M ND unit := net_probe_loop virtio_base_va (zrange 0 NUM_TRANSPORTS).

(** The stack's view of the driver. *)
Definition net_driver : NetDriver ND := {|
  get_mac := net_mac; poll_recv := net_poll_recv; get_rx_frame := net_get_rx_frame;
  return_rx_buffer := net_return_rx_buffer; send_packet := net_send_packet |}.

End Driver.

Arguments ND : clear implicits.

(** ** What a virtio network device promises *)

Definition MAX_RX : Z := VNET_HDR_SIZE + MAX_FRAME_SIZE.

Abbreviation mem_ok m := (forall x, 0 <= m x < 256).

(** [hw_backlog] is the number of frames that are still to arrive, [hw_rx] and
    [hw_tx] are the device's positions in the two available rings.  [hw_longest]
    bounds what the device writes for a packet, its header included: at most
    the buffer the driver posted. *)
Class VirtioNetDevice (D : Type) (serve : D -> Bus -> Virtqueue -> Virtqueue -> bmem -> D * VirtqUsed * VirtqUsed * bmem) := {
  hw_backlog : D -> nat;
  hw_rx : D -> Z;
  hw_tx : D -> Z;
  hw_longest : Z;
  hw_fits : hw_longest <= RX_BUF_SIZE;
  hw_turn : forall d bus rx tx m orx otx, vq_proto rx orx -> vq_proto tx otx -> at_pos (hw_rx d) rx orx -> at_pos (hw_tx d) tx otx -> mem_ok m ->
    exists d' ur ut m' orx' otx', serve d bus rx tx m = (d', ur, ut, m') /\ mem_ok m' /\
      at_pos (hw_rx d') (set_used ur rx) orx' /\ at_pos (hw_tx d') (set_used ut tx) otx' /\
      rtc (dev_step hw_longest) (rx, orx) (set_used ur rx, orx') /\ rtc (dev_step hw_longest) (tx, otx) (set_used ut tx, otx') /\
      (hw_backlog d' + length (o_done orx') <= hw_backlog d + length (o_done orx))%nat }.

(** The network behind the device carries no frame longer than Ethernet's 1518
    bytes.  Nothing in virtio says so, and the driver's buffers have room for
    1526: it is a condition on the network, which the stack needs
    ([long_frame_panics]). *)
Class EthernetFrames (D : Type) serve {HD : VirtioNetDevice D serve} : Prop := ethernet_frames : hw_longest <= MAX_RX.

Lemma dev_steps_longer l1 l2 s s' : l1 <= l2 -> rtc (dev_step l1) s s' -> rtc (dev_step l2) s s'.
Proof.
  intros Hl. induction 1 as [s|s1 s2 s3 Hs _ IH]; [apply rtc_refl|]. eapply rtc_l; [|exact IH].
  destruct Hs; [apply ds_take|apply ds_complete; [done|lia]].
Qed.

(** The lengths in the used ring are those of [dev_step]. *)
Definition lens_ok (q : Virtqueue) (o : Own) : Prop := forall k c, o_done o !! k = Some c ->
  exists e, us_ring (vq_used q) !! Z.to_nat ((vq_last_used_idx q + Z.of_nat k) mod vq_num q) = Some e /\ 0 <= ue_len e <= MAX_RX.

(** What a turn of the device keeps. *)
Record dev_kept (q : Virtqueue) (o : Own) (q' : Virtqueue) (o' : Own) : Prop := {
  dk_proto : vq_proto q' o';
  dk_lens : lens_ok q o -> lens_ok q' o';
  dk_held : o_held o' = o_held o;
  dk_flight : in_flight o' ≡ₚ in_flight o;
  dk_num : vq_num q' = vq_num q }.

Lemma dev_step_kept s s' : dev_step MAX_RX s s' -> vq_proto s.1 s.2 -> dev_kept s.1 s.2 s'.1 s'.2.
Proof.
  intros Hs HP. pose proof (vq_step_proto _ _ (dev_step_vq _ _ _ Hs) HP) as HP'.
  destruct Hs as [q c h p t d|q len c h p t t' d Ht Hl]; cbn [fst snd] in *; split; try done; unfold in_flight; cbn.
  - by rewrite <- Permutation_middle.
  - intros H k c1 Hk. cbn in *. pose proof (pr_inv _ _ HP) as [free Hi]. pose proof (inv_num _ _ _ _ Hi) as Hn.
    pose proof (flight_bound _ _ _ _ Hi) as Hb. unfold in_flight in Hb. cbn in Hb. rewrite !length_app in Hb.
    pose proof (Permutation_length Ht) as Hlt. cbn in Hlt. pose proof (pr_used _ _ HP) as Hu. cbn in Hu.
    rewrite Hu, wrap_slot by (lia || apply (pr_div _ _ HP)). apply lookup_app_Some in Hk as [Hk|[Hle Hk]].
    + pose proof (lookup_lt_Some _ _ _ Hk). rewrite list_lookup_insert_ne; [by apply (H k c1)|].
      pose proof (slot_ne (vq_num q) (vq_last_used_idx q + Z.of_nat (length d)) (Z.of_nat (length d) - Z.of_nat k) ltac:(lia)) as Hne.
      replace (_ - (Z.of_nat (length d) - Z.of_nat k)) with (vq_last_used_idx q + Z.of_nat k) in Hne by lia.
      pose proof (Z.mod_pos_bound (vq_last_used_idx q + Z.of_nat k) (vq_num q)).
      pose proof (Z.mod_pos_bound (vq_last_used_idx q + Z.of_nat (length d)) (vq_num q)). lia.
    + pose proof (lookup_lt_Some _ _ _ Hk) as Hk2. cbn in Hk2. exists (mkElem (head_of c) len). split; [|done].
      replace (Z.of_nat k) with (Z.of_nat (length d)) by lia. apply list_lookup_insert_eq.
      pose proof (Z.mod_pos_bound (vq_last_used_idx q + Z.of_nat (length d)) (vq_num q)). rewrite (inv_used _ _ _ _ Hi). lia.
  - rewrite Ht. solve_Permutation.
Qed.

Lemma dev_steps_kept s s' : rtc (dev_step MAX_RX) s s' -> vq_proto s.1 s.2 -> dev_kept s.1 s.2 s'.1 s'.2.
Proof.
  induction 1 as [s|s s1 s2 H1 H2 IH]; intros HP; [by split|]. destruct (dev_step_kept _ _ H1 HP) as [A1 A2 A3 A4 A5].
  destruct (IH A1) as [B1 B2 B3 B4 B5]. split; [done|auto|congruence|by rewrite B4|congruence].
Qed.

(** The number of requests in the used ring, from the indices. *)
Definition used_count (q : Virtqueue) : nat := Z.to_nat ((us_idx (vq_used q) - vq_last_used_idx q) mod 2 ^ 16).

Lemma used_count_done q o : vq_proto q o -> used_count q = length (o_done o).
Proof.
  intros HP. pose proof (pr_inv _ _ HP) as [free Hi]. pose proof (inv_num _ _ _ _ Hi). pose proof (flight_bound _ _ _ _ Hi) as Hb.
  unfold in_flight in Hb. rewrite !length_app in Hb. unfold used_count. rewrite (pr_used _ _ HP). unfold wrap.
  rewrite Zminus_mod_idemp_l. replace (_ + _ - _) with (Z.of_nat (length (o_done o))) by lia. rewrite Z.mod_small by lia. lia.
Qed.

(** ** The driver keeps its promises *)

Section Laws.
Context {D : Type} {serve : D -> Bus -> Virtqueue -> Virtqueue -> bmem -> D * VirtqUsed * VirtqUsed * bmem} {HD : VirtioNetDevice D serve} {HE : EthernetFrames D serve}.
Variables rx_bufs tx_buf : Z.

(** The fields of the device record that no operation changes. *)
Definition same_dev (d d' : NetDev) : Prop :=
  nv_base_va d' = nv_base_va d /\ nv_mac d' = nv_mac d /\ nv_irq d' = nv_irq d /\ nv_desc_to_buf d' = nv_desc_to_buf d.

Record nd_inv (s : ND D) (dev : NetDev) (orx otx : Own) : Prop := {
  iv_dev : nd_dev s = Some dev;
  iv_rx : vq_proto (nv_rx dev) orx;
  iv_tx : vq_proto (nv_tx dev) otx;
  iv_num : vq_num (nv_rx dev) = NET_QUEUE_SIZE /\ vq_num (nv_tx dev) = NET_QUEUE_SIZE;
  iv_pos : at_pos (hw_rx (nd_hw s)) (nv_rx dev) orx /\ at_pos (hw_tx (nd_hw s)) (nv_tx dev) otx;
  iv_lens : lens_ok (nv_rx dev) orx;
  iv_single : singles orx;
  iv_map : length (nv_desc_to_buf dev) = 16%nat /\ Forall (fun i => 0 <= i < NET_QUEUE_SIZE) (nv_desc_to_buf dev);
  iv_mac : length (nv_mac dev) = 6%nat /\ bytes_ok (nv_mac dev);
  iv_base : nv_base_va dev + TRANSPORT_SIZE <= 2 ^ 64;
  iv_mem : mem_ok (nd_mem s) }.

(** Frames that arrived or are still to arrive. *)
Definition work (s : ND D) (orx : Own) : nat := (hw_backlog (nd_hw s) + length (o_done orx))%nat.

Lemma turn_inv s dev orx otx : nd_inv s dev orx otx ->
  exists s' dev' orx' otx', net_turn serve s = Some (tt, s') /\ nd_inv s' dev' orx' otx' /\ same_dev dev dev' /\
    o_held orx' = o_held orx /\ o_held otx' = o_held otx /\ in_flight otx' ≡ₚ in_flight otx /\ (work s' orx' <= work s orx)%nat.
Proof.
  intros []. destruct (hw_turn (nd_hw s) (nd_bus s) (nv_rx dev) (nv_tx dev) (nd_mem s) orx otx iv_rx0 iv_tx0 (proj1 iv_pos0) (proj2 iv_pos0) iv_mem0)
    as (d' & ur & ut & m' & orx' & otx' & E & Hm & Hp1 & Hp2 & Hrx & Htx & Hw).
  apply (dev_steps_longer _ _ _ _ ethernet_frames) in Hrx, Htx.
  destruct (dev_steps_kept _ _ Hrx iv_rx0) as [A1 A2 A3 A4 A5]. destruct (dev_steps_kept _ _ Htx iv_tx0) as [B1 B2 B3 B4 B5].
  cbn [fst snd] in *. unfold net_turn. rewrite iv_dev0, E.
  exists (mkND (Some (with_tx (with_rx dev (set_used ur (nv_rx dev))) (set_used ut (nv_tx dev)))) m' (nd_bus s) d'),
    (with_tx (with_rx dev (set_used ur (nv_rx dev))) (set_used ut (nv_tx dev))), orx', otx'. split; [done|]. split_and!; try done.
  split; cbn; try done; [auto|by eapply singles_perm].
Qed.

Lemma on_rx_run {X} (op : M Virtqueue X) (s : ND D) dev x q : nd_dev s = Some dev -> op (nv_rx dev) = Some (x, q) ->
  on_rx op s = Some (x, mkND (Some (with_rx dev q)) (nd_mem s) (nd_bus s) (nd_hw s)).
Proof. intros Hd Ho. unfold on_rx, set_dev. by rewrite Hd, Ho. Qed.

Lemma on_tx_run {X} (op : M Virtqueue X) (s : ND D) dev x q : nd_dev s = Some dev -> op (nv_tx dev) = Some (x, q) ->
  on_tx op s = Some (x, mkND (Some (with_tx dev q)) (nd_mem s) (nd_bus s) (nd_hw s)).
Proof. intros Hd Ho. unfold on_tx, set_dev. by rewrite Hd, Ho. Qed.

Lemma nd_notify_run (s : ND D) base i : base + TRANSPORT_SIZE <= 2 ^ 64 ->
  nd_regs (notify base i) s = Some (tt, mkND (nd_dev s) (nd_mem s) (Wr (base + QUEUE_NOTIFY) i :: nd_bus s) (nd_hw s)).
Proof. intros Hb. unfold nd_regs, on_bus, notify. by rewrite write_reg_run by (unfold QUEUE_NOTIFY, TRANSPORT_SIZE in *; lia). Qed.

Lemma rx_pop_inv s dev orx otx : nd_inv s dev orx otx -> o_held orx = [] ->
  match o_done orx with
  | [] => exists s', on_rx pop_used s = Some (None, s') /\ nd_inv s' dev orx otx /\ nd_hw s' = nd_hw s
  | c :: d => exists i len s' dev', on_rx pop_used s = Some (Some (i, len), s') /\ same_dev dev dev' /\ 0 <= i < NET_QUEUE_SIZE /\
      0 <= len <= MAX_RX /\ nd_inv s' dev' (mkOwn [i] (o_posted orx) (o_taken orx) d) otx /\ nd_hw s' = nd_hw s
  end.
Proof.
  intros [] Hh. destruct orx as [h p t d]. cbn in Hh. subst h. pose proof (proto_pop _ _ _ _ _ iv_rx0) as Hp. cbn [o_done] in *.
  destruct d as [|c d].
  - rewrite (on_rx_run _ _ _ _ _ iv_dev0 Hp). eexists. split; [done|]. split; [|done]. by split; destruct dev.
  - destruct Hp as [len Hp]. pose proof iv_single0 as Hs. unfold singles, in_flight in Hs. cbn in Hs. rewrite !Forall_app, Forall_cons in Hs.
    destruct Hs as (Hsp & Hst & [i ->] & Hsd). pose proof (proto_reaped _ _ _ _ _ _ iv_rx0) as H1.
    pose proof (pr_inv _ _ iv_rx0) as [free Hi]. pose proof (owned_range Hi i) as Hr. unfold in_flight in Hr. cbn in Hr. rewrite !concat_app in Hr.
    assert (Hn : 0 <= i < NET_QUEUE_SIZE) by (rewrite <- (proj1 iv_num0); apply Hr; cbn; set_solver).
    destruct (iv_lens0 O [i] eq_refl) as (e & He & Hel). cbn in He. rewrite Z.add_0_r in He.
    assert (Hlen : 0 <= len <= MAX_RX).
    { pose proof Hp as Hp'. rewrite (pop_used_some _ e) in Hp'; [injection Hp' as _ <-; done| |unfold NET_QUEUE_SIZE in *; lia|done].
      intros Heq. rewrite pop_used_none in Hp by done. done. }
    exists i, len. rewrite (on_rx_run _ _ _ _ _ iv_dev0 Hp). eexists _, (with_rx dev _). split; [reflexivity|].
    split; [done|]. split; [done|]. split; [done|]. split; [|done].
    split; try done; cbn.
    + intros k c Hk. cbn. rewrite wrap_slot_add by (unfold NET_QUEUE_SIZE in *; lia || apply (pr_div _ _ iv_rx0)).
        destruct (iv_lens0 (S k) c Hk) as (e' & He' & Hl'). exists e'. split; [|done]. rewrite <- He'. do 3 f_equal. lia.
    + unfold singles, in_flight. cbn. by rewrite !Forall_app.
Qed.

Lemma buffer_of_run dev desc (s : ND D) : length (nv_desc_to_buf dev) = 16%nat /\ Forall (fun i => 0 <= i < NET_QUEUE_SIZE) (nv_desc_to_buf dev) ->
  0 <= desc < NET_QUEUE_SIZE -> exists i, buffer_of dev desc s = Some (i, s) /\ 0 <= i < NET_QUEUE_SIZE.
Proof.
  intros [Hl Hf] Hd. unfold NET_QUEUE_SIZE in *. assert (Hb : is_Some (nv_desc_to_buf dev !! Z.to_nat desc)) by (apply lookup_lt_is_Some; lia).
  destruct Hb as [i Hi]. pose proof (Forall_lookup_1 _ _ _ _ Hf Hi) as Hr. cbn in Hr. exists i. split; [|done]. unfold buffer_of, NET_QUEUE_SIZE. rewrite Hi.
  unfold bind, expect, ret, assertb. by rewrite (proj2 (Z.ltb_lt _ _)) by lia.
Qed.

(** A received buffer goes back to the device. *)
Lemma resubmit_inv s dev0 dev i h p t d otx : nd_inv s dev (mkOwn (i :: h) p t d) otx -> same_dev dev0 dev -> 0 <= i < NET_QUEUE_SIZE ->
  exists s' dev', resubmit_rx_desc rx_bufs dev0 i s = Some (tt, s') /\ same_dev dev dev' /\ nd_inv s' dev' (mkOwn h (p ++ [[i]]) t d) otx /\
    nd_hw s' = nd_hw s.
Proof.
  intros [] (Hb & _ & _ & Hmap) Hi. destruct (buffer_of_run dev0 i s) as (b & E0 & _); [by rewrite <- Hmap|done|].
  unfold resubmit_rx_desc. rewrite (bind_run _ _ _ _ _ E0).
  destruct (proto_repost _ _ _ _ _ _ (rx_desc rx_bufs b) iv_rx0 eq_refl) as (q1 & q2 & E1 & E2 & H2 & Hn & Hu & Hl & Hav).
  rewrite (bind_run _ _ _ _ _ (on_rx_run _ _ _ _ _ iv_dev0 E1)).
  erewrite bind_run; [|eapply on_rx_run; [reflexivity|exact E2]].
  rewrite nd_notify_run by (rewrite <- Hb; done). eexists _, (with_rx dev q2). split; [reflexivity|]. split_and!; try done. split; cbn; try done.
  - by rewrite Hn.
  - split; [|apply iv_pos0]. eapply at_pos_push; [apply iv_pos0|done].
  - intros k c Hk. cbn in *. rewrite Hu, Hl, Hn. by apply (iv_lens0 k c).
  - unfold singles, in_flight in *. cbn in *. rewrite !Forall_app in *. rewrite Forall_singleton. naive_solver.
Qed.

Lemma poll_loop_inv fuel s dev0 dev orx otx : nd_inv s dev orx otx -> same_dev dev0 dev -> o_held orx = [] -> (work s orx < fuel)%nat ->
  exists r s' dev' orx' otx', poll_loop serve rx_bufs fuel dev0 s = Some (r, s') /\ same_dev dev dev' /\ nd_inv s' dev' orx' otx' /\
    o_held otx' = o_held otx /\
    match r with
    | None => o_held orx' = [] /\ (work s' orx' <= work s orx)%nat
    | Some (i, len) => o_held orx' = [i] /\ 0 <= i < NET_QUEUE_SIZE /\ 14 <= len <= MAX_FRAME_SIZE /\ (work s' orx' < work s orx)%nat
    end.
Proof.
  assert (Htr : forall d1 d2 d3, same_dev d1 d2 -> same_dev d2 d3 -> same_dev d1 d3) by (unfold same_dev; intros; intuition congruence).
  revert s dev orx otx. induction fuel as [|fuel IH]; intros s dev orx otx Hi H0 Hh Hw; [lia|]. cbn [poll_loop].
  destruct (turn_inv _ _ _ _ Hi) as (s1 & dev1 & orx1 & otx1 & E1 & H1 & Hs1 & Hh1 & Ht1 & _ & Hw1). rewrite (bind_run _ _ _ _ _ E1).
  rewrite Hh in Hh1. pose proof (rx_pop_inv _ _ _ _ H1 Hh1) as Hp. unfold work in *. destruct (o_done orx1) as [|c d] eqn:Ed; rewrite ?Ed in Hw1; cbn [length] in Hw1.
  - destruct Hp as (s2 & E2 & H2 & Hhw). rewrite (bind_run _ _ _ _ _ E2). exists None, s2, dev1, orx1, otx1. split_and!; try done. rewrite Hhw, Ed. cbn [length]. lia.
  - destruct Hp as (i & len & s2 & dev2 & E2 & Hs2 & Hir & Hlen & H2 & Hhw). rewrite (bind_run _ _ _ _ _ E2). cbv beta iota zeta.
    unfold MAX_RX, VNET_HDR_SIZE, MAX_FRAME_SIZE in *. destruct (Z.ltb_spec (Z.max 0 (len - 10)) 14) as [Hlt|Hge].
    + destruct (resubmit_inv _ dev0 _ _ _ _ _ _ _ H2 ltac:(eauto) Hir) as (s3 & dev3 & E3 & Hs3 & H3 & Hhw3). rewrite (bind_run _ _ _ _ _ E3).
      destruct (IH s3 dev3 _ _ H3) as (r & s4 & dev4 & orx4 & otx4 & E4 & Hs4 & H4 & Ht4 & Hr4); [eauto|done|unfold work; cbn in *; rewrite Hhw3, Hhw; lia|].
      exists r, s4, dev4, orx4, otx4. split; [done|]. split; [eauto|]. split; [done|]. split; [congruence|]. cbn [o_done] in Hr4. rewrite Hhw3, Hhw in Hr4.
      destruct r as [[j l]|]; [destruct Hr4 as (? & ? & ? & ?)|destruct Hr4 as (? & ?)]; split_and!; try done; cbn in *; lia.
    + exists (Some (i, Z.max 0 (len - 10))), s2, dev2, (mkOwn [i] (o_posted orx1) (o_taken orx1) d), otx1.
      split; [done|]. split; [eauto|]. split; [done|]. split; [done|]. cbn in *. rewrite Hhw. split_and!; try done; lia.
Qed.

Lemma tx_reap_inv s dev orx otx : nd_inv s dev orx otx -> o_held otx = [] ->
  match o_done otx with
  | [] => exists s', on_tx pop_used s = Some (None, s') /\ nd_inv s' dev orx otx /\ nd_hw s' = nd_hw s
  | c :: d => exists h len s1 s2 dev2, on_tx pop_used s = Some (Some (h, len), s1) /\ on_tx (free_chain h) s1 = Some (tt, s2) /\
      nd_inv s2 dev2 orx (mkOwn [] (o_posted otx) (o_taken otx) d) /\ same_dev dev dev2 /\ nd_hw s2 = nd_hw s
  end.
Proof.
  intros [] Hh. destruct otx as [h p t d]. cbn in Hh. subst h. cbn [o_done]. destruct d as [|c d].
  - pose proof (proto_pop _ _ _ _ _ iv_tx0 : pop_used _ = _) as Hp. rewrite (on_tx_run _ _ _ _ _ iv_dev0 Hp). eexists. split; [done|].
    split; [|done]. by split; destruct dev.
  - destruct (proto_reap _ _ _ _ _ iv_tx0) as (len & q1 & q2 & E1 & E2 & H2 & Hn & Hav). exists (head_of c), len.
    eexists _, _, (with_tx dev q2). split; [by eapply on_tx_run|]. split; [eapply on_tx_run; [reflexivity|exact E2]|].
    split; [|by split_and!]. split; cbn; try done; [by rewrite Hn|]. split; [apply iv_pos0|]. unfold at_pos. rewrite Hav. apply iv_pos0.
Qed.

Lemma put_bytes_ok a l m : bytes_ok l -> mem_ok m -> mem_ok (put_bytes a l m).
Proof.
  intros Hl Hm x. unfold put_bytes. destruct ((a <=? x) && (x <? a + Z.of_nat (length l))) eqn:E; [|done].
  apply andb_true_iff in E as [E1 E2]. apply Z.leb_le in E1. apply Z.ltb_lt in E2.
  apply (Forall_lookup_1 _ _ (Z.to_nat (x - a)) _ Hl). rewrite nth_lookup.
  destruct (l !! Z.to_nat (x - a)) eqn:El; [done|]. apply lookup_ge_None in El. lia.
Qed.

(** Sending works on any state in which all buffers are the device's. *)
Definition idle_inv (dev0 : NetDev) (w : nat) (s : ND D) : Prop := exists dev orx otx,
  nd_inv s dev orx otx /\ same_dev dev0 dev /\ o_held orx = [] /\ o_held otx = [] /\ (work s orx <= w)%nat.

Lemma same_dev_trans d1 d2 d3 : same_dev d1 d2 -> same_dev d2 d3 -> same_dev d1 d3.
Proof. unfold same_dev. intros. intuition congruence. Qed.

Lemma reclaim_inv fuel s dev0 dev orx otx w : nd_inv s dev orx otx -> same_dev dev0 dev -> o_held orx = [] -> o_held otx = [] ->
  (work s orx <= w)%nat -> (length (in_flight otx) < fuel)%nat -> exists s', reclaim_loop serve fuel s = Some (tt, s') /\ idle_inv dev0 w s'.
Proof.
  revert s dev orx otx. induction fuel as [|fuel IH]; intros s dev orx otx Hi H0 Hr Ht Hw Hf; [lia|]. cbn [reclaim_loop].
  destruct (turn_inv _ _ _ _ Hi) as (s1 & dev1 & orx1 & otx1 & E1 & H1 & Hs1 & Hr1 & Ht1 & Hfl & Hw1). rewrite (bind_run _ _ _ _ _ E1).
  rewrite Ht in Ht1. rewrite Hr in Hr1. pose proof (tx_reap_inv _ _ _ _ H1 Ht1) as Hp. pose proof (same_dev_trans _ _ _ H0 Hs1) as H01.
  apply Permutation_length in Hfl. unfold work in *. destruct (o_done otx1) as [|c d] eqn:Ed.
  - destruct Hp as (s2 & E2 & H2 & Hhw). rewrite (bind_run _ _ _ _ _ E2). exists s2. split; [done|]. exists dev1, orx1, otx1. unfold work.
    split_and!; try done; try (apply H01). rewrite Hhw. lia.
  - destruct Hp as (h & len & s2 & s3 & dev3 & E2 & E3 & H3 & Hs3 & Hhw). rewrite (bind_run _ _ _ _ _ E2). cbv beta iota.
    rewrite (bind_run _ _ _ _ _ E3). eapply IH; [exact H3|by eapply same_dev_trans|done|done|rewrite Hhw; lia|].
    unfold in_flight in *. rewrite Ed in Hfl. rewrite !length_app in *. cbn in *. lia.
Qed.

Lemma tx_round_inv dev0 w s : idle_inv dev0 w s -> exists r s', tx_round serve s = Some (r, s') /\ idle_inv dev0 w s'.
Proof.
  intros (dev & orx & otx & Hi & H0 & Hr & Ht & Hw). unfold tx_round.
  destruct (turn_inv _ _ _ _ Hi) as (s1 & dev1 & orx1 & otx1 & E1 & H1 & Hs1 & Hr1 & Ht1 & _ & Hw1). rewrite (bind_run _ _ _ _ _ E1).
  rewrite Ht in Ht1. rewrite Hr in Hr1. pose proof (tx_reap_inv _ _ _ _ H1 Ht1) as Hp. pose proof (same_dev_trans _ _ _ H0 Hs1) as H01.
  unfold work in *. destruct (o_done otx1) as [|c d] eqn:Ed.
  - destruct Hp as (s2 & E2 & H2 & Hhw). rewrite (bind_run _ _ _ _ _ E2). exists None, s2. split; [done|]. exists dev1, orx1, otx1. unfold work.
    split_and!; try done; try (apply H01). rewrite Hhw. lia.
  - destruct Hp as (h & len & s2 & s3 & dev3 & E2 & E3 & H3 & Hs3 & Hhw). rewrite (bind_run _ _ _ _ _ E2). cbv beta iota.
    rewrite (bind_run _ _ _ _ _ E3). exists (Some tt), s3. split; [done|]. eexists dev3, orx1, _. split; [exact H3|].
    split; [by eapply same_dev_trans|]. unfold work. split_and!; try done. rewrite Hhw. lia.
Qed.

Lemma send_inv rounds dev0 w s frame : idle_inv dev0 w s -> bytes_ok frame -> (16 < rounds)%nat ->
  exists s', net_send_packet serve tx_buf rounds frame s = Some (tt, s') /\ idle_inv dev0 w s'.
Proof.
  intros HI Hfr Hrnd. unfold net_send_packet. destruct (MAX_FRAME_SIZE <? Z.of_nat (length frame)); [by exists s|].
  destruct HI as (dev & orx & otx & Hi & H0 & Hr & Ht & Hw). unfold bind at 1, gets. rewrite (iv_dev _ _ _ _ Hi).
  assert (Hfl : (length (in_flight otx) < rounds)%nat).
  { pose proof (pr_inv _ _ (iv_tx _ _ _ _ Hi)) as [free Hv]. pose proof (flight_bound _ _ _ _ Hv) as Hb.
    rewrite (proj2 (iv_num _ _ _ _ Hi)) in Hb. unfold NET_QUEUE_SIZE in Hb. lia. }
  destruct (reclaim_inv rounds s dev0 dev orx otx w Hi H0 Hr Ht Hw Hfl) as (s1 & E1 & dev1 & orx1 & otx1 & H1 & Hs1 & Hr1 & Ht1 & Hw1).
  rewrite (bind_run _ _ _ _ _ E1). destruct otx1 as [h p t d]. cbn in Ht1. subst h.
  destruct (proto_post _ _ _ _ (tx_desc tx_buf (Z.of_nat (length frame))) (iv_tx _ _ _ _ H1) eq_refl) as [Ea|(i & q1 & q2 & q3 & Ea & Ew & Ep & HP & Hn & Hn1 & Hav)].
  { rewrite (bind_run _ _ _ _ _ (on_tx_run _ _ _ _ _ (iv_dev _ _ _ _ H1) Ea)). eexists. split; [reflexivity|].
    exists dev1, orx1, (mkOwn [] p t d). split_and!; try done; try (apply Hs1). destruct H1. by split; destruct dev1. }
  rewrite (bind_run _ _ _ _ _ (on_tx_run _ _ _ _ _ (iv_dev _ _ _ _ H1) Ea)). cbv beta iota zeta.
  erewrite bind_run by reflexivity. erewrite bind_run by reflexivity.
  erewrite bind_run; [|eapply on_tx_run; [reflexivity|exact Ew]]. erewrite bind_run; [|eapply on_tx_run; [reflexivity|exact Ep]].
  destruct H1. erewrite bind_run; [|apply nd_notify_run; destruct Hs1 as [Hb1 _], H0 as [Hb0 _]; rewrite Hb0 in *; rewrite <- Hb1 at 1; done].
  edestruct (loop_nat_inv (idle_inv dev0 w) (tx_round serve) (Pos.to_nat 1000000)) as (r & s9 & E9 & H9); [apply tx_round_inv| |].
  2: { erewrite bind_run; [|rewrite loop_pos_nat; exact E9]. by exists s9. }
  exists (with_tx dev1 q3), orx1, (mkOwn [] (p ++ [[i]]) t d). split; [|by split_and!; try (apply Hs1)]. split; cbn; try done; [by rewrite Hn|split; [apply iv_pos0|eapply at_pos_push; [apply iv_pos0|done]]|].
  apply put_bytes_ok; [done|]. apply put_bytes_ok; [apply (zeros_ok 10)|done].
Qed.

(** The promises of [Net.NetDriverLaws]. *)

Variable rounds : nat.
Notation ndrv := (net_driver serve rx_bufs tx_buf rounds).

Definition ready (n : ND D) : Prop :=
  match nd_dev n with
  | None => True
  | Some dev => exists orx otx, nd_inv n dev orx otx /\ o_held orx = [] /\ o_held otx = [] /\ (work n orx < rounds)%nat /\ (16 < rounds)%nat
  end.
Definition pending (n : ND D) : nat :=
  match nd_dev n with None => 0%nat | Some dev => (hw_backlog (nd_hw n) + used_count (nv_rx dev))%nat end.

Lemma pending_work n dev orx otx : nd_inv n dev orx otx -> pending n = work n orx.
Proof. intros Hi. unfold pending, work. rewrite (iv_dev _ _ _ _ Hi). by rewrite (used_count_done _ _ (iv_rx _ _ _ _ Hi)). Qed.

Lemma idle_ready dev0 w n dev : nd_dev n = Some dev -> same_dev dev0 dev -> idle_inv dev0 w n -> (w < rounds)%nat -> (16 < rounds)%nat ->
  ready n /\ net_mac n = Some (nv_mac dev0) /\ (pending n <= w)%nat.
Proof.
  intros Hd Hs (dev1 & orx & otx & Hi & Hs1 & Hr & Ht & Hw) Hlt Hrn. pose proof (iv_dev _ _ _ _ Hi) as Hd1. simplify_eq.
  split; [|split].
  - unfold ready. rewrite Hd. exists orx, otx. split_and!; try done. lia.
  - unfold net_mac. rewrite Hd. cbn. f_equal. apply Hs.
  - by rewrite (pending_work _ _ _ _ Hi).
Qed.

Lemma send_law f n : ready n -> bytes_ok f -> exists n', net_send_packet serve tx_buf rounds f n = Some (tt, n') /\ ready n' /\ net_mac n' = net_mac n /\
  (pending n' <= pending n)%nat.
Proof.
  intros Hn Hf. destruct (nd_dev n) as [dev|] eqn:Hd.
  - unfold ready in Hn. rewrite Hd in Hn. destruct Hn as (orx & otx & Hi & Hr & Ht & Hw & Hrn). rewrite (pending_work _ _ _ _ Hi).
    destruct (send_inv rounds dev (work n orx) n f) as (n' & E & HI); [|done|done|].
    { exists dev, orx, otx. split_and!; done. }
    pose proof HI as (dev' & orx' & otx' & Hi' & Hs' & _). exists n'. split; [done|].
    unfold net_mac at 2. rewrite Hd. apply (idle_ready dev _ n' dev'); [apply Hi'|done|done|done|done].
  - exists n. split_and!; try done. unfold net_send_packet. case_match; [done|]. unfold bind at 1, gets. by rewrite Hd.
Qed.

Lemma poll_law n : ready n -> is_Some (net_mac n) -> exists r n', net_poll_recv serve rx_bufs rounds n = Some (r, n') /\ net_mac n' = net_mac n /\
  match r with
  | None => ready n' /\ (pending n' <= pending n)%nat
  | Some (d, l) => exists f n2, net_get_rx_frame rx_bufs d l n' = Some (f, n') /\ Z.of_nat (length f) = l /\ l <= 1518 /\ bytes_ok f /\
      net_return_rx_buffer rx_bufs d n' = Some (tt, n2) /\ ready n2 /\ net_mac n2 = net_mac n /\ (pending n2 < pending n)%nat
  end.
Proof.
  intros Hn [m Hm]. unfold net_mac in Hm. destruct (nd_dev n) as [dev|] eqn:Hd; [|done]. unfold ready in Hn. rewrite Hd in Hn.
  destruct Hn as (orx & otx & Hi & Hr & Ht & Hw & Hrn). unfold net_poll_recv, bind at 1, gets. rewrite Hd.
  destruct (poll_loop_inv rounds n dev dev orx otx Hi ltac:(done) Hr Hw) as (r & n1 & dev1 & orx1 & otx1 & E1 & Hs1 & H1 & Ht1 & Hres).
  assert (Hmac : forall (n2 : ND D) dev2, nd_dev n2 = Some dev2 -> same_dev dev dev2 -> net_mac n2 = net_mac n).
  { intros n2 dev2 H2 (_ & Hm2 & _). unfold net_mac. rewrite H2, Hd. cbn. by rewrite Hm2. }
  exists r, n1. split; [done|]. pose proof (iv_dev _ _ _ _ H1) as Hd1. split; [by eapply Hmac|]. rewrite Ht in Ht1. rewrite (pending_work _ _ _ _ Hi).
  destruct r as [[i l]|].
  - destruct Hres as (Hh1 & Hir & Hl & Hw1). destruct orx1 as [h p t d]. cbn in Hh1. subst h.
    destruct (buffer_of_run dev1 i n1 (iv_map _ _ _ _ H1) Hir) as (b & Eb & Hb).
    destruct (resubmit_inv n1 dev1 dev1 i [] p t d otx1 H1 ltac:(done) Hir) as (n2 & dev2 & E2 & Hs2 & H2 & Hhw).
    exists (get_bytes (buf_pa rx_bufs b + VNET_HDR_SIZE) l (nd_mem n1)), n2. unfold MAX_FRAME_SIZE in Hl. split_and!.
    + unfold net_get_rx_frame, bind at 1, gets at 1. rewrite Hd1. erewrite bind_run by reflexivity. rewrite (bind_run _ _ _ _ _ Eb).
      unfold bind, assertb, VNET_HDR_SIZE, RX_BUF_SIZE. by rewrite (proj2 (Z.leb_le _ _)) by lia.
    + rewrite length_get_bytes. lia.
    + lia.
    + apply Forall_forall. intros x Hx. unfold get_bytes in Hx. apply list_elem_of_fmap in Hx as (k & -> & _). apply (iv_mem _ _ _ _ H1).
    + unfold net_return_rx_buffer, bind, gets. by rewrite Hd1.
    + unfold ready. rewrite (iv_dev _ _ _ _ H2). eexists _, _. split_and!; try done. unfold work in *. cbn in *. rewrite Hhw. lia.
    + eapply Hmac; [apply H2|by eapply same_dev_trans].
    + rewrite (pending_work _ _ _ _ H2). unfold work in *. cbn in *. rewrite Hhw. lia.
  - destruct Hres as [Hh1 Hw1]. rewrite (pending_work _ _ _ _ H1). split; [|done]. unfold ready. rewrite Hd1. exists orx1, otx1. split_and!; try done. lia.
Qed.

End Laws.

(** The driver as an instance of the interface of the stack. *)
#[global] Program Instance net_laws {D serve} {HD : VirtioNetDevice D serve} {HE : EthernetFrames D serve} rx_bufs tx_buf rounds :
  @NetDriverLaws (ND D) (net_driver serve rx_bufs tx_buf rounds) := {| nd_ok := ready rounds; nd_pending := pending |}.
Next Obligation.
  intros D serve HD HE rx_bufs tx_buf rounds n m Hn Hm. cbn in Hm. unfold net_mac, ready in *. destruct (nd_dev n) as [dev|]; [|done].
  destruct Hn as (orx & otx & Hi & _). injection Hm as <-. apply (iv_mac _ _ _ _ Hi).
Qed.
Next Obligation. intros D serve HD HE rx_bufs tx_buf rounds f n Hn Hf. by apply send_law. Qed.
Next Obligation. intros D serve HD HE rx_bufs tx_buf rounds n Hn Hm. by apply poll_law. Qed.

(** ** Initialisation *)

Section Init.
Context {D : Type} {serve : D -> Bus -> Virtqueue -> Virtqueue -> bmem -> D * VirtqUsed * VirtqUsed * bmem} {HD : VirtioNetDevice D serve}.
Variable answer : Bus -> Z -> Z.
Variables rx_vq_buf tx_vq_buf rx_bufs tx_buf gicd gicr : Z.

(** All buffers that find a descriptor are posted, each alone. *)
Lemma post_buffers_inv l map q p : vq_proto q (mkOwn [] p [] []) -> at_pos 0 q (mkOwn [] p [] []) -> Forall (fun c => exists i, c = [i]) p -> vq_num q = NET_QUEUE_SIZE ->
  Forall (fun i => 0 <= i < NET_QUEUE_SIZE) l -> length map = 16%nat -> Forall (fun i => 0 <= i < NET_QUEUE_SIZE) map ->
  exists map' q' p', post_buffers rx_bufs l map q = Some (map', q') /\ vq_proto q' (mkOwn [] p' [] []) /\ at_pos 0 q' (mkOwn [] p' [] []) /\ Forall (fun c => exists i, c = [i]) p' /\
    vq_num q' = NET_QUEUE_SIZE /\ length map' = 16%nat /\ Forall (fun i => 0 <= i < NET_QUEUE_SIZE) map'.
Proof.
  revert map q p. induction l as [|b l IH]; intros map q p HP Hat Hs Hn Hl Hm1 Hm2; [by exists map, q, p|]. apply Forall_cons in Hl as [Hb Hl]. cbn [post_buffers].
  destruct (proto_post _ _ _ _ (rx_desc rx_bufs b) HP eq_refl) as [E|(i & q1 & q2 & q3 & E1 & E2 & E3 & H3 & Hn3 & Hn1 & Hav)].
  - rewrite (bind_run _ _ _ _ _ E). by apply (IH map q p).
  - rewrite (bind_run _ _ _ _ _ E1). cbv beta iota. rewrite (bind_run _ _ _ _ _ E2).
    assert (Hi : 0 <= i < NET_QUEUE_SIZE).
    { pose proof (pr_inv _ _ H3) as [free Hv]. rewrite <- Hn, <- Hn3. apply (owned_range Hv). unfold in_flight. cbn. rewrite !concat_app. cbn. set_solver. }
    erewrite bind_run by (unfold assertb; rewrite (proj2 (Z.ltb_lt _ _)) by lia; reflexivity). rewrite (bind_run _ _ _ _ _ E3).
    apply (IH _ q3 (p ++ [[i]])); try done; [by eapply at_pos_push|apply Forall_app; split; [done|by apply Forall_singleton; eexists]|congruence|by rewrite length_insert|by apply Forall_insert].
Qed.

Lemma land_byte x : 0 <= Z.land x 255 < 256.
Proof. change 255 with (Z.ones 8). rewrite Z.land_ones by lia. apply Z.mod_pos_bound. lia. Qed.

Lemma regs_run {X} (op : M Bus X) (s : ND D) x h : op (nd_bus s) = Some (x, h) -> nd_regs op s = Some (x, mkND (nd_dev s) (nd_mem s) h (nd_hw s)).
Proof. intros E. unfold nd_regs, on_bus. by rewrite E. Qed.

(** Whatever its registers say, the device is either refused or ready for the
    stack, with all its receive buffers posted. *)
Lemma init_net_device_ready base idx rounds (s : ND D) :
  0 <= gicd /\ gicd + 65536 <= gicr /\ gicr + 131072 <= 2 ^ 64 -> base + TRANSPORT_SIZE <= 2 ^ 64 -> 0 <= idx < NUM_TRANSPORTS ->
  mem_ok (nd_mem s) -> hw_rx (nd_hw s) = 0 -> hw_tx (nd_hw s) = 0 -> (hw_backlog (nd_hw s) < rounds)%nat -> (16 < rounds)%nat ->
  exists b s', init_net_device answer rx_vq_buf tx_vq_buf rx_bufs gicd gicr base idx s = Some (b, s') /\
    if b : bool then ready rounds s' /\ is_Some (net_mac s') else nd_dev s' = nd_dev s.
Proof.
  intros Hg Hb Hi Hm Hrx0 Htx0 Hw Hr. unfold init_net_device.
  destruct (init_device_result answer base VIRTIO_NET_F_MAC (nd_bus s) Hb) as (f & h1 & E1 & _). rewrite (bind_run _ _ _ _ _ (regs_run _ _ _ _ E1)).
  destruct f as [f|]; [|by eexists false, _]. set (s1 := mkND _ _ _ _).
  assert (Hmac : exists mac s2, (if negb (Z.land f VIRTIO_NET_F_MAC =? 0) then
      w0 <- nd_regs (read_config_u32 answer base 0) ;; w1 <- nd_regs (read_config_u32 answer base 4) ;; ret (mac_of w0 w1) else ret DEFAULT_MAC) s1 = Some (mac, s2) /\
    length mac = 6%nat /\ bytes_ok mac /\ nd_dev s2 = nd_dev s /\ nd_mem s2 = nd_mem s /\ nd_hw s2 = nd_hw s).
  { destruct (negb _).
    - unfold TRANSPORT_SIZE in Hb.
      erewrite bind_run by (apply regs_run, read_reg_run; unfold CONFIG; lia). erewrite bind_run by (apply regs_run, read_reg_run; unfold CONFIG; lia).
      eexists _, _. split; [done|]. split_and!; try done. unfold mac_of. repeat (apply Forall_cons; split; [apply land_byte|]). by apply Forall_nil.
    - eexists _, _. split; [done|]. split_and!; try done. unfold DEFAULT_MAC. repeat constructor; lia. }
  destruct Hmac as (mac & s2 & E2 & Hm1 & Hm2 & Hd2 & Hme2 & Hhw2). rewrite (bind_run _ _ _ _ _ E2). cbv beta iota zeta.
  set (rxq := vq_init _ _). set (txq := vq_init (kernel_virt_to_phys tx_vq_buf) _).
  destruct (setup_queue_result answer base 0 rxq PAGE_SIZE (nd_bus s2) Hb) as (h3 & E3). rewrite (bind_run _ _ _ _ _ (regs_run _ _ _ _ E3)).
  destruct (setup_queue_result answer base 1 txq PAGE_SIZE h3 Hb) as (h4 & E4). rewrite (bind_run _ _ _ _ _ (regs_run _ (mkND _ _ h3 _) _ _ E4)).
  destruct (driver_ok_result answer base h4 Hb) as (h5 & E5). rewrite (bind_run _ _ _ _ _ (regs_run _ (mkND _ _ h4 _) _ _ E5)).
  destruct (enable_irq_exact gicd gicr Hg (VIRTIO_IRQ_BASE + idx) h5) as (h6 & E6 & _); [unfold VIRTIO_IRQ_BASE, NUM_TRANSPORTS in *; lia|].
  rewrite (bind_run _ _ _ _ _ (regs_run _ (mkND _ _ h5 _) _ _ E6)). cbn [nd_dev nd_mem nd_hw].
  assert (Hdiv : (NET_QUEUE_SIZE | 2 ^ 16)) by (by exists 4096). unfold NET_QUEUE_SIZE in Hdiv.
  destruct (post_buffers_inv (zrange 0 NET_QUEUE_SIZE) (replicate (Z.to_nat NET_QUEUE_SIZE) 0) rxq []) as (map & q & p & E7 & HP & Hat & Hs & Hn & Hp1 & Hp2);
    [apply vq_init_proto; [unfold NET_QUEUE_SIZE; lia|done]|done|done|done| |done|by apply Forall_replicate|].
  { rewrite zrange_seqZ. apply Forall_forall. intros i Hin. apply elem_of_seqZ in Hin. lia. }
  rewrite E7. rewrite (bind_run _ _ _ _ _ (nd_notify_run _ base 0 Hb)). eexists true, _. split; [reflexivity|]. split; [|by eexists].
  unfold ready. cbn [nd_dev]. exists (mkOwn [] p [] []), own0.
  split; [|split; [done|split; [done|split; [unfold work; cbn [nd_hw o_done length]; rewrite Hhw2; lia|done]]]].
  assert (Hat2 : at_pos 0 txq own0) by (split; [lia|reflexivity]).
  assert (HPt : vq_proto txq own0) by (apply vq_init_proto; [unfold NET_QUEUE_SIZE; lia|done]).
  split; [reflexivity|exact HP|exact HPt|exact (conj Hn eq_refl)| |by intros k c Hk| |exact (conj Hp1 Hp2)|exact (conj Hm1 Hm2)|exact Hb|].
  - cbn [nd_hw nv_rx nv_tx]. rewrite Hhw2, Hrx0, Htx0. exact (conj Hat Hat2).
  - unfold singles, in_flight. cbn [o_posted o_taken o_done]. by rewrite !app_nil_r.
  - cbn [nd_mem]. by rewrite Hme2.
Qed.

End Init.

(** C16. From the initialisation of a network device on, whatever its registers
    say, and on every device that serves its queues as virtio demands: on a
    network that carries no frame longer than 1518 bytes ([EthernetFrames]; a
    longer one panics the kernel, [long_frame_panics]), the work of a timer tick
    ends and does not panic, whatever the bytes of the frames: the stack and the
    driver are left ready for the next tick, with all receive buffers with the
    device and every transmit descriptor accounted for. *)
Theorem network_never_panics D serve {HD : VirtioNetDevice D serve} {HE : EthernetFrames D serve} answer rx_vq_buf tx_vq_buf rx_bufs tx_buf gicd gicr base idx rounds (s : ND D) :
  0 <= gicd /\ gicd + 65536 <= gicr /\ gicr + 131072 <= 2 ^ 64 -> base + TRANSPORT_SIZE <= 2 ^ 64 -> 0 <= idx < NUM_TRANSPORTS ->
  mem_ok (nd_mem s) -> hw_rx (nd_hw s) = 0 -> hw_tx (nd_hw s) = 0 -> (hw_backlog (nd_hw s) < rounds)%nat -> (16 < rounds)%nat ->
  exists b s1, init_net_device answer rx_vq_buf tx_vq_buf rx_bufs gicd gicr base idx s = Some (b, s1) /\ (b = true -> ready rounds s1) /\
    forall n st t, ready rounds n -> net_ok st -> 0 <= t -> t + DHCP_RETRY_TICKS < 2 ^ 64 ->
      exists s2, @tick (ND D) (net_driver serve rx_bufs tx_buf rounds) (S (pending n)) t (mkNS st n) = Some (tt, s2) /\
        net_ok (ns_st s2) /\ ready rounds (ns_dev s2).
Proof.
  intros Hg Hb Hi Hm Hr0 Ht0 Hw Hr.
  destruct (init_net_device_ready answer rx_vq_buf tx_vq_buf rx_bufs gicd gicr base idx rounds s Hg Hb Hi Hm Hr0 Ht0 Hw Hr) as (b & s1 & E1 & H1).
  exists b, s1. split; [done|]. split; [by intros ->; apply H1|]. intros n st t Hn Hst Ht Hlt.
  destruct (@tick_total (ND D) (net_driver serve rx_bufs tx_buf rounds) (net_laws rx_bufs tx_buf rounds) (mkNS st n) t) as (s2 & E2 & [H2 H2'] & _);
    [split; [exact Hst|exact Hn]|exact Ht|exact Hlt|]. exists s2. split; [exact E2|]. split; [exact H2|exact H2'].
Qed.

(** ** A device that delivers a list of frames *)

Record Nic := mkNic { nic_rx : Z; nic_tx : Z; nic_frames : list (list Z) }.

Definition frame_ok (f : list Z) : bool := forallb byte_ok f && (Z.of_nat (length f) <=? MAX_FRAME_SIZE).

(** A waiting frame is written to the next posted buffer; a posted transmission
    is completed. *)
Definition nic_serve (d : Nic) (_ : Bus) (rx tx : Virtqueue) (m : bmem) : Nic * VirtqUsed * VirtqUsed * bmem :=
  let '(tpos, ut) :=
    if av_idx (vq_avail tx) =? nic_tx d then (nic_tx d, vq_used tx)
    else match av_ring (vq_avail tx) !! Z.to_nat (nic_tx d mod vq_num tx) with
         | Some h => (wrap 16 (nic_tx d + 1), vq_used (device_complete h 0 tx))
         | None => (nic_tx d, vq_used tx)
         end in
  match nic_frames d with
  | [] => (mkNic (nic_rx d) tpos [], vq_used rx, ut, m)
  | f :: fs =>
      if negb (frame_ok f) then (mkNic (nic_rx d) tpos fs, vq_used rx, ut, m)
      else if av_idx (vq_avail rx) =? nic_rx d then (mkNic (nic_rx d) tpos (f :: fs), vq_used rx, ut, m)
      else match av_ring (vq_avail rx) !! Z.to_nat (nic_rx d mod vq_num rx) with
           | Some h =>
               let a := match vq_desc rx !! Z.to_nat h with Some x => vd_addr x | None => 0 end in
               (mkNic (wrap 16 (nic_rx d + 1)) tpos fs, vq_used (device_complete h (VNET_HDR_SIZE + Z.of_nat (length f)) rx), ut,
                put_bytes a (replicate 10 0 ++ f) m)
           | None => (mkNic (nic_rx d) tpos (f :: fs), vq_used rx, ut, m)
           end
  end.

#[global] Program Instance nic_device : VirtioNetDevice Nic nic_serve :=
  {| hw_backlog := fun d => length (nic_frames d); hw_rx := nic_rx; hw_tx := nic_tx; hw_longest := MAX_RX |}.
Next Obligation. by vm_compute. Qed.
Next Obligation.
  intros d bus rx tx m orx otx HPr HPt Hpr Hpt Hm. unfold nic_serve.
  assert (Htx : exists tpos ut otx', (if av_idx (vq_avail tx) =? nic_tx d then (nic_tx d, vq_used tx)
    else match av_ring (vq_avail tx) !! Z.to_nat (nic_tx d mod vq_num tx) with
         | Some h => (wrap 16 (nic_tx d + 1), vq_used (device_complete h 0 tx)) | None => (nic_tx d, vq_used tx) end) = (tpos, ut) /\
    at_pos tpos (set_used ut tx) otx' /\ rtc (dev_step MAX_RX) (tx, otx) (set_used ut tx, otx')).
  { destruct (Z.eqb_spec (av_idx (vq_avail tx)) (nic_tx d)) as [|Hne].
    - eexists _, _, otx. rewrite set_used_same. split; [done|]. split; [done|apply rtc_refl].
    - destruct (next_request _ _ _ HPt Hpt Hne) as (c & p & Ep & ->). destruct (serve_request _ _ _ c p MAX_RX 0 HPt Hpt Ep) as [Hr Ha]; [done|].
      eexists _, _, _. split; [done|]. split; [exact Ha|exact Hr]. }
  destruct Htx as (tpos & ut & otx' & -> & Hat & Hrt). destruct (nic_frames d) as [|f fs] eqn:Ef.
  { eexists _, _, _, _, orx, otx'. split; [done|]. rewrite set_used_same.
    split; [done|split; [exact Hpr|split; [exact Hat|split; [apply rtc_refl|split; [exact Hrt|cbn; rewrite ?Ef; cbn; lia]]]]]. }
  destruct (frame_ok f) eqn:Ok; cbn [negb].
  2: { eexists _, _, _, _, orx, otx'. split; [done|]. rewrite set_used_same.
    split; [done|split; [exact Hpr|split; [exact Hat|split; [apply rtc_refl|split; [exact Hrt|cbn; rewrite ?Ef; cbn; lia]]]]]. }
  apply andb_true_iff in Ok as [Hb Hl]. apply Z.leb_le in Hl.
  destruct (Z.eqb_spec (av_idx (vq_avail rx)) (nic_rx d)) as [|Hne].
  { eexists _, _, _, _, orx, otx'. split; [done|]. rewrite set_used_same.
    split; [done|split; [exact Hpr|split; [exact Hat|split; [apply rtc_refl|split; [exact Hrt|cbn; rewrite ?Ef; cbn; lia]]]]]. }
  destruct (next_request _ _ _ HPr Hpr Hne) as (c & p & Ep & ->).
  destruct (serve_request _ _ _ c p MAX_RX (VNET_HDR_SIZE + Z.of_nat (length f)) HPr Hpr Ep) as [Hr Ha]; [unfold MAX_RX, VNET_HDR_SIZE in *; lia|].
  eexists _, _, _, _, _, otx'. split; [done|]. split; [|split; [exact Ha|split; [exact Hat|split; [exact Hr|split; [exact Hrt|cbn; rewrite ?Ef, length_app; cbn; lia]]]]].
  apply put_bytes_ok; [|done]. apply Forall_app. split; [apply (zeros_ok 10)|]. apply Forall_forall. intros x Hx.
  pose proof (proj1 (forallb_forall _ _) Hb x ltac:(by apply list_elem_of_In)) as Hx'. apply fits_spec in Hx'. done.
Qed.

#[global] Instance nic_ethernet : EthernetFrames Nic nic_serve.
Proof. done. Qed.

Lemma network_never_panics_witness :
  let answer := fun (h : Bus) (a : Z) => 8 in
  let s := mkND None (fun _ => 0) [] (mkNic 0 0 [[1; 2; 3]; demo_ping]) in
  exists b s1, init_net_device answer (KERNEL_VA_OFFSET + 65536) (KERNEL_VA_OFFSET + 131072) (KERNEL_VA_OFFSET + 262144) (2 ^ 27) (2 ^ 27 + 655360)
      (KERNEL_VA_OFFSET + 167772160) 3 s = Some (b, s1) /\ (b = true -> ready 20 s1).
Proof.
  destruct (network_never_panics Nic nic_serve (fun _ _ => 8) (KERNEL_VA_OFFSET + 65536) (KERNEL_VA_OFFSET + 131072) (KERNEL_VA_OFFSET + 262144)
    (KERNEL_VA_OFFSET + 524288) (2 ^ 27) (2 ^ 27 + 655360) (KERNEL_VA_OFFSET + 167772160) 3 20 (mkND None (fun _ => 0) [] (mkNic 0 0 [[1; 2; 3]; demo_ping])))
    as (b & s1 & E1 & H1 & _); [by vm_compute|by vm_compute|by vm_compute|intros x; cbn; lia|done|done|cbn; lia|lia|].
  exists b, s1. split; [exact E1|exact H1].
Defined.
