(* ===== verification/Input.v ===== *)
(** * The keyboard

    Models [xous/kernel/src/platform/qemu_virt/input.rs]: the driver of a
    virtio-input device, which posts one 8-byte buffer per descriptor, and turns
    the events the device writes into them into characters.  The loop that polls
    the queue takes a bound for its rounds; a device takes a turn before each
    poll. *)

From Stdlib Require Import ZArith Lia Bool.
From stdpp Require Import gmap.
From S2P Require Import Prelude Memory PageTable Virtio Gic.
Open Scope Z_scope.

Definition VIRTIO_INPUT_DEVICE_ID : Z := 18.
Definition EV_KEY : Z := 1.
Definition VAL_DOWN : Z := 1.
Definition KEY_LEFTSHIFT : Z := 42.
Definition KEY_RIGHTSHIFT : Z := 54.
Definition INPUT_QUEUE_SIZE : Z := 64.
Definition EVENT_SIZE : Z := 8.

Record InputDev := mkInputDev { id_base_va : Z; id_irq : Z; id_eventq : Virtqueue; id_shift : bool }.

(** ** Keycodes *)

Definition keycode_to_ascii (code : Z) (shift : bool) : option Z :=
  let key (shifted plain : Z) := Some (if shift then shifted else plain) in
  match code with
  | 1 => Some 27
  | 14 => Some 127
  | 15 => Some 9
  | 28 | 96 => Some 10
  | 57 => Some 32
  | 16 => key 81 113 | 17 => key 87 119 | 18 => key 69 101 | 19 => key 82 114 | 20 => key 84 116 | 21 => key 89 121
  | 22 => key 85 117 | 23 => key 73 105 | 24 => key 79 111 | 25 => key 80 112 | 30 => key 65 97 | 31 => key 83 115
  | 32 => key 68 100 | 33 => key 70 102 | 34 => key 71 103 | 35 => key 72 104 | 36 => key 74 106 | 37 => key 75 107
  | 38 => key 76 108 | 44 => key 90 122 | 45 => key 88 120 | 46 => key 67 99 | 47 => key 86 118 | 48 => key 66 98
  | 49 => key 78 110 | 50 => key 77 109 | 2 => key 33 49 | 3 => key 64 50 | 4 => key 35 51 | 5 => key 36 52
  | 6 => key 37 53 | 7 => key 94 54 | 8 => key 38 55 | 9 => key 42 56 | 10 => key 40 57 | 11 => key 41 48
  | 12 => key 95 45 | 13 => key 43 61 | 26 => key 123 91 | 27 => key 125 93 | 39 => key 58 59 | 40 => key 34 39
  | 41 => key 126 96 | 43 => key 124 92 | 51 => key 60 44 | 52 => key 62 46 | 53 => key 63 47
  | _ => None
  end.

(** ** The driver *)

Record Event := mkEvent { ev_type : Z; ev_code : Z; ev_value : Z }.
Definition decode_event (buf : list Z) : Event :=
  mkEvent (from_le_bytes (take 2 buf)) (from_le_bytes (take 2 (drop 2 buf))) (from_le_bytes (take 4 (drop 4 buf))).

Definition is_shift (e : Event) : bool := (ev_code e =? KEY_LEFTSHIFT) || (ev_code e =? KEY_RIGHTSHIFT).
Definition shift_after (e : Event) (shift : bool) : bool := if is_shift e then ev_value e =? VAL_DOWN else shift.
Definition char_of (e : Event) (shift : bool) : option Z :=
  if (ev_type e =? EV_KEY) && (ev_value e =? VAL_DOWN) then keycode_to_ascii (ev_code e) shift else None.

Section Driver.
Context {D : Type}.
Variable serve : D -> Bus -> Virtqueue -> bmem -> D * VirtqUsed * bmem.
Variable answer : Bus -> Z -> Z.
(** The addresses of [EVENTQ_BUF] and [EVENT_BUFS] and of the interrupt controller. *)
Variables eventq_buf event_bufs gicd gicr : Z.
Variable rounds : nat.

(** [INPUT_DEV], memory, registers and the device *)
Record KB := mkKB { kb_dev : option InputDev; kb_mem : bmem; kb_bus : Bus; kb_hw : D }.

Definition on_input (f : InputDev -> InputDev) : M KB unit :=
  modify (fun s => mkKB (f <$> kb_dev s) (kb_mem s) (kb_bus s) (kb_hw s)).
Definition with_eventq (d : InputDev) (q : Virtqueue) : InputDev := mkInputDev (id_base_va d) (id_irq d) q (id_shift d).
Definition with_shift (b : bool) (d : InputDev) : InputDev := mkInputDev (id_base_va d) (id_irq d) (id_eventq d) b.
Definition on_eventq {X} (op : M Virtqueue X) : M KB X :=
  fun s => match kb_dev s with
           | Some d => match op (id_eventq d) with
                       | Some (x, q) => Some (x, mkKB (Some (with_eventq d q)) (kb_mem s) (kb_bus s) (kb_hw s))
                       | None => None
                       end
           | None => None
           end.
Definition kb_regs {X} (op : M Bus X) : M KB X := on_bus kb_bus (fun h s => mkKB (kb_dev s) (kb_mem s) h (kb_hw s)) op.
Definition kb_turn : M KB unit :=
  fun s => match kb_dev s with
           | Some d =>
               let '(hw, u, m) := serve (kb_hw s) (kb_bus s) (id_eventq d) (kb_mem s) in
               Some (tt, mkKB (Some (with_eventq d (set_used u (id_eventq d)))) m (kb_bus s) hw)
           | None => None
           end.

Definition event_pa (i : Z) : Z := kernel_virt_to_phys (event_bufs + i * EVENT_SIZE).

Definition input_irq_number (s : KB) : option Z := id_irq <$> kb_dev s.
Definition input_ack_irq : M KB unit :=
  o <- gets kb_dev ;;
  match o with Some dev => _ <- kb_regs (ack_interrupt answer (id_base_va dev)) ;; ret tt | None => ret tt end.

Fixpoint char_loop (fuel : nat) : M KB (option Z) :=
  match fuel with
  | O => panic
  | S fuel =>
      _ <- kb_turn ;;
      o <- on_eventq pop_used ;;
      match o with
      | None => ret None
      | Some (desc_idx, _) =>
          _ <- assertb (desc_idx <? INPUT_QUEUE_SIZE) ;;
          ev <- gets (fun s => decode_event (get_bytes (event_pa desc_idx) EVENT_SIZE (kb_mem s))) ;;
          _ <- on_input (fun d => if is_shift ev then with_shift (ev_value ev =? VAL_DOWN) d else d) ;;
          _ <- on_eventq (push_avail desc_idx) ;;
          od <- gets kb_dev ;;
          dev <- expect od ;;
          _ <- kb_regs (notify (id_base_va dev) 0) ;;
          match char_of ev (id_shift dev) with Some c => ret (Some c) | None => char_loop fuel end
      end
  end.
Definition get_char : M KB (option Z) :=
  o <- gets kb_dev ;; match o with None => ret None | Some _ => char_loop rounds end.

(** *** Initialisation *)

Definition event_desc (i : Z) : VirtqDesc := mkDesc (event_pa i) EVENT_SIZE VIRTQ_DESC_F_WRITE 0.

(** The loop that posts a buffer per descriptor, on the queue. *)
Fixpoint post_events (l : list Z) : M Virtqueue unit :=
  match l with
  | [] => ret tt
  | i :: l =>
      o <- alloc_desc ;;
      desc_idx <- expect o ;;
      _ <- write_desc desc_idx (event_desc i) ;;
      _ <- push_avail desc_idx ;;
      post_events l
  end.

Definition input_init (base_va irq : Z) : M KB unit :=
  f <- kb_regs (init_device answer base_va 0) ;;
  match f with
  | None => ret tt
  | Some _ =>
      let eventq := vq_init (kernel_virt_to_phys eventq_buf) INPUT_QUEUE_SIZE in
      _ <- kb_regs (setup_queue answer base_va 0 eventq PAGE_SIZE) ;;
      match post_events (zrange 0 INPUT_QUEUE_SIZE) eventq with
      | None => panic
      | Some (_, eventq) =>
          _ <- kb_regs (notify base_va 0) ;;
          _ <- kb_regs (driver_ok answer base_va) ;;
          _ <- kb_regs (enable_irq gicd gicr irq) ;;
          modify (fun s => mkKB (Some (mkInputDev base_va irq eventq false)) (kb_mem s) (kb_bus s) (kb_hw s))
      end
  end.

Fixpoint input_probe_loop (virtio_base_va : Z) (l : list Z) : M KB unit :=
  match l with
  | [] => ret tt
  | i :: l =>
      let base_va := virtio_base_va + i * TRANSPORT_SIZE in
      o <- kb_regs (probe_transport answer base_va) ;;
      if bool_decide (o = Some VIRTIO_INPUT_DEVICE_ID) then input_init base_va (VIRTIO_IRQ_BASE + i)
      else input_probe_loop virtio_base_va l
  end.
Definition input_probe_and_init (virtio_base_va : Z) : M KB unit := input_probe_loop virtio_base_va (zrange 0 NUM_TRANSPORTS).

End Driver.

Arguments KB : clear implicits.

(** ** What a virtio input device promises *)

Definition encode_event (e : Event) : list Z :=
  to_le_bytes 2 (ev_type e) ++ to_le_bytes 2 (ev_code e) ++ to_le_bytes 4 (ev_value e).
Definition event_ok (e : Event) : Prop := 0 <= ev_type e < 2 ^ 16 /\ 0 <= ev_code e < 2 ^ 16 /\ 0 <= ev_value e < 2 ^ 32.

Lemma decode_encode e : event_ok e -> decode_event (encode_event e) = e.
Proof.
  intros (Ht & Hc & Hv). unfold decode_event, encode_event.
  set (a := to_le_bytes 2 (ev_type e)). set (b := to_le_bytes 2 (ev_code e)). set (c := to_le_bytes 4 (ev_value e)).
  assert (Ha : length a = 2%nat) by apply length_to_le_bytes. assert (Hb : length b = 2%nat) by apply length_to_le_bytes.
  assert (Hcl : length c = 4%nat) by apply length_to_le_bytes.
  rewrite (take_app_length' a), (drop_app_length' a), (take_app_length' b) by done.
  rewrite (app_assoc a), (drop_app_length' (a ++ b)), (take_ge c) by (by rewrite ?length_app, ?Ha, ?Hb, ?Hcl). unfold a, b, c. rewrite !from_to_le_bytes.
  change (256 ^ Z.of_nat 2) with (2 ^ 16). change (256 ^ Z.of_nat 4) with (2 ^ 32). rewrite !Z.mod_small by done. by destruct e.
Qed.

(** The buffer of a request of one descriptor, and addresses outside of some. *)
Definition buffer_addr (q : Virtqueue) (c : list Z) : Z :=
  match vq_desc q !! Z.to_nat (head_of c) with Some x => vd_addr x | None => 0 end.
Definition apart (a b : Z) : Prop := a + EVENT_SIZE <= b \/ b + EVENT_SIZE <= a.
Definition outside (q : Virtqueue) (cs : list (list Z)) (x : Z) : Prop :=
  forall c, c ∈ cs -> x < buffer_addr q c \/ buffer_addr q c + EVENT_SIZE <= x.

(** [hw_events] are the events the device has not delivered yet, [hw_pos] its
    position in the available ring.  In a turn it delivers some of them, in their
    order, each into a buffer it was given, and touches no other memory
    (virtio 1.2, 5.8). *)
Class VirtioInputDevice (D : Type) (serve : D -> Bus -> Virtqueue -> bmem -> D * VirtqUsed * bmem) := {
  hw_events : D -> list Event;
  hw_pos : D -> Z;
  hw_input_turn : forall d bus q m o, vq_proto q o -> at_pos (hw_pos d) q o ->
    (forall c c', c ∈ o_posted o ++ o_taken o -> c' ∈ o_posted o ++ o_taken o -> c <> c' -> apart (buffer_addr q c) (buffer_addr q c')) ->
    exists d' u m' o' news evs, serve d bus q m = (d', u, m') /\ rtc (dev_step EVENT_SIZE) (q, o) (set_used u q, o') /\
      at_pos (hw_pos d') (set_used u q) o' /\ o_done o' = o_done o ++ news /\ hw_events d = evs ++ hw_events d' /\
      Forall2 (fun c e => get_bytes (buffer_addr q c) EVENT_SIZE m' = encode_event e) news evs /\
      (forall x, outside q (o_posted o ++ o_taken o) x -> m' x = m x) }.

(** ** The characters of a list of events *)

Fixpoint typed (shift : bool) (l : list Event) : list Z * bool :=
  match l with
  | [] => ([], shift)
  | e :: l =>
      let shift := shift_after e shift in
      let '(cs, shift') := typed shift l in
      (match char_of e shift with Some c => c :: cs | None => cs end, shift')
  end.

Lemma typed_app sh l1 l2 cs1 sh1 cs2 sh2 : typed sh l1 = (cs1, sh1) -> typed sh1 l2 = (cs2, sh2) -> typed sh (l1 ++ l2) = (cs1 ++ cs2, sh2).
Proof.
  revert sh cs1. induction l1 as [|e l1 IH]; intros sh cs1; cbn; [by intros [= <- <-]|].
  destruct (typed (shift_after e sh) l1) as [cs sh'] eqn:E. intros [= <- ->] H2. rewrite (IH _ _ E H2). by destruct (char_of e _).
Qed.

(** ** The driver delivers them *)

Section Keyboard.
Context {D : Type} {serve : D -> Bus -> Virtqueue -> bmem -> D * VirtqUsed * bmem} {HD : VirtioInputDevice D serve}.
Variables event_bufs : Z.
Hypothesis Hbufs : KERNEL_VA_OFFSET <= event_bufs /\ event_bufs + INPUT_QUEUE_SIZE * EVENT_SIZE <= 2 ^ 64.
Notation buf_at := (event_pa event_bufs).

Record kb_inv (s : KB D) (dev : InputDev) (o : Own) (devs : list Event) : Prop := {
  kv_dev : kb_dev s = Some dev;
  kv_base : id_base_va dev + TRANSPORT_SIZE <= 2 ^ 64;
  kv_proto : vq_proto (id_eventq dev) o;
  kv_held : o_held o = [];
  kv_single : singles o;
  kv_num : vq_num (id_eventq dev) = INPUT_QUEUE_SIZE;
  kv_pos : at_pos (hw_pos (kb_hw s)) (id_eventq dev) o;
  kv_addr : forall i, 0 <= i < INPUT_QUEUE_SIZE -> exists x, vq_desc (id_eventq dev) !! Z.to_nat i = Some x /\ vd_addr x = buf_at i;
  kv_done : Forall2 (fun c e => get_bytes (buf_at (head_of c)) EVENT_SIZE (kb_mem s) = encode_event e) (o_done o) devs;
  kv_events : Forall event_ok (devs ++ hw_events (kb_hw s)) }.

(** The driver with shift state [sh] has the events [evs] before it. *)
Definition kb_rep (s : KB D) (sh : bool) (evs : list Event) : Prop :=
  exists dev o devs, kb_inv s dev o devs /\ id_shift dev = sh /\ evs = devs ++ hw_events (kb_hw s).

Lemma event_pa_eq i : 0 <= i < INPUT_QUEUE_SIZE -> buf_at i = event_bufs - KERNEL_VA_OFFSET + 8 * i.
Proof.
  intros Hi. unfold event_pa, kernel_virt_to_phys, wrap, INPUT_QUEUE_SIZE, EVENT_SIZE in *.
  unfold KERNEL_VA_OFFSET in *. rewrite Z.mod_small; lia.
Qed.

Lemma flight_index s dev o devs c : kb_inv s dev o devs -> c ∈ in_flight o -> exists i, c = [i] /\ 0 <= i < INPUT_QUEUE_SIZE /\ buffer_addr (id_eventq dev) c = buf_at i.
Proof.
  intros [] Hc. pose proof (proj1 (Forall_forall _ _) kv_single0 c Hc) as [i ->]. exists i.
  pose proof (pr_inv _ _ kv_proto0) as [free Hi].
  assert (Hr : 0 <= i < INPUT_QUEUE_SIZE) by (rewrite <- kv_num0; apply (owned_range Hi); apply list_elem_of_split in Hc as (l1 & l2 & ->); rewrite concat_app; cbn; set_solver).
  split; [done|]. split; [done|]. destruct (kv_addr0 i Hr) as (x & Hx & Ha). unfold buffer_addr. cbn. by rewrite Hx.
Qed.

Lemma flight_apart s dev o devs c c' : kb_inv s dev o devs -> c ∈ in_flight o -> c' ∈ in_flight o -> c <> c' ->
  apart (buffer_addr (id_eventq dev) c) (buffer_addr (id_eventq dev) c').
Proof.
  intros Hk Hc Hc' Hne. destruct (flight_index _ _ _ _ _ Hk Hc) as (i & -> & Hi & ->). destruct (flight_index _ _ _ _ _ Hk Hc') as (j & -> & Hj & ->).
  assert (i <> j) by congruence. rewrite !event_pa_eq by done. unfold apart, EVENT_SIZE. lia.
Qed.

Lemma flight_done s dev o devs c : kb_inv s dev o devs -> c ∈ o_done o -> c ∉ o_posted o ++ o_taken o.
Proof.
  intros [] Hc Hc2. pose proof (pr_inv _ _ kv_proto0) as [free Hi]. pose proof (owned_NoDup Hi) as Hnd.
  apply NoDup_app in Hnd as (_ & _ & Hnd). apply NoDup_app in Hnd as (_ & _ & Hnd). unfold in_flight in Hnd.
  rewrite app_assoc, concat_app in Hnd. apply NoDup_app in Hnd as (_ & Hnd & _).
  assert (Hs : c ∈ in_flight o) by (unfold in_flight; set_solver). pose proof (proj1 (Forall_forall _ _) kv_single0 c Hs) as [i ->].
  apply (Hnd i); apply elem_of_concat; exists [i]; (split; [done|set_solver]).
Qed.

Lemma input_turn_inv s dev o devs : kb_inv s dev o devs ->
  exists s' dev' o' news, kb_turn serve s = Some (tt, s') /\ kb_inv s' dev' o' (devs ++ news) /\ id_shift dev' = id_shift dev /\
    hw_events (kb_hw s) = news ++ hw_events (kb_hw s').
Proof.
  intros Hk. pose proof Hk as [].
  destruct (hw_input_turn (kb_hw s) (kb_bus s) (id_eventq dev) (kb_mem s) o kv_proto0 kv_pos0) as (d' & u & m' & o' & news & evs & E & Hr & Hp & Hd & Hev & Hn & Hm).
  { intros c c' Hc Hc'. apply (flight_apart _ _ _ _ _ _ Hk); unfold in_flight; set_solver. }
  destruct (dev_steps_frame _ _ _ Hr kv_proto0) as (A1 & A2 & A3 & A4 & A5). cbn [fst snd] in *.
  unfold kb_turn. rewrite kv_dev0, E. eexists _, (with_eventq dev (set_used u (id_eventq dev))), o', evs. split; [reflexivity|].
  split; [|done]. split; cbn; try done; [congruence|by eapply singles_perm| |].
  - rewrite Hd. apply Forall2_app.
    + eapply Forall2_same_length_lookup_2; [by eapply Forall2_length|]. intros k c e Hc He.
      pose proof (Forall2_lookup_lr _ _ _ _ _ _ kv_done0 Hc He) as Hb. cbn in Hb. rewrite <- Hb. apply get_bytes_ext. intros x Hx. apply Hm.
      apply list_elem_of_lookup_2 in Hc. intros c2 Hc2.
      assert (Hne : c <> c2) by (intros <-; exact (flight_done _ _ _ _ _ Hk Hc Hc2)).
      destruct (flight_index _ _ _ _ c Hk) as (i & -> & Hi & Ea); [unfold in_flight; set_solver|]. cbn in Hx |- *.
      pose proof (flight_apart _ _ _ _ [i] c2 Hk ltac:(unfold in_flight; set_solver) ltac:(unfold in_flight; set_solver) Hne) as Hap.
      rewrite Ea in Hap. unfold apart, EVENT_SIZE in *. lia.
    + eapply Forall2_same_length_lookup_2; [by eapply Forall2_length|]. intros k c e Hc He.
      pose proof (Forall2_lookup_lr _ _ _ _ _ _ Hn Hc He) as Hb. cbn in Hb.
      assert (Hcf : c ∈ in_flight o) by (rewrite <- A3; unfold in_flight; rewrite Hd; apply list_elem_of_lookup_2 in Hc; set_solver).
      destruct (flight_index _ _ _ _ c Hk Hcf) as (i & -> & Hi & Ea). cbn. by rewrite <- Hb, Ea.
  - by rewrite <- app_assoc, <- Hev.
Qed.

Lemma on_eventq_run {X} (op : M Virtqueue X) (s : KB D) dev x q : kb_dev s = Some dev -> op (id_eventq dev) = Some (x, q) ->
  on_eventq op s = Some (x, mkKB (Some (with_eventq dev q)) (kb_mem s) (kb_bus s) (kb_hw s)).
Proof. intros Hd Ho. unfold on_eventq. by rewrite Hd, Ho. Qed.

Lemma kb_regs_run {X} (op : M Bus X) (s : KB D) x h : op (kb_bus s) = Some (x, h) -> kb_regs op s = Some (x, mkKB (kb_dev s) (kb_mem s) h (kb_hw s)).
Proof. intros E. unfold kb_regs, on_bus. by rewrite E. Qed.

Lemma eventq_same (s : KB D) dev : kb_dev s = Some dev -> mkKB (Some (with_eventq dev (id_eventq dev))) (kb_mem s) (kb_bus s) (kb_hw s) = s.
Proof. destruct s, dev. cbn. by intros ->. Qed.

(** From [s] to [s'] the device handed over some of its events. *)
Definition handed_over (s s' : KB D) : Prop := exists given, hw_events (kb_hw s) = given ++ hw_events (kb_hw s').

Lemma handed_over_trans s1 s2 s3 : handed_over s1 s2 -> handed_over s2 s3 -> handed_over s1 s3.
Proof. intros [g1 E1] [g2 E2]. exists (g1 ++ g2). by rewrite E1, E2, app_assoc. Qed.

(** One event is consumed by a round of the loop; it ends without a character
    only when the used ring is empty. *)
Lemma char_loop_rep fuel s sh evs : kb_rep s sh evs -> (length evs < fuel)%nat ->
  exists r s' sh' evs1 evs2, char_loop serve event_bufs fuel s = Some (r, s') /\ kb_rep s' sh' evs2 /\ evs = evs1 ++ evs2 /\
    typed sh evs1 = (option_list r, sh') /\ (is_Some r -> (length evs2 < length evs)%nat) /\
    (r = None -> evs2 = hw_events (kb_hw s')) /\ handed_over s s'.
Proof.
  revert s sh evs. induction fuel as [|fuel IH]; intros s sh evs (dev0 & o0 & devs0 & Hk0 & Hsh & ->) Hf; [lia|]. cbn [char_loop].
  destruct (input_turn_inv _ _ _ _ Hk0) as (s1 & dev & o & news & E1 & Hk & Hsh1 & Hev). rewrite (bind_run _ _ _ _ _ E1).
  assert (Hgiven : handed_over s s1) by (by exists news).
  rewrite Hev, app_assoc in *. set (devs := devs0 ++ news) in *. clearbody devs. rewrite <- Hsh1 in Hsh. clear E1 Hk0 Hsh1 Hev.
  pose proof Hk as []. destruct o as [h p t d]. cbn in kv_held0. subst h. inversion kv_done0 as [Hd He|c e d' devs' Hb Hrest Hd He]; cbn in Hd; subst.
  - pose proof (proto_pop _ _ _ _ _ kv_proto0 : pop_used _ = _) as Hp. rewrite (bind_run _ _ _ _ _ (on_eventq_run _ _ _ _ _ kv_dev0 Hp)).
    exists None, s1, (id_shift dev), [], (hw_events (kb_hw s1)). split.
    { cbv beta iota. by rewrite (eventq_same _ _ kv_dev0). }
    split; [by exists dev, (mkOwn [] p t []), []|]. split_and!; [done|done| |done|done]. by intros [? ?].
  - destruct (flight_index _ _ _ _ c Hk) as (i & -> & Hi & _); [unfold in_flight; cbn; set_solver|]. change (head_of [i]) with i in Hb.
    destruct (proto_recycle _ _ _ _ _ kv_proto0) as (len & q1 & q2 & E1 & E2 & H2 & Hn & Hde & Hav).
    rewrite (bind_run _ _ _ _ _ (on_eventq_run _ _ _ _ _ kv_dev0 E1)). cbv beta iota.
    erewrite bind_run by (unfold assertb; rewrite (proj2 (Z.ltb_lt _ _)) by lia; reflexivity). unfold bind at 1, gets at 1. cbn [kb_mem].
    inversion kv_events0 as [|? ? Hok Hoks Hq]; subst. rewrite Hb, decode_encode by done.
    unfold bind at 1, on_input, modify at 1. cbn [kb_dev kb_mem kb_bus kb_hw fmap option_fmap option_map].
    set (dev1 := if is_shift e then _ else _).
    assert (Hd1 : id_eventq dev1 = q1 /\ id_base_va dev1 = id_base_va dev /\ id_shift dev1 = shift_after e (id_shift dev))
      by (unfold dev1, shift_after; by destruct (is_shift e)). destruct Hd1 as (Hq1 & Hb1 & Hs1). clearbody dev1.
    erewrite bind_run; [|eapply on_eventq_run; [reflexivity|by rewrite Hq1]]. unfold bind at 1, gets at 1. cbn [kb_dev].
    erewrite bind_run by reflexivity. cbn [with_eventq id_base_va id_shift kb_mem kb_bus kb_hw].
    erewrite bind_run; [|apply kb_regs_run, write_reg_run; rewrite Hb1; unfold QUEUE_NOTIFY, TRANSPORT_SIZE in *; lia].
    cbn [kb_dev kb_mem kb_hw kb_bus]. set (s2 := mkKB _ _ _ _).
    assert (H2r : kb_rep s2 (shift_after e (id_shift dev)) (devs' ++ hw_events (kb_hw s1))).
    { exists (with_eventq dev1 q2), (mkOwn [] (p ++ [[i]]) t d'), devs'. split; [|done].
      split; cbn; try done; [by rewrite Hb1| |congruence|exact (at_pos_push _ _ _ [] p t d' [] [i] kv_pos0 Hav)|by rewrite Hde].
      pose proof kv_single0 as Hs. unfold singles, in_flight in Hs |- *. cbn in Hs |- *. rewrite !Forall_app, Forall_cons in Hs.
      rewrite !Forall_app, Forall_singleton. destruct Hs as (Hs1' & Hs2 & _ & Hs3). split_and!; eauto. }
    rewrite Hs1. cbn [app] in *. destruct (char_of e (shift_after e (id_shift dev))) as [c|] eqn:Ec.
    + exists (Some c), s2, (shift_after e (id_shift dev)), [e], (devs' ++ hw_events (kb_hw s1)). split; [done|]. split; [done|]. split; [done|].
      split; [cbn; by rewrite Ec|split; [cbn; lia|by split]].
    + destruct (IH s2 _ _ H2r) as (r & s3 & sh3 & evs1 & evs2 & E3 & H3 & Hevs & Ht & Hl & Hend & Hg); [cbn in Hf; lia|].
      exists r, s3, sh3, (e :: evs1), evs2. split; [done|]. split; [done|]. split; [by rewrite Hevs|]. cbn [typed]. rewrite Ht, Ec.
      split; [done|]. split; [intros Hr; specialize (Hl Hr); cbn; lia|]. split; [done|]. by eapply handed_over_trans.
Qed.

(** The loop of the interrupt handler around [get_char], with the characters it
    passes on. *)
Fixpoint drain_chars (rounds fuel : nat) : M (KB D) (list Z) :=
  match fuel with
  | O => panic
  | S fuel =>
      o <- get_char serve event_bufs rounds ;;
      match o with None => ret [] | Some c => l <- drain_chars rounds fuel ;; ret (c :: l) end
  end.
Fixpoint interrupts (rounds n : nat) : M (KB D) (list Z) :=
  match n with
  | O => ret []
  | S n => l1 <- drain_chars rounds rounds ;; l2 <- interrupts rounds n ;; ret (l1 ++ l2)
  end.

Lemma drain_rep rounds fuel s sh evs : kb_rep s sh evs -> (length evs < rounds)%nat -> (length evs < fuel)%nat ->
  exists cs s' sh' evs1 evs2, drain_chars rounds fuel s = Some (cs, s') /\ kb_rep s' sh' evs2 /\ evs = evs1 ++ evs2 /\ typed sh evs1 = (cs, sh').
Proof.
  revert s sh evs. induction fuel as [|fuel IH]; intros s sh evs Hk Hr Hf; [lia|]. cbn [drain_chars].
  destruct (char_loop_rep rounds s sh evs Hk Hr) as (r & s1 & sh1 & evs1 & evs2 & E & H1 & -> & Ht & Hl & _ & _).
  assert (Eg : get_char serve event_bufs rounds s = Some (r, s1)).
  { unfold get_char, bind at 1, gets. destruct Hk as (dev & o & devs & Hv & _). by rewrite (kv_dev _ _ _ _ Hv). }
  rewrite (bind_run _ _ _ _ _ Eg). destruct r as [c|].
  - specialize (Hl ltac:(done)). destruct (IH s1 sh1 evs2 H1) as (cs & s2 & sh2 & evs3 & evs4 & E2 & H2 & -> & Ht2); [lia|lia|].
    rewrite (bind_run _ _ _ _ _ E2). exists (c :: cs), s2, sh2, (evs1 ++ evs3), evs4. split; [done|]. split; [done|]. split; [by rewrite <- app_assoc|].
    exact (typed_app _ _ _ _ _ _ _ Ht Ht2).
  - by exists [], s1, sh1, evs1, evs2.
Qed.

Lemma interrupts_rep rounds n s sh evs : kb_rep s sh evs -> (length evs < rounds)%nat ->
  exists cs s' sh' evs1 evs2, interrupts rounds n s = Some (cs, s') /\ kb_rep s' sh' evs2 /\ evs = evs1 ++ evs2 /\ typed sh evs1 = (cs, sh').
Proof.
  revert s sh evs. induction n as [|n IH]; intros s sh evs Hk Hr; cbn [interrupts]; [by exists [], s, sh, [], evs|].
  destruct (drain_rep rounds rounds s sh evs Hk Hr Hr) as (cs1 & s1 & sh1 & evs1 & evs2 & E1 & H1 & -> & Ht1). rewrite (bind_run _ _ _ _ _ E1).
  rewrite length_app in Hr. destruct (IH s1 sh1 evs2 H1) as (cs2 & s2 & sh2 & evs3 & evs4 & E2 & H2 & -> & Ht2); [lia|].
  rewrite (bind_run _ _ _ _ _ E2). exists (cs1 ++ cs2), s2, sh2, (evs1 ++ evs3), evs4. split; [done|]. split; [done|]. split; [by rewrite <- app_assoc|].
  exact (typed_app _ _ _ _ _ _ _ Ht1 Ht2).
Qed.

(** *** Initialisation *)

(** Descriptors are allocated in their order, so buffer [i] goes to descriptor [i]. *)
Lemma post_events_inv n k q p : Z.of_nat k + n = INPUT_QUEUE_SIZE -> 0 <= n -> vq_proto q (mkOwn [] p [] []) ->
  vq_inv q (seqZ (Z.of_nat k) n) [] (in_flight (mkOwn [] p [] [])) -> at_pos 0 q (mkOwn [] p [] []) -> Forall (fun c => exists i, c = [i]) p ->
  vq_num q = INPUT_QUEUE_SIZE ->
  (forall i, 0 <= i < Z.of_nat k -> exists x, vq_desc q !! Z.to_nat i = Some x /\ vd_addr x = buf_at i) ->
  exists q' p', post_events event_bufs (seqZ (Z.of_nat k) n) q = Some (tt, q') /\ vq_proto q' (mkOwn [] p' [] []) /\ at_pos 0 q' (mkOwn [] p' [] []) /\
    Forall (fun c => exists i, c = [i]) p' /\ vq_num q' = INPUT_QUEUE_SIZE /\
    (forall i, 0 <= i < INPUT_QUEUE_SIZE -> exists x, vq_desc q' !! Z.to_nat i = Some x /\ vd_addr x = buf_at i).
Proof.
  intros Hk Hn. remember (Z.to_nat n) as m eqn:Em. revert n k q p Em Hk Hn. induction m as [|m IH]; intros n k q p Em Hk Hn HP Hi Hat Hs Hnum Ha.
  { assert (n = 0) by lia. subst n. rewrite seqZ_nil by lia. exists q, p. split_and!; try done. intros i Hr. apply Ha. lia. }
  rewrite seqZ_cons in * by lia. cbn [post_events].
  destruct (proto_post_at _ _ _ _ _ _ (event_desc event_bufs (Z.of_nat k)) HP Hi eq_refl) as (q1 & q2 & q3 & E1 & E2 & E3 & H3 & Hi3 & Hn3 & _ & Hav & Hd3).
  rewrite (bind_run _ _ _ _ _ E1). erewrite bind_run by reflexivity. rewrite (bind_run _ _ _ _ _ E2), (bind_run _ _ _ _ _ E3).
  replace (Z.succ (Z.of_nat k)) with (Z.of_nat (S k)) in * by lia.
  destruct (IH (Z.pred n) (S k) q3 (p ++ [[Z.of_nat k]])) as (q' & p' & H'); try done; try lia; [by eapply at_pos_push| | |by exists q', p'].
  - apply Forall_app. split; [done|]. apply Forall_singleton. by eexists.
  - intros i Hr. rewrite Hd3. destruct (decide (i = Z.of_nat k)) as [->|Hne].
    + exists (event_desc event_bufs (Z.of_nat k)). split; [|reflexivity]. apply list_lookup_insert_eq. rewrite (inv_desc _ _ _ _ Hi), Hnum. lia.
    + rewrite list_lookup_insert_ne by lia. apply Ha. lia.
Qed.

Context (answer : Bus -> Z -> Z) (eventq_buf gicd gicr : Z).

Lemma input_init_rep base idx (s : KB D) :
  0 <= gicd /\ gicd + 65536 <= gicr /\ gicr + 131072 <= 2 ^ 64 -> base + TRANSPORT_SIZE <= 2 ^ 64 -> 0 <= idx < NUM_TRANSPORTS ->
  hw_pos (kb_hw s) = 0 -> Forall event_ok (hw_events (kb_hw s)) ->
  exists s', input_init answer eventq_buf event_bufs gicd gicr base (VIRTIO_IRQ_BASE + idx) s = Some (tt, s') /\
    (kb_dev s' = kb_dev s \/ kb_rep s' false (hw_events (kb_hw s))).
Proof.
  intros Hg Hb Hi Hp0 Hev. unfold input_init.
  destruct (init_device_result answer base 0 (kb_bus s) Hb) as (f & h1 & E1 & _). rewrite (bind_run _ _ _ _ _ (kb_regs_run _ _ _ _ E1)).
  destruct f as [f|]; [|eexists; split; [done|by left]]. cbv zeta. set (q0 := vq_init _ _).
  destruct (setup_queue_result answer base 0 q0 PAGE_SIZE h1 Hb) as (h2 & E2). rewrite (bind_run _ _ _ _ _ (kb_regs_run _ (mkKB _ _ h1 _) _ _ E2)).
  assert (Hq0 : vq_proto q0 own0) by (apply vq_init_proto; [unfold INPUT_QUEUE_SIZE; lia|by exists 1024]).
  destruct (post_events_inv INPUT_QUEUE_SIZE 0 q0 []) as (q & p & E3 & HP & Hat & Hs & Hn & Ha); [done|done|done| |done|done|done|lia|].
  { apply vq_init_inv. unfold INPUT_QUEUE_SIZE. lia. }
  change (Z.of_nat 0) with 0 in E3. rewrite zrange_seqZ, E3.
  erewrite bind_run by (apply kb_regs_run, write_reg_run; unfold QUEUE_NOTIFY, TRANSPORT_SIZE in *; lia).
  set (h3 := _ :: _). destruct (driver_ok_result answer base h3 Hb) as (h4 & E4). rewrite (bind_run _ _ _ _ _ (kb_regs_run _ (mkKB _ _ h3 _) _ _ E4)).
  destruct (enable_irq_exact gicd gicr Hg (VIRTIO_IRQ_BASE + idx) h4) as (h5 & E5 & _); [unfold VIRTIO_IRQ_BASE, NUM_TRANSPORTS in *; lia|].
  rewrite (bind_run _ _ _ _ _ (kb_regs_run _ (mkKB _ _ h4 _) _ _ E5)). eexists. split; [reflexivity|]. right.
  exists (mkInputDev base (VIRTIO_IRQ_BASE + idx) q false), (mkOwn [] p [] []), []. split; [|exact (conj eq_refl eq_refl)].
  split; [reflexivity|exact Hb|exact HP|reflexivity| |exact Hn| |exact Ha|by apply Forall2_nil|exact Hev].
  - unfold singles, in_flight. cbn [o_posted o_taken o_done]. by rewrite !app_nil_r.
  - cbn [kb_hw id_eventq]. rewrite Hp0. exact Hat.
Qed.

End Keyboard.

(** From the initialisation of the keyboard on, whatever its registers say and
    over any number of interrupts, the characters passed on are those of a prefix of
    the events the device produced, in their order and each once: an event is
    interpreted with the shift state that the events before it leave, and none is
    lost, whatever is still to come.  The loops end without a panic. *)
Theorem keyboard_exact D serve `{HD : VirtioInputDevice D serve} answer eventq_buf event_bufs gicd gicr base idx rounds (s : KB D) :
  KERNEL_VA_OFFSET <= event_bufs /\ event_bufs + INPUT_QUEUE_SIZE * EVENT_SIZE <= 2 ^ 64 ->
  0 <= gicd /\ gicd + 65536 <= gicr /\ gicr + 131072 <= 2 ^ 64 -> base + TRANSPORT_SIZE <= 2 ^ 64 -> 0 <= idx < NUM_TRANSPORTS ->
  hw_pos (kb_hw s) = 0 -> Forall event_ok (hw_events (kb_hw s)) -> (length (hw_events (kb_hw s)) < rounds)%nat ->
  exists s1, input_init answer eventq_buf event_bufs gicd gicr base (VIRTIO_IRQ_BASE + idx) s = Some (tt, s1) /\
    (kb_dev s1 = kb_dev s \/
     forall n, exists cs s2 sh evs1 evs2, interrupts (serve := serve) event_bufs rounds n s1 = Some (cs, s2) /\
       hw_events (kb_hw s) = evs1 ++ evs2 /\ typed false evs1 = (cs, sh) /\ kb_rep event_bufs s2 sh evs2).
Proof.
  intros Hbufs Hg Hb Hi Hp0 Hev Hr.
  destruct (input_init_rep event_bufs answer eventq_buf gicd gicr base idx s Hg Hb Hi Hp0 Hev) as (s1 & E & [Hd|H1]); exists s1; (split; [done|]); [by left|right].
  intros n. destruct (interrupts_rep event_bufs Hbufs rounds n s1 false _ H1 Hr) as (cs & s2 & sh & evs1 & evs2 & E2 & H2 & He & Ht).
  by exists cs, s2, sh, evs1, evs2.
Qed.

(** ** A keyboard that delivers a list of events *)

Record Keys := mkKeys { keys_pos : Z; keys_events : list Event }.

Definition keys_serve (d : Keys) (_ : Bus) (q : Virtqueue) (m : bmem) : Keys * VirtqUsed * bmem :=
  match keys_events d with
  | [] => (d, vq_used q, m)
  | e :: es =>
      if av_idx (vq_avail q) =? keys_pos d then (d, vq_used q, m)
      else match av_ring (vq_avail q) !! Z.to_nat (keys_pos d mod vq_num q) with
           | Some h => (mkKeys (wrap 16 (keys_pos d + 1)) es, vq_used (device_complete h EVENT_SIZE q), put_bytes (buffer_addr q [h]) (encode_event e) m)
           | None => (d, vq_used q, m)
           end
  end.

#[global] Program Instance keys_device : VirtioInputDevice Keys keys_serve := {| hw_events := keys_events; hw_pos := keys_pos |}.
Next Obligation.
  intros d bus q m o HP Hat _. unfold keys_serve.
  assert (Hid : forall d', d' = d -> exists d'' u m' o' news evs, (d', vq_used q, m) = (d'', u, m') /\ rtc (dev_step EVENT_SIZE) (q, o) (set_used u q, o') /\
      at_pos (keys_pos d'') (set_used u q) o' /\ o_done o' = o_done o ++ news /\ keys_events d = evs ++ keys_events d'' /\
      Forall2 (fun c e => get_bytes (buffer_addr q c) EVENT_SIZE m' = encode_event e) news evs /\
      (forall x, outside q (o_posted o ++ o_taken o) x -> m' x = m x)).
  { intros d' ->. exists d, (vq_used q), m, o, [], []. rewrite set_used_same, app_nil_r. by split_and!. }
  destruct (keys_events d) as [|e es] eqn:Ek; [by apply Hid|].
  destruct (Z.eqb_spec (av_idx (vq_avail q)) (keys_pos d)) as [|Hne]; [by apply Hid|].
  destruct (next_request _ _ _ HP Hat Hne) as (c & p & Ep & ->). destruct (serve_request _ _ _ c p EVENT_SIZE EVENT_SIZE HP Hat Ep) as [Hr Ha]; [by unfold EVENT_SIZE|].
  assert (Ea : buffer_addr q [head_of c] = buffer_addr q c) by done. rewrite Ea.
  eexists _, _, _, _, [c], [e]. split; [reflexivity|]. split; [exact Hr|]. split; [exact Ha|]. split; [done|]. split; [done|]. split.
  - apply Forall2_cons. split; [|by apply Forall2_nil]. by apply get_put_same.
  - intros x Hx. specialize (Hx c). rewrite Ep in Hx. apply put_bytes_out. unfold EVENT_SIZE in Hx. unfold encode_event. rewrite !length_app, !length_to_le_bytes. cbn in *.
    destruct Hx; [set_solver|by left|right; lia].
Qed.

Definition demo_keys : list Event :=
  [mkEvent 1 42 1; mkEvent 0 0 0; mkEvent 1 35 1; mkEvent 1 35 0; mkEvent 1 42 0; mkEvent 1 23 1; mkEvent 1 2 1].

Lemma keyboard_exact_witness :
  let s := mkKB None (fun _ => 0) [] (mkKeys 0 demo_keys) in
  typed false demo_keys = ([72; 105; 49], false) /\
  exists s1, input_init (fun _ _ => 8) (KERNEL_VA_OFFSET + 65536) (KERNEL_VA_OFFSET + 131072) (2 ^ 27) (2 ^ 27 + 655360)
    (KERNEL_VA_OFFSET + 167772160) (VIRTIO_IRQ_BASE + 3) s = Some (tt, s1).
Proof.
  split; [by vm_compute|].
  destruct (keyboard_exact Keys keys_serve (fun _ _ => 8) (KERNEL_VA_OFFSET + 65536) (KERNEL_VA_OFFSET + 131072) (2 ^ 27) (2 ^ 27 + 655360)
    (KERNEL_VA_OFFSET + 167772160) 3 20 (mkKB None (fun _ => 0) [] (mkKeys 0 demo_keys)))
    as (s1 & E1 & _); [by vm_compute|by vm_compute|by vm_compute|done|done|repeat (apply Forall_cons; split; [unfold event_ok; cbn; lia|]); by apply Forall_nil|cbn; lia|].
  by exists s1.
Defined.
