(* ===== verification/Uart.v ===== *)
(** * The serial line

    Models [xous/kernel/src/platform/qemu_virt/uart.rs]: the driver of a PL011
    UART, on the history of register accesses of [Virtio].  [base] is [UART_BASE],
    zero before initialisation. *)

From Stdlib Require Import ZArith Lia Bool.
From stdpp Require Import gmap.
From S2P Require Import Prelude Virtio Gic.
Open Scope Z_scope.

Definition UART_DR : Z := 0.
Definition UART_FR : Z := 24.
Definition UART_CR : Z := 48.
Definition UART_IMSC : Z := 56.
Definition UART_ICR : Z := 68.
Definition FR_TXFF : Z := 32.
Definition FR_RXFE : Z := 16.
Definition CR_UARTEN : Z := 1.
Definition CR_TXEN : Z := 256.
Definition CR_RXEN : Z := 512.
Definition IMSC_RXIM : Z := 16.
Definition UART_IRQ : Z := 33.

Section Uart.
Variable answer : Bus -> Z -> Z.
Variables base gicd gicr : Z.

Definition uart_init : M Bus unit :=
  _ <- write_reg base UART_CR (Z.lor (Z.lor CR_UARTEN CR_TXEN) CR_RXEN) ;;
  write_reg base UART_ICR 2047.

Definition enable_rx_interrupt : M Bus unit :=
  imsc <- read_reg answer base UART_IMSC ;;
  _ <- write_reg base UART_IMSC (Z.lor imsc IMSC_RXIM) ;;
  enable_irq gicd gicr UART_IRQ.

(** [while read_reg(FR) & FR_TXFF != 0 {}], for at most [fuel] reads *)
Fixpoint wait_tx (fuel : nat) : M Bus unit :=
  match fuel with
  | O => panic
  | S fuel =>
      fr <- read_reg answer base UART_FR ;;
      if negb (Z.land fr FR_TXFF =? 0) then wait_tx fuel else ret tt
  end.

Definition putc (fuel : nat) (c : Z) : M Bus unit :=
  if base =? 0 then ret tt else _ <- wait_tx fuel ;; write_reg base UART_DR c.

Fixpoint puts (fuel : nat) (s : list Z) : M Bus unit :=
  match s with
  | [] => ret tt
  | b :: s =>
      _ <- (if b =? 10 then putc fuel 13 else ret tt) ;;
      _ <- putc fuel b ;;
      puts fuel s
  end.

Definition try_getc : M Bus (option Z) :=
  if base =? 0 then ret None
  else
    fr <- read_reg answer base UART_FR ;;
    if negb (Z.land fr FR_RXFE =? 0) then ret None
    else c <- read_reg answer base UART_DR ;; ret (Some (Z.land c 255)).

Definition clear_rx_interrupt : M Bus unit := write_reg base UART_ICR IMSC_RXIM.

End Uart.

(** ** What a PL011 promises

    [rx] are the characters that are still to be read: a read of the data register
    takes the first, nothing else does, and the flag register reports an empty
    FIFO unless there is one (PL011 reference manual, 3.3).  The transmit FIFO has
    room again after at most [n] reads of the flag register. *)
Class Pl011 (answer : Bus -> Z -> Z) (base : Z) := {
  rx : Bus -> list Z;
  rx_flags : forall h v, rx (Rd (base + UART_FR) v :: h) = rx h;
  rx_data : forall h v, rx (Rd (base + UART_DR) v :: h) = tail (rx h);
  rx_write : forall h a v, rx (Wr a v :: h) = rx h;
  rx_ready : forall h v, Z.land (wrap 32 (answer h (base + UART_FR))) FR_RXFE = 0 ->
    exists c l, rx h = c :: l /\ Z.land (wrap 32 (answer (Rd (base + UART_FR) v :: h) (base + UART_DR))) 255 = c }.

Fixpoint flag_reads (base : Z) (h : Bus) : nat :=
  match h with Rd a _ :: h => if a =? base + UART_FR then S (flag_reads base h) else 0%nat | _ => 0%nat end.
Definition drains_within (answer : Bus -> Z -> Z) (base : Z) (n : nat) : Prop :=
  forall h, (n <= flag_reads base h)%nat -> Z.land (wrap 32 (answer h (base + UART_FR))) FR_TXFF = 0.

(** The bytes written to the data register, the first one first. *)
Fixpoint transmitted (base : Z) (h : Bus) : list Z :=
  match h with
  | [] => []
  | Wr a v :: h => transmitted base h ++ (if a =? base + UART_DR then [v] else [])
  | Rd _ _ :: h => transmitted base h
  end.
Fixpoint crlf (s : list Z) : list Z :=
  match s with [] => [] | b :: s => (if b =? 10 then [13] else []) ++ b :: crlf s end.

Section Line.
Context (answer : Bus -> Z -> Z) (base : Z) (Hbase : 0 < base /\ base + 4096 <= 2 ^ 64).

Lemma try_getc_exact `{Hp : !Pl011 answer base} h : exists r h', try_getc answer base h = Some (r, h') /\
  match r with None => rx h' = rx h | Some c => rx h = c :: rx h' end.
Proof.
  unfold try_getc. rewrite (proj2 (Z.eqb_neq _ _)) by lia.
  erewrite bind_run by (apply read_reg_run; unfold UART_FR; lia).
  destruct (Z.eqb_spec (Z.land (wrap 32 (answer h (base + UART_FR))) FR_RXFE) 0) as [E|E]; cbn [negb].
  - erewrite bind_run by (apply read_reg_run; unfold UART_DR; lia). eexists (Some _), _. split; [reflexivity|]. cbv beta iota.
    edestruct rx_ready as (c & l & Hc & Ha); [exact E|]. rewrite rx_data, rx_flags, Hc, Ha. done.
  - eexists None, _. split; [reflexivity|]. apply rx_flags.
Qed.

Lemma wait_tx_run n fuel h : drains_within answer base n -> (n < fuel + flag_reads base h)%nat -> (0 < fuel)%nat ->
  exists h', wait_tx answer base fuel h = Some (tt, h') /\ transmitted base h' = transmitted base h.
Proof.
  intros Hd. revert h. induction fuel as [|fuel IH]; intros h Hf Hp; [lia|]. cbn [wait_tx].
  erewrite bind_run by (apply read_reg_run; unfold UART_FR; lia).
  destruct (Z.eqb_spec (Z.land (wrap 32 (answer h (base + UART_FR))) FR_TXFF) 0) as [E|E]; cbn [negb]; [by eexists|].
  assert (Hlt : (flag_reads base h < n)%nat) by (destruct (Nat.lt_ge_cases (flag_reads base h) n); [done|exfalso; apply E, Hd; lia]).
  edestruct IH as (h' & E' & Ht); [|lia|exists h'; split; [exact E'|exact Ht]]. cbn. rewrite Z.eqb_refl. lia.
Qed.

Lemma putc_exact n fuel c h : drains_within answer base n -> (n < fuel)%nat ->
  exists h', putc answer base fuel c h = Some (tt, h') /\ transmitted base h' = transmitted base h ++ [c].
Proof.
  intros Hd Hf. unfold putc. rewrite (proj2 (Z.eqb_neq _ _)) by lia.
  destruct (wait_tx_run n fuel h Hd) as (h1 & E1 & H1); [lia|lia|]. rewrite (bind_run _ _ _ _ _ E1).
  rewrite write_reg_run by (unfold UART_DR; lia). eexists. split; [done|]. cbn. by rewrite Z.eqb_refl, H1.
Qed.

(** A string goes out byte by byte, each newline after a carriage return. *)
Lemma puts_exact n fuel s h : drains_within answer base n -> (n < fuel)%nat ->
  exists h', puts answer base fuel s h = Some (tt, h') /\ transmitted base h' = transmitted base h ++ crlf s.
Proof.
  intros Hd Hf. revert h. induction s as [|b s IH]; intros h; cbn [puts crlf]; [exists h; by rewrite app_nil_r|].
  assert (H1 : exists h1, (if b =? 10 then putc answer base fuel 13 else ret tt) h = Some (tt, h1) /\
    transmitted base h1 = transmitted base h ++ (if b =? 10 then [13] else [])).
  { destruct (b =? 10); [by eapply putc_exact|]. exists h. by rewrite app_nil_r. }
  destruct H1 as (h1 & E1 & H1). rewrite (bind_run _ _ _ _ _ E1).
  destruct (putc_exact n fuel b h1 Hd Hf) as (h2 & E2 & H2). rewrite (bind_run _ _ _ _ _ E2).
  destruct (IH h2) as (h3 & E3 & H3). exists h3. split; [done|]. by rewrite H3, H2, H1, <- !app_assoc.
Qed.

End Line.
