(* ===== verification/Entry.v ===== *)
(** * Exceptions: how the kernel is entered and left

    Models the Rust side of [xous/kernel/src/arch/aarch64/irq.rs] on the QEMU
    board: the handlers that the vector table calls with the saved registers of
    the interrupted program, and the dispatch of device interrupts.

    The board (interrupt controller, timer, network, disk, keyboard, serial line)
    is the class [Board], which [Machine] implements with the models of its
    drivers.  [idle_wait_then_load] waits for interrupts in a loop that may never
    end; [Waiting] is the machine at the head of that loop, where interrupts enter
    [kernel_irq], and [idle_wake] is what a round of it does then. *)

From Stdlib Require Import ZArith Lia Bool.
From stdpp Require Import gmap.
From S2P Require Import Prelude Abi SysCall Scheduler Server Memory PageTable MemMap Process ArchProcess Display Bytes Elf Services Spawn Handler KernelInv Dispatch Gic Uart.
Open Scope Z_scope.

(** What the handlers use of the drivers. *)
Class Board (B : Type) := {
  ack_irq : M B Z;
  eoi : Z -> M B unit;
  timer_tick : M B unit;
  uart_getc : M B (option Z);
  uart_clear : M B unit;
  blk_irq : B -> option Z;
  blk_handler : M B unit;
  net_irq : B -> option Z;
  net_handler : M B unit;
  key_irq : B -> option Z;
  key_ack : M B unit;
  key_char : M B (option Z) }.

(** ** Registers *)

Definition frame_args (f : Frame) : list Z := get_args (restore_frame f Thread_default).
Definition frame_set_args (args : list Z) (f : Frame) : Frame := frame_of (set_args args (restore_frame f Thread_default)).

Definition is_resume (r : XResult) : bool := match r with R_ResumeProcess => true | _ => false end.

(** SPSR with the interrupt mask cleared *)
Definition unmask_irq (spsr : Z) : Z := Z.ldiff spsr 128.

Section Entry.
Context {P : Platform} {S G : Type} {RQ : ReadyQueues S G} {B : Type} {HB : Board B}.
Notation K := (Kernel (S := S)).
(** A bound for the characters that wait in a device. *)
Variable rounds : nat.

Record Machine := mkMachine { mc_kernel : K; mc_board : B }.

Definition on_kernel {X} (op : M K X) : M Machine X :=
  fun m => match op (mc_kernel m) with Some (x, k) => Some (x, mkMachine k (mc_board m)) | None => None end.
Definition on_board {X} (op : M B X) : M Machine X :=
  fun m => match op (mc_board m) with Some (x, b) => Some (x, mkMachine (mc_kernel m) b) | None => None end.

(** ** Interrupts *)

(** [while let Some(c) = get() { dispatch_input_char(c); }] *)
Fixpoint input_loop (fuel : nat) (get : M B (option Z)) : M Machine unit :=
  match fuel with
  | O => panic
  | Datatypes.S fuel =>
      o <- on_board get ;;
      match o with
      | Some c => _ <- on_kernel (dispatch_input_char c) ;; input_loop fuel get
      | None => ret tt
      end
  end.

Definition handle_irq : M Machine bool :=
  irq <- on_board ack_irq ;;
  if irq =? IRQ_SPURIOUS then ret false
  else
    let is_timer := irq =? TIMER_IRQ in
    b <- gets mc_board ;;
    _ <- (if irq =? TIMER_IRQ then on_board timer_tick
          else if irq =? UART_IRQ then _ <- input_loop rounds uart_getc ;; on_board uart_clear
          else if bool_decide (blk_irq b = Some irq) then on_board blk_handler
          else if bool_decide (net_irq b = Some irq) then on_board net_handler
          else if bool_decide (key_irq b = Some irq) then _ <- on_board key_ack ;; input_loop rounds key_char
          else ret tt) ;;
    _ <- on_board (eoi irq) ;;
    ret is_timer.

(** ** Leaving for a program *)

Definition save_current (frame : Frame) : M K (PID * nat) :=
  pid <- current_pid ;;
  tid <- on_arch (current_tid pid) ;;
  _ <- on_arch (save_context_to_table pid tid frame) ;;
  ret (pid, tid).

Definition load_current (frame : Frame) : M K Frame :=
  pid <- current_pid ;;
  tid <- on_arch (current_tid pid) ;;
  on_arch (load_context_from_table pid tid frame).

(** A program runs with these registers, or the kernel waits for an interrupt. *)
Inductive Mode := User (frame : Frame) | Waiting (frame : Frame).

(** The head of the loop of [idle_wait_then_load] *)
Definition resume (frame : Frame) : M Machine Mode :=
  pid <- on_kernel current_pid ;;
  if pid =? 1 then ret (Waiting frame) else f <- on_kernel (load_current frame) ;; ret (User f).

(** The rest of its body, after the interrupts: the scheduler runs again. *)
Definition idle_wake (frame : Frame) : M Machine Mode :=
  _ <- on_kernel activate_current ;;
  resume frame.

(** ** The handlers *)

Definition handle_svc (i : Input) (frame : Frame) : M Machine Mode :=
  c <- on_kernel (save_current frame) ;;
  let '(caller_pid, caller_tid) := c in
  decoded <- expect (from_regs (frame_args frame)) ;;
  match decoded with
  | Err _ => ret (User (frame_set_args (XResult_to_args (R_Error InvalidSyscall)) frame))
  | Ok call =>
      r <- on_kernel (handle i caller_tid call) ;;
      let response := match r with Ok x => x | Err e => R_Error e end in
      _ <- (if is_resume response then ret tt
            else on_kernel (on_arch (ArchProcess.set_thread_result caller_pid caller_tid response))) ;;
      resume frame
  end.

Definition handle_abort (frame : Frame) : M Machine Mode :=
  _ <- on_kernel (save_current frame) ;;
  _ <- on_kernel (terminate_current_process 1) ;;
  resume frame.

(** [_user_sync_handler_rust]; an unknown exception stops the machine. *)
Definition user_sync (i : Input) (esr : Z) (frame : Frame) : M Machine Mode :=
  let ec := Z.land (Z.shiftr esr 26) 63 in
  if ec =? 21 then handle_svc i frame
  else if (ec =? 32) || (ec =? 33) || (ec =? 36) || (ec =? 37) then handle_abort frame
  else panic.

(** What a timer interrupt does to the thread it interrupted. *)
Definition preempt (pid : PID) (tid : nat) : M K unit :=
  prio <- on_current (thread_priority tid) ;;
  _ <- on_scheduler (rq_yield pid (Z.of_nat tid) prio) ;;
  _ <- activate_current ;;
  ret tt.

(** [_user_irq_handler_rust] *)
Definition user_irq (frame : Frame) : M Machine Frame :=
  c <- on_kernel (save_current frame) ;;
  let '(interrupted_pid, tid) := c in
  was_timer <- handle_irq ;;
  _ <- (if was_timer : bool then on_kernel (preempt interrupted_pid tid) else ret tt) ;;
  on_kernel (load_current frame).

(** [_kernel_irq_handler_rust], with the saved SPSR of the kernel *)
Definition kernel_irq (spsr : Z) : M Machine Z := _ <- handle_irq ;; ret (unmask_irq spsr).

End Entry.

Arguments Machine S B : clear implicits.

(** ** What the board promises

    The clock of the board runs for [ticks_left] more ticks before its counter is
    used up; [cost] bounds how many of them an operation takes.  Until then every
    operation returns and keeps the board in order; reading a character leaves
    fewer of them, and fewer than [rounds] ever wait. *)
Definition served {B X} (ticks_left : B -> nat) (board_ok : B -> Prop) (cost : nat) (op : M B X) (R : B -> X -> B -> Prop) : Prop :=
  forall b, (forall x b', op b = Some (x, b') -> ticks_left b' <= ticks_left b <= ticks_left b' + cost)%nat /\
    ((0 < ticks_left b)%nat -> board_ok b ->
     exists x b', op b = Some (x, b') /\ ((0 < ticks_left b')%nat -> board_ok b') /\ R b x b').

Class BoardLaws (B : Type) {HB : Board B} (rounds : nat) := {
  ticks_left : B -> nat;
  board_ok : B -> Prop;
  uart_backlog : B -> nat;
  key_backlog : B -> nat;
  backlog_law : forall b, board_ok b -> (uart_backlog b < rounds)%nat /\ (key_backlog b < rounds)%nat;
  ack_law : served ticks_left board_ok 0 ack_irq (fun _ _ _ => True);
  timer_law : served ticks_left board_ok 1 timer_tick (fun _ _ _ => True);
  quiet_law : forall op, op ∈ [uart_clear; blk_handler; net_handler; key_ack] \/ (exists irq, op = eoi irq) ->
    served ticks_left board_ok 0 op (fun _ _ _ => True);
  uart_law : served ticks_left board_ok 0 uart_getc (fun b r b' => is_Some r -> (uart_backlog b' < uart_backlog b)%nat);
  key_law : served ticks_left board_ok 0 key_char (fun b r b' => is_Some r -> (key_backlog b' < key_backlog b)%nat) }.

(** The registers of a program, as the hardware saves them. *)
Definition hw_frame (f : Frame) : Prop := length (f_gpr f) = 31%nat /\ Forall (fun x => fits 64 x = true) (f_gpr f).

Lemma SysCall_ok_pids call : SysCall_ok call = true -> call_pids_ok call.
Proof.
  destruct call; cbn; try done; rewrite ?andb_true_iff; intros H; destruct_and?;
    match goal with H : pid_ok _ = true |- _ => unfold pid_ok in H; rewrite ?andb_true_iff in H; lia end.
Qed.

Lemma frame_args_fit f : hw_frame f -> forallb (fits 64) (frame_args f) = true.
Proof.
  intros [Hl Hf]. apply forallb_forall. intros x Hx%list_elem_of_In. unfold frame_args, get_args in Hx.
  apply list_elem_of_fmap in Hx as (i & -> & Hi). cbn [restore_frame gpr]. rewrite nth_lookup.
  destruct (f_gpr f !! i) as [v|] eqn:E; [|done]. by apply (Forall_lookup_1 _ _ _ _ Hf E).
Qed.

Lemma decoded_pids f call : hw_frame f -> from_regs (frame_args f) = Some (Ok call) -> call_pids_ok call.
Proof.
  intros Hf. pose proof (frame_args_fit f Hf) as Ha. unfold frame_args, get_args, ARG_REGS in *. cbn [fmap list_fmap from_regs] in *.
  intros H. by eapply SysCall_ok_pids, from_args_fields.
Qed.

(** ** The contexts *)

Lemma current_tid_valid a pid : arch_wf a -> valid_tid (tid_of a pid).
Proof.
  intros [_ Hi]. unfold tid_of, valid_tid, NUM_THREADS. destruct (process_table a !! table_index pid) as [[p|]|] eqn:E.
  - destruct (Hi _ _ E) as (_ & _ & Hc). exact Hc.
  - unfold INITIAL_TID. lia.
  - unfold INITIAL_TID. lia.
Qed.

Lemma arch_save pid tid f : length (f_gpr f) = 31%nat -> arch_keeps (save_context_to_table pid tid f) (fun _ => True).
Proof. intros Hf. unfold save_context_to_table. do 2 arch_step. by apply arch_put. Qed.
Lemma arch_load pid tid f : arch_keeps (load_context_from_table pid tid f) (fun _ => True).
Proof. unfold load_context_from_table. by do 3 arch_step. Qed.

Section Keep.
Context {P : Platform} {S G : Type} {RQ : ReadyQueues S G} {B : Type} {HB : Board B} {rounds : nat} {HL : BoardLaws B rounds}.
Notation K := (Kernel (S := S)).
Notation Mc := (Machine S B).

(** The drivers are in order as long as the clock runs. *)
Definition board_live (b : B) : Prop := (0 < ticks_left b)%nat -> board_ok b.
Definition machine_ok (m : Mc) : Prop := kernel_ok (mc_kernel m) /\ board_live (mc_board m).

(** A step that returns keeps the machine in order. *)
Definition holds {X} (op : M Mc X) (R : X -> Prop) : Prop :=
  forall m x m', machine_ok m -> op m = Some (x, m') -> R x /\ machine_ok m'.
Definition kernel_holds {X} (op : M K X) (R : X -> Prop) : Prop :=
  forall k x k', kernel_ok k -> op k = Some (x, k') -> R x /\ kernel_ok k'.

Lemma holds_bind {X Y} (op : M Mc X) (f : X -> M Mc Y) R Q : holds op R -> (forall x, R x -> holds (f x) Q) -> holds (x <- op ;; f x) Q.
Proof. intros Ho Hf m y m' Hm (x & m1 & E & Hrun)%run_bind. destruct (Ho _ _ _ Hm E) as [HR H1]. by apply (Hf x HR m1). Qed.
Lemma holds_ret {X} (x : X) (R : X -> Prop) : R x -> holds (ret x) R.
Proof. by intros HR m y m' Hm [= <- <-]. Qed.
Lemma holds_kernel {X} (op : M K X) R : kernel_holds op R -> holds (on_kernel op) R.
Proof.
  intros Ho m x m' [Hk Hb]. unfold on_kernel. destruct (op (mc_kernel m)) as [[y k]|] eqn:E; [|done]. intros [= <- <-].
  destruct (Ho _ _ _ Hk E). by split; [|split].
Qed.
Lemma kernel_of_keeps {X} (op : M K X) (R : X -> Prop) :
  (forall A, (forall q, A q -> 1 <= q) -> keeps A (fun _ => A) op R) -> kernel_holds op R.
Proof.
  intros Hm k x k' Hk Hrun. split; [|by eapply keeps_ok]. destruct Hk as [g Hk].
  by destruct (Hm (alive k) (fun q H => proj1 H) k g x k' Hk Hrun).
Qed.
Lemma holds_weaken {X} (op : M Mc X) (R Q : X -> Prop) : holds op R -> (forall x, R x -> Q x) -> holds op Q.
Proof. intros Ho H m x m' Hm Hrun. destruct (Ho m x m' Hm Hrun). auto. Qed.

Lemma board_kept {X} cost (op : M B X) R b x b' : served ticks_left board_ok cost op R -> board_live b -> op b = Some (x, b') -> board_live b'.
Proof.
  intros Ho Hb E Ht. destruct (Ho b) as [Hm Hr]. destruct (Hm _ _ E) as [Hle _]. destruct Hr as (y & b1 & E1 & H1 & _); [lia|by apply Hb; lia|].
  rewrite E in E1. injection E1 as _ <-. by apply H1.
Qed.
Lemma holds_served {X} cost (op : M B X) R : served ticks_left board_ok cost op R -> holds (on_board op) (fun _ => True).
Proof.
  intros Ho m x m' [Hk Hb]. unfold on_board. destruct (op (mc_board m)) as [[y b']|] eqn:E; [|done]. intros [= <- <-].
  split; [done|]. split; [done|]. by eapply board_kept.
Qed.

Lemma input_loop_holds cost get R fuel : served ticks_left board_ok cost get R -> holds (input_loop fuel get) (fun _ => True).
Proof.
  intros Hg. induction fuel as [|fuel IH]; cbn [input_loop]; [by intros m x m' _ [=]|]. eapply holds_bind; [by eapply holds_served|].
  intros [c|] _; [|by apply holds_ret]. eapply holds_bind; [|intros _ _; exact IH]. apply holds_kernel, (kernel_of_keeps _ (fun _ => True)).
  intros A HA. by apply keeps_input_char.
Qed.

Lemma holds_quiet op : (op ∈ [uart_clear; blk_handler; net_handler; key_ack] \/ exists irq, op = eoi irq) -> holds (on_board op) (fun _ => True).
Proof. intros Ho. eapply holds_served, quiet_law, Ho. Qed.

Lemma handle_irq_holds : holds (handle_irq rounds) (fun _ => True).
Proof.
  unfold handle_irq. eapply holds_bind; [eapply holds_served, ack_law|].
  intros irq _. case_match; [by apply holds_ret|]. eapply (holds_bind _ _ (fun _ => True)); [by intros m x m' Hm [= <- <-]|]. intros b _.
  eapply (holds_bind _ _ (fun _ => True)).
  - repeat case_match; try (apply holds_quiet; left; set_solver); [eapply holds_served, timer_law| | |by apply holds_ret].
    + eapply holds_bind; [eapply input_loop_holds, uart_law|intros _ _; apply holds_quiet; left; set_solver].
    + eapply holds_bind; [apply holds_quiet; left; set_solver|]. intros _ _. eapply input_loop_holds, key_law.
  - intros _ _. eapply holds_bind; [apply holds_quiet; right; by eexists|]. intros _ _. by apply holds_ret.
Qed.

Lemma save_holds f : length (f_gpr f) = 31%nat -> kernel_holds (save_current f) (fun c => 1 <= c.1 <= MAX_PROCESS_COUNT /\ valid_tid c.2).
Proof.
  intros Hf k x k' Hk. unfold save_current. unfold bind at 1, current_pid, gets. unfold bind at 1, on_arch at 1, lift, current_tid, gets. cbv beta iota.
  assert (Hw : arch_wf (arch k)) by (destruct Hk as [g Hk]; exact (ki_arch _ _ _ _ Hk)).
  intros ([] & k1 & E & [= <- <-])%run_bind. split.
  { split; [|exact (current_tid_valid (arch k) (cur_pid (arch k)) Hw)]. destruct Hk as [g Hk]. by destruct (keeps_current_bound _ _ k g _ k Hk eq_refl). }
  eapply (keeps_ok _ (fun _ => True)); [|exact Hk|]. 2: { rewrite <- E. f_equal. by destruct k. }
  intros A HA. apply keeps_arch. by apply arch_save.
Qed.

Lemma load_holds f : kernel_holds (load_current f) (fun _ => True).
Proof.
  apply kernel_of_keeps. intros A HA. unfold load_current. eapply keeps_bind; [apply keeps_gets|]. intros pid _.
  eapply keeps_bind; [apply keeps_arch, arch_current_tid|]. intros tid _. apply keeps_arch, arch_load.
Qed.

Lemma activate_holds : kernel_holds (activate_current (S := S)) (fun _ => True).
Proof. apply kernel_of_keeps. intros A HA. apply keeps_activate_current. Qed.

Lemma current_pid_holds : kernel_holds (current_pid (S := S)) (fun _ => True).
Proof. by intros k x k' Hk [= <- <-]. Qed.

Lemma resume_holds f : holds (resume f) (fun _ => True).
Proof.
  unfold resume. eapply holds_bind; [apply holds_kernel, current_pid_holds|]. intros pid _. case_match; [by apply holds_ret|].
  eapply holds_bind; [apply holds_kernel, load_holds|]. intros f' _. by apply holds_ret.
Qed.

Lemma kernel_irq_holds spsr : holds (kernel_irq rounds spsr) (fun _ => True).
Proof. unfold kernel_irq. eapply holds_bind; [apply handle_irq_holds|]. intros _ _. by apply holds_ret. Qed.

Lemma idle_wake_holds f : holds (idle_wake f) (fun _ => True).
Proof.
  unfold idle_wake.
  eapply holds_bind; [apply holds_kernel, activate_holds|]. intros _ _. apply resume_holds.
Qed.

Lemma handle_svc_holds i f : queue_page_zero i -> hw_frame f -> holds (handle_svc i f) (fun _ => True).
Proof.
  intros Hz Hf. unfold handle_svc. eapply holds_bind; [apply holds_kernel, save_holds, Hf|]. intros [pid tid] [_ Ht]. cbn in Ht.
  eapply (holds_bind _ _ (fun d => from_regs (frame_args f) = Some d)).
  { intros m x m' Hm. destruct (from_regs _); [|done]. by intros [= <- <-]. }
  intros [call|e] Hd; [|by apply holds_ret]. eapply (holds_bind _ _ (fun _ => True)).
  { apply holds_kernel. intros k x k' Hk Hrun. split; [done|]. eapply handle_keeps; [exact Hz|exact Ht|by eapply decoded_pids|exact Hk|exact Hrun]. }
  intros r _. eapply (holds_bind _ _ (fun _ => True)); [|intros _ _; apply resume_holds]. case_match; [by apply holds_ret|].
  apply holds_kernel, kernel_of_keeps. intros A HA. apply keeps_arch, arch_set_thread_result.
Qed.

Lemma handle_abort_holds f : length (f_gpr f) = 31%nat -> holds (handle_abort f) (fun _ => True).
Proof.
  intros Hf. unfold handle_abort. eapply holds_bind; [by apply holds_kernel, save_holds|]. intros _ _.
  eapply (holds_bind _ _ (fun _ => True)); [|intros _ _; apply resume_holds]. apply holds_kernel. intros k x k' Hk Hrun. split; [done|].
  by eapply terminate_keeps.
Qed.

Lemma preempt_holds pid tid : 1 <= pid <= MAX_PROCESS_COUNT -> valid_tid tid -> kernel_holds (preempt pid tid) (fun _ => True).
Proof.
  intros Hp Ht. apply kernel_of_keeps. intros A HA. unfold preempt. eapply keeps_bind; [by apply (keeps_on_current _ _ _ _ (ps_thread_priority tid))|]. intros prio _.
  eapply keeps_bind; [by apply (keeps_yield_op _ _ tid Ht)|]. intros _ _. eapply keeps_bind; [apply keeps_activate_current|]. intros _ _. apply keeps_ret_any.
Qed.

Lemma user_irq_holds f : length (f_gpr f) = 31%nat -> holds (user_irq rounds f) (fun _ => True).
Proof.
  intros Hf. unfold user_irq. eapply holds_bind; [by apply holds_kernel, save_holds|]. intros [pid tid] [Hp Ht]. cbn in Hp, Ht.
  eapply holds_bind; [apply handle_irq_holds|]. intros was _. eapply (holds_bind _ _ (fun _ => True)); [|intros _ _; apply holds_kernel, load_holds].
  destruct was; [by apply holds_kernel, preempt_holds|by apply holds_ret].
Qed.

Lemma user_sync_holds i esr f : queue_page_zero i -> hw_frame f -> holds (user_sync i esr f) (fun _ => True).
Proof.
  intros Hz Hf. unfold user_sync. case_match; [by apply handle_svc_holds|]. case_match; [apply handle_abort_holds, Hf|by intros m x m' _ [=]].
Qed.

(** ** Runs of the machine

    A program changes its registers as it likes before the next exception; while
    the kernel waits, only interrupts happen, any number of them before the
    scheduler runs again.  The pages populated for server queues hold zeros and
    stay mapped ([queue_pages_hold]). *)
Inductive entry_step : Mc * Mode -> Mc * Mode -> Prop :=
| es_run m f f' : hw_frame f' -> entry_step (m, User f) (m, User f')
| es_sync i esr m f m' md : hw_frame f -> user_sync i esr f m = Some (md, m') ->
    queue_pages_hold i (mc_kernel m) (mc_kernel m') -> entry_step (m, User f) (m', md)
| es_irq m f m' f' : hw_frame f -> user_irq rounds f m = Some (f', m') -> entry_step (m, User f) (m', User f')
| es_wait_irq m f spsr spsr' m' : kernel_irq rounds spsr m = Some (spsr', m') -> entry_step (m, Waiting f) (m', Waiting f)
| es_idle m f m' md : idle_wake f m = Some (md, m') -> entry_step (m, Waiting f) (m', md).

Lemma entry_steps_ok s s' : rtc entry_step s s' -> machine_ok s.1 -> machine_ok s'.1.
Proof.
  induction 1 as [s|s s1 s2 Hs _ IH]; [done|]. intros Hm. apply IH. clear IH.
  destruct Hs as [m f f' Hf|i esr m f m' md Hf E [Hz _]|m f m' f' Hf E|m f spsr spsr' m' E|m f m' md E]; cbn [fst] in *; [done|..].
  - by destruct (user_sync_holds i esr f Hz Hf _ _ _ Hm E).
  - by destruct (user_irq_holds f (proj1 Hf) _ _ _ Hm E).
  - by destruct (kernel_irq_holds spsr _ _ _ Hm E).
  - by destruct (idle_wake_holds f _ _ _ Hm E).
Qed.

(** ** The end of a time slice *)

Lemma on_kernel_run {X} (op : M K X) (m : Mc) x k : op (mc_kernel m) = Some (x, k) -> on_kernel op m = Some (x, mkMachine k (mc_board m)).
Proof. intros E. unfold on_kernel. by rewrite E. Qed.
Lemma on_board_run {X} (op : M B X) (m : Mc) x b : op (mc_board m) = Some (x, b) -> on_board op m = Some (x, mkMachine (mc_kernel m) b).
Proof. intros E. unfold on_board. by rewrite E. Qed.

Lemma served_run {X} cost (op : M B X) R b : served ticks_left board_ok cost op R -> (cost < ticks_left b)%nat -> board_ok b ->
  exists x b', op b = Some (x, b') /\ (ticks_left b <= ticks_left b' + cost)%nat /\ board_ok b' /\ R b x b'.
Proof.
  intros Ho Ht Hb. destruct (Ho b) as [Hm Hr]. destruct Hr as (x & b' & E & Hb' & HR); [lia|done|]. destruct (Hm _ _ E).
  exists x, b'. split_and!; [done|done|apply Hb'; lia|done].
Qed.

(** A timer interrupt is dispatched without touching the kernel. *)
Lemma timer_irq_run (m : Mc) b : board_ok (mc_board m) -> (1 < ticks_left (mc_board m))%nat -> ack_irq (mc_board m) = Some (TIMER_IRQ, b) ->
  exists b', handle_irq rounds m = Some (true, mkMachine (mc_kernel m) b') /\ board_ok b'.
Proof.
  intros Hb Ht Ea. destruct (served_run 0 _ _ (mc_board m) ack_law) as (irq & b0 & Ea' & Ht0 & Hb0 & _); [lia|done|].
  rewrite Ea in Ea'. injection Ea' as <- <-. unfold handle_irq.
  rewrite (bind_run _ _ _ _ _ (on_board_run _ _ _ _ Ea)). cbn [Z.eqb IRQ_SPURIOUS TIMER_IRQ Pos.eqb]. unfold bind at 1, gets.
  destruct (served_run 1 _ _ b timer_law) as ([] & b1 & E1 & Ht1 & Hb1 & _); [lia|done|].
  rewrite (bind_run _ _ _ _ _ (on_board_run timer_tick (mkMachine (mc_kernel m) b) _ _ E1)).
  destruct (served_run 0 (eoi TIMER_IRQ) (fun _ _ _ => True) b1) as ([] & b2 & E2 & _ & Hb2 & _); [apply quiet_law; right; by eexists|lia|done|].
  rewrite (bind_run _ _ _ _ _ (on_board_run (eoi TIMER_IRQ) (mkMachine _ b1) _ _ E2)). by exists b2.
Qed.

(** The contexts of threads that wait for nothing are left alone by the choice of
    the next thread. *)
Definition undisturbed (k : K) (pid : PID) (tid : nat) : Prop :=
  1 <= pid /\ (1 <= tid)%nat /\ exists p, process_at k pid = Some p /\ kernel_future p tid = None.

Lemma arch_result_others pid tid r a a' q n : arch_wf a -> 1 <= pid -> 1 <= q -> (1 <= n)%nat -> (q, n) <> (pid, tid) ->
  ArchProcess.set_thread_result pid tid r a = Some (tt, a') -> thread_of a' q n = thread_of a q n.
Proof.
  intros Ha Hp Hq Hn Hne. unfold ArchProcess.set_thread_result. destruct (bad_tid tid) eqn:Hb; [by intros [= <-]|].
  apply bad_tid_cases in Hb. unfold table_get. intros (o & a1 & H1 & H)%run_bind. apply run_bind in H1 as (o' & a2 & [= <- <-] & H1).
  apply expect_Some in H1 as (o1 & Ho & [= <- ->]). destruct o as [p|]; [|by injection H as <-].
  apply run_bind in H as (t & a2 & H1 & H). apply expect_Some in H1 as (t1 & _ & [= <- ->]). injection H as <-.
  apply (written_others a pid p tid _); try done. by apply process_of_lookup.
Qed.

Lemma set_tid_contexts pid tid a x a' q n : set_tid pid tid a = Some (x, a') -> thread_of a' q n = thread_of a q n.
Proof.
  unfold set_tid. destruct (bad_tid tid); [by intros [= <- <-]|]. unfold table_get. intros (o & a1 & H1 & H)%run_bind.
  apply run_bind in H1 as (o' & a2 & [= <- <-] & H1). apply expect_Some in H1 as (o1 & Ho & [= <- ->]). destruct o as [p|]; [|by injection H as <- <-].
  apply run_bind in H as (t & a2 & H1 & H). apply expect_Some in H1 as (t1 & _ & [= <- ->]). destruct (negb _); [by injection H as <- <-|].
  apply run_bind in H as (u & a2 & [= <- <-] & [= <- <-]). unfold thread_of. cbn. rewrite list_lookup_insert. case_decide as Hd; [|done].
  destruct Hd as [<- _]. by rewrite Ho.
Qed.

Section Contexts.
Context (A : PID -> Prop) (Al : nat -> PID -> Prop).
Notation inv := (inv (G := G) A Al).

Lemma set_result_others pid p tid r (k k' : K) g e q n : inv k g -> process_at k pid = Some p -> 1 <= pid -> 1 <= q -> (1 <= n)%nat -> (q, n) <> (pid, tid) ->
  set_thread_result pid tid r k = Some (e, k') -> thread_of (arch k') q n = thread_of (arch k) q n.
Proof.
  intros Hk Hat Hp Hq Hn Hne. unfold set_thread_result. rewrite (bind_run _ _ k (cur_pid (arch k)) k eq_refl).
  destruct (Z.eqb_spec (cur_pid (arch k)) pid) as [Ec|Hne'].
  - intros ([] & k1 & H1 & [= <- <-])%run_bind. revert H1. unfold on_arch, lift.
    destruct (ArchProcess.set_thread_result _ tid r (arch k)) as [[[] a]|] eqn:E; [|done]. intros [= <-]. cbn.
    rewrite Ec in E. by apply (arch_result_others pid tid r (arch k) a q n (ki_arch _ _ _ _ Hk)).
  - rewrite (try_run _ _ _ _ _ (activate_run _ _ _ _ _ _ Hk Hp Hat)). set (k1 := set_arch _ k).
    rewrite (bind_run _ _ k1 pid k1 eq_refl). intros ([] & k2 & H1 & H)%run_bind. revert H1. unfold on_arch, lift.
    destruct (ArchProcess.set_thread_result _ tid r (arch k1)) as [[[] a]|] eqn:E; [|done]. intros [= <-].
    assert (Hr : thread_of a q n = thread_of (arch k) q n).
    { change (thread_of (arch k) q n) with (thread_of (arch k1) q n). apply (arch_result_others pid tid r (arch k1) a q n); [|done..].
      destruct (ki_arch _ _ _ _ Hk). by split. }
    apply run_bind in H as ([] & k3 & Hu & [= <- <-]). revert Hu. unfold unwrap, activate_process, bind_try, bind.
    destruct (process _ _) as [[[p'|e'] k4]|] eqn:Eq; try done. cbn. intros [= <-].
    unfold process, bind in Eq. destruct (process_slot _ _) as [[o k5]|] eqn:Es; [|done].
    apply process_slot_Some in Es as [-> _]. injection Eq as _ <-. exact Hr.
Qed.

Lemma dispatch_contexts cp ct pid p tid (k k' : K) g r q n : inv k g -> 1 <= pid -> process_at k pid = Some p ->
  dispatch cp ct pid tid k = Some (r, k') -> thread_of (arch k') q n = thread_of (arch k) q n.
Proof.
  intros Hk Hp Hat. unfold dispatch. destruct (_ && _); [by intros [= _ <-]|].
  pose proof (activate_run _ _ _ _ _ _ Hk Hp Hat) as Ea. set (k1 := set_arch _ k) in *.
  rewrite (bind_run _ _ k tt k1) by (unfold unwrap; by rewrite (bind_run _ _ _ _ _ Ea)). rewrite (bind_run _ _ k1 pid k1 eq_refl).
  intros (x & k2 & H1 & [= _ <-])%run_bind. revert H1. unfold on_arch, lift.
  destruct (set_tid pid tid (arch k1)) as [[y a]|] eqn:E; [|done]. intros [= _ <-]. cbn. by rewrite (set_tid_contexts _ _ _ _ _ q n E).
Qed.

Lemma activate_loop_contexts fuel cp ct (k k' : K) g r q n : inv k g -> undisturbed k q n ->
  activate_loop fuel cp ct k = Some (r, k') -> thread_of (arch k') q n = thread_of (arch k) q n.
Proof.
  intros Hk Hu. revert k g Hk Hu. induction fuel as [|fuel IH]; intros k g Hk (Hq & Hn & p0 & Hp0 & Hu); [done|]. cbn [activate_loop].
  destruct (head_run _ _ k g Hk) as (o & Eh & Ho). rewrite (bind_run _ _ _ _ _ Eh). destruct o as [[pid t]|]; [|by intros [= _ <-]].
  destruct Ho as (Hp & tid & p & -> & Ht & Hat & Hst). rewrite Nat2Z.id.
  destruct (inv_process _ _ _ _ _ _ Hk Hp Hat) as [Hpi _].
  destruct (take_future_run _ g tid (pv_inv _ _ Hpi) Ht) as (f & Hfl & Ef). cbn [ps_proc ps_sched] in Ef.
  pose proof (on_process_run _ _ _ _ _ _ _ _ _ Hk Hp Hat Ef) as Ep.
  destruct (keeps_on_process A Al pid _ _ Hp (ps_take_future tid) _ _ _ _ Hk Ep) as [Hfo [g1 Hk1]]. cbn in Hfo.
  set (p1 := set_futures _ p) in *. set (k1 := put_process _ _ k) in *.
  assert (Hat1 : process_at k1 pid = Some p1) by (apply put_process_here; by rewrite Hat).
  rewrite (bind_run _ _ k f k1) by (unfold unwrap; by rewrite (bind_run _ _ _ _ _ Ep)).
  destruct f as [f|]; [|apply (dispatch_contexts cp ct pid p1 tid k1 k' g1 r q n Hk1 Hp Hat1)].
  assert (Hne : (q, n) <> (pid, tid)) by (intros [= -> ->]; rewrite Hp0 in Hat; injection Hat as ->; unfold kernel_future in Hu; cbn in Hfl; by rewrite Hfl in Hu).
  destruct (poll_run _ _ k1 g1 f pid p1 tid Hk1 (Hfo f eq_refl) Hp Hat1 Ht) as (x & k2 & Er & [Ha2 Hc2] & _ & _).
  destruct (keeps_poll A Al f pid tid Hp _ _ _ _ Hk1 Er) as [_ [g2 Hk2]]. rewrite (bind_run _ _ _ _ _ Er).
  destruct (Hc2 pid p1 Hat1) as (p2 & Hat2 & Hf2 & Hr2). change (arch k1) with (arch k) in Ha2. destruct x as [[x|e]|].
  - destruct (result_run _ _ k2 g2 pid p2 tid x Hk2 Hp Hat2) as (a' & Es & _ & _). rewrite (bind_run _ _ _ _ _ Es).
    destruct (keeps_set_thread_result A Al pid tid x Hp _ _ _ _ Hk2 Es) as [_ [g3 Hk3]]. intros Hd.
    rewrite (dispatch_contexts cp ct pid p2 tid _ k' g3 r q n Hk3 Hp Hat2 Hd), <- Ha2. by apply (set_result_others pid p2 tid x k2 _ g2 (Ok tt)).
  - intros [= _ <-]. by rewrite Ha2.
  - destruct (inv_process _ _ _ _ _ _ Hk2 Hp Hat2) as [Hpi2 _].
    destruct (repark_run _ g2 tid f (suspension_mask f) Hpi2 (Hfo f eq_refl) Ht) as (s' & Es & _); [by apply Hr2|].
    pose proof (on_process_run _ _ _ _ _ _ _ _ _ Hk2 Hp Hat2 Es) as Ep2.
    rewrite (bind_run _ _ k2 tt (put_process pid s' k2)) by (unfold unwrap; by rewrite (bind_run _ _ _ _ _ Ep2)).
    assert (Hk3 : exists g3, inv (put_process pid s' k2) g3).
    { eapply (keeps_on_process A Al pid _ (fun _ => True) Hp); [|exact Hk2|exact Ep2].
      eapply ps_bind; [apply ps_set_future; [apply Ht|by apply Hfo]|]. intros _ _. apply ps_set_thread_state, Ht. }
    destruct Hk3 as [g3 Hk3]. intros Hrun. rewrite (IH _ g3 Hk3); [cbn; by rewrite Ha2| |exact Hrun]. clear IH Hrun.
    split; [done|]. split; [done|]. destruct (decide (q = pid)) as [->|Hqp].
    + exists (ps_proc s'). split; [apply put_process_here; by rewrite Hat2|]. assert (n <> tid) by (intros ->; by apply Hne).
      rewrite Hat in Hp0. injection Hp0 as <-. apply run_bind in Es as (u & s1 & E1 & E2). apply set_thread_state_futures in E2. unfold set_kernel_future in E1.
      destruct (tid <? NUM_THREADS)%nat; [|injection E1 as <- <-]; [injection E1 as <- <-|].
      all: unfold kernel_future in *; rewrite E2; cbn [ps_proc set_futures kernel_futures].
      all: rewrite ?list_lookup_insert_ne, Hf2 by done; unfold p1; cbn [kernel_futures set_futures].
      all: by rewrite list_lookup_insert_ne by done.
    + assert (Hq1 : process_at k1 q = Some p0) by (rewrite <- Hp0; by apply put_process_other).
      destruct (Hc2 q p0 Hq1) as (p0' & Hp0' & Hff & _). exists p0'. rewrite (put_process_other k2 pid s' q) by done. split; [done|].
      unfold kernel_future. by rewrite Hff.
Qed.

Lemma allocated_thread a q n : allocated_in a q n <-> exists t, thread_of a q n = Some t /\ allocated t = true.
Proof.
  unfold allocated_in, thread_of. split.
  - intros (pi & t & -> & Ht & Ha). by exists t.
  - intros (t & Ht & Ha). destruct (process_table a !! table_index q) as [[pi|]|]; [|done..]. by exists pi, t.
Qed.

(** When the head of the best queue waits for nothing, it is the thread chosen,
    and the queues stay as they are. *)
Lemma activate_picks (k : K) g q n pq : inv k g -> rq_in_irq (sched k) = false ->
  rq_head (sched k) = Some (Some (q, Z.of_nat n), sched k) -> process_at k q = Some pq -> kernel_future pq n = None ->
  allocated_in (arch k) q n ->
  exists k', activate_current k = Some (Ok R_ResumeProcess, k') /\ sched k' = sched k /\ cur_pid (arch k') = q /\ tid_of (arch k') q = n.
Proof.
  intros Hk Hirq Hh Hat Hf Hal. unfold activate_current. rewrite (bind_run _ _ k false k) by (unfold gets; by rewrite Hirq).
  rewrite (bind_run _ _ k (cur_pid (arch k)) k eq_refl).
  rewrite (bind_run _ _ k (tid_of (arch k) (cur_pid (arch k))) k) by (unfold on_arch, lift, current_tid, gets; by destruct k).
  change ACTIVATE_FUEL with (Datatypes.S (64 * 32)). cbn [activate_loop].
  destruct (head_run _ _ k g Hk) as (o & Eh & Ho). rewrite (bind_run _ _ _ _ _ Eh).
  assert (o = Some (q, Z.of_nat n)) as -> by (revert Eh; unfold on_scheduler, lift; rewrite Hh; by intros [= <- _]).
  destruct Ho as (Hp & n' & pq' & Hn & Hv & Hat' & Hst). apply Nat2Z.inj in Hn as <-. rewrite Hat in Hat'. injection Hat' as <-. rewrite Nat2Z.id.
  destruct (inv_process _ _ _ _ _ _ Hk Hp Hat) as [Hpi _].
  destruct (take_future_run _ g n (pv_inv _ _ Hpi) Hv) as (f & Hfl & Ef). cbn [ps_proc ps_sched] in Ef, Hfl.
  assert (f = None) as -> by (unfold kernel_future in Hf; by rewrite Hfl in Hf).
  pose proof (on_process_run _ _ _ _ _ _ _ _ _ Hk Hp Hat Ef) as Ep.
  destruct (keeps_on_process A Al q _ _ Hp (ps_take_future n) _ _ _ _ Hk Ep) as [_ [g1 Hk1]].
  set (p1 := set_futures _ pq) in *. set (k1 := put_process _ _ k) in *.
  rewrite (bind_run _ _ k None k1) by (unfold unwrap; by rewrite (bind_run _ _ _ _ _ Ep)).
  assert (Hat1 : process_at k1 q = Some p1) by (apply put_process_here; by rewrite Hat).
  unfold dispatch. destruct (_ && _) eqn:E.
  { apply andb_true_iff in E as [Eq%Z.eqb_eq En%Nat.eqb_eq]. exists k1. split; [done|]. split; [done|]. split; [by rewrite Eq|by rewrite Eq, En]. }
  pose proof (activate_run _ _ _ _ _ _ Hk1 Hp Hat1) as Ea.
  destruct (keeps_activate A Al q Hp k1 g1 _ _ Hk1 Ea) as [_ [g2 Hk2]]. set (k2 := set_arch _ k1) in *.
  rewrite (bind_run _ _ k1 tt k2) by (unfold unwrap; by rewrite (bind_run _ _ _ _ _ Ea)). rewrite (bind_run _ _ k2 q k2 eq_refl).
  destruct (process_bound _ _ _ _ _ _ Hk Hp Hat) as [Hb _].
  destruct (arch_set_tid_run (arch k2) q n (ki_arch _ _ _ _ Hk2) Hb Hv) as (r & a' & Er & Hc & Hsel).
  rewrite (bind_run _ _ k2 r (set_arch a' k2)) by (unfold on_arch, lift; by rewrite Er).
  eexists. split; [reflexivity|]. split; [done|]. split; [done|]. apply Hsel, allocated_thread.
  rewrite (set_tid_contexts _ _ _ _ _ q n Er). by apply allocated_thread.
Qed.

(** The thread is rotated to the end of its queue and the head of the best queue
    goes on. *)
Lemma preempt_run (k : K) g pid p tid pr : inv k g -> 1 <= pid -> cur_pid (arch k) = pid -> process_at k pid = Some p -> valid_tid tid ->
  thread_priorities p !! tid = Some pr -> rq_in_irq (sched k) = false ->
  exists k', preempt pid tid k = Some (tt, k') /\
    (forall q n, undisturbed k q n -> thread_of (arch k') q n = thread_of (arch k) q n) /\
    (forall s' q n pq, rq_yield pid (Z.of_nat tid) pr (sched k) = Some (tt, s') -> rq_head s' = Some (Some (q, Z.of_nat n), s') ->
       process_at k q = Some pq -> kernel_future pq n = None -> allocated_in (arch k) q n ->
       sched k' = s' /\ cur_pid (arch k') = q /\ tid_of (arch k') q = n).
Proof.
  intros Hk Hp Hc Hat Ht Hpr Hirq. destruct (process_bound _ _ _ _ _ _ Hk Hp Hat) as [Hb _]. unfold preempt.
  assert (Hsame : put_process pid (mkPS p (sched k)) k = k).
  { unfold put_process. cbn. rewrite list_insert_id by (by apply process_at_lookup). by destruct k. }
  assert (E1 : on_current (thread_priority tid) k = Some (pr, k)).
  { unfold on_current, bind at 1, current_pid, gets. rewrite Hc. unfold unwrap.
    rewrite (bind_run _ _ k (Ok pr) k); [done|]. rewrite <- Hsame at 2. eapply on_process_run; [done..|].
    unfold thread_priority, bind, gets. cbn in Hpr |- *. by rewrite Hpr. }
  rewrite (bind_run _ _ _ _ _ E1).
  destruct (rq_yield_spec (sched k) g pid (Z.of_nat tid) pr (ki_rel _ _ _ _ Hk)) as (s' & g' & Ey & _); [by apply tid_index_ok|].
  assert (E2 : on_scheduler (rq_yield pid (Z.of_nat tid) pr) k = Some (tt, set_sched s' k)) by (unfold on_scheduler, lift; by rewrite Ey).
  rewrite (bind_run _ _ _ _ _ E2). destruct (keeps_yield_op A Al tid Ht pid pr Hb _ _ _ _ Hk E2) as [_ [g2 Hk2]].
  pose proof (rq_yield_irq _ _ _ _ _ Ey) as Hirq2. rewrite Hirq in Hirq2.
  destruct (activate_current_run A Al (set_sched s' k) g2 Hk2 Hirq2) as (r & k' & Ea & Ho). rewrite (bind_run _ _ _ _ _ Ea). exists k'.
  split; [done|]. split.
  2: { intros s1 q n pq Ey1 Hh Hq Hf Hal. rewrite Ey in Ey1. injection Ey1 as <-.
       destruct (activate_picks (set_sched s' k) g2 q n pq Hk2 Hirq2 Hh Hq Hf Hal) as (k1 & Ea1 & Hres). rewrite Ea in Ea1.
       by injection Ea1 as _ <-. }
  intros q n Hu. revert Ea. unfold activate_current.
  rewrite (bind_run _ _ (set_sched s' k) false (set_sched s' k)) by (unfold gets; by cbn; rewrite Hirq2).
  intros (cp & k2 & [= <- <-] & H)%run_bind. apply run_bind in H as (ct & k3 & E3 & H). revert E3. unfold on_arch, lift, current_tid, gets.
  intros [= <- <-]. exact (activate_loop_contexts _ _ _ _ k' g2 r q n Hk2 Hu H).
Qed.

(** The registers of the current thread are loaded. *)
Lemma load_run (k : K) g f : inv k g -> exists f', load_current f k = Some (f', k) /\
  forall t, thread_of (arch k) (cur_pid (arch k)) (tid_of (arch k) (cur_pid (arch k))) = Some t -> f' = frame_of t.
Proof.
  intros Hk. destruct (current_alive _ _ _ _ Hk) as [Hc [p Hp]]. destruct (process_bound _ _ _ _ _ _ Hk Hc Hp) as [Hb _].
  pose proof (ki_arch _ _ _ _ Hk) as Ha. pose proof (current_tid_valid _ (cur_pid (arch k)) Ha) as Hv. unfold load_current.
  rewrite (bind_run _ _ k (cur_pid (arch k)) k eq_refl). rewrite (bind_run _ _ k (tid_of (arch k) (cur_pid (arch k))) k) by (unfold on_arch, lift, current_tid, gets; by destruct k).
  assert (Hset : set_arch (arch k) k = k) by by destruct k.
  destruct (lookup_lt_is_Some_2 (process_table (arch k)) (table_index (cur_pid (arch k)))) as [o Ho].
  { rewrite (aw_len _ Ha). unfold table_index, PROCESS_SLOTS, MAX_PROCESS_COUNT in *. lia. }
  unfold on_arch, lift, load_context_from_table, table_get, bind, gets. rewrite Ho. cbn [expect ret]. destruct o as [pi|].
  - destruct (aw_impl _ Ha _ _ Ho) as (Hl & _ & _).
    destruct (lookup_lt_is_Some_2 (impl_threads pi) (tid_of (arch k) (cur_pid (arch k)) - 1)) as [t Ht]; [unfold valid_tid, NUM_THREADS, THREAD_SLOTS in *; lia|].
    unfold expect, ret. rewrite Ht, Hset. eexists. split; [done|]. intros t'. unfold thread_of. rewrite Ho, Ht. by intros [= <-].
  - unfold ret. rewrite Hset. eexists. split; [done|]. intros t'. unfold thread_of. by rewrite Ho.
Qed.

(** The registers of the interrupted thread are saved. *)
Lemma save_run (k : K) g f t pid tid : inv k g -> pid = cur_pid (arch k) -> tid = tid_of (arch k) pid -> length (f_gpr f) = 31%nat -> thread_of (arch k) pid tid = Some t ->
  exists a', save_current f k = Some ((pid, tid), set_arch a' k) /\ thread_of a' pid tid = Some (restore_frame f t) /\ others_kept pid tid (arch k) a' /\
    (forall q, tid_of a' q = tid_of (arch k) q).
Proof.
  intros Hk -> -> Hf Ht. destruct (current_alive _ _ _ _ Hk) as [Hc _]. pose proof (ki_arch _ _ _ _ Hk) as Ha.
  pose proof (current_tid_valid _ (cur_pid (arch k)) Ha) as Hv. set (pid := cur_pid (arch k)) in *. set (tid := tid_of (arch k) pid) in *.
  assert (Hs : slot_ok tid) by (unfold slot_ok, valid_tid, NUM_THREADS, THREAD_SLOTS in *; lia).
  assert (Hpr : exists pi, process_of (arch k) pid = Some pi).
  { unfold thread_of, process_of in *. destruct (process_table (arch k) !! table_index pid) as [[pi|]|]; [by exists pi|done..]. }
  destruct Hpr as [pi Hpi]. rewrite (thread_of_process _ _ _ _ Hpi) in Ht. exists (written (arch k) pid pi tid (restore_frame f t)). split_and!.
  - unfold save_current. rewrite (bind_run _ _ k pid k eq_refl). rewrite (bind_run _ _ k tid k) by (unfold on_arch, lift, current_tid, gets; by destruct k).
    erewrite bind_run; [reflexivity|]. unfold on_arch, lift, save_context_to_table, bind. by rewrite (table_get_run _ _ _ Hpi), Ht.
  - by apply written_here.
  - by apply written_others.
  - intros q. unfold tid_of, written. cbn. rewrite list_lookup_insert. case_decide as Hd; [|done]. destruct Hd as [<- _].
    apply process_of_lookup in Hpi. by rewrite Hpi.
Qed.

End Contexts.

End Keep.

(** C2. From boot on, in runs in which the pages populated for server queues hold
    zeros and stay mapped, which the code does not ensure: whatever registers programs enter the kernel with, by system
    calls, faults and device interrupts in any order, including the interrupts that
    wake an idle machine: after every entry that returns, the ready queues hold
    exactly the ready threads of live processes, the current process is alive and
    its current thread number is valid, servers and the clients they owe answers are
    alive, and the drivers are in order as long as the clock has not used up its
    counter. *)
Theorem exception_invariant {P : Platform} {S G : Type} {RQ : ReadyQueues S G} {B : Type} {HB : Board B} {rounds : nat} {HL : BoardLaws B rounds}
    (q : S) (g0 : G) (m : MemoryMapping) (mem : Sys) (b : B) (md0 : Mode) :
  rq_rel q g0 -> (forall pr t, ~ rq_in g0 pr t) -> board_live b ->
  exists k0, init_pid1 m (kernel_init q mem) = Some (tt, k0) /\
  forall k1 mc md, rtc kernel_step k0 k1 -> rtc (entry_step (rounds := rounds)) (mkMachine k1 b, md0) (mc, md) ->
    let k := mc_kernel mc in
    (exists g, rq_rel (sched k) g /\ forall pr pid tid, rq_in g pr (pid, tid) <-> is_ready k pr pid tid) /\
    alive k (cur_pid (arch k)) /\ valid_tid (tid_of (arch k) (cur_pid (arch k))) /\
    (forall i s, servers k !! i = Some (Some s) ->
       alive k (srv_pid s) /\ (exists idxs, server_inv s idxs) /\
       forall j e pid tid, queue s !! j = Some e -> entry_client e = Some (pid, tid) -> alive k pid /\ 1 <= tid) /\
    board_live (mc_board mc).
Proof.
  intros Hq Hno Hb. destruct (init_pid1_ok q g0 m mem Hq Hno) as (k0 & E & Hk0). exists k0. split; [done|]. intros k1 mc md Hs Hes k.
  pose proof (kernel_steps_keep k0 k1 Hs Hk0) as Hk1.
  destruct (entry_steps_ok _ _ Hes (conj Hk1 Hb)) as [[g Hk] Hb']. cbn [fst] in Hk, Hb'. fold k in Hk. split_and!.
  - exists g. split; [exact (ki_rel _ _ _ _ Hk)|]. intros pr pid tid. exact (kernel_ok_ready k g Hk pr pid tid).
  - exact (ki_current _ _ _ _ Hk).
  - apply current_tid_valid, (ki_arch _ _ _ _ Hk).
  - intros i s Hsrv. destruct (ki_server _ _ _ _ Hk i s Hsrv) as [Ho Hi Hc _]. by split_and!.
  - exact Hb'.
Qed.

(** A time slice ends: when a timer interrupt comes while a thread runs, its
    registers are saved exactly, the timer arm runs, the thread is rotated to the
    end of its queue, and the machine continues with the registers of the current
    thread, which is the head of the best queue when that waits for nothing.  No
    thread that does not wait for a kernel future has its registers changed. *)
Lemma timer_irq_preempts {P : Platform} {S G : Type} {RQ : ReadyQueues S G} {B : Type} {HB : Board B} {rounds : nat} {HL : BoardLaws B rounds}
    (m : Machine S B) (f : Frame) (t : Thread) (b : B) pid tid p pr :
  machine_ok m -> (1 < ticks_left (mc_board m))%nat -> rq_in_irq (sched (mc_kernel m)) = false -> length (f_gpr f) = 31%nat ->
  pid = cur_pid (arch (mc_kernel m)) -> tid = tid_of (arch (mc_kernel m)) pid ->
  thread_of (arch (mc_kernel m)) pid tid = Some t ->
  process_at (mc_kernel m) pid = Some p -> kernel_future p tid = None -> thread_priorities p !! tid = Some pr ->
  ack_irq (mc_board m) = Some (TIMER_IRQ, b) ->
  exists f' m', user_irq rounds f m = Some (f', m') /\ machine_ok m' /\
    let a' := arch (mc_kernel m') in
    thread_of a' pid tid = Some (restore_frame f t) /\
    (forall q n, undisturbed (mc_kernel m) q n -> (q, n) <> (pid, tid) -> thread_of a' q n = thread_of (arch (mc_kernel m)) q n) /\
    (forall t', thread_of a' (cur_pid a') (tid_of a' (cur_pid a')) = Some t' -> f' = frame_of t') /\
    (forall s' q n, rq_yield pid (Z.of_nat tid) pr (sched (mc_kernel m)) = Some (tt, s') -> rq_head s' = Some (Some (q, Z.of_nat n), s') ->
       undisturbed (mc_kernel m) q n -> allocated_in (arch (mc_kernel m)) q n ->
       sched (mc_kernel m') = s' /\ cur_pid a' = q /\ tid_of a' q = n).
Proof.
  intros Hm Htk Hirq Hf Ec Et Ht Hat Hfu Hpr Eack. pose proof Hm as [[g Hk] Hlive]. assert (Hb : board_ok (mc_board m)) by (apply Hlive; lia). set (k := mc_kernel m) in *.
  destruct (save_run _ _ k g f t pid tid Hk Ec Et Hf Ht) as (a1 & E1 & Hth1 & Ho1 & Htid1).
  destruct (save_holds f Hf k _ _ (ex_intro _ g Hk) E1) as [_ Hok1]. pose proof Hok1 as [g1 Hk1].
  assert (Hp : 1 <= pid) by (rewrite Ec; apply (current_alive _ _ _ _ Hk)).
  destruct (timer_irq_run (mkMachine (set_arch a1 k) (mc_board m)) b Hb Htk Eack) as (b' & E2 & Hb').
  assert (Hc1 : cur_pid (arch (set_arch a1 k)) = pid) by (cbn; rewrite (proj1 Ho1); done).
  assert (Hvt : valid_tid tid) by (rewrite Et; apply current_tid_valid, (ki_arch _ _ _ _ Hk)).
  destruct (preempt_run _ _ (set_arch a1 k) g1 pid p tid pr Hk1 Hp Hc1 Hat Hvt Hpr Hirq) as (k' & E3 & Hctx & Hpick).
  assert (Hk' : kernel_ok k').
  { destruct (process_bound _ _ _ _ _ _ Hk Hp Hat) as [Hbd _]. by destruct (preempt_holds pid tid Hbd Hvt _ _ _ Hok1 E3). }
  pose proof Hk' as [g' Hk'']. destruct (load_run _ _ k' g' f Hk'') as (f' & E4 & Hload).
  assert (Erun : user_irq rounds f m = Some (f', mkMachine k' b')).
  { unfold user_irq. rewrite (bind_run _ _ _ _ _ (on_kernel_run _ _ _ _ E1)). cbv beta iota. rewrite (bind_run _ _ _ _ _ E2).
    rewrite (bind_run _ _ _ _ _ (on_kernel_run _ (mkMachine (set_arch a1 k) b') _ _ E3)). exact (on_kernel_run _ (mkMachine k' b') _ _ E4). }
  assert (Hn : (1 <= tid)%nat) by apply Hvt.
  exists f', (mkMachine k' b'). split; [done|]. split; [split; [exact Hk'|intros _; exact Hb']|]. cbv zeta. cbn [mc_kernel]. split_and!.
  - rewrite Hctx; [done|]. split; [done|]. split; [done|]. by exists p.
  - intros q n (Hq & Hqn & pq & Hpq & Hfq) Hne. rewrite Hctx by (split; [done|]; split; [done|]; by exists pq). by apply (proj2 Ho1).
  - exact Hload.
  - intros s' q n Hy Hh (Hq & Hqn & pq & Hpq & Hfq) Hal. apply (Hpick s' q n pq Hy Hh Hpq Hfq). apply allocated_thread.
    apply allocated_thread in Hal as (tq & Htq & Hal). destruct (decide ((q, n) = (pid, tid))) as [[= -> ->]|Hne].
    + exists (restore_frame f t). split; [done|]. rewrite Ht in Htq. by injection Htq as <-.
    + exists tq. split; [|done]. cbn. by rewrite (proj2 Ho1).
Qed.

(** ** A board that only raises interrupts *)

#[global] Instance list_board : Board (list Z) := {|
  ack_irq := fun l => match l with [] => Some (IRQ_SPURIOUS, []) | i :: l => Some (i, l) end;
  eoi := fun _ => ret tt; timer_tick := ret tt; uart_getc := ret None; uart_clear := ret tt; blk_irq := fun _ => None; blk_handler := ret tt;
  net_irq := fun _ => None; net_handler := ret tt; key_irq := fun _ => None; key_ack := ret tt; key_char := ret None |}.

#[global] Program Instance list_board_laws : BoardLaws (list Z) 1 :=
  {| ticks_left := fun _ => 2%nat; board_ok := fun _ => True; uart_backlog := fun _ => 0%nat; key_backlog := fun _ => 0%nat |}.
Next Obligation. intros b _. split; lia. Qed.
Next Obligation. intros b. split; [intros; lia|]. intros _ _. destruct b; cbn; eauto 8. Qed.
Next Obligation. intros b. split; [intros; lia|]. intros _ _. by exists tt, b. Qed.
Next Obligation.
  intros op Ho b. split; [intros; lia|]. intros _ _. exists tt, b. split; [|done]. destruct Ho as [Ho|[irq ->]]; [|done]. cbn in Ho. set_unfold in Ho. naive_solver.
Qed.
Next Obligation. intros b. split; [intros; lia|]. intros _ _. exists None, b. split_and!; [done|done|]. by intros [? ?]. Qed.
Next Obligation. intros b. split; [intros; lia|]. intros _ _. exists None, b. split_and!; [done|done|]. by intros [? ?]. Qed.

(** The first process is interrupted by the timer, and asks for its number. *)
Definition demo_user : Frame := mkFrame (<[0%nat := 30]> (replicate 31 7)) 4096 65536 0 0 0 0 0 (replicate 64 9).
Definition boot_machine : Machine Scheduler (list Z) := mkMachine boot_kernel [TIMER_IRQ].

Lemma boot_machine_ok : machine_ok (rounds := 1) boot_machine.
Proof. split; [exact boot_ok|done]. Qed.

Lemma exception_invariant_witness :
  exists f' m', user_irq (RQ := scheduler_queues) 1 demo_user boot_machine = Some (f', m') /\ alive (mc_kernel m') (cur_pid (arch (mc_kernel m'))).
Proof.
  destruct (user_irq (RQ := scheduler_queues) 1 demo_user boot_machine) as [[f' m']|] eqn:E; [|by vm_compute in E].
  exists f', m'. split; [done|].
  destruct (exception_invariant (RQ := scheduler_queues) (HL := list_board_laws) scheduler_init a_init no_mapping (mkSys vm0 ∅) [TIMER_IRQ] (User demo_user)
    refines_init init_empty (fun _ => I)) as (k0 & E0 & H).
  rewrite demo_boot in E0. injection E0 as E0. apply (H boot_kernel m' (User f')); [rewrite E0; apply rtc_refl|].
  apply rtc_once. apply es_irq; [|exact E]. split; [reflexivity|]. cbn. repeat (apply Forall_cons; split; [reflexivity|]). by apply Forall_nil.
Defined.
