(* ===== verification/Machine.v ===== *)
(** * The QEMU board: the drivers behind the interrupt handler

    The instance of [Entry.Board] on QEMU: the arms of [handle_irq] in
    [xous/kernel/src/arch/aarch64/irq.rs] with the models of the timer ([Gic]), the
    network ([Net], [NetDev]), the disk ([Blk]), the keyboard ([Input]) and the
    serial line ([Uart]).  The drivers share no state, so each keeps its own view
    of memory and of the registers of its device.

    The acknowledge and end-of-interrupt registers of the CPU interface are system
    registers: the interrupts the controller reports are the list [q_irqs], and
    1023 (none) when it is used up. *)

From S2P Require Import Prelude Abi SysCall Scheduler Server Memory PageTable MemMap Process ArchProcess Display Services Handler KernelInv Dispatch Virtio Gic Blk Net NetDev Input Uart Entry.
From Stdlib Require Import ZArith Lia Bool.
From stdpp Require Import list.
Open Scope Z_scope.

(** [op] on a part of a state. *)
Definition on_part {S X Y} (get : S -> X) (set : X -> S -> S) (op : M X Y) : M S Y :=
  fun s => match op (get s) with Some (y, x) => Some (y, set x s) | None => None end.

Section Qemu.
Context {Dn Db Dk : Type}.
Variable serve_net : Dn -> Bus -> Virtqueue -> Virtqueue -> bmem -> Dn * VirtqUsed * VirtqUsed * bmem.
Variable serve_key : Dk -> Bus -> Virtqueue -> bmem -> Dk * VirtqUsed * bmem.
Variable answer : Bus -> Z -> Z.
Variables rx_bufs tx_buf event_bufs uart_base : Z.
Variable rounds : nat.

Record Qemu := mkQemu {
  q_irqs : list Z;
  q_timer : Timer;
  q_net : NS (ND Dn);
  q_blk : BS Db;
  q_kb : KB Dk;
  q_uart : Bus }.

Definition set_irqs (x : list Z) (b : Qemu) : Qemu := mkQemu x (q_timer b) (q_net b) (q_blk b) (q_kb b) (q_uart b).
Definition set_timer (x : Timer) (b : Qemu) : Qemu := mkQemu (q_irqs b) x (q_net b) (q_blk b) (q_kb b) (q_uart b).
Definition set_net (x : NS (ND Dn)) (b : Qemu) : Qemu := mkQemu (q_irqs b) (q_timer b) x (q_blk b) (q_kb b) (q_uart b).
Definition set_blk (x : BS Db) (b : Qemu) : Qemu := mkQemu (q_irqs b) (q_timer b) (q_net b) x (q_kb b) (q_uart b).
Definition set_kb (x : KB Dk) (b : Qemu) : Qemu := mkQemu (q_irqs b) (q_timer b) (q_net b) (q_blk b) x (q_uart b).
Definition set_uart (x : Bus) (b : Qemu) : Qemu := mkQemu (q_irqs b) (q_timer b) (q_net b) (q_blk b) (q_kb b) x.

Definition next_irq : M (list Z) Z := fun l => match l with [] => Some (IRQ_SPURIOUS, []) | i :: l => Some (i, l) end.

(** [timer::handle_tick(); net_stack::tick(count)] *)
Definition timer_arm : M Qemu unit :=
  count <- on_part q_timer set_timer handle_tick ;;
  on_part q_net set_net (@tick (ND Dn) (net_driver serve_net rx_bufs tx_buf rounds) rounds count).

#[local] Instance qemu_board : Board Qemu := {|
  ack_irq := on_part q_irqs set_irqs next_irq;
  eoi := fun _ => ret tt;
  timer_tick := timer_arm;
  uart_getc := on_part q_uart set_uart (try_getc answer uart_base);
  uart_clear := on_part q_uart set_uart (clear_rx_interrupt uart_base);
  blk_irq := fun b => bd_irq <$> bs_dev (q_blk b);
  blk_handler := on_part q_blk set_blk (Blk.handle_irq answer);
  net_irq := fun b => net_irq_number (ns_dev (q_net b));
  net_handler := on_part q_net set_net (on_dev (net_handle_irq answer));
  key_irq := fun b => input_irq_number (q_kb b);
  key_ack := on_part q_kb set_kb (input_ack_irq answer);
  key_char := on_part q_kb set_kb (get_char serve_key event_bufs rounds) |}.

(** ** The board keeps its promises *)

Context {HN : VirtioNetDevice Dn serve_net} {HE : EthernetFrames Dn serve_net} {HK : VirtioInputDevice Dk serve_key} {HU : Pl011 answer uart_base}.
Hypothesis Hbase : 0 < uart_base /\ uart_base + 4096 <= 2 ^ 64.
Hypothesis Hbufs : KERNEL_VA_OFFSET <= event_bufs /\ event_bufs + INPUT_QUEUE_SIZE * EVENT_SIZE <= 2 ^ 64.
Hypothesis Hrounds : (16 < rounds)%nat.

(** Ticks before the retry time of DHCP leaves 64 bits. *)
Definition q_ticks_left (b : Qemu) : nat := Z.to_nat (2 ^ 64 - 1 - DHCP_RETRY_TICKS - tick_count (q_timer b)).

(** Key events that wait in the queue or in the device. *)
Definition keys_waiting (s : KB Dk) : nat :=
  match kb_dev s with None => 0%nat | Some dev => (used_count (id_eventq dev) + length (hw_events (kb_hw s)))%nat end.

Record qemu_ok (b : Qemu) : Prop := {
  qo_clock : 0 <= tick_count (q_timer b);
  qo_net : net_ok (ns_st (q_net b)) /\ ready rounds (ns_dev (q_net b));
  qo_blk : forall dev, bs_dev (q_blk b) = Some dev -> bd_base_va dev + TRANSPORT_SIZE <= 2 ^ 64;
  qo_kb : kb_dev (q_kb b) = None \/ exists sh evs, kb_rep event_bufs (q_kb b) sh evs;
  qo_keys : (keys_waiting (q_kb b) < rounds)%nat;
  qo_uart : (length (rx (q_uart b)) < rounds)%nat }.

Lemma set_irqs_ok x b : qemu_ok b -> qemu_ok (set_irqs x b).
Proof. intros []. by split. Qed.

Lemma keys_waiting_rep s sh evs : kb_rep event_bufs s sh evs -> keys_waiting s = length evs.
Proof.
  intros (dev & o & devs & Hk & _ & ->). unfold keys_waiting. rewrite (kv_dev _ _ _ _ _ Hk), (used_count_done _ _ (kv_proto _ _ _ _ _ Hk)), length_app.
  by rewrite (Forall2_length _ _ _ (kv_done _ _ _ _ _ Hk)).
Qed.

Lemma ack_interrupt_run base h : base + TRANSPORT_SIZE <= 2 ^ 64 -> exists v h', ack_interrupt answer base h = Some (v, h').
Proof.
  intros Hb. unfold TRANSPORT_SIZE in Hb. unfold ack_interrupt. rewrite (bind_run _ _ _ _ _ (read_reg_run answer base INTERRUPT_STATUS h ltac:(unfold INTERRUPT_STATUS; lia))).
  case_match; [|by eexists _, _]. unfold bind at 1. rewrite write_reg_run by (unfold INTERRUPT_ACK; lia). by eexists _, _.
Qed.

(** An operation of one driver. *)
Lemma part_run {X Y} (get : Qemu -> X) set (op : M X Y) b y x : op (get b) = Some (y, x) -> on_part get set op b = Some (y, set x b).
Proof. unfold on_part. by intros ->. Qed.

Lemma part_served {X Y} (get : Qemu -> X) set (op : M X Y) (R : Qemu -> Y -> Qemu -> Prop) :
  (forall x b, q_timer (set x b) = q_timer b) ->
  (forall b, qemu_ok b -> exists y x, op (get b) = Some (y, x) /\ qemu_ok (set x b) /\ R b y (set x b)) ->
  served q_ticks_left qemu_ok 0 (on_part get set op) R.
Proof.
  intros Ht Hop b. split.
  - intros y b'. unfold on_part. destruct (op (get b)) as [[z x]|]; [|done]. intros [= <- <-]. unfold q_ticks_left. rewrite Ht. lia.
  - intros _ Hb. destruct (Hop b Hb) as (y & x & E & H1 & H2). exists y, (set x b). by rewrite (part_run _ _ _ _ _ _ E).
Qed.

Lemma timer_served : served q_ticks_left qemu_ok 1 timer_arm (fun _ _ _ => True).
Proof.
  intros b. unfold q_ticks_left, DHCP_RETRY_TICKS. split.
  - unfold timer_arm. intros [] b' (n & b1 & E1 & E2)%run_bind. unfold on_part in E1, E2.
    destruct (handle_tick (q_timer b)) as [[c t]|] eqn:Et; [|done]. injection E1 as <- <-. case_match; [|done]. case_match. injection E2 as _ <-. cbn.
    unfold handle_tick, bind at 1, gets in Et. apply run_bind in Et as (v & t1 & Ea & Em).     unfold add64, add_w in Ea. case_match; [|done]. injection Ea as <- <-.
    injection Em as <- <-. cbn. lia.
  - intros Hl []. unfold timer_arm.
    assert (Et : handle_tick (q_timer b) = Some (tick_count (q_timer b) + 1,
      mkTimer (timer_freq (q_timer b)) (tick_interval (q_timer b)) (tick_count (q_timer b) + 1) (tick_interval (q_timer b)))).
    { unfold handle_tick, bind at 1, gets. unfold bind at 1. rewrite add64_run by lia. reflexivity. }
    rewrite (bind_run _ _ _ _ _ (part_run q_timer set_timer _ _ _ _ Et)).
    destruct (@tick_run (ND Dn) (net_driver serve_net rx_bufs tx_buf rounds) (net_laws rx_bufs tx_buf rounds) rounds (q_net b) (tick_count (q_timer b) + 1))
      as (s' & E & [H1 H2] & _); [exact qo_net0|lia|unfold DHCP_RETRY_TICKS; lia| |].
    { cbn. unfold pending. destruct qo_net0 as [_ Hn]. unfold ready in Hn. destruct (nd_dev _) as [dev|] eqn:Hd; [|lia].
      destruct Hn as (orx & otx & Hi & _ & _ & Hw & _). by rewrite (used_count_done _ _ (iv_rx _ _ _ _ Hi)). }
    eexists tt, _. split; [by apply (part_run q_net set_net)|]. split; [|done]. intros _. split; cbn; try done. lia.
Qed.

Lemma uart_getc_served : served q_ticks_left qemu_ok 0 uart_getc (fun b r b' => is_Some r -> (length (rx (q_uart b')) < length (rx (q_uart b)))%nat).
Proof.
  apply part_served; [done|]. intros b []. destruct (try_getc_exact answer uart_base Hbase (q_uart b)) as (r & h & E & Hr).
  exists r, h. split; [done|]. cbn. destruct r as [c|].
  - rewrite Hr in *. cbn in *. split; [split; try done; cbn; lia|]. cbn. lia.
  - split; [split; try done; cbn; by rewrite Hr|]. by intros [? ?].
Qed.

(** The keyboard driver consumes the events that lead to a character. *)
Lemma get_char_run s sh evs : kb_rep event_bufs s sh evs -> (length evs < rounds)%nat ->
  exists r s' sh' evs1 evs2, get_char serve_key event_bufs rounds s = Some (r, s') /\ kb_rep event_bufs s' sh' evs2 /\ evs = evs1 ++ evs2 /\
    typed sh evs1 = (option_list r, sh') /\ (is_Some r -> (length evs2 < length evs)%nat) /\
    (r = None -> evs2 = hw_events (kb_hw s')) /\ handed_over (serve := serve_key) s s'.
Proof.
  intros Hk Hr. destruct (char_loop_rep event_bufs Hbufs rounds s sh evs Hk Hr) as (r & s' & sh' & evs1 & evs2 & E & H).
  exists r, s', sh', evs1, evs2. split; [|done]. unfold get_char, bind at 1, gets. destruct Hk as (dev & o & devs & Hv & _).
  by rewrite (kv_dev _ _ _ _ _ Hv).
Qed.

Lemma with_kb_ok b s sh evs : qemu_ok b -> kb_rep event_bufs s sh evs -> (length evs < rounds)%nat -> qemu_ok (set_kb s b).
Proof. intros [] Hk Hl. split; try done; cbn; [right; by exists sh, evs|by rewrite (keys_waiting_rep _ _ _ Hk)]. Qed.

Lemma key_char_served : served q_ticks_left qemu_ok 0 key_char (fun b r b' => is_Some r -> (keys_waiting (q_kb b') < keys_waiting (q_kb b))%nat).
Proof.
  apply part_served; [done|]. intros b Hb. destruct (qo_kb _ Hb) as [Hn|(sh & evs & Hk)].
  - exists None, (q_kb b). split; [unfold get_char, bind, gets; by rewrite Hn|]. split; [by destruct b|by intros [? ?]].
  - pose proof (qo_keys _ Hb) as Hl. rewrite (keys_waiting_rep _ _ _ Hk) in *.
    destruct (get_char_run _ _ _ Hk Hl) as (r & s' & sh' & evs1 & evs2 & E & Hk' & -> & _ & Hlt & _ & _). exists r, s'. split; [done|].
    rewrite length_app in *. split; [eapply with_kb_ok; [done|done|lia]|]. intros Hr. cbn. rewrite (keys_waiting_rep _ _ _ Hk'). by apply Hlt.
Qed.

(** Acknowledging an interrupt only touches the registers of the device. *)
Lemma key_acked s : kb_dev s = None \/ (exists sh evs, kb_rep event_bufs s sh evs) ->
  exists h, input_ack_irq answer s = Some (tt, mkKB (kb_dev s) (kb_mem s) h (kb_hw s)).
Proof.
  unfold input_ack_irq, bind at 1, gets. intros [Hn|(sh & evs & dev & o & devs & Hk & _)]; [rewrite Hn; exists (kb_bus s); destruct s; cbn in *; by subst|].
  rewrite (kv_dev _ _ _ _ _ Hk). destruct (ack_interrupt_run _ (kb_bus s) (kv_base _ _ _ _ _ Hk)) as (v & h & E).
  erewrite bind_run by (unfold kb_regs, on_bus; rewrite E; reflexivity). exists h. cbn. by rewrite (kv_dev _ _ _ _ _ Hk).
Qed.
Lemma acked_rep s sh evs h : kb_rep event_bufs s sh evs -> kb_rep event_bufs (mkKB (kb_dev s) (kb_mem s) h (kb_hw s)) sh evs.
Proof. intros (dev & o & devs & [] & Hs). exists dev, o, devs. split; [by split|exact Hs]. Qed.

Lemma key_ack_served : served q_ticks_left qemu_ok 0 key_ack (fun _ _ _ => True).
Proof.
  apply part_served; [done|]. intros b []. destruct (key_acked _ qo_kb0) as (h & E). eexists tt, _. split; [exact E|]. split; [|done].
  split; try done. cbn. destruct qo_kb0 as [|(sh & evs & Hk)]; [by left|right]. exists sh, evs. by apply acked_rep.
Qed.

Lemma net_handler_served : served q_ticks_left qemu_ok 0 net_handler (fun _ _ _ => True).
Proof.
  apply part_served; [done|]. intros b Hb. pose proof Hb as []. unfold on_dev, net_handle_irq, bind at 1, gets. destruct qo_net0 as [Hst Hn]. unfold ready in Hn.
  destruct (nd_dev (ns_dev (q_net b))) as [dev|] eqn:Hd.
  - destruct Hn as (orx & otx & Hi & Hr). destruct (ack_interrupt_run _ (nd_bus (ns_dev (q_net b))) (iv_base _ _ _ _ Hi)) as (v & h & E).
    erewrite bind_run by (unfold nd_regs, on_bus; rewrite E; reflexivity). eexists tt, _. split; [reflexivity|]. split; [|done].
    split; try done. cbn. split; [done|]. unfold ready. cbn. rewrite Hd. exists orx, otx. split; [by destruct Hi|done].
  - eexists tt, _. split; [reflexivity|]. split; [|done]. split; try done. cbn. split; [done|]. unfold ready. by rewrite Hd.
Qed.

Lemma blk_handler_served : served q_ticks_left qemu_ok 0 blk_handler (fun _ _ _ => True).
Proof.
  apply part_served; [done|]. intros b Hb. pose proof Hb as []. unfold Blk.handle_irq, bind at 1, gets.
  destruct (bs_dev (q_blk b)) as [dev|] eqn:Hd.
  - destruct (ack_interrupt_run _ (bs_bus (q_blk b)) (qo_blk0 _ eq_refl)) as (v & h & E).
    erewrite bind_run by (unfold on_regs, on_bus; rewrite E; reflexivity). eexists tt, _. split; [reflexivity|]. split; [|done].
    split; try done. cbn. rewrite Hd. done.
  - exists tt, (q_blk b). split; [reflexivity|]. split; [|done]. by destruct b.
Qed.

#[local] Program Instance qemu_laws : BoardLaws Qemu rounds :=
  {| ticks_left := q_ticks_left; board_ok := qemu_ok; uart_backlog := fun b => length (rx (q_uart b)); key_backlog := fun b => keys_waiting (q_kb b) |}.
Next Obligation. intros b []. done. Qed.
Next Obligation. apply part_served; [done|]. intros b []. unfold next_irq. destruct (q_irqs b); eexists _, _; (split; [reflexivity|]); by split. Qed.
Next Obligation. exact timer_served. Qed.
Next Obligation.
  intros op [Hop|[irq ->]].
  - rewrite !elem_of_cons in Hop. destruct Hop as [->|[->|[->|[->|Hop]]]]; [|apply blk_handler_served|apply net_handler_served|apply key_ack_served|by apply not_elem_of_nil in Hop].
    apply part_served; [done|]. intros b []. eexists tt, _. split; [apply write_reg_run; unfold UART_ICR; lia|]. split; [|done]. split; try done. cbn. by rewrite rx_write.
  - intros b. split; [by intros [] b' [= <-]; lia|]. intros _ Hb. by exists tt, b.
Qed.
Next Obligation. exact uart_getc_served. Qed.
Next Obligation. exact key_char_served. Qed.

(** ** From the keys to the display *)

Context {P : Platform} {Sq Gq : Type} {RQ : ReadyQueues Sq Gq}.

Lemma typed_loop fuel (m : Machine Sq Qemu) sh evs : kb_rep event_bufs (q_kb (mc_board m)) sh evs -> (length evs < rounds)%nat -> (length evs < fuel)%nat ->
  display_ok (display_state (mc_kernel m)) -> input_sid (display_state (mc_kernel m)) = None ->
  exists d' s' sh' evs1 evs2 cs, input_loop fuel key_char m = Some (tt, mkMachine (set_display d' (mc_kernel m)) (set_kb s' (mc_board m))) /\
    kb_rep event_bufs s' sh' evs2 /\ evs = evs1 ++ evs2 /\ typed sh evs1 = (cs, sh') /\ display_ok d' /\
    Display.typed d' = foldl slide (Display.typed (display_state (mc_kernel m))) cs /\
    waiting d' = waiting (display_state (mc_kernel m)) /\ owner d' = owner (display_state (mc_kernel m)) /\
    evs2 = hw_events (kb_hw s') /\ handed_over (serve := serve_key) (q_kb (mc_board m)) s'.
Proof.
  revert m sh evs. induction fuel as [|fuel IH]; intros m sh evs Hk Hr Hf Hd Hn; [lia|]. cbn [input_loop].
  destruct (get_char_run _ _ _ Hk Hr) as (r & s1 & sh1 & evs1 & evs2 & E1 & Hk1 & -> & Ht & Hl & Hend & Hg).
  rewrite (bind_run _ _ _ _ _ (on_board_run (@key_char _ qemu_board) m _ _ (part_run q_kb set_kb _ _ _ _ E1))). rewrite length_app in *. destruct r as [c|].
  - destruct (push_input_char_run _ c Hd) as (d1 & E2 & Hd1 & Hw1 & Ho1 & Hs1 & Ht1). specialize (Hl ltac:(done)).
    set (m1 := mkMachine (set_display d1 (mc_kernel m)) (set_kb s1 (mc_board m))).
    assert (Ed : dispatch_input_char c (mc_kernel m) = Some (tt, set_display d1 (mc_kernel m))).
    { unfold dispatch_input_char, display_input_sid, bind at 1, gets. rewrite Hn. unfold push_display_input_char, on_display, lift. by rewrite E2. }
    rewrite (bind_run _ _ _ _ _ (on_kernel_run (dispatch_input_char c) (mkMachine (mc_kernel m) (set_kb s1 (mc_board m))) _ _ Ed)).
    destruct (IH m1 sh1 evs2) as (d2 & s2 & sh2 & evs3 & evs4 & cs & E3 & Hk2 & -> & Ht2 & Hd2 & Hd2' & Hw2 & Ho2 & Hend2 & Hg2); [done|lia|lia|done|by cbn; rewrite Hs1|].
    exists d2, s2, sh2, (evs1 ++ evs3), evs4, (c :: cs). split; [exact E3|]. split; [done|]. split; [by rewrite <- app_assoc|].
    split; [exact (typed_app _ _ _ _ _ _ _ Ht Ht2)|]. split; [done|]. split; [by rewrite Hd2'; cbn; rewrite Ht1|]. cbn in *. split; [congruence|]. split; [congruence|].
    split; [done|]. by eapply handed_over_trans.
  - exists (display_state (mc_kernel m)), s1, sh1, evs1, evs2, []. split; [destruct m as [[] ?]; reflexivity|]. by split_and!; auto.
Qed.

Lemma key_arm_run (m : Machine Sq Qemu) irq rest sh evs : let b := mc_board m in let d := display_state (mc_kernel m) in
  qemu_ok b -> q_irqs b = irq :: rest -> irq ∉ [IRQ_SPURIOUS; TIMER_IRQ; UART_IRQ] ->
  input_irq_number (q_kb b) = Some irq -> (bd_irq <$> bs_dev (q_blk b)) <> Some irq -> net_irq_number (ns_dev (q_net b)) <> Some irq ->
  kb_rep event_bufs (q_kb b) sh evs -> display_ok d -> input_sid d = None ->
  exists d' b' sh' evs1 evs2 cs, Entry.handle_irq rounds m = Some (false, mkMachine (set_display d' (mc_kernel m)) b') /\
    kb_rep event_bufs (q_kb b') sh' evs2 /\ evs = evs1 ++ evs2 /\ typed sh evs1 = (cs, sh') /\
    Display.typed d' = foldl slide (Display.typed d) cs /\ waiting d' = waiting d /\ owner d' = owner d /\ q_irqs b' = rest /\
    evs2 = hw_events (kb_hw (q_kb b')) /\ handed_over (serve := serve_key) (q_kb b) (q_kb b').
Proof.
  intros b d Hb Hirq Hne Hk Hnb Hnn Hrep Hd Hns. set_unfold in Hne. unfold Entry.handle_irq.
  assert (Ea : next_irq (q_irqs b) = Some (irq, rest)) by (unfold next_irq; by rewrite Hirq).
  rewrite (bind_run _ _ _ _ _ (on_board_run (@ack_irq _ qemu_board) m _ _ (part_run q_irqs set_irqs _ _ _ _ Ea))).
  assert (irq <> IRQ_SPURIOUS /\ irq <> TIMER_IRQ /\ irq <> UART_IRQ) as (H1 & H2 & H3) by tauto.
  rewrite (proj2 (Z.eqb_neq _ _) H1), (proj2 (Z.eqb_neq _ _) H2), (proj2 (Z.eqb_neq _ _) H3).
  unfold bind at 1, gets. cbn [mc_board mc_kernel]. rewrite bool_decide_eq_false_2, bool_decide_eq_false_2, bool_decide_eq_true_2 by done.
  destruct (key_acked _ (qo_kb _ Hb)) as (h & E1).
  pose proof (part_run q_kb set_kb _ (set_irqs rest b) _ _ E1) as E1'. pose proof (keys_waiting_rep _ _ _ Hrep) as Hw. pose proof (qo_keys _ Hb) as Hlt. rewrite Hw in Hlt.
  edestruct (typed_loop rounds (mkMachine (mc_kernel m) (set_kb (mkKB (kb_dev (q_kb b)) (kb_mem (q_kb b)) h (kb_hw (q_kb b))) (set_irqs rest b))) sh evs)
    as (d' & s' & sh' & evs1 & evs2 & cs & E2 & Hk2 & He & Ht & Hd' & Hty & Hwt & Ho & Hend & Hg); [by apply acked_rep|done|done|done|done|].
  eexists d', _, sh', evs1, evs2, cs. split.
  { erewrite bind_run; [|erewrite bind_run; [exact E2|]; exact (on_board_run (@key_ack _ qemu_board) (mkMachine (mc_kernel m) (set_irqs rest b)) _ _ E1')]. reflexivity. }
  by split_and!.
Qed.

End Qemu.

(** The scheduler's own view of its choice. *)
Lemma scheduler_head s a t : refines s a -> head (a_queue a (a_highest a)) = Some t -> rq_head (ReadyQueues := scheduler_queues) s = Some (Some t, s).
Proof.
  intros HR Hh. destruct (highest_head s a HR) as (h & Hq & Hcase). unfold rq_head, scheduler_queues, bind, gets. rewrite (queue_head_run _ h) by done.
  rewrite (rf_highest _ _ HR) in Hcase. destruct h as [u|]; [destruct Hcase as [Hu _]; congruence|]. exfalso.
  assert (Hin : t ∈ a_ready_threads a); [|rewrite Hcase in Hin; by apply elem_of_nil in Hin].
  unfold a_queue in Hh. destruct (a_queues a !! a_highest a) as [l|] eqn:E; [|done]. cbn in Hh. destruct l as [|x l]; [done|]. injection Hh as ->.
  apply elem_of_concat. exists (t :: l). split; [by eapply list_elem_of_lookup_2|by left].
Qed.


(** C19. On the QEMU board, with no program that holds the input focus: when the
    keyboard interrupts, the handler acknowledges it, reads every event the device
    has put into the used ring, in its order, and those it adds meanwhile, until the
    ring is empty; the characters they spell, with the shift state the earlier
    events left, are appended to the input ring of the display, whose oldest
    characters give way when it is full.  What is left are events the device still
    holds itself.  Nothing else of the kernel changes, and kernel and drivers stay
    in order. *)
Theorem keystrokes_reach_display {P : Platform} {Sq Gq Dn Db Dk : Type} {RQ : ReadyQueues Sq Gq}
    serve_net serve_key answer rx_bufs tx_buf event_bufs uart_base rounds
    {HN : VirtioNetDevice Dn serve_net} {HE : EthernetFrames Dn serve_net} {HK : VirtioInputDevice Dk serve_key} {HU : Pl011 answer uart_base}
    (Hbase : 0 < uart_base /\ uart_base + 4096 <= 2 ^ 64)
    (Hbufs : KERNEL_VA_OFFSET <= event_bufs /\ event_bufs + INPUT_QUEUE_SIZE * EVENT_SIZE <= 2 ^ 64)
    (Hrounds : (16 < rounds)%nat) (k : Kernel (S := Sq)) (b : Qemu (Dn := Dn) (Db := Db) (Dk := Dk)) irq rest sh evs :
  kernel_ok k -> qemu_ok serve_net serve_key answer event_bufs uart_base rounds b -> (0 < q_ticks_left b)%nat ->
  q_irqs b = irq :: rest -> irq ∉ [IRQ_SPURIOUS; TIMER_IRQ; UART_IRQ] ->
  input_irq_number (q_kb b) = Some irq -> (bd_irq <$> bs_dev (q_blk b)) <> Some irq -> net_irq_number (ns_dev (q_net b)) <> Some irq ->
  kb_rep event_bufs (q_kb b) sh evs -> input_sid (display_state k) = None ->
  exists d' b' sh' evs1 given cs,
    let evs2 := hw_events (kb_hw (q_kb b')) in
    Entry.handle_irq (HB := qemu_board serve_net serve_key answer rx_bufs tx_buf event_bufs uart_base rounds) rounds (mkMachine k b)
      = Some (false, mkMachine (set_display d' k) b') /\
    evs = evs1 ++ evs2 /\ hw_events (kb_hw (q_kb b)) = given ++ evs2 /\
    typed sh evs1 = (cs, sh') /\ kb_rep event_bufs (q_kb b') sh' evs2 /\
    Display.typed d' = foldl slide (Display.typed (display_state k)) cs /\ waiting d' = waiting (display_state k) /\ owner d' = owner (display_state k) /\
    kernel_ok (set_display d' k) /\ ((0 < q_ticks_left b')%nat -> qemu_ok serve_net serve_key answer event_bufs uart_base rounds b').
Proof.
  intros Hk Hb Ht Hq Hne Hirq Hnb Hnn Hrep Hs.
  assert (Hd : display_ok (display_state k)) by (destruct Hk as [g Hk]; apply (ki_display _ _ _ _ Hk)).
  destruct (key_arm_run serve_net serve_key answer rx_bufs tx_buf event_bufs uart_base rounds Hbase Hbufs Hrounds (mkMachine k b) irq rest sh evs Hb Hq Hne Hirq Hnb Hnn Hrep Hd Hs)
    as (d' & b' & sh' & evs1 & evs2 & cs & E & Hk' & He & Hty & Hd' & Hw & Ho & _ & -> & [given Hg]).
  exists d', b', sh', evs1, given, cs. cbv zeta. split; [exact E|]. do 7 (split; [done|]).
  destruct (handle_irq_holds (HL := qemu_laws serve_net serve_key answer rx_bufs tx_buf event_bufs uart_base rounds Hbase Hbufs Hrounds) (mkMachine k b) _ _ (conj Hk (fun _ => Hb)) E)
    as [_ [H1 H2]]. split; [exact H1|exact H2].
Qed.

(** ** A board with a keyboard and nothing else *)

Definition no_uart (base : Z) (h : Bus) (a : Z) : Z := if a =? base + UART_FR then FR_RXFE else 8.
#[global] Program Instance silent_line base : Pl011 (no_uart base) base := {| rx := fun _ => [] |}.
Next Obligation. done. Qed.
Next Obligation. done. Qed.
Next Obligation. done. Qed.
Next Obligation. intros base h v. unfold no_uart. rewrite Z.eqb_refl. done. Qed.

Definition demo_uart : Z := KERNEL_VA_OFFSET + 150994944.
Definition demo_bufs : Z := KERNEL_VA_OFFSET + 131072.
Definition demo_input : M (KB Keys) unit :=
  input_init (no_uart demo_uart) (KERNEL_VA_OFFSET + 65536) demo_bufs (2 ^ 27) (2 ^ 27 + 655360)
  (KERNEL_VA_OFFSET + 167772160) (VIRTIO_IRQ_BASE + 3).
Definition idle_kb : KB Keys := mkKB None (fun _ => 0) [] (mkKeys 0 demo_keys).
Definition demo_kb : KB Keys := match demo_input idle_kb with Some (_, s) => s | None => idle_kb end.
Definition no_net : NS (ND Nic) := mkNS (ns_st (demo_net demo_bound [])) (mkND None (fun _ => 0) [] (mkNic 0 0 [])).
Definition key_board : Qemu := mkQemu [VIRTIO_IRQ_BASE + 3] (timer_init 62500000) no_net (mkBS (D := RefDisk) None (fun _ => 0) [] (mkRef 0 (fun _ => 0) 0)) demo_kb [].

Lemma demo_kb_rep : kb_rep (serve := keys_serve) demo_bufs demo_kb false demo_keys.
Proof.
  destruct (input_init_rep (serve := keys_serve) demo_bufs (no_uart demo_uart) (KERNEL_VA_OFFSET + 65536) (2 ^ 27) (2 ^ 27 + 655360)
    (KERNEL_VA_OFFSET + 167772160) 3 idle_kb) as (s & E & [Hd|Hd]); [by vm_compute|by vm_compute|done|done| | |].
  - repeat (apply Forall_cons; split; [unfold event_ok; cbn; lia|]); by apply Forall_nil.
  - assert (Hs : kb_dev demo_kb = kb_dev s) by (unfold demo_kb, demo_input; by rewrite E). rewrite Hd in Hs. by vm_compute in Hs.
  - unfold demo_kb, demo_input. by rewrite E.
Qed.

Lemma key_board_ok : qemu_ok nic_serve keys_serve (no_uart demo_uart) demo_bufs demo_uart 17 key_board.
Proof.
  split; [done| |done|right; exists false, demo_keys; exact demo_kb_rep| |cbn; lia].
  - split; [|done]. unfold net_ok, addr_ok. cbn. split_and!; try lia; try done; bytes.
  - cbn [key_board q_kb]. erewrite keys_waiting_rep by exact demo_kb_rep. cbn. lia.
Qed.

Definition key_machine : Machine Scheduler Qemu := mkMachine boot_kernel key_board.

(** The keys spell "Hi1", and all of them are read. *)
Lemma keystrokes_reach_display_witness :
  exists d' b', Entry.handle_irq (HB := qemu_board nic_serve keys_serve (no_uart demo_uart) (KERNEL_VA_OFFSET + 262144) (KERNEL_VA_OFFSET + 524288) demo_bufs demo_uart 17) 17
      key_machine = Some (false, mkMachine (set_display d' boot_kernel) b') /\
    Display.typed d' = [72; 105; 49] /\ hw_events (kb_hw (q_kb b')) = [].
Proof.
  destruct (keystrokes_reach_display (RQ := scheduler_queues) nic_serve keys_serve (no_uart demo_uart) (KERNEL_VA_OFFSET + 262144) (KERNEL_VA_OFFSET + 524288)
    demo_bufs demo_uart 17 ltac:(by vm_compute) ltac:(by vm_compute) ltac:(lia) boot_kernel key_board (VIRTIO_IRQ_BASE + 3) [] false demo_keys)
    as (d' & b' & sh' & evs1 & given & cs & E & He & _ & Ht & _ & Hd & _);
    [exact boot_ok|exact key_board_ok|unfold q_ticks_left, DHCP_RETRY_TICKS; change (tick_count (q_timer key_board)) with 0; lia|reflexivity|by vm_compute; set_solver|by vm_compute|done|done|exact demo_kb_rep|by vm_compute|].
  exists d', b'. split; [exact E|].
  assert (Hb : hw_events (kb_hw (q_kb b')) = []).
  { pose proof (f_equal (fmap (fun r => keys_events (kb_hw (q_kb (mc_board (snd r)))))) E) as Hr. vm_compute in Hr. injection Hr as Hr. exact (eq_sym Hr). }
  split; [|exact Hb]. rewrite Hb, app_nil_r in He. subst evs1. vm_compute in Ht. injection Ht as <- _. exact Hd.
Defined.

(** The first process is interrupted by the timer. *)
Definition tick_board : Qemu := set_irqs [TIMER_IRQ] key_board.

Lemma tick_board_ok : qemu_ok nic_serve keys_serve (no_uart demo_uart) demo_bufs demo_uart 17 tick_board.
Proof. apply set_irqs_ok, key_board_ok. Qed.

