(* ===== verification/TickTimer.v ===== *)
(** * The tick timer server

    Models [xous/ticktimer/src/main.rs] and the clock of its hosted platform
    ([platform/hosted.rs]): the heap of sleep requests and the body of the message
    loop, one definition per request.

    The uptime and the clock of the host, and the answers of the kernel to
    [get_remote_pid] and [disconnect], are the record [Env], given with every
    message.  What the server does to the outside is the log [tt_log], each entry
    with the uptime at which it is made.  The sleep heap is a [BTreeMap]: a list of
    pairs in the order of the keys. *)

From S2P Require Import Prelude Abi.
From Stdlib Require Import ZArith Lia Bool.
From stdpp Require Import list sorting.
Open Scope Z_scope.

(** Any sleeping below 100 us is considered zero. *)
Definition MIN_SLEEP_NS : Z := 100000.

Inductive TimerRequest :=
| Timeout (sender : MessageSender) (condvar : option Z)
| Callback (cid message_id message_data : Z).

Inductive Opcode :=
| Elapsed | Sleep | WaitForCondition | NotifyCondition | GetSystemTime | SetSystemTime | ResetSystemTime | RequestCallback | Disconnected
| TimerInterrupt | InvalidCall.
Definition Opcode_from_usize (id : Z) : option Opcode :=
  match id with
  | 0 => Some Elapsed | 1 => Some Sleep | 8 => Some WaitForCondition | 9 => Some NotifyCondition | 12 => Some GetSystemTime
  | 13 => Some SetSystemTime | 14 => Some ResetSystemTime | 15 => Some RequestCallback | 16 => Some Disconnected | 17 => Some TimerInterrupt
  | 4294967295 => Some InvalidCall
  | _ => None
  end.

(** System calls of the server, and its orders to the sleeping thread. *)
Inductive Out :=
| Return1 (sender : MessageSender) (v : Z)
| Return2 (sender : MessageSender) (v1 v2 : Z)
| TrySend (cid message_id arg1 : Z)
| StartSleep (ns : Z)
| Disconnect (cid : Z).

Record Env := mkEnv {
  uptime : Z;
  real_time : Z;
  remote_pid : Z -> res PID Error;
  (** how often [disconnect] of a connection succeeds *)
  references : Z -> nat }.

Record TT := mkTT { sleep_heap : list (Z * TimerRequest); time_offset : Z; tt_log : list (Z * Out) }.
Definition set_heap (h : list (Z * TimerRequest)) (s : TT) : TT := mkTT h (time_offset s) (tt_log s).
Definition set_offset (o : Z) (s : TT) : TT := mkTT (sleep_heap s) o (tt_log s).

Fixpoint heap_insert (k : Z) (v : TimerRequest) (h : list (Z * TimerRequest)) : list (Z * TimerRequest) :=
  match h with
  | [] => [(k, v)]
  | (k', v') :: h' => if k <? k' then (k, v) :: h else if k =? k' then (k, v) :: h' else (k', v') :: heap_insert k v h'
  end.
Definition contains_key (k : Z) (h : list (Z * TimerRequest)) : bool := existsb (fun p => p.1 =? k) h.
Definition heap_remove (k : Z) (h : list (Z * TimerRequest)) : list (Z * TimerRequest) := List.filter (fun p => negb (p.1 =? k)) h.

(** Signed 64-bit values of the clock of the host. *)
Definition as_i64 (x : Z) : Z := (x + 2 ^ 63) mod 2 ^ 64 - 2 ^ 63.
Definition sub_i64 {T} (a b : Z) : M T Z := if (- 2 ^ 63 <=? a - b) && (a - b <? 2 ^ 63) then ret (a - b) else panic.


Section Server.
Variable e : Env.

Definition emit (o : Out) : M TT unit := modify (fun s => mkTT (sleep_heap s) (time_offset s) (tt_log s ++ [(uptime e, o)])).

Definition respond (r : TimerRequest) (timed_out : bool) : M TT unit :=
  match r with
  | Timeout sender _ => emit (Return1 sender (if timed_out then 1 else 0))
  | Callback cid message_id message_data => emit (TrySend cid message_id message_data)
  end.

(** [while sleep_heap.contains_key(&target_uptime) { target_uptime += 1; }] *)
Fixpoint free_key (fuel : nat) (target_uptime : Z) (h : list (Z * TimerRequest)) : M TT Z :=
  if contains_key target_uptime h then
    match fuel with
    | O => panic
    | S fuel => t <- add64 target_uptime 1 ;; free_key fuel t h
    end
  else ret target_uptime.

(** The loop that answers what has expired; [h] is the heap. *)
Fixpoint expire (h : list (Z * TimerRequest)) : M TT unit :=
  match h with
  | [] => ret tt
  | (target_uptime, request) :: h' =>
      limit <- add64 (uptime e) MIN_SLEEP_NS ;;
      if target_uptime <? limit then
        _ <- modify (set_heap h') ;;
        _ <- respond request true ;;
        expire h'
      else
        ns <- sub64 target_uptime (uptime e) ;;
        emit (StartSleep ns)
  end.

Definition recalculate_sleep (new : option (Z * TimerRequest)) : M TT unit :=
  _ <- match new with
       | Some (timeout, request) =>
           t <- add64 (uptime e) timeout ;;
           h <- gets sleep_heap ;;
           t <- free_key (length h) t h ;;
           modify (set_heap (heap_insert t request h))
       | None => ret tt
       end ;;
  h <- gets sleep_heap ;;
  expire h.

Definition waits_for (pid : option PID) (condvar : Z) (r : TimerRequest) : bool :=
  match r with
  | Timeout sender (Some c) => bool_decide (MessageSender_pid sender = pid) && (condvar =? c)
  | _ => false
  end.

(** [for _ in 0..requested_count], left early when nobody waits *)
Fixpoint notify_loop (fuel : nat) (pid : option PID) (condvar requested_count notified : Z) : M TT Z :=
  if requested_count <=? 0 then ret notified
  else
    h <- gets sleep_heap ;;
    match List.find (fun p => waits_for pid condvar p.2) h with
    | Some (key, entry) =>
        match fuel with
        | O => panic
        | S fuel =>
            _ <- modify (set_heap (heap_remove key h)) ;;
            _ <- respond entry false ;;
            notify_loop fuel pid condvar (requested_count - 1) (notified + 1)
        end
    | None => ret notified
    end.

Definition retain (keep : TimerRequest -> bool) : M TT unit := modify (fun s => set_heap (List.filter (fun p => keep p.2) (sleep_heap s)) s).
Definition is_callback (cid : Z) (message_id : option Z) (r : TimerRequest) : bool :=
  match r with
  | Callback c m _ => (c =? cid) && match message_id with Some i => m =? i | None => true end
  | Timeout _ _ => false
  end.

Fixpoint disconnect_all (n : nat) (cid : Z) : M TT unit :=
  _ <- emit (Disconnect cid) ;; match n with O => ret tt | S n => disconnect_all n cid end.

(** *** The clock of the host *)

Definition get_system_time_ns : M TT Z := o <- gets time_offset ;; t <- sub_i64 (real_time e) o ;; ret (wrap 64 t).
Definition set_system_time_ns (time : Z) : M TT unit := o <- sub_i64 (real_time e) (as_i64 time) ;; modify (set_offset o).
Definition reset_system_time : M TT unit := modify (set_offset 0).

(** *** The message loop *)

Definition words (lo hi : Z) : Z := Z.lor lo (wrap 64 (Z.shiftl hi 32)).
Definition return_words (sender : MessageSender) (v : Z) : M TT unit := emit (Return2 sender (Z.land v 4294967295) (Z.shiftr v 32)).

Definition scalar_of (m : Message) : option (ScalarMessage * bool) :=
  match m with Scalar s => Some (s, false) | BlockingScalar s => Some (s, true) | _ => None end.

Definition request_callback (sender : MessageSender) (scalar : ScalarMessage) (blocking : bool) : M TT unit :=
  nsec <- (if sm_arg1 scalar * 1000000 <? 2 ^ 64 then ret (sm_arg1 scalar * 1000000) else panic) ;;
  let message_id := sm_arg2 scalar in
  let message_data := sm_arg3 scalar in
  let cid := u32 (sm_arg4 scalar) in
  if bool_decide (remote_pid e cid = ok_or (MessageSender_pid sender) UnknownError) then
    _ <- retain (fun r => negb (is_callback cid (Some message_id) r)) ;;
    _ <- recalculate_sleep (if 0 <? nsec then Some (nsec, Callback cid message_id message_data) else None) ;;
    if blocking then emit (Return1 sender 0) else ret tt
  else if blocking then emit (Return1 sender 1) else ret tt.

(** The body of the loop of [main] *)
Definition handle_message (msg : MessageEnvelope) : M TT unit :=
  match scalar_of (env_body msg) with
  | None => ret tt
  | Some (scalar, blocking) =>
      let sender := env_sender msg in
      match default InvalidCall (Opcode_from_usize (sm_id scalar)) with
      | Elapsed => if blocking then return_words sender (uptime e) else ret tt
      | Sleep =>
          if blocking then recalculate_sleep (Some (words (sm_arg1 scalar) (sm_arg2 scalar), Timeout sender None)) else ret tt
      | WaitForCondition =>
          if blocking then recalculate_sleep (Some (words (sm_arg2 scalar) (sm_arg3 scalar), Timeout sender (Some (sm_arg1 scalar)))) else ret tt
      | NotifyCondition =>
          if blocking then
            h <- gets sleep_heap ;;
            notified <- notify_loop (length h) (MessageSender_pid sender) (sm_arg1 scalar) (sm_arg2 scalar) 0 ;;
            _ <- emit (Return1 sender notified) ;;
            recalculate_sleep None
          else ret tt
      | GetSystemTime => if blocking then t <- get_system_time_ns ;; return_words sender t else ret tt
      | SetSystemTime =>
          if blocking then _ <- set_system_time_ns (words (sm_arg1 scalar) (sm_arg2 scalar)) ;; emit (Return1 sender 0) else ret tt
      | ResetSystemTime => if blocking then _ <- reset_system_time ;; emit (Return1 sender 0) else ret tt
      | RequestCallback => request_callback sender scalar blocking
      | Disconnected =>
          let cid := u32 (sm_arg1 scalar) in
          _ <- retain (fun r => negb (is_callback cid None r)) ;;
          _ <- recalculate_sleep None ;;
          disconnect_all (references e cid) cid
      | TimerInterrupt => if blocking then emit (Return1 sender 0) else recalculate_sleep None
      | InvalidCall => if blocking then emit (Return1 sender 0) else ret tt
      end
  end.

End Server.

(** A run of the loop: messages, each with the state of the world when it is handled. *)
Fixpoint serve (l : list (Env * MessageEnvelope)) : M TT unit :=
  match l with [] => ret tt | (e, msg) :: l => _ <- handle_message e msg ;; serve l end.

(** ** The heap *)

Definition by_key (a b : Z * TimerRequest) : Prop := a.1 < b.1.
Abbreviation heap_ok := (StronglySorted by_key).

Lemma contains_key_spec k h : contains_key k h = true <-> exists v, (k, v) ∈ h.
Proof.
  unfold contains_key. rewrite existsb_exists. split.
  - intros ([k' v] & Hin%list_elem_of_In & E%Z.eqb_eq). cbn in E. subst. by exists v.
  - intros (v & Hin). exists (k, v). split; [by apply list_elem_of_In|apply Z.eqb_refl].
Qed.

Lemma heap_insert_perm k v h : contains_key k h = false -> heap_insert k v h ≡ₚ (k, v) :: h.
Proof.
  induction h as [|[k' v'] h IH]; [done|]. cbn [contains_key existsb fst]. rewrite orb_false_iff, Z.eqb_neq. intros [Hne Hc]. cbn [heap_insert].
  destruct (k <? k'); [done|]. rewrite (proj2 (Z.eqb_neq k k')) by lia. rewrite IH by done. by rewrite Permutation_swap.
Qed.

Lemma heap_insert_ok k v h : heap_ok h -> contains_key k h = false -> heap_ok (heap_insert k v h).
Proof.
  intros Hh. induction Hh as [|[k' v'] h Hh IH Hall]; [by repeat constructor|]. cbn [contains_key existsb fst].
  rewrite orb_false_iff, Z.eqb_neq. intros [Hne Hc]. cbn [heap_insert]. destruct (Z.ltb_spec k k') as [Hlt|Hge].
  - constructor; [by constructor|]. constructor; [done|]. eapply Forall_impl; [exact Hall|]. unfold by_key. cbn. intros; lia.
  - rewrite (proj2 (Z.eqb_neq k k')) by lia. constructor; [by apply IH|]. rewrite heap_insert_perm by done. constructor; [unfold by_key; cbn; lia|done].
Qed.

Lemma heap_insert_split k v h : contains_key k h = false -> exists h1 h2, h = h1 ++ h2 /\ heap_insert k v h = h1 ++ (k, v) :: h2.
Proof.
  induction h as [|[k' v'] h IH]; [by exists [], []|]. cbn [contains_key existsb fst]. rewrite orb_false_iff, Z.eqb_neq. intros [Hne Hc]. cbn [heap_insert].
  destruct (k <? k'); [by exists [], ((k', v') :: h)|]. rewrite (proj2 (Z.eqb_neq k k')) by lia.
  destruct (IH Hc) as (h1 & h2 & -> & ->). by exists ((k', v') :: h1), h2.
Qed.

Lemma heap_inj h k v v' : heap_ok h -> (k, v) ∈ h -> (k, v') ∈ h -> v = v'.
Proof.
  induction 1 as [|p h Hh IH Hall]; [by intros ?%not_elem_of_nil|]. rewrite !elem_of_cons. rewrite Forall_forall in Hall. unfold by_key in Hall.
  intros [<-|H1] [H2|H2]; [congruence| | |by apply IH].
  - specialize (Hall _ H2). cbn in Hall. lia.
  - subst p. specialize (Hall _ H1). cbn in Hall. lia.
Qed.

Lemma filter_ok (f : Z * TimerRequest -> bool) h : heap_ok h -> heap_ok (List.filter f h).
Proof.
  induction 1 as [|p h Hh IH Hall]; cbn; [constructor|]. destruct (f p); [|done]. constructor; [done|].
  apply Forall_forall. intros q Hq%list_elem_of_In%filter_In. apply (proj1 (Forall_forall _ _) Hall). apply list_elem_of_In, Hq.
Qed.

(** The search for a free key passes every key of the heap at most once. *)
Definition keys_from (t : Z) (h : list (Z * TimerRequest)) : nat := length (List.filter (fun p => t <=? p.1) h).

Lemma filter_le {A} (f g : A -> bool) l : (forall x, f x = true -> g x = true) -> (length (List.filter f l) <= length (List.filter g l))%nat.
Proof.
  intros H. induction l as [|x l IH]; cbn; [lia|]. destruct (f x) eqn:E; [rewrite (H x E); cbn; lia|]. destruct (g x); cbn; lia.
Qed.
Lemma filter_lt {A} (f g : A -> bool) l x : (forall x, f x = true -> g x = true) -> x ∈ l -> f x = false -> g x = true ->
  (length (List.filter f l) < length (List.filter g l))%nat.
Proof.
  intros H Hx Hf Hg. induction l as [|y l IH]; [by apply not_elem_of_nil in Hx|]. cbn. apply elem_of_cons in Hx as [->|Hx].
  - rewrite Hf, Hg. cbn. pose proof (filter_le f g l H). lia.
  - specialize (IH Hx). destruct (f y) eqn:E; [rewrite (H y E); cbn; lia|]. destruct (g y); cbn; lia.
Qed.

Lemma free_key_run fuel t h s : (keys_from t h <= fuel)%nat -> t + Z.of_nat fuel < 2 ^ 64 ->
  exists k, free_key fuel t h s = Some (k, s) /\ t <= k <= t + Z.of_nat fuel /\ contains_key k h = false.
Proof.
  revert t. induction fuel as [|fuel IH]; intros t Hk Ht; cbn [free_key]; destruct (contains_key t h) eqn:Hc.
  - apply contains_key_spec in Hc as (v & Hin). pose proof (filter_lt (fun _ => false) (fun p => t <=? p.1) h (t, v)) as Hlt.
    cbn in Hlt. unfold keys_from in Hk. rewrite Z.leb_refl in Hlt. specialize (Hlt ltac:(done) Hin eq_refl eq_refl). lia.
  - exists t. split; [done|]. split; [lia|done].
  - pose proof Hc as (v & Hin)%contains_key_spec. rewrite (bind_run _ _ _ _ _ (add64_run t 1 s ltac:(lia))).
    destruct (IH (t + 1)) as (k & E & Hb & Hf); [|lia|exists k; split; [done|]; split; [lia|done]].
    pose proof (filter_lt (fun p => t + 1 <=? p.1) (fun p => t <=? p.1) h (t, v)) as Hlt. cbn in Hlt. rewrite Z.leb_refl in Hlt. unfold keys_from in *.
    specialize (Hlt ltac:(intros x Hx; lia) Hin ltac:(lia) eq_refl). lia.
  - exists t. split; [done|]. split; [lia|done].
Qed.

(** ** What has expired is answered, and the timer is set for the rest *)

Definition due (now : Z) (p : Z * TimerRequest) : bool := p.1 <? now + MIN_SLEEP_NS.
Definition answer_to (r : TimerRequest) (timed_out : bool) : Out :=
  match r with Timeout sender _ => Return1 sender (if timed_out then 1 else 0) | Callback cid id data => TrySend cid id data end.
Definition alarm (now : Z) (h : list (Z * TimerRequest)) : list (Z * Out) :=
  match h with [] => [] | (k, _) :: _ => [(now, StartSleep (k - now))] end.

Lemma respond_timer_run e r b s : respond e r b s = Some (tt, mkTT (sleep_heap s) (time_offset s) (tt_log s ++ [(uptime e, answer_to r b)])).
Proof. by destruct r. Qed.

Lemma expire_run e h off log : heap_ok h -> 0 <= uptime e -> uptime e + MIN_SLEEP_NS < 2 ^ 64 ->
  let rest := List.filter (fun p => negb (due (uptime e) p)) h in
  expire e h (mkTT h off log) = Some (tt, mkTT rest off
    (log ++ ((fun p => (uptime e, answer_to p.2 true)) <$> List.filter (due (uptime e)) h) ++ alarm (uptime e) rest)).
Proof.
  intros Hh H0 Hu rest. subst rest. revert log. induction Hh as [|[k r] h Hh IH Hall]; intros log; cbn [expire List.filter].
  - cbn. by rewrite app_nil_r.
  - rewrite (bind_run _ _ _ _ _ (add64_run _ _ _ Hu)). change (due (uptime e) (k, r)) with (k <? uptime e + MIN_SLEEP_NS). destruct (Z.ltb_spec k (uptime e + MIN_SLEEP_NS)) as [Hd|Hd]; cbn [negb].
    + unfold bind at 1, modify. rewrite (bind_run _ _ _ _ _ (respond_timer_run _ _ _ _)). cbn [sleep_heap set_heap time_offset tt_log]. rewrite IH.
      cbn [fmap list_fmap snd]. by rewrite <- app_assoc.
    + assert (Hno : forall p, p ∈ h -> due (uptime e) p = false).
      { intros p Hp. pose proof (proj1 (Forall_forall _ _) Hall p Hp) as Hlt. unfold by_key in Hlt. cbn in Hlt. unfold due. lia. }
      assert (Hf : List.filter (due (uptime e)) h = []).
      { clear -Hno. induction h as [|p h IH]; [done|]. cbn. rewrite (Hno p) by set_solver. apply IH. intros q Hq. apply Hno. set_solver. }
      assert (Hg : List.filter (fun p => negb (due (uptime e) p)) h = h).
      { clear -Hno. induction h as [|p h IH]; [done|]. cbn. rewrite (Hno p) by set_solver. cbn. f_equal. apply IH. intros q Hq. apply Hno. set_solver. }
      rewrite Hf, Hg. unfold sub64. rewrite (proj2 (Z.leb_le _ _)) by (unfold MIN_SLEEP_NS in Hd; lia). done.
Qed.

(** ** One sleeper among all messages *)

(** The requests of [x] in the heap, what it was answered, and the uptime for
    which the timer was set last. *)
Definition entries (x : MessageSender) (h : list (Z * TimerRequest)) : list (Z * option Z) :=
  omap (fun p => match p.2 with Timeout s c => if s =? x then Some (p.1, c) else None | Callback _ _ _ => None end) h.
Definition returned (x : MessageSender) (log : list (Z * Out)) : list (Z * list Z) :=
  omap (fun p => match p.2 with
                 | Return1 s v => if s =? x then Some (p.1, [v]) else None
                 | Return2 s v1 v2 => if s =? x then Some (p.1, [v1; v2]) else None
                 | _ => None
                 end) log.
Definition last_alarm (log : list (Z * Out)) : option Z :=
  foldl (fun a p => match p.2 with StartSleep ns => Some (p.1 + ns) | _ => a end) None log.

Record tt_ok (s : TT) : Prop := {
  ok_heap : heap_ok (sleep_heap s);
  ok_offset : - 2 ^ 62 < time_offset s < 2 ^ 62;
  ok_alarm : forall p h, sleep_heap s = p :: h -> last_alarm (tt_log s) = Some p.1 }.

(** The clock and the times that are asked for stay within 64 bits, with [n]
    nanoseconds to spare. *)
Definition timely (n : nat) (e : Env) (msg : MessageEnvelope) : Prop :=
  0 <= uptime e /\ uptime e + MIN_SLEEP_NS < 2 ^ 64 /\ 0 <= real_time e < 2 ^ 62 /\
  match scalar_of (env_body msg) with
  | None => True
  | Some (m, _) =>
      match default InvalidCall (Opcode_from_usize (sm_id m)) with
      | Sleep => uptime e + words (sm_arg1 m) (sm_arg2 m) + Z.of_nat n < 2 ^ 64
      | WaitForCondition => uptime e + words (sm_arg2 m) (sm_arg3 m) + Z.of_nat n < 2 ^ 64
      | RequestCallback => uptime e + sm_arg1 m * 1000000 + Z.of_nat n < 2 ^ 64
      | SetSystemTime => 0 <= words (sm_arg1 m) (sm_arg2 m) < 2 ^ 62
      | _ => True
      end
  end.

Definition interrupt (msg : MessageEnvelope) : bool := match env_body msg with Scalar m => sm_id m =? 17 | _ => false end.

Section Sleeper.
Variable x : MessageSender.
Variable e : Env.

(** Steps that do not concern [x]: [calm] ones leave the heap alone, [quiet] ones
    may add [m] requests to it. *)
Record calm (s s' : TT) : Prop := {
  calm_heap : sleep_heap s' = sleep_heap s;
  calm_returned : returned x (tt_log s') = returned x (tt_log s);
  calm_alarm : last_alarm (tt_log s') = last_alarm (tt_log s);
  calm_offset : - 2 ^ 62 < time_offset s < 2 ^ 62 -> - 2 ^ 62 < time_offset s' < 2 ^ 62 }.
Record quiet (m : nat) (s s' : TT) : Prop := {
  quiet_heap : heap_ok (sleep_heap s) -> heap_ok (sleep_heap s');
  quiet_entries : entries x (sleep_heap s') = entries x (sleep_heap s);
  quiet_returned : returned x (tt_log s') = returned x (tt_log s);
  quiet_offset : time_offset s' = time_offset s;
  quiet_length : (length (sleep_heap s') <= length (sleep_heap s) + m)%nat }.

Lemma tt_calm_refl s : calm s s.
Proof. by split. Qed.
Lemma tt_calm_trans s1 s2 s3 : calm s1 s2 -> calm s2 s3 -> calm s1 s3.
Proof. intros [] []. split; try congruence. tauto. Qed.

Definition addressee (o : Out) : option MessageSender := match o with Return1 s _ | Return2 s _ _ => Some s | _ => None end.
Definition sets_alarm (o : Out) : bool := match o with StartSleep _ => true | _ => false end.

Lemma returned_snoc log t o : addressee o <> Some x -> returned x (log ++ [(t, o)]) = returned x log.
Proof.
  intros Ho. unfold returned. rewrite omap_app. cbn. destruct o; cbn in Ho; try by rewrite app_nil_r.
  all: rewrite (proj2 (Z.eqb_neq _ _)) by congruence; by rewrite app_nil_r.
Qed.

Lemma emit_calm o s : addressee o <> Some x -> sets_alarm o = false -> exists s', emit e o s = Some (tt, s') /\ calm s s'.
Proof.
  intros Ho Ha. eexists. split; [reflexivity|]. split; cbn; [done|by apply returned_snoc| |done]. unfold last_alarm. rewrite foldl_app. cbn. by destruct o.
Qed.

Lemma disconnect_calm n cid s : exists s', disconnect_all e n cid s = Some (tt, s') /\ calm s s'.
Proof.
  revert s. induction n as [|n IH]; intros s; cbn [disconnect_all]; (destruct (emit_calm (Disconnect cid) s) as (s1 & E1 & H1); [done|done|]); rewrite (bind_run _ _ _ _ _ E1).
  - by exists s1.
  - destruct (IH s1) as (s2 & E2 & H2). exists s2. split; [done|by eapply tt_calm_trans].
Qed.

Lemma entries_filter f h : (forall p, p ∈ h -> f p = false -> entries x [p] = []) -> entries x (List.filter f h) = entries x h.
Proof.
  intros Hf. induction h as [|p h IH]; [done|]. change (p :: h) with ([p] ++ h) at 2. unfold entries in *. rewrite omap_app.
  rewrite <- IH by (intros q Hq; apply Hf; set_solver). cbn [List.filter]. destruct (f p) eqn:E.
  - change (p :: List.filter f h) with ([p] ++ List.filter f h). by rewrite omap_app.
  - by rewrite (Hf p) by set_solver.
Qed.

Lemma retain_quiet f s : (forall c, f (Timeout x c) = true) -> exists s', retain f s = Some (tt, s') /\ quiet 0 s s'.
Proof.
  intros Hf. eexists. split; [reflexivity|]. split; cbn; [apply filter_ok| |done|done|].
  - apply entries_filter. intros [k [s0 c|]] _ Hn; cbn in *; [|done]. destruct (Z.eqb_spec s0 x) as [->|]; [by rewrite Hf in Hn|done].
  - pose proof (filter_length_le (fun p : Z * TimerRequest => f p.2) (sleep_heap s)). lia.
Qed.

Lemma quiet_refl s : quiet 0 s s.
Proof. split; try done. lia. Qed.
Lemma quiet_trans m1 m2 s1 s2 s3 : quiet m1 s1 s2 -> quiet m2 s2 s3 -> quiet (m1 + m2) s1 s3.
Proof. intros [] []. split; try congruence; [tauto|lia]. Qed.
Lemma calm_quiet s s' : calm s s' -> time_offset s' = time_offset s -> quiet 0 s s'.
Proof. intros [H1 H2 _ _] Ho. split; rewrite ?H1; try done. lia. Qed.

(** Nobody notifies a request that waits for no condition. *)
Definition only_sleeps (s : TT) : Prop := forall k c, (k, c) ∈ entries x (sleep_heap s) -> c = None.

Lemma notify_quiet fuel pid c count nt s : heap_ok (sleep_heap s) -> only_sleeps s -> (length (sleep_heap s) <= fuel)%nat ->
  exists r s', notify_loop e fuel pid c count nt s = Some (r, s') /\ quiet 0 s s'.
Proof.
  revert count nt s. induction fuel as [|fuel IH]; intros count nt s Hh Hx Hf; cbn [notify_loop]; (destruct (count <=? 0); [exists nt, s; split; [done|apply quiet_refl]|]);
    unfold bind at 1, gets; destruct (List.find _ (sleep_heap s)) as [[key entry]|] eqn:Ef; try (exists nt, s; split; [done|apply quiet_refl]).
  { destruct (sleep_heap s); [done|cbn in Hf; lia]. }
  apply find_some in Ef as [Hin%list_elem_of_In Hw]. cbn in Hw. unfold bind at 1, modify. rewrite (bind_run _ _ _ _ _ (respond_timer_run _ _ _ _)).
  cbn [sleep_heap set_heap time_offset tt_log]. set (s1 := mkTT _ _ _).
  assert (Hlt : (length (heap_remove key (sleep_heap s)) < length (sleep_heap s))%nat).
  { pose proof (filter_lt (fun p => negb (p.1 =? key)) (fun _ => true) (sleep_heap s) (key, entry)) as Hl. cbn in Hl. rewrite Z.eqb_refl in Hl.
    rewrite (List.forallb_filter_id (fun _ => true)) in Hl by (apply forallb_forall; done). by apply Hl. }
  assert (Hne : entries x [(key, entry)] = [] /\ addressee (answer_to entry false) <> Some x).
  { destruct entry as [s0 [c0|]|]; try done. cbn. destruct (Z.eqb_spec s0 x) as [->|Hs]; [|by split; [|congruence]].
    enough (Some c0 = None) by done. apply (Hx key). unfold entries. apply list_elem_of_omap. exists (key, Timeout x (Some c0)). cbn. by rewrite Z.eqb_refl. }
  assert (Hq : quiet 0 s s1).
  { split; cbn; [apply filter_ok| |apply returned_snoc, Hne|done|lia]. apply entries_filter. intros [k v] Hk Hkey. cbn in Hkey.
    apply negb_false_iff, Z.eqb_eq in Hkey. subst k. rewrite (heap_inj _ _ _ _ Hh Hk Hin). apply Hne. }
  destruct (IH (count - 1) (nt + 1) s1) as (r & s2 & E2 & H2).
  - by apply (quiet_heap _ _ _ Hq).
  - intros k c1. rewrite (quiet_entries _ _ _ Hq). apply Hx.
  - cbn. lia.
  - exists r, s2. split; [done|]. by apply (quiet_trans 0 0 _ s1).
Qed.

(** A new request, and then the recalculation. *)
Lemma recalculate_quiet new s : heap_ok (sleep_heap s) ->
  match new with
  | None => True
  | Some (t, r) => uptime e + t + Z.of_nat (length (sleep_heap s)) < 2 ^ 64 /\ entries x [(0, r)] = []
  end ->
  exists s1, recalculate_sleep e new s = expire e (sleep_heap s1) s1 /\ quiet 1 s s1.
Proof.
  intros Hh Hn. unfold recalculate_sleep. destruct new as [[t r]|].
  - destruct Hn as [Ht Hr]. destruct (free_key_run (length (sleep_heap s)) (uptime e + t) (sleep_heap s) s) as (k & E & Hk & Hc); [apply filter_length_le|lia|].
    erewrite bind_run; [|erewrite bind_run by (apply add64_run; lia); unfold bind at 1, gets; rewrite (bind_run _ _ _ _ _ E); reflexivity].
    exists (set_heap (heap_insert k r (sleep_heap s)) s). split; [done|]. split; cbn; [by intros; apply heap_insert_ok| |done|done|].
    + pose proof (heap_insert_split k r _ Hc) as (h1 & h2 & -> & ->). unfold entries in *. rewrite !omap_app. f_equal. cbn in *. by destruct r as [s0 c|]; [destruct (s0 =? x)|].
    + rewrite heap_insert_perm by done. cbn. lia.
  - exists s. split; [done|]. pose proof (quiet_refl s) as []. split; try done. lia.
Qed.

(** *** The recalculation *)

Definition settled (s s' : TT) : Prop := exists s1 s2, quiet 1 s s1 /\ expire e (sleep_heap s1) s1 = Some (tt, s2) /\ calm s2 s'.

Hypothesis Hclock : 0 <= uptime e /\ uptime e + MIN_SLEEP_NS < 2 ^ 64.

Lemma settle new s0 s : heap_ok (sleep_heap s0) -> quiet 0 s0 s ->
  match new with
  | None => True
  | Some (t, r) => uptime e + t + Z.of_nat (length (sleep_heap s0)) < 2 ^ 64 /\ entries x [(0, r)] = []
  end ->
  exists s2, recalculate_sleep e new s = Some (tt, s2) /\ settled s0 s2.
Proof.
  intros Hh Hq Hn. pose proof (quiet_heap _ _ _ Hq Hh) as Hh1. pose proof (quiet_length _ _ _ Hq) as Hl.
  destruct (recalculate_quiet new s Hh1) as (s1 & E & H1); [destruct new as [[t r]|]; [split; [lia|tauto]|done]|]. rewrite E.
  pose proof (quiet_heap _ _ _ H1 Hh1) as Hh2. pose proof (expire_run e (sleep_heap s1) (time_offset s1) (tt_log s1) Hh2 (proj1 Hclock) (proj2 Hclock)) as Hx.
  assert (Es : mkTT (sleep_heap s1) (time_offset s1) (tt_log s1) = s1) by (by destruct s1). rewrite Es in Hx. rewrite Hx. eexists. split; [reflexivity|].
  exists s1. eexists. split; [by apply (quiet_trans 0 1 _ s)|]. split; [exact Hx|apply tt_calm_refl].
Qed.

Lemma settled_calm s s1 s2 : settled s s1 -> calm s1 s2 -> settled s s2.
Proof. intros (a & b & Ha & Hb & Hc) H. exists a, b. split; [done|]. split; [done|]. by eapply tt_calm_trans. Qed.

(** What it does to the requests of [x]. *)
Lemma settled_sleeper s s' : heap_ok (sleep_heap s) -> - 2 ^ 62 < time_offset s < 2 ^ 62 -> settled s s' ->
  tt_ok s' /\ (length (sleep_heap s') <= length (sleep_heap s) + 1)%nat /\
  entries x (sleep_heap s') = List.filter (fun p => uptime e + MIN_SLEEP_NS <=? p.1) (entries x (sleep_heap s)) /\
  returned x (tt_log s') = returned x (tt_log s) ++ ((fun _ => (uptime e, [1])) <$> List.filter (fun p => p.1 <? uptime e + MIN_SLEEP_NS) (entries x (sleep_heap s))).
Proof.
  intros Hh Ho (s1 & s2 & Hq & E & Hc). pose proof (quiet_heap _ _ _ Hq Hh) as Hh1.
  pose proof (expire_run e (sleep_heap s1) (time_offset s1) (tt_log s1) Hh1 (proj1 Hclock) (proj2 Hclock)) as Hx.
  assert (Es : mkTT (sleep_heap s1) (time_offset s1) (tt_log s1) = s1) by (by destruct s1). rewrite Es, E in Hx. injection Hx as ->.
  destruct Hc as [C1 C2 C3 C4]. cbn [sleep_heap tt_log time_offset] in *. destruct Hq as [_ Q2 Q3 Q4 Q5]. split_and!.
  - split; [rewrite C1; by apply filter_ok|apply C4; by rewrite Q4|]. rewrite C1, C3. intros [k r] h Hk. unfold last_alarm. rewrite Hk, app_assoc, foldl_app. cbn. f_equal. lia.
  - rewrite C1. pose proof (filter_length_le (fun p => negb (due (uptime e) p)) (sleep_heap s1)). lia.
  - rewrite C1, <- Q2. unfold entries. clear. induction (sleep_heap s1) as [|[k r] h IH]; [done|]. cbn [List.filter omap list_omap]. unfold due at 1. cbn [fst snd].
    destruct (Z.ltb_spec k (uptime e + MIN_SLEEP_NS)); destruct r as [s0 c|]; cbn [negb omap list_omap fst snd]; try destruct (s0 =? x); cbn [List.filter fst]; rewrite ?IH; try done.
    + by rewrite (proj2 (Z.leb_gt _ _)) by lia.
    + by rewrite (proj2 (Z.leb_le _ _)) by lia.
  - rewrite C2, <- Q2, <- Q3. unfold returned at 1. rewrite !omap_app. fold (returned x (tt_log s1)). f_equal.
    assert (Hal : forall h, omap (fun p : Z * Out => match p.2 with Return1 s v => if s =? x then Some (p.1, [v]) else None
      | Return2 s v1 v2 => if s =? x then Some (p.1, [v1; v2]) else None | _ => None end) (alarm (uptime e) h) = []) by (by intros [|[k r] h]).
    rewrite Hal, app_nil_r. clear. unfold entries. induction (sleep_heap s1) as [|[k r] h IH]; [done|]. cbn [List.filter omap list_omap]. unfold due at 1. cbn [fst snd].
    destruct (Z.ltb_spec k (uptime e + MIN_SLEEP_NS)); destruct r as [s0 c|]; cbn [fmap list_fmap answer_to omap list_omap fst snd]; try destruct (s0 =? x); cbn [List.filter fst]; rewrite ?IH; try done.
    + by rewrite (proj2 (Z.ltb_lt _ _)) by lia.
    + by rewrite (proj2 (Z.ltb_ge _ _)) by lia.
Qed.

Lemma calm_sleeper s s' : tt_ok s -> calm s s' -> tt_ok s'.
Proof. intros [] []. split; rewrite ?calm_heap0, ?calm_alarm0; [done|auto|done]. Qed.

(** *** Every message *)

Lemma sub_i64_run a b (s : TT) : - 2 ^ 63 <= a - b < 2 ^ 63 -> sub_i64 a b s = Some (a - b, s).
Proof. intros H. unfold sub_i64. by rewrite (proj2 (andb_true_iff _ _)) by (rewrite Z.leb_le, Z.ltb_lt; lia). Qed.

Lemma calm_by o s : addressee o <> Some x -> sets_alarm o = false ->
  exists s', emit e o s = Some (tt, s') /\ (calm s s' \/ settled s s').
Proof. intros H1 H2. destruct (emit_calm o s H1 H2) as (s' & E & H). exists s'. auto. Qed.

Lemma nothing s : exists s', @ret TT unit tt s = Some (tt, s') /\ (calm s s' \/ settled s s').
Proof. exists s. split; [done|]. left. apply tt_calm_refl. Qed.

Lemma settle_only new s : tt_ok s ->
  match new with
  | None => True
  | Some (t, r) => uptime e + t + Z.of_nat (length (sleep_heap s)) < 2 ^ 64 /\ entries x [(0, r)] = []
  end -> exists s', recalculate_sleep e new s = Some (tt, s') /\ (calm s s' \/ settled s s').
Proof. intros Hs Hn. destruct (settle new s s (ok_heap _ Hs) (quiet_refl s) Hn) as (s' & E & H). exists s'. auto. Qed.

Lemma other_timeout sender c : sender <> x -> entries x [(0, Timeout sender c)] = [].
Proof. intros H. unfold entries. cbn. by rewrite (proj2 (Z.eqb_neq _ _)). Qed.

Lemma set_time_calm t s : 0 <= t < 2 ^ 62 -> 0 <= real_time e < 2 ^ 62 ->
  exists s1, set_system_time_ns e t s = Some (tt, s1) /\ calm s s1.
Proof.
  intros Ht Hr. assert (Hi : as_i64 t = t) by (unfold as_i64; rewrite Z.mod_small; lia). unfold set_system_time_ns. rewrite Hi.
  rewrite (bind_run _ _ _ _ _ (sub_i64_run (real_time e) t s ltac:(lia))). eexists. split; [reflexivity|]. split; cbn; try done. lia.
Qed.

Lemma request_callback_sleeper n sender m blocking s : sender <> x -> tt_ok s ->
  (length (sleep_heap s) <= n)%nat -> uptime e + sm_arg1 m * 1000000 + Z.of_nat n < 2 ^ 64 ->
  exists s', request_callback e sender m blocking s = Some (tt, s') /\ (calm s s' \/ settled s s').
Proof.
  intros Hs Hok Hl Hn. assert (Hr : forall v, addressee (Return1 sender v) <> Some x) by (cbn; congruence). unfold request_callback.
  rewrite (proj2 (Z.ltb_lt _ _)) by lia. rewrite bind_ret_l. cbv zeta. case_bool_decide.
  - destruct (retain_quiet (fun r => negb (is_callback (u32 (sm_arg4 m)) (Some (sm_arg2 m)) r)) s) as (s1 & E1 & Hq1); [done|]. rewrite (bind_run _ _ _ _ _ E1).
    destruct (settle (if 0 <? sm_arg1 m * 1000000 then Some (sm_arg1 m * 1000000, Callback (u32 (sm_arg4 m)) (sm_arg2 m) (sm_arg3 m)) else None) s s1
      (ok_heap _ Hok) Hq1) as (s2 & E2 & H2); [destruct (0 <? _); [split; [lia|done]|done]|]. rewrite (bind_run _ _ _ _ _ E2).
    destruct blocking; [|by exists s2; auto]. destruct (emit_calm (Return1 sender 0) s2) as (s3 & E3 & H3); [done|done|].
    exists s3. split; [done|]. right. by eapply settled_calm.
  - destruct blocking; [by apply calm_by|apply nothing].
Qed.

Lemma disconnected_sleeper cid s : tt_ok s ->
  exists s', (_ <- retain (fun r => negb (is_callback cid None r)) ;; _ <- recalculate_sleep e None ;; disconnect_all e (references e cid) cid) s = Some (tt, s') /\
    (calm s s' \/ settled s s').
Proof.
  intros Hok. destruct (retain_quiet (fun r => negb (is_callback cid None r)) s) as (s1 & E1 & Hq1); [done|]. rewrite (bind_run _ _ _ _ _ E1).
  destruct (settle None s s1 (ok_heap _ Hok) Hq1) as (s2 & E2 & H2); [done|]. rewrite (bind_run _ _ _ _ _ E2).
  destruct (disconnect_calm (references e cid) cid s2) as (s3 & E3 & H3). exists s3. split; [done|]. right. by eapply settled_calm.
Qed.

Lemma notify_sleeper sender pid c count s : sender <> x -> tt_ok s -> only_sleeps s ->
  exists s', (h <- gets sleep_heap ;; notified <- notify_loop e (length h) pid c count 0 ;; _ <- emit e (Return1 sender notified) ;; recalculate_sleep e None) s
    = Some (tt, s') /\ (calm s s' \/ settled s s').
Proof.
  intros Hs Hok Hx. unfold bind at 1, gets. destruct (notify_quiet (length (sleep_heap s)) pid c count 0 s (ok_heap _ Hok) Hx ltac:(lia)) as (r & s1 & E1 & Hq1).
  rewrite (bind_run _ _ _ _ _ E1). destruct (emit_calm (Return1 sender r) s1) as (s2 & E2 & H2); [cbn; congruence|done|]. rewrite (bind_run _ _ _ _ _ E2).
  destruct (settle None s s2 (ok_heap _ Hok)) as (s3 & E3 & H3); [|done|exists s3; auto].
  apply (quiet_trans 0 0 _ s1); [done|]. apply calm_quiet; [done|]. by injection E2 as <-.
Qed.

Lemma handle_sleeper n msg s : tt_ok s -> timely n e msg -> (length (sleep_heap s) <= n)%nat -> env_sender msg <> x -> only_sleeps s ->
  exists s', handle_message e msg s = Some (tt, s') /\ (calm s s' \/ settled s s').
Proof.
  intros Hok (_ & _ & Hr & Ht) Hl Hs Hx. assert (Hret : forall v, addressee (Return1 (env_sender msg) v) <> Some x) by (cbn; congruence). unfold handle_message.
  destruct (scalar_of (env_body msg)) as [[m blocking]|]; [|apply nothing]. cbv zeta.
  destruct (default InvalidCall (Opcode_from_usize (sm_id m))); try (destruct blocking; [|apply nothing]).
  - apply calm_by; [cbn; congruence|done].
  - apply settle_only; [done|]. split; [lia|by apply other_timeout].
  - apply settle_only; [done|]. split; [lia|by apply other_timeout].
  - by apply notify_sleeper.
  - unfold get_system_time_ns. pose proof (ok_offset _ Hok).
    erewrite bind_run; [|unfold bind at 1, gets; rewrite (bind_run _ _ _ _ _ (sub_i64_run (real_time e) (time_offset s) s ltac:(lia))); reflexivity]. apply calm_by; [cbn; congruence|done].
  - destruct (set_time_calm _ s Ht Hr) as (s1 & E1 & H1). rewrite (bind_run _ _ _ _ _ E1).
    destruct (emit_calm (Return1 (env_sender msg) 0) s1) as (s2 & E2 & H2); [done|done|]. exists s2. split; [done|]. left. by eapply tt_calm_trans.
  - unfold reset_system_time. erewrite bind_run by reflexivity. edestruct emit_calm as (s2 & E2 & H2); [apply (Hret 0)|done|]. exists s2. split; [exact E2|]. left.
    eapply tt_calm_trans; [|exact H2]. by split.
  - by apply (request_callback_sleeper n).
  - by apply disconnected_sleeper.
  - destruct blocking; [by apply calm_by|by apply settle_only].
  - by apply calm_by.
Qed.

(** The timer interrupt always recalculates. *)
Lemma interrupt_settles msg s : tt_ok s -> interrupt msg = true -> exists s', handle_message e msg s = Some (tt, s') /\ settled s s'.
Proof.
  intros Hok Hi. unfold interrupt in Hi. destruct msg as [sender [| | |m|]]; try done. cbn in Hi. apply Z.eqb_eq in Hi.
  destruct (settle None s s (ok_heap _ Hok) (quiet_refl s)) as (s' & E & H); [done|]. exists s'. split; [|done].
  unfold handle_message. cbn [env_body scalar_of env_sender]. rewrite Hi. exact E.
Qed.

End Sleeper.

(** ** Runs *)

(** One message of another sender: the request of [x] for the uptime [k], if it is
    there, stays or is answered because it is due. *)
Lemma step_sleeper x n k e msg s : tt_ok s -> timely n e msg -> (length (sleep_heap s) <= n)%nat -> env_sender msg <> x ->
  entries x (sleep_heap s) = [] \/ entries x (sleep_heap s) = [(k, None)] ->
  exists s', handle_message e msg s = Some (tt, s') /\ tt_ok s' /\ (length (sleep_heap s') <= length (sleep_heap s) + 1)%nat /\
    ((entries x (sleep_heap s') = entries x (sleep_heap s) /\ returned x (tt_log s') = returned x (tt_log s) /\
      (entries x (sleep_heap s) = [(k, None)] -> interrupt msg = true -> uptime e + MIN_SLEEP_NS <= k)) \/
     (entries x (sleep_heap s) = [(k, None)] /\ entries x (sleep_heap s') = [] /\ k < uptime e + MIN_SLEEP_NS /\
      returned x (tt_log s') = returned x (tt_log s) ++ [(uptime e, [1])])).
Proof.
  intros Hok Ht Hl Hs HE. pose proof Ht as (H0 & H1 & _).
  assert (Hx : only_sleeps x s) by (intros k' c Hc; destruct HE as [HE|HE]; rewrite HE in Hc; set_solver).
  assert (Hrun : exists s', handle_message e msg s = Some (tt, s') /\ ((interrupt msg = false /\ calm x s s') \/ settled x e s s')).
  { destruct (interrupt msg) eqn:Hi.
    - destruct (interrupt_settles x e (conj H0 H1) msg s Hok Hi) as (s' & E & H). exists s'. auto.
    - destruct (handle_sleeper x e (conj H0 H1) n msg s Hok Ht Hl Hs Hx) as (s' & E & H). exists s'. split; [done|]. destruct H; auto. }
  destruct Hrun as (s' & E & [[Hi Hc]|Hset]); exists s'; (split; [done|]).
  - split; [by apply (calm_sleeper x s)|]. destruct Hc. rewrite calm_heap0. split; [lia|]. left. split; [done|]. split; [done|]. by rewrite Hi.
  - destruct (settled_sleeper x e (conj H0 H1) s s' (ok_heap _ Hok) (ok_offset _ Hok) Hset) as (Hok' & Hlen & He & Hr). split; [done|]. split; [done|].
    rewrite He, Hr. destruct HE as [-> | ->]; cbn; [left; by rewrite app_nil_r|]. destruct (Z.leb_spec (uptime e + MIN_SLEEP_NS) k).
    + left. rewrite (proj2 (Z.ltb_ge _ _)) by lia. cbn. by rewrite app_nil_r.
    + right. by rewrite (proj2 (Z.ltb_lt _ _)) by lia.
Qed.

Lemma serve_sleeper x n k l s : tt_ok s -> (length (sleep_heap s) + length l <= n)%nat ->
  Forall (fun p => timely n p.1 p.2 /\ env_sender p.2 <> x) l ->
  entries x (sleep_heap s) = [] \/ entries x (sleep_heap s) = [(k, None)] ->
  exists s', serve l s = Some (tt, s') /\ tt_ok s' /\
    ((entries x (sleep_heap s') = entries x (sleep_heap s) /\ returned x (tt_log s') = returned x (tt_log s) /\
      (entries x (sleep_heap s) = [(k, None)] -> Forall (fun p => interrupt p.2 = true -> uptime p.1 + MIN_SLEEP_NS <= k) l)) \/
     (entries x (sleep_heap s) = [(k, None)] /\ entries x (sleep_heap s') = [] /\ exists p, p ∈ l /\ k < uptime p.1 + MIN_SLEEP_NS /\
      returned x (tt_log s') = returned x (tt_log s) ++ [(uptime p.1, [1])])).
Proof.
  revert s. induction l as [|[e msg] l IH]; intros s Hok Hl Hall HE; [exists s; split; [done|]; split; [done|]; left; by split_and!|].
  apply Forall_cons in Hall as [[Ht Hs] Hall]. cbn in Ht, Hs, Hl. cbn [serve].
  destruct (step_sleeper x n k e msg s Hok Ht ltac:(lia) Hs HE) as (s1 & E1 & Hok1 & Hl1 & H1). rewrite (bind_run _ _ _ _ _ E1).
  destruct H1 as [(He & Hr & Hi)|(He0 & He & Hd & Hr)].
  - destruct (IH s1 Hok1 ltac:(lia) Hall ltac:(by rewrite He)) as (s2 & E2 & Hok2 & H2). exists s2. split; [done|]. split; [done|]. rewrite He, Hr in H2.
    destruct H2 as [(? & ? & H3)|(? & ? & p & Hp & ? & ?)]; [left; split_and!; [done|done|]|right; split_and!; [done|done|]; exists p; split; [set_solver|done]].
    intros Hk. constructor; [by apply Hi|by apply H3].
  - destruct (IH s1 Hok1 ltac:(lia) Hall ltac:(by left)) as (s2 & E2 & Hok2 & H2). exists s2. split; [done|]. split; [done|]. right. rewrite He in H2.
    destruct H2 as [(He2 & Hr2 & _)|(H2 & _)]; [|done]. split; [done|]. split; [done|]. exists (e, msg). split; [set_solver|]. split; [done|]. by rewrite Hr2.
Qed.

(** The request itself. *)
Lemma sleep_request x e m s : tt_ok s -> 0 <= uptime e -> uptime e + MIN_SLEEP_NS < 2 ^ 64 -> sm_id m = 1 ->
  uptime e + words (sm_arg1 m) (sm_arg2 m) + Z.of_nat (length (sleep_heap s)) < 2 ^ 64 -> entries x (sleep_heap s) = [] ->
  exists k s', handle_message e (mkEnvelope x (BlockingScalar m)) s = Some (tt, s') /\ tt_ok s' /\ (length (sleep_heap s') <= length (sleep_heap s) + 1)%nat /\
    let d := uptime e + words (sm_arg1 m) (sm_arg2 m) in d <= k <= d + Z.of_nat (length (sleep_heap s)) /\
    if k <? uptime e + MIN_SLEEP_NS then entries x (sleep_heap s') = [] /\ returned x (tt_log s') = returned x (tt_log s) ++ [(uptime e, [1])]
    else entries x (sleep_heap s') = [(k, None)] /\ returned x (tt_log s') = returned x (tt_log s).
Proof.
  intros Hok H0 H1 Hm Ht HE. unfold handle_message. cbn [env_body scalar_of env_sender]. rewrite Hm. change (default InvalidCall (Opcode_from_usize 1)) with Sleep. cbv iota zeta.
  set (t := words _ _) in *. unfold recalculate_sleep.
  destruct (free_key_run (length (sleep_heap s)) (uptime e + t) (sleep_heap s) s) as (k & E & Hk & Hc); [apply filter_length_le|lia|].
  erewrite bind_run; [|erewrite bind_run by (apply add64_run; lia); unfold bind at 1, gets; rewrite (bind_run _ _ _ _ _ E); reflexivity].
  set (s1 := set_heap (heap_insert k (Timeout x None) (sleep_heap s)) s). unfold bind at 1, gets.
  pose proof (heap_insert_ok k (Timeout x None) _ (ok_heap _ Hok) Hc) as Hh1.
  pose proof (expire_run e (sleep_heap s1) (time_offset s1) (tt_log s1) Hh1 H0 H1) as Hx. destruct s as [h off log]. cbn [sleep_heap] in Hk, Hc, HE, Ht, E. cbn in s1, Hx.
  match type of Hx with _ = Some (tt, ?a) => set (s2 := a) in Hx end. exists k, s2. split; [exact Hx|].
  destruct (settled_sleeper x e (conj H0 H1) s1 s2 Hh1 (ok_offset _ Hok)) as (Hok' & Hlen & He & Hr).
  { exists s1, s2. split; [|split; [exact Hx|apply tt_calm_refl]]. pose proof (quiet_refl x s1) as []. split; try done. lia. }
  assert (He1 : entries x (sleep_heap s1) = [(k, None)]).
  { cbn. destruct (heap_insert_split k (Timeout x None) _ Hc) as (h1 & h2 & Eh & ->). rewrite Eh in HE. unfold entries in *. rewrite omap_app in *.
    apply app_nil in HE as [-> HE]. cbn. rewrite Z.eqb_refl. by rewrite HE. }
  rewrite He1 in He, Hr. split; [done|]. split.
  { cbn [sleep_heap]. pose proof (filter_length_le (fun p => negb (due (uptime e) p)) (heap_insert k (Timeout x None) h)) as Hf.
    pose proof (Permutation_length (heap_insert_perm k (Timeout x None) h Hc)) as Hp. cbn in *. lia. }
  cbv zeta. split; [cbn in *; lia|]. rewrite He, Hr. cbn. destruct (Z.ltb_spec k (uptime e + MIN_SLEEP_NS)).
  - by rewrite (proj2 (Z.leb_gt _ _)) by lia.
  - rewrite (proj2 (Z.leb_le _ _)) by lia. by rewrite app_nil_r.
Qed.

Lemma first_alarm s k c x : tt_ok s -> (k, c) ∈ entries x (sleep_heap s) -> exists a, last_alarm (tt_log s) = Some a /\ a <= k.
Proof.
  intros [Hh _ Ha] Hk. destruct (sleep_heap s) as [|p h]; [by apply not_elem_of_nil in Hk|]. exists p.1. split; [by eapply Ha|].
  unfold entries in Hk. apply list_elem_of_omap in Hk as ([k' r] & Hin & Hr). assert (k = k') as -> by (destruct r; cbn in Hr; [case_match; congruence|done]).
  apply elem_of_cons in Hin as [<-|Hin]; [done|]. apply StronglySorted_inv in Hh as [_ Hall]. rewrite Forall_forall in Hall. specialize (Hall _ Hin). unfold by_key in Hall. cbn in Hall. lia.
Qed.

(** C31. A thread that asks to sleep is woken once, at most 0.1 ms early, and as
    soon as the timer comes.  The condition is that all requests are [timely]: the
    clock and the times they ask for fit 64 bits (a request of anybody that breaks
    this does panic the server).  Then the loop goes on without a panic; the request stands for an
    uptime [k] at or after the one asked for, later by at most as many nanoseconds as
    requests were waiting; the thread is answered at most once, while the server
    handles some request with the uptime less than 0.1 ms before [k] or later; as long
    as it is not answered no timer interrupt came that late, and the timer is set to
    come no later than [k]. *)
Theorem sleeper_woken x e m s l n :
  tt_ok s -> entries x (sleep_heap s) = [] -> sm_id m = 1 -> timely n e (mkEnvelope x (BlockingScalar m)) ->
  Forall (fun p => timely n p.1 p.2 /\ env_sender p.2 <> x) l -> (length (sleep_heap s) + 1 + length l <= n)%nat ->
  exists k s', serve ((e, mkEnvelope x (BlockingScalar m)) :: l) s = Some (tt, s') /\ tt_ok s' /\
    let asked := uptime e + words (sm_arg1 m) (sm_arg2 m) in asked <= k <= asked + Z.of_nat (length (sleep_heap s)) /\
    ((returned x (tt_log s') = returned x (tt_log s) /\ Forall (fun p => interrupt p.2 = true -> uptime p.1 + MIN_SLEEP_NS <= k) l /\
      exists a, last_alarm (tt_log s') = Some a /\ a <= k) \/
     exists t, (t = uptime e \/ t ∈ (fun p => uptime p.1) <$> l) /\ k < t + MIN_SLEEP_NS /\ returned x (tt_log s') = returned x (tt_log s) ++ [(t, [1])]).
Proof.
  intros Hok HE Hm (H0 & H1 & _ & Ht) Hall Hn. cbn [env_body scalar_of] in Ht. rewrite Hm in Ht. change (default InvalidCall (Opcode_from_usize 1)) with Sleep in Ht. cbv iota in Ht.
  destruct (sleep_request x e m s Hok H0 H1 Hm ltac:(lia) HE) as (k & s1 & E1 & Hok1 & Hl1 & Hk & Hd). exists k. cbn [serve]. rewrite (bind_run _ _ _ _ _ E1).
  destruct (Z.ltb_spec k (uptime e + MIN_SLEEP_NS)) as [Hlt|Hge]; destruct Hd as [He1 Hr1].
  - destruct (serve_sleeper x n k l s1 Hok1 ltac:(lia) Hall ltac:(by left)) as (s2 & E2 & Hok2 & [(_ & Hr2 & _)|(He & _)]); [|by rewrite He in He1].
    exists s2. split; [done|]. split; [done|]. split; [done|]. right. exists (uptime e). split; [by left|]. split; [done|]. by rewrite Hr2, Hr1.
  - destruct (serve_sleeper x n k l s1 Hok1 ltac:(lia) Hall ltac:(by right)) as (s2 & E2 & Hok2 & H2). exists s2. split; [done|]. split; [done|]. split; [done|].
    destruct H2 as [(He2 & Hr2 & Hi)|(_ & _ & p & Hp & Hd & Hr2)].
    + left. split; [by rewrite Hr2, Hr1|]. split; [by apply Hi|]. apply (first_alarm s2 k None x); [done|]. rewrite He2, He1. set_solver.
    + right. exists (uptime p.1). split; [right; apply list_elem_of_fmap; by exists p|]. split; [done|]. by rewrite Hr2, Hr1.
Qed.

(** Sender 16777217 sleeps a millisecond while another one asks for the time. *)
Definition at_uptime (t : Z) : Env := mkEnv t 0 (fun _ => Err ServerNotFound) (fun _ => 0%nat).
Definition tt_new : TT := mkTT [] 0 [].
Lemma sleeper_woken_witness :
  let msg := mkEnvelope 16777217 (BlockingScalar (mkScalarMessage 1 1000000 0 0 0)) in
  let later := [(at_uptime 2000, mkEnvelope 33554433 (BlockingScalar (mkScalarMessage 0 0 0 0 0))); (at_uptime 1000005, mkEnvelope 1 (Scalar (mkScalarMessage 17 0 0 0 0)))] in
  exists k s', serve ((at_uptime 1000, msg) :: later) tt_new = Some (tt, s') /\ 1001000 <= k <= 1001000 /\
    returned 16777217 (tt_log s') = [(1000005, [1])].
Proof.
  intros msg later. destruct (sleeper_woken 16777217 (at_uptime 1000) (mkScalarMessage 1 1000000 0 0 0) tt_new later 3) as (k & s' & E & _ & Hk & _).
  - split; [constructor|cbn; lia|done].
  - done.
  - done.
  - split_and!; by vm_compute.
  - repeat (apply Forall_cons; split; [split; [split_and!; by vm_compute|done]|]). by apply Forall_nil.
  - cbn. lia.
  - exists k, s'. split; [exact E|]. split; [exact Hk|]. vm_compute in E. by injection E as <-.
Defined.

(** ** Conditions *)

Fixpoint without_first (f : TimerRequest -> bool) (n : nat) (h : list (Z * TimerRequest)) : list (Z * TimerRequest) :=
  match n, h with
  | S n', p :: h' => if f p.2 then without_first f n' h' else p :: without_first f n h'
  | _, _ => h
  end.

Lemma find_split {A} (f : A -> bool) l x : List.find f l = Some x -> exists l1 l2, l = l1 ++ x :: l2 /\ f x = true /\ Forall (fun y => f y = false) l1.
Proof.
  induction l as [|y l IH]; [done|]. cbn. destruct (f y) eqn:E; [intros [= ->]; by exists [], l|].
  intros (l1 & l2 & -> & Hx & Hl)%IH. exists (y :: l1), l2. split; [done|]. split; [done|]. by constructor.
Qed.
Lemma find_all_false {A} (f : A -> bool) l : List.find f l = None -> List.filter f l = [].
Proof. induction l as [|y l IH]; [done|]. cbn. by destruct (f y). Qed.
Lemma filter_all_false {A} (f : A -> bool) l : Forall (fun y => f y = false) l -> List.filter f l = [].
Proof. induction 1 as [|y l Hy _ IH]; [done|]. cbn. by rewrite Hy. Qed.

Lemma without_first_0 f h : without_first f 0 h = h.
Proof. by destruct h. Qed.
Lemma without_first_all_false f n h : Forall (fun p => f p.2 = false) h -> without_first f n h = h.
Proof. destruct n as [|n]; [by rewrite without_first_0|]. induction 1 as [|p h Hp _ IH]; [done|]. cbn. by rewrite Hp, IH. Qed.
Lemma without_first_S f n h1 p h2 : Forall (fun p => f p.2 = false) h1 -> f p.2 = true ->
  without_first f (S n) (h1 ++ p :: h2) = without_first f n (h1 ++ h2).
Proof.
  intros H1 Hp. induction H1 as [|q h1 Hq _ IH].
  - cbn. by rewrite Hp.
  - cbn [without_first app]. rewrite ?Hq, IH. destruct n as [|n]; cbn; rewrite ?Hq; by rewrite ?without_first_0.
Qed.

Lemma without_first_ok f n h : heap_ok h -> heap_ok (without_first f n h).
Proof.
  intros Hh. enough (heap_ok (without_first f n h) /\ forall p, p ∈ without_first f n h -> p ∈ h) by tauto. revert n. induction Hh as [|p h Hh IH Hall]; intros [|n]; try by split; [repeat constructor|].
  cbn. destruct (f p.2); [destruct (IH n) as [H1 H2]; split; [done|]; intros q Hq; apply elem_of_cons; right; by apply H2|].
  destruct (IH (S n)) as [H1 H2]. split; [constructor; [done|]|set_solver]. apply Forall_forall. intros q Hq. rewrite Forall_forall in Hall. by apply Hall, H2.
Qed.
Lemma without_first_perm f n h : take n (List.filter (fun p => f p.2) h) ++ without_first f n h ≡ₚ h.
Proof.
  revert n. induction h as [|p h IH]; intros [|n]; try done. cbn. destruct (f p.2) eqn:E; cbn; [by rewrite IH|].
  rewrite <- Permutation_middle. constructor. apply (IH (S n)).
Qed.

Lemma remove_middle h1 p h2 : heap_ok (h1 ++ p :: h2) -> heap_remove p.1 (h1 ++ p :: h2) = h1 ++ h2.
Proof.
  intros Hh. unfold heap_remove. rewrite List.filter_app. cbn. rewrite Z.eqb_refl. cbn. rewrite <- List.filter_app. apply forallb_filter_id, forallb_forall.
  intros q Hq%list_elem_of_In. apply negb_true_iff, Z.eqb_neq. intros Heq.
  apply elem_of_app in Hq as [Hq|Hq].
  - apply list_elem_of_split in Hq as (a & b & ->). rewrite <- app_assoc in Hh. cbn in Hh.
    assert (Hall : Forall (by_key q) (b ++ p :: h2)).
    { clear -Hh. induction a as [|y a IH]; cbn in Hh; apply StronglySorted_inv in Hh as [H1 H2]; [done|by apply IH]. }
    rewrite Forall_forall in Hall. specialize (Hall p ltac:(set_solver)). unfold by_key in Hall. lia.
  - assert (Hall : Forall (by_key p) h2).
    { clear -Hh. induction h1 as [|y a IH]; cbn in Hh; apply StronglySorted_inv in Hh as [H1 H2]; [done|by apply IH]. }
    rewrite Forall_forall in Hall. specialize (Hall q Hq). unfold by_key in Hall. lia.
Qed.

Lemma notify_exact e fuel pid c count nt h off log : heap_ok h -> (length h <= fuel)%nat -> let w := waits_for pid c in
  let n := Nat.min (Z.to_nat count) (length (List.filter (fun p => w p.2) h)) in
  notify_loop e fuel pid c count nt (mkTT h off log) = Some (nt + Z.of_nat n, mkTT (without_first w n h) off
    (log ++ ((fun p => (uptime e, answer_to p.2 false)) <$> take n (List.filter (fun p => w p.2) h)))).
Proof.
  intros Hh Hf w. subst w. revert count nt h log Hh Hf. induction fuel as [|fuel IH]; intros count nt h log Hh Hf; cbn [notify_loop];
    (destruct (Z.leb_spec count 0) as [Hc|Hc];
      [replace (Z.to_nat count) with 0%nat by lia; cbn [Nat.min take fmap list_fmap]; by rewrite without_first_0, app_nil_r, Z.add_0_r|]);
    unfold bind at 1, gets; cbn [sleep_heap]; destruct (List.find _ h) as [[k r]|] eqn:Ef;
    try (rewrite (find_all_false _ _ Ef); cbn [length]; rewrite Nat.min_0_r; cbn [take fmap list_fmap]; by rewrite without_first_0, app_nil_r, Z.add_0_r).
  { destruct h; [done|cbn in Hf; lia]. }
  apply find_split in Ef as (h1 & h2 & -> & Hw & Hno). cbn in Hw. unfold bind at 1, modify. rewrite (bind_run _ _ _ _ _ (respond_timer_run _ _ _ _)).
  cbn [set_heap sleep_heap time_offset tt_log]. rewrite (remove_middle h1 (k, r) h2 Hh : heap_remove k _ = _).
  rewrite length_app in Hf. cbn in Hf. rewrite IH; [|rewrite <- (remove_middle h1 (k, r) h2 Hh); by apply filter_ok|rewrite length_app; lia].
  rewrite !List.filter_app. rewrite (filter_all_false _ _ Hno). cbn [app List.filter snd]. rewrite Hw. cbn [length].
  replace (Z.to_nat count) with (S (Z.to_nat (count - 1))) by lia. rewrite <- Nat.succ_min_distr. cbn [take fmap list_fmap snd].
  rewrite (without_first_S _ _ h1 (k, r) h2) by done. rewrite <- app_assoc. cbn [app]. do 2 f_equal. lia.
Qed.

(** A notification of a condition wakes exactly the threads of the notifying
    process that wait for it, as many as asked for and those with the earliest
    deadlines first: each of them is told that it did not time out and leaves the
    heap, the notifier is told their number, nobody else is answered but those
    whose time is up, and what is left stays in the order of its deadlines. *)
Theorem condition_notified e s x m :
  tt_ok s -> 0 <= uptime e -> uptime e + MIN_SLEEP_NS < 2 ^ 64 -> sm_id m = 9 ->
  let waiting := List.filter (fun p => waits_for (MessageSender_pid x) (sm_arg1 m) p.2) (sleep_heap s) in
  let n := Nat.min (Z.to_nat (sm_arg2 m)) (length waiting) in
  let rest := without_first (waits_for (MessageSender_pid x) (sm_arg1 m)) n (sleep_heap s) in
  exists s', handle_message e (mkEnvelope x (BlockingScalar m)) s = Some (tt, s') /\ tt_ok s' /\
    take n waiting ++ rest ≡ₚ sleep_heap s /\
    sleep_heap s' = List.filter (fun p => uptime e + MIN_SLEEP_NS <=? p.1) rest /\
    tt_log s' = tt_log s ++ ((fun p => (uptime e, answer_to p.2 false)) <$> take n waiting) ++ [(uptime e, Return1 x (Z.of_nat n))] ++
      ((fun p => (uptime e, answer_to p.2 true)) <$> List.filter (fun p => p.1 <? uptime e + MIN_SLEEP_NS) rest) ++ alarm (uptime e) (sleep_heap s').
Proof.
  intros Hok H0 H1 Hm waiting n rest. unfold handle_message. cbn [env_body scalar_of env_sender]. rewrite Hm.
  change (default InvalidCall (Opcode_from_usize 9)) with NotifyCondition. cbv iota zeta. unfold bind at 1, gets. destruct s as [h off log]. cbn [sleep_heap tt_log] in *.
  rewrite (bind_run _ _ _ _ _ (notify_exact e (length h) (MessageSender_pid x) (sm_arg1 m) (sm_arg2 m) 0 h off log (ok_heap _ Hok) ltac:(lia))).
  fold waiting n rest. erewrite bind_run by reflexivity. unfold recalculate_sleep. erewrite bind_run by reflexivity. unfold bind at 1, gets. cbn [sleep_heap time_offset tt_log].
  assert (Hrest : heap_ok rest) by apply without_first_ok, (ok_heap _ Hok).
  rewrite (expire_run e rest off _ Hrest H0 H1). eexists. split; [reflexivity|]. cbn [sleep_heap tt_log].
  assert (Hle : List.filter (fun p => negb (due (uptime e) p)) rest = List.filter (fun p => uptime e + MIN_SLEEP_NS <=? p.1) rest).
  { apply List.filter_ext. intros p. unfold due. rewrite <- Z.leb_antisym. done. }
  rewrite Hle. split; [|split; [apply without_first_perm|split; [done|]]].
  - split; cbn; [by apply filter_ok|exact (ok_offset _ Hok)|]. intros [k r] h' Hk. unfold last_alarm. rewrite Hk, app_assoc, foldl_app. cbn. f_equal. lia.
  - rewrite <- !app_assoc. by rewrite Z.add_0_l.
Qed.

Definition two_waiting : TT :=
  mkTT [(700000, Timeout 16777218 (Some 64)); (800000, Timeout 33554433 (Some 64)); (900000, Timeout 16777219 (Some 64))] 0 [(0, StartSleep 700000)].
Lemma condition_notified_witness : exists s',
  handle_message (at_uptime 1000) (mkEnvelope 16777217 (BlockingScalar (mkScalarMessage 9 64 5 0 0))) two_waiting = Some (tt, s') /\
  sleep_heap s' = [(800000, Timeout 33554433 (Some 64))].
Proof.
  destruct (condition_notified (at_uptime 1000) two_waiting 16777217 (mkScalarMessage 9 64 5 0 0)) as (s' & E & _ & _ & Hh & _).
  - split; [|cbn; lia|by intros p h [= <- <-]]. repeat (constructor; [|repeat (constructor; [unfold by_key; cbn; lia|]); constructor]). constructor.
  - done.
  - done.
  - done.
  - exists s'. split; [exact E|]. rewrite Hh. by vm_compute.
Defined.

(** Times that do not fit the arithmetic of the server end it: a sleep or a
    wait that ends after the last representable nanosecond, a callback of more than
    18446744073709 ms, and a system time beyond the range of a signed word.  A wait
    for a condition with the timeout 0 times out at once. *)
Theorem timer_arguments e s x m b :
  0 <= uptime e -> uptime e + MIN_SLEEP_NS < 2 ^ 64 ->
  (sm_id m = 1 -> 2 ^ 64 <= uptime e + words (sm_arg1 m) (sm_arg2 m) -> handle_message e (mkEnvelope x (BlockingScalar m)) s = None) /\
  (sm_id m = 8 -> 2 ^ 64 <= uptime e + words (sm_arg2 m) (sm_arg3 m) -> handle_message e (mkEnvelope x (BlockingScalar m)) s = None) /\
  (sm_id m = 15 -> 18446744073709 < sm_arg1 m -> handle_message e (mkEnvelope x (if b : bool then BlockingScalar m else Scalar m)) s = None) /\
  (sm_id m = 13 -> 0 <= real_time e -> words (sm_arg1 m) (sm_arg2 m) = 2 ^ 63 -> handle_message e (mkEnvelope x (BlockingScalar m)) s = None) /\
  (sm_id m = 8 -> words (sm_arg2 m) (sm_arg3 m) = 0 -> sleep_heap s = [] -> exists s',
     handle_message e (mkEnvelope x (BlockingScalar m)) s = Some (tt, s') /\ sleep_heap s' = [] /\ tt_log s' = tt_log s ++ [(uptime e, Return1 x 1)]).
Proof.
  intros H0 H1. unfold handle_message. cbn [env_body scalar_of env_sender].
  assert (Hover : forall t r, 2 ^ 64 <= uptime e + t -> recalculate_sleep e (Some (t, r)) s = None).
  { intros t r Ht. unfold recalculate_sleep, bind at 1, bind at 1, add64, add_w. by rewrite (proj2 (Z.ltb_ge _ _) Ht). }
  split_and!.
  - intros -> Ht. change (default InvalidCall (Opcode_from_usize 1)) with Sleep. by apply Hover.
  - intros -> Ht. change (default InvalidCall (Opcode_from_usize 8)) with WaitForCondition. by apply Hover.
  - intros Hm Ha. destruct b; cbn [scalar_of]; rewrite Hm; change (default InvalidCall (Opcode_from_usize 15)) with RequestCallback; cbv iota;
      unfold request_callback, bind at 1; by rewrite (proj2 (Z.ltb_ge _ _)) by lia.
  - intros -> Hr ->. change (default InvalidCall (Opcode_from_usize 13)) with SetSystemTime. cbv iota. unfold set_system_time_ns, bind at 1, bind at 1, sub_i64.
    change (as_i64 (2 ^ 63)) with (- 2 ^ 63). rewrite (proj2 (andb_false_iff _ _)); [done|]. right. lia.
  - intros -> -> Hh. change (default InvalidCall (Opcode_from_usize 8)) with WaitForCondition. cbv iota. unfold recalculate_sleep.
    erewrite bind_run; [|erewrite bind_run by (apply add64_run; unfold MIN_SLEEP_NS in H1; lia); unfold bind at 1, gets; rewrite Hh; reflexivity].
    destruct s as [h off log]. cbn in Hh. subst h. unfold bind at 1, gets. cbn [sleep_heap heap_insert]. unfold set_heap. cbn [sleep_heap time_offset tt_log].
    rewrite expire_run; [|repeat constructor|done|done]. unfold due. cbn [List.filter fst]. rewrite (proj2 (Z.ltb_lt _ _)) by (unfold MIN_SLEEP_NS; lia).
    eexists. split; [reflexivity|]. done.
Qed.

Lemma timer_arguments_witness :
  handle_message (at_uptime 1000) (mkEnvelope 16777217 (BlockingScalar (mkScalarMessage 1 (2 ^ 32 - 1) (2 ^ 32 - 1) 0 0))) tt_new = None /\
  exists s', handle_message (at_uptime 1000) (mkEnvelope 16777217 (BlockingScalar (mkScalarMessage 8 64 0 0 0))) tt_new = Some (tt, s') /\
    tt_log s' = [(1000, Return1 16777217 1)].
Proof.
  destruct (timer_arguments (at_uptime 1000) tt_new 16777217 (mkScalarMessage 1 (2 ^ 32 - 1) (2 ^ 32 - 1) 0 0) true) as (H1 & _); [done|done|].
  destruct (timer_arguments (at_uptime 1000) tt_new 16777217 (mkScalarMessage 8 64 0 0 0) true) as (_ & _ & _ & _ & H2); [done|done|].
  split; [apply H1; [done|by vm_compute]|]. destruct (H2 eq_refl eq_refl eq_refl) as (s' & E & _ & Hl). exists s'. split; [exact E|exact Hl].
Defined.
