(* ===== verification/Names.v ===== *)
(** * The name server

    Models [xous/names/src/main.rs]: the tables of names and permissions, and the
    message loop that registers servers, connects clients with the rights their
    manifests give them, and lets clients wait for servers that do not exist yet.

    The system calls of the server are the class [NameCalls]; the parser of
    manifests (JSON) is the parameter [parse].  [HashMap]s and [HashSet]s are [gmap]s
    and [gset]s.  The log [ns_calls] records the answers of the kernel, the
    registrations and manifests that are accepted, the connections and the ranges of
    message numbers that are given, and the replies to clients: the words that the
    server writes to the start of the lent buffer.  A request whose name would lie outside the lent
    buffer is undefined behaviour of the code and stops the model. *)

From S2P Require Import Prelude Abi Bytes.
From Stdlib Require Import ZArith Lia Bool.
From stdpp Require Import gmap sorting.
Open Scope Z_scope.


(** ** Manifests

    [m_app_id] is [app_id_bytes], [None] when the text is not 16 hexadecimal bytes. *)
Record Manifest := mkManifest {
  m_app_id : option AppId;
  m_servers : list (str * list (str * MessageId));
  m_permissions : list (str * list str) }.

(** A request: the envelope, and the contents of the lent memory. *)
Record Request := mkRequest { rq_sender : MessageSender; rq_body : Message; rq_mem : list Z }.

Class NameCalls (K : Type) := {
  get_app_id : PID -> M K (res (option AppId) Error);
  connect_for_process : PID -> SID -> M K (res CID Error);
  allow_messages_on_connection : PID -> CID -> MessageId -> MessageId -> M K (res unit Error);
  return_scalar : MessageSender -> Z -> M K (res unit Error) }.

Inductive Call :=
| AppOf (pid : PID) (app : AppId)
| Registered (pid : PID) (name : str) (sid : SID)
| Added (pid : PID) (manifest : Manifest)
| Connected (pid : PID) (name : str) (sid : SID) (cid : CID)
| Allowed (pid : PID) (cid : CID) (lo hi : MessageId)
| Replied (sender : MessageSender) (words : list Z).

Inductive Opcode := Register | AddManifest | BlockingConnect | TryConnect.
Definition Opcode_from_usize (id : Z) : option Opcode :=
  match id with 0 => Some Register | 1 => Some AddManifest | 6 => Some BlockingConnect | 7 => Some TryConnect | _ => None end.

(** "os/nameserver" *)
Definition NAMESERVER : str := [111; 115; 47; 110; 97; 109; 101; 115; 101; 114; 118; 101; 114].

(** *** Reading a request *)

Definition sid_from_msg (r : Request) : option (res SID Error) :=
  match memory_message (rq_body r) with
  | None => Some (Err InvalidArguments)
  | Some _ =>
      if (16 <=? length (rq_mem r))%nat then
        let w i := from_le_bytes (take 4 (drop (4 * i) (rq_mem r))) in Some (Ok (SID_from_u32 (w 0%nat) (w 1%nat) (w 2%nat) (w 3%nat)))
      else None
  end.

Definition name_from_msg (r : Request) (offset : nat) : option (res str Error) :=
  match memory_message (rq_body r) with
  | None => Some (Err InvalidArguments)
  | Some msg =>
      let len := length (rq_mem r) in
      let valid_bytes := match mm_valid msg with Some v => Z.to_nat v | None => len end in
      if (len <? valid_bytes)%nat then Some (Err InvalidString)
      else if (offset + valid_bytes <=? len)%nat then
        let name := take valid_bytes (drop offset (rq_mem r)) in
        Some (if utf8_valid name then Ok name else Err InvalidString)
      else None
  end.

Section Server.
Context {K : Type} {HK : NameCalls K}.
(** [Manifest::try_from_bytes] *)
Variable parse : list Z -> option Manifest.

Record NameServer := mkNames {
  waiting_connections : list Request;
  name_table : gmap str SID;
  message_name_to_id : gmap (str * str) (list MessageId);
  register_permissions : gmap AppId (gset str);
  connect_permissions : gmap AppId (gmap str (list MessageId));
  ns_calls : list Call;
  ns_kernel : K }.

Definition set_waiting (l : list Request) (s : NameServer) : NameServer :=
  mkNames l (name_table s) (message_name_to_id s) (register_permissions s) (connect_permissions s) (ns_calls s) (ns_kernel s).
Definition set_names (t : gmap str SID) (s : NameServer) : NameServer :=
  mkNames (waiting_connections s) t (message_name_to_id s) (register_permissions s) (connect_permissions s) (ns_calls s) (ns_kernel s).
Definition set_ids (t : gmap (str * str) (list MessageId)) (s : NameServer) : NameServer :=
  mkNames (waiting_connections s) (name_table s) t (register_permissions s) (connect_permissions s) (ns_calls s) (ns_kernel s).
Definition set_register (t : gmap AppId (gset str)) (s : NameServer) : NameServer :=
  mkNames (waiting_connections s) (name_table s) (message_name_to_id s) t (connect_permissions s) (ns_calls s) (ns_kernel s).
Definition set_connect (t : gmap AppId (gmap str (list MessageId))) (s : NameServer) : NameServer :=
  mkNames (waiting_connections s) (name_table s) (message_name_to_id s) (register_permissions s) t (ns_calls s) (ns_kernel s).

Definition note (c : Call) : M NameServer unit :=
  modify (fun s => mkNames (waiting_connections s) (name_table s) (message_name_to_id s) (register_permissions s) (connect_permissions s) (ns_calls s ++ [c]) (ns_kernel s)).
Definition kcall {X} (op : M K X) : M NameServer X :=
  fun s => match op (ns_kernel s) with
           | Some (x, k) => Some (x, mkNames (waiting_connections s) (name_table s) (message_name_to_id s) (register_permissions s) (connect_permissions s) (ns_calls s) k)
           | None => None
           end.

(** *** Manifests *)

Fixpoint add_messages (server_name : str) (l : list (str * MessageId)) (t : gmap (str * str) (list MessageId)) : gmap (str * str) (list MessageId) :=
  match l with [] => t | (message_name, id) :: l => add_messages server_name l (<[(server_name, message_name) := [id]]> t) end.

Fixpoint add_servers (app_id : AppId) (l : list (str * list (str * MessageId))) : M NameServer unit :=
  match l with
  | [] => ret tt
  | (server_name, messages) :: l =>
      _ <- modify (fun s => set_register (<[app_id := {[server_name]} ∪ default ∅ (register_permissions s !! app_id)]> (register_permissions s)) s) ;;
      _ <- modify (fun s => set_ids (add_messages server_name messages (message_name_to_id s)) s) ;;
      add_servers app_id l
  end.
Definition process_manifest_servers (manifest : Manifest) : M NameServer (res unit Error) :=
  app_id <- expect (m_app_id manifest) ;;
  _ <- add_servers app_id (m_servers manifest) ;;
  ret (Ok tt).

(** The inner loop: the ids of the messages, or the failure at the first unknown one. *)
Fixpoint extend_ids (server_name : str) (l : list str) (t : gmap (str * str) (list MessageId)) (ids : list MessageId) : list MessageId * bool :=
  match l with
  | [] => (ids, true)
  | message_name :: l =>
      match t !! (server_name, message_name) with
      | None => (ids, false)
      | Some message_id => extend_ids server_name l t (ids ++ message_id)
      end
  end.

Definition put_permissions (app_id : AppId) (server_name : str) (ids : list MessageId) (s : NameServer) : NameServer :=
  set_connect (<[app_id := <[server_name := ids]> (default ∅ (connect_permissions s !! app_id))]> (connect_permissions s)) s.

Fixpoint add_permissions (app_id : AppId) (l : list (str * list str)) : M NameServer (res unit Error) :=
  match l with
  | [] => ret (Ok tt)
  | (server_name, messages) :: l =>
      s <- gets id ;;
      let old := default [] (default ∅ (connect_permissions s !! app_id) !! server_name) in
      let '(ids, found) := extend_ids server_name messages (message_name_to_id s) old in
      if found : bool then _ <- modify (put_permissions app_id server_name (merge_sort Z.le ids)) ;; add_permissions app_id l
      else _ <- modify (put_permissions app_id server_name ids) ;; ret (Err ServerNotFound)
  end.
Definition process_manifest_permissions (manifest : Manifest) : M NameServer (res unit Error) :=
  app_id <- expect (m_app_id manifest) ;;
  _ <- modify (fun s => set_connect (<[app_id := default ∅ (connect_permissions s !! app_id)]> (connect_permissions s)) s) ;;
  add_permissions app_id (m_permissions manifest).

(** [for manifest in ..], where an error is a panic *)
Fixpoint each_manifest (f : Manifest -> M NameServer (res unit Error)) (l : list Manifest) : M NameServer unit :=
  match l with
  | [] => ret tt
  | m :: l => r <- f m ;; match r with Ok _ => each_manifest f l | Err _ => panic end
  end.
Definition process_system_manifests (manifests : list (list Z)) : M NameServer unit :=
  parsed <- expect (mapM parse manifests) ;;
  _ <- each_manifest process_manifest_servers parsed ;;
  each_manifest process_manifest_permissions parsed.

(** *** Requests *)

(** [xous::get_app_id(msg.sender.pid().ok_or(..)?)?.ok_or(..)?] *)
Definition sender_app (r : Request) : M NameServer (res (PID * AppId) Error) :=
  match MessageSender_pid (rq_sender r) with
  | None => ret (Err ProcessNotFound)
  | Some pid =>
      o <-? kcall (get_app_id pid) ;;
      match o with
      | None => ret (Err ProcessNotFound)
      | Some app_id => _ <- note (AppOf pid app_id) ;; ret (Ok (pid, app_id))
      end
  end.

Fixpoint allow_all (pid : PID) (cid : CID) (l : list MessageId) : M NameServer unit :=
  match l with
  | [] => ret tt
  | permission :: l =>
      next <- add64 permission 1 ;;
      r <- kcall (allow_messages_on_connection pid cid permission next) ;;
      match r with
      | Ok _ => _ <- note (Allowed pid cid permission next) ;; allow_all pid cid l
      | Err _ => panic
      end
  end.

Definition connection_permissions (s : NameServer) (app_id : AppId) (server_name : str) : option (list MessageId) :=
  match default ∅ (connect_permissions s !! app_id) !! server_name with
  | Some ids => Some ids
  | None => if bool_decide (server_name ∈ default ∅ (register_permissions s !! app_id)) then Some [] else None
  end.

(** [Some cid] is [Connected], [None] is [Wait]. *)
Definition connect_impl (r : Request) : M NameServer (res (option CID) Error) :=
  app <-? sender_app r ;;
  let '(sender_pid, app_id) := app in
  server_name <-? expect (name_from_msg r 0) ;;
  s <- gets id ;;
  match name_table s !! server_name with
  | None => ret (Ok None)
  | Some server_sid =>
      match connection_permissions s app_id server_name with
      | None => ret (Err AccessDenied)
      | Some ids =>
          cid <-? kcall (connect_for_process sender_pid server_sid) ;;
          _ <- note (Connected sender_pid server_name server_sid cid) ;;
          _ <- allow_all sender_pid cid ids ;;
          ret (Ok (Some cid))
      end
  end.

Definition register_impl (r : Request) : M NameServer (res str Error) :=
  sid <-? expect (sid_from_msg r) ;;
  server_name <-? expect (name_from_msg r 16) ;;
  app <-? sender_app r ;;
  s <- gets id ;;
  match register_permissions s !! app.2 with
  | None => ret (Err AccessDenied)
  | Some names =>
      if negb (bool_decide (server_name ∈ names)) then ret (Err AccessDenied)
      else
        match name_table s !! server_name with
        | Some _ => ret (Err MemoryInUse)
        | None =>
            _ <- modify (set_names (<[server_name := sid]> (name_table s))) ;;
            _ <- note (Registered app.1 server_name sid) ;;
            ret (Ok server_name)
        end
  end.

(** The words written to the buffer; [memory_message_mut] refuses immutable lends. *)
Definition respond (r : Request) (words : list Z) : M NameServer unit :=
  match rq_body r with
  | MutableBorrow _ | Move _ =>
      _ <- assertb (4 * length words <=? length (rq_mem r))%nat ;; note (Replied (rq_sender r) words)
  | _ => panic
  end.
Definition respond_error (r : Request) (e : Error) : M NameServer unit := respond r [1; Error_as_usize e].
Definition respond_connect_success (r : Request) (cid : CID) : M NameServer unit := respond r [0; cid].
Definition respond_simple_success (r : Request) : M NameServer unit := respond r [0].

(** [Vec::swap_remove] *)
Definition swap_remove {A} (i : nat) (l : list A) : list A :=
  match last l with Some x => take (length l - 1) (<[i := x]> l) | None => l end.

Fixpoint wake_loop (fuel : nat) (server_name : str) (i : nat) : M NameServer unit :=
  match fuel with
  | O => panic
  | S fuel =>
      s <- gets id ;;
      match waiting_connections s !! i with
      | None => ret tt
      | Some msg =>
          n <- expect (name_from_msg msg 0) ;;
          if bool_decide (n = Ok server_name) then
            _ <- modify (fun s => set_waiting (swap_remove i (waiting_connections s)) s) ;;
            c <- connect_impl msg ;;
            _ <- match c with
                 | Err e => respond_error msg e
                 | Ok (Some cid) => respond_connect_success msg cid
                 | Ok None => panic
                 end ;;
            wake_loop fuel server_name i
          else wake_loop fuel server_name (i + 1)
      end
  end.
Definition wake_waiting_connections (server_name : str) : M NameServer unit :=
  s <- gets id ;; wake_loop (S (length (waiting_connections s))) server_name 0.

Definition add_manifest_impl (r : Request) : M NameServer (res unit Error) :=
  app <-? sender_app r ;;
  s <- gets id ;;
  match connect_permissions s !! app.2 with
  | None => ret (Err AccessDenied)
  | Some perms =>
      match perms !! NAMESERVER with
      | None => ret (Err AccessDenied)
      | Some ids =>
          if negb (bool_decide (1 ∈ ids)) then ret (Err AccessDenied)
          else
            match memory_message (rq_body r) with
            | None => ret (Err InvalidArguments)
            | Some msg =>
                let valid_bytes := match mm_valid msg with Some v => Z.to_nat v | None => length (rq_mem r) end in
                _ <- assertb (valid_bytes <=? length (rq_mem r))%nat ;;
                match parse (take valid_bytes (rq_mem r)) with
                | None => ret (Err ParseError)
                | Some manifest =>
                    _ <- note (Added app.1 manifest) ;;
                    _ <-? process_manifest_servers manifest ;;
                    process_manifest_permissions manifest
                end
            end
      end
  end.

(** The body of the loop of [run]; a request that is dropped without a response
    goes back to its sender as it is. *)
Definition handle_request (r : Request) : M NameServer unit :=
  if negb (is_blocking (rq_body r)) then ret tt
  else if negb (has_memory (rq_body r)) then
    x <- kcall (return_scalar (rq_sender r) 0) ;;
    match x with Ok _ => note (Replied (rq_sender r) [0]) | Err _ => panic end
  else
    match Opcode_from_usize (message_id (rq_body r)) with
    | Some Register =>
        x <- register_impl r ;;
        match x with
        | Ok name => _ <- respond_simple_success r ;; wake_waiting_connections name
        | Err e => respond_error r e
        end
    | Some AddManifest =>
        x <- add_manifest_impl r ;;
        match x with Ok _ => respond_simple_success r | Err e => respond_error r e end
    | Some op =>
        x <- connect_impl r ;;
        match x with
        | Err e => respond_error r e
        | Ok (Some cid) => respond_connect_success r cid
        | Ok None =>
            match op with
            | TryConnect => respond_error r ServerNotFound
            | _ => modify (fun s => set_waiting (waiting_connections s ++ [r]) s)
            end
        end
    | None => note (Replied (rq_sender r) [])
    end.

Fixpoint serve_names (l : list Request) : M NameServer unit :=
  match l with [] => ret tt | r :: l => _ <- handle_request r ;; serve_names l end.

End Server.

Arguments NameServer K : clear implicits.

(** ** Rights *)

Section Rights.
Context {K : Type} {HK : NameCalls K}.
Notation NS := (NameServer K).

Definition permitted (s : NS) (app : AppId) (name : str) (id : MessageId) : Prop :=
  exists ids, default ∅ (connect_permissions s !! app) !! name = Some ids /\ id ∈ ids.

(** *** What the manifests say

    The manifests that count are those of the system and those that were added
    before.  An application declares the servers of its manifest, with the number
    of each message; it may use the servers its manifest lists, with the messages
    listed there, by the number their server's manifest gives them. *)
Section Log.
Variable sys : list Manifest.

Definition known (log : list Call) (m : Manifest) : Prop := m ∈ sys \/ exists pid, Added pid m ∈ log.
Definition declares_server (log : list Call) (app : AppId) (name : str) : Prop :=
  exists m, known log m /\ m_app_id m = Some app /\ name ∈ (m_servers m).*1.
Definition uses_server (log : list Call) (app : AppId) (name : str) : Prop :=
  exists m, known log m /\ m_app_id m = Some app /\ name ∈ (m_permissions m).*1.
Definition message_number (log : list Call) (name message : str) (id : MessageId) : Prop :=
  exists m decls, known log m /\ (name, decls) ∈ m_servers m /\ (message, id) ∈ decls.
Definition may_send (log : list Call) (app : AppId) (name : str) (id : MessageId) : Prop :=
  exists m messages message, known log m /\ m_app_id m = Some app /\ (name, messages) ∈ m_permissions m /\ message ∈ messages /\
    message_number log name message id.

Definition is_grant (pid : PID) (cid : CID) (c : Call) : bool :=
  match c with Allowed p c' _ _ => (p =? pid) && (c' =? cid) | _ => false end.

(** When the server may do [c], after what it did before: [pre]. *)
Definition justified (pre : list Call) (c : Call) : Prop :=
  match c with
  | Registered pid name sid => exists app, last pre = Some (AppOf pid app) /\ declares_server pre app name /\
      forall pid' sid', Registered pid' name sid' ∉ pre
  | Added pid m => exists app, last pre = Some (AppOf pid app) /\ may_send pre app NAMESERVER 1
  | Connected pid name sid cid => exists app, last pre = Some (AppOf pid app) /\ (exists owner, Registered owner name sid ∈ pre) /\
      (uses_server pre app name \/ declares_server pre app name)
  | Allowed pid cid lo hi => hi = lo + 1 /\ exists app name sid before grants,
      pre = before ++ [AppOf pid app; Connected pid name sid cid] ++ grants /\ Forall (fun c => is_grant pid cid c = true) grants /\
      may_send pre app name lo
  | _ => True
  end.

Definition log_ok (log : list Call) : Prop := forall pre c post, log = pre ++ c :: post -> justified pre c.

Lemma log_ok_nil : log_ok [].
Proof. intros pre c post E. by destruct pre. Qed.

Lemma log_ok_snoc log c : log_ok log -> justified log c -> log_ok (log ++ [c]).
Proof.
  intros Hl Hc pre c' post E. destruct post as [|x post _] using rev_ind.
  - by apply app_inj_tail in E as [<- <-].
  - rewrite app_comm_cons, app_assoc in E. apply app_inj_tail in E as [E _]. by eapply Hl.
Qed.

Lemma known_mono log l m : known log m -> known (log ++ l) m.
Proof. intros [H|[p H]]; [by left|right; exists p; apply elem_of_app; by left]. Qed.
Lemma declares_mono log l app name : declares_server log app name -> declares_server (log ++ l) app name.
Proof. intros (m & H & ?). exists m. split; [by apply known_mono|done]. Qed.
Lemma uses_mono log l app name : uses_server log app name -> uses_server (log ++ l) app name.
Proof. intros (m & H & ?). exists m. split; [by apply known_mono|done]. Qed.
Lemma number_mono log l name message id : message_number log name message id -> message_number (log ++ l) name message id.
Proof. intros (m & d & H & ?). exists m, d. split; [by apply known_mono|done]. Qed.
Lemma may_send_mono log l app name id : may_send log app name id -> may_send (log ++ l) app name id.
Proof.
  intros (m & ms & mg & H & H1 & H2 & H3 & H4). exists m, ms, mg. split; [by apply known_mono|]. split_and!; [done..|by apply number_mono].
Qed.

(** The tables hold what the manifests say. *)
Record rights_ok (s : NS) : Prop := {
  ro_log : log_ok (ns_calls s);
  ro_names : forall name sid, name_table s !! name = Some sid -> exists pid, Registered pid name sid ∈ ns_calls s;
  ro_taken : forall pid name sid, Registered pid name sid ∈ ns_calls s -> is_Some (name_table s !! name);
  ro_ids : forall name message ids id, message_name_to_id s !! (name, message) = Some ids -> id ∈ ids -> message_number (ns_calls s) name message id;
  ro_register : forall app name, name ∈ default ∅ (register_permissions s !! app) -> declares_server (ns_calls s) app name;
  ro_uses : forall app name, is_Some (default ∅ (connect_permissions s !! app) !! name) -> uses_server (ns_calls s) app name;
  ro_send : forall app name id, permitted s app name id -> may_send (ns_calls s) app name id }.

Definition keeps {X} (op : M NS X) : Prop := forall s x s', op s = Some (x, s') -> rights_ok s -> rights_ok s'.

Lemma rights_same s s' : name_table s' = name_table s -> message_name_to_id s' = message_name_to_id s -> register_permissions s' = register_permissions s ->
  connect_permissions s' = connect_permissions s -> ns_calls s' = ns_calls s -> rights_ok s -> rights_ok s'.
Proof.
  intros E1 E2 E3 E4 E5 [H1 H2 H3 H4 H5 H6 H7]. unfold permitted in *. split; unfold permitted; rewrite ?E1, ?E2, ?E3, ?E4, ?E5; done.
Qed.

(** An entry of the log that is not a registration. *)
Lemma rights_note c s : (forall pid name sid, c <> Registered pid name sid) -> justified (ns_calls s) c -> rights_ok s ->
  exists s', note c s = Some (tt, s') /\ rights_ok s' /\ ns_calls s' = ns_calls s ++ [c] /\ connect_permissions s' = connect_permissions s.
Proof.
  intros Hc Hj [H1 H2 H3 H4 H5 H6 H7]. eexists. split; [reflexivity|]. split; [|done]. split; cbn.
  - by apply log_ok_snoc.
  - intros name sid Hn. destruct (H2 name sid Hn) as [pid Hp]. exists pid. apply elem_of_app. by left.
  - intros pid name sid [Hin|Hin%list_elem_of_singleton]%elem_of_app; [by eapply H3|]. by destruct (Hc pid name sid).
  - intros. apply number_mono. by eapply H4.
  - intros. by apply declares_mono, H5.
  - intros. by apply uses_mono, H6.
  - intros app name id Hp. by apply may_send_mono, H7.
Qed.

Lemma grants_ret {X} (x : X) : keeps (ret x).
Proof. by intros s y s' [= <- <-]. Qed.
Lemma grants_gets {X} (f : NS -> X) : keeps (gets f).
Proof. by intros s y s' [= <- <-]. Qed.
Lemma grants_expect {X} (o : option X) : keeps (expect o).
Proof. destruct o; [apply grants_ret|done]. Qed.
Lemma grants_assertb b : keeps (assertb b).
Proof. destruct b; [apply grants_ret|done]. Qed.
Lemma grants_bind {X Y} (op : M NS X) (f : X -> M NS Y) : keeps op -> (forall x, keeps (f x)) -> keeps (x <- op ;; f x).
Proof. intros Ho Hf s y s' (x & s1 & E1 & E2)%run_bind Hs. eapply Hf; [exact E2|]. by eapply Ho. Qed.
Lemma grants_kcall {X} (op : M K X) : keeps (kcall op).
Proof. intros s x s'. unfold kcall. destruct (op (ns_kernel s)) as [[y k]|]; [|done]. intros [= <- <-]. by apply rights_same. Qed.
Lemma grants_waiting f : keeps (modify (fun s => set_waiting (f s) s)).
Proof. intros s x s' [= <- <-]. by apply rights_same. Qed.
Lemma grants_replied sender words : keeps (note (Replied sender words)).
Proof. intros s x s' E Hs. destruct (rights_note (Replied sender words) s) as (s1 & E1 & H1 & _); [done..|]. congruence. Qed.

Lemma kcall_calls {X} (op : M K X) s x s' : kcall op s = Some (x, s') ->
  ns_calls s' = ns_calls s /\ name_table s' = name_table s /\ connect_permissions s' = connect_permissions s /\ register_permissions s' = register_permissions s.
Proof. unfold kcall. destruct (op (ns_kernel s)) as [[y k]|]; [|done]. by intros [= <- <-]. Qed.

(** *** Manifests *)

Lemma add_messages_lookup name l t name' message ids id :
  add_messages name l t !! (name', message) = Some ids -> id ∈ ids ->
  (name' = name /\ (message, id) ∈ l) \/ exists ids', t !! (name', message) = Some ids' /\ id ∈ ids'.
Proof.
  revert t. induction l as [|[mg i] l IH]; intros t; cbn [add_messages]; [by right; exists ids|]. intros Hl Hin.
  destruct (IH _ Hl Hin) as [[-> H]|(ids' & H & Hi)]; [left; split; [done|set_solver]|].
  rewrite lookup_insert in H. case_decide as Hk; [|right; by exists ids'].
  injection Hk as -> ->. injection H as <-. apply list_elem_of_singleton in Hi as ->. left. split; [done|set_solver].
Qed.

Section Known.
Context (m : Manifest) (app : AppId) (Happ : m_app_id m = Some app).

Lemma add_servers_rights l s x s' : (forall e, e ∈ l -> e ∈ m_servers m) -> known (ns_calls s) m ->
  add_servers app l s = Some (x, s') -> rights_ok s -> rights_ok s' /\ ns_calls s' = ns_calls s.
Proof.
  revert s. induction l as [|[name msgs] l IH]; intros s Hl Hk; cbn [add_servers]; [by intros [= <- <-]|].
  intros (u & s1 & [= <- <-] & (v & s2 & [= <- <-] & Hrun)%run_bind)%run_bind [H1 H2 H3 H4 H5 H6 H7].
  assert (Hin : (name, msgs) ∈ m_servers m) by (apply Hl; set_solver).
  eapply (IH _ ltac:(intros; apply Hl; set_solver)) in Hrun as [Hok Hc]; [done|done|]. split; cbn; try done.
  - intros name' message ids id Hlk Hid. destruct (add_messages_lookup _ _ _ _ _ _ _ Hlk Hid) as [[-> Hd]|(ids' & Hlk' & Hid')]; [by exists m, msgs|by eapply H4].
  - intros app' name'. rewrite lookup_insert. case_decide as Ha; [subst app'|by apply H5]. cbn. intros [->%elem_of_singleton|Hn]%elem_of_union; [|by apply H5].
    exists m. split; [done|]. split; [done|]. apply list_elem_of_fmap. by exists (name, msgs).
Qed.

Lemma servers_rights s x s' : known (ns_calls s) m -> process_manifest_servers m s = Some (x, s') -> rights_ok s -> rights_ok s' /\ ns_calls s' = ns_calls s.
Proof. unfold process_manifest_servers. rewrite Happ. intros Hk (a & s0 & [= <- <-] & (u & s1 & E & [= <- <-])%run_bind)%run_bind. by eapply add_servers_rights. Qed.

Lemma extend_ids_sound name l t ids ids' b id : extend_ids name l t ids = (ids', b) -> id ∈ ids' ->
  id ∈ ids \/ exists message new, message ∈ l /\ t !! (name, message) = Some new /\ id ∈ new.
Proof.
  revert ids. induction l as [|mg l IH]; intros ids; cbn; [intros [= <- <-]; by left|].
  destruct (t !! (name, mg)) as [new|] eqn:E; [|intros [= <- <-]; by left]. intros Hx Hin.
  destruct (IH _ Hx Hin) as [[H|H]%elem_of_app|(mg' & new' & H1 & H2)]; [by left|right; exists mg, new; set_solver|right; exists mg', new'; set_solver].
Qed.

Lemma put_permissions_rights name messages ids s : known (ns_calls s) m -> (name, messages) ∈ m_permissions m ->
  (forall id, id ∈ ids -> may_send (ns_calls s) app name id) -> rights_ok s -> rights_ok (put_permissions app name ids s).
Proof.
  intros Hk Hin Hids [H1 H2 H3 H4 H5 H6 H7]. unfold put_permissions, permitted in *. split; cbn; try done.
  - intros app' name'. rewrite lookup_insert. case_decide as Ha; [subst app'|by apply H6]. cbn. rewrite lookup_insert. case_decide as Hn; [subst name'|by apply H6].
    intros _. exists m. split; [done|]. split; [done|]. apply list_elem_of_fmap. by exists (name, messages).
  - intros app' name' id (l & Hl & Hid). cbn in Hl. rewrite lookup_insert in Hl. case_decide as Ha; [subst app'|by apply H7; exists l]. cbn in Hl.
    rewrite lookup_insert in Hl. case_decide as Hn; [subst name'|by apply H7; exists l]. injection Hl as <-. by apply Hids.
Qed.

Lemma add_permissions_rights l s x s' : (forall e, e ∈ l -> e ∈ m_permissions m) -> known (ns_calls s) m ->
  add_permissions app l s = Some (x, s') -> rights_ok s -> rights_ok s' /\ ns_calls s' = ns_calls s.
Proof.
  revert s. induction l as [|[name msgs] l IH]; intros s Hl Hk; cbn [add_permissions]; [by intros [= <- <-]|].
  unfold bind at 1, gets. cbn [id]. set (old := default [] _). destruct (extend_ids name msgs (message_name_to_id s) old) as [ids found] eqn:E. intros Hrun Hs.
  assert (Hin : (name, msgs) ∈ m_permissions m) by (apply Hl; set_solver).
  assert (Hids : forall id, id ∈ ids -> may_send (ns_calls s) app name id).
  { intros id Hid. destruct (extend_ids_sound _ _ _ _ _ _ _ E Hid) as [Ho|(mg & new & Hmg & Hnew & Hi)].
    - apply (ro_send _ Hs). subst old. unfold permitted. destruct (default ∅ (connect_permissions s !! app) !! name) as [o|]; [by exists o|by apply not_elem_of_nil in Ho].
    - exists m, msgs, mg. split_and!; [done..|]. by eapply (ro_ids _ Hs). }
  destruct found; apply run_bind in Hrun as (u & s1 & [= <- <-] & Hrun).
  - apply IH in Hrun as [Hok Hc]; [done|intros; apply Hl; set_solver|done|]. eapply put_permissions_rights; [done|exact Hin| |done].
    intros id. rewrite merge_sort_Permutation. apply Hids.
  - injection Hrun as <- <-. split; [|done]. by eapply put_permissions_rights.
Qed.

Lemma permissions_rights s x s' : known (ns_calls s) m -> process_manifest_permissions m s = Some (x, s') -> rights_ok s -> rights_ok s' /\ ns_calls s' = ns_calls s.
Proof.
  unfold process_manifest_permissions. rewrite Happ. intros Hk (a & s0 & [= <- <-] & (u & s1 & [= <- <-] & E)%run_bind)%run_bind Hs.
  eapply add_permissions_rights in E as [Hok Hc]; [done|done|exact Hk|]. destruct Hs as [H1 H2 H3 H4 H5 H6 H7]. unfold permitted in *.
  assert (Hsame : forall a, default ∅ (<[app := default ∅ (connect_permissions s !! app)]> (connect_permissions s) !! a) = default ∅ (connect_permissions s !! a))
    by (intros a; rewrite lookup_insert; case_decide; [by subst a|done]).
  split; cbn; try done; intros a n; [rewrite Hsame; apply H6|]. intros id (ids & Hl & Hi). rewrite Hsame in Hl. apply H7. by exists ids.
Qed.

End Known.

Lemma each_rights f l s x s' :
  (forall m s x s', m ∈ l -> f m s = Some (x, s') -> rights_ok s -> rights_ok s' /\ ns_calls s' = ns_calls s) ->
  each_manifest f l s = Some (x, s') -> rights_ok s -> rights_ok s'.
Proof.
  revert s. induction l as [|m l IH]; intros s Hf; cbn [each_manifest]; [by intros [= <- <-]|]. intros (r & s1 & E1 & Hrun)%run_bind Hs.
  destruct r as [u|e]; [|done]. destruct (Hf m s _ _ ltac:(set_solver) E1 Hs) as [H1 _]. eapply IH; [|exact Hrun|done]. intros m' t y t' Hm. apply Hf. set_solver.
Qed.

(** A manifest without an application stops both functions. *)
Lemma servers_app m (s : NS) x s' : process_manifest_servers m s = Some (x, s') -> exists app, m_app_id m = Some app.
Proof. unfold process_manifest_servers. destruct (m_app_id m) as [app|]; [by exists app|done]. Qed.
Lemma permissions_app m (s : NS) x s' : process_manifest_permissions m s = Some (x, s') -> exists app, m_app_id m = Some app.
Proof. unfold process_manifest_permissions. destruct (m_app_id m) as [app|]; [by exists app|done]. Qed.

(** *** Requests *)

Lemma grants_sender_app r : keeps (sender_app r).
Proof.
  unfold sender_app. case_match; [|apply grants_ret]. apply grants_bind; [apply grants_kcall|]. intros [[a|]|e]; [|apply grants_ret..].
  apply grants_bind; [|intros; apply grants_ret]. intros s x s' E Hs. edestruct (rights_note (AppOf p a) s) as (s1 & E1 & H1 & _); [done..|]. congruence.
Qed.

Lemma sender_app_logged r s pid app s' : sender_app r s = Some (Ok (pid, app), s') -> exists before, ns_calls s' = before ++ [AppOf pid app].
Proof.
  unfold sender_app. case_match; [|done]. intros (o & s1 & _ & Hrun)%run_bind. destruct o as [[a|]|]; try done.
  apply run_bind in Hrun as (u & s2 & [= <- <-] & [= <- <- <-]). by eexists.
Qed.

Lemma allow_all_rights pid cid ids s x s' app name sid before grants : allow_all pid cid ids s = Some (x, s') ->
  ns_calls s = before ++ [AppOf pid app; Connected pid name sid cid] ++ grants -> Forall (fun c => is_grant pid cid c = true) grants ->
  (forall id, id ∈ ids -> may_send (ns_calls s) app name id) -> rights_ok s -> rights_ok s'.
Proof.
  revert s grants. induction ids as [|i ids IH]; intros s grants; cbn [allow_all]; [by intros [= <- <-]|]. intros (next & s1 & E1 & Hrun)%run_bind.
  unfold add64, add_w in E1. case_match; [|done]. injection E1 as <- <-. apply run_bind in Hrun as (y & s2 & E2 & Hrun). destruct y as [u|err]; [|done].
  intros Hlog Hg Hids Hs. pose proof (grants_kcall _ _ _ _ E2 Hs) as Hs2. apply kcall_calls in E2 as (Hc & _).
  apply run_bind in Hrun as (v & s3 & E3 & Hrun). rewrite <- Hc in Hlog, Hids.
  destruct (rights_note (Allowed pid cid i (i + 1)) s2) as (s4 & E4 & H4 & C4 & _); [done| |done|].
  { split; [done|]. exists app, name, sid, before, grants. split; [done|]. split; [done|]. apply Hids. set_solver. }
  rewrite E4 in E3. injection E3 as _ <-. eapply (IH s4 (grants ++ [Allowed pid cid i (i + 1)])); [exact Hrun| | | |done].
  - by rewrite C4, Hlog, <- !app_assoc.
  - apply Forall_app. split; [done|]. repeat constructor. cbn. by rewrite !Z.eqb_refl.
  - intros j Hj. rewrite C4. apply may_send_mono, Hids. set_solver.
Qed.

Lemma connection_rights s app name ids : rights_ok s -> connection_permissions s app name = Some ids ->
  (uses_server (ns_calls s) app name \/ declares_server (ns_calls s) app name) /\ forall id, id ∈ ids -> may_send (ns_calls s) app name id.
Proof.
  intros Hs. unfold connection_permissions. destruct (default ∅ (connect_permissions s !! app) !! name) as [l|] eqn:El.
  - intros [= ->]. split; [left; apply (ro_uses _ Hs); by exists ids|]. intros id Hid. apply (ro_send _ Hs). by exists ids.
  - case_bool_decide as Hr; [|done]. intros [= <-]. split; [right; by apply (ro_register _ Hs)|]. by intros id ?%not_elem_of_nil.
Qed.

Lemma grants_connect r : keeps (connect_impl r).
Proof.
  intros s x s' (a & s1 & E1 & Hrun)%run_bind Hs. pose proof (grants_sender_app r _ _ _ E1 Hs) as Hs1.
  destruct a as [[pid app]|e]; [|by injection Hrun as <- <-]. apply sender_app_logged in E1 as [before Hlog]. apply run_bind in Hrun as (n & s2 & E2 & Hrun).
  destruct (name_from_msg r 0) as [n'|]; [|done]. injection E2 as -> <-. destruct n as [name|e]; [|by injection Hrun as <- <-].
  unfold bind at 1, gets in Hrun. cbn [id] in Hrun. destruct (name_table s1 !! name) as [sid|] eqn:En; [|by injection Hrun as <- <-].
  destruct (connection_permissions s1 app name) as [ids|] eqn:Ep; [|by injection Hrun as <- <-].
  destruct (connection_rights _ _ _ _ Hs1 Ep) as [Huse Hsend]. destruct (ro_names _ Hs1 _ _ En) as [owner Hown].
  apply run_bind in Hrun as (c & s3 & E3 & Hrun). pose proof (grants_kcall _ _ _ _ E3 Hs1) as Hs3. apply kcall_calls in E3 as (Hc & _).
  destruct c as [cid|e]; [|by injection Hrun as <- <-]. apply run_bind in Hrun as (u & s4 & E4 & Hrun). rewrite <- Hc in *.
  destruct (rights_note (Connected pid name sid cid) s3) as (s5 & E5 & H5 & C5 & _); [done| |done|].
  { exists app. split; [rewrite Hlog; apply last_snoc|]. split; [by exists owner|done]. }
  rewrite E5 in E4. injection E4 as _ <-. apply run_bind in Hrun as (v & s6 & E6 & [= <- <-]).
  eapply (allow_all_rights pid cid ids s5 v s6 app name sid before []); [exact E6| |constructor| |done].
  - rewrite C5, Hlog, <- app_assoc. done.
  - intros id Hid. rewrite C5. by apply may_send_mono, Hsend.
Qed.

Lemma grants_register r : keeps (register_impl r).
Proof.
  intros s x s' (sid & s1 & E1 & Hrun)%run_bind Hs. pose proof (grants_expect _ _ _ _ E1 Hs) as Hs1. clear E1. destruct sid as [sid|e]; [|by injection Hrun as <- <-].
  apply run_bind in Hrun as (n & s2 & E2 & Hrun). pose proof (grants_expect _ _ _ _ E2 Hs1) as Hs2. clear E2. destruct n as [name|e]; [|by injection Hrun as <- <-].
  apply run_bind in Hrun as (a & s3 & E3 & Hrun). pose proof (grants_sender_app r _ _ _ E3 Hs2) as Hs3. destruct a as [[pid app]|e]; [|by injection Hrun as <- <-].
  apply sender_app_logged in E3 as [before Hlog]. unfold bind at 1, gets in Hrun. cbn [id fst snd] in Hrun.
  destruct (register_permissions s3 !! app) as [names|] eqn:Er; [|by injection Hrun as <- <-]. destruct (negb _) eqn:Em; [by injection Hrun as <- <-|].
  apply negb_false_iff, bool_decide_eq_true in Em. destruct (name_table s3 !! name) eqn:En; [by injection Hrun as <- <-|].
  apply run_bind in Hrun as (u & s4 & [= <- <-] & (v & s5 & [= <- <-] & [= <- <-])%run_bind).
  assert (Hfresh : forall pid' sid', Registered pid' name sid' ∉ ns_calls s3) by (intros pid' sid' Hin; apply (ro_taken _ Hs3) in Hin as [? ?]; congruence).
  assert (Hdec : declares_server (ns_calls s3) app name) by (apply (ro_register _ Hs3); by rewrite Er).
  destruct Hs3 as [H1 H2 H3 H4 H5 H6 H7]. split; cbn.
  - apply log_ok_snoc; [done|]. exists app. split; [rewrite Hlog; apply last_snoc|done].
  - intros name' sid'. rewrite lookup_insert. case_decide as Hn; [subst name'; intros [= <-]; exists pid; apply elem_of_app; right; set_solver|].
    intros Hl. destruct (H2 _ _ Hl) as [p Hp]. exists p. apply elem_of_app. by left.
  - intros p name' sid' [Hin|Hin%list_elem_of_singleton]%elem_of_app; rewrite lookup_insert; case_decide; [by eexists|by eapply H3|by eexists|congruence].
  - intros. apply number_mono. by eapply H4.
  - intros. by apply declares_mono, H5.
  - intros. by apply uses_mono, H6.
  - intros. by apply may_send_mono, H7.
Qed.

Lemma grants_respond r words : keeps (respond r words).
Proof. unfold respond. destruct (rq_body r); try done; (apply grants_bind; [apply grants_assertb|]; intros _; apply grants_replied). Qed.

Lemma grants_add_manifest parse r : keeps (add_manifest_impl parse r).
Proof.
  intros s x s' (a & s1 & E1 & Hrun)%run_bind Hs. pose proof (grants_sender_app r _ _ _ E1 Hs) as Hs1.
  destruct a as [[pid app]|e]; [|by injection Hrun as <- <-]. apply sender_app_logged in E1 as [before Hlog].
  unfold bind at 1, gets in Hrun. cbn [id fst snd] in Hrun. destruct (connect_permissions s1 !! app) as [perms|] eqn:Ep; [|by injection Hrun as <- <-].
  destruct (perms !! NAMESERVER) as [ids|] eqn:Ei; [|by injection Hrun as <- <-]. destruct (negb _) eqn:Em; [by injection Hrun as <- <-|].
  apply negb_false_iff, bool_decide_eq_true in Em. destruct (memory_message (rq_body r)) as [msg|]; [|by injection Hrun as <- <-].
  apply run_bind in Hrun as (u & s2 & E2 & Hrun). pose proof (grants_assertb _ _ _ _ E2) as Hk. destruct (_ <=? _)%nat; [|done]. injection E2 as _ <-.
  destruct (parse _) as [m|]; [|by injection Hrun as <- <-].
  assert (Hmay : may_send (ns_calls s1) app NAMESERVER 1) by (apply (ro_send _ Hs1); exists ids; by rewrite Ep).
  destruct (rights_note (Added pid m) s1) as (s3 & E3 & H3 & C3 & _); [done|exists app; split; [rewrite Hlog; apply last_snoc|done]|done|].
  rewrite (bind_run _ _ _ _ _ E3) in Hrun. assert (Hkn : known (ns_calls s3) m) by (right; exists pid; rewrite C3; set_solver).
  apply run_bind in Hrun as (y & s4 & E4 & Hrun). destruct (servers_app _ _ _ _ E4) as [ap Hap].
  destruct (servers_rights m ap Hap _ _ _ Hkn E4 H3) as [H4 C4]. destruct y as [v|e]; [|by injection Hrun as <- <-].
  eapply (permissions_rights m ap Hap); [|exact Hrun|done]. by rewrite C4.
Qed.

Create HintDb rights.
#[local] Hint Resolve grants_ret grants_gets grants_expect grants_assertb grants_kcall grants_replied grants_connect grants_register grants_add_manifest grants_respond grants_waiting : rights.
#[local] Hint Extern 1 (keeps (respond_error _ _)) => apply grants_respond : rights.
#[local] Hint Extern 1 (keeps (respond_connect_success _ _)) => apply grants_respond : rights.
#[local] Hint Extern 1 (keeps (respond_simple_success _)) => apply grants_respond : rights.
#[local] Hint Extern 1 (keeps panic) => done : rights.

Lemma grants_wake fuel name i : keeps (wake_loop fuel name i).
Proof.
  revert i. induction fuel as [|fuel IH]; intros i; cbn [wake_loop]; [done|]. apply grants_bind; [auto with rights|]. intros s. case_match; [|auto with rights].
  apply grants_bind; [auto with rights|]. intros n. case_bool_decide; [|apply IH]. apply grants_bind; [apply grants_waiting|].
  intros _. apply grants_bind; [auto with rights|]. intros c. apply grants_bind; [|intros _; apply IH]. destruct c as [[cid|]|e]; auto with rights.
Qed.

Lemma grants_handle parse r : keeps (handle_request parse r).
Proof.
  unfold handle_request. case_match; [auto with rights|]. case_match; [apply grants_bind; [auto with rights|]; intros []; auto with rights|].
  assert (Hc : forall op, keeps (x <- connect_impl r ;; match x with Err e => respond_error r e | Ok (Some cid) => respond_connect_success r cid
    | Ok None => match op with TryConnect => respond_error r ServerNotFound | _ => modify (fun s => set_waiting (waiting_connections s ++ [r]) s) end end)).
  { intros op. apply grants_bind; [auto with rights|]. intros [[cid|]|e]; [auto with rights| |auto with rights]. destruct op; auto with rights; apply grants_waiting. }
  destruct (Opcode_from_usize (message_id (rq_body r))) as [[]|]; [| |apply (Hc BlockingConnect)|apply (Hc TryConnect)|auto with rights].
  - apply grants_bind; [auto with rights|]. intros [name|e]; [|auto with rights]. apply grants_bind; [auto with rights|].
    intros _. unfold wake_waiting_connections. apply grants_bind; [auto with rights|]. intros s. apply grants_wake.
  - apply grants_bind; [auto with rights|]. intros []; auto with rights.
Qed.

Lemma grants_serve parse l : keeps (serve_names parse l).
Proof. induction l as [|r l IH]; cbn [serve_names]; [auto with rights|]. apply grants_bind; [apply grants_handle|]. by intros _. Qed.

End Log.

Definition names_new (k : K) : NS := mkNames [] ∅ ∅ ∅ ∅ [] k.

Lemma names_new_rights sys k : rights_ok sys (names_new k).
Proof.
  split; cbn; try done; [apply log_ok_nil|by intros ? ? ? ?%not_elem_of_nil|intros ? ? [? ?]; done|]. intros app name id (ids & ? & _). done.
Qed.

Lemma system_rights parse manifests s s' : process_system_manifests parse manifests s = Some (tt, s') ->
  exists sys, mapM parse manifests = Some sys /\ (rights_ok sys s -> rights_ok sys s').
Proof.
  intros (ms & s1 & E1 & Hrun)%run_bind. destruct (mapM parse manifests) as [sys|]; [|done]. injection E1 as -> <-. exists ms. split; [done|]. intros Hs.
  apply run_bind in Hrun as (u & s2 & E2 & E3). eapply each_rights; [|exact E3|eapply each_rights; [|exact E2|done]].
  - intros m t x t' Hm E. destruct (permissions_app _ _ _ _ E) as [app Ha]. eapply permissions_rights; [exact Ha|by left|exact E].
  - intros m t x t' Hm E. destruct (servers_app _ _ _ _ E) as [app Ha]. eapply servers_rights; [exact Ha|by left|exact E].
Qed.

End Rights.


(** ** Every request is answered once *)

(** What the server relies on: system calls return, a connection that was made can
    be given rights, and a blocked sender can be answered. *)
Class NameLaws (K : Type) {HK : NameCalls K} := {
  connected : K -> PID -> CID -> Prop;
  app_law : forall pid k, exists r k', get_app_id pid k = Some (r, k');
  connect_law : forall pid sid k, exists r k', connect_for_process pid sid k = Some (r, k') /\ forall cid, r = Ok cid -> connected k' pid cid;
  allow_law : forall pid cid lo hi k, connected k pid cid -> exists k', allow_messages_on_connection pid cid lo hi k = Some (Ok tt, k') /\ connected k' pid cid;
  scalar_law : forall sender v k, exists k', return_scalar sender v k = Some (Ok tt, k') }.

Lemma name_at_start r : exists n, name_from_msg r 0 = Some n.
Proof. unfold name_from_msg. case_match; [|by eexists]. case_match; [by eexists|]. cbn [Nat.add]. rewrite (proj2 (Nat.leb_le _ _)) by (apply Nat.ltb_ge; done). by eexists. Qed.

Lemma swap_remove_snoc {A} i (l : list A) y : (i <= length l)%nat -> swap_remove i (l ++ [y]) = <[i := y]> l.
Proof.
  intros Hi. unfold swap_remove. rewrite last_snoc, length_app. cbn. rewrite Nat.add_sub. destruct (decide (i < length l)%nat) as [Hlt|Hge].
  - rewrite insert_app_l by done. by rewrite take_app_length' by (by rewrite length_insert).
  - rewrite (list_insert_ge l) by lia. replace i with (length l + 0)%nat by lia. rewrite insert_app_r. cbn. by rewrite take_app_length' by done.
Qed.

Lemma swap_remove_perm {A} i (l : list A) x : l !! i = Some x -> l ≡ₚ x :: swap_remove i l.
Proof.
  destruct l as [|y l _] using rev_ind; [done|]. intros Hx. pose proof (lookup_lt_Some _ _ _ Hx) as Hlt. rewrite length_app in Hlt. cbn in Hlt.
  rewrite swap_remove_snoc by lia. destruct (decide (i < length l)%nat) as [Hi|Hi].
  - rewrite lookup_app_l in Hx by done. rewrite (Permutation_app_comm l). cbn. rewrite insert_take_drop by done.
    rewrite <- (take_drop_middle l i x Hx) at 1. rewrite <- !Permutation_middle. by rewrite Permutation_swap.
  - rewrite list_insert_ge by lia. rewrite lookup_app_r in Hx by lia. replace (i - length l)%nat with 0%nat in Hx by lia. injection Hx as ->.
    by rewrite Permutation_app_comm.
Qed.

Lemma swap_remove_before {A} i j (l : list A) : (j < i)%nat -> (i < length l)%nat -> swap_remove i l !! j = l !! j.
Proof.
  intros Hj Hi. destruct l as [|y l _] using rev_ind; [cbn in Hi; lia|]. rewrite length_app in Hi. cbn in Hi. rewrite swap_remove_snoc by lia.
  rewrite list_lookup_insert_ne by lia. by rewrite lookup_app_l by lia.
Qed.

Section Answers.
Context {K : Type} {HK : NameCalls K} {HL : NameLaws K}.
Variable parse : list Z -> option Manifest.
Notation NS := (NameServer K).

Definition replied (s : NS) : list MessageSender := omap (fun c => match c with Replied x _ => Some x | _ => None end) (ns_calls s).
(** The senders that have been answered or wait. *)
Definition accounted (s : NS) : list MessageSender := replied s ++ (rq_sender <$> waiting_connections s).

Definition id_ok (i : MessageId) : Prop := i + 1 < 2 ^ 64.
Definition manifest_ok (m : Manifest) : Prop :=
  is_Some (m_app_id m) /\ Forall (fun s => Forall (fun x => id_ok x.2) s.2) (m_servers m).
Definition request_ok (r : Request) : Prop :=
  match rq_body r with
  | Borrow _ => False
  | MutableBorrow m =>
      (16 <= length (rq_mem r))%nat /\ (mm_id m = 0 -> is_Some (name_from_msg r 16)) /\
      (mm_id m = 1 -> let valid := match mm_valid m with Some v => Z.to_nat v | None => length (rq_mem r) end in
        (valid <= length (rq_mem r))%nat /\ forall mf, parse (take valid (rq_mem r)) = Some mf -> manifest_ok mf)
  | _ => True
  end.
Definition lent (r : Request) : Prop := exists m, rq_body r = MutableBorrow m /\ (16 <= length (rq_mem r))%nat.

(** Nobody waits for a name that is registered, those of [P] apart. *)
Definition waits_ok (P : str -> Prop) (s : NS) : Prop :=
  forall r, r ∈ waiting_connections s -> lent r /\ exists name, name_from_msg r 0 = Some (Ok name) /\ (name_table s !! name = None \/ P name).
Record tables_ok (s : NS) : Prop := {
  no_ids : forall key ids, message_name_to_id s !! key = Some ids -> Forall id_ok ids;
  no_permitted : forall app name id, permitted s app name id -> id_ok id }.
Definition names_ok (s : NS) : Prop := tables_ok s /\ waits_ok (fun _ => False) s.

Record same (s s' : NS) : Prop := {
  same_waiting : waiting_connections s' = waiting_connections s;
  same_names : name_table s' = name_table s;
  same_ids : message_name_to_id s' = message_name_to_id s;
  same_connect : connect_permissions s' = connect_permissions s;
  same_replied : replied s' = replied s }.

Lemma same_refl s : same s s.
Proof. by split. Qed.
Lemma same_trans s1 s2 s3 : same s1 s2 -> same s2 s3 -> same s1 s3.
Proof. intros [] []. split; congruence. Qed.
Lemma same_ok s s' : same s s' -> tables_ok s -> tables_ok s'.
Proof. intros [E1 E2 E3 E4 _] []. split; [by rewrite E3|]. intros app name id. unfold permitted. rewrite E4. apply no_permitted0. Qed.
Lemma same_waits P s s' : same s s' -> waits_ok P s -> waits_ok P s'.
Proof. intros [E1 E2 _ _ _]. unfold waits_ok. by rewrite E1, E2. Qed.
Lemma same_accounted s s' : same s s' -> accounted s' = accounted s.
Proof. intros [E1 _ _ _ E2]. unfold accounted. by rewrite E1, E2. Qed.

Lemma kcall_run {X} (op : M K X) s x k : op (ns_kernel s) = Some (x, k) -> exists s', kcall op s = Some (x, s') /\ same s s' /\ ns_kernel s' = k.
Proof. intros E. eexists. split; [unfold kcall; rewrite E; reflexivity|]. by split. Qed.
Lemma note_run c s : (forall x w, c <> Replied x w) -> exists s', note c s = Some (tt, s') /\ same s s' /\ ns_kernel s' = ns_kernel s.
Proof.
  intros Hc. eexists. split; [reflexivity|]. split; [|done]. split; try done. unfold replied. cbn. rewrite omap_app. destruct c; cbn; try by rewrite app_nil_r. by destruct (Hc sender words).
Qed.

Lemma sender_app_run r s : exists x s', sender_app r s = Some (x, s') /\ same s s'.
Proof.
  unfold sender_app. destruct (MessageSender_pid (rq_sender r)) as [pid|]; [|exists (Err ProcessNotFound), s; split; [done|apply same_refl]].
  destruct (app_law pid (ns_kernel s)) as (o & k & E). destruct (kcall_run _ _ _ _ E) as (s1 & E1 & H1 & _). unfold bind_try. rewrite (bind_run _ _ _ _ _ E1).
  destruct o as [[app|]|e]; [|by eexists _, _|by eexists _, _]. destruct (note_run (AppOf pid app) s1) as (s2 & E2 & H2 & _); [done|].
  rewrite (bind_run _ _ _ _ _ E2). eexists _, s2. split; [reflexivity|by eapply same_trans].
Qed.

Lemma allow_all_run pid cid ids s : connected (ns_kernel s) pid cid -> Forall id_ok ids -> exists s', allow_all pid cid ids s = Some (tt, s') /\ same s s'.
Proof.
  revert s. induction ids as [|i ids IH]; intros s Hc Hids; cbn [allow_all]; [exists s; split; [done|apply same_refl]|]. apply Forall_cons in Hids as [Hi Hids].
  rewrite (bind_run _ _ _ _ _ (add64_run i 1 s Hi)). destruct (allow_law pid cid i (i + 1) _ Hc) as (k & E & Hk). destruct (kcall_run _ _ _ _ E) as (s1 & E1 & H1 & Hk1).
  rewrite (bind_run _ _ _ _ _ E1). destruct (note_run (Allowed pid cid i (i + 1)) s1) as (s2 & E2 & H2 & Hk2); [done|]. rewrite (bind_run _ _ _ _ _ E2).
  destruct (IH s2) as (s3 & E3 & H3); [by rewrite Hk2, Hk1|done|]. exists s3. split; [done|]. eapply same_trans; [exact H1|]. by eapply same_trans.
Qed.

Lemma connect_run r s : tables_ok s -> exists x s', connect_impl r s = Some (x, s') /\ same s s' /\
  (x = Ok None -> exists name, name_from_msg r 0 = Some (Ok name) /\ name_table s !! name = None).
Proof.
  intros Hok. unfold connect_impl. destruct (sender_app_run r s) as (a & s1 & E1 & H1). unfold bind_try at 1. rewrite (bind_run _ _ _ _ _ E1).
  destruct a as [[pid app]|e]; [|by exists (Err e), s1]. destruct (name_at_start r) as (n & ->). destruct n as [name|e]; [|by exists (Err e), s1].
  unfold bind_try at 1, bind at 1, expect, ret at 1. unfold bind at 1, gets. cbn [id]. rewrite (same_names _ _ H1).
  destruct (name_table s !! name) as [sid|] eqn:En; [|exists (Ok None), s1; split; [done|]; split; [done|]; intros _; by exists name].
  destruct (connection_permissions s1 app name) as [ids|] eqn:Ep; [|by exists (Err AccessDenied), s1].
  destruct (connect_law pid sid (ns_kernel s1)) as (c & k & Ec & Hc). destruct (kcall_run _ _ _ _ Ec) as (s2 & E2 & H2 & Hk2). unfold bind_try. rewrite (bind_run _ _ _ _ _ E2).
  destruct c as [cid|e]; [|exists (Err e), s2; split; [done|]; split; [by eapply same_trans|done]].
  destruct (note_run (Connected pid name sid cid) s2) as (s3 & E3 & H3 & Hk3); [done|]. rewrite (bind_run _ _ _ _ _ E3).
  destruct (allow_all_run pid cid ids s3) as (s4 & E4 & H4).
  - rewrite Hk3, Hk2. by apply Hc.
  - apply Forall_forall. intros i Hi. apply (no_permitted _ (same_ok _ _ H1 Hok) app name). unfold connection_permissions in Ep. unfold permitted.
    destruct (default ∅ (connect_permissions s1 !! app) !! name) as [l|]; [injection Ep as ->; by exists ids|]. case_bool_decide; [|done].
    injection Ep as <-. by apply not_elem_of_nil in Hi.
  - rewrite (bind_run _ _ _ _ _ E4). exists (Ok (Some cid)), s4. split; [done|]. split; [|done]. eapply same_trans; [exact H1|]. eapply same_trans; [exact H2|]. by eapply same_trans.
Qed.

Lemma respond_names_run r words s : lent r -> (length words <= 4)%nat -> exists s', respond r words s = Some (tt, s') /\
  (tables_ok s -> tables_ok s') /\ waiting_connections s' = waiting_connections s /\ name_table s' = name_table s /\ replied s' = replied s ++ [rq_sender r].
Proof.
  intros (m & Hb & Hl) Hw. unfold respond. rewrite Hb. rewrite (proj2 (Nat.leb_le _ _)) by lia. eexists. split; [reflexivity|].
  split; [by intros []|]. split; [done|]. split; [done|]. unfold replied. cbn. by rewrite omap_app.
Qed.

(** The loop that wakes the clients of a new server. *)
Lemma wake_connections_run fuel name i s : tables_ok s -> waits_ok (eq name) s -> is_Some (name_table s !! name) ->
  (forall j r, (j < i)%nat -> waiting_connections s !! j = Some r -> name_from_msg r 0 <> Some (Ok name)) ->
  (length (waiting_connections s) - i < fuel)%nat ->
  exists s', wake_loop fuel name i s = Some (tt, s') /\ names_ok s' /\ accounted s' ≡ₚ accounted s.
Proof.
  revert i s. induction fuel as [|fuel IH]; intros i s Ht Hw Hn Hbefore Hf; [lia|]. cbn [wake_loop]. unfold bind at 1, gets. cbn [id].
  destruct (waiting_connections s !! i) as [msg|] eqn:Hi; cycle 1.
  { exists s. split; [done|]. split; [|done]. split; [done|]. intros r Hr. destruct (Hw r Hr) as (Hl & nm & En & Hd). split; [done|]. exists nm. split; [done|].
    destruct Hd as [Hd| <-]; [by left|]. apply list_elem_of_lookup in Hr as [j Hj]. apply lookup_ge_None in Hi. pose proof (lookup_lt_Some _ _ _ Hj). by destruct (Hbefore j r ltac:(lia) Hj). }
  pose proof (lookup_lt_Some _ _ _ Hi) as Hlt. destruct (Hw msg) as (Hlent & nm & En & Hd); [by eapply list_elem_of_lookup_2|]. rewrite En. unfold bind at 1, expect, ret at 1.
  case_bool_decide as Hnm; cycle 1.
  { apply IH; [done|done|done| |lia]. intros j r Hj Hr. destruct (decide (j = i)) as [->|]; [|apply (Hbefore j); [lia|done]]. rewrite Hi in Hr. injection Hr as <-. rewrite En. congruence. }
  injection Hnm as ->. unfold bind at 1, modify. set (s1 := set_waiting _ s). pose proof (swap_remove_perm _ _ _ Hi) as Hperm.
  destruct (connect_run msg s1) as (c & s2 & E2 & H2 & Hc); [by destruct Ht|]. rewrite (bind_run _ _ _ _ _ E2).
  assert (Hresp : exists s3, match c with Err e => respond_error msg e | Ok (Some cid) => respond_connect_success msg cid | Ok None => panic end s2 = Some (tt, s3) /\
    tables_ok s3 /\ waiting_connections s3 = swap_remove i (waiting_connections s) /\ name_table s3 = name_table s /\ replied s3 = replied s ++ [rq_sender msg]).
  { assert (Hg : forall words, (length words <= 4)%nat -> exists s3, respond msg words s2 = Some (tt, s3) /\
      tables_ok s3 /\ waiting_connections s3 = swap_remove i (waiting_connections s) /\ name_table s3 = name_table s /\ replied s3 = replied s ++ [rq_sender msg]).
    { intros words Hwl. destruct (respond_names_run msg words s2 Hlent Hwl) as (s3 & E3 & Ht3 & Hw3 & Hn3 & Hr3). exists s3. split; [done|].
      split; [apply Ht3; eapply same_ok; [exact H2|by destruct Ht]|]. rewrite Hw3, Hn3, Hr3. destruct H2 as [W N _ _ R]. rewrite W, N, R. by split_and!. }
    destruct c as [[cid|]|e]; [apply Hg; cbn; lia| |apply Hg; cbn; lia]. destruct (Hc eq_refl) as (n' & En' & Hnone). rewrite En in En'. injection En' as <-.
    cbn in Hnone. destruct Hn as [sid Hsid]. by rewrite Hnone in Hsid. }
  destruct Hresp as (s3 & E3 & Ht3 & Hw3 & Hn3 & Hr3). rewrite (bind_run _ _ _ _ _ E3).
  destruct (IH i s3) as (s4 & E4 & Hok4 & Hacc); [done| |by rewrite Hn3| | |].
  - intros r Hr. rewrite Hw3 in Hr. rewrite Hn3. apply Hw. rewrite Hperm. set_solver.
  - intros j r Hj. rewrite Hw3, swap_remove_before by done. by apply Hbefore.
  - rewrite Hw3. apply Permutation_length in Hperm. cbn in Hperm. lia.
  - exists s4. split; [done|]. split; [done|]. rewrite Hacc. unfold accounted. rewrite Hw3, Hr3, <- app_assoc. apply Permutation_app_head.
    transitivity (rq_sender <$> msg :: swap_remove i (waiting_connections s)); [done|by rewrite <- Hperm].
Qed.

(** *** Manifests *)

Lemma expect_run {T X} (x : X) (s : T) : expect (Some x) s = Some (x, s).
Proof. done. Qed.

Lemma add_messages_ok name l t : Forall (fun x => id_ok x.2) l -> (forall key ids, t !! key = Some ids -> Forall id_ok ids) ->
  forall key ids, add_messages name l t !! key = Some ids -> Forall id_ok ids.
Proof.
  revert t. induction l as [|[m i] l IH]; intros t Hl Ht; [done|]. apply Forall_cons in Hl as [Hi Hl]. cbn [add_messages]. apply IH; [done|].
  intros key ids. rewrite lookup_insert. case_decide; [|by apply Ht]. intros [= <-]. by repeat constructor.
Qed.

Definition keeps_tables {X} (op : M NS X) : Prop := forall s, tables_ok s -> exists x s', op s = Some (x, s') /\ tables_ok s' /\
  waiting_connections s' = waiting_connections s /\ name_table s' = name_table s /\ replied s' = replied s.

Lemma keeps_tables_bind {X Y} (op : M NS X) (f : X -> M NS Y) : keeps_tables op -> (forall x, keeps_tables (f x)) -> keeps_tables (x <- op ;; f x).
Proof.
  intros Ho Hf s Hs. destruct (Ho s Hs) as (x & s1 & E1 & H1 & W1 & N1 & R1). rewrite (bind_run _ _ _ _ _ E1). destruct (Hf x s1 H1) as (y & s2 & E2 & H2 & W2 & N2 & R2).
  exists y, s2. split; [done|]. split; [done|]. split_and!; congruence.
Qed.
Lemma keeps_tables_ret {X} (x : X) : keeps_tables (ret x).
Proof. intros s Hs. by exists x, s. Qed.

Lemma add_servers_run app l : Forall (fun s => Forall (fun x => id_ok x.2) s.2) l -> keeps_tables (add_servers app l).
Proof.
  induction 1 as [|[name msgs] l Hm Hl IH]; cbn [add_servers]; [apply keeps_tables_ret|]. apply keeps_tables_bind; [intros s Hs; eexists tt, _; split; [reflexivity|]; by destruct Hs|].
  intros _. apply keeps_tables_bind; [|by intros _]. intros s Hs. eexists tt, _. split; [reflexivity|]. split; [|done]. destruct Hs as [H1 H2]. split; [|done].
  cbn. by apply add_messages_ok.
Qed.

Lemma extend_ids_ok name l t ids : (forall key ids, t !! key = Some ids -> Forall id_ok ids) -> Forall id_ok ids -> Forall id_ok (extend_ids name l t ids).1.
Proof.
  intros Ht. revert ids. induction l as [|m l IH]; intros ids Hids; [done|]. cbn. destruct (t !! (name, m)) as [new|] eqn:E; [|done]. apply IH, Forall_app. split; [done|by eapply Ht].
Qed.

Lemma put_permissions_ok app name ids s : tables_ok s -> Forall id_ok ids -> tables_ok (put_permissions app name ids s).
Proof.
  intros [H1 H2] Hids. split; [done|]. intros app' name' id (l & Hl & Hin). unfold put_permissions in Hl. cbn in Hl.
  destruct (decide (app' = app)) as [->|Hne]; [|rewrite lookup_insert_ne in Hl by congruence; apply (H2 app' name'); by exists l]. rewrite lookup_insert_eq in Hl. cbn in Hl.
  destruct (decide (name' = name)) as [->|Hne]; [|rewrite lookup_insert_ne in Hl by congruence; apply (H2 app name'); by exists l]. rewrite lookup_insert_eq in Hl. injection Hl as <-.
  rewrite Forall_forall in Hids. by apply Hids.
Qed.

Lemma add_permissions_run app l : keeps_tables (add_permissions app l).
Proof.
  induction l as [|[name msgs] l IH]; cbn [add_permissions]; [apply keeps_tables_ret|]. intros s Hs. unfold bind at 1, gets. cbn [id]. set (old := default [] _).
  assert (Hold : Forall id_ok old).
  { apply Forall_forall. intros i Hi. apply (no_permitted _ Hs app name). unfold permitted. subst old. destruct (default ∅ (connect_permissions s !! app) !! name) as [ids|]; [by exists ids|by apply not_elem_of_nil in Hi]. }
  pose proof (extend_ids_ok name msgs _ old (no_ids _ Hs) Hold) as Hids. destruct (extend_ids name msgs (message_name_to_id s) old) as [ids found]. cbn [fst] in Hids.
  destruct found; unfold bind at 1, modify.
  - apply (IH (put_permissions app name (merge_sort Z.le ids) s)). apply put_permissions_ok; [done|]. by rewrite merge_sort_Permutation.
  - eexists (Err ServerNotFound), _. split; [reflexivity|]. split; [by apply put_permissions_ok|done].
Qed.

Lemma add_manifest_run r m : rq_body r = MutableBorrow m -> request_ok r -> mm_id m = 1 -> keeps_tables (add_manifest_impl parse r).
Proof.
  intros Hb Hr Hid s Hs. unfold request_ok in Hr. rewrite Hb in Hr. destruct Hr as (_ & _ & Hm). specialize (Hm Hid). cbv zeta in Hm. destruct Hm as [Hv Hp].
  unfold add_manifest_impl. destruct (sender_app_run r s) as (a & s1 & E1 & H1). unfold bind_try at 1. rewrite (bind_run _ _ _ _ _ E1).
  pose proof H1 as [W N _ _ R]. pose proof (same_ok _ _ H1 Hs) as Hs1. assert (Herr : forall e, exists x s', @ret NS (res unit Error) (Err e) s1 = Some (x, s') /\ tables_ok s' /\
    waiting_connections s' = waiting_connections s /\ name_table s' = name_table s /\ replied s' = replied s) by (intros e; by exists (Err e), s1).
  destruct a as [[pid app]|e]; [|apply Herr]. unfold bind at 1, gets. cbn [id snd].
  destruct (connect_permissions s1 !! app) as [perms|]; [|apply Herr]. destruct (perms !! NAMESERVER) as [ids|]; [|apply Herr].
  destruct (negb _); [apply Herr|]. rewrite Hb. cbn [memory_message].
  rewrite (proj2 (Nat.leb_le _ _)) by done. unfold assertb. erewrite bind_run by reflexivity. destruct (parse _) as [mf|] eqn:Ep; [|apply Herr]. destruct (Hp mf eq_refl) as [[ap Hap] Hsv].
  destruct (note_run (Added pid mf) s1) as (s2 & E2 & H2 & _); [done|]. cbn [fst]. rewrite (bind_run _ _ _ _ _ E2). pose proof H2 as [W2 N2 _ _ R2].
  enough (Hk : keeps_tables (_ <-? process_manifest_servers mf ;; process_manifest_permissions mf)).
  { destruct (Hk s2 (same_ok _ _ H2 Hs1)) as (x & s' & E & H & W' & N' & R'). exists x, s'. split; [done|]. split; [done|]. split_and!; congruence. }
  unfold bind_try, process_manifest_servers, process_manifest_permissions. rewrite Hap. apply keeps_tables_bind.
  - apply (keeps_tables_bind (ret ap)); [apply keeps_tables_ret|]. intros a. apply keeps_tables_bind; [by apply add_servers_run|]. intros _. apply keeps_tables_ret.
  - intros [u|e]; [|apply keeps_tables_ret]. apply (keeps_tables_bind (ret ap)); [apply keeps_tables_ret|]. intros a. apply keeps_tables_bind; [|intros _; apply add_permissions_run].
    intros s0 Hs0. eexists tt, _. split; [reflexivity|]. split; [|done]. destruct Hs0 as [A1 A2]. split; [done|]. intros app' name id (ids' & Hl & Hin). cbn in Hl.
    apply (A2 app' name). exists ids'. split; [|done]. destruct (decide (app' = a)) as [->|Hne]; [by rewrite lookup_insert_eq in Hl|by rewrite lookup_insert_ne in Hl by congruence].
Qed.

(** *** Requests *)

Lemma register_run r m s : rq_body r = MutableBorrow m -> request_ok r -> mm_id m = 0 -> tables_ok s -> waits_ok (fun _ => False) s ->
  exists x s', register_impl r s = Some (x, s') /\ tables_ok s' /\ waiting_connections s' = waiting_connections s /\ replied s' = replied s /\
    match x with
    | Err _ => name_table s' = name_table s
    | Ok name => waits_ok (eq name) s' /\ is_Some (name_table s' !! name)
    end.
Proof.
  intros Hb Hr Hid Ht Hw. unfold request_ok in Hr. rewrite Hb in Hr. destruct Hr as (Hl & Hn & _). destruct (Hn Hid) as [n En]. unfold register_impl.
  unfold sid_from_msg. rewrite Hb. cbn [memory_message]. rewrite (proj2 (Nat.leb_le _ _) Hl). cbv zeta. unfold bind_try at 1. rewrite (bind_run _ _ _ _ _ (expect_run _ s)). rewrite En.
  unfold bind_try at 1. rewrite (bind_run _ _ _ _ _ (expect_run _ s)). destruct n as [name|e]; [|by exists (Err e), s].
  destruct (sender_app_run r s) as (a & s1 & E1 & H1). unfold bind_try at 1. rewrite (bind_run _ _ _ _ _ E1). pose proof H1 as [W N _ _ R]. pose proof (same_ok _ _ H1 Ht) as Ht1.
  destruct a as [app|e]; [|by exists (Err e), s1]. unfold bind at 1, gets. cbn [id]. destruct (register_permissions s1 !! app.2) as [names|]; [|by exists (Err AccessDenied), s1].
  destruct (negb _); [by exists (Err AccessDenied), s1|]. destruct (name_table s1 !! name) as [old|] eqn:Eo; [by exists (Err MemoryInUse), s1|].
  eexists (Ok name), _. split; [reflexivity|]. split; [by destruct Ht1|]. split; [done|].
  split; [rewrite <- R; unfold replied; cbn; by rewrite omap_app, app_nil_r|]. split; [|cbn; rewrite lookup_insert_eq; by eexists].
  intros r' Hr'. cbn in Hr'. rewrite W in Hr'. destruct (Hw r' Hr') as (Hlent & nm & Enm & [Hnone|[]]). split; [done|]. exists nm. split; [done|]. cbn.
  destruct (decide (name = nm)) as [->|Hne]; [by right|left]. rewrite lookup_insert_ne by done. by rewrite N.
Qed.

(** A request with a lent buffer that is answered at once. *)
Lemma answer_run r words s : lent r -> (length words <= 4)%nat -> tables_ok s -> waits_ok (fun _ => False) s ->
  exists s', respond r words s = Some (tt, s') /\ names_ok s' /\ accounted s' ≡ₚ rq_sender r :: accounted s.
Proof.
  intros Hl Hw Ht Hwait. destruct (respond_names_run r words s Hl Hw) as (s' & E & H1 & W & N & R). exists s'. split; [done|]. split.
  - split; [by apply H1|]. unfold waits_ok. by rewrite W, N.
  - unfold accounted. rewrite W, R, <- app_assoc. cbn [app]. by rewrite <- Permutation_middle.
Qed.

Lemma waits_eq P s s' : waiting_connections s' = waiting_connections s -> name_table s' = name_table s -> waits_ok P s -> waits_ok P s'.
Proof. intros E1 E2. unfold waits_ok. by rewrite E1, E2. Qed.

Lemma connect_request_run r op s : names_ok s -> lent r ->
  exists s', (x <- connect_impl r ;; match x with Err e => respond_error r e | Ok (Some cid) => respond_connect_success r cid
      | Ok None => match op with TryConnect => respond_error r ServerNotFound | _ => modify (fun s => set_waiting (waiting_connections s ++ [r]) s) end end) s = Some (tt, s') /\
    names_ok s' /\ accounted s' ≡ₚ rq_sender r :: accounted s.
Proof.
  intros [Ht Hw] Hl. destruct (connect_run r s Ht) as (x & s1 & E1 & H1 & Hn). rewrite (bind_run _ _ _ _ _ E1). rewrite <- (same_accounted _ _ H1).
  pose proof (same_ok _ _ H1 Ht) as Ht1. pose proof (same_waits _ _ _ H1 Hw) as Hw1.
  assert (Hans : forall words, (length words <= 4)%nat -> exists s', respond r words s1 = Some (tt, s') /\ names_ok s' /\ accounted s' ≡ₚ rq_sender r :: accounted s1) by (intros; by apply answer_run).
  destruct x as [[cid|]|e]; [apply Hans; cbn; lia| |apply Hans; cbn; lia]. destruct op; try (apply Hans; cbn; lia).
  all: eexists; split; [reflexivity|]; split;
    [split; [by destruct Ht1|]; intros r' Hr'; cbn in Hr'; apply elem_of_app in Hr' as [Hr'|Hr'%list_elem_of_singleton]; [by apply (Hw1 r')|subst r'];
     split; [done|]; destruct (Hn eq_refl) as (name & En & Hnone); exists name; split; [done|]; left; cbn; by rewrite (same_names _ _ H1)
    |unfold accounted, replied; cbn; rewrite fmap_app, app_assoc; cbn; by rewrite Permutation_app_comm].
Qed.

Lemma handle_run r s : names_ok s -> request_ok r -> exists s', handle_request parse r s = Some (tt, s') /\ names_ok s' /\
  accounted s' ≡ₚ (if is_blocking (rq_body r) then [rq_sender r] else []) ++ accounted s.
Proof.
  intros Hok Hr. pose proof Hok as [Ht Hw]. unfold handle_request. destruct (rq_body r) as [m| |m|m|m] eqn:Hb; cbn [is_blocking has_memory negb];
    [|unfold request_ok in Hr; by rewrite Hb in Hr|by exists s|by exists s|].
  - assert (Hl : lent r) by (exists m; split; [done|]; unfold request_ok in Hr; rewrite Hb in Hr; apply Hr). cbn [message_id app].
    assert (Hans : forall words s1, (length words <= 4)%nat -> tables_ok s1 -> waiting_connections s1 = waiting_connections s -> name_table s1 = name_table s ->
      replied s1 = replied s -> exists s', respond r words s1 = Some (tt, s') /\ names_ok s' /\ accounted s' ≡ₚ rq_sender r :: accounted s).
    { intros words s1 Hwl Ht1 W N R. destruct (answer_run r words s1 Hl Hwl Ht1) as (s' & E & H1 & H2); [by eapply waits_eq|]. exists s'. split; [done|]. split; [done|].
      rewrite H2. unfold accounted. by rewrite W, R. }
    destruct (Opcode_from_usize (mm_id m)) as [[]|] eqn:Eop.
    + assert (Hid : mm_id m = 0) by (unfold Opcode_from_usize in Eop; repeat case_match; congruence).
      destruct (register_run r m s Hb Hr Hid Ht Hw) as (x & s1 & E1 & Ht1 & W1 & R1 & Hx). rewrite (bind_run _ _ _ _ _ E1). destruct x as [name|e]; [|apply Hans; try done; cbn; lia].
      destruct Hx as [Hw1 Hn1]. destruct (respond_names_run r [0] s1 Hl ltac:(cbn; lia)) as (s2 & E2 & H2 & W2 & N2 & R2). unfold respond_simple_success. rewrite (bind_run _ _ _ _ _ E2).
      unfold wake_waiting_connections, bind at 1, gets. cbn [id].
      destruct (wake_connections_run (S (length (waiting_connections s2))) name 0 s2) as (s3 & E3 & Hok3 & Hacc); [by apply H2|by eapply waits_eq|by rewrite N2|intros; lia|lia|].
      exists s3. split; [done|]. split; [done|]. rewrite Hacc. unfold accounted. rewrite W2, W1, R2, R1, <- app_assoc. cbn [app]. by rewrite <- Permutation_middle.
    + assert (Hid : mm_id m = 1) by (unfold Opcode_from_usize in Eop; repeat case_match; congruence).
      destruct (add_manifest_run r m Hb Hr Hid s Ht) as (x & s1 & E1 & Ht1 & W1 & N1 & R1). rewrite (bind_run _ _ _ _ _ E1). destruct x; apply Hans; try done; cbn; lia.
    + by apply (connect_request_run r BlockingConnect).
    + by apply (connect_request_run r TryConnect).
    + eexists. split; [reflexivity|]. split; [split; [by destruct Ht|exact Hw]|]. unfold accounted, replied. cbn. rewrite omap_app, <- app_assoc. cbn. by rewrite <- Permutation_middle.
  - destruct (scalar_law (rq_sender r) 0 (ns_kernel s)) as (k & E). destruct (kcall_run _ _ _ _ E) as (s1 & E1 & H1 & _). rewrite (bind_run _ _ _ _ _ E1). eexists.
    split; [reflexivity|]. split; [split; [by destruct (same_ok _ _ H1 Ht)|exact (same_waits _ _ _ H1 Hw)]|]. rewrite <- (same_accounted _ _ H1). unfold accounted, replied. cbn.
    rewrite omap_app, <- app_assoc. cbn. by rewrite <- Permutation_middle.
Qed.

Lemma serve_run l s : names_ok s -> Forall request_ok l -> exists s', serve_names parse l s = Some (tt, s') /\ names_ok s' /\
  accounted s' ≡ₚ (rq_sender <$> List.filter (fun r => is_blocking (rq_body r)) l) ++ accounted s.
Proof.
  revert s. induction l as [|r l IH]; intros s Hs Hl; [by exists s|]. apply Forall_cons in Hl as [Hr Hl]. cbn [serve_names].
  destruct (handle_run r s Hs Hr) as (s1 & E1 & H1 & A1). rewrite (bind_run _ _ _ _ _ E1). destruct (IH s1 H1 Hl) as (s2 & E2 & H2 & A2). exists s2. split; [done|]. split; [done|].
  rewrite A2, A1. cbn [List.filter]. destruct (is_blocking (rq_body r)); cbn; [|done]. by rewrite <- Permutation_middle.
Qed.

End Answers.

Section Start.
Context {K : Type} {HK : NameCalls K} {HL : NameLaws K}.
Notation NS := (NameServer K).

Lemma each_manifest_tables f l (s s' : NS) : (forall m, m ∈ l -> keeps_tables (f m)) -> each_manifest f l s = Some (tt, s') -> tables_ok s ->
  tables_ok s' /\ waiting_connections s' = waiting_connections s /\ replied s' = replied s.
Proof.
  revert s. induction l as [|m l IH]; intros s Hf; cbn [each_manifest]; [by intros [= <-]|]. intros (x & s1 & E1 & Hrun)%run_bind Hs. destruct x as [u|e]; [|done].
  destruct (Hf m ltac:(set_solver) s Hs) as (x & s2 & E2 & H2 & W2 & _ & R2). rewrite E1 in E2. injection E2 as _ <-.
  destruct (IH s1) as (H3 & W3 & R3); [intros m' Hm'; apply Hf; set_solver|done|done|]. split; [done|]. split; congruence.
Qed.

Lemma servers_tables (m : Manifest) : manifest_ok m -> keeps_tables (process_manifest_servers (K := K) m).
Proof.
  intros [[ap Hap] Hsv]. unfold process_manifest_servers. rewrite Hap. apply (keeps_tables_bind (ret ap)); [apply keeps_tables_ret|]. intros a.
  apply keeps_tables_bind; [by apply add_servers_run|]. intros _. apply keeps_tables_ret.
Qed.
Lemma permissions_tables (m : Manifest) : manifest_ok m -> keeps_tables (process_manifest_permissions (K := K) m).
Proof.
  intros [[ap Hap] _]. unfold process_manifest_permissions. rewrite Hap. apply (keeps_tables_bind (ret ap)); [apply keeps_tables_ret|]. intros a.
  apply keeps_tables_bind; [|intros _; apply add_permissions_run]. intros s0 [A1 A2]. eexists tt, _. split; [reflexivity|]. split; [|done]. split; [done|].
  intros app' name id (ids & Hl & Hin). cbn in Hl. apply (A2 app' name). exists ids. split; [|done].
  destruct (decide (app' = a)) as [->|Hne]; [by rewrite lookup_insert_eq in Hl|by rewrite lookup_insert_ne in Hl by congruence].
Qed.

Lemma system_manifests_ok parse manifests (k : K) s : (forall b m, b ∈ manifests -> parse b = Some m -> manifest_ok m) ->
  process_system_manifests parse manifests (names_new k) = Some (tt, s) -> names_ok s /\ accounted s = [].
Proof.
  intros Hm (ms & s1 & E1 & Hrun)%run_bind. destruct (mapM parse manifests) as [parsed|] eqn:Ep; [|done]. injection E1 as -> <-.
  apply run_bind in Hrun as ([] & s2 & E2 & E3). assert (Hok : forall m, m ∈ ms -> manifest_ok m).
  { apply mapM_Some in Ep. intros m Hin. apply list_elem_of_lookup in Hin as [i Hi]. destruct (Forall2_lookup_r _ _ _ _ _ Ep Hi) as (b & Hb & Hp).
    eapply Hm; [by eapply list_elem_of_lookup_2|exact Hp]. }
  assert (H0 : tables_ok (names_new k)) by (split; [done|]; intros app name id (ids & Hl & _); done).
  destruct (each_manifest_tables _ _ _ _ (fun m Hin => servers_tables m (Hok m Hin)) E2 H0) as (H2 & W2 & R2).
  destruct (each_manifest_tables _ _ _ _ (fun m Hin => permissions_tables m (Hok m Hin)) E3 H2) as (H3 & W3 & R3).
  split; [split; [done|]|unfold accounted; by rewrite W3, W2, R3, R2]. intros r. rewrite W3, W2. by intros ?%not_elem_of_nil.
Qed.

End Start.


(** An immutable lend with the opcode of a registration, a manifest or a
    non-blocking connection ends the name server: its answer needs a buffer that it
    may write to. *)
Theorem immutable_lend_panics K `{HK : NameCalls K} parse (s : NameServer K) r m :
  rq_body r = Borrow m -> mm_id m = 0 \/ mm_id m = 1 \/ mm_id m = 7 -> handle_request parse r s = None.
Proof.
  intros Hb Hid. assert (Hr : forall words s1, respond (K := K) r words s1 = None) by (intros; unfold respond; by rewrite Hb).
  unfold handle_request. rewrite Hb. cbn [is_blocking has_memory negb message_id]. destruct Hid as [-> |[-> | ->]]; cbn [Opcode_from_usize]; unfold bind at 1.
  - destruct (register_impl r s) as [[[name|e] s1]|]; [|apply Hr|done]. unfold respond_simple_success, bind at 1. by rewrite Hr.
  - destruct (add_manifest_impl parse r s) as [[[u|e] s1]|]; [apply Hr|apply Hr|done].
  - destruct (connect_impl r s) as [[[[cid|]|e] s1]|]; try apply Hr. done.
Qed.

(** ** A kernel with two applications: the second may send message 5 to "d" *)

#[global] Instance demo_calls : NameCalls nat := {|
  get_app_id := fun pid k => Some (Ok (Some (repeat pid 16)), k);
  connect_for_process := fun _ _ k => Some (Ok (Z.of_nat k), S k);
  allow_messages_on_connection := fun _ _ _ _ k => Some (Ok tt, k);
  return_scalar := fun _ _ k => Some (Ok tt, k) |}.
#[global] Program Instance demo_laws : NameLaws nat := {| connected := fun _ _ _ => True |}.
Next Obligation. intros pid k. by eexists _, _. Qed.
Next Obligation. intros pid sid k. by eexists _, _. Qed.
Next Obligation. intros pid cid lo hi k _. by eexists. Qed.
Next Obligation. intros sender v k. by eexists. Qed.

Definition demo_parse (b : list Z) : option Manifest :=
  match b with
  | [1] => Some (mkManifest (Some (repeat 1 16)) [([100], [([109], 5)])] [])
  | [2] => Some (mkManifest (Some (repeat 2 16)) [] [([100], [[109]])])
  | _ => None
  end.
Definition demo_lend (pid id : Z) (valid : Z) (mem : list Z) : Request :=
  mkRequest (pid * 16777216) (MutableBorrow (mkMemoryMessage id (mkRange 65536 32) None (Some valid))) (mem ++ repeat 0 (32 - length mem)).
(** Process 2 connects to "d" and waits; process 1 registers it. *)
Definition demo_requests : list Request := [demo_lend 2 6 1 [100]; demo_lend 1 0 1 ([7; 0; 0; 0] ++ repeat 0 12 ++ [100])].
Definition demo_names : NameServer nat := match process_system_manifests demo_parse [[1]; [2]] (names_new 3%nat) with Some (_, s) => s | None => names_new 0%nat end.



Lemma immutable_lend_panics_witness :
  handle_request demo_parse (mkRequest 33554432 (Borrow (mkMemoryMessage 7 (mkRange 65536 32) None None)) (repeat 0 32)) demo_names = None.
Proof. apply (immutable_lend_panics nat demo_parse demo_names _ (mkMemoryMessage 7 (mkRange 65536 32) None None)); [reflexivity|right; right; reflexivity]. Defined.
