(* ===== verification/AsyncRt.v ===== *)
(** * The asynchronous runtime

    Models the crate [xous/async-rt]: the reactor with its server and timer slots
    ([reactor.rs]), wakers ([waker.rs]), the futures for messages and timers
    ([server.rs], [timer.rs]), the combinators ([combinators.rs]) and the loop of the
    executor ([executor.rs]).

    A waker is the number of the task whose flag it sets.  A future is a value with a
    polling function over the state of the reactor; the futures that a program
    spawns are a parameter.  The messages that the kernel holds for the servers of
    the process, oldest first, are [inbox], part of the state: [try_receive_message]
    takes the first one of a server.  The loop of [run] is cut into rounds; what a
    round ends with is its outcome.  A round that ends idle blocks in [wait_event],
    as the executor does on the hardware, until the kernel notifies the process; the
    notifications and the messages that come with them are an argument of [run], and
    the executor stays blocked when there are no more. *)

From S2P Require Import Prelude Abi.
From Stdlib Require Import ZArith Lia Bool.
From stdpp Require Import list.
Open Scope Z_scope.

Record ServerSlot := mkServerSlot { ss_sid : SID; ss_queue : list MessageEnvelope; ss_waker : option nat; ss_active : bool }.
Record TimerSlot := mkTimerSlot { ts_deadline : Z; ts_waker : option nat; ts_active : bool }.

(** The first message for [sid], and the others. *)
Fixpoint take_message (sid : SID) (l : list (SID * MessageEnvelope)) : option (MessageEnvelope * list (SID * MessageEnvelope)) :=
  match l with
  | [] => None
  | (s, m) :: l =>
      if bool_decide (s = sid) then Some (m, l)
      else match take_message sid l with Some (m', l') => Some (m', (s, m) :: l') | None => None end
  end.

(** The first slot that is not active becomes [new]. *)
Fixpoint reuse_slot {A} (active : A -> bool) (new : A) (l : list A) : option (nat * list A) :=
  match l with
  | [] => None
  | x :: l =>
      if active x then match reuse_slot active new l with Some (i, l') => Some (S i, x :: l') | None => None end
      else Some (0%nat, new :: l)
  end.
Definition place {A} (active : A -> bool) (new : A) (l : list A) : nat * list A :=
  match reuse_slot active new l with Some r => r | None => (length l, l ++ [new]) end.

Section Reactor.
(** The futures that tasks are made of. *)
Context {F : Type}.

Record Reactor := mkReactor {
  servers : list ServerSlot;
  timers : list TimerSlot;
  tick : Z;
  spawn_queue : list F;
  ready : list bool;
  inbox : list (SID * MessageEnvelope) }.

Definition set_servers (l : list ServerSlot) (r : Reactor) : Reactor := mkReactor l (timers r) (tick r) (spawn_queue r) (ready r) (inbox r).
Definition set_timers (l : list TimerSlot) (r : Reactor) : Reactor := mkReactor (servers r) l (tick r) (spawn_queue r) (ready r) (inbox r).
Definition set_tick (t : Z) (r : Reactor) : Reactor := mkReactor (servers r) (timers r) t (spawn_queue r) (ready r) (inbox r).
Definition set_spawns (l : list F) (r : Reactor) : Reactor := mkReactor (servers r) (timers r) (tick r) l (ready r) (inbox r).
Definition set_ready (l : list bool) (r : Reactor) : Reactor := mkReactor (servers r) (timers r) (tick r) (spawn_queue r) l (inbox r).
Definition set_inbox (l : list (SID * MessageEnvelope)) (r : Reactor) : Reactor := mkReactor (servers r) (timers r) (tick r) (spawn_queue r) (ready r) l.

Definition Reactor_new (ready : list bool) (inbox : list (SID * MessageEnvelope)) : Reactor := mkReactor [] [] 0 [] ready inbox.

(** [Waker::wake] *)
Definition wake (w : nat) : M Reactor unit := modify (fun r => set_ready (<[w := true]> (ready r)) r).

Definition try_receive_message (sid : SID) : M Reactor (option MessageEnvelope) :=
  l <- gets inbox ;;
  match take_message sid l with
  | Some (m, l') => _ <- modify (set_inbox l') ;; ret (Some m)
  | None => ret None
  end.

(** *** Servers *)

Definition register_server (sid : SID) : M Reactor nat :=
  l <- gets servers ;;
  let '(id, l') := place ss_active (mkServerSlot sid [] None true) l in
  _ <- modify (set_servers l') ;;
  ret id.

(** [if let Some(slot) = self.servers.get_mut(id) { .. }] *)
Definition alter_server (id : nat) (f : ServerSlot -> ServerSlot) : M Reactor unit := modify (fun r => set_servers (alter f id (servers r)) r).
Definition unregister_server (id : nat) : M Reactor unit := alter_server id (fun s => mkServerSlot (ss_sid s) [] None false).
Definition server_active (id : nat) : M Reactor bool := gets (fun r => match servers r !! id with Some s => ss_active s | None => false end).
Definition set_server_waker (id w : nat) : M Reactor unit := alter_server id (fun s => mkServerSlot (ss_sid s) (ss_queue s) (Some w) (ss_active s)).

Definition try_recv (id : nat) : M Reactor (option MessageEnvelope) :=
  o <- gets (fun r => servers r !! id) ;;
  match o with
  | None => ret None
  | Some slot =>
      if negb (ss_active slot) then ret None
      else
        match ss_queue slot with
        | msg :: q => _ <- alter_server id (fun s => mkServerSlot (ss_sid s) q (ss_waker s) (ss_active s)) ;; ret (Some msg)
        | [] => try_receive_message (ss_sid slot)
        end
  end.

(** The inner loop of [poll_servers] on the slot [id], for at most [fuel] messages. *)
Fixpoint drain_server (fuel id : nat) (sid : SID) (woke : bool) : M Reactor bool :=
  o <- try_receive_message sid ;;
  match o, fuel with
  | None, _ => ret woke
  | Some _, O => panic
  | Some msg, S fuel =>
      os <- gets (fun r => servers r !! id) ;;
      slot <- expect os ;;
      _ <- alter_server id (fun s => mkServerSlot (ss_sid s) (ss_queue s ++ [msg]) None (ss_active s)) ;;
      match ss_waker slot with
      | Some w => _ <- wake w ;; drain_server fuel id sid true
      | None => drain_server fuel id sid woke
      end
  end.

Fixpoint poll_slots (ids : list nat) (woke_any : bool) : M Reactor bool :=
  match ids with
  | [] => ret woke_any
  | id :: ids =>
      r <- gets Datatypes.id ;;
      match servers r !! id with
      | Some slot =>
          if negb (ss_active slot) then poll_slots ids woke_any
          else w <- drain_server (length (inbox r)) id (ss_sid slot) woke_any ;; poll_slots ids w
      | None => panic
      end
  end.
Definition poll_servers : M Reactor bool := r <- gets Datatypes.id ;; poll_slots (seq 0 (length (servers r))) false.

(** *** Timers *)

Definition register_timer (delay_ticks : Z) : M Reactor nat :=
  t <- gets tick ;;
  deadline <- add64 t delay_ticks ;;
  l <- gets timers ;;
  let '(id, l') := place ts_active (mkTimerSlot deadline None true) l in
  _ <- modify (set_timers l') ;;
  ret id.
Definition alter_timer (id : nat) (f : TimerSlot -> TimerSlot) : M Reactor unit := modify (fun r => set_timers (alter f id (timers r)) r).
Definition unregister_timer (id : nat) : M Reactor unit := alter_timer id (fun s => mkTimerSlot (ts_deadline s) None false).
Definition timer_expired (id : nat) : M Reactor bool :=
  gets (fun r => match timers r !! id with Some s => ts_active s && (ts_deadline s <=? tick r) | None => false end).
Definition set_timer_waker (id w : nat) : M Reactor unit := alter_timer id (fun s => mkTimerSlot (ts_deadline s) (Some w) (ts_active s)).

(** One slot of the loop of [poll_timers] *)
Definition fire (now : Z) (s : TimerSlot) : TimerSlot * option nat :=
  if ts_active s && (ts_deadline s <=? now) then (mkTimerSlot (ts_deadline s) None (ts_active s), ts_waker s) else (s, None).
Fixpoint wake_all (l : list nat) : M Reactor unit := match l with [] => ret tt | w :: l => _ <- wake w ;; wake_all l end.
Definition poll_timers : M Reactor bool :=
  t <- gets tick ;;
  now <- add64 t 1 ;;
  _ <- modify (set_tick now) ;;
  l <- gets timers ;;
  _ <- modify (set_timers ((fun s => (fire now s).1) <$> l)) ;;
  let woken := omap (fun s => (fire now s).2) l in
  _ <- wake_all woken ;;
  ret (negb (bool_decide (woken = []))).

Definition poll_all : M Reactor bool := s <- poll_servers ;; t <- poll_timers ;; ret (s || t).

Definition enqueue_spawn (f : F) : M Reactor unit := modify (fun r => set_spawns (spawn_queue r ++ [f]) r).
Definition drain_spawns : M Reactor (list F) := l <- gets spawn_queue ;; _ <- modify (set_spawns []) ;; ret l.

(** *** The futures of the crate: [None] is [Poll::Pending] *)

Inductive RecvError := ServerGone.
(** [RecvFuture::poll] of the server in slot [slot], for the task [w] *)
Definition recv_poll (slot w : nat) : M Reactor (option (res MessageEnvelope RecvError)) :=
  active <- server_active slot ;;
  if negb active then ret (Some (Err ServerGone))
  else
    o <- try_recv slot ;;
    match o with
    | Some msg => ret (Some (Ok msg))
    | None => _ <- set_server_waker slot w ;; ret None
    end.

Record Timer := mkTimer { tm_slot : option nat; tm_delay : Z }.
Definition Timer_after (ticks : Z) : Timer := mkTimer None ticks.
Definition timer_poll (t : Timer) (w : nat) : M Reactor (Timer * option unit) :=
  slot <- match tm_slot t with Some id => ret id | None => register_timer (tm_delay t) end ;;
  e <- timer_expired slot ;;
  if e : bool then _ <- unregister_timer slot ;; ret (mkTimer None (tm_delay t), Some tt)
  else _ <- set_timer_waker slot w ;; ret (mkTimer (Some slot) (tm_delay t), None).
Definition timer_drop (t : Timer) : M Reactor unit := match tm_slot t with Some slot => unregister_timer slot | None => ret tt end.

(** ** The executor *)

(** The futures of the program, polled by the task [w]. *)
Variable poll : F -> nat -> M Reactor (F * bool).

Record Task := mkTask { t_future : F; t_completed : bool }.
Record Executor := mkExecutor { tasks : list Task; poll_start : nat; reactor : Reactor }.
Definition on_reactor {X} (op : M Reactor X) : M Executor X :=
  fun s => match op (reactor s) with Some (x, r) => Some (x, mkExecutor (tasks s) (poll_start s) r) | None => None end.

(** A new task starts ready. *)
Definition push_task (f : F) : M Executor unit :=
  modify (fun s => mkExecutor (tasks s ++ [mkTask f false]) (poll_start s) (set_ready (ready (reactor s) ++ [true]) (reactor s))).
Fixpoint push_tasks (l : list F) : M Executor unit := match l with [] => ret tt | f :: l => _ <- push_task f ;; push_tasks l end.

(** The body of the polling loop, for the task [idx] *)
Definition poll_task (idx : nat) (flags : bool * bool) : M Executor (bool * bool) :=
  let '(any_pending, made_progress) := flags in
  o <- gets (fun s => tasks s !! idx) ;;
  task <- expect o ;;
  if t_completed task then ret (any_pending, made_progress)
  else
    or <- gets (fun s => ready (reactor s) !! idx) ;;
    is_ready <- expect or ;;
    if negb is_ready then ret (true, made_progress)
    else
      _ <- on_reactor (modify (fun r => set_ready (<[idx := false]> (ready r)) r)) ;;
      p <- on_reactor (poll (t_future task) idx) ;;
      let '(f, done) := p in
      _ <- modify (fun s => mkExecutor (<[idx := mkTask f done]> (tasks s)) (poll_start s) (reactor s)) ;;
      ret (true, made_progress || done).
Fixpoint poll_tasks (l : list nat) (flags : bool * bool) : M Executor (bool * bool) :=
  match l with [] => ret flags | i :: l => flags <- poll_task i flags ;; poll_tasks l flags end.

(** How a round of [run] ends: all tasks are done, or the loop goes on, at once or
    after the processor was given up ([wait_event] on hardware). *)
Inductive Outcome := Finished | Again | Idle.

Definition round : M Executor Outcome :=
  spawns <- on_reactor drain_spawns ;;
  _ <- push_tasks spawns ;;
  s <- gets Datatypes.id ;;
  let task_count := length (tasks s) in
  flags <- poll_tasks ((fun i => (poll_start s + i) mod task_count)%nat <$> seq 0 task_count) (false, false) ;;
  let '(any_pending, made_progress) := flags in
  _ <- modify (fun s => if (0 <? task_count)%nat then mkExecutor (tasks s) ((poll_start s + 1) mod task_count)%nat (reactor s) else s) ;;
  if negb any_pending then ret Finished
  else
    woke <- on_reactor poll_all ;;
    if negb (made_progress || woke) then ret Idle else ret Again.

(** [wait_event(0x1)]: the process blocks until it is notified; the messages that
    have arrived by then are in the inbox. *)
Definition arrive (l : list (SID * MessageEnvelope)) : M Reactor unit := modify (fun r => set_inbox (inbox r ++ l) r).

(** What becomes of [run]: it returns, it is blocked in [wait_event], or it is
    still in its loop. *)
Inductive RunOutcome := Returned | Blocked | Running.

(** The loop of [run], for at most [n] rounds, with the notifications to come. *)
Fixpoint rounds (n : nat) (notices : list (list (SID * MessageEnvelope))) : M Executor RunOutcome :=
  match n with
  | O => ret Running
  | S n =>
      o <- round ;;
      match o with
      | Finished => ret Returned
      | Again => rounds n notices
      | Idle =>
          match notices with
          | [] => ret Blocked
          | l :: notices => _ <- on_reactor (arrive l) ;; rounds n notices
          end
      end
  end.
Definition init : M Executor unit :=
  modify (fun s => mkExecutor (tasks s) (poll_start s) (Reactor_new (ready (reactor s)) (inbox (reactor s)))).
Definition run (n : nat) (notices : list (list (SID * MessageEnvelope))) : M Executor RunOutcome :=
  _ <- init ;; rounds n notices.

(** [Executor::new] and [Executor::spawn], before [run] *)
Definition Executor_new (inbox : list (SID * MessageEnvelope)) : Executor := mkExecutor [] 0 (Reactor_new [] inbox).

End Reactor.

Arguments Reactor F : clear implicits.
Arguments Executor F : clear implicits.

(** ** Combinators

    A future with outputs in [A] is a value of [FA] with a polling function; the
    state it acts on and the waker are those of the caller. *)
Section Combinators.
Context {T W : Type}.

Inductive MaybeDone (FA A : Type) := Pending (f : FA) | Done (v : A) | Taken.
Arguments Pending {FA A} f.
Arguments Done {FA A} v.
Arguments Taken {FA A}.

(** [if let MaybeDone::Pending(ref mut f) = .. { if let Poll::Ready(val) = f.poll(cx) { .. } }] *)
Definition poll_part {FA A} (p : FA -> W -> M T (FA * option A)) (m : MaybeDone FA A) (w : W) : M T (MaybeDone FA A) :=
  match m with
  | Pending f => r <- p f w ;; let '(f', o) := r in ret (match o with Some v => Done v | None => Pending f' end)
  | m => ret m
  end.

Definition join_poll {FA A FB B} (pa : FA -> W -> M T (FA * option A)) (pb : FB -> W -> M T (FB * option B))
    (j : MaybeDone FA A * MaybeDone FB B) (w : W) : M T ((MaybeDone FA A * MaybeDone FB B) * option (A * B)) :=
  a <- poll_part pa j.1 w ;;
  b <- poll_part pb j.2 w ;;
  match a, b with
  | Done x, Done y => ret ((Taken, Taken), Some (x, y))
  | _, _ => ret ((a, b), None)
  end.

Definition join3_poll {FA A FB B FC C} (pa : FA -> W -> M T (FA * option A)) (pb : FB -> W -> M T (FB * option B)) (pc : FC -> W -> M T (FC * option C))
    (j : MaybeDone FA A * MaybeDone FB B * MaybeDone FC C) (w : W) : M T ((MaybeDone FA A * MaybeDone FB B * MaybeDone FC C) * option (A * B * C)) :=
  a <- poll_part pa j.1.1 w ;;
  b <- poll_part pb j.1.2 w ;;
  c <- poll_part pc j.2 w ;;
  match a, b, c with
  | Done x, Done y, Done z => ret ((Taken, Taken, Taken), Some (x, y, z))
  | _, _, _ => ret ((a, b, c), None)
  end.

(** The loop of [JoinAll::poll]: the slots, and whether none is pending. *)
Fixpoint poll_parts {FA A} (p : FA -> W -> M T (FA * option A)) (l : list (MaybeDone FA A)) (w : W) : M T (list (MaybeDone FA A) * bool) :=
  match l with
  | [] => ret ([], true)
  | m :: l =>
      m' <- poll_part p m w ;;
      r <- poll_parts p l w ;;
      ret (m' :: r.1, match m' with Pending _ => false | _ => r.2 end)
  end.
Definition done_value {FA A} (m : MaybeDone FA A) : option A := match m with Done v => Some v | _ => None end.
Definition join_all_poll {FA A} (p : FA -> W -> M T (FA * option A)) (slots : list (MaybeDone FA A)) (w : W) : M T (list (MaybeDone FA A) * option (list A)) :=
  r <- poll_parts p slots w ;;
  let '(slots', all_done) := r in
  if all_done : bool then results <- expect (mapM done_value slots') ;; ret ((fun _ => Taken) <$> slots', Some results)
  else ret (slots', None).

Definition select_poll {FA A FB B} (pa : FA -> W -> M T (FA * option A)) (pb : FB -> W -> M T (FB * option B))
    (s : FA * FB) (w : W) : M T ((FA * FB) * option (A + B)) :=
  ra <- pa s.1 w ;;
  let '(fa, oa) := ra in
  match oa with
  | Some v => ret ((fa, s.2), Some (inl v))
  | None => rb <- pb s.2 w ;; let '(fb, ob) := rb in ret ((fa, fb), match ob with Some v => Some (inr v) | None => None end)
  end.

End Combinators.
Arguments MaybeDone FA A : clear implicits.
Arguments Pending {FA A} f.
Arguments Done {FA A} v.
Arguments Taken {FA A}.

(** ** Combinators: when they complete, and with what *)
Section Completion.
Context {T W : Type}.

(** The future [f] is pending for [n] polls and gives [v] at the next one, whatever the
    state of the program is. *)
Inductive completes {FA A} (p : FA -> W -> M T (FA * option A)) (w : W) : FA -> nat -> A -> Prop :=
| completes_now f v : (forall s, exists f' s', p f w s = Some ((f', Some v), s')) -> completes p w f 0 v
| completes_later f n v : (forall s, exists f' s', p f w s = Some ((f', None), s') /\ completes p w f' n v) -> completes p w f (S n) v.

(** The polls that a part still needs, and its value. *)
Definition owes {FA A} (p : FA -> W -> M T (FA * option A)) (w : W) (m : MaybeDone FA A) (k : nat) (v : A) : Prop :=
  match m with
  | Pending f => exists n, k = S n /\ completes p w f n v
  | Done x => k = O /\ x = v
  | Taken => False
  end.

Lemma owes_done {FA A} (p : FA -> W -> M T (FA * option A)) w m v : owes p w m 0 v -> m = Done v.
Proof. destruct m; simpl; [intros (? & ? & _); congruence | intros [_ ->]; reflexivity | tauto]. Qed.
Lemma owes_pending {FA A} (p : FA -> W -> M T (FA * option A)) w m k v : owes p w m (S k) v -> exists f, m = Pending f.
Proof. destruct m; simpl; [eauto | intros [? _]; congruence | tauto]. Qed.

Lemma poll_part_run {FA A} (p : FA -> W -> M T (FA * option A)) w m k v s : owes p w m k v ->
  exists m' s', poll_part p m w s = Some (m', s') /\ owes p w m' (pred k) v.
Proof.
  destruct m as [f | x |]; simpl; [| intros [-> ->] | tauto].
  - intros (n & -> & H). inversion H as [f0 v0 Hp | f0 n0 v0 Hp]; subst; simpl.
    + destruct (Hp s) as (f' & s' & E). exists (Done v), s'. unfold bind. rewrite E. simpl. auto.
    + destruct (Hp s) as (f' & s' & E & Hn). exists (Pending f'), s'. unfold bind. rewrite E. split; [reflexivity | simpl; eauto].
  - exists (Done v), s. simpl. auto.
Qed.

Lemma join_completes {FA A FB B} (pa : FA -> W -> M T (FA * option A)) (pb : FB -> W -> M T (FB * option B)) w n : forall a b k l x y,
  owes pa w a k x -> owes pb w b l y -> pred (k `max` l) = n -> completes (join_poll pa pb) w (a, b) n (x, y).
Proof.
  induction n as [| n IH]; intros a b k l x y Ha Hb Hn.
  - apply completes_now. intros s. unfold join_poll, bind. cbn [fst snd].
    destruct (poll_part_run pa w a k x s Ha) as (a' & s1 & -> & Ha'). destruct (poll_part_run pb w b l y s1 Hb) as (b' & s2 & -> & Hb').
    replace (pred k) with 0%nat in Ha' by lia. replace (pred l) with 0%nat in Hb' by lia.
    apply owes_done in Ha', Hb'. subst. repeat eexists.
  - apply completes_later. intros s. unfold join_poll, bind. cbn [fst snd].
    destruct (poll_part_run pa w a k x s Ha) as (a' & s1 & -> & Ha'). destruct (poll_part_run pb w b l y s1 Hb) as (b' & s2 & -> & Hb').
    exists (a', b'), s2. split; [| apply (IH a' b' (pred k) (pred l)); auto; lia].
    destruct (pred k) as [| k'] eqn:Ek; [destruct (pred l) as [| l'] eqn:El; [lia |] |].
    + apply owes_done in Ha' as ->. apply owes_pending in Hb' as [f ->]. reflexivity.
    + apply owes_pending in Ha' as [f ->]. reflexivity.
Qed.

Lemma join3_completes {FA A FB B FC C} (pa : FA -> W -> M T (FA * option A)) (pb : FB -> W -> M T (FB * option B)) (pc : FC -> W -> M T (FC * option C)) w n :
  forall a b c k l m x y z, owes pa w a k x -> owes pb w b l y -> owes pc w c m z -> pred (k `max` l `max` m) = n ->
  completes (join3_poll pa pb pc) w (a, b, c) n (x, y, z).
Proof.
  induction n as [| n IH]; intros a b c k l m x y z Ha Hb Hc Hn.
  - apply completes_now. intros s. unfold join3_poll, bind. cbn [fst snd].
    destruct (poll_part_run pa w a k x s Ha) as (a' & s1 & -> & Ha'). destruct (poll_part_run pb w b l y s1 Hb) as (b' & s2 & -> & Hb').
    destruct (poll_part_run pc w c m z s2 Hc) as (c' & s3 & -> & Hc').
    replace (pred k) with 0%nat in Ha' by lia. replace (pred l) with 0%nat in Hb' by lia. replace (pred m) with 0%nat in Hc' by lia.
    apply owes_done in Ha', Hb', Hc'. subst. repeat eexists.
  - apply completes_later. intros s. unfold join3_poll, bind. cbn [fst snd].
    destruct (poll_part_run pa w a k x s Ha) as (a' & s1 & -> & Ha'). destruct (poll_part_run pb w b l y s1 Hb) as (b' & s2 & -> & Hb').
    destruct (poll_part_run pc w c m z s2 Hc) as (c' & s3 & -> & Hc').
    exists (a', b', c'), s3. split; [| apply (IH a' b' c' (pred k) (pred l) (pred m)); auto; lia].
    destruct (pred k) as [| k'] eqn:Ek; [| apply owes_pending in Ha' as [f ->]; reflexivity].
    destruct (pred l) as [| l'] eqn:El; [| apply owes_done in Ha' as ->; apply owes_pending in Hb' as [f ->]; reflexivity].
    destruct (pred m) as [| m'] eqn:Em; [lia |].
    apply owes_done in Ha', Hb'. subst. apply owes_pending in Hc' as [f ->]. reflexivity.
Qed.

Lemma select_completes {FA A FB B} (pa : FA -> W -> M T (FA * option A)) (pb : FB -> W -> M T (FB * option B)) w n : forall a b m x y,
  completes pa w a n x -> completes pb w b m y ->
  completes (select_poll pa pb) w (a, b) (n `min` m) (if decide (n <= m)%nat then inl x else inr y).
Proof.
  induction n as [| n IH]; intros a b m x y Ha Hb.
  - rewrite decide_True by lia. inversion Ha as [f v Hp |]; subst. apply completes_now. intros s. unfold select_poll, bind. cbn [fst snd].
    destruct (Hp s) as (f' & s' & ->). repeat eexists.
  - inversion Ha as [| f n0 v Hp]; subst. destruct m as [| m].
    + rewrite decide_False by lia. inversion Hb as [f v Hq |]; subst. apply completes_now. intros s. unfold select_poll, bind. cbn [fst snd].
      destruct (Hp s) as (f' & s' & -> & _). destruct (Hq s') as (g' & s2 & ->). repeat eexists.
    + inversion Hb as [| f n0 v Hq]; subst. apply completes_later. intros s. unfold select_poll, bind. cbn [fst snd].
      destruct (Hp s) as (f' & s' & -> & Hf). destruct (Hq s') as (g' & s2 & -> & Hg). exists (f', g'), s2. split; [reflexivity |].
      specialize (IH f' g' m x y Hf Hg). destruct (decide (n <= m)%nat); [rewrite decide_True by lia | rewrite decide_False by lia]; exact IH.
Qed.

(** *** Any number of parts *)
Definition owe_all {FA A} (p : FA -> W -> M T (FA * option A)) (w : W) : list (MaybeDone FA A) -> list (nat * A) -> Prop :=
  Forall2 (fun m kv => owes p w m kv.1 kv.2).
Definition later {A} : nat * A -> nat * A := fun kv => (pred kv.1, kv.2).

Lemma poll_parts_run {FA A} (p : FA -> W -> M T (FA * option A)) w l kvs : owe_all p w l kvs -> forall s,
  exists l' s', poll_parts p l w s = Some ((l', forallb (fun kv => pred kv.1 =? 0)%nat kvs), s') /\ owe_all p w l' (later <$> kvs).
Proof.
  induction 1 as [| m [k v] l kvs Hm Hl IH]; intros s.
  - exists [], s. split; [reflexivity | constructor].
  - destruct (poll_part_run p w m k v s Hm) as (m' & s1 & E1 & Hm'). destruct (IH s1) as (l' & s2 & E2 & Hl').
    exists (m' :: l'), s2. split; [| constructor; assumption].
    cbn [poll_parts]. unfold bind. rewrite E1, E2. cbn. do 2 f_equal. f_equal.
    destruct (pred k) as [| k']; [apply owes_done in Hm' as -> | apply owes_pending in Hm' as [f ->]]; reflexivity.
Qed.

Lemma done_values {FA A} (p : FA -> W -> M T (FA * option A)) w l kvs : owe_all p w l kvs -> forallb (fun kv => kv.1 =? 0)%nat kvs = true ->
  mapM done_value l = Some kvs.*2.
Proof.
  induction 1 as [| m [k v] l kvs Hm Hl IH]; simpl; [reflexivity |]. intros [Hk Hr]%andb_prop. apply Nat.eqb_eq in Hk as ->.
  apply owes_done in Hm as ->. cbn. rewrite IH by exact Hr. reflexivity.
Qed.

Lemma all_done_max {A} (kvs : list (nat * A)) : forallb (fun kv => pred kv.1 =? 0)%nat kvs = true <-> pred (max_list kvs.*1) = O.
Proof.
  induction kvs as [| [k v] kvs IH]; cbn [forallb fmap list_fmap max_list fst]; [tauto |].
  rewrite andb_true_iff, IH, Nat.eqb_eq. unfold id. cbn [fst]. lia.
Qed.
Lemma later_max {A} (kvs : list (nat * A)) : max_list (later <$> kvs).*1 = pred (max_list kvs.*1).
Proof. induction kvs as [| [k v] kvs IH]; cbn [fmap list_fmap max_list fst later]; [reflexivity |]. unfold id in *. cbn in IH |- *. rewrite IH. lia. Qed.
Lemma later_values {A} (kvs : list (nat * A)) : (later <$> kvs).*2 = kvs.*2.
Proof. induction kvs as [| [k v] kvs IH]; [reflexivity |]. cbn. f_equal. exact IH. Qed.

Lemma join_all_completes {FA A} (p : FA -> W -> M T (FA * option A)) w n : forall l kvs, owe_all p w l kvs -> pred (max_list kvs.*1) = n ->
  completes (join_all_poll p) w l n kvs.*2.
Proof.
  induction n as [| n IH]; intros l kvs H Hn.
  - apply completes_now. intros s. destruct (poll_parts_run p w l kvs H s) as (l' & s' & E & H').
    unfold join_all_poll, bind. rewrite E. rewrite (proj2 (all_done_max kvs) Hn).
    rewrite (done_values p w l' _ H'), later_values; [repeat eexists |].
    apply forallb_forall. intros kv [kv0 [<- Hin]]%in_map_iff. apply all_done_max in Hn. rewrite forallb_forall in Hn. exact (Hn _ Hin).
  - apply completes_later. intros s. destruct (poll_parts_run p w l kvs H s) as (l' & s' & E & H').
    unfold join_all_poll, bind. rewrite E. destruct (forallb _ kvs) eqn:Ea; [apply all_done_max in Ea; lia |].
    exists l', s'. split; [reflexivity |]. rewrite <- later_values. apply IH; [exact H' |]. rewrite later_max, Hn. reflexivity.
Qed.

Lemma taken_parts {FA A} (p : FA -> W -> M T (FA * option A)) w s {X} (l : list X) :
  poll_parts p ((fun _ => Taken) <$> l) w s = Some (((fun _ => Taken) <$> l, true), s) /\ (l <> [] -> mapM (@done_value FA A) ((fun _ => Taken) <$> l) = None).
Proof.
  split; [| destruct l; [congruence | reflexivity]].
  induction l as [| x l IH]; [reflexivity |]. cbn [fmap list_fmap poll_parts]. unfold bind. cbn [poll_part]. unfold ret. cbn in IH |- *. rewrite IH. reflexivity.
Qed.
End Completion.


(** A future that counts down its polls. *)
Definition countdown (f : nat * Z) (w : nat) : M (list nat) ((nat * Z) * option Z) :=
  _ <- modify (fun l => l ++ [w]) ;;
  match f with (O, v) => ret (f, Some v) | (S n, v) => ret ((n, v), None) end.
Lemma countdown_completes w n v : completes countdown w (n, v) n v.
Proof.
  induction n as [| n IH]; [apply completes_now | apply completes_later]; intros s; [repeat eexists |].
  exists (n, v), (s ++ [w]). split; [reflexivity | exact IH].
Qed.


(** ** Messages and timers *)

Definition for_sid (sid : SID) (l : list (SID * MessageEnvelope)) : list MessageEnvelope := (filter (fun p => p.1 = sid) l).*2.
Definition others (sid : SID) (l : list (SID * MessageEnvelope)) : list (SID * MessageEnvelope) := filter (fun p => p.1 <> sid) l.

Lemma take_message_some sid l m l' : take_message sid l = Some (m, l') ->
  for_sid sid l = m :: for_sid sid l' /\ others sid l = others sid l' /\ length l = S (length l') /\
  forall sid', sid' <> sid -> for_sid sid' l' = for_sid sid' l.
Proof.
  revert m l'. induction l as [| [s m0] l IH]; intros m l' E; [discriminate |]. cbn in E. unfold for_sid, others. rewrite !filter_cons. cbn [fst].
  case_bool_decide as Hs.
  - injection E as <- <-. rewrite decide_True by exact Hs. rewrite decide_False by tauto. repeat split; [].
    intros sid' Hn. rewrite filter_cons. cbn [fst]. rewrite decide_False by congruence. reflexivity.
  - destruct (take_message sid l) as [[m1 l1] |] eqn:Et; [| discriminate]. injection E as <- <-. destruct (IH _ _ eq_refl) as (H1 & H2 & H3 & H4).
    rewrite decide_False by exact Hs. rewrite decide_True by exact Hs. unfold for_sid, others in *.
    rewrite !filter_cons. cbn [fst]. rewrite decide_False by exact Hs. rewrite decide_True by exact Hs. rewrite H2. cbn [length].
    repeat split; [exact H1 | lia |]. intros sid' Hn. specialize (H4 sid' Hn). rewrite !filter_cons. cbn [fst]. destruct (decide (s = sid')); cbn; rewrite H4; reflexivity.
Qed.

Lemma take_message_none sid l : take_message sid l = None -> for_sid sid l = [] /\ others sid l = l.
Proof.
  induction l as [| [s m] l IH]; [split; reflexivity |]. cbn [take_message]. case_bool_decide as Hs; [discriminate |].
  destruct (take_message sid l) as [[? ?] |]; [discriminate |]. intros _. destruct (IH eq_refl) as [H1 H2]. unfold for_sid, others in *.
  rewrite !filter_cons. cbn [fst]. rewrite decide_False by exact Hs. rewrite decide_True by exact Hs. rewrite H2. auto.
Qed.

Lemma for_sid_others sid sid' l : for_sid sid' (others sid l) = if decide (sid' = sid) then [] else for_sid sid' l.
Proof.
  unfold for_sid, others. rewrite list_filter_filter. destruct (decide (sid' = sid)) as [-> | Hn].
  - induction l as [| [s m] l IH]; [reflexivity |]. rewrite filter_cons. cbn [fst]. rewrite decide_False by tauto. exact IH.
  - f_equal. apply list_filter_iff. intros [s m]. cbn. split; [tauto | intros ->; tauto].
Qed.

Section Streams.
Context {F : Type}.
Implicit Types r : Reactor F.

Definition wake_flag (o : option nat) (l : list bool) : list bool := match o with Some w => <[w := true]> l | None => l end.

(** What draining the messages [ms] into a slot makes of the slot, and the waker it uses. *)
Definition fill (ms : list MessageEnvelope) (s : ServerSlot) : ServerSlot :=
  mkServerSlot (ss_sid s) (ss_queue s ++ ms) (match ms with [] => ss_waker s | _ => None end) (ss_active s).
Definition used_waker (ms : list MessageEnvelope) (s : ServerSlot) : option nat := match ms with [] => None | _ => ss_waker s end.

Lemma fill_fill m ms s : fill ms (fill [m] s) = fill (m :: ms) s.
Proof. unfold fill. cbn. rewrite <- app_assoc. destruct ms; reflexivity. Qed.

Definition drained (id : nat) (sid : SID) (s : ServerSlot) r : Reactor F :=
  let ms := for_sid sid (inbox r) in
  mkReactor (<[id := fill ms s]> (servers r)) (timers r) (tick r) (spawn_queue r) (wake_flag (used_waker ms s) (ready r)) (others sid (inbox r)).

Lemma drain_server_run fuel id sid : forall woke r s, servers r !! id = Some s -> (length (inbox r) <= fuel)%nat ->
  exists b, drain_server fuel id sid woke r = Some (b, drained id sid s r).
Proof.
  induction fuel as [| fuel IH]; intros woke r s Hs Hf; cbn [drain_server]; unfold try_receive_message, drained, bind, gets, modify, ret;
    destruct (take_message sid (inbox r)) as [[m l'] |] eqn:Et.
  - apply take_message_some in Et as (_ & _ & Hl & _). lia.
  - apply take_message_none in Et as [-> ->]. exists woke. f_equal. f_equal. destruct r as [sv ? ? ? ? ?]; cbn in *. f_equal.
    rewrite list_insert_id; [reflexivity |]. unfold fill. rewrite app_nil_r. destruct s; exact Hs.
  - apply take_message_some in Et as (E1 & E2 & Hl & _). cbn [servers set_inbox]. rewrite Hs. cbn [expect ret]. unfold alter_server, modify.
    rewrite E1, E2.
    set (r1 := set_servers (alter (fun s0 => mkServerSlot (ss_sid s0) (ss_queue s0 ++ [m]) None (ss_active s0)) id (servers r)) (set_inbox l' r)).
    assert (H1 : forall rd, servers (set_ready rd r1) !! id = Some (fill [m] s)) by (intros rd; cbn; rewrite list_lookup_alter_eq, Hs; reflexivity).
    assert (Halter : servers r1 = <[id := fill [m] s]> (servers r)).
    { cbn. apply list_eq. intros j. destruct (decide (j = id)) as [-> | Hj].
      - rewrite list_lookup_alter_eq, Hs, list_lookup_insert_eq by (eapply lookup_lt_Some; exact Hs). reflexivity.
      - rewrite list_lookup_alter_ne, list_lookup_insert_ne by congruence. reflexivity. }
    destruct (ss_waker s) as [w |] eqn:Ew.
    + destruct (IH true (set_ready (<[w := true]> (ready r)) r1) (fill [m] s) (H1 _)) as [b Eb]; [cbn; lia |].
      exists b. cbn [wake modify]. etransitivity; [exact Eb |]. unfold drained. cbn [inbox set_ready r1 set_servers set_inbox timers tick spawn_queue ready].
      f_equal. f_equal. rewrite fill_fill. f_equal; [| cbn; destruct (for_sid sid l'); cbn; rewrite Ew; reflexivity].
      change (servers (set_ready (<[w:=true]> (ready r)) r1)) with (servers r1). rewrite Halter. apply list_insert_insert_eq.
    + destruct (IH woke r1 (fill [m] s)) as [b Eb]; [exact (H1 (ready r)) | cbn; lia |].
      exists b. etransitivity; [exact Eb |]. unfold drained. cbn [inbox r1 set_servers set_inbox timers tick spawn_queue ready].
      f_equal. f_equal. rewrite fill_fill. f_equal; [| cbn; destruct (for_sid sid l'); cbn; rewrite ?Ew; reflexivity].
      change (servers (set_servers _ _)) with (servers r1). rewrite Halter. apply list_insert_insert_eq.
  - apply take_message_none in Et as [-> ->]. exists woke. f_equal. f_equal. destruct r as [sv ? ? ? ? ?]; cbn in *. f_equal.
    rewrite list_insert_id; [reflexivity |]. unfold fill. rewrite app_nil_r. destruct s; exact Hs.
Qed.

(** The slots are drained one after the other; [P] is what every draining keeps. *)
Lemma drained_slots id sid s r : length (servers (drained id sid s r)) = length (servers r).
Proof. apply length_insert. Qed.

Lemma poll_slots_keeps (P : Reactor F -> Prop) ids : forall b r,
  (forall r id s, P r -> servers r !! id = Some s -> ss_active s = true -> P (drained id (ss_sid s) s r)) ->
  P r -> Forall (fun id => id < length (servers r))%nat ids ->
  exists b' r', poll_slots ids b r = Some (b', r') /\ P r' /\ length (servers r') = length (servers r).
Proof.
  induction ids as [| id ids IH]; intros b r Hd Hr Hids; [repeat eexists; exact Hr |].
  inversion_clear Hids as [| ? ? Hid Hids']. destruct (lookup_lt_is_Some_2 _ _ Hid) as [s Hs].
  cbn [poll_slots]. unfold bind at 1, gets. unfold Datatypes.id. cbn. rewrite Hs. destruct (ss_active s) eqn:Ea; cbn [negb]; [| apply IH; assumption].
  destruct (drain_server_run (length (inbox r)) id (ss_sid s) b r s Hs (Nat.le_refl _)) as [b1 E]. rewrite (bind_run _ _ _ _ _ E).
  pose proof (drained_slots id (ss_sid s) s r) as Hl.
  destruct (IH b1 (drained id (ss_sid s) s r) Hd) as (b2 & r2 & E2 & HP & Hl2); [apply Hd; assumption | rewrite Hl; exact Hids' |].
  exists b2, r2. rewrite E2, Hl2, Hl. auto.
Qed.

Lemma poll_slots_app l1 l2 b r : poll_slots (l1 ++ l2) b r = (w <- poll_slots l1 b ;; poll_slots l2 w) r.
Proof.
  revert b r. induction l1 as [| id l1 IH]; intros b r; [reflexivity |]. cbn [app poll_slots]. unfold bind, gets, Datatypes.id in *. cbn.
  destruct (servers r !! id) as [s |]; [| reflexivity]. destruct (ss_active s); cbn [negb]; [| apply IH].
  destruct (drain_server _ _ _ _ _) as [[w r1] |]; [apply IH | reflexivity].
Qed.

(** [Q] holds from the draining of the slot [i] on. *)
Lemma poll_servers_keeps (P Q : Reactor F -> Prop) i r :
  (forall r id s, P r -> servers r !! id = Some s -> ss_active s = true -> P (drained id (ss_sid s) s r)) ->
  (forall r id s, Q r -> servers r !! id = Some s -> ss_active s = true -> Q (drained id (ss_sid s) s r)) ->
  (forall r, P r -> exists s, servers r !! i = Some s /\ ss_active s = true /\ Q (drained i (ss_sid s) s r)) ->
  P r -> exists b r', poll_servers r = Some (b, r') /\ P r' /\ Q r'.
Proof.
  intros HP HQ Hi Hr. destruct (Hi r Hr) as (s0 & Hs0 & _). apply lookup_lt_Some in Hs0.
  unfold poll_servers. unfold bind at 1, gets, Datatypes.id. cbn.
  replace (seq 0 (length (servers r))) with (seq 0 i ++ [i] ++ seq (S i) (length (servers r) - S i)).
  2: { rewrite app_assoc. change [i] with (seq (0 + i) 1). rewrite <- seq_app. replace (S i) with (0 + (i + 1))%nat by lia. rewrite <- seq_app. f_equal. lia. }
  rewrite poll_slots_app. destruct (poll_slots_keeps P (seq 0 i) false r HP Hr) as (b1 & r1 & E1 & H1 & L1).
  { apply Forall_forall. intros j Hj%elem_of_seq. lia. }
  rewrite (bind_run _ _ _ _ _ E1). destruct (Hi r1 H1) as (s & Hs & Ha & Hq).
  cbn [app poll_slots]. unfold bind at 1, gets, Datatypes.id. cbn. rewrite Hs, Ha. cbn [negb].
  destruct (drain_server_run (length (inbox r1)) i (ss_sid s) b1 r1 s Hs (Nat.le_refl _)) as [b2 E2]. rewrite (bind_run _ _ _ _ _ E2).
  destruct (poll_slots_keeps (fun r => P r /\ Q r) (seq (S i) (length (servers r) - S i)) b2 (drained i (ss_sid s) s r1)) as (b3 & r3 & E3 & [H3 H4] & L3).
  - intros r2 id s2 [Hp2 Hq2] Hs2 Ha2. split; [apply HP | apply HQ]; assumption.
  - split; [apply HP |]; assumption.
  - rewrite drained_slots, L1. apply Forall_forall. intros j Hj%elem_of_seq. lia.
  - eauto 6.
Qed.

(** *** What the other tasks and the executor do meanwhile *)

Inductive Op :=
| PollAll
| PollTimer (t : Timer) (w : nat)
| DropTimer (t : Timer)
| Receive (slot w : nat)
| NewServer (sid : SID)
| DropServer (slot : nat)
| Spawn (f : F)
| Clear (w : nat)
| Arrive (sid : SID) (m : MessageEnvelope).

Definition exec_op (o : Op) : M (Reactor F) unit :=
  match o with
  | PollAll => _ <- poll_all ;; ret tt
  | PollTimer t w => _ <- timer_poll t w ;; ret tt
  | DropTimer t => timer_drop t
  | Receive slot w => _ <- recv_poll slot w ;; ret tt
  | NewServer sid => _ <- register_server sid ;; ret tt
  | DropServer slot => unregister_server slot
  | Spawn f => enqueue_spawn f
  | Clear w => modify (fun r => set_ready (<[w := false]> (ready r)) r)
  | Arrive sid m => modify (fun r => set_inbox (inbox r ++ [(sid, m)]) r)
  end.
Fixpoint exec_ops (l : list Op) : M (Reactor F) unit := match l with [] => ret tt | o :: l => _ <- exec_op o ;; exec_ops l end.

Definition ticks (l : list Op) : nat := length (List.filter (fun o => match o with PollAll => true | _ => false end) l).
Definition arrived (sid : SID) (l : list Op) : list MessageEnvelope :=
  omap (fun o => match o with Arrive s m => if bool_decide (s = sid) then Some m else None | _ => None end) l.
(** The deadlines stay below [2^64] for [n] more ticks. *)
Definition in_time (n : Z) (o : Op) : Prop := match o with PollTimer t _ => 0 <= tm_delay t /\ n + tm_delay t < 2 ^ 64 | _ => True end.

(** The flag of the task [w] stays set. *)
Definition keeps_flag (w : nat) r r' : Prop := length (ready r') = length (ready r) /\ (ready r !! w = Some true -> ready r' !! w = Some true).
Lemma keeps_flag_refl w r r' : ready r' = ready r -> keeps_flag w r r'.
Proof. intros E. unfold keeps_flag. rewrite E. auto. Qed.
Lemma set_flag_keeps w v (l : list bool) : l !! w = Some true -> <[v := true]> l !! w = Some true.
Proof. intros H. destruct (decide (v = w)) as [-> | Hn]; [apply list_lookup_insert_eq; eapply lookup_lt_Some; exact H | rewrite list_lookup_insert_ne; assumption]. Qed.
Lemma wake_flag_keeps w o (l : list bool) : length (wake_flag o l) = length l /\ (l !! w = Some true -> wake_flag o l !! w = Some true).
Proof. destruct o; cbn; [split; [apply length_insert | apply set_flag_keeps] | auto]. Qed.

(** *** Timers *)
Definition set_flags (ws : list nat) (l : list bool) : list bool := foldl (fun l w => <[w := true]> l) l ws.
Lemma set_flags_keeps w ws : forall l, length (set_flags ws l) = length l /\ (l !! w = Some true -> set_flags ws l !! w = Some true).
Proof.
  induction ws as [| v ws IH]; intros l; cbn; [auto |]. destruct (IH (<[v := true]> l)) as [H1 H2]. split; [etransitivity; [exact H1 |]; apply length_insert |].
  intros H. apply H2, set_flag_keeps, H.
Qed.
Lemma set_flags_in w ws : forall l, w ∈ ws -> (w < length l)%nat -> set_flags ws l !! w = Some true.
Proof.
  induction ws as [| v ws IH]; intros l Hin Hw; [inversion Hin |]. cbn. destruct (decide (v = w)) as [-> | Hn].
  - apply (set_flags_keeps w ws). apply list_lookup_insert_eq, Hw.
  - apply IH; [apply elem_of_cons in Hin as [-> | H]; [congruence | exact H] | rewrite length_insert; exact Hw].
Qed.
Lemma wake_all_run ws : forall r, wake_all ws r = Some (tt, set_ready (set_flags ws (ready r)) r).
Proof. induction ws as [| w ws IH]; intros r; [destruct r; reflexivity |]. cbn. unfold bind, modify. rewrite IH. reflexivity. Qed.

Lemma poll_timers_run r : 0 <= tick r -> tick r + 1 < 2 ^ 64 ->
  exists b, poll_timers r = Some (b, mkReactor (servers r) ((fun s => (fire (tick r + 1) s).1) <$> timers r) (tick r + 1) (spawn_queue r)
    (set_flags (omap (fun s => (fire (tick r + 1) s).2) (timers r)) (ready r)) (inbox r)).
Proof.
  intros H0 H1. unfold poll_timers. unfold bind at 1, gets at 1. rewrite (bind_run _ _ _ _ _ (add64_run (tick r) 1 r ltac:(lia))).
  unfold bind, modify, gets. cbn. rewrite wake_all_run. eexists. reflexivity.
Qed.


(** The timer in slot [id] is due at [D], and [w] waits for it or is about to be polled. *)
Definition armed (id w : nat) (D : Z) r : Prop :=
  exists wk, timers r !! id = Some (mkTimerSlot D wk true) /\ ((wk = Some w /\ tick r < D) \/ ready r !! w = Some true) /\ (w < length (ready r))%nat.
Definition apart_timer (id w : nat) (o : Op) : Prop :=
  match o with
  | PollTimer t _ | DropTimer t => tm_slot t <> Some id
  | Clear w' => w' <> w
  | _ => True
  end.

Lemma armed_frame id w D r r' : armed id w D r -> timers r' !! id = timers r !! id -> tick r' = tick r -> keeps_flag w r r' -> armed id w D r'.
Proof. intros (wk & H1 & H2 & H3) E1 E2 [E3 E4]. exists wk. rewrite E1, E2, E3. split; [exact H1 | split; [tauto | exact H3]]. Qed.

Lemma poll_timers_armed id w D r : armed id w D r -> 0 <= tick r -> tick r + 1 < 2 ^ 64 ->
  exists b r', poll_timers r = Some (b, r') /\ tick r' = tick r + 1 /\ armed id w D r'.
Proof.
  intros (wk & H1 & H2 & H3) H0 Hb. destruct (poll_timers_run r H0 Hb) as [b E]. exists b. eexists. split; [exact E |]. split; [reflexivity |].
  set (ws := omap (fun s => (fire (tick r + 1) s).2) (timers r)) in *. destruct (set_flags_keeps w ws (ready r)) as [L K].
  exists (fire (tick r + 1) (mkTimerSlot D wk true)).1.(ts_waker). cbn [timers tick ready]. rewrite list_lookup_fmap, H1, L. cbn [fmap option_fmap option_map].
  split; [| split; [| exact H3]].
  - unfold fire. cbn. destruct (D <=? tick r + 1); reflexivity.
  - destruct H2 as [[-> Ht] | Hr]; [| auto]. destruct (Z.leb_spec D (tick r + 1)).
    + right. apply set_flags_in; [| exact H3]. apply list_elem_of_omap. exists (mkTimerSlot D (Some w) true).
      split; [eapply list_elem_of_lookup_2; exact H1 |]. unfold fire. cbn. rewrite (proj2 (Z.leb_le _ _)) by lia. reflexivity.
    + left. unfold fire. cbn. rewrite (proj2 (Z.leb_gt _ _)) by lia. auto.
Qed.

(** What draining leaves alone. *)
Definition same_timers (w : nat) r r' : Prop := timers r' = timers r /\ tick r' = tick r /\ keeps_flag w r r'.
Lemma poll_servers_timers w r : exists b r', poll_servers r = Some (b, r') /\ same_timers w r r'.
Proof.
  unfold poll_servers. unfold bind at 1, gets, Datatypes.id. cbn.
  destruct (poll_slots_keeps (same_timers w r) (seq 0 (length (servers r))) false r) as (b & r' & E & H & _).
  - intros r1 id s (H1 & H2 & H3 & H4) Hs Ha. destruct (wake_flag_keeps w (used_waker (for_sid (ss_sid s) (inbox r1)) s) (ready r1)) as [K1 K2].
    unfold same_timers, keeps_flag. cbn. rewrite K1. tauto.
  - unfold same_timers, keeps_flag. auto.
  - apply Forall_forall. intros j Hj%elem_of_seq. lia.
  - eauto.
Qed.

Lemma place_keeps {A} (active : A -> bool) new (l : list A) i x : l !! i = Some x -> active x = true -> (place active new l).2 !! i = Some x.
Proof.
  intros Hi Ha. unfold place. destruct (reuse_slot active new l) as [[j l'] |] eqn:E; [| apply lookup_app_l_Some; exact Hi]. cbn.
  revert i j l' E Hi. induction l as [| y l IH]; intros i j l' E Hi; [discriminate |]. cbn in E. destruct (active y) eqn:Ey.
  - destruct (reuse_slot active new l) as [[j0 l0] |]; [| discriminate]. injection E as <- <-. destruct i; [exact Hi | exact (IH _ _ _ eq_refl Hi)].
  - injection E as <- <-. destruct i; [cbn in Hi; congruence | exact Hi].
Qed.
Lemma place_slot {A} (active : A -> bool) new (l : list A) : (place active new l).2 !! (place active new l).1 = Some new /\
  forall i x, l !! i = Some x -> active x = true -> i <> (place active new l).1.
Proof.
  unfold place. destruct (reuse_slot active new l) as [[j l'] |] eqn:E; cbn.
  - revert j l' E. induction l as [| y l IH]; intros j l' E; [discriminate |]. cbn in E. destruct (active y) eqn:Ey.
    + destruct (reuse_slot active new l) as [[j0 l0] |]; [| discriminate]. injection E as <- <-. destruct (IH _ _ eq_refl) as [H1 H2].
      split; [exact H1 |]. intros [| i] x Hi Hx; [lia | intros Hij; injection Hij; exact (H2 i x Hi Hx)].
    + injection E as <- <-. split; [reflexivity |]. intros [| i] x Hi Hx; [cbn in Hi; congruence | lia].
  - split; [rewrite lookup_app_r, Nat.sub_diag by lia; reflexivity |]. intros i x Hi _ ->. apply lookup_lt_Some in Hi. lia.
Qed.

Lemma place_old {A} (active : A -> bool) new (l : list A) i x : (place active new l).2 !! i = Some x -> x = new \/ l !! i = Some x.
Proof.
  unfold place. destruct (reuse_slot active new l) as [[j l'] |] eqn:E; cbn.
  - revert i j l' E. induction l as [| y l IH]; intros i j l' E Hi; [discriminate |]. cbn in E. destruct (active y) eqn:Ey.
    + destruct (reuse_slot active new l) as [[j0 l0] |]; [| discriminate]. injection E as <- <-. destruct i; [right; exact Hi | exact (IH _ _ _ eq_refl Hi)].
    + injection E as <- <-. destruct i; [left; cbn in Hi; congruence | right; exact Hi].
  - intros [H | [_ H]]%lookup_app_Some; [auto |]. apply list_lookup_singleton_Some in H as [_ <-]. auto.
Qed.

(** A poll of another timer leaves the slots of the timers alone. *)
Lemma timer_poll_other t w' r : 0 <= tick r -> tick r + tm_delay t < 2 ^ 64 ->
  exists x l, timer_poll t w' r = Some (x, set_timers l r) /\ forall i s, timers r !! i = Some s -> ts_active s = true -> tm_slot t <> Some i -> l !! i = Some s.
Proof.
  intros H0 Hd. assert (Hslot : exists i l, match tm_slot t with Some id => ret id | None => register_timer (tm_delay t) end r = Some (i, set_timers l r) /\
    forall j s, timers r !! j = Some s -> ts_active s = true -> tm_slot t <> Some j -> l !! j = Some s /\ j <> i).
  { destruct (tm_slot t) as [i |].
    - exists i, (timers r). split; [destruct r; reflexivity |]. intros j s Hj _ Hn. split; congruence.
    - unfold register_timer. unfold bind at 1, gets at 1. rewrite (bind_run _ _ _ _ _ (add64_run _ _ r Hd)). unfold bind at 1, gets.
      pose proof (place_slot ts_active (mkTimerSlot (tick r + tm_delay t) None true) (timers r)) as [_ P].
      pose proof (place_keeps ts_active (mkTimerSlot (tick r + tm_delay t) None true) (timers r)) as K.
      destruct (place _ _ _) as [i l]. exists i, l. split; [reflexivity |]. intros j s Hj Ha _. eauto. }
  destruct Hslot as (i & l & E & Hl). unfold timer_poll. rewrite (bind_run _ _ _ _ _ E). unfold timer_expired. unfold bind at 1, gets.
  destruct (match timers (set_timers l r) !! i with Some _ => _ | None => _ end).
  - exists (mkTimer None (tm_delay t), Some tt), (alter (fun s => mkTimerSlot (ts_deadline s) None false) i l). split; [reflexivity |].
    intros j s Hj Ha Hn. destruct (Hl j s Hj Ha Hn) as [Hl1 Hne]. rewrite list_lookup_alter_ne by congruence. exact Hl1.
  - exists (mkTimer (Some i) (tm_delay t), None), (alter (fun s => mkTimerSlot (ts_deadline s) (Some w') (ts_active s)) i l). split; [reflexivity |].
    intros j s Hj Ha Hn. destruct (Hl j s Hj Ha Hn) as [Hl1 Hne]. rewrite list_lookup_alter_ne by congruence. exact Hl1.
Qed.

(** A poll of the slot [slot] changes that slot and takes messages of its server only. *)
Lemma recv_poll_other slot w' r : exists x sv ib, recv_poll slot w' r = Some (x, set_inbox ib (set_servers sv r)) /\
  (forall i, i <> slot -> sv !! i = servers r !! i) /\
  (forall s', sv !! slot = Some s' -> exists s, servers r !! slot = Some s /\ ss_sid s' = ss_sid s /\ ss_active s' = ss_active s) /\
  (forall sid, (forall s, servers r !! slot = Some s -> ss_active s = true -> ss_sid s <> sid) -> for_sid sid ib = for_sid sid (inbox r)).
Proof.
  unfold recv_poll, server_active. unfold bind at 1, gets.
  destruct (servers r !! slot) as [s |] eqn:Hs; cbn [negb].
  2: { exists (Some (Err ServerGone)), (servers r), (inbox r). split; [destruct r; reflexivity |]. repeat split; try congruence; intros; congruence. }
  destruct (ss_active s) eqn:Ha; cbn [negb].
  2: { exists (Some (Err ServerGone)), (servers r), (inbox r). split; [destruct r; reflexivity |]. repeat split; intros; simplify_eq; eauto. }
  unfold try_recv. unfold bind at 1 2, gets. rewrite Hs, Ha. cbn [negb].
  destruct (ss_queue s) as [| m q] eqn:Eq.
  - unfold try_receive_message. unfold bind at 1, gets. destruct (take_message (ss_sid s) (inbox r)) as [[m l'] |] eqn:Et.
    + exists (Some (Ok m)), (servers r), l'. split; [destruct r; reflexivity |]. split; [auto |]. split; [intros; simplify_eq; eauto |].
      intros sid Hn. apply (take_message_some _ _ _ _ Et). intros ->. exact (Hn s eq_refl Ha eq_refl).
    + exists None, (alter (fun s => mkServerSlot (ss_sid s) (ss_queue s) (Some w') (ss_active s)) slot (servers r)), (inbox r).
      split; [destruct r; reflexivity |]. split; [intros i Hi; apply list_lookup_alter_ne; congruence |]. split; [| auto].
      intros s'. rewrite list_lookup_alter_eq, Hs. intros [= <-]. eauto.
  - exists (Some (Ok m)), (alter (fun s => mkServerSlot (ss_sid s) q (ss_waker s) (ss_active s)) slot (servers r)), (inbox r).
    split; [destruct r; reflexivity |]. split; [intros i Hi; apply list_lookup_alter_ne; congruence |]. split; [| auto].
    intros s'. rewrite list_lookup_alter_eq, Hs. intros [= <-]. eauto.
Qed.

Lemma clear_flag w w' r : w' <> w -> keeps_flag w r (set_ready (<[w' := false]> (ready r)) r).
Proof. intros Hn. split; cbn; [apply length_insert |]. intros H. rewrite list_lookup_insert_ne; assumption. Qed.

Lemma op_armed id w D o r : armed id w D r -> apart_timer id w o -> in_time (tick r) o -> 0 <= tick r -> tick r + Z.of_nat (ticks [o]) < 2 ^ 64 ->
  exists r', exec_op o r = Some (tt, r') /\ armed id w D r' /\ tick r' = tick r + Z.of_nat (ticks [o]).
Proof.
  intros A Ho Ht H0 H1. pose proof A as (wk & Hid & _). destruct o as [| t w' | t | slot w' | sid | slot | f | w' | sid m]; cbn [ticks List.filter length] in *; unfold exec_op.
  - destruct (poll_servers_timers w r) as (b & r1 & E & E1 & E2 & K). unfold poll_all. rewrite (bind_assoc poll_servers), (bind_run _ _ _ _ _ E).
    assert (A1 : armed id w D r1) by (apply (armed_frame id w D r); [exact A | rewrite E1; reflexivity | exact E2 | exact K]).
    destruct (poll_timers_armed id w D r1 A1) as (b' & r2 & E3 & E4 & A2); [lia | lia |]. unfold bind. rewrite E3. exists r2. rewrite E4, E2. auto.
  - destruct (timer_poll_other t w' r H0) as (x & l & E & K); [apply Ht |]. rewrite (bind_run _ _ _ _ _ E). eexists. split; [reflexivity |].
    split; [| cbn; lia]. apply (armed_frame id w D r); [exact A | | reflexivity | apply keeps_flag_refl; reflexivity]. rewrite Hid. apply K; [exact Hid | reflexivity | exact Ho].
  - unfold timer_drop. destruct (tm_slot t) as [i |] eqn:Es; eexists; (split; [reflexivity |]); (split; [| cbn; lia]); [| exact A].
    apply (armed_frame id w D r); [exact A | apply list_lookup_alter_ne; cbn in Ho; rewrite Es in Ho; congruence | reflexivity | apply keeps_flag_refl; reflexivity].
  - destruct (recv_poll_other slot w' r) as (x & sv & ib & E & _). rewrite (bind_run _ _ _ _ _ E). eexists. split; [reflexivity |]. split; [exact A | cbn; lia].
  - unfold register_server. unfold bind, gets. destruct (place _ _ _) as [i l]. eexists. split; [reflexivity |]. split; [exact A | cbn; lia].
  - eexists. split; [reflexivity |]. split; [exact A | cbn; lia].
  - eexists. split; [reflexivity |]. split; [exact A | cbn; lia].
  - eexists. split; [reflexivity |]. split; [| cbn; lia]. apply (armed_frame id w D r); [exact A | reflexivity | reflexivity | apply clear_flag, Ho].
  - eexists. split; [reflexivity |]. split; [exact A | cbn; lia].
Qed.

Lemma ticks_cons o l : ticks (o :: l) = (ticks [o] + ticks l)%nat.
Proof. unfold ticks. cbn. destruct o; reflexivity. Qed.

Lemma ops_armed id w D n l : forall r, armed id w D r -> Forall (apart_timer id w) l -> Forall (in_time n) l -> 0 <= tick r -> tick r + Z.of_nat (ticks l) <= n -> n < 2 ^ 64 ->
  exists r', exec_ops l r = Some (tt, r') /\ armed id w D r' /\ tick r' = tick r + Z.of_nat (ticks l).
Proof.
  induction l as [| o l IH]; intros r A Ha Ht H0 Hn Hb; [exists r; split; [reflexivity |]; split; [exact A | cbn; lia] |].
  inversion_clear Ha as [| ? ? Ho Hl]. inversion_clear Ht as [| ? ? Hto Htl]. rewrite ticks_cons in *.
  destruct (op_armed id w D o r A Ho) as (r1 & E1 & A1 & T1); [destruct o; cbn in *; lia | lia | lia |].
  destruct (IH r1 A1 Hl Htl) as (r2 & E2 & A2 & T2); [lia | lia | exact Hb |]. exists r2. cbn [exec_ops]. rewrite (bind_run _ _ _ _ _ E1). split; [exact E2 |]. split; [exact A2 | lia].
Qed.

Lemma timer_poll_armed id w D d r : armed id w D r -> exists r', timer_poll (mkTimer (Some id) d) w r =
  Some (if D <=? tick r then (mkTimer None d, Some tt) else (mkTimer (Some id) d, None), r') /\
  (exists s, timers r' !! id = Some s /\ ts_active s = negb (D <=? tick r)) /\ (D <= tick r -> ready r !! w = Some true).
Proof.
  intros (wk & H1 & H2 & H3). unfold timer_poll, timer_expired. cbn [tm_slot tm_delay]. rewrite bind_ret_l. unfold bind at 1, gets. rewrite H1. cbn [ts_active ts_deadline andb].
  destruct (Z.leb_spec D (tick r)); eexists; (split; [reflexivity |]); (split; [| intros; destruct H2 as [[_ ?] | ?]; [lia | assumption]]);
    cbn; rewrite list_lookup_alter_eq, H1; eexists; split; reflexivity.
Qed.

Lemma timer_starts w d r : 0 <= tick r -> 0 < d -> tick r + d < 2 ^ 64 -> (w < length (ready r))%nat ->
  exists id r1, timer_poll (Timer_after d) w r = Some ((mkTimer (Some id) d, None), r1) /\ armed id w (tick r + d) r1 /\ tick r1 = tick r.
Proof.
  intros H0 Hd Hb Hw. unfold timer_poll, Timer_after. cbn [tm_slot tm_delay]. unfold register_timer.
  rewrite bind_assoc. unfold bind at 1, gets at 1. rewrite bind_assoc, (bind_run _ _ _ _ _ (add64_run _ _ r Hb)). unfold bind at 1 2, gets at 1.
  destruct (place_slot ts_active (mkTimerSlot (tick r + d) None true) (timers r)) as [P _]. destruct (place _ _ _) as [i l]. cbn [fst snd] in P.
  exists i, (set_timers (alter (fun s => mkTimerSlot (ts_deadline s) (Some w) (ts_active s)) i l) r).
  split; [| split; [| reflexivity]].
  - unfold bind, modify, ret, timer_expired, gets. cbn. rewrite P. cbn. rewrite (proj2 (Z.leb_gt _ _)) by lia. reflexivity.
  - exists (Some w). cbn. rewrite list_lookup_alter_eq, P. split; [reflexivity |]. split; [left; split; [reflexivity | lia] | exact Hw].
Qed.

(** *** Servers *)

(** The task [w] waits for the server [sid] in the slot [id]; [ms] are the messages
    that it has not received yet. *)
Definition listening (id : nat) (sid : SID) (w : nat) (ms : list MessageEnvelope) r : Prop :=
  exists q wk, servers r !! id = Some (mkServerSlot sid q wk true) /\ q ++ for_sid sid (inbox r) = ms /\
    ((wk = Some w /\ q = []) \/ ready r !! w = Some true) /\ (w < length (ready r))%nat /\
    (forall j s, servers r !! j = Some s -> ss_active s = true -> ss_sid s = sid -> j = id).
Definition apart_server (id : nat) (sid : SID) (w : nat) (o : Op) : Prop :=
  match o with
  | Receive slot _ | DropServer slot => slot <> id
  | NewServer s => s <> sid
  | Clear w' => w' <> w
  | _ => True
  end.

Lemma listening_frame id sid w ms r r' : listening id sid w ms r -> servers r' = servers r -> inbox r' = inbox r -> keeps_flag w r r' -> listening id sid w ms r'.
Proof.
  intros (q & wk & H1 & H2 & H3 & H4 & H5) E1 E2 [E3 E4]. exists q, wk. rewrite E1, E2, E3. split; [exact H1 |]. split; [exact H2 |]. split; [tauto |]. auto.
Qed.

Lemma drained_listening id sid w ms r j s : listening id sid w ms r -> servers r !! j = Some s -> ss_active s = true ->
  listening id sid w ms (drained j (ss_sid s) s r).
Proof.
  intros (q & wk & H1 & H2 & H3 & H4 & H5) Hs Ha.
  pose proof (wake_flag_keeps w (used_waker (for_sid (ss_sid s) (inbox r)) s) (ready r)) as [L K].
  assert (Hd : forall i s', <[j := fill (for_sid (ss_sid s) (inbox r)) s]> (servers r) !! i = Some s' -> ss_active s' = true -> ss_sid s' = sid -> i = id).
  { intros i s' Hi Ha' Es. destruct (decide (i = j)) as [-> | Hn].
    - rewrite list_lookup_insert_eq in Hi by (eapply lookup_lt_Some; exact Hs). injection Hi as <-. exact (H5 j s Hs Ha Es).
    - rewrite list_lookup_insert_ne in Hi by congruence. eauto. }
  destruct (decide (j = id)) as [-> | Hn].
  - rewrite H1 in Hs. injection Hs as <-. cbn [ss_sid] in *. unfold listening, drained. cbn [servers inbox ready].
    rewrite list_lookup_insert_eq by (eapply lookup_lt_Some; exact H1). unfold fill at 1. cbn [ss_sid ss_queue ss_waker ss_active].
    eexists _, _. split; [reflexivity |]. split; [rewrite for_sid_others, decide_True, app_nil_r by reflexivity; exact H2 |]. rewrite H2, L. split; [| auto].
    destruct H3 as [[-> ->] | Hr]; [| auto]. cbn in H2. destruct ms as [| m ms]; rewrite H2; cbn; [auto |].
    right. apply list_lookup_insert_eq, H4.
  - assert (Hsid : ss_sid s <> sid) by (intros E; exact (Hn (H5 j s Hs Ha E))).
    exists q, wk. unfold drained. cbn [servers inbox ready]. rewrite list_lookup_insert_ne, for_sid_others, decide_False, L by congruence.
    split; [exact H1 |]. split; [exact H2 |]. split; [tauto |]. auto.
Qed.

Lemma poll_servers_listening id sid w ms r : listening id sid w ms r ->
  exists b r', poll_servers r = Some (b, r') /\ (listening id sid w ms r' /\ tick r' = tick r) /\ for_sid sid (inbox r') = [].
Proof.
  intros H. apply (poll_servers_keeps (fun r' => listening id sid w ms r' /\ tick r' = tick r) (fun r' => for_sid sid (inbox r') = []) id r); [| | | auto].
  - intros r1 j s [H1 T1] Hs Ha. split; [apply drained_listening; assumption | exact T1].
  - intros r1 j s H1 Hs Ha. cbn [drained inbox]. rewrite for_sid_others. destruct (decide _); [reflexivity | exact H1].
  - intros r1 [(q & wk & H1 & _) _]. eexists. split; [exact H1 |]. split; [reflexivity |]. cbn [drained inbox ss_sid]. rewrite for_sid_others, decide_True; reflexivity.
Qed.

Lemma poll_all_listening id sid w ms r : listening id sid w ms r -> 0 <= tick r -> tick r + 1 < 2 ^ 64 ->
  exists b r', poll_all r = Some (b, r') /\ listening id sid w ms r' /\ tick r' = tick r + 1 /\ (ms <> [] -> ready r' !! w = Some true).
Proof.
  intros H H0 Hb. destruct (poll_servers_listening id sid w ms r H) as (b & r1 & E & [H1 T1] & D1).
  destruct (poll_timers_run r1) as [b' E']; [lia | lia |]. unfold poll_all. rewrite (bind_run _ _ _ _ _ E), (bind_run _ _ _ _ _ E').
  pose proof (set_flags_keeps w (omap (fun s => (fire (tick r1 + 1) s).2) (timers r1)) (ready r1)) as [L K].
  eexists _, _. split; [reflexivity |]. split; [| split; [cbn; lia |]].
  - apply (listening_frame id sid w ms r1); [exact H1 | reflexivity | reflexivity | split; assumption].
  - intros Hne. apply K. destruct H1 as (q & wk & _ & Hq & [[_ ->] | Hr] & _); [| exact Hr]. rewrite D1 in Hq. cbn in Hq. congruence.
Qed.

Lemma for_sid_app sid l1 l2 : for_sid sid (l1 ++ l2) = for_sid sid l1 ++ for_sid sid l2.
Proof. unfold for_sid. rewrite filter_app. apply fmap_app. Qed.

Lemma op_listening id sid w ms o r : listening id sid w ms r -> apart_server id sid w o -> in_time (tick r) o -> 0 <= tick r -> tick r + Z.of_nat (ticks [o]) < 2 ^ 64 ->
  exists r', exec_op o r = Some (tt, r') /\ listening id sid w (ms ++ arrived sid [o]) r' /\ tick r' = tick r + Z.of_nat (ticks [o]).
Proof.
  intros A Ho Ht H0 H1. pose proof A as (q & wk & Hid & Hq & Hw & Hl & Hd).
  destruct o as [| t w' | t | slot w' | s | slot | f | w' | s m]; cbn [ticks List.filter length] in *; unfold exec_op.
  9: { eexists. split; [reflexivity |]. split; [| cbn; lia]. exists q, wk. cbn [servers set_inbox inbox ready]. rewrite for_sid_app, app_assoc, Hq.
    split; [exact Hid |]. split; [| auto]. f_equal. unfold for_sid, arrived. rewrite filter_cons. cbn [fst omap list_omap].
    case_bool_decide as Hs; [rewrite decide_True by exact Hs | rewrite decide_False by exact Hs]; reflexivity. }
  all: rewrite app_nil_r.
  - destruct (poll_all_listening id sid w ms r A H0) as (b & r' & E & A' & T' & _); [lia |]. rewrite (bind_run _ _ _ _ _ E). exists r'. rewrite T'. auto.
  - destruct (timer_poll_other t w' r H0) as (x & l & E & K); [apply Ht |]. rewrite (bind_run _ _ _ _ _ E). eexists. split; [reflexivity |].
    split; [| cbn; lia]. apply (listening_frame id sid w ms r); [exact A | reflexivity | reflexivity | apply keeps_flag_refl; reflexivity].
  - unfold timer_drop. destruct (tm_slot t); eexists; (split; [reflexivity |]); (split; [exact A | cbn; lia]).
  - destruct (recv_poll_other slot w' r) as (x & sv & ib & E & K1 & K2 & K3). rewrite (bind_run _ _ _ _ _ E). eexists. split; [reflexivity |].
    split; [| cbn; lia]. exists q, wk. cbn [servers inbox ready set_inbox set_servers]. cbn in Ho.
    rewrite (K1 id), (K3 sid) by (congruence || (intros s Hs Ha Es; exact (Ho (Hd slot s Hs Ha Es)))).
    split; [exact Hid |]. split; [exact Hq |]. split; [exact Hw |]. split; [exact Hl |].
    intros j s Hs Ha Es. destruct (decide (j = slot)) as [-> | Hn]; [| rewrite K1 in Hs by exact Hn; eauto].
    destruct (K2 s Hs) as (s0 & Hs0 & Ei & Ea). apply (Hd slot s0 Hs0); congruence.
  - unfold register_server. unfold bind, gets. pose proof (place_keeps ss_active (mkServerSlot s [] None true) (servers r)) as K.
    pose proof (place_old ss_active (mkServerSlot s [] None true) (servers r)) as K'. destruct (place _ _ _) as [i l]. eexists. split; [reflexivity |].
    split; [| cbn; lia]. exists q, wk. cbn [fst snd] in K, K'. cbn. split; [apply K; [exact Hid | reflexivity] |]. split; [exact Hq |]. split; [exact Hw |]. split; [exact Hl |].
    intros j s' Hs Ha Es. destruct (K' j s' Hs) as [-> | Hs']; [cbn in Es, Ho; congruence | eauto].
  - eexists. split; [reflexivity |]. split; [| cbn; lia]. exists q, wk. cbn. rewrite list_lookup_alter_ne by exact Ho.
    split; [exact Hid |]. split; [exact Hq |]. split; [exact Hw |]. split; [exact Hl |].
    intros j s Hs Ha Es. destruct (decide (j = slot)) as [-> | Hn]; [| rewrite list_lookup_alter_ne in Hs by congruence; eauto].
    rewrite list_lookup_alter_eq in Hs. destruct (servers r !! slot); [injection Hs as <-; discriminate Ha | discriminate].
  - eexists. split; [reflexivity |]. split; [exact A | cbn; lia].
  - eexists. split; [reflexivity |]. split; [| cbn; lia]. apply (listening_frame id sid w ms r); [exact A | reflexivity | reflexivity | apply clear_flag, Ho].
Qed.

Lemma arrived_cons sid o l : arrived sid (o :: l) = arrived sid [o] ++ arrived sid l.
Proof. unfold arrived. cbn. destruct o; try reflexivity. case_bool_decide; reflexivity. Qed.

Lemma ops_listening id sid w n l : forall ms r, listening id sid w ms r -> Forall (apart_server id sid w) l -> Forall (in_time n) l ->
  0 <= tick r -> tick r + Z.of_nat (ticks l) <= n -> n < 2 ^ 64 ->
  exists r', exec_ops l r = Some (tt, r') /\ listening id sid w (ms ++ arrived sid l) r' /\ tick r' = tick r + Z.of_nat (ticks l).
Proof.
  induction l as [| o l IH]; intros ms r A Ha Ht H0 Hn Hb.
  - exists r. split; [reflexivity |]. cbn [arrived omap list_omap ticks List.filter length]. rewrite app_nil_r. split; [exact A | lia].
  - inversion_clear Ha as [| ? ? Ho Hl]. inversion_clear Ht as [| ? ? Hto Htl]. rewrite ticks_cons in *. rewrite arrived_cons, app_assoc.
    destruct (op_listening id sid w ms o r A Ho) as (r1 & E1 & A1 & T1); [destruct o; cbn in *; lia | lia | lia |].
    destruct (IH _ r1 A1 Hl Htl) as (r2 & E2 & A2 & T2); [lia | lia | exact Hb |]. exists r2. cbn [exec_ops]. rewrite (bind_run _ _ _ _ _ E1).
    split; [exact E2 |]. split; [exact A2 | lia].
Qed.

Lemma exec_ops_app l1 l2 r : exec_ops (l1 ++ l2) r = (_ <- exec_ops l1 ;; exec_ops l2) r.
Proof. revert r. induction l1 as [| o l1 IH]; intros r; [reflexivity |]. cbn [app exec_ops]. unfold bind in *. destruct (exec_op o r) as [[[] r1] |]; [apply IH | reflexivity]. Qed.

(** A poll of the waiting task itself. *)
Lemma recv_poll_listening id sid w ms r : listening id sid w ms r ->
  exists r', recv_poll id w r = Some (match ms with m :: _ => Some (Ok m) | [] => None end, r') /\ listening id sid w (tail ms) r'.
Proof.
  intros (q & wk & H1 & H2 & H3 & H4 & H5). unfold recv_poll, server_active. unfold bind at 1, gets. rewrite H1. cbn [ss_active negb].
  unfold try_recv. unfold bind at 1 2, gets. rewrite H1. cbn [ss_active negb ss_queue ss_sid].
  assert (Hsame : forall f i s, (forall s, ss_sid (f s) = ss_sid s /\ ss_active (f s) = ss_active s) -> alter f id (servers r) !! i = Some s -> ss_active s = true -> ss_sid s = sid -> i = id).
  { intros f i s Hf Hi Ha Es. destruct (decide (i = id)) as [-> | Hn]; [reflexivity |]. rewrite list_lookup_alter_ne in Hi by congruence. eauto. }
  destruct q as [| m q].
  - unfold try_receive_message. unfold bind at 1, gets. cbn in H2. destruct (take_message sid (inbox r)) as [[m l'] |] eqn:Et.
    + apply take_message_some in Et as (E1 & _). rewrite E1 in H2. subst ms. eexists. split; [reflexivity |]. exists [], wk. cbn [servers inbox ready set_inbox tail]. auto.
    + apply take_message_none in Et as [E1 _]. rewrite E1 in H2. subst ms. eexists. split; [reflexivity |].
      exists [], (Some w). cbn [servers inbox ready set_inbox set_servers tail]. rewrite list_lookup_alter_eq, H1. split; [reflexivity |].
      split; [exact E1 |]. split; [auto |]. split; [exact H4 |]. intros i s. apply Hsame. auto.
  - cbn in H2. subst ms. eexists. split; [reflexivity |]. exists q, wk. cbn [servers inbox ready set_servers tail]. rewrite list_lookup_alter_eq, H1. split; [reflexivity |].
    split; [reflexivity |]. split; [destruct H3 as [[_ ?] | ?]; [discriminate | auto] |]. split; [exact H4 |]. intros i s. apply Hsame. auto.
Qed.

Fixpoint recv_many (n id w : nat) : M (Reactor F) (list (option (res MessageEnvelope RecvError))) :=
  match n with O => ret [] | S n => x <- recv_poll id w ;; l <- recv_many n id w ;; ret (x :: l) end.
Lemma recv_many_listening id sid w ms : forall r, listening id sid w ms r ->
  exists r', recv_many (length ms) id w r = Some ((fun m => Some (Ok m)) <$> ms, r') /\ listening id sid w [] r'.
Proof.
  induction ms as [| m ms IH]; intros r H; [exists r; split; [reflexivity | exact H] |].
  destruct (recv_poll_listening _ _ _ _ _ H) as (r1 & E1 & H1). destruct (IH r1 H1) as (r2 & E2 & H2).
  exists r2. cbn [length recv_many]. rewrite (bind_run _ _ _ _ _ E1), (bind_run _ _ _ _ _ E2). split; [reflexivity | exact H2].
Qed.

(** A poll that leaves the task waiting found nothing. *)
Lemma recv_pending id w r r1 s : servers r !! id = Some s -> ss_active s = true ->
  (forall j s', servers r !! j = Some s' -> ss_active s' = true -> ss_sid s' = ss_sid s -> j = id) -> (w < length (ready r))%nat ->
  recv_poll id w r = Some (None, r1) -> listening id (ss_sid s) w [] r1 /\ tick r1 = tick r.
Proof.
  intros Hs Ha Hd Hw. unfold recv_poll, server_active. unfold bind at 1, gets. rewrite Hs, Ha. cbn [negb].
  unfold try_recv. unfold bind at 1 2, gets. rewrite Hs, Ha. cbn [negb].
  destruct (ss_queue s) as [| m q] eqn:Eq; [| discriminate]. unfold try_receive_message. unfold bind at 1, gets.
  destruct (take_message (ss_sid s) (inbox r)) as [[m l'] |] eqn:Et; [discriminate |]. intros [= <-]. split; [| reflexivity].
  apply take_message_none in Et as [E1 _]. exists [], (Some w). cbn [servers inbox ready set_servers]. rewrite list_lookup_alter_eq, Hs.
  cbn. rewrite Eq, Ha. split; [reflexivity |]. split; [exact E1 |]. split; [auto |]. split; [exact Hw |].
  intros j s' Hj Ha' Es. destruct (decide (j = id)) as [-> | Hn]; [reflexivity |]. rewrite list_lookup_alter_ne in Hj by congruence. eauto.
Qed.
End Streams.
Arguments Op F : clear implicits.

(** C32. No message to an asynchronous server is lost, duplicated or reordered, and the
    task that waits for it is woken.  Let the task [w] find no message when it polls
    [AsyncServer::next] on the slot [id], the only active slot of its server.  Then,
    whatever the other tasks, the executor and the kernel do ([ops]: polling the
    reactor, polling and dropping timers, receiving from other servers, registering
    and dropping other servers, spawning, messages arriving), as long as [w] itself
    is not polled and the clock of the reactor does not reach [2^64], nothing panics; the
    next time the reactor is polled, [w] is marked ready if a message for its server
    has come; its polls then give exactly these messages, in the order of their
    arrival, and after them it waits again. *)
Theorem messages_delivered {F} (r0 r1 : Reactor F) id w s ops n :
  servers r0 !! id = Some s -> ss_active s = true ->
  (forall j s', servers r0 !! j = Some s' -> ss_active s' = true -> ss_sid s' = ss_sid s -> j = id) -> (w < length (ready r0))%nat ->
  recv_poll id w r0 = Some (None, r1) ->
  Forall (apart_server id (ss_sid s) w) ops -> Forall (in_time n) ops -> 0 <= tick r0 -> tick r0 + Z.of_nat (ticks ops) + 1 <= n -> n < 2 ^ 64 ->
  let ms := arrived (ss_sid s) ops in
  exists r2 r3 r4, exec_ops (ops ++ [PollAll]) r1 = Some (tt, r2) /\ (ms <> [] -> ready r2 !! w = Some true) /\
    recv_many (length ms) id w r2 = Some ((fun m => Some (Ok m)) <$> ms, r3) /\ recv_poll id w r3 = Some (None, r4).
Proof.
  intros Hs Ha Hd Hw E Hap Hti H0 Hn Hb ms. destruct (recv_pending id w r0 r1 s Hs Ha Hd Hw E) as [L1 T1].
  destruct (ops_listening id (ss_sid s) w n ops [] r1 L1 Hap Hti) as (r' & E' & L' & T'); [lia | lia | exact Hb |].
  destruct (poll_all_listening id (ss_sid s) w _ r' L') as (b & r2 & E2 & L2 & _ & W2); [lia | lia |].
  destruct (recv_many_listening id (ss_sid s) w _ r2 L2) as (r3 & E3 & L3). destruct (recv_poll_listening _ _ _ _ _ L3) as (r4 & E4 & _).
  exists r2, r3, r4. rewrite exec_ops_app, (bind_run _ _ _ _ _ E'). cbn [exec_ops exec_op]. rewrite bind_assoc, (bind_run _ _ _ _ _ E2).
  split; [reflexivity |]. split; [exact W2 |]. split; [exact E3 | exact E4].
Qed.

Definition note (k : Z) : MessageEnvelope := mkEnvelope 1 (Scalar (mkScalarMessage k 0 0 0 0)).
Lemma messages_delivered_witness :
  let sa := mkSID 1 2 3 4 in let sb := mkSID 5 6 7 8 in
  let r0 := mkReactor [mkServerSlot sa [] None true; mkServerSlot sb [note 1] None true] [] 0 ([] : list nat) [false; false] [(sb, note 2)] in
  let ops := [Receive 1 1; Arrive sa (note 3); PollTimer (Timer_after 5) 1; PollAll; Arrive sb (note 4); Arrive sa (note 5)] in
  exists r1 r2 r3 r4, recv_poll 0 0 r0 = Some (None, r1) /\ exec_ops (ops ++ [PollAll]) r1 = Some (tt, r2) /\ ready r2 !! 0%nat = Some true /\
    recv_many 2 0 0 r2 = Some ([Some (Ok (note 3)); Some (Ok (note 5))], r3) /\ recv_poll 0 0 r3 = Some (None, r4).
Proof.
  intros sa sb r0 ops.
  pose (r1 := mkReactor [mkServerSlot sa [] (Some 0%nat) true; mkServerSlot sb [note 1] None true] [] 0 ([] : list nat) [false; false] [(sb, note 2)]). exists r1.
  destruct (messages_delivered r0 r1 0 0 (mkServerSlot sa [] None true) ops 100 eq_refl eq_refl) as (r2 & r3 & r4 & E2 & W & E3 & E4); [| cbn; lia | reflexivity | | | cbn; lia | cbn; lia | reflexivity |].
  - intros [| [| j]] s' Hj Ha Hs; [reflexivity | injection Hj as <-; discriminate Hs | discriminate].
  - repeat constructor; cbn; congruence.
  - repeat (apply Forall_cons; split; [cbn; try lia; exact I |]). apply Forall_nil. exact I.
  - exists r2, r3, r4. split; [reflexivity |]. split; [exact E2 |]. split; [apply W; discriminate |]. split; [exact E3 | exact E4].
Defined.

(** C35. A timer fires at its tick and not before.  Let the task [w] poll [Timer::after(d)],
    [d > 0], for the first time.  Then, whatever the other tasks and the executor do,
    as long as [w] is not polled and the clock does not reach [2^64], nothing panics, and
    the next poll of the timer gives [Pending] if the reactor has been polled less
    than [d] times since; otherwise [w] is marked ready, the poll gives [Ready], and
    the slot is free again.  A timer for 0 ticks is ready at its first poll. *)
Theorem timer_exact {F} (r0 : Reactor F) w d n : 0 <= tick r0 -> 0 <= d -> tick r0 + d <= n -> n < 2 ^ 64 -> (w < length (ready r0))%nat ->
  exists t o r1, timer_poll (Timer_after d) w r0 = Some ((t, o), r1) /\
  if d =? 0 then o = Some tt
  else o = None /\ exists id, tm_slot t = Some id /\ forall ops, Forall (apart_timer id w) ops -> Forall (in_time n) ops -> tick r0 + Z.of_nat (ticks ops) <= n ->
    exists r2 r3, exec_ops ops r1 = Some (tt, r2) /\
      if Z.of_nat (ticks ops) <? d then timer_poll t w r2 = Some ((t, None), r3)
      else ready r2 !! w = Some true /\ timer_poll t w r2 = Some ((Timer_after d, Some tt), r3) /\ exists s, timers r3 !! id = Some s /\ ts_active s = false.
Proof.
  intros H0 Hd Hdn Hn Hw. destruct (Z.eqb_spec d 0) as [-> | Hd0].
  - unfold timer_poll, Timer_after. cbn [tm_slot tm_delay]. unfold register_timer. unfold bind at 1 2, gets at 1.
    rewrite (bind_run _ _ _ _ _ (add64_run (tick r0) 0 r0 ltac:(lia))). unfold bind at 1, gets at 1.
    destruct (place_slot ts_active (mkTimerSlot (tick r0 + 0) None true) (timers r0)) as [P _]. destruct (place _ _ _) as [i l]. cbn [fst snd] in P.
    unfold bind, modify, ret, timer_expired, gets. cbn. rewrite P. cbn. rewrite (proj2 (Z.leb_le _ _)) by lia. repeat eexists.
  - destruct (timer_starts w d r0) as (id & r1 & E & A & T); [lia | lia | lia | exact Hw |].
    exists (mkTimer (Some id) d), None, r1. split; [exact E |]. split; [reflexivity |]. exists id. split; [reflexivity |]. intros ops Hap Hti Hto.
    destruct (ops_armed id w (tick r0 + d) n ops r1 A Hap Hti) as (r2 & E2 & A2 & T2); [lia | lia | exact Hn |].
    destruct (timer_poll_armed id w (tick r0 + d) d r2 A2) as (r3 & E3 & (s & Hs & Hact) & Hr). exists r2, r3. split; [exact E2 |].
    destruct (Z.ltb_spec (Z.of_nat (ticks ops)) d).
    + rewrite (proj2 (Z.leb_gt _ _)) in E3 by lia. exact E3.
    + rewrite (proj2 (Z.leb_le _ _)) in E3, Hact by lia. split; [apply Hr; lia |]. split; [exact E3 | eauto].
Qed.

Lemma timer_exact_witness :
  let r0 := mkReactor [] [mkTimerSlot 9 None false; mkTimerSlot 8 (Some 1%nat) true] 7 ([] : list nat) [false; false] [] in
  exists t r1 r2 r3 r4, timer_poll (Timer_after 2) 0 r0 = Some ((t, None), r1) /\
    exec_ops [PollAll; DropTimer (mkTimer (Some 1%nat) 5)] r1 = Some (tt, r2) /\ timer_poll t 0 r2 = Some ((t, None), r2) /\
    exec_ops [PollAll; Clear 1; PollAll] r1 = Some (tt, r3) /\ ready r3 !! 0%nat = Some true /\ timer_poll t 0 r3 = Some ((Timer_after 2, Some tt), r4).
Proof.
  intros r0. destruct (timer_exact r0 0 2 100) as (t & o & r1 & E & -> & id & Eid & H); [cbn; lia | lia | cbn; lia | reflexivity | cbn; lia |].
  vm_compute in E. injection E as <- <-. injection Eid as <-.
  destruct (H [PollAll; DropTimer (mkTimer (Some 1%nat) 5)]) as (r2 & r2' & E2 & P2); [repeat constructor; cbn; congruence | repeat constructor | cbn; lia |].
  destruct (H [PollAll; Clear 1; PollAll]) as (r3 & r4 & E3 & W3 & P3 & _); [repeat constructor; cbn; congruence | repeat constructor | cbn; lia |].
  eexists _, _, r2, r3, r4. split; [reflexivity |]. split; [exact E2 |]. split; [vm_compute in E2; injection E2 as <-; reflexivity |].
  split; [exact E3 |]. split; [exact W3 | exact P3].
Defined.

(** ** The executor *)

Lemma rotation_perm (start n : nat) : (fun i => (start + i) mod n)%nat <$> seq 0 n ≡ₚ seq 0 n.
Proof.
  destruct n as [| n]; [reflexivity |]. symmetry. apply submseteq_length_Permutation; [| rewrite length_fmap; reflexivity].
  apply NoDup_submseteq; [apply NoDup_seq |]. intros j Hj%elem_of_seq. apply list_elem_of_fmap.
  exists ((j + S n - start mod S n) mod S n)%nat. assert (Hs : (start mod S n < S n)%nat) by (apply Nat.mod_upper_bound; lia). split.
  - rewrite Nat.Div0.add_mod_idemp_r. rewrite <- Nat.Div0.add_mod_idemp_l.
    replace (start mod S n + (j + S n - start mod S n))%nat with (j + 1 * S n)%nat by lia. rewrite Nat.Div0.mod_add. rewrite Nat.mod_small by lia. reflexivity.
  - apply elem_of_seq. split; [lia |]. apply Nat.mod_upper_bound. lia.
Qed.

Section Driving.
Context {F : Type}.
Variable poll : F -> nat -> M (Reactor F) (F * bool).
Variable rank : F -> nat.

(** The reactor of a poll is changed only by wakers, and the future wakes itself until it is done. *)
Definition gentle (r r' : Reactor F) : Prop :=
  spawn_queue r' = spawn_queue r /\ tick r' = tick r /\ length (ready r') = length (ready r) /\
  forall v, ready r !! v = Some true -> ready r' !! v = Some true.
Hypothesis poll_ranked : forall f w r, (w < length (ready r))%nat -> exists f' d r', poll f w r = Some ((f', d), r') /\ gentle r r' /\
  (d = true \/ ((rank f' < rank f)%nat /\ ready r' !! w = Some true)).

(** The task [i] is done, or is ready and needs at most [n] polls after the next one. *)
Definition near (s : Executor F) (i n : nat) : Prop :=
  exists t, tasks s !! i = Some t /\ (t_completed t = true \/ (ready (reactor s) !! i = Some true /\ (rank (t_future t) < n)%nat)).
Definition shaped (k : nat) (T : Z) (s : Executor F) : Prop :=
  length (tasks s) = k /\ length (ready (reactor s)) = k /\ spawn_queue (reactor s) = [] /\ tick (reactor s) = T.

Lemma poll_task_near k T s i n flags : shaped k T s -> near s i (S n) ->
  exists flags' s', poll_task poll i flags s = Some (flags', s') /\ shaped k T s' /\ near s' i n /\ poll_start s' = poll_start s /\
    (forall j m, j <> i -> near s j m -> near s' j m) /\ (flags.1 = true -> flags'.1 = true) /\
    (forall t, tasks s !! i = Some t -> t_completed t = true -> flags' = flags /\ s' = s) /\
    (forall t, tasks s !! i = Some t -> t_completed t = false -> flags'.1 = true).
Proof.
  intros (K1 & K2 & K3 & K4) (t & Ht & Hn). destruct flags as [ap mp]. unfold poll_task. unfold bind at 1, gets. rewrite Ht. cbn [expect]. rewrite bind_ret_l.
  destruct (t_completed t) eqn:Ec.
  - exists (ap, mp), s. split; [reflexivity |]. split; [split; auto |]. split; [exists t; auto |].
    split; [reflexivity |]. split; [auto |]. split; [auto |]. split; intros t' Ht' Hc; [auto | congruence].
  - destruct Hn as [Hn | [Hr Hrank]]; [congruence |]. unfold bind at 1, gets. rewrite Hr. cbn [expect]. rewrite bind_ret_l. cbn [negb].
    set (r0 := set_ready (<[i := false]> (ready (reactor s))) (reactor s)).
    assert (Hi : (i < length (ready r0))%nat) by (cbn; rewrite length_insert; eapply lookup_lt_Some; exact Hr).
    destruct (poll_ranked (t_future t) i r0 Hi) as (f' & d & r' & E & (G1 & G2 & G3 & G4) & Hd).
    unfold bind at 1, on_reactor at 1, modify at 1. cbn [tasks poll_start reactor]. unfold bind at 1, on_reactor at 1. cbn [reactor]. fold r0. rewrite E.
    eexists _, _. split; [reflexivity |]. assert (Hti : (i < length (tasks s))%nat) by (eapply lookup_lt_Some; exact Ht).
    split; [| split; [| split; [reflexivity |]]].
    + split; [cbn; rewrite length_insert; exact K1 |]. cbn [reactor]. split; [rewrite G3; cbn; rewrite length_insert; exact K2 |]. rewrite G1, G2. auto.
    + exists (mkTask f' d). cbn. split; [apply list_lookup_insert_eq, Hti |]. destruct Hd as [-> | [Hlt Hrd]]; [auto |]. right. split; [exact Hrd | lia].
    + split; [| split; [auto |]; split; intros t' Ht' Hc; [congruence | reflexivity]]. intros j m Hj (u & Hu & Hnear). exists u. cbn. rewrite list_lookup_insert_ne by congruence.
      split; [exact Hu |]. destruct Hnear as [| [Hrj Hrk]]; [auto |]. right. split; [| exact Hrk]. apply G4. cbn. rewrite list_lookup_insert_ne by congruence. exact Hrj.
Qed.

Definition is_done (s : Executor F) (i : nat) : Prop := exists t, tasks s !! i = Some t /\ t_completed t = true.
Lemma near_0 s i : near s i 0 -> is_done s i.
Proof. intros (t & Ht & [Hc | [_ ?]]); [exists t; auto | lia]. Qed.

Lemma poll_tasks_near k T n l : forall s flags, NoDup l -> shaped k T s -> (forall i, i ∈ l -> near s i (S n)) ->
  exists flags' s', poll_tasks poll l flags s = Some (flags', s') /\ shaped k T s' /\ poll_start s' = poll_start s /\
    (forall i, i ∈ l -> near s' i n) /\ (forall j m, j ∉ l -> near s j m -> near s' j m) /\ (flags.1 = true -> flags'.1 = true) /\
    ((forall i, i ∈ l -> is_done s i) -> flags' = flags /\ s' = s) /\ (forall i, i ∈ l -> ~ is_done s i -> flags'.1 = true).
Proof.
  induction l as [| i l IH]; intros s flags Hnd Hs Hn.
  - exists flags, s. split; [reflexivity |]. split; [exact Hs |]. split; [reflexivity |]. split; [intros i Hi; inversion Hi |]. repeat split; auto. intros i Hi. inversion Hi.
  - apply NoDup_cons in Hnd as [Hi Hnd]. pose proof (Hn i ltac:(left)) as Hni. pose proof Hni as (t & Ht & _).
    destruct (poll_task_near k T s i n flags Hs Hni) as (fl1 & s1 & E1 & S1 & N1 & P1 & O1 & F1 & D1 & U1).
    destruct (IH s1 fl1 Hnd S1) as (fl2 & s2 & E2 & S2 & P2 & N2 & O2 & F2 & D2 & U2); [intros j Hj; apply O1; [congruence | apply Hn; right; exact Hj] |].
    exists fl2, s2. cbn [poll_tasks]. rewrite (bind_run _ _ _ _ _ E1). split; [exact E2 |]. split; [exact S2 |]. split; [congruence |]. split; [| split; [| split; [| split]]].
    + intros j [-> | Hj]%elem_of_cons; [apply O2; assumption | apply N2, Hj].
    + intros j m [Hji Hjl]%not_elem_of_cons Hj. apply O2; [exact Hjl |]. apply O1; assumption.
    + auto.
    + intros Hall. destruct (Hall i ltac:(left)) as (t' & Ht' & Hc). destruct (D1 t' Ht' Hc) as [-> ->]. apply D2. intros j Hj. apply Hall. right. exact Hj.
    + intros j [-> | Hj]%elem_of_cons Hnot.
      * apply F2, (U1 t Ht). destruct (t_completed t) eqn:Ec; [exfalso; apply Hnot; exists t; auto | reflexivity].
      * destruct (t_completed t) eqn:Ec; [| apply F2, (U1 t Ht Ec)]. destruct (D1 t Ht Ec) as [-> ->]. exact (U2 j Hj Hnot).
Qed.

Lemma poll_all_gentle (r : Reactor F) : 0 <= tick r -> tick r + 1 < 2 ^ 64 ->
  exists b r', poll_all r = Some (b, r') /\ tick r' = tick r + 1 /\ gentle r (set_tick (tick r) r').
Proof.
  intros H0 H1. unfold poll_all, poll_servers. rewrite bind_assoc. unfold bind at 1, gets, Datatypes.id. cbn.
  destruct (poll_slots_keeps (gentle r) (seq 0 (length (servers r))) false r) as (b & r1 & E & (G1 & G2 & G3 & G4) & _).
  - intros r1 id s (G1 & G2 & G3 & G4) Hs Ha. split; [exact G1 |]. split; [exact G2 |]. cbn.
    split; [rewrite (proj1 (wake_flag_keeps 0 _ _)); exact G3 | intros v Hv; apply wake_flag_keeps, G4, Hv].
  - repeat split; auto.
  - apply Forall_forall. intros j Hj%elem_of_seq. lia.
  - rewrite (bind_run _ _ _ _ _ E). destruct (poll_timers_run r1) as [b' E']; [lia | lia |]. rewrite (bind_run _ _ _ _ _ E').
    eexists _, _. split; [reflexivity |]. split; [cbn; lia |]. split; [exact G1 |]. split; [reflexivity |]. cbn.
    split; [rewrite (proj1 (set_flags_keeps 0 _ _)); exact G3 | intros v Hv; apply set_flags_keeps, G4, Hv].
Qed.

Lemma done_dec s (l : list nat) : (forall i, i ∈ l -> is_done s i) \/ exists i, i ∈ l /\ ~ is_done s i.
Proof.
  induction l as [| i l [IH | (j & Hj & IH)]]; [left; intros i Hi; inversion Hi | | right; exists j; split; [right; exact Hj | exact IH]].
  destruct (tasks s !! i) as [t |] eqn:Et; [destruct (t_completed t) eqn:Ec |].
  - left. intros j [-> | Hj]%elem_of_cons; [exists t; auto | auto].
  - right. exists i. split; [left |]. intros (u & Hu & Hc). congruence.
  - right. exists i. split; [left |]. intros (u & Hu & Hc). congruence.
Qed.

Lemma round_near k T n s : shaped k T s -> (forall i, (i < k)%nat -> near s i (S n)) -> 0 <= T -> T + 1 < 2 ^ 64 ->
  exists o s', round poll s = Some (o, s') /\
    ((o = Finished /\ tasks s' = tasks s /\ forall i, (i < k)%nat -> is_done s i) \/ (o <> Finished /\ (exists i, (i < k)%nat /\ ~ is_done s i) /\ shaped k (T + 1) s' /\ forall i, (i < k)%nat -> near s' i n)).
Proof.
  intros Hs Hn H0 H1. pose proof Hs as (K1 & K2 & K3 & K4). unfold round, drain_spawns. rewrite (bind_run _ _ s [] s).
  2: { destruct s as [tk st [sv tm ti sq rd ib]]. cbn in *. subst. reflexivity. }
  cbn [push_tasks]. rewrite bind_ret_l. unfold bind at 1, gets, Datatypes.id. rewrite K1.
  set (order := (fun i => ((poll_start s + i) mod k)%nat) <$> seq 0 k). pose proof (rotation_perm (poll_start s) k) as Hperm. fold order in Hperm.
  assert (Hin : forall i, i ∈ order <-> (i < k)%nat) by (intros i; rewrite Hperm, elem_of_seq; lia).
  destruct (poll_tasks_near k T n order s (false, false)) as ([ap mp] & s1 & E1 & S1 & P1 & N1 & _ & _ & D1 & U1);
    [rewrite Hperm; apply NoDup_seq | exact Hs | intros i Hi; apply Hn, Hin, Hi |].
  rewrite (bind_run _ _ _ _ _ E1). unfold bind at 1, modify at 1.
  set (s2 := if (0 <? k)%nat then mkExecutor (tasks s1) ((poll_start s1 + 1) mod k)%nat (reactor s1) else s1).
  assert (T2 : tasks s2 = tasks s1 /\ reactor s2 = reactor s1) by (subst s2; destruct (0 <? k)%nat; split; reflexivity). destruct T2 as [T2 R2].
  destruct (done_dec s order) as [Hall | (i & Hi & Hnot)].
  - destruct (D1 Hall) as [[= -> ->] ->]. cbn [negb]. exists Finished, s2. split; [reflexivity |]. left. split; [reflexivity |]. split; [exact T2 |].
    intros i Hi. apply Hall, Hin, Hi.
  - pose proof (U1 i Hi Hnot) as Hap. cbn in Hap. subst ap. cbn [negb]. destruct S1 as (L1 & L2 & L3 & L4).
    destruct (poll_all_gentle (reactor s2)) as (b & r' & E & Tk & (G1 & _ & G3 & G4)); [rewrite R2; lia | rewrite R2; lia |].
    unfold bind at 1, on_reactor at 1. rewrite E. rewrite R2 in *.
    eexists (if negb (mp || b) then Idle else Again), _. split; [destruct (negb (mp || b)); reflexivity |]. right. split; [destruct (negb (mp || b)); discriminate |].
    split; [exists i; split; [apply Hin, Hi | exact Hnot] |]. cbn in G1, G3.
    split; [split; [cbn; congruence |]; cbn; split; [congruence |]; split; [congruence | lia] |]. intros j Hj%Hin. destruct (N1 j Hj) as (t & Ht & Hnr).
    exists t. cbn. rewrite T2. split; [exact Ht |]. destruct Hnr as [| [Hr Hk]]; [auto |]. right. split; [exact (G4 j Hr) | exact Hk].
Qed.

Lemma arrive_near k T l s : shaped k T s -> exists s', on_reactor (arrive l) s = Some (tt, s') /\ shaped k T s' /\ forall i n, near s i n -> near s' i n.
Proof. intros Hs. eexists. split; [reflexivity |]. split; [exact Hs |]. intros i n Hn. exact Hn. Qed.

(** After [n] rounds more, the loop has returned or is blocked; it is not blocked
    when there is a notification for each of them. *)
Definition ends_well (k : nat) (enough : Prop) (o : RunOutcome) (s : Executor F) : Prop :=
  match o with
  | Returned => length (tasks s) = k /\ forall i, (i < k)%nat -> is_done s i
  | Blocked => ~ enough
  | Running => False
  end.

Lemma rounds_finish k n : forall T s notices, shaped k T s -> (forall i, (i < k)%nat -> near s i n) -> 0 <= T -> T + Z.of_nat n + 1 < 2 ^ 64 ->
  exists o s', rounds poll (S n) notices s = Some (o, s') /\ ends_well k (n <= length notices)%nat o s'.
Proof.
  assert (Hfin : forall s s' i, tasks s' = tasks s -> is_done s i -> is_done s' i) by (intros s s' i E (t & Ht & Hc); exists t; rewrite E; auto).
  induction n as [| n IH]; intros T s notices Hs Hn H0 H1; pose proof Hs as (K1 & _).
  - destruct (round_near k T 0 s Hs) as (o & s' & E & [(-> & Et & Hd) | (Ho & (i & Hi & Hnot) & S' & N')]); [| lia | lia | |].
    + intros i Hi. destruct (Hn i Hi) as (t & Ht & [| [? ?]]); exists t; split; auto.
    + exists Returned, s'. cbn [rounds]. rewrite (bind_run _ _ _ _ _ E). split; [reflexivity |]. split; [congruence |]. intros i Hi. apply (Hfin s); auto.
    + exfalso. apply Hnot, near_0, Hn, Hi.
  - destruct (round_near k T n s Hs Hn H0) as (o & s' & E & [(-> & Et & Hd) | (Ho & _ & S' & N')]); [lia | |].
    + exists Returned, s'. remember (S n) as m. cbn [rounds]. rewrite (bind_run _ _ _ _ _ E). split; [reflexivity |]. split; [congruence |]. intros i Hi. apply (Hfin s); auto.
    + remember (S n) as m. cbn [rounds]. rewrite (bind_run _ _ _ _ _ E). subst m. destruct o; [congruence | |].
      * destruct (IH (T + 1) s' notices S' N') as (o & s2 & E2 & W2); [lia | lia |]. exists o, s2. split; [exact E2 |]. destruct o; [exact W2 | cbn in *; lia | exact W2].
      * destruct notices as [| l notices]; [exists Blocked, s'; split; [reflexivity | cbn; lia] |].
        destruct (arrive_near k (T + 1) l s' S') as (s3 & E3 & S3 & N3). rewrite (bind_run _ _ _ _ _ E3).
        destruct (IH (T + 1) s3 notices S3) as (o & s2 & E2 & W2); [auto | lia | lia |]. exists o, s2. split; [exact E2 |]. destruct o; [exact W2 | cbn in *; lia | exact W2].
Qed.
End Driving.

Lemma push_tasks_run {F} (fs : list F) : forall s, push_tasks fs s =
  Some (tt, mkExecutor (tasks s ++ ((fun f => mkTask f false) <$> fs)) (poll_start s) (set_ready (ready (reactor s) ++ replicate (length fs) true) (reactor s))).
Proof.
  induction fs as [| f fs IH]; intros s; cbn [push_tasks].
  - cbn. rewrite !app_nil_r. destruct s as [? ? []]. reflexivity.
  - unfold bind, push_task, modify. rewrite IH. cbn. rewrite <- !app_assoc. reflexivity.
Qed.

(** C33. [run] drives all spawned tasks to completion, if it is notified whenever it
    waits.  Let every poll of a future end, without spawning and without clearing a
    flag, and either be its last one or wake its own task and leave a future of a
    smaller rank.  Then [run], on an executor on which futures of ranks below [n] are
    spawned, ends its loop within [n + 1] rounds: it returns, and every task is
    completed then (in every round, wherever the rotation starts, every task that is
    not completed is polled), or it is blocked in [wait_event], with no notification
    left; [n] notifications are enough to rule that out.  (That it may block although
    a task is ready is what [idle_with_work] shows.) *)
Theorem executor_finishes {F} (poll : F -> nat -> M (Reactor F) (F * bool)) (rank : F -> nat) (fs : list F) (n : nat) messages notices :
  (forall f w r, (w < length (ready r))%nat -> exists f' d r', poll f w r = Some ((f', d), r') /\ gentle r r' /\
    (d = true \/ ((rank f' < rank f)%nat /\ ready r' !! w = Some true))) ->
  Forall (fun f => rank f < n)%nat fs -> Z.of_nat n + 1 < 2 ^ 64 ->
  exists o s, (_ <- push_tasks fs ;; run poll (S n) notices) (Executor_new messages) = Some (o, s) /\
    ((o = Returned /\ length (tasks s) = length fs /\ Forall (fun t => t_completed t = true) (tasks s)) \/
     (o = Blocked /\ (length notices < n)%nat)).
Proof.
  intros Hp Hf Hn. rewrite (bind_run _ _ _ _ _ (push_tasks_run fs _)). unfold run. rewrite (bind_run _ _ _ tt _ eq_refl). cbn [tasks poll_start reactor ready inbox Executor_new Reactor_new set_ready app].
  destruct (rounds_finish poll rank Hp (length fs) n 0 (mkExecutor ((fun f => mkTask f false) <$> fs) 0 (Reactor_new (replicate (length fs) true) messages)) notices) as (o & s & E & W);
    [| | lia | lia |].
  - split; [cbn; apply length_fmap |]. split; [cbn; apply length_replicate |]. auto.
  - intros i Hi. destruct (lookup_lt_is_Some_2 _ _ Hi) as [f Ef]. exists (mkTask f false). cbn. rewrite list_lookup_fmap, Ef. split; [reflexivity |]. right.
    split; [apply lookup_replicate; auto | exact (Forall_lookup_1 _ _ _ _ Hf Ef)].
  - exists o, s. split; [exact E |]. destruct o as [| |]; cbn in W; [left | right; split; [reflexivity | lia] | done]. destruct W as [L D].
    split; [reflexivity |]. split; [exact L |]. apply Forall_lookup_2. intros i t Ht. destruct (D i) as (u & Hu & Hc); [rewrite <- L; eapply lookup_lt_Some; exact Ht | congruence].
Qed.

(** A task that yields [n] times. *)
Definition yielding (n w : nat) : M (Reactor nat) (nat * bool) :=
  match n with O => ret (O, true) | S n => _ <- wake w ;; ret (n, false) end.
Lemma executor_finishes_witness : exists s, (_ <- push_tasks [2%nat; 0%nat; 1%nat] ;; run yielding 4 [[]; []; []]) (Executor_new []) = Some (Returned, s) /\
  length (tasks s) = 3%nat /\ Forall (fun t => t_completed t = true) (tasks s).
Proof.
  destruct (executor_finishes yielding id [2%nat; 0%nat; 1%nat] 3 [] [[]; []; []]) as (o & s & E & [(-> & H) | (_ & H)]);
    [| repeat constructor | reflexivity | exists s; split; [exact E | exact H] | cbn in H; lia].
  intros [| f] w r Hw; [exists 0%nat, true, r; repeat split; auto |]. exists f, false, (set_ready (<[w := true]> (ready r)) r).
  split; [reflexivity |]. split; [split; [reflexivity |]; split; [reflexivity |]; split; [apply length_insert | intros v; apply set_flag_keeps] |].
  right. split; [unfold id; lia | apply list_lookup_insert_eq, Hw].
Defined.

(** Without notifications, a task that gives way once more blocks the executor. *)
Example yielding_blocks : exists s, (_ <- push_tasks [2%nat] ;; run yielding 4 []) (Executor_new []) = Some (Blocked, s) /\
  tasks s = [mkTask 1%nat false] /\ ready (reactor s) = [true].
Proof. eexists. split; [vm_compute; reflexivity | split; reflexivity]. Qed.

(** The idle phase does not look at what is left to do.  If the only task is polled and is
    not done by that, and the following poll of the reactor wakes nobody, the round
    ends idle -- on hardware in [wait_event(0x1)], which waits for a message -- even
    if the poll has put new tasks on the spawn queue, has woken the task itself (as a
    task does that gives way to others), or waits for a timer, whose clock only
    advances with the rounds: all of that is still there when the round ends idle. *)
Theorem idle_with_work {F} (poll : F -> nat -> M (Reactor F) (F * bool)) f f' p r r1 r2 :
  ready r = [true] -> spawn_queue r = [] -> poll f 0%nat (set_ready [false] r) = Some ((f', false), r1) ->
  0 <= tick r1 -> tick r1 + 1 < 2 ^ 64 -> poll_all r1 = Some (false, r2) ->
  round poll (mkExecutor [mkTask f false] p r) = Some (Idle, mkExecutor [mkTask f' false] 0 r2) /\
  spawn_queue r2 = spawn_queue r1 /\ (ready r1 !! 0%nat = Some true -> ready r2 !! 0%nat = Some true) /\
  (forall id w D, armed id w D r1 -> armed id w D r2).
Proof.
  intros Hr Hs Hp H0 H1 Ha.
  destruct (poll_all_gentle r1 H0 H1) as (b & r' & E & _ & (G1 & _ & _ & G4)). rewrite Ha in E. injection E as <- <-. cbn in G1, G4.
  split; [| split; [exact G1 |]; split; [apply G4 |]].
  - destruct r as [sv tm tk sq rd ib]. cbn in Hs, Hr, Hp. subst. unfold round, drain_spawns, bind, on_reactor, gets, modify, ret. cbn -[poll_all Nat.modulo].
    rewrite (Nat.mod_1_r (p + 0)). unfold bind, gets, on_reactor, modify, expect, ret. cbn -[poll_all Nat.modulo].
    unfold set_spawns, set_ready in *. cbn -[poll_all Nat.modulo] in *. rewrite Hp. cbn -[poll_all Nat.modulo]. rewrite Ha, Nat.mod_1_r. reflexivity.
  - intros id w D A. destruct (op_armed id w D PollAll r1 A I I H0 H1) as (r' & E & A' & _). cbn in E. unfold bind in E. rewrite Ha in E. injection E as <-. exact A'.
Qed.

(** A task that spawns another one and waits. *)
Definition spawning (n w : nat) : M (Reactor nat) (nat * bool) := _ <- enqueue_spawn (S n) ;; ret (n, false).
Lemma idle_with_work_witness : exists r2,
  round spawning (mkExecutor [mkTask 7%nat false] 0 (Reactor_new [true] [])) = Some (Idle, mkExecutor [mkTask 7%nat false] 0 r2) /\ spawn_queue r2 = [8%nat].
Proof.
  eexists. pose proof (idle_with_work spawning 7%nat 7%nat 0 (Reactor_new [true] []) (mkReactor [] [] 0 [8%nat] [false] []) (mkReactor [] [] 1 [8%nat] [false] [])
    eq_refl eq_refl eq_refl ltac:(cbn; lia) ltac:(reflexivity) ltac:(reflexivity)) as (E & S & _).
  split; [exact E | exact S].
Defined.
