(* ===== verification/FbConsole.v ===== *)
(** * The text console on the framebuffer

    Models [beetos/src/fb_console.rs] and [draw_char] of [beetos/src/font.rs].  The
    framebuffer is the list of its pixels; an access outside of it, which the code
    makes through a raw pointer, is a panic of the model, so that a console that runs
    stays inside the framebuffer.  The glyphs are the table of the crate [font8x8], a
    parameter.  Positions are natural numbers: they are bounded by the number of
    pixels.

    [text_putc] is the specification, a terminal of text cells; [shows] relates it to
    the pixels. *)

From S2P Require Import Prelude.
From Stdlib Require Import ZArith Lia Bool PeanoNat.
From stdpp Require Import list.
Open Scope nat_scope.

Definition CHAR_W : nat := 8.
Definition CHAR_H : nat := 16.
Definition FG : Z := 13421772.
Definition BG : Z := 0.
Definition SCALE : nat := 1.

(** [*fb.add(i) = v] *)
Definition poke (i : nat) (v : Z) : M (list Z) unit := fun fb => if i <? length fb then Some (tt, <[i := v]> fb) else None.

(** [for x in l { body(x) }] *)
Fixpoint for_each {S A} (l : list A) (body : A -> M S unit) : M S unit :=
  match l with [] => ret tt | x :: l => _ <- body x ;; for_each l body end.

Section Console.
(** [font8x8::legacy::BASIC_LEGACY]: the eight bytes of a glyph. *)
Context (BASIC_LEGACY : nat -> list Z).

Definition glyph_of (c : Z) : list Z := BASIC_LEGACY (if (c <? 128)%Z then Z.to_nat c else 32).

Definition draw_char (stride x y : nat) (c fg bg : Z) (scale : nat) : M (list Z) unit :=
  for_each (imap pair (glyph_of c)) (fun '(src_row, bits) =>
    for_each (seq 0 CHAR_W) (fun col =>
      let pixel := if (Z.land (Z.shiftr bits (Z.of_nat col)) 1 =? 0)%Z then bg else fg in
      for_each (seq 0 (2 * scale)) (fun vr =>
        for_each (seq 0 scale) (fun hc =>
          let px := x + col * scale + hc in
          let py := y + src_row * 2 * scale + vr in
          poke (py * stride + px) pixel)))).

Record FbConsole := mkFb { fb : list Z; width : nat; height : nat; stride : nat; cols : nat; rows : nat; col : nat; row : nat }.

Definition FbConsole_new (fb : list Z) (width height stride : nat) : FbConsole :=
  mkFb fb width height stride (width / (CHAR_W * SCALE)) (height / (CHAR_H * SCALE)) 0 0.

Definition set_pixels (l : list Z) (s : FbConsole) : FbConsole := mkFb l (width s) (height s) (stride s) (cols s) (rows s) (col s) (row s).
Definition set_pos (r c : nat) (s : FbConsole) : FbConsole := mkFb (fb s) (width s) (height s) (stride s) (cols s) (rows s) c r.
Definition on_fb (op : M (list Z) unit) : M FbConsole unit :=
  fun s => match op (fb s) with Some (_, l) => Some (tt, set_pixels l s) | None => None end.

Definition draw (c : Z) (cl rw : nat) : M FbConsole unit :=
  st <- gets stride ;;
  on_fb (draw_char st (cl * CHAR_W * SCALE) (rw * CHAR_H * SCALE) c FG BG SCALE).

(** [core::ptr::copy] and [core::ptr::write_bytes] of [scroll], in pixels *)
Definition move_up (words total : nat) : M (list Z) unit :=
  fun l => if (words <=? total) && (total <=? length l) then Some (tt, take (total - words) (drop words l) ++ drop (total - words) l) else None.
Definition clear_from (start len : nat) : M (list Z) unit :=
  fun l => if start + len <=? length l then Some (tt, take start l ++ replicate len 0%Z ++ drop (start + len) l) else None.

Definition scroll : M FbConsole unit :=
  s <- gets id ;;
  let row_pixels := CHAR_H * SCALE in
  let row_words := row_pixels * stride s in
  let total := width s * height s in
  _ <- on_fb (move_up row_words total) ;;
  _ <- on_fb (clear_from (total - row_words) row_words) ;;
  modify (fun s => set_pos (rows s - 1) (col s) s).

Definition advance_row : M FbConsole unit :=
  _ <- modify (fun s => set_pos (row s + 1) (col s) s) ;;
  s <- gets id ;;
  if rows s <=? row s then scroll else ret tt.

Definition putc (c : Z) : M FbConsole unit :=
  if (c =? 10)%Z then _ <- modify (fun s => set_pos (row s) 0 s) ;; advance_row
  else if (c =? 13)%Z then modify (fun s => set_pos (row s) 0 s)
  else if (c =? 8)%Z || (c =? 127)%Z then
    s <- gets id ;;
    if 0 <? col s then
      _ <- modify (fun s => set_pos (row s) (col s - 1) s) ;;
      draw 32 (col s - 1) (row s)
    else ret tt
  else
    s <- gets id ;;
    _ <- draw c (col s) (row s) ;;
    _ <- modify (fun s => set_pos (row s) (col s + 1) s) ;;
    s <- gets id ;;
    if cols s <=? col s then _ <- modify (fun s => set_pos (row s) 0 s) ;; advance_row else ret tt.

Definition cursor (s : FbConsole) : nat * nat := (row s, col s).
Definition set_cursor (r c : nat) (s : FbConsole) : FbConsole := set_pos (r `min` (rows s - 1)) (c `min` (cols s - 1)) s.
Definition clear : M FbConsole unit :=
  s <- gets id ;;
  _ <- on_fb (clear_from 0 (width s * height s)) ;;
  modify (set_pos 0 0).
(** [write_str] *)
Definition write_str (s : list Z) : M FbConsole unit := for_each s putc.

(** ** Specification: a terminal of text cells

    A cell holds the character drawn there, or nothing. *)
Record Text := mkText { cells : list (list (option Z)); t_col : nat; t_row : nat }.

Definition set_cell (r c : nat) (x : option Z) (t : Text) : Text := mkText (alter (<[c := x]>) r (cells t)) (t_col t) (t_row t).
Definition set_at (r c : nat) (t : Text) : Text := mkText (cells t) c r.
Definition new_line (columns : nat) (t : Text) : Text :=
  if S (t_row t) <? length (cells t) then mkText (cells t) 0 (S (t_row t))
  else mkText (tail (cells t) ++ [replicate columns None]) 0 (length (cells t) - 1).
Definition text_putc (columns : nat) (c : Z) (t : Text) : Text :=
  if (c =? 10)%Z then new_line columns t
  else if (c =? 13)%Z then set_at (t_row t) 0 t
  else if (c =? 8)%Z || (c =? 127)%Z then
    match t_col t with O => t | S k => set_at (t_row t) k (set_cell (t_row t) k (Some 32%Z) t) end
  else
    let t' := set_cell (t_row t) (t_col t) (Some c) t in
    if S (t_col t) <? columns then set_at (t_row t) (S (t_col t)) t' else new_line columns t'.
Definition text_write (columns : nat) (s : list Z) (t : Text) : Text := foldl (fun t c => text_putc columns c t) t s.

(** The colour of the pixel at [(dx, dy)] of a cell. *)
Definition cell_pixel (x : option Z) (dx dy : nat) : Z :=
  match x with
  | None => BG
  | Some c => if Z.testbit (nth (dy / 2) (glyph_of c) 0%Z) (Z.of_nat dx) then FG else BG
  end.


(** ** Loops of writes *)

Lemma for_each_ext {S A} (l : list A) (f g : A -> M S unit) : (forall x s, x ∈ l -> f x s = g x s) -> forall s, for_each l f s = for_each l g s.
Proof.
  induction l as [| x l IH]; intros H s; [reflexivity |]. cbn. unfold bind. rewrite H by left. destruct (g x s) as [[[] s1] |]; [| reflexivity].
  apply IH. intros y s' Hy. apply H. right. exact Hy.
Qed.
Lemma for_each_app {S A} (l1 l2 : list A) (f : A -> M S unit) s : for_each (l1 ++ l2) f s = (_ <- for_each l1 f ;; for_each l2 f) s.
Proof. revert s. induction l1 as [| x l1 IH]; intros s; [reflexivity |]. cbn. unfold bind in *. destruct (f x s) as [[[] s1] |]; [apply IH | reflexivity]. Qed.
Lemma for_each_nested {S A B} (l : list A) (f : A -> list B) (g : B -> M S unit) s : for_each l (fun x => for_each (f x) g) s = for_each (l ≫= f) g s.
Proof. revert s. induction l as [| x l IH]; intros s; [reflexivity |]. cbn. rewrite for_each_app. unfold bind. destruct (for_each (f x) g s) as [[[] s1] |]; [apply IH | reflexivity]. Qed.

Definition pokes (ws : list (nat * Z)) : M (list Z) unit := for_each ws (fun w => poke w.1 w.2).
Lemma pokes_run ws : forall l, Forall (fun w => w.1 < length l) ws ->
  exists l', pokes ws l = Some (tt, l') /\ length l' = length l /\ (forall i, i ∉ ws.*1 -> l' !! i = l !! i) /\
    (forall i v, (i, v) ∈ ws -> (forall v', (i, v') ∈ ws -> v' = v) -> l' !! i = Some v).
Proof.
  induction ws as [| [i v] ws IH]; intros l H; [exists l; repeat split; intros ? ? X; inversion X |].
  inversion_clear H as [| ? ? Hi Hl]. cbn in Hi. destruct (IH (<[i := v]> l)) as (l' & E & L & K & W); [rewrite length_insert; exact Hl |].
  exists l'. unfold pokes in *. cbn. unfold bind, poke at 1. rewrite (proj2 (Nat.ltb_lt _ _) Hi), E. split; [reflexivity |]. rewrite length_insert in L. split; [exact L |]. split.
  - intros j [Hj1 Hj2]%not_elem_of_cons. rewrite K by exact Hj2. apply list_lookup_insert_ne. cbn in Hj1. congruence.
  - intros j u Hj Hu. destruct (decide (j ∈ ws.*1)) as [Hin | Hout].
    + apply list_elem_of_fmap in Hin as ([j0 u0] & -> & Hin). cbn in *. apply W; [| intros v' Hv'; apply Hu; right; exact Hv'].
      rewrite <- (Hu u0 ltac:(right; exact Hin)). exact Hin.
    + rewrite K by exact Hout. apply elem_of_cons in Hj as [[= -> ->] | Hj]; [apply list_lookup_insert_eq, Hi |].
      destruct Hout. apply list_elem_of_fmap. exists (j, u). auto.
Qed.

(** The writes of [draw_char] at scale 1. *)
Definition ink (bits : Z) (c : nat) : Z := if (Z.land (Z.shiftr bits (Z.of_nat c)) 1 =? 0)%Z then BG else FG.
Definition glyph_writes (st x y : nat) (c : Z) : list (nat * Z) :=
  imap pair (glyph_of c) ≫= fun '(r, bits) => seq 0 8 ≫= fun k => (fun v => ((y + r * 2 * 1 + v) * st + (x + k * 1 + 0), ink bits k)) <$> [0; 1].

Lemma draw_char_writes st x y c l : draw_char st x y c FG BG 1 l = pokes (glyph_writes st x y c) l.
Proof.
  unfold draw_char, pokes, glyph_writes. rewrite <- for_each_nested. apply for_each_ext. intros [r bits] s _.
  rewrite <- for_each_nested. apply for_each_ext. intros k s' _. change (seq 0 (2 * 1)) with [0; 1]. cbn -[Nat.mul Nat.add poke ink].
  unfold bind. cbn -[Nat.mul Nat.add poke ink]. fold (ink bits k).
  unfold ret. destruct (poke _ _ s') as [[[] s1] |]; [| reflexivity]. destruct (poke _ _ s1) as [[[] s2] |]; reflexivity.
Qed.

Lemma elem_of_glyph_writes st x y c i v : (i, v) ∈ glyph_writes st x y c <->
  exists r k b bits, glyph_of c !! r = Some bits /\ k < 8 /\ b < 2 /\ i = (y + (r * 2 + b)) * st + (x + k) /\ v = ink bits k.
Proof.
  unfold glyph_writes. rewrite list_elem_of_bind. setoid_rewrite elem_of_lookup_imap. split.
  - intros ([r bits] & Hin & (j & y0 & [= -> ->] & Hj)). apply list_elem_of_bind in Hin as (k & Hk & Hk8%elem_of_seq).
    apply list_elem_of_fmap in Hk as (b & [= -> ->] & Hb). exists j, k, b, y0. split; [exact Hj |]. split; [lia |].
    split; [apply elem_of_cons in Hb as [-> | Hb]; [lia |]; apply list_elem_of_singleton in Hb; lia |]. split; [f_equal; [f_equal |]; lia | reflexivity].
  - intros (r & k & b & bits & Hr & Hk & Hb & -> & ->). exists (r, bits). split; [| exists r, bits; auto].
    apply list_elem_of_bind. exists k. split; [| apply elem_of_seq; lia]. apply list_elem_of_fmap. exists b.
    split; [f_equal; f_equal; [f_equal |]; lia |]. destruct b as [| [| b]]; [left | right; left | lia].
Qed.

Lemma ink_testbit bits k : ink bits k = if Z.testbit bits (Z.of_nat k) then FG else BG.
Proof.
  unfold ink. replace (Z.testbit bits (Z.of_nat k)) with (Z.testbit (Z.shiftr bits (Z.of_nat k)) 0) by (rewrite Z.shiftr_spec by lia; f_equal; lia).
  change 1%Z with (Z.ones 1). rewrite Z.land_ones by lia. rewrite Z.bit0_odd, Zodd_mod. change (2 ^ 1)%Z with 2%Z. pose proof (Z.mod_pos_bound (Z.shiftr bits (Z.of_nat k)) 2 ltac:(lia)).
  destruct (Z.shiftr bits (Z.of_nat k) mod 2)%Z as [| [] |] eqn:E; try reflexivity; lia.
Qed.

(** ** The pixels show the text *)

Hypothesis glyph_size : forall i, length (BASIC_LEGACY i) = 8.

Definition cell (t : Text) (r c : nat) : option Z := match cells t !! r with Some l => default None (l !! c) | None => None end.
Definition shaped (s : FbConsole) : Prop :=
  stride s = width s /\ length (fb s) = width s * height s /\ cols s = width s / 8 /\ rows s = height s / 16 /\ 0 < cols s /\ 0 < rows s.
Definition shows (t : Text) (s : FbConsole) : Prop :=
  shaped s /\ length (cells t) = rows s /\ Forall (fun l => length l = cols s) (cells t) /\
  t_col t = col s /\ t_row t = row s /\ col s < cols s /\ row s < rows s /\
  forall px py, px < cols s * 8 -> py < height s -> fb s !! (py * width s + px) = Some (cell_pixel (cell t (py / 16) (px / 8)) (px mod 8) (py mod 16)).

Lemma pixel_inj w px py px' py' : px < w -> px' < w -> py * w + px = py' * w + px' -> px = px' /\ py = py'.
Proof. intros H1 H2 H. assert (py = py') by nia. subst. lia. Qed.

Lemma draw_run c cl rw s : shaped s -> cl < cols s -> rw < rows s ->
  exists l, draw c cl rw s = Some (tt, set_pixels l s) /\ length l = length (fb s) /\
    forall px py, px < cols s * 8 -> py < height s -> l !! (py * width s + px) =
      if decide (px / 8 = cl /\ py / 16 = rw) then Some (cell_pixel (Some c) (px mod 8) (py mod 16)) else fb s !! (py * width s + px).
Proof.
  intros (Est & Hl & Hc & Hr & _ & _) Hcl Hrw.
  assert (Hcw : cols s * 8 <= width s) by (rewrite Hc; pose proof (Nat.Div0.mul_div_le (width s) 8); lia).
  assert (Hrh : rows s * 16 <= height s) by (rewrite Hr; pose proof (Nat.Div0.mul_div_le (height s) 16); lia).
  unfold draw. unfold bind, gets, on_fb. change (cl * CHAR_W * SCALE) with (cl * 8 * 1). change (rw * CHAR_H * SCALE) with (rw * 16 * 1). change SCALE with 1.
  rewrite draw_char_writes, !Nat.mul_1_r, Est. set (ws := glyph_writes (width s) (cl * 8) (rw * 16) c).
  assert (Hg : forall r bits, glyph_of c !! r = Some bits -> r < 8) by (intros r bits Hb; apply lookup_lt_Some in Hb; unfold glyph_of in Hb; rewrite glyph_size in Hb; exact Hb).
  destruct (pokes_run ws (fb s)) as (l & E & L & K & W).
  { apply Forall_forall. intros [i v] Hi. apply elem_of_glyph_writes in Hi as (r & k & b & bits & Hb & Hk & Hb2 & -> & ->). cbn. specialize (Hg r bits Hb). rewrite Hl. nia. }
  rewrite E. exists l. split; [reflexivity |]. split; [exact L |]. intros px py Hpx Hpy. destruct (decide _) as [[E1 E2] | Hn].
  - pose proof (Nat.div_mod_eq px 8) as D1. pose proof (Nat.div_mod_eq py 16) as D2. pose proof (Nat.div_mod_eq (py mod 16) 2) as D3.
    pose proof (Nat.mod_upper_bound px 8 ltac:(lia)) as M1. pose proof (Nat.mod_upper_bound py 16 ltac:(lia)) as M2. pose proof (Nat.mod_upper_bound (py mod 16) 2 ltac:(lia)) as M3.
    destruct (lookup_lt_is_Some_2 (glyph_of c) (py mod 16 / 2)) as [bits Hb]; [unfold glyph_of; rewrite glyph_size; lia |].
    assert (Hv : cell_pixel (Some c) (px mod 8) (py mod 16) = ink bits (px mod 8)).
    { rewrite ink_testbit. unfold cell_pixel. rewrite (nth_lookup_Some _ _ _ _ Hb). reflexivity. }
    rewrite Hv. apply W.
    + apply elem_of_glyph_writes. exists (py mod 16 / 2), (px mod 8), (py mod 16 mod 2), bits. repeat split; try assumption. f_equal; [f_equal |]; lia.
    + intros v' Hv'. apply elem_of_glyph_writes in Hv' as (r & k & b & bits' & Hb' & Hk & Hb2 & Ei & ->). specialize (Hg r bits' Hb').
      apply pixel_inj in Ei as [Ex Ey]; [| lia | lia]. assert (r = py mod 16 / 2) as -> by lia. assert (k = px mod 8) as -> by lia. congruence.
  - apply K. intros Hin. apply Hn. apply list_elem_of_fmap in Hin as ([i v] & Ei & Hin). cbn in Ei. subst i.
    apply elem_of_glyph_writes in Hin as (r & k & b & bits & Hb & Hk & Hb2 & Ei & _). specialize (Hg r bits Hb). apply pixel_inj in Ei as [Ex Ey]; [| lia | lia].
    split; [symmetry; apply (Nat.div_unique px 8 cl k) | symmetry; apply (Nat.div_unique py 16 rw (r * 2 + b))]; lia.
Qed.

Lemma cell_set t r c x r' c' : r < length (cells t) -> (forall l, cells t !! r = Some l -> c < length l) ->
  cell (set_cell r c x t) r' c' = if decide (c' = c /\ r' = r) then x else cell t r' c'.
Proof.
  intros Hr Hc. unfold cell, set_cell. cbn [cells]. destruct (decide (r' = r)) as [-> | Hn].
  - destruct (lookup_lt_is_Some_2 _ _ Hr) as [l El]. rewrite list_lookup_alter_eq, El. cbn. destruct (decide (c' = c)) as [-> | Hn].
    + rewrite decide_True by auto. rewrite list_lookup_insert_eq by (apply Hc, El). reflexivity.
    + rewrite decide_False by tauto. rewrite list_lookup_insert_ne by congruence. reflexivity.
  - rewrite list_lookup_alter_ne by congruence. rewrite decide_False by tauto. reflexivity.
Qed.

Lemma draw_shows c cl rw t s : shows t s -> cl < cols s -> rw < rows s ->
  exists s', draw c cl rw s = Some (tt, s') /\ shows (set_cell rw cl (Some c) t) s' /\ cols s' = cols s /\ rows s' = rows s /\ col s' = col s /\ row s' = row s.
Proof.
  intros (Hs & H1 & H2 & H3 & H4 & H5 & H6 & H7) Hcl Hrw. destruct (draw_run c cl rw s Hs Hcl Hrw) as (l & E & L & P). exists (set_pixels l s).
  split; [exact E |]. split; [| auto]. destruct Hs as (Est & Hl & Hc & Hr & Hc0 & Hr0).
  assert (Hrow : forall l, cells t !! rw = Some l -> cl < length l) by (intros l0 El; rewrite (Forall_lookup_1 _ _ _ _ H2 El); exact Hcl).
  split; [split; [exact Est |]; split; [cbn; rewrite L; exact Hl |]; auto |]. cbn [cells set_cell rows cols col row t_col t_row set_pixels fb width height].
  split; [rewrite length_alter; exact H1 |]. split; [apply Forall_alter; [exact H2 | intros l0 _ E0; rewrite length_insert; exact E0] |].
  do 4 (split; [assumption |]). intros px py Hpx Hpy. rewrite P by assumption. rewrite cell_set; [| lia | exact Hrow].
  destruct (decide _); [reflexivity |]. apply H7; assumption.
Qed.

Lemma scroll_run s : shaped s -> exists l, scroll s = Some (tt, set_pos (rows s - 1) (col s) (set_pixels l s)) /\ length l = length (fb s) /\
  forall i, i < length l -> l !! i = if decide (i < width s * height s - 16 * width s) then fb s !! (16 * width s + i) else Some 0%Z.
Proof.
  intros (Est & Hl & Hc & Hr & _ & Hr0). unfold scroll. unfold bind at 1, gets, id. rewrite Est. change (CHAR_H * SCALE) with 16.
  set (words := 16 * width s). set (total := width s * height s).
  assert (Hh : 16 <= height s) by (pose proof (Nat.Div0.mul_div_le (height s) 16); lia). assert (Hw : words <= total) by (subst words total; nia).
  unfold bind, on_fb, move_up. rewrite Hl. fold total. rewrite (proj2 (Nat.leb_le _ _) Hw), Nat.leb_refl. cbn [andb fb set_pixels].
  set (l1 := take (total - words) (drop words (fb s)) ++ drop (total - words) (fb s)).
  assert (L1 : length l1 = total) by (subst l1; rewrite length_app, length_take, !length_drop, Hl; fold total; lia).
  unfold clear_from. rewrite L1, (proj2 (Nat.leb_le (total - words + words) total)) by lia. cbn [fb].
  set (l2 := take (total - words) l1 ++ replicate words 0%Z ++ drop (total - words + words) l1).
  assert (L2 : length l2 = total) by (subst l2; rewrite !length_app, length_take, length_drop, length_replicate, L1; lia).
  exists l2. split; [reflexivity |]. split; [congruence |]. intros i Hi. subst l2. destruct (decide (i < total - words)).
  - rewrite lookup_app_l by (rewrite length_take, L1; lia). rewrite lookup_take_lt by lia. subst l1.
    rewrite lookup_app_l by (rewrite length_take, length_drop, Hl; fold total; lia). rewrite lookup_take_lt by lia. apply lookup_drop.
  - rewrite lookup_app_r by (rewrite length_take, L1; lia). rewrite length_take, L1. rewrite lookup_app_l by (rewrite length_replicate; lia). apply lookup_replicate. lia.
Qed.

Lemma cell_tail columns l a b r c : cell (mkText (tail l ++ [replicate columns None]) a b) r c = cell (mkText l a b) (S r) c.
Proof.
  unfold cell. cbn [cells]. destruct l as [| x l]; cbn [tail app].
  - destruct r; cbn; [destruct (replicate columns None !! c) as [o |] eqn:E; [apply lookup_replicate in E as [-> _]; reflexivity | reflexivity] | reflexivity].
  - change ((x :: l) !! S r) with (l !! r). destruct (decide (r < length l)) as [Hr | Hr]; [rewrite lookup_app_l by exact Hr; reflexivity |].
    rewrite lookup_app_r by lia. rewrite (lookup_ge_None_2 l r) by lia. destruct (r - length l); cbn; [| reflexivity].
    destruct (replicate columns None !! c) as [o |] eqn:E; [apply lookup_replicate in E as [-> _]; reflexivity | reflexivity].
Qed.

Lemma cell_below t r c : length (cells t) <= r -> cell t r c = None.
Proof. intros H. unfold cell. rewrite lookup_ge_None_2 by exact H. reflexivity. Qed.

(** A new line, from a cursor that may have passed the last column. *)
Lemma advance_shows t s k : shows t s -> exists s', advance_row (set_pos (row s) 0 (set_pos (row s) k s)) = Some (tt, s') /\
  shows (new_line (cols s) t) s' /\ cols s' = cols s /\ rows s' = rows s.
Proof.
  intros (Hs & H1 & H2 & H3 & H4 & H5 & H6 & H7). pose proof Hs as (Est & Hl & Hc & Hr & Hc0 & Hr0). unfold advance_row. unfold bind, modify, gets, id. cbn [row col rows cols set_pos].
  unfold new_line. rewrite H1, H4. destruct (Nat.leb_spec (rows s) (row s + 1)) as [Hend | Hend].
  - rewrite (proj2 (Nat.ltb_ge _ _)) by lia.
    destruct (scroll_run (set_pos (row s + 1) 0 s)) as (l & E & L & P); [exact Hs |]. eexists. split; [exact E |]. cbn [fb set_pos width height] in L, P.
    split; [| auto]. split; [split; [exact Est |]; split; [cbn; rewrite L; exact Hl |]; auto |]. cbn [cells rows cols col row t_col t_row set_pixels set_pos fb width height].
    split; [rewrite length_app; destruct (cells t); cbn in *; lia |].
    split; [apply Forall_app; split; [destruct H2; [constructor | assumption] | constructor; [apply length_replicate | constructor]] |].
    split; [reflexivity |]. split; [lia |]. split; [exact Hc0 |]. split; [lia |]. intros px py Hpx Hpy. rewrite cell_tail.
    change (cell (mkText (cells t) 0 (rows s - 1)) (S (py / 16)) (px / 8)) with (cell t (S (py / 16)) (px / 8)).
    assert (Hcw : cols s * 8 <= width s) by (rewrite Hc; pose proof (Nat.Div0.mul_div_le (width s) 8); lia).
    rewrite P by (rewrite L, Hl; nia). destruct (decide (py + 16 < height s)) as [Hlow | Hlow].
    + rewrite decide_True by nia. replace (16 * width s + (py * width s + px)) with ((py + 1 * 16) * width s + px) by lia. rewrite H7 by (assumption || lia).
      rewrite Nat.Div0.mod_add, Nat.div_add by lia. replace (py / 16 + 1) with (S (py / 16)) by lia. reflexivity.
    + rewrite decide_False by nia. rewrite cell_below; [reflexivity |]. rewrite H1, Hr.
      replace (height s) with (height s - 16 + 1 * 16) by (pose proof (Nat.Div0.mul_div_le (height s) 16); lia). rewrite Nat.div_add by lia. rewrite Nat.add_1_r. apply le_n_S, Nat.Div0.div_le_mono. lia.
  - rewrite (proj2 (Nat.ltb_lt _ _)) by lia. eexists. split; [reflexivity |]. split; [| auto]. split; [exact Hs |]. cbn. repeat (split; [assumption || lia |]). exact H7.
Qed.

Lemma set_at_shows t s k : shows t s -> k < cols s -> shows (set_at (t_row t) k t) (set_pos (row s) k s).
Proof. intros (Hs & H1 & H2 & H3 & H4 & H5 & H6 & H7) Hk. split; [exact Hs |]. cbn. repeat (split; [assumption || reflexivity |]). exact H7. Qed.

Lemma putc_shows c t s : shows t s -> exists s', putc c s = Some (tt, s') /\ shows (text_putc (cols s) c t) s' /\ cols s' = cols s /\ rows s' = rows s.
Proof.
  intros H. pose proof H as (Hs & H1 & H2 & H3 & H4 & H5 & H6 & H7). unfold putc, text_putc.
  destruct (c =? 10)%Z; [destruct (advance_shows t s (col s) H) as (s' & E & S'); exists s'; split; [exact E | exact S'] |].
  destruct (c =? 13)%Z; [eexists; split; [reflexivity |]; split; [apply set_at_shows; [exact H | lia] | auto] |].
  destruct ((c =? 8)%Z || (c =? 127)%Z).
  - unfold bind at 1, gets, id. rewrite H3. destruct (col s) as [| k] eqn:Ek; cbn [Nat.ltb Nat.leb]; [exists s; auto |].
    rewrite (bind_run _ _ _ _ _ eq_refl). rewrite Ek. cbn [Nat.sub]. rewrite Nat.sub_0_r.
    assert (Hk : k < cols s) by lia. pose proof (set_at_shows t s k H Hk) as Hm.
    destruct (draw_shows 32 k (row s) _ _ Hm Hk H6) as (s' & E & S' & C1 & C2 & _). exists s'. split; [exact E |]. split; [| auto].
    rewrite H4 in S' |- *. exact S'.
  - unfold bind at 1, gets, id. destruct (draw_shows c (col s) (row s) t s H H5 H6) as (s1 & E1 & S1 & C1 & C2 & C3 & C4). rewrite (bind_run _ _ _ _ _ E1).
    rewrite (bind_run _ _ _ _ _ eq_refl). unfold bind at 1. cbn [cols col set_pos]. rewrite C1, C3, H3, H4.
    destruct (Nat.leb_spec (cols s) (col s + 1)) as [Hend | Hend].
    + rewrite (proj2 (Nat.ltb_ge _ _)) by lia. destruct (advance_shows _ s1 (col s + 1) S1) as (s' & E & S' & D1 & D2). exists s'. unfold bind, modify. cbn [row set_pos]. rewrite C4 in E |- *.
      split; [exact E |]. rewrite C1 in S'. split; [exact S' | split; congruence].
    + rewrite (proj2 (Nat.ltb_lt _ _)) by lia. eexists. split; [reflexivity |]. split; [| auto]. rewrite Nat.add_1_r.
      replace (row s) with (t_row (set_cell (row s) (col s) (Some c) t)) at 1 by (cbn; exact H4). apply set_at_shows; [exact S1 | lia].
Qed.

Lemma write_shows str : forall t s, shows t s -> exists s', write_str str s = Some (tt, s') /\ shows (text_write (cols s) str t) s' /\ cols s' = cols s.
Proof.
  induction str as [| c str IH]; intros t s H; [exists s; auto |]. destruct (putc_shows c t s H) as (s1 & E1 & H1 & C1 & _).
  destruct (IH _ s1 H1) as (s2 & E2 & H2 & C2). exists s2. unfold write_str in *. cbn [for_each]. rewrite (bind_run _ _ _ _ _ E1).
  split; [exact E2 |]. rewrite C1 in H2, C2. auto.
Qed.

Definition blank (s : FbConsole) : Text := mkText (replicate (rows s) (replicate (cols s) None)) 0 0.
Lemma clear_shows s : shaped s -> exists s', clear s = Some (tt, s') /\ shows (blank s) s' /\ cols s' = cols s.
Proof.
  intros Hs. pose proof Hs as (Est & Hl & Hc & Hr & Hc0 & Hr0). unfold clear. unfold bind, gets, id, on_fb, clear_from. cbn [Nat.add]. rewrite Hl, Nat.leb_refl. change (take 0 (fb s)) with (@nil Z). rewrite app_nil_l.
  eexists. split; [reflexivity |]. split; [| reflexivity]. split; [split; [exact Est |]; split; [cbn [fb set_pos set_pixels width height]; rewrite length_app, length_replicate, length_drop, Hl; lia |]; auto |].
  cbn [cells rows cols col row t_col t_row set_pixels set_pos fb width height blank]. split; [apply length_replicate |].
  split; [apply Forall_replicate, length_replicate |]. do 2 (split; [reflexivity |]). do 2 (split; [assumption |]). intros px py Hpx Hpy.
  assert (Hcw : cols s * 8 <= width s) by (rewrite Hc; pose proof (Nat.Div0.mul_div_le (width s) 8); lia).
  rewrite lookup_app_l by (rewrite length_replicate; nia). rewrite (proj2 (lookup_replicate _ _ _ _)) by (split; [reflexivity | nia]).
  replace (cell (blank s) (py / 16) (px / 8)) with (@None Z); [reflexivity |]. unfold cell, blank. cbn [cells].
  destruct (replicate (rows s) _ !! (py / 16)) as [l |] eqn:E; [| reflexivity]. apply lookup_replicate in E as [-> _].
  destruct (replicate (cols s) None !! (px / 8)) as [o |] eqn:E; [apply lookup_replicate in E as [-> _]; reflexivity | reflexivity].
Qed.

Lemma handover_shows t s : shows t s -> shows t (set_cursor (row s) (col s) (FbConsole_new (fb s) (width s) (height s) (stride s))).
Proof.
  intros (Hs & H1 & H2 & H3 & H4 & H5 & H6 & H7). pose proof Hs as (Est & Hl & Hc & Hr & Hc0 & Hr0).
  unfold shows, shaped, set_cursor, set_pos, FbConsole_new. cbn [fb width height stride cols rows col row].
  change (width s / (CHAR_W * SCALE)) with (width s / 8). change (height s / (CHAR_H * SCALE)) with (height s / 16). rewrite <- Hc, <- Hr.
  rewrite !Nat.min_l by lia. split; [tauto |]. repeat (split; [assumption |]). exact H7.
Qed.
End Console.

(** C38. The framebuffer console is a text terminal.  For every font whose glyphs have eight
    rows and every console that is at least one cell large, [clear] makes every
    pixel of the cells background with the cursor at the top left; and if the pixels show the text [t]
    with its cursor, then writing a string never accesses memory outside of the
    framebuffer, and the pixels then show exactly the text that [text_write] gives:
    characters at the cursor, wrapping at the last column, line feeds, carriage
    returns, rubouts, and scrolling by one line at the bottom, whatever the height
    leaves below the last line.  A console that another process makes on the same
    framebuffer with the cursor that was handed over shows the same text. *)
Theorem console_refines (BASIC_LEGACY : nat -> list Z) (t : Text) (s : FbConsole) (str : list Z) :
  (forall i, length (BASIC_LEGACY i) = 8) -> shaped s ->
  (exists s0, clear s = Some (tt, s0) /\ shows BASIC_LEGACY (blank s) s0) /\
  (shows BASIC_LEGACY t s -> exists s', write_str BASIC_LEGACY str s = Some (tt, s') /\ shows BASIC_LEGACY (text_write (cols s) str t) s' /\
    shows BASIC_LEGACY (text_write (cols s) str t) (set_cursor (cursor s').1 (cursor s').2 (FbConsole_new (fb s') (width s') (height s') (stride s')))).
Proof.
  intros Hg Hs. split.
  - destruct (clear_shows BASIC_LEGACY s Hs) as (s0 & E & H & _). eauto.
  - intros H. destruct (write_shows BASIC_LEGACY Hg str t s H) as (s' & E & H' & _). exists s'. split; [exact E |]. split; [exact H' |]. apply handover_shows, H'.
Qed.

(** A font in which every glyph has its own left column. *)
Definition bars (i : nat) : list Z := replicate 8 (Z.of_nat i).
Lemma console_refines_witness :
  let s := FbConsole_new (replicate (16 * 37) 7%Z) 16 37 16 in
  exists s0 s1, clear s = Some (tt, s0) /\ write_str bars [65; 66; 67; 10; 68; 8; 69]%Z s0 = Some (tt, s1) /\
    cells (text_write 2 [65; 66; 67; 10; 68; 8; 69]%Z (blank s)) = [[Some 67%Z; None]; [Some 69%Z; None]] /\
    shows bars (text_write 2 [65; 66; 67; 10; 68; 8; 69]%Z (blank s)) s1.
Proof.
  intros s. assert (Hs : shaped s) by (repeat split; cbn; lia).
  destruct (console_refines bars (blank s) s [] ltac:(intros; apply length_replicate) Hs) as [(s0 & E0 & H0) _].
  assert (E0' := E0). vm_compute in E0'. injection E0' as E0'.
  assert (Hs0 : shaped s0) by exact (proj1 H0).
  destruct (console_refines bars (blank s) s0 [65; 66; 67; 10; 68; 8; 69]%Z ltac:(intros; apply length_replicate) Hs0) as [_ H].
  destruct (H H0) as (s1 & E1 & H1 & _). assert (Ec : cols s0 = 2) by (rewrite <- E0'; reflexivity). rewrite Ec in H1.
  exists s0, s1. split; [exact E0 |]. split; [exact E1 |]. split; [reflexivity | exact H1].
Defined.
