(* ===== verification/ProcMan.v ===== *)
(** * The process manager

    Models the server [os/procman/src/main.rs] and its interface
    [api/procman/src/lib.rs].  A [&str] is the list of its bytes.  The kernel is a
    parameter of the server: what it answers to a system call may depend on all the
    calls made before.  The state is the list of these calls, the bytes of the buffer
    that the current request lends, and the text written to the serial line (which is
    taken to accept every character). *)

From S2P Require Import Prelude Abi SysCall Bytes Handler.
From Stdlib Require Import ZArith Lia Bool.
From stdpp Require Import list.
Open Scope Z_scope.

(** ** The interface *)

Inductive ProcManOp := SpawnAndWait | Spawn | Wait | SpawnAndWaitWithArgs.
Definition ProcManOp_code (op : ProcManOp) : Z := match op with SpawnAndWait => 0 | Spawn => 1 | Wait => 2 | SpawnAndWaitWithArgs => 3 end.
Definition PROCMAN_SID : SID := mkSID 1347571523 1296125440 0 0.

Definition pack_name (name : str) : list Z := pack_words 4 name.
Definition unpack_name (args : list Z) : str := str_or_empty (unpack_bytes args).
Definition pack_name_short (name : str) : list Z := pack_words 2 name.
Definition unpack_name_short (args : list Z) : str := str_or_empty (unpack_bytes args).

(** [buf[pos..pos + src.len()].copy_from_slice(src)] *)
Definition copy_at (pos : nat) (src buf : list Z) : list Z := take pos buf ++ src ++ drop (pos + length src) buf.

Fixpoint format_args (buf : list Z) (pos : nat) (args : list str) : list Z * nat :=
  match args with
  | [] => (buf, pos)
  | arg :: args =>
      if (length buf <=? pos)%nat then (buf, pos)
      else
        let buf := <[pos := 0]> buf in
        let pos := (pos + 1)%nat in
        let copy_len := (length arg `min` (length buf - pos))%nat in
        if (0 <? copy_len)%nat then format_args (copy_at pos (take copy_len arg) buf) (pos + copy_len) args
        else format_args buf pos args
  end.
Definition format_cmdline (buf : list Z) (name : str) (args : list str) : list Z * nat :=
  let copy_len := (length name `min` length buf)%nat in
  format_args (copy_at 0 (take copy_len name) buf) copy_len args.

Definition parse_cmdline (buf : list Z) (valid_len : nat) : str * nat * nat :=
  let data := take (valid_len `min` length buf) buf in
  let name_end := default (length data) (find_byte 0 data) in
  let name := str_or_empty (take name_end data) in
  let args_start := if (name_end <? length data)%nat then (name_end + 1)%nat else length data in
  (name, args_start, (length data - args_start)%nat).

(** ** The server *)

Record PM := mkPM { pm_calls : list SysCall; pm_buf : list Z; uart_base : Z; pm_text : list Z }.
Definition USIZE_MAX : Z := 2 ^ 64 - 1.

Section Server.
Context (kernel : list SysCall -> SysCall -> res XResult Error).

Definition rsyscall (call : SysCall) : M PM (res XResult Error) :=
  l <- gets pm_calls ;;
  _ <- modify (fun s => mkPM (pm_calls s ++ [call]) (pm_buf s) (uart_base s) (pm_text s)) ;;
  ret (kernel l call).

Definition putc (c : Z) : M PM unit :=
  modify (fun s => if uart_base s =? 0 then s else mkPM (pm_calls s) (pm_buf s) (uart_base s) (pm_text s ++ (if c =? 10 then [13; c] else [c]))).
Fixpoint puts (s : str) : M PM unit := match s with [] => ret tt | c :: s => _ <- putc c ;; puts s end.

(** [xous::return_scalar(..).ok()] and [xous::return_memory_offset_valid(..).ok()] *)
Definition return_scalar (sender : MessageSender) (v : Z) : M PM unit := _ <- rsyscall (ReturnScalar1 sender v) ;; ret tt.
Definition return_memory (sender : MessageSender) (buf : MemoryRange) (offset valid : option Z) : M PM unit :=
  _ <- rsyscall (ReturnMemory sender buf offset valid) ;; ret tt.

(** The call [WaitProcess] and its exit code *)
Definition wait_for (pid : PID) : M PM Z :=
  r <- rsyscall (WaitProcess pid) ;;
  ret (match r with Ok (R_Scalar1 code) => code | _ => USIZE_MAX end).

(** ["[procman] spawn failed"] and its continuation *)
Definition FAILED : str := [91; 112; 114; 111; 99; 109; 97; 110; 93; 32; 115; 112; 97; 119; 110; 32; 102; 97; 105; 108; 101; 100].
Definition FOR_ : str := [32; 102; 111; 114; 32; 39].

Definition handle_blocking_scalar (sender : MessageSender) (scalar : ScalarMessage) : M PM unit :=
  if sm_id scalar =? ProcManOp_code SpawnAndWait then
    let name := unpack_name [sm_arg1 scalar; sm_arg2 scalar; sm_arg3 scalar; sm_arg4 scalar] in
    spawn_result <- rsyscall (SpawnByName (sm_arg1 scalar) (sm_arg2 scalar) (sm_arg3 scalar) (sm_arg4 scalar)) ;;
    match spawn_result with
    | Ok (R_ProcessID pid) => exit_code <- wait_for pid ;; return_scalar sender exit_code
    | Err _ => _ <- puts (FAILED ++ FOR_ ++ name ++ [39; 10]) ;; return_scalar sender USIZE_MAX
    | Ok _ => return_scalar sender USIZE_MAX
    end
  else if sm_id scalar =? ProcManOp_code Wait then
    let pid := sm_arg1 scalar mod 256 in
    if pid =? 0 then return_scalar sender USIZE_MAX
    else exit_code <- wait_for pid ;; return_scalar sender exit_code
  else return_scalar sender USIZE_MAX.

Definition handle_scalar (sender : MessageSender) (scalar : ScalarMessage) : M PM unit :=
  if sm_id scalar =? ProcManOp_code Spawn then
    _ <- rsyscall (SpawnByName (sm_arg1 scalar) (sm_arg2 scalar) (sm_arg3 scalar) (sm_arg4 scalar)) ;; ret tt
  else ret tt.

Definition handle_mutable_borrow_ref (sender : MessageSender) (mem : MemoryMessage) : M PM unit :=
  if mm_id mem =? ProcManOp_code SpawnAndWaitWithArgs then
    buf <- gets pm_buf ;;
    let valid_len := default 0 (mm_valid mem) in
    let '(name, args_start, args_len) := parse_cmdline buf (Z.to_nat valid_len) in
    let name_packed := pack_name_short name in
    let argv_ptr := if (0 <? args_len)%nat then range_addr (mm_buf mem) + Z.of_nat args_start else 0 in
    spawn_result <- rsyscall (SpawnByNameWithArgs (nth 0 name_packed 0) (nth 1 name_packed 0) argv_ptr (Z.of_nat args_len)) ;;
    exit_code <- match spawn_result with
                 | Ok (R_ProcessID pid) => wait_for pid
                 | Err _ => _ <- puts (FAILED ++ [10]) ;; ret USIZE_MAX
                 | Ok _ => ret USIZE_MAX
                 end ;;
    _ <- modify (fun s => if (8 <=? length (pm_buf s))%nat then mkPM (pm_calls s) (copy_at 0 (to_le_bytes 8 exit_code) (pm_buf s)) (uart_base s) (pm_text s) else s) ;;
    return_memory sender (mm_buf mem) None None
  else return_memory sender (mm_buf mem) None None.

(** [Drop for Envelope] *)
Definition drop_envelope (env : MessageEnvelope) : M PM unit :=
  match env_body env with
  | Borrow x | MutableBorrow x => return_memory (env_sender env) (mm_buf x) (mm_offset x) (mm_valid x)
  | Move x => r <- rsyscall (UnmapMemory (mm_buf x)) ;; match r with Ok R_Ok => ret tt | _ => panic end
  | _ => ret tt
  end.

(** The body of the main loop, for the message [env] *)
Definition serve (env : MessageEnvelope) : M PM unit :=
  match env_body env with
  | BlockingScalar scalar => _ <- handle_blocking_scalar (env_sender env) scalar ;; drop_envelope env
  | Scalar scalar => _ <- handle_scalar (env_sender env) scalar ;; drop_envelope env
  | MutableBorrow mem => handle_mutable_borrow_ref (env_sender env) mem
  | _ => drop_envelope env
  end.
End Server.

(** ** Command lines *)

(** The name and the arguments, each with a NUL in front. *)
Definition arg_bytes (args : list str) : list Z := concat ((fun a => 0 :: a) <$> args).
Definition cmdline (name : str) (args : list str) : list Z := name ++ arg_bytes args.

Lemma length_copy_at pos src buf : (pos + length src <= length buf)%nat -> length (copy_at pos src buf) = length buf.
Proof. intros H. unfold copy_at. rewrite !length_app, length_take, length_drop. lia. Qed.

Lemma take_min (a : list Z) n : take (length a `min` n) a = take n a.
Proof. destruct (Nat.le_ge_cases (length a) n); [rewrite Nat.min_l, !take_ge by lia | rewrite Nat.min_r by lia]; reflexivity. Qed.
Lemma drop_min n (l : list Z) : drop (n `min` length l) l = drop n l.
Proof. destruct (Nat.le_ge_cases n (length l)); [rewrite Nat.min_l by lia | rewrite Nat.min_r, !drop_ge by lia]; reflexivity. Qed.

Lemma format_args_run args : forall pre rest,
  format_args (pre ++ rest) (length pre) args =
    (pre ++ take (length rest) (arg_bytes args) ++ drop (length (arg_bytes args)) rest, (length pre + length (arg_bytes args) `min` length rest)%nat).
Proof.
  induction args as [| a args IH]; intros pre rest; cbn [format_args].
  { cbn. rewrite take_nil, drop_0, Nat.add_0_r. reflexivity. }
  rewrite length_app. destruct rest as [| x rest].
  { rewrite (proj2 (Nat.leb_le _ _)) by (cbn; lia). rewrite take_0, drop_nil, Nat.min_0_r, Nat.add_0_r. reflexivity. }
  rewrite (proj2 (Nat.leb_gt _ _)) by (cbn; lia). rewrite length_insert, length_app.
  replace (<[length pre := 0]> (pre ++ x :: rest)) with ((pre ++ [0%Z]) ++ rest).
  2: { rewrite insert_app_r_alt, Nat.sub_diag by lia. rewrite <- app_assoc. reflexivity. }
  change (arg_bytes (a :: args)) with (0 :: a ++ arg_bytes args). cbn [length take drop].
  replace (length pre + 1)%nat with (length (pre ++ [0%Z])) by (rewrite length_app; reflexivity).
  replace (length a `min` (length pre + S (length rest) - length (pre ++ [0%Z])))%nat with (length a `min` length rest)%nat by (rewrite length_app; cbn; lia).
  assert (Hstep : format_args ((pre ++ [0%Z]) ++ take (length rest) a ++ drop (length a) rest) (length (pre ++ [0%Z]) + length a `min` length rest) args =
    (pre ++ (0 :: take (length rest) (a ++ arg_bytes args)) ++ drop (length (a ++ arg_bytes args)) rest, (length pre + S (length (a ++ arg_bytes args)) `min` S (length rest))%nat)).
  { rewrite app_assoc. replace (length (pre ++ [0%Z]) + length a `min` length rest)%nat with (length ((pre ++ [0%Z]) ++ take (length rest) a)) by (rewrite !length_app, length_take; lia).
    rewrite IH. rewrite length_drop, drop_drop, length_app. rewrite take_app. rewrite <- !app_assoc. cbn [app].
    f_equal; rewrite !length_app; [rewrite <- app_assoc; reflexivity | rewrite length_take; cbn [length]; lia]. }
  destruct (Nat.ltb_spec 0 (length a `min` length rest)) as [Hc | Hc].
  - unfold copy_at. rewrite take_app_length. replace (length (take (length a `min` length rest) a)) with (length a `min` length rest)%nat by (rewrite length_take; lia).
    rewrite drop_app_add, take_min, drop_min. exact Hstep.
  - rewrite <- Hstep. replace (length a `min` length rest)%nat with 0%nat by lia. rewrite Nat.add_0_r. f_equal. f_equal.
    destruct a, rest; cbn in Hc |- *; try lia; try reflexivity.
Qed.

Lemma format_cmdline_run buf name args :
  format_cmdline buf name args = (take (length buf) (cmdline name args) ++ drop (length (cmdline name args)) buf, (length (cmdline name args) `min` length buf)%nat).
Proof.
  unfold format_cmdline, copy_at. rewrite take_0, take_min. cbn [app Nat.add]. rewrite length_take, Nat.min_comm, drop_min, Nat.min_comm.
  replace (length buf `min` length name)%nat with (length (take (length buf) name)) by (rewrite length_take; lia).
  rewrite format_args_run. unfold cmdline. rewrite length_drop, drop_drop, length_app, length_take, take_app, <- app_assoc. f_equal. lia.
Qed.

(** The arguments as the program gets them, separated by NULs. *)
Definition argv (args : list str) : list Z := tail (arg_bytes args).

Lemma parse_cmdline_run name args rest : nul_free name ->
  parse_cmdline (cmdline name args ++ rest) (length (cmdline name args)) =
    (str_or_empty name, (length name + match args with [] => 0 | _ => 1 end)%nat, length (argv args)) /\
  (forall a args', args = a :: args' -> take (length (argv args)) (drop (length name + 1) (cmdline name args ++ rest)) = argv args).
Proof.
  intros Hn. unfold parse_cmdline. rewrite length_app, Nat.min_l, take_app_length by lia. unfold cmdline, argv. destruct args as [| a args].
  - cbn [arg_bytes fmap list_fmap concat]. rewrite app_nil_r. rewrite (proj2 (find_byte_None 0 name) Hn). cbn [default]. rewrite Nat.ltb_irrefl, take_ge, Nat.sub_diag by lia.
    split; [rewrite Nat.add_0_r; reflexivity | discriminate].
  - change (arg_bytes (a :: args)) with (0 :: a ++ arg_bytes args). rewrite find_byte_app by exact Hn. cbn [default tail]. unfold id. rewrite length_app. cbn [length].
    rewrite (proj2 (Nat.ltb_lt _ _)) by lia. rewrite take_app_length. split; [f_equal; lia |]. intros a' args' _.
    rewrite <- app_assoc. cbn [app]. replace (length name + 1)%nat with (length (name ++ [0%Z])) by (rewrite length_app; reflexivity).
    replace (name ++ 0 :: (a ++ arg_bytes args) ++ rest) with ((name ++ [0%Z]) ++ (a ++ arg_bytes args) ++ rest) by (rewrite <- app_assoc; reflexivity).
    rewrite drop_app_length, take_app_length. reflexivity.
Qed.

(** ** Requests *)
Section Answers.
Context (kernel : list SysCall -> SysCall -> res XResult Error).

Definition made (call : SysCall) (s : PM) : PM := mkPM (pm_calls s ++ [call]) (pm_buf s) (uart_base s) (pm_text s).
Lemma rsyscall_run call s : rsyscall kernel call s = Some (kernel (pm_calls s) call, made call s).
Proof. reflexivity. Qed.
Lemma return_scalar_run x v s : return_scalar kernel x v s = Some (tt, made (ReturnScalar1 x v) s).
Proof. reflexivity. Qed.
Lemma return_memory_run x b o v s : return_memory kernel x b o v s = Some (tt, made (ReturnMemory x b o v) s).
Proof. reflexivity. Qed.
Lemma puts_run l : forall s, exists t, puts l s = Some (tt, mkPM (pm_calls s) (pm_buf s) (uart_base s) t).
Proof.
  induction l as [| c l IH]; intros s; [exists (pm_text s); destruct s; reflexivity |]. cbn [puts]. unfold bind, putc, modify.
  destruct (IH (if uart_base s =? 0 then s else mkPM (pm_calls s) (pm_buf s) (uart_base s) (pm_text s ++ (if c =? 10 then [13; c] else [c])))) as [t E].
  rewrite E. exists t. destruct (uart_base s =? 0); reflexivity.
Qed.
Definition exit_code (r : res XResult Error) : Z := match r with Ok (R_Scalar1 code) => code | _ => USIZE_MAX end.
Lemma wait_for_run pid s : wait_for kernel pid s = Some (exit_code (kernel (pm_calls s) (WaitProcess pid)), made (WaitProcess pid) s).
Proof. reflexivity. Qed.

(** The calls after a spawn, and the exit code. *)
Definition then_wait (calls : list SysCall) (r : res XResult Error) : list SysCall * Z :=
  match r with Ok (R_ProcessID pid) => ([WaitProcess pid], exit_code (kernel calls (WaitProcess pid))) | _ => ([], USIZE_MAX) end.

Lemma after_spawn_run spawn s : let w := then_wait (pm_calls s ++ [spawn]) (kernel (pm_calls s) spawn) in
  exists s1, (match kernel (pm_calls s) spawn with Ok (R_ProcessID pid) => wait_for kernel pid | Err _ => _ <- puts (FAILED ++ [10]) ;; ret USIZE_MAX | Ok _ => ret USIZE_MAX end) (made spawn s) = Some (w.2, s1) /\
    pm_calls s1 = pm_calls s ++ [spawn] ++ w.1 /\ pm_buf s1 = pm_buf s.
Proof.
  intros w. subst w. unfold then_wait. destruct (kernel (pm_calls s) spawn) as [r | e].
  - destruct r as [| | | | | | | | | | | pid | | | | | | | | | | |]; lazymatch goal with |- context [wait_for] => idtac | _ => exists (made spawn s); auto end.
    exists (made (WaitProcess pid) (made spawn s)). split; [apply wait_for_run |]. cbn. rewrite <- app_assoc. auto.
  - destruct (puts_run (FAILED ++ [10]) (made spawn s)) as [t E]. eexists. rewrite (bind_run _ _ _ _ _ E). split; [reflexivity |]. auto.
Qed.

Lemma borrow_run x mem name args rest s : mm_id mem = ProcManOp_code SpawnAndWaitWithArgs -> nul_free name -> pm_buf s = cmdline name args ++ rest ->
  mm_valid mem = Some (Z.of_nat (length (cmdline name args))) -> (8 <= length (pm_buf s))%nat ->
  let p := pack_name_short (str_or_empty name) in
  let spawn := SpawnByNameWithArgs (nth 0 p 0) (nth 1 p 0) (match argv args with [] => 0 | _ => range_addr (mm_buf mem) + Z.of_nat (length name + 1) end) (Z.of_nat (length (argv args))) in
  let w := then_wait (pm_calls s ++ [spawn]) (kernel (pm_calls s) spawn) in
  exists s', handle_mutable_borrow_ref kernel x mem s = Some (tt, s') /\
    pm_calls s' = pm_calls s ++ [spawn] ++ w.1 ++ [ReturnMemory x (mm_buf mem) None None] /\ pm_buf s' = to_le_bytes 8 w.2 ++ drop 8 (pm_buf s).
Proof.
  intros Hid Hn Hb Hv H8 p spawn w. unfold handle_mutable_borrow_ref. rewrite Hid, Z.eqb_refl, (bind_run _ _ s (pm_buf s) s eq_refl), Hv. cbn [default]. unfold id. rewrite Nat2Z.id.
  pose proof (proj1 (parse_cmdline_run name args rest Hn)) as Ep. rewrite <- Hb in Ep. rewrite Ep. fold p.
  replace (if (0 <? length (argv args))%nat then _ else 0) with (match argv args with [] => 0 | _ => range_addr (mm_buf mem) + Z.of_nat (length name + 1) end).
  2: { destruct args as [| a args]; [reflexivity |]. destruct (argv (a :: args)); reflexivity. }
  fold spawn. rewrite (bind_run _ _ _ _ _ (rsyscall_run spawn s)).
  destruct (after_spawn_run spawn s) as (s1 & E1 & C1 & B1). fold w in E1, C1. rewrite (bind_run _ _ _ _ _ E1). unfold bind, modify. rewrite B1, (proj2 (Nat.leb_le _ _) H8), return_memory_run.
  eexists. split; [reflexivity |]. cbn. rewrite C1. split; [rewrite <- !app_assoc; reflexivity |]. unfold copy_at. cbn [take app Nat.add length to_le_bytes]. reflexivity.
Qed.

Definition is_answer (c : SysCall) : bool := match c with ReturnScalar1 _ _ | ReturnMemory _ _ _ _ => true | _ => false end.
Definition no_answer (l : list SysCall) : Prop := Forall (fun c => is_answer c = false) l.
Lemma then_wait_quiet calls r : no_answer (then_wait calls r).1.
Proof. destruct r as [[] |]; cbn; repeat constructor. Qed.

Lemma borrow_answers x mem s : exists s' l, handle_mutable_borrow_ref kernel x mem s = Some (tt, s') /\
  pm_calls s' = pm_calls s ++ l ++ [ReturnMemory x (mm_buf mem) None None] /\ no_answer l.
Proof.
  unfold handle_mutable_borrow_ref. destruct (mm_id mem =? _); [| eexists _, []; split; [apply return_memory_run |]; split; [reflexivity | constructor]].
  rewrite (bind_run _ _ s (pm_buf s) s eq_refl). destruct (parse_cmdline _ _) as [[name start] len].
  set (spawn := SpawnByNameWithArgs _ _ _ _). rewrite (bind_run _ _ _ _ _ (rsyscall_run spawn s)).
  destruct (after_spawn_run spawn s) as (s1 & E1 & C1 & _). rewrite (bind_run _ _ _ _ _ E1). unfold bind, modify. rewrite return_memory_run.
  eexists _, (spawn :: (then_wait (pm_calls s ++ [spawn]) (kernel (pm_calls s) spawn)).1). split; [reflexivity |].
  split; [| constructor; [reflexivity | apply then_wait_quiet]]. destruct (8 <=? length (pm_buf s1))%nat; cbn [pm_calls made]; rewrite C1, <- !app_assoc; reflexivity.
Qed.

Lemma blocking_answers x m s : exists s' l v, handle_blocking_scalar kernel x m s = Some (tt, s') /\ pm_calls s' = pm_calls s ++ l ++ [ReturnScalar1 x v] /\ no_answer l.
Proof.
  unfold handle_blocking_scalar. destruct (sm_id m =? _).
  - set (spawn := SpawnByName _ _ _ _). set (name := unpack_name _). rewrite (bind_run _ _ _ _ _ (rsyscall_run spawn s)). destruct (kernel (pm_calls s) spawn) as [r | e].
    + destruct r as [| | | | | | | | | | | pid | | | | | | | | | | |]; lazymatch goal with |- context [wait_for] => idtac | _ =>
        eexists _, [spawn], _; split; [apply return_scalar_run |]; split; [cbn; rewrite <- app_assoc; reflexivity | repeat constructor] end.
      rewrite (bind_run _ _ _ _ _ (wait_for_run pid _)). eexists _, [spawn; WaitProcess pid], _. split; [apply return_scalar_run |].
      split; [cbn; rewrite <- !app_assoc; reflexivity | repeat constructor].
    + destruct (puts_run (FAILED ++ FOR_ ++ name ++ [39; 10]) (made spawn s)) as [t E]. rewrite (bind_run _ _ _ _ _ E). eexists _, [spawn], _.
      split; [apply return_scalar_run |]. split; [cbn; rewrite <- app_assoc; reflexivity | repeat constructor].
  - destruct (sm_id m =? _); [destruct (_ =? 0) |].
    + eexists _, [], _. split; [apply return_scalar_run |]. split; [reflexivity | constructor].
    + rewrite (bind_run _ _ _ _ _ (wait_for_run _ _)). eexists _, [WaitProcess _], _. split; [apply return_scalar_run |].
      split; [cbn; rewrite <- !app_assoc; reflexivity | repeat constructor].
    + eexists _, [], _. split; [apply return_scalar_run |]. split; [reflexivity | constructor].
Qed.
End Answers.

(** The process manager answers every request exactly once, and last.  Whatever the kernel
    answers to its calls, a blocking scalar message is answered by one
    [ReturnScalar1] to its sender, a mutable lend by one [ReturnMemory] of the lent
    buffer and an immutable lend by one with the offset and the length of the
    message; a scalar message gets no answer; a moved buffer is unmapped, and only
    if the kernel refuses that the server panics. *)
Theorem procman_answers (kernel : list SysCall -> SysCall -> res XResult Error) (env : MessageEnvelope) (s : PM) :
  let x := env_sender env in
  match env_body env with
  | BlockingScalar _ => exists s' l v, serve kernel env s = Some (tt, s') /\ pm_calls s' = pm_calls s ++ l ++ [ReturnScalar1 x v] /\ no_answer l
  | MutableBorrow m => exists s' l, serve kernel env s = Some (tt, s') /\ pm_calls s' = pm_calls s ++ l ++ [ReturnMemory x (mm_buf m) None None] /\ no_answer l
  | Borrow m => exists s', serve kernel env s = Some (tt, s') /\ pm_calls s' = pm_calls s ++ [ReturnMemory x (mm_buf m) (mm_offset m) (mm_valid m)]
  | Scalar _ => exists s' l, serve kernel env s = Some (tt, s') /\ pm_calls s' = pm_calls s ++ l /\ no_answer l
  | Move m => (kernel (pm_calls s) (UnmapMemory (mm_buf m)) = Ok R_Ok -> exists s', serve kernel env s = Some (tt, s') /\ pm_calls s' = pm_calls s ++ [UnmapMemory (mm_buf m)]) /\
      (serve kernel env s = None -> kernel (pm_calls s) (UnmapMemory (mm_buf m)) <> Ok R_Ok)
  end.
Proof.
  intros x. subst x. destruct env as [x body]. unfold serve. cbn [env_body env_sender]. destruct body as [m | m | m | m | m]; unfold drop_envelope; cbn [env_body env_sender].
  - apply borrow_answers.
  - eexists. split; [apply return_memory_run | reflexivity].
  - rewrite (bind_run _ _ _ _ _ (rsyscall_run kernel (UnmapMemory (mm_buf m)) s)). split.
    + intros ->. eexists. split; reflexivity.
    + intros E Hk. rewrite Hk in E. discriminate.
  - unfold handle_scalar. destruct (sm_id m =? _).
    + rewrite (bind_run _ _ s tt (made (SpawnByName (sm_arg1 m) (sm_arg2 m) (sm_arg3 m) (sm_arg4 m)) s) eq_refl). eexists _, [_]. split; [reflexivity |]. split; [reflexivity | repeat constructor].
    + eexists _, []. split; [reflexivity |]. split; [rewrite app_nil_r; reflexivity | constructor].
  - destruct (blocking_answers kernel x m s) as (s' & l & v & E & C). rewrite (bind_run _ _ _ _ _ E). exists s', l, v. split; [reflexivity | exact C].
Qed.

(** C39. A command line reaches the kernel as it was typed, if the name has at most 16
    bytes.  Let a client write the name [name] -- valid UTF-8 without NULs, at most 16
    bytes -- and arguments into a buffer of 8 bytes at least that they fit in, with
    [format_cmdline], and lend it as a request [SpawnAndWaitWithArgs].  Then the process
    manager asks the kernel once to spawn, in words from which the handler of the
    kernel unpacks exactly [name], with the address and the length of the arguments in
    the lent buffer, separated by NULs, or no address if they are empty; waits for
    that process if there is one; and returns the buffer once. *)
Theorem procman_runs_command (kernel : list SysCall -> SysCall -> res XResult Error) (name : str) (args : list str) (page : list Z) (x : MessageSender) (buf : MemoryRange) (s : PM) :
  nul_free name -> forallb byte_ok name = true -> utf8_valid name = true -> (length name <= 16)%nat ->
  (length (cmdline name args) <= length page)%nat -> (8 <= length page)%nat ->
  let '(page', valid) := format_cmdline page name args in
  let env := mkEnvelope x (MutableBorrow (mkMemoryMessage (ProcManOp_code SpawnAndWaitWithArgs) buf None (Some (Z.of_nat valid)))) in
  pm_buf s = page' ->
  exists n0 n1 ptr s' offset end_, let spawn := SpawnByNameWithArgs n0 n1 ptr (Z.of_nat (length (argv args))) in
    serve kernel env s = Some (tt, s') /\
    pm_calls s' = pm_calls s ++ [spawn] ++ (then_wait kernel (pm_calls s ++ [spawn]) (kernel (pm_calls s) spawn)).1 ++ [ReturnMemory x buf offset end_] /\
    Handler.unpack_name [n0; n1] = name /\
    (argv args = [] /\ ptr = 0 \/ range_addr buf <= ptr /\ take (length (argv args)) (drop (Z.to_nat (ptr - range_addr buf)) page') = argv args).
Proof.
  intros Hn Hb Hu H16 Hfit H8. rewrite format_cmdline_run. rewrite take_ge, Nat.min_l by exact Hfit. intros env Hs. subst env.
  set (mem := mkMemoryMessage (ProcManOp_code SpawnAndWaitWithArgs) buf None (Some (Z.of_nat (length (cmdline name args))))). set (rest := drop (length (cmdline name args)) page) in *.
  assert (Lp : (8 <= length (pm_buf s))%nat) by (rewrite Hs, length_app; subst rest; rewrite length_drop; lia).
  destruct (borrow_run kernel x mem name args rest s eq_refl Hn Hs eq_refl Lp) as (s' & E & C & B). unfold str_or_empty in *. rewrite Hu in *.
  eexists _, _, _, s', _, _. split; [exact E |]. split; [exact C |]. split.
  - rewrite <- (unpack_pack 2 name Hb Hn ltac:(lia)) at 3. reflexivity.
  - destruct (argv args) as [| c l] eqn:Ea; [auto |]. right. cbn [range_addr mm_buf mem]. split; [lia |].
    destruct args as [| a args]; [discriminate |]. rewrite <- Ea.
    replace (Z.to_nat (range_addr buf + Z.of_nat (length name + 1) - range_addr buf)) with (length name + 1)%nat by lia.
    apply (proj2 (parse_cmdline_run name (a :: args) rest Hn) a args eq_refl).
Qed.

Lemma procman_runs_command_witness : 
  let kernel (_ : list SysCall) (c : SysCall) : res XResult Error := match c with SpawnByNameWithArgs _ _ _ _ => Ok (R_ProcessID 5) | WaitProcess _ => Ok (R_Scalar1 42) | _ => Ok R_Ok end in
  let '(page, valid) := format_cmdline (replicate 32 0) [99; 97; 116] [[97]; [98; 99]] in
  let env := mkEnvelope 7 (MutableBorrow (mkMemoryMessage 3 (mkRange 65536 32) None (Some (Z.of_nat valid)))) in
  exists s', serve kernel env (mkPM [] page 0 []) = Some (tt, s') /\
    Handler.unpack_name [7627107; 0] = [99; 97; 116] /\
    pm_calls s' = [SpawnByNameWithArgs 7627107 0 65540 4; WaitProcess 5; ReturnMemory 7 (mkRange 65536 32) None None].
Proof.
  intros kernel.
  pose proof (procman_runs_command kernel [99; 97; 116] [[97]; [98; 99]] (replicate 32 0) 7 (mkRange 65536 32)
    (mkPM [] (format_cmdline (replicate 32 0) [99; 97; 116] [[97]; [98; 99]]).1 0 [])) as H.
  destruct H as (n0 & n1 & ptr & s' & o & v & E & C & U & _); [unfold nul_free; set_solver by lia | reflexivity | reflexivity | cbn; lia | cbn; lia | cbn; lia | reflexivity |].
  exists s'. split; [exact E |]. vm_compute in E. injection E as <-. split; [| reflexivity].
  injection C as E0 E1 _ _. subst n0 n1. exact U.
Defined.
