(* ===== verification/Shell.v ===== *)
(** * The shell

    Models [apps/shell/src/main.rs]: the line editor, the splitting of a line into
    words, the resolution of paths, every command, and the loop that handles a
    character.  The kernel and the servers behind it are parameters: what they answer
    to a call, and what they leave in a page that was lent to them, may depend on all
    that happened before.

    The state of the shell is its statics; of the arrays with a length only the part
    in use is kept ([SHELL.line[..pos]], [CWD_BUF[..CWD_LEN]]).  What it does is the
    list of its system calls and of the characters that it puts on the serial line
    and the screen.  Of the console only the cursor is part of the state; the pixels
    are those of [FbConsole], with which the cursor agrees. *)

From S2P Require Import Prelude Abi SysCall Memory Bytes FsServer ProcMan FbConsole.
From Stdlib Require Import ZArith Lia Bool String Ascii.
From stdpp Require Import list.
Open Scope Z_scope.

(** The bytes of a string literal. *)
Fixpoint bytes_of (s : string) : str :=
  match s with EmptyString => [] | String c s => Z.of_N (N_of_ascii c) :: bytes_of s end.
Notation "'$' s" := (bytes_of s%string) (at level 5, format "'$' s").

(** ** Words and paths *)

Definition MAX_LINE : nat := 256.
Definition MAX_ARGS : nat := 16.
Definition MAX_PATH : nat := 256.

(** [s.split(f)] *)
Fixpoint split_by (f : Z -> bool) (s : str) : list str :=
  match s with
  | [] => [[]]
  | c :: s =>
      if f c then [] :: split_by f s
      else match split_by f s with w :: ws => (c :: w) :: ws | [] => [[c]] end
  end.
Definition is_space (c : Z) : bool := (c =? 32) || (c =? 9) || (c =? 10) || (c =? 12) || (c =? 13).
Definition split_ascii_whitespace (s : str) : list str := List.filter (fun w => negb (str_eqb w [])) (split_by is_space s).

(** [s.find(pat)] *)
Fixpoint find_str (pat s : str) : option nat :=
  if starts_with pat s then Some 0%nat
  else match s with [] => None | _ :: s => S <$> find_str pat s end.

(** [core::str::from_utf8(s).unwrap_or("/")] *)
Definition str_or_slash (s : str) : str := if utf8_valid s then s else [SLASH].

(** The loop of the case [".."]: back to the last slash. *)
Fixpoint back_to_slash (fuel : nat) (out : str) : str :=
  match fuel with
  | O => out
  | S fuel => if (1 <? length out)%nat && negb (nth (length out - 1) out 0 =? SLASH) then back_to_slash fuel (take (length out - 1) out) else out
  end.
Definition pop_component (out : str) : str :=
  if (1 <? length out)%nat then
    let out := take (length out - 1) out in
    let out := back_to_slash (length out) out in
    if (1 <? length out)%nat then take (length out - 1) out else out
  else out.
(** [buf[olen] = b'/'] panics at the end of the buffer. *)
Definition push_component (comp out : str) : option str :=
  match (if (1 <? length out)%nat then if (length out <? MAX_PATH)%nat then Some (out ++ [SLASH]) else None else Some out) with
  | Some out => Some (out ++ take (MAX_PATH - length out) comp)
  | None => None
  end.
Fixpoint normalize (comps : list str) (out : str) : option str :=
  match comps with
  | [] => Some out
  | comp :: comps =>
      if str_eqb comp [] || str_eqb comp $"." then normalize comps out
      else if str_eqb comp $".." then normalize comps (pop_component out)
      else match push_component comp out with Some out => normalize comps out | None => None end
  end.
Definition joined (cwd input : str) : str :=
  take MAX_PATH ((if starts_with [SLASH] input then [] else take MAX_PATH cwd ++ [SLASH]) ++ input).
Definition resolve_path (cwd input : str) : option str :=
  str_or_slash <$> normalize (split_by (fun b => b =? SLASH) (joined cwd input)) [SLASH].

(** [{}] and [{:02x}] of a number *)
Fixpoint dec_loop (fuel : nat) (n : Z) (acc : str) : str :=
  match fuel with
  | O => acc
  | S fuel => if n <? 10 then 48 + n :: acc else dec_loop fuel (n / 10) (48 + n mod 10 :: acc)
  end.
Definition dec (n : Z) : str := dec_loop 20 n [].
Definition hex_digit (n : Z) : Z := if n <? 10 then 48 + n else 87 + n.
Definition hex2 (n : Z) : str := [hex_digit (n / 16); hex_digit (n mod 16)].

(** ** The state *)

Inductive Event := Call (c : SysCall) | Put (c : Z).
Record Shell := mkShell {
  events : list Event;
  line : str;
  last_was_cr : bool;
  cwd : str;
  prev : str;
  fs_cid : Z;
  procman_cid : Z;
  cur_row : nat;
  cur_col : nat }.

Definition FB_COLS : nat := 160.
Definition FB_ROWS : nat := 50.

Definition emit (e : Event) : M Shell unit :=
  modify (fun s => mkShell (events s ++ [e]) (line s) (last_was_cr s) (cwd s) (prev s) (fs_cid s) (procman_cid s) (cur_row s) (cur_col s)).
Definition set_line (l : str) : M Shell unit :=
  modify (fun s => mkShell (events s) l (last_was_cr s) (cwd s) (prev s) (fs_cid s) (procman_cid s) (cur_row s) (cur_col s)).
Definition set_last_cr (b : bool) : M Shell unit :=
  modify (fun s => mkShell (events s) (line s) b (cwd s) (prev s) (fs_cid s) (procman_cid s) (cur_row s) (cur_col s)).
Definition set_dirs (c p : str) : M Shell unit :=
  modify (fun s => mkShell (events s) (line s) (last_was_cr s) c p (fs_cid s) (procman_cid s) (cur_row s) (cur_col s)).
Definition set_cids (f p : Z) : M Shell unit :=
  modify (fun s => mkShell (events s) (line s) (last_was_cr s) (cwd s) (prev s) f p (cur_row s) (cur_col s)).
Definition set_cur (r c : nat) : M Shell unit :=
  modify (fun s => mkShell (events s) (line s) (last_was_cr s) (cwd s) (prev s) (fs_cid s) (procman_cid s) r c).

(** The cursor after [FbConsole::putc]. *)
Definition advance (r : nat) : nat := if (FB_ROWS <=? r + 1)%nat then (FB_ROWS - 1)%nat else (r + 1)%nat.
Definition cursor_putc (c : Z) (p : nat * nat) : nat * nat :=
  let '(r, k) := p in
  if c =? 10 then (advance r, 0%nat)
  else if c =? 13 then (r, 0%nat)
  else if (c =? 8) || (c =? 127) then (r, (k - 1)%nat)
  else if (FB_COLS <=? k + 1)%nat then (advance r, 0%nat) else (r, (k + 1)%nat).

Definition putc (c : Z) : M Shell unit :=
  _ <- emit (Put c) ;;
  s <- gets id ;;
  let p := cursor_putc c (cur_row s, cur_col s) in
  set_cur p.1 p.2.
Fixpoint puts (s : str) : M Shell unit := match s with [] => ret tt | c :: s => _ <- putc c ;; puts s end.

Section Commands.
(** The answer to a system call, and the bytes of a lent buffer when the call returns. *)
Context (kernel : list Event -> SysCall -> res XResult Error).
Context (lent : list Event -> SysCall -> list Z -> list Z).
(** The bytes of a buffer that was just mapped. *)
Context (fresh : list Event -> MemoryRange -> list Z).
(** The number of programs in the kernel. *)
Context (programs : nat).

Definition rsyscall (c : SysCall) : M Shell (res XResult Error) :=
  h <- gets events ;;
  _ <- emit (Call c) ;;
  ret (kernel h c).

Definition acquire_display : M Shell (Z * Z) :=
  r <- rsyscall AcquireDisplay ;;
  ret (match r with Ok (R_Scalar2 row col) => (row, col) | _ => (0, 0) end).
Definition release_display (row col : nat) : M Shell unit := _ <- rsyscall (ReleaseDisplay (Z.of_nat row) (Z.of_nat col)) ;; ret tt.
Definition acquire_input_focus : M Shell unit := _ <- rsyscall (AcquireInputFocus 1129270867 1330398464 0 0) ;; ret tt.
Definition release_input_focus : M Shell unit := _ <- rsyscall ReleaseInputFocus ;; ret tt.
Definition fb_cursor : M Shell (nat * nat) := gets (fun s => (cur_row s, cur_col s)).
(** [FbConsole::set_cursor] *)
Definition set_cursor (p : Z * Z) : M Shell unit :=
  set_cur (Z.to_nat (Z.min p.1 (Z.of_nat FB_ROWS - 1))) (Z.to_nat (Z.min p.2 (Z.of_nat FB_COLS - 1))).

Definition prompt : M Shell unit := puts $"bsh> ".

(** *** Builtins *)

Definition NL : str := [10].
Definition cmd_help : M Shell unit :=
  puts (concat ((fun l => l ++ NL) <$>
    [$"BeetOS shell commands:";
     $"  help              Show this help";
     $"  echo [text...]    Print text";
     $"  info              System information";
     $"  pid               Show current process ID";
     $"  pwd               Print working directory";
     $"  cd [path]         Change directory (default: /)";
     $"  programs          List spawnable programs";
     $"  reboot            Reboot the system";
     $"  ls [path]         List directory (ramfs or /disk/)";
     $"  cat <path>        Display file contents";
     $"  write <path> <text>  Write text to a file (ramfs only)";
     $"  rm <path>         Remove a file or empty directory";
     $"  mkdir <path>      Create a directory";
     $"  blkinfo           Block device info";
     $"  mem               Filesystem statistics";
     $"  ifconfig          Show network interface configuration"])).

Fixpoint echo_rest (args : list str) : M Shell unit :=
  match args with [] => ret tt | a :: args => _ <- putc 32 ;; _ <- puts a ;; echo_rest args end.
Definition cmd_echo (args : list str) : M Shell unit :=
  _ <- match args with [] => ret tt | a :: args => _ <- puts a ;; echo_rest args end ;;
  putc 10.

Definition cmd_info : M Shell unit :=
  puts ($"BeetOS v0.1.0" ++ NL ++ $"Kernel: Xous microkernel (AArch64)" ++ NL ++ $"Platform: QEMU virt" ++ NL ++
        $"Page size: " ++ dec 16384 ++ $" bytes" ++ NL ++ $"Shell: userspace process (EL0)" ++ NL).

Definition cmd_pid : M Shell unit :=
  r <- rsyscall GetProcessId ;;
  match r with
  | Ok (R_Scalar1 pid) => puts ($"PID: " ++ dec pid ++ NL)
  | _ => puts ($"pid: syscall failed" ++ NL)
  end.

Fixpoint programs_loop (fuel : nat) (index : Z) : M Shell unit :=
  r <- rsyscall (GetBinaryName index) ;;
  match r, fuel with
  | Ok (R_Scalar5 w0 w1 w2 w3 _), S fuel =>
      let name := ProcMan.unpack_name [w0; w1; w2; w3] in
      _ <- (if str_eqb name [] then ret tt else _ <- puts name ;; putc 10) ;;
      programs_loop fuel (index + 1)
  | Ok (R_Scalar5 _ _ _ _ _), O => panic
  | _, _ => ret tt
  end.
Definition cmd_programs : M Shell unit := programs_loop programs 0.

Definition cmd_reboot : M Shell unit := _ <- rsyscall (Shutdown 0) ;; ret tt.
Definition cmd_pwd : M Shell unit := c <- gets cwd ;; _ <- puts (str_or_slash c) ;; putc 10.

(** *** The file system service *)

Definition FS_SID : SID := mkSID 1111835988 1330857555 0 0.
Definition get_fs_cid : M Shell Z :=
  s <- gets id ;;
  if negb (fs_cid s =? 0) then ret (fs_cid s)
  else
    r <- rsyscall (Connect FS_SID) ;;
    match r with Ok (R_ConnectionID cid) => _ <- set_cids cid (procman_cid s) ;; ret cid | _ => ret 0 end.

Definition fs_buf_op (op : FsOp) (path : str) : M Shell (option Z) :=
  cid <- get_fs_cid ;;
  if cid =? 0 then ret None
  else
    r <- rsyscall (MapMemory None None PAGE_SIZE MF_W) ;;
    match r with
    | Ok (R_MemoryRange buf_range) =>
        let path_len := (length path `min` MAX_PATH_LEN)%nat in
        _ <- assertb (path_len <=? Z.to_nat (range_size buf_range))%nat ;;
        let page_slice := copy_at 0 (take path_len path) (replicate (Z.to_nat (range_size buf_range)) 0) in
        let call := SendMessage cid (MutableBorrow (mkMemoryMessage (FsOp_code op) buf_range None None)) in
        h <- gets events ;;
        result <- rsyscall call ;;
        status <- match result with
                  | Ok (R_MemoryReturned _ _) | Ok R_Ok =>
                      let page := lent h call page_slice in
                      code <- expect (page !! BUF_STATUS_OFFSET) ;;
                      _ <- (if code =? ApiError_code A_Ok then
                              let text := until_nul (drop BUF_TEXT_OFFSET page) in
                              if utf8_valid text then puts text else ret tt
                            else ret tt) ;;
                      ret (Some code)
                  | _ => ret None
                  end ;;
        _ <- rsyscall (UnmapMemory buf_range) ;;
        ret status
    | _ => ret None
    end.

Definition fs_call (op : FsOp) (args : list Z) : M Shell (option XResult) :=
  cid <- get_fs_cid ;;
  if cid =? 0 then ret None
  else
    r <- rsyscall (SendMessage cid (BlockingScalar (mkScalarMessage (FsOp_code op) (nth 0 args 0) (nth 1 args 0) (nth 2 args 0) (nth 3 args 0)))) ;;
    ret (match r with Ok x => Some x | Err _ => None end).
Definition fs_scalar (op : FsOp) (args : list Z) : M Shell (option Z) :=
  r <- fs_call op args ;; ret (match r with Some (R_Scalar1 code) => Some code | _ => None end).
Definition fs_stats : M Shell (option (Z * Z * Z * Z * Z)) :=
  r <- fs_call Op_Stats [0; 0; 0; 0] ;; ret (match r with Some (R_Scalar5 a b c d e) => Some (a, b, c, d, e) | _ => None end).

Definition resolve (input : str) : M Shell str := c <- gets cwd ;; expect (resolve_path c input).

(** What a command says of the code that the service returned: nothing if it is [Ok], the
    message of the first case for the code, and otherwise that there was an error. *)
Fixpoint say_code (cmd : str) (code : Z) (cases : list (ApiError * str)) : M Shell unit :=
  match cases with
  | [] => puts (cmd ++ $": error" ++ NL)
  | (e, text) :: cases => if code =? ApiError_code e then puts (cmd ++ text ++ NL) else say_code cmd code cases
  end.
Definition say (cmd : str) (status : option Z) (cases : list (ApiError * str)) : M Shell unit :=
  match status with
  | None => puts (cmd ++ $": fs service not available" ++ NL)
  | Some code => if code =? ApiError_code A_Ok then ret tt else say_code cmd code cases
  end.
Definition about (subject what : str) : str := $": " ++ subject ++ $": " ++ what.

(** [resolved] of [cd -] is no copy: it lies in [PREV_BUF] (unless that is no text),
    and what is read there has been overwritten by the start of [CWD_BUF] when it is
    copied to [CWD_BUF]. *)
Inductive Resolved := InBuf (s : str) | InPrev (s : str).
Definition resolved_str (r : Resolved) : str := match r with InBuf s | InPrev s => s end.
Definition resolved_after (c : str) (r : Resolved) : str :=
  match r with InBuf s => s | InPrev s => take (length s) (c ++ drop (length c) s) end.

Definition cmd_cd (args : list str) : M Shell unit :=
  let target := match args with [] => $"/" | a :: _ => a end in
  p <- gets prev ;;
  o <- (if str_eqb target $"-" then
          match p with
          | [] => _ <- puts ($"cd: no previous directory" ++ NL) ;; ret None
          | _ => ret (Some (if utf8_valid p then InPrev p else InBuf [SLASH]))
          end
        else r <- resolve target ;; ret (Some (InBuf r))) ;;
  match o with
  | None => ret tt
  | Some resolved =>
      r <- fs_scalar Op_IsDir (pack_path (resolved_str resolved)) ;;
      match r with
      | Some code =>
          if code =? ApiError_code A_Ok then c <- gets cwd ;; set_dirs (take MAX_PATH (resolved_after c resolved)) c
          else say $"cd" r [(A_NotFound, about target $"no such directory"); (A_NotDirectory, about target $"not a directory"); (A_InvalidPath, about target $"invalid path")]
      | None => say $"cd" r []
      end
  end.

Definition cmd_ls (args : list str) : M Shell unit :=
  path <- resolve (match args with [] => $"." | a :: _ => a end) ;;
  r <- fs_buf_op Op_LsBuf path ;;
  say $"ls" r [(A_NotFound, about path $"not found"); (A_NotDirectory, about path $"not a directory"); (A_InvalidPath, about path $"invalid path")].

Definition cmd_cat (args : list str) : M Shell unit :=
  match args with
  | [] => puts ($"usage: cat <path>" ++ NL)
  | a :: _ =>
      path <- resolve a ;;
      r <- fs_buf_op Op_CatBuf path ;;
      say $"cat" r [(A_NotFound, about path $"not found"); (A_IsDirectory, about path $"is a directory"); (A_InvalidPath, about path $"invalid path")]
  end.

(** The text that [write] sends: what follows the path in the line, if the path is there. *)
Definition write_content (path full_line second : str) : str :=
  match find_str path full_line with
  | Some pos => let rest := drop (pos + length path) full_line in trim_start_loop (length rest) rest
  | None => second
  end.
Definition cmd_write (args : list str) (full_line : str) : M Shell unit :=
  match args with
  | a :: b :: _ =>
      path <- resolve a ;;
      let content := write_content path full_line b in
      let path_packed := pack_path path in
      let c_args := pack_words 2 content in
      r <- fs_scalar Op_WriteShort [nth 0 path_packed 0; nth 1 path_packed 0; nth 0 c_args 0; nth 1 c_args 0] ;;
      say $"write" r [(A_ReadOnly, about path $"read-only"); (A_IsDirectory, about path $"is a directory"); (A_NoSpace, $": no space left"); (A_InvalidPath, about path $"invalid path")]
  | _ => puts ($"usage: write <path> <text>" ++ NL)
  end.

Definition cmd_mkdir (args : list str) : M Shell unit :=
  match args with
  | [] => puts ($"usage: mkdir <path>" ++ NL)
  | a :: _ =>
      path <- resolve a ;;
      r <- fs_scalar Op_Mkdir (pack_path path) ;;
      say $"mkdir" r [(A_AlreadyExists, about a $"already exists"); (A_ReadOnly, about a $"read-only"); (A_NoSpace, $": no space left"); (A_InvalidPath, about a $"invalid path")]
  end.

Definition cmd_rm (args : list str) : M Shell unit :=
  match args with
  | [] => puts ($"usage: rm <path>" ++ NL)
  | a :: _ =>
      path <- resolve a ;;
      r <- fs_scalar Op_Remove (pack_path path) ;;
      say $"rm" r [(A_NotFound, about a $"not found"); (A_NotEmpty, about a $"directory not empty"); (A_ReadOnly, about a $"read-only"); (A_InvalidPath, about a $"invalid path")]
  end.

Definition cmd_blkinfo : M Shell unit :=
  r <- fs_stats ;;
  match r with
  | Some (_, _, _, disk_size, disk_files) =>
      if disk_size =? 0 then puts ($"No block device" ++ NL)
      else puts ($"Block device: " ++ dec disk_size ++ $" bytes" ++ NL ++ $"Mounted at: /disk/ (read-only, tar)" ++ NL ++ $"Files: " ++ dec disk_files ++ NL)
  | None => puts ($"blkinfo: fs service not available" ++ NL)
  end.

Definition byte_at (n k : Z) : Z := Z.land (Z.shiftr n k) 255.
Definition cmd_ifconfig : M Shell unit :=
  r <- rsyscall NetGetInfo ;;
  match r with
  | Ok (R_Scalar5 ip_u32 mac_hi mac_lo _ _) =>
      let ip := [byte_at ip_u32 24; byte_at ip_u32 16; byte_at ip_u32 8; byte_at ip_u32 0] in
      let mac := [byte_at mac_hi 24; byte_at mac_hi 16; byte_at mac_hi 8; byte_at mac_hi 0; byte_at mac_lo 24; byte_at mac_lo 16] in
      let m i := hex2 (nth i mac 0) in
      let d i := dec (nth i ip 0) in
      _ <- puts ($"eth0: MAC=" ++ m 0%nat ++ $":" ++ m 1%nat ++ $":" ++ m 2%nat ++ $":" ++ m 3%nat ++ $":" ++ m 4%nat ++ $":" ++ m 5%nat ++ NL) ;;
      if bool_decide (ip = [0; 0; 0; 0]) then puts ($"      inet: (no address — DHCP pending)" ++ NL)
      else puts ($"      inet: " ++ d 0%nat ++ $"." ++ d 1%nat ++ $"." ++ d 2%nat ++ $"." ++ d 3%nat ++ NL)
  | _ => puts ($"ifconfig: NetGetInfo syscall failed" ++ NL)
  end.

Definition cmd_mem : M Shell unit :=
  r <- fs_stats ;;
  match r with
  | Some (used, total, bytes, disk_size, _) =>
      puts ($"RAM filesystem:" ++ NL ++ $"  Files: " ++ dec used ++ $"/" ++ dec total ++ NL ++ $"  Used:  " ++ dec bytes ++ $" bytes" ++ NL ++
            (if 0 <? disk_size then $"Disk: " ++ dec disk_size ++ $" bytes" ++ NL else []))
  | None => puts ($"mem: fs service not available" ++ NL)
  end.

(** *** Programs *)

Definition get_procman_cid : M Shell Z :=
  s <- gets id ;;
  if negb (procman_cid s =? 0) then ret (procman_cid s)
  else
    r <- rsyscall (Connect PROCMAN_SID) ;;
    match r with Ok (R_ConnectionID cid) => _ <- set_cids (fs_cid s) cid ;; ret cid | _ => ret 0 end.

(** Without the display and the keyboard, since the program needs both. *)
Definition blocking_call (call : SysCall) : M Shell (res XResult Error) :=
  p <- fb_cursor ;;
  _ <- release_display p.1 p.2 ;;
  _ <- release_input_focus ;;
  result <- rsyscall call ;;
  q <- acquire_display ;;
  _ <- acquire_input_focus ;;
  _ <- set_cursor q ;;
  ret result.

Definition exit_report (cmd : str) (code : Z) : M Shell unit :=
  if code =? USIZE_MAX then puts ($"bsh: " ++ cmd ++ $": not found" ++ NL)
  else if negb (code =? 0) then puts ($"[exited: " ++ dec code ++ $"]" ++ NL) else ret tt.

Definition try_spawn_via_procman (cmd : str) (args : list str) : M Shell unit :=
  cid <- get_procman_cid ;;
  if cid =? 0 then puts ($"bsh: " ++ cmd ++ $": procman not available" ++ NL)
  else
    match args with
    | [] =>
        let name_packed := pack_name cmd in
        result <- blocking_call (SendMessage cid (BlockingScalar
                    (mkScalarMessage (ProcManOp_code SpawnAndWait) (nth 0 name_packed 0) (nth 1 name_packed 0) (nth 2 name_packed 0) (nth 3 name_packed 0)))) ;;
        match result with
        | Ok (R_Scalar1 exit_code) | Ok (R_Scalar2 exit_code _) => exit_report cmd exit_code
        | Err _ => puts ($"bsh: " ++ cmd ++ $": spawn failed" ++ NL)
        | Ok _ => puts ($"bsh: " ++ cmd ++ $": unexpected result" ++ NL)
        end
    | _ =>
        page <- rsyscall (MapMemory None None PAGE_SIZE MF_W) ;;
        match page with
        | Ok (R_MemoryRange buf) =>
            h0 <- gets events ;;
            let '(page_slice, valid_len) := format_cmdline (fresh h0 buf) cmd args in
            let valid := if (valid_len =? 0)%nat then None else Some (Z.of_nat valid_len) in
            let call := SendMessage cid (MutableBorrow (mkMemoryMessage (ProcManOp_code SpawnAndWaitWithArgs) buf None valid)) in
            h <- gets events ;;
            result <- blocking_call call ;;
            _ <- match result with
                 | Ok (R_MemoryReturned _ _) | Ok R_Ok => exit_report cmd (from_le_bytes (take 8 (lent h call page_slice)))
                 | Err _ => puts ($"bsh: " ++ cmd ++ $": spawn failed" ++ NL)
                 | Ok _ => puts ($"bsh: " ++ cmd ++ $": unexpected result" ++ NL)
                 end ;;
            _ <- rsyscall (UnmapMemory buf) ;; ret tt
        | _ => puts ($"bsh: " ++ cmd ++ $": out of memory" ++ NL)
        end
    end.

(** ** Lines and characters *)

Definition run_command (cmd : str) (args : list str) (line_str : str) : M Shell unit :=
  if str_eqb cmd $"help" then cmd_help
  else if str_eqb cmd $"echo" then cmd_echo args
  else if str_eqb cmd $"info" then cmd_info
  else if str_eqb cmd $"pid" then cmd_pid
  else if str_eqb cmd $"pwd" then cmd_pwd
  else if str_eqb cmd $"cd" then cmd_cd args
  else if str_eqb cmd $"programs" then cmd_programs
  else if str_eqb cmd $"reboot" then cmd_reboot
  else if str_eqb cmd $"ls" then cmd_ls args
  else if str_eqb cmd $"cat" then cmd_cat args
  else if str_eqb cmd $"write" then cmd_write args line_str
  else if str_eqb cmd $"rm" then cmd_rm args
  else if str_eqb cmd $"mkdir" then cmd_mkdir args
  else if str_eqb cmd $"blkinfo" then cmd_blkinfo
  else if str_eqb cmd $"mem" then cmd_mem
  else if str_eqb cmd $"ifconfig" then cmd_ifconfig
  else try_spawn_via_procman cmd args.

Definition execute_line (l : str) : M Shell unit :=
  if utf8_valid l then
    let line_str := trim l in
    match take MAX_ARGS (split_ascii_whitespace line_str) with
    | [] => ret tt
    | cmd :: cmd_args => run_command cmd cmd_args line_str
    end
  else ret tt.

Definition process_char (c : Z) : M Shell unit :=
  s <- gets id ;;
  if (c =? 127) || (c =? 8) then
    match line s with
    | [] => ret tt
    | l => _ <- set_line (take (length l - 1) l) ;; _ <- putc 8 ;; _ <- putc 32 ;; putc 8
    end
  else if (c =? 13) || (c =? 10) then
    if (c =? 10) && last_was_cr s then set_last_cr false
    else
      _ <- set_last_cr (c =? 13) ;;
      _ <- putc 10 ;;
      let l := line s in
      _ <- set_line [] ;;
      _ <- match l with [] => ret tt | _ => execute_line l end ;;
      prompt
  else if c =? 3 then _ <- puts ($"^C" ++ NL) ;; _ <- set_line [] ;; prompt
  else if c =? 4 then
    match line s with
    | [] => _ <- puts (NL ++ $"(type 'reboot' to restart)" ++ NL) ;; prompt
    | _ => ret tt
    end
  else if (32 <=? c) && (c <=? 126) then
    if (length (line s) <? MAX_LINE - 1)%nat then _ <- set_line (line s ++ [c]) ;; putc c else ret tt
  else ret tt.

(** [Drop for Envelope] *)
Definition drop_envelope (env : MessageEnvelope) : M Shell unit :=
  match env_body env with
  | Borrow x | MutableBorrow x => _ <- rsyscall (ReturnMemory (env_sender env) (mm_buf x) (mm_offset x) (mm_valid x)) ;; ret tt
  | Move x => r <- rsyscall (UnmapMemory (mm_buf x)) ;; match r with Ok R_Ok => ret tt | _ => panic end
  | _ => ret tt
  end.

(** The body of the loop of [_start], for the message [env] *)
Definition on_message (env : MessageEnvelope) : M Shell unit :=
  _ <- match env_body env with
       | Scalar scalar =>
           if sm_id scalar =? 0 then
             p <- acquire_display ;;
             _ <- set_cursor p ;;
             _ <- process_char (sm_arg1 scalar mod 256) ;;
             q <- fb_cursor ;;
             release_display q.1 q.2
           else ret tt
       | _ => ret tt
       end ;;
  drop_envelope env.

Definition CONSOLE_SID : SID := mkSID 1129270867 1330398464 0 0.
Definition shell_new : Shell := mkShell [] [] false [SLASH] [] 0 0 0 0.
(** [_start] up to the loop *)
Definition start : M Shell unit :=
  p <- acquire_display ;;
  _ <- acquire_input_focus ;;
  _ <- set_cursor p ;;
  _ <- puts (concat ((fun l => l ++ NL) <$>
    [[];
     $"  ____            _    ___  ____";
     $" | __ )  ___  ___| |_ / _ \/ ___|";
     $" |  _ \ / _ \/ _ \ __| | | \___ \";
     $" | |_) |  __/  __/ |_| |_| |___) |";
     $" |____/ \___|\___|\__|\___/|____/";
     [];
     $"BeetOS v0.1.0 — Type 'help' for commands.";
     $"Shell running as userspace process (EL0)";
     []])) ;;
  _ <- prompt ;;
  q <- fb_cursor ;;
  _ <- release_display q.1 q.2 ;;
  _ <- rsyscall (CreateServerWithAddress CONSOLE_SID (mkMsgRange 0 0)) ;;
  ret tt.
End Commands.

(** ** Paths *)

Definition slash_free (c : str) : Prop := SLASH ∉ c.
Definition proper (c : str) : Prop := c <> [] /\ c <> $"." /\ c <> $".." /\ slash_free c.
(** The reference: a stack of components. *)
Fixpoint clean (comps : list str) (stack : list str) : list str :=
  match comps with
  | [] => rev stack
  | c :: comps =>
      if str_eqb c [] || str_eqb c $"." then clean comps stack
      else if str_eqb c $".." then clean comps (tail stack)
      else clean comps (c :: stack)
  end.
Definition slashed (l : list str) : str := concat ((fun c => SLASH :: c) <$> l).
Definition render (l : list str) : str := match l with [] => [SLASH] | _ => slashed l end.
Definition split_path (p : str) : list str := split_by (fun b => b =? SLASH) p.

Lemma split_path_slash_free p : Forall slash_free (split_path p).
Proof.
  induction p as [| c p IH]; [constructor; [apply not_elem_of_nil | constructor] |]. unfold split_path in *. cbn. destruct (Z.eqb_spec c SLASH) as [-> | Hc].
  - constructor; [apply not_elem_of_nil | exact IH].
  - destruct (split_by _ p) as [| w ws]; [constructor; [| constructor]; apply not_elem_of_cons; split; [congruence | apply not_elem_of_nil] |].
    inversion_clear IH as [| ? ? Hw Hws]. constructor; [apply not_elem_of_cons; split; [congruence | exact Hw] | exact Hws].
Qed.

Lemma split_path_length p : length (slashed (split_path p)) = S (length p).
Proof.
  induction p as [| c p IH]; [reflexivity |]. unfold split_path in *. cbn [split_by]. destruct (c =? SLASH).
  - cbn. f_equal. exact IH.
  - destruct (split_by _ p) as [| w ws]; cbn in IH |- *; lia.
Qed.

Lemma slashed_app l1 l2 : slashed (l1 ++ l2) = slashed l1 ++ slashed l2.
Proof. unfold slashed. rewrite fmap_app. apply concat_app. Qed.
Lemma slashed_snoc l c : slashed (l ++ [c]) = slashed l ++ SLASH :: c.
Proof. rewrite slashed_app. unfold slashed at 2. cbn. rewrite app_nil_r. reflexivity. Qed.
Lemma slashed_nil l : slashed l = [] -> l = [].
Proof. destruct l; [reflexivity | discriminate]. Qed.
Lemma render_snoc l c : render (l ++ [c]) = slashed l ++ SLASH :: c.
Proof. unfold render. destruct (l ++ [c]) eqn:E; [destruct l; discriminate |]. rewrite <- E. apply slashed_snoc. Qed.

Lemma take_snoc (l : str) x : take (length (l ++ [x]) - 1) (l ++ [x]) = l.
Proof. rewrite length_app. cbn. replace (length l + 1 - 1)%nat with (length l) by lia. apply take_app_length. Qed.

Lemma back_to_slash_run w : slash_free w -> forall p fuel, (length w <= fuel)%nat -> back_to_slash fuel (p ++ SLASH :: w) = p ++ [SLASH].
Proof.
  induction w as [| x w IH] using rev_ind; intros Hw p fuel Hf.
  - destruct fuel; cbn [back_to_slash]; [reflexivity |]. rewrite length_app. cbn [length]. replace (length p + 1 - 1)%nat with (length p) by lia.
    rewrite (nth_middle p [] SLASH 0). rewrite Z.eqb_refl, andb_false_r. reflexivity.
  - apply not_elem_of_app in Hw as [Hw Hx]. rewrite length_app in Hf. cbn in Hf. destruct fuel as [| fuel]; [lia |]. cbn [back_to_slash].
    replace (p ++ SLASH :: w ++ [x]) with ((p ++ SLASH :: w) ++ [x]) by (rewrite <- app_assoc; reflexivity). rewrite take_snoc.
    assert (L : length ((p ++ SLASH :: w) ++ [x]) = S (length (p ++ SLASH :: w))) by (rewrite length_app; cbn; lia). rewrite L.
    replace (S (length (p ++ SLASH :: w)) - 1)%nat with (length (p ++ SLASH :: w)) by lia. rewrite (nth_middle (p ++ SLASH :: w) [] x 0).
    rewrite (proj2 (Nat.ltb_lt _ _)) by (rewrite length_app; cbn; lia).
    rewrite (proj2 (Z.eqb_neq _ _)) by (intros ->; apply Hx; left). apply IH; [exact Hw | lia].
Qed.

Lemma pop_render l c : c <> [] -> slash_free c -> pop_component (render (l ++ [c])) = render l.
Proof.
  intros Hc Hs. rewrite render_snoc. unfold pop_component. destruct c as [| x c _] using rev_ind; [congruence |]. apply not_elem_of_app in Hs as [Hs _].
  replace (slashed l ++ SLASH :: c ++ [x]) with ((slashed l ++ SLASH :: c) ++ [x]) by (rewrite <- app_assoc; reflexivity).
  rewrite (proj2 (Nat.ltb_lt _ _)) by (rewrite !length_app; cbn; lia). rewrite take_snoc.
  rewrite back_to_slash_run by (assumption || (rewrite length_app; cbn; lia)). rewrite take_snoc, length_app. cbn [length].
  destruct l as [| a l]; [reflexivity |]. rewrite (proj2 (Nat.ltb_lt _ _)) by (cbn; lia). reflexivity.
Qed.

Lemma push_render l c : (length (slashed l) + S (length c) <= MAX_PATH)%nat -> Forall (fun c => c <> []) l -> push_component c (render l) = Some (render (l ++ [c])).
Proof.
  intros Hl Hne. rewrite render_snoc. unfold push_component. destruct l as [| a l].
  - cbn [render length Nat.ltb Nat.leb]. cbn. do 2 f_equal. apply take_ge. cbn in Hl. unfold MAX_PATH in Hl. lia.
  - cbn [render]. inversion_clear Hne as [| ? ? Ha _]. assert (La : (1 < length (slashed (a :: l)))%nat) by (cbn; destruct a; [congruence | cbn; lia]).
    rewrite (proj2 (Nat.ltb_lt _ _) La), (proj2 (Nat.ltb_lt _ MAX_PATH)) by lia. rewrite take_ge by (rewrite length_app; cbn [length]; lia).
    rewrite <- app_assoc. reflexivity.
Qed.

Lemma normalize_clean comps : forall stack, Forall slash_free comps -> Forall proper stack ->
  (length (slashed (rev stack)) + length (slashed comps) <= MAX_PATH)%nat ->
  normalize comps (render (rev stack)) = Some (render (clean comps stack)) /\ Forall proper (clean comps stack) /\ (length (slashed (clean comps stack)) <= MAX_PATH)%nat.
Proof.
  induction comps as [| c comps IH]; intros stack Hc Hs Hl; cbn [normalize clean].
  - split; [reflexivity |]. split; [apply Forall_rev, Hs |]. cbn in Hl. lia.
  - inversion_clear Hc as [| ? ? Hc0 Hc1]. change (slashed (c :: comps)) with (SLASH :: c ++ slashed comps) in Hl. cbn [length] in Hl. rewrite length_app in Hl.
    destruct (str_eqb c [] || str_eqb c $".") eqn:E1; [apply IH; [exact Hc1 | exact Hs | lia] |]. destruct (str_eqb c $"..") eqn:E2.
    + destruct stack as [| t stack]; [cbn [rev tail]; change (pop_component (render [])) with (render []); apply (IH []); [exact Hc1 | constructor | cbn in *; lia] |].
      inversion_clear Hs as [| ? ? Ht Hs']. cbn [rev tail] in *. rewrite pop_render by apply Ht. rewrite slashed_snoc, length_app in Hl. apply IH; [exact Hc1 | exact Hs' | lia].
    + apply orb_false_iff in E1 as [E0 E1]. unfold str_eqb in E0, E1, E2. apply bool_decide_eq_false in E0, E1, E2.
      rewrite push_render; [| cbn [length]; lia | apply Forall_rev; eapply Forall_impl; [exact Hs | intros ? H; apply H]].
      change (rev stack ++ [c]) with (rev (c :: stack)). apply IH; [exact Hc1 | constructor; [split; auto | exact Hs] |].
      cbn [rev]. rewrite slashed_snoc, length_app. cbn [length]. lia.
Qed.

Lemma starts_slash p : starts_with [SLASH] p = true <-> exists q, p = SLASH :: q.
Proof. rewrite starts_with_spec. reflexivity. Qed.

Lemma joined_slash c input : starts_with [SLASH] c = true -> exists q, joined c input = SLASH :: q /\ (length (SLASH :: q) <= MAX_PATH)%nat.
Proof.
  intros [q ->]%starts_slash. assert (H : exists q', joined (SLASH :: q) input = SLASH :: q').
  { unfold joined. destruct (starts_with [SLASH] input) eqn:E; [apply starts_slash in E as [r ->] |]; eexists; reflexivity. }
  destruct H as [q' E]. exists q'. split; [exact E |]. rewrite <- E. unfold joined. rewrite length_take. lia.
Qed.

Lemma clean_proper l : forall stack, Forall proper l -> clean l stack = rev stack ++ l.
Proof.
  induction l as [| c l IH]; intros stack H; cbn [clean]; [rewrite app_nil_r; reflexivity |]. inversion_clear H as [| ? ? (H1 & H2 & H3 & _) Hl]. unfold str_eqb.
  rewrite !bool_decide_eq_false_2 by assumption. cbn [orb]. rewrite IH by exact Hl. cbn [rev]. rewrite <- app_assoc. reflexivity.
Qed.

Lemma split_slash_free w p : slash_free w -> split_path (w ++ SLASH :: p) = w :: split_path p.
Proof.
  intros Hw. induction w as [| c w IH]; [reflexivity |]. apply not_elem_of_cons in Hw as [Hc Hw]. unfold split_path in *. cbn [app split_by].
  rewrite (proj2 (Z.eqb_neq c SLASH)) by congruence. rewrite IH by exact Hw. reflexivity.
Qed.
Lemma split_single w : slash_free w -> split_path w = [w].
Proof.
  intros Hw. induction w as [| c w IH]; [reflexivity |]. apply not_elem_of_cons in Hw as [Hc Hw]. unfold split_path in *. cbn [split_by].
  rewrite (proj2 (Z.eqb_neq c SLASH)) by congruence. rewrite IH by exact Hw. reflexivity.
Qed.
Lemma split_slashed w l : slash_free w -> Forall slash_free l -> split_path (w ++ slashed l) = w :: l.
Proof.
  intros Hw Hl. revert w Hw. induction Hl as [| c l Hc Hl IH]; intros w Hw; [rewrite app_nil_r; apply split_single, Hw |].
  change (slashed (c :: l)) with (SLASH :: c ++ slashed l). rewrite split_slash_free by exact Hw. rewrite IH by exact Hc. reflexivity.
Qed.

(** What a path typed in the directory [c] stands for. *)
Definition path_of (c input : str) : list str := clean (split_path (joined c input)) [].

Lemma resolve_run c input : starts_with [SLASH] c = true ->
  resolve_path c input = Some (str_or_slash (render (path_of c input))) /\ Forall proper (path_of c input) /\ (length (slashed (path_of c input)) <= MAX_PATH)%nat.
Proof.
  intros Hc. destruct (joined_slash c input Hc) as (q & E & L). unfold resolve_path, path_of. fold (split_path (joined c input)). rewrite E.
  change (split_path (SLASH :: q)) with ([] :: split_path q). cbn [normalize clean]. change (str_eqb [] [] || str_eqb [] $".") with true. cbn iota.
  pose proof (split_path_length q) as Lq. cbn [length] in L.
  destruct (normalize_clean (split_path q) [] (split_path_slash_free q) (Forall_nil_2 _)) as (N & P & B); [cbn [rev slashed fmap list_fmap concat length] in *; lia |].
  change (render (rev [])) with [SLASH] in N. rewrite N. auto.
Qed.

Lemma render_slash l : starts_with [SLASH] (render l) = true.
Proof. apply starts_slash. destruct l as [| a l]; eexists; reflexivity. Qed.

Lemma resolve_again c l : Forall proper l -> (length (slashed l) <= MAX_PATH)%nat -> path_of c (render l) = l.
Proof.
  intros Hl HL. unfold path_of, joined. rewrite render_slash. cbn [app]. rewrite take_ge by (destruct l; [cbn; unfold MAX_PATH; lia | exact HL]).
  assert (Hsf : Forall slash_free l) by (eapply Forall_impl; [exact Hl |]; intros ? H; apply H).
  destruct l as [| a l]; [reflexivity |]. cbn [render]. pose proof (split_slashed [] (a :: l) ltac:(apply not_elem_of_nil) Hsf) as Es. rewrite app_nil_l in Es. rewrite Es.
  change (clean ([] :: a :: l) []) with (clean (a :: l) []). rewrite clean_proper by exact Hl. reflexivity.
Qed.

(** C37. [resolve_path] never leaves its buffers and computes the canonical path.  In a working
    directory that is an absolute path, every input -- however long and whatever it
    contains -- is resolved without a panic, to the path of the components left when
    the components of the directory and the input, cut at 256 bytes, go on a stack
    on which an empty component and a dot do nothing and two dots remove the last
    component; none of the components left is one of these or contains a slash; and resolving the
    result again, in any absolute directory, gives the same components. *)
Theorem resolve_path_exact (c c' input : str) : starts_with [SLASH] c = true -> starts_with [SLASH] c' = true ->
  resolve_path c input = Some (str_or_slash (render (path_of c input))) /\
  Forall proper (path_of c input) /\
  resolve_path c' (render (path_of c input)) = Some (str_or_slash (render (path_of c input))).
Proof.
  intros Hc Hc'. destruct (resolve_run c input Hc) as (E & P & L). split; [exact E |]. split; [exact P |].
  destruct (resolve_run c' (render (path_of c input)) Hc') as (E' & _). rewrite resolve_again in E' by assumption. exact E'.
Qed.
Lemma resolve_path_exact_witness :
  resolve_path $"/home/user" $".././/bin/ls/" = Some $"/home/bin/ls" /\ resolve_path $"/" $"/home/bin/ls" = Some $"/home/bin/ls".
Proof.
  destruct (resolve_path_exact $"/home/user" $"/" $".././/bin/ls/" eq_refl eq_refl) as (E & _ & E').
  split; [rewrite E; vm_compute; reflexivity |]. exact E'.
Defined.

(** ** The display and the keyboard *)

(** Who owns the display and the keyboard, from what the shell asked for and what
    the kernel answered: a call that the kernel refuses changes nothing.  The shell
    draws only while it owns the display, it asks for what it does not own and gives
    back what it owns, and starts a program only when it owns neither. *)
Definition spawns (c : SysCall) : bool :=
  match c with
  | SendMessage _ (BlockingScalar m) => sm_id m =? ProcManOp_code SpawnAndWait
  | SendMessage _ (MutableBorrow m) => mm_id m =? ProcManOp_code SpawnAndWaitWithArgs
  | _ => false
  end.
Definition is_ok {X E} (r : res X E) : bool := match r with Ok _ => true | Err _ => false end.

Section Owners.
Context (kernel : list Event -> SysCall -> res XResult Error).

Definition owner_step (h : list Event) (o : bool * bool) (e : Event) : option (bool * bool) :=
  let '(display, keys) := o in
  match e with
  | Put _ => if display then Some o else None
  | Call c =>
      let granted := is_ok (kernel h c) in
      match c with
      | AcquireDisplay => if display then None else Some (granted, keys)
      | ReleaseDisplay _ _ => if display then Some (negb granted, keys) else None
      | AcquireInputFocus _ _ _ _ => if keys then None else Some (display, granted)
      | ReleaseInputFocus => if keys then Some (display, negb granted) else None
      | _ => if spawns c && (display || keys) then None else Some o
      end
  end.
(** [h] is what happened before [l]. *)
Fixpoint owners (h : list Event) (o : bool * bool) (l : list Event) : option (bool * bool) :=
  match l with [] => Some o | e :: l => match owner_step h o e with Some o' => owners (h ++ [e]) o' l | None => None end end.

Lemma owners_app h o l1 l2 : owners h o (l1 ++ l2) = match owners h o l1 with Some o' => owners (h ++ l1) o' l2 | None => None end.
Proof.
  revert h o. induction l1 as [| e l1 IH]; intros h o; [rewrite app_nil_r; reflexivity |]. cbn. destruct (owner_step h o e); [| reflexivity].
  rewrite IH, <- app_assoc. reflexivity.
Qed.
End Owners.

Definition shell_ok (s : Shell) : Prop :=
  starts_with [SLASH] (cwd s) = true /\ (prev s = [] \/ starts_with [SLASH] (prev s) = true) /\ (length (line s) < MAX_LINE)%nat.

(** The calls for the display and the keyboard. *)
Definition sharing (c : SysCall) : bool :=
  match c with AcquireDisplay | ReleaseDisplay _ _ | AcquireInputFocus _ _ _ _ | ReleaseInputFocus => true | _ => false end.

Section Ownership.
Context (kernel : list Event -> SysCall -> res XResult Error).
Hypothesis granted : forall h c, sharing c = true -> is_ok (kernel h c) = true.

(** [m] returns, leads from the owners [o] to the owners [o'], and keeps [shell_ok]. *)
Definition goes {A} (o : bool * bool) (m : M Shell A) (o' : bool * bool) : Prop :=
  forall s, shell_ok s -> exists a s' l, m s = Some (a, s') /\ events s' = events s ++ l /\ owners kernel (events s) o l = Some o' /\ shell_ok s'.

Lemma goes_ret {A} o (a : A) : goes o (ret a) o.
Proof. intros s Hs. exists a, s, []. rewrite app_nil_r. auto. Qed.
Lemma goes_bind {A B} o1 o2 o3 (m : M Shell A) (k : A -> M Shell B) : goes o1 m o2 -> (forall a, goes o2 (k a) o3) -> goes o1 (x <- m ;; k x) o3.
Proof.
  intros Hm Hk s Hs. destruct (Hm s Hs) as (a & s1 & l1 & E1 & V1 & O1 & W1). destruct (Hk a s1 W1) as (b & s2 & l2 & E2 & V2 & O2 & W2).
  exists b, s2, (l1 ++ l2). rewrite (bind_run _ _ _ _ _ E1), owners_app, O1, <- V1. split; [exact E2 |]. split; [rewrite V2, V1, app_assoc; reflexivity | auto].
Qed.
(** The same with a condition [Q] on the result. *)
Definition goes_with {A} (o : bool * bool) (m : M Shell A) (Q : A -> Prop) (o' : bool * bool) : Prop :=
  forall s, shell_ok s -> exists a s' l, m s = Some (a, s') /\ events s' = events s ++ l /\ owners kernel (events s) o l = Some o' /\ shell_ok s' /\ Q a.
Lemma goes_bind_with {A B} o1 o2 o3 Q (m : M Shell A) (k : A -> M Shell B) : goes_with o1 m Q o2 -> (forall a, Q a -> goes o2 (k a) o3) -> goes o1 (x <- m ;; k x) o3.
Proof.
  intros Hm Hk s Hs. destruct (Hm s Hs) as (a & s1 & l1 & E1 & V1 & O1 & W1 & Ha). destruct (Hk a Ha s1 W1) as (b & s2 & l2 & E2 & V2 & O2 & W2).
  exists b, s2, (l1 ++ l2). rewrite (bind_run _ _ _ _ _ E1), owners_app, O1, <- V1. split; [exact E2 |]. split; [rewrite V2, V1, app_assoc; reflexivity | auto].
Qed.
Lemma goes_gets {A B} o1 o2 (f : Shell -> A) (k : A -> M Shell B) : (forall s, shell_ok s -> goes o1 (k (f s)) o2) -> goes o1 (x <- gets f ;; k x) o2.
Proof. intros H s Hs. unfold bind, gets. apply (H s Hs s Hs). Qed.
Lemma goes_if {A} o1 o2 (b : bool) (m1 m2 : M Shell A) : goes o1 m1 o2 -> goes o1 m2 o2 -> goes o1 (if b then m1 else m2) o2.
Proof. destruct b; auto. Qed.
Lemma goes_modify o f : (forall s, shell_ok s -> shell_ok (f s) /\ events (f s) = events s) -> goes o (modify f) o.
Proof. intros H s Hs. destruct (H s Hs) as [H1 H2]. exists tt, (f s), []. rewrite app_nil_r. auto. Qed.
Lemma goes_emit o e o' : (forall h, owner_step kernel h o e = Some o') -> goes o (emit e) o'.
Proof. intros E s Hs. exists tt. eexists _, [e]. split; [reflexivity |]. split; [reflexivity |]. cbn [owners]. rewrite E. auto. Qed.
Lemma goes_set_cur o r c : goes o (set_cur r c) o.
Proof. apply goes_modify. auto. Qed.
Lemma goes_set_cids o f p : goes o (set_cids f p) o.
Proof. apply goes_modify. auto. Qed.
Lemma goes_set_last_cr o b : goes o (set_last_cr b) o.
Proof. apply goes_modify. auto. Qed.
Lemma goes_set_line o l : (length l < MAX_LINE)%nat -> goes o (set_line l) o.
Proof. intros H. apply goes_modify. intros s (H1 & H2 & _). repeat split; auto. Qed.
Lemma goes_expect {A} o (x : option A) : x <> None -> goes o (expect x) o.
Proof. intros H. destruct x; [apply goes_ret | congruence]. Qed.

Lemma goes_putc k c : goes (true, k) (putc c) (true, k).
Proof. eapply goes_bind; [apply goes_emit; reflexivity |]. intros _. apply goes_gets. intros s _. apply goes_set_cur. Qed.
Lemma goes_puts k l : goes (true, k) (puts l) (true, k).
Proof. induction l as [| c l IH]; [apply goes_ret |]. eapply goes_bind; [apply goes_putc |]. intros _. exact IH. Qed.

Create HintDb goes.
#[local] Hint Resolve goes_ret goes_set_cur goes_set_cids goes_set_last_cr goes_putc goes_puts : goes.

(** One step through the text of a command. *)
Ltac go_step :=
  lazymatch goal with
  | |- goes _ (bind (gets _) _) _ => apply goes_gets; intros ? ?; cbv beta
  | |- goes _ (bind _ _) _ => eapply goes_bind; [| intros ?; cbv beta]
  | |- goes _ (if _ then _ else _) _ => apply goes_if
  | |- goes _ (match ?x with _ => _ end) _ => destruct x
  | |- goes _ _ _ => solve [eauto 2 with goes]
  end.
Ltac go := repeat go_step.

Context (lent : list Event -> SysCall -> list Z -> list Z) (fresh : list Event -> MemoryRange -> list Z) (programs : nat).
Hypothesis programs_end : forall h i a b c d e, Z.of_nat programs <= i -> kernel h (GetBinaryName i) <> Ok (R_Scalar5 a b c d e).
Hypothesis map_page : forall h r, kernel h (MapMemory None None PAGE_SIZE MF_W) = Ok (R_MemoryRange r) -> range_size r = PAGE_SIZE.
Hypothesis lent_length : forall h c l, length (lent h c l) = length l.

Lemma goes_rsyscall o c o' : (forall h, owner_step kernel h o (Call c) = Some o') -> goes o (rsyscall kernel c) o'.
Proof. intros E. apply goes_gets. intros s _. eapply goes_bind; [apply goes_emit, E |]. intros _. apply goes_ret. Qed.

(** A call that neither needs nor changes the ownership. *)
Lemma goes_neutral c : (forall h o, owner_step kernel h o (Call c) = Some o) -> forall o, goes o (rsyscall kernel c) o.
Proof. intros H o. apply goes_rsyscall. intros h. apply H. Qed.
Ltac neutral := apply goes_neutral; intros ? [? ?]; reflexivity.

(** A call for the display or the keyboard, which is granted. *)
Lemma goes_shared o c o' : sharing c = true -> (forall h, is_ok (kernel h c) = true -> owner_step kernel h o (Call c) = Some o') -> goes o (rsyscall kernel c) o'.
Proof. intros Hc H. apply goes_rsyscall. intros h. apply H, granted, Hc. Qed.
Ltac shared := apply goes_shared; [reflexivity | intros h Hg; cbn [owner_step]; rewrite Hg; reflexivity].

Lemma goes_resolve o input : goes o (resolve input) o.
Proof. apply goes_gets. intros s (Hc & _). apply goes_expect. destruct (resolve_run (cwd s) input Hc) as (-> & _). discriminate. Qed.
Lemma slash_or_slash p : starts_with [SLASH] p = true -> starts_with [SLASH] (str_or_slash p) = true.
Proof. intros H. unfold str_or_slash. destruct (utf8_valid p); [exact H | reflexivity]. Qed.
Lemma goes_resolve_with o input : goes_with o (resolve input) (fun p => starts_with [SLASH] p = true) o.
Proof.
  intros s Hs. pose proof Hs as (Hc & _). destruct (resolve_run (cwd s) input Hc) as (E & _). eexists _, s, []. unfold resolve, bind, gets. rewrite E.
  split; [reflexivity |]. split; [rewrite app_nil_r; reflexivity |]. split; [reflexivity |]. split; [exact Hs |]. apply slash_or_slash, render_slash.
Qed.

Lemma goes_get_fs_cid o : goes o (get_fs_cid kernel) o.
Proof. unfold get_fs_cid. go. neutral. Qed.
Lemma goes_get_procman_cid o : goes o (get_procman_cid kernel) o.
Proof. unfold get_procman_cid. go. neutral. Qed.
#[local] Hint Resolve goes_get_fs_cid goes_get_procman_cid goes_resolve : goes.

Lemma goes_fs_call o op args : FsOp_code op <> 0 -> goes o (fs_call kernel op args) o.
Proof.
  intros Hop. unfold fs_call. go. apply goes_neutral. intros h [d k]. cbn. rewrite (proj2 (Z.eqb_neq _ _) Hop). reflexivity.
Qed.
Lemma goes_fs_scalar o op args : FsOp_code op <> 0 -> goes o (fs_scalar kernel op args) o.
Proof. intros Hop. unfold fs_scalar. eapply goes_bind; [apply goes_fs_call, Hop |]. intros r. apply goes_ret. Qed.
Lemma goes_fs_stats o : goes o (fs_stats kernel) o.
Proof. unfold fs_stats. eapply goes_bind; [apply goes_fs_call; discriminate |]. intros r. apply goes_ret. Qed.

Lemma goes_say_code k cmd code cases : goes (true, k) (say_code cmd code cases) (true, k).
Proof. induction cases as [| [e t] cases IH]; cbn [say_code]; [apply goes_puts |]. apply goes_if; [apply goes_puts | exact IH]. Qed.
Lemma goes_say k cmd r cases : goes (true, k) (say cmd r cases) (true, k).
Proof. unfold say. go. apply goes_say_code. Qed.
#[local] Hint Resolve goes_fs_stats goes_say : goes.

Lemma goes_answer {A} o1 o2 o3 c (k : res XResult Error -> M Shell A) : (forall h, owner_step kernel h o1 (Call c) = Some o2) ->
  (forall h, goes o2 (k (kernel h c)) o3) -> goes o1 (r <- rsyscall kernel c ;; k r) o3.
Proof.
  intros Hc Hk s Hs. unfold rsyscall. rewrite bind_assoc. unfold bind at 1, gets. rewrite bind_assoc.
  eapply (goes_bind o1 o2 o3 (emit (Call c)) (fun _ => x <- ret (kernel (events s) c) ;; k x)); [apply goes_emit, Hc | | exact Hs].
  intros _ s1 Hs1. rewrite bind_ret_l. apply Hk, Hs1.
Qed.

Lemma goes_fs_buf_op k op path : (op = Op_LsBuf \/ op = Op_CatBuf) -> goes (true, k) (fs_buf_op kernel lent op path) (true, k).
Proof.
  intros Hop. unfold fs_buf_op. eapply goes_bind; [apply goes_get_fs_cid |]. intros cid. apply goes_if; [apply goes_ret |].
  eapply goes_answer; [reflexivity |]. intros h.
  destruct (kernel h (MapMemory None None PAGE_SIZE MF_W)) as [x |] eqn:Em; [| apply goes_ret]. destruct x; try apply goes_ret. pose proof (map_page _ _ Em) as Hr.
  set (n := (length path `min` MAX_PATH_LEN)%nat). assert (Hn : (n <= 32)%nat) by (unfold n, MAX_PATH_LEN; lia).
  assert (Hz : Z.to_nat (range_size r) = Z.to_nat PAGE_SIZE) by congruence. assert (Hp : (32 < Z.to_nat PAGE_SIZE)%nat) by (unfold PAGE_SIZE; lia).
  cbv zeta. rewrite Hz. eapply goes_bind; [unfold assertb; rewrite (proj2 (Nat.leb_le _ _)) by lia; apply goes_ret |]. intros _.
  apply goes_gets. intros s _. eapply goes_bind; [apply goes_neutral; intros ? [? ?]; destruct Hop as [-> | ->]; reflexivity |]. intros res.
  eapply goes_bind; [| intros st; eapply goes_bind; [neutral | intros _; apply goes_ret]].
  set (page := lent _ _ _). assert (Hpage : page !! BUF_STATUS_OFFSET <> None).
  { apply not_eq_None_Some, lookup_lt_is_Some_2. unfold page. rewrite lent_length, length_copy_at; rewrite length_replicate; unfold BUF_STATUS_OFFSET, MAX_PATH_LEN; [lia |].
    rewrite length_take. lia. }
  assert (Hstat : goes (true, k) (code <- expect (page !! BUF_STATUS_OFFSET) ;;
                      _ <- (if code =? ApiError_code A_Ok then let text := until_nul (drop BUF_TEXT_OFFSET page) in if utf8_valid text then puts text else ret tt else ret tt) ;;
                      ret (Some code)) (true, k)).
  { eapply goes_bind; [apply goes_expect, Hpage |]. intros code. eapply goes_bind; [| intros _; apply goes_ret]. cbv zeta. go. }
  destruct res as [[] |]; first [exact Hstat | apply goes_ret].
Qed.

Lemma resolved_after_slash c p : starts_with [SLASH] c = true -> starts_with [SLASH] (resolved_str p) = true ->
  starts_with [SLASH] (take MAX_PATH (resolved_after c p)) = true.
Proof. intros [q ->]%starts_slash [q' E]%starts_slash. destruct p as [p | p]; cbn in E; subst p; reflexivity. Qed.
Lemma goes_set_dirs o p : starts_with [SLASH] (resolved_str p) = true -> goes o (c <- gets cwd ;; set_dirs (take MAX_PATH (resolved_after c p)) c) o.
Proof.
  intros Hp. apply goes_gets. intros s (Hc & _ & _). apply goes_modify. intros s1 (_ & _ & Hl). split; [| reflexivity].
  split; [apply resolved_after_slash; assumption |]. split; [right; exact Hc | exact Hl].
Qed.

Lemma goes_cmd_cd k args : goes (true, k) (cmd_cd kernel args) (true, k).
Proof.
  unfold cmd_cd. set (target := match args with [] => _ | _ => _ end). apply goes_gets. intros s (_ & Hp & _).
  eapply (goes_bind_with (true, k) (true, k) (true, k) (fun o => match o with Some p => starts_with [SLASH] (resolved_str p) = true | None => True end)).
  - destruct (str_eqb target $"-").
    + destruct (prev s) as [| x p].
      * intros s1 Hs1. destruct (goes_puts k ($"cd: no previous directory" ++ NL) s1 Hs1) as (a & s2 & l & E & V & O & W). exists None, s2, l. rewrite (bind_run _ _ _ _ _ E). auto 6.
      * intros s1 Hs1. eexists _, s1, []. split; [reflexivity |]. rewrite app_nil_r. destruct Hp as [Hp | Hp]; [discriminate |]. assert (starts_with [SLASH] (resolved_str (if utf8_valid (x :: p) then InPrev (x :: p) else InBuf [SLASH])) = true) by (destruct (utf8_valid (x :: p)); [exact Hp | reflexivity]). auto 6.
    + intros s1 Hs1. destruct (goes_resolve_with (true, k) target s1 Hs1) as (a & s2 & l & E & V & O & W & Q). exists (Some (InBuf a)), s2, l. rewrite (bind_run _ _ _ _ _ E). auto 6.
  - intros [p |] Hps; [| apply goes_ret]. eapply goes_bind; [apply goes_fs_scalar; discriminate |]. intros [code |]; [| apply goes_say].
    apply goes_if; [apply goes_set_dirs, Hps | apply goes_say].
Qed.

Lemma goes_programs_loop k fuel : forall i, i + Z.of_nat fuel = Z.of_nat programs -> goes (true, k) (programs_loop kernel fuel i) (true, k).
Proof.
  induction fuel as [| fuel IH]; intros i Hi; cbn [programs_loop]; (eapply goes_answer; [reflexivity |]); intros h;
    destruct (kernel h (GetBinaryName i)) as [[] |] eqn:Ek; try apply goes_ret.
  - exfalso. eapply programs_end; [| exact Ek]. lia.
  - cbv zeta. eapply goes_bind; [apply goes_if; [apply goes_ret |]; go |]. intros _. apply IH. lia.
Qed.
Lemma goes_echo_rest k args : goes (true, k) (echo_rest args) (true, k).
Proof. induction args as [| a args IH]; cbn [echo_rest]; go. Qed.

Lemma goes_blocking_call c : spawns c = true -> goes (true, true) (blocking_call kernel c) (true, true).
Proof.
  intros Hc. unfold blocking_call, fb_cursor, release_display, release_input_focus, acquire_display, acquire_input_focus, set_cursor.
  apply goes_gets. intros s _. eapply (goes_bind _ (false, true)); [eapply goes_bind; [shared | intros; apply goes_ret] |]. intros _.
  eapply (goes_bind _ (false, false)); [eapply goes_bind; [shared | intros; apply goes_ret] |]. intros _.
  eapply (goes_bind _ (false, false)); [apply goes_rsyscall; intros h; destruct c; try discriminate Hc; cbn [owner_step]; rewrite Hc; reflexivity |]. intros r.
  eapply (goes_bind _ (true, false)); [eapply goes_bind; [shared | intros; apply goes_ret] |]. intros q.
  eapply (goes_bind _ (true, true)); [eapply goes_bind; [shared | intros; apply goes_ret] |]. intros _. go.
Qed.
Lemma goes_exit_report k cmd code : goes (true, k) (exit_report cmd code) (true, k).
Proof. unfold exit_report. go. Qed.
#[local] Hint Resolve goes_cmd_cd goes_exit_report goes_echo_rest : goes.

Lemma goes_spawn cmd args : goes (true, true) (try_spawn_via_procman kernel lent fresh cmd args) (true, true).
Proof.
  unfold try_spawn_via_procman. eapply goes_bind; [apply goes_get_procman_cid |]. intros cid. apply goes_if; [apply goes_puts |]. destruct args as [| a args].
  - cbv zeta. eapply goes_bind; [apply goes_blocking_call; reflexivity |]. intros r. go.
  - eapply goes_answer; [reflexivity |]. intros h. destruct (kernel h _) as [[] |]; try apply goes_puts. apply goes_gets. intros s _.
    destruct (format_cmdline _ _ _) as [page n]. cbv zeta. apply goes_gets. intros s1 _. eapply goes_bind; [apply goes_blocking_call; reflexivity |]. intros x.
    eapply goes_bind; [destruct x as [[] |]; go |]. intros _. eapply goes_bind; [neutral |]. intros _. apply goes_ret.
Qed.

Lemma goes_cmd_echo k args : goes (true, k) (cmd_echo args) (true, k).
Proof. unfold cmd_echo. go. Qed.
Lemma goes_cmd_pid k : goes (true, k) (cmd_pid kernel) (true, k).
Proof. unfold cmd_pid. eapply goes_bind; [neutral |]. intros [[] |]; apply goes_puts. Qed.
Lemma goes_cmd_pwd k : goes (true, k) cmd_pwd (true, k).
Proof. unfold cmd_pwd. go. Qed.
Lemma goes_cmd_reboot k : goes (true, k) (cmd_reboot kernel) (true, k).
Proof. unfold cmd_reboot. eapply goes_bind; [neutral |]. intros _. apply goes_ret. Qed.
Lemma goes_buf_report k cmd op input cases : op = Op_LsBuf \/ op = Op_CatBuf ->
  goes (true, k) (path <- resolve input ;; r <- fs_buf_op kernel lent op path ;; say cmd r (cases path)) (true, k).
Proof. intros Hop. eapply goes_bind; [apply goes_resolve |]. intros path. eapply goes_bind; [apply goes_fs_buf_op, Hop |]. intros r. apply goes_say. Qed.
Lemma goes_scalar_report k cmd op input args cases : FsOp_code op <> 0 ->
  goes (true, k) (path <- resolve input ;; r <- fs_scalar kernel op (args path) ;; say cmd r (cases path)) (true, k).
Proof. intros Hop. eapply goes_bind; [apply goes_resolve |]. intros path. eapply goes_bind; [apply goes_fs_scalar, Hop |]. intros r. apply goes_say. Qed.
Lemma goes_cmd_write k args l : goes (true, k) (cmd_write kernel args l) (true, k).
Proof.
  unfold cmd_write. destruct args as [| a [| b args]]; try apply goes_puts. eapply goes_bind; [apply goes_resolve |]. intros path. cbv zeta.
  eapply goes_bind; [apply goes_fs_scalar; discriminate |]. intros r. apply goes_say.
Qed.
Lemma goes_cmd_ls k args : goes (true, k) (cmd_ls kernel lent args) (true, k).
Proof. apply (goes_buf_report k _ Op_LsBuf _ (fun path => _)). auto. Qed.
Lemma goes_cmd_cat k args : goes (true, k) (cmd_cat kernel lent args) (true, k).
Proof. destruct args as [| a args]; [apply goes_puts |]. apply (goes_buf_report k _ Op_CatBuf _ (fun path => _)). auto. Qed.
Lemma goes_cmd_mkdir k args : goes (true, k) (cmd_mkdir kernel args) (true, k).
Proof. destruct args as [| a args]; [apply goes_puts |]. apply (goes_scalar_report k _ Op_Mkdir _ pack_path (fun path => _)). discriminate. Qed.
Lemma goes_cmd_rm k args : goes (true, k) (cmd_rm kernel args) (true, k).
Proof. destruct args as [| a args]; [apply goes_puts |]. apply (goes_scalar_report k _ Op_Remove _ pack_path (fun path => _)). discriminate. Qed.
Lemma goes_cmd_blkinfo k : goes (true, k) (cmd_blkinfo kernel) (true, k).
Proof. unfold cmd_blkinfo. eapply goes_bind; [apply goes_fs_stats |]. intros [[[[[u t] b] ds] df] |]; [apply goes_if |]; apply goes_puts. Qed.
Lemma goes_cmd_mem k : goes (true, k) (cmd_mem kernel) (true, k).
Proof. unfold cmd_mem. eapply goes_bind; [apply goes_fs_stats |]. intros [[[[[u t] b] ds] df] |]; apply goes_puts. Qed.
Lemma goes_cmd_ifconfig k : goes (true, k) (cmd_ifconfig kernel) (true, k).
Proof.
  unfold cmd_ifconfig. eapply goes_bind; [neutral |]. intros [[] |]; lazymatch goal with |- goes _ (puts _) _ => apply goes_puts | _ => idtac end. cbv zeta. eapply goes_bind; [apply goes_puts |]. intros _.
  apply goes_if; apply goes_puts.
Qed.

Lemma goes_run_command cmd args l : goes (true, true) (run_command kernel lent fresh programs cmd args l) (true, true).
Proof.
  unfold run_command. apply goes_if; [apply goes_puts |]. apply goes_if; [apply goes_cmd_echo |]. apply goes_if; [apply goes_puts |]. apply goes_if; [apply goes_cmd_pid |].
  apply goes_if; [apply goes_cmd_pwd |]. apply goes_if; [apply goes_cmd_cd |]. apply goes_if; [apply goes_programs_loop; lia |]. apply goes_if; [apply goes_cmd_reboot |].
  apply goes_if; [apply goes_cmd_ls |]. apply goes_if; [apply goes_cmd_cat |]. apply goes_if; [apply goes_cmd_write |]. apply goes_if; [apply goes_cmd_rm |].
  apply goes_if; [apply goes_cmd_mkdir |]. apply goes_if; [apply goes_cmd_blkinfo |]. apply goes_if; [apply goes_cmd_mem |]. apply goes_if; [apply goes_cmd_ifconfig |].
  apply goes_spawn.
Qed.
Lemma goes_execute_line l : goes (true, true) (execute_line kernel lent fresh programs l) (true, true).
Proof. unfold execute_line. apply goes_if; [| apply goes_ret]. cbv zeta. destruct (take _ _); [apply goes_ret | apply goes_run_command]. Qed.
Lemma goes_prompt k : goes (true, k) prompt (true, k).
Proof. apply goes_puts. Qed.
#[local] Hint Resolve goes_prompt goes_execute_line : goes.

Lemma goes_process_char c : goes (true, true) (process_char kernel lent fresh programs c) (true, true).
Proof.
  unfold process_char. apply goes_gets. intros s (_ & _ & Hl). change (id s) with s. apply goes_if; [| apply goes_if; [| apply goes_if; [| apply goes_if; [| apply goes_if]]]].
  - destruct (line s) as [| x l]; [apply goes_ret |]. eapply goes_bind; [apply goes_set_line; rewrite length_take; lia |]. intros _. go.
  - apply goes_if; [apply goes_set_last_cr |]. eapply goes_bind; [apply goes_set_last_cr |]. intros _. eapply goes_bind; [apply goes_putc |]. intros _. cbv zeta.
    eapply goes_bind; [apply goes_set_line; unfold MAX_LINE; cbn; lia |]. intros _. eapply goes_bind; [| intros _; apply goes_prompt].
    destruct (line s); [apply goes_ret | apply goes_execute_line].
  - eapply goes_bind; [apply goes_puts |]. intros _. eapply goes_bind; [apply goes_set_line; unfold MAX_LINE; cbn; lia |]. intros _. apply goes_prompt.
  - destruct (line s); [| apply goes_ret]. eapply goes_bind; [apply goes_puts |]. intros _. apply goes_prompt.
  - destruct (Nat.ltb_spec (length (line s)) (MAX_LINE - 1)); [| apply goes_ret]. eapply goes_bind; [| intros _; apply goes_putc].
    apply goes_set_line. rewrite length_app. cbn. lia.
  - apply goes_ret.
Qed.

Lemma goes_char x m : sm_id m = 0 -> goes (false, true) (on_message kernel lent fresh programs (mkEnvelope x (Scalar m))) (false, true).
Proof.
  intros Hm. unfold on_message, drop_envelope. cbn [env_body]. rewrite Hm, Z.eqb_refl. eapply goes_bind; [| intros _; apply goes_ret].
  unfold acquire_display, set_cursor, release_display, fb_cursor. eapply goes_bind; [eapply goes_bind; [shared | intros; apply goes_ret] |]. intros p.
  eapply goes_bind; [apply goes_set_cur |]. intros _. eapply goes_bind; [apply goes_process_char |]. intros _. apply goes_gets. intros s _.
  eapply goes_bind; [shared |]. intros _. apply goes_ret.
Qed.

Lemma goes_start : goes (false, false) (start kernel) (false, true).
Proof.
  unfold start, acquire_display, acquire_input_focus, set_cursor, release_display, fb_cursor.
  eapply goes_bind; [eapply goes_bind; [shared | intros; apply goes_ret] |]. intros p.
  eapply goes_bind; [eapply goes_bind; [shared | intros; apply goes_ret] |]. intros _.
  eapply goes_bind; [apply goes_set_cur |]. intros _. eapply goes_bind; [apply goes_puts |]. intros _. eapply goes_bind; [apply goes_prompt |]. intros _.
  apply goes_gets. intros s _. eapply goes_bind; [eapply goes_bind; [shared | intros; apply goes_ret] |]. intros _.
  eapply goes_bind; [apply goes_rsyscall; reflexivity |]. intros _. apply goes_ret.
Qed.

Lemma goes_message env : (forall m, env_body env <> Move m) -> goes (false, true) (on_message kernel lent fresh programs env) (false, true).
Proof.
  intros Hm. destruct env as [x body]. destruct body as [m | m | m | m | m]; [| | destruct (Hm m eq_refl) | |].
  4: eapply goes_bind; [apply goes_ret |]; intros _; apply goes_ret.
  3: { destruct (Z.eq_dec (sm_id m) 0) as [E | E]; [apply goes_char, E |]. unfold on_message. cbn [env_body]. rewrite (proj2 (Z.eqb_neq _ _) E). eapply goes_bind; [apply goes_ret |]. intros _. apply goes_ret. }
  all: eapply goes_bind; [apply goes_ret |]; intros _; eapply goes_bind; [neutral |]; intros _; apply goes_ret.
Qed.
Lemma goes_messages l : Forall (fun env => forall m, env_body env <> Move m) l -> goes (false, true) (for_each l (on_message kernel lent fresh programs)) (false, true).
Proof. induction 1 as [| env l He Hl IH]; [apply goes_ret |]. cbn [for_each]. eapply goes_bind; [apply goes_message, He |]. intros _. exact IH. Qed.
End Ownership.

(** C36. The shell shares the display and the keyboard as it should, if the kernel
    grants what it asks for.  Let the kernel grant every call for the display and the
    keyboard, list finitely many programs and map pages of the size asked for.  From
    [_start] on, whatever messages come (moved memory aside), whatever is typed and
    whatever else the kernel, the file system and the process manager answer, the
    shell does not panic, and in the sequence of its calls and outputs it never draws
    a character without owning the display, never asks for the display or the keyboard
    when it owns it nor gives back what it does not own, starts a program only after
    it gave back both, and waits for the next message with the keyboard and without
    the display.  The working directory stays an absolute path and the line shorter
    than its buffer.  (When the display is refused the shell draws all the same:
    [refused_display_drawn].) *)
Theorem shell_shares_display (kernel : list Event -> SysCall -> res XResult Error)
    (lent : list Event -> SysCall -> list Z -> list Z) (fresh : list Event -> MemoryRange -> list Z) (programs : nat) (l : list MessageEnvelope) :
  (forall h c, sharing c = true -> is_ok (kernel h c) = true) ->
  (forall h i a b c d e, Z.of_nat programs <= i -> kernel h (GetBinaryName i) <> Ok (R_Scalar5 a b c d e)) ->
  (forall h r, kernel h (MapMemory None None PAGE_SIZE MF_W) = Ok (R_MemoryRange r) -> range_size r = PAGE_SIZE) ->
  (forall h c l, length (lent h c l) = length l) ->
  Forall (fun env => forall m, env_body env <> Move m) l ->
  exists s, (_ <- start kernel ;; for_each l (on_message kernel lent fresh programs)) shell_new = Some (tt, s) /\
    owners kernel [] (false, false) (events s) = Some (false, true) /\ shell_ok s.
Proof.
  intros H0 H1 H2 H3 Hl. assert (Hok : shell_ok shell_new) by (split; [reflexivity |]; split; [auto | unfold MAX_LINE; cbn; lia]).
  assert (G : goes kernel (false, false) (_ <- start kernel ;; for_each l (on_message kernel lent fresh programs)) (false, true)).
  { eapply goes_bind; [apply goes_start, H0 |]. intros _. apply goes_messages; assumption. }
  destruct (G shell_new Hok) as ([] & s & l' & E & V & O & W). exists s. split; [exact E |]. cbn [events shell_new app] in V. rewrite V. auto.
Qed.

Definition key (c : Z) : MessageEnvelope := mkEnvelope 1 (Scalar (mkScalarMessage 0 c 0 0 0)).
Definition answers (h : list Event) (c : SysCall) : res XResult Error :=
  match c with
  | Connect _ => Ok (R_ConnectionID 2)
  | MapMemory _ _ _ _ => Err OutOfMemory
  | SendMessage _ _ => Ok (R_Scalar1 3)
  | AcquireDisplay => Ok (R_Scalar2 4 5)
  | _ => Ok R_Ok
  end.
Lemma shell_shares_display_witness : exists s,
  (_ <- start answers ;; for_each (key <$> $"run" ++ [13]) (on_message answers (fun _ _ l => l) (fun _ _ => []) 0)) shell_new = Some (tt, s) /\
  owners answers [] (false, false) (events s) = Some (false, true) /\ List.existsb (fun e => match e with Call c => spawns c | _ => false end) (events s) = true.
Proof.
  destruct (shell_shares_display answers (fun _ _ l => l) (fun _ _ => []) 0 (key <$> $"run" ++ [13])) as (s & E & O & _); [intros h [] Hc; try discriminate Hc; reflexivity | discriminate | discriminate | reflexivity | |].
  - apply Forall_fmap, Forall_forall. intros c _ m. discriminate.
  - exists s. split; [exact E |]. split; [exact O |]. vm_compute in E. injection E as <-. reflexivity.
Defined.

(** A kernel that refuses the display: the greeting of the shell is drawn all the
    same, by a process that does not own the display. *)
Definition refuses (h : list Event) (c : SysCall) : res XResult Error := match c with AcquireDisplay => Err AccessDenied | _ => answers h c end.
Example refused_display_drawn : exists s, start refuses shell_new = Some (tt, s) /\ owners refuses [] (false, false) (events s) = None /\
  owners refuses [] (false, false) (take 2 (events s)) = Some (false, true) /\ exists c, events s !! 2%nat = Some (Put c).
Proof. eexists. split; [vm_compute; reflexivity |]. split; [reflexivity |]. split; [reflexivity |]. eexists. reflexivity. Qed.

(** [cd -] from a path that is not shorter than the previous one stays there, or
    ends in the beginning of its name: [resolved] lies in the buffer that the working
    directory is saved to first. *)
Definition all_dirs (h : list Event) (c : SysCall) : res XResult Error := match c with SendMessage _ _ => Ok (R_Scalar1 0) | _ => answers h c end.
Definition typing (l : str) : M Shell unit := for_each (key <$> l ++ [13]) (on_message all_dirs (fun _ _ l => l) (fun _ _ => []) 0).
Example cd_back_stays :
  (exists s, (_ <- typing $"cd /tmp" ;; _ <- typing $"cd /bin" ;; typing $"cd -") shell_new = Some (tt, s) /\ cwd s = $"/bin" /\ prev s = $"/bin") /\
  (exists s, (_ <- typing $"cd /tmp" ;; _ <- typing $"cd /usr/lib" ;; typing $"cd -") shell_new = Some (tt, s) /\ cwd s = $"/usr") /\
  (exists s, (_ <- typing $"cd /usr/lib" ;; _ <- typing $"cd /tmp" ;; typing $"cd -") shell_new = Some (tt, s) /\ cwd s = $"/tmp/lib").
Proof. split; [| split]; (eexists; split; [vm_compute; reflexivity |]); [split; reflexivity | reflexivity | reflexivity]. Qed.

(** ** The line editor *)

Definition is_key (c : Z) : bool := (c =? 127) || (c =? 8) || ((32 <=? c) && (c <=? 126)).
(** What stands in the line after the keys, at most 255 characters. *)
Definition typed (l : str) (keys : list Z) : str :=
  foldl (fun l c => if (c =? 127) || (c =? 8) then take (length l - 1) l else if (length l <? MAX_LINE - 1)%nat then l ++ [c] else l) l keys.
(** The states that differ in the echo only. *)
Definition same_but_echo (s s' : Shell) : Prop :=
  cwd s' = cwd s /\ prev s' = prev s /\ fs_cid s' = fs_cid s /\ procman_cid s' = procman_cid s /\
  exists l, events s' = events s ++ (Put <$> l).

Lemma same_but_echo_refl s : same_but_echo s s.
Proof. unfold same_but_echo. repeat (split; [reflexivity |]). exists []. rewrite app_nil_r. reflexivity. Qed.
Lemma same_but_echo_trans s1 s2 s3 : same_but_echo s1 s2 -> same_but_echo s2 s3 -> same_but_echo s1 s3.
Proof.
  intros (A1 & A2 & A3 & A4 & l & A5) (B1 & B2 & B3 & B4 & l' & B5). unfold same_but_echo. repeat (split; [congruence |]).
  exists (l ++ l'). rewrite B5, A5, fmap_app, app_assoc. reflexivity.
Qed.
Lemma putc_echo c s : exists s', putc c s = Some (tt, s') /\ same_but_echo s s' /\ line s' = line s /\ last_was_cr s' = last_was_cr s.
Proof.
  exists (mkShell (events s ++ [Put c]) (line s) (last_was_cr s) (cwd s) (prev s) (fs_cid s) (procman_cid s)
    (cursor_putc c (cur_row s, cur_col s)).1 (cursor_putc c (cur_row s, cur_col s)).2).
  split; [reflexivity |]. split; [| split; reflexivity]. unfold same_but_echo. repeat (split; [reflexivity |]). exists [c]. reflexivity.
Qed.
Lemma set_line_echo l s : exists s', set_line l s = Some (tt, s') /\ same_but_echo s s' /\ line s' = l /\ last_was_cr s' = last_was_cr s.
Proof. eexists. split; [reflexivity |]. split; [| split; reflexivity]. exact (same_but_echo_refl s). Qed.
Lemma set_last_cr_echo b s : exists s', set_last_cr b s = Some (tt, s') /\ same_but_echo s s' /\ line s' = line s /\ last_was_cr s' = b.
Proof. eexists. split; [reflexivity |]. split; [| split; reflexivity]. exact (same_but_echo_refl s). Qed.

Section Editor.
Context (kernel : list Event -> SysCall -> res XResult Error).
Context (lent : list Event -> SysCall -> list Z -> list Z) (fresh : list Event -> MemoryRange -> list Z) (programs : nat).

Lemma key_run c s : is_key c = true -> exists s', process_char kernel lent fresh programs c s = Some (tt, s') /\ same_but_echo s s' /\
  line s' = typed (line s) [c] /\ last_was_cr s' = last_was_cr s.
Proof.
  intros Hc. unfold process_char, typed. cbn [foldl]. unfold bind at 1, gets, id. unfold is_key in Hc. destruct ((c =? 127) || (c =? 8)) eqn:Er.
  - destruct (line s) as [| x l] eqn:El; [exists s; split; [reflexivity |]; split; [apply same_but_echo_refl |]; auto |].
    destruct (set_line_echo (take (length (x :: l) - 1) (x :: l)) s) as (s1 & E1 & K1 & L1 & R1). rewrite (bind_run _ _ _ _ _ E1).
    destruct (putc_echo 8 s1) as (s2 & E2 & K2 & L2 & R2). rewrite (bind_run _ _ _ _ _ E2).
    destruct (putc_echo 32 s2) as (s3 & E3 & K3 & L3 & R3). rewrite (bind_run _ _ _ _ _ E3). destruct (putc_echo 8 s3) as (s4 & E4 & K4 & L4 & R4).
    exists s4. split; [exact E4 |]. split; [eauto using same_but_echo_trans |]. split; congruence.
  - cbn [orb] in Hc. apply andb_prop in Hc as [Hlo Hhi]. rewrite Hlo, Hhi. apply Z.leb_le in Hlo, Hhi. cbn [andb].
    rewrite (proj2 (Z.eqb_neq c 13)), (proj2 (Z.eqb_neq c 10)), (proj2 (Z.eqb_neq c 3)), (proj2 (Z.eqb_neq c 4)) by lia. cbn [orb].
    destruct (length (line s) <? MAX_LINE - 1)%nat; [| exists s; split; [reflexivity |]; split; [apply same_but_echo_refl |]; auto].
    destruct (set_line_echo (line s ++ [c]) s) as (s1 & E1 & K1 & L1 & R1). rewrite (bind_run _ _ _ _ _ E1). destruct (putc_echo c s1) as (s2 & E2 & K2 & L2 & R2).
    exists s2. split; [exact E2 |]. split; [eauto using same_but_echo_trans |]. split; congruence.
Qed.

Lemma keys_run keys : forall s, forallb is_key keys = true -> exists s', for_each keys (process_char kernel lent fresh programs) s = Some (tt, s') /\ same_but_echo s s' /\
  line s' = typed (line s) keys /\ last_was_cr s' = last_was_cr s.
Proof.
  induction keys as [| c keys IH]; intros s H; [exists s; split; [reflexivity |]; split; [apply same_but_echo_refl |]; auto |].
  cbn in H. apply andb_prop in H as [Hc Hk]. destruct (key_run c s Hc) as (s1 & E1 & K1 & L1 & R1). destruct (IH s1 Hk) as (s2 & E2 & K2 & L2 & R2).
  exists s2. cbn [for_each]. rewrite (bind_run _ _ _ _ _ E1). split; [exact E2 |]. split; [eauto using same_but_echo_trans |].
  split; [rewrite L2, L1; reflexivity | congruence].
Qed.

Lemma enter_run c s : (c = 13 \/ c = 10 /\ last_was_cr s = false) -> exists s1, same_but_echo s s1 /\ line s1 = [] /\ last_was_cr s1 = (c =? 13) /\
  process_char kernel lent fresh programs c s = (_ <- match line s with [] => ret tt | _ => execute_line kernel lent fresh programs (line s) end ;; prompt) s1.
Proof.
  intros Hc. destruct (set_last_cr_echo (c =? 13) s) as (s1 & E1 & K1 & L1 & R1). destruct (putc_echo 10 s1) as (s2 & E2 & K2 & L2 & R2).
  destruct (set_line_echo [] s2) as (s3 & E3 & K3 & L3 & R3). exists s3. split; [eauto using same_but_echo_trans |]. split; [exact L3 |]. split; [congruence |].
  unfold process_char. unfold bind at 1, gets, id.
  replace ((c =? 127) || (c =? 8)) with false by (destruct Hc as [-> | [-> _]]; reflexivity). replace ((c =? 13) || (c =? 10)) with true by (destruct Hc as [-> | [-> _]]; reflexivity).
  replace ((c =? 10) && last_was_cr s) with false by (destruct Hc as [-> | [-> ->]]; reflexivity). rewrite (bind_run _ _ _ _ _ E1), (bind_run _ _ _ _ _ E2), (bind_run _ _ _ _ _ E3). reflexivity.
Qed.
End Editor.

(** What is executed is what was typed.  Let the keys be printable characters and rubouts, on
    an empty line.  Then Enter, as a carriage return (or as a line feed, unless the
    last Enter was a carriage return), leads to executing exactly the characters that
    the rubouts left, of at most 255, with the line empty again, after nothing but the
    echo of the keys; an empty line only gives a new prompt.  After an Enter by
    carriage return a line feed is ignored, also when keys were typed in between:
    their line is kept and not executed. *)
Theorem line_editor_exact (kernel : list Event -> SysCall -> res XResult Error)
    (lent : list Event -> SysCall -> list Z -> list Z) (fresh : list Event -> MemoryRange -> list Z) (programs : nat) (keys : list Z) (enter : Z) (s : Shell) :
  forallb is_key keys = true -> line s = [] -> enter = 13 \/ enter = 10 ->
  let process := process_char kernel lent fresh programs in
  let l := typed [] keys in
  exists s1, same_but_echo s s1 /\
    if (enter =? 10) && last_was_cr s then for_each (keys ++ [enter]) process s = Some (tt, s1) /\ line s1 = l /\ last_was_cr s1 = false
    else line s1 = [] /\ last_was_cr s1 = (enter =? 13) /\
      for_each (keys ++ [enter]) process s = (_ <- match l with [] => ret tt | _ => execute_line kernel lent fresh programs l end ;; prompt) s1.
Proof.
  intros Hk Hl He process l. destruct (keys_run kernel lent fresh programs keys s Hk) as (s1 & E1 & K1 & L1 & R1). rewrite Hl in L1. fold l in L1.
  assert (Hrun : for_each (keys ++ [enter]) process s = process enter s1).
  { rewrite for_each_app, (bind_run _ _ _ _ _ E1). cbn [for_each]. unfold bind. destruct (process enter s1) as [[[] ?] |]; reflexivity. }
  rewrite Hrun. destruct ((enter =? 10) && last_was_cr s) eqn:E.
  - apply andb_prop in E as [Ee Er]. apply Z.eqb_eq in Ee as ->. destruct (set_last_cr_echo false s1) as (s2 & E2 & K2 & L2 & R2). exists s2.
    split; [eauto using same_but_echo_trans |]. split; [| split; congruence]. unfold process, process_char. unfold bind at 1, gets, id. cbn [Z.eqb Pos.eqb orb andb].
    rewrite R1, Er. exact E2.
  - destruct (enter_run kernel lent fresh programs enter s1) as (s2 & K2 & L2 & R2 & E2).
    { destruct He as [-> | ->]; [auto | right]. cbn in E. split; [reflexivity | congruence]. }
    exists s2. split; [eauto using same_but_echo_trans |]. split; [exact L2 |]. split; [exact R2 |]. unfold process. rewrite E2, L1. reflexivity.
Qed.
Lemma line_editor_exact_witness : exists s s',
  for_each ($"pid" ++ [127; 127; 119; 100; 8; 13]) (process_char answers (fun _ _ l => l) (fun _ _ => []) 0) shell_new = Some (tt, s) /\
  typed [] ($"pid" ++ [127; 127; 119; 100; 8]) = $"pw" /\ last_was_cr s = true /\
  for_each ($"pwd" ++ [10]) (process_char answers (fun _ _ l => l) (fun _ _ => []) 0) s = Some (tt, s') /\ line s' = $"pwd".
Proof.
  destruct (line_editor_exact answers (fun _ _ l => l) (fun _ _ => []) 0 ($"pid" ++ [127; 127; 119; 100; 8]) 13 shell_new eq_refl eq_refl ltac:(auto)) as (s1 & _ & _ & _ & E).
  destruct (for_each ($"pid" ++ [127; 127; 119; 100; 8; 13]) (process_char answers (fun _ _ l => l) (fun _ _ => []) 0) shell_new) as [[[] s] |] eqn:Es; [| vm_compute in Es; discriminate].
  exists s. assert (Hs : line s = [] /\ last_was_cr s = true) by (vm_compute in Es; injection Es as <-; split; reflexivity). destruct Hs as [H1 H2].
  destruct (line_editor_exact answers (fun _ _ l => l) (fun _ _ => []) 0 $"pwd" 10 s eq_refl H1 ltac:(auto)) as (s' & _ & Hs'). rewrite H2 in Hs'. destruct Hs' as (E' & L' & _).
  exists s'. split; [reflexivity |]. split; [reflexivity |]. split; [exact H2 |]. split; [exact E' | exact L'].
Defined.

(** The text of [write] is what follows the resolved path in the line, so that with a relative
    path, which is not in the line in that form, only its first word is written. *)
Example write_relative : write_content $"/a.txt" $"write /a.txt hello world" $"hello" = $"hello world" /\
  write_content $"/a.txt" $"write a.txt hello world" $"hello" = $"hello".
Proof. split; reflexivity. Qed.

(** The cursor of the shell is that of its console. *)
Lemma cursor_agrees glyphs c t s : (forall i, length (glyphs i) = 8%nat) -> shows glyphs t s -> cols s = FB_COLS -> rows s = FB_ROWS ->
  exists s', FbConsole.putc glyphs c s = Some (tt, s') /\ cursor s' = cursor_putc c (cursor s).
Proof.
  intros Hg H Hc Hr. pose proof H as (_ & H1 & _ & H3 & H4 & H5 & H6 & _).
  destruct (putc_shows glyphs Hg c t s H) as (s' & E & (_ & _ & _ & C1 & C2 & _) & _). exists s'. split; [exact E |]. unfold cursor. rewrite <- C1, <- C2.
  unfold text_putc, cursor_putc, new_line, advance. rewrite Hc. cbn [set_cell cells t_row t_col]. rewrite length_alter, H1, H3, H4, Hr.
  destruct (c =? 10); [destruct (Nat.ltb_spec (S (row s)) FB_ROWS), (Nat.leb_spec FB_ROWS (row s + 1)); try lia; cbn; f_equal; lia |].
  destruct (c =? 13); [reflexivity |]. destruct ((c =? 8) || (c =? 127)).
  - destruct (col s) as [| k] eqn:Ek; cbn; [rewrite H4, H3; reflexivity | rewrite Nat.sub_0_r; reflexivity].
  - destruct (Nat.ltb_spec (S (col s)) FB_COLS), (Nat.leb_spec FB_COLS (col s + 1)); try lia; [cbn; f_equal; lia |].
    destruct (Nat.ltb_spec (S (row s)) FB_ROWS), (Nat.leb_spec FB_ROWS (row s + 1)); try lia; cbn; f_equal; lia.
Qed.
