(* ===== verification/LogServer.v ===== *)
(** * The log server

    Models [os/log/src/main.rs]: the server that receives standard output and panic
    messages of programs and shows them on the serial line and on the screen, with
    the console of [FbConsole].

    The kernel is a parameter: its answer to a system call, the bytes of a buffer
    that comes with a message, and the pixels that the previous owner of the display
    leaves, may depend on all that happened before.  The serial line is taken to
    accept every character. *)

From S2P Require Import Prelude Abi SysCall Bytes FbConsole.
From Stdlib Require Import ZArith Lia Bool.
From stdpp Require Import list.
Open Scope Z_scope.

Inductive Event := Sys (c : SysCall) | Tx (c : Z).
Record Log := mkLog { events : list Event; uart_base : Z; console : option FbConsole }.

Definition FB_WIDTH : nat := 1280.
Definition FB_HEIGHT : nat := 800.
(** ["xous"], ["-log"], ["-ser"] and ["ver "] as words *)
Definition LOG_SID : SID := mkSID 1937076088 1735355437 1919251245 544367990.

Definition OPCODE_STDOUT : Z := 1.
Definition OPCODE_STDERR : Z := 2.
Definition OPCODE_BEGIN_PANIC : Z := 1000.
Definition OPCODE_PANIC_MSG_BASE : Z := 1100.
Definition OPCODE_PANIC_FINISHED : Z := 1200.

Section Server.
Context (font : nat -> list Z).
Context (kernel : list Event -> SysCall -> res XResult Error).
Context (pixels : list Event -> list Z -> list Z).
Context (bytes_at : list Event -> MemoryRange -> list Z).

Definition emit (e : Event) : M Log unit := modify (fun s => mkLog (events s ++ [e]) (uart_base s) (console s)).
Definition rsyscall (c : SysCall) : M Log (res XResult Error) :=
  h <- gets events ;;
  _ <- emit (Sys c) ;;
  ret (kernel h c).

Definition uart_putc (c : Z) : M Log unit :=
  base <- gets uart_base ;;
  if base =? 0 then ret tt
  else
    _ <- (if c =? 10 then emit (Tx 13) else ret tt) ;;
    emit (Tx c).

Definition set_console (c : option FbConsole) : M Log unit := modify (fun s => mkLog (events s) (uart_base s) c).
Definition putc (c : Z) : M Log unit :=
  _ <- uart_putc c ;;
  o <- gets console ;;
  match o with
  | Some con => con' <- expect (FbConsole.putc font c con) ;; set_console (Some con'.2)
  | None => ret tt
  end.
Definition write_bytes (s : list Z) : M Log unit := for_each s putc.
Definition puts (s : list Z) : M Log unit := write_bytes s.

(** The call that acquires the display also maps the pixels as their last owner left them. *)
Definition acquire_display : M Log unit :=
  h <- gets events ;;
  r <- rsyscall AcquireDisplay ;;
  match r with
  | Ok (R_Scalar2 row col) =>
      o <- gets console ;;
      match o with
      | Some con => set_console (Some (set_cursor (Z.to_nat row) (Z.to_nat col) (set_pixels (pixels h (fb con)) con)))
      | None => ret tt
      end
  | _ => ret tt
  end.
Definition release_display : M Log unit :=
  o <- gets console ;;
  let '(row, col) := match o with Some con => cursor con | None => (0%nat, 0%nat) end in
  _ <- rsyscall (ReleaseDisplay (Z.of_nat row) (Z.of_nat col)) ;;
  ret tt.

(** The loops over the bytes of the arguments; the flag says that [break 'outer] was
    taken. *)
Fixpoint arg_loop (idxs : list Z) (arg n written : Z) : M Log (Z * bool) :=
  match idxs with
  | [] => ret (written, false)
  | byte_idx :: idxs =>
      if n <=? written then ret (written, true)
      else _ <- putc (Z.shiftr arg (byte_idx * 8) mod 256) ;; arg_loop idxs arg n (written + 1)
  end.
Fixpoint args_loop (args : list Z) (n written : Z) : M Log unit :=
  match args with
  | [] => ret tt
  | arg :: args =>
      r <- arg_loop [0; 1; 2; 3; 4; 5; 6; 7] arg n written ;;
      if r.2 then ret tt else args_loop args n r.1
  end.

(** ["\nPANIC: "] *)
Definition PANIC : list Z := [10; 80; 65; 78; 73; 67; 58; 32].

Definition handle_borrow (mem : MemoryMessage) : M Log unit :=
  let opcode := mm_id mem in
  let valid_len := Z.min (default 0 (mm_valid mem)) (range_size (mm_buf mem)) in
  if (opcode =? OPCODE_STDOUT) || (opcode =? OPCODE_STDERR) then
    h <- gets events ;;
    let buf := bytes_at h (mm_buf mem) in
    _ <- assertb (Z.to_nat valid_len <=? length buf)%nat ;;
    write_bytes (take (Z.to_nat valid_len) buf)
  else ret tt.

Definition handle_scalar (scalar : ScalarMessage) : M Log unit :=
  let id := sm_id scalar in
  if id =? OPCODE_BEGIN_PANIC then puts PANIC
  else if id =? OPCODE_PANIC_FINISHED then puts [10]
  else if (OPCODE_PANIC_MSG_BASE <? id) && (id <? OPCODE_PANIC_FINISHED) then
    let n := id - OPCODE_PANIC_MSG_BASE in
    args_loop [sm_arg1 scalar; sm_arg2 scalar; sm_arg3 scalar; sm_arg4 scalar] n 0
  else ret tt.

(** [Drop for Envelope] *)
Definition drop_envelope (env : MessageEnvelope) : M Log unit :=
  match env_body env with
  | Borrow x | MutableBorrow x => _ <- rsyscall (ReturnMemory (env_sender env) (mm_buf x) (mm_offset x) (mm_valid x)) ;; ret tt
  | Move x => r <- rsyscall (UnmapMemory (mm_buf x)) ;; match r with Ok R_Ok => ret tt | _ => panic end
  | _ => ret tt
  end.

Definition handle (env : MessageEnvelope) : M Log unit :=
  _ <- acquire_display ;;
  _ <- match env_body env with
       | Borrow mem => handle_borrow mem
       | Scalar scalar | BlockingScalar scalar => handle_scalar scalar
       | _ => ret tt
       end ;;
  _ <- release_display ;;
  drop_envelope env.

(** [_start] up to the loop; [fb] is what is mapped at [SHELL_FB_VA]. *)
Definition start (uart : Z) (fb : list Z) : M Log unit :=
  _ <- modify (fun s => mkLog (events s) uart (Some (FbConsole_new fb FB_WIDTH FB_HEIGHT FB_WIDTH))) ;;
  _ <- rsyscall (CreateServerWithAddress LOG_SID (mkMsgRange 0 0)) ;;
  ret tt.

(** One round of the loop *)
Definition round : M Log unit :=
  msg <- rsyscall (ReceiveMessage LOG_SID) ;;
  match msg with
  | Ok (R_MessageEnvelope env) => handle env
  | _ => _ <- rsyscall Yield ;; ret tt
  end.
End Server.

(** ** What a message shows *)

Definition message_text (buf : list Z) (m : Message) : list Z :=
  match m with
  | Borrow mem =>
      if (mm_id mem =? 1) || (mm_id mem =? 2) then take (Z.to_nat (Z.min (default 0 (mm_valid mem)) (range_size (mm_buf mem)))) buf else []
  | Scalar sc | BlockingScalar sc =>
      if sm_id sc =? 1000 then PANIC
      else if sm_id sc =? 1200 then [10]
      else if (1100 <? sm_id sc) && (sm_id sc <? 1200) then
        take (Z.to_nat (sm_id sc - 1100)) (word_bytes [sm_arg1 sc; sm_arg2 sc; sm_arg3 sc; sm_arg4 sc])
      else []
  | _ => []
  end.
Definition lent_range (m : Message) : MemoryRange := match memory_message m with Some x => mm_buf x | None => mkRange 0 0 end.

(** The characters on the serial line, and the calls that end a message. *)
Definition sent (base : Z) (text : list Z) : list Event :=
  if base =? 0 then [] else Tx <$> concat ((fun c => if c =? 10 then [13; c] else [c]) <$> text).
Definition answer (env : MessageEnvelope) : list Event :=
  match env_body env with
  | Borrow x | MutableBorrow x => [Sys (ReturnMemory (env_sender env) (mm_buf x) (mm_offset x) (mm_valid x))]
  | Move x => [Sys (UnmapMemory (mm_buf x))]
  | _ => []
  end.

Lemma sent_cons base c text : sent base (c :: text) = sent base [c] ++ sent base text.
Proof. unfold sent. destruct (base =? 0); [reflexivity |]. cbn [fmap list_fmap concat]. rewrite app_nil_r, fmap_app. reflexivity. Qed.

Section Shown.
Context (font : nat -> list Z) (glyph_size : forall i, length (font i) = 8%nat).

Lemma putc_run c s con t : console s = Some con -> shows font t con ->
  exists con', putc font c s = Some (tt, mkLog (events s ++ sent (uart_base s) [c]) (uart_base s) (Some con')) /\
    shows font (text_putc (cols con) c t) con' /\ cols con' = cols con.
Proof.
  intros Hc Ht. destruct (putc_shows font glyph_size c t con Ht) as (con' & E & H' & C & _). exists con'. split; [| auto].
  unfold putc, uart_putc, sent, emit, set_console. unfold bind, gets, modify, ret. destruct (uart_base s =? 0) eqn:Eb.
  - rewrite Hc. unfold expect. rewrite E, app_nil_r. reflexivity.
  - cbn [fmap list_fmap concat]. destruct (c =? 10); cbn; rewrite Hc; unfold expect; rewrite E; cbn; rewrite <- ?app_assoc; reflexivity.
Qed.

Lemma write_run l : forall s con t, console s = Some con -> shows font t con ->
  exists con', write_bytes font l s = Some (tt, mkLog (events s ++ sent (uart_base s) l) (uart_base s) (Some con')) /\
    shows font (text_write (cols con) l t) con' /\ cols con' = cols con.
Proof.
  induction l as [| c l IH]; intros s con t Hc Ht.
  - exists con. split; [| auto]. unfold sent. destruct s as [h b o]. cbn in Hc |- *. subst o. destruct (b =? 0); cbn; rewrite app_nil_r; reflexivity.
  - destruct (putc_run c s con t Hc Ht) as (c1 & E1 & H1 & C1). unfold write_bytes in *. cbn [for_each]. rewrite (bind_run _ _ _ _ _ E1).
    destruct (IH (mkLog (events s ++ sent (uart_base s) [c]) (uart_base s) (Some c1)) c1 _ eq_refl H1) as (c2 & E2 & H2 & C2). exists c2. rewrite E2. cbn [events uart_base].
    rewrite (sent_cons _ c l), app_assoc. split; [reflexivity |]. rewrite C1 in H2, C2. auto.
Qed.

Lemma arg_loop_run arg idxs : forall n w s, 0 <= w <= n ->
  arg_loop font idxs arg n w s =
    (_ <- write_bytes font (take (Z.to_nat (n - w)) ((fun i => Z.shiftr arg (i * 8) mod 256) <$> idxs)) ;;
     ret (Z.min n (w + Z.of_nat (length idxs)), n <? w + Z.of_nat (length idxs))) s.
Proof.
  induction idxs as [| i idxs IH]; intros n w s Hw; cbn [arg_loop fmap list_fmap length].
  - rewrite take_nil. cbn. unfold bind, ret. rewrite Z.add_0_r, Z.min_r, (proj2 (Z.ltb_ge _ _)) by lia. reflexivity.
  - destruct (Z.leb_spec n w).
    + replace (Z.to_nat (n - w)) with 0%nat by lia. cbn [take]. unfold write_bytes, bind, ret. cbn [for_each]. rewrite Z.min_l, (proj2 (Z.ltb_lt _ _)) by lia. repeat f_equal. lia.
    + replace (Z.to_nat (n - w)) with (S (Z.to_nat (n - (w + 1)))) by lia. cbn [take]. unfold write_bytes. cbn [for_each]. unfold bind at 1 2 3.
      destruct (putc font _ s) as [[[] s1] |]; [| reflexivity]. rewrite IH by lia. unfold write_bytes, bind, ret. destruct (for_each _ _ s1) as [[[] s2] |]; [| reflexivity].
      rewrite Nat2Z.inj_succ, <- Z.add_1_l, Z.add_assoc. reflexivity.
Qed.

Lemma shifted_bytes arg : (fun i => Z.shiftr arg (i * 8) mod 256) <$> [0; 1; 2; 3; 4; 5; 6; 7] = to_le_bytes 8 arg.
Proof.
  cbn [fmap list_fmap to_le_bytes]. unfold u8. rewrite !Z.div_div by lia. rewrite !Z.shiftr_div_pow2 by lia. rewrite Z.div_1_r. reflexivity.
Qed.

Lemma write_app l1 l2 s : write_bytes font (l1 ++ l2) s = (_ <- write_bytes font l1 ;; write_bytes font l2) s.
Proof. apply for_each_app. Qed.

Lemma args_loop_run args : forall n w s, 0 <= w <= n ->
  args_loop font args n w s = write_bytes font (take (Z.to_nat (n - w)) (word_bytes args)) s.
Proof.
  induction args as [| arg args IH]; intros n w s Hw; cbn [args_loop]; [unfold word_bytes; cbn; rewrite take_nil; reflexivity |].
  unfold bind at 1. rewrite arg_loop_run by exact Hw. rewrite shifted_bytes. unfold word_bytes. cbn [fmap list_fmap concat]. rewrite take_app, length_to_le_bytes, write_app.
  unfold bind, ret. destruct (write_bytes font _ s) as [[[] s1] |]; [| reflexivity]. cbn [length fst snd]. destruct (Z.ltb_spec n (w + Z.of_nat 8)).
  - replace (Z.to_nat (n - w) - 8)%nat with 0%nat by lia. reflexivity.
  - rewrite IH by lia. unfold word_bytes. do 2 f_equal. lia.
Qed.
Lemma scalar_writes sc s : handle_scalar font sc s = write_bytes font (message_text [] (Scalar sc)) s.
Proof.
  unfold handle_scalar, message_text, OPCODE_BEGIN_PANIC, OPCODE_PANIC_MSG_BASE, OPCODE_PANIC_FINISHED.
  destruct (sm_id sc =? 1000); [reflexivity |]. destruct (sm_id sc =? 1200); [reflexivity |].
  destruct ((1100 <? sm_id sc) && (sm_id sc <? 1200)) eqn:E; [| reflexivity]. apply andb_prop in E. rewrite args_loop_run by lia. rewrite Z.sub_0_r. reflexivity.
Qed.

Lemma body_writes bytes_at env s : (forall h r, length (bytes_at h r) = Z.to_nat (range_size r)) ->
  (match env_body env with
   | Borrow mem => handle_borrow font bytes_at mem
   | Scalar scalar | BlockingScalar scalar => handle_scalar font scalar
   | _ => ret tt
   end) s = write_bytes font (message_text (bytes_at (events s) (lent_range (env_body env))) (env_body env)) s.
Proof.
  intros Hb. destruct (env_body env) as [m | m | m | sc | sc]; try reflexivity; try apply scalar_writes.
  unfold handle_borrow, message_text, lent_range, OPCODE_STDOUT, OPCODE_STDERR. cbn [memory_message]. destruct ((mm_id m =? 1) || _); [| reflexivity].
  unfold bind, gets, assertb. rewrite (proj2 (Nat.leb_le _ _)) by (rewrite Hb; lia). reflexivity.
Qed.
End Shown.

(** What [handle] does with any message, step by step. *)
Lemma message_handled font kernel pixels bytes_at env s con row col t :
  (forall i, length (font i) = 8%nat) -> console s = Some con ->
  kernel (events s) AcquireDisplay = Ok (R_Scalar2 row col) ->
  shows font t (set_cursor (Z.to_nat row) (Z.to_nat col) (set_pixels (pixels (events s) (fb con)) con)) ->
  (forall h r, length (bytes_at h r) = Z.to_nat (range_size r)) ->
  (forall m, env_body env = Move m -> forall h r, kernel h (UnmapMemory r) = Ok R_Ok) ->
  let h := events s ++ [Sys AcquireDisplay] in
  let text := message_text (bytes_at h (lent_range (env_body env))) (env_body env) in
  let t' := text_write (cols con) text t in
  exists con', handle font kernel pixels bytes_at env s =
    Some (tt, mkLog (h ++ sent (uart_base s) text ++ [Sys (ReleaseDisplay (Z.of_nat (t_row t')) (Z.of_nat (t_col t')))] ++ answer env) (uart_base s) (Some con')) /\
    shows font t' con'.
Proof.
  intros Hg Hc Hk Ht Hb Hu h text t'. set (con0 := set_cursor _ _ _) in Ht. set (s0 := mkLog h (uart_base s) (Some con0)).
  assert (E0 : acquire_display kernel pixels s = Some (tt, s0)).
  { unfold acquire_display, rsyscall, emit, set_console. unfold bind, gets, modify, ret. cbn [events]. rewrite Hk. cbn [console]. rewrite Hc. reflexivity. }
  unfold handle. rewrite (bind_run _ _ _ _ _ E0).
  destruct (write_run font Hg text s0 con0 t eq_refl Ht) as (con1 & E1 & H1 & C1). change (cols con0) with (cols con) in H1. fold t' in H1. cbn [events uart_base] in E1.
  assert (Em := body_writes font bytes_at env s0 Hb). cbn [events s0] in Em. fold text in Em.
  exists con1. split; [| exact H1]. unfold bind at 1. rewrite Em, E1. destruct H1 as (_ & _ & _ & R1 & R2 & _).
  unfold release_display, rsyscall, emit, cursor. unfold bind, gets, modify, ret. cbn [events console uart_base]. rewrite <- R1, <- R2.
  unfold drop_envelope, answer. destruct (env_body env) as [m | m | m | sc | sc]; unfold rsyscall, emit, bind, gets, modify, ret; cbn [events console uart_base]; rewrite ?(Hu _ eq_refl), <- ?app_assoc; reflexivity.
Qed.

(** The messages of the protocol whose text the server is to show: lent buffers for
    standard output and error, parts of a panic message (at most the 32 bytes of the
    four arguments) and its end. *)
Definition protocol (m : Message) : bool :=
  match m with
  | Borrow mem => (mm_id mem =? 1) || (mm_id mem =? 2)
  | Scalar sc => ((1100 <? sm_id sc) && (sm_id sc <=? 1132)) || (sm_id sc =? 1200)
  | _ => false
  end.
Definition is_tx (e : Event) : bool := match e with Tx _ => true | _ => false end.

(** C40. The log server shows the messages of its protocol on the screen and on the serial
    line.  If the display is granted with pixels and a cursor that show the text [t],
    whoever drew it, then for every buffer lent for standard output or error, every
    part of a panic message and its end, the server acquires the display and writes
    exactly the text of the message after [t] and to the serial line: the valid bytes
    of the buffer, the bytes packed into the arguments, or a line feed.  After that it
    writes no more, releases the display once with the cursor at the end of that text,
    and gives a lent buffer back once, in whatever order, and makes no other call. *)
Theorem log_message_shown font kernel pixels bytes_at env s con row col t :
  (forall i, length (font i) = 8%nat) -> console s = Some con -> protocol (env_body env) = true ->
  kernel (events s) AcquireDisplay = Ok (R_Scalar2 row col) ->
  shows font t (set_cursor (Z.to_nat row) (Z.to_nat col) (set_pixels (pixels (events s) (fb con)) con)) ->
  (forall h r, length (bytes_at h r) = Z.to_nat (range_size r)) ->
  let h := events s ++ [Sys AcquireDisplay] in
  let text := match env_body env with
              | Borrow mem => take (Z.to_nat (Z.min (default 0 (mm_valid mem)) (range_size (mm_buf mem)))) (bytes_at h (mm_buf mem))
              | Scalar sc => if sm_id sc =? 1200 then [10] else take (Z.to_nat (sm_id sc - 1100)) (word_bytes [sm_arg1 sc; sm_arg2 sc; sm_arg3 sc; sm_arg4 sc])
              | _ => []
              end in
  let t' := text_write (cols con) text t in
  exists s' con' after, handle font kernel pixels bytes_at env s = Some (tt, s') /\
    events s' = h ++ sent (uart_base s) text ++ after /\ List.filter is_tx after = [] /\
    after ≡ₚ Sys (ReleaseDisplay (Z.of_nat (t_row t')) (Z.of_nat (t_col t'))) :: answer env /\
    console s' = Some con' /\ shows font t' con'.
Proof.
  intros Hg Hc Hp Hk Ht Hb h text t'.
  assert (Et : message_text (bytes_at h (lent_range (env_body env))) (env_body env) = text).
  { unfold text, message_text, lent_range. destruct (env_body env) as [m | m | m | sc | sc]; try discriminate Hp; cbn [protocol memory_message] in *; [rewrite Hp; reflexivity |].
    destruct (Z.eqb_spec (sm_id sc) 1200) as [E |]; [rewrite E; reflexivity |]. rewrite orb_false_r in Hp. apply andb_prop in Hp as [H1 H2]. apply Z.leb_le in H2.
    rewrite H1. rewrite (proj2 (Z.eqb_neq (sm_id sc) 1000)), (proj2 (Z.ltb_lt _ 1200)) by (apply Z.ltb_lt in H1; lia). reflexivity. }
  assert (Hm : forall m, env_body env <> Move m) by (intros m E; rewrite E in Hp; discriminate).
  destruct (message_handled font kernel pixels bytes_at env s con row col t Hg Hc Hk Ht Hb) as (con' & E & Hs); [intros m E; destruct (Hm m E) |]. cbv zeta in E, Hs. fold h in E, Hs. rewrite Et in E, Hs.
  eexists _, con', (_ :: answer env). split; [exact E |]. split; [reflexivity |].
  split; [unfold answer; destruct (env_body env); reflexivity |]. split; [reflexivity |]. split; [reflexivity | exact Hs].
Qed.

(** A kernel that grants the display with the cursor at the top left, and a page that
    starts with the text ["A\nB"]. *)
Definition demo_kernel (h : list Event) (c : SysCall) : res XResult Error :=
  match c with AcquireDisplay => Ok (R_Scalar2 0 0) | _ => Ok R_Ok end.
Definition demo_bytes (h : list Event) (r : MemoryRange) : list Z := take (Z.to_nat (range_size r)) ([65; 10; 66] ++ replicate (Z.to_nat (range_size r)) 0).

Lemma log_message_shown_witness :
  let s := FbConsole_new (replicate (16 * 37)%nat 7) 16 37 16 in
  let env := mkEnvelope 5 (Borrow (mkMemoryMessage 1 (mkRange 65536 16384) None (Some 3))) in
  exists con s' con', clear s = Some (tt, con) /\
    handle bars demo_kernel (fun _ l => l) demo_bytes env (mkLog [] 9 (Some con)) = Some (tt, s') /\
    take 5 (events s') = [Sys AcquireDisplay; Tx 65; Tx 13; Tx 10; Tx 66] /\
    drop 5 (events s') ≡ₚ [Sys (ReleaseDisplay 1 1); Sys (ReturnMemory 5 (mkRange 65536 16384) None (Some 3))] /\
    console s' = Some con' /\ shows bars (mkText [[Some 65; None]; [Some 66; None]] 1 1) con'.
Proof.
  intros s env. assert (Hs : shaped s) by (repeat split; cbn; lia).
  destruct (clear_shows bars s Hs) as (con & E & H & _). assert (E' := E). vm_compute in E'. injection E' as E'. exists con.
  destruct (log_message_shown bars demo_kernel (fun _ l => l) demo_bytes env (mkLog [] 9 (Some con)) con 0 0 (blank s)) as (s' & con' & after & E1 & V1 & _ & P1 & C1 & H1).
  - intros i. apply length_replicate.
  - reflexivity.
  - reflexivity.
  - reflexivity.
  - rewrite <- E' in H |- *. exact H.
  - intros h r. unfold demo_bytes. rewrite length_take, length_app, length_replicate. lia.
  - exists s', con'. split; [exact E |]. split; [exact E1 |]. rewrite V1. rewrite <- E' in P1, H1 |- *. split; [reflexivity |]. split; [exact P1 |]. split; [exact C1 | exact H1].
Defined.
